(* ===== verification/_CoqProject ===== *)
-Q . S2P
Prelude.v
Hoare.v
CppString.v
Posix.v
Extents.v
ExtentWriter.v
ActionProcessor.v
FileWriter.v
Gzip.v
Utils.v
FsIterator.v
Actions.v
Subprocess.v
BootActions.v
Copier.v
Omaha.v
Http.v
Libcurl.v
UpdateAttempter.v
WmUtil.v
KeyBindings.v
XConnection.v
WmIpc.v
Double.v
Window.v
WmEvents.v
Panel.v
WmFrame.v
PanelSafe.v
PanelHeap.v
PanelHeapSafe.v
PanelBar.v
PanelDock.v
PanelDockSafe.v
PanelManager.v
PanelBarSafe.v
PanelManagerSafe.v
PanelSystem.v
PanelSystemSafe.v
PanelBarSpec.v
PanelSpec.v
Toplevel.v
LayoutManager.v
LayoutFrame.v
ToplevelSafe.v
LayoutSafe.v
LayoutKeys.v
LayoutManagerSafe.v
LayoutEvents.v
WmManager.v
WmManagerSafe.v
Rsa.v
Sha2.v
Sha2Spec.v
Sha1.v
Firmware.v
FirmwareSafe.v
