(* ===== verification/Prelude.v ===== *)
(** * Verification of the Chromium OS update engine, window manager and verified boot

    This library models two programs of the repository, src/platform/update_engine
    and src/platform/window_manager, and the library src/platform/vboot_reference,
    operation by operation, and proves what makes their parts correct.  Paths below
    are relative to these directories.

    ** How the code is written down

    A C++ object is a record of its fields; a method is a program in the monad
    [M S A] (this file): state passing on [S] with faults.  A fault is the end of
    the process: [CheckFailed] for a [CHECK] (and a [DCHECK] in a debug build, class
    [Build] of WmEvents.v) that fails, [Undefined] for undefined behaviour, [OutOfFuel] for a loop
    the model cut short.  An object inside a bigger one is reached with [zoom] or
    through a getter and a setter, so a callback may run on the whole state and call
    the object again.  Pointers that matter are addresses: actions and pipes
    (ActionProcessor.v, Actions.v, UpdateAttempter.v), panels (PanelHeap.v); using a
    dangling one is [Undefined].  Integers are [Z] at their width: [i32], [u32],
    [i64], [u64] wrap around; [size_t], [long] and pointers have 32 bits, file offsets
    64, as on the x86 netbooks the code was built for.  Strings are lists of bytes,
    [std::map] and [std::set] finite maps and sets, [std::vector] a list, [double] an
    executable binary64 number (Double.v).

    What is outside the repository is a parameter: a type class of operations on a
    world (POSIX and stdio, zlib, bzip2, libcurl, glib, OpenSSL, libxml2, XCB and
    Xlib, Clutter), with classes of laws for the documented behaviour a theorem needs;
    every file has a small concrete world with the laws, in which the theorems are
    instantiated (the lemmas ending in [_witness]).

    Hoare.v is the program logic: [wp m Q s] (no fault, [Q] at the end) and
    [framed I R m] (from any state with [I]: no fault, [I] again, related by [R]).
    CppString.v has the operations of [std::string].

    ** The update engine

    - Extents.v: graph_types.h, graph_utils.cc, extent_mapper.cc.  Run-length
      encoding of block lists; the FIBMAP loop refines it on every path.
    - ExtentWriter.v: extent_writer.{h,cc}, bzip_extent_writer.{h,cc}.  Writers over
      extents behind the interface [ByteSink]; a padded stack of writers leaves the
      target holding exactly the data.
    - ActionProcessor.v, Actions.v: action_processor.{h,cc}, action.h, action_pipe.h.
      The queue of actions refines a monitor automaton; it aborts exactly when the
      protocol is violated; pipes are links.
    - FileWriter.v, Gzip.v, Utils.v, FsIterator.v, Subprocess.v: the helpers of the
      same names (and decompressing_file_writer.{h,cc}): all-or-errno writes, the
      round trip and termination of compression, path normal forms, preorder
      traversal, callbacks exactly once.
    - BootActions.v, Copier.v, Omaha.v, Http.v, Libcurl.v: the actions of an update
      (set_bootable_flag_, postinstall_runner_, filesystem_copier_, omaha_*,
      update_check_, download_action.{h,cc}) and the HTTP fetcher, whose resumed
      transfers deliver the body exactly once.
    - UpdateAttempter.v: main.cc.  The attempts composed of all these actions follow
      an abstract state machine, and the main loop ends.

    ** The window manager

    - WmUtil.v, KeyBindings.v, XConnection.v, WmIpc.v: util.{h,cc}, key_bindings.{h,cc},
      x_connection.{h,cc} with real_x_connection.cc and atom_cache.{h,cc},
      wm_ipc.{h,cc}.  The stacking list refines a duplicate-free list, the three
      tables of the key bindings stay consistent, messages and window types make the
      round trip through the X server.
    - Window.v: window.{h,cc}; the world of X, Clutter and shadows it runs on is the
      class [Wm], whose requests are values.
    - WmEvents.v: the registry of event consumers, event_consumer_registrar.{h,cc},
      motion_event_coalescer.{h,cc}, pointer_position_watcher.{h,cc},
      stacking_manager.{h,cc} and the methods of window_manager.cc the panels call.
    - Panel.v, PanelSpec.v: panel.{h,cc}, and that dragging a border resizes by what
      the pointer moved, whenever the coalescing timer fires in between.
    - PanelHeap.v: panels at addresses, and [Container.t], the virtual functions of
      panel_container.h, which is the interface between the next two parts.
    - PanelBar.v, PanelDock.v: the containers, panel_bar.{h,cc} and panel_dock.{h,cc}.
      WmFrame.v and PanelHeapSafe.v say what the operations of windows, panels and
      panels on the heap leave alone; over these PanelBarSafe.v, PanelBarSpec.v and
      PanelDockSafe.v have the containers' invariants: no operation uses a dangling
      panel or fails a [CHECK], each panel is listed once, and the layout.
    - PanelManager.v: panel_manager.{h,cc}, against any containers; PanelManagerSafe.v
      keeps its books right from the laws of the containers ([ContainerLaws]).
    - PanelSystem.v, PanelSystemSafe.v: the panel manager with its bar and docks, and
      that no course of events makes it fail.  PanelSafe.v has what a panel keeps.
    - Toplevel.v, LayoutManager.v: layout_manager.{h,cc}, toplevels and transients at
      addresses, behind [LayoutHost] (what the window manager does for them) and
      [LayoutStore] (where they are kept).  LayoutFrame.v, ToplevelSafe.v, LayoutSafe.v,
      LayoutKeys.v and LayoutManagerSafe.v have the frame of each operation, the
      invariant of the books and that the bound keys are those of the mode;
      LayoutEvents.v puts them together: from construction on, no event fails.
    - WmManager.v, WmManagerSafe.v: window_manager.{h,cc}.  The windows, their stacking
      order and the mapped windows follow the X server through every event, which is
      handled to its end; every registered consumer is told.
    - The interfaces between these: [WmScreen] and [WmHost] (WmFrame.v) are what panels
      need of the window manager, [WmRequests] (WmManager.v) what the window manager
      asks of X; the classes [PartPlace], [LayoutPlace] and the two [ManagerPlace] say
      that a part of the state is apart from the others; [KeyGrabLaws], [LayoutHostLaws],
      [LayoutLaws] and [WmRequestLaws] are the laws.

    ** The verified boot

    - Rsa.v: crypto/rsa.c, the tables of crypto/padding.c and the keys of
      crypto/rsa_utility.c.  Montgomery multiplication word by word is multiplication
      modulo the key's modulus, and a signature is accepted exactly if its 65537th
      power is the padded digest.
    - Sha2.v, Sha1.v: crypto/sha2.c, with loops and unrolled, and crypto/sha1.c.
      Sha2Spec.v has the functions of FIPS 180-2 over whole messages and that the code
      computes them however the message is cut.
    - Firmware.v: crypto/sha_utility.c, RSAVerifyBinary_f, utils/firmware_image.c.
      FirmwareSafe.v: VerifyFirmware accepts exactly what the chain of keys signed, and
      both verifiers agree on every image with a right header.

    ** Fuel

    A loop the code does not bound structurally takes fuel ([loop], this file), and a
    theorem says how much is enough: 32 doublings for a 32-bit output buffer (Gzip.v),
    the number of bytes to write (ExtentWriter.v, FileWriter.v), the length of a
    string (Utils.v), the number of entries of a tree (FsIterator.v), ten reports of
    the processor (UpdateAttempter.v), 64 bytes of padding (Sha1.v).  Loops over a
    container take its size and one more: the bindings of an action (KeyBindings.v),
    the transients of a toplevel (Toplevel.v), the consumers of an event and the
    windows of the stack (WmManager.v).  The loops over what another program sends
    (Copier.v, Libcurl.v, the compressed streams of ExtentWriter.v and FileWriter.v)
    have the fuel as an argument.  [loop_fuel_mono]: more fuel changes nothing.

    ** What is not modelled

    - The rest of WindowManager::Init, which makes the other objects and their windows.
    - The scene graph (tidy_interface.cc, opengl_visitor.cc, the gles directory):
      real-time animation and OpenGL calls; the parts modelled hand it requests.
    - image_container.cc, hotkey_overlay.cc, metrics_reporter.cc, both main programs'
      start-up, the delta generator (empty here), mocks and tests.
    - Logging; the time functions of util.cc, which compute with [double]s of the
      system clock; the text of [strerror_r].
    - Of the verified boot the command line tools, which read files and run OpenSSL, and
      the little-endian version of sha1.c, which is not compiled.
    - The other programs of src/platform (pam_offline, cryptohome, minijail, metrics,
      autox, theme, tpm_lite), which are separate and small or C libraries;
      src/third_party. *)

From Stdlib Require Export ZArith Lia.
From Corelib Require Export Init.Byte.
From Stdlib Require Strings.Byte.
From stdpp Require Export base decidable option list gmap strings sets.

#[global] Open Scope Z_scope.

Declare Scope cpp_scope.
Delimit Scope cpp_scope with cpp.
#[global] Open Scope cpp_scope.

(** ** Record update: [r <| field := v |>]. *)

Class Eta (R : Type) := eta : R → R.
Class Update {R T : Type} (proj : R → T) := update : (T → T) → R → R.
Arguments update {R T} proj {_} f r.

Ltac head_of t := lazymatch t with ?f _ => head_of f | _ => t end.
Ltac derive_update :=
  match goal with
  | |- @Update ?R ?T ?proj =>
      let i := constr:(@eta R _) in
      let e := eval cbv delta [eta] beta in i in
      let h := head_of e in
      let e := eval cbv delta [h] beta in e in
      lazymatch (eval pattern proj in e) with
      | (fun _ => ?body) _ => fail "not a field of the record:" proj
      | ?g _ => exact (fun f => g (fun r => f (proj r)))
      end
  end.
#[export] Hint Extern 1 (Update _) => derive_update : typeclass_instances.

Notation "r <| proj := v |>" := (update proj (fun _ => v) r)
  (at level 1, left associativity, format "r <| proj  :=  v |>") : cpp_scope.

(** ** Faults and the state monad of the C++ code.

    [CheckFailed]: a [CHECK] macro aborted the process; [Undefined]: the code
    did something C++ leaves undefined (dereferenced a null pointer or an end
    iterator, threw an exception nobody catches); [OutOfFuel]: the fuel given to
    a loop of the model was too small, never a behaviour of the code. *)
Inductive fault := CheckFailed | Undefined | OutOfFuel.
#[export] Instance fault_eq_dec : EqDecision fault.
Proof. solve_decision. Defined.

Inductive result (A : Type) := Val (a : A) | Fault (f : fault).
Arguments Val {A} a.
Arguments Fault {A} f.

Definition M (S A : Type) : Type := S → result (A * S).

#[export] Instance M_ret S : MRet (M S) := fun A a s => Val (a, s).
#[export] Instance M_bind S : MBind (M S) := fun A B k m s =>
  match m s with
  | Val (a, s') => k a s'
  | Fault f => Fault f
  end.

Definition mget {S} : M S S := fun s => Val (s, s).
Definition gets {S A} (f : S → A) : M S A := fun s => Val (f s, s).
Definition mput {S} (s : S) : M S unit := fun _ => Val ((), s).
Definition modify {S} (f : S → S) : M S unit := fun s => Val ((), f s).
Definition fail {S A} (f : fault) : M S A := fun _ => Fault f.

(** [CHECK(b)] of the logging library: the process dies when [b] is false. *)
Definition CHECK {S} (b : bool) : M S unit :=
  if b then mret () else fail CheckFailed.

(** A call out of the modelled code: a total function on the world. *)
Definition extern {S A} (f : S → A * S) : M S A := fun s => Val (f s).

(** Loops: [body a] either goes on with a new loop state ([inl]) or leaves the
    loop ([inr]).  One unit of fuel per iteration. *)
Fixpoint loop {S A B} (fuel : nat) (body : A → M S (A + B)) (a : A) : M S B :=
  match fuel with
  | O => fail OutOfFuel
  | S n => r ← body a;
           match r with
           | inl a' => loop n body a'
           | inr b => mret b
           end
  end.

(** [for (it = l.begin(); it != l.end(); ++it) f( *it )]. *)
Fixpoint for_each {S A} (f : A → M S unit) (l : list A) : M S unit :=
  match l with
  | [] => mret ()
  | x :: l' => f x;; for_each f l'
  end.

(** Run the code of a sub-object inside the state of its owner. *)
Definition zoom {S T A} (get : S → T) (put : T → S → S) (m : M T A) : M S A :=
  fun s => match m (get s) with
           | Val (a, t) => Val (a, put t s)
           | Fault f => Fault f
           end.

Lemma bind_Val {S A B} (m : M S A) (k : A → M S B) s r :
  (m ≫= k) s = Val r ↔ ∃ a s', m s = Val (a, s') ∧ k a s' = Val r.
Proof.
  unfold mbind, M_bind. destruct (m s) as [[a s']|f]; split.
  - eauto.
  - intros (a' & s'' & [= <- <-] & H). exact H.
  - discriminate.
  - intros (a' & s'' & [=] & _).
Qed.

Lemma bind_run {S A B} (m : M S A) (k : A → M S B) s a s' :
  m s = Val (a, s') → (m ≫= k) s = k a s'.
Proof. unfold mbind, M_bind. by intros ->. Qed.

Lemma bind_fault {S A B} (m : M S A) (k : A → M S B) s f :
  m s = Fault f → (m ≫= k) s = Fault f.
Proof. unfold mbind, M_bind. by intros ->. Qed.

Lemma bind_assoc {S A B C} (m : M S A) (k : A → M S B) (h : B → M S C) s :
  ((m ≫= k) ≫= h) s = (m ≫= (fun a => k a ≫= h)) s.
Proof. unfold mbind, M_bind. by destruct (m s) as [[]|]. Qed.

Lemma bind_ext {S A B} (m : M S A) (k k' : A → M S B) s :
  (∀ a s', k a s' = k' a s') → (m ≫= k) s = (m ≫= k') s.
Proof. intros Hk. unfold mbind, M_bind. destruct (m s) as [[a s']|]; [apply Hk|done]. Qed.
Lemma CHECK_true {S} (b : bool) (s : S) : b = true → CHECK b s = Val ((), s).
Proof. by intros ->. Qed.

Lemma CHECK_false {S} (b : bool) (s : S) : b = false → CHECK b s = Fault CheckFailed.
Proof. by intros ->. Qed.

Lemma CHECK_bind {S A} (b : bool) (k : unit → M S A) (s : S) :
  b = true → (CHECK b ≫= k) s = k () s.
Proof. by intros ->. Qed.

Lemma gets_bind {S A B} (f : S → A) (k : A → M S B) (s : S) : (gets f ≫= k) s = k (f s) s.
Proof. done. Qed.

Lemma loop_S {S A B} n (body : A → M S (A + B)) a s :
  loop (Datatypes.S n) body a s =
  match body a s with
  | Val (inl a', s') => loop n body a' s'
  | Val (inr b, s') => Val (b, s')
  | Fault f => Fault f
  end.
Proof. cbn. unfold mbind, M_bind. destruct (body a s) as [[[|] ]|]; reflexivity. Qed.

(** More fuel never changes a result that is not [OutOfFuel]. *)
Lemma loop_fuel_mono {S A B} n m (body : A → M S (A + B)) a s r :
  (n ≤ m)%nat → loop n body a s = Val r → loop m body a s = Val r.
Proof.
  revert m a s. induction n as [|n IH]; intros m a s Hle; [discriminate|].
  destruct m as [|m]; [lia|]. rewrite !loop_S.
  destruct (body a s) as [[[a'|b] s']|f]; [|done|done].
  intros H. apply IH; [lia|done].
Qed.

(** The invariant rule of a loop with a decreasing measure: enough fuel
    reaches an exit state. *)
Lemma loop_total {S A B} (Inv : A → S → Prop) (Post : B → S → Prop)
    (measure : A → S → nat) (body : A → M S (A + B)) :
  (∀ a s, Inv a s →
     ∃ r s', body a s = Val (r, s') ∧
       match r with
       | inl a' => Inv a' s' ∧ (measure a' s' < measure a s)%nat
       | inr b => Post b s'
       end) →
  ∀ fuel a s, Inv a s → (measure a s < fuel)%nat →
    ∃ b s', loop fuel body a s = Val (b, s') ∧ Post b s'.
Proof.
  intros Hstep fuel. induction fuel as [|n IH]; intros a s HI Hf; [lia|].
  rewrite loop_S. destruct (Hstep a s HI) as (r & s' & -> & Hr).
  destruct r as [a'|b]; [|eauto].
  destruct Hr as [HI' Hlt]. apply IH; [done|lia].
Qed.

(** Run the monadic plumbing of a goal (or of all hypotheses as well). *)
Ltac mrun :=
  cbv beta iota delta [mret M_ret mbind M_bind mget gets mput modify fail extern zoom].
Ltac mrun_in H :=
  cbv beta iota delta [mret M_ret mbind M_bind mget gets mput modify fail extern zoom] in H.

(** Invert every successful bind of a hypothesis. *)
Ltac minv H :=
  apply bind_Val in H;
  let a := fresh "a" in let s := fresh "s" in
  let H1 := fresh "Hm" in destruct H as (a & s & H1 & H).

Create HintDb cpp.
#[export] Hint Resolve CHECK_true CHECK_false : cpp.

(** ** Machine integers: values in [Z], wrap-around written out. *)

Definition u32 (z : Z) : Z := z `mod` 2 ^ 32.
Definition u64 (z : Z) : Z := z `mod` 2 ^ 64.
(** [int] and the other signed 32-bit types (two's complement conversion). *)
Definition i32 (z : Z) : Z := (z + 2 ^ 31) `mod` 2 ^ 32 - 2 ^ 31.
Definition i64 (z : Z) : Z := (z + 2 ^ 63) `mod` 2 ^ 64 - 2 ^ 63.

(** [size_t], [std::string::size_type] and [long] are 32 bits wide: the target
    is 32-bit x86 (gzip.cc calls [std::max(1U, in_size / 2)], and the override
    [BzipExtentWriter::Init(..., uint32)] of a [size_t] parameter only exists
    where [size_t] is [unsigned int]). *)
Abbreviation usize := u32.
Abbreviation ssize := i32.

Definition is_u32 (z : Z) : Prop := 0 ≤ z < 2 ^ 32.
Definition is_u64 (z : Z) : Prop := 0 ≤ z < 2 ^ 64.
Definition is_i32 (z : Z) : Prop := - 2 ^ 31 ≤ z < 2 ^ 31.
Definition is_i64 (z : Z) : Prop := - 2 ^ 63 ≤ z < 2 ^ 63.

Lemma u32_small z : is_u32 z → u32 z = z.
Proof. intros H. unfold u32, is_u32 in *. by apply Z.mod_small. Qed.
Lemma u64_small z : is_u64 z → u64 z = z.
Proof. intros H. unfold u64, is_u64 in *. by apply Z.mod_small. Qed.
Lemma i32_small z : is_i32 z → i32 z = z.
Proof. intros H. unfold i32, is_i32 in *. rewrite Z.mod_small; lia. Qed.
Lemma i64_small z : is_i64 z → i64 z = z.
Proof. intros H. unfold i64, is_i64 in *. rewrite Z.mod_small; lia. Qed.
Lemma u32_range z : is_u32 (u32 z).
Proof. unfold is_u32, u32. apply Z.mod_pos_bound. lia. Qed.
Lemma u64_range z : is_u64 (u64 z).
Proof. unfold is_u64, u64. apply Z.mod_pos_bound. lia. Qed.
Lemma i32_range z : is_i32 (i32 z).
Proof. unfold is_i32, i32. pose proof (Z.mod_pos_bound (z + 2^31) (2^32)). lia. Qed.
#[export] Hint Resolve u32_range u64_range i32_range : cpp.

(** Wrapping a part of a sum first changes nothing. *)
Lemma i32_eqm a b : (a - b) mod 2 ^ 32 = 0 → i32 a = i32 b.
Proof. unfold i32. intros Hab. Z.to_euclidean_division_equations. lia. Qed.
Lemma i32_i32_add a b : i32 (i32 a + b) = i32 (a + b).
Proof. apply i32_eqm. unfold i32. Z.to_euclidean_division_equations. lia. Qed.
Lemma i32_add_i32 a b : i32 (a + i32 b) = i32 (a + b).
Proof. by rewrite Z.add_comm, i32_i32_add, Z.add_comm. Qed.
Lemma i32_sub_i32 a b c : i32 (a - i32 b - c) = i32 (a - b - c).
Proof. apply i32_eqm. unfold i32. Z.to_euclidean_division_equations. lia. Qed.
Lemma i32_add_opp_i32 a b : i32 (a + i32 (- i32 b)) = i32 (a - b).
Proof. rewrite i32_add_i32. apply i32_eqm. unfold i32. Z.to_euclidean_division_equations. lia. Qed.
Lemma i32_idem a : i32 (i32 a) = i32 a.
Proof. apply i32_small, i32_range. Qed.

(** ** Bytes and C++ strings ([char] sequences as lists of bytes). *)

Abbreviation byte := Byte.byte.
Abbreviation bytes := (list Byte.byte).

#[export] Instance byte_eq_dec : EqDecision byte := Byte.byte_eq_dec.
#[export] Program Instance byte_countable : Countable byte := {|
  encode b := N.succ_pos (Byte.to_N b);
  decode p := Byte.of_N (N.pred (Npos p))
|}.
Next Obligation. intros b. change (Byte.of_N (N.pred (Npos (N.succ_pos (Byte.to_N b)))) = Some b).
  rewrite N.succ_pos_spec, N.pred_succ. apply Byte.of_to_N. Qed.

(** Value of an [unsigned char]. *)
Definition byte_val (b : byte) : Z := Z.of_N (Byte.to_N b).
(** The byte with a given value modulo 256. *)
Definition byte_of (z : Z) : byte :=
  default x00 (Byte.of_N (Z.to_N (z `mod` 256))).
(** Value of a (signed, as on the x86 targets) [char]. *)
Definition char_val (b : byte) : Z :=
  let v := byte_val b in if decide (v < 128) then v else v - 256.

(** A string literal. *)
Definition str (s : string) : bytes := String.list_byte_of_string s.

Lemma byte_val_range b : 0 ≤ byte_val b < 256.
Proof. unfold byte_val. pose proof (Byte.to_N_bounded b). lia. Qed.

Lemma byte_of_val b : byte_of (byte_val b) = b.
Proof.
  unfold byte_of. rewrite Z.mod_small by apply byte_val_range.
  unfold byte_val. rewrite N2Z.id. by rewrite Byte.of_to_N.
Qed.

Lemma byte_val_inj a b : byte_val a = byte_val b → a = b.
Proof. intros Hv. by rewrite <-(byte_of_val a), <-(byte_of_val b), Hv. Qed.

Lemma byte_val_of z : 0 ≤ z < 256 → byte_val (byte_of z) = z.
Proof.
  intros Hz. unfold byte_of, byte_val. rewrite Z.mod_small by done.
  destruct (Byte.of_N (Z.to_N z)) as [b|] eqn:E; cbn.
  - apply Byte.to_of_N in E. lia.
  - apply Byte.of_N_None_iff in E. lia.
Qed.

(** Length of a list as a [Z] (a [size_t]). *)
Definition zlen {A} (l : list A) : Z := Z.of_nat (length l).

Lemma zlen_nonneg {A} (l : list A) : 0 ≤ zlen l.
Proof. unfold zlen. lia. Qed.
Lemma zlen_app {A} (l k : list A) : zlen (l ++ k) = zlen l + zlen k.
Proof. unfold zlen. rewrite length_app. lia. Qed.
Lemma zlen_cons {A} (x : A) l : zlen (x :: l) = 1 + zlen l.
Proof. unfold zlen. cbn. lia. Qed.
Lemma zlen_nil {A} : zlen (@nil A) = 0.
Proof. done. Qed.
Lemma zlen_one {A} (x : A) : zlen [x] = 1.
Proof. done. Qed.
Lemma zlen_0 {A} (l : list A) : zlen l = 0 → l = [].
Proof. unfold zlen. destruct l; cbn; [done|lia]. Qed.
Lemma zlen_replicate {A} n (x : A) : zlen (replicate n x) = Z.of_nat n.
Proof. unfold zlen. by rewrite length_replicate. Qed.
Create Rewrite HintDb zlen.
#[export] Hint Rewrite @zlen_app @zlen_cons @zlen_nil @zlen_replicate : zlen.
#[export] Hint Resolve zlen_nonneg : cpp.

Lemma snoc_cases {A} (l : list A) : l = [] ∨ ∃ l' x, l = l' ++ [x].
Proof. destruct l as [|x l] using rev_ind; [by left|right; eauto]. Qed.
