(* ===== verification/Hoare.v ===== *)
(** * A program logic for the state monad.

    [wp m Q s]: run from [s], [m] does not fault and ends with [Q].  [framed I R m]:
    from every state with [I] the program runs, keeps [I], and moves along [R];
    with [R] a preorder this composes without looking at the intermediate states. *)

From S2P Require Import Prelude.

Definition wp {S A} (m : M S A) (Q : A → S → Prop) (s : S) : Prop :=
  match m s with Val (a, s') => Q a s' | Fault _ => False end.

Section rules.
Context {S : Type}.

Lemma wp_run {A} (m : M S A) Q s : wp m Q s ↔ ∃ a s', m s = Val (a, s') ∧ Q a s'.
Proof.
  unfold wp. destruct (m s) as [[a s']|f]; split.
  - eauto.
  - by intros (? & ? & [= <- <-] & ?).
  - done.
  - by intros (? & ? & ? & _).
Qed.

Lemma wp_mono {A} (m : M S A) (Q Q' : A → S → Prop) s :
  wp m Q s → (∀ a s', Q a s' → Q' a s') → wp m Q' s.
Proof. unfold wp. destruct (m s) as [[]|]; eauto. Qed.

Lemma wp_and {A} (m : M S A) (Q Q' : A → S → Prop) s :
  wp m Q s → wp m Q' s → wp m (fun a s' => Q a s' ∧ Q' a s') s.
Proof. unfold wp. destruct (m s) as [[]|]; auto. Qed.

Lemma wp_bind {A B} (m : M S A) (k : A → M S B) Q s :
  wp m (fun a s' => wp (k a) Q s') s → wp (m ≫= k) Q s.
Proof. unfold wp, mbind, M_bind. by destruct (m s) as [[]|]. Qed.

Lemma wp_bind_inv {A B} (m : M S A) (k : A → M S B) Q s :
  wp (m ≫= k) Q s → wp m (fun a s' => wp (k a) Q s') s.
Proof. unfold wp, mbind, M_bind. by destruct (m s) as [[]|]. Qed.

(** Sequencing with an intermediate assertion. *)
Lemma wp_cut {A B} (m : M S A) (k : A → M S B) P Q s :
  wp m P s → (∀ a s', P a s' → wp (k a) Q s') → wp (m ≫= k) Q s.
Proof. intros Hm Hk. apply wp_bind. by eapply wp_mono. Qed.

(** Two steps as one. *)
Lemma wp_pair {A B C} (m : M S A) (k : A → M S B) (h : A → B → M S C) P Q s :
  wp (a ← m; b ← k a; mret (a, b)) P s → (∀ a b s', P (a, b) s' → wp (h a b) Q s') →
  wp (a ← m; b ← k a; h a b) Q s.
Proof.
  unfold wp, mbind, M_bind. destruct (m s) as [[a s1]|]; [|done]. destruct (k a s1) as [[b s2]|]; [|done].
  intros HP Hk. by apply (Hk a b s2).
Qed.

Lemma wp_ret {A} (a : A) Q s : Q a s → wp (mret a : M S A) Q s.
Proof. done. Qed.
Lemma wp_gets {A} (f : S → A) Q s : Q (f s) s → wp (gets f) Q s.
Proof. done. Qed.
Lemma wp_mget (Q : S → S → Prop) s : Q s s → wp mget Q s.
Proof. done. Qed.
Lemma wp_modify f (Q : unit → S → Prop) s : Q () (f s) → wp (modify f) Q s.
Proof. done. Qed.
Lemma wp_CHECK b (Q : unit → S → Prop) s : b = true → Q () s → wp (CHECK b) Q s.
Proof. by intros ->. Qed.

Lemma wp_gets_bind {A B} (f : S → A) (k : A → M S B) Q s : wp (k (f s)) Q s → wp (gets f ≫= k) Q s.
Proof. done. Qed.
Lemma wp_modify_bind {B} f (k : unit → M S B) Q s : wp (k ()) Q (f s) → wp (modify f ≫= k) Q s.
Proof. done. Qed.
Lemma wp_ret_bind {A B} (a : A) (k : A → M S B) Q s : wp (k a) Q s → wp ((mret a : M S A) ≫= k) Q s.
Proof. done. Qed.
Lemma wp_CHECK_bind {B} b (k : unit → M S B) Q s : b = true → wp (k ()) Q s → wp (CHECK b ≫= k) Q s.
Proof. by intros ->. Qed.

Lemma wp_zoom {T A} (get : S → T) (put : T → S → S) (m : M T A) Q s :
  wp m (fun a t => Q a (put t s)) (get s) → wp (zoom get put m) Q s.
Proof. unfold wp, zoom. by destruct (m (get s)) as [[]|]. Qed.

(** A loop over a list, with what holds after the elements seen so far. *)
Lemma wp_for_each {A} (f : A → M S unit) (Inv : list A → S → Prop) (Q : unit → S → Prop) l s :
  Inv [] s →
  (∀ l1 a l2 s', l = l1 ++ a :: l2 → Inv l1 s' → wp (f a) (fun _ => Inv (l1 ++ [a])) s') →
  (∀ s', Inv l s' → Q () s') →
  wp (for_each f l) Q s.
Proof.
  intros Hinit Hstep Hend.
  cut (∀ l2 l1 s', l = l1 ++ l2 → Inv l1 s' → wp (for_each f l2) (fun _ => Inv l) s').
  { intros Hgen. eapply wp_mono; [by apply (Hgen l [] s)|intros []; eauto]. }
  induction l2 as [|a l2 IH]; intros l1 s' Hl Hs'.
  - rewrite app_nil_r in Hl. by subst.
  - cbn [for_each]. eapply wp_cut; [by apply (Hstep l1 a l2)|]. intros [] s2 Hs2.
    apply (IH (l1 ++ [a])); [|done]. by rewrite <-app_assoc.
Qed.
End rules.

(** What is true of a program whenever it ends. *)
Definition ends {S A} (P : A → S → Prop) (m : M S A) : Prop := ∀ s a s', m s = Val (a, s') → P a s'.
Section ends.
Context {S : Type}.
Lemma ends_ret {A} (P : A → S → Prop) a : (∀ s, P a s) → ends P (mret a).
Proof. by intros HP s ?? [= <- <-]. Qed.
Lemma ends_bind {A B} (P : B → S → Prop) (m : M S A) (k : A → M S B) : (∀ a, ends P (k a)) → ends P (m ≫= k).
Proof.
  intros Hk s b s'. unfold mbind, M_bind. destruct (m s) as [[a s1]|]; [|done]. apply Hk.
Qed.
Lemma wp_ends {A} (P Q : A → S → Prop) (m : M S A) s : wp m Q s → ends P m → wp m (fun a s' => P a s' ∧ Q a s') s.
Proof. intros Hm HP. apply wp_run in Hm as (a & s' & Hrun & HQ). apply wp_run. exists a, s'. eauto. Qed.
End ends.

(** ** Frames *)

Definition framed {S A} (I : S → Prop) (R : S → S → Prop) (m : M S A) : Prop :=
  ∀ s, I s → wp m (fun _ s' => I s' ∧ R s s') s.

Section framed.
Context {S : Type} (I : S → Prop) (R : S → S → Prop) `{!PreOrder R}.

Lemma framed_ret {A} (a : A) : framed I R (mret a : M S A).
Proof. intros s Hs. split; [done|reflexivity]. Qed.
Lemma framed_gets {A} (f : S → A) : framed I R (gets f).
Proof. intros s Hs. split; [done|reflexivity]. Qed.
Lemma framed_mget : framed I R mget.
Proof. intros s Hs. split; [done|reflexivity]. Qed.
Lemma framed_modify f : (∀ s, I s → I (f s) ∧ R s (f s)) → framed I R (modify f).
Proof. intros Hf s Hs. exact (Hf s Hs). Qed.
Lemma framed_CHECK b : b = true → framed I R (CHECK b).
Proof. intros ->. apply framed_ret. Qed.
Lemma framed_bind {A B} (m : M S A) (k : A → M S B) :
  framed I R m → (∀ a, framed I R (k a)) → framed I R (m ≫= k).
Proof.
  intros Hm Hk s Hs. eapply wp_cut; [by apply Hm|]. intros a s1 [H1 HR1].
  eapply wp_mono; [by apply Hk|]. intros b s2 [H2 HR2]. split; [done|by transitivity s1].
Qed.
Lemma framed_for_each {A} (f : A → M S unit) l : (∀ a, framed I R (f a)) → framed I R (for_each f l).
Proof. intros Hf. induction l as [|a l IH]; [apply framed_ret|]. by apply framed_bind. Qed.
Lemma framed_zoom {T A} (get : S → T) (put : T → S → S) (I' : T → Prop) (R' : T → T → Prop) (m : M T A) :
  framed I' R' m → (∀ s, I s → I' (get s)) →
  (∀ s t, I s → I' t → R' (get s) t → I (put t s) ∧ R s (put t s)) →
  framed I R (zoom get put m).
Proof.
  intros Hm Hget Hput s Hs. apply wp_zoom. eapply wp_mono; [by apply Hm, Hget|].
  intros a t [Ht HR]. by apply Hput.
Qed.
(** ... when the result of the first part matters. *)
Lemma framed_cut {A B} (P : A → Prop) (m : M S A) (k : A → M S B) :
  (∀ s, I s → wp m (fun a s' => P a ∧ I s' ∧ R s s') s) → (∀ a, P a → framed I R (k a)) →
  framed I R (m ≫= k).
Proof.
  intros Hm Hk s Hs. eapply wp_cut; [by apply Hm|]. intros a s1 (Ha & H1 & HR1).
  eapply wp_mono; [by apply (Hk a)|]. intros b s2 [H2 HR2]. split; [done|by transitivity s1].
Qed.
Lemma framed_weaken {A} (R' : S → S → Prop) (m : M S A) :
  framed I R' m → (∀ s s', R' s s' → R s s') → framed I R m.
Proof. intros Hm Hsub s Hs. eapply wp_mono; [by apply Hm|]. intros a s' [??]. auto. Qed.
End framed.

Create HintDb framed.
#[export] Hint Resolve framed_ret framed_gets framed_mget : framed.
#[export] Hint Extern 0 (PreOrder _) => apply _ : framed.

(** Follow a program's structure; the leaves are hints. *)
Ltac frame :=
  repeat first
    [ solve [eauto with framed]
    | progress intros
    | apply framed_bind
    | apply framed_for_each
    | apply framed_CHECK; done
    | match goal with
      | |- framed _ _ (if ?b then _ else _) => destruct b
      | |- framed _ _ (match ?b with _ => _ end) => destruct b
      end ].
