(* ===== verification/CppString.v ===== *)
(** * The operations of [std::string] the code uses.

    Strings are lists of bytes; positions and lengths are [Z] values of the
    32-bit [size_type]; [npos] is its largest value. *)

From S2P Require Import Prelude.

Definition npos : Z := 2 ^ 32 - 1.

(** First index at or after [i] where [needle] occurs in [hay], whose first
    character has index [i]. *)
Fixpoint find_at (needle hay : bytes) (i : Z) : option Z :=
  if decide (needle `prefix_of` hay) then Some i
  else match hay with
       | [] => None
       | _ :: hay' => find_at needle hay' (i + 1)
       end.

(** [hay.find(needle, pos)]. *)
Definition find (hay needle : bytes) (pos : Z) : Z :=
  if decide (pos ≤ zlen hay)
  then default npos (find_at needle (drop (Z.to_nat pos) hay) pos)
  else npos.

(** [s.rfind(c)] for a character. *)
Fixpoint rfind_at (c : byte) (s : bytes) (i : Z) : option Z :=
  match s with
  | [] => None
  | x :: s' =>
      match rfind_at c s' (i + 1) with
      | Some j => Some j
      | None => if decide (x = c) then Some i else None
      end
  end.
Definition rfind (s : bytes) (c : byte) : Z := default npos (rfind_at c s 0).

(** [s.find_last_not_of(c)]. *)
Fixpoint last_not_of_at (c : byte) (s : bytes) (i : Z) : option Z :=
  match s with
  | [] => None
  | x :: s' =>
      match last_not_of_at c s' (i + 1) with
      | Some j => Some j
      | None => if decide (x = c) then None else Some i
      end
  end.
Definition find_last_not_of (s : bytes) (c : byte) : Z :=
  default npos (last_not_of_at c s 0).

(** [s.substr(pos, len)]; throws [std::out_of_range] past the end. *)
Definition substr {S} (s : bytes) (pos len : Z) : M S bytes :=
  if decide (pos ≤ zlen s)
  then mret (take (Z.to_nat (Z.min len (zlen s - pos))) (drop (Z.to_nat pos) s))
  else fail Undefined.

(** [s.resize(n)]: truncate, or pad with NUL characters. *)
Definition resize (s : bytes) (n : Z) : bytes :=
  take (Z.to_nat n) s ++ replicate (Z.to_nat (n - zlen s)) x00.

(** The part of a character array a C function sees: up to the first NUL. *)
Fixpoint c_str (s : bytes) : bytes :=
  match s with
  | [] => []
  | c :: s' => if decide (c = x00) then [] else c :: c_str s'
  end.

(** ** Facts *)

Lemma find_0 hay needle : find hay needle 0 = default npos (find_at needle hay 0).
Proof. unfold find. by rewrite decide_True by apply zlen_nonneg. Qed.

Lemma find_at_Some needle hay i j :
  find_at needle hay i = Some j →
  i ≤ j ∧ ∃ pre post, hay = pre ++ needle ++ post ∧ zlen pre = j - i.
Proof.
  revert i. induction hay as [|c hay IH]; intros i; cbn.
  - case_decide as Hp; [|done]. intros [= <-]. split; [lia|].
    destruct Hp as [k Hk]. exists [], k. rewrite zlen_nil. split; [done|lia].
  - case_decide as Hp.
    + intros [= <-]. split; [lia|]. destruct Hp as [k Hk].
      exists [], k. rewrite zlen_nil. split; [done|lia].
    + intros H. destruct (IH _ H) as (Hle & pre & post & -> & Hl).
      split; [lia|]. exists (c :: pre), post. rewrite zlen_cons. split; [done|lia].
Qed.

(** The occurrence found is the first one. *)
Lemma find_at_first needle hay i j pre post :
  find_at needle hay i = Some j → hay = pre ++ needle ++ post → j - i ≤ zlen pre.
Proof.
  revert i pre. induction hay as [|c hay IH]; intros i pre; cbn.
  - case_decide; [|done]. intros [= <-] _. pose proof (zlen_nonneg pre). lia.
  - case_decide as Hp.
    + intros [= <-] _. pose proof (zlen_nonneg pre). lia.
    + intros H Heq. destruct pre as [|c' pre].
      * exfalso. apply Hp. exists post. exact Heq.
      * cbn in Heq. injection Heq as -> Heq.
        specialize (IH _ pre H Heq). rewrite zlen_cons. lia.
Qed.

Lemma find_at_None needle hay i :
  find_at needle hay i = None ↔ ∀ pre post, hay ≠ pre ++ needle ++ post.
Proof.
  revert i. induction hay as [|c hay IH]; intros i; cbn.
  - case_decide as Hp; split; try done.
    + destruct Hp as [k Hk]. intros H. destruct (H [] k). exact Hk.
    + intros _ pre post Heq. apply Hp. destruct pre; [|done]. exists post. exact Heq.
  - case_decide as Hp; split; try done.
    + destruct Hp as [k Hk]. intros H. destruct (H [] k). exact Hk.
    + rewrite IH. intros H pre post Heq. destruct pre as [|c' pre].
      * apply Hp. exists post. exact Heq.
      * cbn in Heq. injection Heq as -> Heq. by apply (H pre post).
    + intros H. rewrite IH. intros pre post ->. by apply (H (c :: pre) post).
Qed.

Lemma rfind_at_Some c s i j :
  rfind_at c s i = Some j →
  ∃ pre post, s = pre ++ [c] ++ post ∧ (c ∉ post) ∧ zlen pre = j - i.
Proof.
  revert i. induction s as [|x s IH]; intros i; cbn; [done|].
  destruct (rfind_at c s (i + 1)) as [k|] eqn:E.
  - intros [= <-]. destruct (IH _ E) as (pre & post & -> & Hn & Hl).
    exists (x :: pre), post. rewrite zlen_cons. split; [done|]. split; [done|lia].
  - case_decide as Hx; [|done]. intros [= <-]. subst x.
    exists [], s. split; [done|]. rewrite zlen_nil. split; [|lia].
    clear IH. revert i E. induction s as [|y s IH]; intros i E; [apply not_elem_of_nil|].
    cbn in E. destruct (rfind_at c s (i + 1 + 1)) eqn:E'; [done|].
    case_decide; [done|]. apply not_elem_of_cons. split; [done|]. by eapply IH.
Qed.

Lemma rfind_at_None c s i : rfind_at c s i = None ↔ c ∉ s.
Proof.
  revert i. induction s as [|x s IH]; intros i; cbn.
  - split; [intros _; apply not_elem_of_nil|done].
  - rewrite not_elem_of_cons. destruct (rfind_at c s (i + 1)) eqn:E.
    + split; [done|]. intros [_ Hn]. apply (IH (i + 1)) in Hn. congruence.
    + apply IH in E. case_decide; split; try done; intuition congruence.
Qed.

Lemma find_at_cons needle c hay i :
  find_at needle (c :: hay) i =
  if decide (needle `prefix_of` c :: hay) then Some i else find_at needle hay (i + 1).
Proof. done. Qed.

(** Searching for a character that splits a string. *)
Lemma find_at_char c (pre post : bytes) i :
  c ∉ pre → find_at [c] (pre ++ c :: post) i = Some (i + zlen pre).
Proof.
  revert i. induction pre as [|x pre IH]; intros i Hn.
  - cbn [app]. rewrite find_at_cons. rewrite decide_True; [|by exists post].
    rewrite zlen_nil. f_equal; lia.
  - apply not_elem_of_cons in Hn as [Hx Hn]. cbn [app].
    rewrite find_at_cons, decide_False.
    + rewrite IH by done. rewrite zlen_cons. f_equal; lia.
    + intros [k Hk]. injection Hk as Hk _. congruence.
Qed.

Lemma find_at_char_None c (s : bytes) i : c ∉ s → find_at [c] s i = None.
Proof.
  intros Hn. apply find_at_None. intros pre post ->. apply Hn.
  rewrite !elem_of_app. right. left. by apply list_elem_of_singleton.
Qed.

Lemma c_str_no_nul s : x00 ∉ s → c_str s = s.
Proof.
  induction s as [|c s IH]; intros H; [done|]. apply not_elem_of_cons in H as [H1 H2].
  cbn. rewrite decide_False by congruence. by rewrite IH.
Qed.

Lemma zlen_resize s n : 0 ≤ n → zlen (resize s n) = n.
Proof.
  intros Hn. unfold resize, zlen. rewrite length_app, length_take, length_replicate.
  unfold zlen. lia.
Qed.

Lemma resize_take s n : n ≤ zlen s → resize s n = take (Z.to_nat n) s.
Proof.
  intros Hn. unfold resize. replace (Z.to_nat (n - zlen s)) with 0%nat by lia.
  cbn. apply app_nil_r.
Qed.
