(* ===== verification/Posix.v ===== *)
(** * The operating system the code calls.

    The kernel is outside the repository: [Posix W] lists the system calls the
    modelled code makes, each a total function on the world [W] it acts on.
    The classes of laws state the documented behaviour of the calls a theorem
    relies on; [Module MemFile] is a small concrete world that has them. *)

From S2P Require Import Prelude.

(** File descriptor calls.  [sys_read] gives [None] for [-1]; a non-negative
    [sys_write] result is a count of bytes, a negative one an error. *)
Class PosixFd (W : Type) := {
  sys_open : bytes → Z → Z → W → Z * W;
  sys_read : Z → Z → W → option bytes * W;
  sys_write : Z → bytes → W → Z * W;
  sys_lseek : Z → Z → W → Z * W;
  sys_close : Z → W → Z * W;
  sys_errno : W → Z
}.

(** [open] flags (Linux, x86). *)
Definition O_RDONLY : Z := 0.
Definition O_WRONLY : Z := 1.
Definition O_CREAT : Z := 64.
Definition O_EXCL : Z := 128.
Definition O_TRUNC : Z := 512.
Definition O_LARGEFILE : Z := 32768.

(** The contents of a file as a total function of the offset. *)
Definition content : Type := Z → byte.

(** Store [bs] at offset [off]. *)
Definition store_at (off : Z) (bs : bytes) (f : content) : content :=
  fun i => if decide (off ≤ i < off + zlen bs)
           then default x00 (bs !! Z.to_nat (i - off)) else f i.

Lemma store_at_nil off f i : store_at off [] f i = f i.
Proof. unfold store_at. rewrite zlen_nil. by rewrite decide_False by lia. Qed.

Lemma store_at_app off x y f i :
  store_at (off + zlen x) y (store_at off x f) i = store_at off (x ++ y) f i.
Proof.
  unfold store_at. rewrite zlen_app. pose proof (zlen_nonneg x). pose proof (zlen_nonneg y).
  unfold zlen in *. repeat case_decide; try lia; try done.
  - rewrite lookup_app_r by lia. f_equal. f_equal. lia.
  - rewrite lookup_app_l by lia. done.
Qed.

(** What POSIX says of an open regular file or block device: [lseek] sets the
    offset, [write] stores a non-empty prefix of its argument at the offset
    and moves it, and a failing call changes neither contents nor offset. *)
Class PosixFileLaws (W : Type) `{PosixFd W} := {
  file_of : Z → W → content;
  offset_of : Z → W → Z;
  lseek_ok fd off w r w' : sys_lseek fd off w = (r, w') → r ≠ -1 →
    offset_of fd w' = off ∧ ∀ i, file_of fd w' i = file_of fd w i;
  lseek_fail fd off w r w' : sys_lseek fd off w = (r, w') → r = -1 →
    ∀ i, file_of fd w' i = file_of fd w i;
  write_ok fd bs w r w' : sys_write fd bs w = (r, w') → 0 ≤ r →
    r ≤ zlen bs ∧ offset_of fd w' = offset_of fd w + r ∧
    ∀ i, file_of fd w' i =
         store_at (offset_of fd w) (take (Z.to_nat r) bs) (file_of fd w) i;
  write_progress fd bs w r w' : sys_write fd bs w = (r, w') →
    bs ≠ [] → r ≠ 0
}.

Lemma store_at_ext off bs f g i : (∀ i, f i = g i) → store_at off bs f i = store_at off bs g i.
Proof. intros Hfg. unfold store_at. case_decide; [done|apply Hfg]. Qed.

(** Storing a byte string at a list of positions, [None] meaning that the byte
    is dropped (a sparse hole). *)
Fixpoint place (ps : list (option Z)) (bs : bytes) (f : content) : content :=
  match ps, bs with
  | p :: ps', b :: bs' =>
      place ps' bs' (match p with Some o => store_at o [b] f | None => f end)
  | _, _ => f
  end.

Lemma place_ext ps bs f g :
  (∀ i, f i = g i) → ∀ i, place ps bs f i = place ps bs g i.
Proof.
  revert bs f g. induction ps as [|p ps IH]; intros [|b bs] f g Hfg i; cbn; try apply Hfg.
  apply IH. intros j. destruct p; [by apply store_at_ext|apply Hfg].
Qed.

Lemma place_nil ps f : place ps [] f = f.
Proof. by destruct ps. Qed.

Lemma place_app ps x y f :
  (length x ≤ length ps)%nat →
  place ps (x ++ y) f = place (drop (length x) ps) y (place ps x f).
Proof.
  revert x f. induction ps as [|p ps IH]; intros [|b x] f Hl; cbn in *; try done; try lia.
  by rewrite IH by lia.
Qed.

Lemma place_prefix ps ps' bs f :
  (length bs ≤ length ps)%nat → place (ps ++ ps') bs f = place ps bs f.
Proof.
  revert bs f. induction ps as [|p ps IH]; intros [|b bs] f Hl; cbn in *; try done.
  all: try lia.
  - by rewrite place_nil.
  - by rewrite IH by lia.
Qed.

Lemma place_holes n bs f : place (replicate n None) bs f = f.
Proof.
  revert bs. induction n as [|n IH]; intros [|b bs]; cbn; try done.
Qed.

(** A contiguous run of positions is one [store_at]. *)
Lemma place_run off n bs f i :
  zlen bs ≤ n → place (Some <$> seqZ off n) bs f i = store_at off bs f i.
Proof.
  revert off n f i. induction bs as [|b bs IH]; intros off n f i Hn.
  { by rewrite place_nil, store_at_nil. }
  rewrite zlen_cons in Hn. pose proof (zlen_nonneg bs).
  rewrite (seqZ_cons off n) by lia. cbn.
  rewrite IH by lia. change (b :: bs) with ([b] ++ bs).
  rewrite <-store_at_app. rewrite zlen_one. by rewrite Z.add_1_r.
Qed.

(** ** Writing a buffer piece by piece *)

Section written.
Context {W : Type} `{PosixFileLaws W}.

(** Since [w0], the first [bw] bytes of [buf] were stored at the file offset. *)
Definition written (fd : Z) (buf : bytes) (w0 : W) (bw : Z) (w1 : W) : Prop :=
  0 ≤ bw ≤ zlen buf ∧ offset_of fd w1 = offset_of fd w0 + bw ∧
  ∀ i, file_of fd w1 i =
       store_at (offset_of fd w0) (take (Z.to_nat bw) buf) (file_of fd w0) i.

Lemma written_init fd buf w : written fd buf w 0 w.
Proof.
  split_and!; [lia|apply zlen_nonneg|lia|]. intros i. by rewrite store_at_nil.
Qed.

Lemma written_step fd buf w0 bw w1 rc w2 :
  written fd buf w0 bw w1 → bw < zlen buf →
  sys_write fd (drop (Z.to_nat bw) buf) w1 = (rc, w2) → 0 ≤ rc →
  written fd buf w0 (bw + rc) w2 ∧ 0 < rc.
Proof.
  intros (Hbw & Hoff & Hf) Hlt E Hrc.
  pose proof (write_progress _ _ _ _ _ E) as Hne.
  destruct (write_ok _ _ _ _ _ E Hrc) as (Hle & Hoff' & Hf').
  assert (Hd : zlen (drop (Z.to_nat bw) buf) = zlen buf - bw).
  { unfold zlen in *. rewrite length_drop. lia. }
  assert (rc ≠ 0).
  { apply Hne. intros Hnil. rewrite Hnil, zlen_nil in Hd. lia. }
  split; [|lia]. split_and!; [lia|lia|lia|]. intros i.
  rewrite Hf', Hoff, (store_at_ext _ _ _ _ _ Hf).
  replace bw with (zlen (take (Z.to_nat bw) buf)) at 1
    by (unfold zlen in *; rewrite length_take; lia).
  rewrite store_at_app. f_equal. rewrite Z2Nat.inj_add by lia. symmetry.
  rewrite <-(take_drop (Z.to_nat bw) buf) at 1.
  rewrite take_app, take_take, length_take.
  replace (_ `min` Z.to_nat bw)%nat with (Z.to_nat bw) by lia.
  f_equal. f_equal. unfold zlen in *. lia.
Qed.

Lemma written_all fd buf w0 w1 :
  written fd buf w0 (zlen buf) w1 →
  offset_of fd w1 = offset_of fd w0 + zlen buf ∧
  ∀ i, file_of fd w1 i = store_at (offset_of fd w0) buf (file_of fd w0) i.
Proof.
  intros (_ & Hoff & Hf). split; [done|]. intros i. rewrite Hf.
  unfold zlen. by rewrite Nat2Z.id, take_ge by lia.
Qed.
End written.

(** ** A concrete world: one file behind every descriptor, writes of at most
    [max_write] bytes at a time, all calls succeeding on valid offsets. *)
Module MemFile.
Record t := mk { data : content; pos : Z; max_write : Z }.

Definition count (w : t) (bs : bytes) : Z := Z.min (zlen bs) (Z.max 1 (max_write w)).

#[global] Instance posix : PosixFd t := {|
  sys_open _ _ _ w := (3, w);
  sys_read _ n w := (Some ((fun i => data w (pos w + i)) <$> seqZ 0 n), w);
  sys_write _ bs w :=
    (count w bs,
     mk (store_at (pos w) (take (Z.to_nat (count w bs)) bs) (data w))
        (pos w + count w bs) (max_write w));
  sys_lseek _ off w := if off <? 0 then (-1, w) else (off, mk (data w) off (max_write w));
  sys_close _ w := (0, w);
  sys_errno _ := 0
|}.

#[global, refine] Instance laws : PosixFileLaws t := {|
  file_of _ w := data w; offset_of _ w := pos w
|}.
Proof.
  - cbn. intros _ off w r w'. destruct (off <? 0); intros [= <- <-] Hr; [done|].
    split; [done|]. intros i. done.
  - cbn. intros _ off w r w'. destruct (off <? 0); intros [= <- <-] Hr i; done.
  - cbn. intros _ bs w r w' [= <- <-] Hr. unfold count. split; [lia|]. done.
  - cbn. intros _ bs w r w' [= <- <-] Hne. unfold count.
    destruct bs as [|b bs]; [done|]. rewrite zlen_cons. pose proof (zlen_nonneg bs). lia.
Defined.

(** A blank device of zeros, three bytes per [write]. *)
Definition blank : t := mk (fun _ => x00) 0 3.

Lemma no_failure :
  ¬ ∃ fd : Z, (∃ bs w1, (sys_write (W := t) fd bs w1).1 < 0) ∨
              (∃ off w1, 0 ≤ off ∧ (sys_lseek (W := t) fd off w1).1 = -1).
Proof.
  intros (fd & [(bs & w & Hw)|(off & w & Hoff & Hl)]); cbn in *.
  - unfold count in Hw. pose proof (zlen_nonneg bs). lia.
  - destruct (Z.ltb_spec off 0); cbn in *; lia.
Qed.
End MemFile.
