(* ===== verification/Extents.v ===== *)
(** * Extents: graph_types.h, graph_utils.cc and extent_mapper.cc of the
    update engine.

    An extent is a run of disk blocks; a list of extents denotes the list of
    blocks [expand] gives.  [AppendBlockToExtents] and the FIBMAP loop of
    [ExtentsForFileFibmap] are two implementations of run-length encoding. *)

From S2P Require Import Prelude CppString Posix.

(** The [Extent] protocol buffer message: two [uint64] fields. *)
Record Extent := mkExtent { start_block : Z; num_blocks : Z }.
#[export] Instance eta_Extent : Eta Extent := fun e => mkExtent (start_block e) (num_blocks e).
#[export] Instance Extent_eq_dec : EqDecision Extent.
Proof. solve_decision. Defined.

(** [kuint64max]: start block of a sparse hole (extent_writer.h). *)
Definition kSparseHole : Z := 2 ^ 64 - 1.

(** ** graph_types.h *)

Record EdgeProperties := { extents : list Extent }.

(** [Vertex]: the install operation it points to is an index here. *)
Record Vertex := mkVertex {
  out_edges : gmap Z EdgeProperties;
  subgraph_edges : gset Z;
  index : Z;
  lowlink : Z;
  op : option nat
}.
Definition kInvalidIndex : Z := usize (-1).
Definition new_Vertex : Vertex := mkVertex ∅ ∅ (usize (-1)) (usize (-1)) None.
Definition Graph : Type := list Vertex.
Definition Edge : Type := Z * Z.

(** ** graph_utils.cc *)

Definition EdgeWeight {S} (graph : Graph) (edge : Edge) : M S Z :=
  match graph !! Z.to_nat (edge.1) with
  | None => fail Undefined
  | Some v =>
      match out_edges v !! edge.2 with
      | None => fail Undefined
      | Some p => mret (fold_left (fun weight e => u64 (weight + num_blocks e)) (extents p) 0)
      end
  end.

Definition AppendBlockToExtents (extents : list Extent) (block : Z) : list Extent :=
  let new_extent := mkExtent block 1 in
  match last extents with
  | Some extent =>
      if decide (u64 (start_block extent + num_blocks extent) = block)
      then removelast extents ++
             [extent <| num_blocks := u64 (num_blocks extent + 1) |>]
      else extents ++ [new_extent]
  | None => extents ++ [new_extent]
  end.

(** ** extent_mapper.cc *)

(** What [stat] reports and the code looks at. *)
Record stat := mkStat {
  st_mode : Z; st_size : Z; st_dev : Z; st_ino : Z; st_nlink : Z;
  st_uid : Z; st_gid : Z; st_rdev : Z
}.
Definition S_IFMT : Z := 61440.
Definition S_ISREG (mode : Z) : bool := Z.land mode S_IFMT =? 32768.
Definition S_ISDIR (mode : Z) : bool := Z.land mode S_IFMT =? 16384.
Definition S_ISLNK (mode : Z) : bool := Z.land mode S_IFMT =? 40960.
Definition S_ISCHR (mode : Z) : bool := Z.land mode S_IFMT =? 8192.
Definition S_ISBLK (mode : Z) : bool := Z.land mode S_IFMT =? 24576.
Definition S_ISFIFO (mode : Z) : bool := Z.land mode S_IFMT =? 4096.
Definition S_ISSOCK (mode : Z) : bool := Z.land mode S_IFMT =? 49152.

(** Calls that describe a file; [None] is a failing call. *)
Class PosixStat (W : Type) := {
  sys_stat : bytes → W → option stat * W;
  sys_lstat : bytes → W → option stat * W;
  sys_fstat : Z → W → option stat * W;
  sys_fibmap : Z → Z → W → option Z * W
}.

Module extent_mapper.
Definition kBlockSize : Z := 4096.

Section mapper.
Context {W : Type} `{PosixFd W, PosixStat W}.

(** One iteration of the FIBMAP loop after the [ioctl] gave [block]. *)
Definition add_block (current : Extent) (out : list Extent) (block : Z)
  : Extent * list Extent :=
  if decide (num_blocks current = 0) then (mkExtent block 1, out)
  else if decide (u64 (start_block current + num_blocks current) = block)
  then (current <| num_blocks := u64 (num_blocks current + 1) |>, out)
  else (mkExtent block 1, out ++ [current]).

(** [for (int i = 0; i < block_count; i++)], [n] iterations left. *)
Fixpoint fibmap_loop (n : nat) (i fd : Z) (current : Extent) (out : list Extent)
  : M W (bool * Extent * list Extent) :=
  match n with
  | O => mret (true, current, out)
  | S n' =>
      r ← extern (sys_fibmap fd (u32 i));
      match r with
      | None => mret (false, current, out)
      | Some block =>
          let '(current', out') := add_block current out (u32 block) in
          fibmap_loop n' (i + 1) fd current' out'
      end
  end.

(** The body between [open] and the end of the scope of [fd_closer]. *)
Definition map_open_file (fd : Z) (out : list Extent) : M W (bool * list Extent) :=
  r ← extern (sys_fstat fd);
  match r with
  | None => mret (false, out)
  | Some stbuf =>
      let block_count :=
        i32 (Z.quot (i64 (st_size stbuf + kBlockSize - 1)) kBlockSize) in
      '(ok, current, out') ←
        fibmap_loop (Z.to_nat block_count) 0 fd (mkExtent 0 0) out;
      if negb ok then mret (false, out')
      else mret (true, if decide (0 < num_blocks current)
                       then out' ++ [current] else out')
  end.

Definition ExtentsForFileFibmap (path : bytes) (out : list Extent)
  : M W (bool * list Extent) :=
  r ← extern (sys_stat (c_str path));
  match r with
  | None => mret (false, out)
  | Some stbuf =>
      if negb (S_ISREG (st_mode stbuf)) then mret (false, out)
      else
        fd ← extern (sys_open (c_str path) O_RDONLY 0);
        if fd <? 0 then mret (false, out)
        else
          res ← map_open_file fd out;
          _ ← extern (sys_close fd);
          mret res
  end.
End mapper.
End extent_mapper.

(** ** The blocks a list of extents denotes *)

Definition expand_extent (e : Extent) : list Z := seqZ (start_block e) (num_blocks e).
Definition expand (es : list Extent) : list Z := es ≫= expand_extent.

(** Extents as the encoders build them from block numbers below [2^32]:
    non-empty runs whose end does not reach the [uint64] wrap-around. *)
Definition extent_ok (e : Extent) : Prop :=
  0 ≤ start_block e < 2 ^ 32 ∧ 1 ≤ num_blocks e < 2 ^ 63.

(** No two neighbours could have been one extent. *)
Inductive canonical : list Extent → Prop :=
| canonical_nil : canonical []
| canonical_one e : canonical [e]
| canonical_cons e1 e2 es :
    start_block e1 + num_blocks e1 ≠ start_block e2 →
    canonical (e2 :: es) → canonical (e1 :: e2 :: es).

(** Run-length encoding of a block list by appending block after block. *)
Definition encode_blocks (blocks : list Z) : list Extent :=
  fold_left AppendBlockToExtents blocks [].

Lemma expand_app es es' : expand (es ++ es') = expand es ++ expand es'.
Proof. unfold expand. by rewrite bind_app. Qed.

Lemma seqZ_snoc m n : 0 ≤ n → seqZ m (n + 1) = seqZ m n ++ [m + n].
Proof.
  intros Hn. rewrite seqZ_app by lia. done.
Qed.

Lemma last_app_cons {A} (l : list A) x : last (l ++ [x]) = Some x.
Proof. apply last_snoc. Qed.

Lemma removelast_snoc {A} (l : list A) x : removelast (l ++ [x]) = l.
Proof. apply removelast_last. Qed.

(** How [AppendBlockToExtents] acts on a list seen from its end. *)
Lemma append_nil b : AppendBlockToExtents [] b = [mkExtent b 1].
Proof. done. Qed.

Lemma append_snoc es e b :
  AppendBlockToExtents (es ++ [e]) b =
  if decide (u64 (start_block e + num_blocks e) = b)
  then es ++ [e <| num_blocks := u64 (num_blocks e + 1) |>]
  else es ++ [e; mkExtent b 1].
Proof.
  unfold AppendBlockToExtents. rewrite last_snoc, removelast_last.
  case_decide; [done|]. by rewrite <-(assoc_L (++)).
Qed.

Lemma canonical_snoc_inv es e : canonical (es ++ [e]) → canonical es.
Proof.
  induction es as [|e1 es IH]; intros H; [constructor|].
  destruct es as [|e2 es]; [constructor|].
  cbn in H. inversion H; subst. constructor; [done|]. by apply IH.
Qed.

Lemma canonical_snoc2 es e1 e2 :
  canonical (es ++ [e1]) → start_block e1 + num_blocks e1 ≠ start_block e2 →
  canonical (es ++ [e1; e2]).
Proof.
  induction es as [|e0 es IH]; intros H Hne; cbn in *.
  - constructor; [done|constructor].
  - destruct es as [|e3 es]; cbn in *; inversion H; subst; constructor; try done.
    + by apply IH.
    + by apply IH.
Qed.

Lemma canonical_snoc_same es e e' :
  canonical (es ++ [e]) → start_block e = start_block e' → canonical (es ++ [e']).
Proof.
  induction es as [|e0 es IH]; intros H Hs; cbn in *; [constructor|].
  destruct es as [|e3 es]; cbn in *; inversion H; subst; constructor; try done.
  - by rewrite <-Hs.
  - constructor.
  - by apply IH.
Qed.

Lemma expand_snoc es e : expand (es ++ [e]) = expand es ++ expand_extent e.
Proof. rewrite expand_app. cbn. by rewrite app_nil_r. Qed.

Lemma zlen_expand_extent e : 0 ≤ num_blocks e → zlen (expand_extent e) = num_blocks e.
Proof. intros He. unfold expand_extent, zlen. rewrite length_seqZ. lia. Qed.

(** The encoder's invariant: well-formed, canonical extents that denote fewer
    than [2^62] blocks, so that no [uint64] sum wraps. *)
Record encoded (es : list Extent) : Prop := {
  enc_ok : Forall extent_ok es;
  enc_canonical : canonical es;
  enc_small : zlen (expand es) < 2 ^ 62
}.

Lemma encoded_last_small es e :
  encoded (es ++ [e]) → extent_ok e ∧ num_blocks e < 2 ^ 62.
Proof.
  intros [Hok _ Hlen]. apply Forall_app in Hok as [_ He].
  rewrite Forall_singleton in He. split; [done|].
  rewrite expand_snoc, zlen_app in Hlen. destruct He as [_ ?].
  rewrite zlen_expand_extent in Hlen by lia. pose proof (zlen_nonneg (expand es)). lia.
Qed.

Lemma append_expand es b :
  encoded es → 0 ≤ b < 2 ^ 32 →
  expand (AppendBlockToExtents es b) = expand es ++ [b].
Proof.
  intros Henc Hb. destruct (snoc_cases es) as [->|(l & x & ->)]; [done|].
  destruct (encoded_last_small _ _ Henc) as [[Hs Hn] Hsm].
  rewrite append_snoc, u64_small by (unfold is_u64; lia).
  case_decide as Hd.
  - rewrite !expand_snoc. unfold expand_extent. cbn.
    rewrite u64_small by (unfold is_u64; lia).
    rewrite seqZ_snoc by lia. by rewrite (assoc_L (++)), Hd.
  - replace (l ++ [x; mkExtent b 1]) with ((l ++ [x]) ++ [mkExtent b 1])
      by by rewrite <-(assoc_L (++)).
    by rewrite expand_snoc.
Qed.

Lemma append_encoded es b :
  encoded es → 0 ≤ b < 2 ^ 32 → zlen (expand es) < 2 ^ 62 - 1 →
  encoded (AppendBlockToExtents es b).
Proof.
  intros Henc Hb Hlen. split.
  - destruct (snoc_cases es) as [->|(l & x & ->)]; [repeat constructor; cbn; lia|].
    destruct (encoded_last_small _ _ Henc) as [[Hs Hn] Hsm].
    destruct Henc as [[Hl _]%Forall_app _ _]. rewrite append_snoc.
    case_decide; apply Forall_app; split; try done;
      repeat constructor; cbn; rewrite ?u64_small by (unfold is_u64; lia); lia.
  - destruct (snoc_cases es) as [->|(l & x & ->)]; [constructor|].
    destruct (encoded_last_small _ _ Henc) as [[Hs Hn] Hsm].
    destruct Henc as [_ Hc _]. rewrite append_snoc, u64_small by (unfold is_u64; lia).
    case_decide; [by eapply canonical_snoc_same|by apply canonical_snoc2].
  - rewrite append_expand by done. rewrite zlen_app, zlen_one. lia.
Qed.

Lemma encoded_nil : encoded [].
Proof. split; [constructor|constructor|done]. Qed.

Lemma encode_from bs es :
  encoded es → Forall (λ b, 0 ≤ b < 2 ^ 32) bs →
  zlen (expand es) + zlen bs < 2 ^ 62 →
  expand (fold_left AppendBlockToExtents bs es) = expand es ++ bs ∧
  encoded (fold_left AppendBlockToExtents bs es).
Proof.
  revert es. induction bs as [|b bs IH]; intros es Henc Hbs Hlen; cbn [fold_left].
  - by rewrite app_nil_r.
  - apply Forall_cons in Hbs as [Hb Hbs]. rewrite zlen_cons in Hlen.
    pose proof (zlen_nonneg bs).
    destruct (IH (AppendBlockToExtents es b)) as [He Henc'].
    + apply append_encoded; [done|done|lia].
    + done.
    + rewrite append_expand by done. rewrite zlen_app, zlen_one. lia.
    + split; [|done]. rewrite He, append_expand by done.
      by rewrite <-(assoc_L (++)).
Qed.

(** ** The FIBMAP loop is the same encoder with its last extent held back. *)

(** The list the loop state stands for. *)
Definition flush (current : Extent) (out : list Extent) : list Extent :=
  if decide (0 < num_blocks current) then out ++ [current] else out.

Section fibmap_facts.
Context {W : Type} `{PosixFd W, PosixStat W}.
Import extent_mapper.

Lemma add_block_flush current out0 out b :
  0 ≤ num_blocks current < 2 ^ 62 → (num_blocks current = 0 → out = []) →
  ∃ c o, add_block current (out0 ++ out) b = (c, out0 ++ o) ∧
    flush c o = AppendBlockToExtents (flush current out) b ∧
    1 ≤ num_blocks c ≤ num_blocks current + 1.
Proof.
  intros Hn Hz. unfold add_block, flush. case_decide as H1.
  { exists (mkExtent b 1), out. rewrite (decide_False (P := 0 < num_blocks current)) by lia.
    rewrite Hz by done. split_and!; [done|done|cbn; lia|cbn; lia]. }
  rewrite (decide_True (P := 0 < num_blocks current)) by lia. rewrite append_snoc.
  case_decide as H2.
  - eexists _, out. split; [done|]. cbn. rewrite u64_small by (unfold is_u64; lia).
    rewrite decide_True by lia. split; [done|lia].
  - exists (mkExtent b 1), (out ++ [current]). rewrite (assoc_L (++)).
    split; [done|]. cbn. split; [by rewrite <-(assoc_L (++))|cbn; lia].
Qed.

(** The reference: ask the kernel for the blocks in order, collect them. *)
Fixpoint fibmap_blocks (n : nat) (i fd : Z) : M W (option (list Z)) :=
  match n with
  | O => mret (Some [])
  | S n' =>
      r ← extern (sys_fibmap fd (u32 i));
      match r with
      | None => mret None
      | Some block =>
          rest ← fibmap_blocks n' (i + 1) fd;
          mret ((cons (u32 block)) <$> rest)
      end
  end.

Lemma fibmap_blocks_u32 n i fd w bs w' :
  fibmap_blocks n i fd w = Val (Some bs, w') →
  Forall (λ b, 0 ≤ b < 2 ^ 32) bs ∧ length bs = n.
Proof.
  revert i w bs w'. induction n as [|n IH]; intros i w bs w'; cbn.
  - intros [= <- <-]. split; [constructor|done].
  - unfold mbind, M_bind, extern. destruct (sys_fibmap fd (u32 i) w) as [[b|] w1]; [|done].
    destruct (fibmap_blocks n (i + 1) fd w1) as [[[rest|] w2]|f] eqn:E; cbn; try done.
    intros [= <- <-]. destruct (IH _ _ _ _ E) as [Hall <-].
    split; [|done]. constructor; [apply u32_range|done].
Qed.

Lemma fibmap_loop_spec n i fd current out0 out w :
  0 ≤ num_blocks current → num_blocks current + Z.of_nat n < 2 ^ 62 →
  (num_blocks current = 0 → out = []) →
  match fibmap_blocks n i fd w with
  | Val (Some bs, w') => ∃ c o,
      fibmap_loop n i fd current (out0 ++ out) w = Val (true, c, out0 ++ o, w') ∧
      flush c o = fold_left AppendBlockToExtents bs (flush current out)
  | Val (None, w') => ∃ c o, fibmap_loop n i fd current (out0 ++ out) w = Val (false, c, out0 ++ o, w')
  | Fault f => False
  end.
Proof.
  revert i current out w. induction n as [|n IH]; intros i current out w Hc Hn Hz; cbn.
  { eauto. }
  mrun. destruct (sys_fibmap fd (u32 i) w) as [[b|] w1]; [|eauto].
  destruct (add_block_flush current out0 out (u32 b)) as (c & o & Ha & Hf & Hlo & Hhi);
    [lia|done|].
  rewrite Ha. specialize (IH (i + 1) c o w1 ltac:(lia) ltac:(lia) ltac:(lia)).
  destruct (fibmap_blocks n (i + 1) fd w1) as [[[bs|] w2]|f]; cbn; [|done|done].
  rewrite <-Hf. exact IH.
Qed.

(** The abstract specification: the block list the kernel reports for the
    file, obtained with the same system calls in the same order. *)
Definition block_count (st : stat) : nat :=
  Z.to_nat (i32 (Z.quot (i64 (st_size st + kBlockSize - 1)) kBlockSize)).

Definition open_file_blocks (fd : Z) : M W (option (list Z)) :=
  r ← extern (sys_fstat fd);
  match r with
  | None => mret None
  | Some stbuf => fibmap_blocks (block_count stbuf) 0 fd
  end.

Definition file_blocks (path : bytes) : M W (option (list Z)) :=
  r ← extern (sys_stat (c_str path));
  match r with
  | None => mret None
  | Some stbuf =>
      if negb (S_ISREG (st_mode stbuf)) then mret None
      else
        fd ← extern (sys_open (c_str path) O_RDONLY 0);
        if fd <? 0 then mret None
        else
          res ← open_file_blocks fd;
          _ ← extern (sys_close fd);
          mret res
  end.

(** How a result of the code relates to a result of the specification. *)
Definition encodes (out : list Extent) (r : bool * list Extent) (b : option (list Z)) : Prop :=
  match b with
  | Some bs => r = (true, out ++ encode_blocks bs) ∧
               expand (encode_blocks bs) = bs ∧ canonical (encode_blocks bs)
  | None => r.1 = false ∧ ∃ o, r.2 = out ++ o
  end.

Lemma encode_blocks_ok bs :
  Forall (λ b, 0 ≤ b < 2 ^ 32) bs → zlen bs < 2 ^ 62 →
  expand (encode_blocks bs) = bs ∧ encoded (encode_blocks bs).
Proof.
  intros Hbs Hlen. apply (encode_from bs [] encoded_nil Hbs).
  change (expand []) with (@nil Z). rewrite zlen_nil. lia.
Qed.

Lemma block_count_bound st : Z.of_nat (block_count st) < 2 ^ 31.
Proof.
  unfold block_count.
  pose proof (i32_range (Z.quot (i64 (st_size st + kBlockSize - 1)) kBlockSize)).
  unfold is_i32 in *. lia.
Qed.

Lemma map_open_file_spec fd out w :
  ∃ r b w', map_open_file fd out w = Val (r, w') ∧
    open_file_blocks fd w = Val (b, w') ∧ encodes out r b.
Proof.
  unfold map_open_file, open_file_blocks. mrun.
  destruct (sys_fstat fd w) as [[st|] w1].
  2:{ eexists _, None, w1. split_and!; [done|done|split; [done|]].
      exists []. cbn. by rewrite app_nil_r. }
  pose proof (block_count_bound st) as Hbc.
  pose proof (fibmap_loop_spec (block_count st) 0 fd (mkExtent 0 0) out [] w1
                ltac:(cbn; lia) ltac:(cbn; lia) ltac:(done)) as Hl.
  rewrite app_nil_r in Hl. fold (block_count st).
  destruct (fibmap_blocks (block_count st) 0 fd w1) as [[[bs|] w2]|f] eqn:Eb; [| |done].
  - destruct Hl as (c & o & -> & Hfl).
    destruct (fibmap_blocks_u32 _ _ _ _ _ _ Eb) as [Hall Hlen].
    destruct (encode_blocks_ok bs Hall) as [He [_ Hc _]]; [unfold zlen; lia|].
    eexists _, (Some bs), w2. split_and!; [reflexivity|done|split_and!; try done].
    f_equal. change (fold_left _ _ _) with (encode_blocks bs) in Hfl.
    rewrite <-Hfl. unfold flush. case_decide; [by rewrite (assoc_L (++))|done].
  - destruct Hl as (c & o & ->). eexists _, None, w2. split_and!; [reflexivity|done|].
    split; [done|]. by exists o.
Qed.
End fibmap_facts.

(** ** Properties *)

(** Round trip of the run-length encoder of graph_utils.cc: appending the
    blocks of any list (fewer than [2^62] block numbers of 32 bits, the range
    of FIBMAP) one by one with [AppendBlockToExtents] gives extents that expand
    to exactly that list, and the encoding is canonical: no two neighbouring
    extents could be merged, no extent is empty, no [uint64] field wrapped. *)
Theorem AppendBlockToExtents_roundtrip (blocks : list Z) :
  Forall (λ b, 0 ≤ b < 2 ^ 32) blocks → zlen blocks < 2 ^ 62 →
  expand (encode_blocks blocks) = blocks ∧
  canonical (encode_blocks blocks) ∧ Forall extent_ok (encode_blocks blocks).
Proof.
  intros Hbs Hlen. destruct (encode_from blocks [] encoded_nil Hbs) as [He [Hok Hc _]].
  { cbn. rewrite zlen_nil. lia. }
  done.
Qed.

(** The example of update_metadata.proto: blocks 9, 10, 11, 2, 18, 12. *)
Lemma AppendBlockToExtents_roundtrip_witness :
  encode_blocks [9; 10; 11; 2; 18; 12] =
    [mkExtent 9 3; mkExtent 2 1; mkExtent 18 1; mkExtent 12 1] ∧
  expand (encode_blocks [9; 10; 11; 2; 18; 12]) = [9; 10; 11; 2; 18; 12].
Proof.
  split; [vm_compute; reflexivity|].
  apply (AppendBlockToExtents_roundtrip [9; 10; 11; 2; 18; 12]).
  - repeat constructor; lia.
  - vm_compute. reflexivity.
Defined.

(** [ExtentsForFileFibmap] refines its abstract specification: it makes the
    same system calls as [file_blocks] (so it leaves the world in the same
    state and never faults), succeeds exactly when the kernel reports a block
    list, and then appends to [out] a canonical extent list that expands to the
    file's blocks in order; when any call fails it returns false and keeps the
    extents already in [out]. *)
Theorem ExtentsForFileFibmap_refines {W} `{PosixFd W, PosixStat W} path out (w : W) :
  ∃ r b w', extent_mapper.ExtentsForFileFibmap path out w = Val (r, w') ∧
    file_blocks path w = Val (b, w') ∧ encodes out r b.
Proof.
  unfold extent_mapper.ExtentsForFileFibmap, file_blocks. mrun.
  destruct (sys_stat (c_str path) w) as [[st|] w1].
  2:{ eexists _, None, w1. split_and!; [done|done|split; [done|]].
      exists []. cbn. by rewrite app_nil_r. }
  destruct (negb _).
  { eexists _, None, w1. split_and!; [done|done|split; [done|]].
    exists []. cbn. by rewrite app_nil_r. }
  destruct (sys_open (c_str path) O_RDONLY 0 w1) as [fd w2].
  destruct (fd <? 0).
  { eexists _, None, w2. split_and!; [done|done|split; [done|]].
    exists []. cbn. by rewrite app_nil_r. }
  destruct (map_open_file_spec fd out w2) as (r & b & w3 & -> & -> & He).
  destruct (sys_close fd w3) as [rc w4]. by exists r, b, w4.
Qed.

(** The sparse-hole sentinel collides with the wrap-around test: after a hole
    extent ([kSparseHole], one block), appending block 0 extends the hole. *)
Lemma AppendBlockToExtents_hole_then_zero :
  AppendBlockToExtents [mkExtent kSparseHole 1] 0 = [mkExtent kSparseHole 2].
Proof. vm_compute. reflexivity. Qed.
