(* ===== verification/ExtentWriter.v ===== *)
(** * The extent writers: extent_writer.{h,cc} and bzip_extent_writer.{h,cc}.

    [ExtentWriter] is the abstract C++ class as a type class of operations on
    the state of the writer and the world under it; [ByteSink] is what a writer
    promises to the writers stacked on top of it: a successful [Write] accepts
    the bytes it is given, in order.  [DirectExtentWriter] implements it on the
    POSIX file calls, [ZeroPadExtentWriter] and [BzipExtentWriter] are written
    and verified against the interface alone. *)

From S2P Require Import Prelude CppString Posix Extents.

(** ** The interface *)

Class ExtentWriter (S : Type) := {
  ew_Init : Z → list Extent → Z → M S bool;
  ew_Write : bytes → M S bool;
  ew_End : M S bool
}.

(** [accepts s bs s']: between [s] and [s'] the writer took exactly [bs];
    [closes s s']: what ending it did.  [Write] and [End] are total on a ready
    writer, for chunks within the range of [ssize_t]. *)
Class ByteSink (S : Type) `{ExtentWriter S} := {
  ready : S → Prop;
  accepts : S → bytes → S → Prop;
  closes : S → S → Prop;
  accepts_nil s : ready s → accepts s [] s;
  accepts_app s x s' y s'' :
    accepts s x s' → accepts s' y s'' → accepts s (x ++ y) s'';
  write_total s bs : ready s → zlen bs < 2 ^ 31 →
    ∃ ok s', ew_Write bs s = Val (ok, s') ∧ ready s' ∧ (ok = true → accepts s bs s');
  end_total s : ready s →
    ∃ ok s', ew_End s = Val (ok, s') ∧ (ok = true → closes s s');
  (** [can_accept s n]: nothing can go wrong for [n] more bytes. *)
  can_accept : S → Z → Prop;
  write_fits s n bs ok s' :
    ready s → can_accept s n → zlen bs ≤ n → zlen bs < 2 ^ 31 →
    ew_Write bs s = Val (ok, s') → ok = true ∧ can_accept s' (n - zlen bs);
  end_fits s n ok s' :
    ready s → can_accept s n → 0 ≤ n → ew_End s = Val (ok, s') → ok = true
}.

(** A client that writes a list of chunks, giving up at the first failure. *)
Fixpoint write_chunks {S} `{ExtentWriter S} (chunks : list bytes) : M S bool :=
  match chunks with
  | [] => mret true
  | c :: chunks' =>
      ok ← ew_Write c;
      if ok : bool then write_chunks chunks' else mret false
  end.

(** ** WriteAll and DirectExtentWriter (extent_writer.cc) *)

Section WriteAll.
Context {W : Type} `{PosixFd W}.

(** One unit of fuel per [write]: [length buf] suffices when every call
    writes something. *)
Definition WriteAll (fd : Z) (buf : bytes) : M W bool :=
  let count := zlen buf in
  loop (S (length buf)) (fun bytes_written =>
    if bytes_written <? ssize count then
      rc ← extern (sys_write fd (drop (Z.to_nat bytes_written) buf));
      if rc <? 0 then mret (inr false)
      else mret (inl (ssize (bytes_written + rc)))
    else mret (inr true)) 0.
End WriteAll.

Module DirectExtentWriter.
Record t := mk {
  fd_ : Z;
  block_size_ : Z;
  extent_bytes_written_ : Z;
  extents_ : list Extent;
  next_extent_index_ : Z;
  end_called_ : bool
}.
#[global] Instance eta_t : Eta t := fun r =>
  mk (fd_ r) (block_size_ r) (extent_bytes_written_ r) (extents_ r)
     (next_extent_index_ r) (end_called_ r).

Definition new : t := mk (-1) 0 0 [] 0 false.

Section writer.
Context {W : Type} `{PosixFd W}.

Definition upd (f : t → t) : M (t * W) unit := modify (fun s => (f s.1, s.2)).
Definition world {A} (m : M W A) : M (t * W) A := zoom snd (fun w s => (s.1, w)) m.

Definition Init (fd : Z) (extents : list Extent) (block_size : Z) : M (t * W) bool :=
  upd (fun d => d <| fd_ := fd |> <| block_size_ := block_size |>
                  <| extents_ := extents |>);;
  mret true.

(** [extents_[next_extent_index_]] receives [chunk]. *)
Definition write_chunk (d : t) (e : Extent) (chunk : bytes) : M (t * W) bool :=
  if decide (start_block e ≠ kSparseHole) then
    let offset := i64 (u64 (u64 (start_block e * block_size_ d) +
                            extent_bytes_written_ d)) in
    r ← world (extern (sys_lseek (fd_ d) offset));
    if decide (r = -1) then mret false
    else world (WriteAll (fd_ d) chunk)
  else mret true.

(** The body of [while (count - bytes_written > 0)]. *)
Definition Write_step (bs : bytes) (bytes_written : Z) : M (t * W) (Z + bool) :=
  let count := zlen bs in
  if decide (0 < usize (count - bytes_written)) then
    d ← gets fst;
    match extents_ d !! Z.to_nat (next_extent_index_ d) with
    | None => mret (inr false)
    | Some e =>
        let extent_size := u64 (num_blocks e * block_size_ d) in
        let bytes_remaining_next_extent :=
          u64 (extent_size - extent_bytes_written_ d) in
        CHECK (negb (bytes_remaining_next_extent =? 0));;
        let bytes_to_write :=
          usize (Z.min (usize (count - bytes_written)) bytes_remaining_next_extent) in
        if decide (bytes_to_write ≤ 0) then mret (inr false)
        else
          ok ← write_chunk d e
            (take (Z.to_nat bytes_to_write) (drop (Z.to_nat bytes_written) bs));
          if negb ok then mret (inr false)
          else
            upd (fun d => d <| extent_bytes_written_ :=
                              u64 (extent_bytes_written_ d + bytes_to_write) |>);;
            (if decide (bytes_remaining_next_extent = bytes_to_write) then
               d ← gets fst;
               CHECK (extent_bytes_written_ d =? extent_size);;
               upd (fun d => d <| extent_bytes_written_ := 0 |>
                               <| next_extent_index_ := usize (next_extent_index_ d + 1) |>)
             else mret ());;
            mret (inl (usize (bytes_written + bytes_to_write)))
    end
  else mret (inr true).

(** Every iteration writes at least one byte, hence the fuel. *)
Definition Write (bs : bytes) : M (t * W) bool :=
  if decide (zlen bs = 0) then mret true
  else loop (S (length bs)) (Write_step bs) 0.

Definition EndImpl : M (t * W) bool := mret true.
Definition End : M (t * W) bool :=
  upd (fun d => d <| end_called_ := true |>);; EndImpl.

#[global] Instance writer : ExtentWriter (t * W) := {|
  ew_Init := Init; ew_Write := Write; ew_End := End
|}.
End writer.
End DirectExtentWriter.

(** ** ZeroPadExtentWriter (extent_writer.h) *)

Module ZeroPadExtentWriter.
Record t := mk {
  block_size_ : Z;
  bytes_written_mod_block_size_ : Z;
  end_called_ : bool
}.
#[global] Instance eta_t : Eta t := fun r =>
  mk (block_size_ r) (bytes_written_mod_block_size_ r) (end_called_ r).

Definition new : t := mk 0 0 false.

Section writer.
(** The underlying writer, reached through a pointer. *)
Context {U : Type} `{ExtentWriter U}.

Definition upd (f : t → t) : M (t * U) unit := modify (fun s => (f s.1, s.2)).
Definition underlying {A} (m : M U A) : M (t * U) A := zoom snd (fun u s => (s.1, u)) m.

Definition Init (fd : Z) (extents : list Extent) (block_size : Z) : M (t * U) bool :=
  upd (fun z => z <| block_size_ := block_size |>);;
  underlying (ew_Init fd extents block_size).

Definition Write (bs : bytes) : M (t * U) bool :=
  ok ← underlying (ew_Write bs);
  if ok : bool then
    z ← gets fst;
    if decide (block_size_ z = 0) then fail Undefined
    else
      upd (fun z => z <| bytes_written_mod_block_size_ :=
             usize (bytes_written_mod_block_size_ z + zlen bs) `mod` block_size_ z |>);;
      mret true
  else mret false.

Definition EndImpl : M (t * U) bool :=
  z ← gets fst;
  ok ← (if decide (bytes_written_mod_block_size_ z ≠ 0) then
          let write_size := usize (block_size_ z - bytes_written_mod_block_size_ z) in
          underlying (ew_Write (replicate (Z.to_nat write_size) x00))
        else mret true);
  if ok : bool then underlying ew_End else mret false.

Definition End : M (t * U) bool :=
  upd (fun z => z <| end_called_ := true |>);; EndImpl.

#[global] Instance writer : ExtentWriter (t * U) := {|
  ew_Init := Init; ew_Write := Write; ew_End := End
|}.
End writer.
End ZeroPadExtentWriter.

(** ** BzipExtentWriter (bzip_extent_writer.{h,cc}) *)

(** libbz2: [bz_decompress] takes the library's state, the bytes at [next_in]
    and the room at [next_out]; it gives the return code, the new state, the
    number of input bytes consumed and the bytes produced. *)
Class Bz2 (B : Type) := {
  bz_init : Z * B;
  bz_decompress : B → bytes → Z → Z * B * Z * bytes;
  bz_end : B → Z * B
}.
Definition BZ_OK : Z := 0.
Definition BZ_STREAM_END : Z := 4.

Module BzipExtentWriter.
Definition kOutputBufferLength : Z := 1024 * 1024.

Section writer.
Context {U : Type} `{ExtentWriter U} {B : Type} `{Bz2 B}.

Record t := mk { stream_ : B; input_buffer_ : bytes; end_called_ : bool }.
#[global] Instance eta_t : Eta t := fun r =>
  mk (stream_ r) (input_buffer_ r) (end_called_ r).

Definition upd (f : t → t) : M (t * U) unit := modify (fun s => (f s.1, s.2)).
Definition next {A} (m : M U A) : M (t * U) A := zoom snd (fun u s => (s.1, u)) m.

Definition Init (fd : Z) (extents : list Extent) (block_size : Z) : M (t * U) bool :=
  upd (fun z => z <| stream_ := bz_init.2 |>);;
  if decide (bz_init.1 = BZ_OK)
  then next (ew_Init fd extents (u32 block_size))
  else mret false.

(** The body of [for (;;)]; the loop state is what is left at
    [stream_.next_in]. *)
Definition Write_step (avail : bytes) : M (t * U) (bytes + bytes * bool) :=
  z ← gets fst;
  let '(rc, st, consumed, out) := bz_decompress (stream_ z) avail kOutputBufferLength in
  let avail' := drop (Z.to_nat consumed) avail in
  upd (fun z => z <| stream_ := st |>);;
  if negb (bool_decide (rc = BZ_OK) || bool_decide (rc = BZ_STREAM_END))
  then mret (inr (avail', false))
  else if decide (out = []) then mret (inr (avail', true))
  else
    ok ← next (ew_Write out);
    if negb ok then mret (inr (avail', false))
    else
      (if decide (rc = BZ_STREAM_END) then CHECK (zlen avail' =? 0) else mret ());;
      if decide (zlen avail' = 0) then mret (inr (avail', true))
      else mret (inl avail').

(** [fuel] bounds the calls of the decompressor. *)
Definition Write (fuel : nat) (bs : bytes) : M (t * U) bool :=
  upd (fun z => z <| input_buffer_ := input_buffer_ z ++ bs |>);;
  z ← gets fst;
  '(rest, ok) ← loop fuel Write_step (input_buffer_ z);
  if negb ok then mret false
  else upd (fun z => z <| input_buffer_ := rest |>);; mret true.

Definition EndImpl : M (t * U) bool :=
  z ← gets fst;
  if decide (input_buffer_ z ≠ []) then mret false
  else
    let '(rc, st) := bz_end (stream_ z) in
    upd (fun z => z <| stream_ := st |>);;
    if decide (rc = BZ_OK) then next ew_End else mret false.

Definition End : M (t * U) bool :=
  upd (fun z => z <| end_called_ := true |>);; EndImpl.

Definition writer (fuel : nat) : ExtentWriter (t * U) := {|
  ew_Init := Init; ew_Write := Write fuel; ew_End := End
|}.
End writer.
Arguments t B : clear implicits.
End BzipExtentWriter.

(** ** Facts *)

Section WriteAll_facts.
Context {W : Type} `{PosixFileLaws W}.

(** [WriteAll] terminates, and when it returns true the whole buffer is at
    the file offset; it returns false only when a [write] failed. *)
Lemma WriteAll_spec fd buf w :
  zlen buf < 2 ^ 31 →
  ∃ ok w', WriteAll fd buf w = Val (ok, w') ∧
    (ok = true → ∀ i, file_of fd w' i = store_at (offset_of fd w) buf (file_of fd w) i) ∧
    (ok = false → ∃ bs w1, (sys_write fd bs w1).1 < 0).
Proof.
  intros Hlen. unfold WriteAll.
  apply (loop_total (written fd buf w)
    (fun ok w1 =>
       (ok = true → ∀ i, file_of fd w1 i = store_at (offset_of fd w) buf (file_of fd w) i) ∧
       (ok = false → ∃ bs w1, (sys_write fd bs w1).1 < 0))
    (fun bw w1 => Z.to_nat (zlen buf - bw))).
  - intros bw w1 Hw. pose proof Hw as (Hbw & _). rewrite i32_small by (unfold is_i32; lia).
    destruct (Z.ltb_spec bw (zlen buf)) as [Hlt|Hge]; mrun.
    + destruct (sys_write fd (drop (Z.to_nat bw) buf) w1) as [rc w2] eqn:E.
      destruct (Z.ltb_spec rc 0) as [Hrc|Hrc].
      { eexists _, _. split; [reflexivity|]. split; [done|].
        intros _. exists (drop (Z.to_nat bw) buf), w1. by rewrite E. }
      destruct (written_step _ _ _ _ _ _ _ Hw Hlt E Hrc) as [Hw2 Hpos].
      pose proof Hw2 as (Hbw2 & _).
      eexists _, _. split; [reflexivity|]. cbn beta.
      rewrite i32_small by (unfold is_i32; lia). split; [done|lia].
    + eexists _, _. split; [reflexivity|]. split; [|done]. intros _.
      apply (written_all fd buf w w1). by replace (zlen buf) with bw by lia.
  - apply written_init.
  - unfold zlen. lia.
Qed.
End WriteAll_facts.

(** ** DirectExtentWriter *)

Section DirectFacts.
Context {W : Type} `{PosixFileLaws W}.
Import DirectExtentWriter.

(** Where the bytes of an extent go. *)
Definition extent_positions (block_size : Z) (e : Extent) : list (option Z) :=
  if decide (start_block e = kSparseHole)
  then replicate (Z.to_nat (num_blocks e * block_size)) None
  else Some <$> seqZ (start_block e * block_size) (num_blocks e * block_size).

(** The positions still to be filled, in the order of the stream. *)
Definition remaining (d : t) : list (option Z) :=
  drop (Z.to_nat (extent_bytes_written_ d))
    (drop (Z.to_nat (next_extent_index_ d)) (extents_ d) ≫= extent_positions (block_size_ d)).

(** An extent the writer can serve without an integer wrapping. *)
Definition servable (block_size : Z) (e : Extent) : Prop :=
  0 < num_blocks e ∧ num_blocks e * block_size < 2 ^ 63 ∧ 0 ≤ start_block e ∧
  (start_block e ≠ kSparseHole → (start_block e + num_blocks e) * block_size < 2 ^ 63).

Record wf (d : t) : Prop := {
  wf_block_size : 0 < block_size_ d;
  wf_extents : Forall (servable (block_size_ d)) (extents_ d);
  wf_count : zlen (extents_ d) < 2 ^ 31;
  wf_index : 0 ≤ next_extent_index_ d ≤ zlen (extents_ d);
  wf_bytes : 0 ≤ extent_bytes_written_ d;
  wf_inside : match extents_ d !! Z.to_nat (next_extent_index_ d) with
              | Some e => extent_bytes_written_ d < num_blocks e * block_size_ d
              | None => extent_bytes_written_ d = 0
              end
}.

Lemma length_extent_positions bs e :
  0 ≤ num_blocks e * bs → zlen (extent_positions bs e) = num_blocks e * bs.
Proof.
  intros Hn. unfold extent_positions, zlen.
  case_decide; rewrite ?length_replicate, ?length_fmap, ?length_seqZ; lia.
Qed.

(** The current extent splits the remaining positions. *)
Lemma remaining_split d e :
  wf d → extents_ d !! Z.to_nat (next_extent_index_ d) = Some e →
  remaining d = drop (Z.to_nat (extent_bytes_written_ d)) (extent_positions (block_size_ d) e)
    ++ (drop (S (Z.to_nat (next_extent_index_ d))) (extents_ d)
          ≫= extent_positions (block_size_ d)).
Proof.
  intros [Hbs Hext _ _ Hb Hin] He. unfold remaining. rewrite He in Hin.
  rewrite (drop_S _ _ _ He). cbn. rewrite drop_app_le; [done|].
  pose proof (length_extent_positions (block_size_ d) e) as Hl. unfold zlen in Hl. lia.
Qed.

Lemma drop_extent_positions bs e k :
  0 ≤ k ≤ num_blocks e * bs →
  drop (Z.to_nat k) (extent_positions bs e) =
  if decide (start_block e = kSparseHole)
  then replicate (Z.to_nat (num_blocks e * bs - k)) None
  else Some <$> seqZ (start_block e * bs + k) (num_blocks e * bs - k).
Proof.
  intros Hk. unfold extent_positions. case_decide.
  - rewrite drop_replicate. f_equal. lia.
  - rewrite <-fmap_drop. f_equal.
    replace (num_blocks e * bs) with (k + (num_blocks e * bs - k)) at 1 by lia.
    rewrite seqZ_app by lia. rewrite drop_app_length'; [done|].
    rewrite length_seqZ. done.
Qed.

Lemma remaining_none d :
  wf d → extents_ d !! Z.to_nat (next_extent_index_ d) = None → remaining d = [].
Proof.
  intros Hwf He. apply lookup_ge_None in He. unfold remaining.
  rewrite (drop_ge (extents_ d)) by done. cbn. by rewrite drop_nil.
Qed.

(** Some [write] or [lseek] to a valid offset can fail. *)
Definition os_failure : Prop :=
  ∃ fd, (∃ bs w1, (sys_write fd bs w1).1 < 0) ∨
        (∃ off w1, 0 ≤ off ∧ (sys_lseek fd off w1).1 = -1).

(** The state after [k] more bytes went into the current extent [e]. *)
Definition advance (d : t) (e : Extent) (k : Z) : t :=
  if decide (num_blocks e * block_size_ d - extent_bytes_written_ d = k)
  then d <| extent_bytes_written_ := 0 |>
         <| next_extent_index_ := next_extent_index_ d + 1 |>
  else d <| extent_bytes_written_ := extent_bytes_written_ d + k |>.

Lemma advance_wf d e k :
  wf d → extents_ d !! Z.to_nat (next_extent_index_ d) = Some e →
  0 < k ≤ num_blocks e * block_size_ d - extent_bytes_written_ d → wf (advance d e k).
Proof.
  intros Hwf He Hk. pose proof Hwf as [Hbs Hext Hcnt Hidx Hb Hin]. rewrite He in Hin.
  assert (next_extent_index_ d < zlen (extents_ d)) as Hlt.
  { apply lookup_lt_Some in He. unfold zlen. lia. }
  unfold advance. case_decide; split; cbn; try done; try lia.
  - destruct (extents_ d !! Z.to_nat (next_extent_index_ d + 1)) as [e'|] eqn:E; [|done].
    destruct (Forall_lookup_1 _ _ _ _ Hext E) as [? _]. nia.
  - rewrite He. lia.
Qed.

Lemma advance_remaining d e k :
  wf d → extents_ d !! Z.to_nat (next_extent_index_ d) = Some e →
  0 < k ≤ num_blocks e * block_size_ d - extent_bytes_written_ d →
  remaining (advance d e k) = drop (Z.to_nat k) (remaining d).
Proof.
  intros Hwf He Hk. pose proof Hwf as [Hbs Hext Hcnt Hidx Hb Hin]. rewrite He in Hin.
  pose proof (length_extent_positions (block_size_ d) e ltac:(lia)) as Hl.
  rewrite (remaining_split d e Hwf He). unfold advance. case_decide as Hd.
  - unfold remaining; cbn. rewrite drop_0.
    rewrite drop_app_length'; [|rewrite length_drop; unfold zlen in Hl; lia].
    f_equal. f_equal. lia.
  - rewrite drop_app_le by (rewrite length_drop; unfold zlen in Hl; lia).
    rewrite drop_drop.
    rewrite (remaining_split _ e); [|by pose proof (advance_wf d e k Hwf He Hk) as Ha;
      unfold advance in Ha; rewrite decide_False in Ha by done|done].
    cbn. f_equal. f_equal. lia.
Qed.

(** [write_chunk] puts the chunk at the first remaining positions. *)
Lemma write_chunk_spec d e chunk w :
  wf d → extents_ d !! Z.to_nat (next_extent_index_ d) = Some e →
  zlen chunk ≤ num_blocks e * block_size_ d - extent_bytes_written_ d →
  zlen chunk < 2 ^ 31 →
  ∃ ok w', write_chunk d e chunk (d, w) = Val (ok, (d, w')) ∧
    (ok = true → ∀ i, file_of (fd_ d) w' i =
                      place (remaining d) chunk (file_of (fd_ d) w) i) ∧
    (ok = false → os_failure).
Proof.
  intros Hwf He Hc Hc31. pose proof Hwf as [Hbs Hext Hcnt Hidx Hb Hin]. rewrite He in Hin.
  destruct (Forall_lookup_1 _ _ _ _ Hext He) as (Hn & Hcap & Hs0 & Hs).
  rewrite (remaining_split d e Hwf He), 
    (drop_extent_positions (block_size_ d) e (extent_bytes_written_ d) ltac:(lia)).
  unfold write_chunk. case_decide as Hhole.
  - rewrite decide_False by done. specialize (Hs Hhole).
    rewrite (u64_small (start_block e * block_size_ d)) by (unfold is_u64; nia).
    rewrite u64_small by (unfold is_u64; nia). rewrite i64_small by (unfold is_i64; nia).
    unfold world, zoom, extern. mrun. cbn [snd fst].
    set (off := start_block e * block_size_ d + extent_bytes_written_ d).
    destruct (sys_lseek (fd_ d) off w) as [r w1] eqn:E. cbn [fst snd].
    case_decide as Hr.
    { subst r. eexists _, _. split; [reflexivity|]. split; [done|].
      intros _. exists (fd_ d). right. exists off, w. rewrite E. split; [subst off; nia|done]. }
    destruct (lseek_ok _ _ _ _ _ E Hr) as [Hoff Hf]. cbn [fst snd].
    destruct (WriteAll_spec (fd_ d) chunk w1 Hc31) as (ok & w2 & -> & Hok & Hbad).
    eexists _, _. split; [reflexivity|]. split.
    + intros Ht i. rewrite (Hok Ht i), Hoff, (store_at_ext _ _ _ _ _ Hf).
      rewrite place_prefix.
      * rewrite place_run by lia. done.
      * rewrite length_fmap, length_seqZ. unfold zlen in *. lia.
    + intros Ht. destruct (Hbad Ht) as (b & w3 & Hlt). exists (fd_ d). left. eauto.
  - assert (start_block e = kSparseHole) as -> by (destruct (decide (start_block e = kSparseHole)); tauto).
    rewrite decide_True by done. mrun. eexists _, _. split; [reflexivity|]. split; [|done].
    intros _ i. rewrite place_prefix, place_holes; [done|].
    rewrite length_replicate. unfold zlen in *. lia.
Qed.

(** What a prefix of [bs] of length [k] did to the writer and the file. *)
Record written (d0 : t) (w0 : W) (bs : bytes) (k : Z) (d : t) (w : W) : Prop := {
  wr_wf : wf d;
  wr_fd : fd_ d = fd_ d0;
  wr_len : (Z.to_nat k ≤ length (remaining d0))%nat;
  wr_remaining : remaining d = drop (Z.to_nat k) (remaining d0);
  wr_file i : file_of (fd_ d0) w i =
              place (remaining d0) (take (Z.to_nat k) bs) (file_of (fd_ d0) w0) i
}.

Lemma written_0 d w bs : wf d → written d w bs 0 d w.
Proof. intros Hwf. split; cbn; try done; [lia|]. intros i. by rewrite place_nil. Qed.

Lemma take_take_drop {A} (j k : nat) (l : list A) :
  take j l ++ take k (drop j l) = take (j + k) l.
Proof.
  destruct (decide (j ≤ length l)%nat) as [Hj|Hj].
  - rewrite <-(take_drop j l) at 3. rewrite take_app, take_take, length_take.
    replace ((j + k) `min` j)%nat with j by lia. f_equal. f_equal. lia.
  - rewrite (drop_ge l j), take_nil, app_nil_r by lia. rewrite !take_ge by lia. done.
Qed.

Lemma chunk_written_step d0 w0 bs k d w e n w' :
  written d0 w0 bs k d w → 0 ≤ k → 0 < n → k + n ≤ zlen bs →
  extents_ d !! Z.to_nat (next_extent_index_ d) = Some e →
  n ≤ num_blocks e * block_size_ d - extent_bytes_written_ d →
  (∀ i, file_of (fd_ d) w' i =
        place (remaining d) (take (Z.to_nat n) (drop (Z.to_nat k) bs)) (file_of (fd_ d) w) i) →
  written d0 w0 bs (k + n) (advance d e n) w'.
Proof.
  intros [Hwf Hfd Hl Hr Hf] Hk Hn Hkn He Hroom Hf'.
  pose proof Hwf as [Hbs Hext _ _ Hb Hin]. rewrite He in Hin.
  pose proof (length_extent_positions (block_size_ d) e ltac:(lia)) as Hpos.
  assert (Z.to_nat n ≤ length (remaining d))%nat as Hn'.
  { rewrite (remaining_split d e Hwf He), length_app, length_drop. unfold zlen in Hpos. lia. }
  split.
  - by apply advance_wf.
  - rewrite <-Hfd. unfold advance. by case_decide.
  - rewrite Hr, length_drop in Hn'. lia.
  - rewrite advance_remaining by done. rewrite Hr, drop_drop. f_equal. lia.
  - intros i. rewrite <-Hfd, Hf', Hfd. rewrite (place_ext _ _ _ _ Hf).
    rewrite Z2Nat.inj_add by lia. rewrite <-take_take_drop.
    assert (length (take (Z.to_nat k) bs) = Z.to_nat k) as Hlen.
    { rewrite length_take. unfold zlen in *. lia. }
    rewrite place_app by lia. by rewrite Hlen, Hr.
Qed.

Lemma Write_step_spec d0 w0 bs k d w :
  zlen bs < 2 ^ 31 → 0 ≤ k ≤ zlen bs → written d0 w0 bs k d w →
  ∃ r s', Write_step bs k (d, w) = Val (r, s') ∧
    match r with
    | inl k' => k < k' ≤ zlen bs ∧ written d0 w0 bs k' s'.1 s'.2
    | inr true => k = zlen bs ∧ s' = (d, w)
    | inr false => wf s'.1 ∧
        (os_failure ∨ (length (remaining d0) < length bs)%nat)
    end.
Proof.
  intros Hlen Hk Hw. pose proof Hw as [Hwf Hfd Hl Hr Hf].
  unfold Write_step. rewrite u32_small by (unfold is_u32; lia).
  case_decide as Hlt.
  2:{ eexists _, _. split; [reflexivity|]. cbn. split; [lia|done]. }
  mrun. cbn [fst snd].
  destruct (extents_ d !! Z.to_nat (next_extent_index_ d)) as [e|] eqn:He.
  2:{ eexists _, _. split; [reflexivity|]. cbn. split; [done|]. right.
      rewrite (remaining_none _ Hwf He) in Hr.
      apply (f_equal length) in Hr. rewrite length_drop in Hr. cbn in Hr.
      unfold zlen in *. lia. }
  pose proof Hwf as [Hbs Hext Hcnt Hidx Hb Hin]. rewrite He in Hin.
  destruct (Forall_lookup_1 _ _ _ _ Hext He) as (Hn & Hcap & Hs0 & Hs).
  rewrite (u64_small (num_blocks e * block_size_ d)) by (unfold is_u64; lia).
  rewrite (u64_small (_ - _)) by (unfold is_u64; lia).
  rewrite (CHECK_true (negb _)) by (apply negb_true_iff, Z.eqb_neq; lia). mrun.
  set (n := usize (Z.min (zlen bs - k) (num_blocks e * block_size_ d - extent_bytes_written_ d))).
  assert (n = Z.min (zlen bs - k) (num_blocks e * block_size_ d - extent_bytes_written_ d)) as Hnv.
  { subst n. apply u32_small. unfold is_u32. lia. }
  rewrite decide_False by lia.
  set (chunk := take (Z.to_nat n) (drop (Z.to_nat k) bs)).
  assert (zlen chunk = n) as Hchunk.
  { subst chunk. unfold zlen in *. rewrite length_take, length_drop. lia. }
  destruct (write_chunk_spec d e chunk w Hwf He) as (ok & w1 & -> & Hok & Hbad); [lia|lia|].
  destruct ok; cbn [negb].
  2:{ eexists _, _. split; [reflexivity|]. cbn. split; [done|]. left. by apply Hbad. }
  pose proof (chunk_written_step _ _ _ _ _ _ e n w1 Hw ltac:(lia) ltac:(lia) ltac:(lia) He
                ltac:(lia) (Hok eq_refl)) as Hw'.
  unfold upd. mrun. cbn [fst snd].
  rewrite u64_small by (unfold is_u64; lia).
  unfold advance in Hw'. case_decide as Hfull.
  - cbn [extent_bytes_written_ update]. cbn beta.
    rewrite CHECK_true by (apply Z.eqb_eq; cbn; lia). mrun.
    rewrite !u32_small by (unfold is_u32, zlen in *; cbn; lia).
    eexists _, _. split; [reflexivity|]. cbn. split; [lia|]. exact Hw'.
  - rewrite !u32_small by (unfold is_u32; lia).
    eexists _, _. split; [reflexivity|]. cbn. split; [lia|]. exact Hw'.
Qed.

(** The whole of [Write]: total, and either everything was placed or there
    is a reason for the failure. *)
Lemma Write_spec d w bs :
  wf d → zlen bs < 2 ^ 31 →
  ∃ ok d' w', Write bs (d, w) = Val (ok, (d', w')) ∧ wf d' ∧
    (ok = true → written d w bs (zlen bs) d' w') ∧
    (ok = false → os_failure ∨ (length (remaining d) < length bs)%nat).
Proof.
  intros Hwf Hlen. unfold Write. case_decide as Hz.
  { exists true, d, w. split; [done|]. split; [done|]. split; [|done].
    intros _. rewrite Hz. by apply written_0. }
  destruct (loop_total
    (fun k s => 0 ≤ k ≤ zlen bs ∧ written d w bs k s.1 s.2)
    (fun ok s => wf s.1 ∧ (ok = true → written d w bs (zlen bs) s.1 s.2) ∧
       (ok = false → os_failure ∨ (length (remaining d) < length bs)%nat))
    (fun k s => Z.to_nat (zlen bs - k)) (Write_step bs)) with
    (fuel := S (length bs)) (a := 0) (s := (d, w)) as (ok & s' & -> & Hpost).
  - intros k [d1 w1] [Hk Hw]. cbn [fst snd] in Hw.
    destruct (Write_step_spec _ _ _ _ _ _ Hlen Hk Hw) as (r & [d2 w2] & -> & Hr).
    eexists _, _. split; [reflexivity|]. destruct r as [k'|[|]].
    + destruct Hr as [Hk' Hw']. split; [split; [lia|done]|lia].
    + destruct Hr as [-> [= -> ->]]. split; [by apply Hw|done].
    + destruct Hr as [Hwf' Hr]. done.
  - split; [split; [lia|apply zlen_nonneg]|by apply written_0].
  - unfold zlen. lia.
  - destruct s' as [d' w']. exists ok, d', w'. done.
Qed.
End DirectFacts.

#[export, refine] Instance direct_sink {W} `{PosixFileLaws W} : ByteSink (DirectExtentWriter.t * W) := {|
  ready s := wf s.1;
  accepts s bs s' := written s.1 s.2 bs (zlen bs) s'.1 s'.2;
  closes s s' := s'.2 = s.2;
  can_accept s n := ¬ os_failure (W := W) ∧ n ≤ zlen (remaining s.1)
|}.
Proof.
  - intros s Hs. rewrite zlen_nil. by apply written_0.
  - intros [d w] x [d' w'] y [d'' w''] Hx Hy. cbn [fst snd] in *.
    destruct Hx as [Hwf Hfd Hl Hr Hf], Hy as [Hwf' Hfd' Hl' Hr' Hf'].
    unfold zlen in *. rewrite !Nat2Z.id in *. rewrite !firstn_all in *.
    rewrite Hr, length_drop in Hl'.
    split; rewrite ?Nat2Z.id; [done|congruence|rewrite length_app; lia| |].
    + rewrite Hr', Hr, drop_drop, length_app. done.
    + intros i. rewrite <-Hfd, Hf', Hfd, (place_ext _ _ _ _ Hf), Hr.
      rewrite firstn_all. by rewrite place_app by lia.
  - intros [d w] bs Hwf Hlen. cbn in Hwf.
    destruct (Write_spec d w bs Hwf Hlen) as (ok & d' & w' & Hw & Hwf' & Hok & _).
    exists ok, (d', w'). done.
  - intros [d w] _. eexists _, _. split; [reflexivity|done].
  - intros [d w] n bs ok [d' w'] Hwf [Hos Hroom] Hn Hlen Hw. cbn [fst snd] in *.
    destruct (Write_spec d w bs Hwf Hlen) as (ok1 & d1 & w1 & Hw1 & Hwf' & Hok & Hbad).
    change (ew_Write bs (d, w)) with (DirectExtentWriter.Write bs (d, w)) in Hw.
    rewrite Hw in Hw1. injection Hw1 as <- <- <-.
    destruct ok; [|destruct (Hbad eq_refl); [done|unfold zlen in *; lia]].
    destruct (Hok eq_refl) as [_ _ _ Hr _]. split; [done|]. split; [done|].
    rewrite Hr. unfold zlen in *. rewrite length_drop. lia.
  - intros [d w] n ok s' _ _ _ [= <- _]. done.
Defined.

Section chunks.
Context {S : Type} `{ByteSink S}.

(** Chunked writing is total and, when it succeeds, equivalent to accepting
    the concatenation: the chunk boundaries are invisible. *)
Lemma write_chunks_total cs s :
  ready s → Forall (λ c, zlen c < 2 ^ 31) cs →
  ∃ ok s', write_chunks cs s = Val (ok, s') ∧ ready s' ∧
    (ok = true → accepts s (concat cs) s').
Proof.
  revert s. induction cs as [|c cs IH]; intros s Hs Hcs; cbn.
  { exists true, s. split_and!; [done|done|]. intros _. by apply accepts_nil. }
  apply Forall_cons in Hcs as [Hc Hcs]. mrun.
  destruct (write_total s c Hs Hc) as (ok & s1 & -> & Hs1 & Hok).
  destruct ok; [|by exists false, s1].
  destruct (IH s1 Hs1 Hcs) as (ok & s2 & -> & Hs2 & Hok2).
  exists ok, s2. split_and!; [done|done|]. intros Ht.
  eapply accepts_app; eauto.
Qed.

Lemma write_chunks_fits cs s n :
  ready s → Forall (λ c, zlen c < 2 ^ 31) cs → can_accept s n → zlen (concat cs) ≤ n →
  ∃ s', write_chunks cs s = Val (true, s') ∧ ready s' ∧
    accepts s (concat cs) s' ∧ can_accept s' (n - zlen (concat cs)).
Proof.
  revert s n. induction cs as [|c cs IH]; intros s n Hs Hcs Hroom Hn; cbn.
  { exists s. rewrite Z.sub_0_r. split_and!; try done. by apply accepts_nil. }
  apply Forall_cons in Hcs as [Hc Hcs]. cbn in Hn. rewrite zlen_app in *.
  pose proof (zlen_nonneg (concat cs)). mrun.
  destruct (write_total s c Hs Hc) as (ok & s1 & Hw & Hs1 & Hok). rewrite Hw.
  destruct (write_fits s n c ok s1 Hs Hroom ltac:(lia) Hc Hw) as [-> Hroom1].
  destruct (IH s1 (n - zlen c) Hs1 Hcs Hroom1) as (s2 & -> & Hs2 & Ha & Hroom2); [lia|].
  exists s2. split_and!; [done|done|eapply accepts_app; eauto|].
  by replace (n - (zlen c + zlen (concat cs))) with (n - zlen c - zlen (concat cs)) by lia.
Qed.
End chunks.

(** ** ZeroPadExtentWriter *)

Section ZeroPadFacts.
Context {U : Type} `{ByteSink U}.
Import ZeroPadExtentWriter.

Record zp_ready (s : t * U) : Prop := {
  zp_block : 0 < block_size_ s.1 < 2 ^ 31;
  zp_mod : 0 ≤ bytes_written_mod_block_size_ s.1 < block_size_ s.1;
  zp_under : ready s.2
}.

(** The bytes went through unchanged; the counter follows them. *)
Definition zp_accepts (s : t * U) (bs : bytes) (s' : t * U) : Prop :=
  accepts s.2 bs s'.2 ∧ block_size_ s'.1 = block_size_ s.1 ∧
  bytes_written_mod_block_size_ s'.1 =
    (bytes_written_mod_block_size_ s.1 + zlen bs) `mod` block_size_ s.1.

(** [End] fills the last block with zeros and closes the writer below. *)
Definition zp_closes (s s' : t * U) : Prop :=
  ∃ k u, 0 ≤ k < block_size_ s.1 ∧
    (bytes_written_mod_block_size_ s.1 + k) `mod` block_size_ s.1 = 0 ∧
    accepts s.2 (replicate (Z.to_nat k) x00) u ∧ closes u s'.2.

Lemma zp_write_total s bs :
  zp_ready s → zlen bs < 2 ^ 31 →
  ∃ ok s', Write bs s = Val (ok, s') ∧ zp_ready s' ∧ (ok = true → zp_accepts s bs s').
Proof.
  destruct s as [z u]. intros [Hb Hm Hu] Hlen. cbn [fst snd] in *.
  pose proof (zlen_nonneg bs).
  unfold Write, underlying. mrun. cbn [fst snd].
  destruct (write_total u bs Hu Hlen) as (ok & u' & -> & Hu' & Hok).
  destruct ok; [|exists false, (z, u'); split_and!; [done|by split|done]].
  cbn [fst snd]. rewrite decide_False by lia. unfold upd. mrun. cbn [fst snd].
  rewrite u32_small by (unfold is_u32; lia).
  eexists _, _. split; [reflexivity|]. split.
  - split; cbn; [done|apply Z.mod_pos_bound; lia|done].
  - intros _. split; [by apply Hok|done].
Qed.

Lemma zp_end_total s :
  zp_ready s → ∃ ok s', End s = Val (ok, s') ∧ (ok = true → zp_closes s s').
Proof.
  destruct s as [z u]. intros [Hb Hm Hu]. cbn [fst snd] in *.
  unfold End, EndImpl, upd, underlying. mrun.
  cbn [fst snd update block_size_ bytes_written_mod_block_size_].
  destruct (decide (bytes_written_mod_block_size_ z ≠ 0)) as [Hz|Hz].
  - rewrite u32_small by (unfold is_u32; lia).
    set (k := block_size_ z - bytes_written_mod_block_size_ z). cbn [fst snd].
    destruct (write_total u (replicate (Z.to_nat k) x00) Hu) as (ok & u' & -> & Hu' & Hok).
    { rewrite zlen_replicate. lia. }
    destruct ok; [|eexists _, _; split; [reflexivity|done]]. cbn [fst snd].
    destruct (end_total u' Hu') as (ok & u'' & -> & Hc).
    eexists _, _. split; [reflexivity|]. intros Ht. exists k, u'. cbn.
    split_and!; [lia|lia| |by apply Hok|by apply Hc].
    subst k. replace (_ + _) with (1 * block_size_ z) by lia. by apply Z.mod_mul; lia.
  - assert (bytes_written_mod_block_size_ z = 0) as Hz0.
    { by destruct (decide (bytes_written_mod_block_size_ z = 0)). }
    cbn [fst snd]. destruct (end_total u Hu) as (ok & u' & -> & Hc).
    eexists _, _. split; [reflexivity|]. intros Ht. exists 0, u. cbn.
    split_and!; [lia|lia| |by apply accepts_nil|by apply Hc].
    rewrite Hz0. by apply Z.mod_0_l; lia.
Qed.

(** The zeros that follow [n] more bytes; the writer below must have room
    for them too. *)
Definition padding (s : t * U) (n : Z) : Z :=
  (- (bytes_written_mod_block_size_ s.1 + n)) `mod` block_size_ s.1.
Definition zp_can_accept (s : t * U) (n : Z) : Prop :=
  can_accept s.2 (n + padding s n).

Lemma zp_write_fits s n bs ok s' :
  zp_ready s → zp_can_accept s n → zlen bs ≤ n → zlen bs < 2 ^ 31 →
  Write bs s = Val (ok, s') → ok = true ∧ zp_can_accept s' (n - zlen bs).
Proof.
  destruct s as [z u]. intros [Hb Hm Hu] Hroom Hn Hlen. unfold zp_can_accept, padding in *.
  cbn [fst snd] in *. pose proof (zlen_nonneg bs).
  pose proof (Z.mod_pos_bound (- (bytes_written_mod_block_size_ z + n)) (block_size_ z) ltac:(lia)).
  unfold Write, underlying. mrun. cbn [fst snd].
  destruct (write_total u bs Hu Hlen) as (ok1 & u' & Hw & Hu' & _). rewrite Hw.
  destruct (write_fits u _ bs ok1 u' Hu Hroom ltac:(lia) Hlen Hw) as [-> Hroom'].
  cbn [fst snd]. rewrite decide_False by lia. unfold upd. mrun.
  intros [= <- <-]. cbn. split; [done|].
  rewrite u32_small by (unfold is_u32; lia).
  match goal with |- can_accept _ ?m => replace m with
    (n + (- (bytes_written_mod_block_size_ z + n)) `mod` block_size_ z - zlen bs); [done|] end.
  pose proof (Z.div_mod (bytes_written_mod_block_size_ z + zlen bs) (block_size_ z) ltac:(lia)) as Hdiv.
  set (q := (bytes_written_mod_block_size_ z + zlen bs) `div` block_size_ z) in *.
  set (r := (bytes_written_mod_block_size_ z + zlen bs) `mod` block_size_ z) in *.
  replace (- (r + (n - zlen bs)))
    with (- (bytes_written_mod_block_size_ z + n) + q * block_size_ z) by lia.
  rewrite Z_mod_plus_full. lia.
Qed.

Lemma zp_end_fits s n ok s' :
  zp_ready s → zp_can_accept s n → 0 ≤ n → End s = Val (ok, s') → ok = true.
Proof.
  destruct s as [z u]. intros [Hb Hm Hu] Hroom Hn. unfold zp_can_accept, padding in *.
  cbn [fst snd] in *.
  pose proof (Z.mod_pos_bound (- (bytes_written_mod_block_size_ z + n)) (block_size_ z) ltac:(lia)).
  unfold End, EndImpl, upd, underlying. mrun.
  cbn [fst snd update block_size_ bytes_written_mod_block_size_].
  destruct (decide (bytes_written_mod_block_size_ z ≠ 0)) as [Hz|Hz]; cbn [fst snd].
  - rewrite u32_small by (unfold is_u32; lia).
    set (k := block_size_ z - bytes_written_mod_block_size_ z) in *.
    set (m := n + (- (bytes_written_mod_block_size_ z + n)) `mod` block_size_ z) in *.
    assert (zlen (replicate (Z.to_nat k) x00) = k) as Hk by (rewrite zlen_replicate; lia).
    assert (k ≤ m) as Hkm.
    { subst m k. pose proof (Z.div_mod (- (bytes_written_mod_block_size_ z + n)) (block_size_ z) ltac:(lia)).
      pose proof (Z.div_lt_upper_bound (- (bytes_written_mod_block_size_ z + n))
                    (block_size_ z) 0 ltac:(lia) ltac:(lia)). nia. }
    destruct (write_total u (replicate (Z.to_nat k) x00) Hu) as (ok1 & u' & Hw & Hu' & _); [lia|].
    rewrite Hw. destruct (write_fits u m (replicate (Z.to_nat k) x00) ok1 u' Hu Hroom ltac:(lia) ltac:(lia) Hw) as [-> Hroom'].
    cbn [fst snd]. destruct (end_total u' Hu') as (ok2 & u'' & He & _). rewrite He.
    intros [= <- _]. rewrite Hk in Hroom'. eapply end_fits; [done|exact Hroom'|lia|exact He].
  - destruct (end_total u Hu) as (ok2 & u'' & He & _). rewrite He.
    intros [= <- _]. eapply end_fits; [done|exact Hroom|lia|exact He].
Qed.

#[export, refine] Instance zero_pad_sink : ByteSink (t * U) := {|
  ready := zp_ready; accepts := zp_accepts; closes := zp_closes;
  write_total := zp_write_total; end_total := zp_end_total;
  can_accept := zp_can_accept; write_fits := zp_write_fits; end_fits := zp_end_fits
|}.
Proof.
  - intros [z u] [Hb Hm Hu]. split; [by apply accepts_nil|]. split; [done|].
    cbn [fst snd] in *. rewrite zlen_nil, Z.add_0_r. by rewrite Z.mod_small.
  - intros s x s' y s'' (Ha & Hb & Hm) (Ha' & Hb' & Hm').
    split; [by eapply accepts_app|]. split; [congruence|].
    rewrite Hm', Hm, Hb, zlen_app, Zplus_mod_idemp_l. f_equal. lia.
Defined.
End ZeroPadFacts.

(** ** BzipExtentWriter *)

(** What bzlib.h documents of [BZ2_bzDecompress]: it consumes a prefix of the
    input and fits its output in the room it is given, and it has only
    finitely many bytes ([bz_pending]) to produce from a given input. *)
Class Bz2Laws (B : Type) `{Bz2 B} := {
  bz_pending : B → bytes → nat;
  bz_bounds st avail room rc st' consumed out :
    0 ≤ room → bz_decompress st avail room = (rc, st', consumed, out) →
    0 ≤ consumed ≤ zlen avail ∧ zlen out ≤ room;
  bz_finite st avail room rc st' consumed out :
    bz_decompress st avail room = (rc, st', consumed, out) →
    (bz_pending st' (drop (Z.to_nat consumed) avail) + length out ≤ bz_pending st avail)%nat
}.

(** A run of the decompressor: consumed input, produced output. *)
Inductive bz_run {B} `{Bz2 B} : B → bytes → bytes → B → Prop :=
| bz_run_nil st : bz_run st [] [] st
| bz_run_step st avail room rc st1 consumed out inp outp st2 :
    bz_decompress st avail room = (rc, st1, consumed, out) →
    rc = BZ_OK ∨ rc = BZ_STREAM_END →
    bz_run st1 inp outp st2 →
    bz_run st (take (Z.to_nat consumed) avail ++ inp) (out ++ outp) st2.

Lemma bz_run_app {B} `{Bz2 B} (st1 st2 st3 : B) i1 o1 i2 o2 :
  bz_run st1 i1 o1 st2 → bz_run st2 i2 o2 st3 → bz_run st1 (i1 ++ i2) (o1 ++ o2) st3.
Proof.
  induction 1 as [|st avail room rc st1 consumed out inp outp st2 Hd Hrc Hr IH]; [done|].
  intros H2. rewrite <-!(assoc_L (++)). econstructor; eauto.
Qed.

Section BzipFacts.
Context {U : Type} `{ByteSink U} {B : Type} `{Bz2Laws B}.
Import BzipExtentWriter.

(** What one call leaves behind: total up to the two aborts of the code. *)
Definition pumped (z : t B) (u : U) (avail rest : bytes) (z' : t B) (u' : U) : Prop :=
  ∃ consumed out, avail = consumed ++ rest ∧
    bz_run (stream_ z) consumed out (stream_ z') ∧ accepts u out u'.

Lemma pumped_step z u avail rc st consumed out u1 rest z' u' :
  bz_decompress (stream_ z) avail kOutputBufferLength = (rc, st, consumed, out) →
  rc = BZ_OK ∨ rc = BZ_STREAM_END →
  accepts u out u1 →
  pumped (z <| stream_ := st |>) u1 (drop (Z.to_nat consumed) avail) rest z' u' →
  pumped z u avail rest z' u'.
Proof.
  intros Hd Hrc Ha (c & o & Hs & Hr & Ha').
  exists (take (Z.to_nat consumed) avail ++ c), (out ++ o).
  split_and!.
  - rewrite <-(assoc_L (++)), <-Hs. by rewrite take_drop.
  - by econstructor.
  - by eapply accepts_app.
Qed.

Lemma pumped_refl z u rest : ready u → pumped z u rest rest z u.
Proof.
  intros Hu. exists [], []. split_and!; [done|constructor|by apply accepts_nil].
Qed.

(** The outcome of the loop: a result, or the [CHECK] that the end of the
    stream is the end of the input. *)
Definition loop_outcome (z : t B) (u : U) (avail : bytes)
    (r : result ((bytes * bool) * (t B * U))) : Prop :=
  match r with
  | Val ((rest, ok), (z', u')) =>
      ready u' ∧ input_buffer_ z' = input_buffer_ z ∧
      (ok = true → pumped z u avail rest z' u')
  | Fault f => f = CheckFailed
  end.

Lemma Write_loop_spec fuel z u avail :
  ready u → (bz_pending (stream_ z) avail < fuel)%nat →
  loop_outcome z u avail (loop fuel Write_step avail (z, u)).
Proof.
  revert z u avail. induction fuel as [|fuel IH]; intros z u avail Hu Hfuel; [lia|].
  rewrite loop_S. unfold Write_step at 1. mrun. cbn [fst snd].
  destruct (bz_decompress (stream_ z) avail kOutputBufferLength)
    as [[[rc st] consumed] out] eqn:Ed.
  destruct (bz_bounds _ _ kOutputBufferLength _ _ _ _ ltac:(done) Ed) as [Hc Ho].
  pose proof (bz_finite _ _ _ _ _ _ _ Ed) as Hfin.
  unfold upd. mrun. cbn [fst snd].
  destruct (bool_decide (rc = BZ_OK) || bool_decide (rc = BZ_STREAM_END)) eqn:Erc; cbn [negb].
  2:{ cbn. done. }
  assert (rc = BZ_OK ∨ rc = BZ_STREAM_END) as Hrc.
  { apply orb_true_iff in Erc as [?%bool_decide_eq_true|?%bool_decide_eq_true]; auto. }
  destruct (decide (out = [])) as [->|Hne].
  { cbn. split_and!; [done|done|]. intros _.
    eapply pumped_step; [done|done|by apply accepts_nil|by apply pumped_refl]. }
  unfold next. mrun. cbn [fst snd].
  destruct (write_total u out Hu) as (ok & u1 & -> & Hu1 & Hok).
  { unfold kOutputBufferLength in Ho. lia. }
  destruct ok; cbn [negb fst snd]; [|cbn; done].
  assert (∀ rest z' u', pumped (z <| stream_ := st |>) u1 (drop (Z.to_nat consumed) avail) rest z' u'
            → pumped z u avail rest z' u') as Hstep.
  { intros rest z' u'. apply (pumped_step z u avail rc st consumed out u1); auto. }
  destruct (decide (zlen (drop (Z.to_nat consumed) avail) = 0)) as [Hz|Hz].
  { destruct (decide (rc = BZ_STREAM_END));
      [rewrite CHECK_true by by apply Z.eqb_eq|];
      cbn; split_and!; try done; intros _; by apply Hstep, pumped_refl. }
  destruct (decide (rc = BZ_STREAM_END));
    [by rewrite CHECK_false by by apply Z.eqb_neq|].
  specialize (IH (z <| stream_ := st |>) u1 (drop (Z.to_nat consumed) avail) Hu1).
  destruct out as [|b out]; [done|]. cbn [length] in Hfin.
  assert (bz_pending st (drop (Z.to_nat consumed) avail) < fuel)%nat as Hlt by lia.
  specialize (IH Hlt). unfold loop_outcome in *.
  destruct (loop fuel Write_step _ _) as [[[rest ok] [z' u']]|]; [|done].
  destruct IH as (? & ? & Hp). split_and!; [done|done|]. intros Ht. by apply Hstep, Hp.
Qed.

(** [Write]: what was buffered and what is passed in is consumed from the
    front, in order, the rest is buffered. *)
Lemma Write_outcome fuel z u bs :
  ready u → (bz_pending (stream_ z) (input_buffer_ z ++ bs) < fuel)%nat →
  match Write fuel bs (z, u) with
  | Val (ok, (z', u')) => ready u' ∧
      (ok = true → pumped z u (input_buffer_ z ++ bs) (input_buffer_ z') z' u')
  | Fault f => f = CheckFailed
  end.
Proof.
  intros Hu Hfuel. unfold Write, upd. mrun. cbn [fst snd].
  set (z1 := z <| input_buffer_ := input_buffer_ z ++ bs |>).
  pose proof (Write_loop_spec fuel z1 u (input_buffer_ z ++ bs) Hu Hfuel) as Hl.
  unfold loop_outcome in Hl. change (input_buffer_ z1) with (input_buffer_ z ++ bs).
  destruct (loop fuel Write_step _ _) as [[[rest ok] [z' u']]|f]; [|done].
  destruct Hl as (Hu' & _ & Hp). destruct ok; cbn [negb fst snd]; [|done].
  split; [done|]. intros _. by apply Hp.
Qed.
End BzipFacts.

(** The way an install operation uses a stack of writers: [Init], [Write] for
    every chunk that arrives, [End]. *)
Definition install {S} `{ExtentWriter S} (fd : Z) (es : list Extent) (block_size : Z)
    (cs : list bytes) : M S bool :=
  ok ← ew_Init fd es block_size;
  if ok : bool then
    ok ← write_chunks cs;
    if ok : bool then ew_End else mret false
  else mret false.

(** A freshly initialised direct writer. *)
Lemma fresh_wf fd es block_size :
  0 < block_size → Forall (servable block_size) es → zlen es < 2 ^ 31 →
  wf (DirectExtentWriter.mk fd block_size 0 es 0 false).
Proof.
  intros Hb Hes Hlen. split; cbn; try done.
  - pose proof (zlen_nonneg es). lia.
  - destruct es as [|e es]; cbn; [done|].
    apply Forall_cons in Hes as [(Hn & _) _]. by apply Z.mul_pos_pos.
Qed.

(** The bytes the extents can hold: a multiple of the block size. *)
Lemma capacity block_size es :
  0 < block_size → Forall (servable block_size) es →
  zlen (es ≫= extent_positions block_size) = zlen (expand es) * block_size.
Proof.
  intros Hb. induction 1 as [|e es (Hn & _) Hes IH]; [done|].
  cbn. rewrite !zlen_app, length_extent_positions, zlen_expand_extent by nia.
  change (list_bind _ _ _ es) with (es ≫= extent_positions block_size).
  change (list_bind _ _ _ es) with (es ≫= expand_extent) in *. unfold expand in IH. lia.
Qed.

(** Two two-byte blocks, 5 and 1, on a blank device. *)
Definition sample_writer : DirectExtentWriter.t :=
  DirectExtentWriter.mk 3 2 0 [mkExtent 5 1; mkExtent 1 1] 0 false.

Lemma sample_writer_wf : wf sample_writer.
Proof.
  apply fresh_wf; [lia| |vm_compute; reflexivity].
  repeat constructor; cbn; unfold kSparseHole; lia.
Qed.

(** ** Properties *)

(** C27. [DirectExtentWriter::Write] refines writing a byte stream onto the
    positions of its extents.  On a writer whose extents can be served without
    an integer wrapping, and for fewer than [2^31] bytes, [Write] terminates
    without a [CHECK] failing; when it returns true, byte [i] of the argument
    is at the [i]-th position of the extents that was still free (bytes for a
    sparse hole are dropped, nothing else in the file changes) and the
    position advances by the length, however the kernel splits the writes; and
    on a device without failures it returns true exactly when the data fits in
    the rest of the extents. *)
Theorem DirectExtentWriter_Write_refines {W} `{PosixFileLaws W}
    (d : DirectExtentWriter.t) (w : W) (bs : bytes) :
  wf d → zlen bs < 2 ^ 31 →
  ∃ ok d' w', DirectExtentWriter.Write bs (d, w) = Val (ok, (d', w')) ∧ wf d' ∧
    (ok = true →
       remaining d' = drop (length bs) (remaining d) ∧
       ∀ i, file_of (DirectExtentWriter.fd_ d) w' i =
            place (remaining d) bs (file_of (DirectExtentWriter.fd_ d) w) i) ∧
    (¬ os_failure (W := W) → ok = true ↔ (length bs ≤ length (remaining d))%nat).
Proof.
  intros Hwf Hlen. destruct (Write_spec d w bs Hwf Hlen) as (ok & d' & w' & Hw & Hwf' & Hok & Hbad).
  exists ok, d', w'. split_and!; [done|done| |].
  - intros Ht. destruct (Hok Ht) as [_ _ _ Hr Hf]. unfold zlen in *.
    rewrite Nat2Z.id in *. split; [done|]. intros i. rewrite Hf. by rewrite firstn_all.
  - intros Hos. split.
    + intros Ht. destruct (Hok Ht) as [_ _ Hl _ _]. unfold zlen in Hl. lia.
    + intros Hfit. destruct ok; [done|]. destruct (Hbad eq_refl); [done|lia].
Qed.

(** Two extents of two-byte blocks, [5,6) and [1,2), written to in one call. *)
Lemma DirectExtentWriter_Write_refines_witness :
  remaining sample_writer = [Some 10; Some 11; Some 2; Some 3] ∧
  ∃ ok d' w', DirectExtentWriter.Write (str "abc") (sample_writer, MemFile.blank) =
      Val (ok, (d', w')) ∧ wf d' ∧
    (ok = true →
       remaining d' = drop (length (str "abc")) (remaining sample_writer) ∧
       ∀ i, file_of 3 w' i =
            place (remaining sample_writer) (str "abc") (file_of 3 MemFile.blank) i) ∧
    (¬ os_failure (W := MemFile.t) →
       ok = true ↔ (length (str "abc") ≤ length (remaining sample_writer))%nat).
Proof.
  split; [vm_compute; reflexivity|].
  refine (DirectExtentWriter_Write_refines sample_writer MemFile.blank (str "abc")
            sample_writer_wf _).
  vm_compute. reflexivity.
Defined.

(** C19. A [ZeroPadExtentWriter] on a [DirectExtentWriter], used as the installer
    does, puts a file on the device: if the extents hold the data, then whatever
    the sizes of the chunks and of the kernel's writes, [Init], the [Write]s and
    [End] all succeed, and the device then holds the concatenation of the chunks
    followed by zeros up to a whole number of blocks, laid out along the extents
    in order, with every other byte unchanged. *)
Theorem zero_padded_install_correct {W} `{PosixFileLaws W} fd es block_size cs (w : W) :
  ¬ os_failure (W := W) →
  0 < block_size < 2 ^ 31 → Forall (servable block_size) es → zlen es < 2 ^ 31 →
  Forall (λ c, zlen c < 2 ^ 31) cs →
  zlen (concat cs) ≤ zlen (expand es) * block_size →
  ∃ z d w' k,
    install fd es block_size cs (ZeroPadExtentWriter.new, (DirectExtentWriter.new, w)) =
      Val (true, (z, (d, w'))) ∧
    0 ≤ k < block_size ∧ (zlen (concat cs) + k) `mod` block_size = 0 ∧
    ∀ i, file_of fd w' i =
         place (es ≫= extent_positions block_size)
               (concat cs ++ replicate (Z.to_nat k) x00) (file_of fd w) i.
Proof.
  intros Hos Hb Hes Hn Hcs Hcap. unfold install. mrun. cbn [ew_Init ZeroPadExtentWriter.writer].
  set (d0 := DirectExtentWriter.mk fd block_size 0 es 0 false).
  set (s0 := (ZeroPadExtentWriter.mk block_size 0 false, (d0, w))).
  change (ZeroPadExtentWriter.Init fd es block_size
            (ZeroPadExtentWriter.new, (DirectExtentWriter.new, w))) with (Val (true, s0)).
  assert (remaining d0 = es ≫= extent_positions block_size) as Hrem.
  { unfold remaining. cbn [DirectExtentWriter.extent_bytes_written_ d0
      DirectExtentWriter.next_extent_index_ DirectExtentWriter.extents_
      DirectExtentWriter.block_size_]. change (Z.to_nat 0) with O. by rewrite !drop_0. }
  assert (wf d0) as Hwf by (by apply fresh_wf; [lia|..]).
  assert (ready s0) as Hready by (by split; cbn; [lia|lia|]).
  assert (can_accept s0 (zlen (concat cs))) as Hroom.
  { split; [done|]. change (remaining s0.2.1) with (remaining d0).
    rewrite Hrem, capacity by (done || lia). unfold padding.
    change (ZeroPadExtentWriter.bytes_written_mod_block_size_ s0.1) with 0.
    change (ZeroPadExtentWriter.block_size_ s0.1) with block_size. rewrite Z.add_0_l.
    pose proof (zlen_nonneg (concat cs)).
    pose proof (Z.div_mod (- (zlen (concat cs))) block_size ltac:(lia)).
    pose proof (Z.div_le_mono (- (zlen (expand es) * block_size)) (- zlen (concat cs)) block_size
                  ltac:(lia) ltac:(lia)) as Hdiv.
    rewrite <-Z.mul_opp_l, Z.div_mul in Hdiv by lia. nia. }
  destruct (write_chunks_fits cs s0 _ Hready Hcs Hroom ltac:(lia)) as (s1 & -> & Hs1 & Ha & Hroom1).
  destruct (end_total s1 Hs1) as (ok & s2 & He & Hc). rewrite He.
  pose proof (end_fits s1 _ ok s2 Hs1 Hroom1 ltac:(lia) He) as ->.
  destruct (Hc eq_refl) as (k & [d2 w2] & Hk & Hkm & Hz & Hw2).
  destruct s1 as [z1 u1], s2 as [z2 [d3 w3]]. destruct Ha as (Ha & Hb1 & Hm1).
  cbn in Ha, Hz, Hw2, Hk, Hkm, Hb1, Hm1. subst w3.
  pose proof (accepts_app (S := DirectExtentWriter.t * W) (d0, w) (concat cs) u1
                (replicate (Z.to_nat k) x00) (d2, w2) Ha Hz) as Hall.
  destruct Hall as [_ _ _ _ Hf]. cbn [fst snd] in Hf.
  exists z2, d3, w2, k. split; [done|]. rewrite Hb1 in *. split; [done|].
  split.
  - rewrite Hm1 in Hkm. by rewrite Zplus_mod_idemp_l in Hkm.
  - intros i. unfold zlen in Hf. specialize (Hf i). rewrite Nat2Z.id, firstn_all, Hrem in Hf. exact Hf.
Qed.

(** Three bytes in two chunks on two-byte blocks: one zero is added. *)
Lemma zero_padded_install_correct_witness :
  ∃ z d w' k,
    install 3 [mkExtent 5 1; mkExtent 1 1] 2 [str "ab"; str "c"]
      (ZeroPadExtentWriter.new, (DirectExtentWriter.new, MemFile.blank)) =
      Val (true, (z, (d, w'))) ∧
    0 ≤ k < 2 ∧ (3 + k) `mod` 2 = 0 ∧
    ∀ i, file_of 3 w' i =
         place ([mkExtent 5 1; mkExtent 1 1] ≫= extent_positions 2)
               (str "abc" ++ replicate (Z.to_nat k) x00) (file_of 3 MemFile.blank) i.
Proof.
  apply (zero_padded_install_correct 3 [mkExtent 5 1; mkExtent 1 1] 2 [str "ab"; str "c"]
           MemFile.blank).
  - exact MemFile.no_failure.
  - lia.
  - repeat constructor; cbn; unfold kSparseHole; lia.
  - vm_compute. reflexivity.
  - repeat constructor; vm_compute; reflexivity.
  - vm_compute. discriminate.
Defined.

(** [BzipExtentWriter] is a lossless pump between the compressed stream and
    the writer below it.  With fuel for the bytes still to come out of libbz2,
    [Write] returns (or stops at its [CHECK] that no input follows the end of
    the stream) and never runs out of fuel; when it returns true, the
    compressed bytes held back plus those passed in were consumed in order up
    to the bytes now held back, by a run of the decompressor whose output was
    accepted by the next writer, all of it and in order. *)
Theorem BzipExtentWriter_Write_pumps {U} `{ByteSink U} {B} `{Bz2Laws B}
    fuel (z : BzipExtentWriter.t B) (u : U) bs :
  ready u →
  (bz_pending (BzipExtentWriter.stream_ z) (BzipExtentWriter.input_buffer_ z ++ bs) < fuel)%nat →
  match BzipExtentWriter.Write fuel bs (z, u) with
  | Val (ok, (z', u')) => ready u' ∧
      (ok = true → ∃ consumed out,
         BzipExtentWriter.input_buffer_ z ++ bs =
           consumed ++ BzipExtentWriter.input_buffer_ z' ∧
         bz_run (BzipExtentWriter.stream_ z) consumed out (BzipExtentWriter.stream_ z') ∧
         accepts u out u')
  | Fault f => f = CheckFailed
  end.
Proof. apply Write_outcome. Qed.

(** A stream whose compressed form is itself, for the witness. *)
Module StoredStream.
#[global] Instance bz2 : Bz2 unit := {|
  bz_init := (BZ_OK, ());
  bz_decompress st avail room :=
    let n := Z.min (zlen avail) (Z.max 0 room) in (BZ_OK, st, n, take (Z.to_nat n) avail);
  bz_end st := (BZ_OK, st)
|}.
#[global, refine] Instance laws : Bz2Laws unit := {| bz_pending _ avail := length avail |}.
Proof.
  - intros [] avail room rc [] consumed out Hroom [= <- <- <-]. unfold zlen.
    rewrite length_take. lia.
  - intros [] avail room rc [] consumed out [= <- <- <-].
    rewrite length_drop, length_take. lia.
Defined.
End StoredStream.

Definition sample_bzip : BzipExtentWriter.t unit := BzipExtentWriter.mk () [] false.

Lemma BzipExtentWriter_Write_pumps_witness :
  match BzipExtentWriter.Write 4 (str "abc") (sample_bzip, (sample_writer, MemFile.blank)) with
  | Val (ok, (z', u')) => ready u' ∧
      (ok = true → ∃ consumed out,
         BzipExtentWriter.input_buffer_ sample_bzip ++ str "abc" =
           consumed ++ BzipExtentWriter.input_buffer_ z' ∧
         bz_run (BzipExtentWriter.stream_ sample_bzip) consumed out
                (BzipExtentWriter.stream_ z') ∧
         accepts (sample_writer, MemFile.blank) out u')
  | Fault f => f = CheckFailed
  end.
Proof.
  refine (BzipExtentWriter_Write_pumps 4 sample_bzip (sample_writer, MemFile.blank)
            (str "abc") sample_writer_wf _).
  vm_compute. repeat constructor.
Defined.
