(* ===== verification/ActionProcessor.v ===== *)
(** * The action queue: action_processor.{h,cc} and the part of action.h that
    ties an action to its processor.

    Actions are objects reached through pointers: an [aid] is such a pointer.
    The virtual methods of actions and of the delegate are the [hooks]; they
    run on the whole program state and may call the processor again. *)

From S2P Require Import Prelude.

Abbreviation aid := nat.

Record ActionProcessor := mkProcessor {
  actions_ : list aid;
  current_action_ : option aid;
  (** is there a delegate *)
  delegate_ : bool
}.
#[export] Instance eta_ActionProcessor : Eta ActionProcessor := fun r =>
  mkProcessor (actions_ r) (current_action_ r) (delegate_ r).

(** The program state: the processor, the actions whose [processor_] is not
    NULL, and the rest. *)
Record state (X : Type) := mkState {
  processor : ActionProcessor;
  processor_ : gset aid;
  rest : X
}.
Arguments mkState {X} _ _ _.
Arguments processor {X} _.
Arguments processor_ {X} _.
Arguments rest {X} _.
#[export] Instance eta_state X : Eta (state X) := fun r =>
  mkState (processor r) (processor_ r) (rest r).

(** The virtual methods: [AbstractAction] and [ActionProcessorDelegate]. *)
Record hooks (X : Type) := mkHooks {
  PerformAction : aid → M (state X) unit;
  TerminateProcessing : aid → M (state X) unit;
  ProcessingDone : bool → M (state X) unit;
  ProcessingStopped : M (state X) unit;
  ActionCompleted : aid → bool → M (state X) unit
}.
Arguments PerformAction {X} _ _.
Arguments TerminateProcessing {X} _ _.
Arguments ProcessingDone {X} _ _.
Arguments ProcessingStopped {X} _.
Arguments ActionCompleted {X} _ _ _.

Definition new_processor : ActionProcessor := mkProcessor [] None false.

Section processor.
Context {X : Type} (h : hooks X).

Definition upd_processor (f : ActionProcessor → ActionProcessor) : M (state X) unit :=
  modify (fun s => s <| processor := f (processor s) |>).
Definition when_delegate (m : M (state X) unit) : M (state X) unit :=
  d ← gets (fun s => delegate_ (processor s));
  if d : bool then m else mret ().

(** [AbstractAction::SetProcessor] of action [a]: [p] is whether the new
    processor is not NULL. *)
Definition SetProcessor (a : aid) (p : bool) : M (state X) unit :=
  set ← gets (fun s => bool_decide (a ∈ processor_ s));
  (if p then CHECK (negb set) else CHECK set);;
  modify (fun s => s <| processor_ := if p then {[a]} ∪ processor_ s
                                       else processor_ s ∖ {[a]} |>).

(** [AbstractAction::IsRunning]. *)
Definition action_IsRunning (a : aid) (s : state X) : bool :=
  if decide (a ∈ processor_ s)
  then bool_decide (current_action_ (processor s) = Some a) else false.

Definition IsRunning (s : state X) : bool :=
  bool_decide (current_action_ (processor s) ≠ None).

Definition set_delegate (d : bool) : M (state X) unit :=
  upd_processor (fun p => p <| delegate_ := d |>).

Definition EnqueueAction (a : aid) : M (state X) unit :=
  upd_processor (fun p => p <| actions_ := actions_ p ++ [a] |>);;
  SetProcessor a true.

(** [current_action_ = actions_.front(); actions_.pop_front();
    current_action_->PerformAction()]. *)
Definition start_front : M (state X) unit :=
  q ← gets (fun s => actions_ (processor s));
  match q with
  | [] => fail Undefined
  | a :: q' =>
      upd_processor (fun p => p <| current_action_ := Some a |> <| actions_ := q' |>);;
      PerformAction h a
  end.

Definition StartProcessing : M (state X) unit :=
  running ← gets IsRunning;
  CHECK (negb running);;
  q ← gets (fun s => actions_ (processor s));
  if decide (q = []) then mret () else start_front.

Definition StopProcessing : M (state X) unit :=
  running ← gets IsRunning;
  CHECK running;;
  c ← gets (fun s => current_action_ (processor s));
  match c with
  | None => fail CheckFailed
  | Some a =>
      TerminateProcessing h a;;
      c ← gets (fun s => current_action_ (processor s));
      match c with
      | None => fail CheckFailed
      | Some a' =>
          SetProcessor a' false;;
          upd_processor (fun p => p <| current_action_ := None |>);;
          when_delegate (ProcessingStopped h)
      end
  end.

Definition ActionComplete (actionptr : aid) (success : bool) : M (state X) unit :=
  c ← gets (fun s => current_action_ (processor s));
  CHECK (bool_decide (c = Some actionptr));;
  when_delegate (ActionCompleted h actionptr success);;
  c ← gets (fun s => current_action_ (processor s));
  match c with
  | None => fail Undefined
  | Some a =>
      SetProcessor a false;;
      upd_processor (fun p => p <| current_action_ := None |>);;
      upd_processor (fun p =>
        if decide (actions_ p = []) then p
        else if success then p else p <| actions_ := [] |>);;
      q ← gets (fun s => actions_ (processor s));
      if decide (q = []) then when_delegate (ProcessingDone h success)
      else start_front
  end.

(** [~ActionProcessor]. *)
Definition destroy : M (state X) unit :=
  running ← gets IsRunning;
  (if running : bool then StopProcessing else mret ());;
  q ← gets (fun s => actions_ (processor s));
  for_each (fun a => SetProcessor a false) q.
End processor.

(** ** Asynchronous environment: every virtual call is recorded and returns;
    what the actions and the main loop then do is an arbitrary sequence of
    calls of the processor's methods. *)

Inductive event :=
| Performed (a : aid)
| Terminated (a : aid)
| Completed (a : aid) (success : bool)
| Done (success : bool)
| Stopped.

Definition log (e : event) : M (state (list event)) unit :=
  modify (fun s => s <| rest := rest s ++ [e] |>).

Definition async : hooks (list event) := {|
  PerformAction a := log (Performed a);
  TerminateProcessing a := log (Terminated a);
  ProcessingDone b := log (Done b);
  ProcessingStopped := log Stopped;
  ActionCompleted a b := log (Completed a b)
|}.

Inductive call :=
| Enqueue (a : aid)
| Start
| Stop
| Complete (a : aid) (success : bool).

Definition exec (c : call) : M (state (list event)) unit :=
  match c with
  | Enqueue a => EnqueueAction a
  | Start => StartProcessing async
  | Stop => StopProcessing async
  | Complete a b => ActionComplete async a b
  end.

Definition init : state (list event) := mkState (mkProcessor [] None true) ∅ [].

(** The transitions of the processor with a delegate, as a step relation. *)
Inductive step : call → state (list event) → state (list event) → Prop :=
| step_enqueue a q c P t :
    a ∉ P →
    step (Enqueue a) (mkState (mkProcessor q c true) P t)
                     (mkState (mkProcessor (q ++ [a]) c true) ({[a]} ∪ P) t)
| step_start_empty P t :
    step Start (mkState (mkProcessor [] None true) P t)
               (mkState (mkProcessor [] None true) P t)
| step_start a q P t :
    step Start (mkState (mkProcessor (a :: q) None true) P t)
               (mkState (mkProcessor q (Some a) true) P (t ++ [Performed a]))
| step_stop a q P t :
    a ∈ P →
    step Stop (mkState (mkProcessor q (Some a) true) P t)
              (mkState (mkProcessor q None true) (P ∖ {[a]}) (t ++ [Terminated a] ++ [Stopped]))
| step_last a b P t :
    a ∈ P →
    step (Complete a b) (mkState (mkProcessor [] (Some a) true) P t)
      (mkState (mkProcessor [] None true) (P ∖ {[a]}) (t ++ [Completed a b] ++ [Done b]))
| step_failed a a' q P t :
    a ∈ P →
    step (Complete a false) (mkState (mkProcessor (a' :: q) (Some a) true) P t)
      (mkState (mkProcessor [] None true) (P ∖ {[a]}) (t ++ [Completed a false] ++ [Done false]))
| step_next a a' q P t :
    a ∈ P →
    step (Complete a true) (mkState (mkProcessor (a' :: q) (Some a) true) P t)
      (mkState (mkProcessor q (Some a') true) (P ∖ {[a]})
               (t ++ [Completed a true] ++ [Performed a'])).

(** [runs calls s]: the calls took the initial state to [s] without aborting. *)
Inductive runs : list call → state (list event) → Prop :=
| runs_nil : runs [] init
| runs_snoc cs s c s' : runs cs s → exec c s = Val ((), s') → runs (cs ++ [c]) s'.

(** ** The abstract specification: a monitor over the events. *)

Inductive monitor :=
| Idle
| Running (a : aid)
| Stopping
| AfterAction (success : bool).

Definition observe (m : monitor) (e : event) : option monitor :=
  match m, e with
  | Idle, Performed a => Some (Running a)
  | Running a, Completed a' b => if decide (a = a') then Some (AfterAction b) else None
  | Running a, Terminated a' => if decide (a = a') then Some Stopping else None
  | Stopping, Stopped => Some Idle
  | AfterAction true, Performed a => Some (Running a)
  | AfterAction b, Done b' => if decide (b = b') then Some Idle else None
  | _, _ => None
  end.

Definition accepts_trace (t : list event) : option monitor :=
  fold_left (fun m e => m ≫= fun m => observe m e) t (Some Idle).

Definition monitor_of (c : option aid) : monitor :=
  match c with Some a => Running a | None => Idle end.

Definition performed (t : list event) : list aid :=
  omap (fun e => match e with Performed a => Some a | _ => None end) t.
Definition enqueued (cs : list call) : list aid :=
  omap (fun c => match c with Enqueue a => Some a | _ => None end) cs.

Record wf (cs : list call) (s : state (list event)) : Prop := {
  wf_delegate : delegate_ (processor s) = true;
  wf_nodup : NoDup (option_list (current_action_ (processor s)) ++ actions_ (processor s));
  wf_attached a : a ∈ option_list (current_action_ (processor s)) ++ actions_ (processor s) →
                  a ∈ processor_ s;
  wf_trace : accepts_trace (rest s) = Some (monitor_of (current_action_ (processor s)));
  wf_suffix : ∃ past, enqueued cs = past ++ actions_ (processor s) ∧
                      performed (rest s) `sublist_of` past;
  wf_order : Forall (λ c, ∀ a, c ≠ Complete a false) cs →
             performed (rest s) ++ actions_ (processor s) = enqueued cs
}.

Lemma accepts_snoc t e :
  accepts_trace (t ++ [e]) = accepts_trace t ≫= fun m => observe m e.
Proof. unfold accepts_trace. by rewrite fold_left_app. Qed.

Lemma performed_app t u : performed (t ++ u) = performed t ++ performed u.
Proof. apply omap_app. Qed.
Lemma enqueued_app cs cs' : enqueued (cs ++ cs') = enqueued cs ++ enqueued cs'.
Proof. apply omap_app. Qed.

Lemma SetProcessor_run {X} a p (P : gset aid) pr (x : X) :
  SetProcessor a p (mkState pr P x) =
  if decide (a ∈ P)
  then if p then Fault CheckFailed else Val ((), mkState pr (P ∖ {[a]}) x)
  else if p then Val ((), mkState pr ({[a]} ∪ P) x) else Fault CheckFailed.
Proof.
  unfold SetProcessor. mrun. cbn [Prelude.update processor_ processor rest].
  destruct (decide (a ∈ P)) as [Ha|Ha], p; cbn;
    rewrite ?bool_decide_true, ?bool_decide_false by done; done.
Qed.

#[local] Arguments SetProcessor : simpl never.

Ltac run_processor :=
  unfold EnqueueAction, StartProcessing, StopProcessing, ActionComplete, IsRunning,
    start_front, upd_processor, when_delegate, async, log; mrun; unfold Prelude.update; cbn;
  rewrite ?bool_decide_true by done; cbn; rewrite ?SetProcessor_run; cbn.

(** The code and the step relation agree. *)
Lemma exec_step c s s' :
  delegate_ (processor s) = true → exec c s = Val ((), s') ↔ step c s s'.
Proof.
  destruct s as [[q cur d] P t]. cbn. intros ->. split.
  - destruct c as [a| | |a b]; cbn [exec].
    + run_processor. destruct (decide (a ∈ P)); [done|]. intros [= <-]. by constructor.
    + destruct cur; [done|].
      destruct q as [|a q]; run_processor; intros [= <-]; constructor.
    + destruct cur as [a|]; [|done]. run_processor.
      destruct (decide (a ∈ P)); [|done]. cbn. intros [= <-].
      rewrite <-(assoc_L (++)). by constructor.
    + destruct (decide (cur = Some a)) as [->|Hc].
      2:{ run_processor. by rewrite (bool_decide_false (cur = Some a)). }
      run_processor. destruct (decide (a ∈ P)); [|done]. cbn.
      destruct q as [|a' q], b; cbn; intros [= <-]; rewrite <-(assoc_L (++)); by constructor.
  - inversion 1; subst; cbn [exec]; run_processor;
      rewrite ?decide_True, ?decide_False by done; cbn; rewrite <-?(assoc_L (++)); done.
Qed.

#[local] Arguments accepts_trace : simpl never.
#[local] Arguments performed : simpl never.

Lemma monitor_step c s s' :
  step c s s' →
  accepts_trace (rest s) = Some (monitor_of (current_action_ (processor s))) →
  accepts_trace (rest s') = Some (monitor_of (current_action_ (processor s'))).
Proof.
  destruct 1; cbn [rest processor current_action_]; intros Ht;
    rewrite ?(assoc_L (++)), ?accepts_snoc, ?Ht; cbn;
    rewrite ?decide_True by done; cbn; rewrite ?decide_True by done; try done.
  match goal with b : bool |- _ => by destruct b end.
Qed.

Lemma nodup_step cs c s s' :
  wf cs s → step c s s' →
  NoDup (option_list (current_action_ (processor s')) ++ actions_ (processor s')).
Proof.
  intros [_ Hnd Hat _ _ _] Hst. destruct Hst; cbn in *; try done.
  - rewrite (assoc_L (++)). apply NoDup_app. repeat split; [done| |apply NoDup_singleton].
    intros x Hx ->%list_elem_of_singleton. by apply Hat in Hx.
  - by apply NoDup_cons in Hnd as [].
  - constructor.
  - constructor.
  - by apply NoDup_cons in Hnd as [].
Qed.

Lemma attached_step cs c s s' x :
  wf cs s → step c s s' →
  x ∈ option_list (current_action_ (processor s')) ++ actions_ (processor s') →
  x ∈ processor_ s'.
Proof.
  intros [_ Hnd Hat _ _ _] Hst.
  destruct Hst; cbn in *; try done; intros Hx; try by apply not_elem_of_nil in Hx.
  - rewrite (assoc_L (++)), elem_of_app, list_elem_of_singleton in Hx. set_solver.
  - by apply Hat.
  - apply NoDup_cons in Hnd as [Hn _]. set_solver.
  - apply NoDup_cons in Hnd as [Hn _]. set_solver.
Qed.

Lemma suffix_step cs c s s' :
  wf cs s → step c s s' →
  ∃ past, enqueued (cs ++ [c]) = past ++ actions_ (processor s') ∧
          performed (rest s') `sublist_of` past.
Proof.
  intros Hwf Hst. destruct (wf_suffix _ _ Hwf) as (past & Hp & Hs). rewrite enqueued_app, Hp.
  destruct Hst; cbn [rest processor actions_] in *; rewrite ?performed_app, ?app_nil_r; cbn.
  - exists past. by rewrite <-(assoc_L (++)).
  - exists past. by rewrite ?app_nil_r.
  - exists (past ++ [a]). rewrite <-!(assoc_L (++)). split; [done|].
    by apply sublist_app.
  - exists past. by rewrite ?app_nil_r.
  - exists past. by rewrite ?app_nil_r.
  - exists (past ++ a' :: q). rewrite ?app_nil_r. split; [done|]. by apply sublist_inserts_r.
  - exists (past ++ [a']). rewrite ?app_nil_r, <-!(assoc_L (++)). split; [done|].
    by apply sublist_app.
Qed.

Lemma order_step cs c s s' :
  wf cs s → step c s s' →
  Forall (λ c, ∀ a, c ≠ Complete a false) (cs ++ [c]) →
  performed (rest s') ++ actions_ (processor s') = enqueued (cs ++ [c]).
Proof.
  intros Hwf Hst [Hc Hc1]%Forall_app. rewrite Forall_singleton in Hc1.
  pose proof (wf_order _ _ Hwf Hc) as Ho. rewrite enqueued_app, <-Ho.
  destruct Hst; cbn [rest processor actions_] in *; rewrite ?performed_app; cbn;
    rewrite ?app_nil_r, <-?(assoc_L (++)); try done.
  by destruct (Hc1 a).
Qed.

Lemma wf_step cs c s s' : wf cs s → step c s s' → wf (cs ++ [c]) s'.
Proof.
  intros Hwf Hst. split.
  - destruct Hwf, Hst; done.
  - by eapply nodup_step.
  - intros x. by eapply attached_step.
  - eapply monitor_step; [done|]. apply Hwf.
  - by eapply suffix_step.
  - by eapply order_step.
Qed.

Lemma wf_init : wf [] init.
Proof. split; cbn; try done; [constructor|by intros a ?%not_elem_of_nil|by exists []]. Qed.

Lemma runs_wf cs s : runs cs s → wf cs s.
Proof.
  induction 1 as [|cs s c s' _ IH Hc]; [apply wf_init|].
  apply (wf_step _ _ _ _ IH), exec_step; [apply IH|done].
Qed.

(** ** What the calls do. *)

(** C22. Whatever the actions and the main loop do, as long as no [CHECK] fires:
    the virtual calls the processor makes form a trace of the monitor (an
    action is performed only when none is current, completed or terminated only
    while it is current, a completion is followed by the next action or by
    [ProcessingDone] with the flag of that completion, a termination by
    [ProcessingStopped]); no action is queued twice and every queued or current
    action is attached to the processor; the performed actions are a sub-list
    of the enqueued ones in order, and all of them, none skipped, as long as no
    action failed. *)
Theorem ActionProcessor_runs_refine_monitor cs s :
  runs cs s →
  accepts_trace (rest s) = Some (monitor_of (current_action_ (processor s))) ∧
  NoDup (option_list (current_action_ (processor s)) ++ actions_ (processor s)) ∧
  (∀ a, a ∈ option_list (current_action_ (processor s)) ++ actions_ (processor s) →
        a ∈ processor_ s) ∧
  performed (rest s) `sublist_of` enqueued cs ∧
  (Forall (λ c, ∀ a, c ≠ Complete a false) cs →
   performed (rest s) ++ actions_ (processor s) = enqueued cs).
Proof.
  intros [_ Hnd Hat Ht (past & Hp & Hs) Ho]%runs_wf.
  repeat split; try done. rewrite Hp. by apply sublist_inserts_r.
Qed.

(** The calls that do not abort. *)
Definition allowed (c : call) (s : state (list event)) : Prop :=
  match c with
  | Enqueue a => a ∉ processor_ s
  | Start => current_action_ (processor s) = None
  | Stop => current_action_ (processor s) ≠ None
  | Complete a _ => current_action_ (processor s) = Some a
  end.

Lemma allowed_steps cs c s : wf cs s → allowed c s ↔ ∃ s', step c s s'.
Proof.
  destruct s as [[q cur d] P t]. intros [Hd _ Hat _ _ _]. cbn in Hd, Hat. subst d. split.
  - destruct c as [a| | |a b]; cbn.
    + eauto using step.
    + intros ->. destruct q; eauto using step.
    + destruct cur as [a|]; [|done]. intros _.
      assert (a ∈ P) by (apply Hat; set_solver). eauto using step.
    + intros ->. assert (a ∈ P) by (apply Hat; set_solver).
      destruct q, b; eauto using step.
  - intros [s' Hst]. by inversion Hst; subst.
Qed.


(** C31. When an action fails, the actions behind it are dropped from the queue
    but stay attached to the processor: enqueueing one of them again aborts. *)
Theorem failed_action_strands_the_queue cs s a a' :
  runs cs s → current_action_ (processor s) = Some a → a' ∈ actions_ (processor s) →
  ∃ s', exec (Complete a false) s = Val ((), s') ∧
        actions_ (processor s') = [] ∧ current_action_ (processor s') = None ∧
        rest s' = rest s ++ [Completed a false; Done false] ∧
        exec (Enqueue a') s' = Fault CheckFailed.
Proof.
  intros [Hd Hnd Hat _ _ _]%runs_wf Hc Ha'. destruct s as [[q cur d] P t].
  cbn in *. subst cur d. destruct q as [|b q]; [by apply not_elem_of_nil in Ha'|].
  assert (a ∈ P) as HaP by (apply Hat; set_solver).
  exists (mkState (mkProcessor [] None true) (P ∖ {[a]}) (t ++ [Completed a false; Done false])).
  repeat split.
  - apply (exec_step (Complete a false)); [done|]. by apply step_failed.
  - cbn [option_list app] in Hnd, Hat. apply NoDup_cons in Hnd as [Hn _].
    assert (a' ∈ P ∖ {[a]}) by (pose proof (Hat a'); set_solver).
    cbn [exec]. run_processor. by rewrite decide_True.
Qed.

(** ** Synchronous actions: [PerformAction] calls [ActionComplete] before it
    returns (as SetBootableFlagAction, UpdateCheckAction's failure paths and the
    response handlers do), so the whole queue runs inside [StartProcessing]. *)

(** [n] bounds the nesting of [PerformAction]. *)
Fixpoint sync (n : nat) (outcome : aid → bool) : hooks (list event) :=
  {| PerformAction a :=
       match n with
       | O => fail OutOfFuel
       | Datatypes.S n => log (Performed a);; ActionComplete (sync n outcome) a (outcome a)
       end;
     TerminateProcessing a := log (Terminated a);
     ProcessingDone b := log (Done b);
     ProcessingStopped := log Stopped;
     ActionCompleted a b := log (Completed a b) |}.

Fixpoint pipeline_trace (outcome : aid → bool) (q : list aid) : list event :=
  match q with
  | [] => []
  | a :: q' =>
      Performed a :: Completed a (outcome a) ::
      (if outcome a then
         match q' with [] => [Done true] | _ => pipeline_trace outcome q' end
       else [Done false])
  end.

Lemma sync_ActionCompleted n outcome a b :
  ActionCompleted (sync n outcome) a b = log (Completed a b).
Proof. by destruct n. Qed.
Lemma sync_ProcessingDone n outcome b : ProcessingDone (sync n outcome) b = log (Done b).
Proof. by destruct n. Qed.

Lemma ActionComplete_sync n outcome a b q P t :
  a ∈ P →
  ActionComplete (sync n outcome) a b (mkState (mkProcessor q (Some a) true) P t) =
  if b then
    match q with
    | [] => Val ((), mkState (mkProcessor [] None true) (P ∖ {[a]}) (t ++ [Completed a true; Done true]))
    | _ => start_front (sync n outcome)
             (mkState (mkProcessor q None true) (P ∖ {[a]}) (t ++ [Completed a true]))
    end
  else Val ((), mkState (mkProcessor [] None true) (P ∖ {[a]}) (t ++ [Completed a false; Done false])).
Proof.
  intros HP. unfold ActionComplete, when_delegate, upd_processor.
  rewrite sync_ActionCompleted, sync_ProcessingDone. unfold log. mrun. unfold Prelude.update. cbn.
  rewrite bool_decide_true by done. cbn. rewrite SetProcessor_run, decide_True by done.
  destruct b, q; cbn; rewrite ?decide_True, ?decide_False by done; cbn;
    rewrite ?decide_True, ?decide_False by done; rewrite <-?(assoc_L (++)); done.
Qed.

Lemma start_front_sync outcome a q P t n :
  NoDup (a :: q) → (∀ x, x ∈ a :: q → x ∈ P) → (length q < n)%nat →
  start_front (sync n outcome) (mkState (mkProcessor (a :: q) None true) P t) =
  Val ((), mkState (mkProcessor [] None true)
             (P ∖ list_to_set (performed (pipeline_trace outcome (a :: q))))
             (t ++ pipeline_trace outcome (a :: q))).
Proof.
  revert a P t n. induction q as [|a' q IH]; intros a P t n Hnd HP Hn;
    (destruct n as [|n]; [cbn in Hn; lia|]).
  all: cbn [sync]; unfold start_front, upd_processor, log; mrun; unfold Prelude.update;
    cbn [processor actions_ current_action_ delegate_ processor_ rest PerformAction].
  all: rewrite ActionComplete_sync by (apply HP; set_solver).
  all: rewrite <-?(assoc_L (++)); cbn [app pipeline_trace].
  - destruct (outcome a); unfold performed; cbn; by rewrite union_empty_r_L.
  - destruct (outcome a).
    + rewrite IH; [|by apply NoDup_cons in Hnd as []| |cbn in *; lia].
      * rewrite <-!(assoc_L (++)). cbn [app]. do 3 f_equal.
        change (Performed a :: ?e :: ?l) with ([Performed a; e] ++ l). rewrite performed_app.
        rewrite list_to_set_app_L, difference_difference_l_L. unfold performed at 2. cbn.
        by rewrite union_empty_r_L.
      * intros x Hx. apply NoDup_cons in Hnd as [Hni _].
        assert (x ∈ P) by (apply HP; set_solver). set_solver.
    + unfold performed; cbn; by rewrite union_empty_r_L.
Qed.

(** With synchronous actions, [StartProcessing] runs the queue to its end in
    one call: the actions are performed and completed in queue order up to and
    including the first that fails, [ProcessingDone] reports the outcome of the
    last one, the processor is idle and empty, and exactly the performed actions
    are detached.  (Nesting depth [n] is enough when it covers the queue.) *)
Theorem StartProcessing_runs_synchronous_queue outcome n a q P t :
  NoDup (a :: q) → (∀ x, x ∈ a :: q → x ∈ P) → (length q < n)%nat →
  StartProcessing (sync n outcome) (mkState (mkProcessor (a :: q) None true) P t) =
  Val ((), mkState (mkProcessor [] None true)
             (P ∖ list_to_set (performed (pipeline_trace outcome (a :: q))))
             (t ++ pipeline_trace outcome (a :: q))).
Proof.
  intros Hnd HP Hn. rewrite <-(start_front_sync outcome a q P t n) by done.
  unfold StartProcessing, IsRunning. mrun. cbn [processor current_action_ actions_].
  rewrite bool_decide_false by naive_solver. cbn. by rewrite decide_False.
Qed.

(** ** Concrete runs. *)

Definition sample_calls : list call := [Enqueue 1; Enqueue 2; Start; Complete 1 true]%nat.
Definition run_calls (cs : list call) : result (unit * state (list event)) :=
  foldl (fun r c => match r with Val (_, s) => exec c s | Fault f => Fault f end)
    (Val ((), init)) cs.

Lemma run_calls_runs cs s : run_calls cs = Val ((), s) → runs cs s.
Proof.
  revert s. induction cs as [|c cs IH] using rev_ind; intros s.
  - intros [= <-]. constructor.
  - unfold run_calls. rewrite foldl_app. cbn.
    destruct (foldl _ _ cs) as [[[] s0]|] eqn:E; [|done]. intros Hc.
    econstructor; [by apply IH|done].
Qed.

Definition state_after (cs : list call) : state (list event) :=
  match run_calls cs with Val (_, s) => s | Fault _ => init end.

Lemma sample_runs : runs sample_calls (state_after sample_calls).
Proof. apply run_calls_runs. vm_compute. reflexivity. Qed.

Lemma ActionProcessor_runs_refine_monitor_witness :
  accepts_trace (rest (state_after sample_calls)) = Some (Running 2).
Proof.
  refine (proj1 (ActionProcessor_runs_refine_monitor sample_calls _ sample_runs)).
Defined.


Lemma sample_prefix_runs : runs (take 3 sample_calls) (state_after (take 3 sample_calls)).
Proof. apply run_calls_runs. vm_compute. reflexivity. Qed.

Lemma failed_action_strands_the_queue_witness :
  ∃ s', exec (Complete 1 false) (state_after (take 3 sample_calls)) = Val ((), s') ∧
        actions_ (processor s') = [] ∧ current_action_ (processor s') = None ∧
        rest s' = rest (state_after (take 3 sample_calls)) ++ [Completed 1 false; Done false] ∧
        exec (Enqueue 2) s' = Fault CheckFailed.
Proof.
  refine (failed_action_strands_the_queue (take 3 sample_calls) _ 1%nat 2%nat sample_prefix_runs _ _).
  - vm_compute. reflexivity.
  - set_solver.
Defined.

Lemma StartProcessing_runs_synchronous_queue_witness :
  StartProcessing (sync 3 (fun a => bool_decide (a ≠ 2)))%nat
    (mkState (mkProcessor [1; 2; 3] None true) {[1; 2; 3]} [])%nat =
  Val ((), mkState (mkProcessor [] None true)
     ({[1; 2; 3]} ∖ list_to_set (performed (pipeline_trace (fun a => bool_decide (a ≠ 2)) [1; 2; 3])))
     ([] ++ pipeline_trace (fun a => bool_decide (a ≠ 2)) [1; 2; 3]))%nat.
Proof.
  refine (StartProcessing_runs_synchronous_queue (fun a => bool_decide (a ≠ 2%nat)) 3 1%nat
            [2; 3]%nat {[1; 2; 3]}%nat [] _ _ _).
  - by apply (bool_decide_unpack _).
  - set_solver.
  - cbn. lia.
Defined.
