(* ===== verification/FileWriter.v ===== *)
(** * File writers: file_writer.{h,cc} and decompressing_file_writer.{h,cc}.

    [FileWriter] is the virtual interface; [DirectFileWriter] implements it on
    the system calls and [GzipDecompressingFileWriter] on another writer.
    zlib is outside the repository: [Zlib] is a parameter. *)

From S2P Require Import Prelude CppString Posix.

(** [FileWriter]: results are [int]s, 0 or a count on success and [-errno] on
    error. *)
Class FileWriter (S : Type) := {
  fw_Open : bytes → Z → Z → M S Z;
  fw_Write : bytes → M S Z;
  fw_Close : M S Z
}.

(** [ScopedFileWriterCloser]: the error of [Close] is only logged. *)
Definition with_closer {S A} `{FileWriter S} (m : M S A) : M S A :=
  a ← m; fw_Close;; mret a.

(** ** DirectFileWriter *)

Module DirectFileWriter.
Record t := mk { fd_ : Z }.
#[global] Instance eta_t : Eta t := fun r => mk (fd_ r).
Definition new : t := mk (-1).

Section writer.
Context {W : Type} `{PosixFd W}.

Definition set_fd (fd : Z) : M (t * W) unit := modify (fun s => (s.1 <| fd_ := fd |>, s.2)).
Definition sys {A} (f : W → A * W) : M (t * W) A := zoom snd (fun w s => (s.1, w)) (extern f).
Definition errno : M (t * W) Z := gets (fun s => sys_errno s.2).

Definition Open (path : bytes) (flags mode : Z) : M (t * W) Z :=
  d ← gets fst;
  CHECK (fd_ d =? -1);;
  fd ← sys (sys_open path flags mode);
  set_fd fd;;
  if fd <? 0 then e ← errno; mret (i32 (- e)) else mret 0.

(** [while (bytes_written < count)]; every iteration but a failing one writes
    at least one byte, hence the fuel. *)
Definition Write (bs : bytes) : M (t * W) Z :=
  d ← gets fst;
  CHECK (0 <=? fd_ d);;
  let count := zlen bs in
  loop (S (length bs)) (fun bytes_written =>
    if bytes_written <? count then
      rc ← sys (sys_write (fd_ d) (drop (Z.to_nat bytes_written) bs));
      if rc <? 0 then e ← errno; mret (inr (i32 (- e)))
      else mret (inl (usize (bytes_written + rc)))
    else
      CHECK (bytes_written =? count);;
      mret (inr (i32 bytes_written))) 0.

Definition Close : M (t * W) Z :=
  d ← gets fst;
  CHECK (0 <=? fd_ d);;
  rc ← sys (sys_close (fd_ d));
  set_fd (-2);;
  if rc <? 0 then e ← errno; mret (i32 (- e)) else mret rc.

#[global] Instance writer : FileWriter (t * W) := {|
  fw_Open := Open; fw_Write := Write; fw_Close := Close
|}.
End writer.
End DirectFileWriter.

(** ** GzipDecompressingFileWriter *)

(** zlib's [inflate]: stream, bytes at [next_in], room at [next_out], [flush];
    gives the return code, the new stream, the number of input bytes consumed
    and the bytes produced. *)
Class Inflate (Zs : Type) := {
  z_inflateInit2 : Z * Zs;
  z_inflate : Zs → bytes → Z → Z → Z * Zs * Z * bytes;
  z_inflateEnd : Zs → Z * Zs
}.
Definition Z_OK : Z := 0.
Definition Z_STREAM_END : Z := 1.
Definition Z_BUF_ERROR : Z := -5.
Definition Z_NO_FLUSH : Z := 0.
Definition Z_FINISH : Z := 4.

Module GzipDecompressingFileWriter.
Section writer.
Context {U : Type} `{FileWriter U} {Zs : Type} `{Inflate Zs}.

(** [avail_in] is what is left at [stream_.next_in]; [buffer_], the storage it
    points into, is not otherwise read. *)
Record t := mk { stream_ : Zs; avail_in : bytes }.
#[global] Instance eta_t : Eta t := fun r => mk (stream_ r) (avail_in r).

Definition next {A} (m : M U A) : M (t * U) A := zoom snd (fun u s => (s.1, u)) m.
Definition upd (f : t → t) : M (t * U) unit := modify (fun s => (f s.1, s.2)).

(** The constructor, given memory it may overwrite. *)
Definition construct (u : U) : result (t * U) :=
  if decide (z_inflateInit2.1 = Z_OK)
  then Val (mk z_inflateInit2.2 [], u) else Fault CheckFailed.

Definition Open (path : bytes) (flags mode : Z) : M (t * U) Z := next (fw_Open path flags mode).

(** [sizeof(buf)]. *)
Definition buf_size : Z := 1024.

(** The body of [while (Z_OK == retcode)].  The [retcode] it assigns is a new
    variable, so the condition of the loop always holds; the result of
    [next_->Write] is dropped. *)
Definition Write_step (count : Z) : M (t * U) (unit + Z) :=
  z ← gets fst;
  let '(retcode, st, consumed, out) :=
    z_inflate (stream_ z) (avail_in z) buf_size Z_NO_FLUSH in
  upd (fun z => z <| stream_ := st |> <| avail_in := drop (Z.to_nat consumed) (avail_in z) |>);;
  if decide (Z_STREAM_END ≠ retcode ∧ Z_OK ≠ retcode ∧ Z_BUF_ERROR ≠ retcode)
  then mret (inr 0)
  else
    let count_received := i32 (zlen out) in
    if decide (0 < count_received) then
      _ ← next (fw_Write (take (Z.to_nat count_received) out);; mret ());
      mret (inl ())
    else
      z ← gets fst;
      CHECK (bool_decide (avail_in z = []));;
      mret (inr (i32 count)).

Definition Write (fuel : nat) (bs : bytes) : M (t * U) Z :=
  z ← gets fst;
  if decide (avail_in z ≠ []) then mret (-1)
  else
    upd (fun z => z <| avail_in := bs |>);;
    loop fuel (fun _ => Write_step (zlen bs)) ().

Definition Close : M (t * U) Z := next fw_Close.

Definition writer (fuel : nat) : FileWriter (t * U) := {|
  fw_Open := Open; fw_Write := Write fuel; fw_Close := Close
|}.
End writer.
Arguments t Zs : clear implicits.
End GzipDecompressingFileWriter.

(** ** Facts *)

Section DirectFacts.
Context {W : Type} `{PosixFileLaws W}.
Import DirectFileWriter.

Lemma DirectFileWriter_Write_run fd bs (w : W) :
  0 ≤ fd → zlen bs < 2 ^ 31 →
  ∃ rc w', Write bs (mk fd, w) = Val (rc, (mk fd, w')) ∧
    ((rc = zlen bs ∧ written fd bs w (zlen bs) w') ∨
     (rc = i32 (- sys_errno w') ∧ ∃ n w1, written fd bs w n w1 ∧
        n < zlen bs ∧ ∃ r, r < 0 ∧ sys_write fd (drop (Z.to_nat n) bs) w1 = (r, w'))).
Proof.
  intros Hfd Hlen. unfold Write. mrun. cbn [fst fd_]. rewrite CHECK_true by lia.
  edestruct (loop_total (fun bw (s : t * W) => s.1 = mk fd ∧ written fd bs w bw s.2)
    (fun rc (s : t * W) => s.1 = mk fd ∧
      ((rc = zlen bs ∧ written fd bs w (zlen bs) s.2) ∨
       (rc = i32 (- sys_errno s.2) ∧ ∃ n w1, written fd bs w n w1 ∧
        n < zlen bs ∧ ∃ r, r < 0 ∧ sys_write fd (drop (Z.to_nat n) bs) w1 = (r, s.2))))
    (fun bw _ => Z.to_nat (zlen bs - bw))) as (rc & [d w'] & Hrun & Hd & Hw); cycle 3.
  { cbn in Hd, Hw. subst d. exists rc, w'. split; [exact Hrun|exact Hw]. }
  - intros bw [d w1] [Hd Hw]. cbn in Hd, Hw. subst d. pose proof Hw as (Hbw & _).
    destruct (Z.ltb_spec bw (zlen bs)) as [Hlt|Hge]; unfold sys, errno; mrun; cbn [snd].
    + destruct (sys_write fd (drop (Z.to_nat bw) bs) w1) as [r w2] eqn:E.
      destruct (Z.ltb_spec r 0) as [Hr|Hr].
      { eexists _, _. split; [reflexivity|]. cbn. split; [done|]. right. split; [done|].
        exists bw, w1. split_and!; [done..|]. by exists r. }
      destruct (written_step _ _ _ _ _ _ _ Hw Hlt E Hr) as [Hw2 Hpos].
      pose proof Hw2 as (Hbw2 & _).
      eexists _, _. split; [reflexivity|]. cbn.
      rewrite u32_small by (unfold is_u32; lia). split; [done|lia].
    + rewrite CHECK_true by lia. replace bw with (zlen bs) in * by lia.
      eexists _, _. split; [reflexivity|]. cbn.
      rewrite i32_small by (unfold is_i32; lia). split; [done|]. by left.
  - split; [done|]. apply written_init.
  - unfold zlen. lia.
Qed.
End DirectFacts.

(** [DirectFileWriter::Write] on an open writer, whatever the sizes of the
    partial writes the system makes: either the whole buffer is stored at the
    file offset and the result is the count, or a [write] failed after a prefix
    was stored and the result is minus its [errno]. *)
Theorem DirectFileWriter_Write_all_or_errno {W} `{PosixFileLaws W} fd bs (w : W) :
  0 ≤ fd → zlen bs < 2 ^ 31 →
  ∃ rc w', DirectFileWriter.Write bs (DirectFileWriter.mk fd, w) =
             Val (rc, (DirectFileWriter.mk fd, w')) ∧
    ((rc = zlen bs ∧ offset_of fd w' = offset_of fd w + zlen bs ∧
      ∀ i, file_of fd w' i = store_at (offset_of fd w) bs (file_of fd w) i) ∨
     (rc = i32 (- sys_errno w') ∧
      ∃ n w1, n < zlen bs ∧ written fd bs w n w1 ∧
        ∃ r, r < 0 ∧ sys_write fd (drop (Z.to_nat n) bs) w1 = (r, w'))).
Proof.
  intros Hfd Hlen. destruct (DirectFileWriter_Write_run fd bs w Hfd Hlen) as (rc & w' & Hrun & Hw).
  exists rc, w'. split; [done|]. destruct Hw as [[-> Hw]|(-> & n & w1 & Hw & Hn & r & Hr)].
  - left. split; [done|]. by apply written_all.
  - right. split; [done|]. exists n, w1. split_and!; [done..|]. by exists r.
Qed.

Lemma DirectFileWriter_Write_all_or_errno_witness :
  ∃ rc w', DirectFileWriter.Write (str "hello") (DirectFileWriter.mk 3, MemFile.blank) =
             Val (rc, (DirectFileWriter.mk 3, w')) ∧
    ((rc = zlen (str "hello") ∧
      offset_of 3 w' = offset_of 3 MemFile.blank + zlen (str "hello") ∧
      ∀ i, file_of 3 w' i = store_at (offset_of 3 MemFile.blank) (str "hello")
                              (file_of 3 MemFile.blank) i) ∨
     (rc = i32 (- sys_errno w') ∧
      ∃ n w1, n < zlen (str "hello") ∧ written 3 (str "hello") MemFile.blank n w1 ∧
        ∃ r, r < 0 ∧ sys_write 3 (drop (Z.to_nat n) (str "hello")) w1 = (r, w'))).
Proof.
  refine (DirectFileWriter_Write_all_or_errno 3 (str "hello") MemFile.blank _ _); vm_compute; done.
Defined.

(** The life of a writer: what each method does to [fd_], and that using a
    writer that is not open, opening one twice or reusing a closed one aborts. *)
Lemma DirectFileWriter_protocol {W} `{PosixFd W} fd path flags mode bs (w : W) :
  (fd ≠ -1 → DirectFileWriter.Open path flags mode (DirectFileWriter.mk fd, w) = Fault CheckFailed) ∧
  (fd < 0 → DirectFileWriter.Write bs (DirectFileWriter.mk fd, w) = Fault CheckFailed) ∧
  (fd < 0 → DirectFileWriter.Close (DirectFileWriter.mk fd, w) = Fault CheckFailed) ∧
  (0 ≤ fd → ∃ rc w', DirectFileWriter.Close (DirectFileWriter.mk fd, w) =
                     Val (rc, (DirectFileWriter.mk (-2), w'))).
Proof.
  unfold DirectFileWriter.Open, DirectFileWriter.Write, DirectFileWriter.Close. mrun.
  cbn [fst DirectFileWriter.fd_]. split_and!; intros Hfd.
  - rewrite CHECK_false by lia. done.
  - rewrite CHECK_false by lia. done.
  - rewrite CHECK_false by lia. done.
  - rewrite CHECK_true by lia. unfold DirectFileWriter.sys, DirectFileWriter.set_fd,
      DirectFileWriter.errno. mrun. cbn.
    destruct (sys_close fd w) as [rc w']. destruct (rc <? 0); eauto.
Qed.

(** ** The decompressing writer *)

Definition inflate_ok (rc : Z) : Prop := rc = Z_STREAM_END ∨ rc = Z_OK ∨ rc = Z_BUF_ERROR.

(** [inflates z input chunks z']: called again and again on [input], zlib
    produces [chunks], each filling at most the output buffer, and then, with
    the whole input consumed, nothing more. *)
Inductive inflates {Zs} `{Inflate Zs} : Zs → bytes → list bytes → Zs → Prop :=
| inflates_done z input rc z' :
    z_inflate z input GzipDecompressingFileWriter.buf_size Z_NO_FLUSH = (rc, z', zlen input, []) →
    inflate_ok rc → inflates z input [] z'
| inflates_more z input rc z1 consumed out chunks z' :
    z_inflate z input GzipDecompressingFileWriter.buf_size Z_NO_FLUSH = (rc, z1, consumed, out) →
    inflate_ok rc → 0 < zlen out ≤ GzipDecompressingFileWriter.buf_size →
    inflates z1 (drop (Z.to_nat consumed) input) chunks z' →
    inflates z input (out :: chunks) z'.

(** Write the chunks, ignoring what [Write] returns. *)
Definition hand_over {U} `{FileWriter U} (chunks : list bytes) : M U unit :=
  for_each (fun c => fw_Write c;; mret ()) chunks.

Section GzipFacts.
Context {U : Type} `{FileWriter U} {Zs : Type} `{Inflate Zs}.
Import GzipDecompressingFileWriter.

Lemma gzip_loop_run z input chunks z' :
  inflates z input chunks z' → ∀ fuel count (u : U), (length chunks < fuel)%nat →
  loop fuel (fun _ => Write_step count) () (mk z input, u) =
  match hand_over chunks u with
  | Val (_, u') => Val (i32 count, (mk z' [], u'))
  | Fault f => Fault f
  end.
Proof.
  induction 1 as [z input rc z' E Hrc|z input rc z1 consumed out chunks z' E Hrc Hout _ IH];
    intros fuel count u Hf; (destruct fuel as [|fuel]; [cbn in Hf; lia|]).
  all: rewrite loop_S; unfold Write_step, upd, next; mrun; cbn [fst snd stream_ avail_in];
    rewrite E; rewrite decide_False by (destruct Hrc as [->|[->| ->]]; cbv; tauto).
  - unfold Prelude.update. cbn. unfold zlen. rewrite Nat2Z.id, drop_all. cbn. done.
  - unfold buf_size in Hout. rewrite i32_small by (unfold is_i32; lia).
    rewrite decide_True by lia. unfold Prelude.update. cbn.
    unfold zlen. rewrite Nat2Z.id, firstn_all.
    mrun. destruct (fw_Write out u) as [[r u1]|f]; [|done].
    apply IH. cbn in Hf. lia.
Qed.
End GzipFacts.

Lemma GzipDecompressingFileWriter_run {U} `{FileWriter U} {Zs} `{Inflate Zs}
    fuel bs chunks (z z' : Zs) (u : U) :
  inflates z bs chunks z' → (length chunks < fuel)%nat →
  GzipDecompressingFileWriter.Write fuel bs (GzipDecompressingFileWriter.mk z [], u) =
  match hand_over chunks u with
  | Val (_, u') => Val (i32 (zlen bs), (GzipDecompressingFileWriter.mk z' [], u'))
  | Fault f => Fault f
  end.
Proof.
  intros Hinf Hf. unfold GzipDecompressingFileWriter.Write. mrun.
  cbn [fst GzipDecompressingFileWriter.avail_in]. rewrite decide_False by naive_solver.
  unfold GzipDecompressingFileWriter.upd. mrun. unfold Prelude.update.
  cbn [fst snd GzipDecompressingFileWriter.stream_].
  by apply gzip_loop_run.
Qed.

(** [GzipDecompressingFileWriter::Write] gives every byte zlib produces from
    its argument, in order, to the next writer, and returns the size of its
    argument, whatever the next writer's [Write] returned. *)
Theorem GzipDecompressingFileWriter_Write_pumps {U} `{FileWriter U} {Zs} `{Inflate Zs}
    fuel bs chunks (z z' : Zs) (u : U) :
  inflates z bs chunks z' → (length chunks < fuel)%nat →
  GzipDecompressingFileWriter.Write fuel bs (GzipDecompressingFileWriter.mk z [], u) =
  match hand_over chunks u with
  | Val (_, u') => Val (i32 (zlen bs), (GzipDecompressingFileWriter.mk z' [], u'))
  | Fault f => Fault f
  end.
Proof. apply GzipDecompressingFileWriter_run. Qed.

(** A stored stream: [inflate] copies its input. *)
Module StoredInflate.
#[global] Instance inflate : Inflate unit := {|
  z_inflateInit2 := (Z_OK, ());
  z_inflate z avail room _ :=
    let out := take (Z.to_nat room) avail in
    (if decide (out = []) then Z_BUF_ERROR else Z_OK, (), zlen out, out);
  z_inflateEnd _ := (Z_OK, ())
|}.
End StoredInflate.

Lemma stored_inflates : inflates () (str "hello") [str "hello"] ().
Proof.
  eapply inflates_more.
  - vm_compute. reflexivity.
  - right; by left.
  - vm_compute. split; [done|congruence].
  - eapply inflates_done; [vm_compute; reflexivity|right; by right].
Qed.

(** A device on which every [write] fails. *)
Module FailingFile.
#[global] Instance posix : PosixFd unit := {|
  sys_open _ _ _ w := (3, w);
  sys_read _ n w := (None, w);
  sys_write _ bs w := (-1, w);
  sys_lseek _ off w := (off, w);
  sys_close _ w := (0, w);
  sys_errno _ := 28
|}.
End FailingFile.

(** A full device: the write error is dropped and the whole count returned. *)
Lemma GzipDecompressingFileWriter_Write_pumps_witness :
  GzipDecompressingFileWriter.Write 2 (str "hello")
    (GzipDecompressingFileWriter.mk (Zs := unit) () [], (DirectFileWriter.mk 3, ())) =
  match hand_over (U := DirectFileWriter.t * unit) [str "hello"] (DirectFileWriter.mk 3, ()) with
  | Val (_, u') => Val (i32 (zlen (str "hello")), (GzipDecompressingFileWriter.mk () [], u'))
  | Fault f => Fault f
  end.
Proof.
  refine (GzipDecompressingFileWriter_Write_pumps 2 (str "hello") [str "hello"] () ()
            (DirectFileWriter.mk 3, ()) stored_inflates _).
  cbn. lia.
Defined.

(** When zlib reports an error, [Write] returns 0 (not a negative errno, as
    the interface asks for) without touching the next writer; if input was left
    unread, every later [Write] returns -1 and changes nothing. *)
Theorem GzipDecompressingFileWriter_error_results {U} `{FileWriter U} {Zs} `{Inflate Zs}
    fuel bs bs' (z z' : Zs) (u : U) rc consumed out :
  z_inflate z bs GzipDecompressingFileWriter.buf_size Z_NO_FLUSH = (rc, z', consumed, out) →
  ¬ inflate_ok rc → 0 ≤ consumed < zlen bs →
  ∃ s, GzipDecompressingFileWriter.Write (S fuel) bs
         (GzipDecompressingFileWriter.mk z [], u) = Val (0, s) ∧
       s.2 = u ∧
       GzipDecompressingFileWriter.Write fuel bs' s = Val (-1, s).
Proof.
  intros E Hrc Hlt.
  exists (GzipDecompressingFileWriter.mk z' (drop (Z.to_nat consumed) bs), u).
  split_and!; [|done|].
  - unfold GzipDecompressingFileWriter.Write. mrun.
    cbn [fst GzipDecompressingFileWriter.avail_in]. rewrite decide_False by naive_solver.
    unfold GzipDecompressingFileWriter.upd at 1. mrun.
    rewrite loop_S. unfold GzipDecompressingFileWriter.Write_step, GzipDecompressingFileWriter.upd.
    mrun. unfold Prelude.update.
    cbn [fst snd GzipDecompressingFileWriter.stream_ GzipDecompressingFileWriter.avail_in].
    rewrite E. rewrite decide_True; [done|].
    unfold inflate_ok in Hrc. split_and!; intros <-; tauto.
  - unfold GzipDecompressingFileWriter.Write. mrun.
    cbn [fst GzipDecompressingFileWriter.avail_in]. rewrite decide_True; [done|].
    intros Hnil. apply (f_equal length) in Hnil. rewrite length_drop in Hnil.
    unfold zlen in Hlt. cbn in Hnil. lia.
Qed.

(** An [inflate] that rejects its input. *)
Module RejectingInflate.
#[global] Instance inflate : Inflate bool := {|
  z_inflateInit2 := (Z_OK, true);
  z_inflate z avail room _ := (-3, z, 0, []);
  z_inflateEnd _ := (Z_OK, true)
|}.
End RejectingInflate.

Lemma GzipDecompressingFileWriter_error_results_witness :
  ∃ s, GzipDecompressingFileWriter.Write 2 (str "junk")
         (GzipDecompressingFileWriter.mk true [], (DirectFileWriter.mk 3, MemFile.blank)) = Val (0, s) ∧
       s.2 = (DirectFileWriter.mk 3, MemFile.blank) ∧
       GzipDecompressingFileWriter.Write 1 (str "more") s = Val (-1, s).
Proof.
  refine (GzipDecompressingFileWriter_error_results 1 (str "junk") (str "more") true true
            (DirectFileWriter.mk 3, MemFile.blank) (-3) 0 [] _ _ _).
  - reflexivity.
  - cbv. intuition congruence.
  - split; [vm_compute; discriminate|vm_compute; reflexivity].
Defined.
