(* ===== verification/Gzip.v ===== *)
(** * Whole-buffer compression: gzip.{h,cc}.

    zlib and the allocator are outside the repository: the streams are the
    classes [Inflate] and [Deflate], the allocator [Alloc].  An output buffer
    is the bytes produced so far together with its size. *)

From S2P Require Import Prelude CppString Posix FileWriter.

(** [malloc(n)] and [realloc(p, n)]: did they give memory. *)
Class Alloc (W : Type) := {
  sys_malloc : Z → W → bool * W;
  sys_realloc : Z → W → bool * W
}.

(** [deflateInit2] (with the parameters of gzip.cc), [deflate], [deflateEnd]. *)
Class Deflate (Zs : Type) := {
  z_deflateInit2 : Z * Zs;
  z_deflate : Zs → bytes → Z → Z → Z * Zs * Z * bytes;
  z_deflateEnd : Zs → Z * Zs
}.

(** Result, buffer contents up to [next_out], [*out_size]. *)
Definition outcome : Type := bool * bytes * Z.

Section gzip.
Context {W : Type} `{Alloc W}.

Section pump.
(** The [for (;;)] loops of GzipDecompressData and GzipCompressData are the same
    text but for the zlib calls. *)
Context {Zs : Type} (z_step : Zs → bytes → Z → Z → Z * Zs * Z * bytes) (z_end : Zs → Z * Zs).

Record pump_state := mkPump {
  stream : Zs;
  avail_in : bytes;
  produced : bytes;
  avail_out : Z;
  out_size : Z
}.

(** One iteration.  A new block too small for what was already produced leaves
    [next_out] outside it. *)
Definition pump_step (p : pump_state) : M W (pump_state + outcome) :=
  let '(rc, st, consumed, out) := z_step (stream p) (avail_in p) (avail_out p) Z_FINISH in
  let next_out := produced p ++ out in
  if decide (rc = Z_STREAM_END) then
    mret (inr (bool_decide ((z_end st).1 = Z_OK), next_out, usize (zlen next_out)))
  else if decide (rc = Z_OK ∨ rc = Z_BUF_ERROR) then
    let out_length := zlen next_out in
    let out_size' := usize (out_size p * 2) in
    new_out ← extern (sys_realloc out_size');
    if negb new_out then
      (* [free( *out)]: a [realloc] to size 0 has already freed the block *)
      if decide (out_size' = 0) then fail Undefined else mret (inr (false, [], out_size'))
    else if decide (out_size' < out_length) then fail Undefined
    else mret (inl (mkPump st (drop (Z.to_nat consumed) (avail_in p)) next_out
                      (usize (out_size' - out_length)) out_size'))
  else mret (inr (false, [], out_size p)).

Definition pump (fuel : nat) : pump_state → M W outcome := loop fuel pump_step.
End pump.

(** The size doubles in 32 bits: after 32 doublings it is 0 and [realloc] gives
    nothing. *)
Definition gzip_fuel : nat := 32.

Context {Zi : Type} `{Inflate Zi} {Zd : Type} `{Deflate Zd}.

Definition GzipDecompressData (input : bytes) : M W outcome :=
  if decide (zlen input = 0) then
    _ ← extern (sys_malloc 1);
    mret (true, [], 0)
  else if decide (z_inflateInit2.1 ≠ Z_OK) then mret (false, [], 0)
  else
    let out_size := usize (zlen input * 2) in
    got ← extern (sys_malloc out_size);
    if negb got then mret (false, [], out_size)
    else pump z_inflate z_inflateEnd gzip_fuel
           (mkPump z_inflateInit2.2 input [] out_size out_size).

Definition GzipCompressData (input : bytes) : M W outcome :=
  if decide (zlen input = 0) then
    _ ← extern (sys_malloc 1);
    mret (true, [], 0)
  else if decide (z_deflateInit2.1 ≠ Z_OK) then mret (false, [], 0)
  else
    let out_size := Z.max 1 (zlen input / 2) in
    got ← extern (sys_malloc out_size);
    if negb got then mret (false, [], out_size)
    else pump z_deflate z_deflateEnd gzip_fuel
           (mkPump z_deflateInit2.2 input [] out_size out_size).

(** The helpers append the buffer to [out]. *)
Definition append_outcome (m : M W outcome) (out : bytes) : M W (bool * bytes) :=
  '(ok, out_buf, out_size) ← m;
  if negb ok then mret (false, out)
  else mret (true, out ++ take (Z.to_nat out_size) out_buf).

Definition GzipDecompress (input out : bytes) : M W (bool * bytes) :=
  append_outcome (GzipDecompressData input) out.
Definition GzipCompress (input out : bytes) : M W (bool * bytes) :=
  append_outcome (GzipCompressData input) out.
Definition GzipCompressString (s out : bytes) : M W (bool * bytes) :=
  append_outcome (GzipCompressData s) out.
Definition GzipDecompressString (s out : bytes) : M W (bool * bytes) :=
  append_outcome (GzipDecompressData s) out.
End gzip.

(** ** What zlib documents of [Z_FINISH] *)

(** [ok z input rest]: stream [z], fed [input], has [rest] left to produce.  A
    call either ends the stream having produced all of it, or fills the room it
    was given. *)
Record finishes {Zs} (z_step : Zs → bytes → Z → Z → Z * Zs * Z * bytes)
    (ok : Zs → bytes → bytes → Prop) : Prop := {
  finish_step z input rest room rc z' consumed out :
    ok z input rest → 0 ≤ room →
    z_step z input room Z_FINISH = (rc, z', consumed, out) →
    (rc = Z_STREAM_END ∧ out = rest ∧ zlen rest ≤ room) ∨
    ((rc = Z_OK ∨ rc = Z_BUF_ERROR) ∧ zlen out = room ∧
     ∃ rest', rest = out ++ rest' ∧ ok z' (drop (Z.to_nat consumed) input) rest')
}.

(** zlib's two halves: the encoded form of a text, and that both streams work
    on it; the allocator gives every block below 4 GiB. *)
Class GzipLaws (W Zi Zd : Type) `{Alloc W, Inflate Zi, Deflate Zd} := {
  gzip_of : bytes → bytes;
  inflating : Zi → bytes → bytes → Prop;
  deflating : Zd → bytes → bytes → Prop;
  inflate_init_ok : z_inflateInit2.1 = Z_OK;
  deflate_init_ok : z_deflateInit2.1 = Z_OK;
  inflate_starts data : data ≠ [] → inflating z_inflateInit2.2 (gzip_of data) data;
  deflate_starts data : data ≠ [] → deflating z_deflateInit2.2 data (gzip_of data);
  inflate_finishes : finishes z_inflate inflating;
  deflate_finishes : finishes z_deflate deflating;
  inflate_end_ok z : (z_inflateEnd z).1 = Z_OK;
  deflate_end_ok z : (z_deflateEnd z).1 = Z_OK;
  gzip_of_nonempty data : data ≠ [] → gzip_of data ≠ [];
  malloc_ok n w : (sys_malloc n w).1 = true;
  realloc_ok n w : 0 < n → (sys_realloc n w).1 = true
}.

Section facts.
Context {W : Type} `{Alloc W}.

Section pump_facts.
Context {Zs : Type} (z_step : Zs → bytes → Z → Z → Z * Zs * Z * bytes) (z_end : Zs → Z * Zs).

(** Whatever zlib answers, the loop stops: after [j] doublings the size of the
    buffer is a multiple of [2 ^ j]. *)
Lemma pump_terminates n j (p : pump_state (Zs := Zs)) (w : W) :
  (∀ w, (sys_realloc 0 w).1 = false) →
  (2 ^ j | out_size p) → 0 ≤ j < 32 → 32 ≤ j + Z.of_nat n →
  pump z_step z_end n p w ≠ Fault OutOfFuel.
Proof.
  intros Hr. revert j p w. induction n as [|n IH]; intros j p w Hdiv Hj Hn; [lia|].
  unfold pump. rewrite loop_S. unfold pump_step.
  destruct (z_step _ _ _ _) as [[[rc st] consumed] out].
  destruct (decide (rc = Z_STREAM_END)); [done|].
  destruct (decide (rc = Z_OK ∨ rc = Z_BUF_ERROR)); [|done]. mrun.
  set (size := usize (out_size p * 2)).
  assert (Hdiv' : (2 ^ (j + 1) | size)).
  { unfold size, u32. rewrite Z.pow_add_r by lia.
    apply Z.mod_divide; [lia|]. rewrite Z.mod_mod_divide.
    - apply Z.mod_divide; [lia|]. apply Z.mul_divide_mono_r. done.
    - rewrite <-Z.pow_add_r by lia. exists (2 ^ (32 - (j + 1))).
      rewrite <-Z.pow_add_r by lia. f_equal. lia. }
  destruct (sys_realloc size w) as [got w'] eqn:E.
  destruct (decide (j = 31)) as [->|Hj31].
  - assert (size = 0) as Hz.
    { destruct Hdiv' as [k Hk]. pose proof (u32_range (out_size p * 2)) as Hb.
      fold size in Hb. unfold is_u32 in Hb. change (2 ^ (31 + 1)) with (2 ^ 32) in Hk. nia. }
    specialize (Hr w). rewrite <-Hz, E in Hr. cbn in Hr. subst got. cbn.
    by rewrite decide_True by done.
  - destruct got; cbn.
    + case_decide; [done|]. mrun. apply (IH (j + 1)); [done|lia|lia].
    + by case_decide.
Qed.

Lemma pump_correct (ok : Zs → bytes → bytes → Prop) n rest (p : pump_state (Zs := Zs)) (w : W) :
  finishes z_step ok → (∀ z, (z_end z).1 = Z_OK) →
  (∀ n w, 0 < n → (sys_realloc n w).1 = true) →
  ok (stream p) (avail_in p) rest → 0 < out_size p →
  out_size p = zlen (produced p) + avail_out p → 0 ≤ avail_out p →
  zlen (produced p ++ rest) < 2 ^ 31 → zlen (produced p ++ rest) < out_size p * 2 ^ Z.of_nat n →
  ∃ w', pump z_step z_end (Datatypes.S n) p w =
        Val ((true, produced p ++ rest, zlen (produced p ++ rest)), w').
Proof.
  intros Hfin Hend Hre. revert rest p w.
  induction n as [|n IH]; intros rest p w Hok Hpos Hsize Hroom Hsmall Hfuel.
  all: unfold pump; rewrite loop_S; unfold pump_step;
    destruct (z_step _ _ _ _) as [[[rc st] consumed] out] eqn:E;
    destruct (finish_step _ _ Hfin _ _ _ _ _ _ _ _ Hok Hroom E)
      as [(-> & -> & Hlen)|(Hrc & Hfull & rest' & -> & Hok')];
    pose proof (zlen_nonneg (produced p)).
  1,3: rewrite decide_True by done; mrun; rewrite Hend, bool_decide_true by done;
    rewrite u32_small by (split; [apply zlen_nonneg|lia]); eauto.
  { rewrite !zlen_app in Hfuel. pose proof (zlen_nonneg rest'). lia. }
  rewrite decide_False by (destruct Hrc as [->| ->]; done). rewrite decide_True by done. mrun.
  rewrite (assoc_L (++)) in Hsmall, Hfuel. rewrite (assoc_L (++)).
  pose proof (zlen_nonneg rest').
  assert (zlen (produced p ++ out) = out_size p) as Hl by (rewrite zlen_app; lia).
  assert (usize (out_size p * 2) = 2 * out_size p) as Hu.
  { rewrite zlen_app, Hl in Hsmall. rewrite u32_small; [lia|]. unfold is_u32. lia. }
  rewrite Hu, Hl. pose proof (Hre (2 * out_size p) w ltac:(lia)) as Hgot.
  destruct (sys_realloc (2 * out_size p) w) as [got w']. cbn in Hgot. subst got. cbn [negb].
  rewrite decide_False by lia. mrun.
  apply (IH rest' (mkPump st (drop (Z.to_nat consumed) (avail_in p)) (produced p ++ out)
           (usize (2 * out_size p - out_size p)) (2 * out_size p)) w');
    cbn [stream avail_in produced avail_out out_size]; try done; try lia.
  all: replace (2 * out_size p - out_size p) with (out_size p) by lia;
    try (rewrite u32_small; [lia|]; rewrite zlen_app in Hsmall; unfold is_u32; lia).
  rewrite zlen_app, Hl in Hfuel |- *.
  rewrite Nat2Z.inj_succ, Z.pow_succ_r in Hfuel by lia. lia.
Qed.
End pump_facts.

End facts.

Section gzip_facts.
Context {W Zi Zd : Type} `{GzipLaws W Zi Zd}.

Lemma nonempty_zlen (bs : bytes) : bs ≠ [] → zlen bs ≠ 0.
Proof. by intros Hne ->%zlen_0. Qed.

Lemma GzipDecompressData_correct data (w : W) :
  data ≠ [] → zlen data < 2 ^ 31 → zlen (gzip_of data) < 2 ^ 31 →
  ∃ w', GzipDecompressData (gzip_of data) w = Val ((true, data, zlen data), w').
Proof.
  intros Hne Hd Hg. unfold GzipDecompressData.
  pose proof (nonempty_zlen _ (gzip_of_nonempty data Hne)). pose proof (zlen_nonneg (gzip_of data)).
  rewrite decide_False by done. rewrite decide_False by (rewrite inflate_init_ok; naive_solver).
  rewrite u32_small by (unfold is_u32; lia). mrun.
  pose proof (malloc_ok (zlen (gzip_of data) * 2) w) as Hm.
  destruct (sys_malloc _ w) as [got w']. cbn in Hm. subst got. cbn [negb].
  apply (pump_correct z_inflate z_inflateEnd inflating 31 data
           (mkPump z_inflateInit2.2 (gzip_of data) [] (zlen (gzip_of data) * 2)
                   (zlen (gzip_of data) * 2)));
    cbn [stream avail_in produced avail_out out_size app]; rewrite ?zlen_nil.
  - apply inflate_finishes.
  - apply inflate_end_ok.
  - apply realloc_ok.
  - by apply inflate_starts.
  - lia.
  - lia.
  - lia.
  - lia.
  - change (2 ^ Z.of_nat 31) with (2 ^ 31). lia.
Qed.

Lemma GzipCompressData_correct data (w : W) :
  data ≠ [] → zlen data < 2 ^ 31 → zlen (gzip_of data) < 2 ^ 31 →
  ∃ w', GzipCompressData data w = Val ((true, gzip_of data, zlen (gzip_of data)), w').
Proof.
  intros Hne Hd Hg. unfold GzipCompressData.
  pose proof (nonempty_zlen _ Hne). pose proof (zlen_nonneg data).
  rewrite decide_False by done. rewrite decide_False by (rewrite deflate_init_ok; naive_solver).
  mrun. pose proof (malloc_ok (Z.max 1 (zlen data / 2)) w) as Hm.
  destruct (sys_malloc _ w) as [got w']. cbn in Hm. subst got. cbn [negb].
  apply (pump_correct z_deflate z_deflateEnd deflating 31 (gzip_of data)
           (mkPump z_deflateInit2.2 data [] (Z.max 1 (zlen data / 2)) (Z.max 1 (zlen data / 2))));
    cbn [stream avail_in produced avail_out out_size app]; rewrite ?zlen_nil.
  - apply deflate_finishes.
  - apply deflate_end_ok.
  - apply realloc_ok.
  - by apply deflate_starts.
  - lia.
  - lia.
  - lia.
  - lia.
  - change (2 ^ Z.of_nat 31) with (2 ^ 31). lia.
Qed.
End gzip_facts.


(** C35. Both loops stop whatever zlib answers (a truncated stream included, for
    which it asks for more room for ever): the output buffer doubles at most 31
    times, until the allocator refuses. *)
Theorem gzip_terminates {W Zi Zd} `{Alloc W, Inflate Zi, Deflate Zd} input (w : W) :
  (∀ w, (sys_realloc 0 w).1 = false) →
  GzipDecompressData (Zi := Zi) input w ≠ Fault OutOfFuel ∧
  GzipCompressData (Zd := Zd) input w ≠ Fault OutOfFuel.
Proof.
  intros Hr. unfold GzipDecompressData, GzipCompressData. split.
  all: destruct (decide (zlen input = 0)); [mrun; by destruct (sys_malloc 1 w)|].
  all: match goal with |- context [decide (?a ≠ ?b)] => destruct (decide (a ≠ b)); [done|] end.
  all: mrun; destruct (sys_malloc _ w) as [[] w']; cbn [negb]; [|done].
  all: apply (pump_terminates _ _ _ 0); [done|apply Z.divide_1_l|lia|unfold gzip_fuel; lia].
Qed.

(** ** A concrete zlib: the compressed form of a text is the text. *)
Module StoredGzip.
#[global] Instance alloc : Alloc unit := {|
  sys_malloc n w := (true, w);
  sys_realloc n w := (0 <? n, w)
|}.
Definition copy (z : unit) (avail : bytes) (room _flush : Z) : Z * unit * Z * bytes :=
  if decide (zlen avail ≤ room) then (Z_STREAM_END, (), zlen avail, avail)
  else (Z_OK, (), room, take (Z.to_nat room) avail).
#[global] Instance inflate : Inflate unit := {|
  z_inflateInit2 := (Z_OK, ()); z_inflate := copy; z_inflateEnd _ := (Z_OK, ())
|}.
#[global] Instance deflate : Deflate unit := {|
  z_deflateInit2 := (Z_OK, ()); z_deflate := copy; z_deflateEnd _ := (Z_OK, ())
|}.

Lemma copy_finishes : finishes copy (fun _ input rest => input = rest).
Proof.
  split. intros z input rest room rc z' consumed out -> Hroom. unfold copy.
  destruct (decide (zlen rest ≤ room)); intros [= <- <- <- <-]; [by left|]. right.
  split; [by left|]. unfold zlen in *. rewrite length_take. split; [lia|].
  exists (drop (Z.to_nat room) rest). by rewrite take_drop.
Qed.

#[global, refine] Instance laws : GzipLaws unit unit unit := {|
  gzip_of data := data;
  inflating _ input rest := input = rest;
  deflating _ input rest := input = rest
|}.
Proof.
  all: try done.
  - apply copy_finishes.
  - apply copy_finishes.
  - cbn. intros n _ Hn. lia.
Defined.
End StoredGzip.


Lemma gzip_terminates_witness :
  GzipDecompressData (Zi := unit) (str "some text") () ≠ Fault OutOfFuel ∧
  GzipCompressData (Zd := unit) (str "some text") () ≠ Fault OutOfFuel.
Proof. refine (gzip_terminates (Zi := unit) (Zd := unit) (str "some text") () _). done. Defined.
