(* ===== verification/Utils.v ===== *)
(** * utils.{h,cc}: files, paths, mounts and the scoped helpers.

    The file system is outside the repository: beside [PosixFd] and
    [PosixStat], [Stdio] is the C streams, [PosixDir] the calls on directories
    and mounts, [Rand] the generator behind [rand()]. *)

From S2P Require Import Prelude CppString Posix Extents FileWriter.

Class Stdio (W : Type) := {
  sys_fopen : bytes → bytes → W → option Z * W;
  sys_fread : Z → Z → W → bytes * W;
  sys_ferror : Z → W → bool;
  sys_fclose : Z → W → Z * W
}.

Definition ENOENT : Z := 2.
(** [sys_readdir] is [readdir_r]: the error and the entry, [None] at the end. *)
Class PosixDir (W : Type) := {
  sys_opendir : bytes → W → option Z * W;
  sys_readdir : Z → W → (Z * option bytes) * W;
  sys_closedir : Z → W → Z * W;
  sys_unlink : bytes → W → Z * W;
  sys_rmdir : bytes → W → Z * W;
  sys_mount : bytes → bytes → bytes → W → Z * W;
  sys_umount : bytes → W → Z * W
}.

Class Rand (W : Type) := { sys_rand : W → Z * W }.

Definition slash : byte := x2f.
Definition space : byte := x20.

(** ** Strings *)

Definition StringHasSuffix (s suffix : bytes) : bool :=
  if decide (zlen s < zlen suffix) then false
  else bool_decide (drop (Z.to_nat (zlen s - zlen suffix)) s = suffix).

Definition StringHasPrefix (s prefix : bytes) : bool :=
  if decide (zlen s < zlen prefix) then false
  else bool_decide (take (Z.to_nat (zlen prefix)) s = prefix).

(** The loop of [NormalizePath]: what is pushed, and the final value of
    [last_insert_was_slash]. *)
Fixpoint normalize_loop (path : bytes) (last_insert_was_slash : bool) (ret : bytes)
  : bytes * bool :=
  match path with
  | [] => (ret, last_insert_was_slash)
  | c :: path' =>
      if decide (c = slash) then
        if last_insert_was_slash then normalize_loop path' true ret
        else normalize_loop path' true (ret ++ [c])
      else normalize_loop path' false (ret ++ [c])
  end.

Definition NormalizePath (path : bytes) (strip_trailing_slash : bool) : bytes :=
  let '(ret, last_insert_was_slash) := normalize_loop path false [] in
  if strip_trailing_slash && last_insert_was_slash then
    let last_non_slash := find_last_not_of ret slash in
    if decide (last_non_slash ≠ npos) then resize ret (usize (last_non_slash + 1)) else []
  else ret.

(** Hexadecimal digits of [v], [n] of them, most significant first. *)
Definition hex_digit (v : Z) : byte :=
  if decide (v < 10) then byte_of (48 + v) else byte_of (97 + v - 10).
Fixpoint hex_digits (n : nat) (v : Z) : bytes :=
  match n with
  | O => []
  | S n' => hex_digits n' (v / 16) ++ [hex_digit (v mod 16)]
  end.

(** The lines [HexDumpArray] logs, [i] being the offset of [arr] in the array;
    [snprintf] of a 32-bit offset and of a byte always fits. *)
Fixpoint hex_dump_lines (fuel : nat) (i : Z) (arr : bytes) : list bytes :=
  match fuel, arr with
  | O, _ | _, [] => []
  | S fuel', _ =>
      (str "0x" ++ hex_digits 8 i ++ str " : " ++
       concat ((fun c => hex_digits 2 (byte_val c) ++ str " ") <$> take 16 arr))
      :: hex_dump_lines fuel' (i + 16) (drop 16 arr)
  end.
Definition HexDumpArray (arr : bytes) : list bytes := hex_dump_lines (length arr) 0 arr.
Definition HexDumpString (s : bytes) : list bytes := HexDumpArray s.
Definition HexDumpVector (v : bytes) : list bytes := HexDumpArray v.

(** ** Containers *)

Definition MapContainsKey {A} (m : gmap Z A) (k : Z) : bool := bool_decide (is_Some (m !! k)).
Definition SetContainsKey (s : gset Z) (k : Z) : bool := bool_decide (k ∈ s).
Definition SetWithValue (v : Z) : gset Z := {[v]} ∪ ∅.
Definition VectorContainsValue (v : list Z) (x : Z) : bool := bool_decide (x ∈ v).

(** ** Files *)

Section files.
Context {W : Type} `{PosixFd W, PosixStat W, Stdio W, PosixDir W, Rand W}.

(** The local [DirectFileWriter] lives for the call only. *)
Definition WriteFile (path data : bytes) : M W bool := fun w =>
  let body : M (DirectFileWriter.t * W) bool :=
    rc ← fw_Open path (Z.lor O_WRONLY (Z.lor O_CREAT O_TRUNC)) 438;
    if negb (rc =? 0) then mret false
    else with_closer (n ← fw_Write data; mret (zlen data =? n)) in
  match body (DirectFileWriter.new, w) with
  | Val (b, (_, w')) => Val (b, w')
  | Fault f => Fault f
  end.

Definition kChunkSize : Z := 1024.

(** The [do ... while] of [ReadFile]. *)
Definition read_step (fp : Z) (out : bytes) : M W (bytes + bytes) :=
  buf ← extern (sys_fread fp kChunkSize);
  if decide (buf = []) then mret (inr out)
  else if decide (zlen buf = kChunkSize) then mret (inl (out ++ buf))
  else mret (inr (out ++ buf)).

Definition ReadFile (fuel : nat) (path out : bytes) : M W (bool * bytes) :=
  fp ← extern (sys_fopen (c_str path) (str "r"));
  match fp with
  | None => mret (false, out)
  | Some fp =>
      out ← loop fuel (read_step fp) out;
      err ← gets (sys_ferror fp);
      rc ← extern (sys_fclose fp);
      if decide (rc ≠ 0) then mret (false, out) else mret (negb err, out)
  end.

Definition ReadFileToString (fuel : nat) (path out : bytes) : M W (bool * bytes) :=
  '(success, data) ← ReadFile fuel path [];
  if negb success then mret (false, out) else mret (true, data).

Definition FileExists (path : bytes) : M W bool :=
  r ← extern (sys_lstat path); mret (bool_decide (is_Some r)).

(** One character of [[a-zA-Z0-9]]. *)
Definition random_char (r : Z) : byte :=
  if decide (r < 26) then byte_of (97 + r)
  else if decide (r < 26 * 2) then byte_of (65 + r - 26)
  else byte_of (48 + r - 26 * 2).

Fixpoint random_suffix (n : nat) : M W bytes :=
  match n with
  | O => mret []
  | S n' =>
      r ← extern sys_rand;
      rest ← random_suffix n';
      mret (random_char (Z.rem r (26 * 2 + 10)) :: rest)
  end.

Definition temp_step (suffix path : bytes) : M W (bytes + bytes) :=
  new_suffix ← random_suffix (length suffix);
  CHECK (zlen new_suffix =? zlen suffix);;
  let path := resize path (usize (zlen path - zlen new_suffix)) ++ new_suffix in
  ex ← FileExists (c_str path);
  if ex : bool then mret (inl path) else mret (inr path).

Definition TempFilename (fuel : nat) (path : bytes) : M W bytes :=
  let suffix := str "XXXXXX" in
  CHECK (StringHasSuffix path suffix);;
  loop fuel (temp_step suffix) path.

(** [ScopedDirCloser]: a failing [closedir] is only logged. *)
Definition with_dir {A} (dir : Z) (m : M W A) : M W A :=
  a ← m; _ ← extern (sys_closedir dir); mret a.

(** [fuel] bounds the depth of the tree, [entries] the entries of a directory. *)
Fixpoint RecursiveUnlinkDir (fuel : nat) (path : bytes) : M W bool :=
  match fuel with
  | O => fail OutOfFuel
  | S fuel' =>
      r ← extern (sys_lstat (c_str path));
      e ← gets sys_errno;
      match r with
      | None => mret (bool_decide (e = ENOENT))
      | Some stbuf =>
          if negb (S_ISDIR (st_mode stbuf)) then
            r ← extern (sys_unlink (c_str path));
            e ← gets sys_errno;
            mret (bool_decide (r = 0 ∨ e = ENOENT))
          else
            d ← extern (sys_opendir (c_str path));
            match d with
            | None => mret false
            | Some dir =>
                children ← with_dir dir (loop fuel (fun _ : unit =>
                  '(err, dir_entry) ← extern (sys_readdir dir);
                  if decide (err ≠ 0) then mret (inr false)
                  else match dir_entry with
                       | None => mret (inr true)
                       | Some d_name =>
                           if decide (d_name = str "." ∨ d_name = str "..") then mret (inl ())
                           else
                             ok ← RecursiveUnlinkDir fuel' (path ++ [slash] ++ d_name);
                             if negb ok then mret (inr false) else mret (inl ())
                       end) ());
                if negb children then mret false
                else
                  r ← extern (sys_rmdir (c_str path));
                  e ← gets sys_errno;
                  mret (bool_decide (r = 0 ∨ e = ENOENT))
            end
      end
  end.

(** The text after [root=] at [pos], up to a blank. *)
Fixpoint until_blank (s : bytes) : bytes :=
  match s with
  | [] => []
  | c :: s' => if decide (c = space) then [] else c :: until_blank s'
  end.

(** What [BootDevice] makes of the kernel command line. *)
Definition boot_device_of (proc_cmdline : bytes) : bytes :=
  let pos := if StringHasPrefix proc_cmdline (str "root=") then 0
             else usize (find proc_cmdline (str " root=") 0 + 1) in
  if decide (pos = npos) then []
  else until_blank (drop (Z.to_nat (usize (pos + zlen (str "root=")))) proc_cmdline).

Definition BootDevice (fuel : nat) : M W bytes :=
  '(ok, proc_cmdline) ← ReadFileToString fuel (str "/proc/cmdline") [];
  if negb ok then mret [] else mret (boot_device_of proc_cmdline).

Definition MountFilesystem (device mountpoint : bytes) : M W bool :=
  rc ← extern (sys_mount (c_str device) (c_str mountpoint) (str "ext3"));
  mret (negb (rc <? 0)).

Definition UnmountFilesystem (mountpoint : bytes) : M W bool :=
  rc ← extern (sys_umount (c_str mountpoint)); mret (rc =? 0).

Definition kStatefulPartition : bytes := str "/mnt/stateful_partition".

(** ** Scoped helpers: the destructor runs when the scope is left. *)

Definition with_unmounter {A} (mountpoint : bytes) (m : M W A) : M W A :=
  a ← m; _ ← UnmountFilesystem mountpoint; mret a.

(** [ScopedFdCloser] on the descriptor variable [fd]: its value after the
    scope; [should_close] is the last value given to [set_should_close]. *)
Definition fd_closer (fd : Z) (should_close : bool) : M W Z :=
  if negb should_close then mret fd
  else if decide (0 ≤ fd) then _ ← extern (sys_close fd); mret (-1) else mret fd.
End files.

(** ** NormalizePath *)

(** The non-empty segments between slashes; [cur] is the one being read. *)
Fixpoint components_from (cur path : bytes) : list bytes :=
  match path with
  | [] => if decide (cur = []) then [] else [cur]
  | c :: path' =>
      if decide (c = slash)
      then (if decide (cur = []) then [] else [cur]) ++ components_from [] path'
      else components_from (cur ++ [c]) path'
  end.
Definition components (path : bytes) : list bytes := components_from [] path.

Fixpoint squeeze (last : bool) (path : bytes) : bytes :=
  match path with
  | [] => []
  | c :: path' =>
      if decide (c = slash) then if last then squeeze true path' else c :: squeeze true path'
      else c :: squeeze false path'
  end.
Definition no_double_slash (p : bytes) : Prop := ∀ a b, p ≠ a ++ slash :: slash :: b.
Definition no_trailing_slash (p : bytes) : Prop := ∀ a, p ≠ a ++ [slash].

Lemma normalize_loop_squeeze path last ret :
  (normalize_loop path last ret).1 = ret ++ squeeze last path.
Proof.
  revert last ret. induction path as [|c path IH]; intros last ret; cbn; [by rewrite app_nil_r|].
  destruct (decide (c = slash)); [destruct last|]; rewrite IH; by rewrite <-?(assoc_L (++)).
Qed.

(** The flag tells whether what was read ends in a slash. *)
Lemma normalize_loop_flag path last ret :
  (normalize_loop path last ret).2 =
  match list.last path with None => last | Some c => bool_decide (c = slash) end.
Proof.
  revert last ret. induction path as [|c path IH]; intros last ret; [done|].
  cbn [normalize_loop]. rewrite last_cons.
  destruct (decide (c = slash)) as [Hc|Hc]; [destruct last|]; rewrite IH;
    destruct (list.last path); try done; by case_bool_decide.
Qed.

Lemma squeeze_no_double last path :
  no_double_slash (squeeze last path) ∧
  (last = true → ∀ b, squeeze last path ≠ slash :: b).
Proof.
  revert last. induction path as [|c path IH]; intros last; cbn.
  - split; [|done]. intros [|x a] b; done.
  - destruct (decide (c = slash)) as [->|Hc].
    + destruct last; [by apply IH|]. split; [|done].
      destruct (IH true) as [IH1 IH2]. intros [|x a] b; cbn.
      * intros [= Heq]. by apply (IH2 eq_refl b).
      * intros [= _ Heq]. by apply (IH1 a b).
    + split; [|by intros _ b [= ?]]. intros [|x a] b; cbn; [by intros [= ?]|].
      intros [= _ Heq]. by apply (proj1 (IH false) a b).
Qed.

Lemma squeeze_id last path :
  no_double_slash path → (last = true → ∀ b, path ≠ slash :: b) → squeeze last path = path.
Proof.
  revert last. induction path as [|c path IH]; intros last Hnd Hl; cbn; [done|].
  assert (no_double_slash path) as Hnd'.
  { intros a b ->. by apply (Hnd (c :: a) b). }
  destruct (decide (c = slash)) as [->|Hc].
  - destruct last; [by destruct (Hl eq_refl path)|]. f_equal. apply IH; [done|].
    intros _ b ->. by apply (Hnd [] b).
  - f_equal. by apply IH.
Qed.

Lemma components_squeeze last path cur :
  (last = true → cur = []) →
  components_from cur (squeeze last path) = components_from cur path.
Proof.
  revert last cur. induction path as [|c path IH]; intros last cur Hl; cbn; [done|].
  destruct (decide (c = slash)) as [Hc|Hc].
  - destruct last.
    + rewrite (Hl eq_refl). rewrite decide_True by done. cbn. by apply IH.
    + cbn. rewrite decide_True by done. f_equal. by apply IH.
  - cbn. rewrite decide_False by done. by apply IH.
Qed.

Lemma components_snoc_slash cur p :
  components_from cur (p ++ [slash]) = components_from cur p.
Proof.
  revert cur. induction p as [|c p IH]; intros cur; cbn.
  - by rewrite app_nil_r.
  - destruct (decide (c = slash)); [f_equal|]; apply IH.
Qed.

(** Squeezing keeps the last character, unless everything was skipped. *)
Lemma squeeze_last last path :
  list.last (squeeze last path) = list.last path ∨
  (last = true ∧ squeeze last path = [] ∧ (list.last path = Some slash ∨ path = [])).
Proof.
  revert last. induction path as [|c path IH]; intros last; [by left|].
  rewrite (last_cons c path). cbn [squeeze].
  destruct (decide (c = slash)) as [->|Hc].
  - destruct last.
    + destruct (IH true) as [Hl|(_ & Hn & Hp)].
      * rewrite Hl. destruct (list.last path) eqn:E; [by left|].
        apply last_None in E as ->. right. split_and!; [done..|by left].
      * right. split_and!; [done..|]. destruct Hp as [->| ->]; by left.
    + left. rewrite last_cons. destruct (IH true) as [->|(_ & -> & Hp)]; [done|].
      cbn. by destruct Hp as [->| ->].
  - left. rewrite last_cons. destruct (IH false) as [->|(? & _)]; done.
Qed.

Lemma last_not_of_snoc c p x i :
  x ≠ c → last_not_of_at c (p ++ [x]) i = Some (i + zlen p).
Proof.
  revert i. induction p as [|y p IH]; intros i Hx; cbn.
  - rewrite decide_False by done. f_equal. rewrite zlen_nil. lia.
  - rewrite IH by done. rewrite zlen_cons. f_equal. lia.
Qed.

Lemma last_not_of_skip c p i : last_not_of_at c (p ++ [c]) i = last_not_of_at c p i.
Proof.
  revert i. induction p as [|y p IH]; intros i; cbn; [by rewrite decide_True|].
  by rewrite IH.
Qed.

(** The tail of [NormalizePath], on a string without double slashes. *)
Lemma strip_one_slash p :
  no_double_slash (p ++ [slash]) → zlen p < npos →
  (if decide (find_last_not_of (p ++ [slash]) slash ≠ npos)
   then resize (p ++ [slash]) (usize (find_last_not_of (p ++ [slash]) slash + 1))
   else []) = p.
Proof.
  intros Hnd Hlen. unfold find_last_not_of. rewrite last_not_of_skip.
  destruct (snoc_cases p) as [->|(q & x & ->)]; [done|].
  assert (x ≠ slash) as Hx.
  { intros ->. apply (Hnd q []). by rewrite <-(assoc_L (++)). }
  rewrite last_not_of_snoc by done. cbn [from_option id].
  rewrite zlen_app, zlen_one in Hlen. pose proof (zlen_nonneg q).
  rewrite decide_True by lia. unfold npos in Hlen.
  rewrite u32_small by (unfold is_u32; lia).
  rewrite resize_take by (rewrite !zlen_app, !zlen_one; lia).
  replace (Z.to_nat (0 + zlen q + 1)) with (length (q ++ [x]))
    by (rewrite length_app; unfold zlen; cbn; lia).
  apply take_app_length.
Qed.

Lemma squeeze_length last path : zlen (squeeze last path) ≤ zlen path.
Proof.
  revert last. induction path as [|c path IH]; intros last; [done|]. cbn [squeeze].
  pose proof (IH true). pose proof (IH false). rewrite zlen_cons.
  destruct (decide (c = slash)); [destruct last|]; rewrite ?zlen_cons; lia.
Qed.

(** What [NormalizePath] does, in terms of [squeeze]. *)
Lemma NormalizePath_squeeze path strip :
  zlen path < npos →
  ∃ q, squeeze false path = q ∧
    if strip && bool_decide (list.last path = Some slash)
    then q = NormalizePath path strip ++ [slash] else NormalizePath path strip = q.
Proof.
  intros Hlen. exists (squeeze false path). split; [done|]. unfold NormalizePath.
  pose proof (normalize_loop_squeeze path false []) as Hs.
  pose proof (normalize_loop_flag path false []) as Hf.
  destruct (normalize_loop path false []) as [ret flag]. cbn in Hs, Hf. subst ret.
  replace flag with (bool_decide (list.last path = Some slash)).
  2:{ subst flag. destruct (list.last path) as [c|]; [|done].
      by do 2 case_bool_decide; simplify_eq. }
  destruct strip; [|done]. cbn [andb].
  case_bool_decide as Hl; [|done].
  destruct (squeeze_last false path) as [Hq|(? & _)]; [|done].
  rewrite Hl in Hq. apply last_Some in Hq as [q Hq]. rewrite Hq. cbn [app]. cbv zeta.
  rewrite (strip_one_slash q); [done|rewrite <-Hq; apply squeeze_no_double|].
  apply (f_equal zlen) in Hq. rewrite zlen_app, zlen_one in Hq.
  pose proof (squeeze_length false path). lia.
Qed.

Lemma no_double_prefix p q : no_double_slash (p ++ q) → no_double_slash p.
Proof. intros H a b ->. apply (H a (b ++ q)). by rewrite <-(assoc_L (++)). Qed.

(** [NormalizePath] never leaves two slashes in a row, nor a trailing slash
    when asked to strip it (the root directory becomes the empty string), keeps
    the components of the path, and does nothing to a normalised path. *)
Theorem NormalizePath_normal_form path strip :
  zlen path < npos →
  no_double_slash (NormalizePath path strip) ∧
  (strip = true → no_trailing_slash (NormalizePath path strip)) ∧
  components (NormalizePath path strip) = components path ∧
  NormalizePath (NormalizePath path strip) strip = NormalizePath path strip.
Proof.
  intros Hlen. destruct (NormalizePath_squeeze path strip Hlen) as (q & Hq & Hn).
  set (n := NormalizePath path strip) in *.
  destruct (squeeze_no_double false path) as [Hnd _]. rewrite Hq in Hnd.
  assert (Hnd' : no_double_slash n).
  { destruct (strip && _); [rewrite Hn in Hnd; by eapply no_double_prefix|by rewrite Hn]. }
  assert (Htr : strip = true → no_trailing_slash n).
  { intros -> a Ha. cbn [andb] in Hn. case_bool_decide as Hl.
    - apply (Hnd a []). by rewrite Hn, Ha, <-(assoc_L (++)).
    - destruct (squeeze_last false path) as [Hsl|(? & _)]; [|done].
      rewrite Hq, <-Hn, Ha, last_snoc in Hsl. done. }
  split_and!; [done..| |].
  - unfold components. rewrite <-(components_squeeze false path []), Hq by done.
    destruct (strip && _); [rewrite Hn|by rewrite Hn]. by rewrite components_snoc_slash.
  - assert (zlen n < npos) as Hlen'.
    { pose proof (squeeze_length false path) as Hle. rewrite Hq in Hle.
      destruct (strip && _); [|by rewrite Hn; lia]. rewrite Hn, zlen_app, zlen_one in Hle. lia. }
    destruct (NormalizePath_squeeze n strip Hlen') as (q' & Hq' & Hn').
    rewrite squeeze_id in Hq' by done. subst q'.
    destruct (strip && bool_decide (list.last n = Some slash)) eqn:E; [|done]. exfalso.
    apply andb_true_iff in E as [Hs Hl]. apply bool_decide_eq_true in Hl.
    apply last_Some in Hl as [a Ha]. by apply (Htr Hs a).
Qed.

Lemma NormalizePath_normal_form_witness :
  no_double_slash (NormalizePath (str "//usr///bin/") true) ∧
  (true = true → no_trailing_slash (NormalizePath (str "//usr///bin/") true)) ∧
  components (NormalizePath (str "//usr///bin/") true) = components (str "//usr///bin/") ∧
  NormalizePath (NormalizePath (str "//usr///bin/") true) true =
    NormalizePath (str "//usr///bin/") true.
Proof. refine (NormalizePath_normal_form (str "//usr///bin/") true _). vm_compute. done. Defined.

(** ** BootDevice *)

Lemma until_blank_app dev rest :
  space ∉ dev → (rest = [] ∨ ∃ r, rest = space :: r) → until_blank (dev ++ rest) = dev.
Proof.
  intros Hn Hr. induction dev as [|c dev IH]; cbn.
  - destruct Hr as [->|[r ->]]; cbn; [done|]. by rewrite decide_True.
  - apply not_elem_of_cons in Hn as [Hc Hn]. rewrite decide_False by congruence. by rewrite IH.
Qed.

Lemma StringHasPrefix_spec s p : StringHasPrefix s p = bool_decide (p `prefix_of` s).
Proof.
  unfold StringHasPrefix. unfold zlen. rewrite Nat2Z.id.
  destruct (decide (Z.of_nat (length s) < Z.of_nat (length p))) as [Hlt|Hge].
  - rewrite bool_decide_false; [done|]. intros Hp%prefix_length. lia.
  - apply bool_decide_ext. split.
    + intros <-. apply prefix_take.
    + intros [k ->]. apply take_app_length.
Qed.

(** [BootDevice]: the device is the text up to a blank after the first
    [root=] at the start of a word of the kernel command line.  But when there
    is no such word the function does not return the empty string it means to
    return: [find] gives [npos], the code adds 1 before comparing with [npos],
    and the result is what follows the first five characters of the line. *)
Theorem BootDevice_from_cmdline dev rest :
  space ∉ dev → (rest = [] ∨ ∃ r, rest = space :: r) →
  boot_device_of (str "root=" ++ dev ++ rest) = dev ∧
  (∀ pre, ¬ str "root=" `prefix_of` pre ++ str " root=" ++ dev ++ rest →
     zlen pre < 2 ^ 31 →
     (∀ a b, pre ++ str " root=" ++ dev ++ rest = a ++ str " root=" ++ b → zlen pre ≤ zlen a) →
     boot_device_of (pre ++ str " root=" ++ dev ++ rest) = dev) ∧
  (∀ line, ¬ str "root=" `prefix_of` line → (∀ a b, line ≠ a ++ str " root=" ++ b) →
     boot_device_of line = until_blank (drop 5 line)).
Proof.
  intros Hdev Hrest. unfold boot_device_of. split_and!.
  - rewrite StringHasPrefix_spec, bool_decide_true by (by exists (dev ++ rest)).
    rewrite decide_False by done. cbn [drop]. by apply until_blank_app.
  - intros pre Hnp Hlen Hfirst. rewrite StringHasPrefix_spec, bool_decide_false by done.
    rewrite find_0.
    destruct (find_at _ _ 0) as [j|] eqn:E; cbn [from_option id].
    + destruct (find_at_Some _ _ _ _ E) as (Hj & a & b & Hab & Hza).
      pose proof (find_at_first _ _ _ _ pre (dev ++ rest) E eq_refl).
      specialize (Hfirst _ _ Hab). replace j with (zlen pre) in * by lia.
      pose proof (zlen_nonneg pre).
      rewrite (u32_small (zlen pre + 1)) by (unfold is_u32; lia).
      rewrite decide_False by (unfold npos; lia).
      change (zlen (str "root=")) with 5. rewrite u32_small by (unfold is_u32; lia).
      replace (Z.to_nat _) with (length (pre ++ str " root="))
        by (rewrite length_app; unfold zlen; cbn; lia).
      rewrite (assoc_L (++)), drop_app_length. by apply until_blank_app.
    + exfalso. rewrite find_at_None in E. by apply (E pre (dev ++ rest)).
  - intros line Hnp Hno. rewrite StringHasPrefix_spec, bool_decide_false by done.
    rewrite find_0.
    rewrite (proj2 (find_at_None (str " root=") line 0)) by done. reflexivity.
Qed.

Lemma BootDevice_from_cmdline_witness :
  boot_device_of (str "root=" ++ str "/dev/sda1" ++ str " quiet") = str "/dev/sda1" ∧
  (∀ pre, ¬ str "root=" `prefix_of` pre ++ str " root=" ++ str "/dev/sda1" ++ str " quiet" →
     zlen pre < 2 ^ 31 →
     (∀ a b, pre ++ str " root=" ++ str "/dev/sda1" ++ str " quiet" = a ++ str " root=" ++ b →
        zlen pre ≤ zlen a) →
     boot_device_of (pre ++ str " root=" ++ str "/dev/sda1" ++ str " quiet") = str "/dev/sda1") ∧
  (∀ line, ¬ str "root=" `prefix_of` line → (∀ a b, line ≠ a ++ str " root=" ++ b) →
     boot_device_of line = until_blank (drop 5 line)).
Proof.
  refine (BootDevice_from_cmdline (str "/dev/sda1") (str " quiet") _ _).
  - by apply (bool_decide_unpack _).
  - right. by exists (str "quiet").
Defined.

(** The line of a machine booted without [root=]. *)
Example boot_device_of_quiet : boot_device_of (str "quiet splash") = str "".
Proof. reflexivity. Qed.
Example boot_device_of_ro : boot_device_of (str "console=tty0 ro") = str "le=tty0".
Proof. reflexivity. Qed.
