(* ===== verification/FsIterator.v ===== *)
(** * FilesystemIterator: filesystem_iterator.{h,cc}.

    A C++ vector used as a stack is a list whose last element is the top. *)

From S2P Require Import Prelude CppString Posix Extents FileWriter Utils.

Definition ENOTDIR : Z := 20.

Module FilesystemIterator.
Record t := mk {
  dirs_ : list Z;
  names_ : list bytes;
  root_dev_ : Z;
  root_path_ : bytes;
  excl_prefixes_ : list bytes;
  stbuf_ : stat;
  is_end_ : bool;
  is_err_ : bool
}.
#[global] Instance eta_t : Eta t := fun r =>
  mk (dirs_ r) (names_ r) (root_dev_ r) (root_path_ r) (excl_prefixes_ r) (stbuf_ r)
     (is_end_ r) (is_err_ r).

(** [GetPartialPath]: "/" and the name, for every name. *)
Definition partial_path (names : list bytes) : bytes := names ≫= fun n => slash :: n.
Definition GetPartialPath (it : t) : bytes := partial_path (names_ it).
Definition GetFullPath (it : t) : bytes := root_path_ it ++ GetPartialPath it.
Definition GetStat (it : t) : stat := stbuf_ it.
Definition IsEnd (it : t) : bool := is_end_ it.
Definition IsErr (it : t) : bool := is_err_ it.
(** [names_.back()]. *)
Definition GetBasename {S} (it : t) : M S bytes :=
  match list.last (names_ it) with Some n => mret n | None => fail Undefined end.

(** What [stbuf_] and [root_dev_] hold before the constructor's [lstat]; no one
    reads them when it fails, since the iterator is then at its end. *)
Definition unset : stat := mkStat 0 0 0 0 0 0 0 0.

Section iterator.
Context {W : Type} `{PosixFd W, PosixStat W, PosixDir W}.

Definition upd (f : t → t) : M (t * W) unit := modify (fun s => (f s.1, s.2)).
Definition world {A} (f : W → A * W) : M (t * W) A :=
  zoom snd (fun w s => (s.1, w)) (extern f).

(** The failing branch of [RETURN_ERROR_IF_FALSE]. *)
Definition return_error : M (t * W) unit :=
  upd (fun it => it <| is_end_ := true |> <| is_err_ := true |>).

(** The constructor. *)
Definition construct (path : bytes) (excl_prefixes : list bytes) : M W t :=
  let root_path := NormalizePath path true in
  let it := mk [] [] 0 root_path excl_prefixes unset false false in
  r ← extern (sys_lstat (c_str root_path));
  match r with
  | None => mret (it <| is_end_ := true |> <| is_err_ := true |>)
  | Some stbuf => mret (it <| stbuf_ := stbuf |> <| root_dev_ := st_dev stbuf |>)
  end.

(** The destructor. *)
Definition destroy (it : t) : M W unit :=
  for_each (fun d => _ ← extern (sys_closedir d); mret ()) (dirs_ it).

(** The body of [for (;;)] in [IncrementInternal]. *)
Definition internal_step (_ : unit) : M (t * W) (unit + unit) :=
  it ← gets fst;
  match list.last (dirs_ it) with
  | None => fail Undefined
  | Some dir =>
      '(r, dir_entry_pointer) ← world (sys_readdir dir);
      if decide (r ≠ 0) then return_error;; mret (inr ())
      else match dir_entry_pointer with
           | Some d_name =>
               upd (fun it => it <| names_ := names_ it ++ [d_name] |>);;
               it ← gets fst;
               r ← world (sys_lstat (c_str (GetFullPath it)));
               match r with
               | None => return_error;; mret (inr ())
               | Some stbuf =>
                   upd (fun it => it <| stbuf_ := stbuf |>);;
                   if decide (d_name ≠ str "." ∧ d_name ≠ str "..") then mret (inr ())
                   else upd (fun it => it <| names_ := removelast (names_ it) |>);;
                        mret (inl ())
               end
           | None =>
               r ← world (sys_closedir dir);
               if decide (r ≠ 0) then return_error;; mret (inr ())
               else
                 upd (fun it => it <| dirs_ := removelast (dirs_ it) |>);;
                 it ← gets fst;
                 if decide (dirs_ it = []) then
                   CHECK (bool_decide (names_ it = []));;
                   upd (fun it => it <| is_end_ := true |>);;
                   mret (inr ())
                 else
                   CHECK (bool_decide (names_ it ≠ []));;
                   upd (fun it => it <| names_ := removelast (names_ it) |>);;
                   mret (inl ())
           end
  end.

Definition IncrementInternal (fuel : nat) : M (t * W) unit :=
  it ← gets fst;
  CHECK (Nat.eqb (length (dirs_ it)) (length (names_ it) + 1));;
  loop fuel internal_step ().

(** The first part of [Increment]: [None] when it returned early, otherwise
    whether a directory was entered. *)
Definition enter_dir : M (t * W) (option bool) :=
  it ← gets fst;
  if S_ISDIR (st_mode (stbuf_ it)) && (st_dev (stbuf_ it) =? root_dev_ it) then
    d ← world (sys_opendir (c_str (GetFullPath it)));
    errno ← gets (fun s => sys_errno s.2);
    match d with
    | None =>
        if decide (errno = ENOTDIR ∨ errno = ENOENT) then mret (Some false)
        else return_error;; mret None
    | Some dir => upd (fun it => it <| dirs_ := dirs_ it ++ [dir] |>);; mret (Some true)
    end
  else mret (Some false).

(** Is the current partial path excluded. *)
Definition excluded (excl : list bytes) (p : bytes) : bool :=
  existsb (fun prefix => StringHasPrefix p prefix) excl.

(** [Increment] calls itself while the new path is excluded. *)
Fixpoint Increment (fuel : nat) : M (t * W) unit :=
  match fuel with
  | O => fail OutOfFuel
  | S fuel' =>
      entering_dir ← enter_dir;
      match entering_dir with
      | None => mret ()
      | Some entering_dir =>
          it ← gets fst;
          if decide (entering_dir = false ∧ names_ it = []) then
            upd (fun it => it <| is_end_ := true |>)
          else
            (if entering_dir : bool then mret ()
             else upd (fun it => it <| names_ := removelast (names_ it) |>));;
            IncrementInternal fuel;;
            it ← gets fst;
            if excluded (excl_prefixes_ it) (GetPartialPath it)
            then Increment fuel' else mret ()
      end
  end.
End iterator.
End FilesystemIterator.

(** ** A file system that does not change under the iterator *)

(** [fs_open w ds]: in [w] the open directory streams and the entries each has
    still to give are [ds]. *)
Class StaticFs (W : Type) `{PosixStat W, PosixDir W} := {
  fs_stat : bytes → option stat;
  fs_list : bytes → list bytes;
  fs_open : W → gmap Z (list bytes) → Prop;
  fs_lstat p w ds : fs_open w ds →
    ∃ w', sys_lstat p w = (fs_stat p, w') ∧ fs_open w' ds;
  fs_opendir p st w ds : fs_open w ds → fs_stat p = Some st → S_ISDIR (st_mode st) = true →
    ∃ d w', sys_opendir p w = (Some d, w') ∧ ds !! d = None ∧
            fs_open w' (<[d := fs_list p]> ds);
  fs_readdir d n es w ds : fs_open w ds → ds !! d = Some (n :: es) →
    ∃ w', sys_readdir d w = ((0, Some n), w') ∧ fs_open w' (<[d := es]> ds);
  fs_readdir_end d w ds : fs_open w ds → ds !! d = Some [] →
    ∃ w', sys_readdir d w = ((0, None), w') ∧ fs_open w' ds;
  fs_closedir d es w ds : fs_open w ds → ds !! d = Some es →
    ∃ w', sys_closedir d w = (0, w') ∧ fs_open w' (delete d ds)
}.

Section walk.
Context {W : Type} `{StaticFs W} (root : bytes) (dev : Z).

Definition child (p n : bytes) : bytes := p ++ slash :: n.
(** A directory of the device being walked. *)
Definition enters (st : stat) : bool := S_ISDIR (st_mode st) && (st_dev st =? dev).

(** [walk p st l]: [l] is what is below the file with partial path [p], in
    preorder; [walks p es l]: what the entries [es] of directory [p] lead to. *)
Inductive walk : bytes → stat → list (bytes * stat) → Prop :=
| walk_leaf p st : enters st = false → walk p st []
| walk_dir p st l : enters st = true → walks p (fs_list (root ++ p)) l → walk p st l
with walks : bytes → list bytes → list (bytes * stat) → Prop :=
| walks_nil p : walks p [] []
| walks_dot p n es st l :
    n = str "." ∨ n = str ".." → fs_stat (root ++ child p n) = Some st →
    walks p es l → walks p (n :: es) l
| walks_entry p n es st l l' :
    n ≠ str "." → n ≠ str ".." → x00 ∉ n → fs_stat (root ++ child p n) = Some st →
    walk (child p n) st l → walks p es l' →
    walks p (n :: es) ((child p n, st) :: l ++ l').
End walk.

Import FilesystemIterator.
#[local] Arguments GetFullPath : simpl never.
#[local] Arguments GetPartialPath : simpl never.
#[local] Arguments partial_path : simpl never.

Section facts.
Context {W : Type} `{PosixFd W} `{StaticFs W} (root : bytes) (dev : Z) (excl : list bytes).

Lemma partial_path_snoc names n : partial_path (names ++ [n]) = child (partial_path names) n.
Proof. unfold partial_path, child. rewrite bind_app. cbn. by rewrite app_nil_r. Qed.

(** [pending ds dirs names l k]: with the streams [dirs] of the current
    directory and its ancestors open, the directory having the names [names],
    what is left to visit is [l]; [k] bounds the steps to exhaust it. *)
Inductive pending (ds : gmap Z (list bytes)) :
  list Z → list bytes → list (bytes * stat) → nat → Prop :=
| pending_root d es l :
    ds !! d = Some es → walks root dev [] es l → x00 ∉ root →
    pending ds [d] [] l (Datatypes.S (length es))
| pending_sub dirs names d n es l1 l2 k :
    pending ds dirs names l2 k → d ∉ dirs → ds !! d = Some es →
    walks root dev (partial_path (names ++ [n])) es l1 →
    (x00 ∉ root ++ partial_path (names ++ [n])) →
    pending ds (dirs ++ [d]) (names ++ [n]) (l1 ++ l2) (Datatypes.S (length es) + k).

Lemma pending_lengths ds dirs names l k :
  pending ds dirs names l k → length dirs = (length names + 1)%nat.
Proof. induction 1; rewrite ?length_app; cbn in *; lia. Qed.

Lemma pending_frame ds ds' dirs names l k :
  pending ds dirs names l k → (∀ d, d ∈ dirs → ds' !! d = ds !! d) →
  pending ds' dirs names l k.
Proof.
  induction 1 as [d es l Hd Hw Hn|dirs names d n es l1 l2 k Hp IH Hni Hd Hw Hn]; intros Hf.
  - constructor; [|done|done]. by rewrite Hf by set_solver.
  - constructor; [|done| |done|done].
    + apply IH. intros x Hx. apply Hf. set_solver.
    + by rewrite Hf by set_solver.
Qed.

(** The iterator on a file: the path, the status, and what comes after. *)
Record at_entry (it : t) (w : W) (ds : gmap Z (list bytes)) (p : bytes) (st : stat)
    (l : list (bytes * stat)) (k : nat) : Prop := {
  ae_open : fs_open w ds;
  ae_root : root_path_ it = root;
  ae_dev : root_dev_ it = dev;
  ae_excl : excl_prefixes_ it = excl;
  ae_stat : stbuf_ it = st;
  ae_fs : fs_stat (root ++ p) = Some st;
  ae_running : is_end_ it = false;
  ae_ok : is_err_ it = false;
  ae_path : GetPartialPath it = p;
  ae_nul : x00 ∉ root ++ p;
  ae_rest : (dirs_ it = [] ∧ names_ it = [] ∧ walk root dev p st l ∧ k = 0%nat) ∨
            (∃ names n l1 l2, names_ it = names ++ [n] ∧ walk root dev p st l1 ∧
               l = l1 ++ l2 ∧ pending ds (dirs_ it) names l2 k)
}.

(** The iterator at its end, all streams closed. *)
Record at_end (it : t) : Prop := {
  end_flag : is_end_ it = true;
  end_err : is_err_ it = false;
  end_dirs : dirs_ it = [];
  end_names : names_ it = [];
  end_excl : excl_prefixes_ it = excl
}.

(** Inside [IncrementInternal]. *)
Record between (it : t) (w : W) (ds : gmap Z (list bytes)) (l : list (bytes * stat)) (k : nat)
  : Prop := {
  bt_open : fs_open w ds;
  bt_root : root_path_ it = root;
  bt_dev : root_dev_ it = dev;
  bt_excl : excl_prefixes_ it = excl;
  bt_running : is_end_ it = false;
  bt_ok : is_err_ it = false;
  bt_pending : pending ds (dirs_ it) (names_ it) l k
}.

Lemma pending_open ds dirs names l k d :
  pending ds dirs names l k → d ∈ dirs → is_Some (ds !! d).
Proof.
  induction 1 as [d' es l Hd|dirs names d' n es l1 l2 k Hp IH Hni Hd]; intros Hin.
  - apply list_elem_of_singleton in Hin as ->. eauto.
  - apply elem_of_app in Hin as [Hin|Hin%list_elem_of_singleton]; [by apply IH|subst; eauto].
Qed.

(** Opening the directory the iterator is on. *)
Lemma pending_push ds dirs names p st l k d :
  enters dev st = true → ds !! d = None → (x00 ∉ root ++ p) → partial_path names = p →
  (dirs = [] ∧ names = [] ∧ walk root dev p st l ∧ k = 0%nat) ∨
  (∃ names' n l1 l2, names = names' ++ [n] ∧ walk root dev p st l1 ∧
     l = l1 ++ l2 ∧ pending ds dirs names' l2 k) →
  pending (<[d := fs_list (root ++ p)]> ds) (dirs ++ [d]) names l
          (Datatypes.S (length (fs_list (root ++ p))) + k).
Proof.
  intros Hen Hd Hnul <- [(-> & -> & Hw & ->)|(names' & n & l1 & l2 & -> & Hw & -> & Hp)].
  all: inversion Hw as [|? ? ? _ Hws]; subst; [congruence|].
  - rewrite Nat.add_0_r. apply pending_root; [by rewrite lookup_insert_eq|done|].
    change (partial_path []) with (@nil byte) in Hnul. by rewrite app_nil_r in Hnul.
  - assert (d ∉ dirs) as Hni.
    { intros Hin. destruct (pending_open _ _ _ _ _ _ Hp Hin) as [? ?]. congruence. }
    apply pending_sub; [|done|by rewrite lookup_insert_eq|done|done].
    apply (pending_frame ds); [done|]. intros x Hx. apply lookup_insert_ne. set_solver.
Qed.

(** The top of the stack, and what is below it. *)
Lemma pending_top ds dirs names l k :
  pending ds dirs names l k →
  ∃ dirs' d es l1 l2 k', dirs = dirs' ++ [d] ∧ d ∉ dirs' ∧ ds !! d = Some es ∧
    walks root dev (partial_path names) es l1 ∧ l = l1 ++ l2 ∧
    k = (Datatypes.S (length es) + k')%nat ∧ (x00 ∉ root ++ partial_path names) ∧
    ((dirs' = [] ∧ names = [] ∧ l2 = [] ∧ k' = 0%nat) ∨
     (∃ names' n, names = names' ++ [n] ∧ pending ds dirs' names' l2 k')).
Proof.
  destruct 1 as [d es l Hd Hw Hn|dirs names d n es l1 l2 k Hp Hni Hd Hw Hn].
  - exists [], d, es, l, [], 0%nat. rewrite !app_nil_r. cbn. split_and!; try done; try lia.
    + set_solver.
    + by left.
  - exists dirs, d, es, l1, l2, k. split_and!; try done. right. by exists names, n.
Qed.

(** Reading an entry off the top stream. *)
Lemma pending_pop ds dirs d es names l1 l2 k' :
  d ∉ dirs → walks root dev (partial_path names) es l1 → (x00 ∉ root ++ partial_path names) →
  ((dirs = [] ∧ names = [] ∧ l2 = [] ∧ k' = 0%nat) ∨
   (∃ names' n, names = names' ++ [n] ∧ pending ds dirs names' l2 k')) →
  pending (<[d := es]> ds) (dirs ++ [d]) names (l1 ++ l2) (Datatypes.S (length es) + k').
Proof.
  intros Hd Hw Hn [(-> & -> & -> & ->)|(names' & n & -> & Hp)].
  - rewrite app_nil_r, Nat.add_0_r.
    change (partial_path []) with (@nil byte) in *. rewrite app_nil_r in Hn.
    apply (pending_root _ d es); [by rewrite lookup_insert_eq|done|done].
  - constructor; [|done|by rewrite lookup_insert_eq|done|done].
    apply (pending_frame ds); [done|]. intros x Hx. rewrite lookup_insert_ne; set_solver.
Qed.

Lemma c_str_full it p : root_path_ it = root → GetPartialPath it = p → (x00 ∉ root ++ p) →
  c_str (GetFullPath it) = root ++ p.
Proof. intros Hr Hp Hn. unfold GetFullPath. rewrite Hr, Hp. by apply c_str_no_nul. Qed.

Lemma not_nul_child p n : (x00 ∉ root ++ p) → (x00 ∉ n) → x00 ∉ root ++ child p n.
Proof. unfold child. intros Hp Hn. rewrite !elem_of_app, elem_of_cons in *. naive_solver. Qed.

Lemma dot_nul n : n = str "." ∨ n = str ".." → x00 ∉ n.
Proof. intros [->| ->]; by apply (bool_decide_unpack _). Qed.

(** What one iteration of the loop of [IncrementInternal] leads to. *)
Definition internal_outcome (l : list (bytes * stat)) (k : nat) (r : unit + unit) (s : t * W) : Prop :=
  match r, l with
  | inl _, _ => ∃ ds' k', between s.1 s.2 ds' l k' ∧ (k' < k)%nat
  | inr _, [] => at_end s.1 ∧ ∃ ds', fs_open s.2 ds'
  | inr _, (p, st) :: l' => ∃ ds' k', at_entry s.1 s.2 ds' p st l' k' ∧ (k' < k)%nat
  end.

Lemma internal_step_run it w ds l k :
  between it w ds l k →
  ∃ r s, internal_step () (it, w) = Val (r, s) ∧ internal_outcome l k r s.
Proof.
  intros [Hopen Hroot Hdev Hexcl Hrun Hok Hpend].
  destruct (pending_top _ _ _ _ _ Hpend)
    as (dirs & d & es & l1 & l2 & k' & Hdirs & Hd & Hds & Hw & -> & -> & Hn & Hrest).
  destruct it as [ds0 names rd rp ex sb en er]. cbn in *. subst.
  unfold internal_step. mrun. cbn [fst dirs_]. rewrite last_snoc.
  unfold world, upd, return_error. mrun. cbn [fst snd].
  inversion Hw as [p|p n es' st l' Hdot Hst Hw'|p n es' st m1 m2 Hd1 Hd2 Hnul Hst Hwk Hw']; subst.
  - destruct (fs_readdir_end _ _ _ Hopen Hds) as (w1 & -> & Hopen1). cbn.
    rewrite decide_False by (intros Hne; by apply Hne). cbn.
    destruct (fs_closedir _ _ _ _ Hopen1 Hds) as (w2 & -> & Hopen2). cbn.
    rewrite decide_False by (intros Hne; by apply Hne). cbn.
    unfold Prelude.update. cbn. rewrite removelast_last.
    destruct Hrest as [(-> & -> & -> & ->)|(names' & n & -> & Hp)].
    + rewrite decide_True by done. cbn. eexists _, _. split; [reflexivity|].
      cbn. split; [done|eauto].
    + pose proof (pending_lengths _ _ _ _ _ Hp) as Hlen.
      rewrite decide_False by (intros ->; cbn in Hlen; lia).
      rewrite bool_decide_true by (intros [_ [=]]%app_eq_nil). cbn. rewrite removelast_last.
      eexists _, _. split; [reflexivity|]. exists (delete d ds), k'. cbn. split; [|lia].
      split; try done. cbn. apply (pending_frame ds); [done|].
      intros x Hx. apply lookup_delete_ne. set_solver.
  - destruct (fs_readdir _ _ _ _ _ Hopen Hds) as (w1 & -> & Hopen1). cbn.
    rewrite decide_False by (intros Hne; by apply Hne). cbn. unfold Prelude.update. cbn.
    pose proof (not_nul_child _ _ Hn (dot_nul _ Hdot)) as Hnul.
    rewrite (c_str_full _ (child (partial_path names) n)); [|done|apply partial_path_snoc|done].
    destruct (fs_lstat (root ++ child (partial_path names) n) _ _ Hopen1) as (w2 & -> & Hopen2).
    rewrite Hst. cbn. rewrite decide_False by tauto. cbn. rewrite removelast_last.
    eexists _, _. split; [reflexivity|].
    exists (<[d := es']> ds), (Datatypes.S (length es') + k')%nat. cbn. split; [|lia].
    split; try done. cbn. by apply pending_pop.
  - destruct (fs_readdir _ _ _ _ _ Hopen Hds) as (w1 & -> & Hopen1). cbn.
    rewrite decide_False by (intros Hne; by apply Hne). cbn. unfold Prelude.update. cbn.
    pose proof (not_nul_child _ _ Hn Hnul) as Hnul'.
    rewrite (c_str_full _ (child (partial_path names) n)); [|done|apply partial_path_snoc|done].
    destruct (fs_lstat (root ++ child (partial_path names) n) _ _ Hopen1) as (w2 & -> & Hopen2).
    rewrite Hst. cbn. rewrite decide_True by done. cbn.
    eexists _, _. split; [reflexivity|].
    exists (<[d := es']> ds), (Datatypes.S (length es') + k')%nat. cbn. split; [|lia].
    split; try done. { apply partial_path_snoc. }
    right. cbn. exists names, n, m1, (m2 ++ l2).
    split_and!; [done..|by rewrite (assoc_L (++))|]. by apply pending_pop.
Qed.

Lemma loop_internal fuel it w ds l k :
  between it w ds l k → (k < fuel)%nat →
  ∃ s, loop fuel internal_step () (it, w) = Val ((), s) ∧
    internal_outcome l k (inr ()) s.
Proof.
  revert it w ds k. induction fuel as [|fuel IH]; intros it w ds k Hb Hk; [lia|].
  rewrite loop_S. destruct (internal_step_run _ _ _ _ _ Hb) as ([[]|[]] & s & -> & Ho).
  - cbn in Ho. destruct Ho as (ds' & k' & Hb' & Hk'). destruct s as [it' w']. cbn in Hb'.
    destruct (IH _ _ _ _ Hb' ltac:(lia)) as (s & -> & Ho). exists s. split; [done|].
    destruct l as [|[p st] l]; [done|]. cbn in *. destruct Ho as (ds2 & k2 & Ho & Hk2).
    exists ds2, k2. split; [done|lia].
  - eauto.
Qed.

(** With enough fuel the result does not depend on it. *)
Lemma IncrementInternal_run it w ds l k :
  between it w ds l k →
  ∃ s, (∀ fuel, (k < fuel)%nat → IncrementInternal fuel (it, w) = Val ((), s)) ∧
       internal_outcome l k (inr ()) s.
Proof.
  intros Hb. destruct (loop_internal (Datatypes.S k) _ _ _ _ _ Hb ltac:(lia)) as (s & Hrun & Ho).
  exists s. split; [|done]. intros fuel Hk. unfold IncrementInternal. mrun. cbn [fst].
  rewrite CHECK_true.
  - eapply loop_fuel_mono; [|exact Hrun]. lia.
  - apply Nat.eqb_eq. apply (pending_lengths _ _ _ _ _ (bt_pending _ _ _ _ _ Hb)).
Qed.

(** The steps a file and what is below it can take. *)
Inductive entry_cost : bytes → stat → nat → Prop :=
| cost_leaf p st : enters dev st = false → entry_cost p st 0
| cost_dir p st : enters dev st = true →
    entry_cost p st (Datatypes.S (length (fs_list (root ++ p)))).

(** From a file, [enter_dir] and the pop before [IncrementInternal]. *)
Lemma enter_dir_run it w ds p st l k :
  at_entry it w ds p st l k →
  ∃ e it' w' ds' k', enter_dir (it, w) = Val (Some e, (it', w')) ∧
    names_ it' = names_ it ∧
    ((e = false ∧ names_ it = [] ∧ it' = it ∧ l = [] ∧ dirs_ it = [] ∧ fs_open w' ds') ∨
     (¬ (e = false ∧ names_ it = []) ∧
      between (if e : bool then it' else it' <| names_ := removelast (names_ it') |>) w' ds' l k' ∧
      ∃ c, entry_cost p st c ∧ (k' = c + k)%nat)).
Proof.
  intros [Hopen Hroot Hdev Hexcl Hstat Hfs Hrun Hok Hpath Hnul Hrest].
  unfold enter_dir. mrun. cbn [fst].
  assert (S_ISDIR (st_mode (stbuf_ it)) && (st_dev (stbuf_ it) =? root_dev_ it) = enters dev st)
    as -> by (by rewrite Hstat, Hdev).
  destruct (enters dev st) eqn:Een.
  - assert (S_ISDIR (st_mode st) = true) as Hdir.
    { unfold enters in Een. by apply andb_true_iff in Een as [? _]. }
    unfold world. mrun. cbn [snd].
    rewrite (c_str_full it p) by done.
    destruct (fs_opendir _ _ _ _ Hopen Hfs Hdir) as (d & w1 & -> & Hd & Hopen1).
    unfold upd. mrun. cbn [fst snd].
    eexists true, _, w1, _, _. split; [reflexivity|]. split; [done|]. right.
    split; [naive_solver|].
    split; [|exists (Datatypes.S (length (fs_list (root ++ p)))); split; [by constructor|reflexivity]].
    destruct it as [dirs names rd rp ex sb en er]. unfold Prelude.update. cbn in *. subst.
    split; try done. cbn. by eapply pending_push.
  - destruct Hrest as [(Hd & Hn & Hw & ->)|(names & n & l1 & l2 & Hn & Hw & -> & Hp)].
    all: inversion Hw; subst; [|congruence].
    + eexists false, it, w, ds, 0%nat. split; [reflexivity|]. split; [done|]. left. done.
    + eexists false, it, w, ds, k. split; [reflexivity|]. split; [done|]. right. split.
      { rewrite Hn. intros [_ [_ [=]]%app_eq_nil]. }
      split; [|exists 0%nat; split; [by constructor|done]].
      destruct it as [dirs names0 rd rp ex sb en er]. unfold Prelude.update. cbn in *. subst.
      split; try done. cbn. by rewrite removelast_last.
Qed.

(** The files of [l] from the first one that is not excluded. *)
Fixpoint skip_excluded (l : list (bytes * stat)) : list (bytes * stat) :=
  match l with
  | [] => []
  | (p, st) :: l' => if excluded excl p then skip_excluded l' else l
  end.

Definition increment_outcome (l : list (bytes * stat)) (s : t * W) : Prop :=
  match l with
  | [] => at_end s.1 ∧ ∃ ds, fs_open s.2 ds
  | (p, st) :: l' => ∃ ds k, at_entry s.1 s.2 ds p st l' k
  end.

Context (Hexcl : ∀ prefix, prefix ∈ excl → prefix ≠ []).

Lemma excluded_root : excluded excl [] = false.
Proof.
  unfold excluded. apply not_true_is_false. intros (x & Hin%list_elem_of_In & Hx)%existsb_exists.
  apply Hexcl in Hin. unfold StringHasPrefix in Hx. destruct x; [done|]. by rewrite decide_True in Hx.
Qed.

(** [Increment] from a file goes to the next one that is not excluded. *)
Lemma Increment_run it w ds p st l k :
  at_entry it w ds p st l k →
  ∃ N s, (∀ fuel, (N ≤ fuel)%nat → Increment fuel (it, w) = Val ((), s)) ∧
         increment_outcome (skip_excluded l) s.
Proof.
  revert it w ds p st k. induction l as [l IH] using (induction_ltof1 _ length).
  intros it w ds p st k Hat.
  destruct (enter_dir_run _ _ _ _ _ _ _ Hat)
    as (e & it1 & w1 & ds1 & k1 & Hen & Hnames & [(-> & Hn & -> & -> & Hd & Hop)|(Hne & Hb & _)]).
  { exists 1%nat, (it <| is_end_ := true |>, w1). split.
    - intros [|fuel] Hf; [lia|]. cbn [Increment]. rewrite (bind_run _ _ _ _ _ Hen).
      cbn beta iota. mrun. rewrite decide_True by done. done.
    - destruct Hat. destruct it. unfold Prelude.update. cbn in *. eauto using at_end. }
  destruct (IncrementInternal_run _ _ _ _ _ Hb) as ([it2 w2] & Hrun & Ho).
  assert (∀ fuel s', (∀ f, f = fuel →
    (it ← gets fst; if excluded (excl_prefixes_ it) (GetPartialPath it)
                    then Increment f else mret ()) (it2, w2) = Val ((), s')) →
    (k1 < fuel)%nat → Increment (Datatypes.S fuel) (it, w) = Val ((), s')) as Hstep.
  { intros fuel s' Hrest Hf. cbn [Increment]. rewrite (bind_run _ _ _ _ _ Hen).
    cbn beta iota. mrun. cbn [fst]. rewrite Hnames. rewrite decide_False by done.
    specialize (Hrest fuel eq_refl). mrun_in Hrest.
    destruct e; unfold upd; mrun; cbn [fst snd]; rewrite Hrun by lia; exact Hrest. }
  destruct l as [|[p' st'] l'].
  - destruct Ho as [Hend Hop]. cbn [fst] in Hend. exists (k1 + 2)%nat, (it2, w2). split; [|done].
    intros [|fuel] Hf; [lia|]. apply Hstep; [|lia]. intros f ->. mrun. cbn [fst].
    rewrite (end_excl _ Hend). unfold GetPartialPath. rewrite (end_names _ Hend).
    change (partial_path []) with (@nil byte). by rewrite excluded_root.
  - destruct Ho as (ds' & k' & Hat' & Hk'). cbn in Hat'. cbn [skip_excluded].
    assert (excl_prefixes_ it2 = excl ∧ GetPartialPath it2 = p') as [He Hp'] by by destruct Hat'.
    destruct (excluded excl p') eqn:Ex.
    + destruct (IH l' ltac:(unfold ltof; cbn; lia) _ _ _ _ _ _ Hat') as (N & s & HN & Hs).
      exists (N + k1 + 2)%nat, s. split; [|done].
      intros [|fuel] Hf; [lia|]. apply Hstep; [|lia]. intros f ->. mrun. cbn [fst].
      rewrite He, Hp', Ex. apply HN. lia.
    + exists (k1 + 2)%nat, (it2, w2). split; [|cbn; eauto].
      intros [|fuel] Hf; [lia|]. apply Hstep; [|lia]. intros f ->. mrun. cbn [fst].
      by rewrite He, Hp', Ex.
Qed.
End facts.

(** ** A whole iteration: [for (; !iter.IsEnd(); iter.Increment())]. *)

Definition kept (excl : list bytes) (l : list (bytes * stat)) : list (bytes * stat) :=
  filter (fun e => excluded excl e.1 = false) l.

Fixpoint iterate {W} `{PosixFd W, PosixStat W, PosixDir W} (fuel : nat)
  : M (t * W) (list (bytes * stat)) :=
  match fuel with
  | O => fail OutOfFuel
  | S fuel' =>
      it ← gets fst;
      if IsEnd it then mret []
      else Increment fuel;;
           rest ← iterate fuel';
           mret ((GetPartialPath it, GetStat it) :: rest)
  end.

Lemma kept_skip excl l :
  kept excl l = match skip_excluded excl l with [] => [] | e :: l' => e :: kept excl l' end.
Proof.
  induction l as [|[p st] l IH]; [done|]. unfold kept in *. cbn [skip_excluded].
  rewrite filter_cons. destruct (excluded excl p) eqn:E.
  - rewrite decide_False by (cbn; congruence). done.
  - by rewrite decide_True.
Qed.

Lemma skip_length excl l e l' :
  skip_excluded excl l = e :: l' → (length l' < length l)%nat.
Proof.
  revert e l'. induction l as [|[p st] l IH]; intros e l'; cbn; [done|].
  destruct (excluded excl p); [intros H%IH; lia|]. intros [= <- <-]. lia.
Qed.

Lemma iterate_run {W} `{PosixFd W} `{StaticFs W} root dev excl it (w : W) ds p st l k :
  (∀ prefix, prefix ∈ excl → prefix ≠ []) →
  at_entry root dev excl it w ds p st l k →
  ∃ N s, (∀ fuel, (N ≤ fuel)%nat →
            iterate fuel (it, w) = Val ((p, st) :: kept excl l, s)) ∧ at_end excl s.1.
Proof.
  intros Hex. revert it w ds p st k. induction l as [l IH] using (induction_ltof1 _ length).
  intros it w ds p st k Hat.
  destruct (Increment_run root dev excl Hex _ _ _ _ _ _ _ Hat) as (N & [it' w'] & HN & Ho).
  assert (is_end_ it = false ∧ GetPartialPath it = p ∧ stbuf_ it = st) as (He & Hp & Hst)
    by by destruct Hat.
  rewrite kept_skip. destruct (skip_excluded excl l) as [|[p' st'] l'] eqn:Es; cbn in Ho.
  - destruct Ho as [Hend _]. cbn [fst] in Hend. exists (N + 2)%nat, (it', w'). split; [|done].
    intros [|[|fuel]] Hf; try lia. cbn [iterate]. mrun. cbn [fst]. unfold IsEnd, GetStat.
    rewrite He, HN, Hp, Hst by lia. cbn [fst]. by rewrite (end_flag _ _ Hend).
  - destruct Ho as (ds' & k' & Hat').
    destruct (IH l' ltac:(unfold ltof; by eapply skip_length) _ _ _ _ _ _ Hat') as (N' & s & HN' & Hs).
    exists (N + N' + 1)%nat, s. split; [|done].
    intros [|fuel] Hf; [lia|]. cbn [iterate]. mrun. cbn [fst]. unfold IsEnd, GetStat.
    rewrite He, HN, Hp, Hst by lia. by rewrite HN' by lia.
Qed.


(** ** A concrete file system *)
Module MemFs.
(** The open streams; the tree is fixed. *)
Record t := mkFs { streams : gmap Z (list bytes); next : Z }.
Definition dir : stat := mkStat 16877 0 1 0 2 0 0 0.
Definition reg : stat := mkStat 33188 5 1 0 1 0 0 0.
Definition stats : list (bytes * stat) :=
  [(str "/s", dir); (str "/s/.", dir); (str "/s/..", dir); (str "/s/a", dir);
   (str "/s/a/.", dir); (str "/s/a/..", dir); (str "/s/a/f", reg); (str "/s/b", reg)].
Definition stat_of (p : bytes) : option stat :=
  match list_find (fun e => e.1 = p) stats with Some (_, e) => Some e.2 | None => None end.
Definition list_of (p : bytes) : list bytes :=
  if decide (p = str "/s") then [str "."; str "a"; str ".."; str "b"]
  else if decide (p = str "/s/a") then [str "f"; str "."; str ".."] else [].

#[global] Instance fd : PosixFd t := {|
  sys_open _ _ _ w := (3, w); sys_read _ _ w := (None, w); sys_write _ _ w := (-1, w);
  sys_lseek _ _ w := (-1, w); sys_close _ w := (0, w); sys_errno _ := ENOENT
|}.
#[global] Instance stats_calls : PosixStat t := {|
  sys_stat p w := (stat_of p, w); sys_lstat p w := (stat_of p, w);
  sys_fstat _ w := (None, w); sys_fibmap _ _ w := (None, w)
|}.
#[global] Instance dirs : PosixDir t := {|
  sys_opendir p w := (Some (next w), mkFs (<[next w := list_of p]> (streams w)) (next w + 1));
  sys_readdir d w :=
    match streams w !! d with
    | Some (n :: es) => ((0, Some n), mkFs (<[d := es]> (streams w)) (next w))
    | _ => ((0, None), w)
    end;
  sys_closedir d w := (0, mkFs (delete d (streams w)) (next w));
  sys_unlink _ w := (-1, w); sys_rmdir _ w := (-1, w);
  sys_mount _ _ _ w := (0, w); sys_umount _ w := (0, w)
|}.
Definition start : t := mkFs ∅ 3.

#[global, refine] Instance laws : StaticFs t := {|
  fs_stat := stat_of; fs_list := list_of;
  fs_open w ds := streams w = ds ∧ ∀ d, next w ≤ d → ds !! d = None
|}.
Proof.
  - intros p w ds Hw. by exists w.
  - intros p st w ds [<- Hn] _ _. eexists (next w), _. split; [reflexivity|].
    split; [apply Hn; lia|]. cbn. split; [done|].
    intros d Hd. rewrite lookup_insert_ne by lia. apply Hn. lia.
  - intros d n es w ds [<- Hn] Hd. cbn. rewrite Hd. eexists. split; [reflexivity|]. cbn.
    split; [done|]. intros d' Hd'. rewrite lookup_insert_ne; [by apply Hn|].
    intros ->. rewrite Hn in Hd by done. done.
  - intros d w ds [<- Hn] Hd. cbn. rewrite Hd. by exists w.
  - intros d es w ds [<- Hn] Hd. cbn. eexists. split; [reflexivity|]. cbn.
    split; [done|]. intros d' Hd'. apply lookup_delete_None. right. by apply Hn.
Defined.
End MemFs.

Definition sample_excl : list bytes := [str "/b"].
Definition sample_tree : list (bytes * stat) :=
  [(str "/a", MemFs.dir); (str "/a/f", MemFs.reg); (str "/b", MemFs.reg)].

Lemma sample_walk : walk (W := MemFs.t) (str "/s") 1 [] MemFs.dir sample_tree.
Proof.
  apply walk_dir; [done|]. change (fs_list _) with [str "."; str "a"; str ".."; str "b"].
  eapply walks_dot; [by left|vm_compute; reflexivity|].
  apply (walks_entry _ _ [] (str "a") _ MemFs.dir [(str "/a/f", MemFs.reg)] [(str "/b", MemFs.reg)]);
    try (by apply (bool_decide_unpack _)); [vm_compute; reflexivity| |].
  - apply walk_dir; [done|]. change (fs_list _) with [str "f"; str "."; str ".."].
    apply (walks_entry _ _ (str "/a") (str "f") _ MemFs.reg [] []);
      try (by apply (bool_decide_unpack _)); [vm_compute; reflexivity|by apply walk_leaf|].
    eapply walks_dot; [by left|vm_compute; reflexivity|].
    eapply walks_dot; [by right|vm_compute; reflexivity|]. constructor.
  - eapply walks_dot; [by right|vm_compute; reflexivity|].
    apply (walks_entry _ _ [] (str "b") _ MemFs.reg [] []);
      try (by apply (bool_decide_unpack _)); [vm_compute; reflexivity|by apply walk_leaf|].
    constructor.
Qed.

