(* ===== verification/Actions.v ===== *)
(** * Actions and pipes: action_pipe.h, the pipe part of action.h, install_plan.h,
    ScopedActionCompleter of utils.h, and what an action may rely on.

    Pipes are shared objects: an action holds a pointer to its pipes, and the
    two ends of a pipe point at the same one.  There is one [store] per object
    type (the C++ is a template).  When the pipe dies is not modelled. *)

From S2P Require Import Prelude Posix ActionProcessor.

(** ** InstallPlan *)

Record InstallPlan := mkInstallPlan {
  is_full_update : bool;
  download_url : bytes;
  download_hash : bytes;
  install_path : bytes
}.
#[export] Instance eta_InstallPlan : Eta InstallPlan := fun r =>
  mkInstallPlan (is_full_update r) (download_url r) (download_hash r) (install_path r).
#[export] Instance InstallPlan_eq_dec : EqDecision InstallPlan.
Proof. solve_decision. Defined.
(** The default constructor. *)
Definition default_InstallPlan : InstallPlan := mkInstallPlan false [] [] [].
(** [operator==] and [operator!=], field by field. *)
Definition InstallPlan_eqb (a b : InstallPlan) : bool :=
  bool_decide (is_full_update a = is_full_update b) &&
  bool_decide (download_url a = download_url b) &&
  bool_decide (download_hash a = download_hash b) &&
  bool_decide (install_path a = install_path b).
Definition InstallPlan_neqb (a b : InstallPlan) : bool := negb (InstallPlan_eqb a b).
(** The line [Dump] logs. *)
Definition InstallPlan_Dump (p : InstallPlan) : bytes :=
  str "InstallPlan: " ++ (if is_full_update p then str "full_update" else str "delta_update") ++
  str ", url: " ++ download_url p ++ str ", hash: " ++ download_hash p ++
  str ", install_path: " ++ install_path p.

Lemma InstallPlan_eqb_spec a b : InstallPlan_eqb a b = bool_decide (a = b).
Proof.
  unfold InstallPlan_eqb. destruct a, b; cbn.
  repeat case_bool_decide; simplify_eq; try done; try (by destruct (decide False)).
  all: exfalso; eauto.
Qed.

(** ** Pipes *)

Section pipes.
Context {T : Type} (initial : T).

Abbreviation pipe := nat.

(** The contents of the pipes and the [in_pipe_] and [out_pipe_] pointers of
    the actions. *)
Record store := mkStore {
  contents_ : gmap pipe T;
  in_pipe_ : gmap aid pipe;
  out_pipe_ : gmap aid pipe
}.
#[export] Instance eta_store : Eta store := fun r => mkStore (contents_ r) (in_pipe_ r) (out_pipe_ r).

(** [ActionPipe::set_contents] and [contents]. *)
Definition set_contents (p : pipe) (x : T) : M store unit :=
  modify (fun s => s <| contents_ := <[p := x]> (contents_ s) |>).
Definition contents (p : pipe) : M store T :=
  c ← gets contents_; match c !! p with Some x => mret x | None => fail Undefined end.

Definition set_out_pipe (a : aid) (p : pipe) : M store unit :=
  modify (fun s => s <| out_pipe_ := <[a := p]> (out_pipe_ s) |>).
Definition set_in_pipe (a : aid) (p : pipe) : M store unit :=
  modify (fun s => s <| in_pipe_ := <[a := p]> (in_pipe_ s) |>).

(** [ActionPipe::Bond] (and [BondActions]): a new pipe, held by both actions. *)
Definition Bond (from to : aid) : M store unit :=
  p ← gets (fun s => fresh (dom (contents_ s)));
  modify (fun s => s <| contents_ := <[p := initial]> (contents_ s) |>);;
  set_out_pipe from p;;
  set_in_pipe to p.

Definition HasInputObject (a : aid) (s : store) : bool := bool_decide (is_Some (in_pipe_ s !! a)).
Definition HasOutputPipe (a : aid) (s : store) : bool := bool_decide (is_Some (out_pipe_ s !! a)).

Definition GetInputObject (a : aid) : M store T :=
  has ← gets (HasInputObject a);
  CHECK has;;
  p ← gets in_pipe_;
  match p !! a with Some p => contents p | None => fail Undefined end.

Definition SetOutputObject (a : aid) (out_obj : T) : M store unit :=
  has ← gets (HasOutputPipe a);
  CHECK has;;
  p ← gets out_pipe_;
  match p !! a with Some p => set_contents p out_obj | None => fail Undefined end.

Definition GetOutputObject (a : aid) : M store T :=
  has ← gets (HasOutputPipe a);
  CHECK has;;
  p ← gets out_pipe_;
  match p !! a with Some p => contents p | None => fail Undefined end.

Definition empty_store : store := mkStore ∅ ∅ ∅.

(** ** The abstract specification: who feeds whom *)

(** For every action with an input: the action whose output it reads, if that
    one has not been bonded to another since, and the object. *)
Abbreviation links := (gmap aid (option aid * T)).

(** [from] no longer feeds anyone. *)
Definition unlink (from : aid) (l : links) : links :=
  (fun e : option aid * T => if decide (e.1 = Some from) then (None, e.2) else e) <$> l.
Definition link (from to : aid) (l : links) : links :=
  <[to := (Some from, initial)]> (unlink from l).
Definition feed (from : aid) (x : T) (l : links) : links :=
  (fun e : option aid * T => if decide (e.1 = Some from) then (e.1, x) else e) <$> l.

Inductive op := OBond (from to : aid) | OSet (from : aid) (x : T).
Definition run_op (o : op) : M store unit :=
  match o with OBond f t => Bond f t | OSet f x => SetOutputObject f x end.
Definition run_ops (os : list op) : M store unit := for_each run_op os.
Definition abstract (o : op) (l : links) : links :=
  match o with OBond f t => link f t l | OSet f x => feed f x l end.

Definition abstract_all (os : list op) : links := foldl (fun l o => abstract o l) ∅ os.

(** The pointers and the links agree. *)
Record refines (s : store) (l : links) : Prop := {
  r_in a p : in_pipe_ s !! a = Some p → is_Some (contents_ s !! p);
  r_out a p : out_pipe_ s !! a = Some p → is_Some (contents_ s !! p);
  r_out_inj a b p : out_pipe_ s !! a = Some p → out_pipe_ s !! b = Some p → a = b;
  r_none t : in_pipe_ s !! t = None → l !! t = None;
  r_link t p x : in_pipe_ s !! t = Some p → contents_ s !! p = Some x →
    ∃ o, l !! t = Some (o, x) ∧ ∀ f, o = Some f ↔ out_pipe_ s !! f = Some p
}.

Lemma refines_empty : refines empty_store ∅.
Proof. by split; cbn; intros *; rewrite ?lookup_empty. Qed.

Definition bonded (from to : aid) (s : store) : store :=
  let p := fresh (dom (contents_ s)) in
  mkStore (<[p := initial]> (contents_ s)) (<[to := p]> (in_pipe_ s)) (<[from := p]> (out_pipe_ s)).

Lemma Bond_run from to s : Bond from to s = Val ((), bonded from to s).
Proof. done. Qed.

Lemma fresh_pipe (s : store) : contents_ s !! fresh (dom (contents_ s)) = None.
Proof. apply not_elem_of_dom, is_fresh. Qed.

Lemma refines_bond from to s l :
  refines s l → refines (bonded from to s) (link from to l).
Proof.
  intros [Hin Hout Hinj Hnone Hlink]. pose proof (fresh_pipe s) as Hfresh.
  unfold bonded. set (p := fresh (dom (contents_ s))) in *.
  assert (Hold : ∀ q, is_Some (contents_ s !! q) → q ≠ p) by (intros q [? ?] ->; congruence).
  split; cbn.
  - intros a q. rewrite !lookup_insert_Some, lookup_insert_is_Some. intros [[_ ->]|[_ Hq]]; eauto.
    destruct (decide (p = q)); eauto.
  - intros a q. rewrite !lookup_insert_Some, lookup_insert_is_Some. intros [[_ ->]|[_ Hq]]; eauto.
    destruct (decide (p = q)); eauto.
  - intros a b q. rewrite !lookup_insert_Some.
    intros [[-> <-]|[Ha Hqa]] [[<- Hb]|[Hb' Hqb]]; try done; eauto.
    + destruct (Hold p); eauto.
    + subst q. destruct (Hold p); eauto.
  - intros t [Ht Hn]%lookup_insert_None. unfold link, unlink.
    rewrite lookup_insert_ne, lookup_fmap, Hnone by done. done.
  - intros t q x. rewrite !lookup_insert_Some. unfold link, unlink.
    intros [[-> <-]|[Ht Hq]] Hx.
    + destruct Hx as [[_ <-]|[? _]]; [|done]. exists (Some from). rewrite lookup_insert_eq.
      split; [done|]. intros f. rewrite lookup_insert_Some. split.
      * intros [= <-]. by left.
      * intros [[-> _]|[_ Hf]]; [done|]. destruct (Hold p); eauto.
    + destruct Hx as [[Hpq _]|[Hpq Hx]]; [destruct (Hold q); eauto|].
      destruct (Hlink _ _ _ Hq Hx) as (o & Ho & Hiff).
      exists (if decide (o = Some from) then None else o).
      rewrite lookup_insert_ne, lookup_fmap, Ho by done. cbn. split.
      { by destruct (decide (o = Some from)). }
      intros f. rewrite lookup_insert_Some. destruct (decide (o = Some from)) as [->|Hne]; split.
      * done.
      * intros [[_ ->]|[Hf Hfq]]; [done|]. destruct Hf. apply Hiff in Hfq. congruence.
      * intros ->. right. split; [congruence|]. by apply Hiff.
      * intros [[_ ->]|[Hf Hfq]]; [done|]. by apply Hiff.
Qed.

Lemma SetOutputObject_run from x s s' l :
  refines s l → SetOutputObject from x s = Val ((), s') → refines s' (feed from x l).
Proof.
  intros [Hin Hout Hinj Hnone Hlink]. unfold SetOutputObject, HasOutputPipe, set_contents. mrun.
  destruct (out_pipe_ s !! from) as [p|] eqn:Hp.
  2:{ rewrite CHECK_false; [done|]. apply bool_decide_false. by intros [? ?]. }
  rewrite CHECK_true by (by apply bool_decide_true). cbn. rewrite Hp. intros [= <-].
  split; unfold Prelude.update; cbn.
  - intros a q Hq. rewrite lookup_insert_is_Some. destruct (decide (p = q)); eauto.
  - intros a q Hq. rewrite lookup_insert_is_Some. destruct (decide (p = q)); eauto.
  - done.
  - intros t Ht. unfold feed. by rewrite lookup_fmap, Hnone.
  - intros t q y Hq. unfold feed. rewrite lookup_fmap, lookup_insert_Some.
    intros [[-> ->]|[Hpq Hy]].
    + destruct (Hin _ _ Hq) as [z Hz]. destruct (Hlink _ _ _ Hq Hz) as (o & -> & Hiff).
      exists o. cbn. assert (o = Some from) as -> by (by apply Hiff).
      by rewrite decide_True.
    + destruct (Hlink _ _ _ Hq Hy) as (o & -> & Hiff). exists o. cbn.
      rewrite decide_False; [done|]. intros Ho. apply Hiff in Ho. congruence.
Qed.

Lemma run_op_refines o s s' l :
  refines s l → run_op o s = Val ((), s') → refines s' (abstract o l).
Proof.
  destruct o as [f t|f x]; cbn [run_op abstract]; intros Hr.
  - rewrite Bond_run. intros [= <-]. by apply refines_bond.
  - by apply SetOutputObject_run.
Qed.

Lemma run_ops_refines os s s' l :
  refines s l → run_ops os s = Val ((), s') → refines s' (foldl (fun l o => abstract o l) l os).
Proof.
  revert s l. induction os as [|o os IH]; intros s l Hr; cbn.
  - by intros [= <-].
  - intros H. apply bind_Val in H as ([] & s1 & H1 & H2).
    eapply IH; [|exact H2]. by eapply run_op_refines.
Qed.
End pipes.

(** C34. Pipes implement links between actions.  After any sequence of bonds and
    outputs that ran, an action has an input object exactly when it is linked,
    and reads the default object until its partner stores one, then what the
    partner stored last; an action that is bonded again stops feeding its
    former partner, which keeps the last object; nothing else is disturbed. *)
Theorem pipes_refine_links {T} (initial : T) os s :
  run_ops initial os empty_store = Val ((), s) →
  ∀ t, match abstract_all initial os !! t with
       | Some (_, x) => HasInputObject t s = true ∧ GetInputObject t s = Val (x, s)
       | None => HasInputObject t s = false ∧ GetInputObject t s = Fault CheckFailed
       end.
Proof.
  intros Hrun t.
  destruct (run_ops_refines initial _ _ _ _ refines_empty Hrun) as [Hin _ _ Hnone Hlink].
  change (foldl _ ∅ os) with (abstract_all initial os) in *.
  unfold GetInputObject, HasInputObject, contents. mrun.
  destruct (in_pipe_ s !! t) as [p|] eqn:Ht.
  - destruct (Hin _ _ Ht) as [x Hx]. destruct (Hlink _ _ _ Ht Hx) as (o & -> & _).
    rewrite bool_decide_true by done. cbn. rewrite Ht. by rewrite Hx.
  - by rewrite (Hnone _ Ht).
Qed.

(** Three actions: 1 feeds 2, is then bonded to 3. *)
Definition sample_ops : list (op (T := Z)) :=
  [OBond 1%nat 2%nat; OSet 1%nat 7; OBond 1%nat 3%nat; OSet 1%nat 8].
Definition sample_store : store (T := Z) :=
  match run_ops 0 sample_ops empty_store with Val (_, s) => s | Fault _ => empty_store end.

Lemma pipes_refine_links_witness :
  match abstract_all 0 sample_ops !! 2%nat with
  | Some (_, x) => HasInputObject 2 sample_store = true ∧
                   GetInputObject 2 sample_store = Val (x, sample_store)
  | None => HasInputObject 2 sample_store = false ∧
            GetInputObject 2 sample_store = Fault CheckFailed
  end.
Proof. refine (pipes_refine_links 0 sample_ops sample_store _ 2%nat). reflexivity. Defined.

(** ** What an action relies on

    [ActionHost W I O]: the world an action of input type [I] and output type
    [O] runs in: its pipes and its processor's [ActionComplete]. *)
Class ActionHost (W I O : Type) := {
  host_input : W → option I;
  host_has_output : W → bool;
  host_set_output : O → W → W;
  host_complete : bool → M W unit
}.

(** [GetInputObject] and [SetOutputObject] of the running action. *)
Definition get_input {W I O} `{ActionHost W I O} : M W I :=
  i ← gets host_input; match i with Some x => mret x | None => fail CheckFailed end.
Definition set_output {W I O} `{ActionHost W I O} (x : O) : M W unit :=
  has ← gets host_has_output; CHECK has;; modify (host_set_output x).

(** The pipes of the action as it sees them; system calls leave them alone. *)
Definition same_pipes {W I O} `{ActionHost W I O} (w w' : W) : Prop :=
  host_input w' = host_input w ∧ host_has_output w' = host_has_output w.
Class HostFrame (W I O : Type) `{PosixFd W, ActionHost W I O} := {
  frame_open p f m w : same_pipes w (sys_open p f m w).2;
  frame_read fd n w : same_pipes w (sys_read fd n w).2;
  frame_write fd bs w : same_pipes w (sys_write fd bs w).2;
  frame_close fd w : same_pipes w (sys_close fd w).2
}.

(** [ScopedActionCompleter]: the destructor calls [ActionComplete] with the last
    value given to [set_success], unless [set_should_complete(false)]. *)
Record completer := mkCompleter { success_ : bool; should_complete_ : bool }.
Definition new_completer : completer := mkCompleter false true.
Definition with_completer {W I O} `{ActionHost W I O} (m : M W completer) : M W unit :=
  c ← m; if should_complete_ c then host_complete (success_ c) else mret ().

(** ** A host: a world of the operating system with the pipes of one action and
    the result it reported. *)
Module Host.
Record t (W I O : Type) := mk {
  base : W;
  input : option I;
  output : option (option O);
  reported : list bool
}.
Arguments mk {W I O} _ _ _ _.
Arguments base {W I O} _.
Arguments input {W I O} _.
Arguments output {W I O} _.
Arguments reported {W I O} _.

Section host.
Context {W I O : Type}.
Definition lift {A} (f : W → A * W) (h : t W I O) : A * t W I O :=
  let '(a, w) := f (base h) in (a, mk w (input h) (output h) (reported h)).

#[global] Instance posix `{PosixFd W} : PosixFd (t W I O) := {|
  sys_open p f m := lift (sys_open p f m);
  sys_read fd n := lift (sys_read fd n);
  sys_write fd bs := lift (sys_write fd bs);
  sys_lseek fd o := lift (sys_lseek fd o);
  sys_close fd := lift (sys_close fd);
  sys_errno h := sys_errno (base h)
|}.

#[global] Instance action : ActionHost (t W I O) I O := {|
  host_input := input;
  host_has_output h := bool_decide (is_Some (output h));
  host_set_output x h := mk (base h) (input h) (Some (Some x)) (reported h);
  host_complete b := modify (fun h => mk (base h) (input h) (output h) (reported h ++ [b]))
|}.

#[global] Instance frame `{PosixFd W} : HostFrame (t W I O) I O.
Proof.
  split; intros; cbn; unfold lift, same_pipes;
    match goal with |- context [let '(_, _) := ?x in _] => by destruct x end.
Qed.

#[global, refine] Instance laws `{PosixFileLaws W} : PosixFileLaws (t W I O) := {|
  file_of fd h := file_of fd (base h);
  offset_of fd h := offset_of fd (base h)
|}.
Proof.
  all: cbn; unfold lift; intros *;
    match goal with |- context [let '(_, _) := ?x in _] => destruct x eqn:E end;
    intros [= <- <-]; cbn.
  - by eapply lseek_ok.
  - by eapply lseek_fail.
  - by eapply write_ok.
  - by eapply write_progress.
Defined.
End host.
End Host.
