(* ===== verification/Subprocess.v ===== *)
(** * Subprocess: subprocess.{h,cc}.

    glib is outside the repository: [Glib] spawns children and watches them.
    A callback is known by a number; running one is a hook on the whole state,
    so that it may call [Subprocess] again. *)

From S2P Require Import Prelude CppString.

(** [spawn_async argv]: the pid on success; [spawn_sync argv]: success and the
    exit status stored at [return_code] (kept when nothing is stored);
    [child_watch_add pid]: the tag of the new source. *)
Class Glib (W : Type) := {
  g_spawn_async : list bytes → W → option Z * W;
  g_spawn_sync : list bytes → Z → W → (bool * Z) * W;
  g_child_watch_add : Z → W → Z * W
}.

(** [SubprocessCallbackRecord]; [None] is a NULL callback. *)
Record callback_record := mkCallback { callback : option Z; callback_data : Z }.
#[export] Instance callback_record_eq_dec : EqDecision callback_record.
Proof. solve_decision. Defined.

(** A record that was just inserted by [operator[]]. *)
Definition null_record : callback_record := mkCallback None 0.

Record Subprocess (W : Type) := mkSubprocess {
  (** is there a [subprocess_singleton_] *)
  singleton : bool;
  callback_records_ : gmap Z callback_record;
  world : W
}.
Arguments mkSubprocess {W} _ _ _.
Arguments singleton {W} _.
Arguments callback_records_ {W} _.
Arguments world {W} _.
#[export] Instance eta_Subprocess W : Eta (Subprocess W) := fun r =>
  mkSubprocess (singleton r) (callback_records_ r) (world r).

Section subprocess.
Context {W : Type} `{Glib W}.

Definition on_world {A} (f : W → A * W) : M (Subprocess W) A :=
  zoom world (fun w s => s <| world := w |>) (extern f).
Definition upd_records (f : gmap Z callback_record → gmap Z callback_record)
  : M (Subprocess W) unit :=
  modify (fun s => s <| callback_records_ := f (callback_records_ s) |>).

(** [Subprocess::Init]. *)
Definition Init : M (Subprocess W) unit :=
  set ← gets singleton;
  CHECK (negb set);;
  modify (fun s => s <| singleton := true |> <| callback_records_ := ∅ |>).

(** [callback_records_[tag]]: inserts a null record when there is none. *)
Definition record_at (tag : Z) : M (Subprocess W) callback_record :=
  m ← gets callback_records_;
  match m !! i32 tag with
  | Some r => mret r
  | None => upd_records <[i32 tag := null_record]>;; mret null_record
  end.

Definition Exec (cmd : list bytes) (cb : option Z) (p : Z) : M (Subprocess W) Z :=
  child ← on_world (g_spawn_async (c_str <$> cmd));
  match child with
  | None => mret 0
  | Some child_pid =>
      tag ← on_world (g_child_watch_add child_pid);
      upd_records <[i32 tag := mkCallback cb p]>;;
      mret tag
  end.

(** [run_callback cb status data] calls the user's function. *)
Definition GChildExitedCallback (run_callback : Z → Z → Z → M (Subprocess W) unit)
    (status tag : Z) : M (Subprocess W) unit :=
  record ← record_at tag;
  match callback record with
  | Some cb => run_callback cb status (callback_data record)
  | None => mret ()
  end;;
  upd_records (delete (i32 tag)).

Definition CancelExec (tag : Z) : M (Subprocess W) unit :=
  record ← record_at tag;
  match callback record with
  | Some _ => upd_records <[i32 tag := mkCallback None (callback_data record)]>
  | None => mret ()
  end.

Definition SynchronousExec (cmd : list bytes) (return_code : Z) : W → (bool * Z) * W :=
  g_spawn_sync (c_str <$> cmd) return_code.

Definition SubprocessInFlight (s : Subprocess W) : bool :=
  existsb (fun e => bool_decide (is_Some (callback e.2))) (map_to_list (callback_records_ s)).
End subprocess.

(** ** The life of a subprocess *)

(** What happens to the singleton: a command is started and gets [tag], an
    execution is cancelled, a child exits. *)
Inductive happening :=
| Started (tag : Z) (cb : option Z) (data : Z)
| Cancelled (tag : Z)
| Exited (tag status : Z).

(** One callback: function, status, data. *)
Definition invocation : Type := Z * Z * Z.

(** glib with the tag of the next source, logging the callbacks. *)
Record watch := mkWatch { next_tag : Z; invoked : list invocation }.
#[export] Instance eta_watch : Eta watch := fun r => mkWatch (next_tag r) (invoked r).
#[export] Instance watch_glib : Glib watch := {|
  g_spawn_async _ w := (Some 1, w);
  g_spawn_sync _ rc w := ((true, 0), w);
  g_child_watch_add _ w := (next_tag w, w)
|}.
Definition log_callback (cb status data : Z) : M (Subprocess watch) unit :=
  modify (fun s => s <| world := (world s) <| invoked := invoked (world s) ++ [(cb, status, data)] |> |>).

Definition happen (h : happening) : M (Subprocess watch) unit :=
  match h with
  | Started tag cb data =>
      modify (fun s => s <| world := (world s) <| next_tag := tag |> |>);;
      _ ← Exec [] cb data; mret ()
  | Cancelled tag => CancelExec tag
  | Exited tag status => GChildExitedCallback log_callback status tag
  end.

Definition happen_all (hs : list happening) : M (Subprocess watch) unit := for_each happen hs.

(** glib's tags are positive and not reused; children exit once. *)
Fixpoint plausible (live : gset Z) (used : gset Z) (hs : list happening) : Prop :=
  match hs with
  | [] => True
  | Started tag _ _ :: hs' =>
      0 < tag < 2 ^ 31 ∧ tag ∉ used ∧ plausible ({[tag]} ∪ live) ({[tag]} ∪ used) hs'
  | Cancelled tag :: hs' => is_i32 tag ∧ plausible live used hs'
  | Exited tag _ :: hs' => tag ∈ live ∧ plausible (live ∖ {[tag]}) used hs'
  end.

(** The specification: the live executions and their (uncancelled) callbacks;
    an exit calls the callback of the execution, if it still has one. *)
Fixpoint expected (running : gmap Z callback_record) (hs : list happening)
  : gmap Z callback_record * list invocation :=
  match hs with
  | [] => (running, [])
  | Started tag cb data :: hs' => expected (<[tag := mkCallback cb data]> running) hs'
  | Cancelled tag :: hs' =>
      expected (alter (fun r => mkCallback None (callback_data r)) tag running) hs'
  | Exited tag status :: hs' =>
      let '(final, calls) := expected (delete tag running) hs' in
      (final,
       match running !! tag with
       | Some (mkCallback (Some cb) data) => (cb, status, data) :: calls
       | _ => calls
       end)
  end.

(** The records are the running executions plus null records left behind by
    cancelling tags that are not running. *)
Record tracks (s : Subprocess watch) (running : gmap Z callback_record)
    (live used : gset Z) : Prop := {
  t_live tag : tag ∈ live ↔ is_Some (running !! tag);
  t_used tag : tag ∈ live → tag ∈ used;
  t_range tag : tag ∈ used → 0 < tag < 2 ^ 31;
  t_running tag r : running !! tag = Some r → callback_records_ s !! tag = Some r;
  t_stale tag r : running !! tag = None → callback_records_ s !! tag = Some r → callback r = None
}.

Lemma i32_tag tag : 0 < tag < 2 ^ 31 → i32 tag = tag.
Proof. intros. apply i32_small. unfold is_i32. lia. Qed.

Lemma started_run tag cb data s running live used :
  tracks s running live used → 0 < tag < 2 ^ 31 → tag ∉ used →
  ∃ s', happen (Started tag cb data) s = Val ((), s') ∧
    tracks s' (<[tag := mkCallback cb data]> running) ({[tag]} ∪ live) ({[tag]} ∪ used) ∧
    invoked (world s') = invoked (world s).
Proof.
  intros [Hlive Hused Hrange Hrun Hstale] Htag Hnew. eexists. split; [reflexivity|].
  unfold Prelude.update. cbn. rewrite i32_tag by done. split; [|done]. split; cbn.
  - intros t. rewrite lookup_insert_is_Some, elem_of_union, elem_of_singleton, <-Hlive.
    destruct (decide (tag = t)); naive_solver.
  - set_solver.
  - intros t [->%elem_of_singleton|?]%elem_of_union; eauto.
  - intros t r. rewrite !lookup_insert_Some. naive_solver.
  - intros t r. rewrite lookup_insert_None, lookup_insert_Some. naive_solver.
Qed.

Lemma cancelled_run tag s running live used :
  tracks s running live used → is_i32 tag →
  ∃ s', happen (Cancelled tag) s = Val ((), s') ∧
    tracks s' (alter (fun r => mkCallback None (callback_data r)) tag running) live used ∧
    invoked (world s') = invoked (world s).
Proof.
  intros [Hlive Hused Hrange Hrun Hstale] Htag. cbn [happen].
  unfold CancelExec, record_at, upd_records. mrun. rewrite i32_small by done.
  assert (∀ m, (∀ t r, t ≠ tag → m !! t = Some r ↔ callback_records_ s !! t = Some r) →
     (∃ r0, m !! tag = Some r0 ∧ callback r0 = None ∧
            ∀ r, running !! tag = Some r → r0 = mkCallback None (callback_data r)) →
     tracks (s <| callback_records_ := m |>)
       (alter (fun r => mkCallback None (callback_data r)) tag running) live used) as Hdone.
  { intros m Hm (r0 & Hr0 & Hc & Hd). split; unfold Prelude.update; cbn; [|done|done| |].
    - intros t. rewrite lookup_alter_is_Some. apply Hlive.
    - intros t r. rewrite lookup_alter_Some. intros [(<- & r' & Hr & ->)|[Hne Hr]].
      + by rewrite Hr0, (Hd _ Hr).
      + apply Hm; [done|]. by apply Hrun.
    - intros t r. rewrite lookup_alter_None. intros Hn Ht.
      destruct (decide (t = tag)) as [->|Hne]; [congruence|].
      apply Hm in Ht; [|done]. eauto. }
  destruct (callback_records_ s !! tag) as [r|] eqn:Hr.
  - destruct r as [[cb|] data]; cbn.
    + eexists. split; [reflexivity|]. split; [|done]. apply Hdone.
      * intros t r Hne. by rewrite lookup_insert_ne.
      * exists (mkCallback None data). rewrite lookup_insert_eq. split_and!; [done..|].
        intros r Hrt. apply Hrun in Hrt. by simplify_eq.
    + eexists. split; [reflexivity|]. split; [|done].
      replace s with (s <| callback_records_ := callback_records_ s |>) by by destruct s.
      apply Hdone; [done|]. exists (mkCallback None data). split_and!; [done..|].
      intros r Hrt. apply Hrun in Hrt. by simplify_eq.
  - cbn. eexists. split; [reflexivity|]. split; [|done]. apply Hdone.
    + intros t r Hne. by rewrite lookup_insert_ne.
    + exists null_record. rewrite lookup_insert_eq. split_and!; [done..|].
      intros r Hrt. apply Hrun in Hrt. congruence.
Qed.

Lemma exited_run tag status s running live used :
  tracks s running live used → tag ∈ live →
  ∃ s', happen (Exited tag status) s = Val ((), s') ∧
    tracks s' (delete tag running) (live ∖ {[tag]}) used ∧
    invoked (world s') = invoked (world s) ++
      match running !! tag with
      | Some (mkCallback (Some cb) data) => [(cb, status, data)]
      | _ => []
      end.
Proof.
  intros [Hlive Hused Hrange Hrun Hstale] Htag. cbn [happen].
  unfold GChildExitedCallback, record_at, upd_records, log_callback. mrun.
  rewrite i32_tag by auto. destruct (proj1 (Hlive tag) Htag) as [r Hr].
  rewrite (Hrun _ _ Hr), Hr.
  assert (∀ w, tracks (mkSubprocess (singleton s) (delete tag (callback_records_ s)) w)
            (delete tag running) (live ∖ {[tag]}) used) as Hdone.
  { intros w. split; cbn.
    - intros t. rewrite lookup_delete_is_Some, <-Hlive. set_solver.
    - set_solver.
    - done.
    - intros t r'. rewrite !lookup_delete_Some. naive_solver.
    - intros t r'. rewrite lookup_delete_None, lookup_delete_Some. naive_solver. }
  destruct r as [[cb|] data]; cbn; unfold Prelude.update; cbn; eexists; (split; [reflexivity|]);
    cbn; (split; [apply Hdone|]); by rewrite ?app_nil_r.
Qed.

Lemma happen_all_run hs s running live used :
  tracks s running live used → plausible live used hs →
  ∃ s' live' used', happen_all hs s = Val ((), s') ∧
    tracks s' (expected running hs).1 live' used' ∧
    invoked (world s') = invoked (world s) ++ (expected running hs).2.
Proof.
  revert s running live used. induction hs as [|h hs IH]; intros s running live used Ht Hp.
  { exists s, live, used. split; [done|]. cbn. by rewrite app_nil_r. }
  destruct h as [tag cb data|tag|tag status]; cbn [plausible expected] in *.
  - destruct Hp as (Htag & Hnew & Hp).
    destruct (started_run _ cb data _ _ _ _ Ht Htag Hnew) as (s1 & Hrun & Ht1 & <-).
    destruct (IH _ _ _ _ Ht1 Hp) as (s' & live' & used' & Hrun' & ?).
    exists s', live', used'. unfold happen_all. cbn [for_each].
    by rewrite (bind_run _ _ _ _ _ Hrun).
  - destruct Hp as (Htag & Hp).
    destruct (cancelled_run _ _ _ _ _ Ht Htag) as (s1 & Hrun & Ht1 & <-).
    destruct (IH _ _ _ _ Ht1 Hp) as (s' & live' & used' & Hrun' & ?).
    exists s', live', used'. unfold happen_all. cbn [for_each].
    by rewrite (bind_run _ _ _ _ _ Hrun).
  - destruct Hp as (Htag & Hp).
    destruct (exited_run _ status _ _ _ _ Ht Htag) as (s1 & Hrun & Ht1 & Hinv).
    destruct (IH _ _ _ _ Ht1 Hp) as (s' & live' & used' & Hrun' & Ht' & Hinv').
    exists s', live', used'. unfold happen_all. cbn [for_each].
    rewrite (bind_run _ _ _ _ _ Hrun). split; [done|].
    destruct (expected (delete tag running) hs) as [final calls]. cbn in *.
    split; [done|]. rewrite Hinv', Hinv, <-(assoc_L (++)). f_equal.
    by destruct (running !! tag) as [[[cb|] data]|].
Qed.

Definition idle : Subprocess watch := mkSubprocess true ∅ (mkWatch 1 []).

Lemma tracks_idle : tracks idle ∅ ∅ ∅.
Proof.
  split; cbn; intros *; rewrite ?lookup_empty; try done; set_solver.
Qed.

(** C26. For every history of starts, cancellations and exits (glib never reusing
    a tag, a child exiting once), the callbacks that are called are those of
    the executions that exit without having been cancelled, once each, in exit
    order, with the child's status and the data given to [Exec]; and a
    subprocess is in flight exactly when some execution that has not exited
    still has its callback. *)
Theorem Subprocess_calls_back_once hs :
  plausible ∅ ∅ hs →
  ∃ s', happen_all hs idle = Val ((), s') ∧
    invoked (world s') = (expected ∅ hs).2 ∧
    (SubprocessInFlight s' = true ↔
     ∃ tag r, (expected ∅ hs).1 !! tag = Some r ∧ is_Some (callback r)).
Proof.
  intros Hp.
  destruct (happen_all_run hs idle ∅ ∅ ∅ tracks_idle Hp) as (s' & live & used & Hrun & Ht & Hinv).
  exists s'. split; [done|]. split; [done|]. unfold SubprocessInFlight.
  destruct Ht as [_ _ _ Hr Hstale]. rewrite existsb_exists. split.
  - intros ([tag r] & Hin%list_elem_of_In%elem_of_map_to_list & Hc). cbn in Hc.
    apply bool_decide_eq_true in Hc. exists tag, r. split; [|done].
    destruct ((expected ∅ hs).1 !! tag) as [r'|] eqn:E.
    + apply Hr in E. congruence.
    + rewrite (Hstale _ _ E Hin) in Hc. by destruct Hc.
  - intros (tag & r & Hin & Hc). exists (tag, r). split; [|by apply bool_decide_eq_true].
    apply list_elem_of_In, elem_of_map_to_list. by apply Hr.
Qed.

Definition sample_history : list happening :=
  [Started 4 (Some 1) 10; Started 5 (Some 2) 20; Cancelled 5; Cancelled 9; Exited 5 0; Exited 4 1].

Lemma sample_plausible : plausible ∅ ∅ sample_history.
Proof. cbn. unfold is_i32. repeat split; try lia; set_solver. Qed.

Lemma Subprocess_calls_back_once_witness :
  ∃ s', happen_all sample_history idle = Val ((), s') ∧
    invoked (world s') = (expected ∅ sample_history).2 ∧
    (SubprocessInFlight s' = true ↔
     ∃ tag r, (expected ∅ sample_history).1 !! tag = Some r ∧ is_Some (callback r)).
Proof. refine (Subprocess_calls_back_once sample_history sample_plausible). Defined.

Example sample_invocations : (expected ∅ sample_history).2 = [(1, 1, 10)].
Proof. reflexivity. Qed.
