(* ===== verification/BootActions.v ===== *)
(** * SetBootableFlagAction and PostinstallRunnerAction:
    set_bootable_flag_action.{h,cc}, postinstall_runner_action.{h,cc}.

    Both take a device name as input object and give it on as output object;
    [ActionHost] is what they rely on. *)

From S2P Require Import Prelude CppString Posix Extents FileWriter Utils ActionProcessor Actions.

(** [system()]: runs a shell command. *)
Class Shell (W : Type) := { sys_system : bytes → W → Z * W }.

Module SetBootableFlagAction.
Section action.
Context {W : Type} `{PosixFd W} `{ActionHost W bytes bytes}.

Definition mbr_size : Z := 512.

(** [ReadMbr]: the buffer on success. *)
Definition ReadMbr (buffer_len : Z) (device : bytes) : M W (option bytes) :=
  fd ← extern (sys_open (c_str device) O_RDONLY 0);
  if fd <? 0 then mret None
  else
    r ← extern (sys_read fd buffer_len);
    _ ← extern (sys_close fd);
    match r with
    | Some buffer => if decide (zlen buffer = buffer_len) then mret (Some buffer) else mret None
    | None => mret None
    end.

(** The loop of [WriteMbr]; every iteration writes at least one byte. *)
Definition write_loop (fd : Z) (buffer : bytes) : M W bool :=
  loop (S (length buffer)) (fun bytes_written =>
    if bytes_written <? zlen buffer then
      r ← extern (sys_write fd (drop (Z.to_nat bytes_written) buffer));
      if r <? 0 then mret (inr false) else mret (inl (ssize (bytes_written + r)))
    else mret (inr (bytes_written =? zlen buffer))) 0.

Definition WriteMbr (buffer device : bytes) : M W bool :=
  fd ← extern (sys_open (c_str device) O_WRONLY 438);
  if fd <? 0 then mret false
  else
    ok ← write_loop fd buffer;
    _ ← extern (sys_close fd);
    mret ok.

(** [for (int i = 0; i < 4; i++)]: the bootable flags of the partition table. *)
Fixpoint set_flags (n : nat) (i partition_number : Z) (mbr : bytes) : bytes :=
  match n with
  | O => mbr
  | S n' =>
      let offset := 446 + 16 * i in
      set_flags n' (i + 1) partition_number
        (<[Z.to_nat offset := if decide (i + 1 = partition_number) then x80 else x00]> mbr)
  end.

(** The partition number the last character gives, if it names one. *)
Definition partition_of (last_char : byte) : option Z :=
  if decide (byte_val last_char < 49 ∨ 52 < byte_val last_char) then None
  else Some (byte_val last_char - 48).

Definition is_digit (c : byte) : bool := bool_decide (48 ≤ byte_val c ≤ 57).

(** [PerformAction]. *)
Definition PerformAction : M W unit :=
  with_completer (I := bytes) (O := bytes) (
    inp ← gets host_input;
    match inp with
    | None => mret new_completer
    | Some device =>
        if decide (device = []) then mret new_completer
        else if decide (zlen device < 2) then mret new_completer
        else
          match device !! Z.to_nat (zlen device - 1), device !! Z.to_nat (zlen device - 2) with
          | Some last_char, Some second_to_last_char =>
              match partition_of last_char with
              | None => mret new_completer
              | Some partition_number =>
                  if is_digit second_to_last_char then mret new_completer
                  else
                    let disk := resize device (zlen device - 1) in
                    r ← ReadMbr mbr_size disk;
                    match r with
                    | None => mret new_completer
                    | Some mbr =>
                        if decide (mbr !! 510%nat ≠ Some x55 ∨ mbr !! 511%nat ≠ Some xaa)
                        then mret new_completer
                        else
                          success ← WriteMbr (set_flags 4 0 partition_number mbr) disk;
                          if success : bool then
                            has ← gets host_has_output;
                            (if has : bool then
                               obj ← get_input; set_output (I := bytes) obj
                             else mret ());;
                            mret (mkCompleter true true)
                          else mret new_completer
                    end
              end
          | _, _ => fail Undefined
          end
    end).
End action.
End SetBootableFlagAction.

Module PostinstallRunnerAction.
Definition kMountPath : bytes := kStatefulPartition ++ str "/au_destination".
Definition kPostinstallScript : bytes := str "/postinst".

Section action.
Context {W : Type} `{PosixDir W, Shell W} `{ActionHost W bytes bytes}.

Definition PerformAction : M W unit :=
  install_device ← get_input;
  rc ← extern (sys_mount (c_str install_device) kMountPath (str "ext3"));
  if rc <? 0 then host_complete (I := bytes) (O := bytes) false
  else
    rc ← extern (sys_system (c_str (kMountPath ++ kPostinstallScript ++ str " " ++ install_device)));
    let success := rc =? 0 in
    _ ← extern (sys_umount kMountPath);
    has ← gets host_has_output;
    (if success && has then set_output (I := bytes) install_device else mret ());;
    host_complete (I := bytes) (O := bytes) success.
End action.
End PostinstallRunnerAction.

(** ** The partition table *)

Import SetBootableFlagAction.

(** Offset of the bootable flag of partition [n], counted from 1. *)
Definition flag_offset (n : Z) : nat := Z.to_nat (446 + 16 * (n - 1)).

Lemma set_flags_length n i p mbr : length (set_flags n i p mbr) = length mbr.
Proof.
  revert i mbr. induction n as [|n IH]; intros i mbr; [done|]. cbn [set_flags].
  by rewrite IH, length_insert.
Qed.

(** Where [set_flags n i] writes. *)
Definition flag_positions (n : nat) (i : Z) : list nat :=
  (fun k => Z.to_nat (446 + 16 * k)) <$> seqZ i (Z.of_nat n).

Lemma elem_of_flag_positions n i j :
  j ∈ flag_positions n i ↔ ∃ k, i ≤ k < i + Z.of_nat n ∧ j = Z.to_nat (446 + 16 * k).
Proof.
  unfold flag_positions. rewrite list_elem_of_fmap. setoid_rewrite elem_of_seqZ. naive_solver.
Qed.

Lemma set_flags_lookup n i p mbr j :
  0 ≤ i → length mbr = 512%nat → i + Z.of_nat n ≤ 4 → 1 ≤ p ≤ 4 →
  set_flags n i p mbr !! j =
  if decide (j ∈ flag_positions n i)
  then Some (if decide (j = flag_offset p) then x80 else x00) else mbr !! j.
Proof.
  revert i mbr. induction n as [|n IH]; intros i mbr Hi Hlen Hle Hp.
  - rewrite decide_False; [done|]. rewrite elem_of_flag_positions. intros (k & Hk & _). lia.
  - cbn [set_flags]. rewrite IH by (rewrite ?length_insert; lia).
    destruct (decide (j ∈ flag_positions (Datatypes.S n) i)) as [Hk|Hk];
      destruct (decide (j ∈ flag_positions n (i + 1))) as [Hk'|Hk'];
      rewrite elem_of_flag_positions in Hk, Hk'; try done.
    + destruct Hk as (k & Hk & ->). destruct (decide (k = i)) as [->|Hki].
      2:{ destruct Hk'. exists k. split; [lia|done]. }
      rewrite list_lookup_insert_eq by lia. f_equal. unfold flag_offset.
      destruct (decide (i + 1 = p)), (decide (Z.to_nat (446 + 16 * i) = Z.to_nat (446 + 16 * (p - 1))));
        try done; lia.
    + destruct Hk. destruct Hk' as (k & Hk & ->). exists k. split; [lia|done].
    + apply list_lookup_insert_ne. intros <-. apply Hk. exists i. split; [lia|done].
Qed.

(** The table with partition [p], and no other, marked bootable. *)
Record only_bootable (p : Z) (mbr mbr' : bytes) : Prop := {
  ob_length : length mbr' = length mbr;
  ob_set : mbr' !! flag_offset p = Some x80;
  ob_clear q : 1 ≤ q ≤ 4 → q ≠ p → mbr' !! flag_offset q = Some x00;
  ob_rest j : (∀ q, 1 ≤ q ≤ 4 → j ≠ flag_offset q) → mbr' !! j = mbr !! j
}.

Lemma set_flags_only_bootable p mbr :
  1 ≤ p ≤ 4 → length mbr = 512%nat → only_bootable p mbr (set_flags 4 0 p mbr).
Proof.
  intros Hp Hlen. split.
  - apply set_flags_length.
  - rewrite set_flags_lookup by lia. rewrite decide_True; [by rewrite decide_True|].
    rewrite elem_of_flag_positions. exists (p - 1). unfold flag_offset. split; [lia|done].
  - intros q Hq Hne. rewrite set_flags_lookup by lia. rewrite decide_True.
    + rewrite decide_False; [done|]. unfold flag_offset. lia.
    + rewrite elem_of_flag_positions. exists (q - 1). unfold flag_offset. split; [lia|done].
  - intros j Hj. rewrite set_flags_lookup by lia. rewrite decide_False; [done|].
    rewrite elem_of_flag_positions. intros (k & Hk & ->). apply (Hj (k + 1)); [lia|].
    unfold flag_offset. f_equal. lia.
Qed.

Section facts.
Context {W : Type} `{PosixFileLaws W} `{ActionHost W bytes bytes}.

Lemma write_loop_run (P : W → Prop) fd buf (w : W) :
  zlen buf < 2 ^ 31 → (∀ bs w, P w → P (sys_write fd bs w).2) → P w →
  ∃ ok w', write_loop fd buf w = Val (ok, w') ∧ P w' ∧
    (ok = true → written fd buf w (zlen buf) w') ∧
    (ok = false → ∃ n w1, written fd buf w n w1 ∧ (sys_write fd (drop (Z.to_nat n) buf) w1).1 < 0).
Proof.
  intros Hlen HP Hw0. unfold write_loop.
  apply (loop_total (fun bw w1 => P w1 ∧ written fd buf w bw w1)
    (fun ok w' => P w' ∧ (ok = true → written fd buf w (zlen buf) w') ∧
       (ok = false → ∃ n w1, written fd buf w n w1 ∧
                             (sys_write fd (drop (Z.to_nat n) buf) w1).1 < 0))
    (fun bw _ => Z.to_nat (zlen buf - bw))).
  - intros bw w1 [HP1 Hw]. pose proof Hw as (Hbw & _).
    destruct (Z.ltb_spec bw (zlen buf)) as [Hlt|Hge]; mrun.
    + pose proof (HP (drop (Z.to_nat bw) buf) w1 HP1) as HP2.
      destruct (sys_write fd (drop (Z.to_nat bw) buf) w1) as [r w2] eqn:E. cbn in HP2.
      destruct (Z.ltb_spec r 0) as [Hr|Hr].
      { eexists _, _. split; [reflexivity|]. split; [done|]. split; [done|]. intros _.
        exists bw, w1. by rewrite E. }
      destruct (written_step _ _ _ _ _ _ _ Hw Hlt E Hr) as [Hw2 Hpos].
      pose proof Hw2 as (Hbw2 & _). eexists _, _. split; [reflexivity|]. cbn.
      rewrite i32_small by (unfold is_i32; lia). split; [done|lia].
    + eexists _, _. split; [reflexivity|]. replace bw with (zlen buf) in * by lia.
      rewrite Z.eqb_refl. by split.
  - split; [done|]. apply written_init.
  - unfold zlen. lia.
Qed.
End facts.

(** [SetBootableFlagAction] on the device of a partition [p] of 1 to 4, when
    the disk can be read and written and carries the MBR signature: the first
    512 bytes of the disk become its boot record with partition [p] marked
    bootable, the three others not, and every other byte of the record and of
    the disk as it was; the device name is passed on and the action succeeds. *)
Theorem SetBootableFlagAction_sets_one_flag {W} `{PosixFileLaws W} `{!ActionHost W bytes bytes}
    `{!HostFrame W bytes bytes} disk c d (w w1 w2 w3 w4 : W) fd1 rc1 fd2 mbr :
  host_input w = Some (disk ++ [c; d]) → host_has_output w = true →
  is_digit c = false → 49 ≤ byte_val d ≤ 52 →
  sys_open (c_str (disk ++ [c])) O_RDONLY 0 w = (fd1, w1) → 0 ≤ fd1 →
  sys_read fd1 512 w1 = (Some mbr, w2) → sys_close fd1 w2 = (rc1, w3) →
  zlen mbr = 512 → mbr !! 510%nat = Some x55 → mbr !! 511%nat = Some xaa →
  sys_open (c_str (disk ++ [c])) O_WRONLY 438 w3 = (fd2, w4) → 0 ≤ fd2 → offset_of fd2 w4 = 0 →
  (∀ bs w, 0 ≤ (sys_write fd2 bs w).1) →
  ∃ mbr' w5, only_bootable (byte_val d - 48) mbr mbr' ∧
    (∀ i, file_of fd2 w5 i = store_at 0 mbr' (file_of fd2 w4) i) ∧
    PerformAction w =
      host_complete true (host_set_output (disk ++ [c; d]) (sys_close fd2 w5).2).
Proof.
  intros Hin Hout Hc Hd Ho1 Hfd1 Hr1 Hcl1 Hlen H510 H511 Ho2 Hfd2 Hoff Hok.
  set (p := byte_val d - 48). set (mbr' := set_flags 4 0 p mbr).
  assert (zlen mbr' = 512) as Hlen'.
  { unfold mbr', zlen in *. by rewrite set_flags_length. }
  assert (same_pipes w w4) as Hw4.
  { pose proof (frame_open (c_str (disk ++ [c])) O_RDONLY 0 w) as F1. rewrite Ho1 in F1.
    pose proof (frame_read fd1 512 w1) as F2. rewrite Hr1 in F2.
    pose proof (frame_close fd1 w2) as F3. rewrite Hcl1 in F3.
    pose proof (frame_open (c_str (disk ++ [c])) O_WRONLY 438 w3) as F4. rewrite Ho2 in F4.
    unfold same_pipes in *. cbn in *. intuition congruence. }
  destruct (write_loop_run (same_pipes w) fd2 mbr' w4 ltac:(lia)) as (ok & w5 & Hw & Hw5 & Htrue & Hfalse);
    [|done|].
  { intros bs u Hu. pose proof (frame_write fd2 bs u). unfold same_pipes in *. intuition congruence. }
  destruct ok.
  2:{ exfalso. destruct (Hfalse eq_refl) as (n & u & _ & Hs).
      specialize (Hok (drop (Z.to_nat n) mbr') u). lia. }
  destruct (written_all _ _ _ _ (Htrue eq_refl)) as [_ Hfile]. rewrite Hoff in Hfile.
  exists mbr', w5. split; [|split; [done|]].
  { apply set_flags_only_bootable; unfold p, zlen in *; lia. }
  pose proof (frame_close fd2 w5) as F5. destruct (sys_close fd2 w5) as [rc2 w6] eqn:Hcl2.
  assert (host_input w6 = Some (disk ++ [c; d]) ∧ host_has_output w6 = true) as [Hin6 Hout6].
  { unfold same_pipes in *. cbn in *. intuition congruence. }
  assert (Hz : zlen (disk ++ [c; d]) = zlen disk + 2) by by rewrite zlen_app.
  pose proof (zlen_nonneg disk).
  unfold PerformAction, with_completer. mrun. rewrite Hin.
  rewrite decide_False by (intros [_ [=]]%app_eq_nil). rewrite decide_False by lia.
  replace (Z.to_nat (zlen (disk ++ [c; d]) - 1)) with (length disk + 1)%nat by (unfold zlen in *; lia).
  replace (Z.to_nat (zlen (disk ++ [c; d]) - 2)) with (length disk + 0)%nat by (unfold zlen in *; lia).
  rewrite !lookup_app_r by lia.
  replace (length disk + 1 - length disk)%nat with 1%nat by lia.
  replace (length disk + 0 - length disk)%nat with 0%nat by lia. cbn [lookup list_lookup].
  unfold partition_of. rewrite decide_False by lia. rewrite Hc.
  rewrite resize_take by lia.
  replace (take (Z.to_nat (zlen (disk ++ [c; d]) - 1)) (disk ++ [c; d])) with (disk ++ [c]).
  2:{ replace (Z.to_nat _) with (length disk + 1)%nat by (unfold zlen in *; lia).
      by rewrite take_app_add. }
  unfold ReadMbr, WriteMbr, mbr_size. mrun. rewrite Ho1.
  destruct (Z.ltb_spec fd1 0); [lia|]. rewrite Hr1, Hcl1. rewrite decide_True by done.
  rewrite decide_False by (rewrite H510, H511; naive_solver).
  rewrite Ho2. destruct (Z.ltb_spec fd2 0); [lia|].
  change (set_flags 4 0 (byte_val d - 48) mbr) with mbr'. rewrite Hw, Hcl2, Hout6.
  unfold get_input, set_output. mrun. rewrite Hin6, Hout6. done.
Qed.

(** A disk with a boot record whose third partition is bootable. *)
Definition sample_mbr : bytes :=
  (fun i => if decide (i = 510) then x55 else if decide (i = 511) then xaa
            else if decide (i = 478) then x80 else x00) <$> seqZ 0 512.
Definition sample_disk : Host.t MemFile.t bytes bytes :=
  Host.mk (MemFile.mk (fun i => default x00 (sample_mbr !! Z.to_nat i)) 0 100)
    (Some (str "/dev/sda2")) (Some None) [].

(** Reading the sample disk gives the sample record. *)
Lemma sample_read :
  sys_read 3 512 sample_disk = (Some sample_mbr, sample_disk).
Proof. vm_compute. reflexivity. Qed.

Lemma SetBootableFlagAction_sets_one_flag_witness :
  ∃ mbr' w5, only_bootable (byte_val x32 - 48) sample_mbr mbr' ∧
    (∀ i, file_of 3 w5 i = store_at 0 mbr' (file_of 3 sample_disk) i) ∧
    PerformAction sample_disk =
      host_complete true (host_set_output (str "/dev/sd" ++ [x61; x32]) (sys_close 3 w5).2).
Proof.
  refine (SetBootableFlagAction_sets_one_flag (str "/dev/sd") x61 x32 sample_disk sample_disk
            sample_disk sample_disk sample_disk 3 0 3 sample_mbr
            _ _ _ _ _ _ sample_read _ _ _ _ _ _ _ _).
  - reflexivity.
  - reflexivity.
  - by apply (bool_decide_unpack _).
  - vm_compute. split; discriminate.
  - reflexivity.
  - lia.
  - reflexivity.
  - vm_compute. reflexivity.
  - vm_compute. reflexivity.
  - vm_compute. reflexivity.
  - reflexivity.
  - lia.
  - reflexivity.
  - intros bs w. cbn. unfold MemFile.count. pose proof (zlen_nonneg bs). lia.
Defined.

(** What [SetBootableFlagAction] refuses without opening anything: a missing or
    short device name, a last character that is not 1 to 4, or a partition
    number of more than one digit. *)
Theorem SetBootableFlagAction_rejects {W} `{PosixFd W} `{ActionHost W bytes bytes} (w : W) :
  match host_input w with
  | None => True
  | Some device =>
      zlen device < 2 ∨
      (∃ a d, device = a ++ [d] ∧ ¬ 49 ≤ byte_val d ≤ 52) ∨
      (∃ a c d, device = a ++ [c; d] ∧ is_digit c = true)
  end →
  PerformAction w = host_complete false w.
Proof.
  intros Hin. unfold PerformAction, with_completer. mrun.
  destruct (host_input w) as [device|]; [|done].
  destruct (decide (device = [])) as [|Hne]; [done|].
  destruct (decide (zlen device < 2)) as [|Hlen]; [done|].
  destruct Hin as [?|[(a & d & -> & Hd)|(a & c & d & -> & Hc)]]; [lia| |].
  - rewrite zlen_app, zlen_one.
    replace (Z.to_nat (zlen a + 1 - 1)) with (length a + 0)%nat by (unfold zlen; lia).
    rewrite (lookup_app_r a [d] (length a + 0)) by lia.
    replace (length a + 0 - length a)%nat with 0%nat by lia. cbn [lookup list_lookup].
    destruct ((a ++ [d]) !! Z.to_nat (zlen a + 1 - 2)) as [c|] eqn:E.
    + unfold partition_of. rewrite decide_True by lia. done.
    + apply lookup_ge_None in E. rewrite zlen_app, zlen_one in Hlen. rewrite length_app in E.
      unfold zlen in *. cbn in E. lia.
  - assert (Hz : zlen (a ++ [c; d]) = zlen a + 2) by by rewrite zlen_app.
    replace (Z.to_nat (zlen (a ++ [c; d]) - 1)) with (length a + 1)%nat by (unfold zlen in *; lia).
    replace (Z.to_nat (zlen (a ++ [c; d]) - 2)) with (length a + 0)%nat by (unfold zlen in *; lia).
    rewrite !lookup_app_r by lia.
    replace (length a + 1 - length a)%nat with 1%nat by lia.
    replace (length a + 0 - length a)%nat with 0%nat by lia. cbn [lookup list_lookup].
    destruct (partition_of d); [|done]. by rewrite Hc.
Qed.
