(* ===== verification/Copier.v ===== *)
(** * FilesystemCopierAction: filesystem_copier_action.{h,cc}.

    [PerformAction] and [CollectThread] run on the main loop,
    [HelperThreadMain] on the helper thread in between; the main thread only
    waits for it, so the three are run one after the other on one state. *)

From S2P Require Import Prelude CppString Posix Extents FileWriter Utils FsIterator ActionProcessor Actions Subprocess.

(** Calls that make files of every kind. *)
Class PosixNodes (W : Type) := {
  sys_mkdtemp : bytes → W → option bytes * W;
  sys_mkdir : bytes → Z → W → Z * W;
  sys_link : bytes → bytes → W → Z * W;
  sys_readlink : bytes → Z → W → option bytes * W;
  sys_symlink : bytes → bytes → W → Z * W;
  sys_mknod : bytes → Z → Z → W → Z * W;
  sys_chmod : bytes → Z → W → Z * W;
  sys_lchown : bytes → Z → Z → W → Z * W
}.

(** The helper thread: not started, to be run, ended with a success flag. *)
Inductive thread := NoThread | Spawned | Finished (success : bool).

Module FilesystemCopierAction.
Definition kMountpointTemplate : bytes := str "/tmp/au_dest_mnt.XXXXXX".
Definition kCopyFileBufferSize : Z := 4 * 1024 * 1024.
Definition kCopyExclusionPrefix : bytes := str "/lost+found".
Definition kCompleteFilesystemMarker : bytes := str "/update_engine_copy_success".
Definition PATH_MAX : Z := 4096.

Record t := mk {
  helper_thread_ : thread;
  thread_should_exit_ : bool;
  is_mounted_ : bool;
  dest_path_ : bytes;
  copy_source_ : bytes;
  install_plan_ : InstallPlan;
  skipped_copy_ : bool
}.
#[global] Instance eta_t : Eta t := fun r =>
  mk (helper_thread_ r) (thread_should_exit_ r) (is_mounted_ r) (dest_path_ r)
     (copy_source_ r) (install_plan_ r) (skipped_copy_ r).

(** The constructor. *)
Definition new : t := mk NoThread false false [] (str "/") default_InstallPlan false.
Definition set_copy_source (path : bytes) (c : t) : t := c <| copy_source_ := path |>.
Definition skipped_copy (c : t) : bool := skipped_copy_ c.

Section action.
Context {W : Type} `{PosixFd W, PosixStat W, PosixDir W, PosixNodes W, Glib W}
  `{ActionHost W InstallPlan InstallPlan}.

Definition upd (f : t → t) : M (t * W) unit := modify (fun s => (f s.1, s.2)).
Definition world {A} (m : M W A) : M (t * W) A := zoom snd (fun w s => (s.1, w)) m.
Definition complete (success : bool) : M (t * W) unit := world (host_complete success).
(** [if (HasOutputPipe()) SetOutputObject(install_plan_)]. *)
Definition pass_plan_on : M (t * W) unit :=
  has ← gets (fun s => host_has_output s.2);
  c ← gets fst;
  if has : bool then world (set_output (install_plan_ c)) else mret ().

Definition Mount (device mountpoint : bytes) : M (t * W) bool :=
  c ← gets fst;
  CHECK (negb (is_mounted_ c));;
  ok ← world (MountFilesystem device mountpoint);
  (if ok : bool then upd (fun c => c <| is_mounted_ := true |>) else mret ());;
  c ← gets fst; mret (is_mounted_ c).

Definition Unmount (mountpoint : bytes) : M (t * W) bool :=
  c ← gets fst;
  CHECK (is_mounted_ c);;
  ok ← world (UnmountFilesystem mountpoint);
  (if ok : bool then upd (fun c => c <| is_mounted_ := false |>) else mret ());;
  c ← gets fst; mret (negb (is_mounted_ c)).

(** What [PerformAction] does between a successful mount and the spawning of the
    thread: true when the action is over. *)
Definition check_marker : M (t * W) bool :=
  c ← gets fst;
  done_early ← world (FileExists (c_str (dest_path_ c ++ kCompleteFilesystemMarker)));
  (if done_early : bool then upd (fun c => c <| skipped_copy_ := true |>);; pass_plan_on
   else mret ());;
  ok ← Unmount (dest_path_ c);
  if negb ok then complete false;; mret true
  else if done_early : bool then
    c ← gets fst;
    CHECK (negb (is_mounted_ c));;
    _ ← world (extern (sys_rmdir (c_str (dest_path_ c))));
    complete true;;
    mret true
  else mret false.

Definition PerformAction : M (t * W) unit :=
  inp ← gets (fun s => host_input s.2);
  match inp with
  | None => complete false
  | Some plan =>
      upd (fun c => c <| install_plan_ := plan |>);;
      if is_full_update plan then complete true
      else
        dir ← world (extern (sys_mkdtemp kMountpointTemplate));
        match dir with
        | None => fail CheckFailed
        | Some dest_path_temp =>
            CHECK (bool_decide (c_str dest_path_temp ≠ []));;
            upd (fun c => c <| dest_path_ := dest_path_temp |>);;
            mounted ← Mount (install_path plan) dest_path_temp;
            over ← (if mounted : bool then check_marker else mret false);
            if over : bool then mret ()
            else upd (fun c => c <| helper_thread_ := Spawned |>)
        end
  end.

(** [TerminateProcessing] only logs. *)
Definition TerminateProcessing : M (t * W) unit := mret ().

Definition CreateDirSynchronously (new_path : bytes) (stbuf : stat) : M (t * W) bool :=
  r ← world (extern (sys_mkdir (c_str new_path) (st_mode stbuf))); mret (r =? 0).

(** [while (write_size < read_size)]: true when all was written. *)
Definition write_buffer (fd_out : Z) (buf : bytes) : M (t * W) bool :=
  loop (S (length buf)) (fun write_size =>
    if write_size <? zlen buf then
      r ← world (extern (sys_write fd_out (drop (Z.to_nat write_size) buf)));
      if r <? 0 then mret (inr false) else mret (inl (ssize (write_size + r)))
    else CHECK (write_size =? zlen buf);; mret (inr true)) 0.

(** [while (true)]: [None] when the copy failed, otherwise [bytes_written]. *)
Definition copy_step (fd_in fd_out buf_size size : Z) (bytes_written : Z)
  : M (t * W) (Z + option Z) :=
  c ← gets fst;
  if thread_should_exit_ c then mret (inr None)
  else
    r ← world (extern (sys_read fd_in buf_size));
    match r with
    | None => mret (inr None)
    | Some buf =>
        if decide (buf = []) then mret (inr (Some bytes_written))
        else
          ok ← write_buffer fd_out buf;
          if negb ok then mret (inr None)
          else
            let bytes_written := i64 (bytes_written + zlen buf) in
            CHECK (bytes_written <=? size);;
            if decide (bytes_written = size) then mret (inr (Some bytes_written))
            else mret (inl bytes_written)
    end.

Definition CopyFileSynchronously (fuel : nat) (old_path new_path : bytes) (stbuf : stat)
  : M (t * W) bool :=
  fd_out ← world (extern (sys_open (c_str new_path)
                            (Z.lor O_CREAT (Z.lor O_EXCL O_WRONLY)) (st_mode stbuf)));
  if fd_out <? 0 then mret false
  else
    fd_in ← world (extern (sys_open (c_str old_path) O_RDONLY 0));
    ok ← (if fd_in <? 0 then mret false
          else
            let buf_size := Z.min kCopyFileBufferSize (st_size stbuf) in
            r ← loop fuel (copy_step fd_in fd_out buf_size (st_size stbuf)) 0;
            ok ← match r with
                 | None => mret false
                 | Some bytes_written => CHECK (bytes_written =? st_size stbuf);; mret true
                 end;
            _ ← world (extern (sys_close fd_in));
            mret ok);
    _ ← world (extern (sys_close fd_out));
    mret ok.

Definition CreateHardLinkSynchronously (old_path new_path : bytes) : M (t * W) bool :=
  r ← world (extern (sys_link (c_str old_path) (c_str new_path))); mret (r =? 0).

Definition CopySymlinkSynchronously (old_path new_path : bytes) (stbuf : stat) : M (t * W) bool :=
  let buf_size := PATH_MAX + 1 in
  r ← world (extern (sys_readlink (c_str old_path) buf_size));
  match r with
  | None => mret false
  | Some target =>
      if decide (zlen target < buf_size) then
        rc ← world (extern (sys_symlink (c_str target) (c_str new_path)));
        mret (rc =? 0)
      else mret false
  end.

Definition CreateNodeSynchronously (new_path : bytes) (stbuf : stat) : M (t * W) bool :=
  r ← world (extern (sys_mknod (c_str new_path) (st_mode stbuf) (st_rdev stbuf))); mret (r =? 0).

(** The copy of one file that is not a directory and not linked yet. *)
Definition copy_node (fuel : nat) (old_path new_path : bytes) (stbuf : stat) : M (t * W) bool :=
  let mode := st_mode stbuf in
  if S_ISREG mode then CopyFileSynchronously fuel old_path new_path stbuf
  else if S_ISLNK mode then CopySymlinkSynchronously old_path new_path stbuf
  else if S_ISFIFO mode || S_ISCHR mode || S_ISBLK mode || S_ISSOCK mode
  then CreateNodeSynchronously new_path stbuf
  else fail CheckFailed.

(** The body of the loop of [CopySynchronously], on the file at [old_path] with
    partial path [partial]: success, and the new [hard_links]. *)
Definition copy_entry (fuel : nat) (old_path partial : bytes) (stbuf : stat)
    (hard_links : gmap Z bytes) : M (t * W) (bool * gmap Z bytes) :=
  c ← gets fst;
  let new_path := dest_path_ c ++ partial in
  CHECK (bool_decide (kCopyExclusionPrefix ≠ partial));;
  '(success, hard_links) ←
    (if decide (partial = []) then mret (true, hard_links)
     else if S_ISDIR (st_mode stbuf) then
       ok ← CreateDirSynchronously new_path stbuf; mret (ok, hard_links)
     else
       match (if decide (1 < st_nlink stbuf) then hard_links !! st_ino stbuf else None) with
       | Some target =>
           ok ← CreateHardLinkSynchronously target new_path; mret (ok, hard_links)
       | None =>
           let hard_links := if decide (1 < st_nlink stbuf)
                             then <[st_ino stbuf := new_path]> hard_links else hard_links in
           ok ← copy_node fuel old_path new_path stbuf; mret (ok, hard_links)
       end);
  if negb success then mret (false, hard_links)
  else
    chmod_ok ← (if S_ISLNK (st_mode stbuf) then mret true
                else r ← world (extern (sys_chmod (c_str new_path) (st_mode stbuf)));
                     mret (r =? 0));
    if negb chmod_ok then mret (false, hard_links)
    else
      r ← world (extern (sys_lchown (c_str new_path) (st_uid stbuf) (st_gid stbuf)));
      mret (r =? 0, hard_links).

(** The iterator is a local object of [CopySynchronously]. *)
Definition iter_op {A} (it : FilesystemIterator.t) (m : M (FilesystemIterator.t * W) A)
  : M (t * W) (A * FilesystemIterator.t) := fun s =>
  match m (it, s.2) with
  | Val (a, (it', w')) => Val ((a, it'), (s.1, w'))
  | Fault f => Fault f
  end.

Fixpoint copy_loop (fuel : nat) (it : FilesystemIterator.t) (hard_links : gmap Z bytes)
  : M (t * W) (bool * FilesystemIterator.t) :=
  match fuel with
  | O => fail OutOfFuel
  | S fuel' =>
      c ← gets fst;
      if thread_should_exit_ c || FilesystemIterator.IsEnd it
      then mret (negb (FilesystemIterator.IsErr it), it)
      else
        '(success, hard_links) ← copy_entry fuel (FilesystemIterator.GetFullPath it)
                                   (FilesystemIterator.GetPartialPath it)
                                   (FilesystemIterator.GetStat it) hard_links;
        if negb success then mret (false, it)
        else
          '(_, it) ← iter_op it (FilesystemIterator.Increment fuel);
          copy_loop fuel' it hard_links
  end.

Definition CopySynchronously (fuel : nat) : M (t * W) bool :=
  c ← gets fst;
  it ← world (FilesystemIterator.construct (copy_source_ c) [kCopyExclusionPrefix]);
  '(ok, it) ← copy_loop fuel it ∅;
  world (FilesystemIterator.destroy it);;
  mret ok.

Definition HelperThreadMain (fuel : nat) : M (t * W) unit :=
  c ← gets fst;
  let device := install_path (install_plan_ c) in
  '(spawned, return_code) ← world (extern (SynchronousExec
                                [str "/sbin/mkfs.ext3"; str "-F"; device] 1));
  let success := if decide (return_code ≠ 0) then false else spawned in
  success ← (if success : bool then Mount device (dest_path_ c) else mret false);
  success ← (if success : bool then CopySynchronously fuel else mret false);
  (if success : bool then
     r ← world (extern (sys_open (c_str (dest_path_ c ++ kCompleteFilesystemMarker))
                          (Z.lor O_CREAT O_WRONLY) 420));
     if r <? 0 then mret () else _ ← world (extern (sys_close r)); mret ()
   else mret ());;
  ok ← Unmount (dest_path_ c);
  let success := if ok : bool then success else false in
  pass_plan_on;;
  upd (fun c => c <| helper_thread_ := Finished success |>).

Definition CollectThread : M (t * W) unit :=
  c ← gets fst;
  match helper_thread_ c with
  | Finished success =>
      CHECK (negb (is_mounted_ c));;
      _ ← world (extern (sys_rmdir (c_str (dest_path_ c))));
      complete success
  | _ => fail CheckFailed
  end.
End action.
End FilesystemCopierAction.

(** ** Facts *)

Import FilesystemCopierAction.

Section facts.
Context {W : Type} `{PosixFd W, PosixStat W, PosixDir W, PosixNodes W, Glib W}
  `{ActionHost W InstallPlan InstallPlan}.

(** The command that formats the destination of [c]. *)
Definition format (c : t) : W → (bool * Z) * W :=
  SynchronousExec [str "/sbin/mkfs.ext3"; str "-F"; install_path (install_plan_ c)] 1.

(** An iterator on the empty path is in the error state from the start. *)
Lemma CopySynchronously_root fuel c (w w' : W) :
  copy_source_ c = str "/" → sys_lstat [] w = (None, w') →
  CopySynchronously (S fuel) (c, w) = Val (false, (c, w')).
Proof.
  intros Hsrc Hl. unfold CopySynchronously. mrun. cbn [fst]. rewrite Hsrc.
  unfold FilesystemIterator.construct. unfold world. mrun.
  change (NormalizePath (str "/") true) with (@nil byte). cbn [snd c_str]. rewrite Hl.
  unfold Prelude.update. cbn. mrun. cbn. by destruct (thread_should_exit_ c).
Qed.
End facts.

(** The action never succeeds in copying from its default source: [new] sets
    [copy_source_] to "/", which the iterator normalises to the empty path, and
    [lstat] of the empty path fails; so with a freshly formatted and mounted
    destination the helper thread copies nothing, leaves no marker, and ends
    with failure. *)
Theorem default_copy_source_fails {W} `{PosixFd W, PosixStat W, PosixDir W, PosixNodes W, Glib W}
    `{ActionHost W InstallPlan InstallPlan} fuel (c : t) (w w1 w2 w3 w4 : W) rc :
  copy_source_ c = copy_source_ new → is_mounted_ c = false →
  format c w = ((true, 0), w1) →
  sys_mount (c_str (install_path (install_plan_ c))) (c_str (dest_path_ c)) (str "ext3") w1 = (rc, w2) →
  0 ≤ rc → sys_lstat [] w2 = (None, w3) →
  sys_umount (c_str (dest_path_ c)) w3 = (0, w4) → host_has_output w4 = false →
  HelperThreadMain (S fuel) (c, w) =
    Val ((), (c <| helper_thread_ := Finished false |>, w4)).
Proof.
  intros Hsrc Hm Hf Hmnt Hrc Hl Hum Hout.
  unfold HelperThreadMain, Mount, MountFilesystem, Unmount, UnmountFilesystem, pass_plan_on.
  unfold world, upd. mrun. cbn [fst snd].
  unfold format in Hf. rewrite Hf. rewrite decide_False by naive_solver. cbn [fst snd].
  rewrite Hm. rewrite CHECK_true by done. cbn [snd]. rewrite Hmnt.
  destruct (Z.ltb_spec rc 0); [lia|]. cbn [negb fst snd].
  change (is_mounted_ (c <| is_mounted_ := true |>)) with true. cbn iota beta.
  rewrite (CopySynchronously_root fuel _ w2 w3) by done.
  cbn [fst snd]. unfold Prelude.update. cbn [is_mounted_ fst snd].
  rewrite CHECK_true by done. cbn [snd]. rewrite Hum. cbn. rewrite Hout. cbn.
  destruct c; cbn in *. by subst.
Qed.

(** When formatting or mounting the destination fails the helper thread does
    not report a failed action: [Unmount] is called although nothing is mounted,
    and its [CHECK] aborts the process. *)
Theorem failed_format_or_mount_aborts {W} `{PosixFd W, PosixStat W, PosixDir W, PosixNodes W, Glib W}
    `{ActionHost W InstallPlan InstallPlan} fuel (c : t) (w w1 : W) spawned code :
  is_mounted_ c = false → format c w = ((spawned, code), w1) →
  spawned = false ∨ code ≠ 0 ∨
    (sys_mount (c_str (install_path (install_plan_ c))) (c_str (dest_path_ c)) (str "ext3") w1).1 < 0 →
  HelperThreadMain fuel (c, w) = Fault CheckFailed.
Proof.
  intros Hm Hf Hbad.
  unfold HelperThreadMain, Mount, MountFilesystem, Unmount. unfold world, upd. mrun. cbn [fst snd].
  unfold format in Hf. rewrite Hf.
  destruct (decide (code ≠ 0)) as [|Hcode]; cbn [fst snd].
  { rewrite Hm. by rewrite CHECK_false. }
  destruct spawned; cbn [fst snd]; rewrite Hm; [|by rewrite CHECK_false].
  rewrite CHECK_true by done.
  cbn [negb fst snd].
  destruct Hbad as [?|[?|Hmnt]]; [done..|].
  unfold MountFilesystem. mrun. destruct (sys_mount _ _ _ w1) as [rc w2] eqn:E. cbn in Hmnt.
  destruct (Z.ltb_spec rc 0); [|lia]. cbn [negb fst snd]. rewrite Hm. cbn [fst snd].
  rewrite Hm. by rewrite CHECK_false.
Qed.

(** A system without files, on which [mount] fails when the flag is set. *)
Module NullSystem.
#[global] Instance fd : PosixFd bool := {|
  sys_open _ _ _ w := (-1, w); sys_read _ _ w := (None, w); sys_write _ _ w := (-1, w);
  sys_lseek _ _ w := (-1, w); sys_close _ w := (0, w); sys_errno _ := ENOENT
|}.
#[global] Instance stats : PosixStat bool := {|
  sys_stat _ w := (None, w); sys_lstat _ w := (None, w);
  sys_fstat _ w := (None, w); sys_fibmap _ _ w := (None, w)
|}.
#[global] Instance dirs : PosixDir bool := {|
  sys_opendir _ w := (None, w); sys_readdir _ w := ((9, None), w); sys_closedir _ w := (0, w);
  sys_unlink _ w := (-1, w); sys_rmdir _ w := (0, w);
  sys_mount _ _ _ w := ((if w : bool then -1 else 0), w); sys_umount _ w := (0, w)
|}.
#[global] Instance nodes : PosixNodes bool := {|
  sys_mkdtemp _ w := (Some (str "/tmp/au_dest_mnt.aaaaaa"), w);
  sys_mkdir _ _ w := (-1, w); sys_link _ _ w := (-1, w); sys_readlink _ _ w := (None, w);
  sys_symlink _ _ w := (-1, w); sys_mknod _ _ _ w := (-1, w); sys_chmod _ _ w := (-1, w);
  sys_lchown _ _ _ w := (-1, w)
|}.
#[global] Instance glib : Glib bool := {|
  g_spawn_async _ w := (None, w); g_spawn_sync _ _ w := ((true, 0), w);
  g_child_watch_add _ w := (1, w)
|}.
#[global] Instance host : ActionHost bool InstallPlan InstallPlan := {|
  host_input _ := None; host_has_output _ := false; host_set_output _ w := w;
  host_complete _ := mret ()
|}.
End NullSystem.

Lemma default_copy_source_fails_witness :
  HelperThreadMain 1 (new, false) = Val ((), (new <| helper_thread_ := Finished false |>, false)).
Proof.
  refine (default_copy_source_fails 0 new false false false false false 0 _ _ _ _ _ _ _ _);
    try reflexivity; lia.
Defined.

Lemma failed_format_or_mount_aborts_witness :
  HelperThreadMain 1 (new, true) = Fault CheckFailed.
Proof.
  refine (failed_format_or_mount_aborts 1 new true true true 0 _ _ _); try reflexivity.
  right. right. cbn. lia.
Defined.
