(* ===== verification/Omaha.v ===== *)
(** * Talking to Omaha: omaha_request_prep_action.{h,cc},
    omaha_response_handler_action.{h,cc}, omaha_hash_calculator.{h,cc} and the
    structs of update_check_action.h.

    OpenSSL and [uname] are outside the repository ([Sha1], [Uname]). *)

From S2P Require Import Prelude CppString Posix Extents FileWriter Utils ActionProcessor Actions.

(** ** UpdateCheckParams, UpdateCheckResponse *)

Definition kAppId : bytes := str "{87efface-864d-49a5-9bb3-4b050a7c227a}".
Definition kOsPlatform : bytes := str "Chrome OS".
Definition kOsVersion : bytes := str "Indy".

Record UpdateCheckParams := mkParams {
  machine_id : bytes;
  user_id : bytes;
  os_platform : bytes;
  os_version : bytes;
  os_sp : bytes;
  app_id : bytes;
  app_version : bytes;
  app_lang : bytes;
  app_track : bytes
}.
#[export] Instance UpdateCheckParams_eq_dec : EqDecision UpdateCheckParams.
Proof. solve_decision. Defined.
(** The default constructor. *)
Definition default_UpdateCheckParams : UpdateCheckParams :=
  mkParams [] [] kOsPlatform kOsVersion [] kAppId [] [] [].

Record UpdateCheckResponse := mkResponse {
  update_exists : bool;
  display_version : bytes;
  codebase : bytes;
  more_info_url : bytes;
  hash : bytes;
  size : Z;
  needs_admin : bool;
  prompt : bool
}.
#[export] Instance UpdateCheckResponse_eq_dec : EqDecision UpdateCheckResponse.
Proof. solve_decision. Defined.
Definition default_UpdateCheckResponse : UpdateCheckResponse :=
  mkResponse false [] [] [] [] 0 false false.

(** ** OmahaHashCalculator *)

(** OpenSSL's SHA-1 and the base64 of a BIO pair (with its final newline). *)
Class Sha1 (C : Type) := {
  SHA1_Init : Z * C;
  SHA1_Update : C → bytes → Z * C;
  SHA1_Final : C → Z * bytes;
  bio_base64 : bytes → bytes
}.

Module OmahaHashCalculator.
Section calculator.
Context {C : Type} `{Sha1 C}.

Record t := mk { hash_ : bytes; ctx_ : C }.
#[global] Instance eta_t : Eta t := fun r => mk (hash_ r) (ctx_ r).

(** The constructor. *)
Definition construct : result t :=
  if decide (SHA1_Init.1 = 1) then Val (mk [] SHA1_Init.2) else Fault CheckFailed.

Definition Update (data : bytes) : M t unit :=
  c ← gets (fun c => c);
  CHECK (bool_decide (hash_ c = []));;
  let '(rc, ctx) := SHA1_Update (ctx_ c) data in
  CHECK (rc =? 1);;
  modify (fun c => c <| ctx_ := ctx |>).

Definition Finalize : M t unit :=
  c ← gets (fun c => c);
  CHECK (bool_decide (hash_ c = []));;
  let '(rc, md) := SHA1_Final (ctx_ c) in
  CHECK (rc =? 1);;
  let out := bio_base64 md in
  modify (fun c => c <| hash_ := take (Z.to_nat (zlen out - 1)) out |>).

Definition get_hash : M t bytes :=
  c ← gets (fun c => c);
  CHECK (bool_decide (hash_ c ≠ []));;
  mret (hash_ c).

Definition OmahaHashOfBytes (data : bytes) : result bytes :=
  match construct with
  | Fault f => Fault f
  | Val c =>
      match (Update data;; Finalize;; get_hash) c with
      | Val (h, _) => Val h
      | Fault f => Fault f
      end
  end.
Definition OmahaHashOfString (s : bytes) : result bytes := OmahaHashOfBytes s.
Definition OmahaHashOfData (data : bytes) : result bytes := OmahaHashOfBytes data.
End calculator.
Arguments t C : clear implicits.
End OmahaHashCalculator.

(** ** OmahaRequestPrepAction *)

Class Uname (W : Type) := { sys_uname : W → option bytes * W }.

Definition kGuidDataByteLength : Z := 128 / 8.
Definition kGuidStringLength : Z := 38.

(** ["%02X"]. *)
Definition HEX_digit (v : Z) : byte :=
  if decide (v < 10) then byte_of (48 + v) else byte_of (65 + v - 10).
Definition HEX2 (b : byte) : bytes := [HEX_digit (byte_val b / 16); HEX_digit (byte_val b mod 16)].
Definition HEX (bs : bytes) : bytes := bs ≫= HEX2.

Definition GuidFromData (data : bytes) : bytes :=
  str "{" ++ HEX (take 4 data) ++ str "-" ++ HEX (take 2 (drop 4 data)) ++ str "-" ++
  HEX (take 2 (drop 6 data)) ++ str "-" ++ HEX (take 2 (drop 8 data)) ++ str "-" ++
  HEX (take 6 (drop 10 data)) ++ str "}".

Definition newline : byte := x0a.

(** The value of [key] in the text of an lsb-release file; [None] when the file
    does not have it. *)
Definition lsb_value {S} (key file_data : bytes) : M S (option bytes) :=
  let pos :=
    if StringHasPrefix file_data (key ++ str "=") then 0
    else let pos := find file_data ([newline] ++ key ++ str "=") 0 in
         if decide (pos ≠ npos) then usize (pos + 1) else pos in
  if decide (pos = npos) then mret None
  else
    let pos := usize (pos + zlen key + 1) in
    let endpos := find file_data [newline] pos in
    let length := if decide (endpos = npos) then npos else usize (endpos - pos) in
    v ← substr file_data pos length;
    mret (Some v).

Module OmahaRequestPrepAction.
Definition OmahaIdPath : bytes := kStatefulPartition ++ str "/etc/omaha_id".

Record t := mk { force_full_update_ : bool; root_ : bytes }.

Section action.
Context {W : Type} `{PosixFd W, Stdio W, Uname W} `{ActionHost W unit UpdateCheckParams}.

(** Reading [/dev/urandom]: [None] when a read failed or gave nothing. *)
Definition read_random (rand_fd : Z) : M W (option bytes) :=
  loop (Z.to_nat kGuidDataByteLength + 1) (fun buf =>
    if zlen buf <? kGuidDataByteLength then
      rc ← extern (sys_read rand_fd (kGuidDataByteLength - zlen buf));
      match rc with
      | Some ((_ :: _) as bs) => mret (inl (buf ++ bs))
      | _ => mret (inr None)
      end
    else mret (inr (Some buf))) [].

(** [fuel] is for the chunks of the files read. *)
Definition GetMachineId (fuel : nat) (a : t) : M W (option bytes) :=
  let omaha_id_path := root_ a ++ OmahaIdPath in
  '(ok, out_id) ← ReadFileToString fuel omaha_id_path [];
  if ok && (zlen out_id =? kGuidStringLength) then mret (Some out_id)
  else
    rand_fd ← extern (sys_open (str "/dev/urandom") O_RDONLY 0);
    if rand_fd <? 0 then mret None
    else
      buf ← read_random rand_fd;
      r ← match buf with
          | None => mret None
          | Some buf =>
              let guid := GuidFromData buf in
              ok ← WriteFile (c_str omaha_id_path) guid;
              mret (if ok : bool then Some guid else None)
          end;
      _ ← extern (sys_close rand_fd);
      mret r.

Definition lsb_files : list bytes :=
  [kStatefulPartition ++ str "/etc/lsb-release"; str "/etc/lsb-release"].

(** The loop of [GetLsbValue]. *)
Fixpoint lsb_loop (fuel : nat) (a : t) (key : bytes) (files : list bytes) : M W bytes :=
  match files with
  | [] => mret []
  | f :: files' =>
      '(ok, file_data) ← ReadFileToString fuel (root_ a ++ f) [];
      if negb ok then lsb_loop fuel a key files'
      else
        v ← lsb_value key file_data;
        match v with Some v => mret v | None => lsb_loop fuel a key files' end
  end.
Definition GetLsbValue (fuel : nat) (a : t) (key : bytes) : M W bytes :=
  lsb_loop fuel a key lsb_files.

Definition GetMachineType : M W bytes :=
  r ← extern sys_uname; mret (default [] r).

Definition PerformAction (fuel : nat) (a : t) : M W unit :=
  with_completer (I := unit) (O := UpdateCheckParams) (
    id ← GetMachineId fuel a;
    match id with
    | None => mret new_completer
    | Some machine_id =>
        version ← GetLsbValue fuel a (str "GOOGLE_RELEASE");
        machine_type ← GetMachineType;
        let sp := version ++ str "_" ++ machine_type in
        track ← GetLsbValue fuel a (str "GOOGLE_TRACK");
        set_output (I := unit)
          (mkParams machine_id machine_id kOsPlatform kOsVersion sp kAppId version
                    (str "en-US") track);;
        mret (mkCompleter true true)
    end).
End action.
End OmahaRequestPrepAction.

(** ** OmahaResponseHandlerAction *)

Module OmahaResponseHandlerAction.
Definition kFullUpdateTag : bytes := str "_FULL_".

Record t := mk { boot_device_ : bytes; got_no_update_response_ : bool }.
#[global] Instance eta_t : Eta t := fun r => mk (boot_device_ r) (got_no_update_response_ r).
Definition new : t := mk [] false.
Definition set_boot_device (boot_device : bytes) (a : t) : t := a <| boot_device_ := boot_device |>.
Definition GotNoUpdateResponse (a : t) : bool := got_no_update_response_ a.

(** [GetInstallDev]: the device to install to, when there is one. *)
Definition GetInstallDev (boot_dev : bytes) : option bytes :=
  match list.last boot_dev with
  | None => None
  | Some last_char =>
      let v := byte_val last_char in
      if decide (48 ≤ v ≤ 57) then
        let ret := resize boot_dev (usize (zlen boot_dev - 1)) in
        Some (ret ++ [byte_of (if decide (v mod 2 ≠ 0) then v + 1 else v - 1)])
      else None
  end.

(** Is the update at [codebase] a full one: the part after the last slash. *)
Definition filename_of (codebase : bytes) : bytes :=
  let last_slash := rfind codebase slash in
  if decide (last_slash = npos) then codebase
  else drop (Z.to_nat (usize (last_slash + 1))) codebase.
Definition is_full (codebase : bytes) : bool :=
  negb (bool_decide (find (filename_of codebase) kFullUpdateTag 0 = npos)).

Section action.
Context {W : Type} `{Stdio W} `{ActionHost W UpdateCheckResponse InstallPlan}.

Definition world {A} (m : M W A) : M (t * W) A := zoom snd (fun w s => (s.1, w)) m.

Definition PerformAction (fuel : nat) : M (t * W) unit :=
  response ← world get_input;
  c ← (if negb (update_exists response) then
         modify (fun s => (s.1 <| got_no_update_response_ := true |>, s.2));;
         mret new_completer
       else
         a ← gets fst;
         boot ← (if decide (boot_device_ a ≠ []) then mret (boot_device_ a)
                 else world (BootDevice fuel));
         match GetInstallDev boot with
         | None => mret new_completer
         | Some install_dev =>
             let plan := mkInstallPlan (is_full (codebase response)) (codebase response)
                           (hash response) install_dev in
             has ← gets (fun s => host_has_output s.2);
             (if has : bool then world (set_output (I := UpdateCheckResponse) plan) else mret ());;
             mret (mkCompleter true true)
         end);
  if should_complete_ c then world (host_complete (success_ c)) else mret ().
End action.
End OmahaResponseHandlerAction.

(** ** Facts *)

Import OmahaResponseHandlerAction.

Lemma GetInstallDev_snoc base d :
  zlen base < npos →
  GetInstallDev (base ++ [d]) =
  if decide (48 ≤ byte_val d ≤ 57)
  then Some (base ++ [byte_of (if decide (byte_val d mod 2 ≠ 0) then byte_val d + 1
                               else byte_val d - 1)])
  else None.
Proof.
  intros Hlen. unfold GetInstallDev. rewrite last_snoc.
  destruct (decide (48 ≤ byte_val d ≤ 57)); [|done]. f_equal. f_equal.
  pose proof (zlen_nonneg base). unfold npos in Hlen.
  rewrite zlen_app, zlen_one. rewrite u32_small by (unfold is_u32; lia).
  rewrite resize_take by (rewrite zlen_app, zlen_one; lia).
  replace (Z.to_nat (zlen base + 1 - 1)) with (length base) by (unfold zlen; lia).
  apply take_app_length.
Qed.

(** [GetInstallDev] picks the partner partition: 1 and 2, 3 and 4, ... are
    exchanged, applying it twice gives the boot device back; a device name that
    is empty or does not end in a digit is refused.  The digits 0 and 9, which
    have no partner, are not refused: they become a slash and a colon. *)
Theorem GetInstallDev_swaps_partitions base d :
  zlen base < npos →
  match GetInstallDev (base ++ [d]) with
  | None => ¬ 48 ≤ byte_val d ≤ 57
  | Some dev =>
      48 ≤ byte_val d ≤ 57 ∧
      (49 ≤ byte_val d ≤ 56 → GetInstallDev dev = Some (base ++ [d]) ∧
         ∃ d', dev = base ++ [d'] ∧ (byte_val d' - 1) / 2 = (byte_val d - 1) / 2 ∧ d' ≠ d) ∧
      (d = x30 → dev = base ++ str "/") ∧ (d = x39 → dev = base ++ str ":")
  end ∧ GetInstallDev [] = None.
Proof.
  intros Hlen. split; [|done]. rewrite GetInstallDev_snoc by done.
  destruct (decide (48 ≤ byte_val d ≤ 57)) as [Hd|Hd]; [|done].
  split_and!; [lia|lia|..].
  - intros Hr. set (v := byte_val d) in *.
    set (v' := if decide (v mod 2 ≠ 0) then v + 1 else v - 1).
    assert (49 ≤ v' ≤ 56 ∧ (v' - 1) / 2 = (v - 1) / 2 ∧ v' ≠ v ∧
            (if decide (v' mod 2 ≠ 0) then v' + 1 else v' - 1) = v) as (Hv' & Hpair & Hne & Hback).
    { unfold v'. assert (v = 49 ∨ v = 50 ∨ v = 51 ∨ v = 52 ∨ v = 53 ∨ v = 54 ∨ v = 55 ∨ v = 56)
        as Hv by lia.
      destruct Hv as [E|[E|[E|[E|[E|[E|[E|E]]]]]]]; rewrite E; vm_compute; intuition congruence. }
    assert (byte_val (byte_of v') = v') as Hbv by (apply byte_val_of; lia).
    split.
    + rewrite GetInstallDev_snoc by done. rewrite Hbv. rewrite decide_True by lia.
      do 3 f_equal. rewrite Hback. unfold v. apply byte_of_val.
    + exists (byte_of v'). rewrite Hbv. split_and!; [done..|].
      intros Heq. apply (f_equal byte_val) in Heq. rewrite Hbv in Heq. fold v in Heq. lia.
  - by intros ->.
  - by intros ->.
Qed.

Lemma GetInstallDev_swaps_partitions_witness :
  match GetInstallDev (str "/dev/sda" ++ [x33]) with
  | None => ¬ 48 ≤ byte_val x33 ≤ 57
  | Some dev =>
      48 ≤ byte_val x33 ≤ 57 ∧
      (49 ≤ byte_val x33 ≤ 56 → GetInstallDev dev = Some (str "/dev/sda" ++ [x33]) ∧
         ∃ d', dev = str "/dev/sda" ++ [d'] ∧
               (byte_val d' - 1) / 2 = (byte_val x33 - 1) / 2 ∧ d' ≠ x33) ∧
      (x33 = x30 → dev = str "/dev/sda" ++ str "/") ∧ (x33 = x39 → dev = str "/dev/sda" ++ str ":")
  end ∧ GetInstallDev [] = None.
Proof. refine (GetInstallDev_swaps_partitions (str "/dev/sda") x33 _). vm_compute. done. Defined.

(** ** The machine id *)

Lemma HEX_digit_inj a b : 0 ≤ a < 16 → 0 ≤ b < 16 → HEX_digit a = HEX_digit b → a = b.
Proof.
  intros Ha Hb. unfold HEX_digit. intros H.
  destruct (decide (a < 10)), (decide (b < 10));
    apply (f_equal byte_val) in H; rewrite !byte_val_of in H by lia; lia.
Qed.

Lemma HEX2_inj a b : HEX2 a = HEX2 b → a = b.
Proof.
  unfold HEX2. pose proof (byte_val_range a). pose proof (byte_val_range b).
  intros [= H1 H2]. apply byte_val_inj.
  apply HEX_digit_inj in H1; [|split; [apply Z.div_pos; lia|apply Z.div_lt_upper_bound; lia]..].
  apply HEX_digit_inj in H2; [|apply Z.mod_pos_bound; lia..].
  rewrite (Z.div_mod (byte_val a) 16), (Z.div_mod (byte_val b) 16) by lia. lia.
Qed.

Lemma HEX_length bs : length (HEX bs) = (2 * length bs)%nat.
Proof.
  induction bs as [|b bs IH]; [done|]. unfold HEX in *. rewrite bind_cons, length_app, IH. cbn. lia.
Qed.

Lemma HEX_inj x y : HEX x = HEX y → x = y.
Proof.
  revert y. induction x as [|a x IH]; intros [|b y]; try done.
  unfold HEX. rewrite !bind_cons. intros H.
  apply app_inj_1 in H as [H1 H2]; [|done]. f_equal; [by apply HEX2_inj|by apply IH].
Qed.

(** [GuidFromData] of 16 random bytes has exactly the length that
    [GetMachineId] asks of an id it reads back, so a stored id is kept for ever,
    and different random bytes give different ids. *)
Theorem GuidFromData_is_an_id data :
  zlen data = kGuidDataByteLength →
  zlen (GuidFromData data) = kGuidStringLength ∧
  ∀ data', zlen data' = kGuidDataByteLength → GuidFromData data = GuidFromData data' → data = data'.
Proof.
  assert (∀ d, zlen d = kGuidDataByteLength → ∃ a b c e f, d = a ++ b ++ c ++ e ++ f ∧
    length a = 4%nat ∧ length b = 2%nat ∧ length c = 2%nat ∧ length e = 2%nat ∧ length f = 6%nat ∧
    GuidFromData d = str "{" ++ HEX a ++ str "-" ++ HEX b ++ str "-" ++ HEX c ++ str "-" ++
                     HEX e ++ str "-" ++ HEX f ++ str "}") as Hsplit.
  { intros d Hd. unfold kGuidDataByteLength, zlen in Hd. change (128 / 8) with 16 in Hd.
    exists (take 4 d), (take 2 (drop 4 d)), (take 2 (drop 6 d)), (take 2 (drop 8 d)), (take 6 (drop 10 d)).
    rewrite !length_take, !length_drop. split_and!; try lia; [|done].
    destruct d as [|? [|? [|? [|? [|? [|? [|? [|? [|? [|? [|? [|? [|? [|? [|? [|? [|]]]]]]]]]]]]]]]]];
      cbn in Hd; try lia. done. }
  intros Hd. destruct (Hsplit data Hd) as (a & b & c & e & f & -> & Ha & Hb & Hc & He & Hf & Hg).
  split.
  - rewrite Hg. unfold zlen, kGuidStringLength. rewrite !length_app, !HEX_length. cbn. lia.
  - intros data' Hd' Heq.
    destruct (Hsplit data' Hd') as (a' & b' & c' & e' & f' & -> & Ha' & Hb' & Hc' & He' & Hf' & Hg').
    rewrite Hg, Hg' in Heq. clear Hsplit Hd Hd' Hg Hg'.
    apply app_inj_1 in Heq as [_ Heq]; [|done].
    repeat (apply app_inj_1 in Heq as [?%HEX_inj Heq]; [|rewrite !HEX_length; lia];
            apply app_inj_1 in Heq as [_ Heq]; [|done]).
    apply app_inj_1 in Heq as [?%HEX_inj _]; [|rewrite !HEX_length; lia].
    by subst.
Qed.

Lemma GuidFromData_is_an_id_witness :
  zlen (GuidFromData (str "0123456789abcdef")) = kGuidStringLength ∧
  ∀ data', zlen data' = kGuidDataByteLength →
    GuidFromData (str "0123456789abcdef") = GuidFromData data' → str "0123456789abcdef" = data'.
Proof. refine (GuidFromData_is_an_id (str "0123456789abcdef") _). reflexivity. Defined.

(** ** lsb-release files *)

Lemma substr_line {S} (pre v rest : bytes) (s : S) :
  newline ∉ v → (rest = [] ∨ ∃ r, rest = newline :: r) → zlen (pre ++ v ++ rest) < 2 ^ 31 →
  (let endpos := find (pre ++ v ++ rest) [newline] (zlen pre) in
   substr (pre ++ v ++ rest) (zlen pre)
     (if decide (endpos = npos) then npos else usize (endpos - zlen pre))) s = Val (v, s).
Proof.
  intros Hv Hrest Hlen. rewrite !zlen_app in Hlen. cbv zeta.
  pose proof (zlen_nonneg pre). pose proof (zlen_nonneg v). pose proof (zlen_nonneg rest).
  assert (drop (Z.to_nat (zlen pre)) (pre ++ v ++ rest) = v ++ rest) as Hdrop.
  { unfold zlen. rewrite Nat2Z.id. apply drop_app_length. }
  assert (∀ n, (zlen v ≤ n ∧ rest = []) ∨ n = zlen v →
    substr (pre ++ v ++ rest) (zlen pre) n s = Val (v, s)) as Hsub.
  { intros n Hn. unfold substr. rewrite !zlen_app, decide_True by lia. mrun. rewrite Hdrop.
    do 2 f_equal. destruct Hn as [[Hn ->]| ->].
    - rewrite app_nil_r. apply take_ge. unfold zlen in *. cbn. lia.
    - replace (Z.to_nat _) with (length v) by (unfold zlen in *; lia). apply take_app_length. }
  assert (find (pre ++ v ++ rest) [newline] (zlen pre) =
          default npos (find_at [newline] (v ++ rest) (zlen pre))) as ->.
  { unfold find. rewrite decide_True by (rewrite !zlen_app; lia). by rewrite Hdrop. }
  destruct Hrest as [->|[r ->]].
  - rewrite find_at_char_None by (by rewrite app_nil_r). cbn [from_option id].
    rewrite decide_True by done. apply Hsub. left. split; [unfold npos; lia|done].
  - rewrite find_at_char by done. cbn [from_option id].
    rewrite zlen_cons in Hlen. pose proof (zlen_nonneg r).
    rewrite decide_False by (unfold npos; lia). apply Hsub. right.
    replace (zlen pre + zlen v - zlen pre) with (zlen v) by lia. apply u32_small. unfold is_u32. lia.
Qed.

(** The value [GetLsbValue] reads from a file: when some line of the file
    starts with the key and an equals sign, the rest of the first such line;
    when no line does, nothing (and the next file is tried). *)
Theorem lsb_value_reads_first_line {S} key pre v rest (s : S) :
  newline ∉ v → (rest = [] ∨ ∃ r, rest = newline :: r) →
  zlen (pre ++ key ++ str "=" ++ v ++ rest) < 2 ^ 31 →
  (pre = [] ∨ (∃ p, pre = p ++ [newline]) ∧
     (¬ (key ++ str "=") `prefix_of` pre ++ key ++ str "=" ++ v ++ rest) ∧
     ∀ a b, pre ++ key ++ str "=" ++ v ++ rest = a ++ ([newline] ++ key ++ str "=") ++ b →
            zlen pre ≤ zlen a + 1) →
  lsb_value key (pre ++ key ++ str "=" ++ v ++ rest) s = Val (Some v, s) ∧
  ∀ file, ¬ (key ++ str "=") `prefix_of` file →
    (∀ a b, file ≠ a ++ ([newline] ++ key ++ str "=") ++ b) → lsb_value key file s = Val (None, s).
Proof.
  intros Hv Hrest Hlen Hpre. split.
  - unfold lsb_value. set (file := pre ++ key ++ str "=" ++ v ++ rest) in *.
    pose proof (zlen_nonneg pre). pose proof (zlen_nonneg key). pose proof (zlen_nonneg v).
    pose proof (zlen_nonneg rest).
    assert (zlen file = zlen pre + zlen key + 1 + zlen v + zlen rest) as Hz.
    { unfold file. rewrite !zlen_app. change (zlen (str "=")) with 1. lia. }
    assert ((if StringHasPrefix file (key ++ str "=") then 0
             else if decide (find file ([newline] ++ key ++ str "=") 0 ≠ npos)
                  then usize (find file ([newline] ++ key ++ str "=") 0 + 1)
                  else find file ([newline] ++ key ++ str "=") 0) = zlen pre) as ->.
    { rewrite StringHasPrefix_spec. destruct Hpre as [->|([p ->] & Hnp & Hfirst)].
      - rewrite bool_decide_true; [done|]. exists (v ++ rest). unfold file. cbn.
        by rewrite <-(assoc_L (++)).
      - rewrite bool_decide_false by done. rewrite find_0.
        destruct (find_at _ _ 0) as [j|] eqn:E; cbn [from_option id].
        + destruct (find_at_Some _ _ _ _ E) as (Hj & a & b & Hab & Hza).
          assert (file = p ++ ([newline] ++ key ++ str "=") ++ v ++ rest) as Hp.
          { unfold file. by rewrite <-!(assoc_L (++)). }
          pose proof (find_at_first _ _ _ _ p (v ++ rest) E Hp).
          specialize (Hfirst _ _ Hab). pose proof (zlen_app p [newline]) as Hpn.
          rewrite zlen_one in Hpn. pose proof (zlen_nonneg p).
          rewrite decide_True by (unfold npos; lia). rewrite u32_small by (unfold is_u32; lia). lia.
        + exfalso. rewrite find_at_None in E. apply (E p (v ++ rest)).
          unfold file. by rewrite <-!(assoc_L (++)). }
    rewrite decide_False by (unfold npos; lia).
    rewrite u32_small by (unfold is_u32; lia).
    pose proof (substr_line (pre ++ key ++ str "=") v rest s Hv Hrest) as Hsub.
    rewrite <-!(assoc_L (++)) in Hsub. fold file in Hsub. specialize (Hsub Hlen).
    rewrite !zlen_app in Hsub. change (zlen (str "=")) with 1 in Hsub.
    rewrite (Z.add_assoc (zlen pre)) in Hsub. mrun. cbv zeta in Hsub. by rewrite Hsub.
  - intros file Hnp Hno. unfold lsb_value. rewrite StringHasPrefix_spec, bool_decide_false by done.
    rewrite find_0. rewrite (proj2 (find_at_None _ file 0)) by done. reflexivity.
Qed.

Lemma lsb_value_reads_first_line_witness :
  lsb_value (str "B") (([x41; x3d; x31] ++ [newline]) ++ str "B" ++ str "=" ++ str "22" ++ []) () =
    Val (Some (str "22"), ()) ∧
  ∀ file, ¬ (str "B" ++ str "=") `prefix_of` file →
    (∀ a b, file ≠ a ++ ([newline] ++ str "B" ++ str "=") ++ b) →
    lsb_value (str "B") file () = Val (None, ()).
Proof.
  refine (lsb_value_reads_first_line (str "B") ([x41; x3d; x31] ++ [newline]) (str "22") [] () _ _ _ _).
  - by apply (bool_decide_unpack _).
  - by left.
  - vm_compute. reflexivity.
  - right. split; [by eexists|]. split; [by apply (bool_decide_unpack _)|].
    intros a b Hab. destruct a as [|a1 [|a2 [|a3 a]]].
    + by simplify_eq/=.
    + by simplify_eq/=.
    + by simplify_eq/=.
    + change (zlen ([x41; x3d; x31] ++ [newline])) with 4. rewrite !zlen_cons.
      pose proof (zlen_nonneg a). lia.
Defined.
