(* ===== verification/Http.v ===== *)
(** * The fetcher interface (http_fetcher.h) and the two actions that are its
    delegates: UpdateCheckAction (update_check_action.{h,cc}) and DownloadAction
    (download_action.{h,cc}).

    libxml2 is outside the repository ([LibXml]). *)

From S2P Require Import Prelude CppString Posix Extents FileWriter Utils ActionProcessor Actions Omaha.

(** ** HttpFetcher *)

(** The virtual methods an action calls on its fetcher; transfers are
    asynchronous, the delegate's methods are called later. *)
Class HttpFetcher (W : Type) := {
  http_set_delegate : W → W;
  http_SetPostData : bytes → W → W;
  http_BeginTransfer : bytes → M W unit;
  http_TerminateTransfer : M W unit
}.

(** The data members of the base class. *)
Record fetcher_base := mkFetcher {
  url_ : bytes;
  post_data_set_ : bool;
  post_data_ : bytes;
  has_delegate : bool
}.
#[export] Instance eta_fetcher_base : Eta fetcher_base := fun r =>
  mkFetcher (url_ r) (post_data_set_ r) (post_data_ r) (has_delegate r).
Definition new_fetcher_base : fetcher_base := mkFetcher [] false [] false.
Definition set_fetcher_delegate (f : fetcher_base) : fetcher_base := f <| has_delegate := true |>.
Definition SetPostData (data : bytes) (f : fetcher_base) : fetcher_base :=
  f <| post_data_set_ := true |> <| post_data_ := [] ++ data |>.

(** ** UpdateCheckAction *)

(** [xmlEncodeEntitiesReentrant]; [xmlParseMemory]; the XPath evaluation with
    one registered namespace (the nodes found, [None] on an error of libxml2);
    an attribute of a node. *)
Class LibXml (Doc Node : Type) := {
  xml_encode : bytes → bytes;
  xml_parse : bytes → option Doc;
  xml_xpath : Doc → bytes → bytes → bytes → option (list Node);
  xml_attr : Node → bytes → option bytes
}.

Module UpdateCheckAction.
Section action.
Context {Doc Node : Type} `{LibXml Doc Node}.

Definition kGupdateVersion : bytes := str "ChromeOSUpdateEngine-0.1.0.0".

(** [XmlEncode]. *)
Definition XmlEncode (input : bytes) : bytes := c_str (xml_encode (c_str input)).

Definition quote : bytes := [x22].
Definition nl : bytes := [x0a].
(** [name="value"]. *)
Definition attr (name value : bytes) : bytes := name ++ str "=" ++ quote ++ value ++ quote.

(** [FormatRequest]. *)
Definition FormatRequest (params : UpdateCheckParams) : bytes :=
  str "<?xml " ++ attr (str "version") (str "1.0") ++ str " " ++
    attr (str "encoding") (str "UTF-8") ++ str "?>" ++ nl ++
  str "<o:gupdate " ++ attr (str "xmlns:o") (str "http://www.google.com/update2/request") ++
    str " " ++ attr (str "version") (XmlEncode kGupdateVersion) ++ str " " ++
    attr (str "protocol") (str "2.0") ++ str " " ++
    attr (str "machineid") (XmlEncode (machine_id params)) ++ str " " ++
    attr (str "ismachine") (str "1") ++ str " " ++
    attr (str "userid") (XmlEncode (user_id params)) ++ str ">" ++ nl ++
  str "    <o:os " ++ attr (str "version") (XmlEncode (os_version params)) ++ str " " ++
    attr (str "platform") (XmlEncode (os_platform params)) ++ str " " ++
    attr (str "sp") (XmlEncode (os_sp params)) ++ str "></o:os>" ++ nl ++
  str "    <o:app " ++ attr (str "appid") (XmlEncode (app_id params)) ++ str " " ++
    attr (str "version") (XmlEncode (app_version params)) ++ str " " ++
    attr (str "lang") (XmlEncode (app_lang params)) ++ str " " ++
    attr (str "track") (XmlEncode (app_track params)) ++ str ">" ++ nl ++
  str "        <o:ping " ++ attr (str "active") (str "0") ++ str "></o:ping>" ++ nl ++
  str "        <o:updatecheck></o:updatecheck>" ++ nl ++
  str "    </o:app>" ++ nl ++
  str "</o:gupdate>" ++ nl.

(** [GetNodeSet]: an empty node set counts as none. *)
Definition GetNodeSet (doc : Doc) (xpath ns ns_url : bytes) : option (list Node) :=
  match xml_xpath doc xpath ns ns_url with
  | Some (n :: ns) => Some (n :: ns)
  | _ => None
  end.

Definition XmlGetProperty (node : Node) (name : bytes) : bytes :=
  match xml_attr node name with None => [] | Some v => c_str v end.

(** [sscanf("%lld")]: blanks, a sign, decimal digits; the value saturates. *)
Definition isspace (c : byte) : bool :=
  bool_decide (byte_val c = 32 ∨ 9 ≤ byte_val c ≤ 13).
Fixpoint skip_blanks (s : bytes) : bytes :=
  match s with
  | c :: s' => if isspace c then skip_blanks s' else s
  | [] => []
  end.
Fixpoint digits_value (s : bytes) (acc : Z) : Z :=
  match s with
  | c :: s' => if bool_decide (48 ≤ byte_val c ≤ 57)
               then digits_value s' (acc * 10 + (byte_val c - 48)) else acc
  | [] => acc
  end.
Definition starts_with_digit (s : bytes) : bool :=
  match s with c :: _ => bool_decide (48 ≤ byte_val c ≤ 57) | [] => false end.
Definition saturate (v : Z) : Z := Z.max (- 2 ^ 63) (Z.min v (2 ^ 63 - 1)).
Definition sscanf_lld (s : bytes) : option Z :=
  let s := skip_blanks s in
  let '(sign, s) := match s with
                    | x2d :: s' => (-1, s')
                    | x2b :: s' => (1, s')
                    | _ => (1, s)
                    end in
  if starts_with_digit s then Some (saturate (sign * digits_value s 0)) else None.

(** [ParseInt]. *)
Definition ParseInt (s : bytes) : Z := default 0 (sscanf_lld (c_str s)).

Record t := mk { params_ : UpdateCheckParams; response_buffer_ : bytes }.
#[global] Instance eta_t : Eta t := fun r => mk (params_ r) (response_buffer_ r).
Definition new : t := mk default_UpdateCheckParams [].

Context {W : Type} `{HttpFetcher W} `{ActionHost W UpdateCheckParams UpdateCheckResponse}.

Definition upd (f : t → t) : M (t * W) unit := modify (fun s => (f s.1, s.2)).
Definition world {A} (m : M W A) : M (t * W) A := zoom snd (fun w s => (s.1, w)) m.

Definition PerformAction : M (t * W) unit :=
  params ← world get_input;
  upd (fun a => a <| params_ := params |>);;
  world (modify http_set_delegate);;
  world (modify (http_SetPostData (FormatRequest params)));;
  world (http_BeginTransfer (str "https://tools.google.com/service/update2")).

Definition TerminateProcessing : M (t * W) unit := world http_TerminateTransfer.

Definition ReceivedBytes (bs : bytes) : M (t * W) unit :=
  upd (fun a => a <| response_buffer_ := response_buffer_ a ++ bs |>).

Definition kNamespace : bytes := str "x".
Definition kUpdatecheckNodeXpath : bytes := str "/x:gupdate/x:app/x:updatecheck".
Definition kNsUrl : bytes := str "http://www.google.com/update2/response".

(** The output object for an [updatecheck] node with status [ok]. *)
Definition response_of (node : Node) : UpdateCheckResponse :=
  mkResponse true
    (XmlGetProperty node (str "DisplayVersion"))
    (XmlGetProperty node (str "codebase"))
    (XmlGetProperty node (str "MoreInfo"))
    (XmlGetProperty node (str "hash"))
    (ParseInt (XmlGetProperty node (str "size")))
    (bool_decide (XmlGetProperty node (str "needsadmin") = str "true"))
    (bool_decide (XmlGetProperty node (str "Prompt") = str "true")).

(** What [TransferComplete] makes of the response. *)
Definition handle_response : M (t * W) completer :=
  a ← gets fst;
  match xml_parse (response_buffer_ a) with
  | None => mret new_completer
  | Some doc =>
      match GetNodeSet doc kUpdatecheckNodeXpath kNamespace kNsUrl with
      | None => mret new_completer
      | Some nodeset =>
          CHECK (1 <=? zlen nodeset);;
          match nodeset with
          | [] => fail Undefined
          | updatecheck_node :: _ =>
              match xml_attr updatecheck_node (str "status") with
              | None => mret new_completer
              | Some _ =>
                  let status := XmlGetProperty updatecheck_node (str "status") in
                  if decide (status = str "noupdate") then
                    world (set_output (I := UpdateCheckParams) default_UpdateCheckResponse);;
                    mret (mkCompleter true true)
                  else if decide (status ≠ str "ok") then mret new_completer
                  else
                    world (set_output (I := UpdateCheckParams) (response_of updatecheck_node));;
                    mret (mkCompleter true true)
              end
          end
      end
  end.

Definition TransferComplete (successful : bool) : M (t * W) unit :=
  c ← (if negb successful then mret new_completer
       else
         has ← gets (fun s => host_has_output s.2);
         if negb has then mret (mkCompleter true true) else handle_response);
  if should_complete_ c then world (host_complete (success_ c)) else mret ().
End action.
End UpdateCheckAction.

(** ** DownloadAction *)

Module DownloadAction.
Section action.
Context {C : Type} `{Sha1 C} {Zs : Type} `{Inflate Zs}.
Context {W : Type} `{PosixFd W} `{HttpFetcher W} `{ActionHost W InstallPlan InstallPlan}.

(** [writer_] points to the direct writer or to the decompressing one. *)
Inductive writer := NoWriter | Direct | Decompressing.

Record t := mk {
  url_ : bytes;
  output_path_ : bytes;
  hash_ : bytes;
  should_decompress_ : bool;
  writer_ : writer;
  decompressing_file_writer_ : option (GzipDecompressingFileWriter.t Zs);
  direct_file_writer_ : DirectFileWriter.t;
  omaha_hash_calculator_ : OmahaHashCalculator.t C
}.
#[global] Instance eta_t : Eta t := fun r =>
  mk (url_ r) (output_path_ r) (hash_ r) (should_decompress_ r) (writer_ r)
     (decompressing_file_writer_ r) (direct_file_writer_ r) (omaha_hash_calculator_ r).

(** The constructor, which constructs the hash calculator. *)
Definition construct : result t :=
  match OmahaHashCalculator.construct with
  | Val calc => Val (mk [] [] [] false NoWriter None DirectFileWriter.new calc)
  | Fault f => Fault f
  end.

Definition upd (f : t → t) : M (t * W) unit := modify (fun s => (f s.1, s.2)).
Definition world {A} (m : M W A) : M (t * W) A := zoom snd (fun w s => (s.1, w)) m.

(** Run a method of the direct writer. *)
Definition direct {A} (m : M (DirectFileWriter.t * W) A) : M (t * W) A := fun s =>
  match m (direct_file_writer_ s.1, s.2) with
  | Val (a, (d, w)) => Val (a, (s.1 <| direct_file_writer_ := d |>, w))
  | Fault f => Fault f
  end.
(** Run a method of the decompressing writer, whose [next_] is the direct one. *)
Definition decompressing {A}
    (m : M (GzipDecompressingFileWriter.t Zs * (DirectFileWriter.t * W)) A) : M (t * W) A := fun s =>
  match decompressing_file_writer_ s.1 with
  | None => Fault Undefined
  | Some z =>
      match m (z, (direct_file_writer_ s.1, s.2)) with
      | Val (a, (z', (d, w))) =>
          Val (a, (s.1 <| decompressing_file_writer_ := Some z' |> <| direct_file_writer_ := d |>, w))
      | Fault f => Fault f
      end
  end.

(** The virtual calls on [writer_]; [fuel] is for the loop around [inflate]. *)
Definition writer_Open (path : bytes) (flags mode : Z) : M (t * W) Z :=
  a ← gets fst;
  match writer_ a with
  | NoWriter => fail Undefined
  | Direct => direct (DirectFileWriter.Open path flags mode)
  | Decompressing => decompressing (GzipDecompressingFileWriter.Open path flags mode)
  end.
Definition writer_Write (fuel : nat) (bs : bytes) : M (t * W) Z :=
  a ← gets fst;
  match writer_ a with
  | NoWriter => fail Undefined
  | Direct => direct (DirectFileWriter.Write bs)
  | Decompressing => decompressing (GzipDecompressingFileWriter.Write fuel bs)
  end.
Definition writer_Close : M (t * W) Z :=
  a ← gets fst;
  match writer_ a with
  | NoWriter => fail Undefined
  | Direct => direct DirectFileWriter.Close
  | Decompressing => decompressing GzipDecompressingFileWriter.Close
  end.

Definition hashing {A} (m : M (OmahaHashCalculator.t C) A) : M (t * W) A := fun s =>
  match m (omaha_hash_calculator_ s.1) with
  | Val (a, c) => Val (a, (s.1 <| omaha_hash_calculator_ := c |>, s.2))
  | Fault f => Fault f
  end.

Definition PerformAction : M (t * W) unit :=
  world (modify http_set_delegate);;
  a ← gets fst;
  CHECK (match writer_ a with NoWriter => true | _ => false end);;
  upd (fun a => a <| direct_file_writer_ := DirectFileWriter.new |>);;
  plan ← world get_input;
  upd (fun a => a <| should_decompress_ := is_full_update plan |>
                  <| url_ := download_url plan |>
                  <| output_path_ := install_path plan |>
                  <| hash_ := download_hash plan |>);;
  (if is_full_update plan then
     match GzipDecompressingFileWriter.construct () with
     | Fault f => fail f
     | Val (z, _) => upd (fun a => a <| decompressing_file_writer_ := Some z |>
                                     <| writer_ := Decompressing |>)
     end
   else upd (fun a => a <| writer_ := Direct |>));;
  rc ← writer_Open (c_str (install_path plan))
         (Z.lor O_TRUNC (Z.lor O_WRONLY (Z.lor O_CREAT O_LARGEFILE))) 420;
  if rc <? 0 then world (host_complete false)
  else world (http_BeginTransfer (download_url plan)).

Definition is_open : t → bool := fun a => match writer_ a with NoWriter => false | _ => true end.

Definition TerminateProcessing : M (t * W) unit :=
  a ← gets fst;
  CHECK (is_open a);;
  rc ← writer_Close;
  CHECK (rc =? 0);;
  upd (fun a => a <| writer_ := NoWriter |>);;
  world http_TerminateTransfer.

Definition ReceivedBytes (fuel : nat) (bs : bytes) : M (t * W) unit :=
  rc ← writer_Write fuel bs;
  if rc <? 0 then mret () else hashing (OmahaHashCalculator.Update bs).

(** The end of [TransferComplete]: pass the plan on and tell the processor. *)
Definition report (successful : bool) : M (t * W) unit :=
  has ← gets (fun s => host_has_output s.2);
  (if successful && has then
     obj ← world get_input; world (set_output (I := InstallPlan) obj)
   else mret ());;
  world (host_complete successful).

Definition TransferComplete (successful : bool) : M (t * W) unit :=
  a ← gets fst;
  (if is_open a then
     rc ← writer_Close;
     CHECK (rc =? 0);;
     upd (fun a => a <| writer_ := NoWriter |>)
   else mret ());;
  successful ← (if successful : bool then
                  hashing OmahaHashCalculator.Finalize;;
                  h ← hashing OmahaHashCalculator.get_hash;
                  a ← gets fst;
                  mret (bool_decide (h = hash_ a))
                else mret false);
  report successful.
End action.
End DownloadAction.

(** ** Facts about downloads *)

(** SHA-1 as documented: [sha1 data], however the data is cut into updates. *)
Class Sha1Laws (C : Type) `{Sha1 C} := {
  sha1 : bytes → bytes;
  digesting : C → bytes → Prop;
  sha1_init_ok : SHA1_Init.1 = 1 ∧ digesting SHA1_Init.2 [];
  sha1_update_ok c data x : digesting c data →
    (SHA1_Update c x).1 = 1 ∧ digesting (SHA1_Update c x).2 (data ++ x);
  sha1_final_ok c data : digesting c data → SHA1_Final c = (1, sha1 data);
  base64_long data : 1 < zlen (bio_base64 (sha1 data))
}.

(** The base64 text of the digest, without the newline. *)
Definition omaha_hash {C} `{Sha1Laws C} (data : bytes) : bytes :=
  let out := bio_base64 (sha1 data) in take (Z.to_nat (zlen out - 1)) out.

Lemma omaha_hash_nonempty {C} `{Sha1Laws C} data : omaha_hash data ≠ [].
Proof.
  unfold omaha_hash. intros Hnil. apply (f_equal length) in Hnil.
  rewrite length_take in Hnil. pose proof (base64_long data). unfold zlen in *.
  cbn in Hnil. lia.
Qed.

(** The calculator after [data]. *)
Definition hashed {C} `{Sha1Laws C} (c : OmahaHashCalculator.t C) (data : bytes) : Prop :=
  OmahaHashCalculator.hash_ c = [] ∧ digesting (OmahaHashCalculator.ctx_ c) data.

Lemma Update_run {C} `{Sha1Laws C} (c : OmahaHashCalculator.t C) data x :
  hashed c data → ∃ c', OmahaHashCalculator.Update x c = Val ((), c') ∧ hashed c' (data ++ x).
Proof.
  intros [Hh Hd]. unfold OmahaHashCalculator.Update. mrun. rewrite CHECK_true by by rewrite Hh.
  destruct (sha1_update_ok _ _ x Hd) as [Hrc Hd'].
  destruct (SHA1_Update (OmahaHashCalculator.ctx_ c) x) as [rc ctx]. cbn in Hrc, Hd'. subst rc.
  rewrite CHECK_true by done. eexists. split; [reflexivity|]. by split.
Qed.

Lemma Finalize_run {C} `{Sha1Laws C} (c : OmahaHashCalculator.t C) data :
  hashed c data →
  ∃ c', OmahaHashCalculator.Finalize c = Val ((), c') ∧
        OmahaHashCalculator.get_hash c' = Val (omaha_hash data, c').
Proof.
  intros [Hh Hd]. unfold OmahaHashCalculator.Finalize, OmahaHashCalculator.get_hash. mrun.
  rewrite CHECK_true by by rewrite Hh. rewrite (sha1_final_ok _ _ Hd). rewrite CHECK_true by done.
  eexists. split; [reflexivity|]. unfold Prelude.update. cbn [OmahaHashCalculator.hash_].
  change (take _ (bio_base64 (sha1 data))) with (omaha_hash data).
  rewrite CHECK_true; [done|]. apply bool_decide_true, omaha_hash_nonempty.
Qed.

(** The hash of a buffer is that of its bytes however they are cut into
    updates: the base64 of their SHA-1 digest without the newline of the BIO. *)
Theorem OmahaHash_ignores_chunking {C} `{Sha1Laws C} chunks :
  ∃ c c' : OmahaHashCalculator.t C, OmahaHashCalculator.construct = Val c ∧
    (for_each OmahaHashCalculator.Update chunks;; OmahaHashCalculator.Finalize;;
     OmahaHashCalculator.get_hash) c = Val (omaha_hash (concat chunks), c') ∧
    OmahaHashCalculator.OmahaHashOfBytes (C := C) (concat chunks) = Val (omaha_hash (concat chunks)).
Proof.
  destruct sha1_init_ok as [Hi Hd0].
  assert (∀ (c : OmahaHashCalculator.t C) data, hashed c data →
    ∃ c', for_each OmahaHashCalculator.Update chunks c = Val ((), c') ∧
          hashed c' (data ++ concat chunks)) as Hall.
  { induction chunks as [|x chunks IH]; intros c data Hc; cbn [for_each concat].
    - exists c. by rewrite app_nil_r.
    - destruct (Update_run c data x Hc) as (c1 & Hu & Hc1).
      destruct (IH _ _ Hc1) as (c2 & Hf & Hc2). exists c2.
      rewrite (bind_run _ _ _ _ _ Hu). by rewrite (assoc_L (++)). }
  unfold OmahaHashCalculator.OmahaHashOfBytes, OmahaHashCalculator.construct.
  rewrite decide_True by done.
  set (c0 := OmahaHashCalculator.mk [] SHA1_Init.2).
  assert (hashed c0 []) as Hc0 by done.
  destruct (Hall c0 [] Hc0) as (c1 & Hf & Hc1).
  destruct (Finalize_run c1 _ Hc1) as (c2 & Hfin & Hget).
  exists c0, c2. split; [done|]. split.
  - rewrite (bind_run _ _ _ _ _ Hf), (bind_run _ _ _ _ _ Hfin). exact Hget.
  - destruct (Update_run c0 [] (concat chunks) Hc0) as (d1 & Hu & Hd1).
    destruct (Finalize_run d1 _ Hd1) as (d2 & Hfin' & Hget').
    rewrite (bind_run _ _ _ _ _ Hu), (bind_run _ _ _ _ _ Hfin'). by rewrite Hget'.
Qed.

(** A digest for examples: the data itself in a fixed frame. *)
Module ToySha1.
#[global] Instance sha : Sha1 bytes := {|
  SHA1_Init := (1, []);
  SHA1_Update c x := (1, c ++ x);
  SHA1_Final c := (1, str "digest:" ++ c);
  bio_base64 x := x ++ [x0a]
|}.
#[global, refine] Instance laws : Sha1Laws bytes := {|
  sha1 data := str "digest:" ++ data;
  digesting c data := c = data
|}.
Proof.
  - done.
  - by intros c data x ->.
  - by intros c data ->.
  - intros data. cbn. rewrite !zlen_cons, zlen_app, zlen_one. pose proof (zlen_nonneg data). lia.
Defined.
End ToySha1.

Section download_facts.
Context {C : Type} `{Sha1Laws C} {Zs : Type} `{Inflate Zs}.
Context {W : Type} `{PosixFileLaws W} `{!HttpFetcher W} `{!ActionHost W InstallPlan InstallPlan}.
Import DownloadAction.

(** Downloading straight to the descriptor [fd]: what arrived is stored. *)
Record downloading (a : DownloadAction.t (C := C) (Zs := Zs)) (w w0 : W) (fd : Z) (data : bytes) : Prop := {
  dl_writer : writer_ a = Direct;
  dl_fd : direct_file_writer_ a = DirectFileWriter.mk fd;
  dl_hash : hashed (omaha_hash_calculator_ a) data;
  dl_offset : offset_of fd w = offset_of fd w0 + zlen data;
  dl_file i : file_of fd w i = store_at (offset_of fd w0) data (file_of fd w0) i
}.

Lemma ReceivedBytes_run fuel a (w w0 : W) fd data bs :
  0 ≤ fd → zlen bs < 2 ^ 31 → (∀ bs w, 0 ≤ (sys_write fd bs w).1) →
  downloading a w w0 fd data →
  ∃ a' w', ReceivedBytes fuel bs (a, w) = Val ((), (a', w')) ∧
    downloading a' w' w0 fd (data ++ bs) ∧ hash_ a' = hash_ a.
Proof.
  intros Hfd Hlen Hok [Hwr Hdf Hh Hoff Hf].
  destruct (DirectFileWriter_Write_run fd bs w Hfd Hlen) as (rc & w' & Hrun & Hcase).
  unfold ReceivedBytes, writer_Write, direct, hashing. mrun. cbn [fst snd].
  rewrite Hwr. cbn [fst snd]. rewrite Hdf, Hrun.
  destruct Hcase as [[-> Hw]|(_ & n & w1 & _ & _ & r & Hr & Hs)].
  2:{ exfalso. specialize (Hok (drop (Z.to_nat n) bs) w1). rewrite Hs in Hok. cbn in Hok. lia. }
  pose proof (zlen_nonneg bs). destruct (Z.ltb_spec (zlen bs) 0); [lia|].
  unfold Prelude.update. cbn [fst snd omaha_hash_calculator_].
  destruct (Update_run _ _ bs Hh) as (c' & -> & Hc').
  destruct (written_all _ _ _ _ Hw) as [Hoff' Hf'].
  eexists _, w'. split; [reflexivity|]. split; [|done].
  split; cbn; try done.
  - rewrite Hoff', Hoff, zlen_app. lia.
  - intros i. rewrite Hf', Hoff. rewrite (store_at_ext _ _ _ _ _ Hf). apply store_at_app.
Qed.

Lemma receive_run fuel chunks a (w w0 : W) fd data :
  0 ≤ fd → Forall (fun bs => zlen bs < 2 ^ 31) chunks → (∀ bs w, 0 ≤ (sys_write fd bs w).1) →
  downloading a w w0 fd data →
  ∃ a' w', for_each (ReceivedBytes fuel) chunks (a, w) = Val ((), (a', w')) ∧
    downloading a' w' w0 fd (data ++ concat chunks) ∧ hash_ a' = hash_ a.
Proof.
  intros Hfd Hlen Hok. revert a w data.
  induction Hlen as [|bs chunks Hbs _ IH]; intros a w data Hd; cbn [for_each concat].
  - exists a, w. by rewrite app_nil_r.
  - destruct (ReceivedBytes_run fuel _ _ _ _ _ bs Hfd Hbs Hok Hd) as (a1 & w1 & Hr & Hd1 & Hh1).
    destruct (IH _ _ _ Hd1) as (a2 & w2 & Hr2 & Hd2 & Hh2). exists a2, w2.
    rewrite (bind_run _ _ _ _ _ Hr), (assoc_L (++)). split; [done|]. split; [done|congruence].
Qed.

Lemma TransferComplete_run a (w w0 : W) fd data :
  0 ≤ fd → (∀ w, (sys_close fd w).1 = 0) → downloading a w w0 fd data →
  ∃ a', TransferComplete true (a, w) =
        report (bool_decide (omaha_hash data = hash_ a)) (a', (sys_close fd w).2).
Proof.
  intros Hfd Hclose [Hwr Hdf Hh Hoff Hf].
  unfold TransferComplete, writer_Close, is_open, direct, hashing, upd. mrun. cbn [fst snd].
  rewrite Hwr. cbn [fst snd]. rewrite Hwr. cbn [fst snd]. rewrite Hdf.
  unfold DirectFileWriter.Close, DirectFileWriter.sys, DirectFileWriter.set_fd. mrun.
  cbn [fst snd DirectFileWriter.fd_]. rewrite CHECK_true by lia.
  specialize (Hclose w). cbn [snd]. destruct (sys_close fd w) as [rc w'] eqn:E.
  cbn in Hclose. subst rc. cbn [Z.ltb Z.compare fst snd].
  rewrite CHECK_true by done. unfold Prelude.update. cbn [fst snd omaha_hash_calculator_].
  destruct (Finalize_run _ _ Hh) as (c' & -> & Hget). cbn [fst snd omaha_hash_calculator_].
  rewrite Hget. eexists. reflexivity.
Qed.
End download_facts.


(** A fetcher that does nothing, on any host. *)
Module IdleFetcher.
#[global] Instance fetcher {W I O} : HttpFetcher (Host.t W I O) := {|
  http_set_delegate w := w;
  http_SetPostData _ w := w;
  http_BeginTransfer _ := mret ();
  http_TerminateTransfer := mret ()
|}.
End IdleFetcher.

Definition sample_plan : InstallPlan :=
  mkInstallPlan false (str "http://host/delta") (str "digest:abc") (str "/dev/sda2").
Definition sample_download : DownloadAction.t (C := bytes) (Zs := unit) :=
  DownloadAction.mk (str "http://host/delta") (str "/dev/sda2") (str "digest:abc") false
    DownloadAction.Direct None (DirectFileWriter.mk 3) (OmahaHashCalculator.mk [] []).
Definition sample_host : Host.t MemFile.t InstallPlan InstallPlan :=
  Host.mk MemFile.blank (Some sample_plan) (Some None) [].

Lemma OmahaHash_ignores_chunking_witness :
  ∃ c c' : OmahaHashCalculator.t bytes, OmahaHashCalculator.construct = Val c ∧
    (for_each OmahaHashCalculator.Update [str "a"; str "bc"];; OmahaHashCalculator.Finalize;;
     OmahaHashCalculator.get_hash) c = Val (omaha_hash (concat [str "a"; str "bc"]), c') ∧
    OmahaHashCalculator.OmahaHashOfBytes (C := bytes) (concat [str "a"; str "bc"]) =
      Val (omaha_hash (concat [str "a"; str "bc"])).
Proof. refine (OmahaHash_ignores_chunking (C := bytes) [str "a"; str "bc"]). Defined.


Section dropped_errors.
Context {C : Type} `{Sha1Laws C} {Zs : Type} `{Inflate Zs}.
Context {W : Type} `{PosixFd W} `{!HttpFetcher W} `{!ActionHost W InstallPlan InstallPlan}.

(** On a device that refuses every write, handing chunks over does nothing. *)
Lemma hand_over_full_device chunks fd (w : W) :
  0 ≤ fd → (∀ bs w, sys_write fd bs w = (-1, w)) →
  hand_over chunks (DirectFileWriter.mk fd, w) = Val ((), (DirectFileWriter.mk fd, w)).
Proof.
  intros Hfd Hfull. unfold hand_over. induction chunks as [|c chunks IH]; [done|].
  cbn [for_each]. rewrite (bind_run _ _ _ () (DirectFileWriter.mk fd, w)); [exact IH|].
  cbn [fw_Write DirectFileWriter.writer]. unfold DirectFileWriter.Write. mrun.
  cbn [fst DirectFileWriter.fd_]. rewrite CHECK_true by lia. rewrite loop_S.
  destruct (0 <? zlen c) eqn:E.
  - unfold DirectFileWriter.sys, DirectFileWriter.errno. mrun. cbn [snd]. rewrite Hfull. done.
  - apply Z.ltb_ge in E. cbn beta iota.
    rewrite CHECK_true; [done|]. pose proof (zlen_nonneg c). lia.
Qed.
End dropped_errors.

(** A full update (which is decompressed while it is written) does not notice
    write errors: on a device that refuses every write, with the received data
    a stream zlib accepts, nothing reaches the device and yet the action
    reports success when the hash of the received bytes is the expected one. *)
Theorem full_update_drops_write_errors {C} `{Sha1Laws C} {Zs} `{Inflate Zs} {W}
    `{PosixFd W} `{!HttpFetcher W} `{!ActionHost W InstallPlan InstallPlan}
    fuel bs chunks (z z' : Zs) (a : DownloadAction.t (C := C) (Zs := Zs)) (w w' : W) fd :
  0 ≤ fd → zlen bs < 2 ^ 31 → (∀ bs w, sys_write fd bs w = (-1, w)) → sys_close fd w = (0, w') →
  DownloadAction.writer_ a = DownloadAction.Decompressing →
  DownloadAction.decompressing_file_writer_ a = Some (GzipDecompressingFileWriter.mk z []) →
  DownloadAction.direct_file_writer_ a = DirectFileWriter.mk fd →
  hashed (DownloadAction.omaha_hash_calculator_ a) [] →
  inflates z bs chunks z' → (length chunks < fuel)%nat →
  DownloadAction.hash_ a = omaha_hash bs →
  ∃ a' a'', DownloadAction.ReceivedBytes fuel bs (a, w) = Val ((), (a', w)) ∧
    DownloadAction.TransferComplete true (a', w) = DownloadAction.report true (a'', w').
Proof.
  intros Hfd Hlen Hfull Hclose Hwr Hz Hdf Hh Hinf Hfuel Hhash.
  destruct a as [u op h sd wr df dd calc]. cbn in Hwr, Hz, Hdf, Hh, Hhash. subst wr df dd h.
  pose proof (zlen_nonneg bs). destruct (Update_run _ _ bs Hh) as (c' & Hu & Hc').
  destruct (Finalize_run _ _ Hc') as (c'' & Hfin & Hget).
  exists (DownloadAction.mk u op (omaha_hash bs) sd DownloadAction.Decompressing
            (Some (GzipDecompressingFileWriter.mk z' [])) (DirectFileWriter.mk fd) c').
  exists (DownloadAction.mk u op (omaha_hash bs) sd DownloadAction.NoWriter
            (Some (GzipDecompressingFileWriter.mk z' [])) (DirectFileWriter.mk (-2)) c'').
  split.
  - unfold DownloadAction.ReceivedBytes, DownloadAction.writer_Write,
      DownloadAction.decompressing, DownloadAction.hashing. mrun. unfold Prelude.update.
    cbn -[GzipDecompressingFileWriter.Write OmahaHashCalculator.Update].
    rewrite (GzipDecompressingFileWriter_run fuel bs chunks z z' _ Hinf Hfuel).
    rewrite (hand_over_full_device chunks fd w Hfd Hfull).
    cbn -[OmahaHashCalculator.Update]. rewrite i32_small by (unfold is_i32; lia).
    destruct (Z.ltb_spec (zlen bs) 0); [lia|].
    cbn -[OmahaHashCalculator.Update]. by rewrite Hu.
  - unfold DownloadAction.TransferComplete, DownloadAction.writer_Close, DownloadAction.is_open,
      DownloadAction.decompressing, DownloadAction.hashing, DownloadAction.upd,
      GzipDecompressingFileWriter.Close, GzipDecompressingFileWriter.next, DirectFileWriter.writer,
      DirectFileWriter.Close, DirectFileWriter.sys, DirectFileWriter.set_fd. mrun.
    unfold Prelude.update. cbn -[OmahaHashCalculator.Finalize OmahaHashCalculator.get_hash DownloadAction.report].
    rewrite CHECK_true by lia. cbn -[OmahaHashCalculator.Finalize OmahaHashCalculator.get_hash DownloadAction.report].
    rewrite Hclose. cbn -[OmahaHashCalculator.Finalize OmahaHashCalculator.get_hash DownloadAction.report].
    rewrite Hfin. cbn -[OmahaHashCalculator.get_hash DownloadAction.report].
    rewrite Hget. cbn -[DownloadAction.report]. by rewrite bool_decide_true.
Qed.

Definition sample_full_download : DownloadAction.t (C := bytes) (Zs := unit) :=
  DownloadAction.mk [] (str "/dev/sda2") (omaha_hash (str "hello")) true DownloadAction.Decompressing
    (Some (GzipDecompressingFileWriter.mk () [])) (DirectFileWriter.mk 3)
    (OmahaHashCalculator.mk [] []).

Definition full_host : Host.t unit InstallPlan InstallPlan :=
  Host.mk () (Some default_InstallPlan) None [].

Lemma full_update_drops_write_errors_witness :
  ∃ a' a'', DownloadAction.ReceivedBytes 2 (str "hello")
              (sample_full_download, full_host) =
              Val ((), (a', full_host)) ∧
    DownloadAction.TransferComplete true (a', full_host) =
      DownloadAction.report true (a'', full_host).
Proof.
  refine (full_update_drops_write_errors 2 (str "hello") [str "hello"] () () sample_full_download
            (full_host) _ 3 _ _ _ _ _ _ _ _ _ _ _).
  - lia.
  - vm_compute; congruence.
  - by intros bs [[]].
  - reflexivity.
  - reflexivity.
  - reflexivity.
  - reflexivity.
  - by split.
  - exact stored_inflates.
  - simpl; lia.
  - reflexivity.
Defined.
