(* ===== verification/Libcurl.v ===== *)
(** * LibcurlHttpFetcher: libcurl_http_fetcher.{h,cc}.

    libcurl and the glib main loop are outside the repository and are
    parameters: [Curl] and [MainLoop], each with a world of its own.  The
    delegate is a pair of programs on the whole state, so it may call the
    fetcher again from inside a callback. *)

From stdpp Require Import sorting.
From S2P Require Import Prelude CppString Http.

(** ** libcurl *)

Inductive curl_option :=
| CURLOPT_POST (on : Z)
| CURLOPT_POSTFIELDS (data : bytes)
| CURLOPT_POSTFIELDSIZE (size : Z)
| CURLOPT_RESUME_FROM_LARGE (offset : Z)
| CURLOPT_WRITEDATA
| CURLOPT_WRITEFUNCTION
| CURLOPT_URL (url : bytes).

(** What a call of [curl_multi_perform] does next: call the write function on
    a block, or return its code and the number of running handles. *)
Inductive perform_event :=
| Deliver (block : bytes)
| Return (code running_handles : Z).

(** The calls of libcurl on the fetcher's one easy and one multi handle; codes
    are [CURLcode] and [CURLMcode], 0 being OK.  [curl_content_length] is
    [curl_easy_getinfo(CURLINFO_CONTENT_LENGTH_DOWNLOAD)] converted to
    [off_t]; [curl_multi_fdset] gives the three sets and the highest fd. *)
Class Curl (W : Type) := {
  curl_multi_init : W → bool * W;
  curl_easy_init : W → bool * W;
  curl_easy_setopt : curl_option → W → Z * W;
  curl_multi_add_handle : W → Z * W;
  curl_multi_remove_handle : W → Z * W;
  curl_easy_cleanup : W → unit * W;
  curl_multi_cleanup : W → Z * W;
  curl_perform_next : W → perform_event * W;
  curl_content_length : W → (Z * Z) * W;
  curl_easy_pause : Z → W → Z * W;
  curl_multi_fdset : W → (Z * (gset Z * gset Z * gset Z) * Z) * W;
  curl_multi_timeout : W → (Z * Z) * W
}.

Definition CURLE_OK : Z := 0.
Definition CURLM_OK : Z := 0.
Definition CURLM_CALL_MULTI_PERFORM : Z := -1.
Definition CURLPAUSE_ALL : Z := 5.
Definition CURLPAUSE_CONT : Z := 0.

(** The calls of glib: channels and sources are known by numbers. *)
Class MainLoop (W : Type) := {
  g_io_channel_unix_new : Z → W → Z * W;
  g_io_add_watch : Z → W → Z * W;
  g_io_channel_unref : Z → W → unit * W;
  g_source_remove : Z → W → unit * W;
  g_timeout_source_new : Z → W → option Z * W;
  g_source_attach : Z → W → unit * W;
  g_source_destroy : Z → W → unit * W
}.

Module LibcurlHttpFetcher.
Record t := mk {
  base : fetcher_base;
  curl_multi_handle_ : bool;
  curl_handle_ : bool;
  (** fd ↦ (channel, tag) *)
  io_channels_ : gmap Z (Z * Z);
  timeout_source_ : option Z;
  transfer_in_progress_ : bool;
  transfer_size_ : Z;
  bytes_downloaded_ : Z;
  resume_offset_ : Z;
  idle_ms_ : Z
}.
#[global] Instance eta_t : Eta t := fun r =>
  mk (base r) (curl_multi_handle_ r) (curl_handle_ r) (io_channels_ r) (timeout_source_ r)
     (transfer_in_progress_ r) (transfer_size_ r) (bytes_downloaded_ r) (resume_offset_ r)
     (idle_ms_ r).

(** The constructor leaves the three sizes uninitialised: they are arguments. *)
Definition new (transfer_size bytes_downloaded resume_offset : Z) : t :=
  mk new_fetcher_base false false ∅ None false transfer_size bytes_downloaded resume_offset 1000.
Definition set_idle_ms (ms : Z) (f : t) : t := f <| idle_ms_ := ms |>.

(** The fetcher, the two libraries, and whatever the delegate keeps. *)
Record state (Wc Wg D : Type) := mkState {
  self : t;
  curl : Wc;
  main_loop : Wg;
  client : D
}.
Arguments mkState {Wc Wg D} _ _ _ _.
Arguments self {Wc Wg D} _.
Arguments curl {Wc Wg D} _.
Arguments main_loop {Wc Wg D} _.
Arguments client {Wc Wg D} _.
#[global] Instance eta_state Wc Wg D : Eta (state Wc Wg D) := fun r =>
  mkState (self r) (curl r) (main_loop r) (client r).

(** The entries of a [std::map] in key order, and its last key. *)
Definition key_le (a b : Z * (Z * Z)) : Prop := a.1 ≤ b.1.
#[global] Instance key_le_dec a b : Decision (key_le a b) := decide (a.1 ≤ b.1).
Definition entries (m : gmap Z (Z * Z)) : list (Z * (Z * Z)) :=
  merge_sort key_le (map_to_list m).
Definition last_key (m : gmap Z (Z * Z)) : option Z := fst <$> last (entries m).

Section fetcher.
Context {Wc Wg D : Type} `{Curl Wc} `{MainLoop Wg}.
(** The delegate; fuel for the loops around [curl_multi_perform]. *)
Variable ReceivedBytes : bytes → M (state Wc Wg D) unit.
Variable TransferComplete : bool → M (state Wc Wg D) unit.
Variable io_fuel : nat.
Definition upd (f : t → t) : M (state Wc Wg D) unit := modify (fun s => s <| self := f (self s) |>).
Definition on_curl {A} (f : Wc → A * Wc) : M (state Wc Wg D) A :=
  zoom curl (fun w s => s <| curl := w |>) (extern f).
Definition on_glib {A} (f : Wg → A * Wg) : M (state Wc Wg D) A :=
  zoom main_loop (fun w s => s <| main_loop := w |>) (extern f).

(** [CHECK_EQ(call, OK)]. *)
Definition checked (f : Wc → Z * Wc) : M (state Wc Wg D) unit :=
  code ← on_curl f; CHECK (code =? 0).

(** [g_source_remove(e.second); g_io_channel_unref(e.first)]. *)
Definition drop_channel (e : Z * Z) : M (state Wc Wg D) unit :=
  on_glib (g_source_remove e.2);; on_glib (g_io_channel_unref e.1).

(** [if (timeout_source_) { g_source_destroy(timeout_source_); ... }]. *)
Definition drop_timeout : M (state Wc Wg D) unit :=
  f ← gets self;
  match timeout_source_ f with
  | Some src => on_glib (g_source_destroy src);; upd (fun f => f <| timeout_source_ := None |>)
  | None => mret ()
  end.

Definition CleanUp : M (state Wc Wg D) unit :=
  drop_timeout;;
  f ← gets self;
  for_each (fun e => drop_channel e.2) (entries (io_channels_ f));;
  upd (fun f => f <| io_channels_ := ∅ |>);;
  f ← gets self;
  (if curl_handle_ f then
     (if curl_multi_handle_ f then checked curl_multi_remove_handle else mret ());;
     on_curl curl_easy_cleanup;;
     upd (fun f => f <| curl_handle_ := false |>)
   else mret ());;
  (if curl_multi_handle_ f then
     checked curl_multi_cleanup;;
     upd (fun f => f <| curl_multi_handle_ := false |>)
   else mret ());;
  upd (fun f => f <| transfer_in_progress_ := false |>).

Definition destroy : M (state Wc Wg D) unit := CleanUp.

(** The body of the loop of [SetupMainloopSources] on fd [i]. *)
Definition track_fd (wanted : gset Z) (i : Z) : M (state Wc Wg D) unit :=
  f ← gets self;
  if decide (i ∉ wanted) then
    match io_channels_ f !! i with
    | Some e => drop_channel e;; upd (fun f => f <| io_channels_ := delete i (io_channels_ f) |>)
    | None => mret ()
    end
  else
    match io_channels_ f !! i with
    | Some _ => mret ()
    | None =>
        io_channel ← on_glib (g_io_channel_unix_new i);
        tag ← on_glib (g_io_add_watch io_channel);
        upd (fun f => f <| io_channels_ := <[i := (io_channel, tag)]> (io_channels_ f) |>)
    end.

(** The second half of [SetupMainloopSources]: a fresh timer. *)
Definition setup_timeout : M (state Wc Wg D) unit :=
  '(code, ms) ← on_curl curl_multi_timeout;
  CHECK (code =? CURLM_OK);;
  f ← gets self;
  let ms := if ms <? 0 then idle_ms_ f else ms in
  drop_timeout;;
  source ← on_glib (g_timeout_source_new ms);
  upd (fun f => f <| timeout_source_ := source |>);;
  match source with
  | Some src => on_glib (g_source_attach src)
  | None => fail CheckFailed
  end.

Definition SetupMainloopSources : M (state Wc Wg D) unit :=
  '(code, (fd_read, fd_write, fd_exec), fd_max) ← on_curl curl_multi_fdset;
  CHECK (code =? CURLM_OK);;
  f ← gets self;
  let fd_max := match last_key (io_channels_ f) with
                | Some k => Z.max fd_max k
                | None => fd_max
                end in
  for_each (track_fd (fd_read ∪ fd_write ∪ fd_exec)) (seqZ 0 (fd_max + 1));;
  setup_timeout.

Definition LibcurlWrite (block : bytes) : M (state Wc Wg D) Z :=
  '(code, new_transfer_size) ← on_curl curl_content_length;
  CHECK (code =? CURLE_OK);;
  (if 0 <? new_transfer_size then
     upd (fun f => f <| transfer_size_ := i64 (resume_offset_ f + new_transfer_size) |>)
   else mret ());;
  upd (fun f => f <| bytes_downloaded_ := i64 (bytes_downloaded_ f + usize (zlen block)) |>);;
  f ← gets self;
  (if has_delegate (base f) then ReceivedBytes block else mret ());;
  mret (usize (zlen block)).

(** One call of [curl_multi_perform], the write function included. *)
Definition perform_step (_ : unit) : M (state Wc Wg D) (unit + Z * Z) :=
  ev ← on_curl curl_perform_next;
  match ev with
  | Deliver block => LibcurlWrite block;; mret (inl ())
  | Return code running_handles => mret (inr (code, running_handles))
  end.
Definition curl_multi_perform : M (state Wc Wg D) (Z * Z) := loop io_fuel perform_step ().

(** [while (CURLM_CALL_MULTI_PERFORM == retcode) ...]: the running handles. *)
Definition perform_again (_ : unit) : M (state Wc Wg D) (unit + Z) :=
  '(retcode, running_handles) ← curl_multi_perform;
  mret (if retcode =? CURLM_CALL_MULTI_PERFORM then inl () else inr running_handles).
Definition perform_all : M (state Wc Wg D) Z := loop io_fuel perform_again ().

(** [ResumeTransfer], given what its last call, [CurlPerformOnce], does. *)
Definition resume_with (perform_once : M (state Wc Wg D) unit) (url : bytes) : M (state Wc Wg D) unit :=
  f ← gets self;
  CHECK (negb (transfer_in_progress_ f));;
  upd (fun f => f <| base := (base f) <| url_ := url |> |>);;
  multi ← on_curl curl_multi_init;
  upd (fun f => f <| curl_multi_handle_ := multi |>);;
  CHECK multi;;
  easy ← on_curl curl_easy_init;
  upd (fun f => f <| curl_handle_ := easy |>);;
  CHECK easy;;
  f ← gets self;
  (if post_data_set_ (base f) then
     checked (curl_easy_setopt (CURLOPT_POST 1));;
     checked (curl_easy_setopt (CURLOPT_POSTFIELDS (post_data_ (base f))));;
     checked (curl_easy_setopt (CURLOPT_POSTFIELDSIZE (zlen (post_data_ (base f)))))
   else mret ());;
  (if 0 <? bytes_downloaded_ f then
     upd (fun f => f <| resume_offset_ := bytes_downloaded_ f |>);;
     checked (curl_easy_setopt (CURLOPT_RESUME_FROM_LARGE (bytes_downloaded_ f)))
   else mret ());;
  checked (curl_easy_setopt CURLOPT_WRITEDATA);;
  checked (curl_easy_setopt CURLOPT_WRITEFUNCTION);;
  checked (curl_easy_setopt (CURLOPT_URL (c_str (url_ (base f)))));;
  checked curl_multi_add_handle;;
  upd (fun f => f <| transfer_in_progress_ := true |>);;
  perform_once.

(** One unit of fuel per connection. *)
Fixpoint CurlPerformOnce (fuel : nat) : M (state Wc Wg D) unit :=
  match fuel with
  | O => fail OutOfFuel
  | S n =>
      f ← gets self;
      CHECK (transfer_in_progress_ f);;
      running_handles ← perform_all;
      if running_handles =? 0 then
        CleanUp;;
        f ← gets self;
        if (0 <=? transfer_size_ f) && (bytes_downloaded_ f <? transfer_size_ f) then
          resume_with (CurlPerformOnce n) (url_ (base f))
        else if has_delegate (base f) then TransferComplete true
        else mret ()
      else SetupMainloopSources
  end.

Definition ResumeTransfer (fuel : nat) (url : bytes) : M (state Wc Wg D) unit :=
  resume_with (CurlPerformOnce fuel) url.

Definition BeginTransfer (fuel : nat) (url : bytes) : M (state Wc Wg D) unit :=
  upd (fun f => f <| transfer_size_ := -1 |> <| bytes_downloaded_ := 0 |>
                  <| resume_offset_ := 0 |>);;
  ResumeTransfer fuel url.

Definition TerminateTransfer : M (state Wc Wg D) unit := CleanUp.

(** [Pause] and [Unpause] with their bitmask. *)
Definition pause_with (bitmask : Z) : M (state Wc Wg D) unit :=
  f ← gets self;
  CHECK (curl_handle_ f);;
  CHECK (transfer_in_progress_ f);;
  checked (curl_easy_pause bitmask).
Definition Pause : M (state Wc Wg D) unit := pause_with CURLPAUSE_ALL.
Definition Unpause : M (state Wc Wg D) unit := pause_with CURLPAUSE_CONT.

(** The scan of [FDCallback] for the channel. *)
Definition find_channel (source : Z) (m : gmap Z (Z * Z)) : option (Z * (Z * Z)) :=
  snd <$> list_find (fun e => e.2.1 = source) (entries m).

Definition FDCallback (fuel : nat) (source : Z) : M (state Wc Wg D) bool :=
  f ← gets self;
  match find_channel source (io_channels_ f) with
  | Some (fd, e) =>
      drop_channel e;;
      upd (fun f => f <| io_channels_ := delete fd (io_channels_ f) |>);;
      CurlPerformOnce fuel;;
      mret false
  | None => fail CheckFailed
  end.

Definition TimeoutCallback (fuel : nat) : M (state Wc Wg D) bool :=
  upd (fun f => f <| timeout_source_ := None |>);;
  CurlPerformOnce fuel;;
  mret false.
End fetcher.
End LibcurlHttpFetcher.

(** ** The fds being watched *)

(** What glib keeps for the fetcher: the watches (tag ↦ channel), the channels
    with a reference, the attached timers. *)
Class MainLoopLaws (W : Type) `{MainLoop W} := {
  watches : W → gmap Z Z;
  channels : W → gset Z;
  timers : W → gset Z;
  new_channel fd w : let '(ch, w') := g_io_channel_unix_new fd w in
    ch ∉ channels w ∧ channels w' = {[ch]} ∪ channels w ∧
    watches w' = watches w ∧ timers w' = timers w;
  add_watch ch w : let '(tag, w') := g_io_add_watch ch w in
    watches w !! tag = None ∧ watches w' = <[tag := ch]> (watches w) ∧
    channels w' = channels w ∧ timers w' = timers w;
  unref_channel ch w : let w' := (g_io_channel_unref ch w).2 in
    channels w' = channels w ∖ {[ch]} ∧ watches w' = watches w ∧ timers w' = timers w;
  remove_source tag w : let w' := (g_source_remove tag w).2 in
    watches w' = delete tag (watches w) ∧ channels w' = channels w ∧ timers w' = timers w;
  new_timer ms w : ∃ src, (g_timeout_source_new ms w).1 = Some src ∧ src ∉ timers w ∧
    let w' := (g_timeout_source_new ms w).2 in
    watches w' = watches w ∧ channels w' = channels w ∧ timers w' = timers w;
  attach_timer src w : let w' := (g_source_attach src w).2 in
    timers w' = {[src]} ∪ timers w ∧ watches w' = watches w ∧ channels w' = channels w;
  destroy_timer src w : let w' := (g_source_destroy src w).2 in
    timers w' = timers w ∖ {[src]} ∧ watches w' = watches w ∧ channels w' = channels w
}.

(** The fetcher's table of channels is what glib watches for it: one watch and
    one channel of its own per fd. *)
Record tracked {W} `{MainLoopLaws W} (io : gmap Z (Z * Z)) (w : W) : Prop := {
  tr_watch tag ch : watches w !! tag = Some ch ↔ ∃ fd, io !! fd = Some (ch, tag);
  tr_channel ch : ch ∈ channels w ↔ ∃ fd tag, io !! fd = Some (ch, tag);
  tr_tag fd1 fd2 c1 c2 tag : io !! fd1 = Some (c1, tag) → io !! fd2 = Some (c2, tag) → fd1 = fd2;
  tr_chan fd1 fd2 t1 t2 ch : io !! fd1 = Some (ch, t1) → io !! fd2 = Some (ch, t2) → fd1 = fd2;
  tr_fd fd : is_Some (io !! fd) → 0 ≤ fd
}.

Section glib_facts.
Context {W : Type} `{MainLoopLaws W}.

Lemma tracked_drop io (w : W) fd e :
  tracked io w → io !! fd = Some e →
  tracked (delete fd io) (g_io_channel_unref e.1 (g_source_remove e.2 w).2).2 ∧
  timers (g_io_channel_unref e.1 (g_source_remove e.2 w).2).2 = timers w.
Proof.
  destruct e as [ch tag]. intros [Hw Hc Ht Hch Hfd] Hio. cbn [fst snd].
  destruct (remove_source tag w) as (Hw1 & Hc1 & Ht1).
  destruct (unref_channel ch (g_source_remove tag w).2) as (Hc2 & Hw2 & Ht2).
  split; [|by rewrite Ht2]. split.
  - intros tg c. rewrite Hw2, Hw1, lookup_delete_Some, Hw. split.
    + intros (Hne & fd' & Hfd'). exists fd'. rewrite lookup_delete_Some. split; [|done]. congruence.
    + intros (fd' & [Hne Hfd']%lookup_delete_Some). split; [|eauto]. intros <-. eauto.
  - intros c. rewrite Hc2, Hc1, elem_of_difference, elem_of_singleton, Hc. split.
    + intros [(fd' & tg & Hfd') Hne]. exists fd', tg. rewrite lookup_delete_Some. split; [|done].
      congruence.
    + intros (fd' & tg & [Hne Hfd']%lookup_delete_Some). split; [eauto|]. intros <-. eauto.
  - intros ????? [_ ?]%lookup_delete_Some [_ ?]%lookup_delete_Some. eauto.
  - intros ????? [_ ?]%lookup_delete_Some [_ ?]%lookup_delete_Some. eauto.
  - intros f [e [_ ?]%lookup_delete_Some]. eauto.
Qed.

Lemma tracked_add io (w : W) fd :
  tracked io w → io !! fd = None → 0 ≤ fd →
  let '(ch, w1) := g_io_channel_unix_new fd w in
  let '(tag, w2) := g_io_add_watch ch w1 in
  tracked (<[fd := (ch, tag)]> io) w2 ∧ timers w2 = timers w.
Proof.
  intros [Hw Hc Ht Hch Hfd] Hio Hpos.
  pose proof (new_channel fd w) as Hn. destruct (g_io_channel_unix_new fd w) as [ch w1].
  destruct Hn as (Hfresh & Hc1 & Hw1 & Ht1).
  pose proof (add_watch ch w1) as Hn. destruct (g_io_add_watch ch w1) as [tag w2].
  destruct Hn as (Hnew & Hw2 & Hc2 & Ht2). rewrite Hw1 in Hnew, Hw2.
  assert (∀ f c, io !! f ≠ Some (c, tag)) as Hnotag.
  { intros f c Hf. assert (watches w !! tag = Some c) by (rewrite Hw; eauto). congruence. }
  assert (∀ f t, io !! f ≠ Some (ch, t)) as Hnochan.
  { intros f t Hf. apply Hfresh. rewrite Hc; eauto. }
  split; [|by rewrite Ht2]. split.
  - intros tg c. rewrite Hw2, lookup_insert_Some, Hw. split.
    + intros [[<- <-]|[Hne (f & Hf)]]; [exists fd; by rewrite lookup_insert_eq|].
      exists f. rewrite lookup_insert_ne; [done|congruence].
    + intros (f & [[<- [= <- <-]]|[Hne Hf]]%lookup_insert_Some); [by left|].
      right. split; [|eauto]. intros <-. by eapply Hnotag.
  - intros c. rewrite Hc2, Hc1, elem_of_union, elem_of_singleton, Hc. split.
    + intros [->|(f & t & Hf)]; [exists fd, tag; by rewrite lookup_insert_eq|].
      exists f, t. rewrite lookup_insert_ne; [done|congruence].
    + intros (f & t & [[<- [= <- <-]]|[Hne Hf]]%lookup_insert_Some); [by left|right; eauto].
  - intros f1 f2 c1 c2 tg [[<- [= <- <-]]|[Hn1 Hf1]]%lookup_insert_Some
      [[<- [= <-]]|[Hn2 Hf2]]%lookup_insert_Some; try done; [..|eauto].
    + by apply Hnotag in Hf2.
    + subst. by apply Hnotag in Hf1.
  - intros f1 f2 t1 t2 c [[<- [= <- <-]]|[Hn1 Hf1]]%lookup_insert_Some
      [[<- [= <-]]|[Hn2 Hf2]]%lookup_insert_Some; try done; [..|eauto].
    + by apply Hnochan in Hf2.
    + subst. by apply Hnochan in Hf1.
  - intros f [e [[<- _]|[_ Hf]]%lookup_insert_Some]; [done|eauto].
Qed.
End glib_facts.

Section source_facts.
Context {Wc Wg D : Type} `{Curl Wc} `{MainLoopLaws Wg}.
Implicit Type s : LibcurlHttpFetcher.state Wc Wg D.
Import LibcurlHttpFetcher.

Definition with_io (io : gmap Z (Z * Z)) (w : Wg) s : state Wc Wg D :=
  s <| self := (self s) <| io_channels_ := io |> |> <| main_loop := w |>.
Definition with_timer (o : option Z) (w : Wg) s : state Wc Wg D :=
  s <| self := (self s) <| timeout_source_ := o |> |> <| main_loop := w |>.

(** [io'] is [io] with exactly the fds of [l] that are wanted. *)
Definition retracked (wanted : gset Z) (l : list Z) (io io' : gmap Z (Z * Z)) : Prop :=
  (∀ j, is_Some (io' !! j) ↔ if decide (j ∈ l) then j ∈ wanted else is_Some (io !! j)) ∧
  (∀ j e, j ∈ wanted ∨ j ∉ l → io !! j = Some e → io' !! j = Some e).

Lemma track_fd_run wanted i s :
  tracked (io_channels_ (self s)) (main_loop s) → 0 ≤ i →
  ∃ io' w', track_fd wanted i s = Val ((), with_io io' w' s) ∧ tracked io' w' ∧
    timers w' = timers (main_loop s) ∧ retracked wanted [i] (io_channels_ (self s)) io'.
Proof.
  intros Htr Hi. destruct s as [f wc wg d]. unfold track_fd, upd, on_glib, drop_channel.
  mrun. cbn [self]. cbn [self main_loop] in Htr |- *.
  destruct (decide (i ∉ wanted)) as [Hout|Hin].
  - destruct (io_channels_ f !! i) as [e|] eqn:E.
    + destruct (tracked_drop _ _ _ _ Htr E) as [Htr' Htm].
      destruct (g_source_remove e.2 wg) as [[] w1] eqn:E1. cbn [snd] in Htr', Htm.
      destruct (g_io_channel_unref e.1 w1) as [[] w2] eqn:E2. cbn [snd] in Htr', Htm.
      exists (delete i (io_channels_ f)), w2. split.
      { cbn. rewrite E1. cbn. by rewrite E2. }
      split; [exact Htr'|]. split; [done|]. split.
      * intros j. rewrite lookup_delete_is_Some. case_decide as Hj; rewrite list_elem_of_singleton in Hj.
        -- subst. naive_solver.
        -- naive_solver.
      * intros j e' Hj Hio. rewrite lookup_delete_Some. split; [|done]. set_solver.
    + exists (io_channels_ f), wg. split; [by destruct f|]. split; [done|]. split; [done|]. split; [|done].
      intros j. case_decide as Hj; [|done]. rewrite list_elem_of_singleton in Hj. subst.
      rewrite E. split; [by intros [? [=]]|done].
  - assert (i ∈ wanted) as Hw by (by apply dec_stable).
    destruct (io_channels_ f !! i) as [e|] eqn:E.
    + exists (io_channels_ f), wg. split; [by destruct f|]. split; [done|]. split; [done|]. split; [|done].
      intros j. case_decide as Hj; [|done]. rewrite list_elem_of_singleton in Hj. subst.
      rewrite E. split; [done|by eexists].
    + pose proof (tracked_add _ _ _ Htr E Hi) as Hadd.
      destruct (g_io_channel_unix_new i wg) as [ch w1] eqn:E1.
      destruct (g_io_add_watch ch w1) as [tag w2] eqn:E2.
      exists (<[i := (ch, tag)]> (io_channels_ f)), w2.
      split; [cbn; rewrite E1; cbn; by rewrite E2|]. split; [apply Hadd|]. split; [apply Hadd|]. split.
      * intros j. rewrite lookup_insert_is_Some. case_decide as Hj; rewrite list_elem_of_singleton in Hj;
          naive_solver.
      * intros j e' Hj Hio. rewrite lookup_insert_ne; [done|congruence].
Qed.

Lemma retracked_cons wanted i l io io1 io2 :
  i ∉ l → retracked wanted [i] io io1 → retracked wanted l io1 io2 → retracked wanted (i :: l) io io2.
Proof.
  intros Hi [Hd1 K1] [Hd2 K2]. split.
  - intros j. rewrite Hd2. destruct (decide (j ∈ l)) as [Hj|Hj].
    + rewrite decide_True; [done|by right].
    + rewrite Hd1. destruct (decide (j ∈ [i])) as [Hj2|Hj2].
      * rewrite decide_True; [done|set_solver].
      * rewrite decide_False; [done|set_solver].
  - intros j e Hj Hio. apply K2; [set_solver|]. apply K1; [set_solver|done].
Qed.

Lemma track_fds_run wanted l : NoDup l → ∀ s,
  tracked (io_channels_ (self s)) (main_loop s) → (∀ i, i ∈ l → 0 ≤ i) →
  ∃ io' w', for_each (track_fd wanted) l s = Val ((), with_io io' w' s) ∧ tracked io' w' ∧
    timers w' = timers (main_loop s) ∧ retracked wanted l (io_channels_ (self s)) io'.
Proof.
  induction 1 as [|i l Hi Hnd IH]; intros s Htr Hpos.
  - exists (io_channels_ (self s)), (main_loop s). split; [by destruct s as [[] ? ? ?]|].
    split; [done|]. split; [done|]. split; [|done]. intros j. by rewrite decide_False by set_solver.
  - cbn [for_each]. destruct (track_fd_run wanted i s Htr) as (io1 & w1 & E1 & Htr1 & Ht1 & Hr1);
      [apply Hpos; by left|].
    rewrite (bind_run _ _ _ _ _ E1).
    destruct (IH (with_io io1 w1 s)) as (io2 & w2 & E2 & Htr2 & Ht2 & Hr2);
      [done|intros; apply Hpos; by right|].
    exists io2, w2. split; [exact E2|]. split; [done|]. split; [by rewrite Ht2|].
    by eapply retracked_cons.
Qed.

(** Every timer of glib's that the fetcher does not know of is in [extra]. *)
Definition timed (extra : gset Z) (o : option Z) (w : Wg) : Prop :=
  match o with
  | Some src => timers w = {[src]} ∪ extra ∧ src ∉ extra
  | None => timers w = extra
  end.

Lemma drop_timeout_run extra s :
  timed extra (timeout_source_ (self s)) (main_loop s) →
  ∃ w', drop_timeout s = Val ((), with_timer None w' s) ∧ timers w' = extra ∧
    watches w' = watches (main_loop s) ∧ channels w' = channels (main_loop s).
Proof.
  destruct s as [f wc wg d]. cbn. unfold drop_timeout, upd, on_glib. mrun. cbn.
  destruct (timeout_source_ f) as [src|] eqn:E; cbn.
  - intros [Ht Hn]. pose proof (destroy_timer src wg) as (Ht' & Hw' & Hc').
    destruct (g_source_destroy src wg) as [[] w'] eqn:E1. cbn in *.
    exists w'. split; [done|]. split; [rewrite Ht', Ht; set_solver|done].
  - intros Ht. exists wg. split; [|done]. destruct f; cbn in E; by subst.
Qed.
Lemma tracked_same io (w w' : Wg) :
  watches w' = watches w → channels w' = channels w → tracked io w → tracked io w'.
Proof. intros Hw Hc [? ? ? ? ?]. split; [by rewrite Hw|by rewrite Hc|done..]. Qed.
End source_facts.

(** What libcurl is relied on for, when a server has [body] at the URL and
    announces its length: [position] is where the current connection began and
    where it is in the body; [work] bounds the calls [curl_multi_perform] asks
    for before it waits; a connection that closes has delivered something. *)
Class CurlLaws (W : Type) `{Curl W} (body : bytes) := {
  position : W → Z * Z;
  work : W → nat;
  max_work : nat;
  work_bound w : (work w < max_work)%nat;
  multi_init_ok w : (curl_multi_init w).1 = true ∧ position (curl_multi_init w).2 = position w;
  easy_init_ok w : (curl_easy_init w).1 = true ∧ position (curl_easy_init w).2 = (0, 0);
  setopt_ok o w : (curl_easy_setopt o w).1 = CURLE_OK ∧
    position (curl_easy_setopt o w).2 =
      match o with CURLOPT_RESUME_FROM_LARGE n => (n, n) | _ => position w end;
  add_handle_ok w : (curl_multi_add_handle w).1 = CURLM_OK ∧
    position (curl_multi_add_handle w).2 = position w;
  remove_handle_ok w : (curl_multi_remove_handle w).1 = CURLM_OK;
  multi_cleanup_ok w : (curl_multi_cleanup w).1 = CURLM_OK;
  perform_ok w : let '(ev, w') := curl_perform_next w in
    match ev with
    | Deliver block =>
        block ≠ [] ∧ zlen block ≤ 16384 ∧
        block `prefix_of` drop (Z.to_nat (position w).2) body ∧
        position w' = ((position w).1, (position w).2 + zlen block) ∧ (work w' < work w)%nat
    | Return code running =>
        position w' = position w ∧
        (code = CURLM_CALL_MULTI_PERFORM → (work w' < work w)%nat) ∧
        (code ≠ CURLM_CALL_MULTI_PERFORM → running = 0 → (position w).1 < (position w).2)
    end;
  content_length_ok w : (curl_content_length w).1 = (CURLE_OK, zlen body - (position w).1) ∧
    position (curl_content_length w).2 = position w ∧ work (curl_content_length w).2 = work w;
  wanted_fds : W → gset Z;
  fdset_ok w : let '(code, (r, wr, e), fd_max, w') := curl_multi_fdset w in
    code = CURLM_OK ∧ wanted_fds w = r ∪ wr ∪ e ∧
    (∀ i, i ∈ wanted_fds w → 0 ≤ i ≤ fd_max) ∧
    position w' = position w ∧ wanted_fds w' = wanted_fds w;
  timeout_ok w : (curl_multi_timeout w).1.1 = CURLM_OK ∧
    position (curl_multi_timeout w).2 = position w ∧
    wanted_fds (curl_multi_timeout w).2 = wanted_fds w
}.

Import LibcurlHttpFetcher.

#[export] Instance key_le_refl : Reflexive key_le.
Proof. intros a. unfold key_le. lia. Qed.
#[export] Instance key_le_trans : Transitive key_le.
Proof. intros a b c. unfold key_le. lia. Qed.
#[export] Instance key_le_total : Total key_le.
Proof. intros a b. unfold key_le. lia. Qed.

Lemma elem_of_entries io fd e : (fd, e) ∈ entries io ↔ io !! fd = Some e.
Proof. unfold entries. rewrite merge_sort_Permutation. apply elem_of_map_to_list. Qed.

Lemma sorted_last {A} (R : A → A → Prop) `{!Reflexive R} l x y :
  StronglySorted R l → last l = Some x → y ∈ l → R y x.
Proof.
  intros Hs. revert x y. induction Hs as [|a l Hs IH Hall]; intros x y; [done|].
  intros Hl Hy. rewrite last_cons in Hl. destruct (last l) as [z|] eqn:E.
  - injection Hl as ->. apply list_elem_of_In in Hy as [->|Hy].
    + rewrite Forall_forall in Hall. apply Hall. by apply last_Some_elem_of in E.
    + apply IH; [done|]. by apply list_elem_of_In.
  - injection Hl as ->. destruct l; [|by rewrite last_cons in E; destruct (last l)].
    apply list_elem_of_singleton in Hy as ->. done.
Qed.

Lemma last_key_max io fd :
  is_Some (io !! fd) → ∃ k, last_key io = Some k ∧ fd ≤ k ∧ is_Some (io !! k).
Proof.
  intros [e Hfd]. apply elem_of_entries in Hfd. unfold last_key.
  destruct (last (entries io)) as [[k e']|] eqn:E.
  - exists k. split; [done|]. split.
    + assert (key_le (fd, e) (k, e')) as Hle; [|exact Hle].
      eapply (sorted_last key_le); [|exact E|done]. apply (StronglySorted_merge_sort key_le).
    + apply last_Some_elem_of in E. apply elem_of_entries in E. by eexists.
  - apply last_None in E. rewrite E in Hfd. by apply elem_of_nil in Hfd.
Qed.

Section setup_facts.
Context {Wc Wg D : Type} {body : bytes} `{CurlLaws Wc body} `{MainLoopLaws Wg}.
Implicit Type s : state Wc Wg D.

(** The sources of glib's are the fetcher's. *)
Definition sources (extra : gset Z) s : Prop :=
  tracked (io_channels_ (self s)) (main_loop s) ∧
  timed extra (timeout_source_ (self s)) (main_loop s).

Lemma setup_timeout_run extra s :
  sources extra s →
  ∃ wc' w' src, setup_timeout s =
      Val ((), with_timer (Some src) w' s <| curl := wc' |>) ∧
    tracked (io_channels_ (self s)) w' ∧ timed extra (Some src) w' ∧
    position wc' = position (curl s) ∧ wanted_fds wc' = wanted_fds (curl s).
Proof.
  intros [Htr Htm]. destruct s as [f wc wg d]. cbn in Htr, Htm.
  destruct (timeout_ok wc) as (Hc & Hpos & Hwant).
  destruct (curl_multi_timeout wc) as [[code ms] wc'] eqn:Ec. cbn in Hc, Hpos, Hwant. subst code.
  destruct (drop_timeout_run (Wc := Wc) (D := D) extra (mkState f wc' wg d) Htm)
    as (w1 & E1 & Ht1 & Hw1 & Hc1). cbn [main_loop] in Hw1, Hc1.
  set (ms' := if ms <? 0 then idle_ms_ f else ms).
  destruct (new_timer ms' w1) as (src & Hsrc & Hfresh & Hw2 & Hc2 & Ht2).
  destruct (g_timeout_source_new ms' w1) as [o w2] eqn:E2. cbn in Hsrc, Hw2, Hc2, Ht2. subst o.
  destruct (attach_timer src w2) as (Ht3 & Hw3 & Hc3).
  destruct (g_source_attach src w2) as [[] w3] eqn:E3. cbn in Ht3, Hw3, Hc3.
  exists wc', w3, src. split.
  - unfold setup_timeout, on_curl, on_glib, upd. mrun. cbn [curl]. rewrite Ec.
    unfold Prelude.update. cbn -[drop_timeout]. fold ms'. rewrite E1.
    cbn. rewrite E2. cbn. rewrite E3. reflexivity.
  - split; [|split; [|done]].
    + eapply tracked_same; [| |exact Htr]; congruence.
    + cbn. rewrite Ht3, Ht2, Ht1. rewrite Ht1 in Hfresh. done.
Qed.

Lemma SetupMainloopSources_run extra s :
  sources extra s →
  ∃ io' w' wc' src, SetupMainloopSources s =
      Val ((), with_timer (Some src) w' (with_io io' w' s) <| curl := wc' |>) ∧
    tracked io' w' ∧ timed extra (Some src) w' ∧
    (∀ fd, is_Some (io' !! fd) ↔ fd ∈ wanted_fds (curl s)) ∧
    (∀ fd e, fd ∈ wanted_fds (curl s) → io_channels_ (self s) !! fd = Some e → io' !! fd = Some e) ∧
    position wc' = position (curl s) ∧ wanted_fds wc' = wanted_fds (curl s).
Proof.
  intros [Htr Htm]. destruct s as [f wc wg d]. cbn [self main_loop curl] in *.
  pose proof (fdset_ok wc) as Hfd.
  destruct (curl_multi_fdset wc) as [[[code [[r wr] e]] fd_max] wc1] eqn:E1.
  destruct Hfd as (-> & Hwant & Hmax & Hpos1 & Hwant1).
  set (fd_max' := match last_key (io_channels_ f) with
                  | Some k => Z.max fd_max k | None => fd_max end).
  destruct (track_fds_run (Wc := Wc) (D := D) (wanted_fds wc) (seqZ 0 (fd_max' + 1))
              (NoDup_seqZ _ _) (mkState f wc1 wg d)) as (io' & w1 & E2 & Htr1 & Ht1 & Hio & Hkeep);
    [done|intros i Hi%elem_of_seqZ; lia|].
  cbn [self main_loop] in Ht1, Hio, Hkeep.
  destruct (setup_timeout_run extra (with_io io' w1 (mkState f wc1 wg d)))
    as (wc2 & w2 & src & E3 & Htr2 & Htm2 & Hpos2 & Hwant2).
  { split; [exact Htr1|]. cbn. unfold timed in *. by rewrite Ht1. }
  exists io', w2, wc2, src. split.
  { unfold SetupMainloopSources, on_curl. mrun. cbn [curl]. rewrite E1.
    unfold Prelude.update. cbn -[for_each setup_timeout seqZ]. fold fd_max'.
    rewrite <-Hwant, E2. rewrite E3. reflexivity. }
  split; [done|]. split; [done|]. split.
  - intros fd. rewrite Hio. case_decide as Hin; [done|]. rewrite elem_of_seqZ in Hin. split.
    + intros Hs. destruct (last_key_max _ _ Hs) as (k & Hk & Hle & _). exfalso. apply Hin.
      destruct Htr as [_ _ _ _ Hnn]. specialize (Hnn _ Hs). unfold fd_max'. rewrite Hk. lia.
    + intros Hw. specialize (Hmax _ Hw). exfalso. apply Hin. unfold fd_max'.
      destruct (last_key _); lia.
  - split; [|cbn in Hpos2, Hwant2; split; congruence]. intros fd en Hin. apply Hkeep. by left.
Qed.
End setup_facts.

(** [SetupMainloopSources], from any consistent table of channels: it never
    aborts, and afterwards there is exactly one glib watch (with a channel of
    its own) per fd libcurl asks for and no other, fds that were already
    watched keep their watch, and exactly one timer is attached. *)
Theorem SetupMainloopSources_tracks_fds {Wc Wg D} {body : bytes} `{CurlLaws Wc body}
    `{MainLoopLaws Wg} (s : state Wc Wg D) :
  sources ∅ s →
  ∃ s' src, SetupMainloopSources s = Val ((), s') ∧ sources ∅ s' ∧
    (∀ fd, is_Some (io_channels_ (self s') !! fd) ↔ fd ∈ wanted_fds (curl s)) ∧
    (∀ fd e, fd ∈ wanted_fds (curl s) → io_channels_ (self s) !! fd = Some e →
             io_channels_ (self s') !! fd = Some e) ∧
    timeout_source_ (self s') = Some src ∧ timers (main_loop s') = {[src]}.
Proof.
  intros Hs. destruct (SetupMainloopSources_run ∅ s Hs)
    as (io' & w' & wc' & src & E & Htr & Htm & Hfd & Hkeep & _).
  exists (with_timer (Some src) w' (with_io io' w' s) <| curl := wc' |>), src.
  split; [exact E|]. destruct s as [f wc wg d]. unfold Prelude.update.
  split; [split; [exact Htr|exact Htm]|]. split; [exact Hfd|]. split; [exact Hkeep|].
  split; [done|]. cbn. destruct Htm as [-> _]. set_solver.
Qed.

Section cleanup_facts.
Context {Wc Wg D : Type} {body : bytes} `{CurlLaws Wc body} `{MainLoopLaws Wg}.
Implicit Type s : state Wc Wg D.

Lemma drop_channels_run l : NoDup l.*1 → ∀ io s,
  tracked io (main_loop s) → (∀ fd e, (fd, e) ∈ l → io !! fd = Some e) →
  ∃ io' w', for_each (fun e => drop_channel e.2) l s = Val ((), s <| main_loop := w' |>) ∧
    tracked io' w' ∧ timers w' = timers (main_loop s) ∧
    (∀ fd, is_Some (io' !! fd) → is_Some (io !! fd) ∧ fd ∉ l.*1).
Proof.
  induction l as [|[fd e] l IH]; intros Hnd io s Htr Hin; cbn [for_each].
  - exists io, (main_loop s). split; [by destruct s|]. split; [done|]. split; [done|]. set_solver.
  - apply NoDup_cons in Hnd as [Hfd Hnd].
    destruct (tracked_drop _ _ _ _ Htr (Hin fd e ltac:(by left))) as [Htr1 Ht1].
    destruct s as [f wc wg d]. cbn [main_loop] in *.
    destruct (g_source_remove e.2 wg) as [[] w1] eqn:E1. cbn [snd] in Htr1, Ht1.
    destruct (g_io_channel_unref e.1 w1) as [[] w2] eqn:E2. cbn [snd] in Htr1, Ht1.
    destruct (IH Hnd _ (mkState f wc w2 d) Htr1) as (io' & w' & E3 & Htr' & Ht' & Hio).
    { intros fd' e' Hl. rewrite lookup_delete_Some. split; [|apply Hin; by right].
      intros <-. apply Hfd. apply list_elem_of_fmap. by exists (fd, e'). }
    exists io', w'. split.
    { rewrite (bind_run _ _ _ () (mkState f wc w2 d)); [exact E3|].
      unfold drop_channel, on_glib. mrun. cbn. rewrite E1. cbn. by rewrite E2. }
    split; [done|]. split; [by rewrite Ht'|]. intros j Hj. apply Hio in Hj as [Hj Hn].
    apply lookup_delete_is_Some in Hj as [Hne Hj]. split; [done|]. set_solver.
Qed.

Definition cleaned (f : t) : t :=
  mk (base f) false false ∅ None false (transfer_size_ f) (bytes_downloaded_ f)
     (resume_offset_ f) (idle_ms_ f).

Lemma entries_NoDup io : NoDup (entries io).*1.
Proof. unfold entries. rewrite merge_sort_Permutation. apply NoDup_fst_map_to_list. Qed.

Lemma tracked_empty io (w : Wg) : (∀ fd, ¬ is_Some (io !! fd)) → tracked io w →
  watches w = ∅ ∧ channels w = ∅ ∧ tracked ∅ w.
Proof.
  intros Hio Htr. assert (io = ∅) as ->.
  { apply map_eq. intros fd. rewrite lookup_empty. apply eq_None_not_Some. apply Hio. }
  destruct Htr as [Hw Hc ? ? ?]. split; [|split; [|done]].
  - apply map_eq. intros tag. rewrite lookup_empty. apply eq_None_not_Some. intros [ch Hch].
    apply Hw in Hch as (fd & Hfd). apply (Hio fd). by eexists.
  - apply set_eq. intros ch. rewrite Hc. split; [|set_solver]. intros (fd & tag & Hfd).
    exfalso. apply (Hio fd). by eexists.
Qed.

(** [CleanUp] returns every source and handle, and keeps the transfer's sizes. *)
Lemma CleanUp_run extra s :
  sources extra s →
  ∃ wc' wg', CleanUp s = Val ((), mkState (cleaned (self s)) wc' wg' (client s)) ∧
    sources extra (mkState (D := D) (cleaned (self s)) wc' wg' (client s)) ∧
    watches wg' = ∅ ∧ channels wg' = ∅.
Proof.
  intros [Htr Htm]. destruct (drop_timeout_run extra s Htm) as (w1 & E1 & Ht1 & Hw1 & Hc1).
  destruct s as [[ba mh eh io tm ip ts bd ro idle] wc wg d].
  cbn [self main_loop io_channels_ timeout_source_] in *.
  pose proof (tracked_same _ _ _ Hw1 Hc1 Htr) as Htr1.
  set (s1 := with_timer None w1 (mkState (mk ba mh eh io tm ip ts bd ro idle) wc wg d)) in E1.
  destruct (drop_channels_run (entries io) (entries_NoDup io) io s1 Htr1)
    as (io2 & w2 & E2 & Htr2 & Ht2 & Hio2); [intros ? ?; apply elem_of_entries|].
  destruct (tracked_empty io2 w2) as (Hwe & Hce & Htre); [|done|].
  { intros fd Hfd. apply Hio2 in Hfd as [[e Hfd] Hn]. apply Hn.
    apply elem_of_entries in Hfd. apply list_elem_of_fmap. by exists (fd, e). }
  assert (∃ wc', CleanUp (mkState (mk ba mh eh io tm ip ts bd ro idle) wc wg d) =
     Val ((), mkState (cleaned (mk ba mh eh io tm ip ts bd ro idle)) wc' w2 d)) as [wc' E].
  { unfold CleanUp. rewrite (bind_run _ _ _ _ _ E1). rewrite (bind_run (gets self) _ _ (self s1) s1) by done.
    change (io_channels_ (self s1)) with io. rewrite (bind_run _ _ _ _ _ E2).
    unfold upd, checked, on_curl, cleaned, s1, with_timer. mrun. unfold Prelude.update.
    assert (∀ w, ∃ w', curl_multi_cleanup w = (0, w')) as Hm.
    { intros w. pose proof (multi_cleanup_ok w). destruct (curl_multi_cleanup w). naive_solver. }
    assert (∀ w, ∃ w', curl_multi_remove_handle w = (0, w')) as Hr.
    { intros w. pose proof (remove_handle_ok w). destruct (curl_multi_remove_handle w). naive_solver. }
    assert (∀ w, ∃ w', curl_easy_cleanup w = ((), w')) as He.
    { intros w. destruct (curl_easy_cleanup w) as [[] ?]. eauto. }
    destruct (Hr wc) as [wc1 R1], (He wc) as [wc2 R2], (He wc1) as [wc3 R3],
      (Hm wc) as [wc4 R4], (Hm wc3) as [wc5 R5].
    destruct eh, mh; eexists; cbn; rewrite ?R1; cbn; rewrite ?R2, ?R3; cbn; rewrite ?R4, ?R5;
      reflexivity. }
  exists wc', w2. split; [exact E|]. split; [|done]. split; [exact Htre|]. cbn.
  rewrite Ht2. exact Ht1.
Qed.
End cleanup_facts.

(** ** A transfer delivers the body once *)

(** What the delegate was told. *)
Inductive delegate_event := Received (block : bytes) | Completed (successful : bool).

Section transfer.
Context {Wc Wg : Type} {body : bytes} `{CurlLaws Wc body} `{MainLoopLaws Wg}.
Abbreviation state := (state Wc Wg (list delegate_event)).

Definition log_received (bs : bytes) : M state unit :=
  modify (fun s => s <| client := client s ++ [Received bs] |>).
Definition log_completed (successful : bool) : M state unit :=
  modify (fun s => s <| client := client s ++ [Completed successful] |>).

Variable io_fuel : nat.
Hypothesis io_fuel_enough : (max_work (W := Wc) (body := body) ≤ io_fuel)%nat.
Hypothesis body_size : zlen body < 2 ^ 62.

Abbreviation perform_once := (CurlPerformOnce log_received log_completed io_fuel).
Abbreviation begin_transfer := (BeginTransfer log_received log_completed io_fuel).
Abbreviation fd_callback := (FDCallback log_received log_completed io_fuel).
Abbreviation timeout_callback := (TimeoutCallback log_received log_completed io_fuel).

(** The delegate has the first [bytes_downloaded_] bytes of the body. *)
Record downloaded (extra : gset Z) (s : state) : Prop := {
  dl_sources : sources extra s;
  dl_delegate : has_delegate (base (self s)) = true;
  dl_range : 0 ≤ resume_offset_ (self s) ≤ bytes_downloaded_ (self s);
  dl_end : bytes_downloaded_ (self s) ≤ zlen body;
  dl_size : transfer_size_ (self s) = zlen body ∨
            transfer_size_ (self s) = -1 ∧ bytes_downloaded_ (self s) = 0;
  dl_log : ∃ chunks, client s = Received <$> chunks ∧
             concat chunks = take (Z.to_nat (bytes_downloaded_ (self s))) body
}.

(** ... and a connection is going on. *)
Record flowing (extra : gset Z) (s : state) : Prop := {
  fl_downloaded : downloaded extra s;
  fl_progress : transfer_in_progress_ (self s) = true;
  fl_position : position (curl s) = (resume_offset_ (self s), bytes_downloaded_ (self s))
}.

Record finished (extra : gset Z) (s : state) : Prop := {
  fi_sources : sources extra s;
  fi_watches : watches (main_loop s) = ∅;
  fi_io : io_channels_ (self s) = ∅;
  fi_timer : timeout_source_ (self s) = None;
  fi_progress : transfer_in_progress_ (self s) = false;
  fi_log : ∃ chunks, client s = (Received <$> chunks) ++ [Completed true] ∧ concat chunks = body
}.

Lemma take_prefix (n : nat) (b : bytes) :
  b `prefix_of` drop n body → take n body ++ b = take (n + length b) body.
Proof.
  intros [k Hk]. rewrite <-take_take_drop, Hk. by rewrite take_app_length.
Qed.

Lemma LibcurlWrite_run extra block s :
  downloaded extra s → transfer_in_progress_ (self s) = true →
  position (curl s) = (resume_offset_ (self s), bytes_downloaded_ (self s) + zlen block) →
  block ≠ [] → zlen block ≤ 16384 →
  block `prefix_of` drop (Z.to_nat (bytes_downloaded_ (self s))) body →
  ∃ s', LibcurlWrite log_received block s = Val (zlen block, s') ∧ flowing extra s' ∧
    resume_offset_ (self s') = resume_offset_ (self s) ∧ work (curl s') = work (curl s).
Proof.
  intros [Hsrc Hdel Hr He Hsz (chunks & Hlog & Hcc)] Hp Hpos Hne Hlen Hpre.
  destruct s as [[ba mh eh io tm ip ts bd ro idle] wc wg d].
  cbn [self main_loop curl client base io_channels_ timeout_source_ transfer_in_progress_
       transfer_size_ bytes_downloaded_ resume_offset_] in *.
  destruct (content_length_ok wc) as (Hcl & Hpos1 & Hwork1).
  destruct (curl_content_length wc) as [[code n] wc1] eqn:Ec. cbn [fst snd] in Hcl, Hpos1, Hwork1.
  rewrite Hpos in Hcl. cbn [fst] in Hcl. injection Hcl as -> ->.
  pose proof (zlen_nonneg block).
  assert (0 < zlen block) as Hb0 by (destruct block; [done|rewrite zlen_cons; pose proof (zlen_nonneg block); lia]).
  assert (bd + zlen block ≤ zlen body) as Hend.
  { apply prefix_length in Hpre. rewrite length_drop in Hpre. unfold zlen in *. lia. }
  exists (mkState (mk ba mh eh io tm ip (zlen body) (bd + zlen block) ro idle) wc1 wg
            (d ++ [Received block])).
  split; [|split; [|done]].
  - unfold LibcurlWrite, on_curl, upd, log_received. mrun. unfold Prelude.update.
    cbn -[i64 usize zlen]. rewrite Ec. cbn -[i64 usize zlen].
    assert ((0 <? zlen body - ro) = true) as -> by (apply Z.ltb_lt; lia).
    cbn -[i64 usize zlen]. rewrite Hdel.
    replace (usize (zlen block)) with (zlen block) by (symmetry; apply u32_small; unfold is_u32; lia).
    rewrite (i64_small (bd + _)) by (unfold is_i64; lia).
    replace (ro + (zlen body - ro)) with (zlen body) by lia.
    rewrite i64_small by (unfold is_i64; pose proof (zlen_nonneg body); lia). done.
  - split; [|done|cbn; by rewrite Hpos1].
    split; cbn; [exact Hsrc|done|lia|done|by left|].
    exists (chunks ++ [block]). split; [by rewrite Hlog, fmap_app|].
    rewrite concat_app, Hcc. cbn [concat]. rewrite app_nil_r. rewrite take_prefix by done.
    f_equal. unfold zlen. lia.
Qed.

Lemma flowing_curl extra s wc' :
  flowing extra s → position wc' = position (curl s) → flowing extra (s <| curl := wc' |>).
Proof.
  intros [[? ? ? ? ? ?] ? ?] Hpos. destruct s as [f wc wg d]. cbn in *.
  split; [by split|done|]. cbn. by rewrite Hpos.
Qed.

(** Between two calls of [curl_multi_perform], and inside one. *)
Definition performing (extra : gset Z) (r : Z) (k : nat) (s : state) : Prop :=
  flowing extra s ∧ resume_offset_ (self s) = r ∧ (work (curl s) ≤ k)%nat.

Lemma perform_step_run extra r k s :
  performing extra r k s →
  ∃ o s', perform_step log_received () s = Val (o, s') ∧
    match o with
    | inl _ => performing extra r k s' ∧ (work (curl s') < work (curl s))%nat
    | inr (code, running) =>
        flowing extra s' ∧ resume_offset_ (self s') = r ∧
        (code = CURLM_CALL_MULTI_PERFORM → (work (curl s') < k)%nat) ∧
        (code ≠ CURLM_CALL_MULTI_PERFORM → running = 0 → r < bytes_downloaded_ (self s'))
    end.
Proof.
  intros (Hfl & Hr & Hk). destruct s as [f wc wg d]. cbn [self curl] in *.
  pose proof (perform_ok wc) as Hp. destruct (curl_perform_next wc) as [ev wc1] eqn:E1.
  pose proof Hfl as [Hdl Hprog Hpos]. cbn [self curl] in *. rewrite Hpos in Hp. cbn [fst snd] in Hp.
  destruct ev as [block|code running].
  - destruct Hp as (Hne & Hlen & Hpre & Hpos1 & Hw1).
    destruct (LibcurlWrite_run extra block (mkState f wc1 wg d)) as (s' & E2 & Hfl' & Hr' & Hw');
      [by destruct Hdl|done..|].
    exists (inl ()), s'. split.
    { unfold perform_step, on_curl. mrun. cbn [curl]. rewrite E1. unfold Prelude.update.
      cbn -[LibcurlWrite]. by rewrite E2. }
    cbn [self curl] in Hr', Hw'. split; [split; [done|split; [congruence|lia]]|lia].
  - destruct Hp as (Hpos1 & Hagain & Hdone). exists (inr (code, running)), (mkState f wc1 wg d).
    split.
    { unfold perform_step, on_curl. mrun. cbn [curl]. by rewrite E1. }
    split; [|split; [done|split]].
    + apply (flowing_curl extra (mkState f wc wg d) wc1 Hfl). cbn [curl]. by rewrite Hpos1, Hpos.
    + intros Hc. specialize (Hagain Hc). cbn [curl]. lia.
    + intros Hc Hz. rewrite <-Hr. by apply Hdone.
Qed.

Lemma perform_all_run extra r s :
  flowing extra s → resume_offset_ (self s) = r →
  ∃ running s', perform_all log_received io_fuel s = Val (running, s') ∧
    flowing extra s' ∧ resume_offset_ (self s') = r ∧
    (running = 0 → r < bytes_downloaded_ (self s')).
Proof.
  intros Hfl Hr.
  destruct (loop_total (fun (_ : unit) s => flowing extra s ∧ resume_offset_ (self s) = r)
    (fun running s' => flowing extra s' ∧ resume_offset_ (self s') = r ∧
       (running = 0 → r < bytes_downloaded_ (self s')))
    (fun _ s => work (curl s)) (perform_again log_received io_fuel)) with
      (fuel := io_fuel) (a := ()) (s := s) as (running & s' & E & Hpost); [|done|..].
  - intros [] s1 [Hfl1 Hr1].
    destruct (loop_total (fun (_ : unit) s => performing extra r (work (curl s1)) s)
      (fun '(code, running) s' => flowing extra s' ∧ resume_offset_ (self s') = r ∧
         (code = CURLM_CALL_MULTI_PERFORM → (work (curl s') < work (curl s1))%nat) ∧
         (code ≠ CURLM_CALL_MULTI_PERFORM → running = 0 → r < bytes_downloaded_ (self s')))
      (fun _ s => work (curl s)) (perform_step log_received)) with
        (fuel := io_fuel) (a := ()) (s := s1) as ([code running] & s2 & E & Hfl2 & Hr2 & Ha & Hd).
    + intros [] s2 Hp. destruct (perform_step_run _ _ _ _ Hp) as (o & s3 & E & Ho).
      exists o, s3. split; [done|]. destruct o as [[]|[code running]]; exact Ho.
    + split; [done|]. split; [done|lia].
    + pose proof (work_bound (curl s1)). lia.
    + exists (if code =? CURLM_CALL_MULTI_PERFORM then inl () else inr running), s2. split.
      { unfold perform_again, curl_multi_perform. by rewrite (bind_run _ _ _ _ _ E). }
      destruct (Z.eqb_spec code CURLM_CALL_MULTI_PERFORM) as [Hc|Hc].
      * split; [done|]. by apply Ha.
      * split; [done|]. split; [done|]. by apply Hd.
  - pose proof (work_bound (curl s)). lia.
  - exists running, s'. split; [exact E|exact Hpost].
Qed.

Lemma checked_run f (s : state) :
  (f (curl s)).1 = 0 → checked f s = Val ((), s <| curl := (f (curl s)).2 |>).
Proof.
  intros Hf. unfold checked, on_curl. mrun. destruct (f (curl s)) as [c w]. cbn in *. by subst c.
Qed.

(** Between two connections. *)
Record stopped (extra : gset Z) (s : state) : Prop := {
  st_downloaded : downloaded extra s;
  st_progress : transfer_in_progress_ (self s) = false;
  st_resume : bytes_downloaded_ (self s) = 0 → resume_offset_ (self s) = 0
}.

Lemma setopts_run (post : bool) data (s : state) :
  ∃ wc', (if post then
            checked (curl_easy_setopt (CURLOPT_POST 1));;
            checked (curl_easy_setopt (CURLOPT_POSTFIELDS data));;
            checked (curl_easy_setopt (CURLOPT_POSTFIELDSIZE (zlen data)))
          else mret ()) s = Val ((), s <| curl := wc' |>) ∧ position wc' = position (curl s).
Proof.
  destruct s as [f wc wg d]. destruct post; [|by exists wc].
  destruct (setopt_ok (CURLOPT_POST 1) wc) as [C1 P1].
  set (w1 := (curl_easy_setopt (CURLOPT_POST 1) wc).2) in *.
  destruct (setopt_ok (CURLOPT_POSTFIELDS data) w1) as [C2 P2].
  set (w2 := (curl_easy_setopt (CURLOPT_POSTFIELDS data) w1).2) in *.
  destruct (setopt_ok (CURLOPT_POSTFIELDSIZE (zlen data)) w2) as [C3 P3].
  exists (curl_easy_setopt (CURLOPT_POSTFIELDSIZE (zlen data)) w2).2. split; [|cbn; congruence].
  rewrite (bind_run _ _ _ () (mkState f w1 wg d)); [|by rewrite checked_run].
  rewrite (bind_run _ _ _ () (mkState f w2 wg d)); [|by rewrite checked_run].
  by rewrite checked_run.
Qed.

Lemma resume_run perform url extra s :
  stopped extra s → ∃ s1, resume_with perform url s = perform s1 ∧ flowing extra s1 ∧
    resume_offset_ (self s1) = bytes_downloaded_ (self s).
Proof.
  intros [[Hsrc Hdel Hr He Hsz Hlog] Hp Hres].
  destruct s as [[[u ps pd hd] mh eh io tm ip ts bd ro idle] wc wg d].
  cbn [self main_loop curl client base io_channels_ timeout_source_ transfer_in_progress_
       transfer_size_ bytes_downloaded_ resume_offset_ has_delegate] in *. subst hd ip.
  destruct (multi_init_ok wc) as [I1 P1]. destruct (curl_multi_init wc) as [b1 w1] eqn:E1.
  cbn [fst snd] in I1, P1. subst b1.
  destruct (easy_init_ok w1) as [I2 P2]. destruct (curl_easy_init w1) as [b2 w2] eqn:E2.
  cbn [fst snd] in I2, P2. subst b2.
  destruct (setopts_run ps pd (mkState (mk (mkFetcher url ps pd true) true true io tm false ts bd ro idle) w2 wg d))
    as (w3 & E3 & P3). cbn [curl] in P3.
  set (w4 := if 0 <? bd then (curl_easy_setopt (CURLOPT_RESUME_FROM_LARGE bd) w3).2 else w3).
  set (ro' := if 0 <? bd then bd else ro).
  assert (position w4 = (bd, bd) ∧ ro' = bd) as [P4 Hro].
  { unfold w4, ro'. destruct (Z.ltb_spec 0 bd); [by destruct (setopt_ok (CURLOPT_RESUME_FROM_LARGE bd) w3)|].
    assert (bd = 0) as -> by lia. rewrite P3, P2. split; [done|by apply Hres]. }
  destruct (setopt_ok CURLOPT_WRITEDATA w4) as [C5 P5].
  set (w5 := (curl_easy_setopt CURLOPT_WRITEDATA w4).2) in *.
  destruct (setopt_ok CURLOPT_WRITEFUNCTION w5) as [C6 P6].
  set (w6 := (curl_easy_setopt CURLOPT_WRITEFUNCTION w5).2) in *.
  destruct (setopt_ok (CURLOPT_URL (c_str url)) w6) as [C7 P7].
  set (w7 := (curl_easy_setopt (CURLOPT_URL (c_str url)) w6).2) in *.
  destruct (add_handle_ok w7) as [C8 P8]. set (w8 := (curl_multi_add_handle w7).2) in *.
  exists (mkState (mk (mkFetcher url ps pd true) true true io tm true ts bd ro' idle) w8 wg d).
  assert (position w8 = (bd, bd)) as P by congruence. split; [|split; [|done]].
  - set (B := mkFetcher url ps pd true) in *.
    unfold resume_with.
    rewrite gets_bind. rewrite CHECK_bind by done.
    rewrite (bind_run (upd _) _ _ () (mkState (mk B mh eh io tm false ts bd ro idle) wc wg d)) by reflexivity.
    rewrite (bind_run (on_curl curl_multi_init) _ _ true (mkState (mk B mh eh io tm false ts bd ro idle) w1 wg d))
      by (unfold on_curl; mrun; cbn [curl]; by rewrite E1).
    rewrite (bind_run (upd _) _ _ () (mkState (mk B true eh io tm false ts bd ro idle) w1 wg d)) by reflexivity.
    rewrite CHECK_bind by done.
    rewrite (bind_run (on_curl curl_easy_init) _ _ true (mkState (mk B true eh io tm false ts bd ro idle) w2 wg d))
      by (unfold on_curl; mrun; cbn [curl]; by rewrite E2).
    rewrite (bind_run (upd _) _ _ () (mkState (mk B true true io tm false ts bd ro idle) w2 wg d)) by reflexivity.
    rewrite CHECK_bind by done. rewrite gets_bind.
    rewrite (bind_run _ _ _ _ _ E3).
    rewrite (bind_run (if 0 <? bd then _ else _) _ _ () (mkState (mk B true true io tm false ts bd ro' idle) w4 wg d)).
    2: { unfold w4, ro'. destruct (0 <? bd); [|reflexivity].
         rewrite (bind_run (upd _) _ _ () (mkState (mk B true true io tm false ts bd bd idle) w3 wg d)) by reflexivity.
         rewrite checked_run; [done|]. by apply setopt_ok. }
    rewrite (bind_run (checked _) _ _ () (mkState (mk B true true io tm false ts bd ro' idle) w5 wg d))
      by (by rewrite checked_run).
    rewrite (bind_run (checked _) _ _ () (mkState (mk B true true io tm false ts bd ro' idle) w6 wg d))
      by (by rewrite checked_run).
    rewrite (bind_run (checked _) _ _ () (mkState (mk B true true io tm false ts bd ro' idle) w7 wg d))
      by (by rewrite checked_run).
    rewrite (bind_run (checked _) _ _ () (mkState (mk B true true io tm false ts bd ro' idle) w8 wg d))
      by (by rewrite checked_run).
    rewrite (bind_run (upd _) _ _ () (mkState (mk B true true io tm true ts bd ro' idle) w8 wg d)) by reflexivity.
    reflexivity.
  - split; [split|done|]; cbn; [exact Hsrc|done|lia|done|exact Hsz|exact Hlog|].
    rewrite P. by rewrite Hro.
Qed.

(** Between two callbacks of the main loop: the fetcher watches what libcurl
    asked for and waits for a timer. *)
Definition waiting (extra : gset Z) (s : state) : Prop :=
  flowing extra s ∧ is_Some (timeout_source_ (self s)) ∧
  ∀ fd, is_Some (io_channels_ (self s) !! fd) ↔ fd ∈ wanted_fds (curl s).

Lemma sources_eq extra (s s' : state) :
  io_channels_ (self s') = io_channels_ (self s) → timeout_source_ (self s') = timeout_source_ (self s) →
  main_loop s' = main_loop s → sources extra s → sources extra s'.
Proof. unfold sources. by intros -> -> ->. Qed.

Lemma waiting_after_setup extra s :
  flowing extra s → ∃ s', SetupMainloopSources s = Val ((), s') ∧ waiting extra s'.
Proof.
  intros [[Hsrc Hdel Hr He Hsz Hlog] Hp Hpos].
  destruct (SetupMainloopSources_run extra s Hsrc)
    as (io' & w' & wc' & src & E & Htr & Htm & Hfd & _ & Hpos' & Hw').
  eexists. split; [exact E|]. destruct s as [f wc wg d]. cbn in *.
  split; [split; [split|..]|split]; cbn; try done; [by rewrite Hpos'|].
  intros fd. rewrite Hfd. by rewrite Hw'.
Qed.

Lemma finished_after_cleanup extra s wc' wg' :
  downloaded extra s → transfer_size_ (self s) = bytes_downloaded_ (self s) →
  0 < bytes_downloaded_ (self s) →
  sources extra (mkState (cleaned (self s)) wc' wg' (client s)) → watches wg' = ∅ →
  finished extra (mkState (cleaned (self s)) wc' wg' (client s ++ [Completed true])).
Proof.
  intros [_ Hdel Hr He Hsz (chunks & Hlog & Hcc)] Hts Hpos Hsrc Hw.
  split; cbn; [exact Hsrc|done..|]. exists chunks. rewrite Hlog. split; [done|].
  rewrite Hcc. apply take_ge. unfold zlen in *. lia.
Qed.

Lemma CurlPerformOnce_run fuel extra s :
  flowing extra s → (Z.to_nat (zlen body - resume_offset_ (self s)) < fuel)%nat →
  ∃ s', perform_once fuel s = Val ((), s') ∧ (waiting extra s' ∨ finished extra s').
Proof.
  revert s. induction fuel as [|fuel IH]; intros s Hfl Hfuel; [lia|].
  cbn [CurlPerformOnce]. rewrite gets_bind. rewrite CHECK_bind by apply (fl_progress _ _ Hfl).
  destruct (perform_all_run extra _ s Hfl eq_refl) as (running & s1 & E1 & Hfl1 & Hr1 & Hrun).
  rewrite (bind_run _ _ _ _ _ E1). destruct (Z.eqb_spec running 0) as [->|Hrunning].
  2: { destruct (waiting_after_setup extra s1 Hfl1) as (s' & E & Hw). exists s'. split; [exact E|by left]. }
  specialize (Hrun eq_refl). pose proof Hfl1 as [Hdl1 _ _].
  pose proof Hdl1 as [Hsrc1 Hdel1 Hrange1 He1 Hsz1 Hlog1].
  assert (transfer_size_ (self s1) = zlen body) as Hts by (destruct Hsz1; lia).
  destruct (CleanUp_run extra s1 Hsrc1) as (wc2 & wg2 & E2 & Hsrc2 & Hw2 & _).
  rewrite (bind_run _ _ _ _ _ E2), gets_bind. cbn [self cleaned transfer_size_ bytes_downloaded_ base].
  rewrite Hts. assert (0 ≤ zlen body) by apply zlen_nonneg.
  assert ((0 <=? zlen body) = true) as -> by lia. cbn [andb].
  destruct (Z.ltb_spec (bytes_downloaded_ (self s1)) (zlen body)) as [Hlt|Hge].
  - destruct (resume_run (perform_once fuel) (url_ (base (self s1))) extra
      (mkState (cleaned (self s1)) wc2 wg2 (client s1))) as (s3 & -> & Hfl3 & Hr3).
    { split; cbn; [split; done|done|lia]. }
    apply IH; [done|]. rewrite Hr3. cbn. lia.
  - rewrite Hdel1. eexists. split; [reflexivity|]. right.
    eapply (finished_after_cleanup extra s1); try done; lia.
Qed.

(** glib destroys a timer whose callback returned [false]. *)
Definition destroyed (src : Z) (s : state) : state :=
  s <| main_loop := (g_source_destroy src (main_loop s)).2 |>.

(** The states of a transfer between the callbacks of the main loop. *)
Inductive reaches (fuel : nat) (url : bytes) (s0 : state) : state → Prop :=
| reaches_begin s :
    begin_transfer fuel url s0 = Val ((), s) → reaches fuel url s0 s
| reaches_fd s fd ch tag s' :
    reaches fuel url s0 s → io_channels_ (self s) !! fd = Some (ch, tag) →
    fd_callback fuel ch s = Val (false, s') → reaches fuel url s0 s'
| reaches_timer s src s' :
    reaches fuel url s0 s → timeout_source_ (self s) = Some src →
    timeout_callback fuel s = Val (false, s') → reaches fuel url s0 (destroyed src s').

(** A fetcher with a delegate that is not transferring anything. *)
Record idle (s : state) : Prop := {
  id_sources : sources ∅ s;
  id_delegate : has_delegate (base (self s)) = true;
  id_progress : transfer_in_progress_ (self s) = false;
  id_log : client s = []
}.

Variable fuel : nat.
Hypothesis fuel_enough : (length body < fuel)%nat.

Lemma begin_run url s :
  idle s → ∃ s', begin_transfer fuel url s = Val ((), s') ∧ (waiting ∅ s' ∨ finished ∅ s').
Proof.
  intros [Hsrc Hdel Hp Hlog]. destruct s as [f wc wg d].
  unfold BeginTransfer. rewrite (bind_run (upd _) _ _ () (mkState
    (f <| transfer_size_ := -1 |> <| bytes_downloaded_ := 0 |> <| resume_offset_ := 0 |>) wc wg d))
    by reflexivity. unfold ResumeTransfer.
  destruct (resume_run (perform_once fuel) url ∅ (mkState
    (f <| transfer_size_ := -1 |> <| bytes_downloaded_ := 0 |> <| resume_offset_ := 0 |>) wc wg d))
    as (s1 & -> & Hfl & Hr).
  { pose proof (zlen_nonneg body). split; [split|..]; try done; cbn; try lia.
    exists []. split; [exact Hlog|done]. }
  apply CurlPerformOnce_run; [done|]. rewrite Hr. cbn. unfold zlen. lia.
Qed.

Lemma find_channel_run io (w : Wg) fd ch tag :
  tracked io w → io !! fd = Some (ch, tag) → find_channel ch io = Some (fd, (ch, tag)).
Proof.
  intros Htr Hio. unfold find_channel.
  assert (Exists (fun e => e.2.1 = ch) (entries io)) as Hex.
  { apply Exists_exists. exists (fd, (ch, tag)). split; [by apply elem_of_entries|done]. }
  destruct (list_find (fun e => e.2.1 = ch) (entries io)) as [[i [fd' [ch' tag']]]|] eqn:E.
  - apply list_find_Some in E as (Hi & Hch & _). cbn in Hch. subst ch'. cbn.
    apply list_elem_of_lookup_2, elem_of_entries in Hi.
    assert (fd' = fd) as -> by (by eapply tr_chan). congruence.
  - apply list_find_None in E. by apply Forall_not_Exists in E.
Qed.

Lemma fd_callback_run s fd ch tag :
  waiting ∅ s → io_channels_ (self s) !! fd = Some (ch, tag) →
  ∃ s', fd_callback fuel ch s = Val (false, s') ∧ (waiting ∅ s' ∨ finished ∅ s').
Proof.
  intros [Hfl _] Hio. pose proof Hfl as [[[Htr Htm] Hdel Hr He Hsz Hlog] Hp Hpos].
  destruct (tracked_drop _ _ _ _ Htr Hio) as [Htr1 Ht1]. destruct s as [f wc wg d].
  cbn [self main_loop curl client fst snd] in *.
  destruct (g_source_remove tag wg) as [[] w1] eqn:E1. cbn [snd] in Htr1, Ht1.
  destruct (g_io_channel_unref ch w1) as [[] w2] eqn:E2. cbn [snd] in Htr1, Ht1.
  set (s1 := mkState (f <| io_channels_ := delete fd (io_channels_ f) |>) wc w2 d).
  destruct (CurlPerformOnce_run fuel ∅ s1) as (s' & E3 & Hs').
  { split; [split|..]; try done. split; [done|]. cbn. unfold timed in *. by rewrite Ht1. }
  { cbn. unfold zlen. lia. }
  exists s'. split; [|done]. unfold FDCallback. rewrite gets_bind. cbn [self].
  rewrite (find_channel_run _ _ _ _ _ Htr Hio).
  rewrite (bind_run _ _ _ () (mkState f wc w2 d)).
  2: { unfold drop_channel, on_glib. mrun. cbn. rewrite E1. cbn. by rewrite E2. }
  rewrite (bind_run (upd _) _ _ () s1) by reflexivity.
  by rewrite (bind_run _ _ _ _ _ E3).
Qed.

Lemma timeout_callback_run s src :
  waiting ∅ s → timeout_source_ (self s) = Some src →
  ∃ s', timeout_callback fuel s = Val (false, s') ∧
    (waiting ∅ (destroyed src s') ∨ finished ∅ (destroyed src s')).
Proof.
  intros [Hfl _] Hsrc. pose proof Hfl as [[[Htr Htm] Hdel Hr He Hsz Hlog] Hp Hpos].
  destruct s as [f wc wg d]. cbn [self main_loop curl client] in *. rewrite Hsrc in Htm.
  set (s1 := mkState (f <| timeout_source_ := None |>) wc wg d).
  destruct (CurlPerformOnce_run fuel {[src]} s1) as (s' & E & Hs').
  { split; [split|..]; try done. split; [done|]. cbn. destruct Htm as [-> _]. set_solver. }
  { cbn. unfold zlen. lia. }
  exists s'. split.
  { unfold TimeoutCallback. rewrite (bind_run (upd _) _ _ () s1) by reflexivity.
    by rewrite (bind_run _ _ _ _ _ E). }
  destruct s' as [f' wc' wg' d']. unfold destroyed. cbn [main_loop].
  destruct (destroy_timer src wg') as (Ht' & Hw' & Hc'). set (wg2 := (g_source_destroy src wg').2) in *.
  destruct Hs' as [[[[[Htr2 Htm2] ? ? ? ? ?] ? ?] [[src2 Hs2] Hfd2]]|[[Htr2 Htm2] Hwe ? ? ? ?]]; [left|right].
  - cbn [self main_loop] in *. rewrite Hs2 in Htm2. destruct Htm2 as [Htm2 Hn].
    split; [split; [split|..]|split]; try done.
    + split; [exact (tracked_same _ _ _ Hw' Hc' Htr2)|]. cbn. rewrite Hs2. split; [|set_solver].
      rewrite Ht', Htm2. set_solver.
  - cbn [self main_loop] in *. split; try done.
    + split; [exact (tracked_same _ _ _ Hw' Hc' Htr2)|]. cbn in Htm2 |- *.
      destruct (timeout_source_ f'); [done|]. cbn in *. rewrite Ht', Htm2. set_solver.
    + cbn. by rewrite Hw'.
Qed.

Lemma reaches_run url s0 s :
  idle s0 → reaches fuel url s0 s → waiting ∅ s ∨ finished ∅ s.
Proof.
  intros Hidle. induction 1 as [s E|s fd ch tag s' _ IH Hio E|s src s' _ IH Hsrc E].
  - destruct (begin_run url s0 Hidle) as (s' & E' & Hs'). congruence.
  - destruct IH as [Hw|Hf]; [|by rewrite (fi_io _ _ Hf) in Hio].
    destruct (fd_callback_run s fd ch tag Hw Hio) as (s2 & E' & Hs2). congruence.
  - destruct IH as [Hw|Hf]; [|by rewrite (fi_timer _ _ Hf) in Hsrc].
    destruct (timeout_callback_run s src Hw Hsrc) as (s2 & E' & Hs2). congruence.
Qed.
End transfer.

(** C17. A transfer with resumption, against a server that announces the length
    of its body and closes no connection before its first byte: whatever the
    sizes of the blocks, the points at which connections close, and the order
    in which fds and timers fire, [BeginTransfer] and every callback return
    (never a failed [CHECK]); while the transfer goes on the delegate has
    received exactly the first [bytes_downloaded_] bytes, in order; it ends
    with the delegate having received the body once and been told of the
    completion once, every watch and timer of the fetcher's removed. *)
Theorem transfer_delivers_body_once {Wc Wg} {body : bytes} `{CurlLaws Wc body}
    `{MainLoopLaws Wg} io_fuel fuel url (s0 : state Wc Wg (list delegate_event)) :
  (max_work (W := Wc) (body := body) ≤ io_fuel)%nat → zlen body < 2 ^ 62 →
  (length body < fuel)%nat → idle s0 →
  (∃ s, BeginTransfer log_received log_completed io_fuel fuel url s0 = Val ((), s)) ∧
  ∀ s, reaches io_fuel fuel url s0 s →
    (∀ fd ch tag, io_channels_ (self s) !! fd = Some (ch, tag) →
       ∃ s', FDCallback log_received log_completed io_fuel fuel ch s = Val (false, s')) ∧
    (∀ src, timeout_source_ (self s) = Some src →
       ∃ s', TimeoutCallback log_received log_completed io_fuel fuel s = Val (false, s')) ∧
    ∃ chunks,
      (transfer_in_progress_ (self s) = true ∧ is_Some (timeout_source_ (self s)) ∧
       client s = Received <$> chunks ∧
       concat chunks = take (Z.to_nat (bytes_downloaded_ (self s))) body) ∨
      (transfer_in_progress_ (self s) = false ∧ watches (main_loop s) = ∅ ∧
       timers (main_loop s) = ∅ ∧
       client s = (Received <$> chunks) ++ [Completed true] ∧ concat chunks = body).
Proof.
  intros Hio Hsize Hfuel Hidle. split.
  { destruct (begin_run io_fuel Hio Hsize fuel Hfuel url s0 Hidle) as (s & E & _). by exists s. }
  intros s Hs. pose proof (reaches_run io_fuel Hio Hsize fuel Hfuel url s0 s Hidle Hs) as [Hw|Hf].
  - split; [|split].
    + intros fd ch tag E. destruct (fd_callback_run io_fuel Hio Hsize fuel Hfuel s fd ch tag Hw E)
        as (s' & E' & _). by exists s'.
    + intros src E. destruct (timeout_callback_run io_fuel Hio Hsize fuel Hfuel s src Hw E)
        as (s' & E' & _). by exists s'.
    + destruct Hw as [[[_ _ _ _ _ (chunks & Hlog & Hcc)] Hp _] [Ht _]]. exists chunks. by left.
  - destruct Hf as [[_ Htm] Hw Hio' Ht Hp (chunks & Hlog & Hcc)]. rewrite Ht in Htm.
    split; [|split]; [by rewrite Hio'|by rewrite Ht|]. exists chunks. by right.
Qed.

(** A main loop that hands out unused numbers. *)
Module FreshLoop.
Record t := mkLoop { watched : gmap Z Z; held : gset Z; armed : gset Z }.

#[global] Instance calls : MainLoop t := {|
  g_io_channel_unix_new _ w :=
    (fresh (held w), mkLoop (watched w) ({[fresh (held w)]} ∪ held w) (armed w));
  g_io_add_watch ch w :=
    (fresh (dom (watched w)), mkLoop (<[fresh (dom (watched w)) := ch]> (watched w)) (held w) (armed w));
  g_io_channel_unref ch w := ((), mkLoop (watched w) (held w ∖ {[ch]}) (armed w));
  g_source_remove tag w := ((), mkLoop (delete tag (watched w)) (held w) (armed w));
  g_timeout_source_new _ w := (Some (fresh (armed w)), w);
  g_source_attach src w := ((), mkLoop (watched w) (held w) ({[src]} ∪ armed w));
  g_source_destroy src w := ((), mkLoop (watched w) (held w) (armed w ∖ {[src]}))
|}.

#[global, refine] Instance laws : MainLoopLaws t := {|
  watches := watched; channels := held; timers := armed
|}.
Proof.
  - intros fd w. cbn. split; [apply is_fresh|done].
  - intros ch w. cbn. split; [|done]. apply not_elem_of_dom. apply is_fresh.
  - done.
  - done.
  - intros ms w. eexists. split; [done|]. split; [apply is_fresh|done].
  - done.
  - done.
Defined.
End FreshLoop.

(** A server of "abc" that closes every connection after two bytes. *)
Module ShortServer.
Definition body : bytes := str "abc".
Definition t : Type := Z * Z.

Definition next (w : t) : perform_event * t :=
  if decide (w.1 = w.2 ∧ drop (Z.to_nat w.2) body ≠ []) then
    let block := take 2 (drop (Z.to_nat w.2) body) in (Deliver block, (w.1, w.2 + zlen block))
  else (Return 0 (if w.1 <? w.2 then 0 else 1), w).

#[global] Instance calls : Curl t := {|
  curl_multi_init w := (true, w);
  curl_easy_init w := (true, (0, 0));
  curl_easy_setopt o w :=
    (CURLE_OK, match o with CURLOPT_RESUME_FROM_LARGE n => (n, n) | _ => w end);
  curl_multi_add_handle w := (CURLM_OK, w);
  curl_multi_remove_handle w := (CURLM_OK, w);
  curl_easy_cleanup w := ((), w);
  curl_multi_cleanup w := (CURLM_OK, w);
  curl_perform_next := next;
  curl_content_length w := ((CURLE_OK, zlen body - w.1), w);
  curl_easy_pause _ w := (CURLE_OK, w);
  curl_multi_fdset w := (CURLM_OK, ({[3]}, ∅, ∅), 3, w);
  curl_multi_timeout w := ((CURLM_OK, -1), w)
|}.

#[global, refine] Instance laws : CurlLaws t body := {|
  position w := w;
  work w := if decide (w.1 = w.2) then 1%nat else 0%nat;
  max_work := 2%nat;
  wanted_fds _ := {[3]}
|}.
Proof.
  - intros w. case_decide; lia.
  - done.
  - done.
  - by intros [] w.
  - done.
  - done.
  - done.
  - intros [a b]. cbn -[next]. unfold next. cbn [fst snd]. case_decide as Hd.
    + destruct Hd as [-> Hne]. cbn [fst snd].
      assert (take 2 (drop (Z.to_nat b) body) ≠ []) as Hne2 by (destruct (drop _ body); done).
      assert (0 < zlen (take 2 (drop (Z.to_nat b) body))).
      { unfold zlen. destruct (take 2 _); [done|cbn; lia]. }
      split; [done|]. split; [unfold zlen; rewrite length_take; lia|].
      split; [apply prefix_take|]. split; [done|].
      repeat case_decide; lia.
    + split; [done|]. split; [done|]. intros _. cbn. destruct (Z.ltb_spec a b); [done|lia].
  - done.
  - intros w. cbn. split; [done|]. split; [set_solver|]. split; [|done]. intros i. set_solver by lia.
  - done.
Defined.
End ShortServer.

Definition sample_fetcher : state ShortServer.t FreshLoop.t (list delegate_event) :=
  mkState (mk (mkFetcher [] false [] true) false false ∅ None false 0 0 0 1000)
    (0, 0) (FreshLoop.mkLoop ∅ ∅ ∅) [].

Lemma sample_idle : idle sample_fetcher.
Proof.
  split; [|done..]. split; [|done]. split; cbn; try done.
  - intros tag ch. rewrite lookup_empty. split; [done|]. intros [? [=]].
  - intros ch. split; [set_solver|]. intros (? & ? & [=]).
  - intros fd [? [=]].
Qed.

(** Two connections, one completion. *)
Lemma sample_transfer :
  client <$> (match BeginTransfer log_received log_completed 2 4 [] sample_fetcher with
              | Val (_, s) => Some s | Fault _ => None end) =
  Some [Received (str "ab"); Received (str "c"); Completed true].
Proof. vm_compute. reflexivity. Qed.

Lemma transfer_delivers_body_once_witness :
  ∃ s, BeginTransfer log_received log_completed 2 4 [] sample_fetcher = Val ((), s).
Proof.
  refine (proj1 (transfer_delivers_body_once (body := ShortServer.body) 2 4 [] sample_fetcher _ _ _ _)).
  - simpl; lia.
  - vm_compute; reflexivity.
  - simpl; lia.
  - exact sample_idle.
Defined.

Lemma SetupMainloopSources_tracks_fds_witness :
  ∃ s' src, SetupMainloopSources sample_fetcher = Val ((), s') ∧ sources ∅ s' ∧
    (∀ fd, is_Some (io_channels_ (self s') !! fd) ↔ fd ∈ wanted_fds (W := ShortServer.t) (curl sample_fetcher)) ∧
    (∀ fd e, fd ∈ wanted_fds (W := ShortServer.t) (curl sample_fetcher) →
             io_channels_ (self sample_fetcher) !! fd = Some e →
             io_channels_ (self s') !! fd = Some e) ∧
    timeout_source_ (self s') = Some src ∧ timers (main_loop s') = {[src]}.
Proof.
  refine (SetupMainloopSources_tracks_fds (body := ShortServer.body) sample_fetcher _).
  exact (id_sources _ sample_idle).
Defined.
