(* ===== verification/UpdateAttempter.v ===== *)
(** * The update engine's main program: main.cc.

    [UpdateAttempter] allocates the seven actions of an attempt, queues and
    bonds them and starts the processor; [ProcessingDone] quits the main loop
    or starts the second, full attempt.  Actions are objects on a heap
    ([objects]); their own [PerformAction] is an argument of the model, except
    for PostinstallRunnerAction's, which is BootActions.v's. *)

From S2P Require Import Prelude CppString Utils ActionProcessor Actions BootActions Omaha.

Inductive kind :=
| OmahaRequestPrep | UpdateCheck | OmahaResponseHandler | FilesystemCopier
| Download | PostinstallRunner | SetBootableFlag.
#[export] Instance kind_eq_dec : EqDecision kind.
Proof. solve_decision. Defined.

Module UpdateAttempter.
Record t (E : Type) := mk {
  full_update_ : bool;
  attempt_actions_ : list aid;
  response_handler_action_ : option aid;
  (** the actions alive, and the address of the next one *)
  objects : gmap aid kind;
  next_object : aid;
  (** the response handlers whose [GotNoUpdateResponse()] is true *)
  no_update : gset aid;
  (** the pipes, by the type of object they carry *)
  params_pipes : store (T := UpdateCheckParams);
  response_pipes : store (T := UpdateCheckResponse);
  plan_pipes : store (T := InstallPlan);
  device_pipes : store (T := bytes);
  (** [g_main_loop_quit] was called *)
  quit : bool;
  world : E
}.
Arguments mk {E} _ _ _ _ _ _ _ _ _ _ _ _.
Arguments full_update_ {E} _.
Arguments attempt_actions_ {E} _.
Arguments response_handler_action_ {E} _.
Arguments objects {E} _.
Arguments next_object {E} _.
Arguments no_update {E} _.
Arguments params_pipes {E} _.
Arguments response_pipes {E} _.
Arguments plan_pipes {E} _.
Arguments device_pipes {E} _.
Arguments quit {E} _.
Arguments world {E} _.
#[global] Instance eta_t E : Eta (t E) := fun r =>
  mk (full_update_ r) (attempt_actions_ r) (response_handler_action_ r) (objects r)
     (next_object r) (no_update r) (params_pipes r) (response_pipes r) (plan_pipes r)
     (device_pipes r) (quit r) (world r).

Definition construct {E} (w : E) : state (t E) :=
  mkState new_processor ∅
    (mk false [] None ∅ 0%nat ∅ empty_store empty_store empty_store empty_store false w).

Section attempter.
Context {E : Type} `{PosixDir E, Shell E}.
Abbreviation program := (state (t E)).

Definition upd (f : t E → t E) : M program unit := modify (fun s => s <| rest := f (rest s) |>).
Definition on {T} (get : t E → store (T := T)) (put : store → t E → t E)
    (m : M (store (T := T)) unit) : M program unit :=
  zoom (fun s => get (rest s)) (fun p s => s <| rest := put p (rest s) |>) m.

(** [shared_ptr<K> action(new K)]. *)
Definition new_action (k : kind) : M program aid :=
  a ← gets (fun s => next_object (rest s));
  upd (fun u => u <| objects := <[a := k]> (objects u) |> <| next_object := S a |>);;
  mret a.

(** [BondActions], by the type of the pipe. *)
Definition bond_params (from to : aid) : M program unit :=
  on params_pipes (fun p u => u <| params_pipes := p |>) (Bond default_UpdateCheckParams from to).
Definition bond_response (from to : aid) : M program unit :=
  on response_pipes (fun p u => u <| response_pipes := p |>) (Bond default_UpdateCheckResponse from to).
Definition bond_plan (from to : aid) : M program unit :=
  on plan_pipes (fun p u => u <| plan_pipes := p |>) (Bond default_InstallPlan from to).
Definition bond_device (from to : aid) : M program unit :=
  on device_pipes (fun p u => u <| device_pipes := p |>) (Bond ([] : bytes) from to).

Definition Update_with (h : hooks (t E)) (force_full_update : bool) : M program unit :=
  upd (fun u => u <| full_update_ := force_full_update |>);;
  running ← gets IsRunning;
  CHECK (negb running);;
  set_delegate true;;
  request_prep_action ← new_action OmahaRequestPrep;
  update_check_action ← new_action UpdateCheck;
  response_handler_action ← new_action OmahaResponseHandler;
  filesystem_copier_action ← new_action FilesystemCopier;
  download_action ← new_action Download;
  postinstall_runner_action ← new_action PostinstallRunner;
  set_bootable_flag_action ← new_action SetBootableFlag;
  upd (fun u => u <| response_handler_action_ := Some response_handler_action |>);;
  upd (fun u => u <| attempt_actions_ := attempt_actions_ u ++
         [request_prep_action; update_check_action; response_handler_action;
          filesystem_copier_action; download_action; postinstall_runner_action;
          set_bootable_flag_action] |>);;
  actions ← gets (fun s => attempt_actions_ (rest s));
  for_each EnqueueAction actions;;
  bond_params request_prep_action update_check_action;;
  bond_response update_check_action response_handler_action;;
  bond_plan response_handler_action filesystem_copier_action;;
  bond_plan filesystem_copier_action download_action;;
  bond_device postinstall_runner_action set_bootable_flag_action;;
  StartProcessing h.

(** [actions_.clear(); response_handler_action_.reset();]: the last references. *)
Definition drop_actions : M program unit :=
  upd (fun u => u <| objects := filter (fun e => e.1 ∉ attempt_actions_ u ∨
                        Some e.1 = response_handler_action_ u) (objects u) |>
                  <| attempt_actions_ := [] |>);;
  upd (fun u => u <| objects := match response_handler_action_ u with
                                | Some a => delete a (objects u)
                                | None => objects u
                                end |>
                  <| response_handler_action_ := None |>).

Definition GotNoUpdateResponse (a : aid) (u : t E) : bool := bool_decide (a ∈ no_update u).

Definition ProcessingDone_with (update : bool → M program unit) (success : bool) : M program unit :=
  r ← gets (fun s => response_handler_action_ (rest s));
  match r with
  | None => fail CheckFailed
  | Some a =>
      none ← gets (fun s => GotNoUpdateResponse a (rest s));
      if none : bool then upd (fun u => u <| quit := true |>)
      else
        full ← gets (fun s => full_update_ (rest s));
        if negb success && negb full then
          drop_actions;;
          update true
        else upd (fun u => u <| quit := true |>)
  end.

(** The system calls of an action run in the world of the program. *)
Definition lift {A} (f : E → A * E) (s : program) : A * program :=
  let '(a, w) := f (world (rest s)) in (a, s <| rest := (rest s) <| world := w |> |>).
#[local] Instance dir_calls : PosixDir program := {|
  sys_opendir p := lift (sys_opendir p);
  sys_readdir d := lift (sys_readdir d);
  sys_closedir d := lift (sys_closedir d);
  sys_unlink p := lift (sys_unlink p);
  sys_rmdir p := lift (sys_rmdir p);
  sys_mount d m f := lift (sys_mount d m f);
  sys_umount m := lift (sys_umount m)
|}.
#[local] Instance shell : Shell program := {| sys_system c := lift (sys_system c) |}.

(** What action [a], of devices to devices, sees of the program. *)
Definition device_host (h : hooks (t E)) (a : aid) : ActionHost program bytes bytes := {|
  host_input s := in_pipe_ (device_pipes (rest s)) !! a ≫= fun p => contents_ (device_pipes (rest s)) !! p;
  host_has_output s := HasOutputPipe a (device_pipes (rest s));
  host_set_output x s := match out_pipe_ (device_pipes (rest s)) !! a with
    | Some p => s <| rest := (rest s) <| device_pipes := (device_pipes (rest s))
                  <| contents_ := <[p := x]> (contents_ (device_pipes (rest s))) |> |> |>
    | None => s
    end;
  host_complete success := ActionComplete h a success
|}.

(** The virtual methods; [n] bounds the nesting of attempts and synchronous
    completions. *)
Variable perform : hooks (t E) → kind → aid → M program unit.
Variable terminate : kind → aid → M program unit.

Definition failed_hooks : hooks (t E) :=
  mkHooks _ (fun _ => fail OutOfFuel) (fun _ => fail OutOfFuel) (fun _ => fail OutOfFuel)
    (fail OutOfFuel) (fun _ _ => fail OutOfFuel).

Definition with_kind (a : aid) (f : kind → M program unit) : M program unit :=
  objs ← gets (fun s => objects (rest s));
  match objs !! a with Some k => f k | None => fail Undefined end.

Fixpoint attempter (n : nat) : hooks (t E) :=
  match n with
  | O => failed_hooks
  | S n => {|
      PerformAction a := with_kind a (fun k =>
        match k with
        | PostinstallRunner =>
            PostinstallRunnerAction.PerformAction (H1 := device_host (attempter n) a)
        | k => perform (attempter n) k a
        end);
      TerminateProcessing a := with_kind a (fun k => terminate k a);
      ProcessingDone success := ProcessingDone_with (Update_with (attempter n)) success;
      ProcessingStopped := mret ();
      ActionCompleted _ _ := mret ()
    |}
  end.

(** [UpdateInMainLoop]. *)
Definition UpdateInMainLoop (n : nat) : M program unit := Update_with (attempter n) false.
End attempter.
End UpdateAttempter.

(** ** The attempts as an abstract machine *)

Import UpdateAttempter.

(** Waiting for the current action of an attempt, or out of the main loop. *)
Inductive phase := Waiting (full : bool) (k : kind) | Over.

(** What the main loop reports: the current action finishes, or it is the
    response handler's turn and there is no update. *)
Inductive outcome := Finished (success : bool) | NoUpdate.

Definition pipeline : list kind :=
  [OmahaRequestPrep; UpdateCheck; OmahaResponseHandler; FilesystemCopier; Download;
   PostinstallRunner; SetBootableFlag].

Definition next_kind (k : kind) : option kind :=
  match k with
  | OmahaRequestPrep => Some UpdateCheck
  | UpdateCheck => Some OmahaResponseHandler
  | OmahaResponseHandler => Some FilesystemCopier
  | FilesystemCopier => Some Download
  | _ => None
  end.

(** [None]: the process dies. *)
Definition advance (full : bool) (k : kind) (o : outcome) : option phase :=
  match o with
  | Finished true => Waiting full <$> next_kind k
  | Finished false => Some (if full then Over else Waiting true OmahaRequestPrep)
  | NoUpdate => Some Over
  end.

Section refinement.
Context {E : Type} `{PosixDir E, Shell E}.
Abbreviation program := (state (t E)).

(** Code that leaves the processor, the objects and the attempter alone; it may
    do anything to the world and put objects in the pipes. *)
Record same_control (s s' : program) : Prop := {
  sc_processor : processor s' = processor s;
  sc_attached : processor_ s' = processor_ s;
  sc_full : full_update_ (rest s') = full_update_ (rest s);
  sc_actions : attempt_actions_ (rest s') = attempt_actions_ (rest s);
  sc_handler : response_handler_action_ (rest s') = response_handler_action_ (rest s);
  sc_objects : objects (rest s') = objects (rest s);
  sc_next : next_object (rest s') = next_object (rest s);
  sc_no_update : no_update (rest s') = no_update (rest s);
  sc_pipes : in_pipe_ (device_pipes (rest s')) = in_pipe_ (device_pipes (rest s));
  sc_quit : quit (rest s') = quit (rest s)
}.

(** Actions start their work and return to the main loop. *)
Variable perform : hooks (t E) → kind → aid → M program unit.
Variable terminate : kind → aid → M program unit.
Hypothesis perform_returns : ∀ h k a s, ∃ s', perform h k a s = Val ((), s') ∧ same_control s s'.

Abbreviation attempter n := (attempter perform terminate n).

(** One report of the main loop, after whatever else it ran. *)
Inductive reports (n : nat) (s : program) : outcome → result (unit * program) → Prop :=
| reports_finished a success s1 :
    current_action_ (processor s) = Some a → same_control s s1 →
    reports n s (Finished success) (ActionComplete (attempter n) a success s1)
| reports_no_update a s1 :
    current_action_ (processor s) = Some a → objects (rest s) !! a = Some OmahaResponseHandler →
    same_control s s1 →
    reports n s NoUpdate (ActionComplete (attempter n) a false
      (s1 <| rest := (rest s1) <| no_update := {[a]} ∪ no_update (rest s1) |> |>)).

(** The attempt whose actions start at address [b], the first [i] being done. *)
Record alive (full : bool) (b i : nat) (s : program) : Prop := {
  al_delegate : delegate_ (processor s) = true;
  al_attached a : (b + i ≤ a < b + 7)%nat → a ∈ processor_ s;
  al_fresh a : a ∈ processor_ s → (a < b + 7)%nat;
  al_full : full_update_ (rest s) = full;
  al_actions : attempt_actions_ (rest s) = seq b 7;
  al_handler : response_handler_action_ (rest s) = Some (b + 2)%nat;
  al_objects j k : pipeline !! j = Some k → objects (rest s) !! (b + j)%nat = Some k;
  al_next : next_object (rest s) = (b + 7)%nat;
  al_no_update a : a ∈ no_update (rest s) → (a < b + 7)%nat;
  al_input : in_pipe_ (device_pipes (rest s)) !! (b + 5)%nat = None;
  al_pipes a : is_Some (in_pipe_ (device_pipes (rest s)) !! a) → (a < b + 7)%nat;
  al_running : quit (rest s) = false
}.

(** About to start action [i]; running action [i]. *)
Definition queued (full : bool) (b i : nat) (s : program) : Prop :=
  alive full b i s ∧ current_action_ (processor s) = None ∧
  ActionProcessor.actions_ (processor s) = seq (b + i) (7 - i).
Definition attempt (full : bool) (b i : nat) (s : program) : Prop :=
  (i < 5)%nat ∧ alive full b i s ∧ current_action_ (processor s) = Some (b + i)%nat ∧
  ActionProcessor.actions_ (processor s) = seq (b + S i) (6 - i).

Definition in_phase (p : phase) (s : program) : Prop :=
  match p with
  | Waiting full k => ∃ b i, pipeline !! i = Some k ∧ attempt full b i s ∧
                     (b + 2)%nat ∉ no_update (rest s)
  | Over => quit (rest s) = true ∧ current_action_ (processor s) = None
  end.

Lemma alive_same full b i s s' : alive full b i s → same_control s s' → alive full b i s'.
Proof.
  intros [] [Hp Ha Hf Hac Hh Ho Hn Hu Hpi Hq].
  split; rewrite ?Hp, ?Ha, ?Hf, ?Hac, ?Hh, ?Ho, ?Hn, ?Hu, ?Hpi, ?Hq; done.
Qed.

Lemma attempt_same full b i s s' : attempt full b i s → same_control s s' → attempt full b i s'.
Proof.
  intros (Hi & Hal & Hc & Hq) Hs. split; [done|]. split; [by eapply alive_same|].
  by rewrite (sc_processor _ _ Hs).
Qed.

Lemma queued_same full b i s s' : queued full b i s → same_control s s' → queued full b i s'.
Proof.
  intros (Hal & Hc & Hq) Hs. split; [by eapply alive_same|]. by rewrite (sc_processor _ _ Hs).
Qed.

Lemma enqueue_all l : NoDup l → ∀ s : program, (∀ a, a ∈ l → a ∉ processor_ s) →
  for_each EnqueueAction l s =
  Val ((), mkState (mkProcessor (ActionProcessor.actions_ (processor s) ++ l)
                      (current_action_ (processor s)) (delegate_ (processor s)))
             (list_to_set l ∪ processor_ s) (rest s)).
Proof.
  induction 1 as [|a l Ha Hnd IH]; intros [[q c d] P r] Hin; cbn [for_each].
  - cbn. by rewrite app_nil_r, union_empty_l_L.
  - rewrite (bind_run _ _ _ () (mkState (mkProcessor (q ++ [a]) c d) ({[a]} ∪ P) r)).
    + rewrite IH; [|cbn; set_solver]. cbn. rewrite <-app_assoc. cbn. do 3 f_equal. set_solver.
    + unfold EnqueueAction, upd_processor, SetProcessor. mrun. unfold Prelude.update. cbn.
      rewrite bool_decide_false by (apply Hin; by left). done.
Qed.

(** Starting an action of the attempt: the sixth, PostinstallRunnerAction, has
    no input pipe and kills the process. *)
Lemma start_front_run full b i n s :
  queued full b i s → (i ≤ 5)%nat →
  if decide (i = 5)%nat then start_front (attempter (S n)) s = Fault CheckFailed
  else ∃ s', start_front (attempter (S n)) s = Val ((), s') ∧ attempt full b i s' ∧
         no_update (rest s') = no_update (rest s).
Proof.
  intros (Hal & Hc & Hq) Hi. destruct s as [[q c d] P r]. cbn in Hc, Hq. subst c q.
  assert (∃ k, pipeline !! i = Some k) as [k Hk].
  { apply lookup_lt_is_Some. cbn. lia. }
  set (s1 := mkState (mkProcessor (seq (b + S i) (6 - i)) (Some (b + i)%nat) d) P r).
  assert (alive full b i s1) as Hal1 by (by destruct Hal; split).
  assert (start_front (attempter (S n)) (mkState (mkProcessor (seq (b + i) (7 - i)) None d) P r) =
    PerformAction (attempter (S n)) (b + i)%nat s1) as ->.
  { unfold start_front. rewrite gets_bind. cbn [processor ActionProcessor.actions_].
    replace (7 - i)%nat with (S (6 - i)) by lia. cbn [seq]. unfold s1.
    by rewrite <-plus_n_Sm. }
  cbn [attempter UpdateAttempter.attempter PerformAction]. unfold with_kind. rewrite gets_bind.
  rewrite (al_objects _ _ _ _ Hal1 _ _ Hk). case_decide as H5.
  - subst i. injection Hk as <-. unfold PostinstallRunnerAction.PerformAction, get_input.
    mrun. cbn [host_input device_host rest]. by rewrite (al_input _ _ _ _ Hal1).
  - destruct (perform_returns (attempter n) k (b + i)%nat s1) as (s' & Hp & Hs').
    exists s'. split; [|split; [|by rewrite (sc_no_update _ _ Hs')]].
    2: { eapply attempt_same; [|exact Hs']. split; [lia|done]. }
    rewrite <-Hp. destruct i as [|[|[|[|[|i]]]]]; try (injection Hk as <-; reflexivity). lia.
Qed.

Lemma bond_control {T} (get : t E → store (T := T)) put (m : M (store (T := T)) unit) (s : program) :
  (∃ p, m (get (rest s)) = Val ((), p)) →
  (∀ p (u : t E), same_control (mkState (processor s) (processor_ s) u)
                               (mkState (processor s) (processor_ s) (put p u))) →
  ∃ s', on get put m s = Val ((), s') ∧ same_control s s'.
Proof.
  intros [p Hm] Hput. unfold on. mrun. rewrite Hm. eexists. split; [reflexivity|].
  specialize (Hput p (rest s)). by destruct s.
Qed.

Lemma Bond_returns {T} (x : T) from to p : ∃ p', Bond x from to p = Val ((), p') ∧
  ∃ q, in_pipe_ p' = <[to := q]> (in_pipe_ p).
Proof. eexists. split; [reflexivity|]. by eexists. Qed.

(** Between two attempts (or before the first). *)
Record between (b : nat) (s : program) : Prop := {
  bt_current : current_action_ (processor s) = None;
  bt_queue : ActionProcessor.actions_ (processor s) = [];
  bt_fresh a : a ∈ processor_ s → (a < b)%nat;
  bt_actions : attempt_actions_ (rest s) = [];
  bt_next : next_object (rest s) = b;
  bt_no_update a : a ∈ no_update (rest s) → (a < b)%nat;
  bt_pipes a : is_Some (in_pipe_ (device_pipes (rest s)) !! a) → (a < b)%nat;
  bt_running : quit (rest s) = false
}.

(** The four pipes between the first five actions. *)
Lemma bonds_run a1 b1 a2 b2 a3 b3 a4 b4 (s : program) :
  ∃ s', same_control s s' ∧ ∀ K : M program unit,
    (bond_params a1 b1;; bond_response a2 b2;; bond_plan a3 b3;; bond_plan a4 b4;; K) s = K s'.
Proof.
  assert (∀ s' s'' : program, same_control s s' → same_control s' s'' → same_control s s'') as Htr.
  { intros s' s'' [] []. split; congruence. }
  destruct (bond_control params_pipes (fun p u => u <| params_pipes := p |>)
    (Bond default_UpdateCheckParams a1 b1) s) as (s1 & R1 & Hs1);
    [destruct (Bond_returns default_UpdateCheckParams a1 b1 (params_pipes (rest s))) as (? & ? & _); eauto|by split|].
  destruct (bond_control response_pipes (fun p u => u <| response_pipes := p |>)
    (Bond default_UpdateCheckResponse a2 b2) s1) as (s2 & R2 & Hs2);
    [destruct (Bond_returns default_UpdateCheckResponse a2 b2 (response_pipes (rest s1))) as (? & ? & _); eauto|by split|].
  destruct (bond_control plan_pipes (fun p u => u <| plan_pipes := p |>)
    (Bond default_InstallPlan a3 b3) s2) as (s3 & R3 & Hs3);
    [destruct (Bond_returns default_InstallPlan a3 b3 (plan_pipes (rest s2))) as (? & ? & _); eauto|by split|].
  destruct (bond_control plan_pipes (fun p u => u <| plan_pipes := p |>)
    (Bond default_InstallPlan a4 b4) s3) as (s4 & R4 & Hs4);
    [destruct (Bond_returns default_InstallPlan a4 b4 (plan_pipes (rest s3))) as (? & ? & _); eauto|by split|].
  exists s4. split; [eauto 6|]. intros K. unfold bond_params. rewrite (bind_run _ _ _ _ _ R1).
  unfold bond_response. rewrite (bind_run _ _ _ _ _ R2).
  unfold bond_plan at 1. rewrite (bind_run _ _ _ _ _ R3).
  unfold bond_plan. by rewrite (bind_run _ _ _ _ _ R4).
Qed.

Lemma attempt_started full b n s :
  between b s →
  ∃ s', Update_with (attempter (S n)) full s = Val ((), s') ∧ attempt full b 0 s' ∧
    no_update (rest s') = no_update (rest s).
Proof.
  intros [Hc Hq Hfr Hac Hnx Hnu Hpi Hqu]. pose proof (start_front_run full b 0 n) as Hstart.
  revert Hstart. generalize (attempter (S n)). intros h Hstart.
  destruct s as [[q c d] P [fu va ha ob nx nu p1 p2 p3 p4 qt w]]. cbn in *. subst c q va nx qt.
  set (objs := foldr (fun e m => <[e.2 := e.1]> m) ob (rev (zip pipeline (seq b 7)))).
  set (r := mk full (seq b 7) (Some (b + 2)%nat) objs (b + 7)%nat nu p1 p2 p3 p4 false w).
  set (s1 := mkState (mkProcessor (seq b 7) None true) (list_to_set (seq b 7) ∪ P) r).
  assert (∀ K, (r ← gets (fun s : program => attempt_actions_ (rest s)); for_each EnqueueAction r;; K)
     (mkState (mkProcessor [] None true) P r) = (K : M program unit) s1) as Henq.
  { intros K. rewrite gets_bind. erewrite bind_run; [reflexivity|].
    rewrite enqueue_all; [reflexivity|apply NoDup_seq|].
    cbn [rest attempt_actions_ r processor_]. intros a Ha HP. apply elem_of_seq in Ha.
    specialize (Hfr _ HP). lia. }
  assert (queued full b 0 (s1 : program)) as Hs1.
  { split; [split|split]; cbn [processor processor_ rest s1 r delegate_ full_update_ attempt_actions_
      response_handler_action_ next_object no_update device_pipes quit current_action_
      ActionProcessor.actions_]; try done; [..|by rewrite Nat.add_0_r].
    - intros a Ha. apply elem_of_union. left. apply elem_of_list_to_set, elem_of_seq. lia.
    - intros a [Ha%elem_of_list_to_set%elem_of_seq|Ha]%elem_of_union; [lia|].
      specialize (Hfr _ Ha). lia.
    - intros j k Hj. unfold objs. cbn.
      do 7 (destruct j as [|j]; [injection Hj as <-; rewrite Nat.add_comm; cbn [Nat.add];
        rewrite ?lookup_insert_ne by lia; by rewrite lookup_insert_eq|]). done.
    - intros a Hs. specialize (Hnu _ Hs). lia.
    - apply eq_None_not_Some. intros Hs. specialize (Hpi _ Hs). lia.
    - intros a Hs. specialize (Hpi _ Hs). lia. }
  assert (Update_with h full
    (mkState (mkProcessor [] None d) P (mk fu [] ha ob b nu p1 p2 p3 p4 false w)) =
    (bond_params b (S b);; bond_response (S b) (S (S b));; bond_plan (S (S b)) (S (S (S b)));;
     bond_plan (S (S (S b))) (S (S (S (S b))));;
     bond_device (S (S (S (S (S b))))) (S (S (S (S (S (S b))))));;
     StartProcessing h) s1) as ->.
  { rewrite <-Henq. unfold Update_with. 
    rewrite (bind_run (upd _) _ _ () (mkState (mkProcessor [] None d) P
      (mk full [] ha ob b nu p1 p2 p3 p4 false w))) by reflexivity.
    rewrite gets_bind, CHECK_bind by done. unfold r. rewrite (Nat.add_comm b 2), (Nat.add_comm b 7).
    reflexivity. }
  destruct (bonds_run b (S b) (S b) (S (S b)) (S (S b)) (S (S (S b))) (S (S (S b)))
    (S (S (S (S b)))) s1) as (s2 & Hs2 & ->).
  pose proof (queued_same _ _ _ _ _ Hs1 Hs2) as Hq2.
  destruct (Bond_returns ([] : bytes) (S (S (S (S (S b))))) (S (S (S (S (S (S b))))))
    (device_pipes (rest s2))) as (p' & Hp & q & Hin).
  unfold bond_device, on. rewrite (bind_run _ _ _ () (s2 <| rest := (rest s2) <| device_pipes := p' |> |>)).
  2: { mrun. by rewrite Hp. }
  destruct s2 as [[q2 c2 d2] P2 [fu2 va2 ha2 ob2 nx2 nu2 p12 p22 p32 p42 qt2 w2]].
  destruct Hq2 as (Hal2 & Hc2 & Hqq2). cbn in Hp, Hin, Hc2, Hqq2. subst c2 q2.
  unfold StartProcessing. rewrite gets_bind, CHECK_bind by done. rewrite gets_bind.
  rewrite decide_False by done. unfold Prelude.update. cbn [rest].
  destruct (Hstart (mkState (mkProcessor (seq (b + 0) (7 - 0)) None d2) P2
    (mk fu2 va2 ha2 ob2 nx2 nu2 p12 p22 p32 p' qt2 w2))) as (s' & Hs' & Hat & Hnu'); [|lia|].
  2: { exists s'. split; [done|]. split; [done|]. rewrite Hnu'. exact (sc_no_update _ _ Hs2). }
  split; [|done]. destruct Hal2. split; try done; cbn in *; rewrite Hin.
  - rewrite lookup_insert_ne by lia. done.
  - intros a [<-|[_ Ha]]%lookup_insert_is_Some; [lia|eauto].
Qed.

(** The processor's part of the completion of the current action. *)
Lemma complete_run full b i n success s :
  attempt full b i s →
  ∃ s', same_control s s' ∧
    ActionComplete (attempter (S n)) (b + i)%nat success s =
    let s1 := mkState (mkProcessor (if success then seq (b + S i) (6 - i) else []) None true)
                (processor_ s ∖ {[(b + i)%nat]}) (rest s') in
    if success then start_front (attempter (S n)) s1
    else ProcessingDone_with (Update_with (attempter n)) false s1.
Proof.
  intros (Hi & Hal & Hc & Hq). exists s. split; [by split|].
  destruct s as [[q c d] P r]. cbn in Hc, Hq. subst c q.
  pose proof (al_delegate _ _ _ _ Hal) as Hd. cbn in Hd. subst d.
  assert ((b + i)%nat ∈ P) as HP by (apply (al_attached _ _ _ _ Hal); lia).
  unfold ActionComplete. rewrite gets_bind, CHECK_bind by (by apply bool_decide_true).
  rewrite (bind_run _ _ _ () (mkState (mkProcessor (seq (b + S i) (6 - i)) (Some (b + i)%nat) true) P r))
    by reflexivity.
  rewrite gets_bind. cbn [processor current_action_].
  rewrite (bind_run _ _ _ () (mkState (mkProcessor (seq (b + S i) (6 - i)) (Some (b + i)%nat) true)
    (P ∖ {[(b + i)%nat]}) r)).
  2: { unfold SetProcessor. mrun. cbn. by rewrite bool_decide_true by done. }
  replace (6 - i)%nat with (S (5 - i)) by lia. cbn [seq].
  destruct success; reflexivity.
Qed.

(** The completion of the current action of an attempt. *)
Lemma outcome_run full b i n success none k s s1 :
  pipeline !! i = Some k → attempt full b i s → same_control s s1 →
  (b + 2)%nat ∉ no_update (rest s) → (none = true → success = false) →
  let s2 := if none : bool
            then s1 <| rest := (rest s1) <| no_update := {[(b + 2)%nat]} ∪ no_update (rest s1) |> |>
            else s1 in
  match (if none then Some Over else advance full k (Finished success)) with
  | Some p => ∃ s', ActionComplete (attempter (S (S n))) (b + i)%nat success s2 = Val ((), s') ∧
                    in_phase p s'
  | None => ActionComplete (attempter (S (S n))) (b + i)%nat success s2 = Fault CheckFailed
  end.
Proof.
  intros Hk Hat Hs1 Hno Hnone s2. pose proof (attempt_same _ _ _ _ _ Hat Hs1) as Hat1.
  rewrite <-(sc_no_update _ _ Hs1) in Hno.
  assert (attempt full b i s2) as Hat2.
  { unfold s2. destruct none; [|done]. destruct s1 as [p P u].
    destruct Hat1 as (? & [] & ? & ?). split; [done|]. split; [|done]. split; try done.
    cbn. intros a [->%elem_of_singleton|Ha]%elem_of_union; [lia|]. by apply al_no_update0. }
  destruct (complete_run _ _ _ (S n) success _ Hat2) as (s3 & Hs3 & ->).
  pose proof (alive_same _ _ _ _ _ (proj1 (proj2 Hat2)) Hs3) as Hal3.
  destruct Hat2 as (Hi & _ & _ & _).
  rewrite <-(sc_attached _ _ Hs3). cbn zeta.
  set (s4 := mkState _ _ _).
  destruct success.
  - destruct none; [by discriminate Hnone|].
    assert (queued full b (S i) s4) as Hq4.
    { split; [|done]. destruct Hal3. split; cbn; try done.
      - intros a Ha. apply elem_of_difference. split; [apply al_attached0; lia|].
        rewrite elem_of_singleton. lia.
      - intros a [Ha _]%elem_of_difference. eauto. }
    pose proof (start_front_run full b (S i) (S n) s4 Hq4 ltac:(lia)) as Hst.
    destruct i as [|[|[|[|[|i]]]]]; try lia; injection Hk as <-; cbn [advance next_kind fmap option_fmap option_map];
      rewrite ?decide_True, ?decide_False in Hst by lia; try exact Hst.
    all: destruct Hst as (s' & Hst & Hat' & Hnu'); exists s'; split; [exact Hst|].
    all: eexists b, _; split; [|split; [exact Hat'|]]; [done|].
    all: rewrite Hnu'; unfold s4; cbn; rewrite (sc_no_update _ _ Hs3); exact Hno.
  - unfold ProcessingDone_with. rewrite gets_bind. cbn [rest s4]. rewrite (al_handler _ _ _ _ Hal3).
    rewrite gets_bind. unfold GotNoUpdateResponse. cbn [rest s4].
    rewrite (sc_no_update _ _ Hs3). destruct none.
    + rewrite bool_decide_true by (unfold s2; destruct s1; cbn; set_solver).
      eexists. split; [reflexivity|]. done.
    + rewrite bool_decide_false by exact Hno. rewrite gets_bind. cbn [rest s4 advance negb andb].
      rewrite (al_full _ _ _ _ Hal3). destruct full; cbn [negb].
      { eexists. split; [reflexivity|]. done. }
      destruct (attempt_started true (b + 7) n (s4 <| rest :=
          (rest s3) <| objects := delete (b + 2)%nat (filter (fun e => e.1 ∉ attempt_actions_ (rest s3) ∨
              Some e.1 = response_handler_action_ (rest s3)) (objects (rest s3))) |>
            <| attempt_actions_ := [] |> <| response_handler_action_ := None |> |>))
        as (s' & Hup & Hat' & Hnu').
      { destruct Hal3. split; try done. cbn. intros a [Ha _]%elem_of_difference. eauto. }
      exists s'. split; [|exists (b + 7)%nat, 0%nat; split; [done|split; [done|]]].
      * rewrite <-Hup. unfold drop_actions, s4. destruct s3 as [p3 P3 [fu va ha ob nx nu p1 p2 p3' p4 qt w]].
        pose proof (al_handler _ _ _ _ Hal3) as Hh. cbn in Hh. subst ha. reflexivity.
      * rewrite Hnu'. unfold s4. cbn. intros Hin.
        apply (al_no_update _ _ _ _ Hal3) in Hin. lia.
Qed.

(** The states of the main loop, from [main]'s [UpdateInMainLoop] on. *)
Inductive reachable (n : nat) (w : E) : list outcome → program → Prop :=
| reachable_start s :
    UpdateInMainLoop perform terminate n (construct w) = Val ((), s) → reachable n w [] s
| reachable_step os s o s' :
    reachable n w os s → quit (rest s) = false → reports n s o (Val ((), s')) →
    reachable n w (os ++ [o]) s'.

Definition run_phase (os : list outcome) : option phase :=
  foldl (fun p o => match p with
    | Some (Waiting full k) => advance full k o
    | p => p
    end) (Some (Waiting false OmahaRequestPrep)) os.

Lemma reports_run n full k o s r :
  in_phase (Waiting full k) s → reports (S (S n)) s o r →
  match advance full k o with
  | Some p => ∃ s', r = Val ((), s') ∧ in_phase p s'
  | None => r = Fault CheckFailed
  end.
Proof.
  intros (b & i & Hk & Hat & Hno) Hr. pose proof Hat as (Hi & Hal & Hc & _).
  destruct Hr as [a success s1 Ha Hs1|a s1 Ha Hobj Hs1]; assert (a = (b + i)%nat) as -> by congruence.
  - exact (outcome_run full b i n success false k s s1 Hk Hat Hs1 Hno ltac:(done)).
  - rewrite (al_objects _ _ _ _ Hal _ _ Hk) in Hobj. injection Hobj as ->.
    assert (i = 2)%nat as ->.
    { destruct i as [|[|[|[|[|i]]]]]; try done; lia. }
    exact (outcome_run full b 2 n false true _ s s1 Hk Hat Hs1 Hno ltac:(done)).
Qed.

Lemma start_run n w :
  ∃ s, UpdateInMainLoop perform terminate (S n) (construct w) = Val ((), s) ∧
       in_phase (Waiting false OmahaRequestPrep) s.
Proof.
  destruct (attempt_started false 0 n (construct w)) as (s & Hup & Hat & Hnu).
  { split; cbn; try done; try set_solver. intros a [x Hx]. by rewrite lookup_empty in Hx. }
  exists s. split; [exact Hup|]. exists 0%nat, 0%nat. split; [done|]. split; [done|].
  rewrite Hnu. cbn. apply not_elem_of_empty.
Qed.

Lemma reachable_phase n w os s :
  reachable (S (S n)) w os s → ∃ p, run_phase os = Some p ∧ in_phase p s.
Proof.
  induction 1 as [s Hup|os s o s' _ (p & Hp & Hin) Hq Hr].
  - destruct (start_run (S n) w) as (s' & Hup' & Hin). rewrite Hup in Hup'.
    injection Hup' as <-. exists (Waiting false OmahaRequestPrep). split; [reflexivity|exact Hin].
  - unfold run_phase in *. rewrite foldl_snoc, Hp. destruct p as [full k|].
    + pose proof (reports_run n full k o s _ Hin Hr) as Hstep.
      destruct (advance full k o) as [p|]; [|discriminate Hstep].
      destruct Hstep as (s2 & [= <-] & Hin2). exists p. split; [reflexivity|exact Hin2].
    + destruct Hin as [Hin _]. by rewrite Hin in Hq.
Qed.
End refinement.


(** ** What the machine says about updates *)

(** How many reports can lead to a phase. *)
Definition rank (p : phase) : nat :=
  match p with
  | Waiting full k =>
      (if full then 5 else 0) +
      match k with
      | OmahaRequestPrep => 0 | UpdateCheck => 1 | OmahaResponseHandler => 2
      | FilesystemCopier => 3 | _ => 4
      end
  | Over => 10
  end.

Lemma advance_rank full k o p : advance full k o = Some p → (rank (Waiting full k) < rank p)%nat.
Proof.
  destruct o as [[]|]; cbn [advance]; [|intros [= <-]; destruct full, k; cbn; lia..].
  destruct k; cbn; intros [= <-]; destruct full; cbn; lia.
Qed.

Lemma advance_over full k o : advance full k o = Some Over → o ≠ Finished true.
Proof. intros Ha ->. by destruct k. Qed.


(** Actions that only start. *)
Module Starters.
#[global] Instance dirs : PosixDir unit := {|
  sys_opendir _ w := (None, w); sys_readdir _ w := ((0, None), w); sys_closedir _ w := (0, w);
  sys_unlink _ w := (0, w); sys_rmdir _ w := (0, w); sys_mount _ _ _ w := (0, w);
  sys_umount _ w := (0, w) |}.
#[global] Instance shell : Shell unit := {| sys_system _ w := (0, w) |}.
Definition perform (_ : hooks (t unit)) (_ : kind) (_ : aid) : M (state (t unit)) unit := mret ().
Definition terminate (_ : kind) (_ : aid) : M (state (t unit)) unit := mret ().
Lemma perform_returns h k a s : ∃ s', perform h k a s = Val ((), s') ∧ same_control s s'.
Proof. exists s. split; [done|by split]. Qed.
End Starters.

Definition first_state : state (t unit) :=
  match UpdateInMainLoop Starters.perform Starters.terminate 2 (construct ()) with
  | Val (_, s) => s
  | Fault _ => construct ()
  end.

Lemma first_reachable : reachable Starters.perform Starters.terminate 2 () [] first_state.
Proof. constructor. vm_compute. reflexivity. Qed.


