(* ===== verification/WmUtil.v ===== *)
(** * The window manager's utilities: util.{h,cc}.

    [Stacker] (an ordered list of items with an index of iterators into it),
    [ByteMap] (rectangles drawn into an array of bytes), [FindWithDefault],
    [XidStr] and [NextPowerOfTwo].  The time functions, which compute with
    [double], are not modelled. *)

From S2P Require Import Prelude CppString.

(** [FindWithDefault]. *)
Definition FindWithDefault {K V} `{Countable K} (the_map : gmap K V) (key : K) (def : V) : V :=
  match the_map !! key with None => def | Some v => v end.

(** [StringPrintf("0x%lx", xid)]. *)
Definition hex_char (d : Z) : byte := byte_of (if d <? 10 then 48 + d else 87 + d).
Fixpoint hex (n : nat) (z : Z) (acc : bytes) : bytes :=
  match n with
  | O => acc
  | S n => if z <? 16 then hex_char z :: acc else hex n (z / 16) (hex_char (z mod 16) :: acc)
  end.
Definition XidStr (xid : Z) : bytes := str "0x" ++ hex 8 (u32 xid) [].

(** [NextPowerOfTwo], on [uint32]. *)
Definition NextPowerOfTwo (x : Z) : Z :=
  let x := u32 (x - 1) in
  let x := Z.lor x (Z.shiftr x 1) in
  let x := Z.lor x (Z.shiftr x 2) in
  let x := Z.lor x (Z.shiftr x 4) in
  let x := Z.lor x (Z.shiftr x 8) in
  let x := Z.lor x (Z.shiftr x 16) in
  u32 (x + 1).

(** ** Stacker *)

Module Stacker.
Section stacker.
Context {T : Type} `{Countable T}.

(** [items_] is a [std::list]: its nodes have an identity, and an iterator is
    the identity of a node. *)
Record t := mk {
  items_ : list (nat * T);
  index_ : gmap T nat;
  next_node : nat
}.
#[global] Instance eta_t : Eta t := fun r => mk (items_ r) (index_ r) (next_node r).
Definition new : t := mk [] ∅ 0.

Definition items (s : t) : list T := (items_ s).*2.
Definition Contains (s : t) (item : T) : bool := bool_decide (is_Some (index_ s !! item)).

Fixpoint index_from (i : Z) (l : list (nat * T)) (item : T) : Z :=
  match l with
  | [] => -1
  | (_, x) :: l' => if decide (x = item) then i else index_from (i + 1) l' item
  end.
Definition GetIndex (s : t) (item : T) : Z := index_from 0 (items_ s) item.

(** The nodes from the one at [it] on; [None] for an iterator that points to no
    node of the list. *)
Fixpoint from_node (it : nat) (l : list (nat * T)) : option (list (nat * T)) :=
  match l with
  | [] => None
  | e :: l' => if decide (e.1 = it) then Some l else from_node it l'
  end.

(** [None] is the null pointer. *)
Definition GetUnder (item : T) : M t (option T) :=
  s ← mget;
  match index_ s !! item with
  | None => mret None
  | Some it =>
      match from_node it (items_ s) with
      | Some (_ :: rest) => mret (snd <$> head rest)
      | _ => fail Undefined
      end
  end.

(** [index_.insert], which keeps an entry that is there. *)
Definition index_insert (item : T) (it : nat) (m : gmap T nat) : gmap T nat :=
  match m !! item with Some _ => m | None => <[item := it]> m end.

(** The list with a node for [item] put in, and the index entry for it. *)
Definition put (l : list (nat * T)) (item : T) : M t unit :=
  modify (fun s => mk l (index_insert item (next_node s) (index_ s)) (S (next_node s))).

Definition AddOnTop (item : T) : M t unit :=
  s ← mget;
  if Contains s item then mret ()
  else put ((next_node s, item) :: items_ s) item.

Definition AddOnBottom (item : T) : M t unit :=
  s ← mget;
  if Contains s item then mret ()
  else put (items_ s ++ [(next_node s, item)]) item.

(** [items_.insert(it, item)], [items_.insert(++it, item)], [items_.erase(it)]. *)
Fixpoint insert_before (it : nat) (e : nat * T) (l : list (nat * T)) : option (list (nat * T)) :=
  match l with
  | [] => None
  | x :: l' => if decide (x.1 = it) then Some (e :: l) else cons x <$> insert_before it e l'
  end.
Fixpoint insert_after (it : nat) (e : nat * T) (l : list (nat * T)) : option (list (nat * T)) :=
  match l with
  | [] => None
  | x :: l' => if decide (x.1 = it) then Some (x :: e :: l') else cons x <$> insert_after it e l'
  end.
Fixpoint erase (it : nat) (l : list (nat * T)) : option (list (nat * T)) :=
  match l with
  | [] => None
  | x :: l' => if decide (x.1 = it) then Some l' else cons x <$> erase it l'
  end.

Definition add_next_to (insert : nat → nat * T → list (nat * T) → option (list (nat * T)))
    (item other_item : T) : M t unit :=
  s ← mget;
  if Contains s item then mret ()
  else match index_ s !! other_item with
       | None => mret ()
       | Some it =>
           match insert it (next_node s, item) (items_ s) with
           | Some l => put l item
           | None => fail Undefined
           end
       end.
Definition AddAbove : T → T → M t unit := add_next_to insert_before.
Definition AddBelow : T → T → M t unit := add_next_to insert_after.

Definition Remove (item : T) : M t unit :=
  s ← mget;
  match index_ s !! item with
  | None => mret ()
  | Some it =>
      match erase it (items_ s) with
      | Some l => modify (fun s => mk l (delete item (index_ s)) (next_node s))
      | None => fail Undefined
      end
  end.
End stacker.
Arguments t T {_ _}.
End Stacker.

(** ** ByteMap *)

Module ByteMap.
Record t := mk { width_ : Z; height_ : Z; bytes_ : bytes }.
#[global] Instance eta_t : Eta t := fun r => mk (width_ r) (height_ r) (bytes_ r).

(** [memset(bytes_ + off, value, n)]: outside the array is undefined. *)
Definition memset (off n : Z) (value : byte) : M t unit :=
  b ← gets bytes_;
  if (0 <=? off) && (0 <=? n) && (off + n <=? zlen b) then
    modify (fun m => m <| bytes_ := take (Z.to_nat off) b ++ replicate (Z.to_nat n) value ++
                                     drop (Z.to_nat (off + n)) b |>)
  else fail Undefined.

Definition Clear (value : byte) : M t unit :=
  m ← mget; memset 0 (i32 (width_ m * height_ m)) value.

(** The constructor; the memory [new] returns is arbitrary ([fresh_bytes]), and
    a negative size throws. *)
Definition construct (width height : Z) (fresh_bytes : byte) : result t :=
  match (CHECK (0 <? width);; CHECK (0 <? height);;
         (if i32 (width * height) <? 0 then fail Undefined else mret ());;
         modify (fun m => m <| bytes_ := replicate (Z.to_nat (i32 (width * height))) fresh_bytes |>);;
         Clear x00) (mk width height []) with
  | Val (_, m) => Val m
  | Fault f => Fault f
  end.

(** [memcpy] of the other map's bytes. *)
Definition Copy (other : t) : M t unit :=
  m ← mget;
  CHECK (width_ m =? width_ other);;
  CHECK (height_ m =? height_ other);;
  let n := i32 (width_ m * height_ m) in
  if (0 <=? n) && (n <=? zlen (bytes_ m)) && (n <=? zlen (bytes_ other)) then
    modify (fun m => m <| bytes_ := take (Z.to_nat n) (bytes_ other) ++
                                     drop (Z.to_nat n) (bytes_ m) |>)
  else fail Undefined.

Definition SetRectangle (rect_x rect_y rect_width rect_height : Z) (value : byte) : M t unit :=
  m ← mget;
  let limit_x := Z.min (i32 (rect_x + rect_width)) (width_ m) in
  let limit_y := Z.min (i32 (rect_y + rect_height)) (height_ m) in
  let rect_x := Z.max rect_x 0 in
  let rect_y := Z.max rect_y 0 in
  if limit_x <=? rect_x then mret ()
  else for_each (fun y => memset (i32 (y * width_ m) + rect_x) (limit_x - rect_x) value)
         (seqZ rect_y (limit_y - rect_y)).
End ByteMap.

(** ** Stacker implements an ordered list without duplicates *)

Section stacker_facts.
Context {T : Type} `{Countable T}.
Import Stacker.
Implicit Type s : Stacker.t T.

Fixpoint place_above (x o : T) (l : list T) : list T :=
  match l with
  | [] => []
  | y :: l' => if decide (y = o) then x :: l else y :: place_above x o l'
  end.
Fixpoint place_below (x o : T) (l : list T) : list T :=
  match l with
  | [] => []
  | y :: l' => if decide (y = o) then y :: x :: l' else y :: place_below x o l'
  end.

Inductive op := OTop (x : T) | OBottom (x : T) | OAbove (x o : T) | OBelow (x o : T) | ORemove (x : T).

Definition run_op (o : op) : M (Stacker.t T) unit :=
  match o with
  | OTop x => AddOnTop x
  | OBottom x => AddOnBottom x
  | OAbove x o => AddAbove x o
  | OBelow x o => AddBelow x o
  | ORemove x => Remove x
  end.

(** The same operations on a list. *)
Definition list_op (l : list T) (o : op) : list T :=
  match o with
  | OTop x => if decide (x ∈ l) then l else x :: l
  | OBottom x => if decide (x ∈ l) then l else l ++ [x]
  | OAbove x o => if decide (x ∈ l) then l else place_above x o l
  | OBelow x o => if decide (x ∈ l) then l else place_below x o l
  | ORemove x => filter (fun y => y ≠ x) l
  end.

(** The index holds an iterator to the node of each item, and nothing else. *)
Record well_formed s : Prop := {
  wf_nodes : NoDup (items_ s).*1;
  wf_items : NoDup (items s);
  wf_fresh n : n ∈ (items_ s).*1 → (n < next_node s)%nat;
  wf_index x n : index_ s !! x = Some n ↔ (n, x) ∈ items_ s
}.

Lemma Contains_spec s x : well_formed s → Contains s x = bool_decide (x ∈ items s).
Proof.
  intros Hwf. unfold Contains. apply bool_decide_ext. unfold items.
  rewrite list_elem_of_fmap. split.
  - intros [n Hn]. apply (wf_index s Hwf) in Hn. by exists (n, x).
  - intros ([n y] & -> & Hin). exists n. by apply (wf_index s Hwf).
Qed.

Lemma index_None s x : well_formed s → index_ s !! x = None ↔ x ∉ items s.
Proof.
  intros Hwf. rewrite eq_None_not_Some. unfold items. rewrite list_elem_of_fmap.
  split; intros Hn; contradict Hn.
  - destruct Hn as ([n y] & -> & Hin). exists n. by apply (wf_index s Hwf).
  - destruct Hn as [n Hn]. apply (wf_index s Hwf) in Hn. by exists (n, x).
Qed.

(** Putting a node for a new item anywhere. *)
Lemma put_run s l l1 l2 x :
  well_formed s → x ∉ items s → items_ s = l1 ++ l2 → l = l1 ++ (next_node s, x) :: l2 →
  ∃ s', put l x s = Val ((), s') ∧ well_formed s' ∧ items s' = l1.*2 ++ x :: l2.*2.
Proof.
  intros Hwf Hx Hl ->. eexists. split; [reflexivity|]. destruct Hwf as [Hn Hi Hf Hidx].
  assert (index_ s !! x = None) as Hnone.
  { apply eq_None_not_Some. intros [n Hin]. apply Hidx in Hin. apply Hx.
    apply list_elem_of_fmap. by exists (n, x). }
  unfold items in *. rewrite Hl in Hn, Hi, Hx, Hf, Hidx.
  rewrite fmap_app in Hn. rewrite fmap_app in Hi. rewrite fmap_app in Hx.
  split; [|cbn; by rewrite fmap_app].
  assert (next_node s ∉ (l1 ++ l2).*1) as Hfresh by (intros Hin; apply Hf in Hin; lia).
  rewrite fmap_app in Hfresh.
  split; cbn [items_ index_ next_node items].
  - rewrite fmap_app, fmap_cons. cbn [fst]. rewrite <-Permutation_middle. by constructor.
  - unfold items. cbn [items_]. rewrite fmap_app, fmap_cons. cbn [snd]. rewrite <-Permutation_middle. by constructor.
  - intros n. rewrite fmap_app, fmap_cons. cbn [fst]. rewrite elem_of_app, elem_of_cons.
    rewrite fmap_app in Hf. setoid_rewrite elem_of_app in Hf. intros [?|[->|?]]; [|lia|].
    + specialize (Hf n ltac:(by left)). lia.
    + specialize (Hf n ltac:(by right)). lia.
  - intros y n. unfold index_insert. rewrite Hnone, lookup_insert_Some, Hidx.
    rewrite !elem_of_app, elem_of_cons. split.
    + intros [[<- <-]|[_ ?]]; naive_solver.
    + intros [Hin|[[= -> ->]|Hin]]; [|by left|]; right.
      * split; [|by left]. intros ->. apply Hx. apply elem_of_app. left.
        apply list_elem_of_fmap. by exists (n, y).
      * split; [|by right]. intros ->. apply Hx. apply elem_of_app. right.
        apply list_elem_of_fmap. by exists (n, y).
Qed.

(** Where the node of an item is. *)
Lemma node_split s x n :
  well_formed s → index_ s !! x = Some n →
  ∃ l1 l2, items_ s = l1 ++ (n, x) :: l2 ∧ n ∉ l1.*1 ∧ x ∉ l1.*2 ∧ x ∉ l2.*2 ∧ n ∉ l2.*1.
Proof.
  intros [Hn Hi _ Hidx] Hx. apply Hidx in Hx. apply list_elem_of_split in Hx as (l1 & l2 & Hl).
  exists l1, l2. split; [done|]. unfold items in Hi. rewrite Hl in Hn, Hi.
  rewrite fmap_app, fmap_cons in Hn. rewrite fmap_app, fmap_cons in Hi. apply NoDup_app in Hn as (_ & Hn1 & Hn2).
  apply NoDup_app in Hi as (_ & Hi1 & Hi2). apply NoDup_cons in Hn2, Hi2. cbn in *.
  split; [intros Hin; by apply (Hn1 n Hin), elem_of_cons; left|].
  split; [intros Hin; by apply (Hi1 x Hin), elem_of_cons; left|]. naive_solver.
Qed.

Lemma insert_before_split n e x l1 l2 :
  n ∉ l1.*1 → insert_before (T := T) n e (l1 ++ (n, x) :: l2) = Some (l1 ++ e :: (n, x) :: l2).
Proof.
  induction l1 as [|y l1 IH]; cbn; intros Hn; [by rewrite decide_True|].
  apply not_elem_of_cons in Hn as [Hy Hn]. rewrite decide_False by congruence. by rewrite IH.
Qed.
Lemma insert_after_split n e x l1 l2 :
  n ∉ l1.*1 → insert_after (T := T) n e (l1 ++ (n, x) :: l2) = Some (l1 ++ (n, x) :: e :: l2).
Proof.
  induction l1 as [|y l1 IH]; cbn; intros Hn; [by rewrite decide_True|].
  apply not_elem_of_cons in Hn as [Hy Hn]. rewrite decide_False by congruence. by rewrite IH.
Qed.
Lemma erase_split n x l1 l2 :
  n ∉ l1.*1 → erase (T := T) n (l1 ++ (n, x) :: l2) = Some (l1 ++ l2).
Proof.
  induction l1 as [|y l1 IH]; cbn; intros Hn; [by rewrite decide_True|].
  apply not_elem_of_cons in Hn as [Hy Hn]. rewrite decide_False by congruence. by rewrite IH.
Qed.
Lemma place_above_split x o (l1 l2 : list T) :
  o ∉ l1 → place_above x o (l1 ++ o :: l2) = l1 ++ x :: o :: l2.
Proof.
  induction l1 as [|y l1 IH]; cbn; intros Hn; [by rewrite decide_True|].
  apply not_elem_of_cons in Hn as [Hy Hn]. rewrite decide_False by congruence. by rewrite IH.
Qed.
Lemma place_below_split x o (l1 l2 : list T) :
  o ∉ l1 → place_below x o (l1 ++ o :: l2) = l1 ++ o :: x :: l2.
Proof.
  induction l1 as [|y l1 IH]; cbn; intros Hn; [by rewrite decide_True|].
  apply not_elem_of_cons in Hn as [Hy Hn]. rewrite decide_False by congruence. by rewrite IH.
Qed.
Lemma place_missing x o (l : list T) :
  o ∉ l → place_above x o l = l ∧ place_below x o l = l.
Proof.
  induction l as [|y l IH]; cbn; intros Hn; [done|]. apply not_elem_of_cons in Hn as [Hy Hn].
  rewrite !decide_False by congruence. destruct (IH Hn) as [-> ->]. done.
Qed.

Lemma items_split s n x l1 l2 :
  items_ s = l1 ++ (n, x) :: l2 → items s = l1.*2 ++ x :: l2.*2.
Proof. intros Hl. unfold items. by rewrite Hl, fmap_app, fmap_cons. Qed.

Lemma add_next_to_refines (above : bool) x o s :
  well_formed s →
  ∃ s', (if above then AddAbove x o else AddBelow x o) s = Val ((), s') ∧ well_formed s' ∧
    items s' = list_op (items s) (if above then OAbove x o else OBelow x o).
Proof.
  intros Hwf.
  assert ((if above then AddAbove x o else AddBelow x o) s =
    add_next_to (if above then insert_before else insert_after) x o s) as -> by (by destruct above).
  unfold add_next_to. mrun. rewrite Contains_spec by done. case_bool_decide as Hx.
  { exists s. destruct above; cbn; rewrite decide_True by done; done. }
  destruct (index_ s !! o) as [n|] eqn:Ho.
  - destruct (node_split s o n Hwf Ho) as (l1 & l2 & Hl & Hn1 & Ho1 & Ho2 & Hn2).
    rewrite (items_split _ _ _ _ _ Hl), Hl. destruct above; cbn [list_op].
    + rewrite insert_before_split by done.
      destruct (put_run s (l1 ++ (next_node s, x) :: (n, o) :: l2) l1 ((n, o) :: l2) x)
        as (s' & Hput & Hwf' & Hit); [done..|].
      exists s'. split; [exact Hput|]. split; [done|]. rewrite Hit, fmap_cons.
      rewrite decide_False by (by rewrite <-(items_split _ _ _ _ _ Hl)).
      by rewrite place_above_split.
    + rewrite insert_after_split by done.
      destruct (put_run s (l1 ++ (n, o) :: (next_node s, x) :: l2) (l1 ++ [(n, o)]) l2 x)
        as (s' & Hput & Hwf' & Hit); [done|done|by rewrite <-(assoc_L (++))|by rewrite <-(assoc_L (++))|].
      exists s'. split; [exact Hput|]. split; [done|].
      rewrite Hit, fmap_app. cbn. rewrite decide_False by (by rewrite <-(items_split _ _ _ _ _ Hl)).
      rewrite place_below_split by done. by rewrite <-(assoc_L (++)).
  - exists s. split; [done|]. split; [done|].
    apply index_None in Ho; [|done]. destruct (place_missing x o (items s) Ho) as [Ha Hb].
    destruct above; cbn; rewrite decide_False by done; by rewrite ?Ha, ?Hb.
Qed.

Lemma filter_other x (l : list T) : x ∉ l → filter (fun y => y ≠ x) l = l.
Proof.
  induction l as [|y l IH]; intros Hn; [done|]. apply not_elem_of_cons in Hn as [Hy Hn].
  rewrite filter_cons_True by congruence. by rewrite IH.
Qed.

Lemma Remove_refines x s :
  well_formed s →
  ∃ s', Remove x s = Val ((), s') ∧ well_formed s' ∧ items s' = list_op (items s) (ORemove x).
Proof.
  intros Hwf. unfold Remove. mrun. destruct (index_ s !! x) as [n|] eqn:Hx.
  - destruct (node_split s x n Hwf Hx) as (l1 & l2 & Hl & Hn1 & Hx1 & Hx2 & Hn2).
    rewrite Hl, erase_split by done. eexists. split; [reflexivity|].
    assert (items s = l1.*2 ++ x :: l2.*2) as Hit by (by eapply items_split).
    destruct Hwf as [Hn Hi Hf Hidx]. rewrite Hit in Hi. rewrite Hl in Hn, Hf, Hidx.
    rewrite fmap_app, fmap_cons in Hn. rewrite fmap_app, fmap_cons in Hf.
    assert (items (mk (l1 ++ l2) (delete x (index_ s)) (next_node s)) = l1.*2 ++ l2.*2) as Hit2
      by (unfold items; cbn; by rewrite fmap_app).
    split.
    + split; rewrite ?Hit2; cbn [items_ index_ next_node]; rewrite ?fmap_app.
      * rewrite <-Permutation_middle in Hn. by apply NoDup_cons in Hn as [_ ?].
      * rewrite <-Permutation_middle in Hi. by apply NoDup_cons in Hi as [_ ?].
      * intros m Hm. apply Hf. set_solver.
      * intros y m. rewrite lookup_delete_Some, Hidx, !elem_of_app, elem_of_cons. split.
        -- intros [Hne [?|[[= -> ->]|?]]]; naive_solver.
        -- intros Hin. split; [|naive_solver]. intros <-. destruct Hin as [Hin|Hin].
           ++ apply Hx1, list_elem_of_fmap. by exists (m, x).
           ++ apply Hx2, list_elem_of_fmap. by exists (m, x).
    + rewrite Hit2, Hit. cbn. rewrite filter_app, filter_cons_False by naive_solver.
      by rewrite !filter_other.
  - exists s. split; [done|]. split; [done|]. apply index_None in Hx; [|done]. cbn.
    by rewrite filter_other.
Qed.

Lemma stacker_op_refines o s :
  well_formed s → ∃ s', run_op o s = Val ((), s') ∧ well_formed s' ∧ items s' = list_op (items s) o.
Proof.
  intros Hwf. destruct o as [x|x|x o|x o|x]; cbn [run_op].
  - unfold AddOnTop. mrun. rewrite Contains_spec by done. cbn. case_bool_decide as Hx.
    { exists s. by rewrite decide_True. }
    destruct (put_run s ((next_node s, x) :: items_ s) [] (items_ s) x) as (s' & ? & ? & ?); [done..|].
    exists s'. by rewrite decide_False.
  - unfold AddOnBottom. mrun. rewrite Contains_spec by done. cbn. case_bool_decide as Hx.
    { exists s. by rewrite decide_True. }
    destruct (put_run s (items_ s ++ [(next_node s, x)]) (items_ s) [] x) as (s' & ? & ? & ?);
      [done|done|by rewrite app_nil_r|done|].
    exists s'. by rewrite decide_False.
  - by apply (add_next_to_refines true).
  - by apply (add_next_to_refines false).
  - by apply Remove_refines.
Qed.

Lemma stacker_ops_refines os s :
  well_formed s →
  ∃ s', for_each run_op os s = Val ((), s') ∧ well_formed s' ∧ items s' = foldl list_op (items s) os.
Proof.
  revert s. induction os as [|o os IH]; intros s Hwf; [by exists s|].
  destruct (stacker_op_refines o s Hwf) as (s1 & Hrun & Hwf1 & Hit1).
  destruct (IH s1 Hwf1) as (s' & Hrun' & Hwf' & Hit'). exists s'. cbn [for_each foldl].
  rewrite (bind_run _ _ _ _ _ Hrun). rewrite Hit', Hit1. done.
Qed.

(** The item after [x] in a list. *)
Fixpoint under (x : T) (l : list T) : option T :=
  match l with
  | [] => None
  | y :: l' => if decide (y = x) then head l' else under x l'
  end.

Lemma from_node_split n x l1 (l2 : list (nat * T)) :
  n ∉ l1.*1 → from_node n (l1 ++ (n, x) :: l2) = Some ((n, x) :: l2).
Proof.
  induction l1 as [|y l1 IH]; cbn; intros Hn; [by rewrite decide_True|].
  apply not_elem_of_cons in Hn as [Hy Hn]. rewrite decide_False by congruence. by apply IH.
Qed.

Lemma under_split x (l1 l2 : list T) : x ∉ l1 → under x (l1 ++ x :: l2) = head l2.
Proof.
  induction l1 as [|y l1 IH]; cbn; intros Hn; [by rewrite decide_True|].
  apply not_elem_of_cons in Hn as [Hy Hn]. rewrite decide_False by congruence. by apply IH.
Qed.

Lemma under_missing x (l : list T) : x ∉ l → under x l = None.
Proof.
  induction l as [|y l IH]; cbn; intros Hn; [done|]. apply not_elem_of_cons in Hn as [Hy Hn].
  rewrite decide_False by congruence. by apply IH.
Qed.

Lemma GetUnder_run x s : well_formed s → GetUnder x s = Val (under x (items s), s).
Proof.
  intros Hwf. unfold GetUnder. mrun. destruct (index_ s !! x) as [n|] eqn:Hx.
  - destruct (node_split s x n Hwf Hx) as (l1 & l2 & Hl & Hn1 & Hx1 & _ & _).
    rewrite (items_split _ _ _ _ _ Hl), Hl, from_node_split, under_split by done.
    by destruct l2 as [|[] ?].
  - apply index_None in Hx; [|done]. by rewrite under_missing.
Qed.

Lemma index_from_spec (l : list (nat * T)) i x :
  (∀ k, l.*2 !! k = Some x → x ∉ take k l.*2 → index_from i l x = i + Z.of_nat k) ∧
  (x ∉ l.*2 → index_from i l x = -1).
Proof.
  revert i. induction l as [|[n y] l IH]; intros i; cbn; [by split|].
  destruct (IH (i + 1)) as [IH1 IH2]. split.
  - intros [|k] Hk Hfirst; cbn in *; [injection Hk as ->; rewrite decide_True by done; lia|].
    apply not_elem_of_cons in Hfirst as [Hy Hfirst]. rewrite decide_False by congruence.
    rewrite (IH1 k) by done. lia.
  - intros Hn. apply not_elem_of_cons in Hn as [Hy Hn]. rewrite decide_False by congruence. auto.
Qed.

Lemma GetIndex_run x s :
  well_formed s →
  (∀ k, items s !! k = Some x → GetIndex s x = Z.of_nat k) ∧ (x ∉ items s → GetIndex s x = -1).
Proof.
  intros Hwf. destruct (index_from_spec (items_ s) 0 x) as [Hin Hout]. split; [|exact Hout].
  intros k Hk. unfold GetIndex. rewrite (Hin k Hk); [lia|]. intros Hfirst.
  apply list_elem_of_lookup in Hfirst as [j Hj]. apply lookup_take_Some in Hj as [Hj Hlt].
  pose proof (NoDup_lookup _ _ _ _ (wf_items s Hwf) Hj Hk). lia.
Qed.

Lemma well_formed_new : well_formed (new : Stacker.t T).
Proof.
  split; cbn; [constructor|constructor|set_solver|]. intros x n. rewrite lookup_empty. set_solver.
Qed.
End stacker_facts.

(** C23. [Stacker], with its list nodes and the index of iterators into them,
    implements an ordered list without duplicates: every sequence of additions
    (on top, on the bottom, above or below another item) and removals runs
    without touching an invalid iterator and gives the list the same sequence
    gives on lists (requests about present or missing items being ignored as
    the warnings say), and then the three queries answer what that list says. *)
Theorem Stacker_refines_list {T} `{Countable T} (os : list (op (T := T))) :
  ∃ s, for_each run_op os Stacker.new = Val ((), s) ∧
    let l := foldl list_op [] os in
    Stacker.items s = l ∧ NoDup l ∧
    ∀ x, Stacker.Contains s x = bool_decide (x ∈ l) ∧
         Stacker.GetUnder x s = Val (under x l, s) ∧
         (∀ k, l !! k = Some x → Stacker.GetIndex s x = Z.of_nat k) ∧
         (x ∉ l → Stacker.GetIndex s x = -1).
Proof.
  destruct (stacker_ops_refines os Stacker.new well_formed_new) as (s & Hrun & Hwf & Hit).
  cbn [Stacker.items Stacker.items_ Stacker.new fmap list_fmap] in Hit.
  exists s. split; [exact Hrun|]. cbn zeta. change (Stacker.items Stacker.new) with (@nil T) in Hit.
  rewrite <-Hit. split; [done|]. split; [exact (wf_items s Hwf)|]. intros x.
  split; [by apply Contains_spec|]. split; [by apply GetUnder_run|]. by apply GetIndex_run.
Qed.

(** ** ByteMap draws rectangles *)

Module Import ByteMapFacts.
Import ByteMap.

Record valid (m : t) : Prop := {
  v_width : 0 < width_ m;
  v_height : 0 < height_ m;
  v_size : width_ m * height_ m < 2 ^ 31;
  v_bytes : zlen (bytes_ m) = width_ m * height_ m
}.

(** The byte at column [x] of row [y]. *)
Definition pixel (m : t) (x y : Z) : option byte := bytes_ m !! Z.to_nat (y * width_ m + x).

Lemma memset_run off n v m :
  0 ≤ off → 0 ≤ n → off + n ≤ zlen (bytes_ m) →
  ∃ b', memset off n v m = Val ((), m <| bytes_ := b' |>) ∧ zlen b' = zlen (bytes_ m) ∧
    ∀ i, 0 ≤ i → b' !! Z.to_nat i = if decide (off ≤ i < off + n) then Some v
                                    else bytes_ m !! Z.to_nat i.
Proof.
  intros Ho Hn Hlen. unfold memset. mrun.
  rewrite (proj2 (Z.leb_le 0 off) Ho), (proj2 (Z.leb_le 0 n) Hn), (proj2 (Z.leb_le _ _) Hlen). cbn [andb].
  eexists. split; [reflexivity|]. unfold zlen in *.
  assert (length (take (Z.to_nat off) (bytes_ m)) = Z.to_nat off) as Ht by (rewrite length_take; lia).
  split; [rewrite !length_app, length_replicate, Ht, length_drop; lia|].
  intros i Hi. case_decide as Hin.
  - rewrite lookup_app_r by lia. rewrite lookup_app_l by (rewrite length_replicate; lia).
    apply lookup_replicate_2. lia.
  - destruct (decide (i < off)) as [Hlt|Hge].
    + rewrite lookup_app_l by lia. rewrite lookup_take_lt by lia. done.
    + rewrite lookup_app_r by lia. rewrite lookup_app_r by (rewrite length_replicate; lia).
      rewrite length_replicate, Ht, lookup_drop. f_equal. lia.
Qed.

(** Drawing columns [lo] to [hi] of some rows. *)
Lemma rows_run lo hi v rows m :
  valid m → 0 ≤ lo → lo ≤ hi → hi ≤ width_ m → (∀ y, y ∈ rows → 0 ≤ y < height_ m) →
  ∃ m', for_each (fun y => memset (i32 (y * width_ m) + lo) (hi - lo) v) rows m = Val ((), m') ∧
    valid m' ∧ width_ m' = width_ m ∧ height_ m' = height_ m ∧
    ∀ x y, 0 ≤ x < width_ m → 0 ≤ y →
      pixel m' x y = if decide (lo ≤ x < hi ∧ y ∈ rows) then Some v else pixel m x y.
Proof.
  intros Hv Hlo Hlh Hhi. revert m Hv Hhi. induction rows as [|r rows IH]; intros m Hv Hhi Hrows.
  - exists m. do 4 (split; [done|]). intros x y _ _. rewrite decide_False by set_solver. done.
  - pose proof (Hrows r ltac:(by left)) as Hr. destruct Hv as [Hw Hh Hs Hb].
    assert (is_i32 (r * width_ m)) as Hi by (unfold is_i32; nia).
    destruct (memset_run (r * width_ m + lo) (hi - lo) v m) as (b' & Hrun & Hb' & Hlook);
      [nia|lia|nia|].
    destruct (IH (m <| bytes_ := b' |>)) as (m' & Hrun' & Hv' & Hw' & Hh' & Hpix);
      [split; cbn; try done; by rewrite Hb'|done|intros y Hy; apply Hrows; by right|].
    exists m'. cbn [for_each]. rewrite i32_small by done. rewrite (bind_run _ _ _ _ _ Hrun).
    split; [exact Hrun'|]. split; [done|]. split; [done|]. split; [done|].
    intros x y Hx Hy. rewrite Hpix by done. unfold pixel. cbn [bytes_ width_ Prelude.update].
    rewrite Hlook by nia. clear -Hx Hy Hlh Hlo Hhi Hr Hw.
    destruct (decide (y = r)) as [->|Hne].
    + repeat case_decide; try done; exfalso; set_solver by lia.
    + assert (¬ (r * width_ m + lo ≤ y * width_ m + x < r * width_ m + lo + (hi - lo))) as Hno by nia.
      rewrite (decide_False (P := r * width_ m + lo ≤ _ < _)) by exact Hno.
      repeat case_decide; try done; exfalso; set_solver.
Qed.
End ByteMapFacts.

(** C37. [ByteMap::SetRectangle], when the sums of the rectangle's coordinates
    stay in [int]: it never writes outside the array, and afterwards a byte of
    the map is [value] when it lies in the rectangle (clipped to the map; an
    empty or negative size draws nothing) and what it was otherwise. *)
Theorem SetRectangle_draws_clipped m rect_x rect_y rect_width rect_height value :
  valid m → is_i32 (rect_x + rect_width) → is_i32 (rect_y + rect_height) →
  ∃ m', ByteMap.SetRectangle rect_x rect_y rect_width rect_height value m = Val ((), m') ∧
    valid m' ∧ ByteMap.width_ m' = ByteMap.width_ m ∧ ByteMap.height_ m' = ByteMap.height_ m ∧
    ∀ x y, 0 ≤ x < ByteMap.width_ m → 0 ≤ y < ByteMap.height_ m →
      pixel m' x y =
      if decide (rect_x ≤ x < rect_x + rect_width ∧ rect_y ≤ y < rect_y + rect_height)
      then Some value else pixel m x y.
Proof.
  intros Hv Hsx Hsy. unfold ByteMap.SetRectangle. mrun. rewrite !i32_small by done.
  destruct (Z.leb_spec (Z.min (rect_x + rect_width) (ByteMap.width_ m)) (Z.max rect_x 0)) as [Hle|Hlt].
  - exists m. do 4 (split; [done|]). intros x y Hx Hy. rewrite decide_False by lia. done.
  - destruct (rows_run (Z.max rect_x 0) (Z.min (rect_x + rect_width) (ByteMap.width_ m)) value
      (seqZ (Z.max rect_y 0) (Z.min (rect_y + rect_height) (ByteMap.height_ m) - Z.max rect_y 0)) m)
      as (m' & Hrun & Hv' & Hw' & Hh' & Hpix); [done|lia|lia|lia|intros y Hy%elem_of_seqZ; lia|].
    exists m'. split; [exact Hrun|]. do 3 (split; [done|]). intros x y Hx Hy.
    rewrite Hpix by lia. repeat case_decide; rewrite elem_of_seqZ in *; try done; lia.
Qed.

(** ** NextPowerOfTwo *)

(** [y] is [x] smeared over [d] positions to the right. *)
Definition smeared (x d y : Z) : Prop :=
  ∀ i, 0 ≤ i → Z.testbit y i = true ↔ ∃ j, 0 ≤ j < d ∧ Z.testbit x (i + j) = true.

Lemma smeared_double x d y :
  0 < d → smeared x d y → smeared x (2 * d) (Z.lor y (Z.shiftr y d)).
Proof.
  intros Hd Hy i Hi. rewrite Z.lor_spec, Z.shiftr_spec, orb_true_iff by lia.
  rewrite (Hy i Hi), (Hy (i + d) ltac:(lia)). split.
  - intros [(j & Hj & Hx)|(j & Hj & Hx)]; [exists j; split; [lia|done]|].
    exists (d + j). split; [lia|]. by replace (i + (d + j)) with (i + d + j) by lia.
  - intros (j & Hj & Hx). destruct (decide (j < d)); [left; exists j; split; [lia|done]|].
    right. exists (j - d). split; [lia|]. by replace (i + d + (j - d)) with (i + j) by lia.
Qed.

Lemma smeared_all x y :
  0 < x < 2 ^ 32 → 0 ≤ y → smeared x 32 y → y = 2 ^ (Z.log2 x + 1) - 1.
Proof.
  intros Hx Hy Hs. pose proof (Z.log2_nonneg x) as Hl.
  assert (Z.log2 x < 32) as Hl32 by (apply Z.log2_lt_pow2; lia).
  transitivity (Z.ones (Z.log2 x + 1)); [|rewrite Z.ones_equiv; lia]. apply Z.bits_inj'. intros i Hi.
  rewrite Z.testbit_ones_nonneg by lia. apply eq_true_iff_eq. rewrite (Hs i Hi).
  rewrite Z.ltb_lt. split.
  - intros (j & Hj & Hb). destruct (decide (i + j ≤ Z.log2 x)) as [|Hgt]; [lia|].
    rewrite Z.bits_above_log2 in Hb by lia. done.
  - intros Hlt. exists (Z.log2 x - i). split; [lia|]. replace (i + (Z.log2 x - i)) with (Z.log2 x) by lia.
    apply Z.bit_log2. lia.
Qed.

(** [NextPowerOfTwo] of a number from 1 to 2^31 is the least power of two
    that is not below it; outside that range the 32-bit arithmetic gives 0. *)
Theorem NextPowerOfTwo_spec x :
  is_u32 x →
  (1 ≤ x ≤ 2 ^ 31 → ∃ k, 0 ≤ k ∧ NextPowerOfTwo x = 2 ^ k ∧ x ≤ 2 ^ k ∧
                         ∀ j, 0 ≤ j → x ≤ 2 ^ j → 2 ^ k ≤ 2 ^ j) ∧
  (x = 0 ∨ 2 ^ 31 < x → NextPowerOfTwo x = 0).
Proof.
  intros Hx. unfold is_u32 in Hx.
  assert (∀ y, 0 < y < 2 ^ 32 → u32 (x - 1) = y → NextPowerOfTwo x = u32 (2 ^ (Z.log2 y + 1))) as Hnp.
  { intros y Hy Hxy. unfold NextPowerOfTwo. rewrite Hxy.
    set (y1 := Z.lor y (Z.shiftr y 1)). set (y2 := Z.lor y1 (Z.shiftr y1 2)).
    set (y4 := Z.lor y2 (Z.shiftr y2 4)). set (y8 := Z.lor y4 (Z.shiftr y4 8)).
    set (y16 := Z.lor y8 (Z.shiftr y8 16)).
    assert (smeared y 32 y16) as Hs.
    { apply (smeared_double y 16); [lia|]. apply (smeared_double y 8); [lia|].
      apply (smeared_double y 4); [lia|]. apply (smeared_double y 2); [lia|].
      apply (smeared_double y 1); [lia|]. intros i Hi. split.
      - intros Hb. exists 0. rewrite Z.add_0_r. split; [lia|done].
      - intros (j & Hj & Hb). replace (i + j) with i in Hb by lia. done. }
    assert (0 ≤ y16) as Hpos.
    { unfold y16, y8, y4, y2, y1. rewrite !Z.lor_nonneg, !Z.shiftr_nonneg, !Z.lor_nonneg, !Z.shiftr_nonneg,
        !Z.lor_nonneg, !Z.shiftr_nonneg, !Z.lor_nonneg, !Z.shiftr_nonneg, !Z.lor_nonneg, !Z.shiftr_nonneg.
      lia. }
    rewrite (smeared_all y y16 Hy Hpos Hs). f_equal. lia. }
  split.
  - intros Hr. destruct (decide (x = 1)) as [->|Hne].
    { exists 0. split; [lia|]. split; [done|]. split; [done|]. intros j Hj _. change (2 ^ 0) with 1. lia. }
    pose proof (Hnp (x - 1) ltac:(lia) ltac:(apply u32_small; unfold is_u32; lia)) as ->.
    pose proof (Z.log2_spec (x - 1) ltac:(lia)) as [Hlo Hhi]. pose proof (Z.log2_nonneg (x - 1)) as Hl.
    assert (Z.log2 (x - 1) < 31) as Hl31 by (apply Z.log2_lt_pow2; lia).
    assert (2 ^ (Z.log2 (x - 1) + 1) ≤ 2 ^ 31) as Hle by (apply Z.pow_le_mono_r; lia).
    exists (Z.log2 (x - 1) + 1). split; [lia|]. split; [apply u32_small; unfold is_u32; lia|].
    rewrite <-Z.add_1_r in Hhi. split; [lia|]. intros j Hj Hxj. apply Z.pow_le_mono_r; [lia|].
    destruct (decide (j ≤ Z.log2 (x - 1))) as [Hj2|]; [|lia].
    assert (2 ^ j ≤ 2 ^ Z.log2 (x - 1)) by (apply Z.pow_le_mono_r; lia). lia.
  - intros [->|Hbig]; [reflexivity|].
    rewrite (Hnp (x - 1)) by (try apply u32_small; unfold is_u32; lia).
    assert (Z.log2 (x - 1) = 31) as ->; [|reflexivity].
    apply Z.log2_unique; [lia|]. change (Z.succ 31) with 32. lia.
Qed.

(** ** Concrete runs *)

Definition sample_map : ByteMap.t := ByteMap.mk 3 2 (replicate 6 x00).

Lemma sample_rectangle :
  (ByteMap.bytes_ ∘ snd) <$> (match ByteMap.SetRectangle (-1) 1 3 5 xff sample_map with
                              | Val r => Some r | Fault _ => None end) =
  Some [x00; x00; x00; xff; xff; x00].
Proof. vm_compute. reflexivity. Qed.

Lemma SetRectangle_draws_clipped_witness :
  ∃ m', ByteMap.SetRectangle (-1) 1 3 5 xff sample_map = Val ((), m') ∧
    valid m' ∧ ByteMap.width_ m' = ByteMap.width_ sample_map ∧
    ByteMap.height_ m' = ByteMap.height_ sample_map ∧
    ∀ x y, 0 ≤ x < ByteMap.width_ sample_map → 0 ≤ y < ByteMap.height_ sample_map →
      pixel m' x y = if decide (-1 ≤ x < -1 + 3 ∧ 1 ≤ y < 1 + 5) then Some xff
                     else pixel sample_map x y.
Proof.
  refine (SetRectangle_draws_clipped sample_map (-1) 1 3 5 xff _ _ _).
  - by split.
  - by vm_compute.
  - by vm_compute.
Defined.

Lemma NextPowerOfTwo_spec_witness :
  (1 ≤ 5 ≤ 2 ^ 31 → ∃ k, 0 ≤ k ∧ NextPowerOfTwo 5 = 2 ^ k ∧ 5 ≤ 2 ^ k ∧
                         ∀ j, 0 ≤ j → 5 ≤ 2 ^ j → 2 ^ k ≤ 2 ^ j) ∧
  (5 = 0 ∨ 2 ^ 31 < 5 → NextPowerOfTwo 5 = 0).
Proof. refine (NextPowerOfTwo_spec 5 _). by vm_compute. Defined.
