(* ===== verification/KeyBindings.v ===== *)
(** * The window manager's key bindings: key_bindings.{h,cc}.

    The X connection is a parameter ([KeyGrabs]), and so is Xlib's
    [XConvertCase]; a closure is a number, and running it a program on the
    whole state, which may call the bindings again. *)

From stdpp Require Import sorting.
From S2P Require Import Prelude.

Class KeyGrabs (W : Type) := {
  x_lower_keysym : Z → Z;
  x_SetDetectableKeyboardAutoRepeat : bool → W → bool * W;
  x_GetKeyCodeFromKeySym : Z → W → Z * W;
  x_GrabKey : Z → Z → W → unit * W;
  x_UngrabKey : Z → Z → W → unit * W
}.

(** X.h. *)
Definition ShiftMask : Z := 1.
Definition LockMask : Z := 2.
Definition ControlMask : Z := 4.
Definition Mod1Mask : Z := 8.
Definition Mod2Mask : Z := 16.
Definition Mod3Mask : Z := 32.
Definition Mod4Mask : Z := 64.
Definition Mod5Mask : Z := 128.

Module KeyBindings.
Definition kShiftMask : Z := ShiftMask.
Definition kControlMask : Z := ControlMask.
Definition kAltMask : Z := Mod1Mask.
Definition kMetaMask : Z := Mod2Mask.
Definition kNumLockMask : Z := Mod3Mask.
Definition kSuperMask : Z := Mod4Mask.
Definition kHyperMask : Z := Mod5Mask.

Record KeyCombo := mkKeyCombo { key : Z; modifiers : Z }.
#[global] Instance KeyCombo_eq_dec : EqDecision KeyCombo.
Proof. solve_decision. Defined.
#[global] Program Instance KeyCombo_countable : Countable KeyCombo :=
  inj_countable' (fun c => (key c, modifiers c)) (fun p => mkKeyCombo p.1 p.2) _.
Next Obligation. by intros []. Qed.

(** [KeyComboComparator], and [std::string]'s order. *)
Definition KeyComboComparator (a b : KeyCombo) : bool :=
  (key a <? key b) || ((key a =? key b) && (modifiers a <? modifiers b)).
Fixpoint bytes_lt (a b : bytes) : bool :=
  match a, b with
  | _, [] => false
  | [], _ => true
  | x :: a', y :: b' =>
      (byte_val x <? byte_val y) || ((byte_val x =? byte_val y) && bytes_lt a' b')
  end.

(** The elements of a [std::set] in its order. *)
Definition not_after {A} (lt : A → A → bool) (a b : A) : Prop := lt b a = false.
#[global] Instance not_after_dec {A} (lt : A → A → bool) a b : Decision (not_after lt a b) :=
  decide (lt b a = false).
Definition in_order {A} `{Countable A} (lt : A → A → bool) (s : gset A) : list A :=
  merge_sort (not_after lt) (elements s).

Record Action := mkAction {
  running : bool;
  begin_closure : option Z;
  repeat_closure : option Z;
  end_closure : option Z;
  bindings : gset KeyCombo
}.
#[global] Instance eta_Action : Eta Action := fun r =>
  mkAction (running r) (begin_closure r) (repeat_closure r) (end_closure r) (bindings r).
Definition new_Action (b r e : option Z) : Action := mkAction false b r e ∅.

Record t := mk {
  actions_ : gmap bytes Action;
  bindings_ : gmap KeyCombo bytes;
  action_names_by_keysym_ : gmap Z (gset bytes)
}.
#[global] Instance eta_t : Eta t := fun r =>
  mk (actions_ r) (bindings_ r) (action_names_by_keysym_ r).

Section key_bindings.
Context {W : Type} `{KeyGrabs W}.
(** [closure->Run()]. *)
Variable run : Z → M (t * W) unit.

(** [KeyCombo::KeyCombo]. *)
Definition make_KeyCombo (key_param modifiers_param : Z) : KeyCombo :=
  mkKeyCombo (x_lower_keysym key_param) (Z.land modifiers_param (Z.lnot LockMask)).

Definition upd (f : t → t) : M (t * W) unit := modify (fun s => (f s.1, s.2)).
Definition on_x {A} (f : W → A * W) : M (t * W) A := zoom snd (fun w s => (s.1, w)) (extern f).
Definition set_action (name : bytes) (f : Action → Action) : M (t * W) unit :=
  upd (fun k => k <| actions_ := alter f name (actions_ k) |>).

Definition construct (w : W) : t * W :=
  (mk ∅ ∅ ∅, (x_SetDetectableKeyboardAutoRepeat true w).2).

Definition AddAction (action_name : bytes) (b r e : option Z) : M (t * W) bool :=
  CHECK (bool_decide (action_name ≠ []));;
  k ← gets fst;
  match actions_ k !! action_name with
  | Some _ => mret false
  | None => upd (fun k => k <| actions_ := <[action_name := new_Action b r e]> (actions_ k) |>);;
            mret true
  end.

(** Grabbing (or ungrabbing) a combination with and without Caps Lock. *)
Definition both_grabs (grab : Z → Z → W → unit * W) (combo : KeyCombo) : M (t * W) unit :=
  keycode ← on_x (x_GetKeyCodeFromKeySym (key combo));
  on_x (grab keycode (modifiers combo));;
  on_x (grab keycode (Z.lor (modifiers combo) LockMask)).

(** [action_names_by_keysym_[key].insert(name)]: the set with the name, and
    whether it was new. *)
Definition names_at (keysym : Z) (k : t) : gset bytes :=
  default ∅ (action_names_by_keysym_ k !! keysym).

Definition AddBinding (combo : KeyCombo) (action_name : bytes) : M (t * W) bool :=
  k ← gets fst;
  match bindings_ k !! combo, actions_ k !! action_name with
  | Some _, _ => mret false
  | None, None => mret false
  | None, Some action =>
      CHECK (bool_decide (combo ∉ bindings action));;
      set_action action_name (fun a => a <| bindings := {[combo]} ∪ bindings a |>);;
      upd (fun k => k <| bindings_ := <[combo := action_name]> (bindings_ k) |>);;
      CHECK (bool_decide (action_name ∉ names_at (key combo) k));;
      upd (fun k => k <| action_names_by_keysym_ :=
             <[key combo := {[action_name]} ∪ names_at (key combo) k]> (action_names_by_keysym_ k) |>);;
      both_grabs x_GrabKey combo;;
      mret true
  end.

Definition RemoveBinding (combo : KeyCombo) : M (t * W) bool :=
  k ← gets fst;
  match bindings_ k !! combo with
  | None => mret false
  | Some name =>
      match actions_ k !! name with
      | None => fail CheckFailed
      | Some action =>
          CHECK (bool_decide (combo ∈ bindings action));;
          set_action name (fun a => a <| bindings := bindings a ∖ {[combo]} |>);;
          match action_names_by_keysym_ k !! key combo with
          | None => fail CheckFailed
          | Some names =>
              CHECK (bool_decide (name ∈ names));;
              upd (fun k => k <| action_names_by_keysym_ :=
                     if decide (names ∖ {[name]} = ∅)
                     then delete (key combo) (action_names_by_keysym_ k)
                     else <[key combo := names ∖ {[name]}]> (action_names_by_keysym_ k) |>);;
              upd (fun k => k <| bindings_ := delete combo (bindings_ k) |>);;
              set_action name (fun a => a <| running := false |>);;
              both_grabs x_UngrabKey combo;;
              mret true
          end
      end
  end.

(** [while (!action->bindings.empty()) CHECK(RemoveBinding( *begin() ))]: one
    unit of fuel per binding. *)
Definition remove_step (action_name : bytes) (_ : unit) : M (t * W) (unit + unit) :=
  k ← gets fst;
  match actions_ k !! action_name with
  | None => fail Undefined
  | Some action =>
      match in_order KeyComboComparator (bindings action) with
      | [] => mret (inr ())
      | combo :: _ => ok ← RemoveBinding combo; CHECK ok;; mret (inl ())
      end
  end.

Definition RemoveAction (fuel : nat) (action_name : bytes) : M (t * W) bool :=
  k ← gets fst;
  match actions_ k !! action_name with
  | None => mret false
  | Some _ =>
      loop fuel (remove_step action_name) ();;
      upd (fun k => k <| actions_ := delete action_name (actions_ k) |>);;
      mret true
  end.

Definition HandleKeyPress (keysym mods : Z) : M (t * W) bool :=
  k ← gets fst;
  match bindings_ k !! make_KeyCombo keysym mods with
  | None => mret false
  | Some name =>
      match actions_ k !! name with
      | None => fail CheckFailed
      | Some action =>
          if running action then
            match repeat_closure action with
            | Some c => run c;; mret true
            | None => mret false
            end
          else
            set_action name (fun a => a <| running := true |>);;
            match begin_closure action with
            | Some c => run c;; mret true
            | None => mret false
            end
      end
  end.

(** One action of the loop of [HandleKeyRelease]: did its closure run. *)
Definition release_action (name : bytes) : M (t * W) bool :=
  k ← gets fst;
  match actions_ k !! name with
  | None => fail CheckFailed
  | Some action =>
      if running action then
        set_action name (fun a => a <| running := false |>);;
        match end_closure action with
        | Some c => run c;; mret true
        | None => mret false
        end
      else mret false
  end.

(** The loop over the set of names, which a closure may change: the iterator
    must still be in the set when it is advanced, and goes on to the next
    larger name of the set as it is then. *)
Fixpoint release_loop (fuel : nat) (keysym : Z) (name : bytes) (ran_end_closure : bool)
  : M (t * W) bool :=
  match fuel with
  | O => fail OutOfFuel
  | S n =>
      ran ← release_action name;
      k ← gets fst;
      let names := names_at keysym k in
      if decide (name ∈ names) then
        match in_order bytes_lt (filter (fun b => bytes_lt name b = true) names) with
        | [] => mret (ran_end_closure || ran)
        | next :: _ => release_loop n keysym next (ran_end_closure || ran)
        end
      else fail Undefined
  end.

Definition HandleKeyRelease (fuel : nat) (keysym mods : Z) : M (t * W) bool :=
  k ← gets fst;
  let combo := make_KeyCombo keysym mods in
  match in_order bytes_lt (names_at (key combo) k) with
  | [] => mret false
  | name :: _ => release_loop fuel (key combo) name false
  end.

(** The destructor: one unit of fuel per action (and per binding of it). *)
Definition destroy_step (fuel : nat) (_ : unit) : M (t * W) (unit + unit) :=
  k ← gets fst;
  match in_order bytes_lt (dom (actions_ k)) with
  | [] => mret (inr ())
  | name :: _ => RemoveAction fuel name;; mret (inl ())
  end.
Definition destroy (fuel : nat) : M (t * W) unit :=
  loop fuel (destroy_step fuel) ();;
  k ← gets fst;
  CHECK (bool_decide (bindings_ k = ∅)).
End key_bindings.

(** [KeySymToModifier], with the keysyms of keysymdef.h. *)
Definition KeySymToModifier (keysym : Z) : Z :=
  if (keysym =? 65505) || (keysym =? 65506) then kShiftMask
  else if (keysym =? 65507) || (keysym =? 65508) then kControlMask
  else if (keysym =? 65513) || (keysym =? 65514) then kAltMask
  else if (keysym =? 65511) || (keysym =? 65512) then kMetaMask
  else if keysym =? 65407 then kNumLockMask
  else if (keysym =? 65515) || (keysym =? 65516) then kSuperMask
  else if (keysym =? 65517) || (keysym =? 65518) then kHyperMask
  else 0.
End KeyBindings.

(** ** Order of names *)

Import KeyBindings.

Lemma bytes_lt_irrefl a : bytes_lt a a = false.
Proof. induction a as [|x a IH]; cbn; [done|]. rewrite IH, Z.ltb_irrefl, andb_false_r. done. Qed.

Lemma bytes_lt_cons x y a b :
  bytes_lt (x :: a) (y :: b) = true ↔
  byte_val x < byte_val y ∨ (byte_val x = byte_val y ∧ bytes_lt a b = true).
Proof. cbn. rewrite orb_true_iff, andb_true_iff, Z.ltb_lt, Z.eqb_eq. done. Qed.

Lemma bytes_lt_trans a b c : bytes_lt a b = true → bytes_lt b c = true → bytes_lt a c = true.
Proof.
  revert b c. induction a as [|x a IH]; intros [|y b] [|z c]; try done.
  rewrite !bytes_lt_cons. intros [?|[? ?]] [?|[? ?]]; [left; lia..|right].
  split; [lia|by eapply IH].
Qed.

Lemma bytes_lt_total a b : bytes_lt a b = false → bytes_lt b a = false → a = b.
Proof.
  revert b. induction a as [|x a IH]; intros [|y b]; try done.
  rewrite <-!not_true_iff_false, !bytes_lt_cons. intros H1 H2.
  assert (byte_val x = byte_val y) as Hv by lia. apply byte_val_inj in Hv as ->.
  f_equal. apply IH; apply not_true_iff_false; naive_solver.
Qed.

#[export] Instance name_order_trans : Transitive (not_after bytes_lt).
Proof.
  unfold not_after. intros a b c Hab Hbc. apply not_true_iff_false. intros Hca.
  destruct (bytes_lt b c) eqn:E.
  - by rewrite (bytes_lt_trans b c a) in Hab.
  - rewrite (bytes_lt_total c b) in Hca by done. congruence.
Qed.
#[export] Instance name_order_total : Total (not_after bytes_lt).
Proof.
  unfold not_after. intros a b. destruct (bytes_lt b a) eqn:E; [right|by left].
  apply not_true_iff_false. intros E'. pose proof (bytes_lt_trans _ _ _ E E') as Hr.
  by rewrite bytes_lt_irrefl in Hr.
Qed.
#[export] Instance name_order_antisymm : AntiSymm (=) (not_after bytes_lt).
Proof. unfold not_after. intros a b ? ?. by apply bytes_lt_total. Qed.

Lemma in_order_perm {A} `{Countable A} (lt : A → A → bool) (s : gset A) : in_order lt s ≡ₚ elements s.
Proof. apply merge_sort_Permutation. Qed.

Lemma elem_of_in_order {A} `{Countable A} (lt : A → A → bool) (s : gset A) x :
  x ∈ in_order lt s ↔ x ∈ s.
Proof. rewrite in_order_perm. apply elem_of_elements. Qed.

Lemma in_order_nil {A} `{Countable A} (lt : A → A → bool) (s : gset A) : in_order lt s = [] ↔ s = ∅.
Proof.
  split; intros Hs.
  - apply leibniz_equiv, elements_empty_inv. apply Permutation_nil_r. by rewrite <-in_order_perm, Hs.
  - subst. apply Permutation_nil_r. rewrite in_order_perm. by rewrite elements_empty.
Qed.

(** What comes after a name of the set, in the order of the set. *)
Lemma in_order_after names l1 n l2 :
  in_order bytes_lt names = l1 ++ n :: l2 →
  in_order bytes_lt (filter (fun b => bytes_lt n b = true) names) = l2.
Proof.
  intros Hl.
  assert (StronglySorted (not_after bytes_lt) (l1 ++ n :: l2)) as Hs.
  { rewrite <-Hl. apply (StronglySorted_merge_sort (not_after bytes_lt)). }
  assert (NoDup (l1 ++ n :: l2)) as Hnd.
  { rewrite <-Hl, in_order_perm. apply NoDup_elements. }
  apply (StronglySorted_unique (not_after bytes_lt)).
  - apply (StronglySorted_merge_sort (not_after bytes_lt)).
  - apply StronglySorted_app_1_r in Hs. apply StronglySorted_inv in Hs as [Hs _]. exact Hs.
  - rewrite in_order_perm. apply NoDup_app in Hnd as (_ & Hdis & Hnd). apply NoDup_cons in Hnd as [Hn Hnd].
    apply NoDup_Permutation; [apply NoDup_elements|done|]. intros x.
    rewrite elem_of_elements, elem_of_filter.
    assert (x ∈ names ↔ x ∈ l1 ++ n :: l2) as -> by (by rewrite <-Hl, elem_of_in_order).
    apply StronglySorted_app in Hs as (H12 & _ & Hs). apply StronglySorted_inv in Hs as [_ Hall].
    rewrite Forall_forall in Hall. rewrite elem_of_app, elem_of_cons. split.
    + intros [Hlt [Hx|[->|Hx]]]; [|by rewrite bytes_lt_irrefl in Hlt|done].
      specialize (H12 x n Hx ltac:(by left)). unfold not_after in H12. congruence.
    + intros Hx. split; [|by right; right]. apply not_false_iff_true. intros Hlt.
      apply Hn. assert (not_after bytes_lt n x) as Hnx by (by apply Hall).
      unfold not_after in Hnx. by rewrite (bytes_lt_total n x).
Qed.

(** ** Pressing and releasing keys *)

Section release.
Context {W : Type} `{KeyGrabs W}.
Variable run : Z → M (t * W) unit.
(** Closures do anything to the world and leave the bindings alone. *)
Variable call : Z → W → W.
Hypothesis run_call : ∀ c s, run c s = Val ((), (s.1, call c s.2)).

Definition stop (a : Action) : Action := a <| running := false |>.
Definition stop_all (names : list bytes) (m : gmap bytes Action) : gmap bytes Action :=
  foldl (fun m n => alter stop n m) m names.

(** The end closure to run for an action of the table. *)
Definition end_of (m : gmap bytes Action) (n : bytes) : option Z :=
  match m !! n with
  | Some a => if running a then end_closure a else None
  | None => None
  end.
Definition call_all (cs : list Z) (w : W) : W := foldl (fun w c => call c w) w cs.

Lemma release_action_run n a k w :
  actions_ k !! n = Some a →
  release_action run n (k, w) =
  Val (bool_decide (is_Some (end_of (actions_ k) n)),
       (k <| actions_ := alter stop n (actions_ k) |>,
        call_all (option_list (end_of (actions_ k) n)) w)).
Proof.
  intros Ha. unfold release_action, end_of. rewrite Ha. mrun. cbn. rewrite Ha.
  destruct (running a) eqn:Hr.
  - unfold set_action, upd. mrun. cbn. destruct (end_closure a) as [c|]; cbn; [by rewrite run_call|done].
  - cbn. do 2 f_equal. f_equal. destruct k as [m bs ns]. cbn in Ha. unfold Prelude.update. cbn. f_equal.
    apply map_eq. intros j. destruct (decide (n = j)) as [<-|Hne].
    + rewrite lookup_alter_eq, Ha. cbn. f_equal. destruct a; cbn in Hr; by subst.
    + by rewrite lookup_alter_ne.
Qed.

Lemma end_of_stop m n n' : n ≠ n' → end_of (alter stop n m) n' = end_of m n'.
Proof. clear run_call. intros Hne. unfold end_of. by rewrite lookup_alter_ne. Qed.

Lemma release_loop_run fuel ks l1 n l2 ran k w :
  in_order bytes_lt (names_at ks k) = l1 ++ n :: l2 →
  (∀ x, x ∈ names_at ks k → is_Some (actions_ k !! x)) →
  (length l2 < fuel)%nat →
  release_loop run fuel ks n ran (k, w) =
  Val (ran || existsb (fun x => bool_decide (is_Some (end_of (actions_ k) x))) (n :: l2),
       (k <| actions_ := stop_all (n :: l2) (actions_ k) |>,
        call_all (omap (end_of (actions_ k)) (n :: l2)) w)).
Proof.
  revert l1 n ran k w fuel. induction l2 as [|n' l2 IH]; intros l1 n ran k w fuel Hl Hex Hfuel;
    (destruct fuel as [|fuel]; [cbn in Hfuel; lia|]); cbn [release_loop].
  all: assert (n ∈ names_at ks k) as Hn by (apply (elem_of_in_order bytes_lt); rewrite Hl; set_solver).
  all: destruct (Hex n Hn) as [a Ha].
  all: rewrite (bind_run _ _ _ _ _ (release_action_run n a k w Ha)), gets_bind; cbn [fst].
  all: change (names_at ks (k <| actions_ := alter stop n (actions_ k) |>)) with (names_at ks k).
  all: rewrite decide_True by done; rewrite (in_order_after _ _ _ _ Hl).
  - cbn. rewrite orb_false_r. destruct (end_of (actions_ k) n); done.
  - rewrite (IH (l1 ++ [n])); [|by rewrite <-(assoc_L (++))| |cbn in Hfuel; lia].
    + assert (NoDup (n :: n' :: l2)) as Hnd.
      { assert (NoDup (l1 ++ n :: n' :: l2)) as Hnd.
        { rewrite <-Hl, in_order_perm. apply NoDup_elements. }
        by apply NoDup_app in Hnd as (_ & _ & ?). }
      apply NoDup_cons in Hnd as [Hni _].
      change (actions_ (k <| actions_ := alter stop n (actions_ k) |>)) with (alter stop n (actions_ k)).
      assert (∀ x, x ∈ n' :: l2 → end_of (alter stop n (actions_ k)) x = end_of (actions_ k) x) as Heq.
      { intros x Hx. apply end_of_stop. congruence. }
      f_equal. f_equal; [|f_equal].
      * rewrite <-orb_assoc. f_equal. cbn [existsb]. f_equal. f_equal.
        { f_equal. by rewrite Heq by left. }
        { clear -Heq. induction l2 as [|x l IHl]; [done|]. cbn. rewrite Heq by set_solver.
          f_equal. apply IHl. intros y Hy. apply Heq. set_solver. }
      * assert (omap (end_of (alter stop n (actions_ k))) (n' :: l2) =
                omap (end_of (actions_ k)) (n' :: l2)) as ->.
        { clear -Heq. induction (n' :: l2) as [|x l IHl]; [done|]. cbn. rewrite Heq by by left.
          rewrite IHl; [done|]. intros y Hy. apply Heq. by right. }
        cbn. destruct (end_of (actions_ k) n); done.
    + intros x Hx. cbn. rewrite lookup_alter_is_Some. by apply Hex.
Qed.

Lemma stop_all_lookup l m n :
  stop_all l m !! n = (if decide (n ∈ l) then stop else id) <$> m !! n.
Proof.
  clear run_call. revert m. induction l as [|x l IH]; intros m; cbn.
  - rewrite decide_False by set_solver. by destruct (m !! n).
  - unfold stop_all in IH. rewrite IH. destruct (decide (x = n)) as [->|Hne].
    + rewrite lookup_alter_eq. rewrite (decide_True (P := n ∈ n :: l)) by by left.
      destruct (decide (n ∈ l)); by destruct (m !! n).
    + rewrite lookup_alter_ne by done. f_equal. repeat case_decide; try done; set_solver.
Qed.
End release.

(** The tables agree with each other. *)
Record consistent (k : t) : Prop := {
  co_binding c n : bindings_ k !! c = Some n ↔
                   ∃ a, actions_ k !! n = Some a ∧ c ∈ bindings a;
  co_keysym ks names : action_names_by_keysym_ k !! ks = Some names → names ≠ ∅;
  co_name ks n : n ∈ names_at ks k ↔ ∃ c, key c = ks ∧ bindings_ k !! c = Some n;
  co_one c c' n : bindings_ k !! c = Some n → bindings_ k !! c' = Some n → key c = key c' → c = c'
}.

Lemma consistent_names k ks n : consistent k → n ∈ names_at ks k → is_Some (actions_ k !! n).
Proof.
  intros Hk Hn. apply (co_name k Hk) in Hn as (c & _ & Hc).
  apply (co_binding k Hk) in Hc as (a & Ha & _). by exists a.
Qed.

Lemma HandleKeyRelease_run {W} `{KeyGrabs W} run (call : Z → W → W) fuel keysym mods k w :
  (∀ c s, run c s = Val ((), (s.1, call c s.2))) → consistent k →
  let l := in_order bytes_lt (names_at (x_lower_keysym (W := W) keysym) k) in
  (length l < fuel)%nat →
  HandleKeyRelease run fuel keysym mods (k, w) =
  Val (existsb (fun x => bool_decide (is_Some (end_of (actions_ k) x))) l,
       (k <| actions_ := stop_all l (actions_ k) |>,
        call_all call (omap (end_of (actions_ k)) l) w)).
Proof.
  intros Hrun Hk l Hfuel. unfold HandleKeyRelease. rewrite gets_bind. cbn [fst make_KeyCombo key].
  fold l. destruct l as [|n l2] eqn:Hl; subst l.
  - by destruct k.
  - rewrite (release_loop_run run call Hrun fuel _ [] n l2); [done|done| |cbn in Hfuel; lia].
    intros x. by apply consistent_names.
Qed.

(** [HandleKeyRelease] with consistent tables and closures that leave them
    alone: whatever modifiers are still down, every running action bound to the
    released key is ended, its end closure called (in the order of the actions'
    names), no other action is touched, nothing else of the tables changes, and
    the result says whether some end closure ran.  (Fuel: one unit per name.) *)
Theorem HandleKeyRelease_ends_actions {W} `{KeyGrabs W} run (call : Z → W → W) fuel keysym mods k w :
  (∀ c s, run c s = Val ((), (s.1, call c s.2))) → consistent k →
  let names := names_at (x_lower_keysym (W := W) keysym) k in
  (size names < fuel)%nat →
  ∃ k', HandleKeyRelease run fuel keysym mods (k, w) =
      Val (bool_decide (∃ n, n ∈ names ∧ is_Some (end_of (actions_ k) n)),
           (k', call_all call (omap (end_of (actions_ k)) (in_order bytes_lt names)) w)) ∧
    bindings_ k' = bindings_ k ∧ action_names_by_keysym_ k' = action_names_by_keysym_ k ∧
    ∀ n, actions_ k' !! n = (if decide (n ∈ names) then stop else id) <$> actions_ k !! n.
Proof.
  intros Hrun Hk names Hfuel.
  exists (k <| actions_ := stop_all (in_order bytes_lt names) (actions_ k) |>). split.
  - rewrite (HandleKeyRelease_run run call) by (by try rewrite in_order_perm). fold names.
    do 2 f_equal. apply eq_true_iff_eq. rewrite existsb_exists, bool_decide_eq_true.
    setoid_rewrite <-list_elem_of_In. setoid_rewrite elem_of_in_order.
    by setoid_rewrite bool_decide_eq_true.
  - do 2 (split; [done|]). intros x.
    change (actions_ (k <| actions_ := ?m |>)) with m. rewrite stop_all_lookup. f_equal.
    pose proof (elem_of_in_order bytes_lt names x). repeat case_decide; naive_solver.
Qed.

(** ** The tables stay consistent *)

Section consistency.
Context {W : Type} `{KeyGrabs W}.

Lemma both_grabs_run (grab : Z → Z → W → unit * W) c k w :
  ∃ w', both_grabs grab c (k, w) = Val ((), (k, w')).
Proof.
  unfold both_grabs, on_x. mrun. cbn. destruct (x_GetKeyCodeFromKeySym (key c) w) as [kc w1]. cbn.
  destruct (grab kc (modifiers c) w1) as [[] w2]. cbn.
  destruct (grab kc (Z.lor (modifiers c) LockMask) w2) as [[] w3]. cbn. by eexists.
Qed.

(** Consistency only looks at which combinations an action has. *)
Lemma consistent_same k k' :
  consistent k → bindings_ k' = bindings_ k → action_names_by_keysym_ k' = action_names_by_keysym_ k →
  (∀ n, bindings <$> actions_ k' !! n = bindings <$> actions_ k !! n) → consistent k'.
Proof.
  intros Hk Hb Hn Ha. split; unfold names_at; rewrite ?Hb, ?Hn; try apply Hk.
  intros c n. rewrite (co_binding k Hk c n). specialize (Ha n).
  destruct (actions_ k' !! n) as [a'|], (actions_ k !! n) as [a|]; cbn in Ha; try done.
  apply (inj Some) in Ha. split; intros (? & [= <-] & Hin); (eexists; split; [done|]); congruence.
Qed.

Lemma consistent_empty : consistent (mk ∅ ∅ ∅).
Proof.
  split; cbn.
  - intros c n. rewrite lookup_empty. split; [done|]. intros (a & Ha & _). by rewrite lookup_empty in Ha.
  - intros ks names Hn. by rewrite lookup_empty in Hn.
  - intros ks n. unfold names_at. cbn. rewrite lookup_empty. cbn. split; [set_solver|].
    intros (c & _ & Hc). by rewrite lookup_empty in Hc.
  - intros c c' n Hc. by rewrite lookup_empty in Hc.
Qed.

Lemma consistent_add_action k n a :
  consistent k → actions_ k !! n = None → bindings a = ∅ →
  consistent (k <| actions_ := <[n := a]> (actions_ k) |>).
Proof.
  intros Hk Hn Ha. split; try apply Hk. intros c n'. cbn.
  rewrite (co_binding k Hk c n'). destruct (decide (n' = n)) as [->|Hne].
  - rewrite lookup_insert_eq, Hn. split; [naive_solver|]. intros (? & [= <-] & Hc). set_solver.
  - by rewrite lookup_insert_ne.
Qed.

Definition bind c n (k : t) : t :=
  mk (alter (fun a => a <| bindings := {[c]} ∪ bindings a |>) n (actions_ k))
     (<[c := n]> (bindings_ k))
     (<[key c := {[n]} ∪ names_at (key c) k]> (action_names_by_keysym_ k)).

Lemma names_at_insert m b s ks ks' names :
  names_at ks' (mk m b (<[ks := names]> s)) = if decide (ks = ks') then names else names_at ks' (mk m b s).
Proof. unfold names_at. cbn. rewrite lookup_insert. by case_decide. Qed.

Lemma consistent_bind k c n :
  consistent k → bindings_ k !! c = None → is_Some (actions_ k !! n) → n ∉ names_at (key c) k →
  consistent (bind c n k).
Proof.
  intros Hk Hc [a Ha] Hn. split.
  - intros c' n'. cbn. rewrite lookup_insert, lookup_alter.
    destruct (decide (c = c')) as [<-|Hcc], (decide (n = n')) as [<-|Hnn].
    + rewrite Ha. cbn. split; [intros _|done]. eexists. split; [done|]. cbn. set_solver.
    + split; [congruence|]. intros Hex. apply (co_binding k Hk) in Hex. congruence.
    + rewrite (co_binding k Hk c' n), Ha. cbn. split; intros (a' & [= <-] & Hin).
      * eexists. split; [done|]. cbn. set_solver.
      * exists a. split; [done|]. cbn in Hin. set_solver.
    + apply (co_binding k Hk).
  - intros ks names. cbn. rewrite lookup_insert. case_decide; [|apply Hk].
    intros [= <-]. set_solver.
  - intros ks n'. unfold bind. rewrite names_at_insert. cbn [bindings_]. case_decide as Hks.
    + subst ks. rewrite elem_of_union, elem_of_singleton, (co_name k Hk). split.
      * intros [->|(c' & Hkey & Hb)]; [exists c; by rewrite lookup_insert_eq|].
        exists c'. split; [done|]. rewrite lookup_insert_ne; congruence.
      * intros (c' & Hkey & Hb). rewrite lookup_insert in Hb. case_decide; [left; congruence|right; eauto].
    + change (names_at ks _) with (names_at ks k). rewrite (co_name k Hk). 
      apply exist_proper. intros c'. split; intros [Hkey Hb]; (split; [done|]).
      * rewrite lookup_insert_ne; congruence.
      * rewrite lookup_insert_ne in Hb; congruence.
  - intros c1 c2 n'. cbn. rewrite !lookup_insert.
    assert (∀ c', bindings_ k !! c' = Some n → key c' = key c → False) as Hno.
    { intros c' Hc' Hkey. apply Hn, (co_name k Hk). eauto. }
    repeat case_decide; subst; try done; intros ? ? ?; simplify_eq.
    + exfalso. by eapply Hno.
    + exfalso. by eapply Hno.
    + by eapply (co_one k Hk).
Qed.

Definition names_without (n : bytes) (names : gset bytes) (ks : Z) (m : gmap Z (gset bytes)) : gmap Z (gset bytes) :=
  if decide (names ∖ {[n]} = ∅) then delete ks m else <[ks := names ∖ {[n]}]> m.
Definition unbind c n (k : t) : t :=
  mk (alter (fun a => a <| bindings := bindings a ∖ {[c]} |> <| running := false |>) n (actions_ k))
     (delete c (bindings_ k))
     (names_without n (names_at (key c) k) (key c) (action_names_by_keysym_ k)).

Lemma names_at_without m b s n ks ks' names :
  names_at ks' (mk m b (names_without n names ks s)) =
  if decide (ks = ks') then names ∖ {[n]} else names_at ks' (mk m b s).
Proof.
  unfold names_at, names_without. cbn. destruct (decide (names ∖ {[n]} = ∅)) as [Hz|Hz].
  - rewrite lookup_delete. case_decide; [by rewrite Hz|done].
  - rewrite lookup_insert. by case_decide.
Qed.

Lemma consistent_unbind k c n :
  consistent k → bindings_ k !! c = Some n → consistent (unbind c n k).
Proof.
  intros Hk Hc. split.
  - intros c' n'. cbn. rewrite lookup_delete, lookup_alter.
    destruct (decide (c = c')) as [<-|Hcc], (decide (n = n')) as [<-|Hnn].
    + split; [done|]. intros (a & Ha & Hin). apply fmap_Some in Ha as (a0 & _ & ->). cbn in Hin. set_solver.
    + split; [done|]. intros Hex. apply (co_binding k Hk) in Hex. congruence.
    + rewrite (co_binding k Hk c' n). split.
      * intros (a & Ha & Hin). rewrite Ha. eexists. split; [done|]. cbn. set_solver.
      * intros (a & Ha & Hin). apply fmap_Some in Ha as (a0 & Ha0 & ->). exists a0. cbn in Hin. set_solver.
    + apply (co_binding k Hk).
  - intros ks names. cbn. unfold names_without. case_decide as Hz.
    + rewrite lookup_delete. case_decide; [done|apply Hk].
    + rewrite lookup_insert. case_decide; [intros [= <-]; done|apply Hk].
  - intros ks n'. unfold unbind. rewrite names_at_without. cbn [bindings_].
    change (names_at ks (mk _ _ _)) with (names_at ks k).
    destruct (decide (key c = ks)) as [<-|Hks].
    + rewrite elem_of_difference, elem_of_singleton, (co_name k Hk). split.
      * intros [(c' & Hkey & Hb) Hnn]. exists c'. split; [done|]. rewrite lookup_delete_ne; congruence.
      * intros (c' & Hkey & Hb). apply lookup_delete_Some in Hb as [Hcc Hb]. split; [by eauto|].
        intros ->. apply Hcc. by eapply (co_one k Hk).
    + rewrite (co_name k Hk). apply exist_proper. intros c'. split; intros [Hkey Hb]; (split; [done|]).
      * rewrite lookup_delete_ne; congruence.
      * by apply lookup_delete_Some in Hb as [? ?].
  - intros c1 c2 n'. cbn. rewrite !lookup_delete_Some. intros [_ H1] [_ H2]. by eapply (co_one k Hk).
Qed.

Lemma RemoveBinding_run c n k w :
  consistent k → bindings_ k !! c = Some n →
  ∃ w', RemoveBinding c (k, w) = Val (true, (unbind c n k, w')).
Proof.
  intros Hk Hc. unfold RemoveBinding. rewrite gets_bind. cbn [fst]. rewrite Hc.
  destruct (proj1 (co_binding k Hk c n) Hc) as (a & Ha & Hin). rewrite Ha.
  rewrite CHECK_bind by by apply bool_decide_eq_true.
  assert (n ∈ names_at (key c) k) as Hn by (apply (co_name k Hk); eauto).
  unfold names_at in Hn. destruct (action_names_by_keysym_ k !! key c) as [names|] eqn:Hnames; [|set_solver].
  cbn in Hn. unfold set_action, upd. mrun. cbn. rewrite bool_decide_true by done. cbn.
  match goal with |- context [both_grabs ?g c (?k', w)] => assert (k' = unbind c n k) as -> end.
  { unfold unbind, names_without, names_at, update. cbn. rewrite Hnames. f_equal.
    apply map_eq. intros j. rewrite !lookup_alter. case_decide; [|done]. subst. by rewrite decide_True, Ha. }
  destruct (both_grabs_run x_UngrabKey c (unbind c n k) w) as [w' ->]. by exists w'.
Qed.

Definition count_of (n : bytes) (k : t) : nat :=
  match actions_ k !! n with Some a => size (bindings a) | None => 0 end.

Lemma unbind_smaller c n k :
  consistent k → bindings_ k !! c = Some n →
  (count_of n (unbind c n k) < count_of n k)%nat ∧
  (∀ n', n' ≠ n → count_of n' (unbind c n k) = count_of n' k) ∧
  dom (actions_ (unbind c n k)) = dom (actions_ k).
Proof.
  intros Hk Hc. destruct (proj1 (co_binding k Hk c n) Hc) as (a & Ha & Hin).
  unfold count_of. cbn. rewrite lookup_alter_eq, Ha. cbn. split_and!.
  - apply subset_size. set_solver.
  - intros n' Hn. by rewrite lookup_alter_ne.
  - by rewrite dom_alter_L.
Qed.

Lemma RemoveAction_run fuel n k w :
  consistent k → is_Some (actions_ k !! n) → (count_of n k < fuel)%nat →
  ∃ k' w', RemoveAction fuel n (k, w) = Val (true, (k', w')) ∧ consistent k' ∧
    dom (actions_ k') = dom (actions_ k) ∖ {[n]} ∧ ∀ n', n' ≠ n → count_of n' k' = count_of n' k.
Proof.
  intros Hk Hn Hfuel. unfold RemoveAction. rewrite gets_bind. cbn [fst].
  destruct (actions_ k !! n) as [a0|] eqn:Ha0; [|by destruct Hn].
  destruct (loop_total
    (fun _ s => consistent s.1 ∧ dom (actions_ s.1) = dom (actions_ k) ∧
                ∀ n', n' ≠ n → count_of n' s.1 = count_of n' k)
    (fun _ s => consistent s.1 ∧ dom (actions_ s.1) = dom (actions_ k) ∧
                (∀ n', n' ≠ n → count_of n' s.1 = count_of n' k) ∧
                ∃ a, actions_ s.1 !! n = Some a ∧ bindings a = ∅)
    (fun _ s => count_of n s.1) (remove_step n)) with (fuel := fuel) (a := ()) (s := (k, w))
    as ([] & [k' w'] & Hrun & Hk' & Hdom & Hcount & a & Ha & Hempty); [|done|done|].
  - intros [] [k1 w1] (Hk1 & Hdom & Hcount). cbn in Hk1, Hdom, Hcount. unfold remove_step. rewrite gets_bind. cbn [fst].
    assert (n ∈ dom (actions_ k1)) as [a Ha]%elem_of_dom by (rewrite Hdom; by apply elem_of_dom_2 in Ha0).
    rewrite Ha. destruct (in_order KeyComboComparator (bindings a)) as [|c l] eqn:Hl.
    + exists (inr ()), (k1, w1). repeat (split; [done|]). exists a. split; [done|]. by apply in_order_nil in Hl.
    + assert (c ∈ bindings a) as Hc by (apply (elem_of_in_order KeyComboComparator); rewrite Hl; by left).
      assert (bindings_ k1 !! c = Some n) as Hb by (apply (co_binding k1 Hk1); eauto).
      destruct (RemoveBinding_run c n k1 w1 Hk1 Hb) as [w2 Hrun]. rewrite (bind_run _ _ _ _ _ Hrun).
      exists (inl ()), (unbind c n k1, w2). destruct (unbind_smaller c n k1 Hk1 Hb) as (Hlt & Hsame & Hd).
      split; [done|]. split; [|done]. split; [by apply consistent_unbind|]. split; [exact (eq_trans Hd Hdom)|].
      intros n' Hn'. exact (eq_trans (Hsame n' Hn') (Hcount n' Hn')).
  - rewrite (bind_run _ _ _ _ _ Hrun). exists (k' <| actions_ := delete n (actions_ k') |>), w'.
    split; [done|]. cbn in Hk', Hdom, Hcount, Ha. split; [|split].
    + split; try apply Hk'. intros c n'. cbn. rewrite (co_binding k' Hk' c n').
      rewrite lookup_delete. case_decide; [subst|done]. rewrite Ha. split; [|by intros (? & ? & _)].
      intros (? & [= <-] & Hc). set_solver.
    + cbn. by rewrite dom_delete_L, Hdom.
    + intros n' Hn'. rewrite <-Hcount by done. unfold count_of. cbn. by rewrite lookup_delete_ne.
Qed.

Lemma count_le n k : consistent k → (count_of n k ≤ size (bindings_ k))%nat.
Proof.
  intros Hk. unfold count_of. destruct (actions_ k !! n) as [a|] eqn:Ha; [|lia].
  rewrite <-size_dom. apply subseteq_size. intros c Hc. apply elem_of_dom.
  exists n. apply (co_binding k Hk). eauto.
Qed.

Lemma size_list_to_set_le {A} `{Countable A} (l : list A) :
  (size (list_to_set l : gset A) ≤ length l)%nat.
Proof.
  induction l as [|x l IH]; cbn [list_to_set length]; [by rewrite size_empty|].
  rewrite size_union_alt, size_singleton.
  pose proof (subseteq_size (list_to_set l ∖ {[x]}) (list_to_set (C := gset A) l)). set_solver by lia.
Qed.

Lemma names_le ks k : consistent k → (size (names_at ks k) ≤ size (bindings_ k))%nat.
Proof.
  intros Hk. rewrite <-length_map_to_list, <-(length_map snd).
  etrans; [|apply size_list_to_set_le]. apply subseteq_size. intros n Hn.
  apply (co_name k Hk) in Hn as (c & _ & Hc). apply elem_of_list_to_set, list_elem_of_fmap.
  exists (c, n). split; [done|]. by apply elem_of_map_to_list.
Qed.

Lemma press_consistent k n : consistent k →
  consistent (k <| actions_ := alter (fun a => a <| running := true |>) n (actions_ k) |>).
Proof.
  intros Hk. apply (consistent_same k); [done..|]. intros n'. cbn. rewrite lookup_alter.
  case_decide; [subst|done]. by destruct (actions_ k !! n').
Qed.

End consistency.

(** The calls a client makes. *)
Inductive binding_call :=
  | CallAddAction (action_name : bytes) (b r e : option Z)
  | CallRemoveAction (action_name : bytes)
  | CallAddBinding (combo : KeyCombo) (action_name : bytes)
  | CallRemoveBinding (combo : KeyCombo)
  | CallHandleKeyPress (keysym mods : Z)
  | CallHandleKeyRelease (keysym mods : Z).

Definition binding_exec {W} `{KeyGrabs W} run fuel (c : binding_call) : M (t * W) bool :=
  match c with
  | CallAddAction n b r e => AddAction n b r e
  | CallRemoveAction n => RemoveAction fuel n
  | CallAddBinding c n => AddBinding c n
  | CallRemoveBinding c => RemoveBinding c
  | CallHandleKeyPress ks m => HandleKeyPress run ks m
  | CallHandleKeyRelease ks m => HandleKeyRelease run fuel ks m
  end.

(** What a call may not ask for: an action with the empty name, or a second
    combination with the same key for an action. *)
Definition refused (k : t) (c : binding_call) : Prop :=
  match c with
  | CallAddAction n _ _ _ => n = []
  | CallAddBinding c n =>
      bindings_ k !! c = None ∧ is_Some (actions_ k !! n) ∧
      ∃ c', key c' = key c ∧ bindings_ k !! c' = Some n
  | _ => False
  end.

Lemma AddBinding_consistent {W} `{KeyGrabs W} c n k w :
  consistent k →
  match AddBinding c n (k, w) with
  | Val (_, (k', _)) => consistent k' ∧ ¬ refused k (CallAddBinding c n)
  | Fault f => f = CheckFailed ∧ refused k (CallAddBinding c n)
  end.
Proof.
  intros Hk. unfold AddBinding. rewrite gets_bind. cbn [fst refused].
  destruct (bindings_ k !! c) as [n0|] eqn:Hc; [by split; [|intros [? _]]|].
  destruct (actions_ k !! n) as [a|] eqn:Ha; [|by split; [|intros (_ & [] & _)]].
  rewrite CHECK_bind.
  2:{ apply bool_decide_eq_true. intros Hin.
      assert (bindings_ k !! c = Some n) by (apply (co_binding k Hk); eauto). congruence. }
  unfold set_action, upd. mrun. cbn [fst snd].
  destruct (decide (n ∈ names_at (key c) k)) as [Hn|Hn].
  - rewrite bool_decide_false by (intros ?; done). cbn. split; [done|]. split; [done|]. split; [by eauto|].
    apply (co_name k Hk) in Hn as (c' & ? & ?). eauto.
  - rewrite bool_decide_true by done. cbn [CHECK].
    destruct (both_grabs_run x_GrabKey c (bind c n k) w) as [w' Hw].
    unfold CHECK. mrun. cbn [fst snd].
    match goal with |- context [both_grabs ?g c (?k', w)] => change k' with (bind c n k) end.
    rewrite Hw. split; [by apply consistent_bind|].
    intros (_ & _ & c' & Hkey & Hb). apply Hn, (co_name k Hk). eauto.
Qed.


Module KeyBindingsExample.
Definition example_x : KeyGrabs (list (Z * Z)) := {|
  x_lower_keysym ks := if (65 <=? ks) && (ks <=? 90) then ks + 32 else ks;
  x_SetDetectableKeyboardAutoRepeat _ w := (true, w);
  x_GetKeyCodeFromKeySym ks w := (ks, w);
  x_GrabKey kc m w := ((), (kc, m) :: w);
  x_UngrabKey kc m w := ((), filter (fun p => p ≠ (kc, m)) w)
|}.
#[export] Existing Instance example_x.
Definition example_call (c : Z) (w : list (Z * Z)) : list (Z * Z) := (c, c) :: w.
Definition example_run (c : Z) : M (t * list (Z * Z)) unit :=
  fun s => Val ((), (s.1, example_call c s.2)).
Definition lock : bytes := str "lock".
Definition ctrl_a : KeyCombo := mkKeyCombo 97 kControlMask.
Definition with_lock : t := (mk ∅ ∅ ∅) <| actions_ := <[lock := new_Action (Some 1) None (Some 2)]> ∅ |>.
Definition bound : t := bind ctrl_a lock with_lock.
Definition pressed : t :=
  bound <| actions_ := alter (fun a => a <| running := true |>) lock (actions_ bound) |>.

Lemma pressed_consistent : consistent pressed.
Proof.
  apply press_consistent, consistent_bind; [|done|by eexists|by vm_compute].
  apply (consistent_add_action (mk ∅ ∅ ∅)); [apply consistent_empty|done..].
Qed.
End KeyBindingsExample.
Import KeyBindingsExample.

Lemma HandleKeyRelease_ends_actions_witness :
  ∃ k', HandleKeyRelease example_run 2 65 kShiftMask (pressed, []) = Val (true, (k', [(2, 2)])) ∧
        actions_ k' !! lock = Some (mkAction false (Some 1) None (Some 2) {[ctrl_a]}).
Proof.
  refine (let Hthm := HandleKeyRelease_ends_actions example_run example_call 2 65 kShiftMask pressed []
            ltac:(reflexivity) pressed_consistent ltac:(vm_compute; lia) in _).
  destruct Hthm as (k' & Hrun & _ & _ & Ha). exists k'. split.
  - rewrite Hrun. rewrite bool_decide_true; [vm_compute; reflexivity|].
    exists lock. split; [apply (bool_decide_unpack _); vm_compute; exact I|eexists; vm_compute; reflexivity].
  - rewrite Ha. vm_compute. reflexivity.
Defined.

