(* ===== verification/XConnection.v ===== *)
(** * The X connection of the window manager: x_connection.{h,cc},
    real_x_connection.cc and atom_cache.{h,cc}.

    [XConn] is the part of the abstract class [XConnection] its clients use here
    (window properties, client messages, atoms), [XConnLaws] what they rely on;
    [RealXConnection] implements it over XCB and Xlib, which are parameters
    ([Xcb], [Xlib]).  The static variables of real_x_connection.cc are fields of
    its state.  Out parameters are results. *)

From stdpp Require Import sorting.
From S2P Require Import Prelude WmUtil.

(** ** The interface *)

Class XConn (X : Type) := {
  conn_GetIntArrayProperty : Z → Z → M X (bool * list Z);
  conn_SetIntArrayProperty : Z → Z → Z → list Z → M X bool;
  conn_SetStringProperty : Z → Z → bytes → M X bool;
  conn_SendClientMessageEvent : Z → Z → Z → list Z → Z → M X bool;
  conn_GetSelectionOwner : Z → M X Z;
  conn_GetAtoms : list bytes → M X (bool * list Z);
  conn_GetAtomName : Z → M X (bool * bytes)
}.

Module XConnection.
Definition kByteFormat : Z := 8.
Definition kLongFormat : Z := 32.

Section x_connection.
Context {X : Type} `{XConn X}.

Definition GetIntProperty (xid xatom : Z) : M X (bool * Z) :=
  r ← conn_GetIntArrayProperty xid xatom;
  if negb r.1 then mret (false, 0)
  else
    CHECK (negb (bool_decide (r.2 = [])));;
    mret (true, default 0 (head r.2)).

Definition SetIntProperty (xid xatom type value : Z) : M X bool :=
  conn_SetIntArrayProperty xid xatom type [value].

Definition GetAtom (name : bytes) : M X (bool * Z) :=
  r ← conn_GetAtoms [name];
  if negb r.1 then mret (false, 0)
  else
    CHECK (zlen r.2 =? 1);;
    mret (true, default 0 (head r.2)).
End x_connection.

(** Bit [keycode % 8] of byte [keycode / 8]. *)
Definition GetKeyCodeState (states : bytes) (keycode : Z) : option bool :=
  b ← states !! Z.to_nat (keycode / 8);
  Some (negb (Z.land (byte_val b) (Z.shiftl 1 (keycode mod 8)) =? 0)).

Record SizeHints := mkSizeHints {
  width : Z; height : Z; min_width : Z; min_height : Z; max_width : Z; max_height : Z;
  width_increment : Z; height_increment : Z;
  min_aspect_x : Z; min_aspect_y : Z; max_aspect_x : Z; max_aspect_y : Z;
  base_width : Z; base_height : Z; win_gravity : Z
}.
#[global] Instance eta_SizeHints : Eta SizeHints := fun r =>
  mkSizeHints (width r) (height r) (min_width r) (min_height r) (max_width r) (max_height r)
    (width_increment r) (height_increment r)
    (min_aspect_x r) (min_aspect_y r) (max_aspect_x r) (max_aspect_y r)
    (base_width r) (base_height r) (win_gravity r).
Definition Reset : SizeHints :=
  mkSizeHints (-1) (-1) (-1) (-1) (-1) (-1) (-1) (-1) (-1) (-1) (-1) (-1) (-1) (-1) (-1).
End XConnection.
Import XConnection.

(** ** XCB and Xlib *)

Record property_reply := mkReply {
  reply_format : Z; reply_type : Z; reply_bytes_after : Z; reply_value_len : Z; reply_value : bytes
}.

(** Requests of XCB; [None] is an error reply.  A request that waits for its
    reply is one call, [xcb_intern_atom] and its reply are two. *)
Class Xcb (W : Type) := {
  xcb_configure_window : Z → Z → list Z → W → W;
  xcb_intern_atom : bytes → W → Z * W;
  xcb_intern_atom_reply : Z → W → option Z * W;
  xcb_get_atom_name : Z → W → option bytes * W;
  xcb_get_property : Z → Z → Z → Z → W → option property_reply * W;
  xcb_change_property : Z → Z → Z → Z → Z → bytes → W → W;
  xcb_delete_property : Z → Z → W → W;
  xcb_get_selection_owner : Z → W → option Z * W;
  xcb_grab_server : W → W;
  xcb_ungrab_server : W → W;
  xcb_generate_id : W → Z * W;
  (** xid, parent, x, y, width, height, class, value mask, values *)
  xcb_create_window : Z → Z → Z → Z → Z → Z → Z → Z → list Z → W → W;
  xcb_query_pointer : W → option (Z * Z) * W;
  XCreateFontCursor : Z → W → Z * W;
  xcb_free_cursor : Z → W → W
}.

Record XErrorEvent := mkXError { error_code : Z; request_code : Z; minor_code : Z }.
Record XRectangle := mkXRectangle { rect_x : Z; rect_y : Z; rect_width : Z; rect_height : Z }.

(** Xlib calls, with the errors that are reported to the error handler while
    they run.  A handler is its address, [HandleXError_address] that of
    [HandleXError]. *)
Class Xlib (W : Type) := {
  HandleXError_address : Z;
  XSetErrorHandler : Z → W → Z * W;
  XSync : W → list XErrorEvent * W;
  XGetWindowAttributes_your_event_mask : Z → W → (Z * list XErrorEvent) * W;
  XSelectInput : Z → Z → W → list XErrorEvent * W;
  XShapeGetRectangles : Z → W → (list XRectangle * list XErrorEvent) * W;
  (** destination; then the event's window, type, format and data; event mask *)
  XSendEvent : Z → Z → Z → Z → list Z → Z → W → list XErrorEvent * W
}.

Definition XCB_NONE : Z := 0.
Definition XCB_CONFIG_WINDOW_X : Z := 1.
Definition XCB_CONFIG_WINDOW_Y : Z := 2.
Definition XCB_CONFIG_WINDOW_WIDTH : Z := 4.
Definition XCB_CONFIG_WINDOW_HEIGHT : Z := 8.
Definition XCB_CONFIG_WINDOW_BORDER_WIDTH : Z := 16.
Definition XCB_CONFIG_WINDOW_SIBLING : Z := 32.
Definition XCB_CONFIG_WINDOW_STACK_MODE : Z := 64.
Definition XCB_STACK_MODE_ABOVE : Z := 0.
Definition XCB_STACK_MODE_BELOW : Z := 1.
Definition XA_CARDINAL : Z := 6.
Definition XA_WM_NORMAL_HINTS : Z := 40.
Definition XA_WM_TRANSIENT_FOR : Z := 68.

(** ** RealXConnection *)

(** 32-bit items in memory (little endian). *)
Definition int_bytes (v : Z) : bytes :=
  [byte_of v; byte_of (Z.shiftr v 8); byte_of (Z.shiftr v 16); byte_of (Z.shiftr v 24)].
Definition bytes_int (b0 b1 b2 b3 : byte) : Z :=
  i32 (byte_val b0 + 2 ^ 8 * byte_val b1 + 2 ^ 16 * byte_val b2 + 2 ^ 24 * byte_val b3).

Module RealXConnection.
Definition kMaxPropertySize : Z := 1024.

Record t := mk {
  root_ : Z;
  utf8_string_atom_ : Z;
  cursors_ : gmap Z Z;
  server_grabbed_ : bool;
  old_error_handler : Z;
  last_trapped_error_code : Z;
  last_trapped_request_code : Z;
  last_trapped_minor_code : Z
}.
#[global] Instance eta_t : Eta t := fun r =>
  mk (root_ r) (utf8_string_atom_ r) (cursors_ r) (server_grabbed_ r) (old_error_handler r)
     (last_trapped_error_code r) (last_trapped_request_code r) (last_trapped_minor_code r).

Section real_x_connection.
Context {W : Type} `{Xcb W} `{Xlib W}.

Definition upd (f : t → t) : M (t * W) unit := modify (fun s => (f s.1, s.2)).
Definition on_x {A} (f : W → A * W) : M (t * W) A := zoom snd (fun w s => (s.1, w)) (extern f).
Definition request (f : W → W) : M (t * W) unit := on_x (fun w => ((), f w)).

(** *** Errors *)

Definition HandleXError (event : XErrorEvent) (s : t) : t :=
  s <| last_trapped_error_code := error_code event |>
    <| last_trapped_request_code := request_code event |>
    <| last_trapped_minor_code := minor_code event |>.

(** An Xlib call made while [HandleXError] is installed. *)
Definition trapped {A} (f : W → (A * list XErrorEvent) * W) : M (t * W) A :=
  r ← on_x f;
  upd (fun s => foldl (fun s e => HandleXError e s) s r.2);;
  mret r.1.
Definition trapped_ (f : W → list XErrorEvent * W) : M (t * W) unit :=
  trapped (fun w => let '(es, w') := f w in (((), es), w')).

Definition TrapErrors : M (t * W) unit :=
  s ← gets fst;
  CHECK (old_error_handler s =? 0);;
  old ← on_x (XSetErrorHandler HandleXError_address);
  upd (fun s => s <| old_error_handler := old |>);;
  trapped_ XSync;;
  upd (fun s => s <| last_trapped_error_code := 0 |> <| last_trapped_request_code := 0 |>
                  <| last_trapped_minor_code := 0 |>).

Definition UntrapErrors : M (t * W) Z :=
  s ← gets fst;
  CHECK (negb (old_error_handler s =? 0));;
  trapped_ XSync;;
  on_x (XSetErrorHandler (old_error_handler s));;
  upd (fun s => s <| old_error_handler := 0 |>);;
  gets (fun s => last_trapped_error_code s.1).

Definition GetLastErrorCode : M (t * W) Z := gets (fun s => last_trapped_error_code s.1).

(** *** Server grabs: [XConnection::GrabServer], [UngrabServer] *)

Definition GrabServer : M (t * W) bool :=
  request xcb_grab_server;;
  upd (fun s => s <| server_grabbed_ := true |>);;
  mret true.
Definition UngrabServer : M (t * W) bool :=
  request xcb_ungrab_server;;
  upd (fun s => s <| server_grabbed_ := false |>);;
  mret true.

(** *** Selecting events *)

Definition SelectInputOnWindow (xid event_mask : Z) (preserve_existing : bool) : M (t * W) bool :=
  TrapErrors;;
  event_mask ← (if preserve_existing then
                  GrabServer;;
                  your_event_mask ← trapped (XGetWindowAttributes_your_event_mask xid);
                  mret (Z.lor event_mask your_event_mask)
                else mret event_mask);
  last ← GetLastErrorCode;
  (if last =? 0 then trapped_ (XSelectInput xid event_mask) else mret ());;
  (if preserve_existing then UngrabServer;; mret () else mret ());;
  error ← UntrapErrors;
  mret (error =? 0).

Definition DeselectInputOnWindow (xid event_mask : Z) : M (t * W) bool :=
  TrapErrors;;
  your_event_mask ← trapped (XGetWindowAttributes_your_event_mask xid);
  let your_event_mask := Z.land your_event_mask (Z.lnot event_mask) in
  last ← GetLastErrorCode;
  (if last =? 0 then trapped_ (XSelectInput xid your_event_mask) else mret ());;
  error ← UntrapErrors;
  mret (error =? 0).

Definition SendClientMessageEvent (dest_xid xid message_type : Z) (data : list Z) (event_mask : Z)
  : M (t * W) bool :=
  TrapErrors;;
  trapped_ (XSendEvent dest_xid xid message_type kLongFormat data event_mask);;
  error ← UntrapErrors;
  mret (error =? 0).

(** The rectangles are drawn into the byte map the caller passes. *)
Definition draw_rects (rects : list XRectangle) : M ByteMap.t unit :=
  ByteMap.Clear x00;;
  for_each (fun r => ByteMap.SetRectangle (rect_x r) (rect_y r) (rect_width r) (rect_height r) xff) rects.
Definition GetWindowBoundingRegion (xid : Z) (bytemap : ByteMap.t) : M (t * W) (bool * ByteMap.t) :=
  TrapErrors;;
  rects ← trapped (XShapeGetRectangles xid);
  error ← UntrapErrors;
  if negb (error =? 0) then mret (false, bytemap)
  else match draw_rects rects bytemap with
       | Val (_, bytemap) => mret (true, bytemap)
       | Fault f => fail f
       end.

(** *** Configuring windows; the values are [uint32_t]s. *)

Definition configure (xid mask : Z) (values : list Z) : M (t * W) bool :=
  request (xcb_configure_window xid mask (u32 <$> values));; mret true.
Definition MoveWindow (xid x y : Z) : M (t * W) bool :=
  configure xid (Z.lor XCB_CONFIG_WINDOW_X XCB_CONFIG_WINDOW_Y) [x; y].
Definition ResizeWindow (xid width height : Z) : M (t * W) bool :=
  configure xid (Z.lor XCB_CONFIG_WINDOW_WIDTH XCB_CONFIG_WINDOW_HEIGHT) [width; height].
Definition ConfigureWindow (xid x y width height : Z) : M (t * W) bool :=
  configure xid
    (Z.lor (Z.lor (Z.lor XCB_CONFIG_WINDOW_X XCB_CONFIG_WINDOW_Y) XCB_CONFIG_WINDOW_WIDTH)
           XCB_CONFIG_WINDOW_HEIGHT) [x; y; width; height].
Definition ConfigureWindowOffscreen (xid : Z) : M (t * W) bool := ConfigureWindow xid (-1) (-1) 1 1.
Definition RaiseWindow (xid : Z) : M (t * W) bool :=
  configure xid XCB_CONFIG_WINDOW_STACK_MODE [XCB_STACK_MODE_ABOVE].
Definition StackWindow (xid other : Z) (above : bool) : M (t * W) bool :=
  configure xid (Z.lor XCB_CONFIG_WINDOW_SIBLING XCB_CONFIG_WINDOW_STACK_MODE)
    [other; if above then XCB_STACK_MODE_ABOVE else XCB_STACK_MODE_BELOW].
Definition SetWindowBorderWidth (xid width : Z) : M (t * W) bool :=
  configure xid XCB_CONFIG_WINDOW_BORDER_WIDTH [width].

Definition CreateWindow (parent x y width height : Z) (override_redirect input_only : bool)
    (event_mask : Z) : M (t * W) Z :=
  CHECK (0 <? width);;
  CHECK (0 <? height);;
  CHECK (negb (parent =? XCB_NONE));;
  xid ← on_x xcb_generate_id;
  request (xcb_create_window xid parent x y width height
             (if input_only then 2 else 1)        (* XCB_WINDOW_CLASS_INPUT_ONLY, _INPUT_OUTPUT *)
             (Z.lor 512 2048)                     (* XCB_CW_OVERRIDE_REDIRECT | XCB_CW_EVENT_MASK *)
             [if override_redirect then 1 else 0; u32 event_mask]);;
  mret xid.
Definition CreateSimpleWindow (parent x y width height : Z) : M (t * W) Z :=
  CreateWindow parent x y width height false false 0.

(** *** Properties *)

(** [value_out], [format_out] and [type_out], when the result is true; reading
    more bytes than the reply has is undefined. *)
Definition GetPropertyInternal (xid xatom : Z) : M (t * W) (option (bytes * Z * Z)) :=
  reply ← on_x (xcb_get_property xid xatom 0 kMaxPropertySize);
  match reply with
  | None => mret None
  | Some r =>
      if reply_format r =? 0 then mret None
      else
        let size := usize (reply_value_len r * (reply_format r / 8)) in
        if zlen (reply_value r) <? size then fail Undefined
        else mret (Some (take (Z.to_nat size) (reply_value r), reply_format r, reply_type r))
  end.

Fixpoint ints_of (str_value : bytes) : list Z :=
  match str_value with
  | b0 :: b1 :: b2 :: b3 :: l => bytes_int b0 b1 b2 b3 :: ints_of l
  | _ => []
  end.

Definition GetIntArrayProperty (xid xatom : Z) : M (t * W) (bool * list Z) :=
  r ← GetPropertyInternal xid xatom;
  match r with
  | None => mret (false, [])
  | Some (str_value, format, _) =>
      if negb (format =? kLongFormat) then mret (false, [])
      else if negb (zlen str_value mod 4 =? 0) then mret (false, [])
      else mret (true, ints_of str_value)
  end.

(** A list that is too long is only warned about. *)
Definition SetIntArrayProperty (xid xatom type : Z) (values : list Z) : M (t * W) bool :=
  request (xcb_change_property xid xatom type kLongFormat (zlen values) (values ≫= int_bytes));;
  mret true.

Definition GetStringProperty (xid xatom : Z) : M (t * W) (bool * bytes) :=
  r ← GetPropertyInternal xid xatom;
  match r with
  | None => mret (false, [])
  | Some (out, format, _) => mret (format =? kByteFormat, out)
  end.
Definition SetStringProperty (xid xatom : Z) (value : bytes) : M (t * W) bool :=
  s ← gets fst;
  request (xcb_change_property xid xatom (utf8_string_atom_ s) kByteFormat (zlen value) value);;
  mret true.
Definition DeletePropertyIfExists (xid xatom : Z) : M (t * W) bool :=
  request (xcb_delete_property xid xatom);; mret true.

Definition GetSelectionOwner (atom : Z) : M (t * W) Z :=
  reply ← on_x (xcb_get_selection_owner atom);
  mret (default XCB_NONE reply).

(** *** Atoms *)

Fixpoint intern_all (names : list bytes) : M (t * W) (list Z) :=
  match names with
  | [] => mret []
  | name :: l => cookie ← on_x (xcb_intern_atom name); cookies ← intern_all l; mret (cookie :: cookies)
  end.
Fixpoint intern_replies (cookies : list Z) (atoms_out : list Z) : M (t * W) (bool * list Z) :=
  match cookies with
  | [] => mret (true, atoms_out)
  | cookie :: l =>
      reply ← on_x (xcb_intern_atom_reply cookie);
      match reply with
      | None => mret (false, atoms_out)
      | Some atom => intern_replies l (atoms_out ++ [atom])
      end
  end.
Definition GetAtoms (names : list bytes) : M (t * W) (bool * list Z) :=
  cookies ← intern_all names;
  intern_replies cookies [].
Definition GetAtomName (atom : Z) : M (t * W) (bool * bytes) :=
  reply ← on_x (xcb_get_atom_name atom);
  match reply with
  | None => mret (false, [])
  | Some name => mret (true, name)
  end.

#[global] Instance real_conn : XConn (t * W) := {|
  conn_GetIntArrayProperty := GetIntArrayProperty;
  conn_SetIntArrayProperty := SetIntArrayProperty;
  conn_SetStringProperty := SetStringProperty;
  conn_SendClientMessageEvent := SendClientMessageEvent;
  conn_GetSelectionOwner := GetSelectionOwner;
  conn_GetAtoms := GetAtoms;
  conn_GetAtomName := GetAtomName
|}.

(** *** Hints *)

Definition has_flag (flags bit : Z) : bool := negb (Z.land flags bit =? 0).
Definition value_at (values : list Z) (i : nat) : Z := default 0 (values !! i).

Definition hints_of_values (values : list Z) : SizeHints :=
  let flags := u32 (value_at values 0) in
  let v := value_at values in
  let h := Reset in
  let h := if has_flag flags 2 (* USSize *) || has_flag flags 8 (* PSize *) then
             h <| XConnection.width := v 3%nat |> <| XConnection.height := v 4%nat |> else h in
  let h := if has_flag flags 16 (* PMinSize *) then
             h <| min_width := v 5%nat |> <| min_height := v 6%nat |> else h in
  let h := if has_flag flags 32 (* PMaxSize *) then
             h <| max_width := v 7%nat |> <| max_height := v 8%nat |> else h in
  let h := if has_flag flags 64 (* PResizeInc *) then
             h <| width_increment := v 9%nat |> <| height_increment := v 10%nat |> else h in
  let h := if has_flag flags 128 (* PAspect *) then
             h <| min_aspect_x := v 11%nat |> <| min_aspect_y := v 12%nat |>
               <| max_aspect_x := v 13%nat |> <| max_aspect_y := v 14%nat |> else h in
  let h := if has_flag flags 256 (* PBaseSize *) && (17 <=? zlen values) then
             h <| base_width := v 15%nat |> <| base_height := v 16%nat |> else h in
  if has_flag flags 512 (* PWinGravity *) && (18 <=? zlen values) then
    h <| win_gravity := v 17%nat |> else h.

Definition GetSizeHintsForWindow (xid : Z) : M (t * W) (bool * SizeHints) :=
  r ← GetIntArrayProperty xid XA_WM_NORMAL_HINTS;
  if negb r.1 then mret (false, Reset)
  else if zlen r.2 <? 15 then mret (false, Reset)
  else mret (true, hints_of_values r.2).

(** The owner, an [int], becomes an [XWindow] (unsigned). *)
Definition GetTransientHintForWindow (xid : Z) : M (t * W) (bool * Z) :=
  r ← GetIntProperty xid XA_WM_TRANSIENT_FOR;
  mret (r.1, u32 r.2).

(** *** The pointer and cursors *)

Definition QueryPointerPosition : M (t * W) (option (Z * Z)) := on_x xcb_query_pointer.

Definition GetCursorInternal (shape : Z) : M (t * W) Z :=
  s ← gets fst;
  let cursor := FindWithDefault (cursors_ s) shape XCB_NONE in
  if cursor =? XCB_NONE then
    cursor ← on_x (XCreateFontCursor shape);
    upd (fun s => s <| cursors_ := <[shape := cursor]> (cursors_ s) |>);;
    mret cursor
  else mret cursor.

Definition by_shape (p q : Z * Z) : Prop := p.1 ≤ q.1.
#[local] Instance by_shape_dec p q : Decision (by_shape p q) := decide (p.1 ≤ q.1).
Definition destroy : M (t * W) unit :=
  s ← gets fst;
  for_each (fun p => request (xcb_free_cursor p.2)) (merge_sort by_shape (map_to_list (cursors_ s))).
End real_x_connection.
End RealXConnection.

(** ** AtomCache *)

Inductive Atom :=
  | ATOM_ATOM | ATOM_CHROME_GET_SERVER_TIME | ATOM_CHROME_STATE | ATOM_CHROME_STATE_COLLAPSED_PANEL
  | ATOM_CHROME_WINDOW_TYPE | ATOM_CHROME_WM_MESSAGE | ATOM_MANAGER | ATOM_NET_ACTIVE_WINDOW
  | ATOM_NET_CLIENT_LIST | ATOM_NET_CLIENT_LIST_STACKING | ATOM_NET_CURRENT_DESKTOP
  | ATOM_NET_DESKTOP_GEOMETRY | ATOM_NET_DESKTOP_VIEWPORT | ATOM_NET_NUMBER_OF_DESKTOPS
  | ATOM_NET_SUPPORTED | ATOM_NET_SUPPORTING_WM_CHECK | ATOM_NET_WM_CM_S0 | ATOM_NET_WM_NAME
  | ATOM_NET_WM_STATE | ATOM_NET_WM_STATE_FULLSCREEN | ATOM_NET_WM_STATE_MAXIMIZED_HORZ
  | ATOM_NET_WM_STATE_MAXIMIZED_VERT | ATOM_NET_WM_STATE_MODAL | ATOM_NET_WM_WINDOW_OPACITY
  | ATOM_NET_WORKAREA | ATOM_PRIMARY | ATOM_WM_DELETE_WINDOW | ATOM_WM_HINTS | ATOM_WM_NORMAL_HINTS
  | ATOM_WM_PROTOCOLS | ATOM_WM_S0 | ATOM_WM_STATE | ATOM_WM_SYSTEM_METRICS | ATOM_WM_TAKE_FOCUS
  | ATOM_WM_TRANSIENT_FOR.
#[global] Instance Atom_eq_dec : EqDecision Atom.
Proof. solve_decision. Defined.
Definition kNumAtoms : Z := 35.

Definition kAtomInfos : list (Atom * string) := [
  (ATOM_ATOM, "ATOM");
  (ATOM_CHROME_GET_SERVER_TIME, "_CHROME_GET_SERVER_TIME");
  (ATOM_CHROME_STATE, "_CHROME_STATE");
  (ATOM_CHROME_STATE_COLLAPSED_PANEL, "_CHROME_STATE_COLLAPSED_PANEL");
  (ATOM_CHROME_WINDOW_TYPE, "_CHROME_WINDOW_TYPE");
  (ATOM_CHROME_WM_MESSAGE, "_CHROME_WM_MESSAGE");
  (ATOM_MANAGER, "MANAGER");
  (ATOM_NET_ACTIVE_WINDOW, "_NET_ACTIVE_WINDOW");
  (ATOM_NET_CLIENT_LIST, "_NET_CLIENT_LIST");
  (ATOM_NET_CLIENT_LIST_STACKING, "_NET_CLIENT_LIST_STACKING");
  (ATOM_NET_CURRENT_DESKTOP, "_NET_CURRENT_DESKTOP");
  (ATOM_NET_DESKTOP_GEOMETRY, "_NET_DESKTOP_GEOMETRY");
  (ATOM_NET_DESKTOP_VIEWPORT, "_NET_DESKTOP_VIEWPORT");
  (ATOM_NET_NUMBER_OF_DESKTOPS, "_NET_NUMBER_OF_DESKTOPS");
  (ATOM_NET_SUPPORTED, "_NET_SUPPORTED");
  (ATOM_NET_SUPPORTING_WM_CHECK, "_NET_SUPPORTING_WM_CHECK");
  (ATOM_NET_WM_CM_S0, "_NET_WM_CM_S0");
  (ATOM_NET_WM_NAME, "_NET_WM_NAME");
  (ATOM_NET_WM_STATE, "_NET_WM_STATE");
  (ATOM_NET_WM_STATE_FULLSCREEN, "_NET_WM_STATE_FULLSCREEN");
  (ATOM_NET_WM_STATE_MAXIMIZED_HORZ, "_NET_WM_STATE_MAXIMIZED_HORZ");
  (ATOM_NET_WM_STATE_MAXIMIZED_VERT, "_NET_WM_STATE_MAXIMIZED_VERT");
  (ATOM_NET_WM_STATE_MODAL, "_NET_WM_STATE_MODAL");
  (ATOM_NET_WM_WINDOW_OPACITY, "_NET_WM_WINDOW_OPACITY");
  (ATOM_NET_WORKAREA, "_NET_WORKAREA");
  (ATOM_PRIMARY, "PRIMARY");
  (ATOM_WM_DELETE_WINDOW, "WM_DELETE_WINDOW");
  (ATOM_WM_HINTS, "WM_HINTS");
  (ATOM_WM_NORMAL_HINTS, "WM_NORMAL_HINTS");
  (ATOM_WM_PROTOCOLS, "WM_PROTOCOLS");
  (ATOM_WM_S0, "WM_S0");
  (ATOM_WM_STATE, "WM_STATE");
  (ATOM_WM_SYSTEM_METRICS, "WM_SYSTEM_METRICS");
  (ATOM_WM_TAKE_FOCUS, "WM_TAKE_FOCUS");
  (ATOM_WM_TRANSIENT_FOR, "WM_TRANSIENT_FOR")
]%string.

(** The enum's value of an atom: the table lists the atoms in order. *)
Definition atom_value (a : Atom) : nat := default 0%nat (fst <$> list_find (eq a) kAtomInfos.*1).
#[global] Program Instance Atom_countable : Countable Atom :=
  inj_countable' atom_value (fun n => default ATOM_ATOM (kAtomInfos.*1 !! n)) _.
Next Obligation. by intros []. Qed.

Module AtomCache.
Record t := mk { atom_to_xatom_ : gmap Atom Z; xatom_to_string_ : gmap Z bytes }.

Section atom_cache.
Context {X : Type} `{XConn X}.

Definition register (xatoms : list Z) : t :=
  foldl (fun c p => mk (<[p.1.1 := p.2]> (atom_to_xatom_ c)) (<[p.2 := str p.1.2]> (xatom_to_string_ c)))
        (mk ∅ ∅) (zip kAtomInfos xatoms).

Definition construct : M X t :=
  CHECK (zlen kAtomInfos =? kNumAtoms);;
  r ← conn_GetAtoms ((fun i => str i.2) <$> kAtomInfos);
  CHECK r.1;;
  CHECK (zlen r.2 =? kNumAtoms);;
  mret (register r.2).

Definition GetXAtom (c : t) (atom : Atom) : M X Z :=
  match atom_to_xatom_ c !! atom with
  | Some xatom => mret xatom
  | None => fail CheckFailed
  end.

Definition GetName (c : t) (xatom : Z) : M X (bytes * t) :=
  match xatom_to_string_ c !! xatom with
  | Some name => mret (name, c)
  | None =>
      r ← conn_GetAtomName xatom;
      if negb r.1 then mret ([], c)
      else mret (r.2, mk (atom_to_xatom_ c) (<[xatom := r.2]> (xatom_to_string_ c)))
  end.
End atom_cache.
End AtomCache.

(** ** What clients rely on *)

(** A ClientMessage as its receiver sees it. *)
Record client_message := mkClientMessage {
  cm_window : Z; cm_message_type : Z; cm_format : Z; cm_data : list Z
}.

(** On a working connection ([conn_ok]) to an existing window: an int array of
    at most 1024 values can be read back once set, and a client message is
    delivered to the window's client; other properties are left alone. *)
Class XConnLaws (X : Type) `{XConn X} := {
  conn_ok : X → Prop;
  conn_window : X → Z → Prop;
  conn_ints : X → Z → Z → option (list Z);
  conn_inbox : X → Z → list client_message;
  conn_get_law s xid atom : conn_ok s → conn_window s xid →
    ∃ s', conn_GetIntArrayProperty xid atom s =
            Val (match conn_ints s xid atom with Some l => (true, l) | None => (false, []) end, s') ∧
          conn_ok s' ∧ (∀ x, conn_window s' x ↔ conn_window s x);
  conn_set_law s xid atom type values : conn_ok s → conn_window s xid → zlen values ≤ 1024 →
    Forall is_i32 values →
    ∃ s', conn_SetIntArrayProperty xid atom type values s = Val (true, s') ∧ conn_ok s' ∧
          (∀ x, conn_window s' x ↔ conn_window s x) ∧ conn_ints s' xid atom = Some values ∧
          ∀ x a, (x, a) ≠ (xid, atom) → conn_ints s' x a = conn_ints s x a;
  conn_send_law s dest xid ty data : conn_ok s → conn_window s dest →
    ∃ s', conn_SendClientMessageEvent dest xid ty data 0 s = Val (true, s') ∧ conn_ok s' ∧
          conn_inbox s' dest = conn_inbox s dest ++ [mkClientMessage xid ty kLongFormat data]
}.

(** ** RealXConnection keeps these promises *)

Import RealXConnection.

(** What the X server and Xlib are documented to do: properties are stored by
    window and name; a read gives a window of the property in units of four
    bytes; an error handler is installed and the previous one returned; a sync
    reports every pending error. *)
Definition reply_of (p : option (Z * Z * bytes)) (long_offset long_length : Z) : property_reply :=
  match p with
  | None => mkReply 0 0 0 0 []
  | Some (type, format, data) =>
      let rest := drop (Z.to_nat (4 * long_offset)) data in
      let value := take (Z.to_nat (4 * long_length)) rest in
      mkReply format type (zlen rest - zlen value) (zlen value / (format / 8)) value
  end.

Class XServerLaws (W : Type) `{Xcb W} `{Xlib W} := {
  xs_window : W → Z → Prop;
  xs_props : W → gmap (Z * Z) (Z * Z * bytes);
  xs_handler : W → Z;
  xs_pending : W → list XErrorEvent;
  xs_inbox : W → Z → list client_message;
  xs_formats w x p : xs_props w !! x = Some p → p.1.2 ∈ [8; 16; 32] ∧ (p.1.2 / 8 | zlen p.2);
  xs_get_law xid atom off len w : xs_window w xid →
    ∃ w', xcb_get_property xid atom off len w = (Some (reply_of (xs_props w !! (xid, atom)) off len), w') ∧
      xs_props w' = xs_props w ∧ xs_handler w' = xs_handler w ∧ (∀ x, xs_window w' x ↔ xs_window w x);
  xs_change_law xid atom type format n data w : xs_window w xid → format ∈ [8; 16; 32] →
    zlen data = n * (format / 8) →
    let w' := xcb_change_property xid atom type format n data w in
    xs_props w' = <[(xid, atom) := (type, format, data)]> (xs_props w) ∧
    xs_handler w' = xs_handler w ∧ (∀ x, xs_window w' x ↔ xs_window w x);
  xs_handler_law h w : ∃ w', XSetErrorHandler h w = (xs_handler w, w') ∧ xs_handler w' = h ∧
    xs_pending w' = xs_pending w ∧ xs_inbox w' = xs_inbox w ∧ xs_window w' = xs_window w;
  xs_sync_law w : ∃ w', XSync w = (xs_pending w, w') ∧ xs_pending w' = [] ∧
    xs_handler w' = xs_handler w ∧ xs_inbox w' = xs_inbox w ∧ xs_window w' = xs_window w;
  xs_send_law dest xid ty format data w : xs_window w dest →
    ∃ w', XSendEvent dest xid ty format data 0 w = ([], w') ∧ xs_pending w' = xs_pending w ∧
      xs_handler w' = xs_handler w ∧
      xs_inbox w' dest = xs_inbox w dest ++ [mkClientMessage xid ty format data]
}.

Section real_connection.
Context {W : Type} `{XServerLaws W}.

Lemma byte_val_of_mod z : byte_val (byte_of z) = z `mod` 256.
Proof.
  rewrite <-(byte_val_of (z `mod` 256)) by (apply Z.mod_pos_bound; lia).
  unfold byte_of. by rewrite Z.mod_mod.
Qed.

Lemma bytes_int_bytes v : is_i32 v →
  bytes_int (byte_of v) (byte_of (Z.shiftr v 8)) (byte_of (Z.shiftr v 16)) (byte_of (Z.shiftr v 24)) = v.
Proof.
  intros Hv. unfold bytes_int, i32, is_i32 in *. rewrite !Z.shiftr_div_pow2 by lia.
  rewrite !byte_val_of_mod. Z.to_euclidean_division_equations. lia.
Qed.

Lemma ints_of_bytes values : Forall is_i32 values → ints_of (values ≫= int_bytes) = values.
Proof.
  induction 1 as [|v l Hv _ IH]; [done|]. cbn. by rewrite IH, bytes_int_bytes.
Qed.

Lemma zlen_int_bytes values : zlen (values ≫= int_bytes) = 4 * zlen values.
Proof.
  induction values as [|v l IH]; [done|]. rewrite zlen_cons, bind_cons, zlen_app, IH.
  change (zlen (int_bytes v)) with 4. lia.
Qed.

Lemma known_format f : f ∈ [8; 16; 32] → f = 8 ∨ f = 16 ∨ f = 32.
Proof. rewrite !elem_of_cons, elem_of_nil. tauto. Qed.

(** The reply's value has as many bytes as its length says. *)
Lemma reply_size type format data :
  format ∈ [8; 16; 32] → (format / 8 | zlen data) →
  let r := reply_of (Some (type, format, data)) 0 kMaxPropertySize in
  reply_value r = take (Z.to_nat 4096) data ∧ reply_value_len r * (format / 8) = zlen (reply_value r) ∧
  0 ≤ zlen (reply_value r) ≤ 4096.
Proof.
  intros Hf Hd r. subst r. unfold reply_of, kMaxPropertySize. cbn [reply_value reply_value_len].
  change (Z.to_nat (4 * 0)) with 0%nat. change (4 * 1024) with 4096. rewrite drop_0. split; [done|].
  assert (0 ≤ zlen (take (Z.to_nat 4096) data) ≤ 4096 ∧ (format / 8 | zlen (take (Z.to_nat 4096) data)))
    as [? [n Hn]].
  { unfold zlen in *. rewrite length_take. split; [lia|].
    destruct (Nat.min_spec (Z.to_nat 4096) (length data)) as [ [_ ->] | [_ ->] ]; [|done].
    rewrite Z2Nat.id by lia. destruct (known_format _ Hf) as [->|[->| ->]]; by apply Z.mod_divide. }
  split; [|done]. rewrite Hn, Z.div_mul; [done|]. by destruct (known_format _ Hf) as [->|[->| ->]].
Qed.

Lemma GetPropertyInternal_run s w xid atom : xs_window w xid →
  ∃ w', xs_props w' = xs_props w ∧ xs_handler w' = xs_handler w ∧ (∀ x, xs_window w' x ↔ xs_window w x) ∧
    GetPropertyInternal xid atom (s, w) =
    Val (match xs_props w !! (xid, atom) with
         | Some (type, format, data) => Some (take (Z.to_nat 4096) data, format, type)
         | None => None
         end, (s, w')).
Proof.
  intros Hx. destruct (xs_get_law xid atom 0 kMaxPropertySize w Hx) as (w' & Hget & Hp & Hh & Hw).
  exists w'. do 3 (split; [done|]). unfold GetPropertyInternal, on_x. mrun. cbn [snd fst]. rewrite Hget.
  destruct (xs_props w !! (xid, atom)) as [[[type format] data]|] eqn:Hprop; [|done].
  destruct (xs_formats w _ _ Hprop) as [Hf Hd]. cbn [fst snd] in Hf, Hd.
  destruct (reply_size type format data Hf Hd) as (Hv & Hlen & Hle).
  change (reply_format (reply_of (Some (type, format, data)) 0 kMaxPropertySize)) with format.
  change (reply_type (reply_of (Some (type, format, data)) 0 kMaxPropertySize)) with type.
  assert (format =? 0 = false) as -> by (by destruct (known_format _ Hf) as [->|[->| ->]]).
  rewrite Hlen, u32_small by (unfold is_u32; lia). rewrite Z.ltb_irrefl. rewrite Hv.
  unfold zlen. rewrite Nat2Z.id, firstn_all. done.
Qed.

Lemma GetIntArrayProperty_run s w xid atom : xs_window w xid →
  ∃ w', xs_props w' = xs_props w ∧ xs_handler w' = xs_handler w ∧ (∀ x, xs_window w' x ↔ xs_window w x) ∧
    GetIntArrayProperty xid atom (s, w) =
    Val (match xs_props w !! (xid, atom) with
         | Some (type, format, data) =>
             if format =? 32 then (true, ints_of (take (Z.to_nat 4096) data)) else (false, [])
         | None => (false, [])
         end, (s, w')).
Proof.
  intros Hx. destruct (GetPropertyInternal_run s w xid atom Hx) as (w' & Hp & Hh & Hw & Hrun).
  exists w'. do 3 (split; [done|]). unfold GetIntArrayProperty. rewrite (bind_run _ _ _ _ _ Hrun).
  destruct (xs_props w !! (xid, atom)) as [[[type format] data]|] eqn:Hprop; [|done].
  unfold kLongFormat. destruct (Z.eqb_spec format 32) as [->|]; [|done].
  destruct (xs_formats w _ _ Hprop) as [Hf Hd]. cbn [fst snd] in Hf, Hd.
  destruct (reply_size type 32 data Hf Hd) as (Hv & Hlen & _). rewrite Hv in Hlen. rewrite <-Hlen.
  change (32 / 8) with 4. by rewrite Z.mod_mul by done.
Qed.

Lemma SetIntArrayProperty_run s w xid atom type values : xs_window w xid →
  ∃ w', SetIntArrayProperty xid atom type values (s, w) = Val (true, (s, w')) ∧
    xs_props w' = <[(xid, atom) := (type, 32, values ≫= int_bytes)]> (xs_props w) ∧
    xs_handler w' = xs_handler w ∧ (∀ x, xs_window w' x ↔ xs_window w x).
Proof.
  intros Hx. eexists. split; [reflexivity|].
  apply xs_change_law; [done|set_solver|]. rewrite zlen_int_bytes. change (kLongFormat / 8) with 4. lia.
Qed.

(** *** Errors are trapped and untrapped in pairs *)

Definition untrapped (s : t) (w : W) : Prop := old_error_handler s = 0 ∧ xs_handler w ≠ 0.

Lemma handled_errors es s :
  old_error_handler (foldl (fun s e => HandleXError e s) s es) = old_error_handler s.
Proof. revert s. induction es as [|e es IH]; intros s; [done|]. cbn. by rewrite IH. Qed.

Lemma TrapErrors_run s w : untrapped s w →
  ∃ s' w', TrapErrors (s, w) = Val ((), (s', w')) ∧ old_error_handler s' = xs_handler w ∧
    last_trapped_error_code s' = 0 ∧ xs_pending w' = [] ∧
    xs_inbox w' = xs_inbox w ∧ xs_window w' = xs_window w.
Proof.
  intros [Hs Hw]. unfold TrapErrors. rewrite gets_bind. cbn [fst]. rewrite CHECK_bind by by rewrite Hs.
  destruct (xs_handler_law HandleXError_address w) as (w1 & Hset & _ & Hp1 & Hi1 & Hw1).
  destruct (xs_sync_law w1) as (w2 & Hsync & Hp2 & _ & Hi2 & Hw2).
  unfold trapped_, trapped, on_x, upd. mrun. cbn [fst snd]. rewrite Hset. cbn [fst snd]. rewrite Hsync. cbn [fst snd].
  eexists _, w2. split; [reflexivity|]. split; [|split; [done|split; [done|split; congruence]]].
  exact (handled_errors _ _).
Qed.

Lemma UntrapErrors_run s w h : old_error_handler s = h → h ≠ 0 → xs_pending w = [] →
  ∃ s' w', UntrapErrors (s, w) = Val (last_trapped_error_code s, (s', w')) ∧ untrapped s' w' ∧
    xs_inbox w' = xs_inbox w ∧ xs_window w' = xs_window w.
Proof.
  intros Hs Hh Hp. unfold UntrapErrors. rewrite gets_bind. cbn [fst].
  rewrite CHECK_bind by (apply negb_true_iff, Z.eqb_neq; congruence).
  destruct (xs_sync_law w) as (w1 & Hsync & _ & _ & Hi1 & Hw1).
  destruct (xs_handler_law (old_error_handler s) w1) as (w2 & Hset & Hh2 & _ & Hi2 & Hw2).
  unfold trapped_, trapped, on_x, upd. mrun. cbn [fst snd]. rewrite Hsync. cbn [fst snd]. rewrite Hset. cbn [fst snd].
  rewrite Hp. eexists _, w2. split; [reflexivity|]. unfold untrapped. cbn. rewrite Hh2. split; [by rewrite Hs|].
  split; congruence.
Qed.

Lemma SendClientMessageEvent_run s w dest xid ty data : untrapped s w → xs_window w dest →
  ∃ s' w', SendClientMessageEvent dest xid ty data 0 (s, w) = Val (true, (s', w')) ∧ untrapped s' w' ∧
    xs_inbox w' dest = xs_inbox w dest ++ [mkClientMessage xid ty kLongFormat data].
Proof.
  intros Hs Hw. unfold SendClientMessageEvent.
  destruct (TrapErrors_run s w Hs) as (s1 & w1 & Hrun & Hold & Hlast & Hp1 & Hi1 & Hw1).
  rewrite (bind_run _ _ _ _ _ Hrun).
  destruct (xs_send_law dest xid ty kLongFormat data w1) as (w2 & Hsend & Hp2 & _ & Hi2); [by rewrite Hw1|].
  rewrite (bind_run (trapped_ _) _ _ () (s1, w2)).
  2:{ unfold trapped_, trapped, on_x, upd. mrun. cbn [fst snd]. by rewrite Hsend. }
  destruct (UntrapErrors_run s1 w2 (xs_handler w)) as (s3 & w3 & Hrun3 & Hs3 & Hi3 & _);
    [done|apply Hs|congruence|].
  rewrite (bind_run _ _ _ _ _ Hrun3), Hlast. exists s3, w3. split; [done|]. split; [done|].
  by rewrite Hi3, Hi2, Hi1.
Qed.

Lemma untrapped_same s w w' : untrapped s w → xs_handler w' = xs_handler w → untrapped s w'.
Proof. intros [? ?] Hh. split; [done|]. by rewrite Hh. Qed.

Definition ints_at (w : W) (xid atom : Z) : option (list Z) :=
  match xs_props w !! (xid, atom) with
  | Some p => if p.1.2 =? 32 then Some (ints_of (take (Z.to_nat 4096) p.2)) else None
  | None => None
  end.

#[export] Program Instance real_conn_laws : XConnLaws (t * W) := {|
  conn_ok (s : t * W) := untrapped s.1 s.2;
  conn_window (s : t * W) := xs_window s.2;
  conn_ints (s : t * W) xid atom :=
    ints_at s.2 xid atom;
  conn_inbox (s : t * W) := xs_inbox s.2
|}.
Next Obligation.
  intros [s w] xid atom Hok Hx. cbn in *.
  destruct (GetIntArrayProperty_run s w xid atom Hx) as (w' & _ & Hh & Hw & ->).
  exists (s, w'). split; [|by split; [apply (untrapped_same s w)|]]. unfold ints_at.
  destruct (xs_props w !! (xid, atom)) as [ [[? f] ?]|]; [|done]. cbn. by destruct (f =? 32).
Qed.
Next Obligation.
  intros [s w] xid atom type values Hok Hx Hlen Hall. cbn [fst snd] in *.
  destruct (SetIntArrayProperty_run s w xid atom type values Hx) as (w' & Hrun & Hp & Hh & Hw).
  exists (s, w'). split; [exact Hrun|]. split; [by apply (untrapped_same s w)|]. split; [done|]. cbn [fst snd]. split.
  - unfold ints_at. rewrite Hp, lookup_insert_eq. cbn [Z.eqb Pos.eqb fst snd]. pose proof (zlen_int_bytes values) as Hz.
    unfold zlen in *. rewrite take_ge, ints_of_bytes by (done || lia). done.
  - intros x a Hne. unfold ints_at. by rewrite Hp, lookup_insert_ne.
Qed.
Next Obligation.
  intros [s w] dest xid ty data Hok Hx. cbn [fst snd] in *.
  destruct (SendClientMessageEvent_run s w dest xid ty data Hok Hx) as (s' & w' & Hrun & Hok' & Hi).
  exists (s', w'). split; [exact Hrun|done].
Qed.
End real_connection.
