(* ===== verification/WmIpc.v ===== *)
(** * Communication between the window manager and Chrome: wm_ipc.{h,cc}.

    The X connection is an instance of [XConn]; the members that never change
    ([atom_cache_], [wm_window_]) are arguments. *)

From S2P Require Import Prelude WmUtil XConnection.

Module WmIpc.
(** [WindowType]. *)
Definition WINDOW_TYPE_UNKNOWN : Z := 0.
Definition WINDOW_TYPE_CHROME_TOPLEVEL : Z := 1.
Definition WINDOW_TYPE_CHROME_TAB_SUMMARY : Z := 2.
Definition WINDOW_TYPE_CHROME_FLOATING_TAB : Z := 3.
Definition WINDOW_TYPE_CHROME_PANEL_CONTENT : Z := 4.
Definition WINDOW_TYPE_CHROME_PANEL_TITLEBAR : Z := 5.
Definition WINDOW_TYPE_CREATE_BROWSER_WINDOW : Z := 6.
Definition WINDOW_TYPE_CHROME_INFO_BUBBLE : Z := 7.
Definition kNumWindowTypes : Z := 8.

Module Message.
Definition UNKNOWN : Z := 0.
Definition CHROME_NOTIFY_FLOATING_TAB_OVER_TAB_SUMMARY : Z := 1.
Definition CHROME_NOTIFY_FLOATING_TAB_OVER_TOPLEVEL : Z := 2.
Definition CHROME_SET_TAB_SUMMARY_VISIBILITY : Z := 3.
Definition WM_SET_PANEL_STATE : Z := 4.
Definition CHROME_NOTIFY_PANEL_STATE : Z := 5.
Definition WM_MOVE_FLOATING_TAB : Z := 6.
Definition WM_NOTIFY_PANEL_DRAGGED : Z := 7.
Definition WM_NOTIFY_PANEL_DRAG_COMPLETE : Z := 8.
Definition DEPRECATED_WM_FOCUS_WINDOW : Z := 9.
Definition CHROME_NOTIFY_LAYOUT_MODE : Z := 10.
Definition WM_SWITCH_TO_OVERVIEW_MODE : Z := 11.
Definition WM_NOTIFY_IPC_VERSION : Z := 12.
Definition kNumTypes : Z := 13.

(** [params_] is the array of four [long]s. *)
Record t := mk { type_ : Z; params_ : list Z }.
#[global] Instance eta_t : Eta t := fun r => mk (type_ r) (params_ r).

Definition max_params (msg : t) : Z := zlen (params_ msg).
Definition param (index : Z) (msg : t) : result Z :=
  if (0 <=? index) && (index <? max_params msg)
  then Val (default 0 (params_ msg !! Z.to_nat index)) else Fault CheckFailed.
Definition set_param (index value : Z) : M t unit :=
  msg ← mget;
  CHECK (0 <=? index);;
  CHECK (index <? max_params msg);;
  modify (fun m => m <| params_ := <[Z.to_nat index := value]> (params_ m) |>).
Definition set_type (type : Z) : M t unit := modify (fun m => m <| type_ := type |>).

(** [Init] on an uninitialised object. *)
Definition Init (type : Z) : M t unit :=
  set_type type;;
  msg ← mget;
  for_each (fun i => set_param i 0) (seqZ 0 (max_params msg)).
Definition construct (type : Z) : result t :=
  match Init type (mk 0 [0; 0; 0; 0]) with Val (_, m) => Val m | Fault f => Fault f end.
End Message.

Section wm_ipc.
Context {X : Type} `{XConn X}.
Variable atom_cache_ : AtomCache.t.

(** The constructor's [wm_window_]. *)
Definition construct : M X Z :=
  atom ← AtomCache.GetXAtom atom_cache_ ATOM_WM_S0;
  conn_GetSelectionOwner atom.

Definition GetWindowType (xid : Z) : M X (option (Z * list Z)) :=
  atom ← AtomCache.GetXAtom atom_cache_ ATOM_CHROME_WINDOW_TYPE;
  r ← conn_GetIntArrayProperty xid atom;
  if negb r.1 then mret None
  else
    match r.2 with
    | [] => fail CheckFailed
    | type :: params => mret (Some (type, params))
    end.

Definition SetWindowType (xid type : Z) (params : option (list Z)) : M X bool :=
  CHECK (0 <=? type);;
  CHECK (type <? kNumWindowTypes);;
  atom ← AtomCache.GetXAtom atom_cache_ ATOM_CHROME_WINDOW_TYPE;
  conn_SetIntArrayProperty xid atom XA_CARDINAL (type :: default [] params).

Definition SetSystemMetricsProperty (xid : Z) (metrics : bytes) : M X bool :=
  atom ← AtomCache.GetXAtom atom_cache_ ATOM_WM_SYSTEM_METRICS;
  conn_SetStringProperty xid atom metrics.

(** The result and [msg_out]; [data] has five elements. *)
Definition GetMessage (message_type format : Z) (data : list Z) (msg_out : Message.t)
  : M X (bool * Message.t) :=
  atom ← AtomCache.GetXAtom atom_cache_ ATOM_CHROME_WM_MESSAGE;
  if negb (message_type =? atom) then mret (false, msg_out)
  else if negb (format =? XConnection.kLongFormat) then mret (false, msg_out)
  else
    let msg_out := msg_out <| Message.type_ := default 0 (head data) |> in
    if (Message.type_ msg_out <? 0) || (Message.kNumTypes <=? Message.type_ msg_out)
    then mret (false, msg_out)
    else
      CHECK (Message.max_params msg_out <=? 4);;
      match for_each (fun i => Message.set_param i (default 0 (data !! Z.to_nat (i + 1))))
              (seqZ 0 (Message.max_params msg_out)) msg_out with
      | Val (_, msg_out) => mret (true, msg_out)
      | Fault f => fail f
      end.

(** The five [long]s of a message's event. *)
Definition message_data (msg : Message.t) : list Z :=
  take 5 (Message.type_ msg :: Message.params_ msg ++ replicate 4 0).
Definition SendMessage (xid : Z) (msg : Message.t) : M X bool :=
  CHECK (Message.max_params msg <=? 4);;
  atom ← AtomCache.GetXAtom atom_cache_ ATOM_CHROME_WM_MESSAGE;
  conn_SendClientMessageEvent xid xid atom (message_data msg) 0.
End wm_ipc.
End WmIpc.
Import WmIpc.

(** ** Round trips *)

Lemma GetXAtom_run {X} cache a x (s : X) :
  AtomCache.atom_to_xatom_ cache !! a = Some x → AtomCache.GetXAtom cache a s = Val (x, s).
Proof. unfold AtomCache.GetXAtom. by intros ->. Qed.

Section roundtrip.
Context {X : Type} `{XConnLaws X}.
Variable cache : AtomCache.t.

Lemma SetWindowType_run s xid type params atom :
  AtomCache.atom_to_xatom_ cache !! ATOM_CHROME_WINDOW_TYPE = Some atom →
  conn_ok s → conn_window s xid → 0 ≤ type < kNumWindowTypes → Forall is_i32 params → zlen params < 1024 →
  ∃ s', SetWindowType cache xid type (Some params) s = Val (true, s') ∧ conn_ok s' ∧
    (∀ x, conn_window s' x ↔ conn_window s x) ∧ conn_ints s' xid atom = Some (type :: params) ∧
    ∀ x a, (x, a) ≠ (xid, atom) → conn_ints s' x a = conn_ints s x a.
Proof.
  intros Hatom Hok Hwin Hty Hall Hlen. unfold SetWindowType.
  rewrite !CHECK_bind by (apply Z.leb_le || apply Z.ltb_lt; lia).
  rewrite (bind_run _ _ _ _ _ (GetXAtom_run _ _ _ _ Hatom)).
  apply conn_set_law; [done|done|rewrite zlen_cons; cbn; lia|].
  constructor; [unfold is_i32, kNumWindowTypes in *; lia|done].
Qed.

Lemma GetWindowType_run s xid atom :
  AtomCache.atom_to_xatom_ cache !! ATOM_CHROME_WINDOW_TYPE = Some atom →
  conn_ok s → conn_window s xid →
  GetWindowType cache xid s = Fault CheckFailed ∧ conn_ints s xid atom = Some [] ∨
  ∃ s', GetWindowType cache xid s =
        Val (match conn_ints s xid atom with Some (type :: params) => Some (type, params) | _ => None end, s') ∧
      conn_ints s xid atom ≠ Some [] ∧ conn_ok s'.
Proof.
  intros Hatom Hok Hwin. unfold GetWindowType.
  rewrite (bind_run _ _ _ _ _ (GetXAtom_run _ _ _ _ Hatom)).
  destruct (conn_get_law s xid atom Hok Hwin) as (s' & Hrun & Hok' & _).
  rewrite (bind_run _ _ _ _ _ Hrun).
  destruct (conn_ints s xid atom) as [ [|ty ps]|]; [by left|right; by exists s'..].
Qed.

Lemma SendMessage_run s xid msg atom :
  AtomCache.atom_to_xatom_ cache !! ATOM_CHROME_WM_MESSAGE = Some atom →
  conn_ok s → conn_window s xid → length (Message.params_ msg) = 4%nat →
  ∃ s', SendMessage cache xid msg s = Val (true, s') ∧ conn_ok s' ∧
    conn_inbox s' xid = conn_inbox s xid ++
      [mkClientMessage xid atom XConnection.kLongFormat (Message.type_ msg :: Message.params_ msg)].
Proof.
  intros Hatom Hok Hwin Hlen. unfold SendMessage.
  rewrite CHECK_bind by (apply Z.leb_le; unfold Message.max_params, zlen; lia).
  rewrite (bind_run _ _ _ _ _ (GetXAtom_run _ _ _ _ Hatom)).
  assert (message_data msg = Message.type_ msg :: Message.params_ msg) as ->.
  { unfold message_data. destruct msg as [ty ps]. cbn in Hlen |- *. by rewrite (take_app_length' _ _ 4) by done. }
  by apply conn_send_law.
Qed.

Lemma GetMessage_run (s : X) format ty data atom message_type msg_out :
  AtomCache.atom_to_xatom_ cache !! ATOM_CHROME_WM_MESSAGE = Some atom →
  length data = 4%nat → length (Message.params_ msg_out) = 4%nat →
  message_type = atom → format = XConnection.kLongFormat → 0 ≤ ty < Message.kNumTypes →
  GetMessage cache message_type format (ty :: data) msg_out s = Val ((true, Message.mk ty data), s).
Proof.
  intros Hatom Hdata Hmsg -> -> Hty. unfold GetMessage.
  rewrite (bind_run _ _ _ _ _ (GetXAtom_run _ _ _ _ Hatom)). rewrite Z.eqb_refl. cbn [negb head].
  rewrite Z.eqb_refl. cbn [negb Message.type_ update default].
  unfold update, id. cbn beta.
  replace ((ty <? 0) || (Message.kNumTypes <=? ty)) with false by lia.
  destruct data as [|a [|b [|c [|d [|]]]]]; try done.
  destruct msg_out as [ty0 ps]. cbn in Hmsg. do 4 (destruct ps as [|? ps]; [done|]). by destruct ps.
Qed.
End roundtrip.

(** C29. On a working connection to an existing window, [GetWindowType] reads
    back the type and parameters [SetWindowType] stored (whatever is set on
    other windows or other properties in between), and the event
    [SendMessage] delivers is one from which [GetMessage] makes the same
    message, whatever the message object held before. *)
Theorem WmIpc_roundtrip {X} `{XConnLaws X} cache type_atom message_atom (s : X) xid type params msg :
  AtomCache.atom_to_xatom_ cache !! ATOM_CHROME_WINDOW_TYPE = Some type_atom →
  AtomCache.atom_to_xatom_ cache !! ATOM_CHROME_WM_MESSAGE = Some message_atom →
  conn_ok s → conn_window s xid →
  0 ≤ type < kNumWindowTypes → Forall is_i32 params → zlen params < 1024 →
  0 ≤ Message.type_ msg < Message.kNumTypes → length (Message.params_ msg) = 4%nat →
  (∃ s1, SetWindowType cache xid type (Some params) s = Val (true, s1) ∧
     ∀ x ty v s2, (x, ty) ≠ (xid, type_atom) → conn_window s1 x → zlen v ≤ 1024 → Forall is_i32 v →
       conn_SetIntArrayProperty x ty XA_CARDINAL v s1 = Val (true, s2) →
       ∃ s3, GetWindowType cache xid s2 = Val (Some (type, params), s3)) ∧
  (∃ s1 e, SendMessage cache xid msg s = Val (true, s1) ∧ conn_inbox s1 xid = conn_inbox s xid ++ [e] ∧
     ∀ old (s2 : X), length (Message.params_ old) = 4%nat →
       GetMessage cache (cm_message_type e) (cm_format e) (cm_data e) old s2 = Val ((true, msg), s2)).
Proof.
  intros Htype Hmessage Hok Hwin Hty Hall Hlen Hmsg Hparams. split.
  - destruct (SetWindowType_run cache s xid type params type_atom) as (s1 & Hrun & Hok1 & Hw1 & Hints & _); [done..|].
    exists s1. split; [done|]. intros x ty v s2 Hne Hx Hv Hv32 Hset.
    destruct (conn_set_law s1 x ty XA_CARDINAL v) as (s2' & Hset' & Hok2 & Hw2 & _ & Hother); [done..|].
    assert (s2' = s2) as -> by congruence.
    destruct (GetWindowType_run cache s2 xid type_atom) as [[_ Hz]|(s3 & Hget & _)];
      [done|done|by apply Hw2, Hw1|..]; rewrite Hother in * by congruence; rewrite Hints in *; [done|].
    by exists s3.
  - destruct (SendMessage_run cache s xid msg message_atom) as (s1 & Hrun & _ & Hi); [done..|].
    eexists s1, _. split; [done|]. split; [exact Hi|]. intros old s2 Hold. cbn [cm_message_type cm_format cm_data].
    rewrite (GetMessage_run cache s2 _ _ _ message_atom) by done. by destruct msg.
Qed.

(** ** A property with no values *)

Import RealXConnection.

Lemma ints_of_nil {W} `{XServerLaws W} w x type data :
  xs_props w !! x = Some (type, 32, data) → ints_of (take (Z.to_nat 4096) data) = [] ↔ data = [].
Proof.
  intros Hp. destruct (xs_formats w x _ Hp) as [_ [n Hn]]. cbn [fst snd] in Hn. change (32 / 8) with 4 in Hn.
  split; [|by intros ->]. unfold zlen in Hn.
  destruct data as [|b0 [|b1 [|b2 [|b3 l]]]]; try done; cbn in Hn; try lia.
Qed.

(** The code relies on an int property having at least one value, but
    [RealXConnection::GetIntArrayProperty] accepts one without: any client that
    sets an empty [_CHROME_WINDOW_TYPE] property of format 32 on its window makes
    [GetWindowType] hit its [CHECK], and nothing else does. *)
Theorem GetWindowType_dies_on_empty_property {W} `{XServerLaws W} cache atom (s : t) (w : W) xid :
  AtomCache.atom_to_xatom_ cache !! ATOM_CHROME_WINDOW_TYPE = Some atom →
  untrapped s w → xs_window w xid →
  (GetWindowType cache xid (s, w) = Fault CheckFailed ↔
   ∃ type, xs_props w !! (xid, atom) = Some (type, 32, [])) ∧
  (∀ f, GetWindowType cache xid (s, w) = Fault f → f = CheckFailed).
Proof.
  intros Hatom Hok Hwin.
  destruct (GetWindowType_run cache (s, w) xid atom) as [[Hrun Hz]|(s' & Hrun & Hz & _)];
    [done|exact Hok|exact Hwin|..];
    cbn [conn_ints real_conn_laws] in Hz; unfold ints_at in Hz; cbn [snd] in Hz.
  - split; [|by intros f ?; congruence]. split; [intros _|done].
    destruct (xs_props w !! (xid, atom)) as [ [[ty f] data]|] eqn:Hp; [|done]. cbn [fst snd] in Hz.
    destruct (Z.eqb_spec f 32) as [->|]; [|done]. exists ty. do 2 f_equal.
    apply (ints_of_nil w _ _ _ Hp). congruence.
  - split; [|by intros f ?; congruence]. split; [by rewrite Hrun|]. intros [ty Hp]. by rewrite Hp in Hz.
Qed.

(** ** An X server in memory *)

Module MemServer.
Record server := mkServer {
  windows : gset Z;
  props : gmap (Z * Z) (Z * Z * bytes);
  handler : Z;
  inbox : Z → list client_message
}.
#[global] Instance eta_server : Eta server := fun r => mkServer (windows r) (props r) (handler r) (inbox r).

Definition sound (p : Z * Z * bytes) : Prop := p.1.2 ∈ [8; 16; 32] ∧ zlen p.2 mod (p.1.2 / 8) = 0.
#[global] Instance sound_dec p : Decision (sound p) := _.
Definition stored (w : server) : gmap (Z * Z) (Z * Z * bytes) := filter (fun kv => sound kv.2) (props w).

#[global] Instance mem_xcb : Xcb server := {|
  xcb_configure_window _ _ _ w := w;
  xcb_intern_atom _ w := (0, w);
  xcb_intern_atom_reply c w := (Some (c + 1), w);
  xcb_get_atom_name _ w := (None, w);
  xcb_get_property xid atom off len w := (Some (reply_of (stored w !! (xid, atom)) off len), w);
  xcb_change_property xid atom type format _ data w :=
    w <| props := <[(xid, atom) := (type, format, data)]> (props w) |>;
  xcb_delete_property xid atom w := w <| props := delete (xid, atom) (props w) |>;
  xcb_get_selection_owner _ w := (None, w);
  xcb_grab_server w := w;
  xcb_ungrab_server w := w;
  xcb_generate_id w := (7, w);
  xcb_create_window _ _ _ _ _ _ _ _ _ w := w;
  xcb_query_pointer w := (Some (0, 0), w);
  XCreateFontCursor _ w := (9, w);
  xcb_free_cursor _ w := w
|}.
#[global] Instance mem_xlib : Xlib server := {|
  HandleXError_address := 77;
  XSetErrorHandler h w := (handler w, w <| handler := h |>);
  XSync w := ([], w);
  XGetWindowAttributes_your_event_mask _ w := ((0, []), w);
  XSelectInput _ _ w := ([], w);
  XShapeGetRectangles _ w := (([], []), w);
  XSendEvent dest xid ty format data _ w :=
    ([], w <| inbox := fun d => if d =? dest then inbox w d ++ [mkClientMessage xid ty format data] else inbox w d |>)
|}.
#[global] Program Instance mem_laws : XServerLaws server := {|
  xs_window w xid := xid ∈ windows w;
  xs_props := stored;
  xs_handler := handler;
  xs_pending _ := [];
  xs_inbox := inbox
|}.
Next Obligation.
  intros w x p Hp. apply map_lookup_filter_Some in Hp as [_ [Hf Hm]]. split; [done|].
  apply Z.mod_divide; [|done]. by destruct (known_format p.1.2 Hf) as [-> | [-> | ->]].
Qed.
Next Obligation. intros. by eexists. Qed.
Next Obligation.
  intros xid atom type format n data w _ Hf Hn. cbn. split; [|done]. unfold stored. cbn.
  rewrite map_filter_insert_True; [done|]. split; [done|]. cbn [fst snd]. rewrite Hn. apply Z.mod_mul.
  by destruct (known_format _ Hf) as [-> | [-> | ->]].
Qed.
Next Obligation. intros. by eexists. Qed.
Next Obligation. intros. by eexists. Qed.
Next Obligation. intros. eexists. split; [done|]. cbn. by rewrite Z.eqb_refl. Qed.

Definition cache : AtomCache.t := AtomCache.register (seqZ 1 kNumAtoms).
Definition connection : RealXConnection.t := RealXConnection.mk 1 2 ∅ false 0 0 0 0.
(** Window 50 has an empty property. *)
Definition w0 : server := mkServer {[50; 51]} {[(50, 5) := (6, 32, [])]} 3 (fun _ => []).
End MemServer.
Import MemServer.

Lemma cached_type : AtomCache.atom_to_xatom_ cache !! ATOM_CHROME_WINDOW_TYPE = Some 5.
Proof. vm_compute. reflexivity. Qed.
Lemma cached_message : AtomCache.atom_to_xatom_ cache !! ATOM_CHROME_WM_MESSAGE = Some 6.
Proof. vm_compute. reflexivity. Qed.
Lemma connected : untrapped connection w0.
Proof. split; [done|]. cbn. lia. Qed.
Lemma windows_exist : xs_window w0 50 ∧ xs_window w0 51.
Proof. cbn. set_solver. Qed.
Lemma properties : xs_props w0 !! (50, 5) = Some (6, 32, []) ∧ xs_props w0 !! (51, 5) = None.
Proof. by vm_compute. Qed.

Lemma GetWindowType_dies_on_empty_property_witness :
  GetWindowType cache 50 (connection, w0) = Fault CheckFailed ∧
  ¬ GetWindowType cache 51 (connection, w0) = Fault CheckFailed.
Proof.
  split.
  - apply (GetWindowType_dies_on_empty_property cache 5 connection w0 50 cached_type connected (proj1 windows_exist)).
    exists 6. exact (proj1 properties).
  - intros Hf.
    apply (GetWindowType_dies_on_empty_property cache 5 connection w0 51 cached_type connected (proj2 windows_exist)) in Hf
      as [ty Hty].
    assert (None = Some (ty, 32, [])) as Hn by exact (eq_trans (eq_sym (proj2 properties)) Hty). discriminate.
Defined.

Definition dragged : Message.t := Message.mk Message.WM_NOTIFY_PANEL_DRAGGED [51; -3; 20; 0].
Lemma WmIpc_roundtrip_witness :
  (∃ s1, SetWindowType cache 51 WINDOW_TYPE_CHROME_PANEL_CONTENT (Some [50; 1]) (connection, w0) = Val (true, s1) ∧
     ∀ x ty v s2, (x, ty) ≠ (51, 5) → conn_window s1 x → zlen v ≤ 1024 → Forall is_i32 v →
       conn_SetIntArrayProperty x ty XA_CARDINAL v s1 = Val (true, s2) →
       ∃ s3, GetWindowType cache 51 s2 = Val (Some (WINDOW_TYPE_CHROME_PANEL_CONTENT, [50; 1]), s3)) ∧
  (∃ s1 e, SendMessage cache 51 dragged (connection, w0) = Val (true, s1) ∧
     conn_inbox s1 51 = conn_inbox (connection, w0) 51 ++ [e] ∧
     ∀ old (s2 : RealXConnection.t * server), length (Message.params_ old) = 4%nat →
       GetMessage cache (cm_message_type e) (cm_format e) (cm_data e) old s2 = Val ((true, dragged), s2)).
Proof.
  refine (WmIpc_roundtrip cache 5 6 (connection, w0) 51 WINDOW_TYPE_CHROME_PANEL_CONTENT [50; 1] dragged
    cached_type cached_message connected (proj2 windows_exist) _ _ _ _ _).
  - by vm_compute.
  - repeat constructor; vm_compute; congruence.
  - by vm_compute.
  - by vm_compute.
  - reflexivity.
Defined.
