(* ===== verification/Double.v ===== *)
(** * [double]s, as IEEE 754 binary64 numbers.

    The numbers and operations are those of the standard library's executable
    specification of floating point ([SpecFloat]), with 53 bits of precision and
    exponents up to 1024. *)

From Corelib Require Import Floats.SpecFloat.
From S2P Require Import Prelude.

Definition double : Type := spec_float.

Module Double.
(** The double nearest to an integer; exact for an [int]. *)
Definition of_Z (z : Z) : double := binary_normalize 53 1024 z 0 false.
Definition mul : double → double → double := SFmul 53 1024.
Definition add : double → double → double := SFadd 53 1024.
Definition sub : double → double → double := SFsub 53 1024.
Definition div : double → double → double := SFdiv 53 1024.
Definition ltb : double → double → bool := SFltb.

(** Conversion to [int]: toward zero; a value no [int] holds gives the smallest
    [int], as the x86 instruction does. *)
Definition truncate (s : bool) (m : positive) (e : Z) : Z :=
  let v := if 0 <=? e then Z.shiftl (Zpos m) e else Z.shiftr (Zpos m) (- e) in
  let v := if s then - v else v in
  if (- 2 ^ 31 <=? v) && (v <? 2 ^ 31) then v else - 2 ^ 31.
Definition to_int (d : double) : Z :=
  match d with
  | S754_zero _ => 0
  | S754_finite s m e => truncate s m e
  | S754_infinity _ | S754_nan => - 2 ^ 31
  end.

Definition half : double := div (of_Z 1) (of_Z 2).
Definition sqrt : double → double := SFsqrt 53 1024.
(** [std::min(a, b)]. *)
Definition min (a b : double) : double := if ltb b a then b else a.
(** [round]: to the nearest integer, halfway cases away from zero; as an [int]. *)
Definition round_to_int (d : double) : Z :=
  match d with
  | S754_finite s m e =>
      if 0 <=? e then truncate s m e
      else truncate s (Z.to_pos (Zpos m + Z.shiftl 1 (- e - 1))) e
  | _ => to_int d
  end.
End Double.

#[export] Instance spec_float_eq_dec : EqDecision spec_float.
Proof. solve_decision. Defined.

Example halved_7 : Double.to_int (Double.sub (Double.of_Z 10) (Double.mul Double.half (Double.of_Z 7))) = 6.
Proof. vm_compute. reflexivity. Qed.
Example negative_truncation : Double.to_int (Double.mul Double.half (Double.of_Z (-7))) = -3.
Proof. vm_compute. reflexivity. Qed.
Example rounded : Double.round_to_int (Double.div (Double.of_Z 5) (Double.of_Z 2)) = 3 ∧
  Double.round_to_int (Double.div (Double.of_Z (-7)) (Double.of_Z 3)) = -2 ∧
  Double.round_to_int (Double.div (Double.of_Z 1) (Double.of_Z 1000)) = 0.
Proof. by vm_compute. Qed.
Example rooted : Double.to_int (Double.div (Double.of_Z 100) (Double.sqrt (Double.of_Z 2))) = 70.
Proof. vm_compute. reflexivity. Qed.
