(* ===== verification/Window.v ===== *)
(** * Client windows: window.{h,cc}.

    A window's state is its fields; the X server, Clutter, the shadow of the
    window and the parts of [WindowManager] it asks are the interface [Wm].
    Requests without an answer but success or failure are values ([XRequest],
    [ActorCall], [ShadowCall]) handed to it. *)

From stdpp Require Import sorting.
From S2P Require Import Prelude WmUtil XConnection WmIpc Double.

Inductive XRequest :=
  | MapWindow (xid : Z) | UnmapWindow (xid : Z) | DestroyWindow (xid : Z)
  | MoveWindow (xid x y : Z) | ResizeWindow (xid width height : Z)
  | ConfigureWindow (xid x y width height : Z)
  | RaiseWindow (xid : Z) | StackWindow (xid other : Z) (above : bool)
  | FocusWindow (xid event_time : Z)
  | SetWindowBorderWidth (xid width : Z) | SetWindowCursor (xid shape : Z)
  | SelectInputOnWindow (xid event_mask : Z) (preserve_existing : bool)
  | DeselectInputOnWindow (xid event_mask : Z)
  | SelectShapeEventsOnWindow (xid : Z)
  | AddButtonGrabOnWindow (xid button event_mask : Z) (synchronous : bool)
  | RemoveButtonGrabOnWindow (xid button : Z)
  | RemovePointerGrab (replay_events : bool) (timestamp : Z)
  | DeletePropertyIfExists (xid xatom : Z).

(** [XConnection::ConfigureWindowOffscreen]. *)
Definition ConfigureWindowOffscreen (xid : Z) : XRequest := ConfigureWindow xid (-1) (-1) 1 1.

Inductive ActorCall :=
  | Move (x y anim_ms : Z) | MoveX (x anim_ms : Z) | MoveY (y anim_ms : Z)
  | SetSize (width height : Z) | SetOpacity (opacity : double) (anim_ms : Z)
  | Scale (scale_x scale_y : double) (anim_ms : Z)
  | SetVisibility (visible : bool) | SetName (name : bytes)
  | Raise (other : Z) | Lower (other : Z) | RaiseToTop | AddToStage | DeleteActor
  | SetTexturePixmapWindow (xid : Z)
  | ClearAlphaMask | SetAlphaMask (mask : bytes) (width height : Z)
  | SetClip (x y width height : Z) | AddActor (child : Z).

Inductive ShadowCall :=
  | ShadowMove (x y anim_ms : Z) | ShadowMoveX (x anim_ms : Z) | ShadowMoveY (y anim_ms : Z)
  | ShadowResize (width height anim_ms : Z) | ShadowSetOpacity (opacity : double) (anim_ms : Z)
  | ShadowShow | ShadowHide
  | ShadowGroup (call : ActorCall).                     (* a call of [group()] *)

Class Wm (W : Type) `{XConn W} := {
  x_do : XRequest → W → bool * W;
  x_GetWindowGeometry : Z → W → option (Z * Z * Z * Z * Z) * W;  (* x, y, width, height, border *)
  x_GetSizeHintsForWindow : Z → W → (bool * XConnection.SizeHints) * W;
  x_GetTransientHintForWindow : Z → W → option Z * W;
  x_IsWindowShaped : Z → W → bool * W;
  x_GetWindowBoundingRegion : Z → ByteMap.t → M W (bool * ByteMap.t);
  x_map_state : Z → W → option Z * W;                  (* GetWindowAttributes *)
  x_QueryPointerPosition : W → option (Z * Z) * W;
  actor_do : Z → ActorCall → W → W;
  shadow_do : Z → ShadowCall → W → W;
  shadow_group : Z → Z;                                (* the actor of a shadow's group *)
  new_texture_pixmap : W → Z * W;
  new_shadow : W → Z * W;
  wm_atom : Atom → Z;                                  (* WindowManager::GetXAtom *)
  wm_atoms : AtomCache.t;                              (* the cache WmIpc uses *)
  wm_width : W → Z;
  wm_height : W → Z;
  FLAGS_window_drop_shadows : bool;
  (** the rest of what the window manager's parts share *)
  x_root : Z;
  x_CreateWindow : Z → Z → Z → Z → Z → bool → bool → Z → W → Z * W;
  x_WaitForPropertyChange : Z → W → option Z * W;
  new_group : W → Z * W;
  new_image : bytes → W → Z * W;
  new_rectangle : W → Z * W;
  actor_width : Z → W → Z;
  actor_height : Z → W → Z;
  g_timeout_add : Z → W → Z * W;
  g_source_remove : Z → W → W;
  wm_xid : Z;
  wm_stage_xid : Z;
  wm_overlay_xid : Z;
  wm_active_window_xid : W → Z;
  wm_set_active_window_xid : Z → W → W;
  FLAGS_wm_use_compositing : bool
}.

Module Window.
Record t := mk {
  xid_ : Z;
  actor_ : Z;
  shadow_ : option Z;
  transient_for_xid_ : Z;
  override_redirect_ : bool;
  mapped_ : bool;
  focused_ : bool;
  shaped_ : bool;
  redirected_ : bool;
  type_ : Z;
  type_params_ : list Z;
  client_x_ : Z; client_y_ : Z; client_width_ : Z; client_height_ : Z;
  client_opacity_ : double;
  composited_shown_ : bool;
  composited_x_ : Z; composited_y_ : Z;
  composited_scale_x_ : double; composited_scale_y_ : double;
  composited_opacity_ : double;
  using_shadow_ : bool;
  shadow_opacity_ : double;
  title_ : bytes;
  size_hints_ : XConnection.SizeHints;
  supports_wm_take_focus_ : bool;
  supports_wm_delete_window_ : bool;
  wm_state_fullscreen_ : bool;
  wm_state_maximized_horz_ : bool;
  wm_state_maximized_vert_ : bool;
  wm_state_modal_ : bool;
  wm_hint_urgent_ : bool;
  chrome_state_xatoms_ : gset Z
}.
#[global] Instance eta_t : Eta t := fun r =>
  mk (xid_ r) (actor_ r) (shadow_ r) (transient_for_xid_ r) (override_redirect_ r) (mapped_ r)
     (focused_ r) (shaped_ r) (redirected_ r) (type_ r) (type_params_ r) (client_x_ r) (client_y_ r)
     (client_width_ r) (client_height_ r) (client_opacity_ r) (composited_shown_ r) (composited_x_ r)
     (composited_y_ r) (composited_scale_x_ r) (composited_scale_y_ r) (composited_opacity_ r)
     (using_shadow_ r) (shadow_opacity_ r) (title_ r) (size_hints_ r) (supports_wm_take_focus_ r)
     (supports_wm_delete_window_ r) (wm_state_fullscreen_ r) (wm_state_maximized_horz_ r)
     (wm_state_maximized_vert_ r) (wm_state_modal_ r) (wm_hint_urgent_ r) (chrome_state_xatoms_ r).

Inductive Gravity := GRAVITY_NORTHWEST | GRAVITY_NORTHEAST | GRAVITY_SOUTHWEST | GRAVITY_SOUTHEAST.
#[global] Instance Gravity_eq_dec : EqDecision Gravity.
Proof. solve_decision. Defined.

Section window.
Context {W : Type} `{Wm W}.

Definition get {A} (f : t → A) : M (t * W) A := gets (fun s => f s.1).
Definition upd (f : t → t) : M (t * W) unit := modify (fun s => (f s.1, s.2)).
Definition on_w {A} (m : M W A) : M (t * W) A := zoom snd (fun w s => (s.1, w)) m.
Definition x (r : XRequest) : M (t * W) bool := on_w (extern (x_do r)).
Definition actor (c : ActorCall) : M (t * W) unit :=
  a ← get actor_; on_w (extern (fun w => ((), actor_do a c w))).
(** [if (shadow_.get()) shadow_->...]. *)
Definition shadow (c : ShadowCall) : M (t * W) unit :=
  sh ← get shadow_;
  match sh with
  | Some sh => on_w (extern (fun w => ((), shadow_do sh c w)))
  | None => mret ()
  end.

Definition SetTitle (title : bytes) : M (t * W) unit :=
  upd (fun r => r <| title_ := title |>);;
  xid ← get xid_;
  actor (SetName (if bool_decide (title = []) then str "window " ++ XidStr xid
                  else str "window '" ++ title ++ str "' (" ++ XidStr xid ++ str ")")).

Definition Redirect : M (t * W) unit :=
  xid ← get xid_;
  actor (SetTexturePixmapWindow xid);;
  upd (fun r => r <| redirected_ := true |>).

(** *** Positions and sizes *)

Definition SaveClientPosition (x y : Z) : M (t * W) unit :=
  upd (fun r => r <| client_x_ := x |> <| client_y_ := y |>).

(** [shadow_->Resize(composited_scale_x_ * client_width_, ...)]. *)
Definition resize_shadow (anim_ms : Z) : M (t * W) unit :=
  r ← get id;
  shadow (ShadowResize (Double.to_int (Double.mul (composited_scale_x_ r) (Double.of_Z (client_width_ r))))
                       (Double.to_int (Double.mul (composited_scale_y_ r) (Double.of_Z (client_height_ r))))
                       anim_ms).

Definition SaveClientAndCompositedSize (width height : Z) : M (t * W) unit :=
  upd (fun r => r <| client_width_ := width |> <| client_height_ := height |>);;
  actor (SetSize width height);;
  resize_shadow 0.

Definition MoveClient (px py : Z) : M (t * W) bool :=
  xid ← get xid_;
  ok ← x (MoveWindow xid px py);
  if negb ok then mret false else SaveClientPosition px py;; mret true.

Definition MoveClientOffscreen : M (t * W) bool :=
  w ← gets snd; MoveClient (wm_width w) (wm_height w).
Definition MoveClientToComposited : M (t * W) bool :=
  r ← get id; MoveClient (composited_x_ r) (composited_y_ r).

(** [int + 0.5 * int], and [int - 0.5 * int], converted to [int]. *)
Definition plus_half (a b : Z) : Z :=
  Double.to_int (Double.add (Double.of_Z a) (Double.mul Double.half (Double.of_Z b))).
Definition minus_half (a b : Z) : Z :=
  Double.to_int (Double.sub (Double.of_Z a) (Double.mul Double.half (Double.of_Z b))).

(** [win] is the other window, by its fields. *)
Definition CenterClientOverWindow (win : t) : M (t * W) bool :=
  let center_x := plus_half (client_x_ win) (client_width_ win) in
  let center_y := plus_half (client_y_ win) (client_height_ win) in
  r ← get id;
  MoveClient (minus_half center_x (client_width_ r)) (minus_half center_y (client_height_ r)).

Definition MoveComposited (px py anim_ms : Z) : M (t * W) unit :=
  upd (fun r => r <| composited_x_ := px |> <| composited_y_ := py |>);;
  actor (Move px py anim_ms);;
  shadow (ShadowMove px py anim_ms).
Definition MoveCompositedX (px anim_ms : Z) : M (t * W) unit :=
  upd (fun r => r <| composited_x_ := px |>);;
  actor (MoveX px anim_ms);;
  shadow (ShadowMoveX px anim_ms).
Definition MoveCompositedY (py anim_ms : Z) : M (t * W) unit :=
  upd (fun r => r <| composited_y_ := py |>);;
  actor (MoveY py anim_ms);;
  shadow (ShadowMoveY py anim_ms).

(** [composited - scale * delta], converted to [int]. *)
Definition minus_scaled (c : Z) (scale : double) (d : Z) : Z :=
  Double.to_int (Double.sub (Double.of_Z c) (Double.mul scale (Double.of_Z d))).

Definition ResizeClient (width height : Z) (gravity : Gravity) : M (t * W) bool :=
  r ← get id;
  let dx := if bool_decide (gravity = GRAVITY_NORTHEAST ∨ gravity = GRAVITY_SOUTHEAST)
            then i32 (width - client_width_ r) else 0 in
  let dy := if bool_decide (gravity = GRAVITY_SOUTHWEST ∨ gravity = GRAVITY_SOUTHEAST)
            then i32 (height - client_height_ r) else 0 in
  if negb (dx =? 0) || negb (dy =? 0) then
    ok ← x (ConfigureWindow (xid_ r) (i32 (client_x_ r - dx)) (i32 (client_y_ r - dy)) width height);
    if negb ok then mret false
    else
      SaveClientPosition (i32 (client_x_ r - dx)) (i32 (client_y_ r - dy));;
      MoveComposited (minus_scaled (composited_x_ r) (composited_scale_x_ r) dx)
                     (minus_scaled (composited_y_ r) (composited_scale_y_ r) dy) 0;;
      SaveClientAndCompositedSize width height;;
      mret true
  else
    ok ← x (ResizeWindow (xid_ r) width height);
    if negb ok then mret false
    else SaveClientAndCompositedSize width height;; mret true.

Definition MapClient : M (t * W) bool := xid ← get xid_; x (MapWindow xid).
Definition UnmapClient : M (t * W) bool := xid ← get xid_; x (UnmapWindow xid).
Definition RaiseClient : M (t * W) bool := xid ← get xid_; x (RaiseWindow xid).
Definition StackClientAbove (sibling_xid : Z) : M (t * W) bool :=
  CHECK (negb (sibling_xid =? 0));; xid ← get xid_; x (StackWindow xid sibling_xid true).
Definition StackClientBelow (sibling_xid : Z) : M (t * W) bool :=
  CHECK (negb (sibling_xid =? 0));; xid ← get xid_; x (StackWindow xid sibling_xid false).

(** *** The composited window *)

Definition ShowComposited : M (t * W) unit :=
  actor (SetVisibility true);;
  upd (fun r => r <| composited_shown_ := true |>);;
  shown ← get using_shadow_;
  if shown : bool then shadow ShadowShow else mret ().
Definition HideComposited : M (t * W) unit :=
  actor (SetVisibility false);;
  upd (fun r => r <| composited_shown_ := false |>);;
  shown ← get using_shadow_;
  if shown : bool then shadow ShadowHide else mret ().

Definition SetCompositedOpacity (opacity : double) (anim_ms : Z) : M (t * W) unit :=
  upd (fun r => r <| composited_opacity_ := opacity |>);;
  r ← get id;
  let combined_opacity := Double.mul (composited_opacity_ r) (client_opacity_ r) in
  upd (fun r => r <| shadow_opacity_ := combined_opacity |>);;
  actor (SetOpacity combined_opacity anim_ms);;
  shadow (ShadowSetOpacity combined_opacity anim_ms).

Definition ScaleComposited (scale_x scale_y : double) (anim_ms : Z) : M (t * W) unit :=
  upd (fun r => r <| composited_scale_x_ := scale_x |> <| composited_scale_y_ := scale_y |>);;
  actor (Scale scale_x scale_y anim_ms);;
  resize_shadow anim_ms.

Definition SetShadowOpacity (opacity : double) (anim_ms : Z) : M (t * W) unit :=
  upd (fun r => r <| shadow_opacity_ := opacity |>);;
  shadow (ShadowSetOpacity opacity anim_ms).

(** [other] and [shadow_actor] may be NULL. *)
Definition stack_shadow (shadow_actor : option Z) (stack_above_shadow_actor : bool) : M (t * W) unit :=
  a ← get actor_;
  shadow (ShadowGroup (match shadow_actor with
                       | Some sa => if stack_above_shadow_actor then Raise sa else Lower sa
                       | None => Lower a
                       end)).
Definition StackCompositedAbove (other shadow_actor : option Z) (stack_above_shadow_actor : bool)
  : M (t * W) unit :=
  (match other with Some o => actor (Raise o) | None => mret () end);;
  stack_shadow shadow_actor stack_above_shadow_actor.
Definition StackCompositedBelow (other shadow_actor : option Z) (stack_above_shadow_actor : bool)
  : M (t * W) unit :=
  (match other with Some o => actor (Lower o) | None => mret () end);;
  stack_shadow shadow_actor stack_above_shadow_actor.
Definition GetBottomActor : M (t * W) Z :=
  r ← get id; mret (match shadow_ r with Some sh => shadow_group sh | None => actor_ r end).

Definition should_use_shadow (r : t) : bool :=
  negb (override_redirect_ r) &&
  negb (type_ r =? WmIpc.WINDOW_TYPE_CHROME_FLOATING_TAB) &&
  negb (type_ r =? WmIpc.WINDOW_TYPE_CHROME_INFO_BUBBLE) &&
  negb (type_ r =? WmIpc.WINDOW_TYPE_CHROME_TAB_SUMMARY) &&
  negb (type_ r =? WmIpc.WINDOW_TYPE_CREATE_BROWSER_WINDOW) &&
  negb (shaped_ r).
Definition UpdateShadowIfNecessary : M (t * W) unit :=
  r ← get id;
  match shadow_ r with
  | None => mret ()
  | Some _ =>
      if negb (should_use_shadow r) && using_shadow_ r then
        shadow ShadowHide;;
        upd (fun r => r <| using_shadow_ := false |>)
      else if should_use_shadow r && negb (using_shadow_ r) then
        (if composited_shown_ r then shadow ShadowShow else mret ());;
        upd (fun r => r <| using_shadow_ := true |>)
      else mret ()
  end.

(** *** Focus, deletion and grabs *)

Definition AnyButton : Z := 0.
Definition ButtonPressMask : Z := 4.

Definition send_protocol (atom : Atom) (timestamp : Z) : M (t * W) bool :=
  xid ← get xid_;
  on_w (conn_SendClientMessageEvent xid xid (wm_atom ATOM_WM_PROTOCOLS)
          [wm_atom atom; i32 timestamp; 0; 0; 0] 0).

Definition TakeFocus (timestamp : Z) : M (t * W) bool :=
  r ← get id;
  ok ← (if supports_wm_take_focus_ r then send_protocol ATOM_WM_TAKE_FOCUS timestamp
        else x (FocusWindow (xid_ r) timestamp));
  if negb ok then mret false
  else upd (fun r => r <| focused_ := true |>);; mret true.

Definition SendDeleteRequest (timestamp : Z) : M (t * W) bool :=
  r ← get id;
  if negb (supports_wm_delete_window_ r) then mret false
  else send_protocol ATOM_WM_DELETE_WINDOW timestamp.

Definition AddButtonGrab : M (t * W) bool :=
  xid ← get xid_; x (AddButtonGrabOnWindow xid AnyButton ButtonPressMask true).
Definition RemoveButtonGrab : M (t * W) bool :=
  xid ← get xid_; x (RemoveButtonGrabOnWindow xid AnyButton).

(** *** Reading the window's properties *)

Definition int_array (atom : Atom) : M (t * W) (bool * list Z) :=
  xid ← get xid_; on_w (conn_GetIntArrayProperty xid (wm_atom atom)).

Definition FetchAndApplySizeHints : M (t * W) bool :=
  xid ← get xid_;
  h ← on_w (extern (x_GetSizeHintsForWindow xid));
  upd (fun r => r <| size_hints_ := h.2 |>);;
  if negb h.1 then mret false
  else
    r ← get id;
    (if negb (mapped_ r) && negb (override_redirect_ r) &&
        ((0 <? XConnection.width h.2) && (0 <? XConnection.height h.2))
     then ResizeClient (XConnection.width h.2) (XConnection.height h.2) GRAVITY_NORTHWEST
     else mret true);;
    mret true.

Definition FetchAndApplyTransientHint : M (t * W) bool :=
  xid ← get xid_;
  owner ← on_w (extern (x_GetTransientHintForWindow xid));
  match owner with
  | None => mret false
  | Some owner => upd (fun r => r <| transient_for_xid_ := owner |>);; mret true
  end.

(** The parameters are cleared even when there is no type. *)
Definition FetchAndApplyWindowType (update_shadow : bool) : M (t * W) bool :=
  xid ← get xid_;
  ty ← on_w (WmIpc.GetWindowType wm_atoms xid);
  (match ty with
   | Some (type, params) => upd (fun r => r <| type_ := type |> <| type_params_ := params |>)
   | None => upd (fun r => r <| type_params_ := [] |>)
   end);;
  (if update_shadow then UpdateShadowIfNecessary else mret ());;
  mret (bool_decide (is_Some ty)).

Definition kMaxOpacity : Z := 4294967295.
(** The property is read into the 32 bits of [opacity]. *)
Definition FetchAndApplyWindowOpacity : M (t * W) unit :=
  xid ← get xid_;
  p ← on_w (XConnection.GetIntProperty xid (wm_atom ATOM_NET_WM_WINDOW_OPACITY));
  let opacity := match p : bool * Z with (true, v) => u32 v | _ => kMaxOpacity end in
  upd (fun r => r <| client_opacity_ :=
         if opacity =? kMaxOpacity then Double.of_Z 1
         else Double.div (Double.of_Z opacity) (Double.of_Z kMaxOpacity) |>);;
  r ← get id;
  SetCompositedOpacity (composited_opacity_ r) 0.

(** [wm_hints[0]] of an empty vector is undefined. *)
Definition FetchAndApplyWmHints : M (t * W) unit :=
  p ← int_array ATOM_WM_HINTS;
  if negb p.1 then mret ()
  else match p.2 with
       | [] => fail Undefined
       | flags :: _ => upd (fun r => r <| wm_hint_urgent_ := negb (Z.land (u32 flags) 256 =? 0) |>)
       end.

Definition FetchAndApplyWmProtocols : M (t * W) unit :=
  upd (fun r => r <| supports_wm_take_focus_ := false |> <| supports_wm_delete_window_ := false |>);;
  p ← int_array ATOM_WM_PROTOCOLS;
  if negb p.1 then mret ()
  else
    for_each (fun it : Z =>
      if u32 it =? wm_atom ATOM_WM_TAKE_FOCUS then
        upd (fun r => r <| supports_wm_take_focus_ := true |>)
      else if u32 it =? wm_atom ATOM_WM_DELETE_WINDOW then
        upd (fun r => r <| supports_wm_delete_window_ := true |>)
      else mret ()) p.2.

Definition clear_wm_state (r : t) : t :=
  r <| wm_state_fullscreen_ := false |> <| wm_state_maximized_horz_ := false |>
    <| wm_state_maximized_vert_ := false |> <| wm_state_modal_ := false |>.
Definition apply_state_atom (it : Z) (r : t) : t :=
  let atom := u32 it in
  let r := if atom =? wm_atom ATOM_NET_WM_STATE_FULLSCREEN then r <| wm_state_fullscreen_ := true |> else r in
  let r := if atom =? wm_atom ATOM_NET_WM_STATE_MAXIMIZED_HORZ
           then r <| wm_state_maximized_horz_ := true |> else r in
  if atom =? wm_atom ATOM_NET_WM_STATE_MAXIMIZED_VERT then r <| wm_state_maximized_vert_ := true |>
  else if atom =? wm_atom ATOM_NET_WM_STATE_MODAL then r <| wm_state_modal_ := true |>
  else r.
Definition FetchAndApplyWmState : M (t * W) unit :=
  upd clear_wm_state;;
  p ← int_array ATOM_NET_WM_STATE;
  if negb p.1 then mret ()
  else for_each (fun it : _ => upd (apply_state_atom it)) p.2.

Definition FetchAndApplyChromeState : M (t * W) unit :=
  upd (fun r => r <| chrome_state_xatoms_ := ∅ |>);;
  p ← int_array ATOM_CHROME_STATE;
  if negb p.1 then mret ()
  else for_each (fun it : Z =>
         upd (fun r => r <| chrome_state_xatoms_ := {[u32 it]} ∪ chrome_state_xatoms_ r |>)) p.2.

(** The byte map starts with unspecified bytes and is cleared. *)
Definition FetchAndApplyShape (update_shadow : bool) : M (t * W) unit :=
  upd (fun r => r <| shaped_ := false |>);;
  r ← get id;
  match ByteMap.construct (client_width_ r) (client_height_ r) x00 with
  | Fault f => fail f
  | Val bytemap =>
      is_shaped ← on_w (extern (x_IsWindowShaped (xid_ r)));
      region ← (if is_shaped : bool then on_w (x_GetWindowBoundingRegion (xid_ r) bytemap)
                else mret (false, bytemap));
      (if region.1 : bool then
         upd (fun r => r <| shaped_ := true |>);;
         actor (SetAlphaMask (ByteMap.bytes_ region.2) (ByteMap.width_ region.2) (ByteMap.height_ region.2))
       else actor ClearAlphaMask);;
      if update_shadow then UpdateShadowIfNecessary else mret ()
  end.

Definition MAP_STATE_UNMAPPED : Z := 0.
Definition FetchMapState : M (t * W) bool :=
  xid ← get xid_;
  state ← on_w (extern (x_map_state xid));
  mret (match state with Some s => negb (s =? MAP_STATE_UNMAPPED) | None => false end).

(** *** Writing [_NET_WM_STATE] and [_CHROME_STATE] *)

Definition SetWmStateInternal (action : Z) (value : bool) : bool :=
  if action =? 0 then false
  else if action =? 1 then true
  else if action =? 2 then negb value
  else value.

Definition set_or_delete (atom : Atom) (values : list Z) : M (t * W) bool :=
  xid ← get xid_;
  if negb (bool_decide (values = [])) then
    on_w (conn_SetIntArrayProperty xid (wm_atom atom) (wm_atom ATOM_ATOM) values)
  else x (DeletePropertyIfExists xid (wm_atom atom)).

Definition wm_state_values (r : t) : list Z :=
  (if wm_state_fullscreen_ r then [i32 (wm_atom ATOM_NET_WM_STATE_FULLSCREEN)] else []) ++
  (if wm_state_maximized_horz_ r then [i32 (wm_atom ATOM_NET_WM_STATE_MAXIMIZED_HORZ)] else []) ++
  (if wm_state_maximized_vert_ r then [i32 (wm_atom ATOM_NET_WM_STATE_MAXIMIZED_VERT)] else []) ++
  (if wm_state_modal_ r then [i32 (wm_atom ATOM_NET_WM_STATE_MODAL)] else []).
Definition UpdateWmStateProperty : M (t * W) bool :=
  r ← get id; set_or_delete ATOM_NET_WM_STATE (wm_state_values r).

(** [data] has five elements. *)
Definition HandleWmStateMessage (data : list Z) : M (t * W) bool :=
  let d i := default 0 (data !! i) in
  let named atom := (u32 (d 1%nat) =? wm_atom atom) || (u32 (d 2%nat) =? wm_atom atom) in
  (if named ATOM_NET_WM_STATE_FULLSCREEN then
     upd (fun r => r <| wm_state_fullscreen_ := SetWmStateInternal (d 0%nat) (wm_state_fullscreen_ r) |>)
   else mret ());;
  (if named ATOM_NET_WM_STATE_MODAL then
     upd (fun r => r <| wm_state_modal_ := SetWmStateInternal (d 0%nat) (wm_state_modal_ r) |>)
   else mret ());;
  UpdateWmStateProperty.

Definition change_wm_state (it : Z * bool) (r : t) : t :=
  let action : Z := if it.2 then 1 else 0 in
  if it.1 =? wm_atom ATOM_NET_WM_STATE_FULLSCREEN then
    r <| wm_state_fullscreen_ := SetWmStateInternal action (wm_state_fullscreen_ r) |>
  else if it.1 =? wm_atom ATOM_NET_WM_STATE_MAXIMIZED_HORZ then
    r <| wm_state_maximized_horz_ := SetWmStateInternal action (wm_state_maximized_horz_ r) |>
  else if it.1 =? wm_atom ATOM_NET_WM_STATE_MAXIMIZED_VERT then
    r <| wm_state_maximized_vert_ := SetWmStateInternal action (wm_state_maximized_vert_ r) |>
  else if it.1 =? wm_atom ATOM_NET_WM_STATE_MODAL then
    r <| wm_state_modal_ := SetWmStateInternal action (wm_state_modal_ r) |>
  else r.
Definition ChangeWmState (states : list (Z * bool)) : M (t * W) bool :=
  for_each (fun it : _ => upd (change_wm_state it)) states;;
  UpdateWmStateProperty.

(** The set's elements in increasing order. *)
Definition UpdateChromeStateProperty : M (t * W) bool :=
  r ← get id;
  set_or_delete ATOM_CHROME_STATE (i32 <$> merge_sort Z.le (elements (chrome_state_xatoms_ r))).
Definition change_chrome_state (it : Z * bool) (r : t) : t :=
  r <| chrome_state_xatoms_ := if it.2 then {[it.1]} ∪ chrome_state_xatoms_ r
                               else chrome_state_xatoms_ r ∖ {[it.1]} |>.
Definition ChangeChromeState (states : list (Z * bool)) : M (t * W) bool :=
  for_each (fun it : _ => upd (change_chrome_state it)) states;;
  UpdateChromeStateProperty.

(** *** The constructor; [focused] is the indeterminate value [focused_] has. *)

Definition FocusChangeMask : Z := 2097152.
Definition PropertyChangeMask : Z := 4194304.
Definition initial (xid : Z) (override_redirect focused : bool) (actor : Z) (shadow : option Z) : t :=
  mk xid actor shadow 0 override_redirect false focused false false WmIpc.WINDOW_TYPE_UNKNOWN []
     (-1) (-1) 1 1 (Double.of_Z 1) false (-1) (-1) (Double.of_Z 1) (Double.of_Z 1) (Double.of_Z 1)
     false (Double.of_Z 1) [] XConnection.Reset false false false false false false false ∅.

Definition set_up : M (t * W) unit :=
  xid ← get xid_;
  x (SelectInputOnWindow xid (Z.lor FocusChangeMask PropertyChangeMask) true);;
  x (SelectShapeEventsOnWindow xid);;
  geometry ← on_w (extern (x_GetWindowGeometry xid));
  (match geometry with
   | Some (gx, gy, gw, gh, border) =>
       upd (fun r => r <| client_x_ := gx |> <| composited_x_ := gx |>
                       <| client_y_ := gy |> <| composited_y_ := gy |>
                       <| client_width_ := gw |> <| client_height_ := gh |>);;
       if 0 <? border then x (SetWindowBorderWidth xid 0);; mret () else mret ()
   | None => mret ()
   end);;
  r ← get id;
  actor (Move (composited_x_ r) (composited_y_ r) 0);;
  actor (SetSize (client_width_ r) (client_height_ r));;
  actor (SetVisibility false);;
  SetTitle (title_ r);;
  actor AddToStage;;
  shadow (ShadowGroup (SetName (str "shadow group for window " ++ XidStr xid)));;
  shadow (ShadowGroup AddToStage);;
  shadow (ShadowMove (composited_x_ r) (composited_y_ r) 0);;
  shadow (ShadowSetOpacity (shadow_opacity_ r) 0);;
  resize_shadow 0;;
  FetchAndApplyWindowType false;;
  FetchAndApplyShape true;;
  FetchAndApplyWindowOpacity;;
  FetchAndApplySizeHints;;
  FetchAndApplyWmProtocols;;
  FetchAndApplyWmState;;
  FetchAndApplyChromeState;;
  FetchAndApplyTransientHint;;
  FetchAndApplyWmHints.

Definition construct (xid : Z) (override_redirect focused : bool) (w : W) : result (t * W) :=
  let '(a, w) := new_texture_pixmap w in
  let '(sh, w) := if FLAGS_window_drop_shadows then let '(sh, w) := new_shadow w in (Some sh, w)
                  else (None, w) in
  match set_up (initial xid override_redirect focused a sh, w) with
  | Val (_, s) => Val s
  | Fault f => Fault f
  end.
End window.

(** *** Size hints *)

Definition max_dimension (desired hint_max hint_min hint_base hint_increment : Z) : Z :=
  let desired := if 0 <? hint_max then Z.min hint_max desired else desired in
  let desired := if 0 <? hint_min then Z.max hint_min desired else desired in
  if 0 <? hint_increment then
    let base := if 0 <? hint_base then hint_base else if 0 <? hint_min then hint_min else 0 in
    base + Z.quot (desired - base) hint_increment * hint_increment
  else desired.
Definition GetMaxSize (r : t) (desired_width desired_height : Z) : result (Z * Z) :=
  let h := size_hints_ r in
  if (0 <? desired_width) && (0 <? desired_height) then
    Val (max_dimension desired_width (XConnection.max_width h) (XConnection.min_width h)
           (XConnection.base_width h) (XConnection.width_increment h),
         max_dimension desired_height (XConnection.max_height h) (XConnection.min_height h)
           (XConnection.base_height h) (XConnection.height_increment h))
  else Fault CheckFailed.
End Window.
Import Window.

(** ** Sizes a client accepts *)

Definition clamp (desired hint_max hint_min : Z) : Z :=
  let d := if 0 <? hint_max then Z.min hint_max desired else desired in
  if 0 <? hint_min then Z.max hint_min d else d.

(** [GetMaxSize], per dimension: without an increment the desired size,
    clamped by the minimum and maximum hints; with one, a whole number of
    increments from the base, less than one increment from the clamped size, and
    not above it unless the base already is.  The minimum hint is respected when
    there is no base hint or no increment hint. *)
Theorem GetMaxSize_rounds_to_increments r desired_width desired_height :
  0 < desired_width → 0 < desired_height →
  let h := size_hints_ r in
  let ok desired hint_max hint_min hint_base increment got :=
    let clamped := clamp desired hint_max hint_min in
    let base := if 0 <? hint_base then hint_base else Z.max 0 hint_min in
    (increment ≤ 0 → got = clamped) ∧
    (0 < increment → (increment | got - base) ∧ Z.abs (got - clamped) < increment ∧
                     (base ≤ clamped → got ≤ clamped)) ∧
    (increment ≤ 0 ∨ hint_base ≤ 0 → hint_min ≤ got) in
  ∃ w ht, GetMaxSize r desired_width desired_height = Val (w, ht) ∧
    ok desired_width (XConnection.max_width h) (XConnection.min_width h) (XConnection.base_width h)
       (XConnection.width_increment h) w ∧
    ok desired_height (XConnection.max_height h) (XConnection.min_height h) (XConnection.base_height h)
       (XConnection.height_increment h) ht.
Proof.
  intros Hw Hh h ok. unfold GetMaxSize. fold h.
  replace ((0 <? desired_width) && (0 <? desired_height)) with true by lia.
  eexists _, _. split; [done|].
  cut (∀ d M m b i, 0 < d → ok d M m b i (max_dimension d M m b i)); [by auto|].
  clear. intros d M m b i Hd. subst ok. unfold max_dimension. cbn zeta.
  change (if 0 <? m then _ else if 0 <? M then Z.min M d else d) with (clamp d M m).
  assert (m ≤ clamp d M m) as Hm by (unfold clamp; destruct (Z.ltb_spec 0 m), (Z.ltb_spec 0 M); lia).
  replace (if 0 <? b then b else if 0 <? m then m else 0) with (if 0 <? b then b else Z.max 0 m)
    by (destruct (Z.ltb_spec 0 b), (Z.ltb_spec 0 m); lia).
  set (base := if 0 <? b then b else Z.max 0 m).
  destruct (Z.ltb_spec 0 i) as [Hi|Hi]; [|split; [done|split; [lia|intros _; exact Hm]]].
  assert (clamp d M m - base = i * Z.quot (clamp d M m - base) i + Z.rem (clamp d M m - base) i) as Hq
    by apply Z.quot_rem'.
  pose proof (Z.rem_bound_abs (clamp d M m - base) i ltac:(lia)).
  split; [lia|]. split.
  - intros _. split; [exists (Z.quot (clamp d M m - base) i); lia|]. split; [lia|].
    intros Hb. pose proof (Z.rem_bound_pos (clamp d M m - base) i). lia.
  - intros [?|Hb]; [lia|]. subst base. destruct (Z.ltb_spec 0 b); [lia|].
    assert (0 ≤ Z.quot (clamp d M m - Z.max 0 m) i) as Hnn.
    { destruct (Z.leb_spec 0 m); [apply Z.quot_pos; lia|]. unfold clamp. apply Z.quot_pos; [|lia].
      destruct (Z.ltb_spec 0 m), (Z.ltb_spec 0 M); lia. }
    nia.
Qed.

(** With a base hint the minimum can be missed. *)
Example GetMaxSize_below_minimum : max_dimension 55 (-1) 50 7 30 = 37.
Proof. reflexivity. Qed.

Definition hinted : Window.t :=
  (initial 5 false false 1 None) <| size_hints_ :=
    XConnection.mkSizeHints (-1) (-1) 50 20 640 480 30 0 (-1) (-1) (-1) (-1) (-1) (-1) (-1) |>.
Lemma GetMaxSize_rounds_to_increments_witness :
  0 < 700 ∧ 0 < 300 ∧ ∃ w ht, GetMaxSize hinted 700 300 = Val (w, ht) ∧ (30 | w - 50) ∧ w ≤ 640 ∧ ht = 300.
Proof.
  split; [lia|]. split; [lia|].
  destruct (GetMaxSize_rounds_to_increments hinted 700 300) as (w & ht & Hrun & [_ [Hw _]] & [Hh _]); [lia|lia|].
  exists w, ht. split; [done|]. destruct Hw as (Hdiv & _ & Hle); [vm_compute; reflexivity|].
  split; [exact Hdiv|]. split; [apply Hle; vm_compute; congruence|]. apply Hh. vm_compute. congruence.
Defined.

(** ** The window's state on the X server *)

(** Deleting a property, and the atoms. *)
Class WmLaws (W : Type) `{Wm W} `{!XConnLaws W} := {
  wm_atom_range a : is_u32 (wm_atom a);
  wm_atom_inj a b : wm_atom a = wm_atom b → a = b;
  wm_delete_law xid atom w : conn_ok w → conn_window w xid →
    ∃ w', x_do (DeletePropertyIfExists xid atom) w = (true, w') ∧ conn_ok w' ∧
      (∀ x, conn_window w' x ↔ conn_window w x) ∧ conn_ints w' xid atom = None ∧
      ∀ x a, (x, a) ≠ (xid, atom) → conn_ints w' x a = conn_ints w x a
}.

Section state.
Context {W : Type} `{WmLaws W}.

Lemma u32_i32 z : is_u32 z → u32 (i32 z) = z.
Proof. intros Hz. unfold u32, i32, is_u32 in *. Z.to_euclidean_division_equations. lia. Qed.

Definition state_flags (r : Window.t) : bool * bool * bool * bool :=
  (wm_state_fullscreen_ r, wm_state_maximized_horz_ r, wm_state_maximized_vert_ r, wm_state_modal_ r).

Lemma for_each_upd {A} (f : A → Window.t → Window.t) l (r : Window.t) (w : W) :
  for_each (fun x => Window.upd (f x)) l (r, w) = Val ((), (foldl (fun r x => f x r) r l, w)).
Proof. revert r. induction l as [|x l IH]; intros r; [done|]. cbn. unfold mbind, M_bind. cbn. apply IH. Qed.

Lemma set_or_delete_run atom values (r : Window.t) w :
  conn_ok w → conn_window w (xid_ r) → zlen values ≤ 1024 → Forall is_i32 values →
  ∃ w', set_or_delete atom values (r, w) = Val (true, (r, w')) ∧ conn_ok w' ∧ conn_window w' (xid_ r) ∧
    conn_ints w' (xid_ r) (wm_atom atom) = if bool_decide (values = []) then None else Some values.
Proof.
  intros Hok Hwin Hlen Hall. unfold set_or_delete, get. rewrite gets_bind. cbn [fst].
  case_bool_decide as Hv; cbn [negb].
  - destruct (wm_delete_law (xid_ r) (wm_atom atom) w Hok Hwin) as (w' & Hrun & Hok' & Hw & Hi & _).
    exists w'. split; [|split; [done|split; [by apply Hw|done]]].
    unfold x, on_w. mrun. cbn [snd]. by rewrite Hrun.
  - destruct (conn_set_law w (xid_ r) (wm_atom atom) (wm_atom ATOM_ATOM) values Hok Hwin Hlen Hall)
      as (w' & Hrun & Hok' & Hw & Hi & _).
    exists w'. split; [|split; [done|split; [by apply Hw|done]]].
    unfold on_w. mrun. cbn [snd]. by rewrite Hrun.
Qed.

Lemma int_array_run atom (r : Window.t) w :
  conn_ok w → conn_window w (xid_ r) →
  ∃ w', int_array atom (r, w) =
    Val (match conn_ints w (xid_ r) (wm_atom atom) with Some l => (true, l) | None => (false, []) end, (r, w')).
Proof.
  intros Hok Hwin. destruct (conn_get_law w (xid_ r) (wm_atom atom) Hok Hwin) as (w' & Hrun & _).
  exists w'. unfold int_array, get. rewrite gets_bind. unfold on_w. mrun. cbn [fst snd]. by rewrite Hrun.
Qed.

Lemma apply_state_atom_at a r :
  apply_state_atom (i32 (wm_atom a)) r =
  match a with
  | ATOM_NET_WM_STATE_FULLSCREEN => r <| wm_state_fullscreen_ := true |>
  | ATOM_NET_WM_STATE_MAXIMIZED_HORZ => r <| wm_state_maximized_horz_ := true |>
  | ATOM_NET_WM_STATE_MAXIMIZED_VERT => r <| wm_state_maximized_vert_ := true |>
  | ATOM_NET_WM_STATE_MODAL => r <| wm_state_modal_ := true |>
  | _ => r
  end.
Proof.
  unfold apply_state_atom. rewrite u32_i32 by apply wm_atom_range.
  assert (∀ b, (wm_atom a =? wm_atom b) = bool_decide (a = b)) as Heq.
  { intros b. apply eq_true_iff_eq. rewrite Z.eqb_eq, bool_decide_eq_true. split; [apply wm_atom_inj|congruence]. }
  rewrite !Heq. by destruct a.
Qed.

Lemma wm_state_values_range r : zlen (wm_state_values r) ≤ 1024 ∧ Forall is_i32 (wm_state_values r).
Proof.
  unfold wm_state_values.
  destruct (wm_state_fullscreen_ r), (wm_state_maximized_horz_ r), (wm_state_maximized_vert_ r),
    (wm_state_modal_ r); (split; [vm_compute; congruence|repeat constructor; apply i32_range]).
Qed.

Lemma fetched_flags r r' :
  state_flags (foldl (fun r it => apply_state_atom it r) (clear_wm_state r') (wm_state_values r)) =
  state_flags r.
Proof.
  unfold wm_state_values, state_flags.
  destruct (wm_state_fullscreen_ r), (wm_state_maximized_horz_ r), (wm_state_maximized_vert_ r),
    (wm_state_modal_ r); cbn [app foldl]; rewrite ?apply_state_atom_at; reflexivity.
Qed.

(** Writing the property and reading it back. *)
Lemma UpdateWmStateProperty_fetch (r r' : Window.t) w :
  conn_ok w → conn_window w (xid_ r) → xid_ r' = xid_ r →
  ∃ w1, UpdateWmStateProperty (r, w) = Val (true, (r, w1)) ∧
    ∃ r2 w2, FetchAndApplyWmState (r', w1) = Val ((), (r2, w2)) ∧ state_flags r2 = state_flags r.
Proof.
  intros Hok Hwin Hxid. destruct (wm_state_values_range r) as [Hlen Hall].
  destruct (set_or_delete_run ATOM_NET_WM_STATE (wm_state_values r) r w) as (w1 & Hrun & Hok1 & Hwin1 & Hi); [done..|].
  exists w1. split; [exact Hrun|].
  destruct (int_array_run ATOM_NET_WM_STATE (clear_wm_state r') w1) as (w2 & Hget);
    [done|by change (xid_ (clear_wm_state r')) with (xid_ r'); rewrite Hxid|].
  change (xid_ (clear_wm_state r')) with (xid_ r') in Hget. rewrite Hxid, Hi in Hget.
  unfold FetchAndApplyWmState. rewrite (bind_run _ _ _ () (clear_wm_state r', w1)) by done.
  rewrite (bind_run _ _ _ _ _ Hget). case_bool_decide as Hv; cbn [fst snd negb].
  - exists (clear_wm_state r'), w2. split; [done|]. rewrite <-(fetched_flags r r'). by rewrite Hv.
  - eexists _, w2. rewrite for_each_upd. split; [done|]. apply fetched_flags.
Qed.
End state.

(** The value a list of changes leaves for an atom. *)
Definition changed_to {W} `{Wm W} (a : Atom) (states : list (Z * bool)) (old : bool) : bool :=
  foldl (fun v it => if it.1 =? wm_atom (W := W) a then it.2 else v) old states.

Lemma changed_flags {W} `{WmLaws W} states r :
  let r1 := foldl (fun r it => change_wm_state it r) r states in
  xid_ r1 = xid_ r ∧
  state_flags r1 =
    (changed_to (W := W) ATOM_NET_WM_STATE_FULLSCREEN states (wm_state_fullscreen_ r),
     changed_to (W := W) ATOM_NET_WM_STATE_MAXIMIZED_HORZ states (wm_state_maximized_horz_ r),
     changed_to (W := W) ATOM_NET_WM_STATE_MAXIMIZED_VERT states (wm_state_maximized_vert_ r),
     changed_to (W := W) ATOM_NET_WM_STATE_MODAL states (wm_state_modal_ r)).
Proof.
  revert r. induction states as [|[a v] l IH]; intros r; [done|]. cbn [foldl].
  destruct (IH (change_wm_state (W := W) (a, v) r)) as [-> ->]. unfold changed_to at 5 6 7 8. cbn [foldl fst snd].
  assert (∀ b c, (wm_atom (W := W) b =? wm_atom c) = bool_decide (b = c)) as Heq.
  { intros b c. apply eq_true_iff_eq. rewrite Z.eqb_eq, bool_decide_eq_true. split; [apply wm_atom_inj|congruence]. }
  unfold change_wm_state. cbn [fst snd].
  destruct (Z.eqb_spec a (wm_atom ATOM_NET_WM_STATE_FULLSCREEN)) as [->|]; [rewrite !Heq; by destruct v|].
  destruct (Z.eqb_spec a (wm_atom ATOM_NET_WM_STATE_MAXIMIZED_HORZ)) as [->|]; [rewrite !Heq; by destruct v|].
  destruct (Z.eqb_spec a (wm_atom ATOM_NET_WM_STATE_MAXIMIZED_VERT)) as [->|]; [rewrite !Heq; by destruct v|].
  destruct (Z.eqb_spec a (wm_atom ATOM_NET_WM_STATE_MODAL)) as [->|]; [by destruct v|done].
Qed.

(** C28. [ChangeWmState] on a window that exists: for each of the four states the
    last change asked for wins, other atoms are ignored, and the property then
    reads back (by [FetchAndApplyWmState], whatever the reader's flags were) as
    exactly the window's flags, also when none is set and the property is deleted. *)
Theorem ChangeWmState_roundtrip {W} `{WmLaws W} states (r r' : Window.t) (w : W) :
  conn_ok w → conn_window w (xid_ r) → xid_ r' = xid_ r →
  ∃ r1 w1, ChangeWmState states (r, w) = Val (true, (r1, w1)) ∧
    state_flags r1 =
      (changed_to (W := W) ATOM_NET_WM_STATE_FULLSCREEN states (wm_state_fullscreen_ r),
       changed_to (W := W) ATOM_NET_WM_STATE_MAXIMIZED_HORZ states (wm_state_maximized_horz_ r),
       changed_to (W := W) ATOM_NET_WM_STATE_MAXIMIZED_VERT states (wm_state_maximized_vert_ r),
       changed_to (W := W) ATOM_NET_WM_STATE_MODAL states (wm_state_modal_ r)) ∧
    ∃ r2 w2, FetchAndApplyWmState (r', w1) = Val ((), (r2, w2)) ∧ state_flags r2 = state_flags r1.
Proof.
  intros Hok Hwin Hxid. destruct (changed_flags (W := W) states r) as [Hx Hflags].
  set (r1 := foldl (fun r it => change_wm_state it r) r states) in *.
  destruct (UpdateWmStateProperty_fetch r1 r' w) as (w1 & Hrun & Hfetch); [done|by rewrite Hx|congruence|].
  exists r1, w1. split; [|done]. unfold ChangeWmState.
  by rewrite (bind_run _ _ _ _ _ (for_each_upd _ states r w)).
Qed.

(** ** A window manager on the X server in memory *)

Module MemWm.
Import MemServer.
Definition world : Type := RealXConnection.t * server.

Definition run_request (m : M world bool) (w : world) : bool * world :=
  match m w with Val (b, w') => (b, w') | Fault _ => (false, w) end.
Definition mem_do (r : XRequest) : world → bool * world :=
  match r with
  | MoveWindow xid x y => run_request (RealXConnection.MoveWindow xid x y)
  | ResizeWindow xid width height => run_request (RealXConnection.ResizeWindow xid width height)
  | ConfigureWindow xid x y width height => run_request (RealXConnection.ConfigureWindow xid x y width height)
  | StackWindow xid other above => run_request (RealXConnection.StackWindow xid other above)
  | DeletePropertyIfExists xid xatom => run_request (RealXConnection.DeletePropertyIfExists xid xatom)
  | _ => fun w => (true, w)
  end.

#[global] Instance mem_wm : Wm world := {|
  x_do := mem_do;
  x_GetWindowGeometry _ w := (Some (0, 0, 100, 50, 0), w);
  x_GetSizeHintsForWindow _ w := ((false, XConnection.Reset), w);
  x_GetTransientHintForWindow _ w := (None, w);
  x_IsWindowShaped _ w := (false, w);
  x_GetWindowBoundingRegion _ m w := Val ((false, m), w);
  x_map_state _ w := (None, w);
  x_QueryPointerPosition w := (Some (0, 0), w);
  actor_do _ _ w := w;
  shadow_do _ _ w := w;
  shadow_group s := s;
  new_texture_pixmap w := (1, w);
  new_shadow w := (2, w);
  wm_atom a := Z.of_nat (atom_value a) + 1;
  wm_atoms := cache;
  wm_width _ := 1024;
  wm_height _ := 768;
  FLAGS_window_drop_shadows := true;
  x_root := 1;
  x_CreateWindow _ _ _ _ _ _ _ _ w :=
    let xid := fresh ({[0; 1000]} ∪ windows w.2) in (xid, (w.1, w.2 <| windows := {[xid]} ∪ windows w.2 |>));
  x_WaitForPropertyChange _ w := (Some 1000, w);
  new_group w := (3, w);
  new_image _ w := (4, w);
  new_rectangle w := (5, w);
  actor_width _ _ := 30;
  actor_height _ _ := 10;
  g_timeout_add _ w := (8, w);
  g_source_remove _ w := w;
  wm_xid := 2;
  wm_stage_xid := 3;
  wm_overlay_xid := 4;
  wm_active_window_xid _ := 0;
  wm_set_active_window_xid _ w := w;
  FLAGS_wm_use_compositing := true
|}.
#[global] Program Instance mem_wm_laws : WmLaws world := {}.
Next Obligation. intros a. by destruct a. Qed.
Next Obligation. intros a b. by destruct a, b. Qed.
Next Obligation.
  intros xid atom [c w] Hok Hwin. cbn in *. eexists. split; [reflexivity|].
  split; [done|]. split; [done|]. unfold ints_at. cbn. unfold stored. cbn.
  split; [|intros x a Hne]; rewrite map_filter_delete;
    [by rewrite lookup_delete_eq|by rewrite lookup_delete_ne].
Qed.
End MemWm.
Import MemWm.

Definition plain : Window.t := initial 51 false false 1 None.
Lemma ChangeWmState_roundtrip_witness :
  ∃ r1 w1, ChangeWmState [(wm_atom ATOM_NET_WM_STATE_MODAL, true); (99, true);
                          (wm_atom ATOM_NET_WM_STATE_FULLSCREEN, true);
                          (wm_atom ATOM_NET_WM_STATE_FULLSCREEN, false)]
             (plain, (MemServer.connection, MemServer.w0)) = Val (true, (r1, w1)) ∧
    state_flags r1 = (false, false, false, true) ∧
    ∃ r2 w2, FetchAndApplyWmState (plain, w1) = Val ((), (r2, w2)) ∧ state_flags r2 = state_flags r1.
Proof.
  exact (ChangeWmState_roundtrip
    [(wm_atom ATOM_NET_WM_STATE_MODAL, true); (99, true);
     (wm_atom ATOM_NET_WM_STATE_FULLSCREEN, true); (wm_atom ATOM_NET_WM_STATE_FULLSCREEN, false)]
    plain plain (MemServer.connection, MemServer.w0) connected (proj2 windows_exist) eq_refl).
Defined.
