(* ===== verification/WmEvents.v ===== *)
(** * Small parts of the window manager: the registry of event consumers and
    event_consumer_registrar.{h,cc}, motion_event_coalescer.{h,cc},
    pointer_position_watcher.{h,cc}, stacking_manager.{h,cc}, and the methods
    of [WindowManager] the panels call. *)

From stdpp Require Import sorting.
From S2P Require Import Prelude WmUtil XConnection WmIpc Double Window.

(** Are [DCHECK]s compiled in. *)
Class Build := { dchecks : bool }.
Definition DCHECK `{Build} {S} (b : bool) : M S unit := if dchecks then CHECK b else mret ().

(** ** WindowManager's registry of event consumers *)

Module EventConsumers.
(** A consumer is its address. *)
Record t := mk {
  window_event_consumers_ : gmap Z (gset Z);
  property_change_event_consumers_ : gmap (Z * Z) (gset Z);
  chrome_message_event_consumers_ : gmap Z (gset Z)
}.
#[global] Instance eta_t : Eta t := fun r =>
  mk (window_event_consumers_ r) (property_change_event_consumers_ r) (chrome_message_event_consumers_ r).
Definition empty : t := mk ∅ ∅ ∅.

Section map.
Context {K : Type} `{Countable K}.
Definition consumers (k : K) (m : gmap K (gset Z)) : gset Z := default ∅ (m !! k).
Definition register (k : K) (c : Z) (m : gmap K (gset Z)) : gmap K (gset Z) :=
  <[k := {[c]} ∪ consumers k m]> m.
Definition unregister (k : K) (c : Z) (m : gmap K (gset Z)) : gmap K (gset Z) :=
  match m !! k with
  | None => m
  | Some cs =>
      if decide (c ∈ cs) then
        if decide (cs ∖ {[c]} = ∅) then delete k m else <[k := cs ∖ {[c]}]> m
      else m
  end.
End map.

Definition RegisterEventConsumerForWindowEvents (xid c : Z) (r : t) : t :=
  r <| window_event_consumers_ := register xid c (window_event_consumers_ r) |>.
Definition UnregisterEventConsumerForWindowEvents (xid c : Z) (r : t) : t :=
  r <| window_event_consumers_ := unregister xid c (window_event_consumers_ r) |>.
Definition RegisterEventConsumerForPropertyChanges (xid xatom c : Z) (r : t) : t :=
  r <| property_change_event_consumers_ := register (xid, xatom) c (property_change_event_consumers_ r) |>.
Definition UnregisterEventConsumerForPropertyChanges (xid xatom c : Z) (r : t) : t :=
  r <| property_change_event_consumers_ := unregister (xid, xatom) c (property_change_event_consumers_ r) |>.
Definition RegisterEventConsumerForChromeMessages (type c : Z) (r : t) : t :=
  r <| chrome_message_event_consumers_ := register type c (chrome_message_event_consumers_ r) |>.
Definition UnregisterEventConsumerForChromeMessages (type c : Z) (r : t) : t :=
  r <| chrome_message_event_consumers_ := unregister type c (chrome_message_event_consumers_ r) |>.
End EventConsumers.

Module EventConsumerRegistrar.
Import EventConsumers.
Record t := mk {
  event_consumer_ : Z;
  window_event_xids_ : list Z;
  property_change_pairs_ : list (Z * Z);
  chrome_message_types_ : list Z
}.
#[global] Instance eta_t : Eta t := fun r =>
  mk (event_consumer_ r) (window_event_xids_ r) (property_change_pairs_ r) (chrome_message_types_ r).
Definition new (event_consumer : Z) : t := mk event_consumer [] [] [].

Definition RegisterForWindowEvents (xid : Z) (s : t * EventConsumers.t) : t * EventConsumers.t :=
  (s.1 <| window_event_xids_ := window_event_xids_ s.1 ++ [xid] |>,
   RegisterEventConsumerForWindowEvents xid (event_consumer_ s.1) s.2).
Definition RegisterForPropertyChanges (xid xatom : Z) (s : t * EventConsumers.t) : t * EventConsumers.t :=
  (s.1 <| property_change_pairs_ := property_change_pairs_ s.1 ++ [(xid, xatom)] |>,
   RegisterEventConsumerForPropertyChanges xid xatom (event_consumer_ s.1) s.2).
Definition RegisterForChromeMessages (type : Z) (s : t * EventConsumers.t) : t * EventConsumers.t :=
  (s.1 <| chrome_message_types_ := chrome_message_types_ s.1 ++ [type] |>,
   RegisterEventConsumerForChromeMessages type (event_consumer_ s.1) s.2).

(** The destructor. *)
Definition destroy (s : t * EventConsumers.t) : EventConsumers.t :=
  let c := event_consumer_ s.1 in
  let r := foldl (fun r xid => UnregisterEventConsumerForWindowEvents xid c r) s.2 (window_event_xids_ s.1) in
  let r := foldl (fun r p => UnregisterEventConsumerForPropertyChanges p.1 p.2 c r) r
             (property_change_pairs_ s.1) in
  foldl (fun r ty => UnregisterEventConsumerForChromeMessages ty c r) r (chrome_message_types_ s.1).
End EventConsumerRegistrar.

(** ** MotionEventCoalescer

    A part of some object with state [S]: where its fields are, its closure (a
    program on the whole state, which may call the coalescer again), and glib. *)
Module MotionEventCoalescer.
Record t := mk {
  timer_id_ : Z;
  timeout_ms_ : Z;
  have_queued_position_ : bool;
  x_ : Z;
  y_ : Z;
  synchronous_ : bool
}.
#[global] Instance eta_t : Eta t := fun r =>
  mk (timer_id_ r) (timeout_ms_ r) (have_queued_position_ r) (x_ r) (y_ r) (synchronous_ r).

(** The constructor; [cb] is whether the closure is not NULL. *)
Definition construct (cb : bool) (timeout_ms : Z) : result t :=
  if cb && (0 <? timeout_ms) then Val (mk 0 timeout_ms false (-1) (-1) false) else Fault CheckFailed.

Section coalescer.
Context {S : Type}.
Variable field : S → t.
Variable set_field : t → S → S.
Variable cb_ : M S unit.
Variable timeout_add : Z → M S Z.
Variable source_remove : Z → M S unit.

Definition upd (f : t → t) : M S unit := modify (fun s => set_field (f (field s)) s).
Definition IsRunning (c : t) : bool := negb (timer_id_ c =? 0).
Definition set_synchronous (synchronous : bool) : M S unit :=
  upd (fun c => c <| synchronous_ := synchronous |>).

Definition HandleTimer : M S bool :=
  c ← gets field;
  (if have_queued_position_ c then cb_;; upd (fun c => c <| have_queued_position_ := false |>)
   else mret ());;
  mret true.

Definition Start : M S unit :=
  c ← gets field;
  if negb (timer_id_ c =? 0) then mret ()
  else
    (if negb (synchronous_ c) then
       id ← timeout_add (timeout_ms_ c); upd (fun c => c <| timer_id_ := id |>)
     else mret ());;
    upd (fun c => c <| have_queued_position_ := false |> <| x_ := -1 |> <| y_ := -1 |>).

Definition StopInternal (maybe_run_callback : bool) : M S unit :=
  c ← gets field;
  if timer_id_ c =? 0 then mret ()
  else
    source_remove (timer_id_ c);;
    upd (fun c => c <| timer_id_ := 0 |>);;
    if maybe_run_callback then HandleTimer;; mret () else mret ().
Definition Stop : M S unit :=
  c ← gets field;
  if negb (synchronous_ c) then StopInternal true else mret ().
Definition destroy : M S unit :=
  c ← gets field;
  if IsRunning c then StopInternal false else mret ().

Definition StorePosition (px py : Z) : M S unit :=
  c ← gets field;
  if (px =? x_ c) && (py =? y_ c) then mret ()
  else
    upd (fun c => c <| x_ := px |> <| y_ := py |> <| have_queued_position_ := true |>);;
    if synchronous_ c then HandleTimer;; mret () else mret ().
End coalescer.
End MotionEventCoalescer.

(** ** PointerPositionWatcher: the same arrangement. *)

Module PointerPositionWatcher.
Definition kTimeoutMs : Z := 200.
Record t := mk {
  watch_for_entering_target_ : bool;
  target_x_ : Z; target_y_ : Z; target_width_ : Z; target_height_ : Z;
  timer_id_ : Z
}.
#[global] Instance eta_t : Eta t := fun r =>
  mk (watch_for_entering_target_ r) (target_x_ r) (target_y_ r) (target_width_ r) (target_height_ r)
     (timer_id_ r).

Definition in_target (p : t) (pointer_x pointer_y : Z) : bool :=
  (target_x_ p <=? pointer_x) && (pointer_x <? i32 (target_x_ p + target_width_ p)) &&
  (target_y_ p <=? pointer_y) && (pointer_y <? i32 (target_y_ p + target_height_ p)).

Section watcher.
Context {S : Type}.
Variable field : S → t.
Variable set_field : t → S → S.
Variable cb_ : M S unit.
Variable timeout_add : Z → M S Z.
Variable source_remove : Z → M S unit.
Variable QueryPointerPosition : M S (option (Z * Z)).

Definition construct (watch_for_entering_target : bool) (x y width height : Z) : M S t :=
  id ← timeout_add kTimeoutMs;
  mret (mk watch_for_entering_target x y width height id).
Definition destroy (p : t) : M S unit :=
  if negb (timer_id_ p =? 0) then source_remove (timer_id_ p) else mret ().

(** The closure may delete the watcher, so nothing of it is used afterwards. *)
Definition HandleTimer : M S bool :=
  p ← gets field;
  pos ← QueryPointerPosition;
  match pos with
  | None => mret true
  | Some (pointer_x, pointer_y) =>
      let inside := in_target p pointer_x pointer_y in
      if (watch_for_entering_target_ p && negb inside) || (negb (watch_for_entering_target_ p) && inside)
      then mret true
      else
        modify (fun s => set_field ((field s) <| timer_id_ := 0 |>) s);;
        cb_;;
        mret false
  end.
Definition TriggerTimeout : M S unit :=
  p ← gets field;
  again ← HandleTimer;
  if again : bool then mret () else source_remove (timer_id_ p).
End watcher.
End PointerPositionWatcher.

(** ** Methods of WindowManager, on the world *)

Module WindowManager.
Section window_manager.
Context `{Build} {W : Type} `{Wm W}.
Definition request (r : XRequest) : M W bool := extern (x_do r).

Definition CreateInputWindow (x y width height event_mask : Z) : M W Z :=
  xid ← extern (x_CreateWindow x_root x y width height true true event_mask);
  CHECK (negb (xid =? 0));;
  (if FLAGS_wm_use_compositing then
     let top_win := if negb (wm_overlay_xid =? 0) then wm_overlay_xid else wm_stage_xid in
     ok ← request (StackWindow xid top_win false); CHECK ok
   else mret ());;
  ok ← request (MapWindow xid);
  CHECK ok;;
  mret xid.

Definition ConfigureInputWindow (xid x y width height : Z) : M W bool :=
  request (ConfigureWindow xid x y width height).

Definition XA_ATOM : Z := 4.
Definition XA_WINDOW : Z := 33.
(** A failed wait leaves the timestamp 0. *)
Definition GetCurrentTimeFromServer : M W Z :=
  ok ← XConnection.SetIntProperty wm_xid (wm_atom ATOM_CHROME_GET_SERVER_TIME) XA_ATOM
         (i32 (wm_atom ATOM_CHROME_GET_SERVER_TIME));
  CHECK ok;;
  timestamp ← extern (x_WaitForPropertyChange wm_xid);
  mret (default 0 timestamp).

Definition SetActiveWindowProperty (xid : Z) : M W bool :=
  w ← mget;
  if wm_active_window_xid w =? xid then mret true
  else
    ok ← XConnection.SetIntProperty x_root (wm_atom ATOM_NET_ACTIVE_WINDOW) XA_WINDOW (i32 xid);
    if negb ok then mret false
    else modify (wm_set_active_window_xid xid);; mret true.
End window_manager.
End WindowManager.

(** ** StackingManager; a layer is its number, as the code computes with it. *)

Module StackingManager.
Definition LAYER_DEBUGGING : Z := 0.
Definition LAYER_HOTKEY_OVERLAY : Z := 1.
Definition LAYER_DRAGGED_PANEL : Z := 2.
Definition LAYER_ACTIVE_TRANSIENT_WINDOW : Z := 3.
Definition LAYER_PANEL_BAR_INPUT_WINDOW : Z := 4.
Definition LAYER_STATIONARY_PANEL_IN_BAR : Z := 5.
Definition LAYER_STATIONARY_PANEL_IN_DOCK : Z := 6.
Definition LAYER_PANEL_DOCK : Z := 7.
Definition LAYER_FLOATING_TAB : Z := 8.
Definition LAYER_TAB_SUMMARY : Z := 9.
Definition LAYER_TOPLEVEL_WINDOW : Z := 10.
Definition LAYER_BACKGROUND : Z := 11.
Definition kNumLayers : Z := 12.

Record t := mk { layer_to_xid_ : gmap Z Z; layer_to_actor_ : gmap Z Z; xids_ : gset Z }.

Definition LayerToName (layer : Z) : string :=
  if layer =? LAYER_DEBUGGING then "debugging"
  else if layer =? LAYER_HOTKEY_OVERLAY then "hotkey overlay"
  else if layer =? LAYER_DRAGGED_PANEL then "dragged panel"
  else if layer =? LAYER_ACTIVE_TRANSIENT_WINDOW then "active transient window"
  else if layer =? LAYER_PANEL_BAR_INPUT_WINDOW then "panel bar input window"
  else if layer =? LAYER_STATIONARY_PANEL_IN_BAR then "static panel in bar"
  else if layer =? LAYER_STATIONARY_PANEL_IN_DOCK then "stationary panel in dock"
  else if layer =? LAYER_FLOATING_TAB then "floating tab"
  else if layer =? LAYER_TAB_SUMMARY then "tab summary"
  else if layer =? LAYER_TOPLEVEL_WINDOW then "toplevel window"
  else if layer =? LAYER_BACKGROUND then "background"
  else "unknown".

Definition layer_order (p q : Z * Z) : Prop := p.1 ≤ q.1.
#[global] Instance layer_order_dec p q : Decision (layer_order p q).
Proof. unfold layer_order. apply _. Defined.

Section stacking_manager.
Context {W : Type} `{Wm W}.
Definition do_actor (a : Z) (c : ActorCall) : M W unit := extern (fun w => ((), actor_do a c w)).

Definition add_layer (i : Z) : M (t * W) unit :=
  let on {A} (m : M W A) : M (t * W) A := zoom snd (fun w s => (s.1, w)) m in
  xid ← on (extern (x_CreateWindow x_root (-1) (-1) 1 1 true true 0));
  actor ← on (extern new_group);
  on (do_actor actor (SetName (str (LayerToName i +:+ " layer"))));;
  on (do_actor actor (SetVisibility false));;
  on (do_actor actor AddToStage);;
  on (do_actor actor RaiseToTop);;
  modify (fun s => (mk (<[i := xid]> (layer_to_xid_ s.1)) (<[i := actor]> (layer_to_actor_ s.1))
                       ({[xid]} ∪ xids_ s.1), s.2)).
(** From the bottom layer up. *)
Definition construct : M (t * W) unit := for_each add_layer (reverse (seqZ 0 kNumLayers)).
(** The set is walked in the order of the XIDs; the layers' actors go with the map. *)
Definition destroy (sm : t) : M W unit :=
  for_each (fun xid => extern (x_do (DestroyWindow xid));; mret ()) (merge_sort Z.le (elements (xids_ sm)));;
  for_each (fun p => do_actor p.2 DeleteActor) (merge_sort layer_order (map_to_list (layer_to_actor_ sm))).

Variable sm : t.
Definition IsInternalWindow (xid : Z) : bool := bool_decide (xid ∈ xids_ sm).
Definition GetActorForLayer {S} (layer : Z) : M S Z :=
  match layer_to_actor_ sm !! layer with Some a => mret a | None => fail CheckFailed end.
Definition GetXidForLayer {S} (layer : Z) : M S Z :=
  let xid := FindWithDefault (layer_to_xid_ sm) layer 0 in
  CHECK (negb (xid =? 0));; mret xid.

Definition StackWindowAtTopOfLayer (layer : Z) : M (Window.t * W) bool :=
  layer_actor ← GetActorForLayer layer;
  lower_layer_actor ← GetActorForLayer (layer + 1);
  Window.StackCompositedBelow (Some layer_actor) (Some lower_layer_actor) true;;
  layer_xid ← GetXidForLayer layer;
  Window.StackClientBelow layer_xid.

Definition StackXidAtTopOfLayer (xid layer : Z) : M W bool :=
  layer_xid ← GetXidForLayer layer;
  extern (x_do (StackWindow xid layer_xid false)).

Definition StackActorAtTopOfLayer (actor layer : Z) : M W unit :=
  layer_actor ← GetActorForLayer layer;
  do_actor actor (Lower layer_actor).

(** [sibling] by its fields. *)
Definition StackWindowRelativeToOtherWindow (sibling : Window.t) (above : bool) (layer : Z)
  : M (Window.t * W) bool :=
  lower_layer_actor ← GetActorForLayer (layer + 1);
  (if above then Window.StackCompositedAbove (Some (Window.actor_ sibling)) (Some lower_layer_actor) true
   else Window.StackCompositedBelow (Some (Window.actor_ sibling)) (Some lower_layer_actor) true);;
  if above then Window.StackClientAbove (Window.xid_ sibling)
  else Window.StackClientBelow (Window.xid_ sibling).
End stacking_manager.
End StackingManager.
