(* ===== verification/Panel.v ===== *)
(** * Panels: panel.{h,cc}.

    A panel's two windows are parts of its state: no other panel has them.  The
    operations run in any state [S] in which the panel is found, because they
    call the panel manager, which can change everything. *)

From S2P Require Import Prelude WmUtil XConnection WmIpc Double Window WmEvents.

Class PanelFlags := {
  FLAGS_panel_max_width : Z;
  FLAGS_panel_max_height : Z;
  FLAGS_panel_opaque_resize : bool
}.

(** [WindowManager]'s registry of event consumers. *)
Class HasConsumers (W : Type) := {
  get_consumers : W → EventConsumers.t;
  set_consumers : EventConsumers.t → W → W
}.

Module Panel.
Definition kResizeActorOpacityAnimMs : Z := 150.
Definition kPanelMinWidth : Z := 20.
Definition kPanelMinHeight : Z := 20.
Definition kResizeUpdateMs : Z := 25.
Definition kResizeBoxOpacity : double := Double.div (Double.of_Z 3) (Double.of_Z 10).
Definition kResizeBorderWidth : Z := 5.
Definition kResizeCornerSize : Z := 25.

(** X.h, cursorfont.h. *)
Definition EnterWindowMask : Z := 16.
Definition ButtonReleaseMask : Z := 8.
Definition PointerMotionMask : Z := 64.
Definition XC_left_side : Z := 70.
Definition XC_right_side : Z := 96.
Definition XC_top_left_corner : Z := 134.
Definition XC_top_right_corner : Z := 136.
Definition XC_top_side : Z := 138.
Definition CurrentTime : Z := 0.

Record t := mk {
  content_win_ : Window.t;
  titlebar_win_ : Window.t;
  is_expanded_ : bool;
  resize_actor_ : option Z;
  resize_event_coalescer_ : MotionEventCoalescer.t;
  top_input_xid_ : Z;
  top_left_input_xid_ : Z;
  top_right_input_xid_ : Z;
  left_input_xid_ : Z;
  right_input_xid_ : Z;
  resizable_ : bool;
  composited_windows_set_up_ : bool;
  drag_xid_ : Z;
  drag_gravity_ : Window.Gravity;
  drag_start_x_ : Z; drag_start_y_ : Z;
  drag_orig_width_ : Z; drag_orig_height_ : Z;
  drag_last_width_ : Z; drag_last_height_ : Z;
  event_consumer_registrar_ : EventConsumerRegistrar.t
}.
#[global] Instance eta_t : Eta t := fun r =>
  mk (content_win_ r) (titlebar_win_ r) (is_expanded_ r) (resize_actor_ r) (resize_event_coalescer_ r)
     (top_input_xid_ r) (top_left_input_xid_ r) (top_right_input_xid_ r) (left_input_xid_ r)
     (right_input_xid_ r) (resizable_ r) (composited_windows_set_up_ r) (drag_xid_ r) (drag_gravity_ r)
     (drag_start_x_ r) (drag_start_y_ r) (drag_orig_width_ r) (drag_orig_height_ r)
     (drag_last_width_ r) (drag_last_height_ r) (event_consumer_registrar_ r).

(** *** Reading a panel *)

Definition content_xid (p : t) : Z := Window.xid_ (content_win_ p).
Definition titlebar_xid (p : t) : Z := Window.xid_ (titlebar_win_ p).
Definition content_x (p : t) : Z := Window.composited_x_ (content_win_ p).
Definition titlebar_x (p : t) : Z := Window.composited_x_ (titlebar_win_ p).
Definition titlebar_y (p : t) : Z := Window.composited_y_ (titlebar_win_ p).
Definition content_width (p : t) : Z := Window.client_width_ (content_win_ p).
Definition titlebar_width (p : t) : Z := Window.client_width_ (titlebar_win_ p).
Definition width (p : t) : Z := Window.client_width_ (content_win_ p).
Definition content_height (p : t) : Z := Window.client_height_ (content_win_ p).
Definition titlebar_height (p : t) : Z := Window.client_height_ (titlebar_win_ p).
Definition total_height (p : t) : Z := i32 (content_height p + titlebar_height p).
Definition right (p : t) : Z := i32 (content_x p + content_width p).
Definition content_center (p : t) : Z := Window.plus_half (content_x p) (content_width p).
Definition GetInputWindows (p : t) : list Z :=
  [top_input_xid_ p; top_left_input_xid_ p; top_right_input_xid_ p; left_input_xid_ p; right_input_xid_ p].

Section panel.
Context {W : Type} `{Wm W} `{HasConsumers W} `{PanelFlags} `{Build}.
Variable stacking_manager : StackingManager.t.
Context {S : Type}.
(** Where the panel and the world are, and [panel_manager_->HandlePanelResize(this)]. *)
Variable panel : S → t.
Variable set_panel : t → S → S.
Variable world : S → W.
Variable set_world : W → S → S.
Variable HandlePanelResize : M S unit.

Definition get {A} (f : t → A) : M S A := gets (fun s => f (panel s)).
Definition upd (f : t → t) : M S unit := modify (fun s => set_panel (f (panel s)) s).
Definition on_world {A} (m : M W A) : M S A := zoom world set_world m.
Definition x (r : XRequest) : M S bool := on_world (extern (x_do r)).
Definition actor (a : Z) (c : ActorCall) : M S unit := on_world (StackingManager.do_actor a c).
Definition content_win {A} (m : M (Window.t * W) A) : M S A :=
  zoom (fun s => (content_win_ (panel s), world s))
       (fun ww s => set_world ww.2 (set_panel ((panel s) <| content_win_ := ww.1 |>) s)) m.
Definition titlebar_win {A} (m : M (Window.t * W) A) : M S A :=
  zoom (fun s => (titlebar_win_ (panel s), world s))
       (fun ww s => set_world ww.2 (set_panel ((panel s) <| titlebar_win_ := ww.1 |>) s)) m.
Definition registrar (f : EventConsumerRegistrar.t * EventConsumers.t →
                          EventConsumerRegistrar.t * EventConsumers.t) : M S unit :=
  modify (fun s =>
    let '(r, c) := f (event_consumer_registrar_ (panel s), get_consumers (world s)) in
    set_world (set_consumers c (world s)) (set_panel ((panel s) <| event_consumer_registrar_ := r |>) s)).

(** *** Input windows around the panel *)

Definition ConfigureInputWindows : M S unit :=
  p ← get id;
  if negb (resizable_ p) then
    for_each (fun xid => x (ConfigureWindowOffscreen xid);; mret ()) (GetInputWindows p)
  else
    let client_y := Window.client_y_ (titlebar_win_ p) in
    let top_width := i32 (content_width p + 2 * (kResizeBorderWidth - kResizeCornerSize)) in
    x (if top_width <=? 0 then ConfigureWindowOffscreen (top_input_xid_ p)
       else ConfigureWindow (top_input_xid_ p)
              (i32 (content_x p - kResizeBorderWidth + kResizeCornerSize))
              (i32 (client_y - kResizeBorderWidth)) top_width kResizeBorderWidth);;
    x (ConfigureWindow (top_left_input_xid_ p) (i32 (content_x p - kResizeBorderWidth))
         (i32 (client_y - kResizeBorderWidth)) kResizeCornerSize kResizeCornerSize);;
    x (ConfigureWindow (top_right_input_xid_ p) (i32 (right p + kResizeBorderWidth - kResizeCornerSize))
         (i32 (client_y - kResizeBorderWidth)) kResizeCornerSize kResizeCornerSize);;
    let total_height := i32 (Window.client_height_ (titlebar_win_ p) + Window.client_height_ (content_win_ p)) in
    let resize_edge_height := i32 (total_height + kResizeBorderWidth - kResizeCornerSize) in
    if resize_edge_height <=? 0 then
      x (ConfigureWindowOffscreen (left_input_xid_ p));;
      x (ConfigureWindowOffscreen (right_input_xid_ p));;
      mret ()
    else
      let edge_y := i32 (client_y - kResizeBorderWidth + kResizeCornerSize) in
      x (ConfigureWindow (left_input_xid_ p) (i32 (content_x p - kResizeBorderWidth)) edge_y
           kResizeBorderWidth resize_edge_height);;
      x (ConfigureWindow (right_input_xid_ p) (right p) edge_y kResizeBorderWidth resize_edge_height);;
      mret ().

Definition StackInputWindows : M S unit :=
  p ← get id;
  for_each (fun xid => x (StackWindow xid (content_xid p) false);; mret ()) (GetInputWindows p).

(** *** Moving *)

Definition move_client_windows_to_composited : M S unit :=
  titlebar_win Window.MoveClientToComposited;;
  content_win Window.MoveClientToComposited;;
  ConfigureInputWindows.

Definition show_composited_windows : M S unit :=
  let one := Double.of_Z 1 in
  titlebar_win (Window.ScaleComposited one one 0);;
  titlebar_win (Window.SetCompositedOpacity one 0);;
  titlebar_win Window.ShowComposited;;
  content_win (Window.ScaleComposited one one 0);;
  content_win (Window.SetCompositedOpacity one 0);;
  content_win Window.ShowComposited;;
  upd (fun p => p <| composited_windows_set_up_ := true |>).

Definition Move (right y : Z) (move_client_windows : bool) (anim_ms : Z) : M S unit :=
  p ← get id;
  titlebar_win (Window.MoveComposited (i32 (right - titlebar_width p)) y anim_ms);;
  content_win (Window.MoveComposited (i32 (right - content_width p)) (i32 (y + titlebar_height p)) anim_ms);;
  (if negb (composited_windows_set_up_ p) then show_composited_windows else mret ());;
  if move_client_windows then move_client_windows_to_composited else mret ().

Definition MoveX (right : Z) (move_client_windows : bool) (anim_ms : Z) : M S unit :=
  p ← get id;
  DCHECK (composited_windows_set_up_ p);;
  titlebar_win (Window.MoveCompositedX (i32 (right - titlebar_width p)) anim_ms);;
  content_win (Window.MoveCompositedX (i32 (right - content_width p)) anim_ms);;
  if move_client_windows then move_client_windows_to_composited else mret ().

Definition MoveY (y : Z) (move_client_windows : bool) (anim_ms : Z) : M S unit :=
  p ← get id;
  DCHECK (composited_windows_set_up_ p);;
  titlebar_win (Window.MoveCompositedY y anim_ms);;
  content_win (Window.MoveCompositedY (i32 (y + titlebar_height p)) anim_ms);;
  if move_client_windows then move_client_windows_to_composited else mret ().

(** *** Sizes *)

Definition SetTitlebarWidth (width : Z) : M S unit :=
  CHECK (0 <? width);;
  p ← get id;
  titlebar_win (Window.ResizeClient width (titlebar_height p) Window.GRAVITY_NORTHEAST);;
  mret ().

Definition SetResizable (resizable : bool) : M S unit :=
  p ← get id;
  if bool_decide (resizable ≠ resizable_ p) then
    upd (fun p => p <| resizable_ := resizable |>);; ConfigureInputWindows
  else mret ().

Definition ResizeContent (width height : Z) (gravity : Window.Gravity) : M S unit :=
  DCHECK (0 <? width);;
  DCHECK (0 <? height);;
  p ← get id;
  let changing_height := negb (height =? content_height p) in
  content_win (Window.ResizeClient width height gravity);;
  titlebar_win (Window.ResizeClient width (titlebar_height p) gravity);;
  (if changing_height then
     p ← get id;
     titlebar_win (Window.MoveCompositedY
       (i32 (Window.composited_y_ (content_win_ p) - titlebar_height p)) 0);;
     titlebar_win Window.MoveClientToComposited;;
     mret ()
   else mret ());;
  ConfigureInputWindows;;
  HandlePanelResize.

Definition HandleWindowConfigureRequest (win_xid req_width req_height : Z) : M S unit :=
  p ← get id;
  if negb (drag_xid_ p =? 0) then mret ()
  else if negb (win_xid =? content_xid p) then mret ()
  else if negb (req_width =? content_width p) || negb (req_height =? content_height p)
  then ResizeContent req_width req_height Window.GRAVITY_SOUTHEAST
  else mret ().

(** *** Appearance, stacking, grabs *)

Definition SetShadowOpacity (opacity : double) (anim_ms : Z) : M S unit :=
  titlebar_win (Window.SetShadowOpacity opacity anim_ms);;
  content_win (Window.SetShadowOpacity opacity anim_ms).

Definition StackAtTopOfLayer (layer : Z) : M S unit :=
  content_win (StackingManager.StackWindowAtTopOfLayer stacking_manager layer);;
  titlebar_win (StackingManager.StackWindowAtTopOfLayer stacking_manager layer);;
  StackInputWindows.

(** [sibling] by its fields. *)
Definition StackAbovePanel (sibling : t) (layer : Z) : M S unit :=
  titlebar_win (StackingManager.StackWindowRelativeToOtherWindow stacking_manager
                  (titlebar_win_ sibling) true layer);;
  p ← get id;
  content_win (StackingManager.StackWindowRelativeToOtherWindow stacking_manager
                 (titlebar_win_ p) false layer);;
  StackInputWindows.

Definition AddButtonGrab : M S unit := content_win Window.AddButtonGrab;; mret ().
Definition RemoveButtonGrab (remove_pointer_grab : bool) : M S unit :=
  content_win Window.RemoveButtonGrab;;
  if remove_pointer_grab then x (RemovePointerGrab true CurrentTime);; mret () else mret ().

(** *** Expanded or collapsed *)

Definition UpdateChromeStateProperty : M S bool :=
  p ← get id;
  content_win (Window.ChangeChromeState
    [(wm_atom ATOM_CHROME_STATE_COLLAPSED_PANEL, negb (is_expanded_ p))]).

Definition state_message (expanded : bool) : WmIpc.Message.t :=
  WmIpc.Message.mk WmIpc.Message.CHROME_NOTIFY_PANEL_STATE [if expanded then 1 else 0; 0; 0; 0].
Definition SetExpandedState (expanded : bool) : M S bool :=
  p ← get id;
  if bool_decide (expanded = is_expanded_ p) then mret true
  else
    upd (fun p => p <| is_expanded_ := expanded |>);;
    success ← on_world (WmIpc.SendMessage wm_atoms (content_xid p) (state_message expanded));
    updated ← UpdateChromeStateProperty;
    mret (success && updated).

(** *** Resizing by dragging the input windows *)

(** The gravity, and the change of width and height, of a drag by (dx, dy). *)
Definition drag_of (p : t) (dx dy : Z) : Window.Gravity * Z * Z :=
  if drag_xid_ p =? top_input_xid_ p then (Window.GRAVITY_SOUTHWEST, 0, i32 (- dy))
  else if drag_xid_ p =? top_left_input_xid_ p then (Window.GRAVITY_SOUTHEAST, i32 (- dx), i32 (- dy))
  else if drag_xid_ p =? top_right_input_xid_ p then (Window.GRAVITY_SOUTHWEST, dx, i32 (- dy))
  else if drag_xid_ p =? left_input_xid_ p then (Window.GRAVITY_NORTHEAST, i32 (- dx), 0)
  else if drag_xid_ p =? right_input_xid_ p then (Window.GRAVITY_NORTHWEST, dx, 0)
  else (Window.GRAVITY_NORTHWEST, dx, dy).

Definition ApplyResize : M S unit :=
  p ← get id;
  let c := resize_event_coalescer_ p in
  let dx := i32 (MotionEventCoalescer.x_ c - drag_start_x_ p) in
  let dy := i32 (MotionEventCoalescer.y_ c - drag_start_y_ p) in
  let '(gravity, dx, dy) := drag_of p dx dy in
  upd (fun p => p <| drag_gravity_ := gravity |>
                  <| drag_last_width_ := Z.max (i32 (drag_orig_width_ p + dx)) kPanelMinWidth |>
                  <| drag_last_height_ := Z.max (i32 (drag_orig_height_ p + dy)) kPanelMinHeight |>);;
  p ← get id;
  if FLAGS_panel_opaque_resize then ResizeContent (drag_last_width_ p) (drag_last_height_ p) gravity
  else
    match resize_actor_ p with
    | None => mret ()
    | Some a =>
        let tx := Window.client_x_ (titlebar_win_ p) in
        let ty := Window.client_y_ (titlebar_win_ p) in
        let actor_x := if bool_decide (gravity = Window.GRAVITY_SOUTHEAST ∨ gravity = Window.GRAVITY_NORTHEAST)
                       then i32 (tx - (drag_last_width_ p - drag_orig_width_ p)) else tx in
        let actor_y := if bool_decide (gravity = Window.GRAVITY_SOUTHWEST ∨ gravity = Window.GRAVITY_SOUTHEAST)
                       then i32 (ty - (drag_last_height_ p - drag_orig_height_ p)) else ty in
        actor a (Window.Move actor_x actor_y 0);;
        actor a (SetSize (drag_last_width_ p) (i32 (drag_last_height_ p + titlebar_height p)))
    end.

(** The coalescer inside the panel. *)
Definition coalescer (s : S) : MotionEventCoalescer.t := resize_event_coalescer_ (panel s).
Definition set_coalescer (c : MotionEventCoalescer.t) (s : S) : S :=
  set_panel ((panel s) <| resize_event_coalescer_ := c |>) s.
Definition timeout_add (ms : Z) : M S Z := on_world (extern (g_timeout_add ms)).
Definition source_remove (id : Z) : M S unit := on_world (extern (fun w => ((), g_source_remove id w))).

Definition HandleInputWindowButtonPress (xid px py button : Z) : M S unit :=
  if negb (button =? 1) then mret ()
  else
    p ← get id;
    DCHECK (drag_xid_ p =? 0);;
    upd (fun p => p <| drag_xid_ := xid |> <| drag_start_x_ := px |> <| drag_start_y_ := py |>
                    <| drag_orig_width_ := content_width p |> <| drag_last_width_ := content_width p |>
                    <| drag_orig_height_ := content_height p |> <| drag_last_height_ := content_height p |>);;
    MotionEventCoalescer.Start coalescer set_coalescer timeout_add;;
    if FLAGS_panel_opaque_resize then mret ()
    else
      p ← get id;
      DCHECK (bool_decide (resize_actor_ p = None));;
      a ← on_world (extern new_rectangle);
      (match resize_actor_ p with Some old => actor old DeleteActor | None => mret () end);;
      upd (fun p => p <| resize_actor_ := Some a |>);;
      actor a AddToStage;;
      actor a (Window.Move (Window.client_x_ (titlebar_win_ p)) (Window.client_y_ (titlebar_win_ p)) 0);;
      actor a (SetSize (content_width p) (i32 (content_height p + titlebar_height p)));;
      actor a (SetOpacity (Double.of_Z 0) 0);;
      actor a (SetOpacity kResizeBoxOpacity kResizeActorOpacityAnimMs);;
      on_world (StackingManager.StackActorAtTopOfLayer stacking_manager a StackingManager.LAYER_DRAGGED_PANEL);;
      actor a (SetVisibility true).

Definition HandleInputWindowButtonRelease (xid px py button : Z) : M S unit :=
  if negb (button =? 1) then mret ()
  else
    p ← get id;
    if negb (xid =? drag_xid_ p) then mret ()
    else
      MotionEventCoalescer.StorePosition coalescer set_coalescer ApplyResize px py;;
      MotionEventCoalescer.Stop coalescer set_coalescer ApplyResize source_remove;;
      upd (fun p => p <| drag_xid_ := 0 |>);;
      if FLAGS_panel_opaque_resize then mret ()
      else
        p ← get id;
        DCHECK (bool_decide (resize_actor_ p ≠ None));;
        (match resize_actor_ p with Some a => actor a DeleteActor | None => mret () end);;
        upd (fun p => p <| resize_actor_ := None |>);;
        ResizeContent (drag_last_width_ p) (drag_last_height_ p) (drag_gravity_ p).

Definition HandleInputWindowPointerMotion (xid px py : Z) : M S unit :=
  p ← get id;
  if negb (xid =? drag_xid_ p) then mret ()
  else MotionEventCoalescer.StorePosition coalescer set_coalescer ApplyResize px py.

(** *** Construction; [gravity] is the indeterminate value [drag_gravity_] has. *)

Definition initial (content titlebar : Window.t) (expanded : bool) (gravity : Window.Gravity)
    (c : MotionEventCoalescer.t) (xids : Z * Z * Z * Z * Z) (consumer : Z) : t :=
  let '(top, top_left, top_right, left_edge, right_edge) := xids in
  mk content titlebar expanded None c top top_left top_right left_edge right_edge false false 0 gravity 0 0 1 1 1 1
     (EventConsumerRegistrar.new consumer).

Definition create_input_windows : M W (Z * Z * Z * Z * Z) :=
  let create := WindowManager.CreateInputWindow (-1) (-1) 1 1 0 in
  top ← create; top_left ← create; top_right ← create; left_edge ← create; right_edge ← create;
  mret (top, top_left, top_right, left_edge, right_edge).

(** The body of the constructor, the panel's fields being initialised. *)
Definition set_up : M S unit :=
  p ← get id;
  for_each (fun xid => registrar (EventConsumerRegistrar.RegisterForWindowEvents xid))
    (content_xid p :: titlebar_xid p :: GetInputWindows p);;
  registrar (EventConsumerRegistrar.RegisterForPropertyChanges (content_xid p) (wm_atom ATOM_WM_HINTS));;
  x (SelectInputOnWindow (titlebar_xid p) EnterWindowMask true);;
  let event_mask := Z.lor (Z.lor Window.ButtonPressMask ButtonReleaseMask) PointerMotionMask in
  for_each (fun xid => x (AddButtonGrabOnWindow xid 1 event_mask false);; mret ()) (GetInputWindows p);;
  let cap flag size := if 0 <? flag then Z.min size flag else size in
  let capped_width := cap FLAGS_panel_max_width (content_width p) in
  let capped_height := cap FLAGS_panel_max_height (content_height p) in
  (if negb (capped_width =? content_width p) || negb (capped_height =? content_height p) then
     content_win (Window.ResizeClient capped_width capped_height Window.GRAVITY_NORTHWEST);; mret ()
   else mret ());;
  x (SetWindowCursor (top_input_xid_ p) XC_top_side);;
  x (SetWindowCursor (top_left_input_xid_ p) XC_top_left_corner);;
  x (SetWindowCursor (top_right_input_xid_ p) XC_top_right_corner);;
  x (SetWindowCursor (left_input_xid_ p) XC_left_side);;
  x (SetWindowCursor (right_input_xid_ p) XC_right_side);;
  UpdateChromeStateProperty;;
  mret ().

(** The destructor, the members' destructors included. *)
Definition destroy : M S unit :=
  p ← get id;
  (if negb (drag_xid_ p =? 0) then
     x (RemovePointerGrab false CurrentTime);; upd (fun p => p <| drag_xid_ := 0 |>)
   else mret ());;
  x (DeselectInputOnWindow (titlebar_xid p) EnterWindowMask);;
  for_each (fun xid => x (DestroyWindow xid);; mret ()) (GetInputWindows p);;
  content_win Window.RemoveButtonGrab;;
  registrar (fun s => (s.1, EventConsumerRegistrar.destroy s));;
  MotionEventCoalescer.destroy coalescer set_coalescer ApplyResize source_remove;;
  match resize_actor_ p with Some a => actor a DeleteActor | None => mret () end.
End panel.
End Panel.
