(* ===== verification/WmFrame.v ===== *)
(** * What the window manager's parts leave alone.

    [WmFrame] is what the panels need of the world: calls out of the modelled code
    keep the connection working ([wm_ok]) and the size of the screen; sending and
    writing properties does not fault.  Every operation of a window keeps its XID
    and, unless it resizes, its size; the operations of a panel keep its windows,
    and the ones that move it put it where they say. *)

From S2P Require Import Prelude Hoare WmUtil XConnection WmIpc Double Window WmEvents Panel.

(** ** The world *)

(** The connection works, the screen keeps its size and XIDs that were given out stay so. *)
Definition wm_moves {W : Type} `{Wm W} (ok : W → Prop) (used : Z → W → Prop) (w w' : W) : Prop :=
  ok w' ∧ wm_width w' = wm_width w ∧ wm_height w' = wm_height w ∧ ∀ xid, used xid w → used xid w'.

Class WmFrame (W : Type) `{Wm W} := {
  wm_ok : W → Prop;
  (** The server has given this XID to a window; it is not given out again. *)
  wm_used : Z → W → Prop;
  wm_cache a : AtomCache.atom_to_xatom_ wm_atoms !! a = Some (wm_atom a);
  wm_x_do r w : wm_ok w → wm_moves wm_ok wm_used w (x_do r w).2;
  wm_actor_do a c w : wm_ok w → wm_moves wm_ok wm_used w (actor_do a c w);
  wm_shadow_do a c w : wm_ok w → wm_moves wm_ok wm_used w (shadow_do a c w);
  wm_new_rectangle w : wm_ok w → wm_moves wm_ok wm_used w (new_rectangle w).2;
  wm_timeout_add ms w : wm_ok w → wm_moves wm_ok wm_used w (g_timeout_add ms w).2;
  wm_source_remove id w : wm_ok w → wm_moves wm_ok wm_used w (g_source_remove id w);
  wm_query_pointer w : wm_ok w → wm_moves wm_ok wm_used w (x_QueryPointerPosition w).2;
  wm_wait xid w : wm_ok w → wm_moves wm_ok wm_used w (x_WaitForPropertyChange xid w).2;
  wm_set_active xid w : wm_ok w → wm_moves wm_ok wm_used w (wm_set_active_window_xid xid w);
  (** Setting a property is only queued. *)
  wm_set_property xid atom type values w : wm_ok w →
    ∃ w', conn_SetIntArrayProperty xid atom type values w = Val (true, w') ∧ wm_moves wm_ok wm_used w w';
  (** The window may be gone. *)
  wm_send dest xid type data mask w : wm_ok w →
    ∃ b w', conn_SendClientMessageEvent dest xid type data mask w = Val (b, w') ∧ wm_moves wm_ok wm_used w w'
}.

(** Windows of our own: a new XID each, and stacking and mapping them is only queued;
    and the registry of event consumers. *)
Class WmHost (W : Type) `{WmFrame W} `{HasConsumers W} := {
  wm_set_consumers c w : wm_ok w → wm_moves wm_ok wm_used w (set_consumers c w);
  wm_new_image file w : wm_ok w → wm_moves wm_ok wm_used w (new_image file w).2;
  wm_new_shadow w : wm_ok w → wm_moves wm_ok wm_used w (new_shadow w).2;
  wm_create parent x y width height redirect input mask w : wm_ok w →
    let '(xid, w') := x_CreateWindow parent x y width height redirect input mask w in
    xid ≠ 0 ∧ ¬ wm_used xid w ∧ wm_used xid w' ∧ wm_moves wm_ok wm_used w w';
  wm_stack_queued xid other above w : wm_ok w → (x_do (StackWindow xid other above) w).1 = true;
  wm_map_queued xid w : wm_ok w → (x_do (MapWindow xid) w).1 = true
}.

(** Sizes of the screen are 16-bit numbers in the X protocol. *)
Class WmScreen (W : Type) `{WmFrame W} := {
  wm_screen w : wm_ok w → 0 ≤ wm_width w < 2 ^ 16 ∧ 0 ≤ wm_height w < 2 ^ 16
}.

Section world.
Context {W : Type} `{WmFrame W} `{Build}.

Definition same_screen (w w' : W) : Prop :=
  wm_width w' = wm_width w ∧ wm_height w' = wm_height w ∧ ∀ xid, wm_used xid w → wm_used xid w'.
#[global] Instance same_screen_preorder : PreOrder same_screen.
Proof. split; [by intros ?|]. intros ??? (?&?&?) (?&?&?). split; [congruence|]. split; [congruence|auto]. Qed.

Abbreviation quiet := (framed wm_ok same_screen).

Lemma quiet_extern {A} (f : W → A * W) :
  (∀ w, wm_ok w → wm_moves wm_ok wm_used w (f w).2) → quiet (extern f).
Proof. intros Hf w Hw. specialize (Hf w Hw). unfold wp, extern. by destruct (f w) as [a w']. Qed.
Lemma quiet_x_do r : quiet (extern (x_do r)).
Proof. apply quiet_extern. intros w. apply wm_x_do. Qed.
Lemma quiet_actor a c : quiet (StackingManager.do_actor a c).
Proof. apply quiet_extern. intros w. apply wm_actor_do. Qed.
Lemma quiet_shadow a c : quiet (extern (fun w => ((), shadow_do a c w))).
Proof. apply quiet_extern. intros w. apply wm_shadow_do. Qed.
Lemma quiet_actor' a c : quiet (extern (fun w => ((), actor_do a c w))).
Proof. apply quiet_actor. Qed.
Lemma quiet_new_rectangle : quiet (extern new_rectangle).
Proof. apply quiet_extern. intros w. apply wm_new_rectangle. Qed.
Lemma quiet_timeout_add ms : quiet (extern (g_timeout_add ms)).
Proof. apply quiet_extern. intros w. apply wm_timeout_add. Qed.
Lemma quiet_source_remove id : quiet (extern (fun w => ((), g_source_remove id w))).
Proof. apply quiet_extern. intros w. apply wm_source_remove. Qed.
Lemma quiet_query_pointer : quiet (extern x_QueryPointerPosition).
Proof. apply quiet_extern. intros w. apply wm_query_pointer. Qed.
Lemma quiet_wait xid : quiet (extern (x_WaitForPropertyChange xid)).
Proof. apply quiet_extern. intros w. apply wm_wait. Qed.
Lemma quiet_set_property xid atom type values : quiet (conn_SetIntArrayProperty xid atom type values).
Proof.
  intros w Hw. destruct (wm_set_property xid atom type values w Hw) as (w' & Hrun & Hok & ?).
  apply wp_run. by exists true, w'.
Qed.
Lemma quiet_send dest xid type data mask : quiet (conn_SendClientMessageEvent dest xid type data mask).
Proof.
  intros w Hw. destruct (wm_send dest xid type data mask w Hw) as (b & w' & Hrun & Hok & ?).
  apply wp_run. by exists b, w'.
Qed.
Lemma quiet_GetXAtom a : quiet (AtomCache.GetXAtom wm_atoms a).
Proof. unfold AtomCache.GetXAtom. rewrite wm_cache. apply framed_ret, _. Qed.
#[local] Hint Resolve quiet_x_do quiet_actor quiet_actor' quiet_shadow quiet_new_rectangle quiet_timeout_add
  quiet_source_remove quiet_query_pointer quiet_wait quiet_set_property quiet_send quiet_GetXAtom : framed.

Lemma quiet_SendMessage xid msg : WmIpc.Message.max_params msg ≤ 4 → quiet (WmIpc.SendMessage wm_atoms xid msg).
Proof.
  intros Hmax. unfold WmIpc.SendMessage. apply framed_bind; [apply _| |].
  - apply framed_CHECK; [apply _|by apply Z.leb_le].
  - frame.
Qed.

(** The current time: the property's [CHECK] passes. *)
Lemma quiet_GetCurrentTimeFromServer : quiet WindowManager.GetCurrentTimeFromServer.
Proof.
  intros w Hw. unfold WindowManager.GetCurrentTimeFromServer, XConnection.SetIntProperty.
  destruct (wm_set_property wm_xid (wm_atom ATOM_CHROME_GET_SERVER_TIME) WindowManager.XA_ATOM
              [i32 (wm_atom ATOM_CHROME_GET_SERVER_TIME)] w Hw) as (w1 & Hrun & Hok & Hsize).
  apply wp_bind, wp_run. exists true, w1. split; [exact Hrun|]. apply wp_CHECK_bind; [done|].
  assert (quiet (timestamp ← extern (x_WaitForPropertyChange wm_xid); mret (default 0 timestamp))) as Hq
    by frame.
  eapply wp_mono; [by apply (Hq w1)|]. intros t w2 [Hok2 Hsize2]. split; [done|].
  transitivity w1; [exact Hsize|done].
Qed.

Lemma quiet_SetActiveWindowProperty xid : quiet (WindowManager.SetActiveWindowProperty xid).
Proof.
  unfold WindowManager.SetActiveWindowProperty, XConnection.SetIntProperty. apply framed_bind; [apply _|frame|].
  intros w. destruct (_ =? _); [frame|]. apply framed_bind; [apply _|frame|]. intros b.
  destruct b; cbn [negb]; [|frame]. apply framed_bind; [apply _| |frame].
  apply framed_modify. intros w' Hw'. pose proof (wm_set_active xid w' Hw') as (? & ? & ?). done.
Qed.

Lemma quiet_ConfigureInputWindow xid x y width height :
  quiet (WindowManager.ConfigureInputWindow xid x y width height).
Proof. apply quiet_x_do. Qed.

(** ** Windows *)

Definition win_ok (s : Window.t * W) : Prop := wm_ok s.2.
(** The window keeps its XID and size, and what is drawn stays in place. *)
Definition same_size (r r' : Window.t) : Prop :=
  Window.xid_ r' = Window.xid_ r ∧ Window.client_width_ r' = Window.client_width_ r ∧
  Window.client_height_ r' = Window.client_height_ r.
Definition same_place (r r' : Window.t) : Prop :=
  same_size r r' ∧ Window.composited_x_ r' = Window.composited_x_ r ∧
  Window.composited_y_ r' = Window.composited_y_ r.
Definition win_step (P : Window.t → Window.t → Prop) (s s' : Window.t * W) : Prop :=
  P s.1 s'.1 ∧ same_screen s.2 s'.2.
#[global] Instance same_size_preorder : PreOrder same_size.
Proof. split; [by intros ?|]. intros ??? (?&?&?) (?&?&?). split; [|split]; congruence. Qed.
#[global] Instance same_place_preorder : PreOrder same_place.
Proof.
  split; [by intros ?|]. intros ??? (?&?&?) (?&?&?). split; [by etransitivity|]. split; congruence.
Qed.
#[global] Instance win_step_preorder P `{!PreOrder P} : PreOrder (win_step P).
Proof. split; [intros ?; split; reflexivity|]. intros ??? [] []. split; by etransitivity. Qed.

Abbreviation steady := (framed win_ok (win_step same_place)).

Lemma steady_on_w {A} (m : M W A) : quiet m → steady (Window.on_w m).
Proof.
  intros Hm. eapply framed_zoom; [exact Hm|done|]. intros s w Hs Hw Hstep. split; [done|]. by split.
Qed.
Lemma steady_upd f : (∀ r, same_place r (f r)) → steady (Window.upd f).
Proof. intros Hf. apply framed_modify. intros [r w] Hw. split; [done|]. split; [apply Hf|reflexivity]. Qed.
Lemma steady_get {A} (f : Window.t → A) : steady (Window.get f).
Proof. apply framed_gets, _. Qed.
Lemma steady_x r : steady (Window.x r).
Proof. apply steady_on_w, quiet_x_do. Qed.
#[local] Hint Resolve steady_get steady_x : framed.
#[local] Hint Extern 1 (framed _ _ (Window.on_w _)) => apply steady_on_w : framed.
#[local] Hint Extern 1 (framed _ _ (Window.upd _)) => by apply steady_upd; intros [] : framed.
Lemma steady_actor c : steady (Window.actor c).
Proof. unfold Window.actor. frame. Qed.
Lemma steady_shadow c : steady (Window.shadow c).
Proof. unfold Window.shadow. frame. Qed.
#[local] Hint Resolve steady_actor steady_shadow : framed.

Lemma steady_resize_shadow ms : steady (Window.resize_shadow ms).
Proof. unfold Window.resize_shadow. frame. Qed.
#[local] Hint Resolve steady_resize_shadow : framed.
Lemma steady_SaveClientPosition px py : steady (Window.SaveClientPosition px py).
Proof. unfold Window.SaveClientPosition. frame. Qed.
#[local] Hint Resolve steady_SaveClientPosition : framed.
Lemma steady_MoveClient px py : steady (Window.MoveClient px py).
Proof. unfold Window.MoveClient. frame. Qed.
#[local] Hint Resolve steady_MoveClient : framed.
Lemma steady_MoveClientToComposited : steady Window.MoveClientToComposited.
Proof. unfold Window.MoveClientToComposited. frame. Qed.
Lemma steady_ShowComposited : steady Window.ShowComposited.
Proof. unfold Window.ShowComposited. frame. Qed.
Lemma steady_SetCompositedOpacity opacity ms : steady (Window.SetCompositedOpacity opacity ms).
Proof. unfold Window.SetCompositedOpacity. frame. Qed.
Lemma steady_ScaleComposited sx sy ms : steady (Window.ScaleComposited sx sy ms).
Proof. unfold Window.ScaleComposited. frame. Qed.
Lemma steady_SetShadowOpacity opacity ms : steady (Window.SetShadowOpacity opacity ms).
Proof. unfold Window.SetShadowOpacity. frame. Qed.
Lemma steady_stack_shadow a b : steady (Window.stack_shadow a b).
Proof. unfold Window.stack_shadow. frame. Qed.
#[local] Hint Resolve steady_stack_shadow : framed.
Lemma steady_StackCompositedAbove o a b : steady (Window.StackCompositedAbove o a b).
Proof. unfold Window.StackCompositedAbove. frame. Qed.
Lemma steady_StackCompositedBelow o a b : steady (Window.StackCompositedBelow o a b).
Proof. unfold Window.StackCompositedBelow. frame. Qed.
Lemma steady_StackClientBelow xid : xid ≠ 0 → steady (Window.StackClientBelow xid).
Proof.
  intros Hx. unfold Window.StackClientBelow. apply framed_bind; [apply _| |frame].
  apply framed_CHECK; [apply _|by apply Z.eqb_neq in Hx as ->].
Qed.
Lemma steady_AddButtonGrab : steady Window.AddButtonGrab.
Proof. unfold Window.AddButtonGrab. frame. Qed.
Lemma steady_RemoveButtonGrab : steady Window.RemoveButtonGrab.
Proof. unfold Window.RemoveButtonGrab. frame. Qed.
Lemma steady_TakeFocus t : steady (Window.TakeFocus t).
Proof. unfold Window.TakeFocus, Window.send_protocol. frame. Qed.
Lemma steady_ChangeChromeState states : steady (Window.ChangeChromeState states).
Proof. unfold Window.ChangeChromeState, Window.UpdateChromeStateProperty, Window.set_or_delete. frame. Qed.

(** Moving what is drawn: each coordinate is given or stays. *)
Definition placed (px py : option Z) (r r' : Window.t) : Prop :=
  same_size r r' ∧ Window.composited_x_ r' = default (Window.composited_x_ r) px ∧
  Window.composited_y_ r' = default (Window.composited_y_ r) py.

Lemma placed_then_steady {A} (f : Window.t → Window.t) (m : unit → M (Window.t * W) A) px py s :
  (∀ r, placed px py r (f r)) → (∀ u, steady (m u)) → win_ok s →
  wp (Window.upd f ≫= m) (fun _ s' => win_ok s' ∧ win_step (placed px py) s s') s.
Proof.
  intros Hf Hm Hs. apply wp_modify_bind. eapply wp_mono; [by apply (Hm ())|].
  intros a s' [Hok [(Hsz & Hx & Hy) Hscr]]. split; [done|]. split; [|done].
  destruct (Hf s.1) as (Hsz' & Hx' & Hy'). split; [by etransitivity|]. cbn in *. split; congruence.
Qed.
Lemma MoveComposited_wp px py ms s : win_ok s →
  wp (Window.MoveComposited px py ms) (fun _ s' => win_ok s' ∧ win_step (placed (Some px) (Some py)) s s') s.
Proof. apply placed_then_steady; [by intros []|frame]. Qed.
Lemma MoveCompositedX_wp px ms s : win_ok s →
  wp (Window.MoveCompositedX px ms) (fun _ s' => win_ok s' ∧ win_step (placed (Some px) None) s s') s.
Proof. apply placed_then_steady; [by intros []|frame]. Qed.
Lemma MoveCompositedY_wp py ms s : win_ok s →
  wp (Window.MoveCompositedY py ms) (fun _ s' => win_ok s' ∧ win_step (placed None (Some py)) s s') s.
Proof. apply placed_then_steady; [by intros []|frame]. Qed.

(** Every layer has its actor and its window. *)
Definition layers_ok (sm : StackingManager.t) : Prop :=
  ∀ layer, 0 ≤ layer < StackingManager.kNumLayers →
    is_Some (StackingManager.layer_to_actor_ sm !! layer) ∧
    FindWithDefault (StackingManager.layer_to_xid_ sm) layer 0 ≠ 0.

Lemma framed_GetActorForLayer {S} I (R : S → S → Prop) `{!PreOrder R} sm layer :
  layers_ok sm → 0 ≤ layer < StackingManager.kNumLayers →
  framed I R (StackingManager.GetActorForLayer sm layer).
Proof.
  intros Hsm Hl. destruct (Hsm layer Hl) as [[a Ha] _]. unfold StackingManager.GetActorForLayer.
  rewrite Ha. by apply framed_ret.
Qed.

Lemma steady_StackWindowAtTopOfLayer sm layer :
  layers_ok sm → 0 ≤ layer < StackingManager.LAYER_BACKGROUND →
  steady (StackingManager.StackWindowAtTopOfLayer sm layer).
Proof.
  intros Hsm Hl. unfold StackingManager.LAYER_BACKGROUND in Hl. unfold StackingManager.StackWindowAtTopOfLayer.
  apply framed_bind; [apply _|apply framed_GetActorForLayer; [apply _|done|unfold StackingManager.kNumLayers; lia]|].
  intros a. apply framed_bind; [apply _|apply framed_GetActorForLayer; [apply _|done|unfold StackingManager.kNumLayers; lia]|].
  intros b. apply framed_bind; [apply _|apply steady_StackCompositedBelow|intros _].
  destruct (Hsm layer) as [_ Hx]; [unfold StackingManager.kNumLayers; lia|].
  unfold StackingManager.GetXidForLayer. intros s Hs.
  apply wp_bind, wp_CHECK_bind; [by apply Z.eqb_neq in Hx as ->|]. apply wp_ret.
  by apply steady_StackClientBelow.
Qed.
Lemma quiet_StackActorAtTopOfLayer sm a layer :
  layers_ok sm → 0 ≤ layer < StackingManager.kNumLayers → quiet (StackingManager.StackActorAtTopOfLayer sm a layer).
Proof.
  intros Hsm Hl. unfold StackingManager.StackActorAtTopOfLayer.
  apply framed_bind; [apply _|by apply framed_GetActorForLayer; [apply _|..]|frame].
Qed.
Lemma quiet_StackXidAtTopOfLayer sm xid layer :
  layers_ok sm → 0 ≤ layer < StackingManager.kNumLayers → quiet (StackingManager.StackXidAtTopOfLayer sm xid layer).
Proof.
  intros Hsm Hl. unfold StackingManager.StackXidAtTopOfLayer, StackingManager.GetXidForLayer.
  destruct (Hsm layer Hl) as [_ Hx]. apply framed_bind; [apply _| |frame].
  apply framed_bind; [apply _|apply framed_CHECK; [apply _|by apply Z.eqb_neq in Hx as ->]|frame].
Qed.

(** When windows may get new sizes: the XID stays, and a window with an area keeps one. *)
Definition has_area (r : Window.t) : Prop := 0 < Window.client_width_ r ∧ 0 < Window.client_height_ r.
Definition reshaped (r r' : Window.t) : Prop := Window.xid_ r' = Window.xid_ r ∧ (has_area r → has_area r').
Definition same_xid (r r' : Window.t) : Prop := Window.xid_ r' = Window.xid_ r.
#[global] Instance reshaped_preorder : PreOrder reshaped.
Proof. split; [by intros ?|]. intros ??? [] []. split; [congruence|auto]. Qed.
#[global] Instance same_xid_preorder : PreOrder same_xid.
Proof. split; [by intros ?|]. unfold same_xid. intros; congruence. Qed.
Lemma same_size_reshaped r r' : same_size r r' → reshaped r r'.
Proof. intros (?&Hw&Hh). split; [done|]. unfold has_area. by rewrite Hw, Hh. Qed.
Lemma ResizeClient_framed (P : Window.t → Window.t → Prop) `{!PreOrder P} w h g :
  (∀ r r', same_size r r' → P r r') →
  (∀ r, P r (r <| Window.client_width_ := w |> <| Window.client_height_ := h |>)) →
  framed win_ok (win_step P) (Window.ResizeClient w h g).
Proof.
  intros HP Hsize. unfold Window.ResizeClient.
  assert (∀ f, (∀ r, P r (f r)) → framed win_ok (win_step P) (Window.upd f)) as Hupd.
  { intros f Hf. apply framed_modify. intros [r u] Hu. split; [done|]. split; [apply Hf|reflexivity]. }
  assert (∀ A (m : M (Window.t * W) A), steady m → framed win_ok (win_step P) m) as Hsteady.
  { intros A m Hm. eapply framed_weaken; [exact Hm|]. intros s s' [[Hs _] Hscr]. split; [by apply HP|done]. }
  assert (∀ x y ms, framed win_ok (win_step P) (Window.MoveComposited x y ms)) as Hmove.
  { intros. unfold Window.MoveComposited. apply framed_bind; [apply _|by apply Hupd; intros []; apply HP|].
    intros _. apply Hsteady. frame. }
  assert (framed win_ok (win_step P) (Window.SaveClientAndCompositedSize w h)) as Hsave.
  { unfold Window.SaveClientAndCompositedSize. apply framed_bind; [apply _|by apply Hupd; intros; apply Hsize|].
    intros _. apply Hsteady. frame. }
  assert (∀ r, framed win_ok (win_step P) (Window.x r)) as Hx by (intros; apply Hsteady; frame).
  assert (∀ x y, framed win_ok (win_step P) (Window.SaveClientPosition x y)) as Hpos by (intros; apply Hsteady; frame).
  assert (framed win_ok (win_step P) (Window.get id)) as Hget by (apply framed_gets, _).
  frame.
Qed.
Abbreviation roaming := (framed win_ok (win_step reshaped)).
Lemma roaming_ResizeClient w h g : 0 < w → 0 < h → roaming (Window.ResizeClient w h g).
Proof. intros Hw Hh. apply ResizeClient_framed; [apply _|apply same_size_reshaped|]. by intros []. Qed.
Lemma renaming_ResizeClient w h g : framed win_ok (win_step same_xid) (Window.ResizeClient w h g).
Proof. apply ResizeClient_framed; [apply _|by intros ?? []|by intros []]. Qed.

Lemma steady_StackClientAbove xid : xid ≠ 0 → steady (Window.StackClientAbove xid).
Proof.
  intros Hx. unfold Window.StackClientAbove. apply framed_bind; [apply _| |frame].
  apply framed_CHECK; [apply _|by apply Z.eqb_neq in Hx as ->].
Qed.
Lemma steady_StackRelative sm sibling above layer :
  layers_ok sm → 0 ≤ layer < StackingManager.LAYER_BACKGROUND → Window.xid_ sibling ≠ 0 →
  steady (StackingManager.StackWindowRelativeToOtherWindow sm sibling above layer).
Proof.
  intros Hsm Hl Hx. unfold StackingManager.LAYER_BACKGROUND in Hl. unfold StackingManager.StackWindowRelativeToOtherWindow.
  apply framed_bind; [apply _|apply framed_GetActorForLayer; [apply _|done|unfold StackingManager.kNumLayers; lia]|].
  intros a. destruct above; (apply framed_bind; [apply _| |intros _]);
    [apply steady_StackCompositedAbove|by apply steady_StackClientAbove|apply steady_StackCompositedBelow|
     by apply steady_StackClientBelow].
Qed.
End world.

#[export] Hint Resolve quiet_x_do quiet_actor quiet_actor' quiet_shadow quiet_new_rectangle quiet_timeout_add
  quiet_source_remove quiet_query_pointer quiet_wait quiet_set_property quiet_send quiet_GetXAtom
  quiet_GetCurrentTimeFromServer quiet_SetActiveWindowProperty quiet_ConfigureInputWindow : framed.
#[export] Hint Resolve steady_get steady_x steady_actor steady_shadow steady_MoveClient
  steady_MoveClientToComposited steady_ShowComposited steady_SetCompositedOpacity steady_ScaleComposited
  steady_SetShadowOpacity steady_StackCompositedAbove steady_StackCompositedBelow steady_AddButtonGrab
  steady_RemoveButtonGrab steady_TakeFocus steady_ChangeChromeState steady_StackWindowAtTopOfLayer
  steady_resize_shadow steady_SaveClientPosition : framed.
Abbreviation quiet := (framed wm_ok same_screen).
Abbreviation steady := (framed win_ok (win_step same_place)).

(** ** Panels, wherever their state is *)

(** What a drag of the border has changed so far. *)
Definition resize_state (r : Panel.t) : Z * Z * Z * option Z :=
  (Panel.drag_xid_ r, Panel.drag_last_width_ r, Panel.drag_last_height_ r, Panel.resize_actor_ r).
Definition resize_ok `{PanelFlags} (r : Panel.t) : Prop :=
  0 < Panel.drag_last_width_ r ∧ 0 < Panel.drag_last_height_ r ∧
  (Panel.resize_actor_ r = None ↔ FLAGS_panel_opaque_resize = true ∨ Panel.drag_xid_ r = 0).
Lemma resize_ok_state `{PanelFlags} r r' : resize_state r' = resize_state r → resize_ok r → resize_ok r'.
Proof. unfold resize_state, resize_ok. by intros [= -> -> -> ->]. Qed.

(** A panel that may have moved: its windows, their sizes and its place in the
    interface are the same. *)
Definition kept (r r' : Panel.t) : Prop :=
  same_size (Panel.content_win_ r) (Panel.content_win_ r') ∧
  same_size (Panel.titlebar_win_ r) (Panel.titlebar_win_ r') ∧
  (Panel.composited_windows_set_up_ r = true → Panel.composited_windows_set_up_ r' = true) ∧
  Panel.GetInputWindows r' = Panel.GetInputWindows r ∧
  resize_state r' = resize_state r.
Definition same_panel (r r' : Panel.t) : Prop :=
  kept r r' ∧ same_place (Panel.content_win_ r) (Panel.content_win_ r') ∧
  same_place (Panel.titlebar_win_ r) (Panel.titlebar_win_ r') ∧
  Panel.is_expanded_ r' = Panel.is_expanded_ r.
#[global] Instance kept_preorder : PreOrder kept.
Proof.
  split; [intros r; by repeat split|]. intros ??? (?&?&?&?&?) (?&?&?&?&?).
  split; [by etransitivity|split; [by etransitivity|split; [auto|split; congruence]]].
Qed.
#[global] Instance same_panel_preorder : PreOrder same_panel.
Proof.
  split; [intros r; by repeat split|]. intros ??? (?&?&?&?) (?&?&?&?).
  split; [by etransitivity|split; [by etransitivity|split; [by etransitivity|congruence]]].
Qed.

Lemma change_content r w : same_place (Panel.content_win_ r) w → same_panel r (r <| Panel.content_win_ := w |>).
Proof. intros Hp. destruct r. split; [|by split; [|split]]. split; [apply Hp|]. by repeat split. Qed.
Lemma change_titlebar r w : same_place (Panel.titlebar_win_ r) w → same_panel r (r <| Panel.titlebar_win_ := w |>).
Proof. intros Hp. destruct r. split; [|by split; [|split]]. split; [done|]. split; [apply Hp|]. by repeat split. Qed.

(** Each coordinate of the titlebar and of the content is given or stays. *)
Definition moved (tx ty cx cy : option Z) (r r' : Panel.t) : Prop :=
  kept r r' ∧ Panel.is_expanded_ r' = Panel.is_expanded_ r ∧
  placed tx ty (Panel.titlebar_win_ r) (Panel.titlebar_win_ r') ∧
  placed cx cy (Panel.content_win_ r) (Panel.content_win_ r').
Definition moved_x (right : Z) (r : Panel.t) : Panel.t → Prop :=
  moved (Some (i32 (right - Panel.titlebar_width r))) None (Some (i32 (right - Panel.content_width r))) None r.
Definition moved_y (y : Z) (r : Panel.t) : Panel.t → Prop :=
  moved None (Some y) None (Some (i32 (y + Panel.titlebar_height r))) r.
Definition moved_xy (right y : Z) (r : Panel.t) : Panel.t → Prop :=
  moved (Some (i32 (right - Panel.titlebar_width r))) (Some y)
        (Some (i32 (right - Panel.content_width r))) (Some (i32 (y + Panel.titlebar_height r))) r.

Lemma placed_same px py r r' r'' : placed px py r r' → same_place r' r'' → placed px py r r''.
Proof. intros (?&?&?) (?&?&?). split; [by etransitivity|]. split; congruence. Qed.
Lemma moved_same tx ty cx cy r r' r'' : moved tx ty cx cy r r' → same_panel r' r'' → moved tx ty cx cy r r''.
Proof.
  intros (?&?&?&?) (?&?&?&?). split; [by etransitivity|]. split; [congruence|].
  split; by eapply placed_same.
Qed.
Lemma change_both r w1 w2 tx ty cx cy :
  placed tx ty (Panel.titlebar_win_ r) w1 → placed cx cy (Panel.content_win_ r) w2 →
  moved tx ty cx cy r ((r <| Panel.titlebar_win_ := w1 |>) <| Panel.content_win_ := w2 |>).
Proof. intros H1 H2. destruct r. split; [|done]. split; [apply H2|]. split; [apply H1|done]. Qed.

(** ... and when it may get new sizes. *)
Definition same_windows `{PanelFlags} (r r' : Panel.t) : Prop :=
  reshaped (Panel.content_win_ r) (Panel.content_win_ r') ∧ Panel.titlebar_xid r' = Panel.titlebar_xid r ∧
  Panel.GetInputWindows r' = Panel.GetInputWindows r ∧
  (Panel.composited_windows_set_up_ r = true → Panel.composited_windows_set_up_ r' = true) ∧
  (resize_ok r → resize_ok r').
#[global] Instance same_windows_preorder `{PanelFlags} : PreOrder same_windows.
Proof.
  split; [intros r; split; [reflexivity|done]|]. intros ??? (?&?&?&?&?) (?&?&?&?&?).
  split; [by etransitivity|split; [congruence|split; [congruence|auto]]].
Qed.
Lemma kept_same_windows `{PanelFlags} r r' : kept r r' → same_windows r r'.
Proof.
  intros (?&(?&_)&?&?&?). split; [by apply same_size_reshaped|]. split; [done|]. split; [done|]. split; [done|].
  by apply resize_ok_state.
Qed.

Section panel.
Context {W : Type} `{WmFrame W} `{HasConsumers W} `{PanelFlags} `{Build} {S : Type}.
Variable sm : StackingManager.t.
Variable panel : S → Panel.t.
Variable set_panel : Panel.t → S → S.
Variable world : S → W.
Variable set_world : W → S → S.
(** What using the panel leaves alone in the rest of the state. *)
Variable Fr : S → S → Prop.
Context `{!PreOrder Fr}.
Class PanelPlace := {
  panel_set_panel r s : panel (set_panel r s) = r;
  world_set_panel r s : world (set_panel r s) = world s;
  panel_set_world w s : panel (set_world w s) = panel s;
  world_set_world w s : world (set_world w s) = w;
  Fr_set_panel r s : Fr s (set_panel r s);
  Fr_set_world w s : Fr s (set_world w s)
}.
Context `{!PanelPlace}.

Definition pan_ok (s : S) : Prop := wm_ok (world s).
Definition pan_step (P : Panel.t → Panel.t → Prop) (s s' : S) : Prop :=
  Fr s s' ∧ same_screen (world s) (world s') ∧ P (panel s) (panel s').
#[global] Instance pan_step_preorder P `{!PreOrder P} : PreOrder (pan_step P).
Proof. split; [intros s; split; [reflexivity|split; reflexivity]|]. intros ??? (?&?&?) (?&?&?). split; [|split]; by etransitivity. Qed.
Abbreviation calm := (framed pan_ok (pan_step same_panel)).

Lemma calm_on_world {A} (m : M W A) : quiet m → calm (Panel.on_world world set_world m).
Proof.
  intros Hm. eapply framed_zoom; [exact Hm|done|]. intros s w Hs Hw Hstep. unfold pan_ok, pan_step.
  rewrite world_set_world, panel_set_world. split; [done|]. split; [apply Fr_set_world|]. split; [done|reflexivity].
Qed.
Lemma calm_x r : calm (Panel.x world set_world r).
Proof. apply calm_on_world. frame. Qed.
Lemma calm_actor a c : calm (Panel.actor world set_world a c).
Proof. apply calm_on_world. frame. Qed.
Lemma calm_get {A} (f : Panel.t → A) : calm (Panel.get panel f).
Proof. apply framed_gets, _. Qed.
Lemma calm_upd f : (∀ r, same_panel r (f r)) → calm (Panel.upd panel set_panel f).
Proof.
  intros Hf. apply framed_modify. intros s Hs. unfold pan_ok, pan_step. rewrite world_set_panel, panel_set_panel.
  split; [done|]. split; [apply Fr_set_panel|]. split; [reflexivity|apply Hf].
Qed.

(** Running an operation of one of the windows. *)
Lemma content_win_wp {A} (m : M (Window.t * W) A) P s :
  pan_ok s →
  (win_ok (Panel.content_win_ (panel s), world s) →
   wp m (fun _ s' => win_ok s' ∧ win_step P (Panel.content_win_ (panel s), world s) s')
        (Panel.content_win_ (panel s), world s)) →
  wp (Panel.content_win panel set_panel world set_world m)
     (fun _ s' => pan_ok s' ∧
        pan_step (fun r r' => ∃ w, r' = r <| Panel.content_win_ := w |> ∧ P (Panel.content_win_ r) w) s s') s.
Proof.
  intros Hs Hm. apply wp_zoom. eapply wp_mono; [by apply Hm|]. intros a [w' W'] [Hok [HP Hscr]]. cbn in *.
  unfold pan_ok, pan_step. rewrite world_set_world, panel_set_world, panel_set_panel.
  split; [done|]. split; [etransitivity; [apply Fr_set_panel|apply Fr_set_world]|]. split; [done|]. by exists w'.
Qed.
Lemma titlebar_win_wp {A} (m : M (Window.t * W) A) P s :
  pan_ok s →
  (win_ok (Panel.titlebar_win_ (panel s), world s) →
   wp m (fun _ s' => win_ok s' ∧ win_step P (Panel.titlebar_win_ (panel s), world s) s')
        (Panel.titlebar_win_ (panel s), world s)) →
  wp (Panel.titlebar_win panel set_panel world set_world m)
     (fun _ s' => pan_ok s' ∧
        pan_step (fun r r' => ∃ w, r' = r <| Panel.titlebar_win_ := w |> ∧ P (Panel.titlebar_win_ r) w) s s') s.
Proof.
  intros Hs Hm. apply wp_zoom. eapply wp_mono; [by apply Hm|]. intros a [w' W'] [Hok [HP Hscr]]. cbn in *.
  unfold pan_ok, pan_step. rewrite world_set_world, panel_set_world, panel_set_panel.
  split; [done|]. split; [etransitivity; [apply Fr_set_panel|apply Fr_set_world]|]. split; [done|]. by exists w'.
Qed.

Lemma calm_content_win {A} (m : M (Window.t * W) A) :
  steady m → calm (Panel.content_win panel set_panel world set_world m).
Proof.
  intros Hm s Hs. eapply wp_mono; [apply (content_win_wp m same_place); [done|by apply Hm]|].
  intros a s' [Hok (HF & Hscr & w & Heq & HP)]. split; [done|]. split; [done|]. split; [done|].
  rewrite Heq. apply change_content, HP.
Qed.
Lemma calm_titlebar_win {A} (m : M (Window.t * W) A) :
  steady m → calm (Panel.titlebar_win panel set_panel world set_world m).
Proof.
  intros Hm s Hs. eapply wp_mono; [apply (titlebar_win_wp m same_place); [done|by apply Hm]|].
  intros a s' [Hok (HF & Hscr & w & Heq & HP)]. split; [done|]. split; [done|]. split; [done|].
  rewrite Heq. apply change_titlebar, HP.
Qed.
#[local] Hint Resolve calm_x calm_actor calm_get : framed.
#[local] Hint Extern 1 (framed _ _ (Panel.on_world _ _ _)) => apply calm_on_world : framed.
#[local] Hint Extern 1 (framed _ _ (Panel.content_win _ _ _ _ _)) => apply calm_content_win : framed.
#[local] Hint Extern 1 (framed _ _ (Panel.titlebar_win _ _ _ _ _)) => apply calm_titlebar_win : framed.
#[local] Hint Extern 1 (framed _ _ (Panel.upd _ _ _)) => by apply calm_upd; intros []; repeat split : framed.

Lemma calm_ConfigureInputWindows : calm (Panel.ConfigureInputWindows panel world set_world).
Proof. unfold Panel.ConfigureInputWindows. frame. Qed.
Lemma calm_StackInputWindows : calm (Panel.StackInputWindows panel world set_world).
Proof. unfold Panel.StackInputWindows. frame. Qed.
#[local] Hint Resolve calm_ConfigureInputWindows calm_StackInputWindows : framed.
Lemma calm_move_clients : calm (Panel.move_client_windows_to_composited panel set_panel world set_world).
Proof. unfold Panel.move_client_windows_to_composited. frame. Qed.
Lemma calm_show : calm (Panel.show_composited_windows panel set_panel world set_world).
Proof. unfold Panel.show_composited_windows. frame. Qed.
#[local] Hint Resolve calm_move_clients calm_show : framed.
Lemma calm_SetResizable b : calm (Panel.SetResizable panel set_panel world set_world b).
Proof. unfold Panel.SetResizable. frame. Qed.
Lemma calm_AddButtonGrab : calm (Panel.AddButtonGrab panel set_panel world set_world).
Proof. unfold Panel.AddButtonGrab. frame. Qed.
Lemma calm_RemoveButtonGrab b : calm (Panel.RemoveButtonGrab panel set_panel world set_world b).
Proof. unfold Panel.RemoveButtonGrab. frame. Qed.
Lemma calm_StackAtTopOfLayer layer :
  layers_ok sm → 0 ≤ layer < StackingManager.LAYER_BACKGROUND →
  calm (Panel.StackAtTopOfLayer sm panel set_panel world set_world layer).
Proof. intros Hsm Hl. unfold Panel.StackAtTopOfLayer. frame. Qed.

(** The titlebar goes above the sibling's, the content below the panel's own titlebar. *)
Lemma calm_StackAbovePanel sibling layer s :
  layers_ok sm → 0 ≤ layer < StackingManager.LAYER_BACKGROUND → Panel.titlebar_xid sibling ≠ 0 →
  Panel.titlebar_xid (panel s) ≠ 0 → pan_ok s →
  wp (Panel.StackAbovePanel sm panel set_panel world set_world sibling layer)
     (fun _ s' => pan_ok s' ∧ pan_step same_panel s s') s.
Proof.
  intros Hsm Hl Hx Hxp Hs. unfold Panel.StackAbovePanel.
  eapply wp_cut; [apply calm_titlebar_win; [by apply steady_StackRelative|done]|]. intros _ s1 [Hok1 Hst1].
  apply wp_gets_bind. cbn [id].
  assert (Panel.titlebar_xid (panel s1) ≠ 0) as Hxp1.
  { destruct Hst1 as (_ & _ & ((_ & (Hxid & _) & _) & _)). unfold Panel.titlebar_xid in *. by rewrite Hxid. }
  eapply wp_cut; [apply calm_content_win; [by apply steady_StackRelative|done]|]. intros _ s2 [Hok2 Hst2].
  eapply wp_mono; [by apply calm_StackInputWindows|]. intros _ s3 [Hok3 Hst3]. split; [done|].
  by do 2 (etransitivity; [eassumption|]).
Qed.

(** *** Moving *)

Lemma move_wp {A} (mt mc : M (Window.t * W) unit) (k : M S A) tx ty cx cy s :
  (∀ ws, win_ok ws → wp mt (fun _ s' => win_ok s' ∧ win_step (placed tx ty) ws s') ws) →
  (∀ ws, win_ok ws → wp mc (fun _ s' => win_ok s' ∧ win_step (placed cx cy) ws s') ws) →
  calm k → pan_ok s →
  wp (Panel.titlebar_win panel set_panel world set_world mt;;
      Panel.content_win panel set_panel world set_world mc;; k)
     (fun _ s' => pan_ok s' ∧ pan_step (moved tx ty cx cy) s s') s.
Proof.
  intros Hmt Hmc Hk Hs.
  eapply wp_cut; [eapply titlebar_win_wp; [done|apply Hmt]|]. intros _ s1 [Hok1 (HF1 & Hscr1 & w1 & E1 & P1)].
  eapply wp_cut; [eapply content_win_wp; [done|apply Hmc]|]. intros u s2 [Hok2 (HF2 & Hscr2 & w2 & E2 & P2)].
  eapply wp_mono; [by apply Hk|]. intros a s3 [Hok3 (HF3 & Hscr3 & Hsame)]. split; [done|].
  split; [by do 2 (etransitivity; [eassumption|])|]. split; [by do 2 (etransitivity; [eassumption|])|].
  eapply moved_same; [|exact Hsame]. rewrite E2, E1. rewrite E1 in P2. by apply change_both.
Qed.

Lemma MoveX_wp right mcw ms s :
  pan_ok s → Panel.composited_windows_set_up_ (panel s) = true →
  wp (Panel.MoveX panel set_panel world set_world right mcw ms)
     (fun _ s' => pan_ok s' ∧ pan_step (moved_x right) s s') s.
Proof.
  intros Hs Hup. unfold Panel.MoveX, DCHECK. apply wp_gets_bind. cbn [id]. rewrite Hup.
  replace (if dchecks then CHECK true else mret ()) with (mret () : M S unit) by by destruct dchecks.
  apply wp_ret_bind. eapply wp_mono; [by apply move_wp; [intros; by apply MoveCompositedX_wp..|frame|]|done].
Qed.
Lemma MoveY_wp y mcw ms s :
  pan_ok s → Panel.composited_windows_set_up_ (panel s) = true →
  wp (Panel.MoveY panel set_panel world set_world y mcw ms)
     (fun _ s' => pan_ok s' ∧ pan_step (moved_y y) s s') s.
Proof.
  intros Hs Hup. unfold Panel.MoveY, DCHECK. apply wp_gets_bind. cbn [id]. rewrite Hup.
  replace (if dchecks then CHECK true else mret ()) with (mret () : M S unit) by by destruct dchecks.
  apply wp_ret_bind. eapply wp_mono; [by apply move_wp; [intros; by apply MoveCompositedY_wp..|frame|]|done].
Qed.

Ltac calmly :=
  lazymatch goal with
  | Hs : pan_ok ?s |- wp _ _ ?s =>
      let s' := fresh "s" in let Hok := fresh "Hok" in let Hst := fresh "Hst" in
      eapply wp_cut; [refine ((_ : framed pan_ok (pan_step same_panel) _) s Hs)|cbv beta; intros ? s' [Hok Hst]]
  end.

Lemma show_wp s : pan_ok s →
  wp (Panel.show_composited_windows panel set_panel world set_world)
     (fun _ s' => pan_ok s' ∧ pan_step same_panel s s' ∧ Panel.composited_windows_set_up_ (panel s') = true) s.
Proof.
  intros Hs. unfold Panel.show_composited_windows.
  do 6 (calmly; [by frame|]). apply wp_modify. unfold pan_ok. rewrite world_set_panel, panel_set_panel.
  split; [done|]. split; [|by destruct (panel _)]. repeat (etransitivity; [eassumption|]).
  split; [apply Fr_set_panel|]. rewrite world_set_panel, panel_set_panel. split; [done|].
  destruct (panel _). by repeat split.
Qed.

Lemma Move_wp right y mcw ms s :
  pan_ok s →
  wp (Panel.Move panel set_panel world set_world right y mcw ms)
     (fun _ s' => pan_ok s' ∧ pan_step (moved_xy right y) s s' ∧
                  Panel.composited_windows_set_up_ (panel s') = true) s.
Proof.
  intros Hs. unfold Panel.Move. apply wp_gets_bind. cbn [id].
  eapply wp_cut; [eapply titlebar_win_wp; [done|intros; by apply MoveComposited_wp]|].
  intros _ s1 [Hok1 (HF1 & Hscr1 & w1 & E1 & P1)].
  eapply wp_cut; [eapply content_win_wp; [done|intros; by apply MoveComposited_wp]|].
  intros _ s2 [Hok2 (HF2 & Hscr2 & w2 & E2 & P2)].
  assert (moved_xy right y (panel s) (panel s2)) as Hmoved.
  { rewrite E2, E1. rewrite E1 in P2. by apply change_both. }
  eapply (wp_cut _ _ (fun _ s' => pan_ok s' ∧ pan_step same_panel s2 s' ∧
                                  Panel.composited_windows_set_up_ (panel s') = true)).
  { destruct (Panel.composited_windows_set_up_ (panel s)) eqn:Eup; cbn [negb]; [|by apply show_wp].
    apply wp_ret. split; [done|]. split; [reflexivity|]. by apply Hmoved. }
  intros _ s3 (Hok3 & Hst3 & Hup3).
  assert (calm (if mcw then Panel.move_client_windows_to_composited panel set_panel world set_world else mret ()))
    as Hcalm by frame.
  eapply wp_mono; [by apply (Hcalm s3)|]. intros _ s4 [Hok4 Hst4].
  assert (pan_step same_panel s2 s4) as (HF & Hscr & Hsame) by by etransitivity.
  split; [done|]. split; [|by apply Hst4]. split; [by do 2 (etransitivity; [eassumption|])|].
  split; [by do 2 (etransitivity; [eassumption|])|]. by eapply moved_same.
Qed.

(** *** Resizing *)

Abbreviation resizing := (framed pan_ok (pan_step same_windows)).
Lemma calm_resizing {A} (m : M S A) : calm m → resizing m.
Proof.
  intros Hm. eapply framed_weaken; [exact Hm|]. intros s s' (?&?&Hk&_). split; [done|]. split; [done|].
  by apply kept_same_windows.
Qed.
Lemma resizing_content_win {A} (m : M (Window.t * W) A) :
  framed win_ok (win_step reshaped) m → resizing (Panel.content_win panel set_panel world set_world m).
Proof.
  intros Hm s Hs. eapply wp_mono; [apply (content_win_wp m reshaped); [done|by apply Hm]|].
  intros a s' [Hok (HF & Hscr & w & Heq & HP)]. split; [done|]. split; [done|]. split; [done|].
  rewrite Heq. destruct (panel s). by split.
Qed.
Lemma resizing_titlebar_win {A} (m : M (Window.t * W) A) :
  framed win_ok (win_step same_xid) m → resizing (Panel.titlebar_win panel set_panel world set_world m).
Proof.
  intros Hm s Hs. eapply wp_mono; [apply (titlebar_win_wp m same_xid); [done|by apply Hm]|].
  intros a s' [Hok (HF & Hscr & w & Heq & Hx)]. split; [done|]. split; [done|]. split; [done|].
  rewrite Heq. destruct (panel s). by split.
Qed.
Lemma resizing_SetTitlebarWidth width : 0 < width →
  resizing (Panel.SetTitlebarWidth panel set_panel world set_world width).
Proof.
  intros Hw. unfold Panel.SetTitlebarWidth. apply framed_bind; [apply _|apply framed_CHECK; [apply _|by apply Z.ltb_lt]|].
  intros _. apply framed_bind; [apply _|apply calm_resizing; frame|intros p].
  apply framed_bind; [apply _| |intros _; frame]. by apply resizing_titlebar_win, renaming_ResizeClient.
Qed.
(** [ResizeContent], without telling the panel manager. *)
Lemma resizing_ResizeContent width height gravity : 0 < width → 0 < height →
  resizing (Panel.ResizeContent panel set_panel world set_world (mret ()) width height gravity).
Proof.
  intros Hw Hh. unfold Panel.ResizeContent, DCHECK. apply Z.ltb_lt in Hw as Ew, Hh as Eh. rewrite Ew, Eh.
  assert (resizing (Panel.get panel id)) as Hget by (apply calm_resizing; frame).
  assert (resizing (if dchecks then CHECK true else mret ())) as Hd by by destruct dchecks; apply framed_ret, _.
  apply framed_bind; [apply _|done|intros _]. apply framed_bind; [apply _|done|intros _].
  apply framed_bind; [apply _|done|intros p].
  apply framed_bind; [apply _|by apply resizing_content_win, roaming_ResizeClient|intros _].
  apply framed_bind; [apply _|by apply resizing_titlebar_win, renaming_ResizeClient|intros _].
  apply framed_bind; [apply _| |intros _; apply calm_resizing; frame].
  destruct (negb _); [|apply framed_ret, _]. apply framed_bind; [apply _|done|intros p'].
  apply framed_bind; [apply _| |intros _; apply calm_resizing; frame].
  intros s Hs. eapply wp_mono; [eapply titlebar_win_wp; [done|intros; by apply MoveCompositedY_wp]|].
  intros a s' [Hok (HF & Hscr & w & Heq & [(Hx & _) _])]. split; [done|]. split; [done|]. split; [done|].
  rewrite Heq. destruct (panel s). by split.
Qed.

(** *** Expanding *)

Lemma SetExpandedState_wp b s :
  pan_ok s →
  wp (Panel.SetExpandedState panel set_panel world set_world b)
     (fun _ s' => pan_ok s' ∧
        pan_step (fun r r' => kept r r' ∧ same_place (Panel.content_win_ r) (Panel.content_win_ r') ∧
                              same_place (Panel.titlebar_win_ r) (Panel.titlebar_win_ r') ∧
                              Panel.is_expanded_ r' = b) s s') s.
Proof.
  intros Hs. unfold Panel.SetExpandedState, Panel.UpdateChromeStateProperty. apply wp_gets_bind. cbn [id].
  case_bool_decide as Hb.
  - apply wp_ret. subst b. split; [done|]. by repeat split.
  - set (s1 := set_panel ((panel s) <| Panel.is_expanded_ := b |>) s).
    apply wp_modify_bind. fold s1.
    match goal with |- wp ?m _ _ => assert (calm m) as Hcalm end.
    { apply framed_bind; [apply _| |frame]. apply calm_on_world, quiet_SendMessage. done. }
    assert (pan_ok s1) as Hs1 by (unfold pan_ok, s1; by rewrite world_set_panel).
    eapply wp_mono; [by apply (Hcalm s1)|]. intros a s2 [Hok2 (HF & Hscr & Hkept & Hc & Ht & He)].
    split; [done|]. unfold s1 in HF, Hscr, Hkept, Hc, Ht, He.
    rewrite world_set_panel in Hscr. rewrite panel_set_panel in *. destruct (panel s) eqn:E.
    split; [etransitivity; [apply Fr_set_panel|exact HF]|]. split; [done|]. rewrite E.
    split; [done|]. split; [done|]. split; [done|exact He].
Qed.
End panel.

#[export] Hint Extern 0 (PanelPlace _ _ _ _ _) => apply _ : framed.
#[export] Hint Resolve calm_x calm_actor calm_get calm_ConfigureInputWindows calm_StackInputWindows calm_SetResizable
  calm_AddButtonGrab calm_RemoveButtonGrab calm_StackAtTopOfLayer : framed.
#[export] Hint Extern 1 (framed _ _ (Panel.on_world _ _ _)) => apply calm_on_world : framed.
#[export] Hint Extern 1 (framed _ _ (Panel.content_win _ _ _ _ _)) => apply calm_content_win : framed.
#[export] Hint Extern 1 (framed _ _ (Panel.titlebar_win _ _ _ _ _)) => apply calm_titlebar_win : framed.

(** ** The window manager in memory (Window.v) has the frame's laws *)

Module MemFrame.
Import MemServer MemWm.
#[global] Instance mem_build : Build := {| dchecks := true |}.
#[global] Instance mem_flags : PanelFlags := {|
  FLAGS_panel_max_width := -1; FLAGS_panel_max_height := -1; FLAGS_panel_opaque_resize := false |}.
#[global] Instance mem_consumers : HasConsumers MemWm.world := {|
  get_consumers _ := EventConsumers.empty; set_consumers _ w := w |}.

Lemma send_in_memory dest xid type data mask (c : RealXConnection.t) (w : server) :
  untrapped c w →
  ∃ b w', conn_SendClientMessageEvent dest xid type data mask (c, w) = Val (b, w') ∧ untrapped w'.1 w'.2 ∧
    windows w'.2 = windows w.
Proof.
  intros [Hold Hh]. destruct c as [r u cu g old e1 e2 e3]. cbn in Hold. subst old.
  cbn [conn_SendClientMessageEvent RealXConnection.real_conn].
  unfold RealXConnection.SendClientMessageEvent, RealXConnection.TrapErrors, RealXConnection.UntrapErrors.
  unfold RealXConnection.trapped_, RealXConnection.trapped, RealXConnection.on_x, RealXConnection.upd. mrun. cbn.
  destruct w as [ws ps h inb]. cbn in *. apply Z.eqb_neq in Hh as Hh'. rewrite Hh'. cbn.
  eexists _, _. split; [reflexivity|]. by split; [split|].
Qed.

#[global] Program Instance mem_frame : WmFrame MemWm.world := {|
  wm_ok w := untrapped w.1 w.2; wm_used xid w := xid ∈ windows w.2 |}.
Next Obligation. intros a. by destruct a. Qed.
Next Obligation. intros [] [c w] Hok; cbn; done. Qed.
Next Obligation. done. Qed.
Next Obligation. done. Qed.
Next Obligation. done. Qed.
Next Obligation. done. Qed.
Next Obligation. done. Qed.
Next Obligation. done. Qed.
Next Obligation. done. Qed.
Next Obligation. done. Qed.
Next Obligation. intros xid atom type values [c w] Hok. by eexists. Qed.
Next Obligation.
  intros dest xid type data mask [c w] Hok.
  destruct (send_in_memory dest xid type data mask c w Hok) as (b & w' & Hrun & Hok' & Hw'). exists b, w'.
  split; [done|]. split; [done|]. split; [done|]. split; [done|]. intros x. cbn. by rewrite Hw'.
Qed.

#[global] Program Instance mem_host : WmHost MemWm.world := {}.
Next Obligation. done. Qed.
Next Obligation. done. Qed.
Next Obligation. done. Qed.
Next Obligation.
  intros ???????? [c w] Hok. cbn [x_CreateWindow mem_wm fst snd].
  pose proof (is_fresh ({[0; 1000]} ∪ windows w)) as Hf. set (xid := fresh _) in *.
  split; [set_solver|]. split; [cbn; set_solver|]. split; [cbn; destruct w; cbn; set_solver|].
  split; [done|]. split; [done|]. split; [done|]. intros xid0. destruct w. cbn. set_solver.
Qed.
Next Obligation. done. Qed.
Next Obligation. done. Qed.

#[global] Instance mem_screen : WmScreen MemWm.world.
Proof. by split. Qed.

Definition layer (i : Z) : Z * Z := (i, 100 + i).
Definition stacking : StackingManager.t :=
  StackingManager.mk (list_to_map (layer <$> seqZ 0 12)) (list_to_map (layer <$> seqZ 0 12)) ∅.
Lemma stacking_complete : layers_ok stacking.
Proof.
  intros i Hi. unfold StackingManager.kNumLayers in Hi.
  assert (i = 0 ∨ i = 1 ∨ i = 2 ∨ i = 3 ∨ i = 4 ∨ i = 5 ∨ i = 6 ∨ i = 7 ∨ i = 8 ∨ i = 9 ∨ i = 10 ∨ i = 11) as Hcases by lia.
  clear Hi. repeat destruct Hcases as [->|Hcases]; [..|subst]; (split; [by eexists|done]).
Qed.
Definition win (xid : Z) : Window.t :=
  (Window.initial xid false false 1 None) <| Window.client_width_ := 200 |> <| Window.client_height_ := 100 |>.
Definition panel (content titlebar : Z) (expanded : bool) : Panel.t :=
  Panel.initial (win content) (win titlebar) expanded Window.GRAVITY_NORTHWEST
    (MotionEventCoalescer.mk 0 25 false (-1) (-1) false) (60, 61, 62, 63, 64) 9.
End MemFrame.
