(* ===== verification/PanelSafe.v ===== *)
(** * The handlers of a panel (Panel.v) do not fail.

    They run wherever the panel is, under any invariant of the whole state that
    survives what happens to one panel, and call the panel manager, which keeps it. *)

From S2P Require Import Prelude Hoare WmUtil XConnection WmIpc Double Window WmEvents Panel WmFrame.

(** ** Input windows *)

Section create.
Context {W : Type} `{WmHost W}.

Lemma CreateInputWindow_wp x y width height mask w : wm_ok w →
  wp (WindowManager.CreateInputWindow x y width height mask)
     (fun xid w' => (wm_ok w' ∧ same_screen w w') ∧ xid ≠ 0 ∧ ¬ wm_used xid w ∧ wm_used xid w') w.
Proof.
  intros Hw. unfold WindowManager.CreateInputWindow.
  pose proof (wm_create x_root x y width height true true mask w Hw) as Hnew.
  apply wp_bind. unfold wp at 1, extern at 1. destruct (x_CreateWindow _ _ _ _ _ _ _ _ w) as [xid w1].
  destruct Hnew as (Hxid & Hfresh & Hused & Hok1 & Hs1).
  apply wp_CHECK_bind; [by apply negb_true_iff, Z.eqb_neq|].
  assert (∀ r w2, wm_ok w2 → (x_do r w2).1 = true →
    wp (WindowManager.request r) (fun ok w' => ok = true ∧ wm_ok w' ∧ same_screen w2 w') w2) as Hreq.
  { intros r w2 Hw2 Htrue. pose proof (quiet_x_do r w2 Hw2) as Hq. unfold wp, WindowManager.request, extern in *.
    destruct (x_do r w2) as [b w']. by split. }
  eapply (wp_cut _ _ (fun _ w2 => wm_ok w2 ∧ same_screen w1 w2)).
  { destruct FLAGS_wm_use_compositing; [|by split; [|reflexivity]].
    eapply wp_cut; [apply Hreq; [done|by apply wm_stack_queued]|]. intros b w2 (-> & ?). by apply wp_CHECK. }
  intros _ w2 [Hok2 Hs2]. eapply wp_cut; [apply Hreq; [done|by apply wm_map_queued]|]. intros b w3 (-> & Hok3 & Hs3).
  apply wp_CHECK_bind; [done|]. apply wp_ret. split.
  - split; [done|]. etransitivity; [exact Hs1|]. by etransitivity.
  - split; [done|]. split; [done|]. by apply Hs3, Hs2.
Qed.

Definition xids_of (xids : Z * Z * Z * Z * Z) : list Z :=
  let '(a, b, c, d, e) := xids in [a; b; c; d; e].
Lemma create_input_windows_wp w : wm_ok w →
  wp Panel.create_input_windows
     (fun xids w' => (wm_ok w' ∧ same_screen w w') ∧ NoDup (xids_of xids) ∧
                     Forall (fun x => x ≠ 0 ∧ ¬ wm_used x w ∧ wm_used x w') (xids_of xids)) w.
Proof.
  intros Hw. unfold Panel.create_input_windows.
  eapply wp_cut; [by apply CreateInputWindow_wp|]. intros x1 w1 ((Hw1 & Hs1) & ? & Hf1 & Hu1).
  eapply wp_cut; [by apply CreateInputWindow_wp|]. intros x2 w2 ((Hw2 & Hs2) & ? & Hf2 & Hu2).
  eapply wp_cut; [by apply CreateInputWindow_wp|]. intros x3 w3 ((Hw3 & Hs3) & ? & Hf3 & Hu3).
  eapply wp_cut; [by apply CreateInputWindow_wp|]. intros x4 w4 ((Hw4 & Hs4) & ? & Hf4 & Hu4).
  eapply wp_cut; [by apply CreateInputWindow_wp|]. intros x5 w5 ((Hw5 & Hs5) & ? & Hf5 & Hu5).
  pose proof (proj2 (proj2 Hs1)) as M1. pose proof (proj2 (proj2 Hs2)) as M2. pose proof (proj2 (proj2 Hs3)) as M3.
  pose proof (proj2 (proj2 Hs4)) as M4. pose proof (proj2 (proj2 Hs5)) as M5.
  apply wp_ret. split; [split; [done|]; by repeat (etransitivity; [eassumption|])|]. cbn. split.
  - rewrite !NoDup_cons, !not_elem_of_cons.
    split_and!; try apply not_elem_of_nil; try apply NoDup_nil_2; intros ->; naive_solver.
  - repeat (apply Forall_cons; split; [split; [done|]; split; [naive_solver|naive_solver]|]). apply Forall_nil_2.
Qed.
End create.

Section handlers.
Context {W : Type} `{WmFrame W} `{HasConsumers W} `{PanelFlags} `{Build} {S : Type}.
Variable sm : StackingManager.t.
Variable panel : S → Panel.t.
Variable set_panel : Panel.t → S → S.
Variable world : S → W.
Variable set_world : W → S → S.
Variable Fr : S → S → Prop.
Context `{!PreOrder Fr} `{!PanelPlace panel set_panel world set_world Fr}.
Abbreviation pan_ok := (pan_ok world).
Abbreviation pan_step := (pan_step panel world Fr).
Abbreviation calm := (framed pan_ok (pan_step same_panel)).
Abbreviation resizing := (framed pan_ok (pan_step same_windows)).

(** Telling the panel manager about the new size comes last. *)
Lemma panel_ResizeContent_then (HPR : M S unit) width height gravity s :
  Panel.ResizeContent panel set_panel world set_world HPR width height gravity s =
  (Panel.ResizeContent panel set_panel world set_world (mret ()) width height gravity;; HPR) s.
Proof.
  unfold Panel.ResizeContent. do 7 (rewrite bind_assoc; apply bind_ext; intros ? ?). done.
Qed.

(** Changing the fields of a drag. *)
Lemma resizing_upd f : (∀ r, same_windows r (f r)) → resizing (Panel.upd panel set_panel f).
Proof.
  intros Hf. apply framed_modify. intros s Hs. unfold WmFrame.pan_ok, WmFrame.pan_step.
  rewrite (world_set_panel panel set_panel world set_world Fr), (panel_set_panel panel set_panel world set_world Fr).
  split; [done|]. split; [apply (Fr_set_panel panel set_panel world set_world Fr)|]. split; [reflexivity|apply Hf].
Qed.
Lemma calm_coalescer f :
  calm (MotionEventCoalescer.upd (Panel.coalescer panel) (Panel.set_coalescer panel set_panel) f).
Proof.
  apply framed_modify. intros s Hs. unfold Panel.set_coalescer, WmFrame.pan_ok, WmFrame.pan_step.
  rewrite (world_set_panel panel set_panel world set_world Fr), (panel_set_panel panel set_panel world set_world Fr).
  split; [done|]. split; [apply (Fr_set_panel panel set_panel world set_world Fr)|]. split; [reflexivity|].
  destruct (panel s). by repeat split.
Qed.
Lemma calm_timeout_add ms : calm (Panel.timeout_add world set_world ms).
Proof. apply (calm_on_world panel set_panel world set_world Fr). frame. Qed.
Lemma calm_source_remove id : calm (Panel.source_remove world set_world id).
Proof. apply (calm_on_world panel set_panel world set_world Fr). frame. Qed.
Lemma calm_Start :
  calm (MotionEventCoalescer.Start (Panel.coalescer panel) (Panel.set_coalescer panel set_panel)
          (Panel.timeout_add world set_world)).
Proof. pose proof calm_coalescer. pose proof calm_timeout_add. unfold MotionEventCoalescer.Start. frame. Qed.

(** *** A new width of the titlebar *)

Definition titled (r r' : Panel.t) : Prop :=
  same_windows r r' ∧ same_size (Panel.content_win_ r) (Panel.content_win_ r') ∧
  Panel.titlebar_height r' = Panel.titlebar_height r.
Definition tall (h : Z) (r r' : Window.t) : Prop :=
  same_xid r r' ∧ (Window.client_height_ r = h → Window.client_height_ r' = h).
#[local] Instance tall_preorder h : PreOrder (tall h).
Proof. split; [by intros ?|]. intros ??? [] []. split; [by etransitivity|auto]. Qed.
Lemma SetTitlebarWidth_wp width s : 0 < width → pan_ok s →
  wp (Panel.SetTitlebarWidth panel set_panel world set_world width) (fun _ s' => pan_ok s' ∧ pan_step titled s s') s.
Proof.
  intros Hw Hs. unfold Panel.SetTitlebarWidth. apply wp_CHECK_bind; [by apply Z.ltb_lt|]. apply wp_gets_bind. cbn [id].
  set (h := Panel.titlebar_height (panel s)).
  eapply wp_cut; [apply (titlebar_win_wp panel set_panel world set_world Fr _ (tall h)); [done|]|].
  - apply ResizeClient_framed; [apply _|intros r r' (Hx & _ & Hh)|by intros []]. split; [done|]. by rewrite Hh.
  - intros _ s1 [Hok (HF & Hscr & w & Heq & Hx & Hh)]. apply wp_ret. split; [done|]. split; [done|]. split; [done|].
    rewrite Heq. specialize (Hh eq_refl). unfold h, Panel.titlebar_height in *. destruct (panel s). cbn in *.
    split; [by split|]. by split.
Qed.

(** *** The constructor's body and the destructor *)

Lemma resizing_registrar `{!WmHost W} f : resizing (Panel.registrar panel set_panel world set_world f).
Proof.
  apply framed_modify. intros s Hs. destruct (f _) as [r c]. unfold WmFrame.pan_ok, WmFrame.pan_step.
  rewrite (panel_set_world panel set_panel world set_world Fr), (world_set_world panel set_panel world set_world Fr),
    (panel_set_panel panel set_panel world set_world Fr).
  destruct (wm_set_consumers c (world s) Hs) as (Hok & Hscr). split; [done|].
  split; [etransitivity; [apply (Fr_set_panel panel set_panel world set_world Fr)|
                          apply (Fr_set_world panel set_panel world set_world Fr)]|].
  split; [exact Hscr|]. apply kept_same_windows. destruct (panel s). by repeat split.
Qed.
Lemma resizing_calm {A} (m : M S A) : calm m → resizing m.
Proof. apply calm_resizing. Qed.
#[local] Hint Resolve resizing_registrar : framed.

Lemma set_up_safe `{!WmHost W} s : pan_ok s → has_area (Panel.content_win_ (panel s)) →
  wp (Panel.set_up panel set_panel world set_world) (fun _ s' => pan_ok s' ∧ pan_step same_windows s s') s.
Proof.
  intros Hs Harea. unfold Panel.set_up. apply wp_gets_bind. cbn [id].
  assert (∀ r, resizing (Panel.x world set_world r)) as Hx by (intros; apply resizing_calm; frame).
  assert (resizing (Panel.UpdateChromeStateProperty panel set_panel world set_world)) as Hup.
  { apply resizing_calm. unfold Panel.UpdateChromeStateProperty. frame. }
  destruct Harea as [Hw Hh].
  assert (∀ flag size, 0 < size → 0 < (if 0 <? flag then Z.min size flag else size)) as Hcap.
  { intros flag size Hsize. destruct (Z.ltb_spec 0 flag); lia. }
  assert (∀ g, resizing (Panel.content_win panel set_panel world set_world
     (Window.ResizeClient (if 0 <? FLAGS_panel_max_width then Z.min (Panel.content_width (panel s)) FLAGS_panel_max_width
                           else Panel.content_width (panel s))
                          (if 0 <? FLAGS_panel_max_height then Z.min (Panel.content_height (panel s)) FLAGS_panel_max_height
                           else Panel.content_height (panel s)) g))) as Hresize.
  { intros g. apply resizing_content_win; [apply _..|]. apply roaming_ResizeClient; by apply Hcap. }
  match goal with |- wp ?m _ _ => enough (resizing m) as Hm by exact (Hm s Hs) end. cbv zeta. frame.
Qed.

Definition same_xids (r r' : Panel.t) : Prop :=
  Panel.content_xid r' = Panel.content_xid r ∧ Panel.titlebar_xid r' = Panel.titlebar_xid r.
#[local] Instance same_xids_preorder : PreOrder same_xids.
Proof. split; [by intros ?|]. intros ??? [] []. split; congruence. Qed.
Lemma destroy_safe `{!WmHost W} (cb : M S unit) s : pan_ok s →
  wp (Panel.destroy panel set_panel world set_world cb) (fun _ s' => pan_ok s' ∧ pan_step same_xids s s') s.
Proof.
  assert (∀ A (m : M S A), resizing m → framed pan_ok (pan_step same_xids) m) as Hr.
  { intros A m Hm. eapply framed_weaken; [exact Hm|]. intros s1 s2 (?&?&[Hc _]&Ht&_). done. }
  assert (∀ A (m : M S A), calm m → framed pan_ok (pan_step same_xids) m) as Hc.
  { intros A m Hm. by apply Hr, resizing_calm. }
  assert (framed pan_ok (pan_step same_xids) (Panel.upd panel set_panel (fun p => p <| Panel.drag_xid_ := 0 |>))) as Hupd.
  { apply framed_modify. intros s1 Hs1. unfold WmFrame.pan_ok, WmFrame.pan_step.
    rewrite (world_set_panel panel set_panel world set_world Fr), (panel_set_panel panel set_panel world set_world Fr).
    split; [done|]. split; [apply (Fr_set_panel panel set_panel world set_world Fr)|]. split; [reflexivity|].
    by destruct (panel s1). }
  revert s. change (framed pan_ok (pan_step same_xids) (Panel.destroy panel set_panel world set_world cb)).
  assert (∀ r, framed pan_ok (pan_step same_xids) (Panel.x world set_world r)) by (intros; apply Hc; frame).
  assert (∀ a c, framed pan_ok (pan_step same_xids) (Panel.actor world set_world a c)) by (intros; apply Hc; frame).
  assert (framed pan_ok (pan_step same_xids) (Panel.content_win panel set_panel world set_world Window.RemoveButtonGrab))
    by (apply Hc; frame).
  pose proof (fun f => Hr _ _ (resizing_registrar f)). pose proof (fun id => Hc _ _ (calm_source_remove id)).
  pose proof (fun f => Hc _ _ (calm_coalescer f)).
  unfold Panel.destroy, MotionEventCoalescer.destroy, MotionEventCoalescer.StopInternal. frame.
Qed.

Variable I : S → Prop.
Variable R : S → S → Prop.
Context `{!PreOrder R}.
Hypothesis I_ok : ∀ s, I s → pan_ok s ∧ resize_ok (panel s).
Hypothesis I_moves : ∀ s s', I s → pan_ok s' → pan_step same_windows s s' → I s' ∧ R s s'.
Variable HandlePanelResize : M S unit.
Hypothesis HandlePanelResize_safe : framed I R HandlePanelResize.
Abbreviation safe := (framed I R).

Lemma local {A} (m : M S A) : resizing m → safe m.
Proof. intros Hm s Hs. eapply wp_mono; [by apply Hm, I_ok|]. intros a s' [??]. by apply I_moves. Qed.
Lemma safe_calm {A} (m : M S A) : calm m → safe m.
Proof. intros Hm. by apply local, calm_resizing. Qed.
Lemma safe_get_panel {A} (f : Panel.t → A) : safe (Panel.get panel f).
Proof. apply framed_gets, _. Qed.
#[local] Hint Resolve safe_get_panel : framed.

Lemma safe_ResizeContent width height gravity : 0 < width → 0 < height →
  safe (Panel.ResizeContent panel set_panel world set_world HandlePanelResize width height gravity).
Proof.
  intros Hw Hh s Hs. unfold wp. rewrite panel_ResizeContent_then.
  assert (safe (Panel.ResizeContent panel set_panel world set_world (mret ()) width height gravity;; HandlePanelResize))
    as Hboth; [|exact (Hboth s Hs)].
  apply framed_bind; [apply _| |done]. by apply local, resizing_ResizeContent.
Qed.
Lemma safe_HandleWindowConfigureRequest xid width height : 0 < width → 0 < height →
  safe (Panel.HandleWindowConfigureRequest panel set_panel world set_world HandlePanelResize xid width height).
Proof.
  intros Hw Hh. unfold Panel.HandleWindowConfigureRequest. pose proof (fun g => safe_ResizeContent width height g Hw Hh).
  frame.
Qed.

(** *** Dragging the border *)

Lemma safe_panel_actor a c : safe (Panel.actor world set_world a c).
Proof. apply safe_calm. frame. Qed.
#[local] Hint Resolve safe_panel_actor : framed.
Lemma safe_panel_get_bind {A B} (f : Panel.t → A) (k : A → M S B) :
  (∀ s, I s → safe (k (f (panel s)))) → safe (Panel.get panel f ≫= k).
Proof. intros Hk s Hs. apply wp_gets_bind. by apply Hk. Qed.

Lemma safe_ApplyResize : safe (Panel.ApplyResize panel set_panel world set_world HandlePanelResize).
Proof.
  unfold Panel.ApplyResize. apply framed_bind; [apply _|frame|intros p]. destruct (Panel.drag_of _ _ _) as [[g dx] dy].
  apply framed_bind; [apply _| |intros _].
  - apply local, resizing_upd. intros r. destruct r. split; [by split|]. split; [done|]. split; [done|]. split; [done|].
    intros (?&?&?). unfold Panel.kPanelMinWidth, Panel.kPanelMinHeight, resize_ok in *. cbn in *. split; [lia|]. by split; [lia|].
  - apply safe_panel_get_bind. intros s Hs. cbn [id]. destruct (I_ok s Hs) as (_ & Hw & Hh & _).
    pose proof (safe_ResizeContent (Panel.drag_last_width_ (panel s)) (Panel.drag_last_height_ (panel s)) g Hw Hh).
    cbv zeta. frame.
Qed.
Lemma safe_coalescer f :
  safe (MotionEventCoalescer.upd (Panel.coalescer panel) (Panel.set_coalescer panel set_panel) f).
Proof. apply safe_calm, calm_coalescer. Qed.
#[local] Hint Resolve safe_ApplyResize safe_coalescer : framed.
Lemma safe_panel_HandleTimer :
  safe (MotionEventCoalescer.HandleTimer (Panel.coalescer panel) (Panel.set_coalescer panel set_panel)
          (Panel.ApplyResize panel set_panel world set_world HandlePanelResize)).
Proof. unfold MotionEventCoalescer.HandleTimer. frame. Qed.
#[local] Hint Resolve safe_panel_HandleTimer : framed.
Lemma safe_panel_StorePosition px py :
  safe (MotionEventCoalescer.StorePosition (Panel.coalescer panel) (Panel.set_coalescer panel set_panel)
          (Panel.ApplyResize panel set_panel world set_world HandlePanelResize) px py).
Proof. unfold MotionEventCoalescer.StorePosition. frame. Qed.
Lemma safe_panel_Stop :
  safe (MotionEventCoalescer.Stop (Panel.coalescer panel) (Panel.set_coalescer panel set_panel)
          (Panel.ApplyResize panel set_panel world set_world HandlePanelResize) (Panel.source_remove world set_world)).
Proof.
  unfold MotionEventCoalescer.Stop, MotionEventCoalescer.StopInternal.
  assert (∀ id, safe (Panel.source_remove world set_world id)) by (intros; apply safe_calm, calm_source_remove). frame.
Qed.
#[local] Hint Resolve safe_panel_StorePosition safe_panel_Stop : framed.
Lemma safe_HandleInputWindowPointerMotion xid px py :
  safe (Panel.HandleInputWindowPointerMotion panel set_panel world set_world HandlePanelResize xid px py).
Proof. unfold Panel.HandleInputWindowPointerMotion. frame. Qed.

(** Without opaque resizing a drag only moves the outline until the button is released. *)
Definition same_drag (r r' : Panel.t) : Prop :=
  same_windows r r' ∧ Panel.drag_xid_ r' = Panel.drag_xid_ r ∧ Panel.resize_actor_ r' = Panel.resize_actor_ r.
#[local] Instance same_drag_preorder : PreOrder same_drag.
Proof. split; [by split|]. intros ??? (?&?&?) (?&?&?). split; [by etransitivity|]. split; congruence. Qed.
Abbreviation outlining := (framed pan_ok (pan_step same_drag)).
Lemma calm_outlining {A} (m : M S A) : calm m → outlining m.
Proof.
  intros Hm. eapply framed_weaken; [exact Hm|]. intros s s' (?&?&Hk&_). split; [done|]. split; [done|].
  split; [by apply kept_same_windows|]. destruct Hk as (_&_&_&_&[= -> _ _ ->]). done.
Qed.
Lemma outlining_upd f : (∀ r, same_drag r (f r)) → outlining (Panel.upd panel set_panel f).
Proof.
  intros Hf. apply framed_modify. intros s Hs. unfold WmFrame.pan_ok, WmFrame.pan_step.
  rewrite (world_set_panel panel set_panel world set_world Fr), (panel_set_panel panel set_panel world set_world Fr).
  split; [done|]. split; [apply (Fr_set_panel panel set_panel world set_world Fr)|]. split; [reflexivity|apply Hf].
Qed.
Lemma outlining_StorePosition_Stop px py : FLAGS_panel_opaque_resize = false →
  let cb := Panel.ApplyResize panel set_panel world set_world HandlePanelResize in
  outlining (a ← MotionEventCoalescer.StorePosition (Panel.coalescer panel) (Panel.set_coalescer panel set_panel) cb px py;
             b ← MotionEventCoalescer.Stop (Panel.coalescer panel) (Panel.set_coalescer panel set_panel) cb
                   (Panel.source_remove world set_world);
             mret (a, b)).
Proof.
  intros Hflag cb. assert (outlining cb) as Hcb.
  { unfold cb, Panel.ApplyResize. rewrite Hflag.
    assert (∀ a c, outlining (Panel.actor world set_world a c)) by (intros; apply calm_outlining; frame).
    apply framed_bind; [apply _|frame|intros p]. destruct (Panel.drag_of _ _ _) as [[g dx] dy].
    apply framed_bind; [apply _| |intros _; cbv zeta; frame].
    apply outlining_upd. intros r. destruct r. split; [|done]. split; [by split|]. split; [done|]. split; [done|].
    split; [done|]. intros (?&?&?).
    unfold Panel.kPanelMinWidth, Panel.kPanelMinHeight, resize_ok in *. cbn in *. split; [lia|]. by split; [lia|]. }
  pose proof (fun f => calm_outlining _ (calm_coalescer f)). pose proof (fun id => calm_outlining _ (calm_source_remove id)).
  unfold MotionEventCoalescer.StorePosition, MotionEventCoalescer.Stop, MotionEventCoalescer.StopInternal,
    MotionEventCoalescer.HandleTimer. frame.
Qed.

Lemma drag_ends r r' : same_panel (r <| Panel.drag_xid_ := 0 |>) r' →
  same_windows r (r' <| Panel.resize_actor_ := None |>).
Proof.
  intros ((Hc & Ht & Hup & Hin & Hst) & _). apply same_size_reshaped in Hc. destruct r, r'. unfold same_windows. cbn in *.
  split; [done|]. split; [apply Ht|]. split; [done|]. split; [done|]. unfold resize_ok, resize_state in *. cbn in *.
  injection Hst as -> -> -> _. tauto.
Qed.
Lemma drag_begins r0 r a r' xid px py w h :
  xid ≠ 0 → 0 < w → 0 < h → FLAGS_panel_opaque_resize = false →
  same_panel (r0 <| Panel.drag_xid_ := xid |> <| Panel.drag_start_x_ := px |> <| Panel.drag_start_y_ := py |>
                 <| Panel.drag_orig_width_ := w |> <| Panel.drag_last_width_ := w |>
                 <| Panel.drag_orig_height_ := h |> <| Panel.drag_last_height_ := h |>) r →
  same_panel (r <| Panel.resize_actor_ := Some a |>) r' → same_windows r0 r'.
Proof.
  intros Hxid Hw Hh Hflag ((Hc & Ht & Hup & Hin & Hst) & _) ((Hc' & Ht' & Hup' & Hin' & Hst') & _).
  apply same_size_reshaped in Hc, Hc'. destruct Ht as [Ht _], Ht' as [Ht' _].
  destruct r0, r, r'. unfold same_windows. cbn in *.
  split; [by etransitivity|]. split; [unfold Panel.titlebar_xid; cbn; congruence|].
  split; [unfold Panel.GetInputWindows in *; cbn in *; congruence|]. split; [auto|].
  unfold resize_ok, resize_state in *. cbn in *. rewrite Hflag.
  injection Hst as -> -> -> _. injection Hst' as -> -> -> ->. intros _. split; [done|]. split; [done|]. naive_solver.
Qed.

Lemma drag_begins_opaque r0 r1 r :
  FLAGS_panel_opaque_resize = true → 0 < Panel.drag_last_width_ r1 → 0 < Panel.drag_last_height_ r1 →
  Panel.content_win_ r1 = Panel.content_win_ r0 ∧ Panel.titlebar_win_ r1 = Panel.titlebar_win_ r0 →
  Panel.GetInputWindows r1 = Panel.GetInputWindows r0 ∧
  Panel.composited_windows_set_up_ r1 = Panel.composited_windows_set_up_ r0 →
  Panel.resize_actor_ r1 = None → same_panel r1 r → same_windows r0 r.
Proof.
  intros Hflag Hw Hh [Ec Et] [Ei Eu] Ha ((Hc & Ht & Hup & Hin & Hst) & _). apply same_size_reshaped in Hc.
  destruct Ht as [Ht _]. split; [by rewrite <-Ec|]. split; [unfold Panel.titlebar_xid in *; congruence|].
  split; [congruence|]. split; [rewrite <-Eu; auto|]. intros _. unfold resize_ok, resize_state in *.
  injection Hst as _ -> -> ->. rewrite Hflag, Ha. tauto.
Qed.

Lemma panel_ButtonRelease_safe xid px py button : xid ≠ 0 →
  safe (Panel.HandleInputWindowButtonRelease panel set_panel world set_world HandlePanelResize xid px py button).
Proof.
  intros Hxid. unfold Panel.HandleInputWindowButtonRelease. destruct (negb (button =? 1)); [frame|].
  intros s Hs. apply wp_gets_bind. cbn [id]. destruct (Z.eqb_spec xid (Panel.drag_xid_ (panel s))) as [Hd|_]; cbn [negb];
    [|split; [done|reflexivity]]. destruct (I_ok s Hs) as [Hok Hr].
  destruct FLAGS_panel_opaque_resize eqn:Hflag.
  - match goal with |- wp ?m _ _ => enough (safe m) as Hm by exact (Hm s Hs) end.
    apply framed_bind; [apply _|frame|intros _]. apply framed_bind; [apply _|frame|intros _].
    apply framed_bind; [apply _| |frame]. apply local, resizing_upd. intros []. split; [by split|]. split; [done|].
    split; [done|]. split; [done|]. unfold resize_ok. rewrite Hflag. cbn. tauto.
  - eapply wp_pair; [by apply (outlining_StorePosition_Stop px py Hflag s Hok)|].
    intros _ _ s1 [Hok1 (HF1 & Hscr1 & Hsame & Hd1 & Ha1)].
    assert (resize_ok (panel s1)) as (Hw & Hh & Ha) by by apply Hsame. rewrite Hflag in Ha.
    destruct (Panel.resize_actor_ (panel s1)) as [a|] eqn:Ea; [|exfalso; destruct Ha as [[?|?] _]; congruence].
    unfold Panel.upd. apply wp_modify_bind. set (s2 := set_panel _ s1).
    assert (panel s2 = (panel s1) <| Panel.drag_xid_ := 0 |>) as E2
      by apply (panel_set_panel panel set_panel world set_world Fr).
    assert (world s2 = world s1) as W2 by apply (world_set_panel panel set_panel world set_world Fr).
    unfold Panel.get. apply wp_gets_bind. cbn [id]. rewrite E2.
    replace (Panel.resize_actor_ _) with (Some a) by (destruct (panel s1); cbn in *; congruence).
    eapply wp_cut; [instantiate (1 := fun _ s' => s' = s2); unfold DCHECK; by destruct dchecks|]. intros _ ? ->.
    assert (pan_ok s2) as Hok2 by (unfold WmFrame.pan_ok; by rewrite W2).
    eapply wp_cut; [by apply (calm_actor panel set_panel world set_world Fr a DeleteActor s2)|].
    intros _ s3 [Hok3 (HF3 & Hscr3 & Hsame3)]. apply wp_modify_bind. set (s4 := set_panel _ s3).
    assert (panel s4 = (panel s3) <| Panel.resize_actor_ := None |>) as E4
      by apply (panel_set_panel panel set_panel world set_world Fr).
    assert (world s4 = world s3) as W4 by apply (world_set_panel panel set_panel world set_world Fr).
    destruct (I_moves s s4 Hs) as [Hs4 HR4].
    { unfold WmFrame.pan_ok. by rewrite W4. }
    { split; [|split].
      - etransitivity; [exact HF1|]. etransitivity; [apply (Fr_set_panel panel set_panel world set_world Fr)|].
        etransitivity; [exact HF3|]. apply (Fr_set_panel panel set_panel world set_world Fr).
      - rewrite W4. etransitivity; [exact Hscr1|]. by rewrite <-W2.
      - etransitivity; [exact Hsame|]. rewrite E4. rewrite E2 in Hsame3. by apply (drag_ends _ (panel s3)). }
    eapply wp_mono; [apply (safe_ResizeContent _ _ _ Hw Hh s4 Hs4)|].
    intros _ s5 [??]. split; [done|by etransitivity].
Qed.

(** The button goes down while no drag is under way. *)
Lemma panel_ButtonPress_safe xid px py button s :
  layers_ok sm → xid ≠ 0 → I s → has_area (Panel.content_win_ (panel s)) →
  (button = 1 → Panel.drag_xid_ (panel s) = 0) →
  wp (Panel.HandleInputWindowButtonPress sm panel set_panel world set_world xid px py button)
     (fun _ s' => I s' ∧ R s s') s.
Proof.
  intros Hsm Hxid Hs [Hw Hh] Hfree. unfold Panel.HandleInputWindowButtonPress.
  destruct (Z.eqb_spec button 1) as [Hb|_]; cbn [negb]; [|split; [done|reflexivity]]. specialize (Hfree Hb).
  destruct (I_ok s Hs) as [Hok (_ & _ & Hact)]. apply wp_gets_bind. cbn [id]. rewrite Hfree, Z.eqb_refl.
  eapply wp_cut; [instantiate (1 := fun _ s' => s' = s); unfold DCHECK; by destruct dchecks|]. intros _ ? ->.
  unfold Panel.upd. apply wp_modify_bind. set (s1 := set_panel _ s).
  set (r1 := _ : Panel.t) in (value of s1).
  assert (panel s1 = r1) as E1 by apply (panel_set_panel panel set_panel world set_world Fr).
  assert (world s1 = world s) as W1 by apply (world_set_panel panel set_panel world set_world Fr).
  assert (Fr s s1) as F1 by apply (Fr_set_panel panel set_panel world set_world Fr).
  assert (pan_ok s1) as Hok1 by (unfold WmFrame.pan_ok; by rewrite W1).
  eapply wp_cut; [by apply (calm_Start s1)|]. intros _ s2 [Hok2 (HF2 & Hscr2 & Hsame2)]. rewrite E1 in Hsame2.
  destruct FLAGS_panel_opaque_resize eqn:Hflag.
  - apply wp_ret, I_moves; [done|done|]. split; [by etransitivity|]. split; [by rewrite <-W1|].
    apply drag_begins_opaque with (r1 := r1); [done|done|done|by destruct (panel s)|by destruct (panel s)| |exact Hsame2].
    unfold r1. destruct (panel s). cbn in *. tauto.
  - unfold Panel.get. apply wp_gets_bind. cbn [id].
    assert (Panel.resize_actor_ (panel s2) = None) as Hnone.
    { destruct Hsame2 as ((_&_&_&_&[= _ _ _ ->])&_). unfold r1. destruct (panel s). cbn in *. tauto. }
    rewrite Hnone.
    eapply wp_cut; [instantiate (1 := fun _ s' => s' = s2); unfold DCHECK; by destruct dchecks|]. intros _ ? ->.
    eapply wp_cut; [apply (calm_on_world panel set_panel world set_world Fr _ quiet_new_rectangle s2 Hok2)|].
    intros a s3 [Hok3 (HF3 & Hscr3 & Hsame3)]. apply wp_ret_bind, wp_modify_bind. set (s4 := set_panel _ s3).
    assert (panel s4 = (panel s3) <| Panel.resize_actor_ := Some a |>) as E4
      by apply (panel_set_panel panel set_panel world set_world Fr).
    assert (world s4 = world s3) as W4 by apply (world_set_panel panel set_panel world set_world Fr).
    assert (Fr s3 s4) as F4 by apply (Fr_set_panel panel set_panel world set_world Fr).
    assert (pan_ok s4) as Hok4 by (unfold WmFrame.pan_ok; by rewrite W4).
    match goal with |- wp ?m _ _ => assert (calm m) as Hcalm end.
    { apply framed_bind; [apply _|frame|intros _]. apply framed_bind; [apply _|frame|intros _].
      apply framed_bind; [apply _|frame|intros _]. apply framed_bind; [apply _|frame|intros _].
      apply framed_bind; [apply _|frame|intros _]. apply framed_bind; [apply _| |frame].
      apply (calm_on_world panel set_panel world set_world Fr). unfold StackingManager.StackActorAtTopOfLayer.
      apply framed_bind; [apply _|apply framed_GetActorForLayer; [apply _|done|done]|frame]. }
    eapply wp_mono; [by apply (Hcalm s4)|]. intros _ s5 [Hok5 (HF5 & Hscr5 & Hsame5)]. rewrite E4 in Hsame5.
    apply I_moves; [done|done|]. split; [|split].
    + by do 4 (etransitivity; [eassumption|]).
    + rewrite <-W1. etransitivity; [exact Hscr2|]. etransitivity; [exact Hscr3|]. by rewrite <-W4.
    + eapply (drag_begins (panel s) (panel s3) a); [exact Hxid|exact Hw|exact Hh|done| |exact Hsame5]. by etransitivity.
Qed.
End handlers.
