(* ===== verification/PanelHeap.v ===== *)
(** * Panels on the heap, shared by the panel manager and its containers.

    A [Panel*] is an address; following the address of a panel that is gone is
    undefined behaviour.  The operations run in any state [S] that has the heap and
    the world. *)

From S2P Require Import Prelude WmUtil XConnection WmIpc Double Window WmEvents Panel.

Class PanelStore (S W : Type) := {
  heap : S → gmap Z Panel.t;
  set_heap : gmap Z Panel.t → S → S;
  world : S → W;
  set_world : W → S → S
}.

(** What is read through a pointer that is not checked. *)
Definition no_window : Window.t := Window.initial 0 false false 0 None.
Definition no_panel : Panel.t :=
  Panel.initial no_window no_window false Window.GRAVITY_NORTHWEST
    (MotionEventCoalescer.mk 0 0 false 0 0 false) (0, 0, 0, 0, 0) 0.

(** [std::find] in a vector of panels: the end when there is none. *)
Definition position_of (p : Z) (l : list Z) : nat := default (length l) (fst <$> list_find (eq p) l).

(** ** Calling a panel through a pointer *)

Module PanelRef.
Section panel_ref.
Context `{Build} `{PanelFlags} {W : Type} `{Wm W} `{HasConsumers W} {S : Type} `{PanelStore S W}.
Variable stacking_manager : StackingManager.t.

Definition panel_at (p : Z) (s : S) : Panel.t := default no_panel (heap s !! p).
Definition set_at (p : Z) (r : Panel.t) (s : S) : S := set_heap (<[p := r]> (heap s)) s.
Definition look (p : Z) : M S Panel.t :=
  h ← gets heap;
  match h !! p with Some r => mret r | None => fail Undefined end.
Fixpoint looks (ps : list Z) : M S (list (Z * Panel.t)) :=
  match ps with
  | [] => mret []
  | p :: l => r ← look p; rs ← looks l; mret ((p, r) :: rs)
  end.
Definition on_world {A} (m : M W A) : M S A := zoom world set_world m.
Definition x (r : XRequest) : M S bool := on_world (extern (x_do r)).

(** [p->op(...)]. *)
Definition call {A} (op : (S → Panel.t) → (Panel.t → S → S) → (S → W) → (W → S → S) → M S A) (p : Z) : M S A :=
  look p;; op (panel_at p) (set_at p) world set_world.

Definition Move p right y mcw ms := call (fun f sf w sw => Panel.Move f sf w sw right y mcw ms) p.
Definition MoveX p right mcw ms := call (fun f sf w sw => Panel.MoveX f sf w sw right mcw ms) p.
Definition MoveY p y mcw ms := call (fun f sf w sw => Panel.MoveY f sf w sw y mcw ms) p.
Definition SetResizable p resizable := call (fun f sf w sw => Panel.SetResizable f sf w sw resizable) p.
Definition SetExpandedState p expanded := call (fun f sf w sw => Panel.SetExpandedState f sf w sw expanded) p.
Definition StackAtTopOfLayer p layer :=
  call (fun f sf w sw => Panel.StackAtTopOfLayer stacking_manager f sf w sw layer) p.
Definition StackAbovePanel p (sibling : Panel.t) layer :=
  call (fun f sf w sw => Panel.StackAbovePanel stacking_manager f sf w sw sibling layer) p.
Definition SetShadowOpacity p opacity ms := call (fun f sf w sw => Panel.SetShadowOpacity f sf w sw opacity ms) p.
Definition SetTitlebarWidth p width := call (fun f sf w sw => Panel.SetTitlebarWidth f sf w sw width) p.
(** The panel tells the panel manager of its new size. *)
Definition ResizeContent (HandlePanelResize : M S unit) p width height gravity :=
  call (fun f sf w sw => Panel.ResizeContent f sf w sw HandlePanelResize width height gravity) p.
Definition AddButtonGrab p := call (fun f sf w sw => Panel.AddButtonGrab f sf w sw) p.
Definition RemoveButtonGrab p remove := call (fun f sf w sw => Panel.RemoveButtonGrab f sf w sw remove) p.
Definition content_win {A} p (m : M (Window.t * W) A) : M S A :=
  call (fun f sf w sw => Panel.content_win f sf w sw m) p.
End panel_ref.
End PanelRef.

(** [PanelContainer::PanelSource]. *)
Inductive PanelSource := PANEL_SOURCE_NEW | PANEL_SOURCE_DRAGGED | PANEL_SOURCE_DROPPED.
#[global] Instance PanelSource_eq_dec : EqDecision PanelSource.
Proof. solve_decision. Defined.

(** [PanelContainer]: what the panel manager calls.  A press, release, enter or leave
    has the window's XID and the position (x, y) in it and on the root. *)
Module Container.
Record t (S : Type) := mkContainer {
  GetInputWindows : S → list Z;
  AddPanel : Z → PanelSource → M S unit;
  RemovePanel : Z → M S unit;
  ShouldAddDraggedPanel : Z → Z → Z → M S bool;
  HandleInputWindowButtonPress (xid x y x_root y_root button timestamp : Z) : M S unit;
  HandleInputWindowButtonRelease (xid x y x_root y_root button timestamp : Z) : M S unit;
  HandleInputWindowPointerEnter (xid x y x_root y_root timestamp : Z) : M S unit;
  HandleInputWindowPointerLeave (xid x y x_root y_root timestamp : Z) : M S unit;
  HandlePanelButtonPress (panel button timestamp : Z) : M S unit;
  HandlePanelTitlebarPointerEnter (panel timestamp : Z) : M S unit;
  HandlePanelFocusChange (panel : Z) (focus_in : bool) : M S unit;
  HandleSetPanelStateMessage (panel : Z) (expand : bool) : M S unit;
  HandleNotifyPanelDraggedMessage (panel drag_x drag_y : Z) : M S bool;
  HandleNotifyPanelDragCompleteMessage (panel : Z) : M S unit;
  HandleFocusPanelMessage (panel : Z) : M S unit;
  HandlePanelResize (panel : Z) : M S unit;
  HandleScreenResize : M S unit;
  HandlePanelUrgencyChange (panel : Z) : M S unit
}.
Arguments GetInputWindows {S} _.
Arguments AddPanel {S} _.
Arguments RemovePanel {S} _.
Arguments ShouldAddDraggedPanel {S} _.
Arguments HandleInputWindowButtonPress {S} _.
Arguments HandleInputWindowButtonRelease {S} _.
Arguments HandleInputWindowPointerEnter {S} _.
Arguments HandleInputWindowPointerLeave {S} _.
Arguments HandlePanelButtonPress {S} _.
Arguments HandlePanelTitlebarPointerEnter {S} _.
Arguments HandlePanelFocusChange {S} _.
Arguments HandleSetPanelStateMessage {S} _.
Arguments HandleNotifyPanelDraggedMessage {S} _.
Arguments HandleNotifyPanelDragCompleteMessage {S} _.
Arguments HandleFocusPanelMessage {S} _.
Arguments HandlePanelResize {S} _.
Arguments HandleScreenResize {S} _.
Arguments HandlePanelUrgencyChange {S} _.
End Container.
