(* ===== verification/PanelHeapSafe.v ===== *)
(** * What using the panels on the heap leaves alone.

    A container of panels is a part of the state beside the heap, the world and the
    rest ([PartPlace]).  An invariant that only looks at the part, and survives what
    other panels and the world may do ([Holds]), survives every operation of a panel
    called through its address. *)

From S2P Require Import Prelude Hoare WmUtil XConnection WmIpc Double Window WmEvents Panel WmFrame PanelHeap.
Import PanelRef.

Lemma position_of_spec p l : p ∈ l → l !! position_of p l = Some p.
Proof.
  intros Hp. unfold position_of. destruct (list_find (eq p) l) as [[i q]|] eqn:E; cbn.
  - apply list_find_Some in E as (Hl & <- & _). done.
  - apply list_find_None in E. rewrite Forall_forall in E. by destruct (E p Hp).
Qed.
Lemma position_of_middle p l k : p ∉ l → position_of p (l ++ p :: k) = length l.
Proof.
  intros Hp. unfold position_of.
  rewrite list_find_app_r by (apply list_find_None, Forall_forall; intros q Hq <-; by apply Hp).
  cbn. rewrite decide_True by done. cbn. lia.
Qed.

Lemma position_of_absent p l : p ∉ l → position_of p l = length l.
Proof.
  intros Hp. unfold position_of. replace (list_find (eq p) l) with (@None (nat * Z)); [done|].
  symmetry. apply list_find_None, Forall_forall. by intros q Hq <-.
Qed.

(** The heap, the world and the part are independent; [rest] relates states that
    agree on everything else. *)
Class PartPlace (S W C : Type) `{PanelStore S W} (part : S → C) (set_part : C → S → S) (rest : S → S → Prop) := {
  heap_set_heap h s : heap (set_heap h s) = h;
  world_set_heap h s : world (set_heap h s) = world s;
  part_set_heap h s : part (set_heap h s) = part s;
  heap_set_world w s : heap (set_world w s) = heap s;
  world_set_world' w s : world (set_world w s) = w;
  part_set_world w s : part (set_world w s) = part s;
  heap_set_part c s : heap (set_part c s) = heap s;
  world_set_part c s : world (set_part c s) = world s;
  part_set_part c s : part (set_part c s) = c;
  rest_preorder :: PreOrder rest;
  rest_set_heap h s : rest s (set_heap h s);
  rest_set_world w s : rest s (set_world w s);
  rest_set_part c s : rest s (set_part c s)
}.

Section part.
Context `{Build} `{PanelFlags} {W : Type} `{WmFrame W} `{HasConsumers W} {S : Type} `{PanelStore S W} {C : Type}.
Variable part : S → C.
Variable set_part : C → S → S.
Variable rest : S → S → Prop.
Context `{!PartPlace S W C part set_part rest}.

(** ** One panel of the heap as a place of its own *)

Definition elsewhere (p : Z) (s s' : S) : Prop :=
  part s' = part s ∧ delete p (heap s') = delete p (heap s) ∧ (is_Some (heap s !! p) → is_Some (heap s' !! p)) ∧
  rest s s'.
#[global] Instance elsewhere_preorder p : PreOrder (elsewhere p).
Proof.
  split; [by intros ?|]. intros ??? (?&?&?&?) (?&?&?&?).
  split; [congruence|split; [congruence|split; [auto|by etransitivity]]].
Qed.
#[global] Instance panel_place p : PanelPlace (panel_at p) (set_at p) world set_world (elsewhere p).
Proof.
  split; intros; unfold panel_at, set_at, elsewhere;
    rewrite ?heap_set_heap, ?world_set_heap, ?part_set_heap, ?heap_set_world, ?world_set_world', ?part_set_world,
      ?lookup_insert_eq, ?delete_insert_eq; try done; (split; [done|split; [done|split; [done|]]]);
    [apply rest_set_heap|apply rest_set_world].
Qed.

(** What may have happened to the panels. *)
Definition heap_kept (s s' : S) : Prop :=
  ∀ q r, heap s !! q = Some r → ∃ r', heap s' !! q = Some r' ∧ kept r r'.
Definition keep (s s' : S) : Prop :=
  same_screen (world s) (world s') ∧ heap_kept s s' ∧ dom (heap s') = dom (heap s) ∧ rest s s'.
#[global] Instance heap_kept_preorder : PreOrder heap_kept.
Proof.
  split; [intros s q r Hq; by exists r|]. intros s1 s2 s3 Hh1 Hh2 q r Hq.
  destruct (Hh1 q r Hq) as (r2 & Hq2 & Hk2). destruct (Hh2 q r2 Hq2) as (r3 & Hq3 & Hk3).
  exists r3. split; [done|by etransitivity].
Qed.
#[global] Instance keep_preorder : PreOrder keep.
Proof.
  split; [intros s; split; [reflexivity|]; split; [reflexivity|by split]|].
  intros s1 s2 s3 (Hw1 & Hh1 & Hd1 & Hr1) (Hw2 & Hh2 & Hd2 & Hr2).
  split; [by etransitivity|]. split; [by etransitivity|]. split; [congruence|by etransitivity].
Qed.
(** ... and when panels may get new sizes. *)
Definition heap_lives (s s' : S) : Prop :=
  ∀ q r, heap s !! q = Some r → ∃ r', heap s' !! q = Some r' ∧ same_windows r r'.
Definition live (s s' : S) : Prop :=
  same_screen (world s) (world s') ∧ heap_lives s s' ∧ dom (heap s') = dom (heap s) ∧ rest s s'.
#[global] Instance heap_lives_preorder : PreOrder heap_lives.
Proof.
  split; [intros s q r Hq; by exists r|]. intros s1 s2 s3 Hh1 Hh2 q r Hq.
  destruct (Hh1 q r Hq) as (r2 & Hq2 & Hk2). destruct (Hh2 q r2 Hq2) as (r3 & Hq3 & Hk3).
  exists r3. split; [done|by etransitivity].
Qed.
#[global] Instance live_preorder : PreOrder live.
Proof.
  split; [intros s; split; [reflexivity|]; split; [reflexivity|by split]|].
  intros s1 s2 s3 (Hw1 & Hh1 & Hd1 & Hr1) (Hw2 & Hh2 & Hd2 & Hr2).
  split; [by etransitivity|]. split; [by etransitivity|]. split; [congruence|by etransitivity].
Qed.
Lemma heap_kept_lives s s' : heap_kept s s' → heap_lives s s'.
Proof. intros Hk q r Hq. destruct (Hk q r Hq) as (r' & Hr' & Hkept). exists r'. split; [done|by apply kept_same_windows]. Qed.
Lemma keep_live s s' : keep s s' → live s s'.
Proof. intros (?&?&?&?). split; [done|]. split; [by apply heap_kept_lives|done]. Qed.
Lemma heap_kept_same s s' : heap s' = heap s → heap_kept s s'.
Proof. intros Hh q r Hq. exists r. by rewrite Hh. Qed.
Lemma keep_same s s' : same_screen (world s) (world s') → heap s' = heap s → rest s s' → keep s s'.
Proof.
  intros Hscr Hh Hr. split; [done|]. split; [by apply heap_kept_same|]. by rewrite Hh.
Qed.
Lemma keep_set_part c s : keep s (set_part c s).
Proof. apply keep_same; [by rewrite world_set_part|by rewrite heap_set_part|apply rest_set_part]. Qed.

(** Only panel [p] was touched. *)
Definition touched (p : Z) (P : Panel.t → Panel.t → Prop) (s s' : S) : Prop :=
  part s' = part s ∧ same_screen (world s) (world s') ∧ (∀ q, q ≠ p → heap s' !! q = heap s !! q) ∧ rest s s' ∧
  ∃ r r', heap s !! p = Some r ∧ heap s' !! p = Some r' ∧ P r r'.

Lemma look_wp p r Q s : heap s !! p = Some r → Q r s → wp (look p) Q s.
Proof. intros Hr HQ. unfold look. apply wp_gets_bind. by rewrite Hr. Qed.

Lemma call_wp {A} (op : (S → Panel.t) → (Panel.t → S → S) → (S → W) → (W → S → S) → M S A) p r P s :
  heap s !! p = Some r →
  wp (op (panel_at p) (set_at p) world set_world)
     (fun _ s' => pan_ok world s' ∧ pan_step (panel_at p) world (elsewhere p) P s s') s →
  wp (call op p) (fun _ s' => wm_ok (world s') ∧ touched p P s s') s.
Proof.
  intros Hr Hop. unfold call. eapply wp_cut; [eapply look_wp; [exact Hr|]; by instantiate (1 := fun _ s' => s' = s)|].
  intros _ ? ->. eapply wp_mono; [exact Hop|]. intros a s' [Hok ((Hb & Hd & Hs & Hrest) & Hscr & HP)].
  split; [done|]. split; [done|]. split; [done|]. split; [|split; [done|]].
  - intros q Hq. apply (f_equal (.!! q)) in Hd. by rewrite !lookup_delete_ne in Hd.
  - destruct Hs as [r' Hr']; [by eexists|]. exists r, r'. unfold panel_at in HP. by rewrite Hr, Hr' in HP.
Qed.

Lemma touched_keep p P s s' : (∀ r r', P r r' → kept r r') → touched p P s s' → keep s s'.
Proof.
  intros HP (_ & Hscr & Hothers & Hrest & r & r' & Hr & Hr' & Hrr). split; [done|]. split; [|split; [|done]].
  - intros q rq Hq. destruct (decide (q = p)) as [->|Hne].
    + exists r'. split; [done|]. apply HP. congruence.
    + exists rq. by rewrite Hothers.
  - apply set_eq. intros q. rewrite !elem_of_dom. destruct (decide (q = p)) as [->|Hne].
    + rewrite Hr, Hr'. split; by eexists.
    + by rewrite Hothers.
Qed.

Lemma touched_live p P s s' : (∀ r r', P r r' → same_windows r r') → touched p P s s' → live s s'.
Proof.
  intros HP (_ & Hscr & Hothers & Hrest & r & r' & Hr & Hr' & Hrr). split; [done|]. split; [|split; [|done]].
  - intros q rq Hq. destruct (decide (q = p)) as [->|Hne].
    + exists r'. split; [done|]. apply HP. congruence.
    + exists rq. by rewrite Hothers.
  - apply set_eq. intros q. rewrite !elem_of_dom. destruct (decide (q = p)) as [->|Hne].
    + rewrite Hr, Hr'. split; by eexists.
    + by rewrite Hothers.
Qed.

Lemma same_panel_kept r r' : same_panel r r' → kept r r'.
Proof. by intros [? _]. Qed.
Lemma moved_kept tx ty cx cy r r' : moved tx ty cx cy r r' → kept r r'.
Proof. by intros [? _]. Qed.

(** ** Invariants of the part *)

Class Holds (I : S → Prop) := {
  holds_world s : I s → wm_ok (world s);
  holds_live s s' : I s → wm_ok (world s') → part s' = part s → live s s' → I s'
}.

Section holds.
Variable I : S → Prop.
Context `{!Holds I}.
Abbreviation safe := (framed I keep).

(** The panel is on the heap; it is shown. *)
Definition at_hand (p : Z) : Prop := ∀ s, I s → is_Some (heap s !! p).
Definition shown (p : Z) : Prop :=
  ∀ s, I s → ∃ r, heap s !! p = Some r ∧ Panel.composited_windows_set_up_ r = true.
Lemma shown_at_hand p : shown p → at_hand p.
Proof. intros Hp s Hs. destruct (Hp s Hs) as (r & Hr & _). by eexists. Qed.

Lemma call_safe {A} (op : (S → Panel.t) → (Panel.t → S → S) → (S → W) → (W → S → S) → M S A) p P :
  at_hand p → (∀ r r', P r r' → kept r r') →
  (∀ s r, I s → heap s !! p = Some r → panel_at p s = r →
     wp (op (panel_at p) (set_at p) world set_world)
        (fun _ s' => pan_ok world s' ∧ pan_step (panel_at p) world (elsewhere p) P s s') s) →
  safe (call op p).
Proof.
  intros Hp HP Hop s Hs. destruct (Hp s Hs) as (r & Hr).
  eapply wp_mono; [eapply call_wp; [exact Hr|apply (Hop s r); [done..|]]|].
  - unfold panel_at. by rewrite Hr.
  - intros a s' [Hok Ht]. assert (keep s s') by by eapply touched_keep. split; [|done].
    apply (holds_live s); [done|done|apply Ht|by apply keep_live].
Qed.
(** Operations of a panel that leave it in place. *)
Lemma calm_safe {A} (op : (S → Panel.t) → (Panel.t → S → S) → (S → W) → (W → S → S) → M S A) p :
  at_hand p →
  framed (pan_ok world) (pan_step (panel_at p) world (elsewhere p) same_panel)
         (op (panel_at p) (set_at p) world set_world) →
  safe (call op p).
Proof.
  intros Hp Hop. eapply call_safe; [done|apply same_panel_kept|]. intros s r Hs _ _. by apply Hop, holds_world.
Qed.

Lemma heap_MoveX p right mcw ms : shown p → safe (MoveX p right mcw ms).
Proof.
  intros Hp. apply (call_safe _ _ (moved_x right)); [by apply shown_at_hand|intros ??; apply moved_kept|].
  intros s r Hs Hr Hat. apply MoveX_wp; [apply _..|by apply holds_world|]. rewrite Hat.
  destruct (Hp s Hs) as (r' & Hr' & Hup). congruence.
Qed.
Lemma heap_MoveY p y mcw ms : shown p → safe (MoveY p y mcw ms).
Proof.
  intros Hp. apply (call_safe _ _ (moved_y y)); [by apply shown_at_hand|intros ??; apply moved_kept|].
  intros s r Hs Hr Hat. apply MoveY_wp; [apply _..|by apply holds_world|]. rewrite Hat.
  destruct (Hp s Hs) as (r' & Hr' & Hup). congruence.
Qed.
Lemma heap_SetResizable p b : at_hand p → safe (SetResizable p b).
Proof. intros Hp. apply calm_safe; [done|frame]. Qed.
Lemma heap_AddButtonGrab p : at_hand p → safe (AddButtonGrab p).
Proof. intros Hp. apply calm_safe; [done|frame]. Qed.
Lemma heap_RemoveButtonGrab p b : at_hand p → safe (RemoveButtonGrab p b).
Proof. intros Hp. apply calm_safe; [done|frame]. Qed.
Lemma heap_StackAtTopOfLayer sm p layer :
  layers_ok sm → at_hand p → 0 ≤ layer < StackingManager.LAYER_BACKGROUND → safe (StackAtTopOfLayer sm p layer).
Proof. intros Hsm Hp Hl. apply calm_safe; [done|]. by apply calm_StackAtTopOfLayer; [apply _..| |]. Qed.
Lemma heap_content_win {A} p (m : M (Window.t * W) A) : at_hand p → steady m → safe (PanelRef.content_win p m).
Proof. intros Hp Hm. apply calm_safe; [done|frame]. Qed.
Lemma heap_SetShadowOpacity p opacity ms : at_hand p → safe (SetShadowOpacity p opacity ms).
Proof. intros Hp. apply calm_safe; [done|]. unfold Panel.SetShadowOpacity. frame. Qed.
Lemma heap_StackAbovePanel sm p sibling layer :
  layers_ok sm → 0 ≤ layer < StackingManager.LAYER_BACKGROUND → Panel.titlebar_xid sibling ≠ 0 →
  (∀ s r, I s → heap s !! p = Some r → Panel.titlebar_xid r ≠ 0) →
  at_hand p → safe (StackAbovePanel sm p sibling layer).
Proof.
  intros Hsm Hl Hx Hxp Hp s Hs. destruct (Hp s Hs) as (r & Hr).
  assert (panel_at p s = r) as Hat by (unfold panel_at; by rewrite Hr).
  eapply wp_mono; [eapply (call_wp _ p r same_panel); [exact Hr|]|].
  - apply calm_StackAbovePanel; [apply _..|done|done|done| |by apply holds_world].
    rewrite Hat. by apply (Hxp s).
  - intros a s' [Hok Ht]. assert (keep s s') by (eapply touched_keep; [apply same_panel_kept|done]). split; [|done].
    apply (holds_live s); [done|done|apply Ht|by apply keep_live].
Qed.
Lemma heap_Move p right y mcw ms : at_hand p → safe (Move p right y mcw ms).
Proof.
  intros Hp. apply (call_safe _ _ (moved_xy right y)); [done|intros ??; apply moved_kept|].
  intros s r Hs Hr Hat. eapply wp_mono; [apply (Move_wp _ _ _ _ (elsewhere p)); by apply holds_world|]. by intros a s' (?&?&_).
Qed.
(** Operations that give the panel a new size. *)
Lemma resizing_safe {A} (op : (S → Panel.t) → (Panel.t → S → S) → (S → W) → (W → S → S) → M S A) p :
  at_hand p →
  framed (pan_ok world) (pan_step (panel_at p) world (elsewhere p) same_windows)
         (op (panel_at p) (set_at p) world set_world) →
  framed I live (call op p).
Proof.
  intros Hp Hop s Hs. destruct (Hp s Hs) as (r & Hr).
  eapply wp_mono; [eapply (call_wp _ p r same_windows); [exact Hr|by apply Hop, holds_world]|].
  intros a s' [Hok Ht]. assert (live s s') by by eapply touched_live. split; [|done].
  apply (holds_live s); [done|done|apply Ht|done].
Qed.
Lemma heap_SetExpandedState p b : at_hand p → safe (SetExpandedState p b).
Proof.
  intros Hp. eapply call_safe; [done| |]; [|intros s r Hs _ _; apply SetExpandedState_wp; [apply _..|by apply holds_world]].
  by intros r r' [? _].
Qed.

(** Telling the panel manager comes last. *)
Lemma ResizeContent_then (HPR : M S unit) p width height gravity s :
  ResizeContent HPR p width height gravity s = (ResizeContent (mret ()) p width height gravity;; HPR) s.
Proof.
  unfold ResizeContent, call. rewrite bind_assoc. apply bind_ext. intros r s1. unfold Panel.ResizeContent.
  do 7 (rewrite bind_assoc; apply bind_ext; intros ? ?). done.
Qed.
Lemma heap_ResizeContent (HPR : M S unit) p width height gravity :
  at_hand p → 0 < width → 0 < height → framed I live HPR →
  framed I live (ResizeContent HPR p width height gravity).
Proof.
  intros Hp Hw Hh HH s Hs. unfold wp. rewrite ResizeContent_then.
  assert (framed I live (ResizeContent (mret ()) p width height gravity;; HPR)) as Hboth.
  { apply framed_bind; [apply _| |done]. apply resizing_safe; [done|].
    by apply (resizing_ResizeContent (panel_at p) (set_at p) world set_world (elsewhere p)). }
  exact (Hboth s Hs).
Qed.

(** Reading, and the world. *)
Lemma heap_look p : at_hand p → safe (look p).
Proof. intros Hp s Hs. destruct (Hp s Hs) as (r & Hr). by eapply look_wp. Qed.
Lemma heap_looks l : (∀ p, p ∈ l → at_hand p) → safe (looks l).
Proof.
  induction l as [|p l IH]; intros Hl; [apply framed_ret, _|]. cbn [looks].
  apply framed_bind; [apply _|apply heap_look, Hl; by left|intros r].
  apply framed_bind; [apply _|apply IH; set_solver|frame].
Qed.
Lemma heap_on_world {A} (m : M W A) : quiet m → safe (on_world m).
Proof.
  intros Hm s Hs. apply wp_zoom. eapply wp_mono; [apply Hm, holds_world, Hs|]. intros a w [Hok Hscr].
  assert (keep s (set_world w s)) as Hk.
  { apply keep_same; [by rewrite world_set_world'|by rewrite heap_set_world|apply rest_set_world]. }
  split; [|done]. apply (holds_live s); [done|by rewrite world_set_world'|by rewrite part_set_world|by apply keep_live].
Qed.
Lemma heap_x r : safe (PanelRef.x r).
Proof. apply heap_on_world. frame. Qed.
(** Sequencing from a state some way behind. *)
Lemma heap_then {A} (m : M S A) s0 s : I s → keep s0 s → safe m → wp m (fun _ s' => I s' ∧ keep s0 s') s.
Proof.
  intros Hs Hk Hm. eapply wp_mono; [by apply Hm|]. intros a s' [??]. split; [done|by etransitivity].
Qed.
End holds.
End part.
