(* ===== verification/PanelBar.v ===== *)
(** * The panel bar: panel_bar.{h,cc}.

    The operations run in any state [S] that has the heap of panels, the world and
    the bar. *)

From S2P Require Import Prelude WmUtil XConnection WmIpc Double Window WmEvents Panel PanelHeap.

Module PanelBar.
Definition kPixelsBetweenPanels : Z := 3.
Definition kShowCollapsedPanelsDistancePixels : Z := 1.
Definition kHideCollapsedPanelsDistancePixels : Z := 30.
Definition kHiddenCollapsedPanelHeightPixels : Z := 3.
Definition kPanelArrangeAnimMs : Z := 150.
Definition kAnchorFadeAnimMs : Z := 150.
Definition kPanelStateAnimMs : Z := 150.
Definition kDroppedPanelAnimMs : Z := 50.
Definition kPanelDetachThresholdPixels : Z := 50.
Definition kPanelAttachThresholdPixels : Z := 20.
Definition kHideCollapsedPanelsAnimMs : Z := 100.
Definition kShowCollapsedPanelsDelayMs : Z := 200.

Record PanelInfo := mkInfo { snapped_right : Z; is_urgent : bool }.
#[global] Instance eta_PanelInfo : Eta PanelInfo := fun r => mkInfo (snapped_right r) (is_urgent r).
#[global] Instance PanelInfo_eq_dec : EqDecision PanelInfo.
Proof. solve_decision. Defined.

Inductive CollapsedPanelState :=
  | COLLAPSED_PANEL_STATE_SHOWN
  | COLLAPSED_PANEL_STATE_HIDDEN
  | COLLAPSED_PANEL_STATE_WAITING_TO_SHOW
  | COLLAPSED_PANEL_STATE_WAITING_TO_HIDE.
#[global] Instance CollapsedPanelState_eq_dec : EqDecision CollapsedPanelState.
Proof. solve_decision. Defined.

(** A [Panel*] is an address, NULL is [None]; [panels_] from left to right. *)
Record t := mk {
  total_panel_width_ : Z;
  panels_ : list Z;
  panel_infos_ : gmap Z PanelInfo;
  dragged_panel_ : option Z;
  dragging_panel_horizontally_ : bool;
  anchor_input_xid_ : Z;
  anchor_panel_ : option Z;
  anchor_actor_ : Z;
  anchor_pointer_watcher_ : option PointerPositionWatcher.t;
  desired_panel_to_focus_ : option Z;
  collapsed_panel_state_ : CollapsedPanelState;
  show_collapsed_panels_input_xid_ : Z;
  show_collapsed_panels_timer_id_ : Z;
  hide_collapsed_panels_pointer_watcher_ : option PointerPositionWatcher.t;
  event_consumer_registrar_ : EventConsumerRegistrar.t
}.
#[global] Instance eta_t : Eta t := fun r =>
  mk (total_panel_width_ r) (panels_ r) (panel_infos_ r) (dragged_panel_ r) (dragging_panel_horizontally_ r)
     (anchor_input_xid_ r) (anchor_panel_ r) (anchor_actor_ r) (anchor_pointer_watcher_ r)
     (desired_panel_to_focus_ r) (collapsed_panel_state_ r) (show_collapsed_panels_input_xid_ r)
     (show_collapsed_panels_timer_id_ r) (hide_collapsed_panels_pointer_watcher_ r)
     (event_consumer_registrar_ r).

Definition CollapsedPanelsAreHidden (b : t) : bool :=
  bool_decide (collapsed_panel_state_ b = COLLAPSED_PANEL_STATE_HIDDEN) ||
  bool_decide (collapsed_panel_state_ b = COLLAPSED_PANEL_STATE_WAITING_TO_SHOW).
Definition GetInputWindows (b : t) : list Z := [anchor_input_xid_ b; show_collapsed_panels_input_xid_ b].

Definition no_watcher : PointerPositionWatcher.t := PointerPositionWatcher.mk false 0 0 0 0 0.

Section panel_bar.
Context `{Build} `{PanelFlags} {W : Type} `{Wm W} `{HasConsumers W} {S : Type} `{PanelStore S W}.
Variable stacking_manager : StackingManager.t.
Variable bar : S → t.
Variable set_bar : t → S → S.
(** [wm()->TakeFocus()], which asks the layout manager and then the bar. *)
Variable wm_TakeFocus : M S unit.

Import PanelRef.

Definition get {A} (f : t → A) : M S A := gets (fun s => f (bar s)).
Definition upd (f : t → t) : M S unit := modify (fun s => set_bar (f (bar s)) s).
Definition wm_width_ : M S Z := gets (fun s => wm_width (world s)).
Definition wm_height_ : M S Z := gets (fun s => wm_height (world s)).
Definition actor (a : Z) (c : ActorCall) : M S unit := on_world (StackingManager.do_actor a c).
Definition timeout_add (ms : Z) : M S Z := on_world (extern (g_timeout_add ms)).
Definition source_remove (id : Z) : M S unit := on_world (extern (fun w => ((), g_source_remove id w))).
Definition query_pointer : M S (option (Z * Z)) := on_world (extern x_QueryPointerPosition).
Definition GetCurrentTimeFromServer : M S Z := on_world WindowManager.GetCurrentTimeFromServer.
Definition SetActiveWindowProperty (xid : Z) : M S bool := on_world (WindowManager.SetActiveWindowProperty xid).
Definition ConfigureInputWindow (xid px py width height : Z) : M S unit :=
  on_world (WindowManager.ConfigureInputWindow xid px py width height);; mret ().

Definition GetPanelInfoOrDie (p : Z) : M S PanelInfo :=
  b ← get id;
  match panel_infos_ b !! p with Some info => mret info | None => fail CheckFailed end.
Definition set_info (p : Z) (f : PanelInfo → PanelInfo) : M S unit :=
  upd (fun b => b <| panel_infos_ := alter f p (panel_infos_ b) |>).

Definition GetNumCollapsedPanels : M S Z :=
  b ← get id;
  rs ← looks (panels_ b);
  mret (zlen (filter (fun pr => Panel.is_expanded_ pr.2 = false) rs)).

Definition ComputePanelY (r : Panel.t) (info : PanelInfo) : M S Z :=
  height ← wm_height_;
  b ← get id;
  mret (i32 (if Panel.is_expanded_ r then height - Panel.total_height r
             else if CollapsedPanelsAreHidden b && negb (is_urgent info)
                  then height - kHiddenCollapsedPanelHeightPixels
                  else height - Panel.titlebar_height r)).
(** [p->MoveY(ComputePanelY( *p, *info), ...)]. *)
Definition computed_y (p : Z) (info : PanelInfo) : M S Z := r ← look p; ComputePanelY r info.

(** *** Packing and ordering *)

Definition pack_one (fixed_panel : option Z) (p : Z) : M S unit :=
  info ← GetPanelInfoOrDie p;
  width ← wm_width_;
  b ← get id;
  let snapped := i32 (width - total_panel_width_ b - kPixelsBetweenPanels) in
  set_info p (fun i => i <| snapped_right := snapped |>);;
  r ← look p;
  (if negb (bool_decide (Some p = fixed_panel)) && negb (Panel.right r =? snapped)
   then MoveX p snapped true kPanelArrangeAnimMs else mret ());;
  r ← look p;
  upd (fun b => b <| total_panel_width_ :=
         i32 (total_panel_width_ b + (Panel.width r + kPixelsBetweenPanels)) |>).
Definition PackPanels (fixed_panel : option Z) : M S unit :=
  upd (fun b => b <| total_panel_width_ := 0 |>);;
  b ← get id;
  for_each (pack_one fixed_panel) (reverse (panels_ b)).

(** [std::rotate(begin + first, begin + middle, begin + last)]. *)
Definition rotate (first middle last : nat) (l : list Z) : option (list Z) :=
  if decide (last ≤ length l)%nat then
    Some (take first l ++ drop middle (take last l) ++ drop first (take middle l) ++ drop last l)
  else None.

(** How many panels in a row satisfy a condition. *)
Fixpoint passed (cond : Panel.t → bool) (ps : list Z) : M S nat :=
  match ps with
  | [] => mret 0%nat
  | q :: l => r ← look q; if cond r then n ← passed cond l; mret (Datatypes.S n) else mret 0%nat
  end.

Definition ReorderPanel (fixed_panel : Z) : M S unit :=
  b ← get id;
  let src := position_of fixed_panel (panels_ b) in
  DCHECK (bool_decide (src ≠ length (panels_ b)));;
  r ← look fixed_panel;
  info ← GetPanelInfoOrDie fixed_panel;
  dest ← (if Panel.right r <? snapped_right info then
            n ← passed (fun q => Panel.content_x r <=? Panel.content_center q) (reverse (take src (panels_ b)));
            mret (src - n)%nat
          else
            n ← passed (fun q => Panel.content_center q <=? Panel.right r) (drop (Datatypes.S src) (panels_ b));
            mret (src + n)%nat);
  if bool_decide (dest = src) then mret ()
  else
    match (if decide (src < dest)%nat then rotate src (Datatypes.S src) (Datatypes.S dest) (panels_ b)
           else rotate dest src (Datatypes.S src) (panels_ b)) with
    | None => fail Undefined
    | Some l => upd (fun b => b <| panels_ := l |>);; PackPanels (Some fixed_panel)
    end.

(** *** Input windows *)

Definition ConfigureShowCollapsedPanelsInputWindow (move_onscreen : bool) : M S unit :=
  b ← get id;
  if move_onscreen then
    width ← wm_width_;
    height ← wm_height_;
    ConfigureInputWindow (show_collapsed_panels_input_xid_ b)
      0 (i32 (height - kShowCollapsedPanelsDistancePixels)) width kShowCollapsedPanelsDistancePixels
  else x (ConfigureWindowOffscreen (show_collapsed_panels_input_xid_ b));; mret ().

(** *** The anchor *)

Definition anchor_watcher (s : S) : PointerPositionWatcher.t :=
  default no_watcher (anchor_pointer_watcher_ (bar s)).
Definition set_anchor_watcher (p : PointerPositionWatcher.t) (s : S) : S :=
  set_bar ((bar s) <| anchor_pointer_watcher_ := Some p |>) s.
Definition delete_watcher (p : option PointerPositionWatcher.t) : M S unit :=
  match p with Some p => PointerPositionWatcher.destroy source_remove p | None => mret () end.

Definition CreateAnchor (p : Z) : M S unit :=
  pos ← query_pointer;
  let pointer_x := match pos with Some (px, _) => px | None => 0 end in
  b ← get id;
  width ← gets (fun s => actor_width (anchor_actor_ b) (world s));
  height ← gets (fun s => actor_height (anchor_actor_ b) (world s));
  wm_w ← wm_width_;
  wm_h ← wm_height_;
  let px := Z.min (Z.max (Window.minus_half pointer_x width) 0) (i32 (wm_w - width)) in
  let py := i32 (wm_h - height) in
  ConfigureInputWindow (anchor_input_xid_ b) px py width height;;
  upd (fun b => b <| anchor_panel_ := Some p |>);;
  actor (anchor_actor_ b) (Window.Move px py 0);;
  actor (anchor_actor_ b) (SetOpacity (Double.of_Z 1) kAnchorFadeAnimMs);;
  watcher ← PointerPositionWatcher.construct timeout_add false px py width height;
  old ← get anchor_pointer_watcher_;
  delete_watcher old;;
  upd (fun b => b <| anchor_pointer_watcher_ := Some watcher |>).

Definition DestroyAnchor : M S unit :=
  b ← get id;
  x (ConfigureWindowOffscreen (anchor_input_xid_ b));;
  actor (anchor_actor_ b) (SetOpacity (Double.of_Z 0) kAnchorFadeAnimMs);;
  upd (fun b => b <| anchor_panel_ := None |>);;
  old ← get anchor_pointer_watcher_;
  delete_watcher old;;
  upd (fun b => b <| anchor_pointer_watcher_ := None |>).

(** The anchor's watcher's timer fires (only while there is a watcher). *)
Definition HandleAnchorWatcherTimer : M S bool :=
  PointerPositionWatcher.HandleTimer anchor_watcher set_anchor_watcher DestroyAnchor query_pointer.

(** *** Focus *)

(** The flag is ignored: the pointer grab is always removed. *)
Definition FocusPanel (p : Z) (remove_pointer_grab : bool) (timestamp : Z) : M S unit :=
  RemoveButtonGrab p true;;
  r ← look p;
  SetActiveWindowProperty (Panel.content_xid r);;
  content_win p (Window.TakeFocus timestamp);;
  upd (fun b => b <| desired_panel_to_focus_ := Some p |>).

Fixpoint first_expanded (ps : list Z) : M S (option Z) :=
  match ps with
  | [] => mret None
  | p :: l => r ← look p; if Panel.is_expanded_ r then mret (Some p) else first_expanded l
  end.
Definition TakeFocus : M S bool :=
  timestamp ← GetCurrentTimeFromServer;
  b ← get id;
  match desired_panel_to_focus_ b with
  | Some p => FocusPanel p false timestamp;; mret true
  | None =>
      first ← first_expanded (panels_ b);
      match first with
      | Some p => FocusPanel p false timestamp;; mret true
      | None => mret false
      end
  end.

Definition kint32max : Z := 2147483647.
Definition distance_to (r q : Panel.t) : Z :=
  if Panel.right q <=? Panel.content_x r then i32 (Panel.content_x r - Panel.right q)
  else if Panel.right r <=? Panel.content_x q then i32 (Panel.content_x q - Panel.right r)
  else Z.abs (i32 (Panel.content_center q - Panel.content_center r)).
(** One panel of the loop; the state is the best distance and panel. *)
Definition nearer (p : Z) (r : Panel.t) (best : Z * option Z) (q : Z * Panel.t) : Z * option Z :=
  if bool_decide (q.1 = p) || negb (Panel.is_expanded_ q.2) then best
  else if distance_to r q.2 <? best.1 then (distance_to r q.2, Some q.1) else best.
Definition GetNearestExpandedPanel (p : Z) : M S (option Z) :=
  r ← look p;
  if negb (Panel.is_expanded_ r) then mret None
  else
    b ← get id;
    rs ← looks (panels_ b);
    mret (foldl (nearer p r) (kint32max, None) rs).2.

(** *** Expanding and collapsing *)

Definition ExpandPanel (p : Z) (create_anchor : bool) (anim_ms : Z) : M S unit :=
  r ← look p;
  if Panel.is_expanded_ r then mret ()
  else
    SetExpandedState p true;;
    info ← GetPanelInfoOrDie p;
    y ← computed_y p info;
    MoveY p y true anim_ms;;
    SetResizable p true;;
    (if create_anchor then CreateAnchor p else mret ());;
    n ← GetNumCollapsedPanels;
    if n =? 0 then ConfigureShowCollapsedPanelsInputWindow false else mret ().

Definition CollapsePanel (p : Z) (anim_ms : Z) : M S unit :=
  r ← look p;
  if negb (Panel.is_expanded_ r) then mret ()
  else
    panel_to_focus ← GetNearestExpandedPanel p;
    b ← get id;
    (if bool_decide (anchor_panel_ b = Some p) then DestroyAnchor else mret ());;
    SetExpandedState p false;;
    info ← GetPanelInfoOrDie p;
    y ← computed_y p info;
    MoveY p y true anim_ms;;
    SetResizable p false;;
    r ← look p;
    (if Window.focused_ (Panel.content_win_ r) then
       upd (fun b => b <| desired_panel_to_focus_ := panel_to_focus |>);;
       ok ← TakeFocus;
       if ok : bool then mret () else SetActiveWindowProperty 0;; wm_TakeFocus
     else mret ());;
    n ← GetNumCollapsedPanels;
    if n =? 1 then ConfigureShowCollapsedPanelsInputWindow true else mret ().

(** *** Showing and hiding collapsed panels *)

Definition DisableShowCollapsedPanelsTimer : M S unit :=
  b ← get id;
  if negb (show_collapsed_panels_timer_id_ b =? 0) then
    source_remove (show_collapsed_panels_timer_id_ b);;
    upd (fun b => b <| show_collapsed_panels_timer_id_ := 0 |>)
  else mret ().

(** Move every collapsed panel that is not at its place. *)
Definition replace_collapsed (p : Z) : M S unit :=
  r ← look p;
  if Panel.is_expanded_ r then mret ()
  else
    info ← GetPanelInfoOrDie p;
    y ← ComputePanelY r info;
    if negb (Panel.titlebar_y r =? y) then MoveY p y true kHideCollapsedPanelsAnimMs else mret ().

Definition HideCollapsedPanels : M S unit :=
  DisableShowCollapsedPanelsTimer;;
  b ← get id;
  deferred ← (match dragged_panel_ b with
              | None => mret false
              | Some p => r ← look p; mret (negb (Panel.is_expanded_ r))
              end);
  if deferred : bool then
    upd (fun b => b <| collapsed_panel_state_ := COLLAPSED_PANEL_STATE_WAITING_TO_HIDE |>)
  else
    upd (fun b => b <| collapsed_panel_state_ := COLLAPSED_PANEL_STATE_HIDDEN |>);;
    for_each replace_collapsed (panels_ b);;
    n ← GetNumCollapsedPanels;
    (if 0 <? n then ConfigureShowCollapsedPanelsInputWindow true else mret ());;
    old ← get hide_collapsed_panels_pointer_watcher_;
    delete_watcher old;;
    upd (fun b => b <| hide_collapsed_panels_pointer_watcher_ := None |>).

Definition StartHideCollapsedPanelsWatcher : M S unit :=
  width ← wm_width_;
  height ← wm_height_;
  watcher ← PointerPositionWatcher.construct timeout_add false
              0 (i32 (height - kHideCollapsedPanelsDistancePixels)) width kHideCollapsedPanelsDistancePixels;
  old ← get hide_collapsed_panels_pointer_watcher_;
  delete_watcher old;;
  upd (fun b => b <| hide_collapsed_panels_pointer_watcher_ := Some watcher |>).

Definition ShowCollapsedPanels : M S unit :=
  DisableShowCollapsedPanelsTimer;;
  upd (fun b => b <| collapsed_panel_state_ := COLLAPSED_PANEL_STATE_SHOWN |>);;
  b ← get id;
  for_each replace_collapsed (panels_ b);;
  ConfigureShowCollapsedPanelsInputWindow false;;
  StartHideCollapsedPanelsWatcher.

(** The timer [show_collapsed_panels_timer_id_] fires. *)
Definition HandleShowCollapsedPanelsTimer : M S bool :=
  b ← get id;
  DCHECK (bool_decide (collapsed_panel_state_ b = COLLAPSED_PANEL_STATE_WAITING_TO_SHOW));;
  upd (fun b => b <| show_collapsed_panels_timer_id_ := 0 |>);;
  ShowCollapsedPanels;;
  mret false.

Definition hide_watcher (s : S) : PointerPositionWatcher.t :=
  default no_watcher (hide_collapsed_panels_pointer_watcher_ (bar s)).
Definition set_hide_watcher (p : PointerPositionWatcher.t) (s : S) : S :=
  set_bar ((bar s) <| hide_collapsed_panels_pointer_watcher_ := Some p |>) s.
(** The hide watcher's timer fires (only while there is a watcher). *)
Definition HandleHideWatcherTimer : M S bool :=
  PointerPositionWatcher.HandleTimer hide_watcher set_hide_watcher HideCollapsedPanels query_pointer.

(** *** Adding and removing panels *)

Definition AddPanel (p : Z) (source : PanelSource) : M S unit :=
  width ← wm_width_;
  height ← wm_height_;
  b ← get id;
  r ← look p;
  let info := mkInfo (i32 (width - total_panel_width_ b - kPixelsBetweenPanels))
                     (Window.wm_hint_urgent_ (Panel.content_win_ r)) in
  (* the map's insert keeps an existing entry *)
  upd (fun b => b <| panel_infos_ := match panel_infos_ b !! p with
                                     | Some _ => panel_infos_ b
                                     | None => <[p := info]> (panel_infos_ b)
                                     end |>
                  <| panels_ := p :: panels_ b |>
                  <| total_panel_width_ :=
                       i32 (total_panel_width_ b + (Panel.width r + kPixelsBetweenPanels)) |>);;
  (if decide (source = PANEL_SOURCE_DRAGGED) then
     ReorderPanel p;;
     b ← get id;
     DCHECK (bool_decide (dragged_panel_ b = None));;
     upd (fun b => b <| dragged_panel_ := Some p |> <| dragging_panel_horizontally_ := true |>)
   else mret ());;
  StackAtTopOfLayer stacking_manager p
    (if decide (source = PANEL_SOURCE_DRAGGED) then StackingManager.LAYER_DRAGGED_PANEL
     else StackingManager.LAYER_STATIONARY_PANEL_IN_BAR);;
  (* the object [info] is the map's when it was inserted *)
  info ← (b' ← get id;
          mret (if decide (panel_infos_ b !! p = None) then default info (panel_infos_ b' !! p) else info));
  final_y ← computed_y p info;
  (match source with
   | PANEL_SOURCE_NEW =>
       Move p (snapped_right info) height false 0;;
       MoveY p final_y true kPanelStateAnimMs
   | PANEL_SOURCE_DRAGGED => MoveY p final_y true 0
   | PANEL_SOURCE_DROPPED => Move p (snapped_right info) final_y true kDroppedPanelAnimMs
   end);;
  r ← look p;
  SetResizable p (Panel.is_expanded_ r);;
  r ← look p;
  (if Panel.is_expanded_ r && (bool_decide (source = PANEL_SOURCE_NEW) || Window.focused_ (Panel.content_win_ r))
   then timestamp ← GetCurrentTimeFromServer; FocusPanel p false timestamp
   else AddButtonGrab p);;
  r ← look p;
  if negb (Panel.is_expanded_ r) then
    n ← GetNumCollapsedPanels;
    if n =? 1 then ConfigureShowCollapsedPanelsInputWindow true else mret ()
  else mret ().

(** [FindPanelInVectorByWindow] with the panel's content window; windows are
    told apart by their XIDs. *)
Fixpoint find_by_window (xid : Z) (ps : list Z) : M S nat :=
  match ps with
  | [] => mret 0%nat
  | q :: l =>
      r ← look q;
      if (Panel.titlebar_xid r =? xid) || (Panel.content_xid r =? xid) then mret 0%nat
      else n ← find_by_window xid l; mret (Datatypes.S n)
  end.
Definition GetPanelByWindow (xid : Z) : M S (option Z) :=
  b ← get id;
  it ← find_by_window xid (panels_ b);
  mret (panels_ b !! it).

Definition RemovePanel (p : Z) : M S unit :=
  b ← get id;
  (if bool_decide (anchor_panel_ b = Some p) then DestroyAnchor else mret ());;
  (if bool_decide (dragged_panel_ b = Some p) then upd (fun b => b <| dragged_panel_ := None |>) else mret ());;
  (if bool_decide (desired_panel_to_focus_ b = Some p) then
     nearest ← GetNearestExpandedPanel p;
     upd (fun b => b <| desired_panel_to_focus_ := nearest |>)
   else mret ());;
  r ← look p;
  let was_collapsed := negb (Panel.is_expanded_ r) in
  b ← get id;
  CHECK (bool_decide (is_Some (panel_infos_ b !! p)));;
  upd (fun b => b <| panel_infos_ := delete p (panel_infos_ b) |>);;
  it ← find_by_window (Panel.content_xid r) (panels_ b);
  match panels_ b !! it with
  | None => mret ()
  | Some q =>
      rq ← look q;
      upd (fun b => b <| total_panel_width_ :=
                           i32 (total_panel_width_ b - (Panel.width rq + kPixelsBetweenPanels)) |>
                      <| panels_ := take it (panels_ b) ++ drop (Datatypes.S it) (panels_ b) |>);;
      b ← get id;
      PackPanels (dragged_panel_ b);;
      (match dragged_panel_ b with Some d => ReorderPanel d | None => mret () end);;
      if was_collapsed then
        n ← GetNumCollapsedPanels;
        if n =? 0 then ConfigureShowCollapsedPanelsInputWindow false else mret ()
      else mret ()
  end.

(** *** Dragging *)

Definition ShouldAddDraggedPanel (p drag_x drag_y : Z) : M S bool :=
  r ← look p;
  height ← wm_height_;
  mret (height - kPanelAttachThresholdPixels <? i32 (drag_y + Panel.total_height r)).

Definition mostly_visible (titlebar_y height total_height : Z) : bool :=
  Double.ltb (Double.of_Z titlebar_y)
             (Double.sub (Double.of_Z height) (Double.mul Double.half (Double.of_Z total_height))).

Definition HandlePanelDragComplete (p : Z) : M S unit :=
  b ← get id;
  if negb (bool_decide (dragged_panel_ b = Some p)) then mret ()
  else
    info ← GetPanelInfoOrDie p;
    (if dragging_panel_horizontally_ b then MoveX p (snapped_right info) true kPanelArrangeAnimMs
     else
       r ← look p;
       height ← wm_height_;
       let visible := mostly_visible (Panel.titlebar_y r) height (Panel.total_height r) in
       let anim_ms := 75 in                              (* 0.5 * kPanelStateAnimMs *)
       if visible && negb (Panel.is_expanded_ r) then
         ExpandPanel p false anim_ms;;
         timestamp ← GetCurrentTimeFromServer;
         FocusPanel p false timestamp
       else if negb visible && Panel.is_expanded_ r then CollapsePanel p anim_ms
       else y ← ComputePanelY r info; MoveY p y true anim_ms);;
    StackAtTopOfLayer stacking_manager p StackingManager.LAYER_STATIONARY_PANEL_IN_BAR;;
    upd (fun b => b <| dragged_panel_ := None |>);;
    b ← get id;
    if decide (collapsed_panel_state_ b = COLLAPSED_PANEL_STATE_WAITING_TO_HIDE) then
      pos ← query_pointer;
      height ← wm_height_;
      let pointer_y := match pos with Some (_, py) => py | None => 0 end in
      if pointer_y <? i32 (height - kHideCollapsedPanelsDistancePixels) then HideCollapsedPanels
      else
        upd (fun b => b <| collapsed_panel_state_ := COLLAPSED_PANEL_STATE_SHOWN |>);;
        StartHideCollapsedPanelsWatcher
    else mret ().

Definition HandleNotifyPanelDraggedMessage (p drag_x drag_y : Z) : M S bool :=
  r ← look p;
  height ← wm_height_;
  let y_threshold := i32 (height - Panel.total_height r - kPanelDetachThresholdPixels) in
  if drag_y <=? y_threshold then mret false
  else
    b ← get id;
    (if negb (bool_decide (dragged_panel_ b = Some p)) then
       (match dragged_panel_ b with Some d => look d;; HandlePanelDragComplete d | None => mret () end);;
       r ← look p;
       upd (fun b => b <| dragged_panel_ := Some p |>
                       <| dragging_panel_horizontally_ :=
                            Z.abs (i32 (drag_y - Panel.titlebar_y r)) <? Z.abs (i32 (drag_x - Panel.right r)) |>);;
       StackAtTopOfLayer stacking_manager p StackingManager.LAYER_DRAGGED_PANEL
     else mret ());;
    b ← get id;
    (if dragging_panel_horizontally_ b then MoveX p drag_x false 0
     else
       r ← look p;
       let capped_y := Z.max (Z.min drag_y (i32 (height - Panel.titlebar_height r)))
                             (i32 (height - Panel.total_height r)) in
       MoveY p capped_y false 0);;
    ReorderPanel p;;
    mret true.

Definition HandleNotifyPanelDragCompleteMessage (p : Z) : M S unit := HandlePanelDragComplete p.

(** *** Events *)

Definition HandleInputWindowButtonPress (xid button : Z) : M S unit :=
  b ← get id;
  CHECK (xid =? anchor_input_xid_ b);;
  if negb (button =? 1) then mret ()
  else
    DestroyAnchor;;
    match anchor_panel_ b with Some p => CollapsePanel p kPanelStateAnimMs | None => mret () end.

Definition HandleInputWindowPointerEnter (xid x_root : Z) : M S unit :=
  b ← get id;
  if negb (xid =? show_collapsed_panels_input_xid_ b) then mret ()
  else
    width ← wm_width_;
    if i32 (width - total_panel_width_ b) <=? x_root then ShowCollapsedPanels
    else if bool_decide (collapsed_panel_state_ b = COLLAPSED_PANEL_STATE_SHOWN) ||
            bool_decide (collapsed_panel_state_ b = COLLAPSED_PANEL_STATE_WAITING_TO_SHOW) then mret ()
    else
      upd (fun b => b <| collapsed_panel_state_ := COLLAPSED_PANEL_STATE_WAITING_TO_SHOW |>);;
      DCHECK (show_collapsed_panels_timer_id_ b =? 0);;
      id ← timeout_add kShowCollapsedPanelsDelayMs;
      upd (fun b => b <| show_collapsed_panels_timer_id_ := id |>).

Definition HandleInputWindowPointerLeave (xid : Z) : M S unit :=
  b ← get id;
  if negb (xid =? show_collapsed_panels_input_xid_ b) then mret ()
  else if decide (collapsed_panel_state_ b = COLLAPSED_PANEL_STATE_WAITING_TO_SHOW) then
    upd (fun b => b <| collapsed_panel_state_ := COLLAPSED_PANEL_STATE_HIDDEN |>);;
    DisableShowCollapsedPanelsTimer
  else mret ().

Definition HandlePanelButtonPress (p timestamp : Z) : M S unit := FocusPanel p true timestamp.

Definition HandlePanelTitlebarPointerEnter (p : Z) : M S unit :=
  b ← get id;
  r ← look p;
  if negb (bool_decide (collapsed_panel_state_ b = COLLAPSED_PANEL_STATE_SHOWN)) && negb (Panel.is_expanded_ r)
  then ShowCollapsedPanels else mret ().

Definition HandlePanelFocusChange (p : Z) (focus_in : bool) : M S unit :=
  if focus_in then mret () else AddButtonGrab p.

Definition HandleSetPanelStateMessage (p : Z) (expand : bool) : M S unit :=
  if expand then ExpandPanel p true kPanelStateAnimMs else CollapsePanel p kPanelStateAnimMs.

Definition HandleFocusPanelMessage (p : Z) : M S unit :=
  r ← look p;
  (if Panel.is_expanded_ r then mret () else ExpandPanel p false kPanelStateAnimMs);;
  timestamp ← GetCurrentTimeFromServer;
  FocusPanel p false timestamp.

Definition HandlePanelResize : M S unit := PackPanels None.

Definition HandleScreenResize : M S unit :=
  b ← get id;
  for_each (fun p => info ← GetPanelInfoOrDie p; y ← computed_y p info; MoveY p y true 0) (panels_ b);;
  PackPanels (dragged_panel_ b);;
  match dragged_panel_ b with Some d => ReorderPanel d | None => mret () end.

Definition HandlePanelUrgencyChange (p : Z) : M S unit :=
  r ← look p;
  let urgent := Window.wm_hint_urgent_ (Panel.content_win_ r) in
  info ← GetPanelInfoOrDie p;
  if bool_decide (urgent = is_urgent info) then mret ()
  else
    set_info p (fun i => i <| is_urgent := urgent |>);;
    if Panel.is_expanded_ r then mret ()
    else
      info ← GetPanelInfoOrDie p;
      y ← ComputePanelY r info;
      if negb (Panel.titlebar_y r =? y) then MoveY p y true kHideCollapsedPanelsAnimMs else mret ().

(** *** Construction and destruction *)

Definition LeaveWindowMask : Z := 32.
Definition FLAGS_panel_anchor_image : bytes := str "../assets/images/panel_anchor.png".
Definition registrar (f : EventConsumerRegistrar.t * EventConsumers.t →
                          EventConsumerRegistrar.t * EventConsumers.t) : M S unit :=
  modify (fun s =>
    let '(r, c) := f (event_consumer_registrar_ (bar s), get_consumers (world s)) in
    set_world (set_consumers c (world s)) (set_bar ((bar s) <| event_consumer_registrar_ := r |>) s)).

(** [panel_manager] is the event consumer. *)
Definition construct (panel_manager : Z) : M S unit :=
  anchor ← on_world (WindowManager.CreateInputWindow (-1) (-1) 1 1 Window.ButtonPressMask);
  anchor_actor ← on_world (extern (new_image FLAGS_panel_anchor_image));
  show ← on_world (WindowManager.CreateInputWindow (-1) (-1) 1 1 (Z.lor Panel.EnterWindowMask LeaveWindowMask));
  upd (fun _ => mk 0 [] ∅ None false anchor None anchor_actor None None COLLAPSED_PANEL_STATE_HIDDEN show 0 None
                   (EventConsumerRegistrar.new panel_manager));;
  registrar (EventConsumerRegistrar.RegisterForWindowEvents anchor);;
  registrar (EventConsumerRegistrar.RegisterForWindowEvents show);;
  actor anchor_actor (SetName (str "panel anchor"));;
  actor anchor_actor (SetOpacity (Double.of_Z 0) 0);;
  actor anchor_actor AddToStage;;
  on_world (StackingManager.StackActorAtTopOfLayer stacking_manager anchor_actor
              StackingManager.LAYER_PANEL_BAR_INPUT_WINDOW);;
  on_world (StackingManager.StackXidAtTopOfLayer stacking_manager show
              StackingManager.LAYER_PANEL_BAR_INPUT_WINDOW);;
  on_world (StackingManager.StackXidAtTopOfLayer stacking_manager anchor
              StackingManager.LAYER_PANEL_BAR_INPUT_WINDOW);;
  mret ().

(** The destructor, the members' destructors included. *)
Definition destroy : M S unit :=
  DisableShowCollapsedPanelsTimer;;
  b ← get id;
  x (DestroyWindow (anchor_input_xid_ b));;
  x (DestroyWindow (show_collapsed_panels_input_xid_ b));;
  registrar (fun s => (s.1, EventConsumerRegistrar.destroy s));;
  delete_watcher (hide_collapsed_panels_pointer_watcher_ b);;
  delete_watcher (anchor_pointer_watcher_ b);;
  actor (anchor_actor_ b) DeleteActor.
End panel_bar.
End PanelBar.
