(* ===== verification/PanelDock.v ===== *)
(** * The panel docks: panel_dock.{h,cc}.

    The operations run in any state [S] that has the heap of panels, the world and
    the dock. *)

From S2P Require Import Prelude WmUtil XConnection WmIpc Double Window WmEvents Panel PanelHeap.

Module PanelDock.
Definition kDetachThresholdPixels : Z := 50.
Definition kAttachThresholdPixels : Z := 20.
Definition kBackgroundAnimMs : Z := 0.
Definition kPanelShadowAnimMs : Z := 150.
Definition kPackPanelsAnimMs : Z := 150.
Definition FLAGS_panel_dock_background_image : bytes := str "../assets/images/panel_dock_bg.png".

Inductive DockType := DOCK_TYPE_LEFT | DOCK_TYPE_RIGHT.
#[global] Instance DockType_eq_dec : EqDecision DockType.
Proof. solve_decision. Defined.

(** [panels_] from top to bottom. *)
Record t := mk {
  type_ : DockType;
  x_ : Z; y_ : Z; width_ : Z; height_ : Z;
  panels_ : list Z;
  dragged_panel_ : option Z;
  bg_actor_ : Z;
  bg_shadow_ : Z;
  bg_input_xid_ : Z;
  event_consumer_registrar_ : EventConsumerRegistrar.t
}.
#[global] Instance eta_t : Eta t := fun r =>
  mk (type_ r) (x_ r) (y_ r) (width_ r) (height_ r) (panels_ r) (dragged_panel_ r) (bg_actor_ r) (bg_shadow_ r)
     (bg_input_xid_ r) (event_consumer_registrar_ r).

Definition width (d : t) : Z := width_ d.
Definition IsVisible (d : t) : bool := negb (bool_decide (panels_ d = [])).
Definition GetInputWindows (d : t) : list Z := [bg_input_xid_ d].
(** Where the background is when the dock is hidden. *)
Definition hidden_x (d : t) : Z :=
  i32 (if decide (type_ d = DOCK_TYPE_LEFT) then x_ d - width_ d else x_ d + width_ d).

Section panel_dock.
Context `{Build} `{PanelFlags} {W : Type} `{Wm W} `{HasConsumers W} {S : Type} `{PanelStore S W}.
Variable stacking_manager : StackingManager.t.
Variable dock : S → t.
Variable set_dock : t → S → S.
(** What the panel manager does when the dock appears or goes, when a panel has a
    new size, and when some window is to take the focus. *)
Variable HandleDockVisibilityChange : M S unit.
Variable panel_manager_HandlePanelResize : Z → M S unit.
Variable wm_TakeFocus : M S unit.

Import PanelRef.

Definition get {A} (f : t → A) : M S A := gets (fun s => f (dock s)).
Definition upd (f : t → t) : M S unit := modify (fun s => set_dock (f (dock s)) s).
Definition actor (a : Z) (c : ActorCall) : M S unit := on_world (StackingManager.do_actor a c).
Definition shadow (a : Z) (c : ShadowCall) : M S unit := on_world (extern (fun w => ((), shadow_do a c w))).
Definition GetCurrentTimeFromServer : M S Z := on_world WindowManager.GetCurrentTimeFromServer.
Definition ConfigureInputWindow (d : t) : M S unit :=
  on_world (WindowManager.ConfigureInputWindow (bg_input_xid_ d) (x_ d) (y_ d) (width_ d) (height_ d));; mret ().

(** *** Focus *)

Definition FocusPanel (p : Z) (remove_pointer_grab : bool) (timestamp : Z) : M S unit :=
  RemoveButtonGrab p remove_pointer_grab;;
  r ← look p;
  on_world (WindowManager.SetActiveWindowProperty (Panel.content_xid r));;
  content_win p (Window.TakeFocus timestamp);;
  mret ().

(** How many collapsed panels there are before the first expanded one. *)
Fixpoint first_expanded (ps : list Z) : M S (option nat) :=
  match ps with
  | [] => mret None
  | p :: l => r ← look p; if Panel.is_expanded_ r then mret (Some 0%nat)
              else n ← first_expanded l; mret (Datatypes.S <$> n)
  end.
(** Above, it is at [panel_pos - 1 - n]; below, at [panel_pos + 1 + n]. *)
Definition GetNearestExpandedPanel (p : Z) : M S (option Z) :=
  d ← get id;
  let panel_pos := position_of p (panels_ d) in
  DCHECK (bool_decide (panel_pos ≠ length (panels_ d)));;
  above ← first_expanded (reverse (take panel_pos (panels_ d)));
  below ← first_expanded (drop (Datatypes.S panel_pos) (panels_ d));
  let nearest_pos :=
    match above, below with
    | None, None => None
    | Some a, None => Some (panel_pos - 1 - a)%nat
    | None, Some b => Some (panel_pos + 1 + b)%nat
    | Some a, Some b => Some (if decide (b < a)%nat then (panel_pos + 1 + b)%nat else (panel_pos - 1 - a)%nat)
    end in
  match nearest_pos with
  | None => mret None
  | Some i => match panels_ d !! i with Some q => mret (Some q) | None => fail Undefined end
  end.

(** *** Packing *)

(** The loop, from its state: whether the starting panel was found, the height of
    the panels so far, and the previous one. *)
Fixpoint pack_from (starting_panel : option Z) (found : bool) (total_height : Z) (prev : option Z) (ps : list Z)
    : M S unit :=
  match ps with
  | [] => mret ()
  | p :: l =>
      let found := found || bool_decide (starting_panel = Some p) in
      (if found then
         (match prev with
          | Some q => rq ← look q;
                      StackAbovePanel stacking_manager p rq StackingManager.LAYER_STATIONARY_PANEL_IN_DOCK
          | None => mret ()
          end);;
         d ← get id;
         MoveY p (i32 (y_ d + total_height)) true kPackPanelsAnimMs
       else mret ());;
      r ← look p;
      pack_from starting_panel found
        (i32 (total_height + (if Panel.is_expanded_ r then Panel.total_height r else Panel.titlebar_height r)))
        (Some p) l
  end.
Definition PackPanels (starting_panel : option Z) : M S unit :=
  d ← get id;
  pack_from starting_panel (bool_decide (starting_panel = None)) 0 None (panels_ d);;
  d ← get id;
  match panels_ d with
  | [p] => StackAtTopOfLayer stacking_manager p StackingManager.LAYER_STATIONARY_PANEL_IN_DOCK
  | _ => mret ()
  end.

(** *** Expanding and collapsing *)

Definition ExpandPanel (p : Z) : M S unit :=
  r ← look p;
  if Panel.is_expanded_ r then mret ()
  else SetExpandedState p true;; PackPanels (Some p).

Definition CollapsePanel (p : Z) : M S unit :=
  r ← look p;
  if negb (Panel.is_expanded_ r) then mret ()
  else
    d ← get id;
    match last (panels_ d) with
    | None => fail Undefined
    | Some bottom =>
        if decide (p = bottom) then mret ()
        else
          SetExpandedState p false;;
          PackPanels (Some p);;
          r ← look p;
          if Window.focused_ (Panel.content_win_ r) then
            new_panel_to_focus ← GetNearestExpandedPanel p;
            match new_panel_to_focus with
            | Some q => timestamp ← GetCurrentTimeFromServer; FocusPanel q true timestamp
            | None => wm_TakeFocus
            end
          else mret ()
    end.

(** *** Adding and removing panels *)

(** The top that makes the panel fit vertically. *)
Definition fit (d : t) (r : Panel.t) (py : Z) : Z :=
  let py := if i32 (y_ d + height_ d) <? i32 (py + Panel.total_height r)
            then i32 (y_ d + height_ d - Panel.total_height r) else py in
  if py <? y_ d then y_ d else py.

Definition AddPanel (p : Z) (source : PanelSource) : M S unit :=
  d ← get id;
  DCHECK (bool_decide (position_of p (panels_ d) = length (panels_ d)));;
  upd (fun d => d <| panels_ := panels_ d ++ [p] |>);;
  d ← get id;
  (if decide (length (panels_ d) = 1%nat) then
     ConfigureInputWindow d;;
     actor (bg_actor_ d) (Window.MoveX (x_ d) kBackgroundAnimMs);;
     shadow (bg_shadow_ d) (ShadowMoveX (x_ d) kBackgroundAnimMs);;
     shadow (bg_shadow_ d) (ShadowSetOpacity (Double.of_Z 1) kBackgroundAnimMs);;
     HandleDockVisibilityChange
   else mret ());;
  StackAtTopOfLayer stacking_manager p
    (if decide (source = PANEL_SOURCE_DRAGGED) then StackingManager.LAYER_DRAGGED_PANEL
     else StackingManager.LAYER_STATIONARY_PANEL_IN_DOCK);;
  r ← look p;
  d ← get id;
  Move p (i32 (if decide (type_ d = DOCK_TYPE_RIGHT) then x_ d + width_ d else x_ d + Panel.width r))
       (fit d r (Panel.titlebar_y r)) true 0;;
  r ← look p;
  if Window.focused_ (Panel.content_win_ r) then
    timestamp ← GetCurrentTimeFromServer; FocusPanel p false timestamp
  else AddButtonGrab p.

Definition RemovePanel (p : Z) : M S unit :=
  upd (fun d => if decide (dragged_panel_ d = Some p) then d <| dragged_panel_ := None |> else d);;
  d ← get id;
  let panel_pos := position_of p (panels_ d) in
  DCHECK (bool_decide (panel_pos ≠ length (panels_ d)));;
  if decide (panel_pos = length (panels_ d)) then fail Undefined
  else
    upd (fun d => d <| panels_ := take panel_pos (panels_ d) ++ drop (Datatypes.S panel_pos) (panels_ d) |>);;
    d ← get id;
    if decide (panels_ d = []) then
      x (ConfigureWindowOffscreen (bg_input_xid_ d));;
      actor (bg_actor_ d) (Window.MoveX (hidden_x d) kBackgroundAnimMs);;
      shadow (bg_shadow_ d) (ShadowMoveX (hidden_x d) kBackgroundAnimMs);;
      shadow (bg_shadow_ d) (ShadowSetOpacity (Double.of_Z 0) kBackgroundAnimMs);;
      HandleDockVisibilityChange
    else PackPanels (panels_ d !! panel_pos).

(** *** Dragging *)

Definition ShouldAddDraggedPanel (p drag_x drag_y : Z) : M S bool :=
  d ← get id;
  r ← look p;
  mret (if decide (type_ d = DOCK_TYPE_RIGHT)
        then i32 (x_ d + width_ d - kAttachThresholdPixels) <=? drag_x
        else i32 (drag_x - Panel.content_width r) <=? i32 (x_ d + kAttachThresholdPixels)).

(** Has the panel been dragged too far away? *)
Definition detached (d : t) (r : Panel.t) (drag_x : Z) : bool :=
  if decide (type_ d = DOCK_TYPE_RIGHT) then drag_x <=? i32 (x_ d + width_ d - kDetachThresholdPixels)
  else i32 (x_ d + kDetachThresholdPixels) <=? i32 (drag_x - Panel.content_width r).

Definition HandleNotifyPanelDraggedMessage (p drag_x drag_y : Z) : M S bool :=
  d ← get id;
  r ← look p;
  if detached d r drag_x then mret false
  else
    (if decide (dragged_panel_ d ≠ Some p) then
       upd (fun d => d <| dragged_panel_ := Some p |>);;
       StackAtTopOfLayer stacking_manager p StackingManager.LAYER_DRAGGED_PANEL;;
       SetShadowOpacity p (Double.of_Z 1) kPanelShadowAnimMs
     else mret ());;
    r ← look p;
    d ← get id;
    MoveY p (fit d r drag_y) false 0;;
    mret true.

Definition HandleNotifyPanelDragCompleteMessage (p : Z) : M S unit :=
  d ← get id;
  if decide (dragged_panel_ d ≠ Some p) then mret ()
  else
    r ← look p;
    Move p (Panel.right r) (Panel.titlebar_y r) true 0;;
    r ← look p;
    (if negb (Panel.width r =? width_ d) then
       ResizeContent (panel_manager_HandlePanelResize p) p (width_ d) (Panel.content_height r)
         (if decide (type_ d = DOCK_TYPE_RIGHT) then Window.GRAVITY_NORTHEAST else Window.GRAVITY_NORTHWEST)
     else mret ());;
    SetShadowOpacity p (Double.of_Z 0) kPanelShadowAnimMs;;
    d ← get id;
    PackPanels (dragged_panel_ d);;
    upd (fun d => d <| dragged_panel_ := None |>).

(** *** Events *)

Definition HandlePanelButtonPress (p timestamp : Z) : M S unit := FocusPanel p true timestamp.
Definition HandlePanelFocusChange (p : Z) (focus_in : bool) : M S unit :=
  if focus_in then mret () else AddButtonGrab p.
Definition HandleSetPanelStateMessage (p : Z) (expand : bool) : M S unit :=
  if expand then ExpandPanel p else CollapsePanel p.
Definition HandleFocusPanelMessage (p : Z) : M S unit :=
  timestamp ← GetCurrentTimeFromServer; FocusPanel p false timestamp.

Definition HandleScreenResize : M S unit :=
  height ← gets (fun s => wm_height (world s));
  width ← gets (fun s => wm_width (world s));
  upd (fun d => (if decide (type_ d = DOCK_TYPE_RIGHT) then d <| x_ := i32 (width - width_ d) |> else d)
                <| height_ := height |>);;
  d ← get id;
  let hidden := bool_decide (panels_ d = []) in
  let bg_x := if hidden then hidden_x d else x_ d in
  actor (bg_actor_ d) (SetSize (width_ d) (height_ d));;
  actor (bg_actor_ d) (Window.Move bg_x (y_ d) 0);;
  shadow (bg_shadow_ d) (ShadowResize (width_ d) (height_ d) 0);;
  shadow (bg_shadow_ d) (ShadowMove bg_x (y_ d) 0);;
  (if hidden then mret () else ConfigureInputWindow d);;
  if decide (type_ d = DOCK_TYPE_RIGHT)
  then for_each (fun p => d ← get id; MoveX p (i32 (x_ d + width_ d)) true 0) (panels_ d)
  else mret ().

(** *** Construction and destruction *)

Definition registrar (f : EventConsumerRegistrar.t * EventConsumers.t →
                          EventConsumerRegistrar.t * EventConsumers.t) : M S unit :=
  modify (fun s =>
    let '(r, c) := f (event_consumer_registrar_ (dock s), get_consumers (world s)) in
    set_world (set_consumers c (world s)) (set_dock ((dock s) <| event_consumer_registrar_ := r |>) s)).

(** [panel_manager] is the event consumer. *)
Definition construct (panel_manager : Z) (type : DockType) (width : Z) : M S unit :=
  wm_w ← gets (fun s => wm_width (world s));
  wm_h ← gets (fun s => wm_height (world s));
  bg_actor ← on_world (extern (new_image FLAGS_panel_dock_background_image));
  bg_shadow ← on_world (extern new_shadow);
  bg_input ← on_world (WindowManager.CreateInputWindow (-1) (-1) 1 1
                         (Z.lor Window.ButtonPressMask Panel.ButtonReleaseMask));
  upd (fun _ => mk type (if decide (type = DOCK_TYPE_LEFT) then 0 else i32 (wm_w - width)) 0 width wm_h [] None
                   bg_actor bg_shadow bg_input (EventConsumerRegistrar.new panel_manager));;
  registrar (EventConsumerRegistrar.RegisterForWindowEvents bg_input);;
  on_world (StackingManager.StackXidAtTopOfLayer stacking_manager bg_input StackingManager.LAYER_PANEL_DOCK);;
  d ← get id;
  shadow bg_shadow (ShadowGroup (SetName (str "panel dock background shadow")));;
  shadow bg_shadow (ShadowGroup AddToStage);;
  shadow bg_shadow (ShadowResize (width_ d) (height_ d) 0);;
  shadow bg_shadow (ShadowMove (hidden_x d) (y_ d) 0);;
  shadow bg_shadow (ShadowSetOpacity (Double.of_Z 0) 0);;
  shadow bg_shadow ShadowShow;;
  on_world (StackingManager.StackActorAtTopOfLayer stacking_manager (shadow_group bg_shadow)
              StackingManager.LAYER_PANEL_DOCK);;
  actor bg_actor (SetName (str "panel dock background"));;
  actor bg_actor AddToStage;;
  actor bg_actor (SetSize (width_ d) (height_ d));;
  actor bg_actor (Window.Move (hidden_x d) (y_ d) 0);;
  actor bg_actor (SetVisibility true);;
  on_world (StackingManager.StackActorAtTopOfLayer stacking_manager bg_actor StackingManager.LAYER_PANEL_DOCK).

(** The destructor, the members' destructors included. *)
Definition destroy : M S unit :=
  d ← get id;
  x (DestroyWindow (bg_input_xid_ d));;
  upd (fun d => d <| dragged_panel_ := None |>);;
  registrar (fun s => (s.1, EventConsumerRegistrar.destroy s));;
  shadow (bg_shadow_ d) (ShadowGroup DeleteActor);;
  actor (bg_actor_ d) DeleteActor.
End panel_dock.
End PanelDock.
