(* ===== verification/PanelDockSafe.v ===== *)
(** * The invariant of a panel dock (PanelDock.v), and that its operations keep it. *)

From S2P Require Import Prelude Hoare WmUtil XConnection WmIpc Double Window WmEvents Panel WmFrame PanelHeap.
From S2P Require Import PanelHeapSafe PanelDock.
Import PanelRef PanelDock.

Section dock.
Context `{Build} `{PanelFlags} {W : Type} `{WmFrame W} `{HasConsumers W} {S : Type} `{PanelStore S W}.
Variable sm : StackingManager.t.
Variable dock : S → PanelDock.t.
Variable set_dock : PanelDock.t → S → S.
Variable rest : S → S → Prop.
Context `{!PartPlace S W PanelDock.t dock set_dock rest}.
Hypothesis Hsm : layers_ok sm.
Abbreviation keep := (keep rest).
Abbreviation live := (live rest).

(** ** The invariant *)

(** The windows of a panel are windows. *)
Definition usable (r : Panel.t) : Prop := Panel.titlebar_xid r ≠ 0 ∧ has_area (Panel.content_win_ r).
Lemma usable_kept r r' : usable r → same_windows r r' → usable r'.
Proof. intros [Hx Ha] ((_ & Hr) & Hx' & _). split; [by rewrite Hx'|auto]. Qed.

Section invariant.
(** Panels that have not been placed yet; what else is known of the dock's other
    fields, and of the rest of the state. *)
Variable X : Z → Prop.
Variable Y : PanelDock.t → Prop.
Variable K : S → Prop.
Hypothesis K_stable : ∀ s s', K s → wm_ok (world s') → live s s' → K s'.

Record wf (s : S) : Prop := {
  wf_world : wm_ok (world s);
  wf_nodup : NoDup (panels_ (dock s));
  wf_dragged p : dragged_panel_ (dock s) = Some p → p ∈ panels_ (dock s);
  wf_heap p : p ∈ panels_ (dock s) →
    ∃ r, heap s !! p = Some r ∧ usable r ∧ (¬ X p → Panel.composited_windows_set_up_ r = true);
  wf_extra : Y (dock s);
  wf_rest : K s
}.
Definition dock_of (ps : list Z) (s : S) : Prop := wf s ∧ panels_ (dock s) = ps.

Lemma dock_of_members ps s s' :
  dock_of ps s → wm_ok (world s') → dock s' = dock s →
  (∀ q r, q ∈ panels_ (dock s) → heap s !! q = Some r → ∃ r', heap s' !! q = Some r' ∧ same_windows r r') →
  K s' → dock_of ps s'.
Proof.
  intros [[E1 E2 E3 E4 E5 E6] Hps] Hok Hd Hl HK. split; [|by rewrite Hd].
  split; rewrite ?Hd; try done. intros p Hp. destruct (E4 p Hp) as (r & Hr & Hx & Hup).
  destruct (Hl p r Hp Hr) as (r' & Hr' & Hsame). exists r'. split; [done|].
  split; [by eapply usable_kept|]. intros ?. apply Hsame. auto.
Qed.
Lemma dock_of_live ps s s' :
  dock_of ps s → wm_ok (world s') → dock s' = dock s → heap_lives s s' → K s' → dock_of ps s'.
Proof. intros Hs Hok Hd Hl HK. apply (dock_of_members ps s); [done..| |done]. intros q r _. apply Hl. Qed.

Context {ps : list Z}.
Abbreviation safe := (framed (dock_of ps) keep).
#[local] Instance dock_holds : Holds dock rest (dock_of ps).
Proof.
  split; [intros s [Hwf _]; apply Hwf|]. intros s s' Hs Hok Hd Hl.
  apply (dock_of_live ps s); [done..|apply Hl|]. eapply K_stable; [apply Hs|done|done].
Qed.

Lemma at_dock_panel p s : dock_of ps s → p ∈ ps →
  ∃ r, heap s !! p = Some r ∧ usable r ∧ (¬ X p → Panel.composited_windows_set_up_ r = true).
Proof. intros [Hwf Hps] Hp. apply (wf_heap s Hwf). by rewrite Hps. Qed.
Lemma dock_at_hand p : p ∈ ps → at_hand (dock_of ps) p.
Proof. intros Hp s Hs. destruct (at_dock_panel p s Hs Hp) as (r & Hr & _). by eexists. Qed.
Lemma dock_shown p : p ∈ ps → ¬ X p → shown (dock_of ps) p.
Proof. intros Hp HX s Hs. destruct (at_dock_panel p s Hs Hp) as (r & Hr & _ & Hup). exists r. auto. Qed.
#[local] Hint Resolve dock_at_hand dock_shown : framed.
#[local] Hint Extern 1 (0 ≤ _ < StackingManager.LAYER_BACKGROUND) => done : framed.

Lemma dsafe_MoveX p right mcw ms : p ∈ ps → ¬ X p → safe (MoveX p right mcw ms).
Proof. intros. eapply heap_MoveX; try apply _; auto with framed. Qed.
Lemma dsafe_MoveY p y mcw ms : p ∈ ps → ¬ X p → safe (MoveY p y mcw ms).
Proof. intros. eapply heap_MoveY; try apply _; auto with framed. Qed.
Lemma dsafe_Move p right y mcw ms : p ∈ ps → safe (Move p right y mcw ms).
Proof. intros. eapply heap_Move; try apply _; auto with framed. Qed.
Lemma dsafe_AddButtonGrab p : p ∈ ps → safe (AddButtonGrab p).
Proof. intros. eapply heap_AddButtonGrab; try apply _; auto with framed. Qed.
Lemma dsafe_RemoveButtonGrab p b : p ∈ ps → safe (RemoveButtonGrab p b).
Proof. intros. eapply heap_RemoveButtonGrab; try apply _; auto with framed. Qed.
Lemma dsafe_SetShadowOpacity p o ms : p ∈ ps → safe (SetShadowOpacity p o ms).
Proof. intros. eapply heap_SetShadowOpacity; try apply _; auto with framed. Qed.
Lemma dsafe_SetExpandedState p b : p ∈ ps → safe (SetExpandedState p b).
Proof. intros. eapply heap_SetExpandedState; try apply _; auto with framed. Qed.
Lemma dsafe_StackAtTopOfLayer p layer :
  p ∈ ps → 0 ≤ layer < StackingManager.LAYER_BACKGROUND → safe (StackAtTopOfLayer sm p layer).
Proof. intros. eapply heap_StackAtTopOfLayer; try apply _; auto with framed. Qed.
Lemma dsafe_content_win {A} p (m : M (Window.t * W) A) : p ∈ ps → steady m → safe (PanelRef.content_win p m).
Proof. intros. eapply heap_content_win; try apply _; auto with framed. Qed.
Lemma dsafe_look p : p ∈ ps → safe (look p).
Proof. intros. eapply heap_look; try apply _; auto with framed. Qed.
Lemma dsafe_on_world {A} (m : M W A) : quiet m → safe (on_world m).
Proof. intros. eapply heap_on_world; try apply _; done. Qed.
Lemma dsafe_get {A} (f : PanelDock.t → A) : safe (get dock f).
Proof. apply framed_gets, _. Qed.
Lemma dsafe_get_bind {A B} (f : PanelDock.t → A) (k : A → M S B) :
  (∀ s, dock_of ps s → safe (k (f (dock s)))) → safe (get dock f ≫= k).
Proof. intros Hk s Hs. apply wp_gets_bind. by apply Hk. Qed.

(** Stacked above its neighbour. *)
Lemma dsafe_stack_above p q :
  p ∈ ps → q ∈ ps →
  safe (rq ← look q; StackAbovePanel sm p rq StackingManager.LAYER_STATIONARY_PANEL_IN_DOCK).
Proof.
  intros Hp Hq s Hs. destruct (at_dock_panel q s Hs Hq) as (rq & Hrq & [Hx _] & _).
  eapply wp_cut; [by eapply (look_wp q rq (fun a s' => a = rq ∧ s' = s))|]. intros ? ? [-> ->].
  eapply heap_StackAbovePanel; try apply _; [done|done|done| |by apply dock_at_hand|exact Hs].
  intros s' r Hs' Hr. destruct (at_dock_panel p s' Hs' Hp) as (r' & Hr' & [Hx' _] & _). congruence.
Qed.

Lemma keep_set_dock d s : keep s (set_dock d s).
Proof. exact (keep_set_part dock set_dock rest d s). Qed.
(** The dragged panel changes, and fields outside the invariant. *)
Lemma dsafe_upd f :
  (∀ d, panels_ (f d) = panels_ d) →
  (∀ d, panels_ d = ps → (∀ p, dragged_panel_ d = Some p → p ∈ ps) → Y d →
        (∀ p, dragged_panel_ (f d) = Some p → p ∈ ps) ∧ Y (f d)) →
  safe (upd dock set_dock f).
Proof.
  intros Hp Hd. apply framed_modify. intros s [[E1 E2 E3 E4 E5 E6] Hps]. split; [|apply keep_set_dock].
  assert (∀ p, dragged_panel_ (dock s) = Some p → p ∈ ps) as E3' by (intros p; rewrite <-Hps; apply E3).
  destruct (Hd (dock s) Hps E3' E5) as [Hd1 Hd2].
  split; [|by rewrite part_set_part, Hp]. split.
  - by rewrite (world_set_part (part := dock) (rest := rest)).
  - by rewrite part_set_part, Hp.
  - rewrite part_set_part, Hp, Hps. exact Hd1.
  - rewrite part_set_part, Hp, (heap_set_part (part := dock) (rest := rest)). exact E4.
  - by rewrite part_set_part.
  - eapply K_stable; [exact E6| |apply keep_live, keep_set_dock].
    by rewrite (world_set_part (part := dock) (rest := rest)).
Qed.

#[local] Hint Resolve dsafe_MoveX dsafe_MoveY dsafe_Move dsafe_AddButtonGrab dsafe_RemoveButtonGrab
  dsafe_SetShadowOpacity dsafe_SetExpandedState dsafe_StackAtTopOfLayer dsafe_content_win dsafe_look dsafe_get
  dsafe_stack_above : framed.
#[local] Hint Extern 1 (framed _ _ (on_world _)) => apply dsafe_on_world : framed.
Lemma dsafe_actor a c : safe (actor a c).
Proof. unfold actor. frame. Qed.
Lemma dsafe_shadow a c : safe (shadow a c).
Proof. unfold shadow. frame. Qed.
Lemma dsafe_x r : safe (PanelRef.x r).
Proof. unfold PanelRef.x. frame. Qed.
Lemma dsafe_GetCurrentTimeFromServer : safe GetCurrentTimeFromServer.
Proof. unfold GetCurrentTimeFromServer. frame. Qed.
Lemma dsafe_ConfigureInputWindow d : safe (ConfigureInputWindow d).
Proof. unfold ConfigureInputWindow. frame. Qed.
#[local] Hint Resolve dsafe_actor dsafe_shadow dsafe_x dsafe_GetCurrentTimeFromServer dsafe_ConfigureInputWindow : framed.

(** ** The operations that keep the panels *)

Lemma dsafe_FocusPanel p b t : p ∈ ps → safe (FocusPanel p b t).
Proof. intros Hp. unfold FocusPanel. frame. Qed.
#[local] Hint Resolve dsafe_FocusPanel : framed.

Abbreviation safely P m := (∀ s, dock_of ps s → wp m (fun a s' => P a ∧ dock_of ps s' ∧ keep s s') s).
Lemma first_expanded_bound l : l ⊆ ps →
  safely (fun o => ∀ n, o = Some n → (n < length l)%nat) (first_expanded l).
Proof.
  induction l as [|q l IH]; intros Hl s Hs; cbn [first_expanded]; [split; [done|split; [done|reflexivity]]|].
  destruct (at_dock_panel q s Hs) as (r & Hr & _); [apply Hl; by left|].
  eapply wp_cut; [by eapply (look_wp q r (fun r' s' => s' = s))|]. intros r' ? ->.
  destruct (Panel.is_expanded_ r').
  - apply wp_ret. split; [intros n [= <-]; cbn; lia|]. split; [done|reflexivity].
  - eapply wp_cut; [apply IH; [set_solver|done]|]. intros o s' (Ho & Hs' & Hk'). apply wp_ret.
    split; [|done]. intros n Hn. destruct o as [m|]; [|done]. injection Hn as <-.
    specialize (Ho m eq_refl). cbn. lia.
Qed.
Lemma dock_nearest_in p : p ∈ ps →
  safely (fun o => ∀ q, o = Some q → q ∈ ps) (GetNearestExpandedPanel dock p).
Proof.
  intros Hp s Hs. unfold GetNearestExpandedPanel. apply wp_gets_bind. cbn [id]. rewrite (proj2 Hs).
  pose proof (position_of_spec p ps Hp) as Hat. set (i := position_of p ps) in *.
  pose proof (lookup_lt_Some _ _ _ Hat) as Hi.
  rewrite bool_decide_true by lia. unfold DCHECK.
  replace (if dchecks then CHECK true else mret ()) with (mret () : M S unit) by by destruct dchecks.
  apply wp_ret_bind.
  eapply wp_cut; [apply (first_expanded_bound (reverse (take i ps))); [|done]|].
  { intros q Hq. rewrite elem_of_reverse in Hq. apply elem_of_take in Hq as (? & ?%list_elem_of_lookup_2 & _). done. }
  intros above s1 (Ha & Hs1 & Hk1).
  eapply wp_cut; [apply (first_expanded_bound (drop (Datatypes.S i) ps)); [|done]|].
  { intros q Hq. rewrite <-(take_drop (Datatypes.S i) ps). apply elem_of_app. by right. }
  intros below s2 (Hb & Hs2 & Hk2).
  assert (∀ j, (j < length ps)%nat →
    wp (match ps !! j with Some q => mret (Some q) | None => fail Undefined end : M S (option Z))
       (fun o s' => (∀ q, o = Some q → q ∈ ps) ∧ dock_of ps s' ∧ keep s s') s2) as Hpick.
  { intros j Hj. apply lookup_lt_is_Some in Hj as [q Hq]. rewrite Hq. apply wp_ret.
    split; [intros ? [= <-]; by eapply list_elem_of_lookup_2|]. split; [done|by etransitivity]. }
  rewrite length_reverse, length_take in Ha. rewrite length_drop in Hb.
  destruct above as [a|]; [specialize (Ha a eq_refl)|]; (destruct below as [b|]; [specialize (Hb b eq_refl)|]).
  - destruct (decide _); apply Hpick; lia.
  - apply Hpick. lia.
  - apply Hpick. lia.
  - apply wp_ret. split; [done|]. split; [done|by etransitivity].
Qed.

Section placed.
Hypothesis HX : ∀ q, q ∈ ps → ¬ X q.

Lemma dsafe_pack_from start l : l ⊆ ps →
  ∀ found total prev, (∀ q, prev = Some q → q ∈ ps) → safe (pack_from sm dock start found total prev l).
Proof.
  induction l as [|p l IH]; intros Hl found total prev Hprev; cbn [pack_from]; [frame|].
  assert (p ∈ ps) as Hp by (apply Hl; by left). specialize (HX p Hp) as HXp.
  assert (safe (match prev with
                | Some q => rq ← look q; StackAbovePanel sm p rq StackingManager.LAYER_STATIONARY_PANEL_IN_DOCK
                | None => mret ()
                end)) as Hstack.
  { destruct prev as [q|]; [apply dsafe_stack_above; auto|frame]. }
  apply framed_bind; [apply _| |intros _].
  - destruct (found || _); [|frame]. apply framed_bind; [apply _|exact Hstack|frame].
  - apply framed_bind; [apply _|frame|intros r]. apply IH; [set_solver|]. by intros q [= <-].
Qed.
Lemma dsafe_PackPanels start : safe (PackPanels sm dock start).
Proof.
  unfold PackPanels. apply dsafe_get_bind. intros s [_ Hps]. cbn [id]. rewrite Hps.
  apply framed_bind; [apply _|by apply dsafe_pack_from|intros _].
  apply dsafe_get_bind. intros s' [_ Hps']. cbn [id]. generalize (eq_sym Hps'). generalize (panels_ (dock s')).
  intros [|p [|q l]] El; [frame| |frame]. apply dsafe_StackAtTopOfLayer; [rewrite El; by left|done].
Qed.
#[local] Hint Resolve dsafe_PackPanels : framed.
Lemma dsafe_ExpandPanel p : p ∈ ps → safe (ExpandPanel sm dock p).
Proof. intros Hp. unfold ExpandPanel. frame. Qed.

Variable wm_TakeFocus : M S unit.
Hypothesis wm_TakeFocus_safe : safe wm_TakeFocus.
Lemma dsafe_CollapsePanel p : p ∈ ps → safe (CollapsePanel sm dock wm_TakeFocus p).
Proof.
  intros Hp. unfold CollapsePanel. apply framed_bind; [apply _|frame|intros r].
  destruct (negb _); [frame|]. apply dsafe_get_bind. intros s [_ Hps]. cbn [id]. rewrite Hps.
  destruct (last ps) as [bottom|] eqn:El; [|by apply last_None in El as ->; apply elem_of_nil in Hp].
  destruct (decide _); [frame|].
  apply framed_bind; [apply _|frame|intros _]. apply framed_bind; [apply _|frame|intros _].
  apply framed_bind; [apply _|frame|intros r']. destruct (Window.focused_ _); [|frame].
  intros s1 Hs1. eapply wp_cut; [by apply dock_nearest_in|]. intros o s2 (Ho & Hs2 & Hk2).
  assert (safe (match o with
                | Some q => timestamp ← GetCurrentTimeFromServer; FocusPanel q true timestamp
                | None => wm_TakeFocus end)) as Hlast.
  { destruct o as [q|]; [|done]. specialize (Ho q eq_refl). frame. }
  eapply wp_mono; [by apply Hlast|]. intros _ s3 [??]. split; [done|by etransitivity].
Qed.

(** *** Dragging *)

Lemma dsafe_HandleNotifyPanelDraggedMessage p x y : p ∈ ps → (∀ d, Y d → Y (d <| dragged_panel_ := Some p |>)) →
  safe (HandleNotifyPanelDraggedMessage sm dock set_dock p x y).
Proof.
  intros Hp HY. unfold HandleNotifyPanelDraggedMessage. specialize (HX p Hp) as HXp.
  assert (safe (upd dock set_dock (fun d => d <| dragged_panel_ := Some p |>))) as Hupd.
  { apply dsafe_upd; [by intros []|]. intros d _ _ HYd. split; [destruct d; by intros ? [= <-]|by apply HY]. }
  frame.
Qed.

Lemma dsafe_HandlePanelFocusChange p b : p ∈ ps → safe (HandlePanelFocusChange p b).
Proof. intros Hp. unfold HandlePanelFocusChange. frame. Qed.
Lemma dsafe_HandleSetPanelStateMessage p b : p ∈ ps → safe (HandleSetPanelStateMessage sm dock wm_TakeFocus p b).
Proof. intros Hp. unfold HandleSetPanelStateMessage. destruct b; [by apply dsafe_ExpandPanel|by apply dsafe_CollapsePanel]. Qed.
Lemma dsafe_HandleFocusPanelMessage p : p ∈ ps → safe (HandleFocusPanelMessage p).
Proof. intros Hp. unfold HandleFocusPanelMessage. frame. Qed.
Lemma dsafe_HandlePanelButtonPress p t : p ∈ ps → safe (HandlePanelButtonPress p t).
Proof. intros Hp. unfold HandlePanelButtonPress. frame. Qed.

Lemma dsafe_for_each {A} (f : A → M S unit) l : (∀ a, a ∈ l → safe (f a)) → safe (for_each f l).
Proof.
  induction l as [|a l IH]; intros Hf; [apply framed_ret, _|]. cbn [for_each].
  apply framed_bind; [apply _|apply Hf; by left|intros _; apply IH; set_solver].
Qed.
Lemma dsafe_HandleScreenResize :
  (∀ d x h, Y d → x = x_ d ∨ (∃ w, wm_ok w ∧ x = i32 (wm_width w - width_ d)) →
     Y (d <| x_ := x |>) ∧ Y (d <| height_ := h |>)) →
  safe (HandleScreenResize dock set_dock).
Proof.
  intros HY. unfold HandleScreenResize. apply framed_bind; [apply _|frame|intros h].
  apply (framed_cut _ _ (fun v => ∃ w, wm_ok w ∧ v = wm_width w)).
  { intros s Hs. apply wp_gets. split; [exists (world s); split; [apply Hs|done]|]. by split. }
  intros w (w0 & Hw0 & ->). apply framed_bind; [apply _| |intros _].
  { apply dsafe_upd; [intros []; by case_decide|]. intros d _ Hd HYd. split; [destruct d; by case_decide|].
    case_decide; [|by apply (HY d (x_ d)); [|left]].
    eapply (HY _ (x_ _)); [|by left]. apply (HY d _ 0); [done|right]. by exists w0. }
  apply dsafe_get_bind. intros s [_ Hps]. cbn [id]. rewrite Hps.
  do 4 (apply framed_bind; [apply _|frame|intros _]). apply framed_bind; [apply _|frame|intros _].
  destruct (decide _); [|frame]. apply dsafe_for_each. intros p Hp. specialize (HX p Hp). frame.
Qed.

(** The drag's end, which gives the panel the dock's width. *)
Variable HandlePanelResize : Z → M S unit.
Lemma dsafe_live {A} (m : M S A) : safe m → framed (dock_of ps) live m.
Proof. intros Hm. eapply framed_weaken; [exact Hm|]. intros ??. apply keep_live. Qed.
Lemma dsafe_HandleNotifyPanelDragCompleteMessage p : p ∈ ps →
  (∀ d, Y d → 0 < width_ d) → (∀ d, Y d → Y (d <| dragged_panel_ := None |>)) → safe (HandlePanelResize p) →
  framed (dock_of ps) live (HandleNotifyPanelDragCompleteMessage sm dock set_dock HandlePanelResize p).
Proof.
  intros Hp HYw HYn HH s Hs. unfold HandleNotifyPanelDragCompleteMessage. apply wp_gets_bind. cbn [id].
  specialize (HYw _ (wf_extra s (proj1 Hs))). revert HYw. generalize (width_ (dock s)). intros width Hw.
  generalize (type_ (dock s)). intros type. destruct (decide _) as [_|_]; [split; [done|reflexivity]|].
  match goal with |- wp ?m _ _ => enough (framed (dock_of ps) live m) as Hm by exact (Hm s Hs) end. clear s Hs.
  apply framed_bind; [apply _|apply dsafe_live; frame|intros r].
  apply framed_bind; [apply _|apply dsafe_live; frame|intros _]. clear r.
  apply (framed_cut _ _ (fun r => 0 < Panel.content_height r)).
  { intros s Hs. destruct (at_dock_panel p s Hs Hp) as (r & Hr & [_ [_ Hh]] & _).
    eapply look_wp; [exact Hr|]. split; [done|]. split; [done|reflexivity]. }
  intros r Hh. apply framed_bind; [apply _| |].
  - destruct (negb _); [|apply framed_ret, _].
    eapply heap_ResizeContent; try apply _; [by apply dock_at_hand|done|done|by apply dsafe_live].
  - intros _. apply dsafe_live. apply framed_bind; [apply _|frame|intros _].
    apply framed_bind; [apply _|frame|intros d]. apply framed_bind; [apply _|frame|intros _].
    apply dsafe_upd; [by intros []|]. intros d' _ _ HYd. split; [by destruct d'|by apply HYn].
Qed.
End placed.
End invariant.

(** ** Adding and removing panels *)

Definition placed_all (p : Z) : Prop := False.
(** The panel manager is told that the dock appeared or went; that touches neither
    the dock nor the panels. *)
Variable HandleDockVisibilityChange : M S unit.
Hypothesis visibility_safe : ∀ I, Holds dock rest I → framed I keep HandleDockVisibilityChange.

Section listing.
Variable Y : PanelDock.t → Prop.
Hypothesis Y_panels : ∀ d l, Y d → Y (d <| panels_ := l |>).
Variable K : S → Prop.
Hypothesis K_stable : ∀ s s', K s → wm_ok (world s') → live s s' → K s'.

Lemma K_set_dock d s : K s → wm_ok (world s) → K (set_dock d s).
Proof.
  intros HK Hok. eapply K_stable; [exact HK| |apply keep_live, keep_set_dock].
  by rewrite (world_set_part (part := dock) (rest := rest)).
Qed.

Lemma dock_of_add p r ps s :
  dock_of placed_all Y K ps s → heap s !! p = Some r → p ∉ ps → usable r →
  dock_of (eq p) Y K (ps ++ [p]) (set_dock ((dock s) <| panels_ := panels_ (dock s) ++ [p] |>) s).
Proof.
  intros [[E1 E2 E3 E4 E5 E6] Hps] Hr Hp Hu. split; [|rewrite part_set_part, <-Hps; by destruct (dock s)].
  split; rewrite ?part_set_part, ?(heap_set_part (part := dock) (rest := rest)),
    ?(world_set_part (part := dock) (rest := rest)); auto using K_set_dock.
  - rewrite Hps in *. destruct (dock s); cbn in *; subst. apply NoDup_app. split; [done|].
    split; [|apply NoDup_singleton]. by intros q Hq ->%list_elem_of_singleton.
  - intros q Hq. destruct (dock s); cbn in *. apply elem_of_app. left. auto.
  - intros q Hq. assert (q ∈ ps ∨ q = p) as [Hq'| ->].
    { rewrite Hps in Hq. destruct (dock s); cbn in Hq. apply elem_of_app in Hq as [|?%list_elem_of_singleton]; auto. }
    + rewrite <-Hps in Hq'. destruct (E4 q Hq') as (rq & Hrq & Huq & Hup). exists rq.
      split; [done|]. split; [done|]. intros _. apply Hup. by intros [].
    + exists r. split; [done|]. split; [done|]. by intros [].
Qed.

Lemma dock_Move_places ps p right y mcw ms s :
  dock_of (eq p) Y K ps s → p ∈ ps →
  wp (Move p right y mcw ms) (fun _ s' => dock_of placed_all Y K ps s' ∧ keep s s') s.
Proof.
  intros Hs Hp. destruct (at_dock_panel _ Y K p s Hs Hp) as (r & Hr & _).
  eapply wp_mono; [apply (call_wp dock rest _ p r
    (fun r r' => moved_xy right y r r' ∧ Panel.composited_windows_set_up_ r' = true)); [done|]|].
  - eapply wp_mono; [apply (Move_wp _ _ _ _ (elsewhere dock rest p)), Hs|]. intros a s' (Hok & (?&?&?) & Hup). by split.
  - intros a s' [Hok Ht]. assert (keep s s') as Hk.
    { eapply (touched_keep dock rest); [|exact Ht]. intros ?? [? _]. by eapply moved_kept. }
    split; [|done].
    destruct (dock_of_live (eq p) Y K ps s s') as [[E1 E2 E3 E4 E5 E6] Hps]; [done|done|apply Ht| |
      eapply K_stable; [apply Hs|done|by apply keep_live]|].
    { by apply keep_live in Hk as (_ & ? & _). }
    split; [|done]. split; try done. intros q Hq. destruct (E4 q Hq) as (rq & Hrq & Hu & Hup). exists rq.
    split; [done|]. split; [done|]. intros _. destruct (decide (p = q)) as [<-|Hne]; [|by apply Hup].
    destruct Ht as (_ & _ & _ & _ & r1 & r2 & _ & Hr2 & _ & ?). congruence.
Qed.

#[local] Hint Resolve dsafe_look dsafe_get dsafe_actor dsafe_shadow dsafe_x dsafe_ConfigureInputWindow
  dsafe_GetCurrentTimeFromServer dsafe_FocusPanel dsafe_AddButtonGrab dsafe_PackPanels : framed.
Lemma dsafe_visibility X ps : framed (dock_of X Y K ps) keep HandleDockVisibilityChange.
Proof. apply visibility_safe. by apply dock_holds. Qed.
#[local] Hint Resolve dsafe_visibility : framed.

Lemma dock_then {A} X ps s0 s (m : M S A) :
  dock_of X Y K ps s → keep s0 s → framed (dock_of X Y K ps) keep m →
  wp m (fun _ s' => dock_of X Y K ps s' ∧ keep s0 s') s.
Proof. intros Hs Hk Hm. eapply wp_mono; [by apply Hm|]. intros a s' [??]. split; [done|by etransitivity]. Qed.

Lemma dsafe_AddPanel ps p r source s :
  dock_of placed_all Y K ps s → heap s !! p = Some r → p ∉ ps → usable r →
  wp (AddPanel sm dock set_dock HandleDockVisibilityChange p source)
     (fun _ s' => dock_of placed_all Y K (ps ++ [p]) s' ∧ keep s s') s.
Proof.
  intros Hs Hr Hp Hu. unfold AddPanel. apply wp_gets_bind. cbn [id]. rewrite (proj2 Hs).
  eapply wp_cut; [instantiate (1 := fun _ s' => s' = s)|].
  { unfold DCHECK. destruct dchecks; [|done]. apply wp_CHECK; [|done].
    by apply bool_decide_eq_true, position_of_absent. }
  intros _ ? ->. apply wp_modify_bind. pose proof (dock_of_add p r ps s Hs Hr Hp Hu) as Hs1.
  set (s1 := set_dock _ s) in *. assert (keep s s1) as Hk1 by apply keep_set_dock.
  assert (p ∈ ps ++ [p]) as Hin by (apply elem_of_app; right; by left).
  eapply wp_cut; [apply (dock_then (eq p) (ps ++ [p]) s s1 _ Hs1 Hk1); frame|]. intros d s2 [Hs2 Hk2].
  eapply wp_cut; [apply (dock_then (eq p) (ps ++ [p]) s s2 _ Hs2 Hk2); frame|]. intros _ s3 [Hs3 Hk3].
  eapply wp_cut; [apply (dock_then (eq p) (ps ++ [p]) s s3 _ Hs3 Hk3)|].
  { apply dsafe_StackAtTopOfLayer; [done..|]. by case_decide. }
  intros _ s4 [Hs4 Hk4].
  eapply wp_cut; [apply (dock_then (eq p) (ps ++ [p]) s s4 _ Hs4 Hk4); frame|]. intros r5 s5 [Hs5 Hk5].
  eapply wp_cut; [apply (dock_then (eq p) (ps ++ [p]) s s5 _ Hs5 Hk5); frame|]. intros d6 s6 [Hs6 Hk6].
  eapply wp_cut; [by apply (dock_Move_places (ps ++ [p]))|]. intros _ s7 [Hs7 Hk7].
  apply dock_then; [done|by etransitivity|]. frame.
Qed.

(** The list without the panel at a position. *)
Definition without (p : Z) (ps : list Z) : list Z :=
  take (position_of p ps) ps ++ drop (Datatypes.S (position_of p ps)) ps.
Lemma without_perm p ps : p ∈ ps → ps ≡ₚ p :: without p ps.
Proof.
  intros Hp. pose proof (position_of_spec p ps Hp) as Hat. unfold without.
  rewrite <-(take_drop_middle _ _ _ Hat) at 1. symmetry. apply Permutation_middle.
Qed.
Lemma dock_of_remove p ps s :
  dock_of placed_all (fun d => Y d ∧ dragged_panel_ d ≠ Some p) K ps s → p ∈ ps →
  dock_of placed_all Y K (without p ps) (set_dock ((dock s) <| panels_ := without p ps |>) s).
Proof.
  intros [[E1 E2 E3 E4 [E5 Ed] E6] Hps] Hp. pose proof (without_perm p ps Hp) as Hperm.
  assert (∀ q, q ∈ ps ↔ q = p ∨ q ∈ without p ps) as Hin by (intros q; rewrite <-elem_of_cons; by rewrite <-Hperm).
  assert (NoDup (without p ps)) as Hnd.
  { rewrite Hps in E2. assert (NoDup (p :: without p ps)) as [_ ?]%NoDup_cons by by rewrite <-Hperm. done. }
  split; [|rewrite part_set_part; by destruct (dock s)].
  split; rewrite ?part_set_part, ?(heap_set_part (part := dock) (rest := rest)),
    ?(world_set_part (part := dock) (rest := rest)); auto using K_set_dock; destruct (dock s) eqn:Ed'; cbn in *; try done.
  - intros q Hq. apply E3 in Hq as Hqp. rewrite Hps in Hqp. apply Hin in Hqp as [->|?]; [by destruct Ed|done].
  - intros q Hq. apply E4. rewrite Hps. apply Hin. by right.
Qed.

Lemma dsafe_RemovePanel ps p s :
  (∀ d, Y d → Y (d <| dragged_panel_ := None |>)) → dock_of placed_all Y K ps s → p ∈ ps →
  wp (RemovePanel sm dock set_dock HandleDockVisibilityChange p)
     (fun _ s' => dock_of placed_all Y K (without p ps) s' ∧ keep s s') s.
Proof.
  intros HYn Hs Hp. unfold RemovePanel. apply wp_modify_bind. set (s1 := set_dock _ s).
  assert (dock_of placed_all (fun d => Y d ∧ dragged_panel_ d ≠ Some p) K ps s1) as Hs1.
  { destruct Hs as [[E1 E2 E3 E4 E5 E6] Hps]. unfold s1. split; [|rewrite part_set_part; by case_decide; destruct (dock s)].
    split; rewrite ?part_set_part, ?(heap_set_part (part := dock) (rest := rest)),
      ?(world_set_part (part := dock) (rest := rest)); auto using K_set_dock; (case_decide; [|try done]).
    all: try (by destruct (dock s)). split; [by apply HYn|by destruct (dock s)]. }
  assert (keep s s1) as Hk1 by apply keep_set_dock.
  apply wp_gets_bind. cbn [id]. rewrite (proj2 Hs1).
  pose proof (lookup_lt_Some _ _ _ (position_of_spec p ps Hp)) as Hlt.
  eapply wp_cut; [instantiate (1 := fun _ s' => s' = s1)|].
  { unfold DCHECK. destruct dchecks; [|done]. apply wp_CHECK; [|done]. apply bool_decide_eq_true. lia. }
  intros _ ? ->. rewrite decide_False by lia. apply wp_modify_bind. rewrite (proj2 Hs1). fold (without p ps).
  pose proof (dock_of_remove p ps s1 Hs1 Hp) as Hs2. set (s2 := set_dock _ s1) in *.
  assert (keep s s2) as Hk2 by (etransitivity; [exact Hk1|apply keep_set_dock]).
  apply wp_gets_bind. cbn [id]. rewrite (proj2 Hs2). apply dock_then; [done..|].
  assert (∀ q, q ∈ without p ps → ¬ placed_all q) as Hplaced by (by intros ? ? []).
  frame.
Qed.
End listing.
End dock.
