(* ===== verification/PanelManager.v ===== *)
(** * The panel manager: panel_manager.{h,cc}.

    It owns the panels, keeps the books of which container holds which panel, and
    hands the events to the containers and the panels.  A container is called
    through its virtual functions ([Container.t]).  A window is in [windows] or in
    the panel that was made of it; wherever it is, it is found by its XID. *)

From S2P Require Import Prelude WmUtil XConnection WmIpc Double Window WmEvents Panel PanelHeap PanelDock.

(** The objects that [panel_bar_], [left_panel_dock_] and [right_panel_dock_] are. *)
Inductive ContainerRef := PANEL_BAR | LEFT_PANEL_DOCK | RIGHT_PANEL_DOCK.
#[global] Instance ContainerRef_eq_dec : EqDecision ContainerRef.
Proof. solve_decision. Defined.

Module PanelManager.
Definition kDraggedPanelUpdateMs : Z := 25.
Definition kDetachPanelAnimMs : Z := 100.
Definition kPanelDockWidth : Z := 256.

(** [panels_] maps content XIDs to addresses of panels that are owned. *)
Record t := mk {
  panels_ : gmap Z Z;
  panels_by_titlebar_xid_ : gmap Z Z;
  dragged_panel_ : option Z;
  dragged_panel_event_coalescer_ : MotionEventCoalescer.t;
  container_input_xids_ : gmap Z ContainerRef;
  panel_input_xids_ : gmap Z Z;
  containers_ : list ContainerRef;
  containers_by_panel_ : gmap Z ContainerRef;
  saw_map_request_ : bool;
  event_consumer_registrar_ : EventConsumerRegistrar.t
}.
#[global] Instance eta_t : Eta t := fun r =>
  mk (panels_ r) (panels_by_titlebar_xid_ r) (dragged_panel_ r) (dragged_panel_event_coalescer_ r)
     (container_input_xids_ r) (panel_input_xids_ r) (containers_ r) (containers_by_panel_ r)
     (saw_map_request_ r) (event_consumer_registrar_ r).

Definition IsInputWindow (xid : Z) (m : t) : bool :=
  bool_decide (is_Some (container_input_xids_ m !! xid)) || bool_decide (is_Some (panel_input_xids_ m !! xid)).
(** NULL is [None]. *)
Definition GetPanelByWindow (xid : Z) (m : t) : option Z :=
  match panels_ m !! xid with Some p => Some p | None => panels_by_titlebar_xid_ m !! xid end.
Definition GetContainerForPanel (p : Z) (m : t) : option ContainerRef := containers_by_panel_ m !! p.

Section panel_manager.
Context `{Build} `{PanelFlags} {W : Type} `{Wm W} `{HasConsumers W} {S : Type} `{PanelStore S W}.
Variable stacking_manager : StackingManager.t.
Variable pm : S → t.
Variable set_pm : t → S → S.
(** The windows of the window manager that no panel is made of. *)
Variable windows : S → gmap Z Window.t.
Variable set_windows : gmap Z Window.t → S → S.
Variable container : ContainerRef → Container.t S.
(** The docks by themselves: [IsVisible] and [width] are not virtual. *)
Variable left_panel_dock : S → PanelDock.t.
Variable right_panel_dock : S → PanelDock.t.
Variable wm_HandleLayoutManagerAreaChange : Z → Z → Z → Z → M S unit.
Variable wm_TakeFocus : M S unit.
Variable wm_ipc_version : S → Z.
(** [PanelBar::TakeFocus], which is not virtual. *)
Variable panel_bar_TakeFocus : M S bool.
(** The address of a new panel; [drag_gravity_]'s indeterminate value; the address
    of the panel manager. *)
Variable new_panel_address : S → Z.
Variable indeterminate_gravity : Window.Gravity.
Variable self : Z.

Import PanelRef.

Definition get {A} (f : t → A) : M S A := gets (fun s => f (pm s)).
Definition upd (f : t → t) : M S unit := modify (fun s => set_pm (f (pm s)) s).
Definition lift {A} (r : result A) : M S A := match r with Val a => mret a | Fault f => fail f end.

(** *** Finding windows *)

Definition panel_with (xid : Z) (s : S) : option (Z * Panel.t) :=
  snd <$> list_find (fun pr => Panel.content_xid pr.2 = xid ∨ Panel.titlebar_xid pr.2 = xid) (map_to_list (heap s)).
(** [wm_->GetWindow(xid)]. *)
Definition GetWindow (xid : Z) (s : S) : option Window.t :=
  match windows s !! xid with
  | Some w => Some w
  | None => match panel_with xid s with
            | Some (_, r) => Some (if Panel.content_xid r =? xid then Panel.content_win_ r else Panel.titlebar_win_ r)
            | None => None
            end
  end.
(** [win->op(...)]. *)
Definition on_window {A} (xid : Z) (m : M (Window.t * W) A) : M S A :=
  ws ← gets windows;
  match ws !! xid with
  | Some w => zoom (fun s => (default w (windows s !! xid), world s))
                   (fun ww s => set_world ww.2 (set_windows (<[xid := ww.1]> (windows s)) s)) m
  | None =>
      pr ← gets (panel_with xid);
      match pr with
      | Some (p, r) => if Panel.content_xid r =? xid then content_win p m
                       else call (fun f sf w sw => Panel.titlebar_win f sf w sw m) p
      | None => fail Undefined
      end
  end.
Definition GetPanelByXid (xid : Z) (s : S) : option Z :=
  match GetWindow xid s with Some _ => GetPanelByWindow xid (pm s) | None => None end.

(** *** Containers *)

Definition UpdateAvailableArea : M S unit :=
  left ← gets left_panel_dock;
  right ← gets right_panel_dock;
  width ← gets (fun s => wm_width (world s));
  height ← gets (fun s => wm_height (world s));
  let '(avail_x, avail_width) :=
    if PanelDock.IsVisible left then (i32 (PanelDock.width left), i32 (width - PanelDock.width left)) else (0, width) in
  let avail_width := if PanelDock.IsVisible right then i32 (avail_width - PanelDock.width right) else avail_width in
  wm_HandleLayoutManagerAreaChange avail_x 0 avail_width height.
Definition HandleDockVisibilityChange : M S unit := UpdateAvailableArea.

(** To the panel's container, if any. *)
Definition to_container (p : Z) (f : Container.t S → M S unit) : M S unit :=
  c ← get (GetContainerForPanel p);
  match c with Some c => f (container c) | None => mret () end.
Definition HandlePanelResize (p : Z) : M S unit := to_container p (fun c => Container.HandlePanelResize c p).

Definition AddPanelToContainer (p : Z) (c : ContainerRef) (source : PanelSource) : M S unit :=
  c0 ← get (GetContainerForPanel p);
  DCHECK (bool_decide (c0 = None));;
  CHECK (bool_decide (c0 = None));;
  upd (fun m => m <| containers_by_panel_ := <[p := c]> (containers_by_panel_ m) |>);;
  Container.AddPanel (container c) p source.

Definition RemovePanelFromContainer (p : Z) (c : ContainerRef) : M S unit :=
  c0 ← get (GetContainerForPanel p);
  DCHECK (bool_decide (c0 = Some c));;
  CHECK (bool_decide (is_Some c0));;
  upd (fun m => m <| containers_by_panel_ := delete p (containers_by_panel_ m) |>);;
  Container.RemovePanel (container c) p;;
  RemoveButtonGrab p false;;
  SetResizable p false;;
  SetShadowOpacity p (Double.of_Z 1) kDetachPanelAnimMs;;
  SetExpandedState p true;;
  mret ().

(** [CHECK(container_input_xids_.insert(...).second)]. *)
Definition register_input (c : ContainerRef) (xid : Z) : M S unit :=
  m ← get id;
  CHECK (bool_decide (container_input_xids_ m !! xid = None));;
  upd (fun m => m <| container_input_xids_ := <[xid := c]> (container_input_xids_ m) |>).
Definition RegisterContainer (c : ContainerRef) : M S unit :=
  input_xids ← gets (Container.GetInputWindows (container c));
  for_each (register_input c) input_xids;;
  upd (fun m => m <| containers_ := containers_ m ++ [c] |>).

(** *** Dragging *)

(** Offer the panel to the containers; the first that wants it gets it. *)
Fixpoint offer (p px py : Z) (cs : list ContainerRef) : M S bool :=
  match cs with
  | [] => mret false
  | c :: l =>
      wanted ← Container.ShouldAddDraggedPanel (container c) p px py;
      if wanted : bool then
        AddPanelToContainer p c PANEL_SOURCE_DRAGGED;;
        handled ← Container.HandleNotifyPanelDraggedMessage (container c) p px py;
        CHECK handled;;
        mret true
      else offer p px py l
  end.

Definition HandlePeriodicPanelDragMotion : M S unit :=
  m ← get id;
  DCHECK (bool_decide (dragged_panel_ m ≠ None));;
  match dragged_panel_ m with
  | None => mret ()
  | Some p =>
      let px := MotionEventCoalescer.x_ (dragged_panel_event_coalescer_ m) in
      let py := MotionEventCoalescer.y_ (dragged_panel_event_coalescer_ m) in
      state ← (match GetContainerForPanel p m with
               | Some c =>
                   handled ← Container.HandleNotifyPanelDraggedMessage (container c) p px py;
                   if handled : bool then mret (true, false)
                   else RemovePanelFromContainer p c;; mret (false, true)
               | None => mret (false, false)
               end);
      let '(container_handled_drag, panel_was_detached) := state : bool * bool in
      if container_handled_drag then mret ()
      else
        (if panel_was_detached then
           r ← look p;
           SetTitlebarWidth p (Panel.content_width r);;
           StackAtTopOfLayer stacking_manager p StackingManager.LAYER_DRAGGED_PANEL
         else mret ());;
        m ← get id;
        panel_was_reattached ← offer p px py (containers_ m);
        if panel_was_reattached : bool then mret ()
        else Move p px py false (if panel_was_detached then kDetachPanelAnimMs else 0)
  end.

(** The coalescer inside the panel manager. *)
Definition coalescer (s : S) : MotionEventCoalescer.t := dragged_panel_event_coalescer_ (pm s).
Definition set_coalescer (c : MotionEventCoalescer.t) (s : S) : S :=
  set_pm ((pm s) <| dragged_panel_event_coalescer_ := c |>) s.
Definition timeout_add (ms : Z) : M S Z := on_world (extern (g_timeout_add ms)).
Definition source_remove (id : Z) : M S unit := on_world (extern (fun w => ((), g_source_remove id w))).

Definition HandlePanelDragComplete (p : Z) (removed : bool) : M S unit :=
  m ← get id;
  DCHECK (bool_decide (dragged_panel_ m = Some p));;
  if negb (bool_decide (dragged_panel_ m = Some p)) then mret ()
  else
    (if MotionEventCoalescer.IsRunning (dragged_panel_event_coalescer_ m) then
       MotionEventCoalescer.Stop coalescer set_coalescer HandlePeriodicPanelDragMotion source_remove
     else mret ());;
    upd (fun m => m <| dragged_panel_ := None |>);;
    if removed then mret ()
    else
      m ← get id;
      match GetContainerForPanel p m with
      | Some c => Container.HandleNotifyPanelDragCompleteMessage (container c) p
      | None => AddPanelToContainer p PANEL_BAR PANEL_SOURCE_DROPPED
      end.

(** The coalescer's timer fires (while it is running). *)
Definition HandleDragTimer : M S unit :=
  MotionEventCoalescer.HandleTimer coalescer set_coalescer HandlePeriodicPanelDragMotion;; mret ().

(** *** Windows come and go *)

Definition is_panel_window (w : Window.t) : bool :=
  (Window.type_ w =? WmIpc.WINDOW_TYPE_CHROME_PANEL_CONTENT) ||
  (Window.type_ w =? WmIpc.WINDOW_TYPE_CHROME_PANEL_TITLEBAR).
Definition DoInitialSetupForWindow (xid : Z) : M S unit := on_window xid Window.MoveClientOffscreen;; mret ().
Definition the_window (xid : Z) : M S Window.t :=
  w ← gets (GetWindow xid); match w with Some w => mret w | None => fail Undefined end.

Definition HandleWindowMapRequest (xid : Z) : M S bool :=
  upd (fun m => m <| saw_map_request_ := true |>);;
  w ← the_window xid;
  if negb (is_panel_window w) then mret false
  else
    DoInitialSetupForWindow xid;;
    on_window xid Window.MapClient;;
    mret true.

(** [new Panel(this, win, titlebar_win, expanded)]: the windows move into the panel. *)
Definition new_panel (content titlebar : Window.t) (expanded : bool) : M S Z :=
  p ← gets new_panel_address;
  c ← lift (MotionEventCoalescer.construct true Panel.kResizeUpdateMs);
  xids ← on_world Panel.create_input_windows;
  modify (fun s => set_windows (delete (Window.xid_ content) (delete (Window.xid_ titlebar) (windows s)))
                     (set_at p (Panel.initial content titlebar expanded indeterminate_gravity c xids self) s));;
  call (fun f sf w sw => Panel.set_up f sf w sw) p;;
  mret p.

Definition register_panel_input (p xid : Z) : M S unit :=
  m ← get id;
  CHECK (bool_decide (panel_input_xids_ m !! xid = None));;
  upd (fun m => m <| panel_input_xids_ := <[xid := p]> (panel_input_xids_ m) |>).

(** A content window was mapped; a window that names itself as its titlebar would
    be both windows of its panel, which the panel's model cannot say. *)
Definition make_panel (win : Window.t) : M S unit :=
  match Window.type_params_ win with
  | [] => mret ()
  | titlebar_xid :: others =>
      t ← gets (GetWindow titlebar_xid);
      match t with
      | None => mret ()
      | Some titlebar_win =>
          let expanded := match others with e :: _ => negb (e =? 0) | [] => false end in
          p ← new_panel win titlebar_win expanded;
          r ← look p;
          SetTitlebarWidth p (Panel.content_width r);;
          r ← look p;
          for_each (register_panel_input p) (Panel.GetInputWindows r);;
          m ← get id;
          CHECK (bool_decide (panels_ m !! Window.xid_ win = None));;
          upd (fun m => m <| panels_ := <[Window.xid_ win := p]> (panels_ m) |>);;
          CHECK (bool_decide (panels_by_titlebar_xid_ m !! Window.xid_ titlebar_win = None));;
          upd (fun m => m <| panels_by_titlebar_xid_ :=
                               <[Window.xid_ titlebar_win := p]> (panels_by_titlebar_xid_ m) |>);;
          AddPanelToContainer p PANEL_BAR PANEL_SOURCE_NEW
      end
  end.

Definition HandleWindowMap (xid : Z) : M S unit :=
  w ← the_window xid;
  if negb (is_panel_window w) then mret ()
  else
    m ← get id;
    (if negb (saw_map_request_ m) then DoInitialSetupForWindow xid else mret ());;
    if Window.type_ w =? WmIpc.WINDOW_TYPE_CHROME_PANEL_TITLEBAR then mret ()
    else w ← the_window xid; make_panel w.

(** The panel is destroyed and its windows are the window manager's again. *)
Definition delete_panel (p : Z) : M S unit :=
  call (fun f sf w sw => Panel.destroy f sf w sw (HandlePanelResize p)) p;;
  r ← look p;
  modify (fun s => set_windows (<[Panel.content_xid r := Panel.content_win_ r]>
                                  (<[Panel.titlebar_xid r := Panel.titlebar_win_ r]> (windows s)))
                     (set_heap (delete p (heap s)) s)).

Definition unregister_panel_input (xid : Z) : M S unit :=
  m ← get id;
  CHECK (bool_decide (is_Some (panel_input_xids_ m !! xid)));;
  upd (fun m => m <| panel_input_xids_ := delete xid (panel_input_xids_ m) |>).

Definition HandleWindowUnmap (xid : Z) : M S unit :=
  panel ← get (GetPanelByWindow xid);
  match panel with
  | None => mret ()
  | Some p =>
      c ← get (GetContainerForPanel p);
      (match c with Some c => RemovePanelFromContainer p c | None => mret () end);;
      m ← get id;
      (if bool_decide (dragged_panel_ m = Some p) then HandlePanelDragComplete p true else mret ());;
      r ← look p;
      (if Window.focused_ (Panel.content_win_ r) then
         taken ← panel_bar_TakeFocus;
         if taken : bool then mret () else wm_TakeFocus
       else mret ());;
      r ← look p;
      for_each unregister_panel_input (Panel.GetInputWindows r);;
      m ← get id;
      CHECK (bool_decide (is_Some (panels_by_titlebar_xid_ m !! Panel.titlebar_xid r)));;
      upd (fun m => m <| panels_by_titlebar_xid_ := delete (Panel.titlebar_xid r) (panels_by_titlebar_xid_ m) |>);;
      CHECK (bool_decide (is_Some (panels_ m !! Panel.content_xid r)));;
      upd (fun m => m <| panels_ := delete (Panel.content_xid r) (panels_ m) |>);;
      delete_panel p
  end.

Definition HandleWindowConfigureRequest (xid req_width req_height : Z) : M S unit :=
  panel ← get (GetPanelByWindow xid);
  match panel with
  | None => mret ()
  | Some p => call (fun f sf w sw => Panel.HandleWindowConfigureRequest f sf w sw (HandlePanelResize p)
                                       xid req_width req_height) p
  end.

(** *** Pointer events *)

Definition HandleButtonPress (xid px py x_root y_root button timestamp : Z) : M S unit :=
  m ← get id;
  match container_input_xids_ m !! xid with
  | Some c => Container.HandleInputWindowButtonPress (container c) xid px py x_root y_root button timestamp
  | None =>
      match panel_input_xids_ m !! xid with
      | Some p => call (fun f sf w sw => Panel.HandleInputWindowButtonPress stacking_manager f sf w sw xid px py button) p
      | None =>
          panel ← gets (GetPanelByXid xid);
          match panel with
          | Some p => to_container p (fun c => Container.HandlePanelButtonPress c p button timestamp)
          | None => mret ()
          end
      end
  end.

Definition HandleButtonRelease (xid px py x_root y_root button timestamp : Z) : M S unit :=
  m ← get id;
  match container_input_xids_ m !! xid with
  | Some c => Container.HandleInputWindowButtonRelease (container c) xid px py x_root y_root button timestamp
  | None =>
      match panel_input_xids_ m !! xid with
      | Some p => call (fun f sf w sw => Panel.HandleInputWindowButtonRelease f sf w sw (HandlePanelResize p)
                                           xid px py button) p
      | None => mret ()
      end
  end.

Definition HandlePointerEnter (xid px py x_root y_root timestamp : Z) : M S unit :=
  m ← get id;
  match container_input_xids_ m !! xid with
  | Some c => Container.HandleInputWindowPointerEnter (container c) xid px py x_root y_root timestamp
  | None =>
      panel ← gets (GetPanelByXid xid);
      match panel with
      | Some p =>
          c ← get (GetContainerForPanel p);
          match c with
          | Some c => r ← look p;
                      if xid =? Panel.titlebar_xid r
                      then Container.HandlePanelTitlebarPointerEnter (container c) p timestamp else mret ()
          | None => mret ()
          end
      | None => mret ()
      end
  end.

Definition HandlePointerLeave (xid px py x_root y_root timestamp : Z) : M S unit :=
  m ← get id;
  match container_input_xids_ m !! xid with
  | Some c => Container.HandleInputWindowPointerLeave (container c) xid px py x_root y_root timestamp
  | None => mret ()
  end.

Definition HandlePointerMotion (xid px py : Z) : M S unit :=
  m ← get id;
  match panel_input_xids_ m !! xid with
  | Some p => call (fun f sf w sw => Panel.HandleInputWindowPointerMotion f sf w sw (HandlePanelResize p) xid px py) p
  | None => mret ()
  end.

(** *** Messages *)

Definition HandleChromeMessage (msg : WmIpc.Message.t) : M S unit :=
  let ty := WmIpc.Message.type_ msg in
  let param i := lift (WmIpc.Message.param i msg) in
  if ty =? WmIpc.Message.WM_SET_PANEL_STATE then
    xid ← param 0;
    panel ← gets (GetPanelByXid xid);
    match panel with
    | None => mret ()
    | Some p => c ← get (GetContainerForPanel p);
                match c with
                | Some c => expand ← param 1; Container.HandleSetPanelStateMessage (container c) p (negb (expand =? 0))
                | None => mret ()
                end
    end
  else if ty =? WmIpc.Message.WM_NOTIFY_PANEL_DRAGGED then
    xid ← param 0;
    panel ← gets (GetPanelByXid xid);
    match panel with
    | None => mret ()
    | Some p =>
        m ← get id;
        (match dragged_panel_ m with
         | Some d => if decide (p = d) then mret () else HandlePanelDragComplete d false
         | None => mret ()
         end);;
        upd (fun m => m <| dragged_panel_ := Some p |>);;
        m ← get id;
        (if MotionEventCoalescer.IsRunning (dragged_panel_event_coalescer_ m) then mret ()
         else MotionEventCoalescer.Start coalescer set_coalescer timeout_add);;
        version ← gets wm_ipc_version;
        left ← param 1;
        drag_x ← (if 1 <=? version then mret (i32 left)
                  else r ← look p; mret (i32 (left + Panel.titlebar_width r)));
        drag_y ← param 2;
        MotionEventCoalescer.StorePosition coalescer set_coalescer HandlePeriodicPanelDragMotion drag_x (i32 drag_y)
    end
  else if ty =? WmIpc.Message.WM_NOTIFY_PANEL_DRAG_COMPLETE then
    xid ← param 0;
    panel ← gets (GetPanelByXid xid);
    match panel with
    | None => mret ()
    | Some p => HandlePanelDragComplete p false
    end
  else mret ().

Definition HandleClientMessage (xid message_type : Z) : M S unit :=
  panel ← gets (GetPanelByXid xid);
  match panel with
  | None => mret ()
  | Some p => if message_type =? wm_atom ATOM_NET_ACTIVE_WINDOW
              then to_container p (fun c => Container.HandleFocusPanelMessage c p) else mret ()
  end.

Definition HandleFocusChange (xid : Z) (focus_in : bool) : M S unit :=
  panel ← gets (GetPanelByXid xid);
  match panel with
  | None => mret ()
  | Some p => to_container p (fun c => Container.HandlePanelFocusChange c p focus_in)
  end.

Definition HandleWindowPropertyChange (xid xatom : Z) : M S unit :=
  panel ← gets (GetPanelByXid xid);
  DCHECK (bool_decide (panel ≠ None));;
  match panel with
  | None => mret ()
  | Some p =>
      DCHECK (wm_atom ATOM_WM_HINTS =? xatom);;
      to_container p (fun c => Container.HandlePanelUrgencyChange c p)
  end.

Definition HandleScreenResize : M S unit :=
  m ← get id;
  for_each (fun c => Container.HandleScreenResize (container c)) (containers_ m);;
  UpdateAvailableArea.

Definition TakeFocus : M S bool := panel_bar_TakeFocus.

(** *** Construction and destruction *)

Definition registrar (f : EventConsumerRegistrar.t * EventConsumers.t →
                          EventConsumerRegistrar.t * EventConsumers.t) : M S unit :=
  modify (fun s =>
    let '(r, c) := f (event_consumer_registrar_ (pm s), get_consumers (world s)) in
    set_world (set_consumers c (world s)) (set_pm ((pm s) <| event_consumer_registrar_ := r |>) s)).

(** With the containers' constructors. *)
Definition construct (new_bar : M S unit) (new_dock : ContainerRef → PanelDock.DockType → Z → M S unit) : M S unit :=
  c ← lift (MotionEventCoalescer.construct true kDraggedPanelUpdateMs);
  upd (fun _ => mk ∅ ∅ None c ∅ ∅ [] ∅ false (EventConsumerRegistrar.new self));;
  new_bar;;
  new_dock LEFT_PANEL_DOCK PanelDock.DOCK_TYPE_LEFT kPanelDockWidth;;
  new_dock RIGHT_PANEL_DOCK PanelDock.DOCK_TYPE_RIGHT kPanelDockWidth;;
  for_each (fun ty => registrar (EventConsumerRegistrar.RegisterForChromeMessages ty))
    [WmIpc.Message.WM_SET_PANEL_STATE; WmIpc.Message.WM_NOTIFY_PANEL_DRAGGED;
     WmIpc.Message.WM_NOTIFY_PANEL_DRAG_COMPLETE];;
  for_each RegisterContainer [PANEL_BAR; LEFT_PANEL_DOCK; RIGHT_PANEL_DOCK].

(** The members' destructors run in the reverse order; the panels go last. *)
Definition destroy (delete_container : ContainerRef → M S unit) : M S unit :=
  upd (fun m => m <| dragged_panel_ := None |>);;
  registrar (fun s => (s.1, EventConsumerRegistrar.destroy s));;
  for_each delete_container [RIGHT_PANEL_DOCK; LEFT_PANEL_DOCK; PANEL_BAR];;
  MotionEventCoalescer.destroy coalescer set_coalescer HandlePeriodicPanelDragMotion source_remove;;
  m ← get id;
  for_each (fun xp => delete_panel xp.2) (map_to_list (panels_ m)).
End panel_manager.
End PanelManager.
