(* ===== verification/PanelBarSafe.v ===== *)
(** * The invariant of the panel bar (PanelBar.v).

    [wf] says what the bar and the heap of panels it points into always satisfy;
    each operation of the bar is shown to run without a fault and to keep it. *)

From S2P Require Import Prelude Hoare WmUtil XConnection WmIpc Double Window WmEvents Panel WmFrame PanelHeap.
From S2P Require Import PanelHeapSafe PanelBar.
Import PanelRef PanelBar.

Section bar.
Context `{Build} `{PanelFlags} {W : Type} `{WmFrame W} `{HasConsumers W} {S : Type} `{PanelStore S W}.
Variable sm : StackingManager.t.
Variable bar : S → PanelBar.t.
Variable set_bar : PanelBar.t → S → S.
Variable rest : S → S → Prop.
Context `{!PartPlace S W PanelBar.t bar set_bar rest}.
Hypothesis Hsm : layers_ok sm.
Abbreviation keep := (keep rest).

Lemma bar_set_bar b s : bar (set_bar b s) = b.
Proof. apply part_set_part. Qed.
Lemma bar_set_world w s : bar (set_world w s) = bar s.
Proof. apply part_set_world. Qed.
Lemma heap_set_bar b s : heap (set_bar b s) = heap s.
Proof. apply heap_set_part. Qed.
Lemma world_set_bar b s : world (set_bar b s) = world s.
Proof. apply world_set_part. Qed.
Lemma bar_heap_set_world w s : heap (set_world w s) = heap s.
Proof. apply heap_set_world. Qed.
Lemma bar_world_set_world w s : world (set_world w s) = w.
Proof. apply world_set_world'. Qed.

(** ** The invariant *)

Section invariant.
(** Panels that have not been placed yet; and what else is known of the dragged,
    the anchored and the panel to focus. *)
Variable X : Z → Prop.
Variable Y : option Z → option Z → option Z → Prop.

Record wf (s : S) : Prop := {
  wf_world : wm_ok (world s);
  wf_nodup : NoDup (panels_ (bar s));
  wf_infos p : is_Some (panel_infos_ (bar s) !! p) ↔ p ∈ panels_ (bar s);
  wf_pointers p : dragged_panel_ (bar s) = Some p ∨ anchor_panel_ (bar s) = Some p ∨
                  desired_panel_to_focus_ (bar s) = Some p → p ∈ panels_ (bar s);
  wf_timer : collapsed_panel_state_ (bar s) ≠ COLLAPSED_PANEL_STATE_WAITING_TO_SHOW →
             show_collapsed_panels_timer_id_ (bar s) = 0;
  wf_heap p : p ∈ panels_ (bar s) →
    ∃ r, heap s !! p = Some r ∧ (¬ X p → Panel.composited_windows_set_up_ r = true);
  wf_windows p q rp rq : p ∈ panels_ (bar s) → q ∈ panels_ (bar s) →
    heap s !! p = Some rp → heap s !! q = Some rq →
    Panel.content_xid rp = Panel.content_xid rq ∨ Panel.content_xid rp = Panel.titlebar_xid rq → p = q;
  wf_extra : Y (dragged_panel_ (bar s)) (anchor_panel_ (bar s)) (desired_panel_to_focus_ (bar s))
}.
(** ... with these panels, in some order. *)
Definition bar_of (ps : list Z) (s : S) : Prop := wf s ∧ panels_ (bar s) ≡ₚ ps.

Lemma bar_of_members ps s s' :
  bar_of ps s → wm_ok (world s') → bar s' = bar s →
  (∀ q r, q ∈ panels_ (bar s) → heap s !! q = Some r → ∃ r', heap s' !! q = Some r' ∧ same_windows r r') → bar_of ps s'.
Proof.
  intros [Hwf Hps] Hok Hb Hk. split; [|by rewrite Hb]. destruct Hwf as [E1 E2 E3 E4 E5 E6 E7 E8].
  split; rewrite ?Hb; try done.
  - intros p Hp. destruct (E6 p Hp) as (r & Hr & Hup). destruct (Hk p r Hp Hr) as (r' & Hr' & Hkept).
    exists r'. split; [done|]. intros HX. apply Hkept. auto.
  - intros p q rp' rq' Hp Hq Hrp' Hrq' Hxid.
    destruct (E6 p Hp) as (rp & Hrp & _). destruct (E6 q Hq) as (rq & Hrq & _).
    destruct (Hk p rp Hp Hrp) as (? & ? & Hkp). destruct (Hk q rq Hq Hrq) as (? & ? & Hkq). simplify_eq.
    apply (E7 p q rp rq Hp Hq Hrp Hrq). destruct Hkp as ((Hp1&_)&_), Hkq as ((Hq1&_)&Hq2&_).
    unfold Panel.content_xid in *. by rewrite <-Hp1, <-Hq1, <-Hq2.
Qed.
Lemma bar_of_kept ps s s' :
  bar_of ps s → wm_ok (world s') → bar s' = bar s → heap_lives s s' → bar_of ps s'.
Proof. intros Hs Hok Hb Hl. apply (bar_of_members ps s); [done..|]. intros q r _. apply Hl. Qed.
Lemma bar_of_keep ps s s' :
  bar_of ps s → wm_ok (world s') → bar s' = bar s → keep s s' → bar_of ps s'.
Proof. intros Hs Hok Hb (_ & Hk & _). by apply (bar_of_kept ps s), heap_kept_lives. Qed.

Context {ps : list Z}.
Abbreviation safe := (framed (bar_of ps) keep).
#[local] Instance bar_holds : Holds bar rest (bar_of ps).
Proof. split; [intros s [Hwf _]; apply Hwf|intros s s' ??? (_ & Hk & _); by eapply bar_of_kept]. Qed.

Lemma at_panel p s : bar_of ps s → p ∈ ps →
  ∃ r, heap s !! p = Some r ∧ (¬ X p → Panel.composited_windows_set_up_ r = true).
Proof. intros [Hwf Hps] Hp. apply (wf_heap s Hwf). by rewrite Hps. Qed.
Lemma bar_at_hand p : p ∈ ps → at_hand (bar_of ps) p.
Proof. intros Hp s Hs. destruct (at_panel p s Hs Hp) as (r & Hr & _). by eexists. Qed.
Lemma bar_shown p : p ∈ ps → ¬ X p → shown (bar_of ps) p.
Proof. intros Hp HX s Hs. destruct (at_panel p s Hs Hp) as (r & Hr & Hup). exists r. auto. Qed.
#[local] Hint Resolve bar_at_hand bar_shown : framed.

(** The operations of a panel, of the world, and of the bar's own fields. *)
Lemma safe_MoveX p right mcw ms : p ∈ ps → ¬ X p → safe (MoveX p right mcw ms).
Proof. intros. eapply heap_MoveX; try apply _; auto with framed. Qed.
Lemma safe_MoveY p y mcw ms : p ∈ ps → ¬ X p → safe (MoveY p y mcw ms).
Proof. intros. eapply heap_MoveY; try apply _; auto with framed. Qed.
Lemma safe_SetResizable p b : p ∈ ps → safe (SetResizable p b).
Proof. intros. eapply heap_SetResizable; try apply _; auto with framed. Qed.
Lemma safe_AddButtonGrab p : p ∈ ps → safe (AddButtonGrab p).
Proof. intros. eapply heap_AddButtonGrab; try apply _; auto with framed. Qed.
Lemma safe_RemoveButtonGrab p b : p ∈ ps → safe (RemoveButtonGrab p b).
Proof. intros. eapply heap_RemoveButtonGrab; try apply _; auto with framed. Qed.
Lemma safe_StackAtTopOfLayer p layer :
  p ∈ ps → 0 ≤ layer < StackingManager.LAYER_BACKGROUND → safe (StackAtTopOfLayer sm p layer).
Proof. intros. eapply heap_StackAtTopOfLayer; try apply _; auto with framed. Qed.
Lemma safe_content_win {A} p (m : M (Window.t * W) A) : p ∈ ps → steady m → safe (PanelRef.content_win p m).
Proof. intros. eapply heap_content_win; try apply _; auto with framed. Qed.
Lemma safe_SetExpandedState p b : p ∈ ps → safe (SetExpandedState p b).
Proof. intros. eapply heap_SetExpandedState; try apply _; auto with framed. Qed.
Lemma safe_look p : p ∈ ps → safe (look p).
Proof. intros. eapply heap_look; try apply _; auto with framed. Qed.
Lemma safe_looks l : l ⊆ ps → safe (looks l).
Proof. intros Hl. eapply heap_looks; [apply _..|]. intros p Hp. by apply bar_at_hand, Hl. Qed.
Lemma safe_on_world {A} (m : M W A) : quiet m → safe (on_world m).
Proof. intros. eapply heap_on_world; try apply _; done. Qed.
Lemma safe_x r : safe (PanelRef.x r).
Proof. apply safe_on_world. frame. Qed.
Lemma safe_get {A} (f : PanelBar.t → A) : safe (get bar f).
Proof. apply framed_gets, _. Qed.
(** What is read of the bar satisfies the invariant. *)
Lemma safe_get_bind {A B} (f : PanelBar.t → A) (k : A → M S B) :
  (∀ s, bar_of ps s → safe (k (f (bar s)))) → safe (get bar f ≫= k).
Proof. intros Hk s Hs. apply wp_gets_bind. by apply Hk. Qed.
Lemma keep_set_bar s b : keep s (set_bar b s).
Proof. exact (keep_set_part bar set_bar rest b s). Qed.
Lemma safe_upd f :
  (∀ s, bar_of ps s → wf (set_bar (f (bar s)) s) ∧ panels_ (f (bar s)) ≡ₚ ps) → safe (upd bar set_bar f).
Proof.
  intros Hf. apply framed_modify. intros s Hs. destruct (Hf s Hs) as [Hwf Hps].
  split; [|apply keep_set_bar]. split; [done|by rewrite bar_set_bar].
Qed.
(** Changing fields that the invariant does not look at. *)
Lemma wf_set_bar s b :
  wf s →
  NoDup (panels_ b) → panels_ b ⊆ panels_ (bar s) →
  (∀ p, is_Some (panel_infos_ b !! p) ↔ p ∈ panels_ b) →
  (∀ p, dragged_panel_ b = Some p ∨ anchor_panel_ b = Some p ∨ desired_panel_to_focus_ b = Some p → p ∈ panels_ b) →
  (collapsed_panel_state_ b ≠ COLLAPSED_PANEL_STATE_WAITING_TO_SHOW → show_collapsed_panels_timer_id_ b = 0) →
  Y (dragged_panel_ b) (anchor_panel_ b) (desired_panel_to_focus_ b) →
  wf (set_bar b s).
Proof.
  intros [E1 E2 E3 E4 E5 E6 E7 E8] Hnd Hsub Hinfos Hptr Htimer Hextra.
  split; rewrite ?bar_set_bar, ?heap_set_bar, ?world_set_bar; try done.
  - intros p Hp. by apply E6, Hsub.
  - intros p q rp rq Hp Hq. apply E7; by apply Hsub.
Qed.
Definition pointer (b : PanelBar.t) (p : Z) : Prop :=
  dragged_panel_ b = Some p ∨ anchor_panel_ b = Some p ∨ desired_panel_to_focus_ b = Some p.
Definition timer_ok (b : PanelBar.t) : Prop :=
  collapsed_panel_state_ b ≠ COLLAPSED_PANEL_STATE_WAITING_TO_SHOW → show_collapsed_panels_timer_id_ b = 0.
Definition extra (b : PanelBar.t) : Prop :=
  Y (dragged_panel_ b) (anchor_panel_ b) (desired_panel_to_focus_ b).
Definition mild (b b' : PanelBar.t) : Prop :=
  panels_ b' = panels_ b ∧ (∀ p, is_Some (panel_infos_ b' !! p) ↔ is_Some (panel_infos_ b !! p)) ∧
  (∀ p, pointer b' p → pointer b p ∨ p ∈ ps) ∧ (timer_ok b → timer_ok b') ∧ (extra b → extra b').

Lemma mild_wf s b : bar_of ps s → mild (bar s) b → bar_of ps (set_bar b s).
Proof.
  intros [Hwf Hps] (Hp & Hi & Hptr & Ht & He). split; [|by rewrite bar_set_bar, Hp].
  apply wf_set_bar; [done|rewrite Hp; apply Hwf|by rewrite Hp| | | |].
  - intros p. rewrite Hi, Hp. apply Hwf.
  - intros p [Hq|Hq]%Hptr; rewrite Hp; [by apply (wf_pointers s Hwf)|by rewrite Hps].
  - exact (Ht (wf_timer s Hwf)).
  - exact (He (wf_extra s Hwf)).
Qed.
Lemma safe_mild f : (∀ b, mild b (f b)) → safe (upd bar set_bar f).
Proof.
  intros Hf. apply framed_modify. intros s Hs. split; [by apply mild_wf|apply keep_set_bar].
Qed.
(** ... when only fields outside the invariant change. *)
Lemma mild_same b b' :
  panels_ b' = panels_ b → panel_infos_ b' = panel_infos_ b → dragged_panel_ b' = dragged_panel_ b →
  anchor_panel_ b' = anchor_panel_ b → desired_panel_to_focus_ b' = desired_panel_to_focus_ b →
  collapsed_panel_state_ b' = collapsed_panel_state_ b →
  show_collapsed_panels_timer_id_ b' = show_collapsed_panels_timer_id_ b → mild b b'.
Proof.
  intros E1 E2 E3 E4 E5 E6 E7. unfold mild, pointer, timer_ok, extra. rewrite E1, E2, E3, E4, E5, E6, E7.
  split; [done|]. split; [done|]. split; [by left|done].
Qed.

Lemma safe_then {A} (m : M S A) s0 s :
  bar_of ps s → keep s0 s → safe m → wp m (fun _ s' => bar_of ps s' ∧ keep s0 s') s.
Proof.
  intros Hs Hk Hm. eapply wp_mono; [by apply Hm|]. intros a s' [??]. split; [done|by etransitivity].
Qed.

#[local] Hint Resolve safe_look safe_looks safe_get : framed.
#[local] Hint Extern 1 (framed _ _ (on_world _)) => apply safe_on_world : framed.
#[local] Hint Extern 1 (framed _ _ (upd _ _ _)) => by apply safe_mild; intros []; apply mild_same : framed.

Lemma safe_wm_width : safe wm_width_.
Proof. apply framed_gets, _. Qed.
Lemma safe_wm_height : safe wm_height_.
Proof. apply framed_gets, _. Qed.
Lemma safe_actor a c : safe (actor a c).
Proof. unfold actor. frame. Qed.
Lemma safe_timeout_add ms : safe (timeout_add ms).
Proof. unfold timeout_add. frame. Qed.
Lemma safe_source_remove id : safe (source_remove id).
Proof. unfold source_remove. frame. Qed.
Lemma safe_query_pointer : safe query_pointer.
Proof. unfold query_pointer. frame. Qed.
Lemma safe_GetCurrentTimeFromServer : safe GetCurrentTimeFromServer.
Proof. unfold GetCurrentTimeFromServer. frame. Qed.
Lemma safe_SetActiveWindowProperty xid : safe (SetActiveWindowProperty xid).
Proof. unfold SetActiveWindowProperty. frame. Qed.
Lemma safe_ConfigureInputWindow xid px py w h : safe (ConfigureInputWindow xid px py w h).
Proof. unfold ConfigureInputWindow. frame. Qed.
#[local] Hint Resolve safe_wm_width safe_wm_height safe_actor safe_x safe_timeout_add safe_source_remove
  safe_query_pointer safe_GetCurrentTimeFromServer safe_SetActiveWindowProperty safe_ConfigureInputWindow
  safe_MoveX safe_MoveY safe_SetResizable safe_AddButtonGrab safe_RemoveButtonGrab safe_SetExpandedState
  safe_StackAtTopOfLayer safe_content_win : framed.

(** ** The operations, one by one *)

Lemma safe_GetPanelInfoOrDie p : p ∈ ps → safe (GetPanelInfoOrDie bar p).
Proof.
  intros Hp. unfold GetPanelInfoOrDie. apply safe_get_bind. intros s [Hwf Hps]. cbn [id].
  destruct (proj2 (wf_infos s Hwf p)) as [info ->]; [by rewrite Hps|apply framed_ret, _].
Qed.
Lemma safe_set_info p f : safe (set_info bar set_bar p f).
Proof.
  apply safe_mild. intros b. destruct b; repeat split; cbn; try tauto; intros Hx.
  - by rewrite lookup_alter_is_Some in Hx.
  - by rewrite lookup_alter_is_Some.
Qed.
#[local] Hint Resolve safe_GetPanelInfoOrDie safe_set_info : framed.
Lemma safe_GetNumCollapsedPanels : safe (GetNumCollapsedPanels bar).
Proof.
  unfold GetNumCollapsedPanels. apply safe_get_bind. intros s [_ Hps]. cbn [id].
  apply framed_bind; [apply _|apply safe_looks; intros q; by rewrite Hps|frame].
Qed.
Lemma safe_ComputePanelY r info : safe (ComputePanelY bar r info).
Proof. unfold ComputePanelY. frame. Qed.
#[local] Hint Resolve safe_GetNumCollapsedPanels safe_ComputePanelY : framed.
Lemma safe_computed_y p info : p ∈ ps → safe (computed_y bar p info).
Proof. intros Hp. unfold computed_y. frame. Qed.
Lemma safe_ConfigureShow b : safe (ConfigureShowCollapsedPanelsInputWindow bar b).
Proof. unfold ConfigureShowCollapsedPanelsInputWindow. frame. Qed.
Lemma safe_delete_watcher w : safe (delete_watcher w).
Proof. unfold delete_watcher, PointerPositionWatcher.destroy. frame. Qed.
#[local] Hint Resolve safe_computed_y safe_ConfigureShow safe_delete_watcher : framed.

Abbreviation safely P m := (∀ s, bar_of ps s → wp m (fun a s' => P a ∧ bar_of ps s' ∧ keep s s') s).

Lemma nearest_among (P : Z → Prop) p r rs best :
  (∀ q, best.2 = Some q → P q) → (∀ qr, qr ∈ rs → qr.1 ≠ p → P qr.1) →
  ∀ q, (foldl (nearer p r) best rs).2 = Some q → P q.
Proof.
  revert best. induction rs as [|[q' rq] rs IH]; intros best Hb Hrs; cbn [foldl]; [done|].
  apply IH; [|set_solver]. intros q. unfold nearer. case_bool_decide as Hne; [apply Hb|].
  destruct (_ || _); [apply Hb|]. destruct (_ <? _); [|apply Hb].
  cbn. intros [= <-]. apply (Hrs (q', rq)); [by left|done].
Qed.

Lemma looks_wp l s : (∀ p, p ∈ l → is_Some (heap s !! p)) →
  wp (looks l) (fun rs s' => s' = s ∧ Forall2 (fun p pr => pr.1 = p ∧ heap s !! p = Some pr.2) l rs) s.
Proof.
  induction l as [|p l IH]; intros Hl; cbn [looks]; [by split|].
  destruct (Hl p) as [r Hr]; [by left|]. eapply wp_cut; [by eapply (look_wp p r (fun r' s' => r' = r ∧ s' = s))|].
  intros r' ? [-> ->]. eapply wp_cut; [apply IH; set_solver|]. intros rs ? [-> Hrs].
  split; [done|]. by constructor.
Qed.

(** The nearest panel is another one, and looking for it changes nothing. *)
Lemma GetNearestExpandedPanel_wp p s : bar_of ps s → p ∈ ps →
  wp (GetNearestExpandedPanel bar p) (fun o s' => s' = s ∧ ∀ q, o = Some q → q ∈ ps ∧ q ≠ p) s.
Proof.
  intros Hs Hp. unfold GetNearestExpandedPanel. destruct (at_panel p s Hs Hp) as (r & Hr & _).
  eapply wp_cut; [by eapply (look_wp p r (fun r' s' => r' = r ∧ s' = s))|]. intros r' ? [-> ->].
  destruct (Panel.is_expanded_ r); cbn [negb]; [|by split].
  apply wp_gets_bind. cbn [id].
  assert (∀ q, q ∈ panels_ (bar s) → q ∈ ps) as Hsub by (intros q; by rewrite (proj2 Hs)).
  eapply wp_cut; [apply looks_wp|].
  - intros q Hq. destruct (at_panel q s Hs) as (rq & Hrq & _); [auto|by eexists].
  - intros rs ? [-> Hrs]. split; [done|].
    apply (nearest_among (fun q => q ∈ ps ∧ q ≠ p)); [done|]. intros [q rq] Hq Hne. split; [|done].
    apply list_elem_of_lookup in Hq as [i Hi].
    destruct (Forall2_lookup_r _ _ _ _ _ Hrs Hi) as (q' & Hq' & [<- _]). cbn. apply Hsub.
    by eapply list_elem_of_lookup_2.
Qed.
Lemma GetNearestExpandedPanel_in p : p ∈ ps →
  safely (fun o => ∀ q, o = Some q → q ∈ ps) (GetNearestExpandedPanel bar p).
Proof.
  intros Hp s Hs. eapply wp_mono; [by apply GetNearestExpandedPanel_wp|]. intros o ? [-> Ho].
  split; [naive_solver|]. split; [done|reflexivity].
Qed.

(** *** Showing and hiding *)

Lemma DisableTimer_wp s0 s : bar_of ps s → keep s0 s →
  wp (DisableShowCollapsedPanelsTimer bar set_bar)
     (fun _ s' => bar_of ps s' ∧ keep s0 s' ∧ show_collapsed_panels_timer_id_ (bar s') = 0) s.
Proof.
  intros Hs Hk. unfold DisableShowCollapsedPanelsTimer. apply wp_gets_bind. cbn [id].
  destruct (Z.eqb_spec (show_collapsed_panels_timer_id_ (bar s)) 0) as [Hz|Hz]; cbn [negb].
  - apply wp_ret. by split.
  - eapply wp_cut; [by apply (safe_source_remove _ s)|]. intros _ s1 [Hs1 Hk1].
    apply wp_modify. rewrite bar_set_bar.
    split; [|split; [|by destruct (bar s1)]].
    + apply mild_wf; [done|]. destruct (bar s1). repeat split; cbn; tauto.
    + by do 2 (etransitivity; [eassumption|]); apply keep_set_bar.
Qed.
Lemma safe_DisableTimer : safe (DisableShowCollapsedPanelsTimer bar set_bar).
Proof. intros s Hs. eapply wp_mono; [by apply DisableTimer_wp|]. intros a s' (?&?&_). by split. Qed.

Lemma safe_replace_collapsed p : p ∈ ps → ¬ X p → safe (replace_collapsed bar p).
Proof. intros Hp HX. unfold replace_collapsed. frame. Qed.

Lemma safe_set_state st : st ≠ COLLAPSED_PANEL_STATE_WAITING_TO_SHOW →
  ∀ s, bar_of ps s → show_collapsed_panels_timer_id_ (bar s) = 0 →
  let s' := set_bar ((bar s) <| collapsed_panel_state_ := st |>) s in bar_of ps s' ∧ keep s s'.
Proof.
  intros Hst s Hs Ht. cbn zeta. split; [|apply keep_set_bar]. apply mild_wf; [done|].
  unfold mild, pointer, timer_ok, extra. destruct (bar s). repeat split; cbn in *; tauto.
Qed.

Hypothesis HX : ∀ p, p ∈ ps → ¬ X p.

Lemma safe_for_each {A} (f : A → M S unit) l : (∀ a, a ∈ l → safe (f a)) → safe (for_each f l).
Proof.
  induction l as [|a l IH]; intros Hf; [apply framed_ret, _|]. cbn [for_each].
  apply framed_bind; [apply _|apply Hf; by left|intros _; apply IH; set_solver].
Qed.
(** A loop over the panels there are. *)
Lemma safe_for_each_panel f s : bar_of ps s → (∀ p, p ∈ ps → safe (f p)) → safe (for_each f (panels_ (bar s))).
Proof. intros [_ Hps] Hf. apply safe_for_each. intros p. rewrite Hps. apply Hf. Qed.

Lemma safe_StartHide : safe (StartHideCollapsedPanelsWatcher bar set_bar).
Proof. unfold StartHideCollapsedPanelsWatcher, PointerPositionWatcher.construct. frame. Qed.
#[local] Hint Resolve safe_StartHide safe_DisableTimer safe_replace_collapsed : framed.

Lemma safe_ShowCollapsedPanels : safe (ShowCollapsedPanels bar set_bar).
Proof.
  intros s Hs. unfold ShowCollapsedPanels. eapply wp_cut; [by apply (DisableTimer_wp s)|].
  intros _ s1 (Hs1 & Hk1 & Ht). apply wp_modify_bind.
  destruct (safe_set_state COLLAPSED_PANEL_STATE_SHOWN ltac:(done) s1 Hs1 Ht) as [Hs2 Hk2].
  eapply safe_then; [exact Hs2|by etransitivity|]. apply safe_get_bind. intros s3 Hs3. cbn [id].
  pose proof (safe_for_each_panel (replace_collapsed bar) s3 Hs3). frame.
Qed.

Lemma safe_HideCollapsedPanels : safe (HideCollapsedPanels bar set_bar).
Proof.
  intros s Hs. unfold HideCollapsedPanels. eapply wp_cut; [by apply (DisableTimer_wp s)|].
  intros _ s1 (Hs1 & Hk1 & Ht). apply wp_gets_bind. cbn [id].
  eapply (wp_cut _ _ (fun _ s' => s' = s1)).
  { destruct (dragged_panel_ (bar s1)) as [p|] eqn:Ep; [|by apply wp_ret].
    destruct (at_panel p s1 Hs1) as (r & Hr & _).
    { rewrite <-(proj2 Hs1). apply (wf_pointers s1 (proj1 Hs1)). auto. }
    eapply wp_cut; [by eapply (look_wp p r (fun r' s' => s' = s1))|]. by intros ? ? ->. }
  intros deferred ? ->. destruct deferred.
  - apply wp_modify. destruct (safe_set_state COLLAPSED_PANEL_STATE_WAITING_TO_HIDE ltac:(done) s1 Hs1 Ht).
    split; [done|by etransitivity].
  - apply wp_modify_bind.
    destruct (safe_set_state COLLAPSED_PANEL_STATE_HIDDEN ltac:(done) s1 Hs1 Ht) as [Hs2 Hk2].
    eapply safe_then; [exact Hs2|by etransitivity|].
    pose proof (safe_for_each_panel (replace_collapsed bar) s1 Hs1). frame.
Qed.
#[local] Hint Resolve safe_ShowCollapsedPanels safe_HideCollapsedPanels : framed.

(** *** Packing and ordering *)

Lemma safe_pack_one fixed p : p ∈ ps → safe (pack_one bar set_bar fixed p).
Proof. intros Hp. pose proof (HX p Hp). unfold pack_one. frame. Qed.
Lemma safe_PackPanels fixed : safe (PackPanels bar set_bar fixed).
Proof.
  unfold PackPanels. apply framed_bind; [apply _|frame|intros _]. apply safe_get_bind. intros s [_ Hps]. cbn [id].
  apply safe_for_each. intros p. rewrite reverse_Permutation, Hps. apply safe_pack_one.
Qed.
#[local] Hint Resolve safe_PackPanels : framed.

Lemma rotate_perm a m b l l' : (a ≤ m ≤ b)%nat → rotate a m b l = Some l' → l' ≡ₚ l.
Proof.
  intros Hle. unfold rotate. case_decide as Hb; [|done]. intros [= <-].
  rewrite (app_assoc (drop m _)), (Permutation_app_comm (drop m _) (drop a _)), <-app_assoc.
  apply reflexive_eq. transitivity (take b l ++ drop b l); [|by rewrite take_drop].
  rewrite <-(take_drop m (take b l)) at 2. rewrite take_take, Nat.min_l by lia.
  rewrite <-(take_drop a (take m l)) at 2. rewrite take_take, Nat.min_l by lia. by rewrite <-!app_assoc.
Qed.

Lemma safe_passed cond l : l ⊆ ps → safe (passed cond l).
Proof.
  induction l as [|q l IH]; intros Hl; cbn [passed]; [apply framed_ret, _|].
  apply framed_bind; [apply _|apply safe_look, Hl; by left|intros r]. destruct (cond r); [|frame].
  apply framed_bind; [apply _|apply IH; set_solver|frame].
Qed.
Lemma passed_bound cond l : l ⊆ ps → safely (fun n => (n ≤ length l)%nat) (passed cond l).
Proof.
  induction l as [|q l IH]; intros Hl s Hs; cbn [passed]; [split; [done|split; [done|reflexivity]]|].
  destruct (at_panel q s Hs) as (r & Hr & _); [apply Hl; by left|].
  eapply wp_cut; [by eapply (look_wp q r (fun r' s' => s' = s))|]. intros r' ? ->.
  destruct (cond r').
  - eapply wp_cut; [apply IH; [set_solver|done]|]. intros n s' (Hn & ? & ?). split; [cbn; lia|done].
  - split; [cbn; lia|]. split; [done|reflexivity].
Qed.

Lemma safe_set_panels l : l ≡ₚ ps → safe (upd bar set_bar (fun b => b <| panels_ := l |>)).
Proof.
  intros Hl. apply framed_modify. intros s [Hwf Hps]. split; [|apply keep_set_bar].
  destruct (bar s) eqn:Eb. assert (l ≡ₚ panels_ (bar s)) as Hlb by (rewrite Eb; cbn in *; by rewrite Hl, Hps).
  split; [|by rewrite bar_set_bar]. apply wf_set_bar; cbn [update panels_ panel_infos_].
  - done.
  - rewrite Hlb. apply Hwf.
  - intros q. by rewrite Hlb.
  - intros q. rewrite Hlb. rewrite <-(wf_infos s Hwf), Eb. done.
  - intros q Hq. rewrite Hlb. apply (wf_pointers s Hwf). by rewrite Eb.
  - pose proof (wf_timer s Hwf) as Ht. by rewrite Eb in Ht.
  - pose proof (wf_extra s Hwf) as He. by rewrite Eb in He.
Qed.

Lemma safe_ReorderPanel p : p ∈ ps → safe (ReorderPanel bar set_bar p).
Proof.
  intros Hp. unfold ReorderPanel. apply safe_get_bind. intros s [Hwf Hps]. cbn [id].
  set (l := panels_ (bar s)) in Hps |- *. pose proof (position_of_spec p l) as Hat.
  set (src := position_of p l) in Hat |- *.
  assert (src < length l)%nat as Hsrc by (eapply lookup_lt_Some, Hat; by rewrite Hps).
  assert (∀ n q, q ∈ take n l ∨ q ∈ drop n l → q ∈ ps) as Hsub
    by (intros n q Hq; rewrite <-Hps; fold l; by rewrite <-(take_drop n l), elem_of_app).
  assert (reverse (take src l) ⊆ ps) as Hleft by (intros q; rewrite elem_of_reverse; eauto).
  assert (drop (Datatypes.S src) l ⊆ ps) as Hright by (intros q; eauto).
  apply framed_bind; [apply _| |intros _].
  { unfold DCHECK. destruct dchecks; [|frame]. apply framed_CHECK; [apply _|]. apply bool_decide_eq_true. lia. }
  apply framed_bind; [apply _|frame|intros r]. apply framed_bind; [apply _|frame|intros info].
  apply (framed_cut _ _ (fun dest => (dest < length l)%nat)).
  - intros s1 Hs1. destruct (_ <? _); (eapply wp_cut; [by apply passed_bound|]); intros n s2 (Hn & ? & ?);
      (split; [|done]).
    + lia.
    + rewrite length_drop in Hn. lia.
  - intros dest Hdest. cbn beta in Hdest. case_bool_decide as Hne; [frame|].
    destruct (if decide (src < dest)%nat then _ else _) as [l'|] eqn:Erot.
    + apply framed_bind; [apply _| |frame]. apply safe_set_panels. rewrite <-Hps. fold l.
      destruct (decide (src < dest)%nat); eapply rotate_perm; try exact Erot; lia.
    + exfalso. unfold rotate in Erot. repeat case_decide; [done|lia|done|lia].
Qed.
#[local] Hint Resolve safe_ReorderPanel : framed.

(** *** The anchor, the focus, expanding and collapsing *)

Hypothesis HYanchor : ∀ d a a' f, Y d a f → Y d a' f.
Hypothesis HYdesired : ∀ d a f f', Y d a f → Y d a f'.
Hypothesis HYnone : ∀ d a f, Y d a f → Y None a f.

Lemma safe_set_anchor o : (∀ p, o = Some p → p ∈ ps) → safe (upd bar set_bar (fun b => b <| anchor_panel_ := o |>)).
Proof.
  intros Ho. apply safe_mild. intros []. unfold extra. repeat split; cbn; try tauto; [|by apply HYanchor].
  intros p [?|[?|?]]; [left; by left| right; by apply Ho|left; by right; right].
Qed.
Lemma safe_set_desired o : (∀ p, o = Some p → p ∈ ps) →
  safe (upd bar set_bar (fun b => b <| desired_panel_to_focus_ := o |>)).
Proof.
  intros Ho. apply safe_mild. intros []. unfold extra. repeat split; cbn; try tauto; [|by apply HYdesired].
  intros p [?|[?|?]]; [left; by left|left; by right; left|right; by apply Ho].
Qed.
Lemma safe_DestroyAnchor : safe (DestroyAnchor bar set_bar).
Proof. unfold DestroyAnchor. pose proof (safe_set_anchor None ltac:(done)). frame. Qed.
Lemma safe_CreateAnchor p : p ∈ ps → safe (CreateAnchor bar set_bar p).
Proof.
  intros Hp. unfold CreateAnchor, PointerPositionWatcher.construct.
  pose proof (safe_set_anchor (Some p) ltac:(congruence)). frame.
Qed.
Lemma safe_FocusPanel p b t : p ∈ ps → safe (FocusPanel bar set_bar p b t).
Proof. intros Hp. unfold FocusPanel. pose proof (safe_set_desired (Some p) ltac:(congruence)). frame. Qed.
#[local] Hint Resolve safe_DestroyAnchor safe_CreateAnchor safe_FocusPanel : framed.


Lemma safely_of {A} (P : A → Prop) (m : M S A) : safe m → (∀ a, P a) → safely P m.
Proof. intros Hm HP s Hs. eapply wp_mono; [by apply Hm|]. auto. Qed.

Lemma first_expanded_in l : l ⊆ ps → safely (fun o => ∀ p, o = Some p → p ∈ ps) (first_expanded l).
Proof.
  induction l as [|q l IH]; intros Hl s Hs; cbn [first_expanded]; [split; [done|split; [done|reflexivity]]|].
  destruct (at_panel q s Hs) as (r & Hr & _); [apply Hl; by left|].
  eapply wp_cut; [by eapply (look_wp q r (fun r' s' => s' = s)); [|done]|]. intros r' ? ->.
  destruct (Panel.is_expanded_ r').
  - split; [intros p [= <-]; apply Hl; by left|]. split; [done|reflexivity].
  - apply IH; [set_solver|done].
Qed.

Lemma safe_TakeFocus : safe (TakeFocus bar set_bar).
Proof.
  unfold TakeFocus. apply framed_bind; [apply _|frame|intros t]. apply safe_get_bind. intros s [Hwf Hps]. cbn [id].
  destruct (desired_panel_to_focus_ (bar s)) as [p|] eqn:Ep.
  - assert (p ∈ ps) by (rewrite <-Hps; apply (wf_pointers s Hwf); auto). frame.
  - eapply framed_cut; [apply _|apply first_expanded_in; intros q; by rewrite Hps|].
    intros [p|] Hp; cbn beta in Hp; [|frame]. assert (p ∈ ps) by by apply Hp. frame.
Qed.

(** ... and nothing but the panel to focus changes in the bar. *)
Definition still (b : PanelBar.t) (s : S) : Prop := bar_of ps s ∧ bar s = b.
#[local] Instance still_holds b : Holds bar rest (still b).
Proof.
  split; [intros s [[Hwf _] _]; apply Hwf|]. intros s s' [Hs Hb] Hok Hp (_ & Hk & _).
  split; [by eapply bar_of_kept|congruence].
Qed.
Definition refocused (b b' : PanelBar.t) : Prop := ∃ f, b' = b <| desired_panel_to_focus_ := f |>.
Lemma still_at_hand b p : p ∈ ps → at_hand (still b) p.
Proof. intros Hp s [Hs _]. destruct (at_panel p s Hs Hp) as (r & ? & _). by eexists. Qed.
Lemma still_run {A} (m : M S A) b s : framed (still b) keep m → still b s → wp m (fun _ => still b) s.
Proof. intros Hm Hs. eapply wp_mono; [by apply Hm|]. by intros a s' [? _]. Qed.
Lemma FocusPanel_bar p rb t b s : p ∈ ps → still b s →
  wp (FocusPanel bar set_bar p rb t) (fun _ s' => refocused b (bar s')) s.
Proof.
  intros Hp Hs. unfold FocusPanel. pose proof (still_at_hand b p Hp) as Hhand.
  eapply (wp_cut _ _ (fun _ => still b)); [by apply still_run; [eapply heap_RemoveButtonGrab; try apply _|]|].
  intros _ s1 Hs1.
  eapply (wp_cut _ _ (fun _ => still b)); [by apply still_run; [eapply heap_look; try apply _|]|]. intros r s2 Hs2.
  eapply (wp_cut _ _ (fun _ => still b)).
  { apply still_run; [eapply heap_on_world; try apply _; apply quiet_SetActiveWindowProperty|done]. }
  intros _ s3 Hs3.
  eapply (wp_cut _ _ (fun _ => still b)).
  { apply still_run; [eapply heap_content_win; try apply _; [done|apply steady_TakeFocus]|done]. }
  intros _ s4 [_ Hb]. apply wp_modify. rewrite bar_set_bar, Hb. by eexists.
Qed.
Lemma first_expanded_still b l : l ⊆ ps → ∀ s, still b s →
  wp (first_expanded l) (fun o s' => still b s' ∧ ∀ p, o = Some p → p ∈ ps) s.
Proof.
  induction l as [|q l IH]; intros Hl s Hs; cbn [first_expanded]; [by apply wp_ret|].
  assert (q ∈ ps) as Hq by (apply Hl; by left).
  eapply (wp_cut _ _ (fun _ => still b)); [by apply still_run; [eapply heap_look; try apply _; apply still_at_hand|]|].
  intros r s1 Hs1.
  destruct (Panel.is_expanded_ r); [apply wp_ret; split; [done|by intros p [= <-]]|]. apply IH; [set_solver|done].
Qed.
Lemma TakeFocus_bar s : bar_of ps s →
  wp (TakeFocus bar set_bar) (fun _ s' => bar_of ps s' ∧ keep s s' ∧ refocused (bar s) (bar s')) s.
Proof.
  intros Hs. eapply wp_mono.
  - apply (wp_and _ (fun _ s' => bar_of ps s' ∧ keep s s') (fun _ s' => refocused (bar s) (bar s'))); [by apply safe_TakeFocus|].
    assert (still (bar s) s) as Hst by done. unfold TakeFocus.
    assert (∀ b p t s1, p ∈ ps → still b s1 →
      wp (FocusPanel bar set_bar p false t;; mret true) (fun _ s' => refocused b (bar s')) s1) as Hfocus.
    { intros b p t s1 Hp Hs1. eapply wp_cut; [by apply (FocusPanel_bar p false t b)|]. intros [] s2 Hb. by apply wp_ret. }
    eapply (wp_cut _ _ (fun _ => still (bar s))).
    { apply still_run; [eapply heap_on_world; try apply _; apply quiet_GetCurrentTimeFromServer|done]. }
    intros t s1 Hs1. apply wp_gets_bind. cbn [id]. destruct Hs1 as [Hs1 E1]. rewrite E1.
    assert (still (bar s) s1) as Hst1 by done.
    destruct (desired_panel_to_focus_ (bar s)) as [p|] eqn:Ep.
    + apply Hfocus; [|done]. rewrite <-(proj2 Hs). apply (wf_pointers s (proj1 Hs)). auto.
    + eapply wp_cut; [by apply (first_expanded_still (bar s)); [intros q; by rewrite (proj2 Hs)|]|].
      intros [p|] s2 [Hs2 Hp]; [by apply Hfocus; [apply Hp|]|]. apply wp_ret. destruct Hs2 as [_ ->].
      exists (desired_panel_to_focus_ (bar s)). by destruct (bar s).
  - by intros _ s' [[? ?] ?].
Qed.

Lemma safe_ExpandPanel p b ms : p ∈ ps → ¬ X p → safe (ExpandPanel bar set_bar p b ms).
Proof. intros Hp HXp. unfold ExpandPanel. frame. Qed.
#[local] Hint Resolve safe_ExpandPanel safe_TakeFocus : framed.

(** [wm()->TakeFocus()] may focus another window, of this bar or not. *)
Variable wm_TakeFocus : M S unit.
Hypothesis safe_wm_TakeFocus : safe wm_TakeFocus.

Lemma safe_CollapsePanel p ms : p ∈ ps → ¬ X p → safe (CollapsePanel bar set_bar wm_TakeFocus p ms).
Proof.
  intros Hp HXp. unfold CollapsePanel. apply framed_bind; [apply _|frame|intros r].
  destruct (negb _); [frame|]. eapply framed_cut; [apply _|by apply GetNearestExpandedPanel_in|].
  intros o Ho. cbn beta in Ho. pose proof (safe_set_desired o Ho). frame.
Qed.
#[local] Hint Resolve safe_CollapsePanel : framed.

(** *** Handlers that keep the panels *)

Lemma on_world_wp {A} (m : M W A) s : bar_of ps s → quiet m →
  wp (on_world m) (fun _ s' => bar s' = bar s ∧ bar_of ps s' ∧ keep s s') s.
Proof.
  intros Hs Hm. pose proof (safe_on_world m Hm s Hs) as Hrun.
  unfold wp, on_world, zoom in *. destruct (m (world s)) as [[a w]|]; [|done]. split; [apply bar_set_world|done].
Qed.

Lemma safe_clear_dragged : safe (upd bar set_bar (fun b => b <| dragged_panel_ := None |>)).
Proof.
  apply safe_mild. intros []. unfold extra. repeat split; cbn; try tauto; [|by apply HYnone].
  intros q [?|[?|?]]; [done|left; right; by left|left; by right; right].
Qed.
Lemma safe_set_dragged_to o f : (∀ p, o = Some p → p ∈ ps) → (∀ d a f, Y d a f → Y o a f) →
  safe (upd bar set_bar (fun b => b <| dragged_panel_ := o |> <| dragging_panel_horizontally_ := f |>)).
Proof.
  intros Ho HYo. apply safe_mild. intros []. unfold extra. repeat split; cbn; try tauto; [|by apply HYo].
  intros q [?|[?|?]]; [right; by apply Ho|left; right; by left|left; by right; right].
Qed.

(** After a drag the deferred hiding happens or is called off. *)
Lemma safe_drag_finished :
  safe (b ← get bar id;
        if decide (collapsed_panel_state_ b = COLLAPSED_PANEL_STATE_WAITING_TO_HIDE) then
          pos ← query_pointer;
          height ← wm_height_;
          let pointer_y := match pos with Some (_, py) => py | None => 0 end in
          if pointer_y <? i32 (height - kHideCollapsedPanelsDistancePixels) then HideCollapsedPanels bar set_bar
          else
            upd bar set_bar (fun b => b <| collapsed_panel_state_ := COLLAPSED_PANEL_STATE_SHOWN |>);;
            StartHideCollapsedPanelsWatcher bar set_bar
        else mret ()).
Proof.
  intros s Hs. apply wp_gets_bind. cbn [id]. case_decide as Hst; [|split; [done|reflexivity]].
  eapply wp_cut; [by apply (on_world_wp _ s Hs), quiet_query_pointer|]. intros pos s1 (Hb & Hs1 & Hk1).
  apply wp_gets_bind. cbn zeta. destruct (_ <? _); [by apply safe_then, safe_HideCollapsedPanels|].
  apply wp_modify_bind. destruct (safe_set_state COLLAPSED_PANEL_STATE_SHOWN ltac:(done) s1 Hs1) as [Hs2 Hk2].
  { rewrite Hb. apply (wf_timer s (proj1 Hs)). by rewrite Hst. }
  eapply safe_then; [exact Hs2|by etransitivity|apply safe_StartHide].
Qed.
#[local] Hint Resolve safe_drag_finished : framed.

(** Where the panel goes at the end of a drag. *)
Lemma safe_drag_moves (b : PanelBar.t) p info : p ∈ ps →
  safe (if dragging_panel_horizontally_ b then MoveX p (snapped_right info) true kPanelArrangeAnimMs
        else
          r ← look p;
          height ← wm_height_;
          let visible := mostly_visible (Panel.titlebar_y r) height (Panel.total_height r) in
          if visible && negb (Panel.is_expanded_ r) then
            ExpandPanel bar set_bar p false 75;;
            timestamp ← GetCurrentTimeFromServer;
            FocusPanel bar set_bar p false timestamp
          else if negb visible && Panel.is_expanded_ r then CollapsePanel bar set_bar wm_TakeFocus p 75
          else y ← ComputePanelY bar r info; MoveY p y true 75).
Proof. intros Hp. pose proof (HX p Hp). cbv zeta. frame. Qed.

Lemma safe_HandlePanelDragComplete p : p ∈ ps → safe (HandlePanelDragComplete sm bar set_bar wm_TakeFocus p).
Proof.
  intros Hp. pose proof (HX p Hp). unfold HandlePanelDragComplete. pose proof safe_clear_dragged.
  assert (0 ≤ StackingManager.LAYER_STATIONARY_PANEL_IN_BAR < StackingManager.LAYER_BACKGROUND) by done.
  frame.
Qed.
#[local] Hint Resolve safe_HandlePanelDragComplete : framed.

Lemma safe_dragged_of {B} (k : PanelBar.t → M S B) :
  (∀ b, (∀ d, dragged_panel_ b = Some d → d ∈ ps) → safe (k b)) → safe (get bar id ≫= k).
Proof.
  intros Hk. apply safe_get_bind. intros s [Hwf Hps]. apply Hk. intros d Hd. rewrite <-Hps.
  apply (wf_pointers s Hwf). auto.
Qed.

Lemma safe_HandleNotifyPanelDraggedMessage p x y : p ∈ ps → (∀ d a f, Y d a f → Y (Some p) a f) →
  safe (HandleNotifyPanelDraggedMessage sm bar set_bar wm_TakeFocus p x y).
Proof.
  intros Hp HYp. pose proof (HX p Hp). unfold HandleNotifyPanelDraggedMessage.
  assert (0 ≤ StackingManager.LAYER_DRAGGED_PANEL < StackingManager.LAYER_BACKGROUND) by done.
  pose proof (fun f => safe_set_dragged_to (Some p) f ltac:(congruence) HYp).
  apply framed_bind; [apply _|frame|intros r]. apply framed_bind; [apply _|frame|intros height].
  destruct (_ <=? _); [frame|]. apply safe_dragged_of. intros b Hd.
  apply framed_bind; [apply _| |frame]. destruct (negb _); [|frame].
  apply framed_bind; [apply _| |frame].
  destruct (dragged_panel_ b) as [d|]; [specialize (Hd d eq_refl); frame|frame].
Qed.

Lemma safe_HandleInputWindowButtonPress button s : bar_of ps s →
  wp (HandleInputWindowButtonPress bar set_bar wm_TakeFocus (anchor_input_xid_ (bar s)) button)
     (fun _ s' => bar_of ps s' ∧ keep s s') s.
Proof.
  intros Hs. unfold HandleInputWindowButtonPress. apply wp_gets_bind. cbn [id].
  apply wp_CHECK_bind; [apply Z.eqb_refl|]. destruct (negb _); [split; [done|reflexivity]|].
  apply safe_then; [done|reflexivity|].
  assert (∀ p, anchor_panel_ (bar s) = Some p → p ∈ ps) as Hp.
  { intros p Hp. rewrite <-(proj2 Hs). apply (wf_pointers s (proj1 Hs)). auto. }
  destruct (anchor_panel_ (bar s)) as [p|]; [|frame]. specialize (Hp p eq_refl). pose proof (HX p Hp). frame.
Qed.

Lemma safe_HandleInputWindowPointerEnter xid x_root : safe (HandleInputWindowPointerEnter bar set_bar xid x_root).
Proof.
  unfold HandleInputWindowPointerEnter. intros s Hs. apply wp_gets_bind. cbn [id].
  destruct (negb _); [split; [done|reflexivity]|]. apply wp_gets_bind.
  destruct (_ <=? _); [by apply safe_then, safe_ShowCollapsedPanels|].
  case_bool_decide as E1; [split; [done|reflexivity]|].
  case_bool_decide as E2; [split; [done|reflexivity]|]. cbn [orb].
  assert (show_collapsed_panels_timer_id_ (bar s) = 0) as Ht by (by apply (wf_timer s (proj1 Hs))).
  apply wp_modify_bind. set (s1 := set_bar _ s).
  assert (bar_of ps s1) as Hs1.
  { apply mild_wf; [done|]. destruct (bar s). unfold mild, pointer, timer_ok, extra. cbn. repeat split; tauto. }
  apply wp_cut with (P := fun _ s' => s' = s1).
  { unfold DCHECK. rewrite Ht. by destruct dchecks. }
  intros _ ? ->. eapply wp_cut; [by apply (on_world_wp _ s1 Hs1), quiet_timeout_add|].
  intros id s2 (Hb & Hs2 & Hk). apply wp_modify. split.
  - apply mild_wf; [done|]. rewrite Hb. unfold s1. rewrite bar_set_bar. destruct (bar s).
    unfold mild, pointer, timer_ok, extra. cbn. repeat split; tauto.
  - etransitivity; [apply keep_set_bar|]. etransitivity; [exact Hk|]. apply keep_set_bar.
Qed.

(** The timer is stopped after the state changed. *)
Lemma DisableTimer_late s : wm_ok (world s) →
  bar_of ps (set_bar ((bar s) <| show_collapsed_panels_timer_id_ := 0 |>) s) →
  wp (DisableShowCollapsedPanelsTimer bar set_bar) (fun _ s' => bar_of ps s' ∧ keep s s') s.
Proof.
  intros Hok Hs0. set (s0 := set_bar _ s) in *.
  assert (heap_lives s0 s) as Hk0 by (apply heap_kept_lives, heap_kept_same; unfold s0; by rewrite heap_set_bar).
  unfold DisableShowCollapsedPanelsTimer. apply wp_gets_bind. cbn [id].
  destruct (Z.eqb_spec (show_collapsed_panels_timer_id_ (bar s)) 0) as [Hz|Hz]; cbn [negb].
  - split; [|reflexivity]. apply (bar_of_kept ps s0); [done|done| |done].
    unfold s0. rewrite bar_set_bar. destruct (bar s). cbn in *. by subst.
  - apply wp_bind, wp_zoom. eapply wp_mono; [by apply quiet_source_remove|]. intros _ w [Hokw Hscr].
    apply wp_modify. rewrite bar_set_world.
    assert (keep s (set_bar ((bar s) <| show_collapsed_panels_timer_id_ := 0 |>) (set_world w s))) as Hk.
    { etransitivity; [|apply keep_set_bar]. apply keep_same; [|apply bar_heap_set_world|apply rest_set_world].
      by rewrite bar_world_set_world. }
    split; [|done]. apply (bar_of_kept ps s0); [done| | |etransitivity; [exact Hk0|apply heap_kept_lives, Hk]].
    + by rewrite world_set_bar, bar_world_set_world.
    + unfold s0. by rewrite !bar_set_bar.
Qed.

Lemma safe_HandleInputWindowPointerLeave xid : safe (HandleInputWindowPointerLeave bar set_bar xid).
Proof.
  unfold HandleInputWindowPointerLeave. intros s Hs. apply wp_gets_bind. cbn [id].
  destruct (negb _); [split; [done|reflexivity]|]. case_decide as Hst; [|split; [done|reflexivity]].
  apply wp_modify_bind. eapply wp_mono; [apply DisableTimer_late|].
  - rewrite world_set_bar. apply Hs.
  - apply (bar_of_kept ps (set_bar ((bar s) <| collapsed_panel_state_ := COLLAPSED_PANEL_STATE_HIDDEN |>
                                            <| show_collapsed_panels_timer_id_ := 0 |>) s)).
    + apply mild_wf; [done|]. destruct (bar s). unfold mild, pointer, timer_ok, extra. cbn. repeat split; tauto.
    + rewrite !world_set_bar. apply Hs.
    + by rewrite !bar_set_bar.
    + apply heap_kept_lives, heap_kept_same. by rewrite !heap_set_bar.
  - intros _ s' [??]. split; [done|]. etransitivity; [apply keep_set_bar|done].
Qed.

Lemma safe_HandleShowCollapsedPanelsTimer s :
  bar_of ps s → show_collapsed_panels_timer_id_ (bar s) ≠ 0 →
  wp (HandleShowCollapsedPanelsTimer bar set_bar) (fun _ s' => bar_of ps s' ∧ keep s s') s.
Proof.
  intros Hs Ht. unfold HandleShowCollapsedPanelsTimer. apply wp_gets_bind. cbn [id].
  assert (collapsed_panel_state_ (bar s) = COLLAPSED_PANEL_STATE_WAITING_TO_SHOW) as Hst.
  { destruct (decide (collapsed_panel_state_ (bar s) = COLLAPSED_PANEL_STATE_WAITING_TO_SHOW)); [done|].
    exfalso. apply Ht, (wf_timer s (proj1 Hs)). done. }
  apply wp_cut with (P := fun _ s' => s' = s).
  { unfold DCHECK. rewrite bool_decide_true by done. by destruct dchecks. }
  intros _ ? ->.
  assert (safe (upd bar set_bar (fun b => b <| show_collapsed_panels_timer_id_ := 0 |>))) as Hupd.
  { apply safe_mild. intros []. unfold mild, pointer, timer_ok, extra. cbn. repeat split; tauto. }
  apply safe_then; [done|reflexivity|]. frame.
Qed.

Lemma safe_HandleAnchorWatcherTimer : safe (HandleAnchorWatcherTimer bar set_bar).
Proof.
  unfold HandleAnchorWatcherTimer, PointerPositionWatcher.HandleTimer.
  assert (∀ f, safe (modify (fun s => set_anchor_watcher bar set_bar (f s) s))) as Hset.
  { intros f. apply framed_modify. intros s Hs. split; [|apply keep_set_bar].
    apply mild_wf; [done|]. destruct (bar s). by apply mild_same. }
  specialize (Hset (fun s => (anchor_watcher bar s) <| PointerPositionWatcher.timer_id_ := 0 |>)). frame.
Qed.
Lemma safe_HandleHideWatcherTimer : safe (HandleHideWatcherTimer bar set_bar).
Proof.
  unfold HandleHideWatcherTimer, PointerPositionWatcher.HandleTimer.
  assert (∀ f, safe (modify (fun s => set_hide_watcher bar set_bar (f s) s))) as Hset.
  { intros f. apply framed_modify. intros s Hs. split; [|apply keep_set_bar].
    apply mild_wf; [done|]. destruct (bar s). by apply mild_same. }
  specialize (Hset (fun s => (hide_watcher bar s) <| PointerPositionWatcher.timer_id_ := 0 |>)). frame.
Qed.

Lemma safe_HandlePanelTitlebarPointerEnter p : p ∈ ps → safe (HandlePanelTitlebarPointerEnter bar set_bar p).
Proof. intros Hp. unfold HandlePanelTitlebarPointerEnter. frame. Qed.
Lemma safe_HandlePanelFocusChange p b : p ∈ ps → safe (HandlePanelFocusChange p b).
Proof. intros Hp. unfold HandlePanelFocusChange. frame. Qed.
Lemma safe_HandleSetPanelStateMessage p b : p ∈ ps →
  safe (HandleSetPanelStateMessage bar set_bar wm_TakeFocus p b).
Proof. intros Hp. pose proof (HX p Hp). unfold HandleSetPanelStateMessage. frame. Qed.
Lemma safe_HandleFocusPanelMessage p : p ∈ ps → safe (HandleFocusPanelMessage bar set_bar p).
Proof. intros Hp. pose proof (HX p Hp). unfold HandleFocusPanelMessage. frame. Qed.
Lemma safe_HandlePanelUrgencyChange p : p ∈ ps → safe (HandlePanelUrgencyChange bar set_bar p).
Proof. intros Hp. pose proof (HX p Hp). unfold HandlePanelUrgencyChange. frame. Qed.
Lemma safe_HandleScreenResize : safe (HandleScreenResize bar set_bar).
Proof.
  unfold HandleScreenResize. apply safe_get_bind. intros s [Hwf Hps]. cbn [id].
  apply framed_bind; [apply _| |intros _].
  { apply safe_for_each. intros p. rewrite Hps. intros Hp. pose proof (HX p Hp). frame. }
  apply framed_bind; [apply _|frame|intros _].
  destruct (dragged_panel_ (bar s)) as [d|] eqn:Ed; [|frame].
  apply safe_ReorderPanel. rewrite <-Hps. apply (wf_pointers s Hwf). auto.
Qed.
End invariant.

(** ** Adding and removing panels *)

Definition none (p : Z) : Prop := False.
Definition any (d a f : option Z) : Prop := True.

Lemma bar_of_extra X Y Y' ps s :
  bar_of X Y ps s → Y' (dragged_panel_ (bar s)) (anchor_panel_ (bar s)) (desired_panel_to_focus_ (bar s)) →
  bar_of X Y' ps s.
Proof. intros [[] ?] He. by split; [split|]. Qed.
Lemma bar_of_perm X Y ps ps' s : bar_of X Y ps s → ps ≡ₚ ps' → bar_of X Y ps' s.
Proof. intros [? Hps] Hp. split; [done|]. by rewrite Hps. Qed.
Lemma bar_of_placed X Y ps s :
  bar_of X Y ps s →
  (∀ p r, p ∈ ps → X p → heap s !! p = Some r → Panel.composited_windows_set_up_ r = true) →
  bar_of none Y ps s.
Proof.
  intros [[E1 E2 E3 E4 E5 E6 E7 E8] Hps] Hup. split; [|done]. split; try done.
  intros p Hp. destruct (E6 p Hp) as (r & Hr & HX). exists r. split; [done|]. intros _.
  destruct (decide (Panel.composited_windows_set_up_ r = true)) as [|Hn]; [done|]. rewrite Hps in Hp.
  apply HX. intros HXp. by apply Hn, (Hup p r).
Qed.

(** No window of the panel is another panel's. *)
Definition windows_fresh (r : Panel.t) (ps : list Z) (s : S) : Prop :=
  ∀ q rq, q ∈ ps → heap s !! q = Some rq →
    Panel.content_xid r ≠ Panel.content_xid rq ∧ Panel.content_xid r ≠ Panel.titlebar_xid rq ∧
    Panel.content_xid rq ≠ Panel.titlebar_xid r.

Lemma bar_of_add (X : Z → Prop) (Y : option Z → option Z → option Z → Prop) p r f ps s :
  bar_of none Y ps s → heap s !! p = Some r → p ∉ ps → windows_fresh r ps s →
  (¬ X p → Panel.composited_windows_set_up_ r = true) →
  (∀ b, panels_ (f b) = p :: panels_ b ∧
        (∀ q, is_Some (panel_infos_ (f b) !! q) ↔ q = p ∨ is_Some (panel_infos_ b !! q)) ∧
        dragged_panel_ (f b) = dragged_panel_ b ∧ anchor_panel_ (f b) = anchor_panel_ b ∧
        desired_panel_to_focus_ (f b) = desired_panel_to_focus_ b ∧
        collapsed_panel_state_ (f b) = collapsed_panel_state_ b ∧
        show_collapsed_panels_timer_id_ (f b) = show_collapsed_panels_timer_id_ b) →
  bar_of X (fun d a f => d = dragged_panel_ (bar s) ∧ Y d a f) (p :: ps) (set_bar (f (bar s)) s).
Proof.
  intros [[E1 E2 E3 E4 E5 E6 E7 E8] Hps] Hr Hp Hfresh HX Hf.
  destruct (Hf (bar s)) as (F1 & F2 & F3 & F4 & F5 & F6 & F7).
  split; [|by rewrite bar_set_bar, F1, Hps].
  split; rewrite ?bar_set_bar, ?heap_set_bar, ?world_set_bar, ?F1, ?F3, ?F4, ?F5, ?F6, ?F7; try done.
  - constructor; [by rewrite Hps|done].
  - intros q. rewrite F2, elem_of_cons, E3. done.
  - intros q Hq. right. by apply E4.
  - intros q [->|Hq]%elem_of_cons; [by exists r|]. destruct (E6 q Hq) as (rq & Hrq & Hup).
    exists rq. split; [done|]. intros _. apply Hup. by intros [].
  - intros q1 q2 r1 r2 [->|Hq1]%elem_of_cons [->|Hq2]%elem_of_cons Hr1 Hr2 Hx; [done|..]; simplify_eq.
    + rewrite Hps in Hq2. destruct (Hfresh q2 r2 Hq2 Hr2) as (?&?&?). naive_solver.
    + rewrite Hps in Hq1. destruct (Hfresh q1 r1 Hq1 Hr1) as (?&?&?). destruct Hx; congruence.
    + by eapply E7.
Qed.

(** The panel is placed. *)
Lemma Move_places X Y ps p right y mcw ms s :
  bar_of X Y ps s → p ∈ ps → (∀ q, X q → q = p) →
  wp (Move p right y mcw ms) (fun _ s' => bar_of none Y ps s' ∧ keep s s') s.
Proof.
  intros Hs Hp HX. destruct (at_panel X Y p s Hs Hp) as (r & Hr & _).
  eapply wp_mono; [apply (call_wp bar rest _ p r
    (fun r r' => moved_xy right y r r' ∧ Panel.composited_windows_set_up_ r' = true)); [done|]|].
  - eapply wp_mono; [apply (Move_wp _ _ _ _ (elsewhere bar rest p)), Hs|]. intros a s' (Hok & (?&?&?) & Hup). by split.
  - intros a s' [Hok Ht]. assert (keep s s') as Hk.
    { eapply (touched_keep bar rest); [|exact Ht]. intros ?? [? _]. by eapply moved_kept. }
    split; [|done]. apply (bar_of_placed X).
    + apply (bar_of_keep X Y ps s); [done|done|apply Ht|done].
    + intros q rq _ Hq Hrq. apply HX in Hq as ->.
      destruct Ht as (_ & _ & _ & _ & r1 & r2 & _ & Hr2 & _ & Hup). congruence.
Qed.

#[local] Hint Resolve safe_look safe_get safe_wm_width safe_wm_height safe_actor safe_x safe_GetCurrentTimeFromServer
  safe_GetPanelInfoOrDie safe_GetNumCollapsedPanels safe_ComputePanelY safe_computed_y safe_ConfigureShow
  safe_delete_watcher safe_FocusPanel safe_AddButtonGrab safe_SetResizable safe_StackAtTopOfLayer safe_MoveY
  safe_PackPanels safe_ReorderPanel : framed.
#[local] Hint Extern 1 (framed _ _ (on_world _)) => apply safe_on_world : framed.

Definition add_tail (p : Z) (source : PanelSource) : M S unit :=
  r ← look p;
  SetResizable p (Panel.is_expanded_ r);;
  r ← look p;
  (if Panel.is_expanded_ r && (bool_decide (source = PANEL_SOURCE_NEW) || Window.focused_ (Panel.content_win_ r))
   then timestamp ← GetCurrentTimeFromServer; FocusPanel bar set_bar p false timestamp
   else AddButtonGrab p);;
  r ← look p;
  if negb (Panel.is_expanded_ r) then
    n ← GetNumCollapsedPanels bar;
    if n =? 1 then ConfigureShowCollapsedPanelsInputWindow bar true else mret ()
  else mret ().

Lemma safe_add_tail (Y : option Z → option Z → option Z → Prop) ps p source :
  (∀ d a f f', Y d a f → Y d a f') → p ∈ ps → framed (bar_of none Y ps) keep (add_tail p source).
Proof. intros HYf Hp. unfold add_tail. frame. Qed.

Definition added (p : Z) (info : PanelInfo) (width : Z) (b : PanelBar.t) : PanelBar.t :=
  b <| panel_infos_ := match panel_infos_ b !! p with
                       | Some _ => panel_infos_ b
                       | None => <[p := info]> (panel_infos_ b)
                       end |>
    <| panels_ := p :: panels_ b |>
    <| total_panel_width_ := i32 (total_panel_width_ b + (width + kPixelsBetweenPanels)) |>.
Lemma added_adds p info width b :
  let b' := added p info width b in
  panels_ b' = p :: panels_ b ∧
  (∀ q, is_Some (panel_infos_ b' !! q) ↔ q = p ∨ is_Some (panel_infos_ b !! q)) ∧
  dragged_panel_ b' = dragged_panel_ b ∧ anchor_panel_ b' = anchor_panel_ b ∧
  desired_panel_to_focus_ b' = desired_panel_to_focus_ b ∧
  collapsed_panel_state_ b' = collapsed_panel_state_ b ∧
  show_collapsed_panels_timer_id_ b' = show_collapsed_panels_timer_id_ b.
Proof.
  destruct b as [? ? infos]. cbn. split; [done|]. split; [|done]. intros q.
  destruct (infos !! p) eqn:E.
  - split; [by right|]. intros [->|?]; [by eexists|done].
  - destruct (decide (q = p)) as [->|Hne].
    + rewrite lookup_insert_eq. split; [by left|by eexists].
    + rewrite lookup_insert_ne by done. split; [by right|]. by intros [?|?].
Qed.

Lemma AddPanel_safe (Y : option Z → option Z → option Z → Prop) ps p r source s :
  (∀ d a f f', Y d a f → Y d a f') → (source = PANEL_SOURCE_DRAGGED → ∀ d a f, Y d a f → Y (Some p) a f) →
  bar_of none Y ps s → heap s !! p = Some r → p ∉ ps → windows_fresh r ps s →
  (source = PANEL_SOURCE_DRAGGED →
   Panel.composited_windows_set_up_ r = true ∧ dragged_panel_ (bar s) = None) →
  wp (AddPanel sm bar set_bar p source) (fun _ s' => bar_of none Y (p :: ps) s' ∧ keep s s') s.
Proof.
  intros HYf HYp Hs Hr Hp Hfresh Hdrag. unfold AddPanel.
  apply wp_gets_bind, wp_gets_bind, wp_gets_bind. cbn [id].
  eapply wp_cut; [by eapply (look_wp p r (fun r' s' => r' = r ∧ s' = s))|]. intros r' ? [-> ->].
  set (info := mkInfo _ _).
  apply wp_modify_bind. set (s1 := set_bar _ s).
  set (X := fun q : Z => q = p ∧ source ≠ PANEL_SOURCE_DRAGGED).
  assert (bar_of X (fun d a f => d = dragged_panel_ (bar s) ∧ Y d a f) (p :: ps) s1) as Hs1.
  { apply (bar_of_add _ Y p r (added p info (Panel.width r))); try done.
    - intros Hn. apply Hdrag. destruct source; try done; exfalso; by apply Hn.
    - apply added_adds. }
  assert (p ∈ p :: ps) as Hin by by left.
  assert (keep s s1) as Hk1 by apply keep_set_bar.
  eapply (wp_cut _ _ (fun _ s2 => bar_of X Y (p :: ps) s2 ∧ keep s s2)).
  { destruct (decide (source = PANEL_SOURCE_DRAGGED)) as [Hsrc|Hsrc].
    - destruct (Hdrag Hsrc) as [Hup Hnone]. rewrite Hnone in Hs1.
      eapply wp_cut; [refine (safe_ReorderPanel X _ _ p Hin s1 Hs1); by intros q _ [_ ?]|].
      intros _ s2 [Hs2 Hk2]. apply wp_gets_bind. cbn [id].
      eapply (wp_cut _ _ (fun _ s' => s' = s2)).
      { pose proof (wf_extra _ _ s2 (proj1 Hs2)) as [Hd _]. unfold DCHECK. rewrite Hd. by destruct dchecks. }
      intros _ ? ->. eapply wp_mono.
      + apply (safe_set_dragged_to (ps := p :: ps) X Y (Some p) true ltac:(congruence) (HYp Hsrc) s2).
        eapply bar_of_extra; [exact Hs2|]. apply (wf_extra _ _ s2 (proj1 Hs2)).
      + intros _ s3 [Hs3 Hk3]. split; [exact Hs3|]. by do 2 (etransitivity; [eassumption|]).
    - apply wp_ret. split; [|done]. eapply bar_of_extra; [done|]. apply (wf_extra _ _ s1 (proj1 Hs1)). }
  intros _ s2 [Hs2 Hk2].
  eapply (wp_cut _ _ (fun _ s3 => bar_of X Y (p :: ps) s3 ∧ keep s s3)).
  { eapply safe_then; [exact Hs2|exact Hk2|]. apply safe_StackAtTopOfLayer; [done|]. by destruct source. }
  intros _ s3 [Hs3 Hk3].
  eapply wp_cut; [apply (safe_then X Y _ s s3 Hs3 Hk3); frame|]. intros info' s4 [Hs4 Hk4].
  eapply wp_cut; [apply (safe_then X Y _ s s4 Hs4 Hk4); frame|]. intros final_y s5 [Hs5 Hk5].
  eapply (wp_cut _ _ (fun _ s6 => bar_of none Y (p :: ps) s6 ∧ keep s s6)).
  { assert (∀ q, X q → q = p) as HXp by (by intros q [-> _]).
    assert (¬ none p) as Hnone by (by intros []).
    destruct source.
    - eapply wp_cut; [by apply (Move_places X Y (p :: ps))|]. intros _ s6 [Hs6 Hk6].
      eapply safe_then; [exact Hs6|by etransitivity|]. by apply safe_MoveY.
    - eapply (safe_then none); [|exact Hk5|by apply safe_MoveY].
      apply (bar_of_placed X); [done|]. by intros ? ? ? [_ ?].
    - eapply wp_mono; [by apply (Move_places X Y (p :: ps))|]. intros _ s6 [Hs6 Hk6].
      split; [done|by etransitivity]. }
  intros _ s6 [Hs6 Hk6]. eapply safe_then; [exact Hs6|exact Hk6|]. by apply (safe_add_tail Y _ p source).
Qed.

(** After the drag's end no panel of the bar is dragged. *)
Lemma HandlePanelDragComplete_ends (wm_TakeFocus : M S unit) p ps s :
  let Y := fun d a f : option Z => d = None ∨ d = Some p in
  framed (bar_of none Y ps) keep wm_TakeFocus → p ∈ ps → bar_of none Y ps s →
  wp (HandlePanelDragComplete sm bar set_bar wm_TakeFocus p)
     (fun _ s' => bar_of none (fun d a f => d = None) ps s' ∧ keep s s') s.
Proof.
  intros Y Hfocus Hp Hs. unfold HandlePanelDragComplete. apply wp_gets_bind. cbn [id].
  assert (∀ q, q ∈ ps → ¬ none q) as Hnone by (by intros ? ? []).
  case_bool_decide as Hd; cbn [negb]; cycle 1.
  { split; [|reflexivity]. eapply bar_of_extra; [exact Hs|]. destruct (wf_extra _ _ _ (proj1 Hs)); [done|congruence]. }
  eapply wp_cut; [apply (safe_then none Y _ s s Hs); [reflexivity|by apply safe_GetPanelInfoOrDie]|].
  intros info s1 [Hs1 Hk1].
  eapply wp_cut; [apply (safe_then none Y _ s s1 Hs1 Hk1); apply safe_drag_moves; try done; by left|].
  intros _ s2 [Hs2 Hk2].
  eapply wp_cut; [apply (safe_then none Y _ s s2 Hs2 Hk2); by apply safe_StackAtTopOfLayer|].
  intros _ s3 [Hs3 Hk3]. apply wp_modify_bind.
  destruct (safe_clear_dragged none Y (ps := ps) (fun _ _ _ _ => or_introl eq_refl) s3 Hs3) as [Hs4 Hk4].
  set (s4 := set_bar _ s3) in *.
  apply (safe_then none (fun d a f => d = None)); [|by etransitivity|by apply safe_drag_finished].
  eapply bar_of_extra; [exact Hs4|]. unfold s4. rewrite bar_set_bar. by destruct (bar s3).
Qed.

(** *** Removing *)

Lemma DestroyAnchor_wp Y0 ps s : bar_of none Y0 ps s →
  wp (DestroyAnchor bar set_bar)
     (fun _ s' => bar_of none (fun d a f => d = dragged_panel_ (bar s) ∧ a = None ∧
                                            f = desired_panel_to_focus_ (bar s)) ps s' ∧ keep s s') s.
Proof.
  intros Hs. unfold DestroyAnchor. apply wp_gets_bind. cbn [id].
  set (Y := fun (d a f : option Z) => d = dragged_panel_ (bar s) ∧ f = desired_panel_to_focus_ (bar s)).
  assert (bar_of none Y ps s) as HsY by by eapply bar_of_extra.
  eapply wp_cut; [apply (safe_then none Y _ s s HsY); [reflexivity|frame]|]. intros _ s1 [Hs1 Hk1].
  eapply wp_cut; [apply (safe_then none Y _ s s1 Hs1 Hk1); frame|]. intros _ s2 [Hs2 Hk2].
  apply wp_modify_bind. set (s3 := set_bar _ s2).
  assert (bar_of none (fun d a f => d = dragged_panel_ (bar s) ∧ a = None ∧
                                    f = desired_panel_to_focus_ (bar s)) ps s3 ∧ keep s s3) as [Hs3 Hk3].
  { destruct (safe_set_anchor none Y (ps := ps) ltac:(done) None ltac:(done) s2 Hs2) as [Hs3 Hk3].
    split; [|by etransitivity]. eapply bar_of_extra; [exact Hs3|].
    destruct (wf_extra _ _ _ (proj1 Hs3)) as [Hd Hf]. split; [done|]. split; [|done].
    unfold s3. rewrite bar_set_bar. by destruct (bar s2). }
  eapply safe_then; [exact Hs3|exact Hk3|]. frame.
  apply safe_mild. intros []. by apply mild_same.
Qed.

Lemma find_by_window_wp p rp l s :
  heap s !! p = Some rp → p ∈ l → (∀ q, q ∈ l → is_Some (heap s !! q)) →
  (∀ q rq, q ∈ l → heap s !! q = Some rq →
     Panel.content_xid rp = Panel.content_xid rq ∨ Panel.content_xid rp = Panel.titlebar_xid rq → p = q) →
  wp (find_by_window (Panel.content_xid rp) l) (fun i s' => s' = s ∧ l !! i = Some p) s.
Proof.
  intros Hrp. induction l as [|q l IH]; intros Hp Hall Huniq; [by apply not_elem_of_nil in Hp|]. cbn [find_by_window].
  destruct (Hall q) as [rq Hrq]; [by left|].
  eapply wp_cut; [by eapply (look_wp q rq (fun r' s' => r' = rq ∧ s' = s))|]. intros r' ? [-> ->].
  destruct ((Panel.titlebar_xid rq =? Panel.content_xid rp) || (Panel.content_xid rq =? Panel.content_xid rp)) eqn:E.
  - apply wp_ret. split; [done|]. cbn. f_equal. symmetry. apply (Huniq q rq); [by left|done|].
    apply orb_true_iff in E as [E|E]; apply Z.eqb_eq in E; auto.
  - assert (q ≠ p). { intros ->. simplify_eq. by rewrite Z.eqb_refl, orb_true_r in E. }
    eapply wp_cut; [apply IH|]; [set_solver| |intros q' rq' Hq'; apply Huniq; by right|].
    + intros q' Hq'. apply Hall. by right.
    + intros i ? [-> Hi]. by split.
Qed.

Definition removed (p : Z) (l : list Z) (width : Z) (b : PanelBar.t) : PanelBar.t :=
  (b <| panel_infos_ := delete p (panel_infos_ b) |>)
    <| total_panel_width_ := i32 (total_panel_width_ b - (width + kPixelsBetweenPanels)) |> <| panels_ := l |>.

Lemma bar_of_remove (Y : option Z → option Z → option Z → Prop) p l width ps ps' s :
  bar_of none (fun d a f => d ≠ Some p ∧ a ≠ Some p ∧ f ≠ Some p ∧ Y d a f) ps s →
  ps ≡ₚ p :: ps' → l ≡ₚ ps' →
  bar_of none Y ps' (set_bar (removed p l width (bar s)) s).
Proof.
  intros [[E1 E2 E3 E4 E5 E6 E7 (Ed & Ea & Ef & EY)] Hps] Hp Hl.
  assert (panels_ (bar s) ≡ₚ p :: l) as Hpl by by rewrite Hps, Hp, Hl.
  assert (∀ q, q ∈ panels_ (bar s) ↔ q = p ∨ q ∈ l) as Hin by (intros q; by rewrite Hpl, elem_of_cons).
  assert (p ∉ l ∧ NoDup l) as [Hpn Hnd] by (apply NoDup_cons; by rewrite <-Hpl).
  split; [|rewrite bar_set_bar; by destruct (bar s)].
  destruct (bar s) eqn:Eb. split; rewrite ?bar_set_bar, ?heap_set_bar, ?world_set_bar; cbn in *; try done.
  - intros q. rewrite lookup_delete_is_Some, E3, Hin. naive_solver.
  - intros q Hq. assert (q ∈ panels_0) as Hq' by by apply E4. apply Hin in Hq' as [->|?]; [naive_solver|done].
  - intros q Hq. apply E6, Hin. by right.
  - intros q1 q2 r1 r2 Hq1 Hq2. apply E7; apply Hin; by right.
Qed.

Lemma RemovePanel_safe (Y : option Z → option Z → option Z → Prop) p ps ps' s :
  (∀ d a a' f f', Y d a f → Y d a' f') → (∀ d a f, Y d a f → Y None a f) →
  bar_of none Y ps s → ps ≡ₚ p :: ps' →
  wp (RemovePanel bar set_bar p) (fun _ s' => bar_of none Y ps' s' ∧ keep s s') s.
Proof.
  intros HY HYn Hs Hps. assert (p ∈ ps) as Hp by (rewrite Hps; by left).
  unfold RemovePanel. apply wp_gets_bind. cbn [id].
  set (d0 := dragged_panel_ (bar s)). set (f0 := desired_panel_to_focus_ (bar s)).
  assert (∀ d a f, d = d0 ∨ d = None → Y d a f) as HYs.
  { pose proof (wf_extra _ _ s (proj1 Hs)) as HY0. intros d a f [->| ->]; [by eapply HY|]. by eapply HYn, HY. }
  (* the anchor *)
  eapply (wp_cut _ _ (fun _ s' => bar_of none (fun d a f => d = d0 ∧ a ≠ Some p ∧ f = f0) ps s' ∧ keep s s')).
  { case_bool_decide as Ha.
    - eapply wp_mono; [by eapply DestroyAnchor_wp|]. intros _ s1 [Hs1 Hk1]. split; [|done].
      eapply bar_of_extra; [exact Hs1|]. destruct (wf_extra _ _ _ (proj1 Hs1)) as (? & -> & ?). done.
    - apply wp_ret. split; [|reflexivity]. by eapply bar_of_extra. }
  intros _ s1 [Hs1 Hk1].
  (* the dragged panel *)
  eapply (wp_cut _ _ (fun _ s' => bar_of none (fun d a f => d ≠ Some p ∧ (d = d0 ∨ d = None) ∧ a ≠ Some p ∧ f = f0) ps s' ∧
                                  keep s s')).
  { destruct (wf_extra _ _ _ (proj1 Hs1)) as (Hd & Ha & Hf). fold d0. case_bool_decide as Hdp.
    - apply wp_modify. split; [|etransitivity; [exact Hk1|apply keep_set_bar]].
      eapply bar_of_extra.
      + apply (mild_wf none any); [by eapply bar_of_extra|]. destruct (bar s1).
        unfold mild, pointer, timer_ok, extra. cbn. repeat split; tauto || naive_solver.
      + rewrite bar_set_bar. destruct (bar s1). cbn in *. split; [done|]. by split; [right|].
    - apply wp_ret. split; [|done]. eapply bar_of_extra; [exact Hs1|]. rewrite Hd. by split; [|split; [left|]]. }
  intros _ s2 [Hs2 Hk2].
  (* the panel to focus *)
  eapply (wp_cut _ _ (fun _ s' => bar_of none (fun d a f => d ≠ Some p ∧ a ≠ Some p ∧ f ≠ Some p ∧ Y d a f) ps s' ∧
                                  keep s s')).
  { destruct (wf_extra _ _ _ (proj1 Hs2)) as (Hd & Hd' & Ha & Hf). fold f0. case_bool_decide as Hfp.
    - eapply wp_cut; [by apply (GetNearestExpandedPanel_wp _ _ (ps := ps) p s2 Hs2)|].
      intros o ? [-> Ho]. apply wp_modify. split; [|etransitivity; [exact Hk2|apply keep_set_bar]].
      eapply bar_of_extra.
      + apply (mild_wf none any); [by eapply bar_of_extra|]. destruct (bar s2).
        unfold mild, pointer, timer_ok, extra. cbn. repeat split; tauto || naive_solver.
      + rewrite bar_set_bar. destruct (bar s2). cbn in *. split; [done|]. split; [done|]. split; [naive_solver|].
        by apply HYs.
    - apply wp_ret. split; [|done]. eapply bar_of_extra; [exact Hs2|]. rewrite Hf.
      split; [done|]. split; [done|]. split; [done|]. by apply HYs. }
  intros _ s3 [Hs3 Hk3].
  (* the panel itself *)
  destruct (at_panel _ _ p s3 Hs3 Hp) as (r & Hr & _).
  eapply wp_cut; [by eapply (look_wp p r (fun r' s' => r' = r ∧ s' = s3))|]. intros r' ? [-> ->].
  apply wp_gets_bind. cbn [id].
  assert (p ∈ panels_ (bar s3)) as Hpb by by rewrite (proj2 Hs3).
  apply wp_CHECK_bind; [by apply bool_decide_eq_true, (wf_infos _ _ _ (proj1 Hs3))|].
  apply wp_modify_bind.
  eapply wp_cut; [apply (find_by_window_wp p r); rewrite ?heap_set_bar; [done|done| |]|].
  { intros q Hq. destruct (wf_heap _ _ _ (proj1 Hs3) q Hq) as (rq & Hrq & _). by eexists. }
  { intros q rq Hq Hrq. by apply (wf_windows _ _ _ (proj1 Hs3)). }
  intros it ? [-> Hit]. rewrite Hit.
  eapply wp_cut; [eapply (look_wp p r (fun r' s' => r' = r ∧ s' = set_bar _ s3)); [by rewrite heap_set_bar|done]|].
  intros r' ? [-> ->]. apply wp_modify_bind. rewrite !bar_set_bar.
  change (panels_ ((bar s3) <| panel_infos_ := _ |>)) with (panels_ (bar s3)).
  set (l := take it _ ++ _). set (s5 := set_bar _ (set_bar _ s3)).
  assert (bar_of none Y ps' (set_bar (removed p l (Panel.width r) (bar s3)) s3)) as Hs4.
  { apply (bar_of_remove Y p l _ ps); [done|done|].
    assert (panels_ (bar s3) ≡ₚ p :: l) as Hpl.
    { rewrite <-(take_drop_middle _ _ _ Hit) at 1. symmetry. apply Permutation_middle. }
    rewrite (proj2 Hs3), Hps in Hpl. symmetry. by apply Permutation.Permutation_cons_inv in Hpl. }
  assert (bar_of none Y ps' s5 ∧ keep s s5) as [Hs5 Hk5].
  { assert (keep s3 s5) as Hk35 by (etransitivity; apply keep_set_bar). split; [|by etransitivity].
    apply (bar_of_kept none Y ps' _ s5 Hs4); unfold s5.
    - rewrite !world_set_bar. apply Hs3.
    - rewrite !bar_set_bar. by destruct (bar s3).
    - apply heap_kept_lives, heap_kept_same. by rewrite !heap_set_bar. }
  eapply safe_then; [exact Hs5|exact Hk5|]. apply safe_get_bind. intros s6 [Hwf6 Hps6]. cbn [id].
  assert (∀ q, q ∈ ps' → ¬ none q) as Hnone by (by intros ? ? []).
  assert (∀ d, dragged_panel_ (bar s6) = Some d → d ∈ ps') as Hd.
  { intros d Hd. rewrite <-Hps6. apply (wf_pointers _ _ _ Hwf6). auto. }
  destruct (dragged_panel_ (bar s6)) as [d|]; [specialize (Hd d eq_refl)|]; frame.
Qed.
End bar.

#[export] Hint Resolve safe_look safe_get safe_wm_width safe_wm_height safe_actor safe_x safe_GetCurrentTimeFromServer
  safe_GetPanelInfoOrDie safe_GetNumCollapsedPanels safe_ComputePanelY safe_computed_y safe_ConfigureShow
  safe_delete_watcher safe_FocusPanel safe_AddButtonGrab safe_SetResizable safe_StackAtTopOfLayer safe_MoveY
  safe_PackPanels safe_ReorderPanel
  safe_ShowCollapsedPanels safe_HandleNotifyPanelDraggedMessage safe_HandlePanelDragComplete
  safe_HandleInputWindowPointerEnter safe_HandleInputWindowPointerLeave safe_HandlePanelTitlebarPointerEnter
  safe_HandlePanelFocusChange safe_HandleSetPanelStateMessage safe_HandleFocusPanelMessage
  safe_HandlePanelUrgencyChange safe_HandleScreenResize safe_HandleAnchorWatcherTimer
  safe_HandleHideWatcherTimer safe_TakeFocus : framed.
#[export] Hint Extern 1 (framed _ _ (on_world _)) => apply safe_on_world : framed.
#[export] Hint Extern 0 (PartPlace _ _ _ _ _ _) => apply _ : framed.
