(* ===== verification/PanelManagerSafe.v ===== *)
(** * The panel manager over any containers (PanelManager.v).

    [ContainerLaws] is what a container of panels promises; the invariant [inv] of
    the panel manager and that every event keeps it are proved from the promise
    alone. *)

From S2P Require Import Prelude Hoare WmUtil XConnection WmIpc Double Window WmEvents Panel WmFrame PanelSafe.
From S2P Require Import PanelHeap PanelHeapSafe PanelDock PanelDockSafe PanelManager.
Import PanelRef PanelManager.

(** The parts of the state are independent; [alike] relates states in which the
    containers' own states agree. *)
Class ManagerPlace (S W : Type) `{PanelStore S W} (pm : S → PanelManager.t) (set_pm : PanelManager.t → S → S)
    (windows : S → gmap Z Window.t) (set_windows : gmap Z Window.t → S → S) (alike : S → S → Prop) := {
  mp_heap_heap h s : heap (set_heap h s) = h;
  mp_world_heap h s : world (set_heap h s) = world s;
  mp_pm_heap h s : pm (set_heap h s) = pm s;
  mp_windows_heap h s : windows (set_heap h s) = windows s;
  mp_heap_world w s : heap (set_world w s) = heap s;
  mp_world_world w s : world (set_world w s) = w;
  mp_pm_world w s : pm (set_world w s) = pm s;
  mp_windows_world w s : windows (set_world w s) = windows s;
  mp_heap_pm m s : heap (set_pm m s) = heap s;
  mp_world_pm m s : world (set_pm m s) = world s;
  mp_pm_pm m s : pm (set_pm m s) = m;
  mp_windows_pm m s : windows (set_pm m s) = windows s;
  mp_heap_windows v s : heap (set_windows v s) = heap s;
  mp_world_windows v s : world (set_windows v s) = world s;
  mp_pm_windows v s : pm (set_windows v s) = pm s;
  mp_windows_windows v s : windows (set_windows v s) = v;
  mp_alike :: PreOrder alike;
  mp_alike_heap h s : alike s (set_heap h s);
  mp_alike_world w s : alike s (set_world w s);
  mp_alike_pm m s : alike s (set_pm m s);
  mp_alike_windows v s : alike s (set_windows v s)
}.

(** Coordinates and sizes far from overflow. *)
Definition small (z : Z) : Prop := - 2 ^ 28 ≤ z ≤ 2 ^ 28.
Definition sane (px py : Z) (r : Panel.t) : Prop :=
  small px ∧ small py ∧ small (Panel.content_width r) ∧ small (Panel.content_height r) ∧ small (Panel.titlebar_height r).

(** Nobody else has a window of the panel. *)
Definition windows_apart (p : Z) (r : Panel.t) (h : gmap Z Panel.t) : Prop :=
  ∀ q rq, q ≠ p → h !! q = Some rq →
    Panel.content_xid r ≠ Panel.content_xid rq ∧ Panel.content_xid r ≠ Panel.titlebar_xid rq ∧
    Panel.content_xid rq ≠ Panel.titlebar_xid r.

Section manager.
Context `{Build} `{PanelFlags} {W : Type} `{WmHost W} {S : Type} `{PanelStore S W}.
Variable sm : StackingManager.t.
Variable pm : S → PanelManager.t.
Variable set_pm : PanelManager.t → S → S.
Variable windows : S → gmap Z Window.t.
Variable set_windows : gmap Z Window.t → S → S.
Variable alike : S → S → Prop.
Context `{!ManagerPlace S W pm set_pm windows set_windows alike}.
Hypothesis Hsm : layers_ok sm.

(** What an operation of a container does to the rest. *)
Definition during (s s' : S) : Prop :=
  same_screen (world s) (world s') ∧ heap_lives s s' ∧ dom (heap s') = dom (heap s) ∧
  pm s' = pm s ∧ windows s' = windows s.
#[global] Instance during_preorder : PreOrder during.
Proof.
  split; [intros s; by repeat split; try reflexivity|].
  intros ??? (?&?&?&?&?) (?&?&?&?&?). split; [by etransitivity|]. split; [by etransitivity|]. repeat split; congruence.
Qed.

Variable container : ContainerRef → Container.t S.
Variable members : ContainerRef → S → list Z.
Definition settled (s s' : S) : Prop := during s s' ∧ ∀ c, members c s' ≡ₚ members c s.
#[global] Instance settled_preorder : PreOrder settled.
Proof.
  split; [intros s; split; [reflexivity|done]|]. intros ??? [? Hm1] [? Hm2]. split; [by etransitivity|].
  intros c. by rewrite Hm2, Hm1.
Qed.

(** The containers are well-formed, and the panel they may think is being dragged. *)
Variable fine : option Z → S → Prop.
(** The container's input window takes button presses. *)
Variable presses : ContainerRef → Z → S → Prop.
(** The container wants the panel at this position. *)
Variable wants : ContainerRef → Z → Z → Z → S → Prop.
(** What else happens in the containers: their timers. *)
Variable Tick : Type.
Variable tick : Tick → M S unit.
Variable tick_due : Tick → S → Prop.
Variable wm_HandleLayoutManagerAreaChange : Z → Z → Z → Z → M S unit.
Variable wm_TakeFocus : M S unit.
Variable panel_bar_TakeFocus : M S bool.

Definition keeps {A} (m : M S A) : Prop := ∀ d s, fine d s → wp m (fun _ s' => fine d s' ∧ settled s s') s.
Definition keeps_with (c : ContainerRef) (p : Z) (m : M S unit) : Prop :=
  ∀ d s, fine d s → p ∈ members c s → wp m (fun _ s' => fine d s' ∧ settled s s') s.

Class ContainerLaws := {
  fine_world d s : fine d s → wm_ok (world s);
  fine_kept d s s' : fine d s → wm_ok (world s') → alike s s' →
    (∀ c q r, q ∈ members c s → heap s !! q = Some r → ∃ r', heap s' !! q = Some r' ∧ same_windows r r') → fine d s';
  fine_member d s c p : fine d s → p ∈ members c s → is_Some (heap s !! p);
  fine_nodup d s c : fine d s → NoDup (members c s);
  fine_weaken d s : fine None s → fine d s;
  fine_free p s : fine (Some p) s → (∀ c, p ∉ members c s) → fine None s;
  members_alike c s s' : alike s s' → members c s' = members c s;
  wants_same c p px py s s' : alike s s' → heap s' = heap s → world s' = world s → wants c p px py s → wants c p px py s';
  on_press c p button t : keeps_with c p (Container.HandlePanelButtonPress (container c) p button t);
  on_titlebar_enter c p t : keeps_with c p (Container.HandlePanelTitlebarPointerEnter (container c) p t);
  on_focus c p b : keeps_with c p (Container.HandlePanelFocusChange (container c) p b);
  on_state c p b : keeps_with c p (Container.HandleSetPanelStateMessage (container c) p b);
  on_focus_message c p : keeps_with c p (Container.HandleFocusPanelMessage (container c) p);
  on_resize c p : keeps_with c p (Container.HandlePanelResize (container c) p);
  on_urgency c p : keeps_with c p (Container.HandlePanelUrgencyChange (container c) p);
  on_input_press c xid px py rx ry button t d s : presses c xid s → fine d s →
    wp (Container.HandleInputWindowButtonPress (container c) xid px py rx ry button t)
       (fun _ s' => fine d s' ∧ settled s s') s;
  on_input_release c xid px py rx ry button t :
    keeps (Container.HandleInputWindowButtonRelease (container c) xid px py rx ry button t);
  on_input_enter c xid px py rx ry t : keeps (Container.HandleInputWindowPointerEnter (container c) xid px py rx ry t);
  on_input_leave c xid px py rx ry t : keeps (Container.HandleInputWindowPointerLeave (container c) xid px py rx ry t);
  on_screen c : keeps (Container.HandleScreenResize (container c));
  on_area px py w h : keeps (wm_HandleLayoutManagerAreaChange px py w h);
  on_wm_focus : keeps wm_TakeFocus;
  on_bar_focus : keeps panel_bar_TakeFocus;
  on_tick t d s : tick_due t s → fine d s → wp (tick t) (fun _ s' => fine d s' ∧ settled s s') s;
  on_should c p px py d s r : fine d s → heap s !! p = Some r → sane px py r →
    wp (Container.ShouldAddDraggedPanel (container c) p px py)
       (fun b s' => s' = s ∧ (b = true → wants c p px py s)) s;
  on_dragged c p px py s : fine (Some p) s → p ∈ members c s →
    wp (Container.HandleNotifyPanelDraggedMessage (container c) p px py)
       (fun b s' => (wants c p px py s → b = true) ∧ fine (Some p) s' ∧ settled s s' ∧
                    ∃ r r', heap s !! p = Some r ∧ heap s' !! p = Some r' ∧ kept r r') s;
  on_complete c p s : fine (Some p) s → p ∈ members c s → containers_by_panel_ (pm s) !! p = Some c →
    (∀ c', c' ≠ c → p ∉ members c' s) →
    wp (Container.HandleNotifyPanelDragCompleteMessage (container c) p) (fun _ s' => fine None s' ∧ settled s s') s;
  on_add c p source d s r : fine d s → heap s !! p = Some r → (∀ c, p ∉ members c s) → usable r →
    windows_apart p r (heap s) → (source ≠ PANEL_SOURCE_NEW → Panel.composited_windows_set_up_ r = true) →
    (source = PANEL_SOURCE_DRAGGED → d = Some p) →
    wp (Container.AddPanel (container c) p source)
       (fun _ s' => fine d s' ∧ during s s' ∧ members c s' ≡ₚ p :: members c s ∧
          (∀ c', c' ≠ c → members c' s' ≡ₚ members c' s) ∧
          (∃ r', heap s' !! p = Some r' ∧ Panel.composited_windows_set_up_ r' = true) ∧
          (source = PANEL_SOURCE_DRAGGED → ∀ px py, wants c p px py s → wants c p px py s')) s;
  on_remove c p d s : fine d s → p ∈ members c s →
    wp (Container.RemovePanel (container c) p)
       (fun _ s' => fine d s' ∧ during s s' ∧ members c s ≡ₚ p :: members c s' ∧
          (∀ c', c' ≠ c → members c' s' ≡ₚ members c' s) ∧
          ∃ r r', heap s !! p = Some r ∧ heap s' !! p = Some r' ∧ kept r r') s
}.
Context `{!ContainerLaws}.

(** ** The manager's part of the state *)

Definition others (s s' : S) : Prop := alike s s' ∧ windows s' = windows s.
#[local] Instance others_preorder : PreOrder others.
Proof. split; [by intros s; split|]. intros ??? [] []. split; [by etransitivity|congruence]. Qed.
#[local] Instance manager_part : PartPlace S W PanelManager.t pm set_pm others.
Proof.
  split; intros; try (apply mp_heap_heap || apply mp_world_heap || apply mp_pm_heap || apply mp_heap_world ||
    apply mp_world_world || apply mp_pm_world || apply mp_heap_pm || apply mp_world_pm || apply mp_pm_pm); try apply _.
  - split; [apply mp_alike_heap|apply mp_windows_heap].
  - split; [apply mp_alike_world|apply mp_windows_world].
  - split; [apply mp_alike_pm|apply mp_windows_pm].
Qed.
Abbreviation keep := (keep others).
Abbreviation live := (live others).

(** *** The invariant *)

(** A panel that works. *)
Definition good (r : Panel.t) (s : S) : Prop :=
  Panel.content_xid r ≠ 0 ∧ usable r ∧ resize_ok r ∧ NoDup (Panel.GetInputWindows r) ∧
  ∀ x, x ∈ Panel.GetInputWindows r → x ≠ 0 ∧ wm_used x (world s).
Definition registered (p : Z) (r : Panel.t) (m : PanelManager.t) : Prop :=
  panels_ m !! Panel.content_xid r = Some p ∧ panels_by_titlebar_xid_ m !! Panel.titlebar_xid r = Some p ∧
  ∀ x, x ∈ Panel.GetInputWindows r → panel_input_xids_ m !! x = Some p.

(** The panels, the windows and the maps between them; one panel may be new and
    not shown yet. *)
Record core (new : option Z) (s : S) : Prop := {
  i_windows x w : windows s !! x = Some w → Window.xid_ w = x ∧ x ≠ 0;
  i_panel p r : heap s !! p = Some r →
    good r s ∧ registered p r (pm s) ∧ (new ≠ Some p → Panel.composited_windows_set_up_ r = true);
  i_panels x p : panels_ (pm s) !! x = Some p → ∃ r, heap s !! p = Some r ∧ Panel.content_xid r = x;
  i_titlebars x p : panels_by_titlebar_xid_ (pm s) !! x = Some p →
    ∃ r, heap s !! p = Some r ∧ Panel.titlebar_xid r = x;
  i_inputs x p : panel_input_xids_ (pm s) !! x = Some p → ∃ r, heap s !! p = Some r ∧ x ∈ Panel.GetInputWindows r;
  i_apart p q r rq : heap s !! p = Some r → heap s !! q = Some rq → Panel.content_xid r ≠ Panel.titlebar_xid rq;
  i_free p r : heap s !! p = Some r →
    windows s !! Panel.content_xid r = None ∧ windows s !! Panel.titlebar_xid r = None
}.
(** The books are right. *)
Definition books (s : S) : Prop := ∀ p c, containers_by_panel_ (pm s) !! p = Some c ↔ p ∈ members c s.
Definition sound (new d : option Z) (s : S) : Prop := fine d s ∧ core new s ∧ books s.
(** A drag is under way while the timer runs. *)
Definition drag_ok (s : S) : Prop :=
  (∀ p, dragged_panel_ (pm s) = Some p → is_Some (heap s !! p)) ∧
  MotionEventCoalescer.synchronous_ (dragged_panel_event_coalescer_ (pm s)) = false ∧
  (MotionEventCoalescer.IsRunning (dragged_panel_event_coalescer_ (pm s)) = true → dragged_panel_ (pm s) ≠ None).
(** Every panel is in a container or being dragged. *)
Definition held (s : S) : Prop := ∀ p, is_Some (heap s !! p) →
  is_Some (containers_by_panel_ (pm s) !! p) ∨ dragged_panel_ (pm s) = Some p.
Definition inv (s : S) : Prop := sound None (dragged_panel_ (pm s)) s ∧ drag_ok s ∧ held s.

(** *** What keeps it *)

Definition same_books (m m' : PanelManager.t) : Prop :=
  panels_ m' = panels_ m ∧ panels_by_titlebar_xid_ m' = panels_by_titlebar_xid_ m ∧
  panel_input_xids_ m' = panel_input_xids_ m.
(** The panels live on, the maps stay. *)
Definition stirs (s s' : S) : Prop :=
  same_screen (world s) (world s') ∧ heap_lives s s' ∧ dom (heap s') = dom (heap s) ∧
  same_books (pm s) (pm s') ∧ windows s' = windows s.
#[local] Instance same_books_preorder : PreOrder same_books.
Proof. split; [by intros m|]. intros ??? (?&?&?) (?&?&?). split; [congruence|]. split; congruence. Qed.
#[local] Instance stirs_preorder : PreOrder stirs.
Proof.
  split; [intros s; split; [reflexivity|]; split; [reflexivity|]; by split|].
  intros ??? (?&?&?&?&?) (?&?&?&?&?). split; [by etransitivity|]. split; [by etransitivity|]. split; [congruence|].
  split; [by etransitivity|congruence].
Qed.
Lemma live_stirs s s' : pm s' = pm s → live s s' → stirs s s'.
Proof. intros Hpm (?&?&?&_&?). split; [done|]. split; [done|]. split; [done|]. split; [by rewrite Hpm|done]. Qed.
Lemma during_stirs s s' : during s s' → stirs s s'.
Proof. intros (?&?&?&Hpm&?). split; [done|]. split; [done|]. split; [done|]. split; [by rewrite Hpm|done]. Qed.
Lemma set_pm_stirs s m : same_books (pm s) m → stirs s (set_pm m s).
Proof.
  intros Hm. unfold stirs. rewrite mp_world_pm, mp_pm_pm, mp_windows_pm, mp_heap_pm. split; [reflexivity|].
  split; [|done]. intros q r Hq. exists r. rewrite mp_heap_pm. split; [done|reflexivity].
Qed.

(** A panel of now was a panel before. *)
Lemma lived s s' q r' : heap_lives s s' → dom (heap s') = dom (heap s) → heap s' !! q = Some r' →
  ∃ r, heap s !! q = Some r ∧ same_windows r r'.
Proof.
  intros Hl Hd Hq. assert (q ∈ dom (heap s)) as [r Hr]%elem_of_dom by (rewrite <-Hd; apply elem_of_dom; by eexists).
  destruct (Hl q r Hr) as (r2 & Hr2 & Hsame). exists r. split; [done|congruence].
Qed.
Lemma same_windows_xids r r' : same_windows r r' →
  Panel.content_xid r' = Panel.content_xid r ∧ Panel.titlebar_xid r' = Panel.titlebar_xid r ∧
  Panel.GetInputWindows r' = Panel.GetInputWindows r.
Proof. intros ((Hc & _) & Ht & Hi & _). done. Qed.
Lemma core_stirs new s s' : core new s → stirs s s' → core new s'.
Proof.
  intros [E1 E2 E3 E4 E5 E6 E7] (Hscr & Hl & Hd & (B1 & B2 & B3) & Hw).
  assert (∀ (x p : Z) (P : Panel.t → Prop), (∀ r r', same_windows r r' → P r → P r') →
    (∃ r, heap s !! p = Some r ∧ P r) → ∃ r, heap s' !! p = Some r ∧ P r) as Hfwd.
  { intros _ p P HP (r & Hr & Hx). destruct (Hl p r Hr) as (r' & Hr' & Hsame). exists r'. eauto. }
  split; rewrite ?B1, ?B2, ?B3, ?Hw.
  - exact E1.
  - intros p r' Hr'. destruct (lived s s' p r' Hl Hd Hr') as (r & Hr & Hsame).
    destruct (E2 p r Hr) as ((Hc0 & Hu & Hro & Hnd & Hin) & (R1 & R2 & R3) & Hup).
    destruct (same_windows_xids _ _ Hsame) as (Xc & Xt & Xi).
    split; [|split].
    + split; [by rewrite Xc|]. split; [by eapply usable_kept|]. split; [by apply Hsame|]. rewrite Xi. split; [done|]. intros x Hx.
      destruct (Hin x Hx). split; [done|by apply Hscr].
    + unfold registered. by rewrite B1, B2, B3, Xc, Xt, Xi.
    + intros Hn. apply Hsame. auto.
  - intros x p Hp. apply (Hfwd x); [|by apply E3]. intros r r' (Hx&_)%same_windows_xids <-. done.
  - intros x p Hp. apply (Hfwd x); [|by apply E4]. intros r r' (_&Hx&_)%same_windows_xids <-. done.
  - intros x p Hp. apply (Hfwd x); [|by apply E5]. by intros r r' (_&_&->)%same_windows_xids.
  - intros p q r' rq' Hr' Hrq'. destruct (lived s s' p r' Hl Hd Hr') as (r & Hr & (->&_)%same_windows_xids).
    destruct (lived s s' q rq' Hl Hd Hrq') as (rq & Hrq & (_&->&_)%same_windows_xids). eauto.
  - intros p r' Hr'. destruct (lived s s' p r' Hl Hd Hr') as (r & Hr & (->&->&_)%same_windows_xids). eauto.
Qed.

(** Containers look at neither the maps nor the windows. *)
Lemma fine_stirs d s s' : fine d s → wm_ok (world s') → alike s s' → heap_lives s s' → fine d s'.
Proof. intros Hf Hok Ha Hl. apply (fine_kept d s); [done..|]. intros c q r _ Hq. by apply Hl. Qed.
Lemma fine_set_pm d s m : fine d s → fine d (set_pm m s).
Proof.
  intros Hf. apply (fine_stirs d s); [done|rewrite mp_world_pm; by eapply fine_world|apply mp_alike_pm|].
  apply heap_kept_lives, heap_kept_same, mp_heap_pm.
Qed.
Lemma books_alike s s' : alike s s' → containers_by_panel_ (pm s') = containers_by_panel_ (pm s) → books s → books s'.
Proof. intros Ha Hc Hb p c. rewrite Hc, (members_alike c s s' Ha). apply Hb. Qed.
Lemma sound_live new d s s' :
  sound new d s → wm_ok (world s') → pm s' = pm s → live s s' → sound new d s'.
Proof.
  intros (Hf & Hc & Hb) Hok Hpm Hl. pose proof Hl as (_ & Hlives & _ & Ha & _). split; [by apply (fine_stirs d s)|].
  split; [by apply (core_stirs new s), live_stirs|]. apply (books_alike s); [done|by rewrite Hpm|done].
Qed.
Lemma sound_settled new d d' s s' : sound new d s → fine d' s' → settled s s' → sound new d' s'.
Proof.
  intros (_ & Hc & Hb) Hf [Hd Hm]. split; [done|]. split; [by apply (core_stirs new s), during_stirs|].
  intros p c. destruct Hd as (_&_&_&->&_). by rewrite Hm.
Qed.
Lemma sound_weaken new s d : sound new None s → sound new d s.
Proof. intros [Hf ?]. split; [by apply fine_weaken|done]. Qed.

(** Changing fields of the manager that are not the maps. *)
Lemma sound_set_pm new d s m :
  same_books (pm s) m → containers_by_panel_ m = containers_by_panel_ (pm s) → sound new d s → sound new d (set_pm m s).
Proof.
  intros Hm Hcb (Hf & Hc & Hb). split; [by apply fine_set_pm|].
  split; [by apply (core_stirs new s), set_pm_stirs|].
  apply (books_alike s); [apply mp_alike_pm|by rewrite mp_pm_pm|done].
Qed.
Lemma drag_ok_lives s s' : drag_ok s → pm s' = pm s → heap_lives s s' → drag_ok s'.
Proof.
  intros (Hd & Hsync & Hrun) Hpm Hl. split; [|by rewrite Hpm]. rewrite Hpm. intros p Hp.
  destruct (Hd p Hp) as [r Hr]. destruct (Hl p r Hr) as (r' & Hr' & _). by eexists.
Qed.
Lemma held_dom s s' : held s → pm s' = pm s → dom (heap s') = dom (heap s) → held s'.
Proof. intros Hh Hpm Hd p Hp. rewrite Hpm. apply Hh. by rewrite <-elem_of_dom, <-Hd, elem_of_dom. Qed.

(** Using a panel. *)
Definition stands (new d : option Z) (m : PanelManager.t) (s : S) : Prop := sound new d s ∧ pm s = m.
#[local] Instance stands_holds new d m : Holds pm others (stands new d m).
Proof.
  split; [intros s ((Hf&_)&_); by eapply fine_world|]. intros s s' [Hs Hm] Hok Hpm Hl.
  split; [by apply (sound_live new d s)|congruence].
Qed.
Lemma inv_live s s' : inv s → wm_ok (world s') → pm s' = pm s → live s s' → inv s'.
Proof.
  intros (Hs & Hd & Hh) Hok Hpm Hl. pose proof Hl as (_ & Hlives & Hdom & _).
  split; [rewrite Hpm; by apply (sound_live None _ s)|]. split; [by apply (drag_ok_lives s)|by apply (held_dom s)].
Qed.
Lemma inv_settled s s' : inv s → fine (dragged_panel_ (pm s)) s' → settled s s' → inv s'.
Proof.
  intros (Hs & Hd & Hh) Hf Hset. pose proof Hset as [(_ & Hl & Hdom & Hpm & _) _].
  split; [rewrite Hpm; by eapply sound_settled|]. split; [by apply (drag_ok_lives s)|by apply (held_dom s)].
Qed.
Definition at_rest (m : PanelManager.t) (s : S) : Prop := inv s ∧ pm s = m.
#[local] Instance at_rest_holds m : Holds pm others (at_rest m).
Proof.
  split; [intros s (((Hf&_)&_)&_); by eapply fine_world|]. intros s s' [Hs Hm] Hok Hpm Hl.
  split; [by apply (inv_live s)|congruence].
Qed.
Lemma inv_world s : inv s → wm_ok (world s).
Proof. intros ((Hf & _) & _). by eapply fine_world. Qed.

(** Calling a container. *)
Lemma container_keeps {A} (m : M S A) : keeps m → framed inv during m.
Proof.
  intros Hm s Hs. eapply wp_mono; [apply Hm; apply Hs|]. intros a s' [Hf Hset].
  split; [by apply (inv_settled s)|apply Hset].
Qed.
Lemma in_container p c s : inv s → GetContainerForPanel p (pm s) = Some c → p ∈ members c s.
Proof. intros ((_ & _ & Hb) & _) Hc. by apply Hb. Qed.
Lemma to_container_safe p (f : Container.t S → M S unit) :
  (∀ c, keeps_with c p (f (container c))) → framed inv during (to_container pm container p f).
Proof.
  intros Hf s Hs. unfold to_container. apply wp_gets_bind.
  destruct (GetContainerForPanel p (pm s)) as [c|] eqn:Ec; [|by apply wp_ret].
  eapply wp_mono; [apply Hf; [apply Hs|by apply in_container]|]. intros _ s' [Hfine Hset].
  split; [by apply (inv_settled s)|apply Hset].
Qed.
Lemma HandlePanelResize_safe p : framed inv during (HandlePanelResize pm container p).
Proof. apply to_container_safe. intros c. apply on_resize. Qed.

(** Calling one of the panel's own handlers, which may call back. *)
Definition inv_with (p : Z) (s : S) : Prop := inv s ∧ is_Some (heap s !! p).
Lemma panel_inv_ok p s : inv_with p s → pan_ok world s ∧ resize_ok (panel_at p s).
Proof.
  intros [Hs [r Hr]]. split; [by apply inv_world|]. unfold panel_at. rewrite Hr. cbn.
  destruct Hs as ((_ & Hc & _) & _). destruct (i_panel None s Hc p r Hr) as ((_ & _ & Hro & _) & _). done.
Qed.
Lemma elsewhere_live p P s s' : (∀ r r', P r r' → same_windows r r') → is_Some (heap s !! p) →
  pan_step (panel_at p) world (elsewhere pm others p) P s s' → pm s' = pm s ∧ live s s'.
Proof.
  intros HP [r Hr] ((Hpm & Hdel & His & Ho) & Hscr & HrP). destruct (His ltac:(by eexists)) as [r' Hr'].
  unfold panel_at in HrP. rewrite Hr, Hr' in HrP. cbn in HrP. split; [done|].
  apply (touched_live pm others p same_windows); [done|]. split; [done|]. split; [done|]. split; [|split; [done|]].
  - intros q Hq. apply (f_equal (.!! q)) in Hdel. by rewrite !lookup_delete_ne in Hdel.
  - exists r, r'. auto.
Qed.
Lemma panel_inv_moves p s s' : inv_with p s → pan_ok world s' →
  pan_step (panel_at p) world (elsewhere pm others p) same_windows s s' → inv_with p s' ∧ during s s'.
Proof.
  intros [Hs Hp] Hok Hstep. destruct (elsewhere_live p same_windows s s') as [Hpm Hl]; [done..|].
  split; [split; [by apply (inv_live s)|apply Hstep, Hp]|]. destruct Hl as (?&?&?&_&?). by repeat split; try done; apply Hstep.
Qed.
Lemma HandlePanelResize_with p q : framed (inv_with p) during (HandlePanelResize pm container q).
Proof.
  intros s [Hs Hp]. eapply wp_mono; [by apply HandlePanelResize_safe|]. intros _ s' [Hs' Hd]. split; [|done].
  split; [done|]. destruct Hp as [r Hr]. destruct Hd as (_ & Hl & _). destruct (Hl p r Hr) as (r' & ? & _). by eexists.
Qed.
Lemma call_with {A} (op : (S → Panel.t) → (Panel.t → S → S) → (S → W) → (W → S → S) → M S A) p s :
  inv s → is_Some (heap s !! p) →
  wp (op (panel_at p) (set_at p) world set_world) (fun _ s' => inv_with p s' ∧ during s s') s →
  wp (call op p) (fun _ s' => inv s' ∧ during s s') s.
Proof.
  intros Hs [r Hr] Hop. unfold call.
  eapply wp_cut; [by eapply (look_wp p r (fun _ s' => s' = s))|]. intros _ ? ->.
  eapply wp_mono; [exact Hop|]. by intros _ s' [[??] ?].
Qed.

(** ** Moving panels between containers *)

(** Only the books of panel [p] may change. *)
Definition rebooked (p : Z) (m m' : PanelManager.t) : Prop :=
  ∃ b, m' = m <| containers_by_panel_ := b |> ∧ ∀ q, q ≠ p → b !! q = containers_by_panel_ m !! q.
#[local] Instance rebooked_preorder p : PreOrder (rebooked p).
Proof.
  split; [intros []; by eexists|]. intros [] ?? (b1 & -> & Hb1) (b2 & -> & Hb2). exists b2. split; [done|].
  intros q Hq. cbn in *. by rewrite Hb2, Hb1.
Qed.
Definition turns (p : Z) (s s' : S) : Prop :=
  same_screen (world s) (world s') ∧ heap_lives s s' ∧ dom (heap s') = dom (heap s) ∧
  rebooked p (pm s) (pm s') ∧ windows s' = windows s.
#[local] Instance turns_preorder p : PreOrder (turns p).
Proof.
  split; [intros s; split; [reflexivity|]; split; [reflexivity|]; split; [done|]; by split; [reflexivity|]|].
  intros ??? (?&?&?&?&?) (?&?&?&?&?). split; [by etransitivity|]. split; [by etransitivity|]. split; [congruence|].
  split; [by etransitivity|congruence].
Qed.
Lemma during_turns p s s' : during s s' → turns p s s'.
Proof. intros (?&?&?&Hpm&?). split; [done|]. split; [done|]. split; [done|]. split; [by rewrite Hpm|done]. Qed.
Lemma live_turns p s s' : pm s' = pm s → live s s' → turns p s s'.
Proof. intros Hpm (?&?&?&_&?). apply during_turns. split; [done|]. split; [done|]. by split. Qed.
Lemma turns_stirs p s s' : turns p s s' → stirs s s'.
Proof.
  intros (?&?&?&(b & Hm & _)&?). split; [done|]. split; [done|]. split; [done|]. split; [|done].
  rewrite Hm. by destruct (pm s).
Qed.
Lemma rebook_turns p m s : rebooked p (pm s) m → turns p s (set_pm m s).
Proof.
  intros Hm. unfold turns. rewrite mp_world_pm, mp_heap_pm, mp_pm_pm, mp_windows_pm. split; [reflexivity|].
  split; [|done]. apply heap_kept_lives, heap_kept_same, mp_heap_pm.
Qed.

(** A step under [stands], with what it does to one panel. *)
Lemma stand_step {A} (m : M S A) new d s :
  sound new d s → framed (stands new d (pm s)) keep m →
  wp m (fun _ s' => sound new d s' ∧ pm s' = pm s ∧ keep s s') s.
Proof. intros Hs Hm. eapply wp_mono; [by apply Hm|]. by intros a s' [[??]?]. Qed.
Lemma keep_turns p s s' : pm s' = pm s → keep s s' → turns p s s'.
Proof. intros Hpm Hk. by apply live_turns, keep_live. Qed.
Definition same_panel_size (p : Z) (s s' : S) : Prop := ∀ r, heap s !! p = Some r → ∃ r', heap s' !! p = Some r' ∧ kept r r'.
Lemma stands_at_hand p new d s : is_Some (heap s !! p) →
  at_hand (fun s' => stands new d (pm s) s' ∧ is_Some (heap s' !! p)) p.
Proof. by intros Hp s' [_ ?]. Qed.
#[local] Instance stands_with_holds p new d m : Holds pm others (fun s => stands new d m s ∧ is_Some (heap s !! p)).
Proof.
  split; [intros s [((Hf&_)&_) _]; by eapply fine_world|].
  intros s s' [[Hs Hm] [r Hr]] Hok Hpm Hl. split; [split; [by apply (sound_live new d s)|congruence]|].
  destruct Hl as (_ & Hlives & _). destruct (Hlives p r Hr) as (r' & ? & _). by eexists.
Qed.
Abbreviation stand p new d m := (framed (fun s => stands new d m s ∧ is_Some (heap s !! p)) keep).
Lemma stand_at_hand p new d m : at_hand (fun s => stands new d m s ∧ is_Some (heap s !! p)) p.
Proof. by intros s [_ ?]. Qed.
Lemma stand_then {A} (m : M S A) p new d s :
  sound new d s → is_Some (heap s !! p) → stand p new d (pm s) m →
  wp m (fun _ s' => sound new d s' ∧ pm s' = pm s ∧ keep s s') s.
Proof. intros Hs Hp Hm. eapply wp_mono; [by apply Hm|]. by intros a s' [[[??]?]?]. Qed.

(** What the manager does to a panel it takes out of a container. *)
Lemma stand_detach p new d m :
  stand p new d m (RemoveButtonGrab p false;; SetResizable p false;;
                   SetShadowOpacity p (Double.of_Z 1) kDetachPanelAnimMs;; SetExpandedState p true;; mret ()).
Proof.
  pose proof (stand_at_hand p new d m) as Hp.
  apply framed_bind; [apply _|eapply heap_RemoveButtonGrab; try apply _; done|intros _].
  apply framed_bind; [apply _|eapply heap_SetResizable; try apply _; done|intros _].
  apply framed_bind; [apply _|eapply heap_SetShadowOpacity; try apply _; done|intros _].
  apply framed_bind; [apply _|eapply heap_SetExpandedState; try apply _; done|intros _]. apply framed_ret, _.
Qed.

Lemma kept_at p r r' r2 s s' :
  heap s !! p = Some r' → kept r r' → heap_kept s s' → heap s' !! p = Some r2 → kept r r2.
Proof. intros Hr' Hk Hh Hr2. destruct (Hh p r' Hr') as (r3 & ? & ?). simplify_eq. by etransitivity. Qed.

Lemma DCHECK_true {B} b (k : unit → M S B) Q s : b = true → wp (k ()) Q s → wp (DCHECK b ≫= k) Q s.
Proof. intros -> Hk. eapply wp_cut; [instantiate (1 := fun _ s' => s' = s); unfold DCHECK; by destruct dchecks|]. by intros [] ? ->. Qed.

Lemma RemovePanelFromContainer_wp p c d s :
  sound None d s → containers_by_panel_ (pm s) !! p = Some c →
  wp (RemovePanelFromContainer pm set_pm container p c)
     (fun _ s' => sound None d s' ∧ turns p s s' ∧ containers_by_panel_ (pm s') !! p = None ∧
        ∃ r r', heap s !! p = Some r ∧ heap s' !! p = Some r' ∧ kept r r') s.
Proof.
  intros Hs Hc. pose proof Hs as (Hf & Hcore & Hb). unfold RemovePanelFromContainer. apply wp_gets_bind.
  unfold GetContainerForPanel. rewrite Hc.
  apply DCHECK_true; [by apply bool_decide_eq_true|]. apply wp_CHECK_bind; [by apply bool_decide_eq_true; eexists|].
  apply wp_modify_bind. set (s1 := set_pm _ s).
  assert (pm s1 = (pm s) <| containers_by_panel_ := delete p (containers_by_panel_ (pm s)) |>) as E1 by apply mp_pm_pm.
  assert (heap s1 = heap s) as Eh1 by apply mp_heap_pm.
  assert (∀ c, members c s1 = members c s) as Em by (intros; apply members_alike, mp_alike_pm).
  assert (p ∈ members c s) as Hin by by apply Hb.
  assert (rebooked p (pm s) (pm s1)) as Hrb.
  { eexists. split; [exact E1|]. intros q Hq. by rewrite lookup_delete_ne. }
  assert (turns p s s1) as Ht1 by (unfold s1; apply rebook_turns; by rewrite <-E1).
  eapply wp_cut; [apply (on_remove c p d s1); [by apply fine_set_pm|by rewrite Em]|].
  intros _ s2 (Hf2 & Hd2 & Hm2 & Hothers & r & r' & Hr & Hr' & Hk).
  assert (turns p s s2) as Ht2 by (etransitivity; [exact Ht1|by apply during_turns]).
  assert (pm s2 = pm s1) as Epm2 by apply Hd2.
  assert (NoDup (members c s1)) as Hnd by by apply (fine_nodup d), fine_set_pm.
  assert (sound None d s2) as Hs2.
  { split; [done|]. split; [by apply (core_stirs None s), (turns_stirs p)|]. intros q c'. rewrite Epm2, E1.
    transitivity (delete p (containers_by_panel_ (pm s)) !! q = Some c'); [by destruct (pm s)|].
    rewrite Hm2, NoDup_cons in Hnd. destruct Hnd as [Hnp _]. rewrite lookup_delete_Some, (Hb q c' : _ ↔ _), <-(Em c').
    destruct (decide (c' = c)) as [->|Hne].
    - rewrite Hm2, elem_of_cons. split; [by intros [? [->|?]]|]. intros Hq. split; [by intros ->|by right].
    - rewrite Hothers by done. split; [by intros [_ ?]|]. intros Hq. split; [|done]. intros <-.
      rewrite Em in Hq.
      apply Hb in Hq. congruence. }
  eapply wp_mono; [apply (stand_then _ p None d s2 Hs2); [by eexists|apply stand_detach]|].
  intros _ s3 (Hs3 & Epm3 & Hk3). split; [done|].
  split; [etransitivity; [exact Ht2|by apply keep_turns]|].
  split; [rewrite Epm3, Epm2, E1; destruct (pm s); apply lookup_delete_eq|].
  destruct Hk3 as (_ & Hkept & _). destruct (Hkept p r' Hr') as (r3 & Hr3 & Hk3). exists r, r3.
  split; [by rewrite <-Eh1|]. split; [done|by etransitivity].
Qed.

Lemma core_apart new s p r : core new s → heap s !! p = Some r → windows_apart p r (heap s).
Proof.
  intros Hc Hr q rq Hne Hrq. split; [|split; by eapply i_apart]. intros Heq.
  destruct (i_panel _ _ Hc p r Hr) as (_ & (Hp & _) & _). destruct (i_panel _ _ Hc q rq Hrq) as (_ & (Hq & _) & _).
  rewrite Heq in Hp. congruence.
Qed.
Lemma core_placed new s : core new s →
  (∀ p r, new = Some p → heap s !! p = Some r → Panel.composited_windows_set_up_ r = true) → core None s.
Proof.
  intros [E1 E2 E3 E4 E5 E6 E7] Hnew. split; try done. intros p r Hr. destruct (E2 p r Hr) as (?&?&Hup).
  split; [done|]. split; [done|]. intros _. destruct (decide (new = Some p)); eauto.
Qed.

Lemma AddPanelToContainer_wp p c source new d s r :
  sound new d s → (new = None ∨ new = Some p ∧ source = PANEL_SOURCE_NEW) → heap s !! p = Some r →
  containers_by_panel_ (pm s) !! p = None → (source = PANEL_SOURCE_DRAGGED → d = Some p) →
  wp (AddPanelToContainer pm set_pm container p c source)
     (fun _ s' => sound None d s' ∧ turns p s s' ∧ containers_by_panel_ (pm s') !! p = Some c ∧
        (source = PANEL_SOURCE_DRAGGED → ∀ px py, wants c p px py s → wants c p px py s')) s.
Proof.
  intros (Hf & Hcore & Hb) Hnew Hr Hnone Hdrag. unfold AddPanelToContainer. apply wp_gets_bind.
  unfold GetContainerForPanel. rewrite Hnone. apply DCHECK_true; [done|]. apply wp_CHECK_bind; [done|].
  apply wp_modify_bind. set (s1 := set_pm _ s).
  assert (pm s1 = (pm s) <| containers_by_panel_ := <[p := c]> (containers_by_panel_ (pm s)) |>) as E1 by apply mp_pm_pm.
  assert (heap s1 = heap s) as Eh1 by apply mp_heap_pm.
  assert (∀ c, members c s1 = members c s) as Em by (intros; apply members_alike, mp_alike_pm).
  assert (∀ c, p ∉ members c s1) as Hout by (intros c'; rewrite Em; intros Hin%Hb; congruence).
  assert (turns p s s1) as Ht1.
  { unfold s1. apply rebook_turns. eexists. split; [done|]. intros q Hq. by rewrite lookup_insert_ne. }
  destruct (i_panel _ _ Hcore p r Hr) as ((_ & Hu & _) & _ & Hup).
  eapply wp_mono; [apply (on_add c p source d s1 r)|].
  - by apply fine_set_pm.
  - by rewrite Eh1.
  - done.
  - done.
  - rewrite Eh1. by eapply core_apart.
  - intros Hsrc. apply Hup. destruct Hnew as [->|[-> ?]]; done.
  - done.
  - intros _ s2 (Hf2 & Hd2 & Hm2 & Hothers & (r2 & Hr2 & Hup2) & Hwants).
    assert (turns p s s2) as Ht2 by (etransitivity; [exact Ht1|by apply during_turns]).
    assert (pm s2 = pm s1) as Epm2 by apply Hd2. split; [|split; [done|split]].
    + split; [done|]. split.
      * apply (core_placed new); [by apply (core_stirs new s), (turns_stirs p)|].
        intros q rq -> Hrq. destruct Hnew as [|[[= ->] _]]; [done|congruence].
      * intros q c'. rewrite Epm2, E1.
        transitivity (<[p := c]> (containers_by_panel_ (pm s)) !! q = Some c'); [by destruct (pm s)|].
        rewrite lookup_insert_Some, (Hb q c' : _ ↔ _), <-(Em c'). destruct (decide (c' = c)) as [->|Hne].
        -- rewrite Hm2, elem_of_cons. destruct (decide (q = p)); naive_solver.
        -- rewrite Hothers by done. specialize (Hout c'). naive_solver.
    + rewrite Epm2, E1. destruct (pm s). apply lookup_insert_eq.
    + intros Hsrc px py Hw. apply Hwants; [done|]. by apply (wants_same c p px py s); [apply mp_alike_pm| |apply mp_world_pm|].
Qed.

(** *** Dragging *)

Lemma sane_kept px py r r' : kept r r' → sane px py r → Panel.titlebar_height r' = Panel.titlebar_height r → sane px py r'.
Proof.
  intros ((_ & Hw & Hh) & _) Hsane Ht. unfold sane, Panel.content_width, Panel.content_height in *.
  by rewrite Hw, Hh, Ht.
Qed.
Lemma kept_sane px py r r' : kept r r' → sane px py r → sane px py r'.
Proof. intros Hk Hs. apply (sane_kept px py r); [done..|]. apply Hk. Qed.

(** Some container gets the panel, or nothing happens. *)
Lemma offer_wp p px py cs s r :
  sound None (Some p) s → heap s !! p = Some r → containers_by_panel_ (pm s) !! p = None → sane px py r →
  wp (offer pm set_pm container p px py cs) (fun _ s' => sound None (Some p) s' ∧ turns p s s') s.
Proof.
  intros Hs Hr Hnone Hsane. induction cs as [|c cs IH]; cbn [offer]; [apply wp_ret; by split|].
  eapply wp_cut; [by apply (on_should c p px py (Some p) s r); [apply Hs| |]|]. intros wanted ? [-> Hw].
  destruct wanted; [|exact IH]. specialize (Hw eq_refl).
  eapply wp_cut; [by apply (AddPanelToContainer_wp p c PANEL_SOURCE_DRAGGED None (Some p) s r); [|left| | |]|].
  intros _ s1 (Hs1 & Ht1 & Hc1 & Hw1).
  eapply wp_cut; [apply (on_dragged c p px py s1); [apply Hs1|by apply Hs1]|].
  intros handled s2 (Hh & Hf2 & Hset2 & _). specialize (Hh (Hw1 eq_refl px py Hw)). subst handled.
  apply wp_CHECK_bind; [done|]. apply wp_ret. split; [by eapply sound_settled|].
  etransitivity; [exact Ht1|]. by apply during_turns, Hset2.
Qed.

Lemma call_titled p width new d s : sound new d s → is_Some (heap s !! p) → 0 < width →
  wp (SetTitlebarWidth p width)
     (fun _ s' => sound new d s' ∧ pm s' = pm s ∧ live s s' ∧
        ∃ r r', heap s !! p = Some r ∧ heap s' !! p = Some r' ∧ titled r r') s.
Proof.
  intros Hs [r Hr] Hw. assert (wm_ok (world s)) as Hok by (destruct Hs as (Hf&_); by eapply fine_world).
  eapply wp_mono; [eapply (call_wp pm others _ p r titled); [exact Hr|]|].
  { by apply (SetTitlebarWidth_wp _ _ _ _ (elsewhere pm others p)). }
  intros _ s' [Hok' Ht]. assert (live s s') as Hl by (eapply touched_live; [|exact Ht]; by intros ?? [? _]).
  split; [apply (sound_live new d s); [done|done|apply Ht|done]|]. split; [apply Ht|]. split; [done|apply Ht].
Qed.

(** The panel that is dragged is moved: handled by its container, given to another
    one, or moved by the manager. *)
Lemma HandlePeriodicPanelDragMotion_wp p r s :
  sound None (Some p) s → dragged_panel_ (pm s) = Some p → heap s !! p = Some r →
  sane (MotionEventCoalescer.x_ (dragged_panel_event_coalescer_ (pm s)))
       (MotionEventCoalescer.y_ (dragged_panel_event_coalescer_ (pm s))) r →
  wp (HandlePeriodicPanelDragMotion sm pm set_pm container) (fun _ s' => sound None (Some p) s' ∧ turns p s s') s.
Proof.
  intros Hs Hd Hr Hsane. unfold HandlePeriodicPanelDragMotion. apply wp_gets_bind. cbn [id]. rewrite Hd.
  apply DCHECK_true; [done|]. cbv zeta. set (px := MotionEventCoalescer.x_ _) in *. set (py := MotionEventCoalescer.y_ _) in *.
  eapply (wp_cut _ _ (fun state s1 => sound None (Some p) s1 ∧ turns p s s1 ∧
     (state = (true, false) ∨ state.1 = false ∧ containers_by_panel_ (pm s1) !! p = None ∧
        ∃ r1, heap s1 !! p = Some r1 ∧ sane px py r1))).
  { unfold GetContainerForPanel. destruct (containers_by_panel_ (pm s) !! p) as [c|] eqn:Hc; cycle 1.
    { apply wp_ret. split; [done|]. split; [done|]. right. split; [done|]. split; [done|]. by exists r. }
    eapply wp_cut; [apply (on_dragged c p px py s); [apply Hs|by apply Hs]|].
    intros handled s1 (_ & Hf1 & Hset1 & r0 & r1 & Hr0 & Hr1 & Hk1). assert (r0 = r) as -> by congruence.
    assert (sound None (Some p) s1) as Hs1 by by eapply sound_settled.
    assert (turns p s s1) as Ht1 by apply during_turns, Hset1.
    destruct handled; [apply wp_ret; auto|].
    assert (containers_by_panel_ (pm s1) !! p = Some c) as Hc1 by (destruct Hset1 as [(_&_&_&->&_) _]; done).
    eapply wp_cut; [by apply (RemovePanelFromContainer_wp p c (Some p) s1)|].
    intros _ s2 (Hs2 & Ht2 & Hn2 & r1' & r2 & Hr1' & Hr2 & Hk2). assert (r1' = r1) as -> by congruence.
    apply wp_ret. split; [done|]. split; [by etransitivity|]. right. split; [done|]. split; [done|].
    exists r2. split; [done|]. apply (kept_sane px py r1); [done|]. by apply (kept_sane px py r). }
  intros [handled detached] s1 (Hs1 & Ht1 & [[= -> ->]|(Hh & Hn1 & r1 & Hr1 & Hsane1)]); [by apply wp_ret|].
  cbn in Hh. subst handled.
  eapply (wp_cut _ _ (fun _ s2 => sound None (Some p) s2 ∧ turns p s s2 ∧ containers_by_panel_ (pm s2) !! p = None ∧
            ∃ r2, heap s2 !! p = Some r2 ∧ sane px py r2)).
  { destruct detached; [|apply wp_ret; eauto 10].
    eapply wp_cut; [by eapply (look_wp p r1 (fun r' s' => r' = r1 ∧ s' = s1))|]. intros ? ? [-> ->].
    assert (0 < Panel.content_width r1) as Hw1.
    { destruct Hs1 as (_ & Hc & _). destruct (i_panel _ _ Hc p r1 Hr1) as ((_ & (_ & ? & _) & _) & _). done. }
    eapply wp_cut; [apply (call_titled p _ None (Some p) s1 Hs1); [by eexists|done]|].
    intros _ s2 (Hs2 & Epm2 & Hl2 & r1' & r2 & Hr1' & Hr2 & _ & Hsz & Hth). assert (r1' = r1) as -> by congruence.
    eapply wp_mono; [apply (stand_then _ p None (Some p) s2 Hs2); [by eexists|]|].
    { eapply heap_StackAtTopOfLayer; try apply _; [done|apply stand_at_hand|done]. }
    intros _ s3 (Hs3 & Epm3 & Hk3). split; [done|].
    split; [etransitivity; [exact Ht1|]; etransitivity; [by apply live_turns|by apply keep_turns]|].
    split; [by rewrite Epm3, Epm2|]. destruct Hk3 as (_ & Hkept & _). destruct (Hkept p r2 Hr2) as (r3 & Hr3 & Hk3).
    exists r3. split; [done|]. apply (kept_sane px py r2); [done|]. unfold sane, Panel.content_width, Panel.content_height in *.
    destruct Hsz as (_ & -> & ->). by rewrite Hth. }
  intros _ s2 (Hs2 & Ht2 & Hn2 & r2 & Hr2 & Hsane2). apply wp_gets_bind.
  eapply wp_cut; [by apply (offer_wp p px py _ s2 r2)|]. intros reattached s3 [Hs3 Ht3].
  assert (turns p s s3) as Ht by by etransitivity.
  destruct reattached; [by apply wp_ret|].
  assert (is_Some (heap s3 !! p)) as Hp3.
  { destruct Ht as (_ & Hl & _). destruct (Hl p r Hr) as (r3 & ? & _). by eexists. }
  eapply wp_mono; [apply (stand_then _ p None (Some p) s3 Hs3 Hp3)|].
  { eapply heap_Move; try apply _. apply stand_at_hand. }
  intros _ s4 (Hs4 & Epm4 & Hk4). split; [done|]. etransitivity; [exact Ht|by apply keep_turns].
Qed.

(** The books of panel [p] and the coalescer may change. *)
Definition spins (p : Z) (s s' : S) : Prop :=
  stirs s s' ∧ (∀ q, q ≠ p → containers_by_panel_ (pm s') !! q = containers_by_panel_ (pm s) !! q) ∧
  dragged_panel_ (pm s') = dragged_panel_ (pm s) ∧
  MotionEventCoalescer.synchronous_ (coalescer pm s') = MotionEventCoalescer.synchronous_ (coalescer pm s).
#[local] Instance spins_preorder p : PreOrder (spins p).
Proof.
  split; [intros s; split; [reflexivity|done]|]. intros ??? (?&H1s&?&?) (?&H2s&?&?).
  split; [by etransitivity|]. split; [|split; congruence]. intros q Hq. by rewrite H2s, H1s.
Qed.
Lemma turns_spins p s s' : turns p s s' →
  spins p s s' ∧ coalescer pm s' = coalescer pm s.
Proof.
  intros Ht. pose proof Ht as (_&_&_&(b & Hm & Hb)&_). unfold spins, coalescer. rewrite Hm. destruct (pm s).
  split; [|done]. split; [by eapply turns_stirs|done].
Qed.
Lemma coalescer_moves new d p c s :
  sound new d s → MotionEventCoalescer.synchronous_ c = MotionEventCoalescer.synchronous_ (coalescer pm s) →
  let s' := set_coalescer pm set_pm c s in
  sound new d s' ∧ spins p s s' ∧ coalescer pm s' = c ∧ heap s' = heap s ∧
  containers_by_panel_ (pm s') = containers_by_panel_ (pm s).
Proof.
  intros Hs Hc s'. unfold s', set_coalescer, spins, coalescer in *. rewrite !mp_pm_pm, mp_heap_pm. destruct (pm s) eqn:E.
  split; [apply sound_set_pm; [by rewrite E|by rewrite E|done]|].
  split; [|done]. split; [apply set_pm_stirs; by rewrite E|done].
Qed.
Lemma world_step {A} (m : M W A) new d s : sound new d s → quiet m →
  wp (on_world m) (fun _ s' => sound new d s' ∧ pm s' = pm s ∧ keep s s') s.
Proof. intros Hs Hm. apply stand_step; [done|]. eapply heap_on_world; try apply _. done. Qed.
Lemma keep_spins p s s' : pm s' = pm s → keep s s' → spins p s s'.
Proof. intros Hpm Hk. by apply turns_spins, keep_turns. Qed.

(** The timer's callback, for the panel that is dragged. *)
Lemma drag_timer_wp p r s :
  sound None (Some p) s → dragged_panel_ (pm s) = Some p → heap s !! p = Some r →
  (MotionEventCoalescer.have_queued_position_ (coalescer pm s) = true →
   sane (MotionEventCoalescer.x_ (coalescer pm s)) (MotionEventCoalescer.y_ (coalescer pm s)) r) →
  wp (MotionEventCoalescer.HandleTimer (coalescer pm) (set_coalescer pm set_pm)
        (HandlePeriodicPanelDragMotion sm pm set_pm container))
     (fun _ s' => sound None (Some p) s' ∧ spins p s s' ∧
        MotionEventCoalescer.timer_id_ (coalescer pm s') = MotionEventCoalescer.timer_id_ (coalescer pm s) ∧
        (MotionEventCoalescer.have_queued_position_ (coalescer pm s) = false →
         containers_by_panel_ (pm s') = containers_by_panel_ (pm s))) s.
Proof.
  intros Hs Hd Hr Hsane. unfold MotionEventCoalescer.HandleTimer. apply wp_gets_bind.
  destruct (MotionEventCoalescer.have_queued_position_ (coalescer pm s)) eqn:Hq; cycle 1.
  { apply wp_ret. by split; [|split; [reflexivity|]]. }
  apply wp_bind. eapply wp_cut; [by apply (HandlePeriodicPanelDragMotion_wp p r s); auto|]. intros _ s1 [Hs1 Ht1].
  destruct (turns_spins p s s1 Ht1) as [Hsp1 Ec1]. apply wp_modify.
  destruct (coalescer_moves None (Some p) p ((coalescer pm s1) <| MotionEventCoalescer.have_queued_position_ := false |>)
              s1 Hs1) as (Hs2 & Hsp2 & Ec2 & _); [by destruct (coalescer pm s1)|].
  apply wp_ret. split; [done|]. split; [by etransitivity|]. split; [|done]. rewrite Ec2, <-Ec1. by destruct (coalescer pm s1).
Qed.

Lemma drag_stop_wp p r s :
  sound None (Some p) s → dragged_panel_ (pm s) = Some p → heap s !! p = Some r →
  MotionEventCoalescer.synchronous_ (coalescer pm s) = false →
  (MotionEventCoalescer.have_queued_position_ (coalescer pm s) = true →
   sane (MotionEventCoalescer.x_ (coalescer pm s)) (MotionEventCoalescer.y_ (coalescer pm s)) r) →
  wp (if MotionEventCoalescer.IsRunning (coalescer pm s) then
        MotionEventCoalescer.Stop (coalescer pm) (set_coalescer pm set_pm)
          (HandlePeriodicPanelDragMotion sm pm set_pm container) source_remove
      else mret ())
     (fun _ s' => sound None (Some p) s' ∧ spins p s s' ∧
        MotionEventCoalescer.IsRunning (coalescer pm s') = false ∧
        (MotionEventCoalescer.have_queued_position_ (coalescer pm s) = false →
         containers_by_panel_ (pm s') = containers_by_panel_ (pm s))) s.
Proof.
  intros Hs Hd Hr Hsync Hsane. destruct (MotionEventCoalescer.IsRunning _) eqn:Erun; [|by apply wp_ret].
  unfold MotionEventCoalescer.Stop, MotionEventCoalescer.StopInternal. apply wp_gets_bind. rewrite Hsync. cbn [negb].
  apply wp_gets_bind. unfold MotionEventCoalescer.IsRunning in Erun. destruct (_ =? 0); [done|]. clear Erun.
  eapply wp_cut; [apply (world_step _ None (Some p) s Hs), quiet_source_remove|]. intros _ s1 (Hs1 & Epm1 & Hk1).
  unfold MotionEventCoalescer.upd. apply wp_modify_bind.
  destruct (coalescer_moves None (Some p) p ((coalescer pm s1) <| MotionEventCoalescer.timer_id_ := 0 |>) s1 Hs1)
    as (Hs2 & Hsp2 & Ec2 & Eh2 & Eb2); [by destruct (coalescer pm s1)|]. set (s2 := set_coalescer _ _ _ s1) in *.
  assert (coalescer pm s1 = coalescer pm s) as Ec1 by (unfold coalescer; by rewrite Epm1). rewrite Ec1 in Ec2.
  destruct Hk1 as (Hscr & Hkept & Hrest). destruct (Hkept p r Hr) as (r1 & Hr1 & Hkr).
  assert (spins p s s2) as Hsp by (etransitivity; [by apply keep_spins|done]).
  eapply wp_cut; [apply (drag_timer_wp p r1 s2 Hs2)|].
  - destruct Hsp as (_&_&->&_). done.
  - by rewrite Eh2.
  - rewrite Ec2. destruct (coalescer pm s). cbn. intros Hq. by eapply kept_sane, Hsane.
  - intros _ s3 (Hs3 & Hsp3 & Et3 & Hb3). apply wp_ret. split; [done|]. split; [by etransitivity|].
    rewrite Ec2 in Et3, Hb3. split; [unfold MotionEventCoalescer.IsRunning; rewrite Et3; by destruct (coalescer pm s)|].
    intros Hq. rewrite Hb3; [by rewrite Eb2, Epm1|]. by destruct (coalescer pm s).
Qed.

(** When the drag has ended. *)
Record ended (p : Z) (removed : bool) (s s' : S) : Prop := {
  e_sound : sound None None s';
  e_stirs : stirs s s';
  e_others q : q ≠ p → containers_by_panel_ (pm s') !! q = containers_by_panel_ (pm s) !! q;
  e_dragged : dragged_panel_ (pm s') = None;
  e_drag_ok : drag_ok s';
  e_panel : if removed then containers_by_panel_ (pm s') = containers_by_panel_ (pm s)
            else is_Some (containers_by_panel_ (pm s') !! p)
}.
Definition drag_sane (s : S) : Prop :=
  MotionEventCoalescer.have_queued_position_ (coalescer pm s) = true →
  ∀ p r, dragged_panel_ (pm s) = Some p → heap s !! p = Some r →
    sane (MotionEventCoalescer.x_ (coalescer pm s)) (MotionEventCoalescer.y_ (coalescer pm s)) r.

Lemma undragged_ok s : dragged_panel_ (pm s) = None → MotionEventCoalescer.synchronous_ (coalescer pm s) = false →
  MotionEventCoalescer.IsRunning (coalescer pm s) = false → drag_ok s.
Proof. unfold coalescer. intros Hd Hsync Hrun. split; [congruence|]. split; [done|congruence]. Qed.

Lemma HandlePanelDragComplete_wp p removed s :
  sound None (Some p) s → dragged_panel_ (pm s) = Some p → drag_ok s → drag_sane s →
  (removed = true → MotionEventCoalescer.have_queued_position_ (coalescer pm s) = false ∧
                    containers_by_panel_ (pm s) !! p = None) →
  wp (HandlePanelDragComplete sm pm set_pm container p removed) (fun _ s' => ended p removed s s') s.
Proof.
  intros Hs Hd Hdok Hsane Hrem. destruct Hdok as (Hhd & Hsync & _). destruct (Hhd p Hd) as [r Hr].
  unfold HandlePanelDragComplete. apply wp_gets_bind. cbn [id]. rewrite Hd.
  apply DCHECK_true; [by apply bool_decide_eq_true|]. rewrite bool_decide_true by done. cbn [negb].
  eapply wp_cut; [by apply (drag_stop_wp p r s Hs); eauto|]. intros _ s1 (Hs1 & Hsp1 & Hrun1 & Hb1).
  unfold upd. apply wp_modify_bind. set (s2 := set_pm _ s1).
  assert (pm s2 = (pm s1) <| dragged_panel_ := None |>) as E2 by apply mp_pm_pm.
  destruct Hsp1 as (Hst1 & Ho1 & Hd1 & Hsync1).
  assert (sound None (Some p) s2) as Hs2 by (apply sound_set_pm; [by destruct (pm s1)|by destruct (pm s1)|done]).
  assert (stirs s s2) as Hst2.
  { etransitivity; [exact Hst1|]. unfold s2. apply set_pm_stirs. by destruct (pm s1). }
  assert (∀ m, pm m = pm s2 ∨ rebooked p (pm s2) (pm m) → drag_ok m ∧ dragged_panel_ (pm m) = None) as Hdone.
  { intros m Hm. assert (dragged_panel_ (pm m) = None ∧ coalescer pm m = coalescer pm s1) as [Hdm Hcm].
    { unfold coalescer. destruct Hm as [->|(b & -> & _)]; rewrite E2; by destruct (pm s1). }
    split; [|done]. apply undragged_ok; rewrite ?Hcm; [done|by rewrite Hsync1|done]. }
  assert (containers_by_panel_ (pm s2) = containers_by_panel_ (pm s1)) as Eb2 by (rewrite E2; by destruct (pm s1)).
  destruct removed.
  { apply wp_ret. destruct (Hrem eq_refl) as [Hq Hn]. specialize (Hb1 Hq).
    assert (containers_by_panel_ (pm s2) = containers_by_panel_ (pm s)) as Eb by congruence.
    split; [|done|intros q _; by rewrite Eb|apply Hdone; by left|apply Hdone; by left|done].
    destruct Hs2 as (Hf & Hc & Hb). split; [|done]. apply (fine_free p); [done|]. intros c Hin%Hb. congruence. }
  apply wp_gets_bind. cbn [id]. unfold GetContainerForPanel.
  destruct (containers_by_panel_ (pm s2) !! p) as [c|] eqn:Hc.
  - eapply wp_mono; [apply (on_complete c p s2); [apply Hs2|by apply Hs2|done|]|].
    { destruct Hs2 as (_ & _ & Hbk). intros c' Hne Hin%Hbk. congruence. }
    intros _ s3 [Hf3 Hset3].
    assert (pm s3 = pm s2) as E3 by apply Hset3.
    split; [by eapply sound_settled|etransitivity; [exact Hst2|by apply during_stirs, Hset3]| | | |];
      rewrite ?E3; [intros q Hq; rewrite Eb2; by apply Ho1|apply Hdone; by left|apply Hdone; by left|by eexists].
  - assert (sound None None s2) as Hs2'.
    { destruct Hs2 as (Hf & Hcore & Hb). split; [|done]. apply (fine_free p); [done|]. intros c Hin%Hb. congruence. }
    destruct Hst2 as (Hscr & Hl & Hrest). destruct (Hl p r Hr) as (r2 & Hr2 & _).
    eapply wp_mono; [apply (AddPanelToContainer_wp p PANEL_BAR PANEL_SOURCE_DROPPED None None s2 r2 Hs2'); [by left|done..]|].
    intros _ s3 (Hs3 & Ht3 & Hc3 & _). pose proof Ht3 as (_&_&_&Hrb&_).
    split; [done|etransitivity; [by split|by eapply turns_stirs]| |apply Hdone; by right|apply Hdone; by right|by eexists].
    intros q Hq. destruct Hrb as (b & -> & Hbq). transitivity (b !! q); [by destruct (pm s2)|].
    rewrite Hbq, Eb2 by done. by apply Ho1.
Qed.

Lemma ended_inv p s s' : inv s → dragged_panel_ (pm s) = Some p → ended p false s s' → inv s'.
Proof.
  intros (_ & _ & Hh) Hd [E1 (_&_&Edom&_) E3 E4 E5 E6]. split; [by rewrite E4|]. split; [done|].
  intros q Hq. left. destruct (decide (q = p)) as [->|Hne]; [done|]. rewrite E3 by done.
  rewrite <-elem_of_dom, Edom, elem_of_dom in Hq. destruct (Hh q Hq) as [|?]; [done|congruence].
Qed.

Lemma HandleDragTimer_wp s : inv s → drag_sane s → MotionEventCoalescer.IsRunning (coalescer pm s) = true →
  wp (HandleDragTimer sm pm set_pm container) (fun _ s' => inv s' ∧ stirs s s') s.
Proof.
  intros (Hs & Hdok & Hh) Hsane Hrun. pose proof Hdok as (Hhd & Hsync & Hr). specialize (Hr Hrun).
  destruct (dragged_panel_ (pm s)) as [p|] eqn:Hd; [|done]. destruct (Hhd p eq_refl) as [r Hrp].
  unfold HandleDragTimer. eapply wp_cut; [apply (drag_timer_wp p r s Hs); eauto|].
  intros _ s' (Hs' & (Hst & Ho & Hd' & Hsync') & _). apply wp_ret. split; [|done].
  assert (is_Some (heap s' !! p)) as Hp'.
  { destruct Hst as (_ & Hl & _). destruct (Hl p r Hrp) as (r' & ? & _). by eexists. }
  split; [rewrite Hd', Hd; done|]. split; [|].
  - split; [intros q; rewrite Hd', Hd; by intros [= <-]|]. unfold coalescer in Hsync'. split; [congruence|]. intros _. by rewrite Hd', Hd.
  - intros q Hq. destruct (decide (q = p)) as [->|Hne]; [right; congruence|]. left. rewrite Ho by done.
    destruct Hst as (_&_&Edom&_). rewrite <-elem_of_dom, Edom, elem_of_dom in Hq.
    destruct (Hh q Hq) as [|?]; [done|congruence].
Qed.

(** ** Windows *)

Lemma inv_set_pm s m :
  same_books (pm s) m → containers_by_panel_ m = containers_by_panel_ (pm s) → dragged_panel_ m = dragged_panel_ (pm s) →
  dragged_panel_event_coalescer_ m = dragged_panel_event_coalescer_ (pm s) → inv s → inv (set_pm m s).
Proof.
  intros Hm Hb Hd Hc (Hs & (D1 & D2) & Hh). unfold inv, drag_ok, held. rewrite mp_pm_pm, mp_heap_pm, Hb, Hd, Hc.
  split; [by apply sound_set_pm|]. by split.
Qed.

(** The window manager knows the window. *)
Definition known (x : Z) (s : S) : Prop :=
  is_Some (windows s !! x) ∨ ∃ p r, heap s !! p = Some r ∧ (Panel.content_xid r = x ∨ Panel.titlebar_xid r = x).
Lemma panel_with_spec x s :
  match panel_with x s with
  | Some (p, r) => heap s !! p = Some r ∧ (Panel.content_xid r = x ∨ Panel.titlebar_xid r = x)
  | None => ∀ p r, heap s !! p = Some r → Panel.content_xid r ≠ x ∧ Panel.titlebar_xid r ≠ x
  end.
Proof.
  unfold panel_with. destruct (list_find _ _) as [[i [p r]]|] eqn:E; cbn.
  - apply list_find_Some in E as (Hl & Hx & _). split; [|exact Hx].
    apply elem_of_map_to_list. by eapply list_elem_of_lookup_2.
  - apply list_find_None in E. rewrite Forall_forall in E. intros p r Hr.
    specialize (E (p, r) ltac:(by apply elem_of_map_to_list)). cbn in E. tauto.
Qed.
Lemma known_GetWindow x s : known x s ↔ is_Some (GetWindow windows x s).
Proof.
  unfold known, GetWindow. destruct (windows s !! x) as [w|]; [split; [by eexists|by left; eexists]|].
  pose proof (panel_with_spec x s) as Hp. destruct (panel_with x s) as [[p r]|].
  - split; [by eexists|]. intros _. right. exists p, r. tauto.
  - split; [|by intros []]. intros [[]|(p & r & Hr & Hx)]; [done|]. destruct (Hp p r Hr). tauto.
Qed.
Lemma GetWindow_windows x w s : windows s !! x = Some w → GetWindow windows x s = Some w.
Proof. intros Hw. unfold GetWindow. by rewrite Hw. Qed.

Lemma core_windows new x w w' s s' : core new s → windows s !! x = Some w → Window.xid_ w' = Window.xid_ w →
  windows s' = <[x := w']> (windows s) → heap s' = heap s → pm s' = pm s → same_screen (world s) (world s') →
  core new s'.
Proof.
  intros [E1 E2 E3 E4 E5 E6 E7] Hw Hx Hws Hh Hpm Hscr. split; rewrite ?Hws, ?Hh, ?Hpm; try done.
  - intros y v. destruct (decide (y = x)) as [->|Hne]; [|rewrite lookup_insert_ne by done; apply E1].
    rewrite lookup_insert_eq. intros [= <-]. rewrite Hx. by apply E1.
  - intros p r Hr. destruct (E2 p r Hr) as ((?&?&?&?&Hin)&?&?). split; [|done]. split; [done|]. split; [done|]. split; [done|].
    split; [done|]. intros y Hy. destruct (Hin y Hy). split; [done|by apply Hscr].
  - intros p r Hr. destruct (E7 p r Hr) as [F1 F2].
    split; (rewrite lookup_insert_ne; [done|]); congruence.
Qed.

(** An operation of a window, wherever it is. *)
Definition window_step (P : Window.t → Window.t → Prop) (x : Z) (s s' : S) : Prop :=
  pm s' = pm s ∧ known x s' ∧
  match windows s !! x with
  | Some w => ∃ w', windows s' = <[x := w']> (windows s) ∧ P w w' ∧ heap s' = heap s
  | None => windows s' = windows s
  end.
Lemma on_window_wp {A} (m : M (Window.t * W) A) P x s :
  (∀ ws, win_ok ws → wp m (fun _ s' => win_ok s' ∧ win_step P ws s') ws) → (∀ w w', P w w' → same_place w w') →
  inv s → known x s →
  wp (on_window windows set_windows x m) (fun _ s' => inv s' ∧ window_step P x s s') s.
Proof.
  intros Hm HP Hs Hx. unfold on_window, window_step. apply wp_gets_bind. pose proof (inv_world s Hs) as Hok.
  destruct (windows s !! x) as [w|] eqn:Ew.
  - apply wp_zoom. rewrite Ew. cbn. eapply wp_mono; [by apply Hm|]. intros a [w' W'] [Hok' [Hw' Hscr]]. cbn in *.
    set (s' := set_world W' _).
    assert (heap s' = heap s) as Eh by (unfold s'; by rewrite mp_heap_world, mp_heap_windows).
    assert (world s' = W') as EW by apply mp_world_world.
    assert (pm s' = pm s) as Ep by (unfold s'; by rewrite mp_pm_world, mp_pm_windows).
    assert (windows s' = <[x := w']> (windows s)) as Ews by (unfold s'; by rewrite mp_windows_world, mp_windows_windows).
    assert (alike s s') as Ha by (unfold s'; etransitivity; [apply mp_alike_windows|apply mp_alike_world]).
    split; [|split; [done|split; [left; rewrite Ews; eexists; apply lookup_insert_eq|by exists w']]].
    destruct Hs as ((Hf & Hc & Hb) & (D1 & D2) & Hh). unfold inv, drag_ok, held. rewrite Ep, Eh. split; [|by split].
    split; [apply (fine_stirs _ s); [done|by rewrite EW|done|by apply heap_kept_lives, heap_kept_same]|].
    split; [destruct (HP _ _ Hw') as ((Hxw & _) & _); by apply (core_windows None x w w' s); rewrite ?EW|]. apply (books_alike s); [done|by rewrite Ep|done].
  - pose proof (panel_with_spec x s) as Hp. apply wp_gets_bind. destruct (panel_with x s) as [[p r]|]; cycle 1.
    { exfalso. destruct Hx as [Hx|(p & r & Hr & Hx)]; [rewrite Ew in Hx; by destruct Hx|].
      destruct (Hp p r Hr). tauto. }
    destruct Hp as [Hr Hxr].
    assert (steady m) as Hsteady.
    { intros ws Hws. eapply wp_mono; [by apply Hm|]. intros a s' [? [? ?]]. split; [done|]. split; [by apply HP|done]. }
    set (I := fun s' => at_rest (pm s) s' ∧ is_Some (heap s' !! p)).
    assert (Holds pm others I) as Hholds.
    { split; [intros s' [[??] _]; by apply inv_world|]. intros s1 s2 [[? E1] [r1 Hr1]] ??(?&Hl&?).
      split; [split; [by apply (inv_live s1)|congruence]|]. destruct (Hl p r1 Hr1) as (r2 & ? & _). by eexists. }
    assert (at_hand I p) as Hhand by (intros ? [_ ?]; done).
    assert (framed I keep (if Panel.content_xid r =? x then content_win p m
                           else call (fun f sf w sw => Panel.titlebar_win f sf w sw m) p)) as Hsafe.
    { destruct (_ =? _); [eapply heap_content_win; try apply _; done|].
      eapply (calm_safe pm others); try apply _; [done|]. frame. }
    eapply wp_mono; [apply (Hsafe s); by split; [|by eexists]|].
    intros a s' [[[Hs' Ep] Hp'] (_ & Hk & _ & _ & Ews)]. split; [done|]. split; [done|]. split; [|done].
    right. destruct (Hk p r Hr) as (r' & Hr' & Hkr). exists p, r'. split; [done|].
    destruct Hkr as ((Hcx & _) & (Htx & _) & _). unfold Panel.content_xid, Panel.titlebar_xid in *. by rewrite Hcx, Htx.
Qed.
Lemma steady_window_wp {A} (m : M (Window.t * W) A) x s : steady m → inv s → known x s →
  wp (on_window windows set_windows x m) (fun _ s' => inv s' ∧ window_step same_place x s s') s.
Proof. intros Hm. by apply on_window_wp. Qed.

Lemma the_window_wp x s : known x s →
  wp (the_window windows x) (fun w s' => s' = s ∧ GetWindow windows x s = Some w) s.
Proof. intros [w Hw]%known_GetWindow. unfold the_window. apply wp_gets_bind. rewrite Hw. by apply wp_ret. Qed.

(** Only the position of the client changes. *)
Definition shifted (w w' : Window.t) : Prop := ∃ px py, w' = w <| Window.client_x_ := px |> <| Window.client_y_ := py |>.
Lemma MoveClientOffscreen_wp ws : win_ok ws →
  wp Window.MoveClientOffscreen (fun _ s' => win_ok s' ∧ win_step shifted ws s') ws.
Proof.
  intros Hws. unfold Window.MoveClientOffscreen, Window.MoveClient. apply wp_gets_bind, wp_gets_bind.
  assert (∀ w, shifted w w) as Hrefl by (intros []; do 2 eexists; reflexivity).
  eapply (wp_cut _ _ (fun _ s1 => win_ok s1 ∧ s1.1 = ws.1 ∧ same_screen ws.2 s1.2)).
  { unfold Window.x, Window.on_w. apply wp_zoom. eapply wp_mono; [by apply quiet_x_do|]. by intros a w' [??]. }
  intros ok [w1 u1] (Hok & E1 & Hscr). cbn in *. subst w1. destruct ok; cbn [negb]; cycle 1.
  { apply wp_ret. split; [done|]. by split. }
  apply wp_modify_bind. apply wp_ret. split; [done|]. split; [|done]. by do 2 eexists.
Qed.
Lemma shifted_place w w' : shifted w w' → same_place w w'.
Proof. intros (px & py & ->). destruct w. by repeat split. Qed.

(** *** Map requests *)

Lemma HandleWindowMapRequest_wp x s : inv s → known x s →
  wp (HandleWindowMapRequest pm set_pm windows set_windows x) (fun _ s' => inv s') s.
Proof.
  intros Hs Hx. unfold HandleWindowMapRequest. apply wp_modify_bind. set (s1 := set_pm _ s).
  assert (inv s1) as Hs1 by (apply inv_set_pm; [by destruct (pm s)..|done]).
  assert (known x s1) as Hx1 by (unfold known, s1; by rewrite mp_windows_pm, mp_heap_pm).
  eapply wp_cut; [by apply the_window_wp|]. intros w ? [-> _]. destruct (negb _); [by apply wp_ret|].
  unfold DoInitialSetupForWindow. apply wp_bind.
  eapply wp_cut; [apply on_window_wp; [apply MoveClientOffscreen_wp|apply shifted_place|done|done]|].
  intros _ s2 (Hs2 & _ & Hx2 & _). apply wp_ret.
  eapply wp_cut; [by apply steady_window_wp; [unfold Window.MapClient; frame| |]|].
  intros _ s3 (Hs3 & _). by apply wp_ret.
Qed.

(** *** A new panel *)

Lemma core_add p r s s' :
  core None s → heap s !! p = None → heap s' !! p = Some r → (∀ q, q ≠ p → heap s' !! q = heap s !! q) →
  same_screen (world s) (world s') → good r s' → Panel.content_xid r ≠ Panel.titlebar_xid r →
  is_Some (windows s !! Panel.content_xid r) → is_Some (windows s !! Panel.titlebar_xid r) →
  windows s' = delete (Panel.content_xid r) (delete (Panel.titlebar_xid r) (windows s)) →
  panels_ (pm s') = <[Panel.content_xid r := p]> (panels_ (pm s)) →
  panels_by_titlebar_xid_ (pm s') = <[Panel.titlebar_xid r := p]> (panels_by_titlebar_xid_ (pm s)) →
  (∀ x, panel_input_xids_ (pm s') !! x =
        if decide (x ∈ Panel.GetInputWindows r) then Some p else panel_input_xids_ (pm s) !! x) →
  (∀ x, x ∈ Panel.GetInputWindows r → panel_input_xids_ (pm s) !! x = None) →
  core (Some p) s'.
Proof.
  intros [E1 E2 E3 E4 E5 E6 E7] Hp Hr Hothers Hscr Hgood Hne [wc Hwc] [wt Hwt] Hws Hps Hts Hins Hfresh.
  assert (∀ q rq, heap s' !! q = Some rq → q = p ∧ rq = r ∨ q ≠ p ∧ heap s !! q = Some rq) as Hcases.
  { intros q rq Hq. destruct (decide (q = p)) as [->|Hq']; [left; split; [done|congruence]|right]. by rewrite <-Hothers. }
  assert (∀ q rq, heap s !! q = Some rq → q ≠ p) as Hold by (intros q rq Hq ->; congruence).
  assert (∀ q rq, heap s !! q = Some rq → Panel.content_xid rq ≠ Panel.content_xid r ∧ Panel.titlebar_xid rq ≠ Panel.content_xid r ∧
            Panel.content_xid rq ≠ Panel.titlebar_xid r ∧ Panel.titlebar_xid rq ≠ Panel.titlebar_xid r) as Hapart.
  { intros q rq Hq. destruct (E7 q rq Hq) as [F1 F2]. split_and!; intros E; rewrite E in *; congruence. }
  split; rewrite ?Hws, ?Hps, ?Hts.
  - intros x w. rewrite !lookup_delete_Some. intros (_ & _ & Hw). by apply E1.
  - intros q rq [[-> ->]|[Hq Hrq]]%Hcases.
    + split; [done|]. split; [|done]. split; [rewrite Hps; apply lookup_insert_eq|].
      split; [rewrite Hts; apply lookup_insert_eq|]. intros x Hx. rewrite Hins. by rewrite decide_True.
    + destruct (E2 q rq Hrq) as ((?&?&?&?&Hin)&(R1&R2&R3)&Hup). destruct (Hapart q rq Hrq) as (?&_&_&?). split; [|split].
      * split; [done|]. split; [done|]. split; [done|]. split; [done|]. intros x Hx. destruct (Hin x Hx). split; [done|by apply Hscr].
      * split; [by rewrite Hps, lookup_insert_ne|]. split; [by rewrite Hts, lookup_insert_ne|]. intros x Hx. rewrite Hins.
        specialize (R3 x Hx). case_decide as Hi; [|done]. specialize (Hfresh x Hi). congruence.
      * intros _. by apply Hup.
  - intros x q. rewrite lookup_insert_Some. intros [[<- <-]|[_ Hq]]; [by exists r|].
    destruct (E3 x q Hq) as (rq & Hrq & Hx). exists rq. by rewrite Hothers by (by eapply Hold).
  - intros x q. rewrite lookup_insert_Some. intros [[<- <-]|[_ Hq]]; [by exists r|].
    destruct (E4 x q Hq) as (rq & Hrq & Hx). exists rq. by rewrite Hothers by (by eapply Hold).
  - intros x q. rewrite Hins. case_decide as Hi; [intros [= <-]; by exists r|]. intros Hq.
    destruct (E5 x q Hq) as (rq & Hrq & Hx). exists rq. by rewrite Hothers by (by eapply Hold).
  - intros q1 q2 r1 r2 [[-> ->]|[_ Hr1]]%Hcases [[-> ->]|[_ Hr2]]%Hcases.
    + done.
    + destruct (Hapart _ _ Hr2) as (_&Hx&_). congruence.
    + destruct (Hapart _ _ Hr1) as (_&_&Hx&_). congruence.
    + by eapply E6.
  - intros q rq [[-> ->]|[_ Hrq]]%Hcases.
    + rewrite lookup_delete_eq. split; [done|]. rewrite lookup_delete_ne by done. by rewrite lookup_delete_eq.
    + destruct (E7 q rq Hrq). by split; rewrite !lookup_delete_None; right; right.
Qed.

Variable new_panel_address : S → Z.
Variable indeterminate_gravity : Window.Gravity.
Variable self : Z.
(** [new] gives an address that is not in use. *)
Hypothesis new_fresh : ∀ s, heap s !! new_panel_address s = None.

(** While a panel is made: only it and the registers of the manager change. *)
Definition aside (p : Z) (s s' : S) : Prop :=
  alike s s' ∧ same_screen (world s) (world s') ∧ wm_ok (world s') ∧ (∀ q, q ≠ p → heap s' !! q = heap s !! q).
Lemma aside_touched p P s0 s s' : aside p s0 s → wm_ok (world s') → touched pm others p P s s' →
  aside p s0 s' ∧ pm s' = pm s ∧ windows s' = windows s.
Proof.
  intros (Ha & Hscr & Hok & Hh) Hok' (Hpm & Hscr' & Hh' & (Ha' & Hw') & _). split; [|done].
  split; [by etransitivity|]. split; [by etransitivity|]. split; [done|]. intros q Hq. by rewrite Hh', Hh.
Qed.
Lemma aside_upd p s0 s f : aside p s0 s → let s' := set_pm (f (pm s)) s in
  aside p s0 s' ∧ pm s' = f (pm s) ∧ windows s' = windows s ∧ heap s' = heap s ∧ world s' = world s.
Proof.
  intros (Ha & Hscr & Hok & Hh) s'. unfold s', aside. rewrite mp_world_pm, mp_heap_pm, mp_pm_pm, mp_windows_pm.
  split; [|done]. split; [etransitivity; [exact Ha|apply mp_alike_pm]|]. done.
Qed.

(** [new Panel(...)]. *)
Lemma new_panel_wp win tw (expanded : bool) s :
  inv s → windows s !! Window.xid_ win = Some win → windows s !! Window.xid_ tw = Some tw → has_area win →
  wp (new_panel windows set_windows new_panel_address indeterminate_gravity self win tw expanded)
     (fun p s' => heap s !! p = None ∧ aside p s s' ∧ pm s' = pm s ∧
        windows s' = delete (Window.xid_ win) (delete (Window.xid_ tw) (windows s)) ∧
        ∃ r, heap s' !! p = Some r ∧ Panel.content_xid r = Window.xid_ win ∧ Panel.titlebar_xid r = Window.xid_ tw ∧
             good r s' ∧ Forall (fun x => ¬ wm_used x (world s)) (Panel.GetInputWindows r)) s.
Proof.
  intros Hs Hw Ht Harea. pose proof (inv_world s Hs) as Hok. unfold new_panel. apply wp_gets_bind.
  set (p := new_panel_address s). pose proof (new_fresh s : heap s !! p = None) as Hp.
  change (lift (MotionEventCoalescer.construct true Panel.kResizeUpdateMs))
    with (mret (MotionEventCoalescer.mk 0 Panel.kResizeUpdateMs false (-1) (-1) false) : M S MotionEventCoalescer.t).
  apply wp_ret_bind. set (c := MotionEventCoalescer.mk _ _ _ _ _ _).
  eapply (wp_cut _ _ (fun xids s1 => pm s1 = pm s ∧ heap s1 = heap s ∧ windows s1 = windows s ∧ alike s s1 ∧
            wm_ok (world s1) ∧ same_screen (world s) (world s1) ∧ NoDup (xids_of xids) ∧
            Forall (fun x => x ≠ 0 ∧ ¬ wm_used x (world s) ∧ wm_used x (world s1)) (xids_of xids))).
  { apply wp_zoom. eapply wp_mono; [apply create_input_windows_wp, Hok|]. intros xids w1 ((?&?)&?&?).
    rewrite mp_pm_world, mp_heap_world, mp_windows_world, mp_world_world. repeat (split; [done||apply mp_alike_world|]). done. }
  intros xids s1 (Epm1 & Eh1 & Ew1 & Ha1 & Hok1 & Hscr1 & Hnd & Hx). apply wp_modify_bind.
  set (r0 := Panel.initial _ _ _ _ _ _ _). set (s2 := set_windows _ _).
  assert (heap s2 = <[p := r0]> (heap s)) as Eh2.
  { unfold s2, set_at. by rewrite mp_heap_windows, mp_heap_heap, Eh1. }
  assert (world s2 = world s1) as EW2 by (unfold s2, set_at; by rewrite mp_world_windows, mp_world_heap).
  assert (pm s2 = pm s) as Epm2 by (unfold s2, set_at; by rewrite mp_pm_windows, mp_pm_heap).
  assert (windows s2 = delete (Window.xid_ win) (delete (Window.xid_ tw) (windows s))) as Ew2.
  { unfold s2. by rewrite mp_windows_windows, Ew1. }
  assert (alike s s2) as Ha2.
  { etransitivity; [exact Ha1|]. unfold s2, set_at. etransitivity; [apply mp_alike_heap|apply mp_alike_windows]. }
  assert (heap s2 !! p = Some r0) as Hr0 by (rewrite Eh2; apply lookup_insert_eq).
  assert (aside p s s2) as Hap2.
  { split; [done|]. rewrite EW2. split; [done|]. split; [done|]. intros q Hq. by rewrite Eh2, lookup_insert_ne. }
  destruct (i_windows None s (proj1 (proj2 (proj1 Hs))) _ _ Ht) as [_ Htw].
  destruct (i_windows None s (proj1 (proj2 (proj1 Hs))) _ _ Hw) as [_ Hwx].
  assert (Panel.content_win_ r0 = win ∧ Panel.titlebar_win_ r0 = tw ∧ Panel.GetInputWindows r0 = xids_of xids ∧ resize_ok r0)
    as (Er1 & Er2 & Er3 & Hro).
  { unfold r0. destruct xids as [[[[x1 x2] x3] x4] x5]. split; [done|]. split; [done|]. split; [done|].
    split; [done|]. split; [done|]. cbn. tauto. }
  eapply wp_cut; [eapply (call_wp pm others _ p r0 same_windows); [exact Hr0|]|].
  { apply (set_up_safe _ _ _ _ (elsewhere pm others p)); [unfold pan_ok; by rewrite EW2|].
    unfold panel_at. rewrite Hr0. cbn. by rewrite Er1. }
  intros _ s3 [Hok3 Ht3]. destruct (aside_touched p _ s s2 s3 Hap2 Hok3 Ht3) as (Hap3 & Epm3 & Ew3).
  destruct Ht3 as (_ & Hscr3 & _ & _ & r & r' & Hr & Hr' & Hsame). assert (r = r0) as -> by congruence.
  apply wp_ret. split; [done|]. split; [done|]. split; [congruence|]. split; [congruence|].
  exists r'. split; [done|]. destruct (same_windows_xids _ _ Hsame) as (-> & -> & ->).
  unfold Panel.content_xid, Panel.titlebar_xid. rewrite Er1, Er2, Er3. split; [done|]. split; [done|].
  rewrite Forall_forall in Hx. split; [|apply Forall_forall; intros y Hy; by apply Hx].
  split; [destruct (same_windows_xids _ _ Hsame) as (-> & _); unfold Panel.content_xid; by rewrite Er1|].
  split; [apply (usable_kept r0); [|done]; split; [unfold Panel.titlebar_xid; by rewrite Er2|by rewrite Er1]|].
  split; [by apply Hsame|]. destruct (same_windows_xids _ _ Hsame) as (_ & _ & ->). rewrite Er3. split; [done|].
  intros y Hy. destruct (Hx y Hy) as (?&_&?). split; [done|]. apply Hscr3. by rewrite EW2.
Qed.

(** Registering the panel's input windows. *)
Lemma register_inputs_wp p xs s0 s : aside p s0 s → NoDup xs →
  (∀ x, x ∈ xs → panel_input_xids_ (pm s) !! x = None) →
  wp (for_each (register_panel_input pm set_pm p) xs)
     (fun _ s' => aside p s0 s' ∧ windows s' = windows s ∧ heap s' = heap s ∧ world s' = world s ∧
        ∃ inputs, pm s' = (pm s) <| panel_input_xids_ := inputs |> ∧
          ∀ x, inputs !! x = if decide (x ∈ xs) then Some p else panel_input_xids_ (pm s) !! x) s.
Proof.
  revert s. induction xs as [|x xs IH]; intros s Hap Hnd Hfree; cbn [for_each].
  { apply wp_ret. split; [done|]. split; [done|]. split; [done|]. split; [done|].
    exists (panel_input_xids_ (pm s)). split; [by destruct (pm s)|]. intros x. by rewrite decide_False by apply not_elem_of_nil. }
  apply NoDup_cons in Hnd as [Hx Hnd]. apply wp_bind. unfold register_panel_input at 1.
  apply wp_gets_bind. cbn [id]. apply wp_CHECK_bind; [apply bool_decide_eq_true, Hfree; by left|].
  apply wp_modify. set (s1 := set_pm _ s).
  destruct (aside_upd p s0 s (fun m => m <| panel_input_xids_ := <[x := p]> (panel_input_xids_ m) |>) Hap)
    as (Hap1 & Epm1 & Ew1 & Eh1 & EW1). fold s1 in Hap1, Epm1, Ew1, Eh1, EW1.
  assert (panel_input_xids_ (pm s1) = <[x := p]> (panel_input_xids_ (pm s))) as Ei by (rewrite Epm1; by destruct (pm s)).
  eapply wp_mono; [apply (IH s1 Hap1 Hnd)|].
  - intros y Hy. rewrite Ei, lookup_insert_ne by (by intros ->). apply Hfree. by right.
  - intros _ s2 (Hap2 & Ew2 & Eh2 & EW2 & inputs & Epm2 & Hin). split; [done|].
    split; [congruence|]. split; [congruence|]. split; [congruence|].
    exists inputs. split; [rewrite Epm2, Epm1; by destruct (pm s)|]. intros y. rewrite Hin, Ei.
    destruct (decide (y ∈ xs)) as [Hy|Hy]; [by rewrite decide_True by by right|].
    destruct (decide (y = x)) as [->|Hne]; [rewrite decide_True by (by left); apply lookup_insert_eq|].
    rewrite decide_False by (by intros [->|?]%elem_of_cons). by apply lookup_insert_ne.
Qed.

(** A content window that may be mapped: the X server gives windows an area; its
    titlebar is another window that no panel has. *)
Definition mappable (win : Window.t) (s : S) : Prop :=
  windows s !! Window.xid_ win = Some win ∧ has_area win ∧
  ∀ t l, Window.type_params_ win = t :: l → t ≠ Window.xid_ win ∧ (known t s → is_Some (windows s !! t)).

(** The panel's registration, once it has its window's width. *)
Definition register_panel (win titlebar_win : Window.t) (p : Z) : M S unit :=
  r ← look p;
  for_each (register_panel_input pm set_pm p) (Panel.GetInputWindows r);;
  m ← get pm id;
  CHECK (bool_decide (panels_ m !! Window.xid_ win = None));;
  upd pm set_pm (fun m => m <| panels_ := <[Window.xid_ win := p]> (panels_ m) |>);;
  CHECK (bool_decide (panels_by_titlebar_xid_ m !! Window.xid_ titlebar_win = None));;
  upd pm set_pm (fun m => m <| panels_by_titlebar_xid_ := <[Window.xid_ titlebar_win := p]> (panels_by_titlebar_xid_ m) |>);;
  AddPanelToContainer pm set_pm container p PANEL_BAR PANEL_SOURCE_NEW.

Lemma register_panel_wp win tw p r s0 s :
  inv s0 → heap s0 !! p = None → windows s0 !! Window.xid_ win = Some win → windows s0 !! Window.xid_ tw = Some tw →
  Window.xid_ tw ≠ Window.xid_ win → aside p s0 s → pm s = pm s0 →
  windows s = delete (Window.xid_ win) (delete (Window.xid_ tw) (windows s0)) →
  heap s !! p = Some r → Panel.content_xid r = Window.xid_ win → Panel.titlebar_xid r = Window.xid_ tw →
  good r s → Forall (fun x => ¬ wm_used x (world s0)) (Panel.GetInputWindows r) →
  wp (register_panel win tw p) (fun _ s' => inv s') s.
Proof.
  intros Hs0 Hp Hw Ht Hne Hap Epm Ews Hr Hc Htx Hgood Hfresh. pose proof Hs0 as ((Hf0 & Hcore0 & Hb0) & Hd0 & Hh0).
  unfold register_panel. eapply wp_cut; [by eapply (look_wp p r (fun r' s' => r' = r ∧ s' = s))|]. intros ? ? [-> ->].
  assert (∀ x, x ∈ Panel.GetInputWindows r → panel_input_xids_ (pm s0) !! x = None) as Hfree.
  { rewrite Forall_forall in Hfresh. intros x Hx. destruct (panel_input_xids_ (pm s0) !! x) as [q|] eqn:E; [|done].
    destruct (i_inputs _ _ Hcore0 x q E) as (rq & Hrq & Hin).
    destruct (i_panel _ _ Hcore0 q rq Hrq) as ((_&_&_&_&Hu)&_). exfalso. apply (Hfresh x Hx). by apply Hu. }
  eapply wp_cut; [apply (register_inputs_wp p _ s0 s Hap); [apply Hgood|by rewrite Epm]|].
  intros _ s1 (Hap1 & Ew1 & Eh1 & EW1 & inputs & Epm1 & Hin1). apply wp_gets_bind. cbn [id]. rewrite Epm in Epm1, Hin1.
  assert (panels_ (pm s0) !! Window.xid_ win = None) as Hn1.
  { destruct (panels_ (pm s0) !! Window.xid_ win) as [q|] eqn:E; [|done].
    destruct (i_panels _ _ Hcore0 _ q E) as (rq & Hrq & Hx). destruct (i_free _ _ Hcore0 q rq Hrq) as [Hn _]. congruence. }
  assert (panels_by_titlebar_xid_ (pm s0) !! Window.xid_ tw = None) as Hn2.
  { destruct (panels_by_titlebar_xid_ (pm s0) !! Window.xid_ tw) as [q|] eqn:E; [|done].
    destruct (i_titlebars _ _ Hcore0 _ q E) as (rq & Hrq & Hx). destruct (i_free _ _ Hcore0 q rq Hrq) as [_ Hn]. congruence. }
  apply wp_CHECK_bind; [apply bool_decide_eq_true; rewrite Epm1; by destruct (pm s0)|].
  unfold upd. apply wp_modify_bind. set (s2 := set_pm _ s1).
  destruct (aside_upd p s0 s1 (fun m => m <| panels_ := <[Window.xid_ win := p]> (panels_ m) |>) Hap1)
    as (Hap2 & Epm2 & Ew2 & Eh2 & EW2). fold s2 in Hap2, Epm2, Ew2, Eh2, EW2.
  apply wp_CHECK_bind; [apply bool_decide_eq_true; rewrite Epm1; by destruct (pm s0)|].
  apply wp_modify_bind. set (s3 := set_pm _ s2).
  destruct (aside_upd p s0 s2 (fun m => m <| panels_by_titlebar_xid_ := <[Window.xid_ tw := p]> (panels_by_titlebar_xid_ m) |>)
              Hap2) as (Hap3 & Epm3 & Ew3 & Eh3 & EW3). fold s3 in Hap3, Epm3, Ew3, Eh3, EW3.
  destruct Hap3 as (Ha3 & Hscr3 & Hok3 & Hh3).
  assert (heap s3 !! p = Some r) as Hr3 by (by rewrite Eh3, Eh2, Eh1).
  assert (containers_by_panel_ (pm s3) = containers_by_panel_ (pm s0) ∧ dragged_panel_ (pm s3) = dragged_panel_ (pm s0) ∧
          dragged_panel_event_coalescer_ (pm s3) = dragged_panel_event_coalescer_ (pm s0) ∧
          panels_ (pm s3) = <[Window.xid_ win := p]> (panels_ (pm s0)) ∧
          panels_by_titlebar_xid_ (pm s3) = <[Window.xid_ tw := p]> (panels_by_titlebar_xid_ (pm s0)) ∧
          panel_input_xids_ (pm s3) = inputs) as (Ec3 & Ed3 & Eco3 & Ep3 & Et3 & Ei3).
  { rewrite Epm3, Epm2, Epm1. by destruct (pm s0). }
  assert (heap_lives s0 s3) as Hl3.
  { intros q rq Hrq. exists rq. rewrite Hh3 by (intros ->; congruence). split; [done|reflexivity]. }
  assert (sound (Some p) (dragged_panel_ (pm s0)) s3) as Hs3.
  { split; [by apply (fine_stirs _ s0)|]. split; [|by apply (books_alike s0)].
    assert (good r s3) as Hgood3.
    { destruct Hgood as (?&?&?&?&Hu). split; [done|]. split; [done|]. split; [done|]. split; [done|]. by rewrite EW3, EW2, EW1. }
    assert (windows s3 = windows s) as Ews3 by congruence.
    apply (core_add p r s0); rewrite ?Hc, ?Htx, ?Ei3; try done; congruence || by eexists. }
  eapply wp_mono; [apply (AddPanelToContainer_wp p PANEL_BAR PANEL_SOURCE_NEW (Some p) _ s3 r Hs3); [by right|done| |done]|].
  { rewrite Ec3. destruct (containers_by_panel_ (pm s0) !! p) as [c|] eqn:E; [|done].
    apply Hb0 in E. destruct (fine_member _ _ _ _ Hf0 E). congruence. }
  intros _ s4 (Hs4 & (Hscr4 & Hl4 & Edom4 & (b & Em4 & Hb4) & Ew4) & Hc4 & _).
  assert (dragged_panel_ (pm s4) = dragged_panel_ (pm s0) ∧
          dragged_panel_event_coalescer_ (pm s4) = dragged_panel_event_coalescer_ (pm s0)) as [Ed4 Eco4].
  { rewrite <-Ed3, <-Eco3, Em4. by destruct (pm s3). }
  split; [by rewrite Ed4|]. split.
  - unfold drag_ok. rewrite Ed4, Eco4. destruct Hd0 as [D1 D2]. split; [|done]. intros q Hq.
    destruct (D1 q Hq) as [rq Hrq]. destruct (Hl3 q rq Hrq) as (r3 & Hrq3 & _). destruct (Hl4 q r3 Hrq3) as (r4 & ? & _). by eexists.
  - intros q Hq. rewrite Ed4. destruct (decide (q = p)) as [->|Hqp]; [left; by eexists|].
    rewrite <-elem_of_dom, Edom4, elem_of_dom, Hh3 in Hq by done.
    replace (containers_by_panel_ (pm s4) !! q) with (containers_by_panel_ (pm s0) !! q); [by apply Hh0|].
    rewrite <-Ec3, <-(Hb4 q Hqp), Em4. by destruct (pm s3).
Qed.

Lemma make_panel_wp win s : inv s → mappable win s →
  wp (make_panel pm set_pm windows set_windows container new_panel_address indeterminate_gravity self win)
     (fun _ s' => inv s') s.
Proof.
  intros Hs (Hw & Harea & Hparams). unfold make_panel. destruct (Window.type_params_ win) as [|t l]; [by apply wp_ret|].
  destruct (Hparams t l eq_refl) as [Hne Ht]. apply wp_gets_bind.
  destruct (GetWindow windows t s) as [tw|] eqn:Etw; [|by apply wp_ret].
  destruct Ht as [tw' Htw]; [apply known_GetWindow; by eexists|].
  rewrite (GetWindow_windows _ _ _ Htw) in Etw. injection Etw as <-. cbv zeta.
  destruct (i_windows _ _ (proj1 (proj2 (proj1 Hs))) _ _ Htw) as [Ext _]. rewrite <-Ext in Htw, Hne.
  eapply wp_cut; [by apply new_panel_wp|]. intros p s1 (Hp & Hap1 & Epm1 & Ew1 & r1 & Hr1 & Hc1 & Ht1 & Hgood1 & Hf1).
  eapply wp_cut; [by eapply (look_wp p r1 (fun r' s' => r' = r1 ∧ s' = s1))|]. intros ? ? [-> ->].
  destruct Hgood1 as (Hcx1 & (Hx1 & Hw1 & Hh1) & Hro1 & Hnd1 & Hu1).
  eapply wp_cut; [eapply (call_wp pm others _ p r1 titled); [exact Hr1|]|].
  { apply (SetTitlebarWidth_wp _ _ _ _ (elsewhere pm others p)); [done|apply Hap1]. }
  intros _ s2 [Hok2 Ht2]. destruct (aside_touched p _ s s1 s2 Hap1 Hok2 Ht2) as (Hap2 & Epm2 & Ew2).
  destruct Ht2 as (_ & Hscr2 & _ & _ & r & r2 & Hr & Hr2 & Hsame & Hsz & Hth). assert (r = r1) as -> by congruence.
  destruct (same_windows_xids _ _ Hsame) as (Xc & Xt & Xi).
  apply (register_panel_wp win tw' p r2 s s2); try done; try congruence.
  split; [by rewrite Xc|]. split; [by eapply usable_kept|]. split; [by apply Hsame|]. rewrite Xi. split; [done|]. intros y Hy.
  destruct (Hu1 y Hy). split; [done|by apply Hscr2].
Qed.

Lemma HandleWindowMap_wp x s :
  inv s → known x s →
  (∀ w, GetWindow windows x s = Some w → Window.type_ w = WmIpc.WINDOW_TYPE_CHROME_PANEL_CONTENT → mappable w s) →
  wp (HandleWindowMap pm set_pm windows set_windows container new_panel_address indeterminate_gravity self x)
     (fun _ s' => inv s') s.
Proof.
  intros Hs Hx Hmap. unfold HandleWindowMap.
  eapply wp_cut; [by apply the_window_wp|]. intros w ? [-> Hw]. destruct (is_panel_window w) eqn:Ep; [|by apply wp_ret].
  cbn [negb]. apply wp_gets_bind. cbn [id].
  eapply (wp_cut _ _ (fun _ s1 => inv s1 ∧ known x s1 ∧ (s1 = s ∨ window_step shifted x s s1))).
  { destruct (saw_map_request_ (pm s)); cbn [negb]; [apply wp_ret; auto|]. unfold DoInitialSetupForWindow.
    eapply wp_cut; [apply on_window_wp; [apply MoveClientOffscreen_wp|apply shifted_place|done|done]|].
    intros _ s1 [Hs1 Hst1]. apply wp_ret. split; [done|]. split; [apply Hst1|by right]. }
  intros _ s1 (Hs1 & Hx1 & Hst1). destruct (Z.eqb_spec (Window.type_ w) WmIpc.WINDOW_TYPE_CHROME_PANEL_TITLEBAR) as [|Hnt]; [by apply wp_ret|].
  unfold is_panel_window in Ep. apply orb_true_iff in Ep as [Ep|Ep]; [|by apply Z.eqb_eq in Ep]. apply Z.eqb_eq in Ep.
  destruct (Hmap w Hw Ep) as (Hwx & Harea & Hparams).
  assert (Window.xid_ w = x) as Exw.
  { pose proof Hw as Hw'. unfold GetWindow in Hw'. destruct (windows s !! x) as [w'|] eqn:E; [injection Hw' as ->|].
    - by apply (i_windows _ _ (proj1 (proj2 (proj1 Hs)))) in E as [? _].
    - pose proof (panel_with_spec x s) as Hpw. destruct (panel_with x s) as [[p r]|]; [|done]. injection Hw' as Hw'.
      destruct Hpw as [Hr Hxr]. destruct (i_free _ _ (proj1 (proj2 (proj1 Hs))) p r Hr) as [F1 F2].
      exfalso. unfold Panel.content_xid, Panel.titlebar_xid in *.
      destruct (Z.eqb_spec (Window.xid_ (Panel.content_win_ r)) x) as [Ec|Ec]; subst w; congruence. }
  rewrite Exw in Hwx. eapply wp_cut; [by apply the_window_wp|]. intros w1 ? [-> Hw1].
  apply make_panel_wp; [done|]. destruct Hst1 as [->|(Epm1 & _ & Hst1)].
  { rewrite (GetWindow_windows _ _ _ Hwx) in Hw1. injection Hw1 as <-. split; [by rewrite Exw|]. by split. }
  rewrite Hwx in Hst1. destruct Hst1 as (w' & Ews1 & (px & py & ->) & Eh1).
  assert (windows s1 !! x = Some ((w <| Window.client_x_ := px |>) <| Window.client_y_ := py |>)) as Hw1'
    by (rewrite Ews1; apply lookup_insert_eq).
  rewrite (GetWindow_windows _ _ _ Hw1') in Hw1. injection Hw1 as <-. unfold mappable.
  assert (∀ t, t ≠ x → (known t s1 → known t s) ∧ (is_Some (windows s !! t) → is_Some (windows s1 !! t))) as Ht.
  { intros t Hne. unfold known. rewrite Eh1, Ews1, lookup_insert_ne by done. done. }
  destruct w. cbn in *. subst. split; [done|]. split; [done|]. intros t l Htl. destruct (Hparams t l Htl) as [? Hk].
  split; [done|]. destruct (Ht t) as [T1 T2]; auto.
Qed.

(** *** A panel goes *)

Lemma core_remove p r wc wt s s' :
  core None s → heap s !! p = Some r → heap s' = delete p (heap s) ∨ (∀ q, q ≠ p → heap s' !! q = heap s !! q) ∧ heap s' !! p = None →
  same_screen (world s) (world s') → Window.xid_ wc = Panel.content_xid r → Window.xid_ wt = Panel.titlebar_xid r →
  windows s' = <[Panel.content_xid r := wc]> (<[Panel.titlebar_xid r := wt]> (windows s)) →
  panels_ (pm s') = delete (Panel.content_xid r) (panels_ (pm s)) →
  panels_by_titlebar_xid_ (pm s') = delete (Panel.titlebar_xid r) (panels_by_titlebar_xid_ (pm s)) →
  (∀ x, panel_input_xids_ (pm s') !! x =
        if decide (x ∈ Panel.GetInputWindows r) then None else panel_input_xids_ (pm s) !! x) →
  core None s'.
Proof.
  intros [E1 E2 E3 E4 E5 E6 E7] Hr Hh Hscr Hwc Hwt Hws Hps Hts Hins.
  assert ((∀ q, q ≠ p → heap s' !! q = heap s !! q) ∧ heap s' !! p = None) as [Hothers Hgone].
  { destruct Hh as [->|?]; [|done]. split; [intros q Hq; by rewrite lookup_delete_ne|apply lookup_delete_eq]. }
  assert (∀ q rq, heap s' !! q = Some rq → q ≠ p ∧ heap s !! q = Some rq) as Hcases.
  { intros q rq Hq. destruct (decide (q = p)) as [->|Hq']; [congruence|]. by rewrite <-Hothers. }
  destruct (E2 p r Hr) as ((Hc0 & (Ht0 & _) & _) & (R1 & R2 & R3) & _).
  assert (∀ q rq, q ≠ p → heap s !! q = Some rq →
    Panel.content_xid rq ≠ Panel.content_xid r ∧ Panel.titlebar_xid rq ≠ Panel.content_xid r ∧
    Panel.content_xid rq ≠ Panel.titlebar_xid r ∧ Panel.titlebar_xid rq ≠ Panel.titlebar_xid r ∧
    ∀ x, x ∈ Panel.GetInputWindows rq → x ∉ Panel.GetInputWindows r) as Hapart.
  { intros q rq Hne Hrq. destruct (E2 q rq Hrq) as (_ & (Q1 & Q2 & Q3) & _).
    split; [intros E; rewrite E in Q1; congruence|]. split; [intros E; by apply (E6 p q r rq)|].
    split; [by eapply E6|]. split; [intros E; rewrite E in Q2; congruence|]. intros x Hx Hx'.
    specialize (Q3 x Hx). specialize (R3 x Hx'). congruence. }
  split; rewrite ?Hws, ?Hps, ?Hts.
  - intros x w. rewrite !lookup_insert_Some. intros [[<- <-]|[_ [[<- <-]|[_ Hw]]]]; [done|done|by apply E1].
  - intros q rq [Hq Hrq]%Hcases. destruct (E2 q rq Hrq) as ((?&?&?&?&Hin)&(Q1&Q2&Q3)&Hup).
    destruct (Hapart q rq Hq Hrq) as (?&_&_&?&Hx). split; [|split; [|done]].
    + split; [done|]. split; [done|]. split; [done|]. split; [done|]. intros x Hxq. destruct (Hin x Hxq). split; [done|by apply Hscr].
    + split; [by rewrite Hps, lookup_delete_ne|]. split; [by rewrite Hts, lookup_delete_ne|].
      intros x Hxq. rewrite Hins, decide_False by eauto. auto.
  - intros x q. rewrite lookup_delete_Some. intros [Hx Hq]. destruct (E3 x q Hq) as (rq & Hrq & Hxq). exists rq.
    rewrite Hothers; [done|]. intros ->. congruence.
  - intros x q. rewrite lookup_delete_Some. intros [Hx Hq]. destruct (E4 x q Hq) as (rq & Hrq & Hxq). exists rq.
    rewrite Hothers; [done|]. intros ->. congruence.
  - intros x q. rewrite Hins. case_decide as Hx; [done|]. intros Hq. destruct (E5 x q Hq) as (rq & Hrq & Hxq). exists rq.
    rewrite Hothers; [done|]. intros ->. congruence.
  - intros q1 q2 r1 r2 [_ Hr1]%Hcases [_ Hr2]%Hcases. by eapply E6.
  - intros q rq [Hq Hrq]%Hcases. destruct (Hapart q rq Hq Hrq) as (?&?&?&?&_). destruct (E7 q rq Hrq).
    by split; rewrite !lookup_insert_ne.
Qed.

Lemma unregister_inputs_wp p xs s0 s : aside p s0 s → NoDup xs →
  (∀ x, x ∈ xs → is_Some (panel_input_xids_ (pm s) !! x)) →
  wp (for_each (unregister_panel_input pm set_pm) xs)
     (fun _ s' => aside p s0 s' ∧ windows s' = windows s ∧ heap s' = heap s ∧ world s' = world s ∧
        ∃ inputs, pm s' = (pm s) <| panel_input_xids_ := inputs |> ∧
          ∀ x, inputs !! x = if decide (x ∈ xs) then None else panel_input_xids_ (pm s) !! x) s.
Proof.
  revert s. induction xs as [|x xs IH]; intros s Hap Hnd Hin0; cbn [for_each].
  { apply wp_ret. split; [done|]. split; [done|]. split; [done|]. split; [done|].
    exists (panel_input_xids_ (pm s)). split; [by destruct (pm s)|]. intros x. by rewrite decide_False by apply not_elem_of_nil. }
  apply NoDup_cons in Hnd as [Hx Hnd]. apply wp_bind. unfold unregister_panel_input at 1.
  apply wp_gets_bind. cbn [id]. apply wp_CHECK_bind; [apply bool_decide_eq_true, Hin0; by left|].
  apply wp_modify. set (s1 := set_pm _ s).
  destruct (aside_upd p s0 s (fun m => m <| panel_input_xids_ := delete x (panel_input_xids_ m) |>) Hap)
    as (Hap1 & Epm1 & Ew1 & Eh1 & EW1). fold s1 in Hap1, Epm1, Ew1, Eh1, EW1.
  assert (panel_input_xids_ (pm s1) = delete x (panel_input_xids_ (pm s))) as Ei by (rewrite Epm1; by destruct (pm s)).
  eapply wp_mono; [apply (IH s1 Hap1 Hnd)|].
  - intros y Hy. rewrite Ei, lookup_delete_ne by (by intros ->). apply Hin0. by right.
  - intros _ s2 (Hap2 & Ew2 & Eh2 & EW2 & inputs & Epm2 & Hin). split; [done|].
    split; [congruence|]. split; [congruence|]. split; [congruence|].
    exists inputs. split; [rewrite Epm2, Epm1; by destruct (pm s)|]. intros y. rewrite Hin, Ei.
    destruct (decide (y ∈ xs)) as [Hy|Hy]; [by rewrite decide_True by by right|].
    destruct (decide (y = x)) as [->|Hne]; [rewrite decide_True by (by left); apply lookup_delete_eq|].
    rewrite decide_False by (by intros [->|?]%elem_of_cons). by apply lookup_delete_ne.
Qed.

(** The panel's registers are cleared and it is destroyed. *)
Definition unregister_panel (p : Z) : M S unit :=
  r ← look p;
  for_each (unregister_panel_input pm set_pm) (Panel.GetInputWindows r);;
  m ← get pm id;
  CHECK (bool_decide (is_Some (panels_by_titlebar_xid_ m !! Panel.titlebar_xid r)));;
  upd pm set_pm (fun m => m <| panels_by_titlebar_xid_ := delete (Panel.titlebar_xid r) (panels_by_titlebar_xid_ m) |>);;
  CHECK (bool_decide (is_Some (panels_ m !! Panel.content_xid r)));;
  upd pm set_pm (fun m => m <| panels_ := delete (Panel.content_xid r) (panels_ m) |>);;
  delete_panel pm windows set_windows container p.

Lemma unregister_panel_wp p d s :
  sound None d s → is_Some (heap s !! p) → (∀ c, p ∉ members c s) →
  wp (unregister_panel p)
     (fun _ s' => sound None d s' ∧ containers_by_panel_ (pm s') = containers_by_panel_ (pm s) ∧
        dragged_panel_ (pm s') = dragged_panel_ (pm s) ∧
        dragged_panel_event_coalescer_ (pm s') = dragged_panel_event_coalescer_ (pm s) ∧
        (∀ q, q ≠ p → heap s' !! q = heap s !! q) ∧ heap s' !! p = None) s.
Proof.
  intros Hs [r Hr] Hout. pose proof Hs as (Hf & Hcore & Hb). unfold unregister_panel.
  eapply wp_cut; [by eapply (look_wp p r (fun r' s' => r' = r ∧ s' = s))|]. intros ? ? [-> ->].
  destruct (i_panel _ _ Hcore p r Hr) as ((_&_&_&Hnd&_) & (R1 & R2 & R3) & _).
  assert (aside p s s) as Hap by (split; [reflexivity|]; split; [reflexivity|]; split; [by eapply fine_world|done]).
  eapply wp_cut; [apply (unregister_inputs_wp p _ s s Hap Hnd); intros x Hx; rewrite (R3 x Hx); by eexists|].
  intros _ s1 (Hap1 & Ew1 & Eh1 & EW1 & inputs & Epm1 & Hin1). apply wp_gets_bind. cbn [id].
  apply wp_CHECK_bind; [apply bool_decide_eq_true; rewrite Epm1; exists p; by destruct (pm s)|].
  unfold upd. apply wp_modify_bind. set (s2 := set_pm _ s1).
  destruct (aside_upd p s s1 (fun m => m <| panels_by_titlebar_xid_ := delete (Panel.titlebar_xid r) (panels_by_titlebar_xid_ m) |>) Hap1)
    as (Hap2 & Epm2 & Ew2 & Eh2 & EW2). fold s2 in Hap2, Epm2, Ew2, Eh2, EW2.
  apply wp_CHECK_bind; [apply bool_decide_eq_true; rewrite Epm1; exists p; by destruct (pm s)|].
  apply wp_modify_bind. set (s3 := set_pm _ s2).
  destruct (aside_upd p s s2 (fun m => m <| panels_ := delete (Panel.content_xid r) (panels_ m) |>) Hap2)
    as (Hap3 & Epm3 & Ew3 & Eh3 & EW3). fold s3 in Hap3, Epm3, Ew3, Eh3, EW3.
  assert (heap s3 !! p = Some r) as Hr3 by (by rewrite Eh3, Eh2, Eh1).
  unfold delete_panel.
  eapply wp_cut; [eapply (call_wp pm others _ p r same_xids); [exact Hr3|]|].
  { apply (destroy_safe _ _ _ _ (elsewhere pm others p)). apply Hap3. }
  intros _ s4 [Hok4 Ht4]. destruct (aside_touched p _ s s3 s4 Hap3 Hok4 Ht4) as (Hap4 & Epm4 & Ew4).
  destruct Ht4 as (_ & _ & _ & _ & r' & r4 & Hr' & Hr4 & Hx1 & Hx2). assert (r' = r) as -> by congruence.
  eapply wp_cut; [by eapply (look_wp p r4 (fun r' s' => r' = r4 ∧ s' = s4))|]. intros ? ? [-> ->].
  apply wp_modify. set (s5 := set_windows _ _).
  assert (heap s5 = delete p (heap s4)) as Eh5 by (unfold s5; by rewrite mp_heap_windows, mp_heap_heap).
  assert (world s5 = world s4) as EW5 by (unfold s5; by rewrite mp_world_windows, mp_world_heap).
  assert (pm s5 = pm s4) as Epm5 by (unfold s5; by rewrite mp_pm_windows, mp_pm_heap).
  assert (windows s5 = <[Panel.content_xid r := Panel.content_win_ r4]>
                         (<[Panel.titlebar_xid r := Panel.titlebar_win_ r4]> (windows s))) as Ews5.
  { unfold s5. by rewrite mp_windows_windows, Ew4, Ew3, Ew2, Ew1, Hx1, Hx2. }
  destruct Hap4 as (Ha4 & Hscr4 & _ & Hh4).
  assert (alike s s5) as Ha5.
  { etransitivity; [exact Ha4|]. unfold s5. etransitivity; [apply mp_alike_heap|apply mp_alike_windows]. }
  assert ((∀ q, q ≠ p → heap s5 !! q = heap s !! q) ∧ heap s5 !! p = None) as [Hh5 Hn5].
  { rewrite Eh5. split; [intros q Hq; rewrite lookup_delete_ne by done; by apply Hh4|apply lookup_delete_eq]. }
  assert (containers_by_panel_ (pm s5) = containers_by_panel_ (pm s) ∧ dragged_panel_ (pm s5) = dragged_panel_ (pm s) ∧
          dragged_panel_event_coalescer_ (pm s5) = dragged_panel_event_coalescer_ (pm s) ∧
          panels_ (pm s5) = delete (Panel.content_xid r) (panels_ (pm s)) ∧
          panels_by_titlebar_xid_ (pm s5) = delete (Panel.titlebar_xid r) (panels_by_titlebar_xid_ (pm s)) ∧
          panel_input_xids_ (pm s5) = inputs) as (Ec5 & Ed5 & Eco5 & Ep5 & Et5 & Ei5).
  { rewrite Epm5, Epm4, Epm3, Epm2, Epm1. by destruct (pm s). }
  split; [|by repeat split]. split; [|split; [|by apply (books_alike s)]].
  - apply (fine_kept d s); [done|by rewrite EW5|done|]. intros c q rq Hq Hrq. exists rq.
    rewrite Hh5; [by split; [|reflexivity]|]. intros ->. by apply (Hout c).
  - eapply (core_remove p r _ _ s s5); try done; [by right|by rewrite EW5|by rewrite Ei5].
Qed.

(** A window that belongs to a panel belongs to one on the heap. *)
Lemma GetPanelByWindow_heap new x p s : core new s → GetPanelByWindow x (pm s) = Some p →
  ∃ r, heap s !! p = Some r ∧ (Panel.content_xid r = x ∨ Panel.titlebar_xid r = x).
Proof.
  intros Hc. unfold GetPanelByWindow. destruct (panels_ (pm s) !! x) as [q|] eqn:E.
  - intros [= <-]. destruct (i_panels _ _ Hc x q E) as (r & ? & ?). eauto.
  - intros Ht. destruct (i_titlebars _ _ Hc x p Ht) as (r & ? & ?). eauto.
Qed.

(** The window of a panel that is dragged goes away only when its last position
    has been used. *)
Lemma HandleWindowUnmap_wp x s :
  inv s →
  (∀ p, GetPanelByWindow x (pm s) = Some p → dragged_panel_ (pm s) = Some p →
        MotionEventCoalescer.have_queued_position_ (coalescer pm s) = false) →
  wp (HandleWindowUnmap sm pm set_pm windows set_windows container wm_TakeFocus panel_bar_TakeFocus x)
     (fun _ s' => inv s') s.
Proof.
  intros Hs Hq. unfold HandleWindowUnmap. apply wp_gets_bind.
  destruct (GetPanelByWindow x (pm s)) as [p|] eqn:Ep; [|by apply wp_ret]. specialize (Hq p eq_refl).
  pose proof Hs as (Hsound & Hdok & Hheld). destruct (GetPanelByWindow_heap _ x p s (proj1 (proj2 Hsound)) Ep) as (r & Hr & _).
  apply wp_gets_bind.
  eapply (wp_cut _ _ (fun _ s1 => sound None (dragged_panel_ (pm s)) s1 ∧ turns p s s1 ∧ containers_by_panel_ (pm s1) !! p = None)).
  { unfold GetContainerForPanel. destruct (containers_by_panel_ (pm s) !! p) as [c|] eqn:Hc; [|by apply wp_ret].
    eapply wp_mono; [by apply RemovePanelFromContainer_wp|]. by intros _ s1 (?&?&?&_). }
  intros _ s1 (Hs1 & Ht1 & Hn1). destruct (turns_spins p s s1 Ht1) as [(Hst1 & Ho1 & Ed1 & _) Eco1].
  assert (drag_ok s1) as Hdok1.
  { destruct Hdok as (D1 & D2 & D3). unfold coalescer in Eco1. unfold drag_ok. rewrite Ed1, Eco1. split; [|done].
    intros q Hq'. destruct (D1 q Hq') as [rq Hrq]. destruct Hst1 as (_ & Hl & _). destruct (Hl q rq Hrq) as (r' & ? & _). by eexists. }
  apply wp_gets_bind. cbn [id].
  eapply (wp_cut _ _ (fun _ s2 => sound None (dragged_panel_ (pm s2)) s2 ∧ stirs s s2 ∧ drag_ok s2 ∧
     dragged_panel_ (pm s2) ≠ Some p ∧ containers_by_panel_ (pm s2) = containers_by_panel_ (pm s1) ∧
     (∀ q, q ≠ p → dragged_panel_ (pm s) = Some q → dragged_panel_ (pm s2) = Some q))).
  { case_bool_decide as Hd.
    - rewrite Ed1 in Hd. specialize (Hq Hd).
      eapply wp_mono; [apply (HandlePanelDragComplete_wp p true s1)|].
      + by rewrite <-Hd.
      + by rewrite Ed1.
      + done.
      + unfold drag_sane. rewrite Eco1. congruence.
      + by rewrite Eco1.
      + intros _ s2 [F1 F2 F3 F4 F5 F6]. rewrite F4. split; [done|]. split; [by etransitivity|].
        split; [done|]. split; [done|]. split; [done|]. congruence.
    - apply wp_ret. rewrite Ed1. rewrite Ed1 in Hd. by split. }
  intros _ s2 (Hs2 & Hst2 & Hdok2 & Hdn2 & Ec2 & Hdq2).
  assert (is_Some (heap s2 !! p)) as [r2 Hr2].
  { destruct Hst2 as (_ & Hl & _). destruct (Hl p r Hr) as (r' & ? & _). by eexists. }
  eapply wp_cut; [by eapply (look_wp p r2 (fun r' s' => r' = r2 ∧ s' = s2))|]. intros ? ? [-> ->].
  eapply (wp_cut _ _ (fun _ s3 => sound None (dragged_panel_ (pm s2)) s3 ∧ during s2 s3)).
  { destruct (Window.focused_ _); [|by apply wp_ret]. eapply wp_cut; [apply on_bar_focus, Hs2|].
    intros taken s3 [Hf3 Hset3]. assert (sound None (dragged_panel_ (pm s2)) s3) as Hs3 by by eapply sound_settled.
    destruct taken; [apply wp_ret; split; [done|apply Hset3]|].
    eapply wp_mono; [apply on_wm_focus, Hs3|]. intros _ s4 [Hf4 Hset4]. split; [by eapply sound_settled|].
    etransitivity; [apply Hset3|apply Hset4]. }
  intros _ s3 [Hs3 Hd3]. pose proof Hd3 as (_ & Hl3 & Edom3 & Epm3 & _).
  eapply wp_mono; [apply (unregister_panel_wp p (dragged_panel_ (pm s2)) s3 Hs3)|].
  - destruct (Hl3 p r2 Hr2) as (r3 & ? & _). by eexists.
  - intros c Hin. destruct Hs3 as (_ & _ & Hb3). apply Hb3 in Hin. rewrite Epm3, Ec2 in Hin. congruence.
  - intros _ s4 (Hs4 & Ec4 & Ed4 & Eco4 & Hh4 & Hn4). rewrite Epm3 in Ec4, Ed4, Eco4.
    assert (∀ q, is_Some (heap s4 !! q) → q ≠ p ∧ is_Some (heap s !! q)) as Hback.
    { intros q Hq'. assert (q ≠ p) as Hne by (intros ->; rewrite Hn4 in Hq'; by destruct Hq'). split; [done|].
      rewrite Hh4 in Hq' by done. destruct Hst2 as (_&_&Edom2&_).
      rewrite <-elem_of_dom, Edom3, Edom2, elem_of_dom in Hq'. done. }
    split; [by rewrite Ed4|]. split.
    + unfold drag_ok. rewrite Ed4, Eco4. destruct Hdok2 as (D1 & D2). split; [|done]. intros q Hq'.
      assert (q ≠ p) by congruence. rewrite Hh4 by done. destruct (D1 q Hq') as [rq Hrq].
      destruct (Hl3 q rq Hrq) as (r3 & ? & _). by eexists.
    + intros q Hq'. destruct (Hback q Hq') as [Hne Hqs]. rewrite Ed4, Ec4, Ec2, Ho1 by done.
      destruct (Hheld q Hqs) as [?|Hd]; [by left|right]. by apply Hdq2.
Qed.

(** ** The other events *)

Lemma GetPanelByXid_heap x p s : inv s → GetPanelByXid pm windows x s = Some p → is_Some (heap s !! p).
Proof.
  intros Hs. unfold GetPanelByXid. destruct (GetWindow windows x s); [|done]. intros Hp.
  destruct (GetPanelByWindow_heap _ x p s (proj1 (proj2 (proj1 Hs))) Hp) as (r & Hr & _). by eexists.
Qed.
Lemma to_panel_container_safe x (f : Z → Container.t S → M S unit) :
  (∀ p c, keeps_with c p (f p (container c))) →
  framed inv during (panel ← gets (GetPanelByXid pm windows x);
                     match panel with Some p => to_container pm container p (f p) | None => mret () end).
Proof.
  intros Hf. apply framed_bind; [apply _|apply framed_gets, _|intros [p|]; [|apply framed_ret, _]].
  apply to_container_safe, Hf.
Qed.
Lemma input_panel x p s : inv s → panel_input_xids_ (pm s) !! x = Some p → is_Some (heap s !! p) ∧ x ≠ 0.
Proof.
  intros Hs Hx. pose proof (proj1 (proj2 (proj1 Hs))) as Hc. destruct (i_inputs _ _ Hc x p Hx) as (r & Hr & Hin).
  split; [by eexists|]. destruct (i_panel _ _ Hc p r Hr) as ((_&_&_&_&Hu)&_). by apply Hu.
Qed.
(** A handler of the panel itself. *)
Lemma panel_handler {A} (op : (S → Panel.t) → (Panel.t → S → S) → (S → W) → (W → S → S) → M S A) p s :
  inv s → is_Some (heap s !! p) → framed (inv_with p) during (op (panel_at p) (set_at p) world set_world) →
  wp (call op p) (fun _ s' => inv s' ∧ during s s') s.
Proof. intros Hs Hp Hop. apply call_with; [done..|]. by apply Hop. Qed.

Lemma HandleWindowConfigureRequest_safe x w h s : 0 < w → 0 < h → inv s →
  wp (HandleWindowConfigureRequest pm container x w h) (fun _ s' => inv s' ∧ during s s') s.
Proof.
  intros Hw Hh Hs. unfold HandleWindowConfigureRequest. apply wp_gets_bind.
  destruct (GetPanelByWindow x (pm s)) as [p|] eqn:Ep; [|by apply wp_ret].
  destruct (GetPanelByWindow_heap _ x p s (proj1 (proj2 (proj1 Hs))) Ep) as (r & Hr & _).
  apply panel_handler; [done|by eexists|].
  apply (safe_HandleWindowConfigureRequest _ _ _ _ (elsewhere pm others p) (inv_with p) during);
    [apply (panel_inv_ok p)|apply (panel_inv_moves p)|apply HandlePanelResize_with|done|done].
Qed.

(** *** The pointer *)

(** The button is not down already. *)
Definition press_ok (x button : Z) (s : S) : Prop :=
  match container_input_xids_ (pm s) !! x with
  | Some c => presses c x s
  | None => ∀ p r, panel_input_xids_ (pm s) !! x = Some p → heap s !! p = Some r → button = 1 → Panel.drag_xid_ r = 0
  end.
Lemma HandleButtonPress_wp x px py rx ry button t s : inv s → press_ok x button s →
  wp (HandleButtonPress sm pm windows container x px py rx ry button t) (fun _ s' => inv s' ∧ during s s') s.
Proof.
  intros Hs Hok. unfold HandleButtonPress. apply wp_gets_bind. cbn [id]. unfold press_ok in Hok.
  destruct (container_input_xids_ (pm s) !! x) as [c|].
  { eapply wp_mono; [apply on_input_press; [done|apply Hs]|]. intros _ s' [Hf Hset].
    split; [by apply (inv_settled s)|apply Hset]. }
  destruct (panel_input_xids_ (pm s) !! x) as [p|] eqn:Ep.
  - destruct (input_panel x p s Hs Ep) as [[r Hr] Hx]. apply call_with; [done|by eexists|].
    assert (inv_with p s) as Hsp by (split; [done|by eexists]).
    apply (panel_ButtonPress_safe sm _ _ _ _ (elsewhere pm others p) (inv_with p) during); try done.
    + apply (panel_inv_ok p).
    + apply (panel_inv_moves p).
    + unfold panel_at. rewrite Hr. destruct (i_panel _ _ (proj1 (proj2 (proj1 Hs))) p r Hr) as ((_ & (_ & ?) & _) & _). done.
    + unfold panel_at. rewrite Hr. intros Hb. by apply (Hok p r).
  - exact (to_panel_container_safe x (fun p c => Container.HandlePanelButtonPress c p button t)
             (fun p c => on_press c p button t) s Hs).
Qed.
Lemma HandleButtonRelease_wp x px py rx ry button t s : inv s →
  wp (HandleButtonRelease pm container x px py rx ry button t) (fun _ s' => inv s' ∧ during s s') s.
Proof.
  intros Hs. unfold HandleButtonRelease. apply wp_gets_bind. cbn [id].
  destruct (container_input_xids_ (pm s) !! x) as [c|]; [by apply container_keeps; [apply on_input_release|]|].
  destruct (panel_input_xids_ (pm s) !! x) as [p|] eqn:Ep; [|by apply wp_ret].
  destruct (input_panel x p s Hs Ep) as [Hp Hx]. apply panel_handler; [done..|].
  apply (panel_ButtonRelease_safe _ _ _ _ (elsewhere pm others p) (inv_with p) during);
    [apply (panel_inv_ok p)|apply (panel_inv_moves p)|apply HandlePanelResize_with|done].
Qed.
Lemma HandlePointerEnter_wp x px py rx ry t s : inv s →
  wp (HandlePointerEnter pm windows container x px py rx ry t) (fun _ s' => inv s' ∧ during s s') s.
Proof.
  intros Hs. unfold HandlePointerEnter. apply wp_gets_bind. cbn [id].
  destruct (container_input_xids_ (pm s) !! x) as [c|]; [by apply container_keeps; [apply on_input_enter|]|].
  apply wp_gets_bind. destruct (GetPanelByXid pm windows x s) as [p|] eqn:Ep; [|by apply wp_ret].
  destruct (GetPanelByXid_heap x p s Hs Ep) as [r Hr]. apply wp_gets_bind.
  destruct (GetContainerForPanel p (pm s)) as [c|] eqn:Ec; [|by apply wp_ret].
  eapply wp_cut; [by eapply (look_wp p r (fun r' s' => r' = r ∧ s' = s))|]. intros ? ? [-> ->].
  destruct (x =? _); [|by apply wp_ret].
  eapply wp_mono; [apply on_titlebar_enter; [apply Hs|by apply in_container]|]. intros _ s' [Hf Hset].
  split; [by apply (inv_settled s)|apply Hset].
Qed.
Lemma HandlePointerLeave_wp x px py rx ry t s : inv s →
  wp (HandlePointerLeave pm container x px py rx ry t) (fun _ s' => inv s' ∧ during s s') s.
Proof.
  intros Hs. unfold HandlePointerLeave. apply wp_gets_bind. cbn [id].
  destruct (container_input_xids_ (pm s) !! x) as [c|]; [by apply container_keeps; [apply on_input_leave|]|by apply wp_ret].
Qed.
Lemma HandlePointerMotion_wp x px py s : inv s →
  wp (HandlePointerMotion pm container x px py) (fun _ s' => inv s' ∧ during s s') s.
Proof.
  intros Hs. unfold HandlePointerMotion. apply wp_gets_bind. cbn [id].
  destruct (panel_input_xids_ (pm s) !! x) as [p|] eqn:Ep; [|by apply wp_ret].
  destruct (input_panel x p s Hs Ep) as [Hp _]. apply panel_handler; [done..|].
  apply (safe_HandleInputWindowPointerMotion _ _ _ _ (elsewhere pm others p) (inv_with p) during);
    [apply (panel_inv_ok p)|apply (panel_inv_moves p)|apply HandlePanelResize_with].
Qed.

(** *** Clients, focus, properties, the screen *)

Lemma HandleClientMessage_safe x type : framed inv during (HandleClientMessage pm windows container x type).
Proof.
  unfold HandleClientMessage. destruct (_ =? _) eqn:E.
  - exact (to_panel_container_safe x (fun p c => Container.HandleFocusPanelMessage c p) (fun p c => on_focus_message c p)).
  - apply framed_bind; [apply _|apply framed_gets, _|intros [p|]; apply framed_ret, _].
Qed.
Lemma HandleFocusChange_safe x b : framed inv during (HandleFocusChange pm windows container x b).
Proof. exact (to_panel_container_safe x (fun p c => Container.HandlePanelFocusChange c p b) (fun p c => on_focus c p b)). Qed.
Lemma HandleWindowPropertyChange_wp x a s : inv s →
  is_Some (GetPanelByXid pm windows x s) → a = wm_atom ATOM_WM_HINTS →
  wp (HandleWindowPropertyChange pm windows container x a) (fun _ s' => inv s' ∧ during s s') s.
Proof.
  intros Hs [p Hp] ->. unfold HandleWindowPropertyChange. apply wp_gets_bind. rewrite Hp.
  apply DCHECK_true; [done|]. apply DCHECK_true; [by apply Z.eqb_refl|]. by apply to_container_safe; [intros; apply on_urgency|].
Qed.
Variable left_panel_dock right_panel_dock : S → PanelDock.t.
Lemma UpdateAvailableArea_safe :
  framed inv during (UpdateAvailableArea left_panel_dock right_panel_dock wm_HandleLayoutManagerAreaChange).
Proof.
  unfold UpdateAvailableArea. do 4 (apply framed_bind; [apply _|apply framed_gets, _|intros ?]).
  destruct (PanelDock.IsVisible _); cbv zeta; apply container_keeps, on_area.
Qed.
Lemma HandleScreenResize_safe :
  framed inv during (HandleScreenResize pm container left_panel_dock right_panel_dock wm_HandleLayoutManagerAreaChange).
Proof.
  unfold HandleScreenResize. apply framed_bind; [apply _|apply framed_gets, _|intros m].
  apply framed_bind; [apply _| |intros _; apply UpdateAvailableArea_safe].
  apply framed_for_each; [apply _|]. intros c. apply container_keeps, on_screen.
Qed.
Lemma tick_wp t s : inv s → tick_due t s → wp (tick t) (fun _ s' => inv s' ∧ during s s') s.
Proof.
  intros Hs Ht. eapply wp_mono; [apply on_tick; [done|apply Hs]|]. intros _ s' [Hf Hset].
  split; [by apply (inv_settled s)|apply Hset].
Qed.

(** *** Messages from Chrome *)

Variable wm_ipc_version : S → Z.
Definition params_ok (msg : WmIpc.Message.t) : Prop := 3 ≤ WmIpc.Message.max_params msg.
Lemma param_wp i msg Q s : params_ok msg → 0 ≤ i < 3 → (∀ z, Q z s) → wp (lift (WmIpc.Message.param i msg) : M S Z) Q s.
Proof.
  intros Hn Hi HQ. unfold WmIpc.Message.param, params_ok in *.
  destruct (Z.leb_spec 0 i); [|lia]. destruct (Z.ltb_spec i (WmIpc.Message.max_params msg)); [|lia]. apply HQ.
Qed.
Lemma param_bind {B} i msg (k : Z → M S B) Q s : params_ok msg → 0 ≤ i < 3 → (∀ z, wp (k z) Q s) →
  wp (lift (WmIpc.Message.param i msg) ≫= k) Q s.
Proof. intros Hn Hi Hk. by apply wp_bind, param_wp. Qed.

Lemma inv_sound s d : inv s → dragged_panel_ (pm s) = None ∨ dragged_panel_ (pm s) = d → sound None d s.
Proof. intros (Hs & _) [Hd|Hd]; rewrite Hd in Hs; [by apply sound_weaken|done]. Qed.

(** The coalescer is used while a panel is being dragged. *)
Definition drags (p : Z) (s : S) : Prop := inv s ∧ dragged_panel_ (pm s) = Some p.
Lemma drags_coalescer p s c :
  drags p s → MotionEventCoalescer.synchronous_ c = false → drags p (set_coalescer pm set_pm c s).
Proof.
  intros [(Hs & (D1 & D2 & D3) & Hh) Hd] Hc. unfold drags, inv, drag_ok, held.
  destruct (coalescer_moves None (dragged_panel_ (pm s)) p c s Hs) as (Hs' & (_ & Ho & Ed & _) & Ec & Eh & Eb).
  { by rewrite Hc. }
  rewrite Ed, Eh, Eb. split; [|done]. split; [done|]. unfold coalescer in Ec. rewrite Ec. split; [|done].
  split; [done|]. split; [done|]. by rewrite Hd.
Qed.
Lemma drags_sync p s : drags p s → MotionEventCoalescer.synchronous_ (coalescer pm s) = false.
Proof. intros [(_ & (_ & ? & _) & _) _]. done. Qed.
Lemma drag_start_wp p s : drags p s →
  wp (MotionEventCoalescer.Start (coalescer pm) (set_coalescer pm set_pm) timeout_add) (fun _ s' => drags p s') s.
Proof.
  intros Hs. unfold MotionEventCoalescer.Start. apply wp_gets_bind. destruct (negb (_ =? 0)); [by apply wp_ret|].
  rewrite (drags_sync p s Hs). cbn [negb].
  eapply (wp_cut _ _ (fun _ s1 => drags p s1)).
  { unfold timeout_add.
    eapply (wp_cut _ _ (fun _ s1 => drags p s1)).
    { assert (framed (at_rest (pm s)) keep (on_world (extern (g_timeout_add
        (MotionEventCoalescer.timeout_ms_ (coalescer pm s)))))) as Hsafe.
      { eapply heap_on_world; try apply _. apply quiet_timeout_add. }
      eapply wp_mono; [apply (Hsafe s); split; [apply Hs|done]|]. intros id s1 [[Hs1 E1] _]. split; [done|].
      rewrite E1. apply Hs. }
    intros id s1 Hs1. apply wp_modify, drags_coalescer; [done|]. pose proof (drags_sync p s1 Hs1). by destruct (coalescer pm s1). }
  intros _ s1 Hs1. apply wp_modify, drags_coalescer; [done|]. pose proof (drags_sync p s1 Hs1). by destruct (coalescer pm s1).
Qed.
Lemma drag_store_wp p px py s : drags p s →
  wp (MotionEventCoalescer.StorePosition (coalescer pm) (set_coalescer pm set_pm)
        (HandlePeriodicPanelDragMotion sm pm set_pm container) px py) (fun _ s' => drags p s') s.
Proof.
  intros Hs. unfold MotionEventCoalescer.StorePosition. apply wp_gets_bind. destruct (_ && _); [by apply wp_ret|].
  apply wp_modify_bind. rewrite (drags_sync p s Hs). apply wp_ret, drags_coalescer; [done|].
  pose proof (drags_sync p s Hs). by destruct (coalescer pm s).
Qed.

(** The dragged panel changes: the one before is dropped. *)
Lemma drag_begin_wp p s : inv s → is_Some (heap s !! p) → drag_sane s →
  wp (match dragged_panel_ (pm s) with
      | Some d => if decide (p = d) then mret () else HandlePanelDragComplete sm pm set_pm container d false
      | None => mret ()
      end;; upd pm set_pm (fun m => m <| dragged_panel_ := Some p |>)) (fun _ s' => drags p s') s.
Proof.
  intros Hs [r Hr] Hsane.
  eapply (wp_cut _ _ (fun _ s1 => inv s1 ∧ is_Some (heap s1 !! p) ∧
    (dragged_panel_ (pm s1) = None ∨ dragged_panel_ (pm s1) = Some p))).
  { destruct (dragged_panel_ (pm s)) as [d|] eqn:Ed; [|apply wp_ret; rewrite Ed; eauto].
    destruct (decide (p = d)) as [->|Hne]; [apply wp_ret; rewrite Ed; eauto|].
    eapply wp_mono; [apply (HandlePanelDragComplete_wp d false s); try done; [rewrite <-Ed; apply Hs|apply Hs]|].
    intros [] s1 He. split; [by apply (ended_inv d s)|]. split; [|left; apply He].
    destruct (e_stirs _ _ _ _ He) as (_ & Hl & _). destruct (Hl p r Hr) as (r' & ? & _). by eexists. }
  intros _ s1 (Hs1 & Hp1 & Hd1). apply wp_modify. unfold drags, inv, drag_ok, held. rewrite mp_pm_pm, mp_heap_pm.
  assert (sound None (Some p) s1) as Hso by by apply inv_sound.
  destruct Hs1 as (_ & (D1 & D2 & D3) & Hh). destruct (pm s1) eqn:Em. cbn in *. split; [|done].
  split; [apply sound_set_pm; by rewrite ?Em|]. split; [split; [by intros q [= <-]|done]|].
  intros q Hq. destruct (Hh q Hq) as [?|Hd]; [rewrite Em in *; auto|]. rewrite Em in Hd. cbn in Hd. destruct Hd1; [congruence|]. by right; congruence.
Qed.

(** A drag is ended by the panel that is dragged. *)
Definition message_ok (msg : WmIpc.Message.t) (s : S) : Prop :=
  params_ok msg ∧
  (WmIpc.Message.type_ msg = WmIpc.Message.WM_NOTIFY_PANEL_DRAGGED → drag_sane s) ∧
  (WmIpc.Message.type_ msg = WmIpc.Message.WM_NOTIFY_PANEL_DRAG_COMPLETE → drag_sane s ∧
     ∀ x p, WmIpc.Message.param 0 msg = Val x → GetPanelByXid pm windows x s = Some p →
            dragged_panel_ (pm s) = Some p ∨ dchecks = false).
Lemma HandleChromeMessage_wp msg s : inv s → message_ok msg s →
  wp (HandleChromeMessage sm pm set_pm windows container wm_ipc_version msg) (fun _ s' => inv s') s.
Proof.
  intros Hs (Hn & Hdrag & Hcomplete). unfold HandleChromeMessage.
  destruct (Z.eqb_spec (WmIpc.Message.type_ msg) WmIpc.Message.WM_SET_PANEL_STATE) as [|_].
  { apply param_bind; [done|lia|]. intros x. apply wp_gets_bind.
    destruct (GetPanelByXid pm windows x s) as [p|] eqn:Ep; [|by apply wp_ret]. apply wp_gets_bind.
    destruct (GetContainerForPanel p (pm s)) as [c|] eqn:Ec; [|by apply wp_ret]. apply param_bind; [done|lia|]. intros expand.
    eapply wp_mono; [apply on_state; [apply Hs|by apply in_container]|]. intros _ s' [Hf Hset]. by apply (inv_settled s). }
  destruct (Z.eqb_spec (WmIpc.Message.type_ msg) WmIpc.Message.WM_NOTIFY_PANEL_DRAGGED) as [Ety|_].
  { apply param_bind; [done|lia|]. intros x. apply wp_gets_bind.
    destruct (GetPanelByXid pm windows x s) as [p|] eqn:Ep; [|by apply wp_ret].
    apply wp_gets_bind. cbn [id].
    pose proof (drag_begin_wp p s Hs (GetPanelByXid_heap x p s Hs Ep) (Hdrag Ety)) as Hbegin.
    apply wp_bind. apply wp_bind_inv in Hbegin. eapply wp_mono; [exact Hbegin|]. intros [] s0 Hs0. apply wp_bind.
    eapply wp_mono; [exact Hs0|]. clear Hs0. intros [] s1 Hs1. apply wp_gets_bind. cbn [id].
    eapply (wp_cut _ _ (fun _ s2 => drags p s2)).
    { destruct (MotionEventCoalescer.IsRunning _); [by apply wp_ret|]. by apply drag_start_wp. }
    intros [] s2 Hs2. apply wp_gets_bind. apply param_bind; [done|lia|]. intros left.
    eapply (wp_cut _ _ (fun _ s3 => s3 = s2)).
    { destruct (1 <=? _); [by apply wp_ret|]. destruct Hs2 as [(_ & (D1 & _) & _) Hd2]. destruct (D1 p Hd2) as [r2 Hr2].
      eapply wp_cut; [by eapply (look_wp p r2 (fun r' s' => s' = s2))|]. by intros ? ? ->. }
    intros drag_x ? ->. apply param_bind; [done|lia|]. intros drag_y.
    eapply wp_mono; [by apply (drag_store_wp p)|]. by intros _ s3 [? _]. }
  destruct (Z.eqb_spec (WmIpc.Message.type_ msg) WmIpc.Message.WM_NOTIFY_PANEL_DRAG_COMPLETE) as [Ety|_]; [|by apply wp_ret].
  destruct (Hcomplete Ety) as [Hsane Hp].
  assert (∃ x, WmIpc.Message.param 0 msg = Val x) as [x Hx].
  { unfold WmIpc.Message.param, params_ok in *. cbn. destruct (Z.ltb_spec 0 (WmIpc.Message.max_params msg)); [by eexists|lia]. }
  rewrite Hx. apply wp_ret_bind, wp_gets_bind.
  destruct (GetPanelByXid pm windows x s) as [p|] eqn:Ep; [|by apply wp_ret].
  destruct (decide (dragged_panel_ (pm s) = Some p)) as [Hd|Hd].
  - eapply wp_mono; [apply (HandlePanelDragComplete_wp p false s); try done; [rewrite <-Hd; apply Hs|apply Hs]|].
    intros [] s' He. by apply (ended_inv p s).
  - destruct (Hp x p Hx Ep) as [|Hb]; [done|]. unfold HandlePanelDragComplete. apply wp_gets_bind. cbn [id].
    unfold DCHECK. rewrite Hb. apply wp_ret_bind. rewrite bool_decide_false by done. by apply wp_ret.
Qed.

(** ** Events *)

(** The rest of the window manager works on windows that are in no panel. *)
Record outside (s s' : S) : Prop := {
  o_pm : pm s' = pm s;
  o_heap : heap s' = heap s;
  o_alike : alike s s';
  o_world : wm_ok (world s');
  o_used x : wm_used x (world s) → wm_used x (world s');
  o_windows x w : windows s' !! x = Some w → Window.xid_ w = x ∧ x ≠ 0;
  o_free p r : heap s !! p = Some r →
    windows s' !! Panel.content_xid r = None ∧ windows s' !! Panel.titlebar_xid r = None
}.
Lemma outside_inv s s' : inv s → outside s s' → inv s'.
Proof.
  intros ((Hf & [E1 E2 E3 E4 E5 E6 E7] & Hb) & Hd & Hh) [Epm Eh Ha Hok Hu Hw Hfree].
  unfold inv, drag_ok, held. rewrite Epm, Eh. split; [|done].
  split; [apply (fine_stirs _ s); [done|done|done|by apply heap_kept_lives, heap_kept_same]|].
  split; [|by apply (books_alike s); [|rewrite Epm|]]. split; rewrite ?Epm, ?Eh; try done.
  intros p r Hr. destruct (E2 p r Hr) as ((?&?&?&?&Hin)&?&?). split; [|done]. split; [done|]. split; [done|].
  split; [done|]. split; [done|]. intros y Hy. destruct (Hin y Hy). auto.
Qed.

Inductive Event :=
| WindowMapRequest (xid : Z)
| WindowMap (xid : Z)
| WindowUnmap (xid : Z)
| WindowConfigureRequest (xid width height : Z)
| ButtonPress (xid px py rx ry button timestamp : Z)
| ButtonRelease (xid px py rx ry button timestamp : Z)
| PointerEnter (xid px py rx ry timestamp : Z)
| PointerLeave (xid px py rx ry timestamp : Z)
| PointerMotion (xid px py : Z)
| ChromeMessage (msg : WmIpc.Message.t)
| ClientMessage (xid type : Z)
| FocusChange (xid : Z) (focus_in : bool)
| PropertyChange (xid xatom : Z)
| ScreenResize
| DragTimer
| PanelTimer (p : Z)
| ContainerTimer (t : Tick).

Definition handle (e : Event) : M S unit :=
  match e with
  | WindowMapRequest x => HandleWindowMapRequest pm set_pm windows set_windows x;; mret ()
  | WindowMap x => HandleWindowMap pm set_pm windows set_windows container new_panel_address indeterminate_gravity self x
  | WindowUnmap x => HandleWindowUnmap sm pm set_pm windows set_windows container wm_TakeFocus panel_bar_TakeFocus x
  | WindowConfigureRequest x w h => HandleWindowConfigureRequest pm container x w h
  | ButtonPress x px py rx ry b t => HandleButtonPress sm pm windows container x px py rx ry b t
  | ButtonRelease x px py rx ry b t => HandleButtonRelease pm container x px py rx ry b t
  | PointerEnter x px py rx ry t => HandlePointerEnter pm windows container x px py rx ry t
  | PointerLeave x px py rx ry t => HandlePointerLeave pm container x px py rx ry t
  | PointerMotion x px py => HandlePointerMotion pm container x px py
  | ChromeMessage msg => HandleChromeMessage sm pm set_pm windows container wm_ipc_version msg
  | ClientMessage x ty => HandleClientMessage pm windows container x ty
  | FocusChange x b => HandleFocusChange pm windows container x b
  | PropertyChange x a => HandleWindowPropertyChange pm windows container x a
  | ScreenResize => HandleScreenResize pm container left_panel_dock right_panel_dock wm_HandleLayoutManagerAreaChange
  | DragTimer => HandleDragTimer sm pm set_pm container
  | PanelTimer p =>
      call (fun f sf w sw => MotionEventCoalescer.HandleTimer (Panel.coalescer f) (Panel.set_coalescer f sf)
                               (Panel.ApplyResize f sf w sw (HandlePanelResize pm container p))) p;; mret ()
  | ContainerTimer t => tick t
  end.

(** What the X server, Chrome and the timers may send in a state. *)
Definition legal (e : Event) (s : S) : Prop :=
  match e with
  | WindowMapRequest x => known x s
  | WindowMap x => known x s ∧
      ∀ w, GetWindow windows x s = Some w → Window.type_ w = WmIpc.WINDOW_TYPE_CHROME_PANEL_CONTENT → mappable w s
  | WindowUnmap x => ∀ p, GetPanelByWindow x (pm s) = Some p → dragged_panel_ (pm s) = Some p →
      MotionEventCoalescer.have_queued_position_ (coalescer pm s) = false
  | WindowConfigureRequest x w h => 0 < w ∧ 0 < h
  | ButtonPress x _ _ _ _ b _ => press_ok x b s
  | ChromeMessage msg => message_ok msg s
  | PropertyChange x a => is_Some (GetPanelByXid pm windows x s) ∧ a = wm_atom ATOM_WM_HINTS
  | DragTimer => MotionEventCoalescer.IsRunning (coalescer pm s) = true ∧ drag_sane s
  | PanelTimer p => is_Some (heap s !! p)
  | ContainerTimer t => tick_due t s
  | _ => True
  end.

Lemma keeps_inv (m : M S unit) (R : S → S → Prop) s :
  wp m (fun _ s' => inv s' ∧ R s s') s → wp m (fun _ s' => inv s') s.
Proof. intros Hm. eapply wp_mono; [exact Hm|]. by intros _ s' [? _]. Qed.

Lemma handle_keeps e s : inv s → legal e s → wp (handle e) (fun _ s' => inv s') s.
Proof.
  intros Hs Hl. destruct e; cbn [handle legal] in *.
  - eapply wp_cut; [by apply HandleWindowMapRequest_wp|]. intros ? s' Hs'. by apply wp_ret.
  - destruct Hl. by apply HandleWindowMap_wp.
  - by apply HandleWindowUnmap_wp.
  - destruct Hl. eapply keeps_inv. by apply HandleWindowConfigureRequest_safe.
  - eapply keeps_inv. by apply HandleButtonPress_wp.
  - eapply keeps_inv. by apply HandleButtonRelease_wp.
  - eapply keeps_inv. by apply HandlePointerEnter_wp.
  - eapply keeps_inv. by apply HandlePointerLeave_wp.
  - eapply keeps_inv. by apply HandlePointerMotion_wp.
  - by apply HandleChromeMessage_wp.
  - eapply keeps_inv. by apply HandleClientMessage_safe.
  - eapply keeps_inv. by apply HandleFocusChange_safe.
  - destruct Hl. eapply keeps_inv. by apply HandleWindowPropertyChange_wp.
  - eapply keeps_inv. by apply HandleScreenResize_safe.
  - destruct Hl. eapply keeps_inv. by apply HandleDragTimer_wp.
  - eapply wp_cut; [apply panel_handler; [done|done|]|].
    + apply (safe_panel_HandleTimer _ _ _ _ (elsewhere pm others p) (inv_with p) during);
        [apply (panel_inv_ok p)|apply (panel_inv_moves p)|apply HandlePanelResize_with].
    + intros _ s' [Hs' _]. by apply wp_ret.
  - eapply keeps_inv. by apply tick_wp.
Qed.

(** Runs of the program: events, and what happens outside. *)
Inductive reaches : S → S → Prop :=
| reaches_refl s : reaches s s
| reaches_event s s1 e s2 : reaches s s1 → legal e s1 → handle e s1 = Val ((), s2) → reaches s s2
| reaches_outside s s1 s2 : reaches s s1 → outside s1 s2 → reaches s s2.

Lemma reaches_inv s s' : inv s → reaches s s' → inv s'.
Proof.
  intros Hs. induction 1 as [|s s1 e s2 _ IH Hl He|s s1 s2 _ IH Ho]; [done| |].
  - pose proof (handle_keeps e s1 (IH Hs) Hl) as Hk. unfold wp in Hk. by rewrite He in Hk.
  - eapply outside_inv; [by apply IH|done].
Qed.
Lemma reaches_safe s s' e : inv s → reaches s s' → legal e s' → ∃ s2, handle e s' = Val ((), s2).
Proof.
  intros Hs Hr Hl. pose proof (handle_keeps e s' (reaches_inv s s' Hs Hr) Hl) as Hk.
  apply wp_run in Hk as ([] & s2 & He & _). by exists s2.
Qed.
(** Every panel is in one container, where the books say, or is being dragged. *)
Lemma inv_place s p r : inv s → heap s !! p = Some r →
  (∃ c, p ∈ members c s ∧ ∀ c', p ∈ members c' s → c' = c) ∨
  dragged_panel_ (pm s) = Some p ∧ ∀ c, p ∉ members c s.
Proof.
  intros ((_ & _ & Hb) & _ & Hh) Hr. destruct (containers_by_panel_ (pm s) !! p) as [c|] eqn:Hc.
  - left. exists c. split; [by apply Hb|]. intros c' Hc'%Hb. congruence.
  - right. destruct (Hh p ltac:(by eexists)) as [[c Hc']|Hd]; [congruence|]. split; [done|]. intros c Hin%Hb. congruence.
Qed.
End manager.
