(* ===== verification/PanelSystem.v ===== *)
(** * The panels as one system: the window manager's panel manager, its panel bar,
    its two docks and the panels, tied together as the window manager ties them.

    The panel manager calls its containers through [Container.t]; the containers call
    it back when a dock appears or goes, when a panel has a new size, and when some
    window is to take the focus.  The layout manager is an interface. *)

From S2P Require Import Prelude WmUtil XConnection WmIpc Double Window WmEvents Panel PanelHeap PanelBar PanelDock PanelManager.

(** What the window manager calls of its layout manager. *)
Class LayoutManager (W : Type) := {
  layout_TakeFocus : W → bool * W;
  layout_MoveAndResize (x y width height : Z) : W → W
}.

Module PanelSystem.
(** The part of the window manager's state that the panels use; [area_] is
    [layout_manager_x_] and so on. *)
Record t (W : Type) := mk {
  heap_ : gmap Z Panel.t;
  world_ : W;
  windows_ : gmap Z Window.t;
  pm_ : PanelManager.t;
  bar_ : PanelBar.t;
  left_ : PanelDock.t;
  right_ : PanelDock.t;
  area_ : Z * Z * Z * Z
}.
Arguments mk {W} _ _ _ _ _ _ _ _.
Arguments heap_ {W} _. Arguments world_ {W} _. Arguments windows_ {W} _. Arguments pm_ {W} _.
Arguments bar_ {W} _. Arguments left_ {W} _. Arguments right_ {W} _. Arguments area_ {W} _.
#[global] Instance eta_t W : Eta (t W) := fun r =>
  mk (heap_ r) (world_ r) (windows_ r) (pm_ r) (bar_ r) (left_ r) (right_ r) (area_ r).
#[global] Instance store W : PanelStore (t W) W := {|
  heap := heap_; set_heap h s := s <| heap_ := h |>; world := world_; set_world w s := s <| world_ := w |> |}.

Definition set_pm {W} (m : PanelManager.t) (s : t W) : t W := s <| pm_ := m |>.
Definition set_windows {W} (v : gmap Z Window.t) (s : t W) : t W := s <| windows_ := v |>.
Definition set_bar {W} (b : PanelBar.t) (s : t W) : t W := s <| bar_ := b |>.
Definition dock {W} (side : PanelDock.DockType) (s : t W) : PanelDock.t :=
  match side with PanelDock.DOCK_TYPE_LEFT => left_ s | PanelDock.DOCK_TYPE_RIGHT => right_ s end.
Definition set_dock {W} (side : PanelDock.DockType) (d : PanelDock.t) (s : t W) : t W :=
  match side with
  | PanelDock.DOCK_TYPE_LEFT => s <| left_ := d |>
  | PanelDock.DOCK_TYPE_RIGHT => s <| right_ := d |>
  end.
Definition ref (side : PanelDock.DockType) : ContainerRef :=
  match side with PanelDock.DOCK_TYPE_LEFT => LEFT_PANEL_DOCK | PanelDock.DOCK_TYPE_RIGHT => RIGHT_PANEL_DOCK end.

Section system.
Context `{Build} `{PanelFlags} {W : Type} `{Wm W} `{HasConsumers W} `{LayoutManager W}.
Variable stacking_manager : StackingManager.t.
Abbreviation S := (t W).

(** *** WindowManager, which the containers call *)

Definition HandleLayoutManagerAreaChange (x y width height : Z) : M S unit :=
  modify (fun s => s <| area_ := (x, y, width, height) |>);;
  PanelRef.on_world (extern (fun w => ((), layout_MoveAndResize x y width height w))).
Definition panel_bar_TakeFocus : M S bool := PanelBar.TakeFocus bar_ set_bar.
Definition wm_TakeFocus : M S unit :=
  taken ← PanelRef.on_world (extern layout_TakeFocus);
  if taken : bool then mret ()
  else
    taken ← PanelManager.TakeFocus panel_bar_TakeFocus;
    if taken : bool then mret () else PanelRef.x (FocusWindow x_root Panel.CurrentTime);; mret ().

(** *** PanelManager, which the containers call *)

Definition HandleDockVisibilityChange : M S unit :=
  PanelManager.HandleDockVisibilityChange left_ right_ HandleLayoutManagerAreaChange.
(** The docks do nothing when a panel has a new size. *)
Definition container_HandlePanelResize (c : ContainerRef) (p : Z) : M S unit :=
  match c with PANEL_BAR => PanelBar.HandlePanelResize bar_ set_bar | _ => mret () end.
Definition HandlePanelResize (p : Z) : M S unit :=
  c ← gets (fun s => PanelManager.GetContainerForPanel p (pm_ s));
  match c with Some c => container_HandlePanelResize c p | None => mret () end.

(** *** The containers *)

Definition panel_bar : Container.t S := {|
  Container.GetInputWindows s := PanelBar.GetInputWindows (bar_ s);
  Container.AddPanel := PanelBar.AddPanel stacking_manager bar_ set_bar;
  Container.RemovePanel := PanelBar.RemovePanel bar_ set_bar;
  Container.ShouldAddDraggedPanel := PanelBar.ShouldAddDraggedPanel;
  Container.HandleInputWindowButtonPress xid _ _ _ _ button _ :=
    PanelBar.HandleInputWindowButtonPress bar_ set_bar wm_TakeFocus xid button;
  Container.HandleInputWindowButtonRelease _ _ _ _ _ _ _ := mret ();
  Container.HandleInputWindowPointerEnter xid _ _ x_root _ _ :=
    PanelBar.HandleInputWindowPointerEnter bar_ set_bar xid x_root;
  Container.HandleInputWindowPointerLeave xid _ _ _ _ _ := PanelBar.HandleInputWindowPointerLeave bar_ set_bar xid;
  Container.HandlePanelButtonPress p _ timestamp := PanelBar.HandlePanelButtonPress bar_ set_bar p timestamp;
  Container.HandlePanelTitlebarPointerEnter p _ := PanelBar.HandlePanelTitlebarPointerEnter bar_ set_bar p;
  Container.HandlePanelFocusChange := PanelBar.HandlePanelFocusChange;
  Container.HandleSetPanelStateMessage := PanelBar.HandleSetPanelStateMessage bar_ set_bar wm_TakeFocus;
  Container.HandleNotifyPanelDraggedMessage :=
    PanelBar.HandleNotifyPanelDraggedMessage stacking_manager bar_ set_bar wm_TakeFocus;
  Container.HandleNotifyPanelDragCompleteMessage :=
    PanelBar.HandleNotifyPanelDragCompleteMessage stacking_manager bar_ set_bar wm_TakeFocus;
  Container.HandleFocusPanelMessage := PanelBar.HandleFocusPanelMessage bar_ set_bar;
  Container.HandlePanelResize := container_HandlePanelResize PANEL_BAR;
  Container.HandleScreenResize := PanelBar.HandleScreenResize bar_ set_bar;
  Container.HandlePanelUrgencyChange := PanelBar.HandlePanelUrgencyChange bar_ set_bar
|}.

Definition panel_dock (side : PanelDock.DockType) : Container.t S :=
  let d := dock side in let set := set_dock side in {|
  Container.GetInputWindows s := PanelDock.GetInputWindows (d s);
  Container.AddPanel := PanelDock.AddPanel stacking_manager d set HandleDockVisibilityChange;
  Container.RemovePanel := PanelDock.RemovePanel stacking_manager d set HandleDockVisibilityChange;
  Container.ShouldAddDraggedPanel := PanelDock.ShouldAddDraggedPanel d;
  Container.HandleInputWindowButtonPress _ _ _ _ _ _ _ := mret ();
  Container.HandleInputWindowButtonRelease _ _ _ _ _ _ _ := mret ();
  Container.HandleInputWindowPointerEnter _ _ _ _ _ _ := mret ();
  Container.HandleInputWindowPointerLeave _ _ _ _ _ _ := mret ();
  Container.HandlePanelButtonPress p _ timestamp := PanelDock.HandlePanelButtonPress p timestamp;
  Container.HandlePanelTitlebarPointerEnter _ _ := mret ();
  Container.HandlePanelFocusChange := PanelDock.HandlePanelFocusChange;
  Container.HandleSetPanelStateMessage := PanelDock.HandleSetPanelStateMessage stacking_manager d wm_TakeFocus;
  Container.HandleNotifyPanelDraggedMessage := PanelDock.HandleNotifyPanelDraggedMessage stacking_manager d set;
  Container.HandleNotifyPanelDragCompleteMessage :=
    PanelDock.HandleNotifyPanelDragCompleteMessage stacking_manager d set HandlePanelResize;
  Container.HandleFocusPanelMessage := PanelDock.HandleFocusPanelMessage;
  Container.HandlePanelResize := container_HandlePanelResize (ref side);
  Container.HandleScreenResize := PanelDock.HandleScreenResize d set;
  Container.HandlePanelUrgencyChange _ := mret ()
|}.

Definition container (c : ContainerRef) : Container.t S :=
  match c with
  | PANEL_BAR => panel_bar
  | LEFT_PANEL_DOCK => panel_dock PanelDock.DOCK_TYPE_LEFT
  | RIGHT_PANEL_DOCK => panel_dock PanelDock.DOCK_TYPE_RIGHT
  end.

(** The knot is the one the panel manager sees. *)
Lemma HandlePanelResize_knot p s : PanelManager.HandlePanelResize pm_ container p s = HandlePanelResize p s.
Proof.
  unfold PanelManager.HandlePanelResize, PanelManager.to_container, HandlePanelResize, PanelManager.get, gets, mbind, M_bind.
  by destruct (PanelManager.GetContainerForPanel p (pm_ s)) as [[]|].
Qed.

(** The timers of the containers: the panel bar's. *)
Inductive Tick := ShowCollapsedPanelsTimer | AnchorWatcherTimer | HideWatcherTimer.
Definition tick (t : Tick) : M S unit :=
  match t with
  | ShowCollapsedPanelsTimer => PanelBar.HandleShowCollapsedPanelsTimer bar_ set_bar;; mret ()
  | AnchorWatcherTimer => PanelBar.HandleAnchorWatcherTimer bar_ set_bar;; mret ()
  | HideWatcherTimer => PanelBar.HandleHideWatcherTimer bar_ set_bar;; mret ()
  end.
(** The first timer is due while it is set. *)
Definition tick_due (t : Tick) (s : S) : Prop :=
  match t with ShowCollapsedPanelsTimer => PanelBar.show_collapsed_panels_timer_id_ (bar_ s) ≠ 0 | _ => True end.

(** The panel manager's constructor, at its address. *)
Definition construct (self : Z) : M S unit :=
  PanelManager.construct pm_ set_pm container self (PanelBar.construct stacking_manager bar_ set_bar self)
    (fun _ side width => PanelDock.construct stacking_manager (dock side) (set_dock side) self side width).
End system.
End PanelSystem.
