(* ===== verification/PanelSystemSafe.v ===== *)
(** * The panel system (PanelSystem.v) never fails.

    Its panel bar and docks keep what the panel manager asks of its containers
    ([ContainerLaws] of PanelManagerSafe.v), so that every run of the system from a
    state with the invariant goes on without a failed check or a dangling pointer. *)

From S2P Require Import Prelude Hoare WmUtil XConnection WmIpc Double Window WmEvents Panel WmFrame PanelSafe.
From S2P Require Import PanelHeap PanelHeapSafe PanelBar PanelBarSafe PanelDock PanelDockSafe PanelManager PanelManagerSafe PanelSystem.
Import PanelSystem.

(** The layout manager leaves the connection and the screen alone. *)
Class LayoutLaws (W : Type) `{WmFrame W} `{LayoutManager W} := {
  layout_focuses w : wm_ok w → wm_moves wm_ok wm_used w (layout_TakeFocus w).2;
  layout_resizes x y width height w : wm_ok w → wm_moves wm_ok wm_used w (layout_MoveAndResize x y width height w)
}.

Section system.
Context `{Build} `{PanelFlags} {W : Type} `{WmHost W} `{!WmScreen W} `{!LayoutManager W} `{!LayoutLaws W}.
Variable sm : StackingManager.t.
Hypothesis Hsm : layers_ok sm.
Abbreviation S := (PanelSystem.t W).
Abbreviation container := (container sm).

(** ** The parts of the state *)

Definition alike (s s' : S) : Prop := bar_ s' = bar_ s ∧ left_ s' = left_ s ∧ right_ s' = right_ s.
#[local] Instance alike_preorder : PreOrder alike.
Proof. split; [by intros s|]. intros ??? (?&?&?) (?&?&?). split; [congruence|]. split; congruence. Qed.
#[local] Instance system_manager : ManagerPlace S W pm_ set_pm windows_ set_windows alike.
Proof. split; try done; try apply _; by intros; split. Qed.

Definition bar_rest (s s' : S) : Prop :=
  pm_ s' = pm_ s ∧ windows_ s' = windows_ s ∧ left_ s' = left_ s ∧ right_ s' = right_ s.
#[local] Instance bar_rest_preorder : PreOrder bar_rest.
Proof.
  split; [by intros s|]. intros ??? (?&?&?&?) (?&?&?&?). split; [congruence|]. split; [congruence|]. split; congruence.
Qed.
#[local] Instance bar_part : PartPlace S W PanelBar.t bar_ set_bar bar_rest.
Proof. split; try done; apply _. Qed.

(** The docks may have another panel of the bar take the focus. *)
Definition refocusing (b b' : PanelBar.t) : Prop :=
  ∃ f, b' = b <| PanelBar.desired_panel_to_focus_ := f |> ∧
       (f = PanelBar.desired_panel_to_focus_ b ∨ ∀ p, f = Some p → p ∈ PanelBar.panels_ b).
#[local] Instance refocusing_preorder : PreOrder refocusing.
Proof.
  split; [intros []; eexists; by split; [|left]|]. intros [] ?? (f1 & -> & H1') (f2 & -> & H2'). exists f2. split; [done|].
  cbn in *. destruct H2' as [->|?]; [|by right]. done.
Qed.
Definition other (side : PanelDock.DockType) : PanelDock.DockType :=
  match side with PanelDock.DOCK_TYPE_LEFT => PanelDock.DOCK_TYPE_RIGHT | PanelDock.DOCK_TYPE_RIGHT => PanelDock.DOCK_TYPE_LEFT end.
Definition dock_rest (side : PanelDock.DockType) (s s' : S) : Prop :=
  pm_ s' = pm_ s ∧ windows_ s' = windows_ s ∧ dock (other side) s' = dock (other side) s ∧ refocusing (bar_ s) (bar_ s').
#[local] Instance dock_rest_preorder side : PreOrder (dock_rest side).
Proof.
  split; [by intros s|]. intros ??? (?&?&?&?) (?&?&?&?).
  split; [congruence|]. split; [congruence|]. split; [congruence|by etransitivity].
Qed.
#[local] Instance dock_part side : PartPlace S W PanelDock.t (dock side) (set_dock side) (dock_rest side).
Proof. by destruct side; split; try done; apply _. Qed.
Abbreviation bar_keep := (keep bar_rest).
Abbreviation dock_keep side := (keep (dock_rest side)).

(** ** The invariant *)

Definition members (c : ContainerRef) (s : S) : list Z :=
  match c with
  | PANEL_BAR => PanelBar.panels_ (bar_ s)
  | LEFT_PANEL_DOCK => PanelDock.panels_ (left_ s)
  | RIGHT_PANEL_DOCK => PanelDock.panels_ (right_ s)
  end.
Lemma members_dock side s : members (ref side) s = PanelDock.panels_ (dock side s).
Proof. by destruct side. Qed.

(** A container may think that the panel [d] is being dragged, and no other. *)
Definition bar_extra (d d' a f : option Z) : Prop := d' = None ∨ d' = d.
Definition dock_extra (side : PanelDock.DockType) (d : option Z) (k : PanelDock.t) : Prop :=
  PanelDock.type_ k = side ∧ PanelDock.width_ k = PanelManager.kPanelDockWidth ∧ small (PanelDock.x_ k) ∧
  (PanelDock.dragged_panel_ k = None ∨ PanelDock.dragged_panel_ k = d).
Definition bar_fine (d : option Z) (s : S) : Prop :=
  bar_of bar_ none (bar_extra d) (PanelBar.panels_ (bar_ s)) s.
Definition dock_fine (side : PanelDock.DockType) (d : option Z) (s : S) : Prop :=
  dock_of (dock side) placed_all (dock_extra side d) (fun _ => True) (PanelDock.panels_ (dock side s)) s.
Definition fine (d : option Z) (s : S) : Prop := bar_fine d s ∧ ∀ side, dock_fine side d s.

Lemma dock_of_rest {dk X Y} (K K' : S → Prop) ps s : dock_of dk X Y K ps s → K' s → dock_of dk X Y K' ps s.
Proof. by intros [[] ?] ?; split; [split|]. Qed.
Lemma dock_of_extra {dk X} {Y Y' : PanelDock.t → Prop} {K : S → Prop} {ps s} : dock_of dk X Y K ps s → Y' (dk s) → dock_of dk X Y' K ps s.
Proof. by intros [[] ?] ?; split; [split|]. Qed.
Lemma bar_fine_of d ps s : bar_of bar_ none (bar_extra d) ps s → bar_fine d s.
Proof. by intros [? _]. Qed.
Lemma dock_fine_of side d K ps s : dock_of (dock side) placed_all (dock_extra side d) K ps s → dock_fine side d s.
Proof. intros Hs. eapply (dock_of_rest K); [|done]. by destruct Hs as [? _]. Qed.

(** The parts stay fine while the others work. *)
Lemma bar_fine_members d s s' : bar_fine d s → wm_ok (world s') → refocusing (bar_ s) (bar_ s') →
  (∀ q r, q ∈ PanelBar.panels_ (bar_ s) → heap s !! q = Some r → ∃ r', heap s' !! q = Some r' ∧ same_windows r r') →
  bar_fine d s'.
Proof.
  intros Hs Hok (f & Hb & Hf) Hl. unfold bar_fine in *. rewrite Hb.
  replace (PanelBar.panels_ (_ <| _ := _ |>)) with (PanelBar.panels_ (bar_ s)) by by destruct (bar_ s).
  assert (bar_of bar_ none (bar_extra d) (PanelBar.panels_ (bar_ s)) (set_bar (bar_ s) s')) as Hs1.
  { by apply (bar_of_members bar_ none (bar_extra d) _ s). }
  destruct Hs1 as [Hwf Hps]. split; [|by rewrite Hb; destruct (bar_ s)].
  replace s' with (set_bar (bar_ s') (set_bar (bar_ s) s')) by by destruct s'.
  apply (wf_set_bar bar_ set_bar bar_rest); rewrite ?Hb; destruct Hwf as [E1 E2 E3 E4 E5 E6 E7 E8];
    destruct (bar_ s) eqn:Eb; cbn in *; try done.
  intros p Hp. destruct Hf as [->|Hf]; [by apply E4|]. destruct Hp as [?|[?|?]]; [apply E4; auto..|by apply Hf].
Qed.
Lemma dock_fine_members side d s s' : dock_fine side d s → wm_ok (world s') → dock side s' = dock side s →
  (∀ q r, q ∈ PanelDock.panels_ (dock side s) → heap s !! q = Some r → ∃ r', heap s' !! q = Some r' ∧ same_windows r r') →
  dock_fine side d s'.
Proof.
  intros Hs Hok Hd Hl. unfold dock_fine in *. rewrite Hd. by apply (dock_of_members (dock side) placed_all _ _ _ s).
Qed.
(** What a dock knows of the rest. *)
Definition around (side : PanelDock.DockType) (d : option Z) (s : S) : Prop := bar_fine d s ∧ dock_fine (other side) d s.
Lemma around_stable side d s s' : around side d s → wm_ok (world s') → live (dock_rest side) s s' → around side d s'.
Proof.
  intros [Hb Hd] Hok (_ & Hl & _ & (_ & _ & Eo & Hf)).
  split; [apply (bar_fine_members d s)|apply (dock_fine_members _ d s)]; try done; intros q r _; apply Hl.
Qed.
Lemma fine_around side d s : fine d s ↔
  dock_of (dock side) placed_all (dock_extra side d) (around side d) (PanelDock.panels_ (dock side s)) s.
Proof.
  split.
  - intros [Hb Hd]. apply (dock_of_rest (fun _ => True)); [apply Hd|]. by split.
  - intros Hs. pose proof Hs as [Hwf _]. destruct (wf_rest _ _ _ _ s Hwf) as [Hb Ho]. split; [done|].
    intros side'. destruct (decide (side' = side)) as [->|Hne]; [by eapply dock_fine_of|].
    replace side' with (other side) by by destruct side, side'. done.
Qed.

(** ** Running an operation of a part *)

Abbreviation settles d d' m s := (wp m (fun _ s' => fine d' s' ∧ settled pm_ windows_ members s s') s).

Lemma bar_keep_during s s' : bar_keep s s' → during pm_ windows_ s s'.
Proof. intros (?&?&?&(?&?&_)). split; [done|]. split; [by apply heap_kept_lives|]. done. Qed.
Lemma bar_done d d' ps s s' : fine d s → bar_of bar_ none (bar_extra d') ps s' → bar_keep s s' →
  (∀ side, d' = d ∨ PanelDock.dragged_panel_ (dock side s) = None) → fine d' s'.
Proof.
  intros [_ Hd] Hb Hk Hdrag. split; [by eapply bar_fine_of|]. intros side. pose proof Hk as (_ & Hl & _ & (_ & _ & El & Er)).
  assert (dock side s' = dock side s) as Edock by by destruct side.
  assert (dock_fine side d s') as Hd'.
  { apply (dock_fine_members side d s); [done|apply Hb|done|]. intros q r _. by apply heap_kept_lives. }
  unfold dock_fine in *. eapply dock_of_extra; [exact Hd'|].
  destruct (wf_extra _ _ _ _ s' (proj1 Hd')) as (?&?&?&?). split; [done|]. split; [done|]. split; [done|].
  rewrite Edock in *. destruct (Hdrag side) as [->|?]; [done|by left].
Qed.
Lemma bar_settled ps s s' : ps ≡ₚ PanelBar.panels_ (bar_ s) → PanelBar.panels_ (bar_ s') ≡ₚ ps → bar_keep s s' →
  settled pm_ windows_ members s s'.
Proof.
  intros Hps Hb Hk. split; [by apply bar_keep_during|]. pose proof Hk as (_ & _ & _ & (_ & _ & El & Er)).
  intros []; cbn; [by rewrite Hb, Hps|by rewrite El|by rewrite Er].
Qed.
(** An operation of the panel bar. *)
Lemma bar_run {A} (m : M S A) d s : fine d s →
  wp m (fun _ s' => bar_of bar_ none (bar_extra d) (PanelBar.panels_ (bar_ s)) s' ∧ bar_keep s s') s → settles d d m s.
Proof.
  intros Hs Hm. eapply wp_mono; [exact Hm|]. intros a s' [Hb Hk].
  split; [eapply bar_done; try done; by left|]. by apply (bar_settled (PanelBar.panels_ (bar_ s))); [|apply Hb|].
Qed.
Lemma bar_framed {A} (m : M S A) d s : fine d s →
  framed (bar_of bar_ none (bar_extra d) (PanelBar.panels_ (bar_ s))) bar_keep m → settles d d m s.
Proof. intros Hs Hm. apply bar_run; [done|]. apply Hm, Hs. Qed.

(** An operation of a dock. *)
Lemma dock_live_during side s s' : live (dock_rest side) s s' → during pm_ windows_ s s'.
Proof. intros (?&?&?&(?&?&_)). by repeat (split; [done|]). Qed.
Lemma dock_settled side s s' : PanelDock.panels_ (dock side s') ≡ₚ PanelDock.panels_ (dock side s) →
  live (dock_rest side) s s' → settled pm_ windows_ members s s'.
Proof.
  intros Hd Hk. split; [by eapply dock_live_during|]. pose proof Hk as (_ & _ & _ & (_ & _ & Eo & (f & Eb & _))).
  assert (PanelBar.panels_ (bar_ s') = PanelBar.panels_ (bar_ s)) as Ep by (rewrite Eb; by destruct (bar_ s)).
  intros c. destruct side, c; cbn in *; rewrite ?Ep, ?Eo; done.
Qed.
Abbreviation dock_inv side d ps := (dock_of (dock side) placed_all (dock_extra side d) (around side d) ps).
Lemma dock_run {A} (m : M S A) side d s : fine d s →
  wp m (fun _ s' => dock_inv side d (PanelDock.panels_ (dock side s)) s' ∧ live (dock_rest side) s s') s → settles d d m s.
Proof.
  intros Hs Hm. eapply wp_mono; [exact Hm|]. intros a s' [Hd Hk].
  split; [apply (fine_around side); destruct Hd as [Hwf Hps]; by split|].
  apply (dock_settled side); [by rewrite (proj2 Hd)|done].
Qed.
Lemma dock_framed {A} (m : M S A) side d s : fine d s →
  framed (dock_inv side d (PanelDock.panels_ (dock side s))) (dock_keep side) m → settles d d m s.
Proof.
  intros Hs Hm. apply (dock_run m side); [done|]. eapply wp_mono; [by apply Hm, fine_around|].
  intros a s' [Hd Hk]. split; [done|by apply keep_live].
Qed.

(** ** The window manager's part *)

Lemma bar_anchor d d' a a' f : bar_extra d d' a f → bar_extra d d' a' f.
Proof. done. Qed.
Lemma bar_desired d d' a f f' : bar_extra d d' a f → bar_extra d d' a f'.
Proof. done. Qed.
Lemma bar_none_extra d d' a f : bar_extra d d' a f → bar_extra d None a f.
Proof. by left. Qed.
Lemma none_placed (ps : list Z) p : p ∈ ps → ¬ none p.
Proof. by intros _ []. Qed.
Lemma all_placed (ps : list Z) p : p ∈ ps → ¬ placed_all p.
Proof. by intros _ []. Qed.
#[local] Hint Resolve bar_anchor bar_desired bar_none_extra none_placed all_placed around_stable : core.

Lemma bar_TakeFocus_wp d ps s : bar_of bar_ none (bar_extra d) ps s →
  wp panel_bar_TakeFocus (fun _ s' => bar_of bar_ none (bar_extra d) ps s' ∧ bar_keep s s' ∧
                                      PanelBarSafe.refocused (bar_ s) (bar_ s')) s.
Proof. intros Hs. apply (TakeFocus_bar sm bar_ set_bar bar_rest Hsm none); eauto. Qed.
Lemma quiet_layout_TakeFocus : quiet (extern layout_TakeFocus).
Proof. apply quiet_extern, layout_focuses. Qed.
Lemma wm_TakeFocus_wp d ps s : bar_of bar_ none (bar_extra d) ps s →
  wp wm_TakeFocus (fun _ s' => bar_of bar_ none (bar_extra d) ps s' ∧ bar_keep s s' ∧
                               PanelBarSafe.refocused (bar_ s) (bar_ s')) s.
Proof.
  intros Hs. unfold wm_TakeFocus.
  assert (∀ A (m : M W A) s1, quiet m → bar_of bar_ none (bar_extra d) ps s1 →
    wp (PanelRef.on_world m) (fun _ s' => bar_of bar_ none (bar_extra d) ps s' ∧ bar_keep s1 s' ∧ bar_ s' = bar_ s1) s1)
    as Hworld.
  { intros A m s1 Hm Hs1. apply wp_zoom. eapply wp_mono; [apply Hm, Hs1|]. intros a w [Hok Hscr].
    assert (bar_keep s1 (set_world w s1)) as Hk by (apply keep_same; done).
    split; [|done]. by apply (bar_of_keep bar_ bar_rest _ _ _ s1). }
  assert (∀ b, PanelBarSafe.refocused b b) as Hrefl.
  { intros b. exists (PanelBar.desired_panel_to_focus_ b). by destruct b. }
  eapply wp_cut; [by apply Hworld; [apply quiet_layout_TakeFocus|]|]. intros taken s1 (Hs1 & Hk1 & E1).
  destruct taken; [apply wp_ret; rewrite E1; auto|].
  eapply wp_cut; [by apply bar_TakeFocus_wp|]. intros taken s2 (Hs2 & Hk2 & Hb2). rewrite E1 in Hb2.
  assert (bar_keep s s2) as Hk by by etransitivity. destruct taken; [by apply wp_ret|].
  eapply wp_cut; [apply (Hworld _ (extern (x_do (FocusWindow x_root Panel.CurrentTime))) s2); [apply quiet_x_do|done]|].
  intros _ s3 (Hs3 & Hk3 & E3). apply wp_ret. split; [done|]. split; [by etransitivity|]. by rewrite E3.
Qed.
Lemma wm_TakeFocus_bar d ps : framed (bar_of bar_ none (bar_extra d) ps) bar_keep wm_TakeFocus.
Proof. intros s Hs. eapply wp_mono; [by apply wm_TakeFocus_wp|]. by intros _ s' (?&?&_). Qed.
(** ... called by a dock. *)
Lemma wm_TakeFocus_dock side d ps : framed (dock_inv side d ps) (dock_keep side) wm_TakeFocus.
Proof.
  intros s Hs. pose proof (wf_rest _ _ _ _ s (proj1 Hs)) as [Hb _].
  eapply wp_mono; [by apply wm_TakeFocus_wp|]. intros _ s' (Hb' & (Hscr & Hh & Hdom & (Epm & Ew & El & Er)) & (f & Ef)).
  assert (dock_keep side s s') as Hk.
  { split; [done|]. split; [done|]. split; [done|]. split; [done|]. split; [done|]. split; [by destruct side|].
    exists f. split; [done|]. right. intros p ->. destruct Hb' as [Hwf Hps]. rewrite <-Hps.
    apply (wf_pointers _ _ _ s' Hwf). right. right. rewrite Ef. by destruct (bar_ s). }
  split; [|done]. apply (dock_of_live _ _ _ _ ps s); [done|apply Hb'|by destruct side|by apply heap_kept_lives|].
  apply (around_stable side d s); [apply Hs|apply Hb'|by apply keep_live].
Qed.

(** The panel manager resizes the layout manager's area when a dock appears or goes. *)
Lemma area_change_quiet {C} (part : S → C) set_part rest `{!PartPlace S W C part set_part rest} (I : S → Prop) px py w h :
  Holds part rest I → (∀ s a, part (s <| area_ := a |>) = part s ∧ rest s (s <| area_ := a |>)) →
  framed I (keep rest) (HandleLayoutManagerAreaChange px py w h).
Proof.
  intros HI Harea. unfold HandleLayoutManagerAreaChange. apply framed_bind; [apply _| |intros _].
  - apply framed_modify. intros s Hs. destruct (Harea s (px, py, w, h)) as [Ep Hr].
    assert (keep rest s (s <| area_ := (px, py, w, h) |>)) as Hk by by apply keep_same.
    split; [|done]. apply (holds_live part rest s); [done|change (wm_ok (world s)); by apply (holds_world part rest s)|done|by apply keep_live].
  - eapply heap_on_world; try apply _. apply quiet_extern. intros u. apply layout_resizes.
Qed.
Lemma visibility_safe side I : Holds (dock side) (dock_rest side) I →
  framed I (dock_keep side) (PanelSystem.HandleDockVisibilityChange).
Proof.
  intros HI. unfold HandleDockVisibilityChange, PanelManager.HandleDockVisibilityChange, PanelManager.UpdateAvailableArea.
  do 4 (apply framed_bind; [apply _|apply framed_gets, _|intros ?]).
  assert (∀ px py w h, framed I (dock_keep side) (HandleLayoutManagerAreaChange px py w h)) as Ha.
  { intros. apply (area_change_quiet (dock side) (set_dock side)); try apply _. intros s ar. split; [by destruct side|].
    split; [done|]. split; [done|]. split; [by destruct side|]. change (refocusing (bar_ s) (bar_ s)). reflexivity. }
  destruct (PanelDock.IsVisible _); cbv zeta; apply Ha.
Qed.

(** ** What the panel manager asks of its containers *)

Definition presses (c : ContainerRef) (xid : Z) (s : S) : Prop :=
  match c with PANEL_BAR => xid = PanelBar.anchor_input_xid_ (bar_ s) | _ => True end.
Definition bar_wants (height py : Z) (r : Panel.t) : bool :=
  height - PanelBar.kPanelAttachThresholdPixels <? i32 (py + Panel.total_height r).
Definition dock_wants (k : PanelDock.t) (px : Z) (r : Panel.t) : bool :=
  if decide (PanelDock.type_ k = PanelDock.DOCK_TYPE_RIGHT)
  then i32 (PanelDock.x_ k + PanelDock.width_ k - PanelDock.kAttachThresholdPixels) <=? px
  else i32 (px - Panel.content_width r) <=? i32 (PanelDock.x_ k + PanelDock.kAttachThresholdPixels).
Definition wants (c : ContainerRef) (p px py : Z) (s : S) : Prop :=
  ∃ r, heap s !! p = Some r ∧ sane px py r ∧
    match c with
    | PANEL_BAR => bar_wants (wm_height (world s)) py r
    | LEFT_PANEL_DOCK => dock_wants (left_ s) px r
    | RIGHT_PANEL_DOCK => dock_wants (right_ s) px r
    end = true.
Lemma wants_dock side p px py s : wants (ref side) p px py s ↔
  ∃ r, heap s !! p = Some r ∧ sane px py r ∧ dock_wants (dock side s) px r = true.
Proof. by destruct side. Qed.

(** A container that wants a panel does not let it go at once. *)
Lemma bar_wants_stays w px py r : wm_ok w → sane px py r → bar_wants (wm_height w) py r = true →
  (py <=? i32 (wm_height w - Panel.total_height r - PanelBar.kPanelDetachThresholdPixels)) = false.
Proof.
  intros Hok (_ & Hpy & _ & Hch & Hth) Hw. destruct (wm_screen w Hok) as [_ Hh].
  unfold small, bar_wants, Panel.total_height, PanelBar.kPanelAttachThresholdPixels, PanelBar.kPanelDetachThresholdPixels in *.
  rewrite (i32_small (Panel.content_height r + Panel.titlebar_height r)) by (unfold is_i32; lia).
  rewrite (i32_small (Panel.content_height r + Panel.titlebar_height r)) in Hw by (unfold is_i32; lia). apply Z.ltb_lt in Hw. rewrite i32_small in Hw by (unfold is_i32; lia).
  apply Z.leb_gt. rewrite i32_small; unfold is_i32; lia.
Qed.
Lemma dock_wants_stays side d k px py r : dock_extra side d k → sane px py r → dock_wants k px r = true →
  PanelDock.detached k r px = false.
Proof.
  intros (_ & Hwd & Hx & _) (Hpx & _ & Hcw & _) Hw.
  unfold small, dock_wants, PanelDock.detached, PanelDock.kAttachThresholdPixels, PanelDock.kDetachThresholdPixels,
    PanelManager.kPanelDockWidth in *.
  rewrite Hwd in *. case_decide; apply Z.leb_le in Hw; apply Z.leb_gt; rewrite !i32_small in Hw by (unfold is_i32; lia); rewrite !i32_small by (unfold is_i32; lia); lia.
Qed.

Lemma bar_ShouldAdd_wp p px py s r : heap s !! p = Some r →
  wp (PanelBar.ShouldAddDraggedPanel p px py) (fun b s' => s' = s ∧ b = bar_wants (wm_height (world s)) py r) s.
Proof.
  intros Hr. unfold PanelBar.ShouldAddDraggedPanel.
  eapply wp_cut; [by eapply (look_wp p r (fun r' s' => r' = r ∧ s' = s))|]. intros ? ? [-> ->].
  apply wp_gets_bind. by apply wp_ret.
Qed.
Lemma dock_ShouldAdd_wp side p px py s r : heap s !! p = Some r →
  wp (PanelDock.ShouldAddDraggedPanel (@dock W side) p px py) (fun b s' => s' = s ∧ b = dock_wants (dock side s) px r) s.
Proof.
  intros Hr. unfold PanelDock.ShouldAddDraggedPanel. apply wp_gets_bind. cbn [id].
  eapply wp_cut; [by eapply (look_wp p r (fun r' s' => r' = r ∧ s' = s))|]. intros ? ? [-> ->]. by apply wp_ret.
Qed.

(** The result of a drag. *)
Lemma look_bind {B} p r (k : Panel.t → M S B) s : heap s !! p = Some r → (PanelRef.look p ≫= k) s = k r s.
Proof. intros Hr. unfold PanelRef.look, mbind, M_bind, gets. by rewrite Hr. Qed.
Lemma bar_Dragged_result p px py s r :
  heap s !! p = Some r →
  (py <=? i32 (wm_height (world s) - Panel.total_height r - PanelBar.kPanelDetachThresholdPixels)) = false →
  ∀ b s', PanelBar.HandleNotifyPanelDraggedMessage sm bar_ set_bar wm_TakeFocus p px py s = Val (b, s') → b = true.
Proof.
  intros Hr Hstay b s'. unfold PanelBar.HandleNotifyPanelDraggedMessage, PanelBar.wm_height_.
  rewrite (look_bind p r) by done. rewrite gets_bind, Hstay.
  match goal with |- ?m s = _ → _ => enough (ends (fun b _ => b = true) m) as He by apply He end.
  repeat (apply ends_bind; intros ?). by apply ends_ret.
Qed.
Lemma dock_Dragged_result side p px py s r :
  heap s !! p = Some r → PanelDock.detached (dock side s) r px = false →
  ∀ b s', PanelDock.HandleNotifyPanelDraggedMessage sm (@dock W side) (set_dock side) p px py s = Val (b, s') → b = true.
Proof.
  intros Hr Hstay b s'. unfold PanelDock.HandleNotifyPanelDraggedMessage, PanelDock.get. rewrite gets_bind. cbn [id].
  rewrite (look_bind p r) by done. rewrite Hstay.
  match goal with |- ?m s = _ → _ => enough (ends (fun b _ => b = true) m) as He by apply He end.
  repeat (apply ends_bind; intros ?). by apply ends_ret.
Qed.
Lemma wp_result {A} (m : M S A) (P Q : A → S → Prop) s :
  wp m Q s → (∀ a s', m s = Val (a, s') → P a s') → wp m (fun a s' => P a s' ∧ Q a s') s.
Proof. intros Hm HP. apply wp_run in Hm as (a & s' & Hrun & HQ). apply wp_run. exists a, s'. eauto. Qed.

Lemma fine_wm d s : fine d s → wm_ok (world s).
Proof. intros [[Hwf _] _]. apply Hwf. Qed.
Lemma fine_bar_heap d s p : fine d s → p ∈ members PANEL_BAR s → is_Some (heap s !! p).
Proof. intros [[Hwf _] _] Hp. destruct (PanelBarSafe.wf_heap _ _ _ s Hwf p Hp) as (r & ? & _). by eexists. Qed.
Lemma ref_cases c : c = PANEL_BAR ∨ ∃ side, c = ref side.
Proof.
  destruct c; [by left|right; by exists PanelDock.DOCK_TYPE_LEFT|right; by exists PanelDock.DOCK_TYPE_RIGHT].
Qed.
Lemma container_ref side : container (ref side) = panel_dock sm side.
Proof. by destruct side. Qed.

(** *** The panel bar *)

Abbreviation bar_ps s := (PanelBar.panels_ (bar_ s)).
Ltac shown_op :=
  cbv beta iota zeta delta [PanelSystem.panel_bar PanelSystem.panel_dock container_HandlePanelResize
    PanelBar.HandlePanelButtonPress PanelBar.HandlePanelResize PanelBar.HandleNotifyPanelDragCompleteMessage
    Container.HandlePanelButtonPress Container.HandlePanelTitlebarPointerEnter Container.HandlePanelFocusChange
    Container.HandleSetPanelStateMessage Container.HandleFocusPanelMessage Container.HandlePanelResize
    Container.HandlePanelUrgencyChange Container.HandleInputWindowPointerEnter Container.HandleInputWindowPointerLeave
    Container.HandleInputWindowButtonPress Container.HandleInputWindowButtonRelease Container.HandleScreenResize
    Container.AddPanel Container.RemovePanel Container.ShouldAddDraggedPanel Container.HandleNotifyPanelDraggedMessage
    Container.HandleNotifyPanelDragCompleteMessage].
Ltac bar_op L :=
  intros ? ? Hs ?; apply bar_framed; [exact Hs|]; shown_op;
  eapply L; try apply _; eauto using wm_TakeFocus_bar.

Lemma bar_press p button t : keeps_with pm_ windows_ members fine PANEL_BAR p
  (Container.HandlePanelButtonPress (panel_bar sm) p button t).
Proof. bar_op safe_FocusPanel. Qed.
Lemma bar_titlebar_enter p t : keeps_with pm_ windows_ members fine PANEL_BAR p
  (Container.HandlePanelTitlebarPointerEnter (panel_bar sm) p t).
Proof. bar_op safe_HandlePanelTitlebarPointerEnter. Qed.
Lemma bar_focus p b : keeps_with pm_ windows_ members fine PANEL_BAR p
  (Container.HandlePanelFocusChange (panel_bar sm) p b).
Proof. bar_op PanelBarSafe.safe_HandlePanelFocusChange. Qed.
Lemma bar_state p b : keeps_with pm_ windows_ members fine PANEL_BAR p
  (Container.HandleSetPanelStateMessage (panel_bar sm) p b).
Proof. bar_op PanelBarSafe.safe_HandleSetPanelStateMessage. Qed.
Lemma bar_focus_message p : keeps_with pm_ windows_ members fine PANEL_BAR p
  (Container.HandleFocusPanelMessage (panel_bar sm) p).
Proof. bar_op PanelBarSafe.safe_HandleFocusPanelMessage. Qed.
Lemma bar_resize p : keeps_with pm_ windows_ members fine PANEL_BAR p
  (Container.HandlePanelResize (panel_bar sm) p).
Proof. bar_op safe_PackPanels. Qed.
Lemma bar_urgency p : keeps_with pm_ windows_ members fine PANEL_BAR p
  (Container.HandlePanelUrgencyChange (panel_bar sm) p).
Proof. bar_op safe_HandlePanelUrgencyChange. Qed.
Ltac bar_event L := intros ? ? Hs; apply bar_framed; [exact Hs|]; shown_op; eapply L; try apply _; eauto using wm_TakeFocus_bar.
Lemma bar_enter xid px py rx ry t : keeps pm_ windows_ members fine
  (Container.HandleInputWindowPointerEnter (panel_bar sm) xid px py rx ry t).
Proof. bar_event safe_HandleInputWindowPointerEnter. Qed.
Lemma bar_leave xid px py rx ry t : keeps pm_ windows_ members fine
  (Container.HandleInputWindowPointerLeave (panel_bar sm) xid px py rx ry t).
Proof. bar_event safe_HandleInputWindowPointerLeave. Qed.
Lemma bar_screen : keeps pm_ windows_ members fine (Container.HandleScreenResize (panel_bar sm)).
Proof. bar_event PanelBarSafe.safe_HandleScreenResize. Qed.
Lemma bar_takes_focus : keeps pm_ windows_ members fine panel_bar_TakeFocus.
Proof. bar_event safe_TakeFocus. Qed.
Lemma wm_takes_focus : keeps pm_ windows_ members fine wm_TakeFocus.
Proof. intros d s Hs. apply bar_framed; [done|]. apply wm_TakeFocus_bar. Qed.
Lemma area_changes px py w h : keeps pm_ windows_ members fine (HandleLayoutManagerAreaChange px py w h).
Proof.
  intros d s Hs. apply bar_framed; [done|]. apply (area_change_quiet bar_ set_bar); try apply _; try by intros s1 ar.
  eapply bar_holds; apply _.
Qed.

Lemma bar_input_press xid px py rx ry button t d s : presses PANEL_BAR xid s → fine d s →
  settles d d (Container.HandleInputWindowButtonPress (panel_bar sm) xid px py rx ry button t) s.
Proof.
  intros -> Hs. apply bar_run; [done|]. shown_op.
  eapply safe_HandleInputWindowButtonPress; try apply _; eauto using wm_TakeFocus_bar. apply Hs.
Qed.
Lemma bar_tick t d s : tick_due t s → fine d s → settles d d (tick t) s.
Proof.
  intros Ht Hs. apply bar_run; [done|]. destruct t; unfold tick.
  - eapply wp_cut; [eapply safe_HandleShowCollapsedPanelsTimer; try apply _; eauto; apply Hs|]. intros ? s1 Hs1. by apply wp_ret.
  - match goal with |- wp ?m _ _ => enough (framed (bar_of bar_ none (bar_extra d) (bar_ps s)) bar_keep m) as Hm by apply Hm, Hs end.
    apply framed_bind; [apply _| |intros; apply framed_ret, _].
    eapply safe_HandleAnchorWatcherTimer; try apply _; eauto.
  - match goal with |- wp ?m _ _ => enough (framed (bar_of bar_ none (bar_extra d) (bar_ps s)) bar_keep m) as Hm by apply Hm, Hs end.
    apply framed_bind; [apply _| |intros; apply framed_ret, _].
    eapply safe_HandleHideWatcherTimer; try apply _; eauto using wm_TakeFocus_bar.
Qed.

(** *** The docks *)

Ltac dock_op side L :=
  intros ? ? Hs Hin; rewrite members_dock in Hin; apply (dock_framed _ side); [exact Hs|]; shown_op;
  eapply L; try apply _; eauto using wm_TakeFocus_dock.
Lemma dock_press side p button t : keeps_with pm_ windows_ members fine (ref side) p
  (Container.HandlePanelButtonPress (panel_dock sm side) p button t).
Proof. dock_op side dsafe_HandlePanelButtonPress. Qed.
Lemma dock_focus side p b : keeps_with pm_ windows_ members fine (ref side) p
  (Container.HandlePanelFocusChange (panel_dock sm side) p b).
Proof. dock_op side dsafe_HandlePanelFocusChange. Qed.
Lemma dock_state side p b : keeps_with pm_ windows_ members fine (ref side) p
  (Container.HandleSetPanelStateMessage (panel_dock sm side) p b).
Proof. dock_op side dsafe_HandleSetPanelStateMessage. Qed.
Lemma dock_focus_message side p : keeps_with pm_ windows_ members fine (ref side) p
  (Container.HandleFocusPanelMessage (panel_dock sm side) p).
Proof. dock_op side dsafe_HandleFocusPanelMessage. Qed.
Lemma nothing_keeps c p : keeps_with pm_ windows_ members fine c p (mret ()).
Proof. intros d s Hs _. apply wp_ret. by split. Qed.
Lemma nothing_kept : keeps pm_ windows_ members fine (mret ()).
Proof. intros d s Hs. apply wp_ret. by split. Qed.
Lemma dock_resize side p : keeps_with pm_ windows_ members fine (ref side) p
  (Container.HandlePanelResize (panel_dock sm side) p).
Proof. destruct side; apply nothing_keeps. Qed.
Lemma dock_extra_screen side d k x h : dock_extra side d k →
  x = PanelDock.x_ k ∨ (∃ w : W, wm_ok w ∧ x = i32 (wm_width w - PanelDock.width_ k)) →
  dock_extra side d (k <| PanelDock.x_ := x |>) ∧ dock_extra side d (k <| PanelDock.height_ := h |>).
Proof.
  intros (Ht & Hw & Hx & Hd) Hcase. destruct k. cbn in *. split; [|done]. split; [done|]. split; [done|]. split; [|done].
  cbn. destruct Hcase as [->|(w & Hok & ->)]; [done|]. destruct (wm_screen w Hok) as [Hsw _].
  rewrite Hw. unfold PanelManager.kPanelDockWidth, small in *. rewrite i32_small; unfold is_i32; lia.
Qed.
Lemma dock_screen side : keeps pm_ windows_ members fine (Container.HandleScreenResize (panel_dock sm side)).
Proof.
  intros d s Hs. apply (dock_framed _ side); [exact Hs|]. shown_op.
  eapply dsafe_HandleScreenResize; try apply _; eauto using wm_TakeFocus_dock. intros k x h. apply dock_extra_screen.
Qed.

(** *** Dragging *)

Lemma heap_kept_at {rest} p r s s' : keep rest s s' → heap s !! p = Some r → ∃ r', heap s' !! p = Some r' ∧ kept r r'.
Proof. intros (_ & Hk & _). apply Hk. Qed.
Lemma bar_dragged p px py s : fine (Some p) s → p ∈ members PANEL_BAR s →
  wp (Container.HandleNotifyPanelDraggedMessage (panel_bar sm) p px py)
     (fun b s' => (wants PANEL_BAR p px py s → b = true) ∧ fine (Some p) s' ∧ settled pm_ windows_ members s s' ∧
                  ∃ r r', heap s !! p = Some r ∧ heap s' !! p = Some r' ∧ kept r r') s.
Proof.
  intros Hs Hin. shown_op. destruct (fine_bar_heap _ s p Hs Hin) as [r Hr].
  assert (framed (bar_of bar_ none (bar_extra (Some p)) (bar_ps s)) bar_keep
            (PanelBar.HandleNotifyPanelDraggedMessage sm bar_ set_bar wm_TakeFocus p px py)) as Hm.
  { eapply safe_HandleNotifyPanelDraggedMessage; try apply _; eauto using wm_TakeFocus_bar. by right. }
  eapply wp_mono; [apply (wp_result _ (fun b _ => wants PANEL_BAR p px py s → b = true)); [apply Hm, Hs|]|].
  - intros b s' Hrun (r' & Hr' & Hsane & Hw).
    assert (r' = r) as -> by congruence. eapply bar_Dragged_result; [exact Hr| |exact Hrun].
    eapply bar_wants_stays; [by eapply fine_wm|exact Hsane|exact Hw].
  - intros b s' [Hb [Hs' Hk]]. split; [done|]. destruct (heap_kept_at p r s s' Hk Hr) as (r' & Hr' & Hkr).
    split; [eapply bar_done; try done; by left|].
    split; [by apply (bar_settled (bar_ps s)); [|apply Hs'|]|]. by exists r, r'.
Qed.
Lemma dock_at side d s p : fine d s → p ∈ members (ref side) s → ∃ r, heap s !! p = Some r ∧ usable r.
Proof.
  intros [_ Hd] Hp. rewrite members_dock in Hp. destruct (PanelDockSafe.wf_heap _ _ _ _ s (proj1 (Hd side)) p Hp) as (r & ? & ? & _).
  by exists r.
Qed.
Lemma dock_extra_of side d s : fine d s → dock_extra side d (dock side s).
Proof. intros [_ Hd]. apply (PanelDockSafe.wf_extra _ _ _ _ s (proj1 (Hd side))). Qed.
Lemma dock_dragged side p px py s : fine (Some p) s → p ∈ members (ref side) s →
  wp (Container.HandleNotifyPanelDraggedMessage (panel_dock sm side) p px py)
     (fun b s' => (wants (ref side) p px py s → b = true) ∧ fine (Some p) s' ∧ settled pm_ windows_ members s s' ∧
                  ∃ r r', heap s !! p = Some r ∧ heap s' !! p = Some r' ∧ kept r r') s.
Proof.
  intros Hs Hin. shown_op. destruct (dock_at side _ s p Hs Hin) as (r & Hr & _).
  rewrite members_dock in Hin. pose proof (proj1 (fine_around side _ _) Hs) as Hs0.
  assert (framed (dock_inv side (Some p) (PanelDock.panels_ (dock side s))) (dock_keep side)
            (PanelDock.HandleNotifyPanelDraggedMessage sm (dock side) (set_dock side) p px py)) as Hm.
  { eapply dsafe_HandleNotifyPanelDraggedMessage; try apply _; eauto.
    intros k (?&?&?&?). destruct k; split; [done|]. split; [done|]. split; [done|]. by right. }
  eapply wp_mono; [apply (wp_result _ (fun b _ => wants (ref side) p px py s → b = true)); [by apply Hm|]|].
  - intros b s' Hrun (r' & Hr' & Hsane & Hw)%wants_dock.
    assert (r' = r) as -> by congruence. eapply dock_Dragged_result; [exact Hr| |exact Hrun].
    eapply dock_wants_stays; [by apply dock_extra_of|exact Hsane|exact Hw].
  - intros b s' [Hb [Hs' Hk]]. split; [done|]. destruct (heap_kept_at p r s s' Hk Hr) as (r' & Hr' & Hkr).
    split; [apply (fine_around side); destruct Hs' as [? ?]; by split|].
    split; [apply (dock_settled side); [by rewrite (proj2 Hs')|by apply keep_live]|]. by exists r, r'.
Qed.

(** A container that does not have a panel does not think that it is dragged. *)
Lemma bar_not_dragged d p s : fine d s → p ∉ members PANEL_BAR s → PanelBar.dragged_panel_ (bar_ s) ≠ Some p.
Proof. intros [[Hwf _] _] Hp Hd. apply Hp, (wf_pointers _ _ _ s Hwf). by left. Qed.
Lemma dock_not_dragged d side p s : fine d s → p ∉ members (ref side) s → PanelDock.dragged_panel_ (dock side s) ≠ Some p.
Proof.
  intros [_ Hd] Hp Hdr. rewrite members_dock in Hp. by apply Hp, (wf_dragged _ _ _ _ s (proj1 (Hd side))).
Qed.
Lemma fine_undrag p s : fine (Some p) s → PanelBar.dragged_panel_ (bar_ s) ≠ Some p →
  (∀ side, PanelDock.dragged_panel_ (dock side s) ≠ Some p) → fine None s.
Proof.
  intros [Hb Hd] Hnb Hnd. split.
  - unfold bar_fine in *. eapply bar_of_extra; [exact Hb|]. destruct (PanelBarSafe.wf_extra _ _ _ s (proj1 Hb)); [by left|done].
  - intros side. specialize (Hd side). eapply dock_of_extra; [exact Hd|].
    destruct (PanelDockSafe.wf_extra _ _ _ _ s (proj1 Hd)) as (?&?&?&[?|?]); [|by destruct (Hnd side)].
    split; [done|]. split; [done|]. split; [done|by left].
Qed.
Lemma fine_freed p s : fine (Some p) s → (∀ c, p ∉ members c s) → fine None s.
Proof.
  intros Hs Hout. apply (fine_undrag p); [done|by apply (bar_not_dragged (Some p))|].
  intros side. by apply (dock_not_dragged (Some p)).
Qed.
Lemma fine_weakened d s : fine None s → fine d s.
Proof.
  intros [Hb Hd]. split.
  - unfold bar_fine in *. eapply bar_of_extra; [exact Hb|]. left. by destruct (PanelBarSafe.wf_extra _ _ _ s (proj1 Hb)).
  - intros side. specialize (Hd side). eapply dock_of_extra; [exact Hd|].
    destruct (PanelDockSafe.wf_extra _ _ _ _ s (proj1 Hd)) as (?&?&?&?). split; [done|]. split; [done|]. split; [done|]. left. naive_solver.
Qed.

Lemma bar_complete p s : fine (Some p) s → p ∈ members PANEL_BAR s → (∀ c', c' ≠ PANEL_BAR → p ∉ members c' s) →
  settles (Some p) None (Container.HandleNotifyPanelDragCompleteMessage (panel_bar sm) p) s.
Proof.
  intros Hs Hin Hout. shown_op. pose proof Hs as [Hb _].
  eapply wp_mono; [eapply (HandlePanelDragComplete_ends sm bar_ set_bar bar_rest Hsm wm_TakeFocus p (bar_ps s)); [apply (wm_TakeFocus_bar (Some p))|done|exact Hb]|].
  intros _ s' [Hb' Hk]. split.
  - apply (fine_undrag p).
    + eapply bar_done; [exact Hs| |exact Hk|by left]. eapply bar_of_extra; [exact Hb'|]. left.
      apply (PanelBarSafe.wf_extra _ _ _ s' (proj1 Hb')).
    + by rewrite (PanelBarSafe.wf_extra _ _ _ s' (proj1 Hb')).
    + intros side. destruct Hk as (_ & _ & _ & (_ & _ & El & Er)).
      assert (dock side s' = dock side s) as -> by by destruct side.
      apply (dock_not_dragged (Some p)); [done|]. apply Hout. by destruct side.
  - apply (bar_settled (bar_ps s)); [done|apply Hb'|done].
Qed.
Lemma dock_complete_ends side p s :
  ∀ s', PanelDock.HandleNotifyPanelDragCompleteMessage sm (dock side) (set_dock side) (HandlePanelResize (W := W)) p s = Val ((), s') →
    PanelDock.dragged_panel_ (dock side s') ≠ Some p.
Proof.
  intros s'. unfold PanelDock.HandleNotifyPanelDragCompleteMessage, PanelDock.get. rewrite gets_bind. cbn [id].
  case_decide as Hd; [by intros [= <-]|].
  match goal with |- ?m s = _ → _ => enough (ends (fun _ s' => PanelDock.dragged_panel_ (dock side s') = None) m) as He end.
  { intros Hrun. apply He in Hrun. by rewrite Hrun. }
  repeat (apply ends_bind; intros ?). intros s1 [] s2 [= <-]. destruct side; cbn; [by destruct (left_ s1)|by destruct (right_ s1)].
Qed.
Lemma dock_complete side p s : fine (Some p) s → p ∈ members (ref side) s →
  PanelManager.containers_by_panel_ (pm_ s) !! p = Some (ref side) → (∀ c', c' ≠ ref side → p ∉ members c' s) →
  settles (Some p) None (Container.HandleNotifyPanelDragCompleteMessage (panel_dock sm side) p) s.
Proof.
  intros Hs Hin Hcb Hout. rewrite members_dock in Hin. shown_op. set (ps := PanelDock.panels_ (dock side s)) in *.
  set (K := fun s : S => around side (Some p) s ∧ PanelManager.containers_by_panel_ (pm_ s) !! p = Some (ref side)).
  assert (∀ s1 s2, K s1 → wm_ok (world s2) → live (dock_rest side) s1 s2 → K s2) as HK.
  { intros s1 s2 [Ha Hc] Hok Hl. split; [by apply (around_stable side _ s1)|]. destruct Hl as (_&_&_&(->&_)). done. }
  pose proof (proj1 (fine_around side _ _) Hs) as Hs0.
  assert (dock_of (dock side) placed_all (dock_extra side (Some p)) K ps s) as Hs1.
  { by apply (dock_of_rest (around side (Some p))); [|split; [apply (wf_rest _ _ _ _ s (proj1 Hs0))|]]. }
  assert (framed (dock_of (dock side) placed_all (dock_extra side (Some p)) K ps) (live (dock_rest side))
    (PanelDock.HandleNotifyPanelDragCompleteMessage sm (dock side) (set_dock side) HandlePanelResize p)) as Hm.
  { eapply dsafe_HandleNotifyPanelDragCompleteMessage; try apply _; eauto.
    - by intros k (_ & -> & _).
    - intros k (?&?&?&?). destruct k. split; [done|]. split; [done|]. split; [done|by left].
    - intros s1 Hs1'. pose proof (wf_rest _ _ _ _ s1 (proj1 Hs1')) as [_ Hc1]. unfold HandlePanelResize. apply wp_gets_bind.
      unfold PanelManager.GetContainerForPanel. rewrite Hc1. destruct side; by apply wp_ret. }
  eapply wp_mono; [apply (wp_result _ (fun _ s' => PanelDock.dragged_panel_ (dock side s') ≠ Some p)); [by apply Hm|]|].
  { intros [] s' Hrun. by eapply dock_complete_ends. }
  intros [] s' (Hnd & Hs' & Hl).
  assert (fine (Some p) s') as Hf'.
  { apply (fine_around side). pose proof (wf_rest _ _ _ _ s' (proj1 Hs')) as [Ha _].
    eapply dock_of_rest; [|exact Ha]. destruct Hs' as [? ?]; by split. }
  assert (settled pm_ windows_ members s s') as Hset by (apply (dock_settled side); [by rewrite (proj2 Hs')|done]).
  split; [|done]. assert (∀ c, c ≠ ref side → p ∉ members c s') as Hout'.
  { intros c Hc. rewrite (proj2 Hset c). by apply Hout. }
  apply (fine_undrag p); [done| |].
  - apply (bar_not_dragged (Some p)); [done|]. apply Hout'. by destruct side.
  - intros side'. destruct (decide (side' = side)) as [->|Hne]; [done|].
    apply (dock_not_dragged (Some p)); [done|]. apply Hout'. by destruct side, side'.
Qed.

(** *** Adding and removing *)

Lemma wants_kept c p px py s s' : same_screen (world s) (world s') →
  (∀ r, heap s !! p = Some r → ∃ r', heap s' !! p = Some r' ∧ kept r r') →
  (∀ side, c = ref side → PanelDock.type_ (dock side s') = PanelDock.type_ (dock side s) ∧
     PanelDock.x_ (dock side s') = PanelDock.x_ (dock side s) ∧ PanelDock.width_ (dock side s') = PanelDock.width_ (dock side s)) →
  wants c p px py s → wants c p px py s'.
Proof.
  intros (_ & Eh & _) Hk Hd (r & Hr & Hsane & Hw). destruct (Hk r Hr) as (r' & Hr' & Hkr). exists r'. split; [done|].
  split; [by apply (kept_sane px py r)|]. destruct Hkr as ((_ & Ecw & Ech) & (_ & _ & Eth) & _).
  destruct (ref_cases c) as [->|(side & ->)].
  - unfold bar_wants, Panel.total_height, Panel.content_height, Panel.titlebar_height in *. by rewrite Eh, Ech, Eth.
  - assert (dock_wants (dock side s') px r' = true); [|by destruct side].
    assert (dock_wants (dock side s) px r = true) as Hw' by by destruct side.
    unfold dock_wants, Panel.content_width in *. destruct (Hd side eq_refl) as (-> & -> & ->). by rewrite Ecw.
Qed.
Abbreviation added c d p source s := (fun s' => fine d s' ∧ during pm_ windows_ s s' ∧ members c s' ≡ₚ p :: members c s ∧
  (∀ c', c' ≠ c → members c' s' ≡ₚ members c' s) ∧
  (∃ r', heap s' !! p = Some r' ∧ Panel.composited_windows_set_up_ r' = true) ∧
  (source = PANEL_SOURCE_DRAGGED → ∀ px py, wants c p px py s → wants c p px py s')).
Lemma bar_add p source d s r : fine d s → heap s !! p = Some r → p ∉ members PANEL_BAR s →
  windows_apart p r (heap s) → (source ≠ PANEL_SOURCE_NEW → Panel.composited_windows_set_up_ r = true) →
  (source = PANEL_SOURCE_DRAGGED → d = Some p) →
  wp (Container.AddPanel (panel_bar sm) p source) (fun _ s' => added PANEL_BAR d p source s s') s.
Proof.
  intros Hs Hr Hout Hapart Hup Hdrag. shown_op.
  eapply wp_mono; [apply (AddPanel_safe sm bar_ set_bar bar_rest Hsm (bar_extra d) (bar_ps s) p r source s); try done|].
  - intros Hsrc d' a f _. right. by rewrite Hdrag.
  - apply Hs.
  - intros q rq Hq Hrq. apply (Hapart q rq); [|done]. by intros ->.
  - intros Hsrc. split; [apply Hup; by rewrite Hsrc|]. pose proof (bar_not_dragged d p s Hs Hout) as Hn.
    destruct Hs as [[Hwf _] _]. destruct (PanelBarSafe.wf_extra _ _ _ s Hwf) as [|Hd]; [done|].
    rewrite Hdrag in Hd by done. done.
  - intros _ s' [Hb Hk]. pose proof Hk as (Hscr & _ & _ & (_ & _ & El & Er)).
    split; [eapply bar_done; [exact Hs|exact Hb|exact Hk|by left]|]. split; [by apply bar_keep_during|].
    split; [apply Hb|]. split; [intros []; cbn; by rewrite ?El, ?Er|]. split.
    + assert (p ∈ bar_ps s') as Hp by (rewrite (proj2 Hb); by left).
      destruct (PanelBarSafe.wf_heap _ _ _ s' (proj1 Hb) p Hp) as (r' & ? & Hup'). exists r'. split; [done|]. apply Hup'. by intros [].
    + intros _ px py. apply wants_kept; [done|intros r0 Hr0; exact (heap_kept_at p r0 s s' Hk Hr0)|by intros []].
Qed.
Lemma dock_add side p source d s r : fine d s → heap s !! p = Some r → p ∉ members (ref side) s → usable r →
  wp (Container.AddPanel (panel_dock sm side) p source) (fun _ s' => added (ref side) d p source s s') s.
Proof.
  intros Hs Hr Hout Hu. rewrite members_dock in Hout. shown_op. set (k0 := dock side s).
  set (Y := fun k => dock_extra side d k ∧ PanelDock.type_ k = PanelDock.type_ k0 ∧ PanelDock.x_ k = PanelDock.x_ k0 ∧
                     PanelDock.width_ k = PanelDock.width_ k0).
  pose proof (proj1 (fine_around side _ _) Hs) as Hs0.
  eapply wp_mono; [apply (dsafe_AddPanel sm (dock side) (set_dock side) (dock_rest side) Hsm _ (visibility_safe side)
    Y ltac:(by intros [] l) (around side d) (around_stable side d) (PanelDock.panels_ k0) p r source s); try done|].
  - eapply dock_of_extra; [exact Hs0|]. split; [by apply dock_extra_of|done].
  - intros _ s' [Hd Hk]. pose proof (PanelDockSafe.wf_extra _ _ _ _ s' (proj1 Hd)) as [Hex Hsame].
    assert (fine d s') as Hf'.
    { apply (fine_around side). eapply dock_of_extra; [|exact Hex]. destruct Hd as [? ?]; by split. }
    split; [done|]. pose proof (keep_live _ _ _ Hk) as Hl. split; [by eapply dock_live_during|].
    split; [rewrite !members_dock, (proj2 Hd); symmetry; apply Permutation_cons_append|].
    split.
    { intros c Hc. destruct Hl as (_&_&_&(_&_&Eo&(f & Eb & _))).
      assert (bar_ps s' = bar_ps s) as Ep by (rewrite Eb; by destruct (bar_ s)).
      destruct side, c; cbn in *; rewrite ?Ep, ?Eo; done. }
    split.
    + assert (p ∈ PanelDock.panels_ (dock side s')) as Hp.
      { rewrite (proj2 Hd). apply elem_of_app. right. by left. }
      destruct (PanelDockSafe.wf_heap _ _ _ _ s' (proj1 Hd) p Hp) as (r' & ? & _ & Hup'). exists r'. split; [done|].
      apply Hup'. by intros [].
    + intros _ px py. apply wants_kept; [apply Hk|intros r0 Hr0; exact (heap_kept_at p r0 s s' Hk Hr0)|].
      intros side' Hside. assert (side' = side) as -> by by destruct side, side'. apply Hsame.
Qed.

Abbreviation removed c d p s := (fun s' => fine d s' ∧ during pm_ windows_ s s' ∧ members c s ≡ₚ p :: members c s' ∧
  (∀ c', c' ≠ c → members c' s' ≡ₚ members c' s) ∧
  ∃ r r', heap s !! p = Some r ∧ heap s' !! p = Some r' ∧ kept r r').
Lemma bar_remove p d s : fine d s → p ∈ members PANEL_BAR s →
  wp (Container.RemovePanel (panel_bar sm) p) (fun _ s' => removed PANEL_BAR d p s s') s.
Proof.
  intros Hs Hin. shown_op. destruct (fine_bar_heap d s p Hs Hin) as [r Hr].
  apply elem_of_Permutation in Hin as [ps' Hps].
  eapply wp_mono; [apply (RemovePanel_safe sm bar_ set_bar bar_rest Hsm (bar_extra d) p (bar_ps s) ps' s); [done|by left|apply Hs|done]|].
  intros _ s' [Hb Hk]. pose proof Hk as (_ & _ & _ & (_ & _ & El & Er)).
  split; [eapply bar_done; [exact Hs|exact Hb|exact Hk|by left]|]. split; [by apply bar_keep_during|].
  split; [cbn; by rewrite (proj2 Hb)|]. split; [intros []; cbn; by rewrite ?El, ?Er|].
  destruct (heap_kept_at p r s s' Hk Hr) as (r' & ? & ?). by exists r, r'.
Qed.
Lemma dock_remove side p d s : fine d s → p ∈ members (ref side) s →
  wp (Container.RemovePanel (panel_dock sm side) p) (fun _ s' => removed (ref side) d p s s') s.
Proof.
  intros Hs Hin. destruct (dock_at side d s p Hs Hin) as (r & Hr & _). rewrite members_dock in Hin. shown_op.
  pose proof (proj1 (fine_around side _ _) Hs) as Hs0.
  eapply wp_mono; [apply (dsafe_RemovePanel sm (dock side) (set_dock side) (dock_rest side) Hsm _ (visibility_safe side)
    (dock_extra side d) ltac:(by intros [] l) (around side d) (around_stable side d) (PanelDock.panels_ (dock side s)) p s); try done|].
  - intros k (?&?&?&?). destruct k. split; [done|]. split; [done|]. split; [done|by left].
  - intros _ s' [Hd Hk]. pose proof (keep_live _ _ _ Hk) as Hl.
    split; [apply (fine_around side); destruct Hd as [? ?]; by split|]. split; [by eapply dock_live_during|].
    split; [rewrite !members_dock, (proj2 Hd); by apply without_perm|].
    split.
    { intros c Hc. destruct Hl as (_&_&_&(_&_&Eo&(f & Eb & _))).
      assert (bar_ps s' = bar_ps s) as Ep by (rewrite Eb; by destruct (bar_ s)).
      destruct side, c; cbn in *; rewrite ?Ep, ?Eo; done. }
    destruct (heap_kept_at p r s s' Hk Hr) as (r' & ? & ?). by exists r, r'.
Qed.

(** *** The laws *)

Ltac by_container c bar dk :=
  let side := fresh "side" in
  destruct (ref_cases c) as [->|(side & ->)]; [exact bar|rewrite container_ref; exact (dk side)].

#[local] Instance system_laws :
  ContainerLaws pm_ windows_ alike container members fine presses wants Tick tick tick_due
    HandleLayoutManagerAreaChange wm_TakeFocus panel_bar_TakeFocus.
Proof.
  split.
  - apply fine_wm.
  - intros d s s' [Hb Hd] Hok (Eb & El & Er) Hl. split.
    + apply (bar_fine_members d s); [done|done|by rewrite Eb|]. intros q r Hq. by apply (Hl PANEL_BAR).
    + intros side. apply (dock_fine_members side d s); [done|done|by destruct side|].
      intros q r Hq. apply (Hl (ref side)). by rewrite members_dock.
  - intros d s c p Hs Hp. destruct (ref_cases c) as [->|(side & ->)]; [by eapply fine_bar_heap|].
    destruct (dock_at side d s p Hs Hp) as (r & ? & _). by eexists.
  - intros d s c [Hb Hd]. destruct (ref_cases c) as [->|(side & ->)]; [apply Hb|]. rewrite members_dock. apply (Hd side).
  - apply fine_weakened.
  - apply fine_freed.
  - intros c s s' (Eb & El & Er). destruct c; cbn; by rewrite ?Eb, ?El, ?Er.
  - intros c p px py s s' (Eb & El & Er) Eh Ew (r & Hr & Hsane & Hw). exists r. rewrite Eh. split; [done|]. split; [done|].
    destruct c; by rewrite ?Ew, ?El, ?Er.
  - intros c p button t. by_container c (bar_press p button t) (fun side => dock_press side p button t).
  - intros c p t. by_container c (bar_titlebar_enter p t) (fun side => nothing_keeps (ref side) p).
  - intros c p b. by_container c (bar_focus p b) (fun side => dock_focus side p b).
  - intros c p b. by_container c (bar_state p b) (fun side => dock_state side p b).
  - intros c p. by_container c (bar_focus_message p) (fun side => dock_focus_message side p).
  - intros c p. by_container c (bar_resize p) (fun side => dock_resize side p).
  - intros c p. by_container c (bar_urgency p) (fun side => nothing_keeps (ref side) p).
  - intros c xid px py rx ry button t d s Hx Hs. destruct (ref_cases c) as [->|(side & ->)]; [by apply bar_input_press|].
    rewrite container_ref. by apply nothing_kept.
  - intros c xid px py rx ry button t. by_container c nothing_kept (fun side : PanelDock.DockType => nothing_kept).
  - intros c xid px py rx ry t. by_container c (bar_enter xid px py rx ry t) (fun side : PanelDock.DockType => nothing_kept).
  - intros c xid px py rx ry t. by_container c (bar_leave xid px py rx ry t) (fun side : PanelDock.DockType => nothing_kept).
  - intros c. by_container c bar_screen dock_screen.
  - intros. apply area_changes.
  - apply wm_takes_focus.
  - apply bar_takes_focus.
  - apply bar_tick.
  - intros c p px py d s r Hs Hr Hsane. destruct (ref_cases c) as [->|(side & ->)]; [|rewrite container_ref].
    + eapply wp_mono; [by apply bar_ShouldAdd_wp|]. intros b s' [-> ->]. split; [done|]. intros Hw. by exists r.
    + eapply wp_mono; [by apply dock_ShouldAdd_wp|]. intros b s' [-> ->]. split; [done|]. intros Hw.
      apply wants_dock. by exists r.
  - intros c p px py s Hs Hp. destruct (ref_cases c) as [->|(side & ->)]; [by apply bar_dragged|].
    rewrite container_ref. by apply dock_dragged.
  - intros c p s Hs Hp Hc Hout. destruct (ref_cases c) as [->|(side & ->)]; [by apply bar_complete|].
    rewrite container_ref. by apply dock_complete.
  - intros c p source d s r Hs Hr Hout Hu Hapart Hup Hdrag.
    destruct (ref_cases c) as [->|(side & ->)]; [by apply (bar_add p source d s r)|].
    rewrite container_ref. by apply (dock_add side p source d s r).
  - intros c p d s Hs Hp. destruct (ref_cases c) as [->|(side & ->)]; [by apply bar_remove|].
    rewrite container_ref. by apply dock_remove.
Qed.

(** ** The system *)

Variable new_panel_address : S → Z.
Hypothesis new_fresh : ∀ s, heap s !! new_panel_address s = None.
Variable indeterminate_gravity : Window.Gravity.
Variable self : Z.
Variable wm_ipc_version : S → Z.

(** An event of the program, handled by the panel manager; what may happen; runs. *)
Definition system_handle : PanelManagerSafe.Event Tick → M S unit :=
  PanelManagerSafe.handle sm pm_ set_pm windows_ set_windows container Tick tick HandleLayoutManagerAreaChange
    wm_TakeFocus panel_bar_TakeFocus new_panel_address indeterminate_gravity self left_ right_ wm_ipc_version.
Definition system_legal : PanelManagerSafe.Event Tick → S → Prop :=
  PanelManagerSafe.legal pm_ windows_ presses Tick tick_due.
Definition system_inv : S → Prop := PanelManagerSafe.inv pm_ windows_ members fine.
Definition system_reaches : S → S → Prop :=
  PanelManagerSafe.reaches sm pm_ set_pm windows_ set_windows alike container presses Tick tick tick_due
    HandleLayoutManagerAreaChange wm_TakeFocus panel_bar_TakeFocus new_panel_address indeterminate_gravity self left_ right_
    wm_ipc_version.

Theorem system_keeps e s : system_inv s → system_legal e s →
  ∃ s', system_handle e s = Val ((), s') ∧ system_inv s'.
Proof.
  intros Hs Hl.
  pose proof (PanelManagerSafe.handle_keeps sm pm_ set_pm windows_ set_windows alike Hsm container members fine presses wants
    Tick tick tick_due HandleLayoutManagerAreaChange wm_TakeFocus panel_bar_TakeFocus new_panel_address
    indeterminate_gravity self new_fresh left_ right_ wm_ipc_version e s Hs Hl) as Hk.
  apply wp_run in Hk as ([] & s' & Hrun & Hs'). by exists s'.
Qed.

(** ** The constructors *)

Definition whatever (s s' : S) : Prop := True.
#[local] Instance whatever_preorder : PreOrder whatever.
Proof. by split. Qed.

Section build.
Context {C : Type}.
Variable part : S → C.
Variable set_part : C → S → S.
Variable rest : S → S → Prop.
Context `{!PartPlace S W C part set_part rest}.
Variable P : C → W → Prop.
Variable s0 : S.
Hypothesis P_world : ∀ c w w', P c w → same_screen w w' → P c w'.

(** The part is being built; nothing else changes but the world. *)
Record building (s : S) : Prop := {
  b_world : wm_ok (world s);
  b_screen : same_screen (world s0) (world s);
  b_heap : heap s = heap s0;
  b_rest : rest s0 s;
  b_part : P (part s) (world s)
}.
Abbreviation builds m := (framed building whatever m).
Lemma building_set_world w s : building s → wm_ok w → same_screen (world s) w → building (set_world w s).
Proof.
  intros [E1 E2 E3 E4 E5] Hok Hscr. split.
  - done.
  - by etransitivity.
  - done.
  - etransitivity; [exact E4|]. apply (rest_set_world (part := part) (set_part := set_part)).
  - rewrite (part_set_world (rest := rest)). by apply (P_world _ (world s)).
Qed.
Lemma building_set_part c s : building s → P c (world s) → building (set_part c s).
Proof.
  intros [E1 E2 E3 E4 E5] Hc. split.
  - by rewrite (world_set_part (rest := rest)).
  - by rewrite (world_set_part (rest := rest)).
  - by rewrite (heap_set_part (rest := rest)).
  - etransitivity; [exact E4|]. apply (rest_set_part (part := part) (set_part := set_part)).
  - by rewrite (part_set_part (rest := rest)), (world_set_part (rest := rest)).
Qed.
Lemma builds_world {A} (m : M W A) : quiet m → builds (PanelRef.on_world m).
Proof.
  intros Hm s Hs. apply wp_zoom. eapply wp_mono; [apply Hm, Hs|]. intros a w [Hok Hscr].
  split; [by apply building_set_world|done].
Qed.
Lemma builds_registrar (f : EventConsumers.t → C → EventConsumers.t * C) :
  (∀ e c w, P c w → P (f e c).2 w) →
  builds (modify (fun s => set_world (set_consumers (f (get_consumers (world s)) (part s)).1 (world s))
                             (set_part (f (get_consumers (world s)) (part s)).2 s))).
Proof.
  intros Hf. apply framed_modify. intros s Hs. split; [|done].
  assert (building (set_part (f (get_consumers (world s)) (part s)).2 s)) as Hs1.
  { apply building_set_part; [done|]. apply Hf, Hs. }
  destruct (wm_set_consumers (f (get_consumers (world s)) (part s)).1 (world s)) as (Hok & Hscr); [apply Hs|].
  apply building_set_world; [done|done|]. by rewrite (world_set_part (rest := rest)).
Qed.
End build.

(** An input window of the part. *)
Lemma create_wp {C} (part : S → C) set_part rest `{!PartPlace S W C part set_part rest} (P : C → W → Prop) s0 s x y w h m :
  (∀ c w w', P c w → same_screen w w' → P c w') → building part rest P s0 s →
  wp (PanelRef.on_world (WindowManager.CreateInputWindow x y w h m))
     (fun xid s' => building part rest (fun c w => P c w ∧ wm_used xid w) s0 s' ∧ ¬ wm_used xid (world s) ∧
                    same_screen (world s) (world s')) s.
Proof.
  intros HP Hs. apply wp_zoom. eapply wp_mono; [apply CreateInputWindow_wp, Hs|].
  intros xid u ((Hok & Hscr) & _ & Hn & Hu).
  destruct (building_set_world part set_part rest P s0 HP u s Hs Hok Hscr) as [E1 E2 E3 E4 E5]. by split.
Qed.
Lemma building_weaken {C} (part : S → C) rest (P Q : C → W → Prop) s0 s :
  building part rest P s0 s → (∀ c w, P c w → Q c w) → building part rest Q s0 s.
Proof. intros [] HQ. split; auto. Qed.

Definition new_bar (anchor show : Z) (b : PanelBar.t) : Prop :=
  PanelBar.panels_ b = [] ∧ PanelBar.panel_infos_ b = ∅ ∧ PanelBar.dragged_panel_ b = None ∧
  PanelBar.anchor_panel_ b = None ∧ PanelBar.desired_panel_to_focus_ b = None ∧
  PanelBar.collapsed_panel_state_ b = PanelBar.COLLAPSED_PANEL_STATE_HIDDEN ∧
  PanelBar.show_collapsed_panels_timer_id_ b = 0 ∧ PanelBar.GetInputWindows b = [anchor; show].
Lemma bar_construct_wp mgr s : wm_ok (world s) →
  wp (PanelBar.construct sm bar_ set_bar mgr)
     (fun _ s' => wm_ok (world s') ∧ same_screen (world s) (world s') ∧ heap s' = heap s ∧ bar_rest s s' ∧
        ∃ anchor show, new_bar anchor show (bar_ s') ∧ anchor ≠ show ∧
          ¬ wm_used anchor (world s) ∧ ¬ wm_used show (world s) ∧
          wm_used anchor (world s') ∧ wm_used show (world s')) s.
Proof.
  intros Hok. unfold PanelBar.construct.
  assert (building bar_ bar_rest (fun _ _ => True) s s) as Hs by by split.
  assert (∀ x w w', wm_used x w → same_screen w w' → wm_used x w') as Hmono by (intros x w w' ? (_&_&Hu); by apply Hu).
  eapply wp_cut; [by apply (create_wp bar_ set_bar bar_rest (fun _ _ => True) s s)|]. intros anchor s1 (Hs1 & Hn1 & Hscr1).
  set (P1 := fun (_ : PanelBar.t) w => wm_used anchor w).
  assert (∀ c w w', P1 c w → same_screen w w' → P1 c w') as HP1 by (unfold P1; eauto).
  assert (building bar_ bar_rest P1 s s1) as Hs1' by (eapply building_weaken; [exact Hs1|by intros b w [_ Hu]]).
  eapply wp_cut; [apply (builds_world bar_ set_bar bar_rest P1 s HP1 (extern (new_image _))); [|exact Hs1']|].
  { apply quiet_extern. intros w. apply wm_new_image. }
  intros actor s2 [Hs2 _].
  eapply wp_cut; [apply (create_wp bar_ set_bar bar_rest P1 s s2 _ _ _ _ _ HP1 Hs2)|].
  intros show s3 (Hs3 & Hn3 & Hscr3).
  assert (anchor ≠ show) as Hne by (intros <-; apply Hn3; exact (b_part _ _ _ _ _ Hs2)).
  assert (¬ wm_used show (world s)) as Hshow.
  { intros Hu. apply Hn3. by eapply Hmono; [|apply Hs2]. }
  set (P := fun b w => new_bar anchor show b ∧ wm_used anchor w ∧ wm_used show w).
  assert (∀ c w w', P c w → same_screen w w' → P c w') as HP by (unfold P; naive_solver).
  apply wp_modify_bind.
  match goal with |- wp _ _ (set_bar ?b s3) => assert (building bar_ bar_rest P s (set_bar b s3)) as Hs4 end.
  { destruct Hs3 as [E1 E2 E3 E4 [E5 E6]]. by split. }
  set (s4 := set_bar _ s3) in *.
  assert (∀ f, framed (building bar_ bar_rest P s) whatever (PanelBar.registrar bar_ set_bar f)) as Hreg.
  { intros f s5 Hs5. unfold PanelBar.registrar. apply wp_modify. split; [|done].
    destruct (f _) as [r e]. set (b := _ : PanelBar.t).
    assert (building bar_ bar_rest P s (set_bar b s5)) as Hs6.
    { apply (building_set_part bar_ set_bar bar_rest P s); [done|]. unfold b. destruct Hs5 as [_ _ _ _ [E5 E6]].
      split; [|done]. by destruct (bar_ s5). }
    destruct (wm_set_consumers e (world s5)) as (Hok6 & Hscr6); [apply Hs5|].
    apply (building_set_world bar_ set_bar bar_rest P s HP); [exact Hs6|done|exact Hscr6]. }
  assert (∀ A (m : M W A), quiet m → framed (building bar_ bar_rest P s) whatever (PanelRef.on_world m)) as Hworld.
  { intros A m Hm. by apply (builds_world bar_ set_bar bar_rest P s HP). }
  match goal with |- wp ?m _ s4 => assert (framed (building bar_ bar_rest P s) whatever m) as Hrest end.
  { do 2 (apply framed_bind; [apply _|apply Hreg|intros _]).
    do 3 (apply framed_bind; [apply _|apply Hworld, quiet_actor|intros _]).
    apply framed_bind; [apply _|by apply Hworld, quiet_StackActorAtTopOfLayer|intros _].
    do 2 (apply framed_bind; [apply _|by apply Hworld, quiet_StackXidAtTopOfLayer|intros _]). apply framed_ret, _. }
  eapply wp_mono; [by apply Hrest|]. intros _ s' [[E1 E2 E3 E4 (E5 & E6 & E7)] _].
  split; [done|]. split; [done|]. split; [done|]. split; [done|]. by exists anchor, show.
Qed.

Definition dock_alone (side : PanelDock.DockType) (s s' : S) : Prop :=
  pm_ s' = pm_ s ∧ windows_ s' = windows_ s ∧ dock (other side) s' = dock (other side) s ∧ bar_ s' = bar_ s.
#[local] Instance dock_alone_preorder side : PreOrder (dock_alone side).
Proof.
  split; [by intros s|]. intros ??? (?&?&?&?) (?&?&?&?). split; [congruence|]. split; [congruence|]. split; congruence.
Qed.
Lemma dock_alone_part side : PartPlace S W PanelDock.t (dock side) (set_dock side) (dock_alone side).
Proof. by destruct side; split; try done; apply _. Qed.
Definition new_dock (side : PanelDock.DockType) (bg : Z) (k : PanelDock.t) : Prop :=
  PanelDock.type_ k = side ∧ PanelDock.width_ k = PanelManager.kPanelDockWidth ∧ small (PanelDock.x_ k) ∧
  PanelDock.panels_ k = [] ∧ PanelDock.dragged_panel_ k = None ∧ PanelDock.bg_input_xid_ k = bg.
Lemma dock_construct_wp mgr side s : wm_ok (world s) →
  wp (PanelDock.construct sm (dock side) (set_dock side) mgr side PanelManager.kPanelDockWidth)
     (fun _ s' => wm_ok (world s') ∧ same_screen (world s) (world s') ∧ heap s' = heap s ∧ dock_alone side s s' ∧
        ∃ bg, new_dock side bg (dock side s') ∧ ¬ wm_used bg (world s) ∧ wm_used bg (world s')) s.
Proof.
  intros Hok. pose proof (dock_alone_part side) as Hplace. unfold PanelDock.construct. apply wp_gets_bind, wp_gets_bind.
  destruct (wm_screen (world s) Hok) as [Hsw _].
  assert (building (dock side) (dock_alone side) (fun _ _ => True) s s) as Hs by by split.
  assert (∀ x w w', wm_used x w → same_screen w w' → wm_used x w') as Hmono by (intros x w w' ? (_&_&Hu); by apply Hu).
  eapply wp_cut; [apply (builds_world (dock side) (set_dock side) (dock_alone side) (fun _ _ => True) s
                           (fun _ _ _ _ _ => Logic.I) (extern (new_image _))); [|exact Hs]|].
  { apply quiet_extern. intros w. apply wm_new_image. }
  intros actor s1 [Hs1 _].
  eapply wp_cut; [apply (builds_world (dock side) (set_dock side) (dock_alone side) (fun _ _ => True) s
                           (fun _ _ _ _ _ => Logic.I) (extern new_shadow)); [|exact Hs1]|].
  { apply quiet_extern. intros w. apply wm_new_shadow. }
  intros sh s2 [Hs2 _].
  eapply wp_cut; [apply (create_wp (dock side) (set_dock side) (dock_alone side) (fun _ _ => True) s s2 _ _ _ _ _
                           (fun _ _ _ _ _ => Logic.I) Hs2)|].
  intros bg s3 (Hs3 & Hn3 & Hscr3).
  assert (¬ wm_used bg (world s)) as Hbg.
  { intros Hu. apply Hn3. by eapply Hmono; [|apply Hs2]. }
  set (P := fun k w => new_dock side bg k ∧ wm_used bg w).
  assert (∀ c w w', P c w → same_screen w w' → P c w') as HP by (unfold P; naive_solver).
  apply wp_modify_bind.
  match goal with |- wp _ _ (set_dock side ?k s3) => assert (building (dock side) (dock_alone side) P s (set_dock side k s3)) as Hs4 end.
  { destruct Hs3 as [E1 E2 E3 E4 [_ E5]].
    assert (∀ k, new_dock side bg k → building (dock side) (dock_alone side) P s (set_dock side k s3)) as Hset.
    { intros k Hk. split; rewrite ?(world_set_part (part := dock side) (rest := dock_alone side)),
        ?(heap_set_part (part := dock side) (rest := dock_alone side)), ?(part_set_part (rest := dock_alone side)); try done.
      etransitivity; [exact E4|]. apply (rest_set_part (part := dock side) (set_part := set_dock side)). }
    apply Hset. split; [done|]. split; [done|]. split; [|done]. cbn. unfold PanelManager.kPanelDockWidth, small in *.
    change (world_ s) with (world s).
    case_decide; [lia|]. rewrite i32_small; unfold is_i32; lia. }
  set (s4 := set_dock side _ s3) in *.
  assert (∀ f, framed (building (dock side) (dock_alone side) P s) whatever (PanelDock.registrar (dock side) (set_dock side) f)) as Hreg.
  { intros f s5 Hs5. unfold PanelDock.registrar. apply wp_modify. split; [|done].
    destruct (f _) as [r e]. set (k := _ : PanelDock.t).
    assert (building (dock side) (dock_alone side) P s (set_dock side k s5)) as Hs6.
    { apply (building_set_part (dock side) (set_dock side) (dock_alone side) P s); [done|]. unfold k.
      destruct Hs5 as [_ _ _ _ [E5 E6]]. split; [|done]. by destruct (dock side s5). }
    destruct (wm_set_consumers e (world s5)) as (Hok6 & Hscr6); [apply Hs5|].
    apply (building_set_world (dock side) (set_dock side) (dock_alone side) P s HP); [exact Hs6|done|].
    by rewrite (world_set_part (part := dock side) (rest := dock_alone side)). }
  assert (∀ A (m : M W A), quiet m → framed (building (dock side) (dock_alone side) P s) whatever (PanelRef.on_world m)) as Hworld.
  { intros A m Hm. by apply (builds_world (dock side) (set_dock side) (dock_alone side) P s HP). }
  match goal with |- wp ?m _ s4 => assert (framed (building (dock side) (dock_alone side) P s) whatever m) as Hrest end.
  { apply framed_bind; [apply _|apply Hreg|intros _].
    apply framed_bind; [apply _|by apply Hworld, quiet_StackXidAtTopOfLayer|intros _].
    apply framed_bind; [apply _|apply framed_gets, _|intros k].
    do 6 (apply framed_bind; [apply _|apply Hworld, quiet_shadow|intros _]).
    apply framed_bind; [apply _|by apply Hworld, quiet_StackActorAtTopOfLayer|intros _].
    do 5 (apply framed_bind; [apply _|apply Hworld, quiet_actor|intros _]).
    by apply Hworld, quiet_StackActorAtTopOfLayer. }
  eapply wp_mono; [by apply Hrest|]. intros _ s' [[E1 E2 E3 E4 (E5 & E6)] _].
  split; [done|]. split; [done|]. split; [done|]. split; [done|]. by exists bg.
Qed.

(** The panel manager has no panels yet; it knows these input windows. *)
Record nascent (s0 : S) (seen : list Z) (s : S) : Prop := {
  n_world : wm_ok (world s);
  n_heap : heap s = heap s0;
  n_windows : windows_ s = windows_ s0;
  n_alike : alike s0 s;
  n_panels : PanelManager.panels_ (pm_ s) = ∅;
  n_titlebars : PanelManager.panels_by_titlebar_xid_ (pm_ s) = ∅;
  n_inputs : PanelManager.panel_input_xids_ (pm_ s) = ∅;
  n_containers : PanelManager.containers_by_panel_ (pm_ s) = ∅;
  n_dragged : PanelManager.dragged_panel_ (pm_ s) = None;
  n_coalescer : MotionEventCoalescer.IsRunning (PanelManager.dragged_panel_event_coalescer_ (pm_ s)) = false ∧
                MotionEventCoalescer.synchronous_ (PanelManager.dragged_panel_event_coalescer_ (pm_ s)) = false;
  n_seen x : is_Some (PanelManager.container_input_xids_ (pm_ s) !! x) → x ∈ seen
}.
Lemma register_input_wp s0 c seen x s : nascent s0 seen s → x ∉ seen →
  wp (PanelManager.register_input pm_ set_pm c x) (fun _ s' => nascent s0 (seen ++ [x]) s') s.
Proof.
  intros Hs Hx. unfold PanelManager.register_input. apply wp_gets_bind, wp_CHECK_bind.
  { apply bool_decide_eq_true_2, eq_None_not_Some. intros Hin. by apply Hx, (n_seen s0 seen s Hs). }
  apply wp_modify. destruct Hs as [E1 E2 E3 E4 E5 E6 E7 E8 E9 E10 E11]. cbn [id].
  split; cbn; try done; try by destruct (pm_ s). intros y Hy.
  assert (is_Some (<[x := c]> (PanelManager.container_input_xids_ (pm_ s)) !! y)) as Hy' by by destruct (pm_ s).
  apply elem_of_app. destruct (decide (y = x)) as [->|Hne]; [right; by apply list_elem_of_singleton|left].
  rewrite lookup_insert_ne in Hy' by congruence. by apply E11.
Qed.
Lemma RegisterContainer_wp s0 c seen s : nascent s0 seen s → NoDup (seen ++ Container.GetInputWindows (container c) s) →
  wp (PanelManager.RegisterContainer pm_ set_pm container c)
     (fun _ s' => nascent s0 (seen ++ Container.GetInputWindows (container c) s) s') s.
Proof.
  intros Hs Hnd. unfold PanelManager.RegisterContainer. apply wp_gets_bind. set (xs := Container.GetInputWindows _ _) in *.
  eapply wp_cut.
  - apply (wp_for_each _ (fun l => nascent s0 (seen ++ l)) (fun _ => nascent s0 (seen ++ xs))); [by rewrite app_nil_r| |done].
    intros l1 x l2 s' Hl Hs'. rewrite app_assoc. apply register_input_wp; [done|]. intros Hin.
    rewrite Hl, app_assoc in Hnd. apply NoDup_app in Hnd as (_ & Hnd & _). apply (Hnd x Hin). apply elem_of_cons. by left.
  - intros [] s' Hs'. apply wp_modify. destruct Hs' as [E1 E2 E3 E4 E5 E6 E7 E8 E9 E10 E11].
    split; cbn; try done; try by destruct (pm_ s').
Qed.
Lemma manager_registrar_wp s0 seen f s : nascent s0 seen s →
  wp (PanelManager.registrar pm_ set_pm f) (fun _ s' => nascent s0 seen s') s.
Proof.
  intros Hs. unfold PanelManager.registrar. apply wp_modify. destruct (f _) as [r e].
  destruct Hs as [E1 E2 E3 E4 E5 E6 E7 E8 E9 E10 E11].
  destruct (wm_set_consumers e (world s) E1) as (Hok & _). split; cbn; try done; try by destruct (pm_ s).
Qed.

(** ** The program starts *)

(** No panels yet, and the windows that the window manager has found. *)
Definition fresh_start (s : S) : Prop :=
  heap s = ∅ ∧ wm_ok (world s) ∧ ∀ x w, windows_ s !! x = Some w → Window.xid_ w = x ∧ x ≠ 0.

Lemma new_bar_fine anchor show d s : wm_ok (world s) → new_bar anchor show (bar_ s) → bar_fine d s.
Proof.
  intros Hok (Hp & Hi & Hd & Ha & Hf & Hst & Ht & _). split; [|done].
  split; rewrite ?Hp, ?Hi, ?Hd, ?Ha, ?Hf, ?Ht; try done.
  - constructor.
  - intros p. rewrite lookup_empty. split; [by intros []|by intros ?%elem_of_nil].
  - intros p. naive_solver.
  - intros p ?%elem_of_nil. done.
  - intros p q rp rq ?%elem_of_nil. done.
  - by left.
Qed.
Lemma new_dock_fine side bg d s : wm_ok (world s) → new_dock side bg (dock side s) → dock_fine side d s.
Proof.
  intros Hok (Hty & Hw & Hx & Hp & Hd & _). split; [|done].
  split; rewrite ?Hp, ?Hd; try done.
  - constructor.
  - intros p ?%elem_of_nil. done.
  - split; [done|]. split; [done|]. split; [done|by left].
Qed.
Lemma nascent_inv s0 seen s : nascent s0 seen s → fresh_start s0 → fine None s →
  (∀ c, members c s = []) → system_inv s.
Proof.
  intros [E1 E2 E3 E4 E5 E6 E7 E8 E9 (E10 & E12) E11] (Hh & _ & Hw) Hf Hm. unfold system_inv, PanelManagerSafe.inv.
  rewrite Hh in E2. rewrite E9. split; [split; [done|split]|split].
  - split; rewrite ?E2, ?E3, ?E5, ?E6, ?E7; try (by intros * ?%lookup_empty_Some). exact Hw.
  - intros p c. rewrite E8, Hm, lookup_empty. split; [done|by intros ?%elem_of_nil].
  - split; [by rewrite E9|]. split; [done|]. by rewrite E10.
  - intros p. rewrite E2, lookup_empty. by intros [].
Qed.

Theorem construct_wp s : fresh_start s → wp (construct sm self) (fun _ s' => system_inv s') s.
Proof.
  intros Hs. pose proof Hs as (Hh & Hok & Hw). unfold construct, PanelManager.construct. apply wp_ret_bind, wp_modify_bind.
  set (s1 := set_pm _ s).
  eapply wp_cut; [by apply bar_construct_wp|]. intros [] s2 (Hok2 & Hscr2 & Hh2 & (Hm2 & Hw2 & _) & anchor & show & Hbar & Hne & Hna & Hns & Hua & Hus).
  eapply wp_cut; [by apply dock_construct_wp|]. intros [] s3 (Hok3 & Hscr3 & Hh3 & (Hm3 & Hw3 & _ & Hb3) & lbg & Hl & Hnl & Hul).
  eapply wp_cut; [by apply dock_construct_wp|]. intros [] s4 (Hok4 & Hscr4 & Hh4 & (Hm4 & Hw4 & Hl4 & Hb4) & rbg & Hr & Hnr & Hur).
  rewrite <-Hb3, <-Hb4 in Hbar. change (dock (other PanelDock.DOCK_TYPE_RIGHT) s3) with (dock PanelDock.DOCK_TYPE_LEFT s3) in Hl4. rewrite <-Hl4 in Hl.
  assert (nascent s4 [] s4) as Hs4.
  { split; try done; rewrite Hm4, Hm3, Hm2; try done. intros x. cbn. rewrite lookup_empty. by intros []. }
  assert (fresh_start s4) as Hfresh.
  { split; [by rewrite Hh4, Hh3, Hh2|]. split; [done|]. rewrite Hw4, Hw3, Hw2. exact Hw. }
  eapply wp_cut.
  { apply (wp_for_each _ (fun _ => nascent s4 []) (fun _ => nascent s4 [])); [done| |done].
    intros ???? _ Hs'. by apply manager_registrar_wp. }
  intros [] s5 Hs5. pose proof (n_alike _ _ _ Hs5) as (Eb & El & Er).
  assert (NoDup ([anchor; show] ++ [lbg] ++ [rbg])) as Hnd.
  { destruct Hscr3 as (_ & _ & Hs3).
    assert (anchor ≠ lbg) by (by intros ->). assert (show ≠ lbg) by (by intros ->).
    assert (anchor ≠ rbg) by (intros ->; by apply Hnr, Hs3). assert (show ≠ rbg) by (intros ->; by apply Hnr, Hs3).
    assert (lbg ≠ rbg) by (by intros ->).
    cbn [app]. rewrite !NoDup_cons, !elem_of_cons, !elem_of_nil. split_and!; try (intros ?; by destruct_or?). constructor. }
  assert (Container.GetInputWindows (container PANEL_BAR) s4 = [anchor; show]) as Gb by apply Hbar.
  assert (Container.GetInputWindows (container LEFT_PANEL_DOCK) s4 = [lbg]) as Gl.
  { destruct Hl as (_&_&_&_&_&Hl). cbn. unfold PanelDock.GetInputWindows. by rewrite <-Hl. }
  assert (Container.GetInputWindows (container RIGHT_PANEL_DOCK) s4 = [rbg]) as Gr.
  { destruct Hr as (_&_&_&_&_&Hr). cbn. unfold PanelDock.GetInputWindows. by rewrite <-Hr. }
  assert (∀ c s', alike s4 s' → Container.GetInputWindows (container c) s' = Container.GetInputWindows (container c) s4) as Hgi.
  { intros c s' (Eb' & El' & Er'). destruct c; cbn; by rewrite ?Eb', ?El', ?Er'. }
  eapply wp_mono; [apply (wp_for_each _ (fun l => nascent s4 (l ≫= fun c => Container.GetInputWindows (container c) s4))
                           (fun _ => nascent s4 ([anchor; show] ++ [lbg] ++ [rbg])))|].
  - exact Hs5.
  - intros l1 c l2 s' Hl1 Hs'. rewrite bind_app. cbn [mbind list_bind]. rewrite app_nil_r. rewrite <-(Hgi c s') by apply Hs'.
    apply RegisterContainer_wp; [done|]. rewrite (Hgi c s') by apply Hs'.
    replace ([anchor; show] ++ [lbg] ++ [rbg]) with
      ([PANEL_BAR; LEFT_PANEL_DOCK; RIGHT_PANEL_DOCK] ≫= fun c => Container.GetInputWindows (container c) s4) in Hnd
      by (cbn [mbind list_bind]; by rewrite Gb, Gl, Gr).
    rewrite Hl1, bind_app, bind_cons, app_assoc in Hnd. by apply NoDup_app in Hnd as (? & _).
  - intros s' Hs'. cbn [mbind list_bind] in Hs'. by rewrite Gb, Gl, Gr in Hs'.
  - intros [] s' Hs'. pose proof (n_alike _ _ _ Hs') as (Eb' & El' & Er'). pose proof (n_world _ _ _ Hs') as Hok'.
    apply (nascent_inv s4 ([anchor; show] ++ [lbg] ++ [rbg])); [done|done| |].
    + split; [apply (new_bar_fine anchor show); [done|by rewrite Eb']|]. intros [].
      * apply (new_dock_fine _ lbg); [done|]. cbn. by rewrite El'.
      * apply (new_dock_fine _ rbg); [done|]. cbn. by rewrite Er'.
    + intros []; cbn; rewrite ?Eb', ?El', ?Er'; [by destruct Hbar|by destruct Hl as (_&_&_&?&_)|by destruct Hr as (_&_&_&?&_)].
Qed.

(** ** The theorems *)


(** C11. In every state that the panels reach, each panel is in exactly one of the
    panel bar and the docks, and the panel manager's books name that one, or it is
    the panel that is being dragged and is in none; and the manager's maps name the
    panel by its content window, its titlebar and each of its input windows. *)
Theorem panels_in_one_place s0 s1 s2 p r :
  fresh_start s0 → construct sm self s0 = Val ((), s1) → system_reaches s1 s2 → heap s2 !! p = Some r →
  ((∃ c, PanelManager.containers_by_panel_ (pm_ s2) !! p = Some c ∧ ∀ c', p ∈ members c' s2 ↔ c' = c) ∨
   PanelManager.dragged_panel_ (pm_ s2) = Some p ∧ ∀ c, p ∉ members c s2) ∧
  PanelManagerSafe.registered p r (pm_ s2).
Proof.
  intros Hs Hrun Hr Hp. pose proof (construct_wp s0 Hs) as Hc. apply wp_run in Hc as ([] & s1' & Hrun' & Hinv).
  rewrite Hrun in Hrun'. injection Hrun' as <-.
  pose proof (PanelManagerSafe.reaches_inv sm pm_ set_pm windows_ set_windows alike Hsm container members
    fine presses wants Tick tick tick_due HandleLayoutManagerAreaChange wm_TakeFocus panel_bar_TakeFocus new_panel_address
    indeterminate_gravity self new_fresh left_ right_ wm_ipc_version s1 s2 Hinv Hr) as Hinv2.
  pose proof Hinv2 as ((_ & Hcore & Hb) & _ & Hh). split; [|by apply Hcore].
  destruct (PanelManager.containers_by_panel_ (pm_ s2) !! p) as [c|] eqn:Hc.
  - left. exists c. split; [done|]. intros c'. rewrite <-(Hb p c'), Hc. split; congruence.
  - right. destruct (Hh p ltac:(by eexists)) as [[c Hc']|Hd]; [congruence|]. split; [done|]. intros c Hin%Hb. congruence.
Qed.
End system.

(** ** A system in memory *)

Module MemSystem.
Import MemServer MemWm MemFrame.
#[global] Instance mem_layout : LayoutManager MemWm.world := {|
  layout_TakeFocus w := (false, w);
  layout_MoveAndResize _ _ _ _ w := w |}.
#[global] Instance mem_layout_laws : LayoutLaws MemWm.world.
Proof. by split. Qed.
Definition state := t MemWm.world.
(** A content window, with its titlebar, expanded; and the titlebar. *)
Definition content : Window.t :=
  (win 50) <| Window.type_ := WmIpc.WINDOW_TYPE_CHROME_PANEL_CONTENT |> <| Window.type_params_ := [51; 1] |>.
Definition titlebar : Window.t := (win 51) <| Window.type_ := WmIpc.WINDOW_TYPE_CHROME_PANEL_TITLEBAR |>.
Definition no_dock (side : PanelDock.DockType) : PanelDock.t :=
  PanelDock.mk side 0 0 0 0 [] None 0 0 0 (EventConsumerRegistrar.new 0).
Definition start : state :=
  mk ∅ (MemServer.connection, MemServer.w0) {[50 := content; 51 := titlebar]}
    (PanelManager.mk ∅ ∅ None (MotionEventCoalescer.mk 0 1 false 0 0 false) ∅ ∅ [] ∅ false (EventConsumerRegistrar.new 0))
    (PanelBar.mk 0 [] ∅ None false 0 None 0 None None PanelBar.COLLAPSED_PANEL_STATE_HIDDEN 0 0 None
      (EventConsumerRegistrar.new 0))
    (no_dock PanelDock.DOCK_TYPE_LEFT) (no_dock PanelDock.DOCK_TYPE_RIGHT) (0, 0, 0, 0).
Definition new_address (s : state) : Z := fresh ({[0]} ∪ dom (heap_ s) : gset Z).
Lemma new_address_fresh (s : state) : heap s !! new_address s = None.
Proof.
  apply (not_elem_of_dom (D := gset Z) (heap_ s)). pose proof (is_fresh ({[0]} ∪ dom (heap_ s) : gset Z)) as Hf.
  by apply not_elem_of_union in Hf as [_ ?].
Qed.
Definition run {A} (m : M state A) (s : state) : state := match m s with Val (_, s') => s' | Fault _ => s end.
Definition started : state := run (construct stacking 9) start.
Definition handle (e : PanelManagerSafe.Event Tick) : M state unit :=
  system_handle stacking new_address Window.GRAVITY_NORTHWEST 9 (fun _ => 1) e.
Definition reach : state → state → Prop :=
  system_reaches stacking new_address Window.GRAVITY_NORTHWEST 9 (fun _ => 1).
Definition after (e : PanelManagerSafe.Event Tick) : state → state := run (handle e).
Arguments PanelManagerSafe.WindowMap {Tick} _.
Arguments PanelManagerSafe.WindowUnmap {Tick} _.
Arguments PanelManagerSafe.ChromeMessage {Tick} _.
Arguments PanelManagerSafe.DragTimer {Tick}.
Arguments PanelManagerSafe.ScreenResize {Tick}.

Lemma fresh_memory : fresh_start start.
Proof.
  split; [done|]. split; [by split|]. intros x w. cbn.
  rewrite lookup_insert_Some, lookup_singleton_Some. intros [[<- <-]|[_ [<- <-]]]; done.
Qed.
Lemma reach_step s e : reach started s → system_legal e s →
  match handle e s with Val _ => True | Fault _ => False end → reach started (after e s).
Proof.
  intros Hs Hl Hrun. unfold after, run. destruct (handle e s) as [[[] s']|] eqn:E; [|done].
  by eapply PanelManagerSafe.reaches_event.
Qed.
Definition mapped : state := after (PanelManagerSafe.WindowMap 50) (after (PanelManagerSafe.WindowMap 51) started).
Definition dragged_to (x y : Z) : PanelManagerSafe.Event Tick :=
  PanelManagerSafe.ChromeMessage (WmIpc.Message.mk WmIpc.Message.WM_NOTIFY_PANEL_DRAGGED [50; x; y; 0]).
(** The panel is dragged out of the bar, and on to the right edge. *)
Definition detached : state := after PanelManagerSafe.DragTimer (after (dragged_to 500 300) mapped).
Definition docked : state := after PanelManagerSafe.DragTimer (after (dragged_to 1010 300) detached).

#[local] Instance sane_dec px py r : Decision (sane px py r).
Proof. unfold sane, small. apply _. Defined.
Definition sane_drag (s : state) : bool :=
  match PanelManager.dragged_panel_ (pm_ s) ≫= fun p => heap_ s !! p with
  | Some r => bool_decide (sane (MotionEventCoalescer.x_ (PanelManager.dragged_panel_event_coalescer_ (pm_ s)))
                                (MotionEventCoalescer.y_ (PanelManager.dragged_panel_event_coalescer_ (pm_ s))) r)
  | None => true
  end.
Lemma sane_drag_ok s : sane_drag s = true → PanelManagerSafe.drag_sane pm_ s.
Proof.
  unfold sane_drag. intros Hs _ p r Hp Hr. rewrite Hp in Hs. cbn in Hs, Hr. rewrite Hr in Hs.
  by apply bool_decide_eq_true in Hs.
Qed.
(** A drag of the panel, as far as the timer. *)
Lemma drag_reached x y s : reach started s → sane_drag s = true →
  sane_drag (after (dragged_to x y) s) = true →
  MotionEventCoalescer.IsRunning (PanelManager.dragged_panel_event_coalescer_ (pm_ (after (dragged_to x y) s))) = true →
  match handle (dragged_to x y) s with Val _ => True | Fault _ => False end →
  match handle PanelManagerSafe.DragTimer (after (dragged_to x y) s) with Val _ => True | Fault _ => False end →
  reach started (after (dragged_to x y) s) ∧ reach started (after PanelManagerSafe.DragTimer (after (dragged_to x y) s)).
Proof.
  intros Hs Hsane Hsane' Hrun He He'. assert (reach started (after (dragged_to x y) s)) as Hs'.
  { apply reach_step; [done| |done]. split; [by vm_compute|]. split; [intros _; by apply sane_drag_ok|done]. }
  split; [done|]. apply reach_step; [done| |done]. split; [done|by apply sane_drag_ok].
Qed.
Lemma known_by_windows x (s : state) : bool_decide (is_Some (windows_ s !! x)) = true → PanelManagerSafe.known windows_ x s.
Proof. intros Hx%bool_decide_eq_true. by left. Qed.
Lemma mapped_reached : reach started mapped.
Proof.
  apply reach_step; [apply reach_step; [apply PanelManagerSafe.reaches_refl| |vm_compute; exact I]| |vm_compute; exact I].
  - split; [apply known_by_windows; vm_compute; reflexivity|]. intros w Hw. vm_compute in Hw. by injection Hw as <-.
  - split; [apply known_by_windows; vm_compute; reflexivity|]. intros w Hw _. vm_compute in Hw. injection Hw as <-.
    split; [vm_compute; reflexivity|]. split; [by split|]. intros t l [= <- _]. split; [done|]. intros _.
    apply (bool_decide_unpack _). vm_compute. exact I.
Qed.
Lemma detached_reached : reach started detached.
Proof. refine (proj2 (drag_reached 500 300 mapped mapped_reached _ _ _ _ _)); vm_compute; first [reflexivity|exact I]. Qed.
Lemma docked_reached : reach started docked.
Proof. refine (proj2 (drag_reached 1010 300 detached detached_reached _ _ _ _ _)); vm_compute; first [reflexivity|exact I]. Qed.


(** The panel in the right dock. *)
Lemma panels_in_one_place_witness :
  ∃ p r, heap_ docked !! p = Some r ∧ PanelManager.containers_by_panel_ (pm_ docked) !! p = Some RIGHT_PANEL_DOCK ∧
    (((∃ c, PanelManager.containers_by_panel_ (pm_ docked) !! p = Some c ∧ ∀ c', p ∈ members c' docked ↔ c' = c) ∨
      PanelManager.dragged_panel_ (pm_ docked) = Some p ∧ ∀ c, p ∉ members c docked) ∧
     PanelManagerSafe.registered p r (pm_ docked)).
Proof.
  exists 1, (default (MemFrame.panel 0 0 true) (heap_ docked !! 1)).
  assert (heap_ docked !! 1 = Some (default (MemFrame.panel 0 0 true) (heap_ docked !! 1))) as Hr by (vm_compute; reflexivity).
  split; [exact Hr|]. split; [vm_compute; reflexivity|].
  refine (panels_in_one_place stacking stacking_complete new_address new_address_fresh Window.GRAVITY_NORTHWEST 9
    (fun _ => 1) start started docked 1 _ fresh_memory _ docked_reached Hr). vm_compute. reflexivity.
Defined.
End MemSystem.
