(* ===== verification/PanelBarSpec.v ===== *)
(** * Theorems about the panel bar (PanelBar.v): it never fails, the layout of the
    panels, and what it does with the focus. *)

From S2P Require Import Prelude Hoare WmUtil XConnection WmIpc Double Window WmEvents Panel WmFrame PanelHeap.
From S2P Require Import PanelHeapSafe PanelBar PanelBarSafe.
Import PanelRef PanelBar.

Section bar.
Context `{Build} `{PanelFlags} {W : Type} `{WmFrame W} `{HasConsumers W} {S : Type} `{PanelStore S W}.
Variable sm : StackingManager.t.
Variable bar : S → PanelBar.t.
Variable set_bar : PanelBar.t → S → S.
Variable rest : S → S → Prop.
Context `{!PartPlace S W PanelBar.t bar set_bar rest}.
Hypothesis Hsm : layers_ok sm.
Abbreviation bar_of := (bar_of bar).
Abbreviation keep := (keep rest).

(** ** Every event *)

Inductive event :=
  | Add (p : Z) (source : PanelSource)
  | Remove (p : Z)
  | Dragged (p drag_x drag_y : Z)
  | DragComplete (p : Z)
  | AnchorButtonPress (button : Z)
  | PointerEnter (xid x_root : Z)
  | PointerLeave (xid : Z)
  | PanelButtonPress (p timestamp : Z)
  | TitlebarPointerEnter (p : Z)
  | FocusChange (p : Z) (focus_in : bool)
  | SetPanelState (p : Z) (expand : bool)
  | FocusPanelMessage (p : Z)
  | PanelResize
  | ScreenResize
  | UrgencyChange (p : Z)
  | ShowTimer
  | AnchorTimer
  | HideTimer
  | TakeFocusRequest.

Variable wm_TakeFocus : M S unit.
(** Giving the focus to some window leaves the bar consistent. *)
Hypothesis wm_TakeFocus_safe : ∀ ps, framed (bar_of none any ps) keep wm_TakeFocus.

Definition handle (e : event) : M S unit :=
  match e with
  | Add p source => AddPanel sm bar set_bar p source
  | Remove p => RemovePanel bar set_bar p
  | Dragged p x y => HandleNotifyPanelDraggedMessage sm bar set_bar wm_TakeFocus p x y;; mret ()
  | DragComplete p => HandleNotifyPanelDragCompleteMessage sm bar set_bar wm_TakeFocus p
  | AnchorButtonPress button =>
      b ← get bar id; HandleInputWindowButtonPress bar set_bar wm_TakeFocus (anchor_input_xid_ b) button
  | PointerEnter xid x_root => HandleInputWindowPointerEnter bar set_bar xid x_root
  | PointerLeave xid => HandleInputWindowPointerLeave bar set_bar xid
  | PanelButtonPress p timestamp => HandlePanelButtonPress bar set_bar p timestamp
  | TitlebarPointerEnter p => HandlePanelTitlebarPointerEnter bar set_bar p
  | FocusChange p focus_in => HandlePanelFocusChange p focus_in
  | SetPanelState p expand => HandleSetPanelStateMessage bar set_bar wm_TakeFocus p expand
  | FocusPanelMessage p => HandleFocusPanelMessage bar set_bar p
  | PanelResize => HandlePanelResize bar set_bar
  | ScreenResize => HandleScreenResize bar set_bar
  | UrgencyChange p => HandlePanelUrgencyChange bar set_bar p
  | ShowTimer => HandleShowCollapsedPanelsTimer bar set_bar;; mret ()
  | AnchorTimer => HandleAnchorWatcherTimer bar set_bar;; mret ()
  | HideTimer => HandleHideWatcherTimer bar set_bar;; mret ()
  | TakeFocusRequest => TakeFocus bar set_bar;; mret ()
  end.

(** The panel an event is about is one of the bar's; a new one is on the heap and
    shares no window with the others; a timer that fires was set. *)
Definition legal (e : event) (s : S) : Prop :=
  let ps := panels_ (bar s) in
  match e with
  | Add p source => p ∉ ps ∧ ∃ r, heap s !! p = Some r ∧ windows_fresh r ps s ∧
      (source = PANEL_SOURCE_DRAGGED →
       Panel.composited_windows_set_up_ r = true ∧ dragged_panel_ (bar s) = None)
  | Remove p | Dragged p _ _ | DragComplete p | PanelButtonPress p _ | TitlebarPointerEnter p | FocusChange p _
  | SetPanelState p _ | FocusPanelMessage p | UrgencyChange p => p ∈ ps
  | ShowTimer => show_collapsed_panels_timer_id_ (bar s) ≠ 0
  | AnchorTimer => is_Some (anchor_pointer_watcher_ (bar s))
  | HideTimer => is_Some (hide_collapsed_panels_pointer_watcher_ (bar s))
  | AnchorButtonPress _ | PointerEnter _ _ | PointerLeave _ | PanelResize | ScreenResize | TakeFocusRequest => True
  end.

Definition after (e : event) (ps : list Z) : list Z :=
  match e with
  | Add p _ => p :: ps
  | Remove p => filter (fun q => q ≠ p) ps
  | _ => ps
  end.

Lemma removed_perm p (l : list Z) : NoDup l → p ∈ l → l ≡ₚ p :: filter (fun q => q ≠ p) l.
Proof.
  intros Hnd Hp. apply NoDup_Permutation; [done| |].
  - constructor; [by rewrite list_elem_of_filter; intros [? _]|by apply NoDup_filter].
  - intros q. rewrite elem_of_cons, list_elem_of_filter. destruct (decide (q = p)); naive_solver.
Qed.

Lemma handle_safe e s : bar_of none any (panels_ (bar s)) s → legal e s →
  wp (handle e) (fun _ s' => bar_of none any (after e (panels_ (bar s))) s' ∧ keep s s') s.
Proof.
  intros Hs Hlegal. set (ps := panels_ (bar s)) in *.
  assert (∀ q, q ∈ ps → ¬ none q) as Hnone by (by intros ? ? []).
  assert (∀ d a a' f : option Z, any d a f → any d a' f) as Ha by done.
  assert (∀ d a f f' : option Z, any d a f → any d a f') as Hf by done.
  assert (∀ d a f : option Z, any d a f → any None a f) as Hd by done.
  assert (∀ p, ∀ d a f : option Z, any d a f → any (Some p) a f) as Hp' by done.
  specialize (wm_TakeFocus_safe ps).
  destruct e; cbn [handle after]; cbn in Hlegal; fold ps in Hlegal;
    try solve [apply (safe_then _ _ rest none any _ s s Hs); [reflexivity|];
               unfold HandleNotifyPanelDragCompleteMessage, HandlePanelButtonPress, HandlePanelResize; frame].
  - destruct Hlegal as (Hp & r & Hr & Hfresh & Hdrag). by eapply AddPanel_safe.
  - eapply RemovePanel_safe; [apply _|exact Hsm|done|done|exact Hs|].
    apply removed_perm; [apply (wf_nodup _ _ _ _ (proj1 Hs))|done].
  - apply wp_gets_bind. cbn [id].
    exact (safe_HandleInputWindowButtonPress sm bar set_bar rest Hsm none any (ps := ps) Hnone Ha Hf Hd _ wm_TakeFocus_safe _ s Hs).
  - eapply wp_cut; [exact (safe_HandleShowCollapsedPanelsTimer sm bar set_bar rest Hsm none any (ps := ps) Hnone s Hs Hlegal)|]. by intros b s' ?.
Qed.

(** The bar's life: it is constructed, events arrive, and in between others
    (the panel manager, the panels themselves) move things without taking panels
    away or undoing them. *)
Inductive reachable : S → Prop :=
  | reach_construct panel_manager s0 s :
      PanelBar.construct sm bar set_bar panel_manager s0 = Val ((), s) → wm_ok (world s) → reachable s
  | reach_event e s s' :
      reachable s → legal e s → handle e s = Val ((), s') → reachable s'
  | reach_elsewhere s s' :
      reachable s → bar s' = bar s → heap_lives s s' → wm_ok (world s') → reachable s'.

Lemma on_world_bar {A} (m : M W A) s a s' : on_world m s = Val (a, s') → bar s' = bar s.
Proof.
  unfold on_world, zoom. destruct (m (world s)) as [[? w]|]; [|done]. intros [= _ <-]. apply (bar_set_world bar set_bar rest).
Qed.
Lemma registrar_bar f s s' : registrar bar set_bar f s = Val ((), s') →
  ∃ r, bar s' = (bar s) <| PanelBar.event_consumer_registrar_ := r |>.
Proof.
  unfold registrar, modify. destruct (f _) as [r c]. intros [= <-]. exists r. by rewrite (bar_set_world bar set_bar rest), (bar_set_bar bar set_bar rest).
Qed.

Lemma constructed panel_manager s0 s :
  PanelBar.construct sm bar set_bar panel_manager s0 = Val ((), s) → wm_ok (world s) → bar_of none any [] s.
Proof.
  intros Hrun Hok. unfold PanelBar.construct in Hrun.
  do 12 minv Hrun. unfold actor in *. destruct a3, a4, a5. injection Hrun as <-.
  apply on_world_bar in Hm5, Hm6, Hm7, Hm8, Hm9, Hm10.
  apply registrar_bar in Hm3 as [r1 Hb1], Hm4 as [r2 Hb2].
  injection Hm2 as _ <-. rewrite (bar_set_bar bar set_bar rest) in Hb1. rewrite Hb1 in Hb2.
  assert (bar s12 = bar s6) as Hb by congruence. rewrite Hb2 in Hb. cbn in Hb.
  split; [|by rewrite Hb]. split; rewrite ?Hb; cbn; try done.
  - constructor.
  - intros p. rewrite lookup_empty, elem_of_nil. split; [by intros []|done].
  - intros p [?|[?|?]]; done.
  - intros p Hp. by apply not_elem_of_nil in Hp.
  - intros p q ? ? Hp. by apply not_elem_of_nil in Hp.
Qed.

Lemma reachable_wf s : reachable s → bar_of none any (panels_ (bar s)) s.
Proof.
  induction 1 as [pm s0 s Hrun Hok|e s s' _ IH Hlegal Hrun|s s' _ IH Hb Hk Hok].
  - pose proof (constructed pm s0 s Hrun Hok) as [Hwf _]. by split.
  - pose proof (handle_safe e s IH Hlegal) as Hsafe. unfold wp in Hsafe. rewrite Hrun in Hsafe.
    destruct Hsafe as [[Hwf _] _]. by split.
  - apply (bar_of_kept _ none any _ s); [by rewrite Hb|done..].
Qed.

(** C15. The panel bar never fails and keeps its books.  In every state the bar can
    reach, any event it may get is handled to the end (no [CHECK] or [DCHECK] fails,
    no dead panel or end iterator is followed), the panels are then the old ones
    with the new one added or the removed one taken out, and the bar is consistent:
    no panel is listed twice, exactly the listed panels have a [PanelInfo], the
    dragged, anchored and to-be-focused panels are listed ones that exist, and no
    timer is running outside the waiting-to-show state. *)
Theorem PanelBar_never_fails s e :
  reachable s → legal e s →
  ∃ s', handle e s = Val ((), s') ∧ reachable s' ∧ panels_ (bar s') ≡ₚ after e (panels_ (bar s)) ∧
    NoDup (panels_ (bar s')) ∧
    (∀ p, is_Some (panel_infos_ (bar s') !! p) ↔ p ∈ panels_ (bar s')) ∧
    (∀ p, p ∈ panels_ (bar s') → is_Some (heap s' !! p)) ∧
    (∀ p, dragged_panel_ (bar s') = Some p ∨ anchor_panel_ (bar s') = Some p ∨
          desired_panel_to_focus_ (bar s') = Some p → p ∈ panels_ (bar s')) ∧
    (collapsed_panel_state_ (bar s') ≠ COLLAPSED_PANEL_STATE_WAITING_TO_SHOW →
     show_collapsed_panels_timer_id_ (bar s') = 0).
Proof.
  intros Hr Hlegal. pose proof (reachable_wf s Hr) as Hwf.
  destruct (proj1 (wp_run _ _ _) (handle_safe e s Hwf Hlegal)) as ([] & s' & Hrun & [Hwf' Hps] & _).
  exists s'. split; [done|]. split; [by eapply reach_event|]. split; [done|].
  destruct Hwf' as [_ E2 E3 E4 E5 E6 _ _]. split; [done|]. split; [done|].
  split; [|by split]. intros p Hp. destruct (E6 p Hp) as (r & Hrp & _). by eexists.
Qed.

(** ** The layout *)

(** The room that some panels take. *)
Definition panel_width (s : S) (p : Z) : Z :=
  match heap s !! p with Some r => Panel.width r | None => 0 end.
Fixpoint widths (s : S) (l : list Z) : Z :=
  match l with [] => 0 | p :: l => panel_width s p + kPixelsBetweenPanels + widths s l end.

Lemma widths_app s l k : widths s (l ++ k) = widths s l + widths s k.
Proof. induction l as [|p l IH]; cbn; [done|]. rewrite IH. lia. Qed.
Lemma widths_reverse s l : widths s (reverse l) = widths s l.
Proof. induction l as [|p l IH]; [done|]. rewrite reverse_cons, widths_app, IH. cbn. lia. Qed.

(** Panel [p] is where [PackPanels] puts it, [room] pixels being taken to its right;
    the panel held in place only gets its place reserved. *)
Definition packed_at (fixed_panel : option Z) (s0 s : S) (p room : Z) : Prop :=
  ∃ r r' info, heap s0 !! p = Some r ∧ heap s !! p = Some r' ∧ panel_infos_ (bar s) !! p = Some info ∧
    snapped_right info = i32 (wm_width (world s0) - room - kPixelsBetweenPanels) ∧
    Panel.width r' = Panel.width r ∧
    if decide (Some p = fixed_panel) then r' = r else Panel.right r' = snapped_right info.

Lemma kept_width r r' : kept r r' → Panel.width r' = Panel.width r.
Proof. by intros [(_ & ? & _) _]. Qed.

Lemma pack_one_wp ps fixed p r s :
  bar_of none any ps s → p ∈ ps → heap s !! p = Some r →
  wp (pack_one bar set_bar fixed p) (fun _ s' =>
    (∃ f, bar s' = (bar s) <| panel_infos_ := alter f p (panel_infos_ (bar s)) |>
                           <| total_panel_width_ := i32 (total_panel_width_ (bar s) +
                                                         (Panel.width r + kPixelsBetweenPanels)) |>) ∧
    (∀ q, q ≠ p → heap s' !! q = heap s !! q) ∧
    packed_at fixed s s' p (total_panel_width_ (bar s))) s.
Proof.
  intros Hs Hp Hr. unfold pack_one, GetPanelInfoOrDie.
  assert (is_Some (panel_infos_ (bar s) !! p)) as [info Hinfo]
    by (apply (wf_infos _ _ _ _ (proj1 Hs)); by rewrite (proj2 Hs)).
  apply wp_bind, wp_gets_bind. cbn [id]. rewrite Hinfo. apply wp_ret.
  apply wp_gets_bind, wp_gets_bind. cbn [id]. set (snapped := i32 _).
  apply wp_modify_bind. set (s1 := set_bar _ s).
  assert (heap s1 !! p = Some r) as Hr1 by (unfold s1; by rewrite (heap_set_bar bar set_bar rest)).
  eapply wp_cut; [by eapply (look_wp p r (fun r' s' => r' = r ∧ s' = s1))|]. intros ? ? [-> ->].
  eapply (wp_cut _ _ (fun _ s2 => bar s2 = bar s1 ∧ (∀ q, q ≠ p → heap s2 !! q = heap s1 !! q) ∧
    ∃ r', heap s2 !! p = Some r' ∧ Panel.width r' = Panel.width r ∧
          if decide (Some p = fixed) then r' = r else Panel.right r' = snapped)).
  { destruct (decide (Some p = fixed)) as [Hf|Hf].
    { rewrite bool_decide_true by done. apply wp_ret. by eauto 10. }
    rewrite bool_decide_false by done. cbn [negb andb].
    destruct (Z.eqb_spec (Panel.right r) snapped) as [Heq|Hne]; cbn [negb]; [apply wp_ret; by eauto 10|].
    destruct (at_panel _ _ _ p s Hs Hp) as (r0 & Hr0 & Hup). rewrite Hr in Hr0. injection Hr0 as <-.
    eapply wp_mono; [apply (call_wp bar rest _ p r (moved_x snapped)); [exact Hr1|]|].
    - apply (MoveX_wp _ _ _ _ (elsewhere bar rest p)); unfold pan_ok, panel_at, s1;
        rewrite ?(world_set_bar bar set_bar rest), ?(heap_set_bar bar set_bar rest), ?Hr; [apply Hs|by apply Hup; intros []].
    - intros _ s2 (_ & Hb & _ & Hrest & _ & r1 & r2 & E1 & E2 & Hk & _ & _ & ((_ & Hw & _) & Hx & _)).
      rewrite Hr1 in E1. injection E1 as <-. split; [done|]. split; [done|]. exists r2. split; [done|].
      split; [done|]. unfold Panel.right, Panel.content_x, Panel.content_width in *. rewrite Hx, Hw.
      cbn [default from_option id]. rewrite i32_i32_add.
      replace (snapped - _ + _) with snapped by lia. unfold snapped. apply i32_idem. }
  intros _ s2 (Hb & Hrest & r' & Hr' & Hw & Hpos).
  eapply wp_cut; [by eapply (look_wp p r' (fun a s' => a = r' ∧ s' = s2))|]. intros ? ? [-> ->].
  apply wp_modify. rewrite (bar_set_bar bar set_bar rest), (heap_set_bar bar set_bar rest).
  unfold s1 in Hb, Hrest. rewrite (bar_set_bar bar set_bar rest) in Hb. rewrite (heap_set_bar bar set_bar rest) in Hrest. rewrite Hb. split; [|split; [done|]].
  - eexists. rewrite Hw. by destruct (bar s).
  - exists r, r', (info <| snapped_right := snapped |>). rewrite (heap_set_bar bar set_bar rest), (bar_set_bar bar set_bar rest), Hr'.
    split; [done|]. split; [done|]. split; [|split; [by destruct info|split; [done|]]].
    + destruct (bar s). cbn in *. by rewrite lookup_alter_eq, Hinfo.
    + destruct (decide (Some p = fixed)); [done|]. by destruct info.
Qed.

Lemma packed_at_same fixed s0 s s' p room :
  heap s' !! p = heap s !! p → panel_infos_ (bar s') !! p = panel_infos_ (bar s) !! p →
  packed_at fixed s0 s p room → packed_at fixed s0 s' p room.
Proof. intros Hh Hi (r & r' & info & ? & ? & ? & ?). exists r, r', info. by rewrite Hh, Hi. Qed.

(** What holds once the panels of [l1], from the right, are packed. *)
Definition packing (fixed : option Z) (s0 : S) (l1 : list Z) (s : S) : Prop :=
  bar_of none any (panels_ (bar s0)) s ∧ panels_ (bar s) = panels_ (bar s0) ∧ keep s0 s ∧
  total_panel_width_ (bar s) = i32 (widths s0 l1) ∧ (∀ q, q ∉ l1 → heap s !! q = heap s0 !! q) ∧
  ∀ a p b, l1 = a ++ p :: b → packed_at fixed s0 s p (widths s0 a).

Lemma packing_step fixed s0 l1 p l2 s :
  NoDup (l1 ++ p :: l2) → p ∈ panels_ (bar s0) → packing fixed s0 l1 s →
  wp (pack_one bar set_bar fixed p) (fun _ => packing fixed s0 (l1 ++ [p])) s.
Proof.
  intros Hnd Hp (Hs & Hps & Hk & Ht & Hrest & Hpacked).
  apply NoDup_app in Hnd as (_ & Hdisj & Hnd). assert (p ∉ l1) as Hpl1 by (intros Hin; apply (Hdisj p Hin); by left).
  destruct (at_panel _ _ _ p s Hs Hp) as (r & Hr & _).
  assert (∀ q, q ∈ panels_ (bar s0) → ¬ none q) as Hnone by (by intros ? ? []).
  eapply wp_mono; [apply wp_and; [by eapply pack_one_wp|eapply safe_pack_one; [apply _|exact Hnone|exact Hp|exact Hs]]|].
  intros [] s' [([f Hb] & Hother & (r0 & r' & info & E1 & E2 & E3 & Hsnap & Hw & Hpos)) [Hs' Hk']].
  rewrite Hr in E1. injection E1 as <-.
  assert (heap s0 !! p = Some r) as Hr0 by by rewrite <-Hrest.
  split; [done|]. split; [rewrite Hb; by destruct (bar s)|]. split; [by etransitivity|]. split; [|split].
  - rewrite Hb, widths_app. cbn. unfold panel_width. rewrite Hr0.
    transitivity (i32 (total_panel_width_ (bar s) + (Panel.width r + kPixelsBetweenPanels))); [by destruct (bar s)|].
    rewrite Ht, i32_i32_add. f_equal. lia.
  - intros q Hq. rewrite Hother by set_solver. apply Hrest. set_solver.
  - intros a q b Hab. destruct (decide (q = p)) as [->|Hne].
    + assert (a = l1) as ->.
      { destruct b as [|x b _] using rev_ind; [by apply app_inj_tail in Hab as [-> _]|].
        rewrite app_comm_cons, app_assoc in Hab. apply app_inj_tail in Hab as [-> _].
        exfalso. apply Hpl1. set_solver. }
      exists r, r', info. split; [done|]. split; [done|]. split; [done|]. split; [|done].
      rewrite Hsnap, Ht, i32_sub_i32. destruct Hk as [[-> _] _]. done.
    + destruct b as [|x b _] using rev_ind; [by apply app_inj_tail in Hab as [_ ->]|].
      rewrite app_comm_cons, app_assoc in Hab. apply app_inj_tail in Hab as [Hab _].
      apply (packed_at_same _ _ s); [by apply Hother| |by apply (Hpacked a q b)].
      rewrite Hb. destruct (bar s). cbn. by rewrite lookup_alter_ne.
Qed.

Lemma PackPanels_wp fixed s :
  bar_of none any (panels_ (bar s)) s →
  wp (PackPanels bar set_bar fixed) (fun _ => packing fixed s (reverse (panels_ (bar s)))) s.
Proof.
  intros Hs. set (ps := panels_ (bar s)) in *.
  unfold PackPanels. apply wp_modify_bind, wp_gets_bind. cbn [id]. set (s1 := set_bar _ s).
  assert (bar_of none any ps s1) as Hs1.
  { apply (mild_wf bar set_bar rest); [done|]. destruct (bar s). by apply mild_same. }
  replace (panels_ (bar s1)) with ps by (unfold s1; rewrite (bar_set_bar bar set_bar rest); by destruct (bar s)).
  assert (NoDup (reverse ps)) as Hnd by (rewrite reverse_Permutation; apply (wf_nodup _ _ _ _ (proj1 Hs))).
  apply wp_for_each with (Inv := packing fixed s).
  - split; [done|]. unfold s1. rewrite (bar_set_bar bar set_bar rest), (heap_set_bar bar set_bar rest). split; [by destruct (bar s)|].
    split; [by apply (keep_set_bar bar set_bar)|]. split; [by destruct (bar s)|]. split; [done|]. by intros [] ? ?.
  - intros l1 p l2 s2 Hl Hs2. eapply packing_step; [by rewrite <-Hl| |done].
    change (p ∈ ps). rewrite <-elem_of_reverse, Hl. set_solver.
  - done.
Qed.
Lemma packing_layout fixed s0 s l p k :
  packing fixed s0 (reverse (panels_ (bar s0))) s → panels_ (bar s0) = l ++ p :: k →
  packed_at fixed s0 s p (widths s0 k).
Proof.
  intros (_ & _ & _ & _ & _ & Hpacked) Hl. rewrite <-widths_reverse. apply (Hpacked _ _ (reverse l)).
  by rewrite Hl, reverse_app, reverse_cons, <-app_assoc.
Qed.

(** C21. [PackPanels] lays the panels out from the right edge of the screen: each
    panel's reserved right edge is the screen's width less three pixels and less the
    widths, with three pixels after each, of the panels to its right; every panel
    but the one held in place is moved exactly there and none changes its size; the
    total is the room of all of them (all in the code's 32-bit integers).  The order
    of the panels is kept. *)
Theorem PackPanels_layout fixed_panel s :
  reachable s →
  ∃ s', PackPanels bar set_bar fixed_panel s = Val ((), s') ∧
    panels_ (bar s') = panels_ (bar s) ∧
    total_panel_width_ (bar s') = i32 (widths s (panels_ (bar s))) ∧
    ∀ l p k, panels_ (bar s) = l ++ p :: k → packed_at fixed_panel s s' p (widths s k).
Proof.
  intros Hr. destruct (proj1 (wp_run _ _ _) (PackPanels_wp fixed_panel s (reachable_wf s Hr)))
    as ([] & s' & Hrun & Hpacking).
  exists s'. split; [done|]. split; [apply Hpacking|].
  split; [destruct Hpacking as (_ & _ & _ & -> & _); by rewrite widths_reverse|].
  intros l p k Hl. by eapply packing_layout.
Qed.

(** ** Reordering *)

(** The passed panels are the longest run that satisfies the condition. *)
Lemma passed_wp cond l s : (∀ q, q ∈ l → is_Some (heap s !! q)) →
  wp (passed cond l) (fun n s' => s' = s ∧ (n ≤ length l)%nat ∧
    (∀ q r, q ∈ take n l → heap s !! q = Some r → cond r = true) ∧
    (∀ q r, l !! n = Some q → heap s !! q = Some r → cond r = false)) s.
Proof.
  induction l as [|q l IH]; intros Hall; cbn [passed].
  - apply wp_ret. repeat split; try done. intros ? ? Hq. by apply not_elem_of_nil in Hq.
  - destruct (Hall q) as [r Hr]; [by left|].
    eapply wp_cut; [by eapply (look_wp q r (fun r' s' => r' = r ∧ s' = s))|]. intros ? ? [-> ->].
    destruct (cond r) eqn:Ec.
    + eapply wp_cut; [apply IH; intros; apply Hall; by right|].
      intros n ? (-> & Hn & Htake & Hstop). apply wp_ret. split; [done|]. split; [cbn; lia|]. split; [|done].
      intros q' r' [->|Hq']%elem_of_cons Hr'; [congruence|by eapply Htake].
    + apply wp_ret. split; [done|]. split; [lia|]. split.
      * intros ? ? Hq. by apply not_elem_of_nil in Hq.
      * intros q' r' [= <-] Hr'. congruence.
Qed.

Lemma rotate_blocks l1 a b l2 first middle last :
  first = length l1 → middle = (length l1 + length a)%nat → last = (length l1 + length a + length b)%nat →
  rotate first middle last (l1 ++ a ++ b ++ l2) = Some (l1 ++ b ++ a ++ l2).
Proof.
  intros Hf Hm Hl. unfold rotate. rewrite decide_True by (rewrite !length_app; lia). f_equal.
  assert (take first (l1 ++ a ++ b ++ l2) = l1) as -> by by apply take_app_length'.
  replace (l1 ++ a ++ b ++ l2) with ((l1 ++ a) ++ b ++ l2) by by rewrite <-!app_assoc.
  rewrite (take_app_length' _ _ middle) by (rewrite length_app; lia).
  rewrite (drop_app_length' l1 a first) by lia.
  replace ((l1 ++ a) ++ b ++ l2) with (((l1 ++ a) ++ b) ++ l2) by by rewrite <-!app_assoc.
  rewrite (take_app_length' _ _ last) by (rewrite !length_app; lia).
  rewrite (drop_app_length' (l1 ++ a) b middle) by (rewrite length_app; lia).
  by rewrite (drop_app_length' _ l2 last) by (rewrite !length_app; lia).
Qed.

Definition center (s : S) (q : Z) : Z :=
  match heap s !! q with Some r => Panel.content_center r | None => 0 end.

(** What [ReorderPanel] makes of the panels around panel [p]. *)
Definition reordered (p : Z) (r : Panel.t) (info : PanelInfo) (l k : list Z) (s : S) (ps' : list Z) : Prop :=
  (Panel.right r < snapped_right info →
     ∃ l1 l2, l = l1 ++ l2 ∧ ps' = l1 ++ p :: l2 ++ k ∧
       (∀ q, q ∈ l2 → Panel.content_x r ≤ center s q) ∧ (∀ q, last l1 = Some q → center s q < Panel.content_x r)) ∧
  (snapped_right info ≤ Panel.right r →
     ∃ k1 k2, k = k1 ++ k2 ∧ ps' = l ++ k1 ++ p :: k2 ∧
       (∀ q, q ∈ k1 → center s q ≤ Panel.right r) ∧ (∀ q, head k2 = Some q → Panel.right r < center s q)).

(** The state after the panels were put in a new order. *)
Lemma after_reorder ps p s l' :
  bar_of none any ps s → panels_ (bar s) ≡ₚ ps → l' ≡ₚ ps →
  wp (upd bar set_bar (fun b => b <| panels_ := l' |>);; PackPanels bar set_bar (Some p))
     (fun _ s' => panels_ (bar s') = l' ∧
        ∀ l q k, l' = l ++ q :: k → packed_at (Some p) s s' q (widths s k)) s.
Proof.
  intros Hs Hps Hl'. apply wp_modify_bind. set (s1 := set_bar _ s).
  assert (bar_of none any (panels_ (bar s1)) s1) as Hs1.
  { pose proof (safe_set_panels bar set_bar rest none any (ps := ps) l' Hl' s Hs) as [[Hwf _] _]. by split. }
  assert (panels_ (bar s1) = l') as Hl1 by (unfold s1; rewrite (bar_set_bar bar set_bar rest); by destruct (bar s)).
  eapply wp_mono; [by apply PackPanels_wp|]. intros [] s' Hpack. split.
  - by rewrite <-Hl1; apply Hpack.
  - intros l q k Hl. rewrite <-Hl1 in Hl.
    destruct (packing_layout _ _ _ _ _ _ Hpack Hl) as (r & r' & info & E1 & E2 & E3 & E4 & E5 & E6).
    assert (∀ ps1, widths s1 ps1 = widths s ps1) as Hw.
    { assert (∀ y, panel_width s1 y = panel_width s y) as Hpw
        by (intros y; unfold panel_width, s1; by rewrite (heap_set_bar bar set_bar rest)).
      intros ps1. induction ps1 as [|y ps1 IH]; [done|]. cbn. by rewrite IH, Hpw. }
    unfold s1 in E1. rewrite (heap_set_bar bar set_bar rest) in E1. exists r, r', info. rewrite <-Hw.
    split; [done|]. split; [done|]. split; [done|]. split; [|done].
    unfold s1 in E4 at 1. by rewrite (world_set_bar bar set_bar rest) in E4.
Qed.

(** The run of panels passed on the left, and on the right. *)
Lemma passed_left r l s : (∀ q, q ∈ l → is_Some (heap s !! q)) →
  wp (passed (fun q => Panel.content_x r <=? Panel.content_center q) (reverse l))
     (fun n s' => s' = s ∧ ∃ l1 l2, l = l1 ++ l2 ∧ n = length l2 ∧
        (∀ q, q ∈ l2 → Panel.content_x r ≤ center s q) ∧ (∀ q, last l1 = Some q → center s q < Panel.content_x r)) s.
Proof.
  intros Hall. eapply wp_mono; [apply passed_wp|].
  { intros q. rewrite elem_of_reverse. apply Hall. }
  intros n ? (-> & Hn & Htake & Hstop). split; [done|]. rewrite length_reverse in Hn.
  exists (take (length l - n) l), (drop (length l - n) l).
  assert (take n (reverse l) = reverse (drop (length l - n) l)) as Htl.
  { rewrite <-(take_drop (length l - n) l) at 1. rewrite reverse_app. apply take_app_length'.
    rewrite length_reverse, length_drop. lia. }
  split; [by rewrite take_drop|]. split; [rewrite length_drop; lia|]. split.
  - intros q Hq. destruct (Hall q) as [rq Hrq]; [rewrite <-(take_drop (length l - n) l); apply elem_of_app; by right|].
    unfold center. rewrite Hrq. apply Z.leb_le, (Htake q rq); [|done]. by rewrite Htl, elem_of_reverse.
  - intros q Hq. rewrite last_lookup, length_take in Hq.
    assert (q ∈ l) as Hql by (rewrite <-(take_drop (length l - n) l); apply elem_of_app; left; by eapply list_elem_of_lookup_2).
    destruct (Hall q Hql) as [rq Hrq]. unfold center. rewrite Hrq.
    apply lookup_take_Some in Hq as [Hq Hlt].
    apply Z.leb_gt, (Hstop q rq); [|done]. rewrite reverse_lookup by lia. rewrite <-Hq. f_equal. lia.
Qed.
Lemma passed_right r l s : (∀ q, q ∈ l → is_Some (heap s !! q)) →
  wp (passed (fun q => Panel.content_center q <=? Panel.right r) l)
     (fun n s' => s' = s ∧ ∃ k1 k2, l = k1 ++ k2 ∧ n = length k1 ∧
        (∀ q, q ∈ k1 → center s q ≤ Panel.right r) ∧ (∀ q, head k2 = Some q → Panel.right r < center s q)) s.
Proof.
  intros Hall. eapply wp_mono; [by apply passed_wp|]. intros n ? (-> & Hn & Htake & Hstop). split; [done|].
  exists (take n l), (drop n l). split; [by rewrite take_drop|]. split; [rewrite length_take; lia|].
  assert (∀ q, q ∈ take n l ∨ q ∈ drop n l → is_Some (heap s !! q)) as Hall'.
  { intros q Hq. apply Hall. by rewrite <-(take_drop n l), elem_of_app. }
  split.
  - intros q Hq. destruct (Hall' q) as [rq Hrq]; [by left|]. unfold center. rewrite Hrq.
    by apply Z.leb_le, (Htake q rq).
  - intros q Hq. rewrite head_lookup, lookup_drop, Nat.add_0_r in Hq.
    destruct (Hall q) as [rq Hrq]; [by eapply list_elem_of_lookup_2|]. unfold center. rewrite Hrq.
    by apply Z.leb_gt, (Hstop q rq).
Qed.

Lemma ReorderPanel_wp p s l k r info :
  bar_of none any (panels_ (bar s)) s → panels_ (bar s) = l ++ p :: k →
  heap s !! p = Some r → panel_infos_ (bar s) !! p = Some info →
  wp (ReorderPanel bar set_bar p)
     (fun _ s' => reordered p r info l k s (panels_ (bar s')) ∧
        (panels_ (bar s') ≠ panels_ (bar s) → ∀ l' q k', panels_ (bar s') = l' ++ q :: k' →
           packed_at (Some p) s s' q (widths s k'))) s.
Proof.
  intros Hs Hl Hr Hinfo. unfold ReorderPanel, GetPanelInfoOrDie. apply wp_gets_bind. cbn [id].
  pose proof (wf_nodup _ _ _ _ (proj1 Hs)) as Hnd. rewrite Hl in Hnd.
  assert (p ∉ l) as Hpl by (apply NoDup_app in Hnd as (_ & Hd & _); intros Hin; apply (Hd p Hin); by left).
  rewrite Hl, (position_of_middle p l k Hpl).
  assert (∀ q, q ∈ l ∨ q ∈ k → is_Some (heap s !! q)) as Hall.
  { intros q Hq. destruct (wf_heap _ _ _ _ (proj1 Hs) q) as (rq & Hrq & _); [|by eexists].
    rewrite Hl, elem_of_app, elem_of_cons. tauto. }
  eapply (wp_cut _ _ (fun _ s' => s' = s)).
  { unfold DCHECK. rewrite bool_decide_true by (rewrite length_app; cbn; lia). by destruct dchecks. }
  intros _ ? ->. eapply wp_cut; [by eapply (look_wp p r (fun r' s' => r' = r ∧ s' = s))|]. intros ? ? [-> ->].
  apply wp_bind, wp_gets_bind. cbn [id]. rewrite Hinfo. apply wp_ret.
  rewrite take_app_length. replace (drop (Datatypes.S (length l)) (l ++ p :: k)) with k.
  2:{ rewrite (app_assoc l [p] k : l ++ p :: k = _). by rewrite drop_app_length' by (rewrite length_app; cbn; lia). }
  destruct (Z.ltb_spec (Panel.right r) (snapped_right info)) as [Hlt|Hge].
  - eapply (wp_cut _ _ (fun dest s' => s' = s ∧ ∃ l1 l2, l = l1 ++ l2 ∧ dest = length l1 ∧
      (∀ q, q ∈ l2 → Panel.content_x r ≤ center s q) ∧ (∀ q, last l1 = Some q → center s q < Panel.content_x r))).
    { eapply wp_cut; [apply passed_left; auto|]. intros n ? (-> & l1 & l2 & -> & -> & Hin & Hout). apply wp_ret.
      split; [done|]. exists l1, l2. split; [done|]. split; [rewrite length_app; lia|done]. }
    intros dest ? (-> & l1 & l2 & -> & -> & Hin & Hout).
    case_bool_decide as Hd.
    + assert (l2 = []) as -> by (apply nil_length_inv; rewrite length_app in Hd; lia).
      apply wp_ret. rewrite Hl. split; [|done]. split; [|lia]. intros _. exists l1, []. by rewrite app_nil_r.
    + rewrite decide_False by (rewrite length_app; lia).
      rewrite <-app_assoc. change (l2 ++ p :: k) with (l2 ++ [p] ++ k).
      rewrite (rotate_blocks l1 l2 [p] k) by (rewrite ?length_app; cbn; lia).
      eapply wp_mono; [apply (after_reorder (panels_ (bar s))); [done|done|]|].
      * rewrite Hl, <-app_assoc. apply Permutation_app_head. exact (Permutation_middle l2 k p).
      * intros _ s' [-> Hpacked]. split; [|done]. split; [|lia]. intros _. by exists l1, l2.
  - eapply (wp_cut _ _ (fun dest s' => s' = s ∧ ∃ k1 k2, k = k1 ++ k2 ∧ dest = (length l + length k1)%nat ∧
      (∀ q, q ∈ k1 → center s q ≤ Panel.right r) ∧ (∀ q, head k2 = Some q → Panel.right r < center s q))).
    { eapply wp_cut; [apply passed_right; auto|]. intros n ? (-> & k1 & k2 & -> & -> & Hin & Hout). apply wp_ret.
      split; [done|]. by exists k1, k2. }
    intros dest ? (-> & k1 & k2 & -> & -> & Hin & Hout).
    case_bool_decide as Hd.
    + assert (k1 = []) as -> by (apply nil_length_inv; lia).
      apply wp_ret. rewrite Hl. split; [|done]. split; [lia|]. intros _. by exists [], k2.
    + rewrite decide_True by lia.
      change (l ++ p :: k1 ++ k2) with (l ++ [p] ++ k1 ++ k2).
      rewrite (rotate_blocks l [p] k1 k2) by (cbn; lia).
      eapply wp_mono; [apply (after_reorder (panels_ (bar s))); [done|done|]|].
      * rewrite Hl. apply Permutation_app_head. symmetry. exact (Permutation_middle k1 k2 p).
      * intros _ s' [-> Hpacked]. split; [|done]. split; [lia|]. intros _. by exists k1, k2.
Qed.

(** C20. [ReorderPanel] moves the dragged panel past exactly the neighbours it has
    passed and keeps the order of the others: left of its reserved place, past the
    longest run of left neighbours whose centers its left edge has reached;
    otherwise past the longest run of right neighbours whose centers its right edge
    has reached.  When the order changes, everything but the dragged panel is packed
    for the new order, and the dragged panel's new place is reserved. *)
Theorem ReorderPanel_moves p s l k r info :
  reachable s → panels_ (bar s) = l ++ p :: k →
  heap s !! p = Some r → panel_infos_ (bar s) !! p = Some info →
  ∃ s', ReorderPanel bar set_bar p s = Val ((), s') ∧
    reordered p r info l k s (panels_ (bar s')) ∧
    (panels_ (bar s') ≠ panels_ (bar s) → ∀ l' q k', panels_ (bar s') = l' ++ q :: k' →
       packed_at (Some p) s s' q (widths s k')).
Proof.
  intros Hreach Hl Hr Hinfo.
  destruct (proj1 (wp_run _ _ _) (ReorderPanel_wp p s l k r info (reachable_wf s Hreach) Hl Hr Hinfo))
    as ([] & s' & Hrun & Hpost). by exists s'.
Qed.
End bar.

(** ** A bar in memory *)

Module MemPanels.
Import MemServer MemWm MemFrame.
Record state := mkState { st_heap : gmap Z Panel.t; st_world : MemWm.world; st_bar : PanelBar.t }.
#[global] Instance mem_store : PanelStore state MemWm.world := {|
  heap := st_heap;
  set_heap h s := mkState h (st_world s) (st_bar s);
  PanelHeap.world := st_world;
  set_world w s := mkState (st_heap s) w (st_bar s)
|}.
Definition set_bar (b : PanelBar.t) (s : state) : state := mkState (st_heap s) (st_world s) b.
Definition alone (s s' : state) : Prop := True.
#[global] Instance mem_place : PartPlace state MemWm.world PanelBar.t st_bar set_bar alone.
Proof. by split. Qed.

Definition blank (h : gmap Z Panel.t) : state :=
  mkState h (MemServer.connection, MemServer.w0) (PanelBar.mk 0 [] ∅ None false 0 None 0 None None
    PanelBar.COLLAPSED_PANEL_STATE_HIDDEN 0 0 None (EventConsumerRegistrar.new 0)).
Definition run {A} (m : M state A) (s : state) : state := match m s with Val (_, s') => s' | Fault _ => s end.
Definition start : state := run (PanelBar.construct stacking st_bar set_bar 9) (blank {[10 := panel 50 51 true; 20 := panel 52 53 false]}).
Definition take_focus : M state unit := PanelBar.TakeFocus st_bar set_bar;; mret ().

Lemma take_focus_safe ps : framed (bar_of st_bar none any ps) (keep alone) take_focus.
Proof.
  unfold take_focus. apply framed_bind; [apply _| |frame].
  apply (safe_TakeFocus stacking _ _ alone); try done; [exact stacking_complete|by intros ? _ []].
Qed.
Lemma start_reachable : reachable stacking st_bar set_bar take_focus start.
Proof. eapply (reach_construct _ _ _ _ 9 (blank {[10 := panel 50 51 true; 20 := panel 52 53 false]})); [reflexivity|by split]. Qed.

Definition panel_in (p : Z) (s : state) : Panel.t := default no_panel (st_heap s !! p).
Definition info_in (p : Z) (s : state) : PanelInfo :=
  default (mkInfo 0 false) (panel_infos_ (st_bar s) !! p).
Definition event_ (e : event) : state → state := run (handle stacking st_bar set_bar take_focus e).
(** Two panels, the left one collapsed. *)
Definition two : state := event_ (Add 20 PANEL_SOURCE_NEW) (event_ (Add 10 PANEL_SOURCE_NEW) start).
Lemma reach_run e s : reachable stacking st_bar set_bar take_focus s → legal st_bar e s →
  match handle stacking st_bar set_bar take_focus e s with Val _ => True | Fault _ => False end →
  reachable stacking st_bar set_bar take_focus (event_ e s).
Proof.
  intros Hs Hl Hrun. unfold event_, run. destruct (handle _ _ _ _ e s) as [[[] s']|] eqn:E; [|done].
  by eapply reach_event.
Qed.
Lemma two_reachable : reachable stacking st_bar set_bar take_focus two.
Proof.
  apply reach_run; [apply reach_run; [apply start_reachable| |by vm_compute]| |by vm_compute].
  - split; [by apply not_elem_of_nil|]. eexists. split; [reflexivity|]. split; [|done].
    intros q rq Hq. by apply not_elem_of_nil in Hq.
  - assert (panels_ (st_bar (event_ (Add 10 PANEL_SOURCE_NEW) start)) = [10]) as Hps by by vm_compute.
    unfold legal. rewrite Hps. split; [by intros ?%list_elem_of_singleton|].
    eexists. split; [vm_compute; reflexivity|]. split; [|done].
    intros q rq ->%list_elem_of_singleton Hrq. vm_compute in Hrq. injection Hrq as <-. vm_compute. repeat split; discriminate.
Qed.

(** The focus leaves panel [p]'s window for one that is not a panel's. *)
Definition blur (p : Z) (s : state) : state :=
  mkState (alter (fun r => r <| Panel.content_win_ := (Panel.content_win_ r) <| Window.focused_ := false |> |>) p
                 (st_heap s)) (st_world s) (st_bar s).
Lemma blur_reachable p s : reachable stacking st_bar set_bar take_focus s →
  reachable stacking st_bar set_bar take_focus (blur p s).
Proof.
  intros Hs. apply (reach_elsewhere _ _ _ _ s); [done|done| |apply (wf_world _ _ _ _ (proj1 (reachable_wf _ _ _ alone stacking_complete _ take_focus_safe s Hs)))].
  apply heap_kept_lives. intros q r Hq. destruct (decide (q = p)) as [->|Hne].
  - exists (r <| Panel.content_win_ := (Panel.content_win_ r) <| Window.focused_ := false |> |>).
    cbn in Hq |- *. split; [by rewrite lookup_alter_eq, Hq|]. destruct r. repeat split; done.
  - exists r. cbn in Hq |- *. split; [by rewrite lookup_alter_ne|reflexivity].
Qed.
Definition some_expanded (s : state) : bool :=
  existsb (fun p => Panel.is_expanded_ (panel_in p s)) (panels_ (st_bar s)).
(** Panel 10 had the focus, lost it, and is then collapsed by a message. *)
Definition all_collapsed : state := event_ (SetPanelState 10 false) (blur 10 two).
(** An event about a panel that is listed. *)
Definition about (e : event) : option Z :=
  match e with
  | Remove p | Dragged p _ _ | DragComplete p | PanelButtonPress p _ | TitlebarPointerEnter p | FocusChange p _
  | SetPanelState p _ | FocusPanelMessage p | UrgencyChange p => Some p
  | _ => None
  end.
Lemma reach_listed e s : reachable stacking st_bar set_bar take_focus s →
  match about e with Some p => bool_decide (p ∈ panels_ (st_bar s)) | None => false end = true →
  match handle stacking st_bar set_bar take_focus e s with Val _ => True | Fault _ => False end →
  reachable stacking st_bar set_bar take_focus (event_ e s).
Proof.
  intros Hs Hl. apply reach_run; [done|].
  destruct e; try done; apply bool_decide_eq_true in Hl; exact Hl.
Qed.
Lemma all_collapsed_reachable : reachable stacking st_bar set_bar take_focus all_collapsed.
Proof.
  apply reach_listed; [apply blur_reachable, two_reachable|vm_compute; reflexivity|vm_compute; exact I].
Qed.
(** Both panels are collapsed and shown; 20 is dragged when the pointer moves away,
    and closes. *)
Definition closed_while_dragged : state :=
  event_ (Remove 20) (event_ HideTimer (event_ (Dragged 20 600 700) (event_ (PointerEnter (show_collapsed_panels_input_xid_ (st_bar start)) 1000) all_collapsed))).
End MemPanels.

(** [TakeFocus] can succeed although every panel is collapsed: a panel that is
    to be focused stays so when it is collapsed while it does not have the focus.
    (panel_bar.h: the focus is only taken if there is an expanded panel.) *)
Theorem TakeFocus_focuses_collapsed :
  let s := MemPanels.all_collapsed in
  reachable MemFrame.stacking MemPanels.st_bar MemPanels.set_bar MemPanels.take_focus s ∧
  MemPanels.some_expanded s = false ∧
  ∃ s', TakeFocus MemPanels.st_bar MemPanels.set_bar s = Val (true, s') ∧
        Panel.is_expanded_ (MemPanels.panel_in 10 s') = false ∧
        Window.focused_ (Panel.content_win_ (MemPanels.panel_in 10 s')) = true.
Proof.
  cbn zeta. split; [|split; [vm_compute; reflexivity|]].
  - apply MemPanels.all_collapsed_reachable.
  - eexists. split; [vm_compute; reflexivity|]. split; vm_compute; reflexivity.
Qed.

(** A panel that closes while it is dragged takes the end of its drag with it:
    when hiding the collapsed panels was put off until then, it never happens - no
    panel is dragged, nothing watches the pointer any more and the input window that
    would bring the panels back to their cycle is off the screen, yet the bar is
    waiting to hide and the other collapsed panel stays shown. *)
Theorem RemovePanel_forgets_to_hide :
  let s := MemPanels.closed_while_dragged in
  reachable MemFrame.stacking MemPanels.st_bar MemPanels.set_bar MemPanels.take_focus s ∧
  collapsed_panel_state_ (MemPanels.st_bar s) = COLLAPSED_PANEL_STATE_WAITING_TO_HIDE ∧
  dragged_panel_ (MemPanels.st_bar s) = None ∧
  PointerPositionWatcher.timer_id_ <$> hide_collapsed_panels_pointer_watcher_ (MemPanels.st_bar s) = Some 0 ∧
  show_collapsed_panels_timer_id_ (MemPanels.st_bar s) = 0 ∧
  Panel.is_expanded_ (MemPanels.panel_in 10 s) = false ∧
  Panel.titlebar_y (MemPanels.panel_in 10 s) = wm_height (MemPanels.st_world s) - Panel.titlebar_height (MemPanels.panel_in 10 s).
Proof.
  cbn zeta. split; [|vm_compute; repeat split; reflexivity].
  apply MemPanels.reach_listed; [|vm_compute; reflexivity|vm_compute; exact I].
  apply MemPanels.reach_run; [|vm_compute; eexists; reflexivity|vm_compute; exact I].
  apply MemPanels.reach_listed; [|vm_compute; reflexivity|vm_compute; exact I].
  apply MemPanels.reach_run; [apply MemPanels.all_collapsed_reachable|exact I|vm_compute; exact I].
Qed.

Lemma PanelBar_never_fails_witness :
  ∃ s', handle MemFrame.stacking MemPanels.st_bar MemPanels.set_bar MemPanels.take_focus
          (Add 10 PANEL_SOURCE_NEW) MemPanels.start = Val ((), s') ∧
        panels_ (MemPanels.st_bar s') ≡ₚ [10] ∧ desired_panel_to_focus_ (MemPanels.st_bar s') ≠ Some 20.
Proof.
  destruct (PanelBar_never_fails MemFrame.stacking MemPanels.st_bar MemPanels.set_bar MemPanels.alone MemFrame.stacking_complete
    MemPanels.take_focus MemPanels.take_focus_safe MemPanels.start (Add 10 PANEL_SOURCE_NEW) MemPanels.start_reachable)
    as (s' & Hrun & _ & Hps & _ & _ & _ & Hptr & _).
  - split; [by apply not_elem_of_nil|]. eexists. split; [reflexivity|]. split; [|done].
    intros q rq Hq. by apply not_elem_of_nil in Hq.
  - exists s'. split; [exact Hrun|]. split; [exact Hps|]. intros Hd.
    specialize (Hptr 20 (or_intror (or_intror Hd))). rewrite Hps in Hptr. by apply list_elem_of_singleton in Hptr.
Defined.

Lemma PackPanels_layout_witness :
  ∃ s', PackPanels MemPanels.st_bar MemPanels.set_bar (Some 20) MemPanels.two = Val ((), s') ∧
        total_panel_width_ (MemPanels.st_bar s') = 406 ∧
        packed_at MemPanels.st_bar (Some 20) MemPanels.two s' 10 0.
Proof.
  destruct (PackPanels_layout MemFrame.stacking MemPanels.st_bar MemPanels.set_bar MemPanels.alone MemFrame.stacking_complete
    MemPanels.take_focus MemPanels.take_focus_safe (Some 20) MemPanels.two MemPanels.two_reachable)
    as (s' & Hrun & _ & Ht & Hpacked).
  exists s'. split; [exact Hrun|]. split; [rewrite Ht; vm_compute; reflexivity|].
  exact (Hpacked [20] 10 [] eq_refl).
Defined.

Lemma ReorderPanel_moves_witness :
  ∃ s', ReorderPanel MemPanels.st_bar MemPanels.set_bar 20 MemPanels.two = Val ((), s') ∧
        panels_ (MemPanels.st_bar s') = [20; 10].
Proof.
  destruct (ReorderPanel_moves MemFrame.stacking MemPanels.st_bar MemPanels.set_bar MemPanels.alone MemFrame.stacking_complete
    MemPanels.take_focus MemPanels.take_focus_safe 20 MemPanels.two [] [10]
    (MemPanels.panel_in 20 MemPanels.two) (MemPanels.info_in 20 MemPanels.two) MemPanels.two_reachable)
    as (s' & Hrun & [_ Hright] & _); [vm_compute; reflexivity..|].
  exists s'. split; [exact Hrun|].
  destruct Hright as (k1 & k2 & Hk & -> & Hin & _); [vm_compute; congruence|].
  destruct k1 as [|q k1]; [cbn in Hk; by subst k2|]. exfalso. injection Hk as <- Hk.
  specialize (Hin 10 ltac:(by left)). vm_compute in Hin. by apply Hin.
Defined.
