(* ===== verification/PanelSpec.v ===== *)
(** * Resizing a panel by dragging its border (Panel.v). *)

From S2P Require Import Prelude Hoare WmUtil XConnection WmIpc Double Window WmEvents Panel WmFrame.

(** What the press of a button on an input window and the pointer's way ask for. *)
Definition on_left (r : Panel.t) (xid : Z) : bool :=
  (xid =? Panel.top_left_input_xid_ r) || (xid =? Panel.left_input_xid_ r).
Definition on_right (r : Panel.t) (xid : Z) : bool :=
  (xid =? Panel.top_right_input_xid_ r) || (xid =? Panel.right_input_xid_ r).
Definition on_top (r : Panel.t) (xid : Z) : bool :=
  (xid =? Panel.top_input_xid_ r) || (xid =? Panel.top_left_input_xid_ r) || (xid =? Panel.top_right_input_xid_ r).
Definition wanted_width (r : Panel.t) (xid dx : Z) : Z :=
  let w := Panel.content_width r in
  Z.max (i32 (if on_left r xid then w - dx else if on_right r xid then w + dx else w)) Panel.kPanelMinWidth.
Definition wanted_height (r : Panel.t) (xid dy : Z) : Z :=
  let h := Panel.content_height r in
  Z.max (i32 (if on_top r xid then h - dy else h)) Panel.kPanelMinHeight.

Section resize.
Context {W : Type} `{WmFrame W} `{HasConsumers W} `{PanelFlags} `{Build} {S : Type}.
Variable sm : StackingManager.t.
Variable panel : S → Panel.t.
Variable set_panel : Panel.t → S → S.
Variable world : S → W.
Variable set_world : W → S → S.
Variable Fr : S → S → Prop.
Context `{!PreOrder Fr} `{!PanelPlace panel set_panel world set_world Fr}.
Variable HandlePanelResize : M S unit.
Hypothesis Hsm : layers_ok sm.
(** Requests to the X server are queued, glib's timers have IDs above 0, and the
    panel's container only moves it. *)
Hypothesis requests_sent : ∀ r w, wm_ok w → (x_do r w).1 = true.
Hypothesis timer_ids : ∀ ms w, wm_ok w → (g_timeout_add ms w).1 ≠ 0.
Hypothesis container_moves : framed (pan_ok world) (pan_step panel world Fr kept) HandlePanelResize.
Hypothesis not_opaque : FLAGS_panel_opaque_resize = false.

Abbreviation pan_ok := (pan_ok world).
Abbreviation pan_step := (pan_step panel world Fr).
Abbreviation calm := (framed pan_ok (pan_step same_panel)).

(** *** Resizing the windows *)

Definition any_win (r r' : Window.t) : Prop := True.
#[local] Instance any_win_preorder : PreOrder any_win.
Proof. by split. Qed.
Abbreviation loose := (framed win_ok (win_step any_win)).

Lemma steady_loose {A} (m : M (Window.t * W) A) : framed win_ok (win_step same_place) m → loose m.
Proof. intros Hm. eapply framed_weaken; [exact Hm|]. by intros s s' [_ ?]. Qed.
Lemma loose_upd f : loose (Window.upd f).
Proof. apply framed_modify. intros [r w] Hw. split; [done|]. split; [done|reflexivity]. Qed.
#[local] Hint Resolve loose_upd : framed.
#[local] Hint Extern 2 (framed _ (win_step any_win) _) => solve [apply steady_loose; frame] : framed.
Lemma loose_MoveComposited px py ms : loose (Window.MoveComposited px py ms).
Proof. unfold Window.MoveComposited. frame. Qed.
Lemma loose_MoveCompositedY py ms : loose (Window.MoveCompositedY py ms).
Proof. unfold Window.MoveCompositedY. frame. Qed.
Lemma loose_SaveSize w h : loose (Window.SaveClientAndCompositedSize w h).
Proof. unfold Window.SaveClientAndCompositedSize. frame. Qed.
#[local] Hint Resolve loose_MoveComposited loose_MoveCompositedY loose_SaveSize : framed.
Lemma loose_ResizeClient w h g : loose (Window.ResizeClient w h g).
Proof. unfold Window.ResizeClient. frame. Qed.

(** The size is saved when the request is sent. *)
Definition resized_to (w h : Z) (r r' : Window.t) : Prop :=
  Window.client_width_ r' = w ∧ Window.client_height_ r' = h.
Lemma SaveSize_wp w h s : win_ok s →
  wp (Window.SaveClientAndCompositedSize w h) (fun _ s' => win_ok s' ∧ win_step (resized_to w h) s s') s.
Proof.
  intros Hs. unfold Window.SaveClientAndCompositedSize. apply wp_modify_bind.
  assert (framed win_ok (win_step same_place) (Window.actor (SetSize w h);; Window.resize_shadow 0)) as Hrest.
  { apply framed_bind; [apply _|frame|intros _]. apply steady_resize_shadow. }
  eapply wp_mono; [by apply Hrest|]. intros _ s' [Hok [((_ & Hw & Hh) & _) Hscr]].
  split; [done|]. split; [|exact Hscr]. split; [rewrite Hw|rewrite Hh]; by destruct (s.1).
Qed.
Lemma x_sent r s : win_ok s →
  wp (Window.x r) (fun b s' => b = true ∧ win_ok s' ∧ same_screen s.2 s'.2) s.
Proof.
  intros Hs. apply wp_zoom. pose proof (quiet_x_do r s.2 Hs) as Hq. pose proof (requests_sent r s.2 Hs) as Hb.
  unfold wp, extern in *. destruct (x_do r s.2) as [b w]. by destruct Hq.
Qed.
Lemma loose_then_resized {A} (m : M (Window.t * W) A) (k : A → M (Window.t * W) bool) w h s : win_ok s →
  loose m → (∀ a s', win_ok s' → wp (k a) (fun _ s'' => win_ok s'' ∧ win_step (resized_to w h) s' s'') s') →
  wp (m ≫= k) (fun _ s' => win_ok s' ∧ win_step (resized_to w h) s s') s.
Proof.
  intros Hs Hm Hk. eapply wp_cut; [by apply Hm|]. intros a s1 [Hok1 [_ Hscr1]].
  eapply wp_mono; [by apply Hk|]. intros b s2 [Hok2 [Hsz Hscr2]]. split; [done|]. split; [done|by etransitivity].
Qed.
Lemma ResizeClient_wp w h g s : win_ok s →
  wp (Window.ResizeClient w h g) (fun _ s' => win_ok s' ∧ win_step (resized_to w h) s s') s.
Proof.
  intros Hs. unfold Window.ResizeClient. apply wp_gets_bind.
  assert (∀ s1, win_ok s1 → wp (Window.SaveClientAndCompositedSize w h;; (mret true : M (Window.t * W) bool))
    (fun _ s' => win_ok s' ∧ win_step (resized_to w h) s1 s') s1) as Hsave.
  { intros s1 Hs1. eapply wp_cut; [by apply SaveSize_wp|]. intros u s2 Hs2. exact Hs2. }
  assert (∀ r k, (∀ s1, win_ok s1 → wp k (fun _ s' => win_ok s' ∧ win_step (resized_to w h) s1 s') s1) →
    wp (ok ← Window.x r; if negb ok then mret false else k)
       (fun _ s' => win_ok s' ∧ win_step (resized_to w h) s s') s) as Hreq.
  { intros r k Hk. eapply wp_cut; [by apply x_sent|]. intros b s1 (-> & Hok1 & Hscr1). cbn [negb].
    eapply wp_mono; [by apply Hk|]. intros b s2 [Hok2 [Hsz Hscr2]]. split; [done|]. split; [done|by etransitivity]. }
  destruct (_ || _); apply Hreq; intros s1 Hs1; [|by apply Hsave].
  apply loose_then_resized; [done|unfold Window.SaveClientPosition; frame|intros _ s2 Hs2].
  apply loose_then_resized; [done|frame|intros _ s3 Hs3]. by apply Hsave.
Qed.

(** *** ResizeContent *)

Lemma loose_titlebar_win {A} (m : M (Window.t * W) A) s : pan_ok s → loose m →
  wp (Panel.titlebar_win panel set_panel world set_world m)
     (fun _ s' => pan_ok s' ∧ pan_step (fun r r' => ∃ w, r' = r <| Panel.titlebar_win_ := w |>) s s') s.
Proof.
  intros Hs Hm. eapply wp_mono; [eapply (titlebar_win_wp _ _ _ _ Fr m any_win); [done|intros Hok; by apply Hm]|].
  intros a s' [Hok (? & ? & w & Hw & _)]. split; [done|]. split; [done|]. split; [done|]. by exists w.
Qed.

(** The content keeps its size. *)
Definition content_kept (r r' : Panel.t) : Prop :=
  Panel.content_width r' = Panel.content_width r ∧ Panel.content_height r' = Panel.content_height r.
#[local] Instance content_kept_preorder : PreOrder content_kept.
Proof. split; [by intros ?|]. intros ??? [] []. split; congruence. Qed.
Lemma loose_titlebar_content {A} (m : M (Window.t * W) A) : loose m →
  framed pan_ok (pan_step content_kept) (Panel.titlebar_win panel set_panel world set_world m).
Proof.
  intros Hm s Hs. eapply wp_mono; [by apply (loose_titlebar_win m)|]. intros a s' [Hok (HF & Hscr & w & Hw)].
  split; [done|]. split; [done|]. split; [done|]. rewrite Hw. by destruct (panel s).
Qed.
Lemma kept_content r r' : kept r r' → content_kept r r'.
Proof. by intros [(_ & ? & ?) _]. Qed.
Lemma calm_content {A} (m : M S A) : calm m → framed pan_ok (pan_step content_kept) m.
Proof.
  intros Hm. eapply framed_weaken; [exact Hm|]. intros s s' (? & ? & Hk & _). split; [done|]. split; [done|].
  by apply kept_content.
Qed.

Lemma ResizeContent_wp w h g s : pan_ok s → 0 < w → 0 < h →
  wp (Panel.ResizeContent panel set_panel world set_world HandlePanelResize w h g)
     (fun _ s' => pan_ok s' ∧ Panel.content_width (panel s') = w ∧ Panel.content_height (panel s') = h) s.
Proof.
  intros Hs Hw Hh. unfold Panel.ResizeContent, DCHECK.
  replace (if dchecks then CHECK (0 <? w) else mret ()) with (mret () : M S unit)
    by (apply Z.ltb_lt in Hw as ->; by destruct dchecks).
  replace (if dchecks then CHECK (0 <? h) else mret ()) with (mret () : M S unit)
    by (apply Z.ltb_lt in Hh as ->; by destruct dchecks).
  apply wp_ret_bind, wp_ret_bind, wp_gets_bind.
  eapply wp_cut; [eapply (content_win_wp _ _ _ _ Fr); [done|intros; by apply ResizeClient_wp]|].
  intros _ s1 [Hok1 (_ & _ & win & Hwin & Hsize)].
  match goal with |- wp ?m _ _ => assert (framed pan_ok (pan_step content_kept) m) as Hrest end.
  { apply framed_bind; [apply _|apply loose_titlebar_content, loose_ResizeClient|intros _].
    apply framed_bind; [apply _| |intros _].
    - destruct (negb _); [|frame]. apply framed_bind; [apply _|frame|intros p].
      apply framed_bind; [apply _|apply loose_titlebar_content; frame|intros _].
      apply framed_bind; [apply _|apply loose_titlebar_content; frame|frame].
    - apply framed_bind; [apply _|apply calm_content; by eapply (calm_ConfigureInputWindows panel set_panel)|intros _].
      eapply framed_weaken; [exact container_moves|]. intros s2 s3 (? & ? & ?). split; [done|]. split; [done|].
      by apply kept_content. }
  eapply wp_mono; [by apply Hrest|]. intros _ s2 [Hok2 (_ & _ & -> & ->)]. split; [done|].
  rewrite Hwin. destruct (panel s). exact Hsize.
Qed.


(** *** The drag *)

Abbreviation coalescer := (Panel.coalescer panel).
Abbreviation set_coalescer := (Panel.set_coalescer panel set_panel).
Abbreviation ApplyResize := (Panel.ApplyResize panel set_panel world set_world HandlePanelResize).

Lemma ok_set_panel r s : pan_ok s → pan_ok (set_panel r s) ∧ panel (set_panel r s) = r.
Proof.
  intros Hs. unfold WmFrame.pan_ok. by rewrite (world_set_panel panel set_panel world set_world Fr),
    (panel_set_panel panel set_panel world set_world Fr).
Qed.

(** Calls out of the panel leave it as it is. *)
Definition outside (s s' : S) : Prop := panel s' = panel s.
#[local] Instance outside_preorder : PreOrder outside.
Proof. split; [by intros ?|]. unfold outside. congruence. Qed.
Lemma outside_on_world {A} (m : M W A) : quiet m → framed pan_ok outside (Panel.on_world world set_world m).
Proof.
  intros Hm. eapply framed_zoom; [exact Hm|done|]. intros s w Hs Hw _. unfold outside, WmFrame.pan_ok.
  by rewrite (world_set_world panel set_panel world set_world Fr), (panel_set_world panel set_panel world set_world Fr).
Qed.
Lemma outside_actor a c : framed pan_ok outside (Panel.actor world set_world a c).
Proof. apply outside_on_world. frame. Qed.
#[local] Hint Resolve outside_actor : framed.
Lemma outside_wp {A B} (m : M S A) (k : A → M S B) Q s :
  framed pan_ok outside m → pan_ok s →
  (∀ a s', pan_ok s' → panel s' = panel s → wp (k a) Q s') → wp (m ≫= k) Q s.
Proof. intros Hm Hs Hk. eapply wp_cut; [by apply Hm|]. intros a s' [??]. by apply Hk. Qed.
Lemma upd_wp {B} f (k : unit → M S B) Q s : pan_ok s →
  (∀ s', pan_ok s' → panel s' = f (panel s) → wp (k ()) Q s') →
  wp (Panel.upd panel set_panel f ≫= k) Q s.
Proof.
  intros Hs Hk. apply wp_modify_bind. destruct (ok_set_panel (f (panel s)) s Hs) as [Hok Heq]. by apply Hk.
Qed.

(** What a drag by (dx, dy) makes of the panel. *)
Definition dragged (dx dy : Z) (p : Panel.t) : Panel.t :=
  let '(gravity, dx, dy) := Panel.drag_of p dx dy in
  p <| Panel.drag_gravity_ := gravity |>
    <| Panel.drag_last_width_ := Z.max (i32 (Panel.drag_orig_width_ p + dx)) Panel.kPanelMinWidth |>
    <| Panel.drag_last_height_ := Z.max (i32 (Panel.drag_orig_height_ p + dy)) Panel.kPanelMinHeight |>.

Lemma ApplyResize_wp s : pan_ok s →
  let p := panel s in
  let c := Panel.resize_event_coalescer_ p in
  wp ApplyResize
     (fun _ s' => pan_ok s' ∧ panel s' = dragged (i32 (MotionEventCoalescer.x_ c - Panel.drag_start_x_ p))
                                                 (i32 (MotionEventCoalescer.y_ c - Panel.drag_start_y_ p)) p) s.
Proof.
  intros Hs p c. unfold Panel.ApplyResize, dragged. apply wp_gets_bind. cbn [id]. fold p. cbn zeta. fold c.
  destruct (Panel.drag_of p _ _) as [[gravity dx] dy].
  apply upd_wp; [done|]. fold p. intros s1 Hs1 <-. apply wp_gets_bind. cbn [id]. rewrite not_opaque.
  match goal with |- wp ?m _ _ => assert (framed pan_ok outside m) as Hrest by frame end.
  eapply wp_mono; [by apply Hrest|]. by intros u s2 [? ?].
Qed.

(** The drag of the input window [xid] that began at (x0, y0) on the panel [r0]. *)
Record dragging (r0 : Panel.t) (xid x0 y0 : Z) (p : Panel.t) : Prop := {
  dg_inputs : Panel.GetInputWindows p = Panel.GetInputWindows r0;
  dg_xid : Panel.drag_xid_ p = xid;
  dg_start : Panel.drag_start_x_ p = x0 ∧ Panel.drag_start_y_ p = y0;
  dg_orig : Panel.drag_orig_width_ p = Panel.content_width r0 ∧
            Panel.drag_orig_height_ p = Panel.content_height r0;
  dg_actor : is_Some (Panel.resize_actor_ p);
  dg_async : MotionEventCoalescer.synchronous_ (Panel.resize_event_coalescer_ p) = false
}.
(** The size asked for by the last position is the one to apply. *)
Definition applied (r0 : Panel.t) (xid x0 y0 px py : Z) (p : Panel.t) : Prop :=
  Panel.drag_last_width_ p = wanted_width r0 xid (px - x0) ∧
  Panel.drag_last_height_ p = wanted_height r0 xid (py - y0).
(** The last position is queued, or applied, or there was none. *)
Definition pending (r0 : Panel.t) (xid x0 y0 : Z) (p : Panel.t) : Prop :=
  let c := Panel.resize_event_coalescer_ p in
  MotionEventCoalescer.have_queued_position_ c = true ∨
  (MotionEventCoalescer.x_ c = -1 ∧ MotionEventCoalescer.y_ c = -1) ∨
  applied r0 xid x0 y0 (MotionEventCoalescer.x_ c) (MotionEventCoalescer.y_ c) p.

(** The window that is dragged says which edges move. *)
Lemma drag_of_wanted r0 xid p dx dy :
  NoDup (Panel.GetInputWindows r0) → xid ∈ Panel.GetInputWindows r0 →
  Panel.GetInputWindows p = Panel.GetInputWindows r0 → Panel.drag_xid_ p = xid →
  let '(_, ddx, ddy) := Panel.drag_of p (i32 dx) (i32 dy) in
  Z.max (i32 (Panel.content_width r0 + ddx)) Panel.kPanelMinWidth = wanted_width r0 xid dx ∧
  Z.max (i32 (Panel.content_height r0 + ddy)) Panel.kPanelMinHeight = wanted_height r0 xid dy.
Proof.
  unfold Panel.GetInputWindows, Panel.drag_of, wanted_width, wanted_height, on_left, on_right, on_top.
  intros Hnd Hxid [= -> -> -> -> ->] ->.
  repeat match goal with |- context [?a =? ?b] => destruct (Z.eqb_spec a b) end;
    cbn [orb]; rewrite ?Z.add_0_r, ?i32_add_opp_i32, ?i32_add_i32; try done.
  all: exfalso; rewrite !NoDup_cons, !not_elem_of_cons in Hnd; rewrite !elem_of_cons, elem_of_nil in Hxid.
  all: destruct_and?; destruct_or?; congruence.
Qed.

Lemma dragged_applied r0 xid x0 y0 px py p :
  NoDup (Panel.GetInputWindows r0) → xid ∈ Panel.GetInputWindows r0 → dragging r0 xid x0 y0 p →
  let p' := dragged (i32 (px - x0)) (i32 (py - y0)) p in
  dragging r0 xid x0 y0 p' ∧ applied r0 xid x0 y0 px py p' ∧
  Panel.resize_event_coalescer_ p' = Panel.resize_event_coalescer_ p.
Proof.
  intros Hnd Hxid [Hi Hx Hst [Ho1 Ho2] Ha Hc] p'.
  pose proof (drag_of_wanted r0 xid p (px - x0) (py - y0) Hnd Hxid Hi Hx) as Hwant. unfold p', dragged.
  destruct (Panel.drag_of p _ _) as [[gravity ddx] ddy]. unfold applied. destruct p; cbn in *. subst.
  split; [by constructor|]. done.
Qed.

Lemma dragging_coalescer r0 xid x0 y0 p c :
  dragging r0 xid x0 y0 p → MotionEventCoalescer.synchronous_ c = false →
  dragging r0 xid x0 y0 (p <| Panel.resize_event_coalescer_ := c |>).
Proof. intros [] ?. destruct p. by constructor. Qed.

Section drag.
Variable r0 : Panel.t.
Variable xid x0 y0 : Z.
Hypothesis Hnd : NoDup (Panel.GetInputWindows r0).
Hypothesis Hxid : xid ∈ Panel.GetInputWindows r0.

Definition in_drag (s : S) : Prop := pan_ok s ∧ dragging r0 xid x0 y0 (panel s) ∧ pending r0 xid x0 y0 (panel s).

(** The coalescer's timer applies the queued position. *)
Lemma HandleTimer_wp s : in_drag s →
  wp (MotionEventCoalescer.HandleTimer coalescer set_coalescer ApplyResize)
     (fun _ s' => in_drag s' ∧
        let c := Panel.resize_event_coalescer_ (panel s) in
        Panel.resize_event_coalescer_ (panel s') = c <| MotionEventCoalescer.have_queued_position_ := false |>) s.
Proof.
  intros (Hs & Hd & Hp). unfold MotionEventCoalescer.HandleTimer. apply wp_gets_bind.
  unfold Panel.coalescer at 1. destruct (MotionEventCoalescer.have_queued_position_ _) eqn:Eq.
  - eapply wp_cut with (P := fun _ s' => _); [|intros b s' Hs'; exact Hs'].
    eapply wp_cut; [by apply ApplyResize_wp|]. intros _ s1 [Hs1 E1].
    destruct (dg_start _ _ _ _ _ Hd) as [Hx0 Hy0]. rewrite Hx0, Hy0 in E1.
    pose proof (dragged_applied r0 xid x0 y0 (MotionEventCoalescer.x_ (Panel.resize_event_coalescer_ (panel s)))
      (MotionEventCoalescer.y_ (Panel.resize_event_coalescer_ (panel s))) (panel s) Hnd Hxid Hd) as (Hd1 & Ha1 & Hc1).
    rewrite <-E1 in *. apply wp_modify, wp_ret. unfold Panel.set_coalescer, Panel.coalescer, in_drag.
    match goal with |- context [set_panel ?r s1] => destruct (ok_set_panel r s1 Hs1) as [Hok ->] end.
    rewrite Hc1 in Hok |- *. split; [|by destruct (panel s1)]. split; [done|]. split.
    + apply dragging_coalescer; [done|]. pose proof (dg_async _ _ _ _ _ Hd). by destruct (Panel.resize_event_coalescer_ _).
    + right; right. destruct (panel s1), (Panel.resize_event_coalescer_ (panel s)). exact Ha1.
  - apply wp_ret_bind, wp_ret. split; [done|]. destruct (Panel.resize_event_coalescer_ _). cbn in *. by subst.
Qed.

Definition running (s : S) : Prop := MotionEventCoalescer.timer_id_ (Panel.resize_event_coalescer_ (panel s)) ≠ 0.

Lemma StorePosition_wp px py s : in_drag s →
  wp (MotionEventCoalescer.StorePosition coalescer set_coalescer ApplyResize px py)
     (fun _ s' => in_drag s' ∧
        let c := Panel.resize_event_coalescer_ (panel s) in
        let c' := Panel.resize_event_coalescer_ (panel s') in
        MotionEventCoalescer.x_ c' = px ∧ MotionEventCoalescer.y_ c' = py ∧
        MotionEventCoalescer.timer_id_ c' = MotionEventCoalescer.timer_id_ c) s.
Proof.
  intros (Hs & Hd & Hp). unfold MotionEventCoalescer.StorePosition. apply wp_gets_bind.
  unfold Panel.coalescer at 1 2 3. pose proof (dg_async _ _ _ _ _ Hd) as Hc. rewrite Hc.
  destruct ((px =? _) && _) eqn:E.
  - apply wp_ret. apply andb_true_iff in E as [E1%Z.eqb_eq E2%Z.eqb_eq]. split; [done|]. by rewrite E1, E2.
  - apply wp_bind, wp_modify, wp_ret. unfold Panel.set_coalescer, Panel.coalescer, in_drag.
    match goal with |- context [set_panel ?r s] => destruct (ok_set_panel r s Hs) as [Hok ->] end.
    unfold pending. destruct (panel s) as [????  c] eqn:Ep. destruct c. cbn in *. subst.
    split; [|done]. split; [done|]. split; [|by left]. destruct Hd. by constructor.
Qed.

(** While the button is down: the pointer moves over some input window, or the
    coalescer's timer fires. *)
Inductive drag_event := Motion (win px py : Z) | Tick.
Definition handle (e : drag_event) : M S unit :=
  match e with
  | Motion win px py => Panel.HandleInputWindowPointerMotion panel set_panel world set_world HandlePanelResize win px py
  | Tick => MotionEventCoalescer.HandleTimer coalescer set_coalescer ApplyResize;; mret ()
  end.
Lemma handle_wp e s : in_drag s → running s → wp (handle e) (fun _ s' => in_drag s' ∧ running s') s.
Proof.
  intros Hs Hr. destruct e as [win px py|]; cbn [handle].
  - unfold Panel.HandleInputWindowPointerMotion. apply wp_gets_bind. destruct (negb _); [by apply wp_ret|].
    eapply wp_mono; [by apply StorePosition_wp|]. intros _ s' (Hs' & _ & _ & Hid). split; [done|].
    unfold running. by rewrite Hid.
  - eapply wp_cut; [by apply HandleTimer_wp|]. intros _ s' [Hs' Hc]. apply wp_ret. split; [done|].
    unfold running in *. rewrite Hc. by destruct (Panel.resize_event_coalescer_ _).
Qed.
Lemma handle_all_wp es s : in_drag s → running s → wp (for_each handle es) (fun _ s' => in_drag s' ∧ running s') s.
Proof.
  intros Hs Hr. apply (wp_for_each _ (fun _ s' => in_drag s' ∧ running s')); [done| |done].
  intros l1 e l2 s' _ [??]. by apply handle_wp.
Qed.

(** Stopping the coalescer applies what is queued. *)
Lemma Stop_wp s : in_drag s → running s →
  wp (MotionEventCoalescer.Stop coalescer set_coalescer ApplyResize (Panel.source_remove world set_world))
     (fun _ s' => in_drag s' ∧
        let c := Panel.resize_event_coalescer_ (panel s) in
        let c' := Panel.resize_event_coalescer_ (panel s') in
        MotionEventCoalescer.have_queued_position_ c' = false ∧
        MotionEventCoalescer.x_ c' = MotionEventCoalescer.x_ c ∧
        MotionEventCoalescer.y_ c' = MotionEventCoalescer.y_ c) s.
Proof.
  intros (Hs & Hd & Hp) Hr. unfold MotionEventCoalescer.Stop, MotionEventCoalescer.StopInternal.
  apply wp_gets_bind. unfold Panel.coalescer at 1. pose proof (dg_async _ _ _ _ _ Hd) as Hc. rewrite Hc.
  apply wp_gets_bind. unfold Panel.coalescer at 1. unfold running in Hr. apply Z.eqb_neq in Hr as ->.
  apply outside_wp; [apply outside_on_world; frame|done|]. intros _ s1 Hs1 E1.
  apply wp_modify_bind. match goal with |- wp _ _ ?st => set (s2 := st); assert (in_drag s2 ∧
    panel s2 = (panel s) <| Panel.resize_event_coalescer_ :=
      (Panel.resize_event_coalescer_ (panel s)) <| MotionEventCoalescer.timer_id_ := 0 |> |>) as [Hs2 E2] end.
  { subst s2. unfold Panel.set_coalescer, Panel.coalescer, in_drag. rewrite <-E1 in Hd, Hp |- *.
    match goal with |- context [set_panel ?r s1] => destruct (ok_set_panel r s1 Hs1) as [Hok ->] end.
    split; [|done]. split; [done|]. unfold pending in *. rewrite <-E1 in Hc.
    destruct (panel s1) as [????  c] eqn:Ep. destruct c. cbn in *.
    split; [|done]. destruct Hd. by constructor. }
  eapply wp_cut; [by apply HandleTimer_wp|]. intros _ s3 [Hs3 E3]. apply wp_ret. split; [done|].
  rewrite E3, E2. destruct (panel s) as [????  c]. by destruct c.
Qed.

Lemma Release_wp px py s : in_drag s → running s → (px, py) ≠ (-1, -1) →
  wp (Panel.HandleInputWindowButtonRelease panel set_panel world set_world HandlePanelResize xid px py 1)
     (fun _ s' => Panel.content_width (panel s') = wanted_width r0 xid (px - x0) ∧
                  Panel.content_height (panel s') = wanted_height r0 xid (py - y0)) s.
Proof.
  intros Hs Hr Hpos. unfold Panel.HandleInputWindowButtonRelease. apply wp_gets_bind. cbn [id].
  destruct Hs as (Hs & Hd & Hp). rewrite (dg_xid _ _ _ _ _ Hd), Z.eqb_refl. cbn [negb Z.eqb Pos.eqb].
  eapply wp_cut; [by apply StorePosition_wp|]. intros _ s1 (Hs1 & Hx1 & Hy1 & Hid1).
  eapply wp_cut; [apply Stop_wp; [done|unfold running; by rewrite Hid1]|].
  intros _ s2 ((Hok2 & Hd2 & Hp2) & Hq2 & Hx2 & Hy2). rewrite Hx1 in Hx2. rewrite Hy1 in Hy2.
  assert (applied r0 xid x0 y0 px py (panel s2)) as [Ew Eh].
  { destruct Hp2 as [Hq|[[Hx Hy]|Ha]]; [congruence| |by rewrite Hx2, Hy2 in Ha].
    destruct Hpos. f_equal; congruence. }
  apply upd_wp; [done|]. intros s3 Hok3 E3. rewrite not_opaque. apply wp_gets_bind. cbn [id].
  destruct (dg_actor _ _ _ _ _ Hd2) as [a Ha].
  assert (Panel.resize_actor_ (panel s3) = Some a) as -> by (rewrite E3; by destruct (panel s2)).
  rewrite bool_decide_true by done. unfold DCHECK.
  replace (if dchecks then CHECK true else mret ()) with (mret () : M S unit) by by destruct dchecks.
  apply wp_ret_bind, outside_wp; [apply outside_actor|done|]. intros _ s4 Hok4 E4.
  apply upd_wp; [done|]. intros s5 Hok5 E5.
  assert (Panel.drag_last_width_ (panel s3) = wanted_width r0 xid (px - x0)) as -> by (rewrite E3, <-Ew; by destruct (panel s2)).
  assert (Panel.drag_last_height_ (panel s3) = wanted_height r0 xid (py - y0)) as -> by (rewrite E3, <-Eh; by destruct (panel s2)).
  eapply wp_mono; [apply ResizeContent_wp; [done|unfold wanted_width, Panel.kPanelMinWidth; lia|
    unfold wanted_height, Panel.kPanelMinHeight; lia]|]. by intros _ s6 (_ & ? & ?).
Qed.
End drag.

Lemma outside_StackActor a : framed pan_ok outside
  (Panel.on_world world set_world (StackingManager.StackActorAtTopOfLayer sm a StackingManager.LAYER_DRAGGED_PANEL)).
Proof.
  apply outside_on_world. unfold StackingManager.StackActorAtTopOfLayer.
  apply framed_bind; [apply _|apply framed_GetActorForLayer; [apply _|done|by split]|intros b].
  frame.
Qed.
#[local] Hint Resolve outside_StackActor : framed.

Lemma timeout_add_wp ms s : pan_ok s →
  wp (Panel.timeout_add world set_world ms) (fun id s' => id ≠ 0 ∧ pan_ok s' ∧ panel s' = panel s) s.
Proof.
  intros Hs. pose proof (outside_on_world _ (quiet_timeout_add ms) s Hs) as Hout.
  unfold Panel.timeout_add, Panel.on_world in *. unfold wp, zoom, extern in *.
  pose proof (timer_ids ms (world s) Hs) as Hid. by destruct (g_timeout_add ms (world s)).
Qed.

(** The press: the coalescer starts and the box appears. *)
Lemma Press_wp xid x0 y0 s : pan_ok s →
  Panel.drag_xid_ (panel s) = 0 → Panel.resize_actor_ (panel s) = None →
  MotionEventCoalescer.synchronous_ (Panel.resize_event_coalescer_ (panel s)) = false →
  MotionEventCoalescer.timer_id_ (Panel.resize_event_coalescer_ (panel s)) = 0 →
  wp (Panel.HandleInputWindowButtonPress sm panel set_panel world set_world xid x0 y0 1)
     (fun _ s' => in_drag (panel s) xid x0 y0 s' ∧ running s') s.
Proof.
  intros Hs Hdrag Hactor Hasync Htimer. unfold Panel.HandleInputWindowButtonPress. cbn [Z.eqb Pos.eqb negb].
  apply wp_gets_bind. cbn [id]. rewrite Hdrag, Z.eqb_refl. unfold DCHECK.
  replace (if dchecks then CHECK true else mret ()) with (mret () : M S unit) by by destruct dchecks.
  apply wp_ret_bind, upd_wp; [done|]. intros s1 Hs1 E1.
  apply (wp_cut _ _ (fun _ s' => pan_ok s' ∧ ∃ tid, tid ≠ 0 ∧ panel s' =
    (panel s1) <| Panel.resize_event_coalescer_ :=
      (Panel.resize_event_coalescer_ (panel s1)) <| MotionEventCoalescer.timer_id_ := tid |>
        <| MotionEventCoalescer.have_queued_position_ := false |>
        <| MotionEventCoalescer.x_ := -1 |> <| MotionEventCoalescer.y_ := -1 |> |>)).
  { unfold MotionEventCoalescer.Start. apply wp_gets_bind. unfold Panel.coalescer at 1 2 3.
    assert (Panel.resize_event_coalescer_ (panel s1) = Panel.resize_event_coalescer_ (panel s)) as Ec
      by (rewrite E1; by destruct (panel s)).
    rewrite <-Ec in Htimer, Hasync. rewrite Htimer, Hasync. cbn [Z.eqb negb]. apply wp_bind.
    eapply wp_cut; [by apply timeout_add_wp|]. intros tid s2 (Hid & Hs2 & E2).
    apply wp_modify, wp_modify. unfold Panel.set_coalescer, Panel.coalescer.
    do 2 match goal with |- context [set_panel ?r ?st] =>
      lazymatch st with set_panel _ _ => fail | _ => idtac end;
      let H := fresh "Hok" in let E := fresh "E" in let st' := fresh "st" in
      assert (pan_ok st) as H by done; destruct (ok_set_panel r st H) as [? E];
      set (st' := set_panel r st) in *; rewrite ?E; clearbody st' end.
    split; [done|]. exists tid. split; [done|]. rewrite E2. clear. destruct (panel s1) as [????  c]. by destruct c. }
  intros _ s2 (Hs2 & tid & Hid & E2). rewrite not_opaque. apply wp_gets_bind. cbn [id].
  assert (Panel.resize_actor_ (panel s2) = None) as -> by (rewrite E2, E1; by destruct (panel s)).
  rewrite bool_decide_true by done.
  replace (if dchecks then CHECK true else mret ()) with (mret () : M S unit) by by destruct dchecks.
  apply wp_ret_bind, outside_wp; [apply outside_on_world; frame|done|]. intros a s3 Hs3 E3.
  apply wp_ret_bind, upd_wp; [done|]. intros s4 Hs4 E4.
  match goal with |- wp ?m _ _ => assert (framed pan_ok outside m) as Hrest by frame end.
  eapply wp_mono; [by apply Hrest|]. intros u s5 [Hs5 E5]. unfold outside in E5. rewrite E4, E3, E2, E1 in E5.
  unfold in_drag, running, pending. rewrite E5. destruct (panel s) as [????  c] eqn:Ep. destruct c. cbn in *. subst.
  split; [|done]. split; [done|]. split; [by constructor|]. by right; left.
Qed.

(** ** A whole drag *)

Definition drag (xid x0 y0 : Z) (es : list drag_event) (px py : Z) : M S unit :=
  Panel.HandleInputWindowButtonPress sm panel set_panel world set_world xid x0 y0 1;;
  for_each handle es;;
  Panel.HandleInputWindowButtonRelease panel set_panel world set_world HandlePanelResize xid px py 1.

End resize.

(** ** A panel and its world in memory; its container keeps it at the right edge *)

Module MemPanel.
Import MemServer MemWm MemFrame.
Definition state : Type := Panel.t * world.
Definition set_panel (r : Panel.t) (s : state) : state := (r, s.2).
Definition set_world (w : world) (s : state) : state := (s.1, w).
Definition any (s s' : state) : Prop := True.
#[global] Instance any_preorder : PreOrder any.
Proof. by split. Qed.
#[global] Instance mem_panel_place : PanelPlace (fst : state → Panel.t) set_panel snd set_world any.
Proof. by split. Qed.

Definition HandlePanelResize : M state unit := Panel.Move fst set_panel snd set_world 1024 700 true 0.
Lemma container_moves : framed (pan_ok snd) (pan_step fst snd any kept) HandlePanelResize.
Proof.
  intros s Hs. eapply wp_mono; [eapply (Move_wp _ _ _ _ any); exact Hs|]. intros [] s' (Hok & (? & ? & Hmoved) & _).
  split; [done|]. split; [done|]. split; [done|]. apply Hmoved.
Qed.
Lemma requests_sent (r : XRequest) (w : world) : wm_ok w → (x_do r w).1 = true.
Proof. destruct r, w as [c w]; intros Hok; cbn; done. Qed.
Definition start : state := (panel 50 51 true, (connection, w0)).
End MemPanel.

