(* ===== verification/Toplevel.v ===== *)
(** * The layout manager's toplevel windows and their transient windows:
    LayoutManager::ToplevelWindow of layout_manager.{h,cc}, with the fields of the
    LayoutManager that it reads.

    A [Window*] is the XID of a window that the window manager has; a
    [ToplevelWindow*] is an address in [toplevel_heap_]; a [TransientWindow*] is the
    XID of its window, which is its key in [transients_].  Following a pointer to
    what is gone is undefined behaviour. *)

From stdpp Require Import sorting.
From S2P Require Import Prelude WmUtil KeyBindings XConnection WmIpc Double Window WmEvents Panel.

Class LayoutFlags := {
  FLAGS_lm_honor_window_size_hints : bool;
  FLAGS_lm_new_overview_mode : bool;
  FLAGS_lm_overview_gradient_image : bytes
}.
(** What else the layout manager uses of Clutter and the window manager. *)
Class LayoutHost (W : Type) := {
  wm_background_xid : Z;
  clone_actor : Z → W → Z * W
}.

(** The transient's window is the key of the map that has it. *)
Module TransientWindow.
Record t := mk { x_offset : Z; y_offset : Z; centered : bool }.
#[global] Instance eta_t : Eta t := fun r => mk (x_offset r) (y_offset r) (centered r).
Definition new : t := mk 0 0 false.
Definition SaveOffsetsRelativeToOwnerWindow (win owner_win : Window.t) (r : t) : t :=
  r <| x_offset := i32 (Window.client_x_ win - Window.client_x_ owner_win) |>
    <| y_offset := i32 (Window.client_y_ win - Window.client_y_ owner_win) |>.
(** [0.5 * (owner - own)] as an [int]. *)
Definition centering (owner own : Z) : Z := Double.to_int (Double.mul Double.half (Double.of_Z (i32 (owner - own)))).
Definition UpdateOffsetsToCenterOverOwnerWindow (win owner_win : Window.t) (r : t) : t :=
  r <| x_offset := centering (Window.client_width_ owner_win) (Window.client_width_ win) |>
    <| y_offset := centering (Window.client_height_ owner_win) (Window.client_height_ win) |>.
End TransientWindow.

(** ** The state *)

Module ToplevelWindow.
Inductive State :=
| STATE_NEW
| STATE_ACTIVE_MODE_ONSCREEN
| STATE_ACTIVE_MODE_OFFSCREEN
| STATE_ACTIVE_MODE_IN_FROM_RIGHT
| STATE_ACTIVE_MODE_IN_FROM_LEFT
| STATE_ACTIVE_MODE_OUT_TO_LEFT
| STATE_ACTIVE_MODE_OUT_TO_RIGHT
| STATE_ACTIVE_MODE_IN_FADE
| STATE_ACTIVE_MODE_OUT_FADE
| STATE_OVERVIEW_MODE_NORMAL
| STATE_OVERVIEW_MODE_MAGNIFIED.
#[global] Instance State_eq_dec : EqDecision State.
Proof. solve_decision. Defined.

Record t := mk {
  win_ : Z;
  input_xid_ : Z;
  state_ : State;
  overview_x_ : Z;
  overview_y_ : Z;
  overview_width_ : Z;
  overview_height_ : Z;
  overview_scale_ : double;
  gradient_actor_ : option Z;
  transients_ : gmap Z TransientWindow.t;
  stacked_transients_ : Stacker.t Z;
  transient_to_focus_ : option Z;
  event_consumer_registrar_ : EventConsumerRegistrar.t
}.
#[global] Instance eta_t : Eta t := fun r =>
  mk (win_ r) (input_xid_ r) (state_ r) (overview_x_ r) (overview_y_ r) (overview_width_ r) (overview_height_ r)
     (overview_scale_ r) (gradient_actor_ r) (transients_ r) (stacked_transients_ r) (transient_to_focus_ r)
     (event_consumer_registrar_ r).
Definition initial (win input_xid consumer : Z) : t :=
  mk win input_xid STATE_NEW 0 0 0 0 (Double.of_Z 1) None ∅ Stacker.new None (EventConsumerRegistrar.new consumer).
(** The accessor returns an [int]. *)
Definition overview_scale (r : t) : Z := Double.to_int (overview_scale_ r).
(** The transients in the order of the map. *)
Definition transients_in_order (r : t) : list Z := merge_sort Z.le (elements (dom (transients_ r))).
(** Is the point in the window, in the layout manager's coordinates. *)
Definition OverviewWindowContainsPoint (x y : Z) (r : t) : bool :=
  (overview_x_ r <=? x) && (x <? i32 (overview_x_ r + overview_width_ r)) &&
  (overview_y_ r <=? y) && (y <? i32 (overview_y_ r + overview_height_ r)).
Definition UpdateOverviewPosition (x y : Z) (r : t) : t := r <| overview_x_ := x |> <| overview_y_ := y |>.
End ToplevelWindow.

Module LayoutManager.
Inductive Mode := MODE_ACTIVE | MODE_OVERVIEW.
#[global] Instance Mode_eq_dec : EqDecision Mode.
Proof. solve_decision. Defined.

Record Metrics := mkMetrics {
  overview_by_keystroke_count : Z;
  overview_exit_by_mouse_count : Z;
  overview_exit_by_keystroke_count : Z;
  window_cycle_by_keystroke_count : Z
}.
Definition Metrics_Reset : Metrics := mkMetrics 0 0 0 0.

(** [toplevel_heap_] holds the objects that [toplevels_] owns;
    [static_gradient_texture_] is a static member of ToplevelWindow. *)
Record t := mk {
  mode_ : Mode;
  x_ : Z; y_ : Z; width_ : Z; height_ : Z;
  overview_height_ : Z;
  toplevels_ : list Z;
  toplevel_heap_ : gmap Z ToplevelWindow.t;
  input_to_toplevel_ : gmap Z Z;
  transient_to_toplevel_ : gmap Z Z;
  magnified_toplevel_ : option Z;
  active_toplevel_ : option Z;
  floating_tab_ : option Z;
  toplevel_under_floating_tab_ : option Z;
  tab_summary_ : option Z;
  create_browser_window_ : option Z;
  overview_panning_offset_ : Z;
  floating_tab_event_coalescer_ : MotionEventCoalescer.t;
  overview_background_event_coalescer_ : MotionEventCoalescer.t;
  overview_drag_last_x_ : Z;
  metrics_ : Metrics;
  saw_map_request_ : bool;
  static_gradient_texture_ : option Z;
  event_consumer_registrar_ : EventConsumerRegistrar.t
}.
#[global] Instance eta_t : Eta t := fun r =>
  mk (mode_ r) (x_ r) (y_ r) (width_ r) (height_ r) (overview_height_ r) (toplevels_ r) (toplevel_heap_ r)
     (input_to_toplevel_ r) (transient_to_toplevel_ r) (magnified_toplevel_ r) (active_toplevel_ r) (floating_tab_ r)
     (toplevel_under_floating_tab_ r) (tab_summary_ r) (create_browser_window_ r) (overview_panning_offset_ r)
     (floating_tab_event_coalescer_ r) (overview_background_event_coalescer_ r) (overview_drag_last_x_ r)
     (metrics_ r) (saw_map_request_ r) (static_gradient_texture_ r) (event_consumer_registrar_ r).
End LayoutManager.

(** The state of the window manager around the layout manager: the windows
    ([WindowManager::GetWindow]), the key bindings and the world. *)
Class LayoutStore (S W : Type) := {
  lm : S → LayoutManager.t;
  set_lm : LayoutManager.t → S → S;
  GetWindow : Z → S → option Window.t;
  set_window : Z → Window.t → S → S;
  key_bindings : S → KeyBindings.t;
  set_key_bindings : KeyBindings.t → S → S;
  lm_world : S → W;
  set_lm_world : W → S → S
}.

(** ** Following pointers *)

Module LayoutRef.
Import LayoutManager.
Definition no_window : Window.t := Window.initial 0 false false 0 None.
Definition no_toplevel : ToplevelWindow.t := ToplevelWindow.initial 0 0 0.

Section layout_ref.
Context {W : Type} `{Wm W} `{HasConsumers W} {S : Type} `{LayoutStore S W}.

Definition on_world {A} (m : M W A) : M S A := zoom lm_world set_lm_world m.
Definition x (r : XRequest) : M S bool := on_world (extern (x_do r)).
Definition actor (a : Z) (c : ActorCall) : M S unit := on_world (StackingManager.do_actor a c).
Definition get {A} (f : t → A) : M S A := gets (fun s => f (lm s)).
Definition upd (f : t → t) : M S unit := modify (fun s => set_lm (f (lm s)) s).

(** [win->...]. *)
Definition window (xid : Z) : M S Window.t :=
  w ← gets (GetWindow xid);
  match w with Some w => mret w | None => fail Undefined end.
Definition on_window {A} (xid : Z) (m : M (Window.t * W) A) : M S A :=
  window xid;;
  zoom (fun s => (default no_window (GetWindow xid s), lm_world s))
       (fun ww s => set_lm_world ww.2 (set_window xid ww.1 s)) m.

(** [toplevel->...]. *)
Definition top (p : Z) : M S ToplevelWindow.t :=
  h ← get toplevel_heap_;
  match h !! p with Some r => mret r | None => fail Undefined end.
Definition upd_top (p : Z) (f : ToplevelWindow.t → ToplevelWindow.t) : M S unit :=
  r ← top p;
  upd (fun m => m <| toplevel_heap_ := <[p := f r]> (toplevel_heap_ m) |>).
Definition top_at (p : Z) (s : S) : ToplevelWindow.t := default no_toplevel (toplevel_heap_ (lm s) !! p).
Definition set_top (p : Z) (r : ToplevelWindow.t) (s : S) : S :=
  set_lm ((lm s) <| toplevel_heap_ := <[p := r]> (toplevel_heap_ (lm s)) |>) s.
(** [transient->...]. *)
Definition transient (p tr : Z) : M S TransientWindow.t :=
  r ← top p;
  match ToplevelWindow.transients_ r !! tr with Some i => mret i | None => fail Undefined end.
Definition upd_transient (p tr : Z) (f : TransientWindow.t → TransientWindow.t) : M S unit :=
  i ← transient p tr;
  upd_top p (fun r => r <| ToplevelWindow.transients_ := <[tr := f i]> (ToplevelWindow.transients_ r) |>).
Definition on_stack {A} (p : Z) (m : M (Stacker.t Z) A) : M S A :=
  top p;;
  zoom (fun s => ToplevelWindow.stacked_transients_ (top_at p s))
       (fun st s => set_top p ((top_at p s) <| ToplevelWindow.stacked_transients_ := st |>) s) m.

(** Registering for events: the registrar of a toplevel and the registry itself. *)
Definition registrar (p : Z) (f : EventConsumerRegistrar.t * EventConsumers.t →
                                   EventConsumerRegistrar.t * EventConsumers.t) : M S unit :=
  top p;;
  modify (fun s =>
    let '(r, c) := f (ToplevelWindow.event_consumer_registrar_ (top_at p s), get_consumers (lm_world s)) in
    set_lm_world (set_consumers c (lm_world s))
      (set_top p ((top_at p s) <| ToplevelWindow.event_consumer_registrar_ := r |>) s)).
Definition consumers (f : EventConsumers.t → EventConsumers.t) : M S unit :=
  modify (fun s => set_lm_world (set_consumers (f (get_consumers (lm_world s))) (lm_world s)) s).
End layout_ref.
End LayoutRef.

(** ** The methods of ToplevelWindow *)

Module Toplevel.
Import LayoutManager ToplevelWindow LayoutRef.
Definition kOverviewAnimMs : Z := 100.
Definition kWindowAnimMs : Z := 200.
Definition kWindowFadeSizeFraction : double := Double.half.
Definition one : double := Double.of_Z 1.
Definition zero : double := Double.of_Z 0.
Definition three_quarters : double := Double.div (Double.of_Z 3) (Double.of_Z 4).
(** X.h *)
Definition LeaveWindowMask : Z := 32.

Section toplevel.
Context `{Build} `{LayoutFlags} {W : Type} `{Wm W} `{HasConsumers W} `{LayoutHost W} {S : Type} `{LayoutStore S W}.
Variable stacking_manager : StackingManager.t.
(** The layout manager's address, as an event consumer. *)
Variable layout_manager : Z.

Definition GetCurrentTimeFromServer : M S Z := on_world WindowManager.GetCurrentTimeFromServer.
Definition SetActiveWindowProperty (xid : Z) : M S unit := on_world (WindowManager.SetActiveWindowProperty xid);; mret ().

(** *** Where the window is in overview mode *)

Definition GetAbsoluteOverviewCenterX (m : LayoutManager.t) (r : t) : Z :=
  Double.to_int (Double.add (Double.of_Z (i32 (x_ m + overview_x_ r)))
                            (Double.mul Double.half (Double.of_Z (overview_width_ r)))).
Definition GetAbsoluteOverviewOffscreenY (m : LayoutManager.t) : Z := i32 (y_ m + height_ m).
Definition GetAbsoluteOverviewX (m : LayoutManager.t) (r : t) : Z :=
  let offset := if FLAGS_lm_new_overview_mode then overview_panning_offset_ m else 0 in
  i32 (x_ m - offset + overview_x_ r).
Definition GetAbsoluteOverviewY (m : LayoutManager.t) (r : t) : Z := i32 (y_ m + overview_y_ r).

Definition UpdateOverviewScaling (p max_width max_height : Z) : M S unit :=
  r ← top p;
  w ← window (win_ r);
  let width := Double.of_Z (Window.client_width_ w) in
  let height := Double.of_Z (Window.client_height_ w) in
  let scale := Double.min (Double.div (Double.of_Z max_width) width) (Double.div (Double.of_Z max_height) height) in
  upd_top p (fun r => r <| ToplevelWindow.overview_width_ := Double.to_int (Double.mul scale width) |>
                        <| ToplevelWindow.overview_height_ := Double.to_int (Double.mul scale height) |>
                        <| overview_scale_ := scale |>).

(** *** Transient windows: where they are, and how they are stacked *)

Definition scaled_offset (origin : Z) (scale : double) (offset : Z) : Z :=
  Double.to_int (Double.add (Double.of_Z origin) (Double.mul scale (Double.of_Z offset))).
Definition MoveAndScaleTransientWindow (p tr anim_ms : Z) : M S unit :=
  r ← top p;
  i ← transient p tr;
  w ← window (win_ r);
  on_window tr (Window.MoveClient (i32 (Window.client_x_ w + TransientWindow.x_offset i))
                                  (i32 (Window.client_y_ w + TransientWindow.y_offset i)));;
  w ← window (win_ r);
  on_window tr (Window.MoveComposited
    (scaled_offset (Window.composited_x_ w) (Window.composited_scale_x_ w) (TransientWindow.x_offset i))
    (scaled_offset (Window.composited_y_ w) (Window.composited_scale_y_ w) (TransientWindow.y_offset i)) anim_ms);;
  w ← window (win_ r);
  on_window tr (Window.ScaleComposited (Window.composited_scale_x_ w) (Window.composited_scale_y_ w) anim_ms).
Definition MoveAndScaleAllTransientWindows (p anim_ms : Z) : M S unit :=
  r ← top p;
  for_each (fun tr => MoveAndScaleTransientWindow p tr anim_ms) (transients_in_order r).

Definition ApplyStackingForTransientWindow (p tr : Z) (other_win : option Z) : M S unit :=
  transient p tr;;
  match other_win with
  | Some other =>
      o ← window other;
      on_window tr (Window.StackClientAbove (Window.xid_ o));;
      o ← window other;
      on_window tr (Window.StackCompositedAbove (Some (Window.actor_ o)) None false)
  | None =>
      on_window tr (StackingManager.StackWindowAtTopOfLayer stacking_manager StackingManager.LAYER_ACTIVE_TRANSIENT_WINDOW);;
      mret ()
  end.
(** From the bottom of the stack up, each above the one before. *)
Fixpoint stack_above (p : Z) (prev_win : option Z) (trs : list Z) : M S unit :=
  match trs with
  | [] => mret ()
  | tr :: l => ApplyStackingForTransientWindow p tr prev_win;; stack_above p (Some tr) l
  end.
Definition ApplyStackingForAllTransientWindows (p : Z) (stack_directly_above_toplevel : bool) : M S unit :=
  r ← top p;
  stack_above p (if stack_directly_above_toplevel then Some (win_ r) else None)
    (reverse (Stacker.items (stacked_transients_ r))).

(** The first of the stack with a modal window. *)
Fixpoint find_modal (p : Z) (trs : list Z) : M S (option Z) :=
  match trs with
  | [] => mret None
  | tr :: l => transient p tr;; w ← window tr; if Window.wm_state_modal_ w then mret (Some tr) else find_modal p l
  end.
Definition FindTransientWindowToFocus (p : Z) : M S (option Z) :=
  r ← top p;
  match Stacker.items (stacked_transients_ r) with
  | [] => mret None
  | (front :: _) as l => modal ← find_modal p l; mret (Some (default front modal))
  end.

Definition RestackTransientWindowOnTop (p tr : Z) : M S unit :=
  r ← top p;
  match Stacker.items (stacked_transients_ r) with
  | [] => fail Undefined
  | front :: others =>
      if decide (tr = front) then mret ()
      else
        DCHECK (Stacker.Contains (stacked_transients_ r) tr);;
        DCHECK (1 <? zlen (front :: others));;
        on_stack p (Stacker.Remove tr);;
        on_stack p (Stacker.AddOnTop tr);;
        transient p front;;
        ApplyStackingForTransientWindow p tr (Some front)
  end.

(** *** The focus *)

Definition TakeFocus (p timestamp : Z) : M S unit :=
  r ← top p;
  match transient_to_focus_ r with
  | Some tr =>
      RestackTransientWindowOnTop p tr;;
      transient p tr;;
      on_window tr (Window.TakeFocus timestamp);;
      w ← window tr;
      SetActiveWindowProperty (Window.xid_ w)
  | None =>
      on_window (win_ r) (Window.TakeFocus timestamp);;
      w ← window (win_ r);
      SetActiveWindowProperty (Window.xid_ w)
  end.

(** Does the transient to focus have a modal window? *)
Definition focusing_modal (p : Z) (r : t) : M S bool :=
  match transient_to_focus_ r with
  | Some f => transient p f;; w ← window f; mret (Window.wm_state_modal_ w)
  | None => mret false
  end.
Definition set_transient_to_focus (p : Z) (f : option Z) : M S unit := upd_top p (fun r => r <| transient_to_focus_ := f |>).
Definition SetPreferredTransientWindowToFocus (p : Z) (transient_win : option Z) : M S unit :=
  r ← top p;
  match transient_win with
  | None =>
      modal ← focusing_modal p r;
      if bool_decide (is_Some (transient_to_focus_ r)) && negb modal then set_transient_to_focus p None else mret ()
  | Some tr =>
      match transients_ r !! tr with
      | None => mret ()
      | Some _ =>
          if decide (transient_to_focus_ r = Some tr) then mret ()
          else
            modal ← focusing_modal p r;
            if negb modal then set_transient_to_focus p (Some tr)
            else
              w ← window tr;
              if Window.wm_state_modal_ w then set_transient_to_focus p (Some tr) else mret ()
      end
  end.

Fixpoint any_focused (p : Z) (trs : list Z) : M S bool :=
  match trs with
  | [] => mret false
  | tr :: l => transient p tr;; w ← window tr; if Window.focused_ w then mret true else any_focused p l
  end.
Definition IsWindowOrTransientFocused (p : Z) : M S bool :=
  r ← top p;
  w ← window (win_ r);
  if Window.focused_ w then mret true else any_focused p (transients_in_order r).

(** *** Transient windows come and go *)

(** The transient to stack a new one above: the first one, if the new one is modal;
    the first that is not modal otherwise. *)
Fixpoint find_under (p : Z) (modal : bool) (trs : list Z) : M S (option Z) :=
  match trs with
  | [] => mret None
  | tr :: l =>
      transient p tr;;
      w ← window tr;
      if modal || negb (Window.wm_state_modal_ w) then mret (Some tr) else find_under p modal l
  end.
Definition AddTransientWindow (p tr : Z) (stack_directly_above_toplevel : bool) : M S unit :=
  r ← top p;
  match transients_ r !! tr with
  | Some _ => mret ()
  | None =>
      w ← window tr;
      consumers (EventConsumers.RegisterEventConsumerForWindowEvents (Window.xid_ w) layout_manager);;
      owner ← window (win_ r);
      let bubble := Window.type_ w =? WmIpc.WINDOW_TYPE_CHROME_INFO_BUBBLE in
      let i := if bubble then TransientWindow.SaveOffsetsRelativeToOwnerWindow w owner TransientWindow.new
               else TransientWindow.UpdateOffsetsToCenterOverOwnerWindow w owner TransientWindow.new in
      upd_top p (fun r => r <| transients_ := <[tr := i <| TransientWindow.centered := negb bubble |>]> (transients_ r) |>);;
      under ← find_under p (Window.wm_state_modal_ w) (Stacker.items (stacked_transients_ r));
      (match under with
       | Some u => on_stack p (Stacker.AddAbove tr u)
       | None => on_stack p (Stacker.AddOnBottom tr)
       end);;
      SetPreferredTransientWindowToFocus p (Some tr);;
      MoveAndScaleTransientWindow p tr 0;;
      ApplyStackingForTransientWindow p tr
        (match under with Some u => Some u | None => if stack_directly_above_toplevel then Some (win_ r) else None end);;
      on_window tr Window.ShowComposited;;
      on_window tr Window.AddButtonGrab;;
      mret ()
  end.

Definition RemoveTransientWindow (p tr : Z) : M S unit :=
  w ← window tr;
  r ← top p;
  match transients_ r !! tr with
  | None => mret ()
  | Some _ =>
      consumers (EventConsumers.UnregisterEventConsumerForWindowEvents (Window.xid_ w) layout_manager);;
      on_stack p (Stacker.Remove tr);;
      upd_top p (fun r => r <| transients_ := delete tr (transients_ r) |>);;
      on_window tr Window.RemoveButtonGrab;;
      r ← top p;
      if decide (transient_to_focus_ r = Some tr) then
        set_transient_to_focus p None;;
        new_transient ← FindTransientWindowToFocus p;
        SetPreferredTransientWindowToFocus p new_transient
      else mret ()
  end.

Definition HandleTransientWindowConfigureRequest (p tr req_x req_y req_width req_height : Z) : M S unit :=
  w ← window tr;
  r ← top p;
  CHECK (bool_decide (is_Some (transients_ r !! tr)));;
  moved ← (if negb (req_x =? Window.client_x_ w) || negb (req_y =? Window.client_y_ w) then
             on_window tr (Window.MoveClient req_x req_y);;
             w ← window tr;
             owner ← window (win_ r);
             upd_transient p tr (fun i =>
               (TransientWindow.SaveOffsetsRelativeToOwnerWindow w owner i) <| TransientWindow.centered := false |>);;
             mret true
           else mret false);
  w ← window tr;
  moved ← (if negb (req_width =? Window.client_width_ w) || negb (req_height =? Window.client_height_ w) then
             on_window tr (Window.ResizeClient req_width req_height Window.GRAVITY_NORTHWEST);;
             i ← transient p tr;
             if TransientWindow.centered i then
               w ← window tr;
               owner ← window (win_ r);
               upd_transient p tr (TransientWindow.UpdateOffsetsToCenterOverOwnerWindow w owner);;
               mret true
             else mret moved
           else mret moved);
  if moved : bool then MoveAndScaleTransientWindow p tr 0 else mret ().

Definition HandleFocusChange (p focus_win : Z) (focus_in : bool) : M S unit :=
  r ← top p;
  w ← window focus_win;
  DCHECK (bool_decide (focus_win = win_ r) || bool_decide (is_Some (transients_ r !! focus_win)));;
  (if focus_in then on_window focus_win Window.RemoveButtonGrab else on_window focus_win Window.AddButtonGrab);;
  mret ().
Definition HandleButtonPress (p button_win timestamp : Z) : M S unit :=
  r ← top p;
  window button_win;;
  SetPreferredTransientWindowToFocus p
    (if bool_decide (is_Some (transients_ r !! button_win)) then Some button_win else None);;
  TakeFocus p timestamp;;
  x (RemovePointerGrab true timestamp);;
  mret ().
(** *** Construction and destruction *)

(** The gradient that is cloned for each window, made once. *)
Definition make_static_gradient : M S unit :=
  m ← get id;
  match static_gradient_texture_ m with
  | Some _ => mret ()
  | None =>
      a ← on_world (extern (new_image FLAGS_lm_overview_gradient_image));
      upd (fun m => m <| static_gradient_texture_ := Some a |>);;
      actor a (SetVisibility false);;
      actor a (SetName (str "static gradient screen"));;
      actor a AddToStage
  end.
(** [GetMaxSize(width, height, &width, &height)], if the flag says so. *)
Definition size_for (xid width height : Z) : M S (Z * Z) :=
  if FLAGS_lm_honor_window_size_hints then
    w ← window xid;
    match Window.GetMaxSize w width height with Val size => mret size | Fault f => fail f end
  else mret (width, height).
Definition gradient (p : Z) (c : ActorCall) : M S unit :=
  r ← top p;
  match gradient_actor_ r with Some a => actor a c | None => fail Undefined end.
Definition make_gradient (p : Z) : M S unit :=
  m ← get id;
  match static_gradient_texture_ m with
  | None => fail Undefined
  | Some texture =>
      a ← on_world (extern (clone_actor texture));
      upd_top p (fun r => r <| gradient_actor_ := Some a |>);;
      gradient p (SetOpacity zero 0);;
      gradient p (SetVisibility true);;
      gradient p (SetName (str "gradient screen"));;
      gradient p AddToStage
  end.

(** [new ToplevelWindow(win, this)] at the address [p]. *)
Definition construct (p win : Z) : M S unit :=
  w ← window win;
  input_xid ← on_world (WindowManager.CreateInputWindow (-1) (-1) 1 1
    (Z.lor (Z.lor Window.ButtonPressMask Panel.EnterWindowMask) LeaveWindowMask));
  upd (fun m => m <| toplevel_heap_ := <[p := initial win input_xid layout_manager]> (toplevel_heap_ m) |>);;
  registrar p (EventConsumerRegistrar.RegisterForWindowEvents (Window.xid_ w));;
  registrar p (EventConsumerRegistrar.RegisterForWindowEvents input_xid);;
  (if FLAGS_lm_new_overview_mode then make_static_gradient else mret ());;
  m ← get id;
  size ← size_for win (width_ m) (height_ m);
  on_window win (Window.ResizeClient size.1 size.2 Window.GRAVITY_NORTHWEST);;
  on_world (StackingManager.StackXidAtTopOfLayer stacking_manager input_xid StackingManager.LAYER_TOPLEVEL_WINDOW);;
  on_window win (Window.ChangeWmState [(wm_atom ATOM_NET_WM_STATE_MAXIMIZED_HORZ, true);
                                       (wm_atom ATOM_NET_WM_STATE_MAXIMIZED_VERT, true)]);;
  on_window win Window.MoveClientOffscreen;;
  on_window win (Window.SetCompositedOpacity zero 0);;
  on_window win Window.ShowComposited;;
  on_window win Window.AddButtonGrab;;
  if FLAGS_lm_new_overview_mode then make_gradient p else mret ().

(** The destructor's loop takes the first transient of the map until there is none:
    one unit of fuel for each. *)
Definition destroy_step (p : Z) (_ : unit) : M S (unit + unit) :=
  r ← top p;
  match transients_in_order r with
  | [] => mret (inr ())
  | tr :: _ => RemoveTransientWindow p tr;; mret (inl ())
  end.
(** With the members' destructors; then the object is gone. *)
Definition destroy (p : Z) : M S unit :=
  r ← top p;
  loop (Datatypes.S (size (transients_ r))) (destroy_step p) ();;
  r ← top p;
  x (DestroyWindow (input_xid_ r));;
  on_window (win_ r) Window.RemoveButtonGrab;;
  registrar p (fun s => (s.1, EventConsumerRegistrar.destroy s));;
  (match gradient_actor_ r with Some a => actor a DeleteActor | None => mret () end);;
  upd (fun m => m <| toplevel_heap_ := delete p (toplevel_heap_ m) |>).

(** *** Active mode *)

Definition set_state (p : Z) (state : State) : M S unit := upd_top p (fun r => r <| state_ := state |>).
(** [std::max(0, room - size) / 2]. *)
Definition margin (room size : Z) : Z := Z.quot (Z.max 0 (i32 (room - size))) 2.
(** [origin + 0.5 * kWindowFadeSizeFraction * size], or minus. *)
Definition fade_offset (op : double → double → double) (origin size : Z) : Z :=
  Double.to_int (op (Double.of_Z origin) (Double.mul (Double.mul Double.half kWindowFadeSizeFraction) (Double.of_Z size))).

(** Put the active window where it is to come from. *)
Definition place_for_entry (p win_x win_y : Z) : M S unit :=
  m ← get id;
  r ← top p;
  let win := win_ r in
  w ← window win;
  match state_ r with
  | STATE_ACTIVE_MODE_IN_FROM_RIGHT =>
      on_window win (Window.MoveComposited (i32 (x_ m + width_ m)) win_y 0);;
      on_window win (Window.SetCompositedOpacity one 0);;
      on_window win (Window.ScaleComposited one one 0)
  | STATE_ACTIVE_MODE_IN_FROM_LEFT =>
      on_window win (Window.MoveComposited (i32 (x_ m - Window.client_width_ w)) win_y 0);;
      on_window win (Window.SetCompositedOpacity one 0);;
      on_window win (Window.ScaleComposited one one 0)
  | STATE_ACTIVE_MODE_IN_FADE =>
      on_window win (Window.SetCompositedOpacity zero 0);;
      on_window win (Window.MoveComposited (fade_offset Double.sub (x_ m) (Window.client_width_ w))
                                           (fade_offset Double.sub (y_ m) (Window.client_height_ w)) 0);;
      let scale := Double.add one kWindowFadeSizeFraction in
      on_window win (Window.ScaleComposited scale scale 0)
  | STATE_NEW | STATE_ACTIVE_MODE_OFFSCREEN =>
      on_window win (Window.MoveComposited win_x (GetAbsoluteOverviewOffscreenY m) 0);;
      on_window win (Window.ScaleComposited one one 0)
  | _ => mret ()
  end.
Definition activate (p win_y : Z) (update_focus : bool) : M S unit :=
  m ← get id;
  r ← top p;
  let win := win_ r in
  w ← window win;
  let win_x := i32 (x_ m + margin (width_ m) (Window.client_width_ w)) in
  place_for_entry p win_x win_y;;
  MoveAndScaleAllTransientWindows p 0;;
  on_window win (Window.MoveClient win_x win_y);;
  on_window win (Window.MoveComposited win_x win_y kWindowAnimMs);;
  on_window win (Window.ScaleComposited one one kWindowAnimMs);;
  on_window win (Window.SetCompositedOpacity one kWindowAnimMs);;
  (if FLAGS_lm_new_overview_mode then gradient p (SetOpacity zero 0) else mret ());;
  (if update_focus then timestamp ← GetCurrentTimeFromServer; TakeFocus p timestamp else mret ());;
  set_state p STATE_ACTIVE_MODE_ONSCREEN.

(** Slide, fade or shrink a window that is not active away. *)
Definition animate_exit (p win_y : Z) (to_left_of_active : bool) : M S unit :=
  m ← get id;
  r ← top p;
  let win := win_ r in
  w ← window win;
  match state_ r with
  | STATE_ACTIVE_MODE_OUT_TO_LEFT =>
      on_window win (Window.MoveComposited (i32 (x_ m - Window.client_width_ w)) win_y kWindowAnimMs)
  | STATE_ACTIVE_MODE_OUT_TO_RIGHT =>
      on_window win (Window.MoveComposited (i32 (x_ m + width_ m)) win_y kWindowAnimMs)
  | STATE_ACTIVE_MODE_OUT_FADE =>
      on_window win (Window.SetCompositedOpacity zero kWindowAnimMs);;
      on_window win (Window.MoveComposited (fade_offset Double.add (x_ m) (Window.client_width_ w))
                                           (fade_offset Double.add (y_ m) (Window.client_height_ w)) kWindowAnimMs);;
      on_window win (Window.ScaleComposited kWindowFadeSizeFraction kWindowFadeSizeFraction kWindowAnimMs)
  | STATE_ACTIVE_MODE_OFFSCREEN => mret ()
  | _ =>
      (if FLAGS_lm_new_overview_mode then
         screen_width ← gets (fun s => wm_width (lm_world s));
         let away := if to_left_of_active then i32 (0 - ToplevelWindow.overview_width_ r) else screen_width in
         on_window win (Window.MoveComposited away (GetAbsoluteOverviewY m r) kWindowAnimMs);;
         gradient p (Move away (GetAbsoluteOverviewY m r) kWindowAnimMs)
       else
         on_window win (Window.MoveComposited (GetAbsoluteOverviewX m r) (GetAbsoluteOverviewOffscreenY m) kWindowAnimMs));;
      on_window win (Window.ScaleComposited (overview_scale_ r) (overview_scale_ r) kWindowAnimMs);;
      on_window win (Window.SetCompositedOpacity Double.half kWindowAnimMs)
  end.
Definition deactivate (p win_y : Z) (to_left_of_active : bool) : M S unit :=
  r ← top p;
  animate_exit p win_y to_left_of_active;;
  on_window (win_ r) (Window.SetShadowOpacity zero kWindowAnimMs);;
  set_state p STATE_ACTIVE_MODE_OFFSCREEN;;
  on_window (win_ r) Window.MoveClientOffscreen;;
  mret ().

Definition ConfigureForActiveMode (p : Z) (window_is_active to_left_of_active update_focus : bool) : M S unit :=
  m ← get id;
  r ← top p;
  w ← window (win_ r);
  let win_y := i32 (y_ m + margin (height_ m) (Window.client_height_ w)) in
  (if window_is_active then activate p win_y update_focus else deactivate p win_y to_left_of_active);;
  ApplyStackingForAllTransientWindows p false;;
  MoveAndScaleAllTransientWindows p kWindowAnimMs;;
  x (ConfigureWindowOffscreen (input_xid_ r));;
  mret ().

(** *** Overview mode *)

(** The input window over the window's image. *)
Definition place_input_window (p : Z) : M S unit :=
  m ← get id;
  r ← top p;
  on_world (WindowManager.ConfigureInputWindow (input_xid_ r) (GetAbsoluteOverviewX m r) (GetAbsoluteOverviewY m r)
              (ToplevelWindow.overview_width_ r) (ToplevelWindow.overview_height_ r));;
  mret ().
Definition overview_state (window_is_magnified : bool) : State :=
  if window_is_magnified then STATE_OVERVIEW_MODE_MAGNIFIED else STATE_OVERVIEW_MODE_NORMAL.
Definition stack_under (p : Z) (toplevel_to_stack_under : option Z) : M S unit :=
  r ← top p;
  match toplevel_to_stack_under with
  | Some q =>
      o ← top q;
      bottom ← on_window (win_ o) Window.GetBottomActor;
      on_window (win_ r) (Window.StackCompositedBelow (Some bottom) None false);;
      ow ← window (win_ o);
      on_window (win_ r) (Window.StackClientBelow (Window.xid_ ow));;
      x (StackWindow (input_xid_ r) (input_xid_ o) false);;
      mret ()
  | None =>
      on_window (win_ r) (StackingManager.StackWindowAtTopOfLayer stacking_manager StackingManager.LAYER_TOPLEVEL_WINDOW);;
      on_world (StackingManager.StackXidAtTopOfLayer stacking_manager (input_xid_ r) StackingManager.LAYER_TOPLEVEL_WINDOW);;
      mret ()
  end.
(** The new overview mode's work that a pan does not repeat. *)
Definition settle_in_overview (p : Z) (window_is_magnified : bool) (toplevel_to_stack_under : option Z) : M S unit :=
  stack_under p toplevel_to_stack_under;;
  m ← get id;
  r ← top p;
  let anim_ms := if decide (state_ r = STATE_NEW) then 0 else kOverviewAnimMs in
  on_window (win_ r) (Window.ScaleComposited (overview_scale_ r) (overview_scale_ r) anim_ms);;
  on_window (win_ r) (Window.SetCompositedOpacity one anim_ms);;
  on_window (win_ r) Window.MoveClientOffscreen;;
  place_input_window p;;
  ApplyStackingForAllTransientWindows p true;;
  above ← window (default (win_ r) (head (Stacker.items (stacked_transients_ r))));
  gradient p (Raise (Window.actor_ above));;
  gradient p (SetOpacity (if window_is_magnified then zero else one) anim_ms);;
  (if decide (state_ r = STATE_NEW) then
     on_window (win_ r) (Window.MoveComposited (i32 (x_ m + width_ m)) (GetAbsoluteOverviewY m r) 0);;
     gradient p (Move (i32 (x_ m + width_ m)) (GetAbsoluteOverviewY m r) 0)
   else mret ());;
  set_state p (overview_state window_is_magnified).
Definition scale_gradient (p anim_ms : Z) : M S unit :=
  r ← top p;
  w ← window (win_ r);
  match gradient_actor_ r with
  | None => fail Undefined
  | Some a =>
      width ← gets (fun s => actor_width a (lm_world s));
      height ← gets (fun s => actor_height a (lm_world s));
      let scale size own := Double.div (Double.mul (overview_scale_ r) (Double.of_Z size)) (Double.of_Z own) in
      actor a (Scale (scale (Window.client_width_ w) width) (scale (Window.client_height_ w) height) anim_ms)
  end.

Definition ConfigureForOverviewMode (p : Z) (window_is_magnified dim_if_unmagnified : bool)
    (toplevel_to_stack_under : option Z) (incremental : bool) : M S unit :=
  if FLAGS_lm_new_overview_mode then
    (if negb incremental then settle_in_overview p window_is_magnified toplevel_to_stack_under else mret ());;
    m ← get id;
    r ← top p;
    let anim_ms := if incremental then 0 else kOverviewAnimMs in
    on_window (win_ r) (Window.MoveComposited (GetAbsoluteOverviewX m r) (GetAbsoluteOverviewY m r) anim_ms);;
    MoveAndScaleAllTransientWindows p anim_ms;;
    gradient p (Move (GetAbsoluteOverviewX m r) (GetAbsoluteOverviewY m r) anim_ms);;
    scale_gradient p anim_ms
  else
    m ← get id;
    r ← top p;
    let scale := overview_scale_ r in
    (if bool_decide (state_ r = STATE_NEW) || bool_decide (state_ r = STATE_ACTIVE_MODE_OFFSCREEN) then
       on_window (win_ r) (Window.MoveComposited (GetAbsoluteOverviewX m r) (GetAbsoluteOverviewOffscreenY m) 0);;
       on_window (win_ r) (Window.ScaleComposited scale scale 0);;
       on_window (win_ r) (Window.SetCompositedOpacity Double.half 0);;
       MoveAndScaleAllTransientWindows p 0
     else mret ());;
    on_window (win_ r) (Window.MoveComposited (GetAbsoluteOverviewX m r) (GetAbsoluteOverviewY m r) kOverviewAnimMs);;
    on_window (win_ r) (Window.ScaleComposited scale scale kOverviewAnimMs);;
    on_window (win_ r) Window.MoveClientOffscreen;;
    place_input_window p;;
    on_window (win_ r) (Window.SetCompositedOpacity
      (if negb window_is_magnified && dim_if_unmagnified then three_quarters else one) kOverviewAnimMs);;
    ApplyStackingForAllTransientWindows p true;;
    MoveAndScaleAllTransientWindows p kOverviewAnimMs;;
    set_state p (overview_state window_is_magnified).
End toplevel.
End Toplevel.
