(* ===== verification/LayoutManager.v ===== *)
(** * The layout manager: LayoutManager of layout_manager.{h,cc}.

    It runs in any state that has it, the windows, the key bindings and the world
    ([LayoutStore] of Toplevel.v).  What the window manager does when nobody of it
    takes the focus is a parameter, and so is the address of a new ToplevelWindow. *)

From S2P Require Import Prelude WmUtil KeyBindings XConnection WmIpc Double Window WmEvents Panel Toplevel.

Module Layout.
Import LayoutManager LayoutRef.
Definition kWindowPadding : Z := 10.
Definition kOverviewWindowMaxSizeRatio : double := Double.half.
Definition kOverviewExposedWindowRatio : double := Double.div (Double.of_Z 1) (Double.of_Z 10).
Definition kCreateBrowserWindowVerticalPadding : Z := 10.
Definition kTabSummaryPadding : Z := 40.
Definition kMaxWindowHeightRatio : double := Toplevel.three_quarters.
Definition kFloatingTabUpdateMs : Z := 50.
Definition kOverviewDragUpdateMs : Z := 50.
Definition kOverviewHeightFraction : double := Double.div (Double.of_Z 3) (Double.of_Z 10).

(** keysymdef.h *)
Definition XK_Tab : Z := 65289.
Definition XK_Return : Z := 65293.
Definition XK_Escape : Z := 65307.
Definition XK_Left : Z := 65361.
Definition XK_Right : Z := 65363.
Definition XK_F1 : Z := 65470.
Definition XK_F2 : Z := 65471.
Definition XK_F12 : Z := 65481.
Definition XK_1 : Z := 49.
Definition XK_9 : Z := 57.
Definition XK_h : Z := 104.
Definition XK_l : Z := 108.
Definition XK_w : Z := 119.

(** *** Key bindings of the modes *)

(** [StringPrintf("...%d", i)] of a digit. *)
Definition indexed (prefix : string) (i : Z) : bytes := str prefix ++ [byte_of (48 + i)].
Definition alt (key : Z) : Z * Z := (key, KeyBindings.kAltMask).
Definition alt_shift (key : Z) : Z * Z := (key, Z.lor KeyBindings.kAltMask KeyBindings.kShiftMask).
Definition ctrl_shift (key : Z) : Z * Z := (key, Z.lor KeyBindings.kControlMask KeyBindings.kShiftMask).
Definition plain (key : Z) : Z * Z := (key, 0).

(** What [AddKeyBindingsForMode] binds, and what [RemoveKeyBindingsForMode] unbinds. *)
Definition bound_for_mode (mode : Mode) : list (Z * Z * bytes) :=
  match mode with
  | MODE_ACTIVE =>
      [(plain XK_F12, str "switch-to-overview-mode");
       (alt XK_Tab, str "cycle-active-forward");
       (alt XK_F2, str "cycle-active-forward");
       (alt_shift XK_Tab, str "cycle-active-backward");
       (alt XK_F1, str "cycle-active-backward")] ++
      ((fun i => (alt (XK_1 + i), indexed "activate-toplevel-with-index-" i)) <$> seqZ 0 8) ++
      [(alt XK_9, str "activate-last-toplevel");
       (ctrl_shift XK_w, str "delete-active-window")]
  | MODE_OVERVIEW =>
      [(plain XK_Escape, str "switch-to-active-mode");
       (plain XK_F12, str "switch-to-active-mode");
       (plain XK_Return, str "switch-to-active-mode-for-magnified");
       (plain XK_Right, str "cycle-magnification-forward");
       (alt XK_Tab, str "cycle-magnification-forward");
       (alt XK_F2, str "cycle-magnification-forward");
       (plain XK_Left, str "cycle-magnification-backward");
       (alt_shift XK_Tab, str "cycle-magnification-backward");
       (alt XK_F1, str "cycle-magnification-backward")] ++
      ((fun i => (alt (XK_1 + i), indexed "magnify-toplevel-with-index-" i)) <$> seqZ 0 8) ++
      [(alt XK_9, str "magnify-last-toplevel");
       (alt XK_h, str "pan-overview-mode-left");
       (alt XK_l, str "pan-overview-mode-right")]
  end.
Definition unbound_for_mode (mode : Mode) : list (Z * Z) :=
  match mode with
  | MODE_ACTIVE =>
      [plain XK_F12; alt XK_Tab; alt XK_F2; alt_shift XK_Tab; alt XK_F1] ++
      ((fun i => alt (XK_1 + i)) <$> seqZ 0 9) ++ [ctrl_shift XK_w]
  | MODE_OVERVIEW =>
      [plain XK_Escape; plain XK_F12; plain XK_Return; plain XK_Right; alt XK_Tab; alt XK_F2; plain XK_Left;
       alt_shift XK_Tab; alt XK_F1] ++
      ((fun i => alt (XK_1 + i)) <$> seqZ 0 9) ++ [alt XK_h; alt XK_l]
  end.

(** The closures of the actions, and the numbers they have. *)
Inductive Closure :=
| SwitchToOverview
| SwitchToActive (activate_magnified_win : bool)
| CycleActive (forward : bool)
| CycleMagnified (forward : bool)
| ActivateByIndex (index : Z)
| MagnifyByIndex (index : Z)
| DeleteActive
| Pan (offset : Z).
Definition closure_id (c : Closure) : Z :=
  match c with
  | SwitchToOverview => 0
  | SwitchToActive b => if b then 2 else 1
  | CycleActive b => if b then 4 else 3
  | CycleMagnified b => if b then 6 else 5
  | DeleteActive => 7
  | ActivateByIndex i => 100 + i
  | MagnifyByIndex i => 200 + i
  | Pan offset => 1000 + offset
  end.
Definition actions : list (bytes * Closure) :=
  [(str "switch-to-overview-mode", SwitchToOverview);
   (str "switch-to-active-mode", SwitchToActive false);
   (str "cycle-active-forward", CycleActive true);
   (str "cycle-active-backward", CycleActive false);
   (str "cycle-magnification-forward", CycleMagnified true);
   (str "cycle-magnification-backward", CycleMagnified false);
   (str "switch-to-active-mode-for-magnified", SwitchToActive true)] ++
  (seqZ 0 8 ≫= fun i => [(indexed "activate-toplevel-with-index-" i, ActivateByIndex i);
                         (indexed "magnify-toplevel-with-index-" i, MagnifyByIndex i)]) ++
  [(str "activate-last-toplevel", ActivateByIndex (-1));
   (str "magnify-last-toplevel", MagnifyByIndex (-1));
   (str "delete-active-window", DeleteActive);
   (str "pan-overview-mode-left", Pan (-50));
   (str "pan-overview-mode-right", Pan 50)].
(** What the destructor removes. *)
Definition removed_actions : list bytes :=
  str <$> ["switch-to-overview-mode"; "switch-to-active-mode"; "cycle-active-forward"; "cycle-active-backward";
           "cycle-magnification-forward"; "cycle-magnification-backward"; "switch-to-active-mode-for-magnified";
           "delete-active-window"; "pan-overview-mode-left"; "pan-overview-mode-right"].

(** *** Finding windows *)

Definition IsHandledWindowType (type : Z) : bool :=
  (type =? WmIpc.WINDOW_TYPE_CHROME_FLOATING_TAB) || (type =? WmIpc.WINDOW_TYPE_CHROME_INFO_BUBBLE) ||
  (type =? WmIpc.WINDOW_TYPE_CHROME_TAB_SUMMARY) || (type =? WmIpc.WINDOW_TYPE_CHROME_TOPLEVEL) ||
  (type =? WmIpc.WINDOW_TYPE_CREATE_BROWSER_WINDOW) || (type =? WmIpc.WINDOW_TYPE_UNKNOWN).
Definition GetToplevelWindowByInputXid (xid : Z) (m : t) : option Z := input_to_toplevel_ m !! xid.
Definition IsInputWindow (xid : Z) (m : t) : bool := bool_decide (is_Some (GetToplevelWindowByInputXid xid m)).
Definition GetToplevelWindowOwningTransientWindow (xid : Z) (m : t) : option Z := transient_to_toplevel_ m !! xid.
Definition GetIndexForToplevelWindow (p : Z) (m : t) : Z :=
  match list_find (eq p) (toplevels_ m) with Some (i, _) => Z.of_nat i | None => -1 end.
Definition Metrics_Populate (m : Metrics) : Z * Z * Z * Z :=
  (overview_by_keystroke_count m, overview_exit_by_mouse_count m, overview_exit_by_keystroke_count m,
   window_cycle_by_keystroke_count m).

Section layout.
Context `{Build} `{LayoutFlags} {W : Type} `{Wm W} `{HasConsumers W} `{KeyGrabs W} `{LayoutHost W}.
Context {S : Type} `{LayoutStore S W}.
Variable stacking_manager : StackingManager.t.
Variable self : Z.
Variable wm_TakeFocus : M S unit.
Variable new_toplevel_address : S → Z.

Abbreviation ConfigureForActiveMode := (Toplevel.ConfigureForActiveMode stacking_manager).
Abbreviation ConfigureForOverviewMode := (Toplevel.ConfigureForOverviewMode stacking_manager).
Abbreviation TakeFocusAt := (Toplevel.TakeFocus stacking_manager).

Definition GetCurrentTimeFromServer : M S Z := on_world WindowManager.GetCurrentTimeFromServer.
Definition SetActiveWindowProperty (xid : Z) : M S unit := on_world (WindowManager.SetActiveWindowProperty xid);; mret ().
Definition send (xid : Z) (type : Z) (params : list Z) : M S unit :=
  on_world (WmIpc.SendMessage wm_atoms xid (WmIpc.Message.mk type (take 4 (params ++ replicate 4 0))));; mret ().
Definition on_kb {A} (m : M (KeyBindings.t * W) A) : M S A :=
  zoom (fun s => (key_bindings s, lm_world s)) (fun kw s => set_lm_world kw.2 (set_key_bindings kw.1 s)) m.
Definition combo (km : Z * Z) : KeyBindings.KeyCombo := KeyBindings.make_KeyCombo (W := W) km.1 km.2.

Definition AddKeyBindingsForMode (mode : Mode) : M S unit :=
  for_each (fun b => on_kb (KeyBindings.AddBinding (combo b.1) b.2);; mret ()) (bound_for_mode mode).
Definition RemoveKeyBindingsForMode (mode : Mode) : M S unit :=
  for_each (fun km => on_kb (KeyBindings.RemoveBinding (combo km));; mret ()) (unbound_for_mode mode).

Fixpoint find_toplevel (xid : Z) (ps : list Z) : M S (option Z) :=
  match ps with
  | [] => mret None
  | p :: l => r ← top p; if ToplevelWindow.win_ r =? xid then mret (Some p) else find_toplevel xid l
  end.
Definition GetToplevelWindowByWindow (xid : Z) : M S (option Z) :=
  ps ← get toplevels_; find_toplevel xid ps.
Definition GetToplevelWindowByXid (xid : Z) : M S (option Z) :=
  w ← gets (GetWindow xid);
  match w with None => mret None | Some _ => GetToplevelWindowByWindow xid end.
Definition GetInputXidForWindow (xid : Z) : M S Z :=
  toplevel ← GetToplevelWindowByWindow xid;
  match toplevel with Some p => r ← top p; mret (ToplevelWindow.input_xid_ r) | None => mret 0 end.
(** The toplevel that owns the transient, or that the window is. *)
Definition toplevel_for (xid : Z) : M S (option Z) :=
  owner ← get (GetToplevelWindowOwningTransientWindow xid);
  match owner with Some p => mret (Some p) | None => GetToplevelWindowByWindow xid end.
Fixpoint find_chrome (ps : list Z) : M S (option Z) :=
  match ps with
  | [] => mret None
  | p :: l =>
      r ← top p;
      w ← window (ToplevelWindow.win_ r);
      if Window.type_ w =? WmIpc.WINDOW_TYPE_CHROME_TOPLEVEL then mret (Some (ToplevelWindow.win_ r)) else find_chrome l
  end.
Definition GetChromeWindow : M S (option Z) := ps ← get toplevels_; find_chrome ps.

Definition DoInitialSetupForWindow (xid : Z) : M S unit :=
  w ← window xid;
  (if negb (Window.type_ w =? WmIpc.WINDOW_TYPE_CHROME_INFO_BUBBLE) then on_window xid Window.MoveClientOffscreen;; mret ()
   else mret ());;
  on_window xid (StackingManager.StackWindowAtTopOfLayer stacking_manager StackingManager.LAYER_TOPLEVEL_WINDOW);;
  mret ().

(** *** Messages to Chrome *)

(** Is there a toplevel, of Chrome's: its window's XID. *)
Definition chrome_toplevel (toplevel : option Z) : M S (option Z) :=
  match toplevel with
  | None => mret None
  | Some p =>
      r ← top p;
      w ← window (ToplevelWindow.win_ r);
      mret (if Window.type_ w =? WmIpc.WINDOW_TYPE_CHROME_TOPLEVEL then Some (Window.xid_ w) else None)
  end.
Definition SendTabSummaryMessage (toplevel : option Z) (show : bool) : M S unit :=
  chrome ← chrome_toplevel toplevel;
  match toplevel, chrome with
  | Some p, Some xid =>
      m ← get id;
      r ← top p;
      send xid WmIpc.Message.CHROME_SET_TAB_SUMMARY_VISIBILITY
        (if show then [1; Toplevel.GetAbsoluteOverviewCenterX m r] else [0])
  | _, _ => mret ()
  end.
Definition SendModeMessage (toplevel : option Z) : M S unit :=
  chrome ← chrome_toplevel toplevel;
  match chrome with
  | Some xid =>
      mode ← get mode_;
      send xid WmIpc.Message.CHROME_NOTIFY_LAYOUT_MODE [match mode with MODE_ACTIVE => 0 | MODE_OVERVIEW => 1 end]
  | None => mret ()
  end.
Definition SetMagnifiedToplevelWindow (toplevel : option Z) : M S unit :=
  magnified ← get magnified_toplevel_;
  if decide (magnified = toplevel) then mret ()
  else
    (if negb FLAGS_lm_new_overview_mode && bool_decide (is_Some magnified) then SendTabSummaryMessage magnified false
     else mret ());;
    upd (fun m => m <| magnified_toplevel_ := toplevel |>).

(** *** Laying windows out *)

Fixpoint configure_active (update_focus saw_active : bool) (ps : list Z) : M S unit :=
  match ps with
  | [] => mret ()
  | p :: l =>
      m ← get id;
      let is_active := bool_decide (active_toplevel_ m = Some p) in
      ConfigureForActiveMode p is_active (negb saw_active) update_focus;;
      configure_active update_focus (saw_active || is_active) l
  end.
Definition LayoutToplevelWindowsForActiveMode (update_focus : bool) : M S unit :=
  m ← get id;
  match toplevels_ m with
  | [] => mret ()
  | first :: _ =>
      (if bool_decide (active_toplevel_ m = None) then upd (fun m => m <| active_toplevel_ := Some first |>) else mret ());;
      configure_active update_focus false (toplevels_ m)
  end.

(** [0.5 * z], and comparing it. *)
Definition halved (z : Z) : double := Double.mul Double.half (Double.of_Z z).

(** The new overview mode: windows from the left, each over the one before. *)
Definition panning_offset (m : t) (r : ToplevelWindow.t) (magnified_x : Z) : Z :=
  let width := width_ m in
  let x := ToplevelWindow.overview_x_ r in
  let own := ToplevelWindow.overview_width_ r in
  if Double.ltb (halved (i32 (width - own))) (Double.of_Z magnified_x) &&
     negb (Double.ltb (halved (i32 (width + own))) (Double.of_Z magnified_x))
  then Double.to_int (Double.sub (Double.add (Double.of_Z x) (halved own)) (halved width))
  else if Double.ltb (Double.of_Z magnified_x) (halved (i32 (width - own)))
  then i32 (x - magnified_x + 1)
  else i32 (x - magnified_x + own - 1).
(** What a window leaves of the one below. *)
Definition exposed_width (width width_limit : Z) : double :=
  Double.mul (Double.mul kOverviewExposedWindowRatio (Double.of_Z width))
    (Double.div (Double.of_Z width_limit) (Double.mul kOverviewWindowMaxSizeRatio (Double.of_Z width))).
Fixpoint place_overlapping (magnified_x width_limit height_limit running_width : Z) (ps : list Z) : M S unit :=
  match ps with
  | [] => mret ()
  | p :: l =>
      m ← get id;
      let is_magnified := bool_decide (magnified_toplevel_ m = Some p) in
      Toplevel.UpdateOverviewScaling p width_limit height_limit;;
      r ← top p;
      upd_top p (ToplevelWindow.UpdateOverviewPosition running_width
        (Double.to_int (halved (i32 (height_ m - ToplevelWindow.overview_height_ r)))));;
      r ← top p;
      let step := if is_magnified then Double.of_Z (ToplevelWindow.overview_width_ r)
                  else exposed_width (width_ m) width_limit in
      (if is_magnified && (0 <=? magnified_x)
       then upd (fun m => m <| overview_panning_offset_ := panning_offset m r magnified_x |>) else mret ());;
      place_overlapping magnified_x width_limit height_limit
        (Double.to_int (Double.add (Double.of_Z running_width) step)) l
  end.
(** [std::min(size / sqrt(n), kOverviewWindowMaxSizeRatio * size)]. *)
Definition size_limit (size : Z) (n : nat) : Z :=
  Double.to_int (Double.min (Double.div (Double.of_Z size) (Double.sqrt (Double.of_Z (Z.of_nat n))))
                            (Double.mul kOverviewWindowMaxSizeRatio (Double.of_Z size))).

(** The old overview mode: windows side by side. *)
Fixpoint scale_unmagnified (max_width max_height : Z) (ps : list Z) : M S unit :=
  match ps with
  | [] => mret ()
  | p :: l =>
      m ← get id;
      (if bool_decide (magnified_toplevel_ m = Some p) then mret ()
       else Toplevel.UpdateOverviewScaling p max_width max_height);;
      scale_unmagnified max_width max_height l
  end.
Fixpoint sum_widths (total : Z) (ps : list Z) : M S Z :=
  match ps with
  | [] => mret total
  | p :: l => r ← top p; sum_widths (i32 (total + ToplevelWindow.overview_width_ r)) l
  end.
Fixpoint place_side_by_side (padding running_width : double) (ps : list Z) : M S unit :=
  match ps with
  | [] => mret ()
  | p :: l =>
      m ← get id;
      r ← top p;
      upd_top p (ToplevelWindow.UpdateOverviewPosition (Double.round_to_int (Double.add running_width padding))
                   (i32 (height_ m - ToplevelWindow.overview_height_ r)));;
      place_side_by_side padding
        (Double.add running_width (Double.add padding (Double.of_Z (ToplevelWindow.overview_width_ r)))) l
  end.
(** The width of the browser-creating window, if there is one. *)
Definition create_browser_width : M S (option Z) :=
  c ← get create_browser_window_;
  match c with Some xid => w ← window xid; mret (Some (Window.client_width_ w)) | None => mret None end.
Definition CalculatePositionsForOverviewMode (magnified_x : Z) : M S unit :=
  m ← get id;
  let ps := toplevels_ m in
  let n := Z.of_nat (length ps) in
  if decide (ps = []) then mret ()
  else if FLAGS_lm_new_overview_mode then
    place_overlapping magnified_x (size_limit (width_ m) (length ps)) (size_limit (height_ m) (length ps)) kWindowPadding ps
  else
    (match magnified_toplevel_ m with
     | Some p => Toplevel.UpdateOverviewScaling p (width_ m) (overview_height_ m)
     | None => mret ()
     end);;
    create ← create_browser_width;
    let total := i32 (width_ m - usize (n + 1) * kWindowPadding) in
    let total := match create with Some w => i32 (total - (w + kWindowPadding)) | None => total end in
    total ← (match magnified_toplevel_ m with
             | Some p => r ← top p; mret (i32 (total - ToplevelWindow.overview_width_ r))
             | None => mret total
             end);
    let num := match magnified_toplevel_ m with Some _ => n - 1 | None => n end in
    let max_unmag_width := if num =? 0 then 0 else Z.quot total num in
    let max_unmag_height := Double.to_int (Double.mul kMaxWindowHeightRatio (Double.of_Z (overview_height_ m))) in
    scale_unmagnified max_unmag_width max_unmag_height ps;;
    used ← sum_widths 0 ps;
    let used := match create with Some w => i32 (used + w) | None => used end in
    let total_padding := Z.max 0 (i32 (width_ m - used)) in
    let padding := Double.div (Double.of_Z total_padding)
                     (Double.of_Z (match create with Some _ => n + 2 | None => n + 1 end)) in
    place_side_by_side padding Toplevel.zero ps.

(** From the rightmost window to the left, each stacked under the one before. *)
Fixpoint configure_overview (incremental : bool) (toplevel_to_right : option Z) (ps : list Z) : M S unit :=
  match ps with
  | [] => mret ()
  | p :: l =>
      m ← get id;
      ConfigureForOverviewMode p (bool_decide (magnified_toplevel_ m = Some p))
        (bool_decide (is_Some (magnified_toplevel_ m))) toplevel_to_right incremental;;
      configure_overview incremental (Some p) l
  end.
Definition ConfigureWindowsForOverviewMode (incremental : bool) : M S unit :=
  m ← get id;
  configure_overview incremental None (reverse (toplevels_ m));;
  match create_browser_window_ m with
  | Some c =>
      if negb incremental then
        m ← get id;
        w ← window c;
        on_window c (Window.MoveComposited (i32 (x_ m + width_ m - Window.client_width_ w - kWindowPadding))
          (i32 (y_ m + height_ m - Window.client_height_ w - kCreateBrowserWindowVerticalPadding)) 0);;
        on_window c Window.MoveClientToComposited;;
        mret ()
      else mret ()
  | None => mret ()
  end.
Definition LayoutToplevelWindowsForOverviewMode (magnified_x : Z) : M S unit :=
  CalculatePositionsForOverviewMode magnified_x;;
  ConfigureWindowsForOverviewMode false.
(** With [0.5 * width_] as the magnified position. *)
Definition layout_overview_at_middle : M S unit :=
  width ← get width_;
  LayoutToplevelWindowsForOverviewMode (Double.to_int (halved width)).

(** *** Modes *)

Definition SetActiveToplevelWindow (p : Z) (state_for_new_win state_for_old_win : ToplevelWindow.State) : M S unit :=
  m ← get id;
  if bool_decide (mode_ m ≠ MODE_ACTIVE) || bool_decide (active_toplevel_ m = Some p) then mret ()
  else
    (match active_toplevel_ m with Some old => Toplevel.set_state old state_for_old_win | None => mret () end);;
    Toplevel.set_state p state_for_new_win;;
    upd (fun m => m <| active_toplevel_ := Some p |>);;
    LayoutToplevelWindowsForActiveMode true.

Definition enter_active_mode : M S unit :=
  m ← get id;
  (match create_browser_window_ m with
   | Some c => on_window c Window.HideComposited;; on_window c Window.MoveClientOffscreen;; mret ()
   | None => mret ()
   end);;
  upd (fun m =>
    if (FLAGS_lm_new_overview_mode || bool_decide (active_toplevel_ m = None)) && bool_decide (is_Some (magnified_toplevel_ m))
    then m <| active_toplevel_ := magnified_toplevel_ m |> else m);;
  upd (fun m => if bool_decide (active_toplevel_ m = None) then m <| active_toplevel_ := head (toplevels_ m) |> else m);;
  (if negb FLAGS_lm_new_overview_mode then SetMagnifiedToplevelWindow None else mret ());;
  LayoutToplevelWindowsForActiveMode true.
Definition enter_overview_mode : M S unit :=
  m ← get id;
  (match create_browser_window_ m with Some c => on_window c Window.ShowComposited | None => mret () end);;
  SetMagnifiedToplevelWindow (if FLAGS_lm_new_overview_mode then active_toplevel_ m else None);;
  (match active_toplevel_ m with
   | Some p =>
       focused ← Toplevel.IsWindowOrTransientFocused p;
       if focused : bool then SetActiveWindowProperty 0;; wm_TakeFocus else mret ()
   | None => mret ()
   end);;
  layout_overview_at_middle.
Definition SetMode (mode : Mode) : M S unit :=
  m ← get id;
  RemoveKeyBindingsForMode (mode_ m);;
  upd (fun m => m <| mode_ := mode |>);;
  (match mode with MODE_ACTIVE => enter_active_mode | MODE_OVERVIEW => enter_overview_mode end);;
  AddKeyBindingsForMode mode;;
  ps ← get toplevels_;
  for_each (fun p => SendModeMessage (Some p)) ps.

Definition SwitchToActiveMode (activate_magnified_win : bool) : M S unit :=
  m ← get id;
  if decide (mode_ m = MODE_ACTIVE) then mret ()
  else
    (if activate_magnified_win && bool_decide (is_Some (magnified_toplevel_ m))
     then upd (fun m => m <| active_toplevel_ := magnified_toplevel_ m |>) else mret ());;
    SetMode MODE_ACTIVE.

(** The toplevel at a position, or from the end. *)
Definition toplevel_at (index : Z) (m : t) : option Z :=
  let n := zlen (toplevels_ m) in
  let index := if index <? 0 then n + index else index in
  if (index <? 0) || (n <=? index) then None else toplevels_ m !! Z.to_nat index.
Definition ActivateToplevelWindowByIndex (index : Z) : M S unit :=
  m ← get id;
  if decide (mode_ m ≠ MODE_ACTIVE) then mret ()
  else match toplevel_at index m with
       | Some p =>
           if decide (active_toplevel_ m = Some p) then mret ()
           else SetActiveToplevelWindow p ToplevelWindow.STATE_ACTIVE_MODE_IN_FADE ToplevelWindow.STATE_ACTIVE_MODE_OUT_FADE
       | None => mret ()
       end.
Definition send_magnified_summary : M S unit :=
  if negb FLAGS_lm_new_overview_mode then p ← get magnified_toplevel_; SendTabSummaryMessage p true else mret ().
Definition MagnifyToplevelWindowByIndex (index : Z) : M S unit :=
  m ← get id;
  if decide (mode_ m ≠ MODE_OVERVIEW) then mret ()
  else match toplevel_at index m with
       | Some p =>
           if decide (magnified_toplevel_ m = Some p) then mret ()
           else SetMagnifiedToplevelWindow (Some p);; layout_overview_at_middle;; send_magnified_summary
       | None => mret ()
       end.

(** [(n + index + step) % n], in [size_t]. *)
Definition next_index (n index : Z) (forward : bool) : Z := usize (n + index + (if forward then 1 else -1)) `mod` n.
Definition toplevel_or_die (index : Z) : M S Z :=
  ps ← get toplevels_;
  match ps !! Z.to_nat index with Some p => mret p | None => fail Undefined end.
Definition CycleActiveToplevelWindow (forward : bool) : M S unit :=
  m ← get id;
  let n := zlen (toplevels_ m) in
  let activate p :=
    SetActiveToplevelWindow p
      (if forward then ToplevelWindow.STATE_ACTIVE_MODE_IN_FROM_RIGHT else ToplevelWindow.STATE_ACTIVE_MODE_IN_FROM_LEFT)
      (if forward then ToplevelWindow.STATE_ACTIVE_MODE_OUT_TO_LEFT else ToplevelWindow.STATE_ACTIVE_MODE_OUT_TO_RIGHT) in
  if bool_decide (mode_ m ≠ MODE_ACTIVE) || (n =? 0) then mret ()
  else match active_toplevel_ m with
       | None => p ← toplevel_or_die (if forward then 0 else n - 1); activate p
       | Some old =>
           if n =? 1 then mret ()
           else p ← toplevel_or_die (next_index n (GetIndexForToplevelWindow old m) forward); activate p
       end.
Definition CycleMagnifiedToplevelWindow (forward : bool) : M S unit :=
  m ← get id;
  let n := zlen (toplevels_ m) in
  if bool_decide (mode_ m ≠ MODE_OVERVIEW) || (n =? 0) ||
     (bool_decide (is_Some (magnified_toplevel_ m)) && (n =? 1)) then mret ()
  else
    (if bool_decide (magnified_toplevel_ m = None) && bool_decide (active_toplevel_ m = None) then
       p ← toplevel_or_die 0; SetMagnifiedToplevelWindow (Some p)
     else
       (if bool_decide (magnified_toplevel_ m = None)
        then upd (fun m => m <| magnified_toplevel_ := active_toplevel_ m |>) else mret ());;
       m ← get id;
       match magnified_toplevel_ m with
       | None => fail CheckFailed
       | Some old => p ← toplevel_or_die (next_index n (GetIndexForToplevelWindow old m) forward);
                     SetMagnifiedToplevelWindow (Some p)
       end);;
    layout_overview_at_middle;;
    send_magnified_summary.

Definition SendDeleteRequestToActiveWindow : M S unit :=
  m ← get id;
  match mode_ m, active_toplevel_ m with
  | MODE_ACTIVE, Some p =>
      r ← top p;
      timestamp ← GetCurrentTimeFromServer;
      on_window (ToplevelWindow.win_ r) (Window.SendDeleteRequest timestamp);;
      mret ()
  | _, _ => mret ()
  end.
Definition PanOverviewMode (offset : Z) : M S unit :=
  upd (fun m => m <| overview_panning_offset_ := i32 (overview_panning_offset_ m + offset) |>);;
  mode ← get mode_;
  if decide (mode = MODE_OVERVIEW) then ConfigureWindowsForOverviewMode false else mret ().
Definition UpdateOverviewPanningForMotion : M S unit :=
  m ← get id;
  let px := MotionEventCoalescer.x_ (overview_background_event_coalescer_ m) in
  upd (fun m => m <| overview_drag_last_x_ := px |>
                  <| overview_panning_offset_ := i32 (overview_panning_offset_ m - i32 (px - overview_drag_last_x_ m)) |>);;
  ConfigureWindowsForOverviewMode true.
(** [closure->Run()] of an action. *)
Definition run_closure (c : Closure) : M S unit :=
  match c with
  | SwitchToOverview => SetMode MODE_OVERVIEW
  | SwitchToActive b => SwitchToActiveMode b
  | CycleActive b => CycleActiveToplevelWindow b
  | CycleMagnified b => CycleMagnifiedToplevelWindow b
  | ActivateByIndex i => ActivateToplevelWindowByIndex i
  | MagnifyByIndex i => MagnifyToplevelWindowByIndex i
  | DeleteActive => SendDeleteRequestToActiveWindow
  | Pan offset => PanOverviewMode offset
  end.
Definition TakeFocus : M S bool :=
  m ← get id;
  match mode_ m, active_toplevel_ m with
  | MODE_ACTIVE, Some p => timestamp ← GetCurrentTimeFromServer; TakeFocusAt p timestamp;; mret true
  | _, _ => mret false
  end.

(** *** The floating tab *)

Fixpoint toplevel_at_point (px py : Z) (ps : list Z) : M S (option Z) :=
  match ps with
  | [] => mret None
  | p :: l => r ← top p; if ToplevelWindow.OverviewWindowContainsPoint px py r then mret (Some p) else toplevel_at_point px py l
  end.
Definition GetOverviewToplevelWindowAtPoint (px py : Z) : M S (option Z) :=
  ps ← get toplevels_; toplevel_at_point px py ps.
Definition inside (px py : Z) (w : Window.t) : bool :=
  (Window.client_x_ w <=? px) && (Window.client_y_ w <=? py) &&
  (px <? i32 (Window.client_x_ w + Window.client_width_ w)) && (py <? i32 (Window.client_y_ w + Window.client_height_ w)).
Definition PointIsInTabSummary (px py : Z) : M S bool :=
  summary ← get tab_summary_;
  match summary with Some xid => w ← window xid; mret (inside px py w) | None => mret false end.
Definition PointIsBetweenMagnifiedToplevelWindowAndTabSummary (px py : Z) : M S bool :=
  m ← get id;
  match magnified_toplevel_ m, tab_summary_ m with
  | Some p, Some xid =>
      if decide (p ∈ toplevels_ m) then
        w ← window xid;
        r ← top p;
        mret ((i32 (Window.client_y_ w + Window.client_height_ w) <=? py) && (py <? Toplevel.GetAbsoluteOverviewY m r))
      else mret false
  | _, _ => mret false
  end.
(** The toplevel that the tab can go into at this position. *)
Definition docking_toplevel (px py : Z) : M S (option Z) :=
  toplevel ← GetOverviewToplevelWindowAtPoint px py;
  m ← get id;
  toplevel ← (match toplevel, magnified_toplevel_ m with
              | None, Some p =>
                  in_summary ← PointIsInTabSummary px py;
                  if in_summary : bool then mret (Some p)
                  else
                    between ← PointIsBetweenMagnifiedToplevelWindowAndTabSummary px py;
                    mret (if between : bool then Some p else None)
              | _, _ => mret toplevel
              end);
  chrome ← chrome_toplevel toplevel;
  mret (if bool_decide (is_Some chrome) then toplevel else None).
Definition notify_over_toplevel (tab_xid : Z) (toplevel : option Z) (entered : bool) : M S unit :=
  match toplevel with
  | Some p =>
      r ← top p;
      w ← window (ToplevelWindow.win_ r);
      send (Window.xid_ w) WmIpc.Message.CHROME_NOTIFY_FLOATING_TAB_OVER_TOPLEVEL [tab_xid; if entered then 1 else 0]
  | None => mret ()
  end.
Definition move_tab_in_overview (tab px py : Z) : M S unit :=
  toplevel ← docking_toplevel px py;
  m ← get id;
  w ← window tab;
  (if decide (toplevel_under_floating_tab_ m = toplevel) then mret ()
   else
     notify_over_toplevel (Window.xid_ w) (toplevel_under_floating_tab_ m) false;;
     notify_over_toplevel (Window.xid_ w) toplevel true;;
     upd (fun m => m <| toplevel_under_floating_tab_ := toplevel |>);;
     SetMagnifiedToplevelWindow toplevel;;
     LayoutToplevelWindowsForOverviewMode (-1);;
     SendTabSummaryMessage toplevel true);;
  in_summary ← PointIsInTabSummary px py;
  summary ← get tab_summary_;
  match in_summary, summary with
  | true, Some xid =>
      t ← window xid;
      send (Window.xid_ t) WmIpc.Message.CHROME_NOTIFY_FLOATING_TAB_OVER_TAB_SUMMARY
        [Window.xid_ w; 1; i32 (px - Window.client_x_ t); i32 (py - Window.client_y_ t)]
  | _, _ => mret ()
  end.
(** Is the point in the part of the area where overview mode begins? *)
Definition in_overview_zone (m : t) (py : Z) : bool :=
  Double.ltb (Double.sub (Double.of_Z (i32 (y_ m + height_ m)))
                         (Double.mul kMaxWindowHeightRatio (Double.of_Z (overview_height_ m)))) (Double.of_Z py) &&
  (py <? i32 (y_ m + height_ m)).
Definition MoveFloatingTab : M S unit :=
  m ← get id;
  match floating_tab_ m with
  | None => mret ()
  | Some tab =>
      let px := MotionEventCoalescer.x_ (floating_tab_event_coalescer_ m) in
      let py := MotionEventCoalescer.y_ (floating_tab_event_coalescer_ m) in
      w ← window tab;
      if (px =? Window.composited_x_ w) && (py =? Window.composited_y_ w) then mret ()
      else
        (if negb (Window.composited_shown_ w) then on_window tab Window.ShowComposited else mret ());;
        let '(x_offset, y_offset) :=
          match Window.type_params_ w with _ :: _ :: a :: b :: _ => (a, b) | _ => (0, 0) end in
        on_window tab (Window.MoveComposited (i32 (px - x_offset)) (i32 (py - y_offset)) 0);;
        match mode_ m with
        | MODE_OVERVIEW => move_tab_in_overview tab px py
        | MODE_ACTIVE => if in_overview_zone m py then SetMode MODE_OVERVIEW else mret ()
        end
  end.

(** The two coalescers. *)
Definition tab_coalescer (s : S) : MotionEventCoalescer.t := floating_tab_event_coalescer_ (lm s).
Definition set_tab_coalescer (c : MotionEventCoalescer.t) (s : S) : S := set_lm ((lm s) <| floating_tab_event_coalescer_ := c |>) s.
Definition pan_coalescer (s : S) : MotionEventCoalescer.t := overview_background_event_coalescer_ (lm s).
Definition set_pan_coalescer (c : MotionEventCoalescer.t) (s : S) : S :=
  set_lm ((lm s) <| overview_background_event_coalescer_ := c |>) s.
Definition timeout_add (ms : Z) : M S Z := on_world (extern (g_timeout_add ms)).
Definition source_remove (id : Z) : M S unit := on_world (extern (fun w => ((), g_source_remove id w))).
Definition StoreTabPosition (px py : Z) : M S unit :=
  MotionEventCoalescer.StorePosition tab_coalescer set_tab_coalescer MoveFloatingTab px py.

(** *** The area *)

Definition resize_toplevel (gravity : Window.Gravity) (p : Z) : M S unit :=
  r ← top p;
  m ← get id;
  size ← Toplevel.size_for (ToplevelWindow.win_ r) (width_ m) (height_ m);
  on_window (ToplevelWindow.win_ r) (Window.ResizeClient size.1 size.2 gravity);;
  mret ().
Definition MoveAndResize (px py width height : Z) : M S unit :=
  m ← get id;
  if (px =? x_ m) && (py =? y_ m) && (width =? width_ m) && (height =? height_ m) then mret ()
  else
    let gravity := if Z.abs (i32 (px + width - (x_ m + width_ m))) <? Z.abs (i32 (px - x_ m))
                   then Window.GRAVITY_NORTHEAST else Window.GRAVITY_NORTHWEST in
    upd (fun m => m <| x_ := px |> <| y_ := py |> <| width_ := width |> <| height_ := height |>
                    <| overview_height_ := Double.to_int (Double.mul kOverviewHeightFraction (Double.of_Z height)) |>);;
    for_each (resize_toplevel gravity) (toplevels_ m);;
    match mode_ m with
    | MODE_ACTIVE => LayoutToplevelWindowsForActiveMode false
    | MODE_OVERVIEW => LayoutToplevelWindowsForOverviewMode (-1)
    end.

(** *** Windows come and go *)

Definition HandleWindowMapRequest (xid : Z) : M S bool :=
  upd (fun m => m <| saw_map_request_ := true |>);;
  w ← window xid;
  if negb (IsHandledWindowType (Window.type_ w)) then mret false
  else
    DoInitialSetupForWindow xid;;
    on_window xid Window.MapClient;;
    mret true.

Definition show_override_redirect (xid : Z) : M S unit :=
  w ← window xid;
  if Window.type_ w =? WmIpc.WINDOW_TYPE_CHROME_TAB_SUMMARY then
    on_window xid (StackingManager.StackWindowAtTopOfLayer stacking_manager StackingManager.LAYER_TAB_SUMMARY);;
    on_window xid (Window.SetCompositedOpacity Toplevel.zero 0);;
    on_window xid Window.ShowComposited;;
    on_window xid (Window.SetCompositedOpacity Toplevel.one Toplevel.kWindowAnimMs);;
    upd (fun m => m <| tab_summary_ := Some xid |>)
  else on_window xid Window.ShowComposited.
Definition map_tab_summary (xid : Z) : M S unit :=
  m ← get id;
  w ← window xid;
  let px := Z.quot (i32 (width_ m - Window.client_width_ w)) 2 in
  let py := i32 (y_ m + height_ m - overview_height_ m - Window.client_height_ w - kTabSummaryPadding) in
  on_window xid (Window.MoveComposited px py 0);;
  on_window xid (Window.ScaleComposited Toplevel.one Toplevel.one 0);;
  on_window xid (Window.SetCompositedOpacity Toplevel.zero 0);;
  on_window xid Window.ShowComposited;;
  on_window xid (Window.SetCompositedOpacity Toplevel.three_quarters Toplevel.kWindowAnimMs);;
  on_window xid (Window.MoveClient px py);;
  upd (fun m => m <| tab_summary_ := Some xid |>).
Definition map_floating_tab (xid : Z) : M S unit :=
  on_window xid (StackingManager.StackWindowAtTopOfLayer stacking_manager StackingManager.LAYER_FLOATING_TAB);;
  on_window xid (Window.ScaleComposited Toplevel.one Toplevel.one 0);;
  on_window xid (Window.SetCompositedOpacity Toplevel.three_quarters 0);;
  m ← get id;
  (match floating_tab_ m with Some old => on_window old Window.HideComposited | None => mret () end);;
  upd (fun m => m <| floating_tab_ := Some xid |>);;
  (if MotionEventCoalescer.IsRunning (floating_tab_event_coalescer_ m) then mret ()
   else MotionEventCoalescer.Start tab_coalescer set_tab_coalescer timeout_add);;
  w ← window xid;
  match Window.type_params_ w with px :: py :: _ => StoreTabPosition px py | _ => mret () end.
Definition map_create_browser_window (xid : Z) : M S unit :=
  m ← get id;
  (match create_browser_window_ m with Some old => on_window old Window.HideComposited | None => mret () end);;
  upd (fun m => m <| create_browser_window_ := Some xid |>);;
  on_window xid (StackingManager.StackWindowAtTopOfLayer stacking_manager StackingManager.LAYER_TOPLEVEL_WINDOW);;
  match mode_ m with
  | MODE_OVERVIEW => on_window xid Window.ShowComposited;; LayoutToplevelWindowsForOverviewMode (-1)
  | MODE_ACTIVE => mret ()
  end.
Definition map_transient (xid owner : Z) : M S unit :=
  upd (fun m => m <| transient_to_toplevel_ := <[xid := owner]> (transient_to_toplevel_ m) |>);;
  m ← get id;
  Toplevel.AddTransientWindow stacking_manager self owner xid (bool_decide (mode_ m = MODE_OVERVIEW));;
  m ← get id;
  match mode_ m, active_toplevel_ m with
  | MODE_ACTIVE, Some p =>
      focused ← Toplevel.IsWindowOrTransientFocused p;
      if focused : bool then timestamp ← GetCurrentTimeFromServer; TakeFocusAt p timestamp else mret ()
  | _, _ => mret ()
  end.
(** The list with an element put in at a position. *)
Definition insert_at (i : nat) (p : Z) (l : list Z) : list Z := take i l ++ p :: drop i l.
Definition map_toplevel (xid : Z) : M S unit :=
  p ← gets new_toplevel_address;
  Toplevel.construct stacking_manager self p xid;;
  r ← top p;
  upd (fun m => m <| input_to_toplevel_ := <[ToplevelWindow.input_xid_ r := p]> (input_to_toplevel_ m) |>);;
  m ← get id;
  match mode_ m with
  | MODE_ACTIVE =>
      (match active_toplevel_ m with
       | Some old =>
           let old_index := GetIndexForToplevelWindow old m in
           CHECK (0 <=? old_index);;
           upd (fun m => m <| toplevels_ := insert_at (Z.to_nat (old_index + 1)) p (toplevels_ m) |>)
       | None => upd (fun m => m <| toplevels_ := toplevels_ m ++ [p] |>)
       end);;
      SetActiveToplevelWindow p ToplevelWindow.STATE_ACTIVE_MODE_IN_FROM_RIGHT ToplevelWindow.STATE_ACTIVE_MODE_OUT_TO_LEFT
  | MODE_OVERVIEW =>
      upd (fun m => m <| toplevels_ := toplevels_ m ++ [p] |>);;
      LayoutToplevelWindowsForOverviewMode (-1)
  end.
Definition map_regular_window (xid : Z) : M S unit :=
  w ← window xid;
  let transient_for := Window.transient_for_xid_ w in
  owner ← (if negb (transient_for =? 0) then GetToplevelWindowByXid transient_for else mret None);
  match owner with Some p => map_transient xid p | None => map_toplevel xid end.
Definition HandleWindowMap (xid : Z) : M S unit :=
  w ← window xid;
  let type := Window.type_ w in
  if Window.override_redirect_ w then show_override_redirect xid
  else if negb (IsHandledWindowType type) then mret ()
  else
    m ← get id;
    (if negb (saw_map_request_ m) then DoInitialSetupForWindow xid else mret ());;
    if type =? WmIpc.WINDOW_TYPE_CHROME_TAB_SUMMARY then map_tab_summary xid
    else if type =? WmIpc.WINDOW_TYPE_CHROME_FLOATING_TAB then map_floating_tab xid
    else if type =? WmIpc.WINDOW_TYPE_CREATE_BROWSER_WINDOW then map_create_browser_window xid
    else map_regular_window xid.

(** A pointer to a window that is going. *)
Definition forget_window (xid : Z) : M S unit :=
  m ← get id;
  (if decide (floating_tab_ m = Some xid) then
     (if MotionEventCoalescer.IsRunning (floating_tab_event_coalescer_ m)
      then MotionEventCoalescer.Stop tab_coalescer set_tab_coalescer MoveFloatingTab source_remove else mret ());;
     upd (fun m => m <| floating_tab_ := None |>)
   else mret ());;
  upd (fun m => if decide (tab_summary_ m = Some xid) then m <| tab_summary_ := None |> else m);;
  m ← get id;
  if decide (create_browser_window_ m = Some xid) then
    upd (fun m => m <| create_browser_window_ := None |>);;
    if decide (mode_ m = MODE_OVERVIEW) then LayoutToplevelWindowsForOverviewMode (-1) else mret ()
  else mret ().
Definition unmap_transient (xid owner : Z) : M S unit :=
  w ← window xid;
  let transient_had_focus := Window.focused_ w in
  Toplevel.RemoveTransientWindow self owner xid;;
  upd (fun m => m <| transient_to_toplevel_ := delete xid (transient_to_toplevel_ m) |>);;
  if transient_had_focus then timestamp ← GetCurrentTimeFromServer; TakeFocusAt owner timestamp else mret ().
(** After the active window at this position is gone. *)
Definition choose_active (xid index : Z) : M S unit :=
  m ← get id;
  match toplevels_ m with
  | [] =>
      w ← window xid;
      if Window.focused_ w then SetActiveWindowProperty 0;; wm_TakeFocus else mret ()
  | ps =>
      p ← toplevel_or_die (usize (index + zlen ps - 1) `mod` zlen ps);
      SetActiveToplevelWindow p ToplevelWindow.STATE_ACTIVE_MODE_IN_FROM_LEFT ToplevelWindow.STATE_ACTIVE_MODE_OUT_TO_RIGHT
  end.
Definition unmap_toplevel (xid p : Z) : M S unit :=
  m ← get id;
  (if decide (magnified_toplevel_ m = Some p) then SetMagnifiedToplevelWindow None else mret ());;
  upd (fun m => if decide (active_toplevel_ m = Some p) then m <| active_toplevel_ := None |> else m);;
  upd (fun m => if decide (toplevel_under_floating_tab_ m = Some p) then m <| toplevel_under_floating_tab_ := None |> else m);;
  m ← get id;
  let index := GetIndexForToplevelWindow p m in
  r ← top p;
  CHECK (bool_decide (is_Some (input_to_toplevel_ m !! ToplevelWindow.input_xid_ r)));;
  upd (fun m => m <| input_to_toplevel_ := delete (ToplevelWindow.input_xid_ r) (input_to_toplevel_ m) |>
                  <| toplevels_ := delete (Z.to_nat index) (toplevels_ m) |>);;
  Toplevel.destroy self p;;
  m ← get id;
  match mode_ m with
  | MODE_OVERVIEW => LayoutToplevelWindowsForOverviewMode (-1)
  | MODE_ACTIVE => match active_toplevel_ m with None => choose_active xid index | Some _ => mret () end
  end.
Definition HandleWindowUnmap (xid : Z) : M S unit :=
  window xid;;
  forget_window xid;;
  owner ← get (GetToplevelWindowOwningTransientWindow xid);
  (match owner with Some p => unmap_transient xid p | None => mret () end);;
  toplevel ← GetToplevelWindowByWindow xid;
  match toplevel with Some p => unmap_toplevel xid p | None => mret () end.

Definition HandleWindowConfigureRequest (xid req_x req_y req_width req_height : Z) : M S unit :=
  owner ← get (GetToplevelWindowOwningTransientWindow xid);
  match owner with
  | Some p => Toplevel.HandleTransientWindowConfigureRequest p xid req_x req_y req_width req_height
  | None =>
      toplevel ← GetToplevelWindowByWindow xid;
      match toplevel with
      | Some p =>
          r ← top p;
          w ← window (ToplevelWindow.win_ r);
          if negb (req_width =? Window.client_width_ w) || negb (req_height =? Window.client_height_ w) then
            on_window (ToplevelWindow.win_ r) (Window.ResizeClient req_width req_height Window.GRAVITY_NORTHWEST);; mret ()
          else mret ()
      | None => mret ()
      end
  end.

(** *** The pointer and the focus *)

Definition click_toplevel (p x_root : Z) : M S unit :=
  m ← get id;
  if decide (mode_ m ≠ MODE_OVERVIEW) then mret ()
  else if FLAGS_lm_new_overview_mode && negb (bool_decide (magnified_toplevel_ m = Some p)) then
    SetMagnifiedToplevelWindow (Some p);;
    LayoutToplevelWindowsForOverviewMode (Z.max (i32 (x_root - x_ m)) 0)
  else
    upd (fun m => m <| active_toplevel_ := Some p |>);;
    SetMode MODE_ACTIVE.
Definition HandleButtonPress (xid px py x_root y_root button timestamp : Z) : M S unit :=
  m ← get id;
  match GetToplevelWindowByInputXid xid m with
  | Some p => if button =? 1 then click_toplevel p x_root else mret ()
  | None =>
      if (xid =? wm_background_xid) && (button =? 1) then
        upd (fun m => m <| overview_drag_last_x_ := px |>);;
        MotionEventCoalescer.Start pan_coalescer set_pan_coalescer timeout_add
      else
        w ← gets (GetWindow xid);
        match w with
        | None => mret ()
        | Some _ =>
            toplevel ← toplevel_for xid;
            match toplevel with
            | Some p => Toplevel.HandleButtonPress stacking_manager p xid timestamp
            | None => mret ()
            end
        end
  end.
Definition HandleButtonRelease (xid px py x_root y_root button timestamp : Z) : M S unit :=
  if negb (xid =? wm_background_xid) || negb (button =? 1) then mret ()
  else
    MotionEventCoalescer.Stop pan_coalescer set_pan_coalescer UpdateOverviewPanningForMotion source_remove;;
    ConfigureWindowsForOverviewMode false.
Definition HandlePointerEnter (xid px py x_root y_root timestamp : Z) : M S unit :=
  m ← get id;
  match GetToplevelWindowByInputXid xid m with
  | None => mret ()
  | Some p =>
      if decide (mode_ m ≠ MODE_OVERVIEW) then mret ()
      else if negb FLAGS_lm_new_overview_mode && negb (bool_decide (magnified_toplevel_ m = Some p)) then
        SetMagnifiedToplevelWindow (Some p);;
        LayoutToplevelWindowsForOverviewMode (-1);;
        SendTabSummaryMessage (Some p) true
      else mret ()
  end.
Definition HandlePointerMotion (xid px py x_root y_root timestamp : Z) : M S unit :=
  if xid =? wm_background_xid
  then MotionEventCoalescer.StorePosition pan_coalescer set_pan_coalescer UpdateOverviewPanningForMotion px py
  else mret ().
Definition HandleFocusChange (xid : Z) (focus_in : bool) : M S unit :=
  w ← gets (GetWindow xid);
  match w with
  | None => mret ()
  | Some _ =>
      toplevel ← toplevel_for xid;
      match toplevel with
      | None => mret ()
      | Some p =>
          Toplevel.HandleFocusChange p xid focus_in;;
          if focus_in then w ← window xid; SetActiveWindowProperty (Window.xid_ w) else mret ()
      end
  end.

(** *** Messages *)

Definition param (i : Z) (msg : WmIpc.Message.t) : M S Z :=
  match WmIpc.Message.param i msg with Val z => mret z | Fault f => fail f end.
Definition HandleChromeMessage (msg : WmIpc.Message.t) : M S unit :=
  if WmIpc.Message.type_ msg =? WmIpc.Message.WM_MOVE_FLOATING_TAB then
    xid ← param 0 msg;
    px ← param 1 msg;
    py ← param 2 msg;
    m ← get id;
    match floating_tab_ m with
    | None => mret ()
    | Some tab => w ← window tab; if u32 xid =? Window.xid_ w then StoreTabPosition (i32 px) (i32 py) else mret ()
    end
  else if WmIpc.Message.type_ msg =? WmIpc.Message.WM_SWITCH_TO_OVERVIEW_MODE then
    SetMode MODE_OVERVIEW;;
    xid ← param 0 msg;
    w ← gets (GetWindow (u32 xid));
    match w with
    | None => mret ()
    | Some _ =>
        toplevel ← GetToplevelWindowByWindow (u32 xid);
        match toplevel with
        | None => mret ()
        | Some p =>
            SetMagnifiedToplevelWindow (Some p);;
            if negb FLAGS_lm_new_overview_mode then SendTabSummaryMessage (Some p) true else mret ()
        end
    end
  else mret ().
Definition HandleClientMessage (xid message_type : Z) (data : list Z) : M S unit :=
  w ← gets (GetWindow xid);
  match w with
  | None => mret ()
  | Some _ =>
      if message_type =? wm_atom ATOM_NET_WM_STATE then on_window xid (Window.HandleWmStateMessage data);; mret ()
      else if message_type =? wm_atom ATOM_NET_ACTIVE_WINDOW then
        owner ← get (GetToplevelWindowOwningTransientWindow xid);
        toplevel ← (match owner with
                    | Some p => Toplevel.SetPreferredTransientWindowToFocus p (Some xid);; mret (Some p)
                    | None => GetToplevelWindowByWindow xid
                    end);
        match toplevel with
        | None => mret ()
        | Some p =>
            m ← get id;
            match mode_ m with
            | MODE_ACTIVE =>
                if decide (active_toplevel_ m = Some p) then TakeFocusAt p (u32 (default 0 (data !! 1%nat)))
                else SetActiveToplevelWindow p ToplevelWindow.STATE_ACTIVE_MODE_IN_FADE ToplevelWindow.STATE_ACTIVE_MODE_OUT_FADE
            | MODE_OVERVIEW =>
                upd (fun m => m <| active_toplevel_ := Some p |>);;
                SetMode MODE_ACTIVE
            end
        end
      else mret ()
  end.

(** *** Construction and destruction *)

Definition register (f : EventConsumerRegistrar.t * EventConsumers.t → EventConsumerRegistrar.t * EventConsumers.t) : M S unit :=
  modify (fun s =>
    let '(r, c) := f (event_consumer_registrar_ (lm s), get_consumers (lm_world s)) in
    set_lm_world (set_consumers c (lm_world s)) (set_lm ((lm s) <| event_consumer_registrar_ := r |>) s)).
Definition add_action (a : bytes * Closure) : M S unit :=
  on_kb (KeyBindings.AddAction a.1 (Some (closure_id a.2)) None None);; mret ().
(** The static texture outlives the layout managers. *)
Definition construct (px py width height : Z) : M S unit :=
  tab ← (match MotionEventCoalescer.construct true kFloatingTabUpdateMs with Val c => mret c | Fault f => fail f end);
  pan ← (match MotionEventCoalescer.construct true kOverviewDragUpdateMs with Val c => mret c | Fault f => fail f end);
  upd (fun m => mk MODE_ACTIVE px py (-1) (-1) (-1) [] ∅ ∅ ∅ None None None None None None 0 tab pan (-1) Metrics_Reset
                  false (static_gradient_texture_ m) (EventConsumerRegistrar.new self));;
  register (EventConsumerRegistrar.RegisterForChromeMessages WmIpc.Message.WM_MOVE_FLOATING_TAB);;
  register (EventConsumerRegistrar.RegisterForChromeMessages WmIpc.Message.WM_SWITCH_TO_OVERVIEW_MODE);;
  MoveAndResize px py width height;;
  (if FLAGS_lm_new_overview_mode then
     x (AddButtonGrabOnWindow wm_background_xid 1
          (Z.lor (Z.lor Window.ButtonPressMask Panel.ButtonReleaseMask) Panel.PointerMotionMask) false);;
     register (EventConsumerRegistrar.RegisterForWindowEvents wm_background_xid)
   else mret ());;
  for_each add_action actions;;
  SetMode MODE_ACTIVE.

(** An action has no more bindings than there are. *)
Definition remove_action (name : bytes) : M S unit :=
  k ← gets key_bindings;
  on_kb (KeyBindings.RemoveAction (Datatypes.S (size (KeyBindings.bindings_ k))) name);;
  mret ().
Definition destroy : M S unit :=
  (if FLAGS_lm_new_overview_mode then x (RemoveButtonGrabOnWindow wm_background_xid 1);; mret () else mret ());;
  for_each remove_action removed_actions;;
  m ← get id;
  for_each (Toplevel.destroy self) (toplevels_ m);;
  upd (fun m => m <| toplevels_ := [] |> <| magnified_toplevel_ := None |> <| active_toplevel_ := None |>
                  <| floating_tab_ := None |> <| toplevel_under_floating_tab_ := None |> <| tab_summary_ := None |>);;
  register (fun s => (s.1, EventConsumerRegistrar.destroy s));;
  MotionEventCoalescer.destroy pan_coalescer set_pan_coalescer UpdateOverviewPanningForMotion source_remove;;
  MotionEventCoalescer.destroy tab_coalescer set_tab_coalescer MoveFloatingTab source_remove.
End layout.
End Layout.
