(* ===== verification/LayoutFrame.v ===== *)
(** * Toplevel windows do not fail (Toplevel.v).

    [rests] relates the states before and after an operation that leaves the layout
    manager's books, its mode and its key bindings alone; [still s0] holds of the
    states that come from [s0] that way.  Every operation of a toplevel window, save
    for the ones that add and remove transients and the constructor, keeps
    [still s0] without faulting, if [s0] has the windows that its toplevels name
    ([body]). *)

From S2P Require Import Prelude Hoare WmUtil KeyBindings XConnection WmIpc Double Window WmEvents Panel WmFrame PanelSafe Toplevel.
Import LayoutManager LayoutRef.

(** The parts of the state are independent. *)
Class LayoutPlace (S W : Type) `{LayoutStore S W} := {
  lp_lm_lm m s : lm (set_lm m s) = m;
  lp_win_lm x m s : GetWindow x (set_lm m s) = GetWindow x s;
  lp_kb_lm m s : key_bindings (set_lm m s) = key_bindings s;
  lp_world_lm m s : lm_world (set_lm m s) = lm_world s;
  lp_lm_win x w s : lm (set_window x w s) = lm s;
  lp_win_win x w y s : GetWindow y (set_window x w s) = if decide (y = x) then Some w else GetWindow y s;
  lp_kb_win x w s : key_bindings (set_window x w s) = key_bindings s;
  lp_world_win x w s : lm_world (set_window x w s) = lm_world s;
  lp_lm_kb k s : lm (set_key_bindings k s) = lm s;
  lp_win_kb x k s : GetWindow x (set_key_bindings k s) = GetWindow x s;
  lp_kb_kb k s : key_bindings (set_key_bindings k s) = k;
  lp_world_kb k s : lm_world (set_key_bindings k s) = lm_world s;
  lp_lm_world w s : lm (set_lm_world w s) = lm s;
  lp_win_world x w s : GetWindow x (set_lm_world w s) = GetWindow x s;
  lp_kb_world w s : key_bindings (set_lm_world w s) = key_bindings s;
  lp_world_world w s : lm_world (set_lm_world w s) = w
}.
Class LayoutHostLaws (W : Type) `{WmFrame W} `{LayoutHost W} := {
  lh_clone a w : wm_ok w → wm_moves wm_ok wm_used w (clone_actor a w).2
}.
Ltac place :=
  repeat progress rewrite ?lp_lm_lm, ?lp_win_lm, ?lp_kb_lm, ?lp_world_lm, ?lp_lm_win, ?lp_kb_win, ?lp_world_win,
    ?lp_lm_kb, ?lp_win_kb, ?lp_kb_kb, ?lp_world_kb, ?lp_lm_world, ?lp_win_world, ?lp_kb_world, ?lp_world_world.

(** ** Windows keep their XIDs *)

Section windows.
Context {W : Type} `{WmFrame W} `{Build}.
Abbreviation renaming := (framed win_ok (win_step same_xid)).

Lemma steady_renaming {A} (m : M (Window.t * W) A) : steady m → renaming m.
Proof. intros Hm. eapply framed_weaken; [exact Hm|]. intros s s' [((Hx & _) & _) ?]. by split. Qed.
Lemma renaming_MoveComposited px py ms : renaming (Window.MoveComposited px py ms).
Proof.
  intros s Hs. eapply wp_mono; [by apply MoveComposited_wp|]. intros _ s' [? [((? & _) & _) ?]]. by split; [|split].
Qed.
#[local] Hint Extern 1 (framed _ _ (Window.on_w _)) => apply steady_on_w : framed.
#[local] Hint Extern 1 (framed _ _ (Window.upd _)) => by apply steady_upd; intros [] : framed.
Lemma steady_HideComposited : steady Window.HideComposited.
Proof. unfold Window.HideComposited. frame. Qed.
Lemma steady_MoveClientOffscreen : steady Window.MoveClientOffscreen.
Proof. unfold Window.MoveClientOffscreen. frame. Qed.
Lemma steady_SendDeleteRequest t : steady (Window.SendDeleteRequest t).
Proof. unfold Window.SendDeleteRequest, Window.send_protocol. frame. Qed.
Lemma steady_MapClient : steady Window.MapClient.
Proof. unfold Window.MapClient. frame. Qed.
Lemma steady_GetBottomActor : steady Window.GetBottomActor.
Proof. unfold Window.GetBottomActor. frame. Qed.
Lemma steady_UpdateWmStateProperty : steady Window.UpdateWmStateProperty.
Proof. unfold Window.UpdateWmStateProperty, Window.set_or_delete. frame. Qed.
#[local] Hint Resolve steady_UpdateWmStateProperty : framed.
Lemma steady_HandleWmStateMessage data : steady (Window.HandleWmStateMessage data).
Proof. unfold Window.HandleWmStateMessage. frame. Qed.
Lemma steady_ChangeWmState states : steady (Window.ChangeWmState states).
Proof.
  unfold Window.ChangeWmState. apply framed_bind; [apply _| |frame]. apply framed_for_each; [apply _|]. intros it.
  apply steady_upd. intros []. unfold Window.change_wm_state. repeat case_match; done.
Qed.
End windows.
Abbreviation renaming := (framed win_ok (win_step same_xid)).
#[export] Hint Resolve steady_HideComposited steady_MoveClientOffscreen steady_SendDeleteRequest steady_MapClient
  steady_GetBottomActor steady_HandleWmStateMessage steady_ChangeWmState renaming_MoveComposited renaming_ResizeClient : framed.
#[export] Hint Extern 5 (framed win_ok (win_step same_xid) _) => apply steady_renaming : framed.

(** ** The books of the layout manager *)

(** What is fixed of a toplevel window. *)
Record Shape := { sh_win : Z; sh_input : Z; sh_transients : gset Z; sh_lit : bool }.
Definition shape (r : ToplevelWindow.t) : Shape := {|
  sh_win := ToplevelWindow.win_ r;
  sh_input := ToplevelWindow.input_xid_ r;
  sh_transients := dom (ToplevelWindow.transients_ r);
  sh_lit := bool_decide (is_Some (ToplevelWindow.gradient_actor_ r)) |}.
Definition tops (m : LayoutManager.t) : gmap Z Shape := shape <$> toplevel_heap_ m.
Definition bones (m : LayoutManager.t) : list Z * gmap Z Shape * gmap Z Z * gmap Z Z :=
  (toplevels_ m, tops m, input_to_toplevel_ m, transient_to_toplevel_ m).
Definition dropped (o o' : option Z) : Prop := ∀ x, o' = Some x → o = Some x.
(** The windows that it has pointers to besides. *)
Definition fewer (m m' : LayoutManager.t) : Prop :=
  dropped (floating_tab_ m) (floating_tab_ m') ∧ dropped (tab_summary_ m) (tab_summary_ m') ∧
  dropped (create_browser_window_ m) (create_browser_window_ m').
Definition same_lm (m m' : LayoutManager.t) : Prop :=
  bones m' = bones m ∧ fewer m m' ∧ (is_Some (static_gradient_texture_ m) → is_Some (static_gradient_texture_ m')).
#[global] Instance same_lm_preorder : PreOrder same_lm.
Proof.
  split; [intros m; unfold same_lm, fewer, dropped; auto|]. intros m1 m2 m3 (E1 & (F1 & F2 & F3) & E2) (E3 & (F4 & F5 & F6) & E4).
  split; [congruence|]. split; [|by intros Hs; apply E4, E2].
  unfold fewer, dropped in *. split_and!; intros x Hx; auto.
Qed.
Lemma tops_lookup m p r : toplevel_heap_ m !! p = Some r → tops m !! p = Some (shape r).
Proof. intros Hp. unfold tops. by rewrite lookup_fmap, Hp. Qed.
Lemma tops_lookup_inv m p sh : tops m !! p = Some sh → ∃ r, toplevel_heap_ m !! p = Some r ∧ shape r = sh.
Proof. unfold tops. rewrite lookup_fmap. intros (r & Hr & ->)%fmap_Some. eauto. Qed.
Lemma tops_same m m' : bones m' = bones m → tops m' = tops m.
Proof. unfold bones. congruence. Qed.
Lemma toplevels_same m m' : bones m' = bones m → toplevels_ m' = toplevels_ m.
Proof. unfold bones. congruence. Qed.

(** The stack has the transients, and one of them has the focus. *)
Record stacked (r : ToplevelWindow.t) : Prop := {
  st_wf : well_formed (ToplevelWindow.stacked_transients_ r);
  st_items tr : tr ∈ Stacker.items (ToplevelWindow.stacked_transients_ r) ↔ tr ∈ dom (ToplevelWindow.transients_ r);
  st_focus f : ToplevelWindow.transient_to_focus_ r = Some f → f ∈ dom (ToplevelWindow.transients_ r)
}.
Definition asynchronous (c : MotionEventCoalescer.t) : Prop := MotionEventCoalescer.synchronous_ c = false.
Record lm_ok `{LayoutFlags} (m : LayoutManager.t) : Prop := {
  ok_stacked p r : toplevel_heap_ m !! p = Some r → stacked r;
  ok_active p : active_toplevel_ m = Some p → p ∈ toplevels_ m;
  ok_magnified p : magnified_toplevel_ m = Some p → p ∈ toplevels_ m;
  ok_under p : toplevel_under_floating_tab_ m = Some p → p ∈ toplevels_ m;
  ok_tab : asynchronous (floating_tab_event_coalescer_ m);
  ok_pan : asynchronous (overview_background_event_coalescer_ m);
  ok_size : FLAGS_lm_honor_window_size_hints = true → 0 < width_ m ∧ 0 < height_ m
}.

Section frames.
Context `{Build} `{LayoutFlags} {W : Type} `{WmHost W} `{LayoutHost W} `{!LayoutHostLaws W}.
Context {S : Type} `{LayoutStore S W} `{!LayoutPlace S W}.

Definition known (x : Z) (s : S) : Prop := is_Some (GetWindow x s).
Record calm_ok (s : S) : Prop := {
  c_world : wm_ok (lm_world s);
  c_named x w : GetWindow x s = Some w → Window.xid_ w = x ∧ x ≠ 0;
  c_lm : lm_ok (lm s)
}.
Definition turns (s s' : S) : Prop :=
  same_lm (lm s) (lm s') ∧ (∀ x, known x s' ↔ known x s) ∧ same_screen (lm_world s) (lm_world s').
Definition rests (s s' : S) : Prop :=
  turns s s' ∧ mode_ (lm s') = mode_ (lm s) ∧ key_bindings s' = key_bindings s.
#[global] Instance turns_preorder : PreOrder turns.
Proof.
  split; [intros s; split; [reflexivity|by split]|]. intros s1 s2 s3 (? & Hk & ?) (? & Hk' & ?).
  split; [by etransitivity|]. split; [intros x; by rewrite Hk', Hk|by etransitivity].
Qed.
#[global] Instance rests_preorder : PreOrder rests.
Proof.
  split; [intros s; split; [reflexivity|done]|]. intros s1 s2 s3 (? & ? & ?) (? & ? & ?).
  split; [by etransitivity|]. split; congruence.
Qed.

(** *** Steps that leave all at rest *)

Lemma window_step s x w w' u :
  calm_ok s → GetWindow x s = Some w → same_xid w w' → wm_ok u → same_screen (lm_world s) u →
  calm_ok (set_lm_world u (set_window x w' s)) ∧ rests s (set_lm_world u (set_window x w' s)).
Proof.
  intros [Hw Hn Hl] Hx Hsame Hu Hscr. split; [split|split; [split; [|split]|split]]; place; try done.
  - intros y v. place. rewrite lp_win_win. case_decide as Hy; [|apply Hn]. intros [= <-]. subst y.
    rewrite Hsame. by apply Hn.
  - intros y. unfold known. place. rewrite lp_win_win. case_decide as Hy; [|done]. subst y. rewrite Hx. by split; eexists.
Qed.
Lemma lm_world_step s u : calm_ok s → wm_ok u → same_screen (lm_world s) u →
  calm_ok (set_lm_world u s) ∧ rests s (set_lm_world u s).
Proof.
  intros [Hw Hn Hl] Hu Hscr. split; [split|split; [split; [|split]|split]]; place; try done.
  - intros x w. place. apply Hn.
  - intros x. unfold known. by place.
Qed.
Lemma lm_step' s s' : calm_ok s → lm_ok (lm s') → same_lm (lm s) (lm s') → mode_ (lm s') = mode_ (lm s) →
  (∀ x, GetWindow x s' = GetWindow x s) → key_bindings s' = key_bindings s → lm_world s' = lm_world s →
  calm_ok s' ∧ rests s s'.
Proof.
  intros [Hw Hn Hl] Hm Hs Hmode Hx Hk Hu. split; [split|split; [split; [|split]|split]]; rewrite ?Hu; try done.
  - intros x w. rewrite Hx. apply Hn.
  - intros x. unfold known. by rewrite Hx.
Qed.
Lemma lm_step s m : calm_ok s → lm_ok m → same_lm (lm s) m → mode_ m = mode_ (lm s) →
  calm_ok (set_lm m s) ∧ rests s (set_lm m s).
Proof. intros. apply lm_step'; intros; by place. Qed.
(** Changing a toplevel that keeps its shape. *)
Lemma same_tops m p r r' : toplevel_heap_ m !! p = Some r → shape r' = shape r →
  same_lm m (m <| toplevel_heap_ := <[p := r']> (toplevel_heap_ m) |>).
Proof.
  intros Hp Hr. split; [|split; [unfold fewer, dropped; auto|done]]. unfold bones. cbn. f_equal. f_equal. f_equal. unfold tops. cbn.
  rewrite fmap_insert, Hr. apply insert_id. by apply tops_lookup.
Qed.
Lemma lm_ok_top m p r : lm_ok m → stacked r → lm_ok (m <| toplevel_heap_ := <[p := r]> (toplevel_heap_ m) |>).
Proof.
  intros [E1 E2 E3 E4 E5 E6 E7] Hr. split; try done. intros q rq. cbn. rewrite lookup_insert.
  case_decide; [by intros [= <-]|apply E1].
Qed.
Lemma top_step s p r r' : calm_ok s → toplevel_heap_ (lm s) !! p = Some r → stacked r' → shape r' = shape r →
  calm_ok (set_top p r' s) ∧ rests s (set_top p r' s).
Proof.
  intros Hs Hp Hr' Hsh. unfold set_top. apply lm_step; [done| |by apply (same_tops _ p r)|done].
  apply lm_ok_top; [apply Hs|done].
Qed.

Lemma window_wp {A} x (k : Window.t → M S A) Q s w : GetWindow x s = Some w → wp (k w) Q s → wp (window x ≫= k) Q s.
Proof. intros Hx Hk. apply wp_bind. unfold window. apply wp_gets_bind. rewrite Hx. by apply wp_ret. Qed.
Lemma top_wp {A} p (k : ToplevelWindow.t → M S A) Q s r :
  toplevel_heap_ (lm s) !! p = Some r → wp (k r) Q s → wp (top p ≫= k) Q s.
Proof. intros Hp Hk. apply wp_bind. unfold top, get. apply wp_gets_bind. rewrite Hp. by apply wp_ret. Qed.
Lemma top_at_eq p r s : toplevel_heap_ (lm s) !! p = Some r → top_at p s = r.
Proof. intros Hp. unfold top_at. by rewrite Hp. Qed.
(** Using a window, whatever the state of the layout manager. *)
Lemma lm_window_wp {A} (m : M (Window.t * W) A) x s w :
  renaming m → wm_ok (lm_world s) → GetWindow x s = Some w →
  wp (on_window x m) (fun _ s' => ∃ w' u, s' = set_lm_world u (set_window x w' s) ∧ same_xid w w' ∧ wm_ok u ∧
                                           same_screen (lm_world s) u) s.
Proof.
  intros Hm Hs Hx. unfold on_window. apply (window_wp _ _ _ _ w); [done|]. apply wp_zoom. rewrite Hx.
  eapply wp_mono; [by apply (Hm (w, lm_world s))|]. intros a [w' u] [Hok [Hsame Hscr]]. by exists w', u.
Qed.
Lemma on_stack_run {A} p (m : M (Stacker.t Z) A) a st s r :
  toplevel_heap_ (lm s) !! p = Some r → m (ToplevelWindow.stacked_transients_ r) = Val (a, st) →
  on_stack p m s = Val (a, set_top p (r <| ToplevelWindow.stacked_transients_ := st |>) s).
Proof.
  intros Hp Hm. unfold on_stack, top, get. mrun. rewrite Hp. cbn. unfold zoom. rewrite (top_at_eq p r) by done.
  by rewrite Hm.
Qed.

(** *** From a fixed state on *)

Definition still (s0 s : S) : Prop := calm_ok s ∧ rests s0 s.
(** The state has the windows that its toplevels name, and their gradients. *)
Definition body (s : S) : Prop := ∀ p sh, tops (lm s) !! p = Some sh →
  known (sh_win sh) s ∧ (∀ tr, tr ∈ sh_transients sh → known tr s) ∧
  (FLAGS_lm_new_overview_mode = true → sh_lit sh = true).

Section anchored.
Variable s0 : S.
Abbreviation calm := (framed (still s0) rests).
Definition present (p : Z) : Prop := is_Some (tops (lm s0) !! p).
Definition at0 (p : Z) (r : ToplevelWindow.t) : Prop := tops (lm s0) !! p = Some (shape r).
Definition has0 (p tr : Z) : Prop := ∃ sh, tops (lm s0) !! p = Some sh ∧ tr ∈ sh_transients sh.

Lemma at0_present p r : at0 p r → present p.
Proof. by eexists. Qed.
Lemma at0_has p r tr : at0 p r → tr ∈ dom (ToplevelWindow.transients_ r) → has0 p tr.
Proof. intros. by exists (shape r). Qed.
Lemma has_at0 p r tr : has0 p tr → at0 p r → tr ∈ dom (ToplevelWindow.transients_ r).
Proof. intros (sh & Hsh & Htr) Hr. unfold at0 in Hr. rewrite Hr in Hsh. by injection Hsh as <-. Qed.
Lemma has_present p tr : has0 p tr → present p.
Proof. intros (sh & ? & _). by exists sh. Qed.

Lemma calm_step {A} (m : M S A) :
  (∀ s, calm_ok s → rests s0 s → wp m (fun _ s' => calm_ok s' ∧ rests s s') s) → calm m.
Proof.
  intros Hm s [Hs Hr]. eapply wp_mono; [by apply Hm|]. intros a s' [??]. split; [split; [done|by etransitivity]|done].
Qed.
Lemma look p s : rests s0 s → present p → ∃ r, toplevel_heap_ (lm s) !! p = Some r ∧ at0 p r.
Proof.
  intros ((Hlm & _) & _) [sh Hsh]. destruct (tops_lookup_inv (lm s) p sh) as (r & Hr & <-); [|by exists r].
  by rewrite (tops_same (lm s0)); [|apply Hlm].
Qed.
Lemma calm_top_bind {A} p (k : ToplevelWindow.t → M S A) :
  present p → (∀ r, at0 p r → stacked r → calm (k r)) → calm (top p ≫= k).
Proof.
  intros Hp Hk s Hs. destruct (look p s) as (r & Hr & Hr0); [apply Hs|done|]. apply (top_wp _ _ _ _ r); [done|].
  apply Hk; [done| |done]. eapply ok_stacked; [apply Hs|done].
Qed.
Lemma calm_window_bind {A} x (k : Window.t → M S A) :
  known x s0 → (∀ w, Window.xid_ w = x → x ≠ 0 → calm (k w)) → calm (window x ≫= k).
Proof.
  intros Hx Hk s Hs. destruct Hs as [Hok (Ht & Hrest)]. pose proof Ht as (_ & Hkn & _).
  apply Hkn in Hx as [w Hw]. apply (window_wp _ _ _ _ w); [done|]. destruct (c_named s Hok x w Hw). by apply Hk.
Qed.
Lemma calm_transient_bind {A} p tr (k : TransientWindow.t → M S A) :
  has0 p tr → (∀ i, calm (k i)) → calm (transient p tr ≫= k).
Proof.
  intros Hp Hk s Hs. destruct (look p s) as (r & Hr & Hr0); [apply Hs|by eapply has_present|].
  apply wp_bind. unfold transient. apply (top_wp _ _ _ _ r); [done|].
  pose proof (has_at0 p r tr Hp Hr0) as [i Hi]%elem_of_dom. rewrite Hi. apply wp_ret. by apply Hk.
Qed.
Lemma calm_get_bind {A B} (f : LayoutManager.t → A) (k : A → M S B) :
  (∀ m, lm_ok m → same_lm (lm s0) m → calm (k (f m))) → calm (get f ≫= k).
Proof. intros Hk s Hs. unfold get. apply wp_gets_bind. apply Hk; [apply Hs|apply Hs|done]. Qed.
Lemma calm_lm_upd f :
  (∀ m, lm_ok m → same_lm (lm s0) m → lm_ok (f m) ∧ same_lm m (f m) ∧ mode_ (f m) = mode_ m) → calm (upd f).
Proof.
  intros Hf. apply calm_step. intros s Hs ((Hlm & _) & _). apply wp_modify.
  destruct (Hf (lm s)) as (? & ? & ?); [apply Hs|done|]. by apply lm_step.
Qed.
Lemma calm_upd_top p f :
  present p → (∀ r, at0 p r → stacked r → stacked (f r) ∧ shape (f r) = shape r) → calm (upd_top p f).
Proof.
  intros Hp Hf. apply calm_step. intros s Hs Hr. destruct (look p s) as (r & Hr1 & Hr0); [done..|].
  apply (top_wp _ _ _ _ r); [done|]. apply wp_modify.
  destruct (Hf r) as [Hst Hsh]; [done|by eapply ok_stacked; [apply Hs|]|]. by apply (top_step s p r).
Qed.
Lemma calm_upd_transient p tr f : has0 p tr → calm (upd_transient p tr f).
Proof.
  intros Hp. unfold upd_transient. apply calm_transient_bind; [done|]. intros i.
  apply calm_upd_top; [by eapply has_present|]. intros r Hr [Hwf Hit Hfo].
  pose proof (has_at0 p r tr Hp Hr) as Htr.
  assert (dom (<[tr := f i]> (ToplevelWindow.transients_ r)) = dom (ToplevelWindow.transients_ r)) as Hdom
    by (rewrite dom_insert_L; set_solver).
  split; [split; cbn; rewrite ?Hdom; done|]. unfold shape. cbn. by rewrite Hdom.
Qed.
Lemma calm_lm_world {A} (m : M W A) : quiet m → calm (on_world m).
Proof.
  intros Hm. apply calm_step. intros s Hs _. apply wp_zoom. eapply wp_mono; [apply Hm, Hs|].
  intros a u [Hu Hscr]. by apply lm_world_step.
Qed.
Lemma calm_on_window {A} x (m : M (Window.t * W) A) : known x s0 → renaming m → calm (on_window x m).
Proof.
  intros Hx Hm. apply calm_step. intros s Hs ((_ & Hkn & _) & _). apply Hkn in Hx as [w Hw].
  eapply wp_mono; [apply (lm_window_wp _ x s w); [done|apply Hs|done]|].
  intros a s' (w' & u & -> & ? & ? & ?). by apply (window_step s x w).
Qed.
Lemma calm_consumers f : calm (consumers f).
Proof.
  apply calm_step. intros s Hs _. apply wp_modify. destruct (wm_set_consumers (f (get_consumers (lm_world s))) (lm_world s));
    [apply Hs|]. by apply lm_world_step.
Qed.
Lemma calm_registrar p f : present p → calm (registrar p f).
Proof.
  intros Hp. unfold registrar. apply calm_top_bind; [done|]. intros _ _ _. apply calm_step. intros s Hs Hr. apply wp_modify.
  destruct (look p s) as (r & Hr1 & Hr0); [done..|]. rewrite (top_at_eq p r) by done. destruct (f _) as [reg c].
  set (r' := r <| ToplevelWindow.event_consumer_registrar_ := reg |>).
  destruct (top_step s p r r') as [Hok1 Hr2]; [done|done| |by destruct r|].
  { pose proof (ok_stacked (lm s) (c_lm s Hs) p r Hr1) as [E1 E2 E3]. by destruct r. }
  destruct (wm_set_consumers c (lm_world s)) as (? & ?); [apply Hs|].
  destruct (lm_world_step (set_top p r' s) (set_consumers c (lm_world s))) as [? ?]; [done|done|unfold set_top; by place|].
  split; [done|by etransitivity].
Qed.
Lemma calm_for_each {A} (f : A → M S unit) l : (∀ a, a ∈ l → calm (f a)) → calm (for_each f l).
Proof.
  induction l as [|a l IH]; intros Hf; [apply framed_ret, _|]. apply framed_bind; [apply _|apply Hf; by left|].
  intros _. apply IH. intros b Hb. apply Hf. by right.
Qed.
Lemma calm_DCHECK b : b = true → calm (DCHECK b).
Proof. intros ->. unfold DCHECK. destruct dchecks; apply framed_ret, _. Qed.
End anchored.
End frames.

#[export] Hint Resolve at0_present at0_has has_present calm_consumers calm_registrar calm_upd_transient : framed.
#[export] Hint Extern 1 (framed _ _ (on_window _ _)) => apply calm_on_window : framed.
#[export] Hint Extern 1 (framed _ _ (on_world _)) => apply calm_lm_world : framed.
(** Follow a program's structure, from a fixed state on. *)
Ltac calmly :=
  repeat first
    [ solve [eauto with framed]
    | lazymatch goal with
      | |- framed _ _ (top _ ≫= _) => apply calm_top_bind; [solve [eauto with framed]|]
      | |- framed _ _ (window _ ≫= _) => apply calm_window_bind; [solve [eauto with framed]|]
      | |- framed _ _ (transient _ _ ≫= _) => apply calm_transient_bind; [solve [eauto with framed]|]
      | |- framed _ _ (get _ ≫= _) => apply calm_get_bind
      | |- framed _ _ (_ ≫= _) => apply framed_bind; [apply _| |]
      | |- framed _ _ (for_each _ _) => apply calm_for_each
      | |- framed _ _ (if ?b then _ else _) => let E := fresh "E" in destruct b eqn:E
      | |- framed _ _ (match ?b with _ => _ end) => let E := fresh "E" in destruct b eqn:E
      | |- framed _ _ _ => fail
      | |- ∀ _, _ => intro
      end ].
