(* ===== verification/ToplevelSafe.v ===== *)
(** * Toplevel windows do not fail (Toplevel.v).

    From a state whose toplevels have their windows ([body]), every operation of a
    toplevel leaves the books alone without faulting; and adding and removing a
    transient window, the constructor and the destructor change them as they
    should. *)

From stdpp Require Import sorting.
From S2P Require Import Prelude Hoare WmUtil KeyBindings XConnection WmIpc Double Window WmEvents Panel WmFrame PanelSafe.
From S2P Require Import Toplevel LayoutFrame.
Import LayoutManager LayoutRef.

Section toplevels.
Context `{Build} `{LayoutFlags} {W : Type} `{WmHost W} `{LayoutHost W} `{!LayoutHostLaws W}.
Context {S : Type} `{LayoutStore S W} `{!LayoutPlace S W}.
Variable sm : StackingManager.t.
Hypothesis Hsm : layers_ok sm.
Variable self : Z.

Section anchored.
Variable s0 : S.
Hypothesis Hbody : body s0.
Abbreviation calm := (framed (still s0) rests).
Abbreviation present := (LayoutFrame.present s0).
Abbreviation at0 := (LayoutFrame.at0 s0).
Abbreviation has0 := (LayoutFrame.has0 s0).

(** *** Where things are *)


Lemma known_win p r : at0 p r → known (ToplevelWindow.win_ r) s0.
Proof. intros Hp. by destruct (Hbody p (shape r) Hp). Qed.
Lemma known_has p tr : has0 p tr → known tr s0.
Proof. intros (sh & Hsh & Htr). destruct (Hbody p sh Hsh) as (_ & Hk & _). by apply Hk. Qed.
Lemma lit_at0 p r : at0 p r → FLAGS_lm_new_overview_mode = true → is_Some (ToplevelWindow.gradient_actor_ r).
Proof. intros Hp Hf. destruct (Hbody p (shape r) Hp) as (_ & _ & Hl). by apply (bool_decide_unpack _), Is_true_true, Hl. Qed.
#[local] Hint Resolve known_win known_has : framed.
Lemma calm_lm_x r : calm (x r).
Proof. unfold x. eauto with framed. Qed.
Lemma calm_lm_actor a c : calm (actor a c).
Proof. unfold actor. eauto with framed. Qed.
Lemma calm_GetCurrentTimeFromServer : calm Toplevel.GetCurrentTimeFromServer.
Proof. unfold Toplevel.GetCurrentTimeFromServer. eauto with framed. Qed.
Lemma calm_SetActiveWindowProperty x : calm (Toplevel.SetActiveWindowProperty x).
Proof. unfold Toplevel.SetActiveWindowProperty. apply framed_bind; eauto with framed. Qed.
Lemma renaming_at_layer layer : 0 ≤ layer < StackingManager.LAYER_BACKGROUND →
  renaming (StackingManager.StackWindowAtTopOfLayer sm layer).
Proof. intros Hl. by apply steady_renaming, steady_StackWindowAtTopOfLayer. Qed.
Lemma renaming_above x : x ≠ 0 → renaming (Window.StackClientAbove x).
Proof. intros Hx. by apply steady_renaming, steady_StackClientAbove. Qed.
Lemma renaming_below x : x ≠ 0 → renaming (Window.StackClientBelow x).
Proof. intros Hx. by apply steady_renaming, steady_StackClientBelow. Qed.
#[local] Hint Resolve calm_lm_x calm_lm_actor calm_GetCurrentTimeFromServer calm_SetActiveWindowProperty renaming_above renaming_below : framed.
#[local] Hint Extern 1 (framed _ _ (StackingManager.StackWindowAtTopOfLayer _ _)) => by apply renaming_at_layer : framed.
#[local] Hint Extern 1 (framed _ _ (StackingManager.StackXidAtTopOfLayer _ _ _)) => by apply quiet_StackXidAtTopOfLayer : framed.

Lemma calm_UpdateOverviewScaling p a b : present p → calm (Toplevel.UpdateOverviewScaling p a b).
Proof.
  intros Hp. unfold Toplevel.UpdateOverviewScaling. calmly. apply calm_upd_top; [done|].
  intros q Hq [E1 E2 E3]. split; [by split|done].
Qed.
Lemma calm_MoveAndScaleTransientWindow p tr ms : has0 p tr → calm (Toplevel.MoveAndScaleTransientWindow p tr ms).
Proof. intros Hp. unfold Toplevel.MoveAndScaleTransientWindow. calmly. Qed.
#[local] Hint Resolve calm_UpdateOverviewScaling calm_MoveAndScaleTransientWindow : framed.
Lemma elem_of_transients tr r : tr ∈ ToplevelWindow.transients_in_order r ↔ tr ∈ dom (ToplevelWindow.transients_ r).
Proof. unfold ToplevelWindow.transients_in_order. by rewrite merge_sort_Permutation, elem_of_elements. Qed.
Lemma calm_MoveAndScaleAll p ms : present p → calm (Toplevel.MoveAndScaleAllTransientWindows p ms).
Proof.
  intros Hp. unfold Toplevel.MoveAndScaleAllTransientWindows. calmly. rewrite elem_of_transients in *. eauto with framed.
Qed.
Lemma calm_ApplyStacking p tr other : has0 p tr → (∀ o, other = Some o → known o s0) →
  calm (Toplevel.ApplyStackingForTransientWindow sm p tr other).
Proof.
  intros Hp Ho. unfold Toplevel.ApplyStackingForTransientWindow. destruct other as [o|]; [|calmly].
  assert (known o s0) by by apply Ho. calmly. apply calm_on_window; [eauto with framed|]. apply renaming_above. congruence.
Qed.
Lemma calm_stack_above p prev trs : (∀ o, prev = Some o → known o s0) → (∀ tr, tr ∈ trs → has0 p tr) →
  calm (Toplevel.stack_above sm p prev trs).
Proof.
  revert prev. induction trs as [|tr trs IH]; intros prev Hprev Htrs; cbn; [calmly|].
  assert (has0 p tr) as Htr by (apply Htrs; by left).
  apply framed_bind; [apply _|by apply calm_ApplyStacking|]. intros _. apply IH.
  - intros o [= <-]. eauto with framed.
  - intros t Ht. apply Htrs. by right.
Qed.
Lemma calm_ApplyStackingForAll p b : present p → calm (Toplevel.ApplyStackingForAllTransientWindows sm p b).
Proof.
  intros Hp. unfold Toplevel.ApplyStackingForAllTransientWindows. apply calm_top_bind; [done|]. intros r Hr Hst.
  apply calm_stack_above.
  - intros o. destruct b; [|done]. intros [= <-]. eauto with framed.
  - intros tr Htr%elem_of_reverse%(st_items r Hst). eauto with framed.
Qed.
Lemma calm_find_modal p trs : (∀ tr, tr ∈ trs → has0 p tr) → calm (Toplevel.find_modal p trs).
Proof.
  induction trs as [|tr trs IH]; intros Htrs; cbn; [calmly|]. assert (has0 p tr) as Htr by (apply Htrs; by left).
  assert (calm (Toplevel.find_modal p trs)) by (apply IH; intros t Ht; apply Htrs; by right). calmly.
Qed.
Lemma stack_has p r tr : at0 p r → stacked r → tr ∈ Stacker.items (ToplevelWindow.stacked_transients_ r) → has0 p tr.
Proof. intros Hr Hst Htr%(st_items r Hst). eauto with framed. Qed.
#[local] Hint Resolve stack_has calm_MoveAndScaleAll calm_ApplyStackingForAll : framed.
Lemma calm_FindTransientWindowToFocus p : present p → calm (Toplevel.FindTransientWindowToFocus p).
Proof.
  intros Hp. unfold Toplevel.FindTransientWindowToFocus. apply calm_top_bind; [done|]. intros r Hr Hst.
  destruct (Stacker.items _) as [|front l] eqn:El; [calmly|]. apply framed_bind; [apply _| |calmly].
  apply calm_find_modal. intros tr Htr. apply (stack_has p r); [done..|]. by rewrite El.
Qed.

(** *** The stack and the focus *)

Lemma stacked_put r st : stacked r → well_formed st →
  (∀ tr, tr ∈ Stacker.items st ↔ tr ∈ Stacker.items (ToplevelWindow.stacked_transients_ r)) →
  stacked (r <| ToplevelWindow.stacked_transients_ := st |>).
Proof. intros [E1 E2 E3] Hst Hit. split; [done| |done]. intros tr. cbn. by rewrite Hit, E2. Qed.
(** Taking a transient out and putting it on top. *)
Lemma calm_restack {A} p tr (k : M S A) : has0 p tr → calm k →
  calm (on_stack p (Stacker.Remove tr);; on_stack p (Stacker.AddOnTop tr);; k).
Proof.
  intros Hp Hk s [Hs Hr]. destruct (look s0 p s) as (r & Hr1 & Hr0); [done|by eapply has_present|].
  pose proof (ok_stacked (lm s) (c_lm s Hs) p r Hr1) as Hst.
  destruct (stacker_op_refines (ORemove tr) _ (st_wf r Hst)) as (st1 & Hrun1 & Hwf1 & Hit1).
  destruct (stacker_op_refines (OTop tr) st1 Hwf1) as (st2 & Hrun2 & Hwf2 & Hit2). cbn in Hrun1, Hrun2, Hit1, Hit2.
  assert (∀ t, t ∈ Stacker.items st2 ↔ t ∈ Stacker.items (ToplevelWindow.stacked_transients_ r)) as Hit.
  { intros t. pose proof (has_at0 s0 p r tr Hp Hr0) as Htr%(st_items r Hst). rewrite Hit2, Hit1.
    rewrite decide_False by (rewrite list_elem_of_filter; tauto). rewrite elem_of_cons, list_elem_of_filter.
    destruct (decide (t = tr)) as [->|]; naive_solver. }
  set (r1 := r <| ToplevelWindow.stacked_transients_ := st1 |>). set (s1 := set_top p r1 s).
  set (r2 := r <| ToplevelWindow.stacked_transients_ := st2 |>).
  assert (toplevel_heap_ (lm s1) !! p = Some r1) as Hr1' by (unfold s1, set_top; place; apply lookup_insert_eq).
  assert (calm_ok (set_top p r2 s1) ∧ rests s (set_top p r2 s1)) as [Hok2 Hr2].
  { destruct (top_step s p r r2) as [Hok2 Hr2]; [done|done|by apply stacked_put|done|].
    assert (lm (set_top p r2 s1) = lm (set_top p r2 s)) as Elm
      by (unfold s1, set_top; place; cbn; by rewrite insert_insert_eq).
    apply lm_step'; rewrite ?Elm; [done|apply Hok2|apply Hr2|apply Hr2|..]; intros; unfold s1, set_top; by place. }
  assert (wp k (fun _ s' => still s0 s' ∧ rests s s') (set_top p r2 s1)) as Hk2.
  { eapply wp_mono; [by apply Hk; split; [|etransitivity]|]. intros a s' [??]. split; [done|by etransitivity]. }
  apply (wp_cut _ _ (fun _ s' => s' = s1)); [apply wp_run; exists (), s1; split; [by apply on_stack_run|done]|].
  intros _ ? ->. apply (wp_cut _ _ (fun _ s' => s' = set_top p r2 s1)); [|by intros _ ? ->].
  apply wp_run. eexists (), _. split; [by apply (on_stack_run p _ () st2 s1 r1)|done].
Qed.
Lemma calm_RestackTransientWindowOnTop p tr : has0 p tr → calm (Toplevel.RestackTransientWindowOnTop sm p tr).
Proof.
  intros Hp. unfold Toplevel.RestackTransientWindowOnTop. apply calm_top_bind; [eauto with framed|]. intros r Hr Hst.
  pose proof (has_at0 s0 p r tr Hp Hr) as Htr%(st_items r Hst). destruct (Stacker.items _) as [|front l] eqn:El.
  - by apply elem_of_nil in Htr.
  - case_decide as Hf; [calmly|]. apply framed_bind; [apply _|apply calm_DCHECK|intros _].
    { rewrite Contains_spec by apply Hst. apply bool_decide_eq_true_2. by rewrite El. }
    apply framed_bind; [apply _|apply calm_DCHECK|intros _].
    { apply Z.ltb_lt. unfold zlen. cbn. destruct l; [|cbn; lia]. apply list_elem_of_singleton in Htr. done. }
    apply calm_restack; [done|].
    assert (has0 p front) as Hfront by (apply (stack_has p r); [done..|rewrite El; by left]).
    apply calm_transient_bind; [done|]. intros _. apply calm_ApplyStacking; [done|]. intros o [= <-]. eauto with framed.
Qed.
#[local] Hint Resolve calm_RestackTransientWindowOnTop calm_FindTransientWindowToFocus : framed.
Lemma focus_has p r f : at0 p r → stacked r → ToplevelWindow.transient_to_focus_ r = Some f → has0 p f.
Proof. intros Hr Hst Hf%(st_focus r Hst). eauto with framed. Qed.
#[local] Hint Resolve focus_has : framed.
Lemma calm_TakeFocus p t : present p → calm (Toplevel.TakeFocus sm p t).
Proof. intros Hp. unfold Toplevel.TakeFocus. calmly. Qed.
Lemma calm_focusing_modal p r : at0 p r → stacked r → calm (Toplevel.focusing_modal p r).
Proof. intros Hr Hst. unfold Toplevel.focusing_modal. calmly. Qed.
Lemma calm_set_focus p f : present p → (∀ tr, f = Some tr → has0 p tr) → calm (Toplevel.set_transient_to_focus p f).
Proof.
  intros Hp Hf. apply calm_upd_top; [done|]. intros r Hr [E1 E2 E3]. split; [|by destruct r].
  split; [done|done|]. cbn. intros tr ->. by eapply has_at0; [apply Hf|].
Qed.
Lemma calm_focus_none p : present p → calm (Toplevel.set_transient_to_focus p None).
Proof. intros Hp. by apply calm_set_focus. Qed.
Lemma calm_focus_some p tr : has0 p tr → calm (Toplevel.set_transient_to_focus p (Some tr)).
Proof. intros Hp. apply calm_set_focus; [eauto with framed|]. by intros ? [= <-]. Qed.
#[local] Hint Resolve calm_TakeFocus calm_focusing_modal calm_focus_none calm_focus_some : framed.
Lemma calm_SetPreferred p w : present p → calm (Toplevel.SetPreferredTransientWindowToFocus p w).
Proof.
  intros Hp. unfold Toplevel.SetPreferredTransientWindowToFocus. apply calm_top_bind; [done|]. intros r Hr Hst.
  destruct w as [tr|]; [|calmly]. destruct (ToplevelWindow.transients_ r !! tr) eqn:Etr; [|calmly].
  assert (has0 p tr) by (eapply at0_has; [done|by eapply elem_of_dom_2]). calmly.
Qed.
Lemma calm_any_focused p trs : (∀ tr, tr ∈ trs → has0 p tr) → calm (Toplevel.any_focused p trs).
Proof.
  induction trs as [|tr trs IH]; intros Htrs; cbn; [calmly|]. assert (has0 p tr) as Htr by (apply Htrs; by left).
  assert (calm (Toplevel.any_focused p trs)) by (apply IH; intros t Ht; apply Htrs; by right). calmly.
Qed.
Lemma calm_IsWindowOrTransientFocused p : present p → calm (Toplevel.IsWindowOrTransientFocused p).
Proof.
  intros Hp. unfold Toplevel.IsWindowOrTransientFocused. calmly. apply calm_any_focused. intros tr Htr%elem_of_transients.
  eauto with framed.
Qed.
#[local] Hint Resolve calm_SetPreferred calm_IsWindowOrTransientFocused : framed.
Lemma calm_HandleTransientWindowConfigureRequest p tr a b c d : has0 p tr →
  calm (Toplevel.HandleTransientWindowConfigureRequest p tr a b c d).
Proof.
  intros Hp. unfold Toplevel.HandleTransientWindowConfigureRequest. calmly.
  apply framed_CHECK; [apply _|]. apply bool_decide_eq_true_2, elem_of_dom. by eapply has_at0.
Qed.
Lemma calm_HandleFocusChange p x b r : at0 p r → x = ToplevelWindow.win_ r ∨ has0 p x →
  calm (Toplevel.HandleFocusChange p x b).
Proof.
  intros Hr Hx. assert (known x s0) by (destruct Hx; subst; eauto with framed).
  unfold Toplevel.HandleFocusChange. apply calm_top_bind; [eauto with framed|]. intros r' Hr' Hst.
  assert (shape r' = shape r) as Hsh by (unfold at0 in *; congruence).
  apply calm_window_bind; [done|]. intros w Hw Hx0. apply framed_bind; [apply _|apply calm_DCHECK|intros _; calmly].
  apply orb_true_iff. destruct Hx as [->|Hx]; [left|right]; apply bool_decide_eq_true_2.
  - by injection Hsh.
  - apply elem_of_dom. by eapply has_at0.
Qed.
Lemma calm_HandleButtonPress p x t : present p → known x s0 → calm (Toplevel.HandleButtonPress sm p x t).
Proof. intros Hp Hx. unfold Toplevel.HandleButtonPress. calmly. Qed.

(** *** Active mode and overview mode *)

Lemma calm_set_state p st : present p → calm (Toplevel.set_state p st).
Proof. intros Hp. apply calm_upd_top; [done|]. intros r Hr [E1 E2 E3]. split; [by split|by destruct r]. Qed.
Lemma calm_gradient p c : present p → FLAGS_lm_new_overview_mode = true → calm (Toplevel.gradient p c).
Proof.
  intros Hp Hf. unfold Toplevel.gradient. apply calm_top_bind; [done|]. intros r Hr _.
  destruct (lit_at0 p r Hr Hf) as [a ->]. eauto with framed.
Qed.
#[local] Hint Resolve calm_set_state calm_gradient : framed.
Lemma calm_place_for_entry p a b : present p → calm (Toplevel.place_for_entry p a b).
Proof. intros Hp. unfold Toplevel.place_for_entry. calmly. Qed.
#[local] Hint Resolve calm_place_for_entry : framed.
Lemma calm_activate p y b : present p → calm (Toplevel.activate sm p y b).
Proof. intros Hp. unfold Toplevel.activate. calmly. Qed.
Lemma calm_animate_exit p y b : present p → calm (Toplevel.animate_exit p y b).
Proof. intros Hp. unfold Toplevel.animate_exit. calmly. Qed.
#[local] Hint Resolve calm_activate calm_animate_exit : framed.
Lemma calm_deactivate p y b : present p → calm (Toplevel.deactivate p y b).
Proof. intros Hp. unfold Toplevel.deactivate. calmly. Qed.
#[local] Hint Resolve calm_deactivate : framed.
Lemma calm_ConfigureForActiveMode p a b c : present p → calm (Toplevel.ConfigureForActiveMode sm p a b c).
Proof. intros Hp. unfold Toplevel.ConfigureForActiveMode. calmly. Qed.

Lemma calm_place_input_window p : present p → calm (Toplevel.place_input_window p).
Proof. intros Hp. unfold Toplevel.place_input_window. calmly. Qed.
Lemma calm_stack_under p q : present p → (∀ o, q = Some o → present o) → calm (Toplevel.stack_under sm p q).
Proof.
  intros Hp Hq. unfold Toplevel.stack_under. destruct q as [o|]; [|calmly].
  assert (present o) by by apply Hq. calmly. apply calm_on_window; [eauto with framed|]. apply renaming_below. congruence.
Qed.
#[local] Hint Resolve calm_place_input_window calm_stack_under : framed.
Lemma calm_settle p a q : FLAGS_lm_new_overview_mode = true → present p → (∀ o, q = Some o → present o) →
  calm (Toplevel.settle_in_overview sm p a q).
Proof.
  intros Hf Hp Hq. unfold Toplevel.settle_in_overview. calmly.
  apply calm_window_bind; [|calmly].
  destruct (head _) as [tr|] eqn:Eh; cbn; [|eauto with framed].
  apply head_Some_elem_of in Eh. eauto with framed.
Qed.
Lemma calm_scale_gradient p ms : FLAGS_lm_new_overview_mode = true → present p → calm (Toplevel.scale_gradient p ms).
Proof.
  intros Hf Hp. unfold Toplevel.scale_gradient. apply calm_top_bind; [done|]. intros r Hr Hst.
  apply calm_window_bind; [eauto with framed|]. intros w _ _. destruct (lit_at0 p r Hr Hf) as [a ->]. calmly.
Qed.
#[local] Hint Resolve calm_settle calm_scale_gradient : framed.
Lemma calm_ConfigureForOverviewMode p a b q c : present p → (∀ o, q = Some o → present o) →
  calm (Toplevel.ConfigureForOverviewMode sm p a b q c).
Proof.
  intros Hp Hq. unfold Toplevel.ConfigureForOverviewMode. destruct FLAGS_lm_new_overview_mode eqn:Hf; calmly.
Qed.
Lemma calm_make_static_gradient : calm Toplevel.make_static_gradient.
Proof.
  unfold Toplevel.make_static_gradient. apply calm_get_bind. intros m _ _. destruct (static_gradient_texture_ _); [calmly|].
  apply framed_bind; [apply _|apply calm_lm_world, quiet_extern; intros w; apply wm_new_image|intros a].
  apply framed_bind; [apply _| |calmly]. apply calm_lm_upd. intros m' [] Hm'. split; [by split|]. split; [|done].
  split; [done|]. split; [unfold fewer, dropped; auto|by eexists].
Qed.
Lemma calm_size_for x w h : known x s0 → (FLAGS_lm_honor_window_size_hints = true → 0 < w ∧ 0 < h) →
  calm (Toplevel.size_for x w h).
Proof.
  intros Hx Hs. unfold Toplevel.size_for. destruct FLAGS_lm_honor_window_size_hints; [|calmly].
  apply calm_window_bind; [done|]. intros r _ _. destruct (Hs eq_refl). unfold Window.GetMaxSize.
  replace ((0 <? w) && (0 <? h)) with true by lia. calmly.
Qed.
End anchored.

(** ** Toplevels and transients come and go *)

(** From [s] to a state that has the books of [m]. *)
Definition goes (m : LayoutManager.t) (s s' : S) : Prop :=
  same_lm m (lm s') ∧ mode_ (lm s') = mode_ m ∧ (∀ x, known x s' ↔ known x s) ∧
  same_screen (lm_world s) (lm_world s') ∧ key_bindings s' = key_bindings s.
Lemma goes_rests m s s1 s2 : goes m s s1 → rests s1 s2 → goes m s s2.
Proof.
  intros (E1 & E2 & E3 & E4 & E5) ((F1 & F2 & F3) & F4 & F5). split; [by etransitivity|]. split; [congruence|].
  split; [intros x; by rewrite F2, E3|]. split; [by etransitivity|congruence].
Qed.
(** The books with a toplevel put in. *)
Definition with_top (p : Z) (r : ToplevelWindow.t) (m : LayoutManager.t) : LayoutManager.t :=
  m <| toplevel_heap_ := <[p := r]> (toplevel_heap_ m) |>.
Lemma same_with_top m m' p r r' : same_lm m m' → shape r' = shape r → same_lm (with_top p r m) (with_top p r' m').
Proof.
  intros (Hb & Hf & Hst) Hr. split; [|by split]. unfold bones, tops, with_top in *. injection Hb as E1 E2 E3 E4. cbn.
  by rewrite !fmap_insert, Hr, E1, E2, E3, E4.
Qed.
Lemma calm_ok_alike s s' : calm_ok s → lm_ok (lm s') → (∀ x, GetWindow x s' = GetWindow x s) →
  lm_world s' = lm_world s → calm_ok s'.
Proof. intros [E1 E2 E3] Hl Hx Hw. split; [by rewrite Hw| |done]. intros x w. rewrite Hx. apply E2. Qed.
Lemma set_top_eq p r s : lm (set_top p r s) = with_top p r (lm s).
Proof. unfold set_top. by place. Qed.
(** After a toplevel has been set, perhaps more than once. *)
Lemma tops_step s s1 s' p r r' :
  rests s s1 → calm_ok s1 → lm s' = with_top p r' (lm s1) → shape r' = shape r → stacked r' →
  (∀ x, GetWindow x s' = GetWindow x s1) → lm_world s' = lm_world s1 → key_bindings s' = key_bindings s1 →
  calm_ok s' ∧ goes (with_top p r (lm s)) s s'.
Proof.
  intros ((E1 & E2 & E3) & E4 & E5) Hs1 Hlm Hr Hst Hx Hw Hk. split.
  - apply (calm_ok_alike s1); [done| |done..]. rewrite Hlm. apply lm_ok_top; [apply Hs1|done].
  - split; [rewrite Hlm; by apply same_with_top|]. rewrite Hlm. split; [exact E4|].
    split; [intros x; unfold known; rewrite Hx; apply E2|]. rewrite Hw, Hk. by split.
Qed.
(** The toplevels of [m] stay whole when one is added that has what it names. *)
Lemma body_top s s' p r : body s → goes (with_top p r (lm s)) s s' → known (ToplevelWindow.win_ r) s →
  (∀ tr, tr ∈ dom (ToplevelWindow.transients_ r) → known tr s) →
  (FLAGS_lm_new_overview_mode = true → is_Some (ToplevelWindow.gradient_actor_ r)) → body s'.
Proof.
  intros Hb (Hlm & _ & Hk & _) Hwin Htrs Hlit q sh. rewrite (tops_same _ _ (proj1 Hlm)). unfold tops, with_top. cbn.
  rewrite fmap_insert, lookup_insert. case_decide.
  - intros [= <-]. cbn. split; [by apply Hk|]. split; [intros tr Htr; by apply Hk, Htrs|].
    intros Hf. by apply bool_decide_eq_true_2, Hlit.
  - intros Hsh. destruct (Hb q sh Hsh) as (? & ? & ?). split; [by apply Hk|]. split; [|done].
    intros tr Htr. apply Hk. auto.
Qed.
Lemma body_turns s s' : body s → turns s s' → body s'.
Proof.
  intros Hb ((Hlm & _) & Hk & _) p sh Hsh. rewrite (tops_same _ _ Hlm) in Hsh.
  destruct (Hb p sh Hsh) as (? & ? & ?). split; [by apply Hk|]. split; [|done]. intros tr Htr. apply Hk. auto.
Qed.
Lemma body_rests s s' : body s → rests s s' → body s'.
Proof. intros Hb [Ht _]. by apply (body_turns s). Qed.
Lemma heap_still s s1 p r : rests s s1 → toplevel_heap_ (lm s) !! p = Some r →
  ∃ r1, toplevel_heap_ (lm s1) !! p = Some r1 ∧ shape r1 = shape r.
Proof.
  intros Hr Hp. destruct (look s p s1 Hr) as (r1 & Hr1 & Hat); [exists (shape r); by apply tops_lookup|].
  exists r1. split; [done|]. unfold at0 in Hat. rewrite (tops_lookup _ p r Hp) in Hat. congruence.
Qed.
Lemma shape_transients r r' : shape r' = shape r → dom (ToplevelWindow.transients_ r') = dom (ToplevelWindow.transients_ r).
Proof. apply (f_equal sh_transients). Qed.
Lemma shape_win r r' : shape r' = shape r → ToplevelWindow.win_ r' = ToplevelWindow.win_ r.
Proof. apply (f_equal sh_win). Qed.
Lemma still_refl s : calm_ok s → still s s.
Proof. by split. Qed.

Lemma find_under_wp p modal trs s r : toplevel_heap_ (lm s) !! p = Some r →
  (∀ tr, tr ∈ trs → tr ∈ dom (ToplevelWindow.transients_ r) ∧ known tr s) →
  wp (Toplevel.find_under p modal trs) (fun u s' => s' = s ∧ ∀ o, u = Some o → o ∈ trs) s.
Proof.
  intros Hp. induction trs as [|tr trs IH]; intros Htrs; cbn; [by apply wp_ret|].
  destruct (Htrs tr) as [[i Hi]%elem_of_dom [w Hw]]; [by left|].
  apply wp_bind. unfold transient. apply (top_wp _ _ _ _ r); [done|]. rewrite Hi. apply wp_ret.
  apply (window_wp _ _ _ _ w); [done|]. destruct (modal || _).
  - apply wp_ret. split; [done|]. intros o [= <-]. by left.
  - eapply wp_mono; [apply IH; intros; apply Htrs; by right|]. intros u s' [-> Hu]. split; [done|]. intros o Ho. right. auto.
Qed.


(** *** A transient is added *)

Lemma dom_add_transient r tr i :
  dom (ToplevelWindow.transients_ (r <| ToplevelWindow.transients_ := <[tr := i]> (ToplevelWindow.transients_ r) |>)) =
  {[tr]} ∪ dom (ToplevelWindow.transients_ r).
Proof. by cbn; rewrite dom_insert_L. Qed.
Lemma elem_of_place_above x u (l : list Z) y : u ∈ l → y ∈ place_above x u l ↔ y = x ∨ y ∈ l.
Proof. induction l as [|z l IH]; cbn; [by intros ?%elem_of_nil|]. rewrite !elem_of_cons. case_decide; set_solver. Qed.
Lemma stack_grows r tr under st :
  stacked r → tr ∉ dom (ToplevelWindow.transients_ r) →
  (∀ u, under = Some u → u ∈ dom (ToplevelWindow.transients_ r)) →
  st = ToplevelWindow.stacked_transients_ r →
  ∃ st', (match under with Some u => Stacker.AddAbove tr u | None => Stacker.AddOnBottom tr end) st = Val ((), st') ∧
    well_formed st' ∧ ∀ t, t ∈ Stacker.items st' ↔ t = tr ∨ t ∈ dom (ToplevelWindow.transients_ r).
Proof.
  intros [Hwf Hit _] Hn Hu ->. destruct under as [u|].
  - destruct (stacker_op_refines (OAbove tr u) _ Hwf) as (st' & Hrun & Hwf' & Hit'). exists st'. split; [done|]. split; [done|].
    intros t. rewrite Hit'. cbn. rewrite decide_False by (by rewrite Hit). rewrite elem_of_place_above, Hit; [done|].
    by apply Hit, Hu.
  - destruct (stacker_op_refines (OBottom tr) _ Hwf) as (st' & Hrun & Hwf' & Hit'). exists st'. split; [done|]. split; [done|].
    intros t. rewrite Hit'. cbn. rewrite decide_False by (by rewrite Hit). rewrite elem_of_app, list_elem_of_singleton, Hit. tauto.
Qed.
Lemma AddTransientWindow_wp p tr b s r :
  calm_ok s → body s → toplevel_heap_ (lm s) !! p = Some r → tr ∉ dom (ToplevelWindow.transients_ r) → known tr s →
  wp (Toplevel.AddTransientWindow sm self p tr b)
     (fun _ s' => calm_ok s' ∧ body s' ∧
        goes (with_top p (r <| ToplevelWindow.transients_ := <[tr := TransientWindow.new]> (ToplevelWindow.transients_ r) |>) (lm s)) s s') s.
Proof.
  intros Hs Hb Hp Hn Hk. unfold Toplevel.AddTransientWindow. apply (top_wp _ _ _ _ r); [done|].
  apply not_elem_of_dom in Hn as Hn'. rewrite Hn'. pose proof Hk as [w Hw]. apply (window_wp _ _ _ _ w); [done|].
  eapply wp_cut; [by apply (calm_consumers s), still_refl|]. intros _ s1 [[Hs1 Hr1] _].
  destruct (heap_still s s1 p r Hr1 Hp) as (r1 & Hp1 & Hsh1). pose proof Hr1 as ((_ & Hkn1 & _) & _).
  destruct (Hb p (shape r) (tops_lookup _ p r Hp)) as (Hkw & Hkt & Hlit).
  destruct (proj2 (Hkn1 _) Hkw) as [ow How]. apply (window_wp _ _ _ _ ow); [done|].
  set (i := (if _ : bool then _ else _) <| TransientWindow.centered := _ |>).
  set (r2 := r1 <| ToplevelWindow.transients_ := <[tr := i]> (ToplevelWindow.transients_ r1) |>). set (s2 := set_top p r2 s1).
  apply (wp_cut _ _ (fun _ s' => s' = s2)).
  { apply (top_wp _ _ _ _ r1); [done|]. apply wp_modify. reflexivity. }
  intros _ ? ->.
  assert (toplevel_heap_ (lm s2) !! p = Some r2) as Hp2 by (unfold s2; rewrite set_top_eq; apply lookup_insert_eq).
  pose proof (ok_stacked (lm s) (c_lm s Hs) p r Hp) as Hst. pose proof (ok_stacked (lm s1) (c_lm s1 Hs1) p r1 Hp1) as Hst1.
  pose proof (shape_transients r r1 Hsh1) as Hdom.
  eapply wp_cut; [apply (find_under_wp _ _ _ _ r2 Hp2)|].
  { intros t Ht%(st_items r Hst). split; [unfold r2; rewrite dom_add_transient, Hdom; set_solver|].
    unfold known, s2, set_top. place. by apply Hkn1, Hkt. }
  intros under ? [-> Hunder].
  destruct (stack_grows r1 tr under (ToplevelWindow.stacked_transients_ r1)) as (st & Hrun & Hwf & Hit); [done|by rewrite Hdom| |done|].
  { intros u Hu. rewrite Hdom. by apply (st_items r Hst), Hunder. }
  set (r3 := r2 <| ToplevelWindow.stacked_transients_ := st |>). set (s3 := set_top p r3 s2).
  assert (stacked r3) as Hst3.
  { split; [done| |].
    - intros t. change (t ∈ Stacker.items st ↔ t ∈ dom (ToplevelWindow.transients_ r2)).
      unfold r2. rewrite dom_add_transient, Hit. set_solver.
    - intros f Hf. change (f ∈ dom (ToplevelWindow.transients_ r2)). unfold r2. rewrite dom_add_transient.
      apply elem_of_union_r. by apply (st_focus r1 Hst1). }
  set (r' := r <| ToplevelWindow.transients_ := <[tr := TransientWindow.new]> (ToplevelWindow.transients_ r) |>).
  destruct (tops_step s s1 s3 p r' r3) as [Hs3 Hg3]; [done|done| | |done|intros; unfold s3, s2, set_top; by place..|].
  { unfold s3. rewrite set_top_eq. unfold s2. rewrite set_top_eq. unfold with_top. cbn. by rewrite insert_insert_eq. }
  { unfold shape in Hsh1 |- *. injection Hsh1 as E1 E2 E3 E4. cbn. by rewrite !dom_insert_L, E1, E2, E3, E4. }
  assert (body s3) as Hb3.
  { apply (body_top s s3 p r'); [done|done|done| |].
    - intros t. unfold r'. rewrite dom_add_transient, elem_of_union, elem_of_singleton. intros [->|Ht]; [done|by apply Hkt].
    - intros Hf. by apply (bool_decide_unpack _), Is_true_true, Hlit. }
  assert (known tr s3 ∧ ∀ u, under = Some u → known u s3) as [Hk3 Hku].
  { destruct Hg3 as (_ & _ & Hg3 & _). split; [by apply Hg3|]. intros u Hu. apply Hg3, Hkt. by apply (st_items r Hst), Hunder. }
  assert (has0 s3 p tr) as Hhas.
  { exists (shape r'). rewrite (tops_same _ _ (proj1 (proj1 Hg3))). unfold tops, with_top. cbn. rewrite fmap_insert.
    split; [apply lookup_insert_eq|]. cbn. rewrite dom_insert_L. set_solver. }
  apply (wp_cut _ _ (fun _ s' => s' = s3)).
  { destruct under as [u|]; apply wp_run; exists (), s3; (split; [by apply (on_stack_run p _ () st s2 r2)|done]). }
  intros _ ? ->.
  match goal with |- wp ?m _ _ => assert (framed (still s3) rests m) as Hrest end.
  { apply framed_bind; [apply _|apply calm_SetPreferred; [done|by eapply has_present]|intros _].
    apply framed_bind; [apply _|by apply calm_MoveAndScaleTransientWindow|intros _].
    apply framed_bind; [apply _|apply calm_ApplyStacking; [done..|]|intros _].
    { intros o. destruct under as [u|]; [intros [= <-]; by apply Hku|]. destruct b; [|done]. intros [= <-].
      destruct Hg3 as (_ & _ & Hg3 & _). by apply Hg3. }
    apply framed_bind; [apply _|apply calm_on_window; [done|eauto with framed]|intros _].
    apply framed_bind; [apply _|apply calm_on_window; [done|eauto with framed]|intros _]. apply framed_ret, _. }
  eapply wp_mono; [by apply Hrest, still_refl|]. intros _ s' [[Hs' _] Hr']. split; [done|].
  split; [by eapply body_rests|by eapply goes_rests].
Qed.

(** *** A transient is removed *)

Lemma without_dom r tr : dom (delete tr (ToplevelWindow.transients_ r)) = dom (ToplevelWindow.transients_ r) ∖ {[tr]}.
Proof. apply dom_delete_L. Qed.
Lemma RemoveTransientWindow_wp p tr s r :
  calm_ok s → body s → toplevel_heap_ (lm s) !! p = Some r → tr ∈ dom (ToplevelWindow.transients_ r) →
  wp (Toplevel.RemoveTransientWindow self p tr)
     (fun _ s' => calm_ok s' ∧ body s' ∧
        goes (with_top p (r <| ToplevelWindow.transients_ := delete tr (ToplevelWindow.transients_ r) |>) (lm s)) s s') s.
Proof.
  intros Hs Hb Hp Htr. destruct (Hb p (shape r) (tops_lookup _ p r Hp)) as (Hkw & Hkt & Hlit).
  pose proof (Hkt tr Htr) as [w Hw]. unfold Toplevel.RemoveTransientWindow. apply (window_wp _ _ _ _ w); [done|].
  apply (top_wp _ _ _ _ r); [done|]. pose proof Htr as [i Hi]%elem_of_dom. rewrite Hi.
  eapply wp_cut; [by apply (calm_consumers s), still_refl|]. intros _ s1 [[Hs1 Hr1] _].
  destruct (heap_still s s1 p r Hr1 Hp) as (r1 & Hp1 & Hsh1). pose proof Hr1 as ((_ & Hkn1 & _) & _).
  pose proof (ok_stacked (lm s1) (c_lm s1 Hs1) p r1 Hp1) as Hst1. pose proof (shape_transients r r1 Hsh1) as Hdom.
  destruct (stacker_op_refines (ORemove tr) _ (st_wf r1 Hst1)) as (st & Hrun & Hwf & Hit). cbn in Hrun, Hit.
  set (r2 := r1 <| ToplevelWindow.stacked_transients_ := st |>). set (s2 := set_top p r2 s1).
  apply (wp_cut _ _ (fun _ s' => s' = s2)); [apply wp_run; exists (), s2; split; [by apply on_stack_run|done]|]. intros _ ? ->.
  assert (toplevel_heap_ (lm s2) !! p = Some r2) as Hp2 by (unfold s2; rewrite set_top_eq; apply lookup_insert_eq).
  set (r3 := r2 <| ToplevelWindow.transients_ := delete tr (ToplevelWindow.transients_ r2) |>). set (s3 := set_top p r3 s2).
  apply (wp_cut _ _ (fun _ s' => s' = s3)); [apply (top_wp _ _ _ _ r2); [done|]; by apply wp_modify|]. intros _ ? ->.
  assert (GetWindow tr s3 = GetWindow tr s1) as Hw3 by (unfold s3, s2, set_top; by place).
  destruct (proj2 (Hkn1 tr) (Hkt tr Htr)) as [w1 Hw1].
  eapply wp_cut; [apply (lm_window_wp _ tr s3 w1); [eauto with framed| |by rewrite Hw3]|].
  { unfold s3, s2, set_top. place. apply Hs1. }
  intros _ ? (w' & u & -> & Hsame & Hu & Hscr).
  replace (lm_world s3) with (lm_world s1) in Hscr by (unfold s3, s2, set_top; by place).
  set (s4 := set_lm_world u (set_window tr w' s3)).
  destruct (window_step s1 tr w1 w' u) as [Hs1' Hr1']; [done..|]. set (s1' := set_lm_world u (set_window tr w' s1)) in *.
  assert (lm s4 = with_top p r3 (lm s1')) as Hlm4.
  { unfold s4, s3, s1'. place. rewrite set_top_eq. unfold s2. rewrite set_top_eq. unfold with_top. cbn. by rewrite insert_insert_eq. }
  assert ((∀ x, GetWindow x s4 = GetWindow x s1') ∧ lm_world s4 = lm_world s1' ∧ key_bindings s4 = key_bindings s1') as (Hx4 & Hu4 & Hk4).
  { unfold s4, s1'. split; [intros x|split]; place; rewrite ?lp_win_win; unfold s3, s2, set_top; by place. }
  assert (rests s s1') as Hrs1' by by etransitivity.
  set (r' := r <| ToplevelWindow.transients_ := delete tr (ToplevelWindow.transients_ r) |>).
  assert (toplevel_heap_ (lm s4) !! p = Some r3) as Hp4 by (rewrite Hlm4; apply lookup_insert_eq).
  assert (∀ f, shape (r3 <| ToplevelWindow.transient_to_focus_ := f |>) = shape r') as Hsh.
  { intros f. unfold shape in Hsh1 |- *. injection Hsh1 as E1 E2 E3 E4. cbn. by rewrite !dom_delete_L, E1, E2, E3, E4. }
  assert (∀ f, (∀ t, f = Some t → t ∈ dom (ToplevelWindow.transients_ r1) ∧ t ≠ tr) →
            stacked (r3 <| ToplevelWindow.transient_to_focus_ := f |>)) as Hst.
  { intros f Hf. split; [done| |].
    - intros t. change (t ∈ Stacker.items st ↔ t ∈ dom (delete tr (ToplevelWindow.transients_ r1))).
      rewrite Hit, list_elem_of_filter, without_dom, (st_items r1 Hst1). set_solver.
    - intros t Ht. change (t ∈ dom (delete tr (ToplevelWindow.transients_ r1))). rewrite without_dom.
      destruct (Hf t Ht). set_solver. }
  assert (∀ s5, goes (with_top p r' (lm s)) s s5 → body s5) as Hbody.
  { intros s5 Hg. apply (body_top s s5 p r'); [done|done|done| |].
    - intros t. cbn. rewrite without_dom. intros Ht. apply Hkt. set_solver.
    - intros Hf. by apply (bool_decide_unpack _), Is_true_true, Hlit. }
  apply (top_wp _ _ _ _ r3); [done|]. case_decide as Hfocus.
  - set (r5 := r3 <| ToplevelWindow.transient_to_focus_ := None |>). set (s5 := set_top p r5 s4).
    apply (wp_cut _ _ (fun _ s' => s' = s5)); [apply (top_wp _ _ _ _ r3); [done|]; by apply wp_modify|]. intros _ ? ->.
    destruct (tops_step s s1' s5 p r' r5) as [Hs5 Hg5]; [done|done| |apply Hsh|by apply Hst|..].
    { unfold s5. rewrite set_top_eq, Hlm4. unfold with_top. cbn. by rewrite insert_insert_eq. }
    1-3: intros; unfold s5, set_top; place; done.
    assert (present s5 p) as Hpr.
    { exists (shape r'). rewrite (tops_same _ _ (proj1 (proj1 Hg5))). unfold tops, with_top. cbn.
      rewrite fmap_insert. apply lookup_insert_eq. }
    match goal with |- wp ?m _ _ => assert (framed (still s5) rests m) as Hrest end.
    { apply framed_bind; [apply _|by apply calm_FindTransientWindowToFocus; [apply Hbody|]|intros t].
      apply calm_SetPreferred; [by apply Hbody|done]. }
    eapply wp_mono; [by apply Hrest, still_refl|]. intros _ s' [[Hs' _] Hr']. split; [done|].
    assert (goes (with_top p r' (lm s)) s s') as Hg' by by eapply goes_rests. split; [by apply Hbody|done].
  - apply wp_ret. destruct (tops_step s s1' s4 p r' r3) as [Hs4 Hg4]; [done..| | |done|done|done|split; [done|split; [by apply Hbody|done]]].
    + rewrite <-(Hsh (ToplevelWindow.transient_to_focus_ r3)). by destruct r3.
    + assert (r3 = r3 <| ToplevelWindow.transient_to_focus_ := ToplevelWindow.transient_to_focus_ r3 |>) as -> by by destruct r3.
      apply Hst. intros t Ht. split; [by apply (st_focus r1 Hst1)|]. intros ->. done.
Qed.

(** *** A toplevel is constructed and destroyed *)

Lemma stacked_new win input : stacked (ToplevelWindow.initial win input self).
Proof.
  split; cbn; [apply well_formed_new| |done]. intros tr. rewrite dom_empty_L. unfold Stacker.items. cbn. set_solver.
Qed.
(** A new toplevel as it is in the end. *)
Definition new_top (win input : Z) : ToplevelWindow.t :=
  (ToplevelWindow.initial win input self) <| ToplevelWindow.gradient_actor_ := if FLAGS_lm_new_overview_mode then Some 0 else None |>.
Lemma calm_lit_gradient s p sh c : tops (lm s) !! p = Some sh → sh_lit sh = true →
  framed (still s) rests (Toplevel.gradient p c).
Proof.
  intros Hp Hl. unfold Toplevel.gradient. apply calm_top_bind; [by eexists|]. intros r Hr _.
  unfold at0 in Hr. rewrite Hp in Hr. injection Hr as ->. apply bool_decide_eq_true in Hl as [a ->].
  by apply calm_lm_world, quiet_actor.
Qed.
Lemma static_gradient_wp s s1 : still s s1 →
  wp (if FLAGS_lm_new_overview_mode then Toplevel.make_static_gradient else mret ())
     (fun _ s' => still s s' ∧ (FLAGS_lm_new_overview_mode = true → is_Some (static_gradient_texture_ (lm s')))) s1.
Proof.
  intros Hs. destruct FLAGS_lm_new_overview_mode; [|by apply wp_ret]. unfold Toplevel.make_static_gradient, get.
  apply wp_gets_bind. cbn [id]. destruct (static_gradient_texture_ _) as [t|] eqn:Et; [apply wp_ret; by rewrite Et|].
  eapply wp_cut; [apply (calm_lm_world s), Hs; apply quiet_extern; intros w; apply wm_new_image|].
  intros a s2 [[Hs2 Hr2] _].
  set (s3 := set_lm ((lm s2) <| static_gradient_texture_ := Some a |>) s2).
  destruct (lm_step s2 ((lm s2) <| static_gradient_texture_ := Some a |>)) as [Hs3 Hr3]; [done| | |done|].
  { destruct (c_lm s2 Hs2). by split. }
  { split; [done|]. split; [unfold fewer, dropped; auto|by eexists]. }
  apply (wp_cut _ _ (fun _ s' => s' = s3)); [by apply wp_modify|]. intros _ ? ->.
  assert (∀ c, framed (still s3) rests (actor a c)) as Hact by (intros c; by apply calm_lm_world, quiet_actor).
  match goal with |- wp ?m _ _ => assert (framed (still s3) rests m) as Hrest end.
  { do 2 (apply framed_bind; [apply _|apply Hact|intros _]). apply Hact. }
  eapply wp_mono; [by apply Hrest, still_refl|]. intros _ s4 [[Hs4 Hr4] _]. split.
  - split; [done|]. etransitivity; [apply Hr2|]. by etransitivity.
  - intros _. destruct Hr4 as (((_ & _ & Hst) & _) & _). apply Hst. unfold s3. place. by eexists.
Qed.
(** The new gradient. *)
Lemma make_gradient_wp s p : calm_ok s → is_Some (static_gradient_texture_ (lm s)) → is_Some (toplevel_heap_ (lm s) !! p) →
  wp (Toplevel.make_gradient p)
     (fun _ s' => calm_ok s' ∧ ∃ r r', toplevel_heap_ (lm s) !! p = Some r ∧
        shape r' = shape (r <| ToplevelWindow.gradient_actor_ := Some 0 |>) ∧ goes (with_top p r' (lm s)) s s') s.
Proof.
  intros Hs [t Ht] [r Hp]. unfold Toplevel.make_gradient, get. apply wp_gets_bind. cbn [id]. rewrite Ht.
  eapply wp_cut; [apply (calm_lm_world s); [|by apply still_refl]; apply quiet_extern; intros w; apply lh_clone|].
  intros a s1 [[Hs1 Hr1] _]. destruct (heap_still s s1 p r Hr1 Hp) as (r1 & Hp1 & Hsh1).
  set (r2 := r1 <| ToplevelWindow.gradient_actor_ := Some a |>). set (s2 := set_top p r2 s1).
  set (r' := r <| ToplevelWindow.gradient_actor_ := Some 0 |>).
  destruct (tops_step s s1 s2 p r' r2) as [Hs2 Hg2]; [done|done|by apply set_top_eq| | |intros; unfold s2, set_top; by place..|].
  { unfold shape in Hsh1 |- *. injection Hsh1 as E1 E2 E3 E4. cbn. by rewrite E1, E2, E3. }
  { destruct (ok_stacked (lm s1) (c_lm s1 Hs1) p r1 Hp1). by split. }
  apply (wp_cut _ _ (fun _ s' => s' = s2)); [apply (top_wp _ _ _ _ r1); [done|]; by apply wp_modify|]. intros _ ? ->.
  assert (∀ c, framed (still s2) rests (Toplevel.gradient p c)) as Hact.
  { intros c. apply (calm_lit_gradient s2 p (shape r')); [|done]. rewrite (tops_same _ _ (proj1 (proj1 Hg2))). unfold tops, with_top. cbn.
    rewrite fmap_insert. apply lookup_insert_eq. }
  match goal with |- wp ?m _ _ => assert (framed (still s2) rests m) as Hrest end.
  { do 3 (apply framed_bind; [apply _|apply Hact|intros _]). apply Hact. }
  eapply wp_mono; [by apply Hrest, still_refl|]. intros _ s' [[Hs' _] Hr']. split; [done|]. exists r, r'.
  split; [done|]. split; [done|]. by eapply goes_rests.
Qed.

Lemma same_with_tops m m' p r r' r1 : same_lm (with_top p r m) m' → shape r1 = shape r' →
  same_lm (with_top p r' m) (with_top p r1 m').
Proof.
  intros (Hb & Hf & Hst) Hr. split; [|by split]. unfold bones, tops, with_top in *. injection Hb as E1 E2 E3 E4. cbn in *.
  rewrite !fmap_insert, Hr, E1, E3, E4, E2, fmap_insert. by rewrite insert_insert_eq.
Qed.
Lemma toplevel_construct_wp p win s : calm_ok s → known win s → toplevel_heap_ (lm s) !! p = None →
  wp (Toplevel.construct sm self p win)
     (fun _ s' => calm_ok s' ∧ ∃ input, ¬ wm_used input (lm_world s) ∧ wm_used input (lm_world s') ∧
        goes (with_top p (new_top win input) (lm s)) s s') s.
Proof.
  intros Hs Hk Hp. pose proof Hk as [w Hw]. unfold Toplevel.construct. apply (window_wp _ _ _ _ w); [done|].
  eapply (wp_cut _ _ (fun input s1 => ∃ u, s1 = set_lm_world u s ∧ wm_ok u ∧ same_screen (lm_world s) u ∧
                       ¬ wm_used input (lm_world s) ∧ wm_used input u)).
  { apply wp_zoom. eapply wp_mono; [apply CreateInputWindow_wp, Hs|]. intros input u ((? & ?) & _ & ? & ?). by exists u. }
  intros input ? (u & -> & Hu & Hscr & Hfresh & Hused). destruct (lm_world_step s u) as [Hs1 Hr1]; [done..|].
  set (s1 := set_lm_world u s) in *. set (r2 := ToplevelWindow.initial win input self). set (s2 := set_top p r2 s1).
  destruct (tops_step s s1 s2 p r2 r2) as [Hs2 Hg2]; [done|done|by apply set_top_eq|done|apply stacked_new|intros; unfold s2, set_top; by place..|].
  assert (lm_world s2 = u) as Hu2 by (unfold s2, s1, set_top; by place).
  apply (wp_cut _ _ (fun _ s' => s' = s2)); [by apply wp_modify|]. intros _ ? ->.
  assert (present s2 p) as Hpr by (exists (shape r2); unfold s2; rewrite set_top_eq; apply tops_lookup, lookup_insert_eq).
  assert (known win s2) as Hk2 by (by apply Hg2).
  assert (∀ A (m : M (Window.t * W) A), renaming m → framed (still s2) rests (on_window win m)) as Hon
    by (intros; by apply calm_on_window).
  eapply wp_cut; [by apply (calm_registrar s2), still_refl|]. intros _ s3 [Hs3 _].
  eapply wp_cut; [by apply (calm_registrar s2)|]. intros _ s4 [Hs4 _].
  eapply wp_cut; [by apply (static_gradient_wp s2)|]. intros _ s5 [Hs5 Hst5].
  apply wp_gets_bind. cbn [id].
  set (ready := fun s' : S => still s2 s' ∧ (FLAGS_lm_new_overview_mode = true → is_Some (static_gradient_texture_ (lm s')))).
  assert (∀ A (m : M S A), framed (still s2) rests m → ∀ s', ready s' → wp m (fun _ => ready) s') as Hready.
  { intros A m Hm s' [Hs' Hst']. eapply wp_mono; [by apply Hm|]. intros a s6 [Hs6 (((_ & _ & Hmono) & _) & _)].
    split; [done|auto]. }
  assert (ready s5) as Hs5' by done.
  eapply wp_cut; [apply Hready; [apply (calm_size_for s2); [done|apply Hs5]|done]|]. intros size s6 Hs6. cbv beta in Hs6.
  eapply wp_cut; [apply Hready; [apply Hon; eauto with framed|done]|]. intros a7 s7 Hs7. cbv beta in Hs7.
  eapply wp_cut; [apply Hready; [by apply calm_lm_world, quiet_StackXidAtTopOfLayer|done]|]. intros a8 s8 Hs8. cbv beta in Hs8.
  do 5 (eapply wp_cut; [apply Hready; [apply Hon; eauto with framed|eassumption]|]; let Hs := fresh "Hs" in intros ? ? Hs; cbv beta in Hs).
  match goal with H : ready ?s9 |- wp _ _ ?s9 => destruct H as [[Hready_ok Hready_r] Hready_st]; rename s9 into s10 end.
  assert (goes (with_top p r2 (lm s)) s s10) as Hg10 by by eapply goes_rests.
  assert (∃ r, toplevel_heap_ (lm s10) !! p = Some r ∧ shape r = shape r2) as (r & Hp10 & Hsh10).
  { apply tops_lookup_inv. rewrite (tops_same _ _ (proj1 (proj1 Hg10))). unfold tops, with_top. cbn. rewrite fmap_insert.
    apply lookup_insert_eq. }
  assert (wm_used input (lm_world s10)) as Hu10.
  { destruct Hready_r as ((_ & _ & (_ & _ & Hmono)) & _). apply Hmono. by rewrite Hu2. }
  unfold new_top. destruct FLAGS_lm_new_overview_mode.
  - eapply wp_mono; [apply make_gradient_wp; [done|by apply Hready_st|by eexists]|]. intros _ sf (Hsf & r' & r3 & Hr' & Hsh & Hg').
    rewrite Hp10 in Hr'. injection Hr' as <-. split; [done|]. exists input. split; [done|].
    destruct Hg10 as (E1 & E2 & E3 & E4 & E5), Hg' as (F1 & F2 & F3 & F4 & F5). split; [by apply F4|].
    split; [etransitivity; [|exact F1]; apply (same_with_tops _ _ _ r2); [done|]|].
    { unfold shape in Hsh, Hsh10 |- *. cbn in *. injection Hsh10 as G1 G2 G3 G4. by rewrite Hsh, G1, G2, G3. }
    split; [rewrite F2; exact E2|]. split; [intros x; by rewrite F3, E3|]. split; [by etransitivity|congruence].
  - apply wp_ret. split; [done|]. exists input. split; [done|]. split; [done|]. by replace (_ <| _ := None |>) with r2.
Qed.
(** A toplevel that has no transients is destroyed. *)
Lemma toplevel_destroy_wp p s r : calm_ok s → toplevel_heap_ (lm s) !! p = Some r → known (ToplevelWindow.win_ r) s →
  ToplevelWindow.transients_ r = ∅ →
  wp (Toplevel.destroy self p)
     (fun _ s' => calm_ok s' ∧ goes ((lm s) <| toplevel_heap_ := delete p (toplevel_heap_ (lm s)) |>) s s') s.
Proof.
  intros Hs Hp Hk Hnone. unfold Toplevel.destroy. apply (top_wp _ _ _ _ r); [done|].
  assert (present s p) as Hpr by (exists (shape r); by apply tops_lookup).
  assert (ToplevelWindow.transients_in_order r = []) as Horder.
  { unfold ToplevelWindow.transients_in_order. rewrite Hnone, dom_empty_L, elements_empty. done. }
  apply (wp_cut _ _ (fun _ s' => s' = s)).
  { cbn [loop]. unfold Toplevel.destroy_step. apply wp_bind, (top_wp _ _ _ _ r); [done|]. rewrite Horder. apply wp_ret. by apply wp_ret. }
  intros _ ? ->. apply (top_wp _ _ _ _ r); [done|].
  eapply wp_cut; [by apply (calm_lm_world s); [apply quiet_x_do|apply still_refl]|]. intros _ s1 [Hs1 _].
  eapply wp_cut; [apply (calm_on_window s); [done|eauto with framed|done]|]. intros _ s2 [Hs2 _].
  eapply wp_cut; [by apply (calm_registrar s)|]. intros _ s3 [Hs3 _].
  eapply (wp_cut _ _ (fun _ => still s)).
  { destruct (ToplevelWindow.gradient_actor_ r); [|by apply wp_ret].
    eapply wp_mono; [by apply (calm_lm_world s); [apply quiet_actor|]|]. by intros _ s' [? _]. }
  intros _ s4 [Hs4 Hr4]. apply wp_modify. set (m := _ <| toplevel_heap_ := _ |>).
  destruct Hr4 as (((Hb & Hf & Hst) & Hkn & Hscr) & Hmode & Hkb). split.
  - apply (calm_ok_alike s4); [done| |intros; by place..]. place. destruct (c_lm s4 Hs4) as [E1 E2 E3 E4 E5 E6 E7].
    split; try done. intros q rq. cbn. rewrite lookup_delete_Some. intros [_ Hq]. by apply (E1 q).
  - split; [|split; [by place|split; [intros x; unfold known; place; apply Hkn|by place]]]. place.
    split; [|by split]. unfold bones, tops in *. injection Hb as E1 E2 E3 E4. cbn. by rewrite !fmap_delete, E1, E2, E3, E4.
Qed.
End toplevels.

#[export] Hint Resolve known_win known_has calm_lm_x calm_lm_actor calm_GetCurrentTimeFromServer calm_SetActiveWindowProperty
  renaming_above renaming_below calm_UpdateOverviewScaling calm_MoveAndScaleTransientWindow calm_MoveAndScaleAll
  calm_TakeFocus calm_SetPreferred calm_IsWindowOrTransientFocused calm_HandleTransientWindowConfigureRequest
  calm_HandleButtonPress calm_set_state calm_ConfigureForActiveMode calm_ConfigureForOverviewMode : framed.
#[export] Hint Extern 1 (framed _ _ (StackingManager.StackWindowAtTopOfLayer _ _)) =>
  solve [apply renaming_at_layer; first [assumption | done]] : framed.
