(* ===== verification/LayoutSafe.v ===== *)
(** * The layout manager's operations do not fail (LayoutManager.v).

    [core] says that the layout manager's books are right.  From a state with right
    books, every operation that neither changes the mode nor maps or unmaps a window
    leaves them alone without faulting. *)

From stdpp Require Import sorting.
From S2P Require Import Prelude Hoare WmUtil KeyBindings XConnection WmIpc Double Window WmEvents Panel WmFrame.
From S2P Require Import Toplevel LayoutManager LayoutFrame ToplevelSafe.
Import LayoutManager LayoutRef Layout.

(** A coalescer whose callback keeps an invariant. *)
Section coalescer.
Context {S : Type} (I : S → Prop) (R : S → S → Prop) `{!PreOrder R}.
Variable field : S → MotionEventCoalescer.t.
Variable set_field : MotionEventCoalescer.t → S → S.
Variable cb : M S unit.
Variable timeout_add : Z → M S Z.
Variable source_remove : Z → M S unit.
Hypothesis Hset : ∀ s c, I s → MotionEventCoalescer.synchronous_ c = MotionEventCoalescer.synchronous_ (field s) →
  I (set_field c s) ∧ R s (set_field c s).
Hypothesis Hcb : framed I R cb.
Hypothesis Hadd : ∀ ms, framed I R (timeout_add ms).
Hypothesis Hremove : ∀ id, framed I R (source_remove id).

Lemma coalescer_upd f :
  (∀ c, MotionEventCoalescer.synchronous_ (f c) = MotionEventCoalescer.synchronous_ c) →
  framed I R (MotionEventCoalescer.upd field set_field f).
Proof. intros Hf. apply framed_modify. intros s Hs. by apply Hset. Qed.
#[local] Hint Extern 1 (framed _ _ (MotionEventCoalescer.upd _ _ _)) => by apply coalescer_upd; intros [] : framed.
#[local] Hint Resolve Hcb Hadd Hremove : framed.
Lemma coalescer_HandleTimer : framed I R (MotionEventCoalescer.HandleTimer field set_field cb).
Proof. unfold MotionEventCoalescer.HandleTimer. frame. Qed.
#[local] Hint Resolve coalescer_HandleTimer : framed.
Lemma coalescer_Start : framed I R (MotionEventCoalescer.Start field set_field timeout_add).
Proof. unfold MotionEventCoalescer.Start. frame. Qed.
Lemma coalescer_Stop : framed I R (MotionEventCoalescer.Stop field set_field cb source_remove).
Proof. unfold MotionEventCoalescer.Stop, MotionEventCoalescer.StopInternal. frame. Qed.
Lemma coalescer_StorePosition px py : framed I R (MotionEventCoalescer.StorePosition field set_field cb px py).
Proof. unfold MotionEventCoalescer.StorePosition. frame. Qed.
End coalescer.

Section layout.
Context `{Build} `{LayoutFlags} {W : Type} `{WmHost W} `{KeyGrabs W} `{LayoutHost W} `{!LayoutHostLaws W}.
Context {S : Type} `{LayoutStore S W} `{!LayoutPlace S W}.
Variable sm : StackingManager.t.
Hypothesis Hsm : layers_ok sm.
Variable self : Z.
Variable wm_TakeFocus : M S unit.

(** The books of the layout manager are right. *)
Record core (s : S) : Prop := {
  k_body : body s;
  k_heap p : p ∈ toplevels_ (lm s) ↔ is_Some (tops (lm s) !! p);
  k_nodup : NoDup (toplevels_ (lm s));
  k_apart p q sh sh' : tops (lm s) !! p = Some sh → tops (lm s) !! q = Some sh' → sh_win sh = sh_win sh' → p = q;
  k_used p sh : tops (lm s) !! p = Some sh → wm_used (sh_input sh) (lm_world s);
  k_input x p : input_to_toplevel_ (lm s) !! x = Some p ↔ ∃ sh, tops (lm s) !! p = Some sh ∧ sh_input sh = x;
  k_transient x p : transient_to_toplevel_ (lm s) !! x = Some p ↔ ∃ sh, tops (lm s) !! p = Some sh ∧ x ∈ sh_transients sh;
  k_tab x : floating_tab_ (lm s) = Some x → known x s;
  k_summary x : tab_summary_ (lm s) = Some x → known x s;
  k_create x : create_browser_window_ (lm s) = Some x → known x s
}.
Lemma core_turns s s' : core s → turns s s' → core s'.
Proof.
  intros [E1 E2 E3 E4 E5 E6 E7 E8 E9 E10] Ht. pose proof Ht as ((Hb & (F1 & F2 & F3) & _) & Hk & (_ & _ & Hu)).
  unfold bones in Hb. injection Hb as G1 G2 G3 G4. split; rewrite ?G1, ?G2, ?G3, ?G4; try done; try by eauto.
  - by apply (body_turns s).
  - intros x Hx. apply Hk. auto.
  - intros x Hx. apply Hk. auto.
  - intros x Hx. apply Hk. auto.
Qed.
Hypothesis wm_focus_calm : ∀ s0, core s0 → framed (still s0) rests wm_TakeFocus.

Section anchored.
Variable s0 : S.
Hypothesis Hcore : core s0.
Abbreviation calm := (framed (still s0) rests).
Abbreviation present := (LayoutFrame.present s0).
Abbreviation at0 := (LayoutFrame.at0 s0).
Definition listed (p : Z) : Prop := p ∈ toplevels_ (lm s0).

Lemma core_body : body s0.
Proof. apply Hcore. Qed.
Lemma listed_present p : listed p → present p.
Proof. apply Hcore. Qed.
Lemma present_listed p : present p → listed p.
Proof. apply Hcore. Qed.
#[local] Hint Resolve core_body listed_present : framed.
Lemma listed_now m p : same_lm (lm s0) m → p ∈ toplevels_ m → listed p.
Proof. intros Hm Hp. unfold listed. by rewrite <-(toplevels_same (lm s0) m) by apply Hm. Qed.
Lemma known_tab m x : same_lm (lm s0) m → floating_tab_ m = Some x → known x s0.
Proof. intros (_ & (Hf & _) & _) Hx. by apply (k_tab s0 Hcore), Hf. Qed.
Lemma known_summary m x : same_lm (lm s0) m → tab_summary_ m = Some x → known x s0.
Proof. intros (_ & (_ & Hf & _) & _) Hx. by apply (k_summary s0 Hcore), Hf. Qed.
Lemma known_create m x : same_lm (lm s0) m → create_browser_window_ m = Some x → known x s0.
Proof. intros (_ & (_ & _ & Hf) & _) Hx. by apply (k_create s0 Hcore), Hf. Qed.
Lemma active_listed m p : lm_ok m → same_lm (lm s0) m → active_toplevel_ m = Some p → listed p.
Proof. intros Hok Hm Hp. eapply listed_now; [done|by apply (ok_active m Hok)]. Qed.
Lemma magnified_listed m p : lm_ok m → same_lm (lm s0) m → magnified_toplevel_ m = Some p → listed p.
Proof. intros Hok Hm Hp. eapply listed_now; [done|by apply (ok_magnified m Hok)]. Qed.
Lemma under_listed m p : lm_ok m → same_lm (lm s0) m → toplevel_under_floating_tab_ m = Some p → listed p.
Proof. intros Hok Hm Hp. eapply listed_now; [done|by apply (ok_under m Hok)]. Qed.
#[local] Hint Resolve known_tab known_summary known_create active_listed magnified_listed under_listed listed_now : framed.

(** Changing fields that are not the books. *)
Lemma calm_set f : (∀ m, lm_ok m → same_lm (lm s0) m →
    toplevels_ (f m) = toplevels_ m ∧ toplevel_heap_ (f m) = toplevel_heap_ m ∧
    input_to_toplevel_ (f m) = input_to_toplevel_ m ∧ transient_to_toplevel_ (f m) = transient_to_toplevel_ m ∧
    fewer m (f m) ∧ static_gradient_texture_ (f m) = static_gradient_texture_ m ∧ mode_ (f m) = mode_ m ∧ lm_ok (f m)) →
  calm (upd f).
Proof.
  intros Hf. apply calm_lm_upd. intros m Hok Hm. destruct (Hf m Hok Hm) as (E1 & E2 & E3 & E4 & E5 & E6 & E7 & E8).
  split; [done|]. split; [|done]. split; [unfold bones, tops; by rewrite E1, E2, E3, E4|]. split; [done|by rewrite E6].
Qed.
Ltac keep_books :=
  apply calm_set; let m := fresh "m" in let Hok := fresh "Hok" in let Hm := fresh "Hm" in
  intros m Hok Hm; pose proof Hok as [??????]; do 4 (split; [done|]); split; [by unfold fewer, dropped; cbn; auto|];
  do 2 (split; [done|]); split; cbn; try done.
(** *** Finding windows *)

Lemma find_toplevel_wp x ps s : (∀ p, p ∈ ps → is_Some (toplevel_heap_ (lm s) !! p)) →
  wp (find_toplevel x ps)
     (fun o s' => s' = s ∧
        match o with
        | Some p => p ∈ ps ∧ ∃ r, toplevel_heap_ (lm s) !! p = Some r ∧ ToplevelWindow.win_ r = x
        | None => ∀ p r, p ∈ ps → toplevel_heap_ (lm s) !! p = Some r → ToplevelWindow.win_ r ≠ x
        end) s.
Proof.
  induction ps as [|p ps IH]; intros Hps; cbn; [apply wp_ret; split; [done|]; by intros p r ?%elem_of_nil|].
  destruct (Hps p) as [r Hr]; [by left|]. apply (top_wp _ _ _ _ r); [done|]. destruct (Z.eqb_spec (ToplevelWindow.win_ r) x) as [Hx|Hx].
  - apply wp_ret. split; [done|]. split; [by left|by exists r].
  - eapply wp_mono; [apply IH; intros q Hq; apply Hps; by right|]. intros [q|] s' [-> Hq]; (split; [done|]).
    + destruct Hq as [? ?]. split; [by right|done].
    + intros q rq [->|Hin]%elem_of_cons Hrq; [congruence|by apply (Hq q)].
Qed.
Lemma listed_heap s p : rests s0 s → p ∈ toplevels_ (lm s) → is_Some (toplevel_heap_ (lm s) !! p).
Proof.
  intros Hr Hp. destruct (look s0 p s Hr) as (r & Hr1 & _); [|by exists r].
  apply listed_present. apply (listed_now (lm s)); [apply Hr|done].
Qed.
Lemma calm_find_bind {A} x (k : option Z → M S A) :
  (∀ p r, listed p → at0 p r → ToplevelWindow.win_ r = x → calm (k (Some p))) → calm (k None) →
  calm (GetToplevelWindowByWindow x ≫= k).
Proof.
  intros Hk Hn s [Hs Hr]. unfold GetToplevelWindowByWindow. apply wp_bind. unfold get. apply wp_gets_bind.
  eapply wp_mono; [apply find_toplevel_wp; intros p; by apply listed_heap|]. intros o ? [-> Ho]. destruct o as [p|]; [|by apply Hn].
  destruct Ho as (Hp & r & Hr1 & Hx). apply (Hk p r); [by eapply listed_now; [apply Hr|]| |done|by split].
  destruct (look s0 p s Hr) as (r' & Hr1' & Hat); [apply listed_present; by eapply listed_now; [apply Hr|]|]. congruence.
Qed.
Lemma owned_has m x p : same_lm (lm s0) m → transient_to_toplevel_ m !! x = Some p → has0 s0 p x.
Proof.
  intros (Hb & _) Hx. assert (transient_to_toplevel_ m = transient_to_toplevel_ (lm s0)) as E by (unfold bones in Hb; congruence).
  rewrite E in Hx. apply (k_transient s0 Hcore) in Hx as (sh & Hsh & Hin). by exists sh.
Qed.
Lemma calm_toplevel_for_bind {A} x (k : option Z → M S A) :
  (∀ p r, listed p → at0 p r → x = ToplevelWindow.win_ r ∨ has0 s0 p x → calm (k (Some p))) → calm (k None) →
  calm (toplevel_for x ≫= k).
Proof.
  intros Hk Hn s Hs. unfold toplevel_for. apply wp_bind, wp_gets_bind.
  destruct (GetToplevelWindowOwningTransientWindow x (lm s)) as [p|] eqn:Ep.
  - apply wp_ret. assert (has0 s0 p x) as Hhas by (eapply owned_has; [apply Hs|done]).
    destruct (has_present s0 p x Hhas) as [sh Hsh]. destruct (tops_lookup_inv _ p sh Hsh) as (r & _ & Hr).
    apply (Hk p r); [by apply present_listed; exists sh|unfold LayoutFrame.at0; by rewrite Hr|by right|done].
  - apply wp_bind_inv. apply (calm_find_bind x k); [|done|done]. intros p r ? ? <-. by apply (Hk p r); [..|left].
Qed.
Lemma calm_input {A} x (k : option Z → M S A) m : same_lm (lm s0) m →
  (∀ p, listed p → calm (k (Some p))) → calm (k None) → calm (k (GetToplevelWindowByInputXid x m)).
Proof.
  intros (Hb & _) Hk Hn. unfold GetToplevelWindowByInputXid.
  assert (input_to_toplevel_ m = input_to_toplevel_ (lm s0)) as -> by (unfold bones in Hb; congruence).
  destruct (input_to_toplevel_ (lm s0) !! x) as [p|] eqn:Ep; [|done]. apply Hk.
  apply (k_input s0 Hcore) in Ep as (sh & Hsh & _). apply present_listed. by exists sh.
Qed.

(** *** Messages *)

Lemma calm_send x type params : calm (send x type params).
Proof.
  unfold send. apply framed_bind; [apply _|apply calm_lm_world, quiet_SendMessage|intros _; apply framed_ret, _].
  unfold WmIpc.Message.max_params, zlen. cbn. rewrite length_take. lia.
Qed.
#[local] Hint Resolve calm_send : framed.
Lemma calm_chrome_toplevel o : (∀ p, o = Some p → listed p) → calm (chrome_toplevel o).
Proof. intros Ho. unfold chrome_toplevel. destruct o as [p|]; [|calmly]. assert (listed p) by by apply Ho. calmly. Qed.
#[local] Hint Resolve calm_chrome_toplevel : framed.
Lemma calm_SendTabSummaryMessage o b : (∀ p, o = Some p → listed p) → calm (SendTabSummaryMessage o b).
Proof.
  intros Ho. unfold SendTabSummaryMessage. apply framed_bind; [apply _|by apply calm_chrome_toplevel|intros c].
  destruct o as [p|]; [|calmly]. assert (listed p) by by apply Ho. calmly.
Qed.
Lemma calm_SendModeMessage o : (∀ p, o = Some p → listed p) → calm (SendModeMessage o).
Proof. intros Ho. unfold SendModeMessage. apply framed_bind; [apply _|by apply calm_chrome_toplevel|intros c]. calmly. Qed.
#[local] Hint Resolve calm_SendTabSummaryMessage : framed.
Lemma listed_is p q : listed p → Some p = Some q → listed q.
Proof. by intros ? [= <-]. Qed.
Lemma listed_none q : None = Some q → listed q.
Proof. done. Qed.
#[local] Hint Resolve listed_is listed_none : framed.
Lemma calm_SetMagnifiedToplevelWindow o : (∀ p, o = Some p → listed p) → calm (SetMagnifiedToplevelWindow o).
Proof.
  intros Ho. unfold SetMagnifiedToplevelWindow. apply calm_get_bind. intros m Hok Hm.
  case_decide; [calmly|]. apply framed_bind; [apply _|calmly|intros _]. keep_books. intros p Hp.
  rewrite (toplevels_same (lm s0)) by apply Hm0. by apply Ho.
Qed.

(** *** Laying windows out *)

#[local] Hint Resolve calm_SetMagnifiedToplevelWindow : framed.
Lemma calm_configure_active b saw ps : (∀ p, p ∈ ps → listed p) → calm (configure_active sm b saw ps).
Proof.
  revert saw. induction ps as [|p ps IH]; intros saw Hps; cbn; [calmly|]. apply calm_get_bind. intros m _ _.
  assert (listed p) by (apply Hps; by left). apply framed_bind; [apply _|eauto with framed|intros _]. apply IH.
  intros q Hq. apply Hps. by right.
Qed.
Lemma calm_LayoutForActiveMode b : calm (LayoutToplevelWindowsForActiveMode sm b).
Proof.
  unfold LayoutToplevelWindowsForActiveMode. apply calm_get_bind. intros m Hok Hm.
  cbn [id].
  destruct (toplevels_ m) as [|first l] eqn:El; [calmly|].
  assert (∀ p, p ∈ first :: l → listed p) as Hl by (intros p Hp; rewrite <-El in Hp; by apply (listed_now m)).
  apply framed_bind; [apply _| |intros _; by apply calm_configure_active].
  case_bool_decide; [|calmly]. keep_books. intros p [= <-].
  rewrite (toplevels_same (lm s0)) by apply Hm0. apply Hl. by left.
Qed.
Lemma calm_place p a b : present p → calm (upd_top p (ToplevelWindow.UpdateOverviewPosition a b)).
Proof. intros Hp. apply calm_upd_top; [done|]. intros r Hr [E1 E2 E3]. split; [by split|by destruct r]. Qed.
#[local] Hint Resolve calm_LayoutForActiveMode calm_place : framed.
Lemma calm_set_panning f : calm (upd (fun m => m <| overview_panning_offset_ := f m |>)).
Proof. keep_books. Qed.
#[local] Hint Resolve calm_set_panning : framed.
Lemma calm_set_panning_to z : calm (upd (fun m => m <| overview_panning_offset_ := z |>)).
Proof. apply (calm_set_panning (fun _ => z)). Qed.
#[local] Hint Resolve calm_set_panning_to : framed.
Lemma calm_place_overlapping a b c d ps : (∀ p, p ∈ ps → listed p) → calm (place_overlapping a b c d ps).
Proof.
  revert d. induction ps as [|p ps IH]; intros d Hps; cbn; [calmly|]. assert (listed p) by (apply Hps; by left).
  assert (∀ d, calm (place_overlapping a b c d ps)) by (intros; apply IH; intros q Hq; apply Hps; by right). calmly.
Qed.
Lemma calm_scale_unmagnified a b ps : (∀ p, p ∈ ps → listed p) → calm (scale_unmagnified a b ps).
Proof.
  induction ps as [|p ps IH]; intros Hps; cbn; [calmly|]. assert (listed p) by (apply Hps; by left).
  assert (calm (scale_unmagnified a b ps)) by (apply IH; intros q Hq; apply Hps; by right). calmly.
Qed.
Lemma calm_sum_widths z ps : (∀ p, p ∈ ps → listed p) → calm (sum_widths z ps).
Proof.
  revert z. induction ps as [|p ps IH]; intros z Hps; cbn; [calmly|]. assert (listed p) by (apply Hps; by left).
  assert (∀ z, calm (sum_widths z ps)) by (intros; apply IH; intros q Hq; apply Hps; by right). calmly.
Qed.
Lemma calm_place_side_by_side a b ps : (∀ p, p ∈ ps → listed p) → calm (place_side_by_side a b ps).
Proof.
  revert b. induction ps as [|p ps IH]; intros b Hps; cbn; [calmly|]. assert (listed p) by (apply Hps; by left).
  assert (∀ b, calm (place_side_by_side a b ps)) by (intros; apply IH; intros q Hq; apply Hps; by right). calmly.
Qed.
Lemma calm_create_browser_width : calm create_browser_width.
Proof. unfold create_browser_width. calmly. Qed.
#[local] Hint Resolve calm_create_browser_width : framed.
Lemma calm_CalculatePositions a : calm (CalculatePositionsForOverviewMode a).
Proof.
  unfold CalculatePositionsForOverviewMode. apply calm_get_bind. intros m Hok Hm. cbn [id].
  assert (∀ p, p ∈ toplevels_ m → listed p) as Hl by (intros p Hp; by apply (listed_now m)).
  case_decide; [calmly|]. destruct FLAGS_lm_new_overview_mode; [by apply calm_place_overlapping|].
  apply framed_bind; [apply _|calmly|intros _]. apply framed_bind; [apply _|calmly|intros create].
  apply framed_bind; [apply _|calmly|intros total].
  apply framed_bind; [apply _|by apply calm_scale_unmagnified|intros _].
  apply framed_bind; [apply _|by apply calm_sum_widths|intros used]. by apply calm_place_side_by_side.
Qed.
Lemma calm_configure_overview b o ps : (∀ p, p ∈ ps → listed p) → (∀ p, o = Some p → listed p) →
  calm (configure_overview sm b o ps).
Proof.
  revert o. induction ps as [|p ps IH]; intros o Hps Ho; cbn; [calmly|]. apply calm_get_bind. intros m _ _.
  assert (listed p) by (apply Hps; by left). apply framed_bind; [apply _|eauto 6 with framed|intros _]. apply IH.
  - intros q Hq. apply Hps. by right.
  - by intros q [= <-].
Qed.
Lemma calm_ConfigureWindows b : calm (ConfigureWindowsForOverviewMode sm b).
Proof.
  unfold ConfigureWindowsForOverviewMode. apply calm_get_bind. intros m Hok Hm. cbn [id].
  apply framed_bind; [apply _|apply calm_configure_overview; [|done]|intros _; calmly].
  intros p Hp. rewrite elem_of_reverse in Hp. by apply (listed_now m).
Qed.
#[local] Hint Resolve calm_CalculatePositions calm_ConfigureWindows : framed.
Lemma calm_LayoutForOverviewMode a : calm (LayoutToplevelWindowsForOverviewMode sm a).
Proof. unfold LayoutToplevelWindowsForOverviewMode. calmly. Qed.
#[local] Hint Resolve calm_LayoutForOverviewMode : framed.
Lemma calm_layout_at_middle : calm (layout_overview_at_middle sm).
Proof. unfold layout_overview_at_middle. calmly. Qed.
#[local] Hint Resolve calm_layout_at_middle : framed.
Lemma calm_set_active p : listed p → calm (upd (fun m => m <| active_toplevel_ := Some p |>)).
Proof. intros Hp. keep_books. intros q [= <-]. by rewrite (toplevels_same (lm s0)) by apply Hm. Qed.
#[local] Hint Resolve calm_set_active : framed.

(** *** Active mode, magnified windows, cycling *)

Lemma calm_set_states p o a b : listed p → (∀ q, o = Some q → listed q) →
  calm ((match o with Some old => Toplevel.set_state old b | None => mret () end);; Toplevel.set_state p a).
Proof. intros Hp Ho. destruct o as [q|]; [assert (listed q) by by apply Ho|]; calmly. Qed.
Lemma calm_SetActiveToplevelWindow p a b : listed p → calm (SetActiveToplevelWindow sm p a b).
Proof.
  intros Hp. unfold SetActiveToplevelWindow. apply calm_get_bind. intros m Hok Hm. cbn [id].
  destruct (_ || _); [calmly|]. apply framed_bind; [apply _|calmly|intros _; calmly].
Qed.
#[local] Hint Resolve calm_SetActiveToplevelWindow : framed.
Lemma calm_enter_active_mode : calm (enter_active_mode sm).
Proof.
  unfold enter_active_mode. apply calm_get_bind. intros m Hok Hm. cbn [id].
  apply framed_bind; [apply _|calmly|intros _].
  apply framed_bind; [apply _| |intros _].
  { apply calm_lm_upd. intros m1 Hok1 Hm1. destruct (_ && _); [|done]. split; [|split; [|done]].
    - pose proof Hok1 as []. by split.
    - split; [done|]. split; [unfold fewer, dropped; auto|done]. }
  apply framed_bind; [apply _| |intros _; calmly].
  apply calm_lm_upd. intros m1 Hok1 Hm1. case_bool_decide; [|done]. split; [|split; [|done]].
  - pose proof Hok1 as []. split; try done. cbn. intros p Hp. by apply head_Some_elem_of.
  - split; [done|]. split; [unfold fewer, dropped; auto|done].
Qed.
Lemma calm_wm_focus : calm wm_TakeFocus.
Proof. by apply wm_focus_calm. Qed.
#[local] Hint Resolve calm_wm_focus : framed.
Lemma calm_SetActiveWindowProperty' x : calm (SetActiveWindowProperty x).
Proof. apply calm_SetActiveWindowProperty. Qed.
Lemma calm_CurrentTime : calm GetCurrentTimeFromServer.
Proof. apply calm_GetCurrentTimeFromServer. Qed.
#[local] Hint Resolve calm_SetActiveWindowProperty' calm_CurrentTime : framed.
Lemma calm_enter_overview_mode : calm (enter_overview_mode sm wm_TakeFocus).
Proof.
  unfold enter_overview_mode. apply calm_get_bind. intros m Hok Hm. cbn [id].
  apply framed_bind; [apply _|calmly|intros _]. apply framed_bind; [apply _| |intros _; calmly].
  apply calm_SetMagnifiedToplevelWindow. destruct FLAGS_lm_new_overview_mode; [|done]. intros p. by apply active_listed.
Qed.
Lemma toplevel_at_listed i m p : same_lm (lm s0) m → toplevel_at i m = Some p → listed p.
Proof.
  intros Hm. unfold toplevel_at. destruct (_ || _); [done|]. intros Hp. apply (listed_now m); [done|].
  by eapply list_elem_of_lookup_2.
Qed.
#[local] Hint Resolve toplevel_at_listed : framed.
Lemma calm_ActivateByIndex i : calm (ActivateToplevelWindowByIndex sm i).
Proof. unfold ActivateToplevelWindowByIndex. calmly. Qed.
Lemma calm_send_magnified_summary : calm send_magnified_summary.
Proof.
  unfold send_magnified_summary. destruct (negb _); [|calmly]. apply calm_get_bind. intros m Hok Hm.
  apply calm_SendTabSummaryMessage. intros p. by apply magnified_listed.
Qed.
#[local] Hint Resolve calm_send_magnified_summary : framed.
Lemma calm_MagnifyByIndex i : calm (MagnifyToplevelWindowByIndex sm i).
Proof. unfold MagnifyToplevelWindowByIndex. calmly. Qed.

(** An index in range. *)
Lemma calm_toplevel_or_die {A} i (k : Z → M S A) : 0 ≤ i < zlen (toplevels_ (lm s0)) →
  (∀ p, listed p → calm (k p)) → calm (toplevel_or_die i ≫= k).
Proof.
  intros Hi Hk s Hs. unfold toplevel_or_die. apply wp_bind, wp_gets_bind.
  assert (toplevels_ (lm s) = toplevels_ (lm s0)) as E by (apply toplevels_same, Hs).
  unfold zlen in Hi. destruct (lookup_lt_is_Some_2 (toplevels_ (lm s)) (Z.to_nat i)) as [p Hp]; [rewrite E; lia|].
  rewrite Hp. apply wp_ret, Hk; [|done]. unfold listed. rewrite <-E. by eapply list_elem_of_lookup_2.
Qed.
Lemma next_index_range n i b : 0 < n → 0 ≤ next_index n i b < n.
Proof. intros Hn. unfold next_index. by apply Z.mod_pos_bound. Qed.
Lemma zlen_now m : same_lm (lm s0) m → zlen (toplevels_ m) = zlen (toplevels_ (lm s0)).
Proof. intros Hm. by rewrite (toplevels_same (lm s0) m) by apply Hm. Qed.
Lemma zlen_not_negative {A} (l : list A) : 0 ≤ zlen l.
Proof. unfold zlen. lia. Qed.
Lemma calm_CycleActive b : calm (CycleActiveToplevelWindow sm b).
Proof.
  unfold CycleActiveToplevelWindow. apply calm_get_bind. intros m Hok Hm. cbn [id]. rewrite zlen_now by done.
  pose proof (zlen_not_negative (toplevels_ (lm s0))). destruct (_ || _) eqn:E; [calmly|].
  apply orb_false_iff in E as [_ E%Z.eqb_neq]. destruct (active_toplevel_ m) as [old|].
  - case_match; [calmly|]. apply calm_toplevel_or_die; [apply next_index_range; lia|]. intros p Hp. calmly.
  - apply calm_toplevel_or_die; [destruct b; lia|]. intros p Hp. calmly.
Qed.
Lemma calm_magnify_active : calm (upd (fun m => m <| magnified_toplevel_ := active_toplevel_ m |>)).
Proof. by keep_books. Qed.
#[local] Hint Resolve calm_magnify_active : framed.
(** The window to go on from: the active one, if none is magnified. *)
Lemma from_magnified_wp (f : Z → LayoutManager.t → M S unit) s : still s0 s → (∀ old m, calm (f old m)) →
  magnified_toplevel_ (lm s) ≠ None ∨ active_toplevel_ (lm s) ≠ None →
  wp ((if bool_decide (magnified_toplevel_ (lm s) = None)
       then upd (fun m => m <| magnified_toplevel_ := active_toplevel_ m |>) else mret ());;
      m ← get id;
      match magnified_toplevel_ m with None => fail CheckFailed | Some old => f old m end)
     (fun _ s' => still s0 s' ∧ rests s s') s.
Proof.
  intros Hs Hf Hsome. set (Q := fun s' => (still s0 s' ∧ rests s s') ∧ is_Some (magnified_toplevel_ (lm s'))).
  apply (wp_cut _ _ (fun _ => Q)).
  - case_bool_decide as Hn.
    + destruct Hsome as [?|Hsome]; [done|]. destruct (calm_magnify_active s Hs) as [Hs' Hr']. apply wp_modify.
      split; [done|]. place. cbn. by apply not_eq_None_Some.
    + apply wp_ret. split; [by split; [|reflexivity]|]. by apply not_eq_None_Some.
  - intros _ s' [[Hs' Hr'] [old Hold]]. unfold get. apply wp_gets_bind. cbn [id]. rewrite Hold.
    eapply wp_mono; [by apply Hf|]. intros _ s2 [? ?]. split; [done|by etransitivity].
Qed.
Lemma calm_CycleMagnified b : calm (CycleMagnifiedToplevelWindow sm b).
Proof.
  intros s Hs. unfold CycleMagnifiedToplevelWindow, get at 1. apply wp_gets_bind. cbn [id].
  pose proof (zlen_not_negative (toplevels_ (lm s0))). rewrite (zlen_now (lm s)) by apply Hs. destruct (_ || _) eqn:E; [by apply wp_ret|].
  apply orb_false_iff in E as [[_ E%Z.eqb_neq]%orb_false_iff _].
  assert (∀ i, 0 ≤ i < zlen (toplevels_ (lm s0)) → calm (p ← toplevel_or_die i; SetMagnifiedToplevelWindow (Some p))) as Hgo
    by (intros i Hi; apply calm_toplevel_or_die; [done|]; intros p Hp; calmly).
  eapply (wp_cut _ _ (fun _ s' => still s0 s' ∧ rests s s')).
  - destruct (_ && _) eqn:En; [apply Hgo; [lia|done]|]. 
    apply (from_magnified_wp (fun old m => p ← toplevel_or_die (next_index (zlen (toplevels_ (lm s0))) (GetIndexForToplevelWindow old m) b);
                                         SetMagnifiedToplevelWindow (Some p))); [done| |].
    + intros old m. apply Hgo, next_index_range. lia.
    + apply andb_false_iff in En as [En|En]; apply bool_decide_eq_false in En; auto.
  - intros _ s1 [Hs1 Hr1]. eapply wp_mono; [apply (framed_bind (still s0) rests _ _ calm_layout_at_middle (fun _ => calm_send_magnified_summary)); done|].
    intros _ s2 [? ?]. split; [done|by etransitivity].
Qed.
Lemma calm_SendDeleteRequest : calm SendDeleteRequestToActiveWindow.
Proof. unfold SendDeleteRequestToActiveWindow. calmly. Qed.
Lemma calm_PanOverviewMode z : calm (PanOverviewMode sm z).
Proof. unfold PanOverviewMode. calmly. Qed.
Lemma calm_UpdateOverviewPanning : calm (UpdateOverviewPanningForMotion sm).
Proof.
  unfold UpdateOverviewPanningForMotion. apply calm_get_bind. intros m _ _.
  apply framed_bind; [apply _|by keep_books|intros _; calmly].
Qed.
Lemma calm_TakeFocus_lm : calm (Layout.TakeFocus sm).
Proof. unfold Layout.TakeFocus. calmly. Qed.

(** *** The floating tab *)

#[local] Hint Resolve calm_set_states calm_ActivateByIndex calm_MagnifyByIndex calm_CycleActive calm_CycleMagnified
  calm_SendDeleteRequest calm_PanOverviewMode calm_UpdateOverviewPanning calm_TakeFocus_lm : framed.
(** A result that the rest of the program relies on. *)
Definition gives {A} (P : A → Prop) (m : M S A) : Prop :=
  ∀ s, still s0 s → wp m (fun a s' => P a ∧ still s0 s' ∧ rests s s') s.
Lemma gives_ret {A} (P : A → Prop) a : P a → gives P (mret a).
Proof. intros Ha s Hs. apply wp_ret. split; [done|]. by split. Qed.
Lemma gives_bind {A B} (P : A → Prop) (Q : B → Prop) (m : M S A) (k : A → M S B) :
  gives P m → (∀ a, P a → gives Q (k a)) → gives Q (m ≫= k).
Proof.
  intros Hm Hk s Hs. eapply wp_cut; [by apply Hm|]. intros a s1 (Ha & Hs1 & Hr1).
  eapply wp_mono; [by apply (Hk a Ha)|]. intros b s2 (Hb & Hs2 & Hr2). split; [done|]. split; [done|by etransitivity].
Qed.
Lemma gives_calm_bind {A B} (Q : B → Prop) (m : M S A) (k : A → M S B) :
  calm m → (∀ a, gives Q (k a)) → gives Q (m ≫= k).
Proof. intros Hm Hk. apply (gives_bind (fun _ => True)); [|done]. intros s Hs. eapply wp_mono; [by apply Hm|]. done. Qed.
Lemma gives_get {A B} (f : LayoutManager.t → A) (Q : B → Prop) (k : A → M S B) :
  (∀ m, lm_ok m → same_lm (lm s0) m → gives Q (k (f m))) → gives Q (get f ≫= k).
Proof. intros Hk s Hs. apply wp_gets_bind. apply Hk; [apply Hs|apply Hs|done]. Qed.
Lemma calm_gives_bind {A B} (P : A → Prop) (m : M S A) (k : A → M S B) :
  gives P m → (∀ a, P a → calm (k a)) → calm (m ≫= k).
Proof. apply framed_cut, _. Qed.

Definition all_listed (o : option Z) : Prop := ∀ p, o = Some p → listed p.
Lemma toplevel_at_point_listed px py ps : (∀ p, p ∈ ps → listed p) → gives all_listed (toplevel_at_point px py ps).
Proof.
  induction ps as [|p ps IH]; intros Hps s Hs; cbn; [by apply gives_ret|].
  destruct (look s0 p s) as (r & Hr & _); [apply Hs|apply listed_present, Hps; by left|].
  apply (top_wp _ _ _ _ r); [done|]. destruct (ToplevelWindow.OverviewWindowContainsPoint px py r).
  - apply gives_ret; [|done]. intros q [= <-]. apply Hps. by left.
  - apply IH; [|done]. intros q Hq. apply Hps. by right.
Qed.
Lemma calm_PointIsInTabSummary a b : calm (PointIsInTabSummary a b).
Proof. unfold PointIsInTabSummary. calmly. Qed.
Lemma calm_PointIsBetween a b : calm (PointIsBetweenMagnifiedToplevelWindowAndTabSummary a b).
Proof. unfold PointIsBetweenMagnifiedToplevelWindowAndTabSummary. calmly. Qed.
#[local] Hint Resolve calm_PointIsInTabSummary calm_PointIsBetween : framed.
Lemma docking_toplevel_listed px py : gives all_listed (docking_toplevel px py).
Proof.
  unfold docking_toplevel, GetOverviewToplevelWindowAtPoint. apply (gives_bind all_listed).
  { apply gives_get. intros m _ Hm. apply toplevel_at_point_listed. intros p Hp. by apply (listed_now m). }
  intros o Ho. apply gives_get. intros m Hok Hm. cbn [id]. apply (gives_bind all_listed).
  - destruct o as [q|]; [by apply gives_ret|]. destruct (magnified_toplevel_ m) as [p|] eqn:Ep; [|by apply gives_ret].
    assert (listed p) as Hp by by eapply magnified_listed.
    assert (∀ b : bool, all_listed (if b then Some p else None)) as Hb by (by intros [] q; [intros [= <-]|]).
    apply gives_calm_bind; [eauto with framed|]. intros [|]; [apply gives_ret, (Hb true)|].
    apply gives_calm_bind; [eauto with framed|]. intros b. apply gives_ret, Hb.
  - intros o' Ho'. apply gives_calm_bind; [eauto with framed|]. intros c. apply gives_ret. by case_bool_decide.
Qed.
Lemma calm_notify_over x o b : all_listed o → calm (notify_over_toplevel x o b).
Proof. intros Ho. unfold notify_over_toplevel. destruct o as [p|]; [|calmly]. assert (listed p) by by apply Ho. calmly. Qed.
Lemma calm_set_under o : all_listed o → calm (upd (fun m => m <| toplevel_under_floating_tab_ := o |>)).
Proof. intros Ho. keep_books. intros p Hp. rewrite (toplevels_same (lm s0)) by apply Hm. by apply Ho. Qed.
#[local] Hint Resolve calm_notify_over calm_set_under : framed.
Lemma calm_move_tab_in_overview tab px py : known tab s0 → calm (move_tab_in_overview sm tab px py).
Proof.
  intros Ht. unfold move_tab_in_overview. apply (calm_gives_bind all_listed); [apply docking_toplevel_listed|]. intros o Ho.
  apply calm_get_bind. intros m Hok Hm. apply calm_window_bind; [done|]. intros w _ _. cbn [id].
  assert (all_listed (toplevel_under_floating_tab_ m)) as Hu by (intros p; by apply under_listed).
  apply framed_bind; [apply _|calmly|intros _]. calmly.
Qed.

(** *** The area *)

Lemma calm_resize_toplevel g p : listed p → calm (resize_toplevel g p).
Proof.
  intros Hp. unfold resize_toplevel. apply calm_top_bind; [by apply listed_present|]. intros r Hr _.
  apply calm_get_bind. intros m Hok Hm. cbn [id].
  apply framed_bind; [apply _|apply calm_size_for; [eauto with framed|apply Hok]|intros size]. calmly.
Qed.
(** A size for which [GetMaxSize] has an answer. *)
Definition sane_size (w h : Z) : Prop := FLAGS_lm_honor_window_size_hints = true → 0 < w ∧ 0 < h.
Lemma calm_MoveAndResize px py w h : sane_size w h → calm (MoveAndResize sm px py w h).
Proof.
  intros Hsize. unfold MoveAndResize. apply calm_get_bind. intros m Hok Hm. cbn [id]. destruct (_ && _); [calmly|].
  apply framed_bind; [apply _|by keep_books|intros _].
  apply framed_bind; [apply _| |intros _; calmly].
  apply calm_for_each. intros p Hp. apply calm_resize_toplevel. by apply (listed_now m).
Qed.

(** *** Events *)

Lemma calm_DoInitialSetup x : known x s0 → calm (DoInitialSetupForWindow sm x).
Proof. intros Hx. unfold DoInitialSetupForWindow. calmly. Qed.
#[local] Hint Resolve calm_DoInitialSetup : framed.
Lemma calm_HandleWindowMapRequest x : known x s0 → calm (HandleWindowMapRequest sm x).
Proof. intros Hx. unfold HandleWindowMapRequest. apply framed_bind; [apply _|by keep_books|intros _; calmly]. Qed.
Lemma calm_HandleWindowConfigureRequest x a b c d : known x s0 → calm (HandleWindowConfigureRequest x a b c d).
Proof.
  intros Hx. unfold HandleWindowConfigureRequest. apply calm_get_bind. intros m Hok Hm.
  destruct (GetToplevelWindowOwningTransientWindow x m) as [p|] eqn:Ep.
  - assert (has0 s0 p x) by (by apply (owned_has m)). calmly.
  - apply calm_find_bind; [|calmly]. intros p r Hp Hr _. calmly.
Qed.
Lemma calm_HandlePointerEnter x a b c d t : calm (HandlePointerEnter sm x a b c d t).
Proof.
  unfold HandlePointerEnter. apply calm_get_bind. intros m Hok Hm. cbn [id].
  apply (calm_input x (fun o => match o with None => mret () | Some p => _ end) m); [done| |calmly]. intros p Hp. calmly.
Qed.
Lemma calm_pan_coalescer c s : still s0 s → MotionEventCoalescer.synchronous_ c = MotionEventCoalescer.synchronous_ (pan_coalescer s) →
  still s0 (set_pan_coalescer c s) ∧ rests s (set_pan_coalescer c s).
Proof.
  intros [Hs Hr] Hc. destruct (lm_step s ((lm s) <| overview_background_event_coalescer_ := c |>)) as [? ?]; [done| | |done|].
  - destruct (c_lm s Hs). split; try done. unfold asynchronous in *. cbn. by rewrite Hc.
  - split; [done|]. split; [unfold fewer, dropped; auto|done].
  - split; [|done]. split; [done|by etransitivity].
Qed.
Lemma calm_lm_timeout_add ms : calm (timeout_add ms).
Proof. apply calm_lm_world, quiet_timeout_add. Qed.
Lemma calm_lm_source_remove i : calm (source_remove i).
Proof. apply calm_lm_world, quiet_source_remove. Qed.
#[local] Hint Resolve calm_lm_timeout_add calm_lm_source_remove : framed.
Lemma calm_pan_Start : calm (MotionEventCoalescer.Start pan_coalescer set_pan_coalescer timeout_add).
Proof. apply coalescer_Start; [apply _|intros; by apply calm_pan_coalescer|eauto with framed..]. Qed.
Lemma calm_pan_HandleTimer : calm (MotionEventCoalescer.HandleTimer pan_coalescer set_pan_coalescer (UpdateOverviewPanningForMotion sm)).
Proof. apply coalescer_HandleTimer; [apply _|intros; by apply calm_pan_coalescer|eauto with framed..]. Qed.
Lemma calm_HandleButtonRelease x a b c d e t : calm (HandleButtonRelease sm x a b c d e t).
Proof.
  unfold HandleButtonRelease. destruct (_ || _); [calmly|]. apply framed_bind; [apply _| |calmly].
  apply coalescer_Stop; [apply _|intros; by apply calm_pan_coalescer|eauto with framed..].
Qed.
Lemma calm_HandlePointerMotion x a b c d t : calm (HandlePointerMotion sm x a b c d t).
Proof.
  unfold HandlePointerMotion. destruct (_ =? _); [|calmly].
  apply coalescer_StorePosition; [apply _|intros; by apply calm_pan_coalescer|eauto with framed..].
Qed.
Lemma calm_HandleFocusChange_lm x b : calm (HandleFocusChange x b).
Proof.
  unfold HandleFocusChange. intros s Hs. apply wp_gets_bind. destruct (GetWindow x s) as [w|] eqn:Ew; [|by apply wp_ret].
  assert (known x s0) as Hx by (destruct Hs as (_ & ((_ & Hk & _) & _)); apply Hk; by exists w).
  revert s Hs Ew. cut (calm (toplevel ← toplevel_for x;
    match toplevel with None => mret () | Some p => Toplevel.HandleFocusChange p x b;;
      if b then w ← window x; SetActiveWindowProperty (Window.xid_ w) else mret () end)); [intros Hc s Hs _; by apply Hc|].
  apply calm_toplevel_for_bind; [|calmly]. intros p r Hp Hr Hor.
  apply framed_bind; [apply _|by apply (calm_HandleFocusChange s0 core_body p x b r)|intros _; calmly].
Qed.
End anchored.
End layout.
