(* ===== verification/LayoutKeys.v ===== *)
(** * The key bindings of the layout manager's modes.

    [territory T k]: of the combinations and the actions that are the layout
    manager's, exactly the pairs of [T] are bound in [k].  Unbinding a mode's
    combinations leaves none; binding a mode's table leaves the table. *)

From S2P Require Import Prelude Hoare WmUtil KeyBindings XConnection WmIpc Double Window WmEvents Panel WmFrame.
From S2P Require Import Toplevel LayoutManager LayoutFrame.
Import KeyBindings LayoutManager LayoutRef Layout.

(** The keys of the bindings. *)
Definition layout_keysyms : list Z :=
  [XK_Tab; XK_Return; XK_Escape; XK_Left; XK_Right; XK_F1; XK_F2; XK_F12; XK_h; XK_l; XK_w] ++ seqZ XK_1 9.
(** XConvertCase leaves these keys as they are; asking for key codes and grabbing
    keys keeps the connection working. *)
Class KeyGrabLaws (W : Type) `{WmFrame W} `{KeyGrabs W} := {
  kg_lower k : k ∈ layout_keysyms → x_lower_keysym (W := W) k = k;
  kg_code k w : wm_ok w → wm_moves wm_ok wm_used w (x_GetKeyCodeFromKeySym k w).2;
  kg_grab k m w : wm_ok w → wm_moves wm_ok wm_used w (x_GrabKey k m w).2;
  kg_ungrab k m w : wm_ok w → wm_moves wm_ok wm_used w (x_UngrabKey k m w).2
}.

(** What holds of the world when a program ends, if it ends. *)
Section drifts.
Context {W : Type} `{WmFrame W}.
Definition drifts {K A} (m : M (K * W) A) : Prop := ∀ s a s', m s = Val (a, s') → wm_ok s.2 → wm_ok s'.2 ∧ same_screen s.2 s'.2.
Lemma drifts_ret {K A} (a : A) : drifts (mret a : M (K * W) A).
Proof. intros s b s' [= <- <-] Hs. by split. Qed.
Lemma drifts_gets {K A} (f : K * W → A) : drifts (gets f).
Proof. intros s b s' [= <- <-] Hs. by split. Qed.
Lemma drifts_bind {K A B} (m : M (K * W) A) (k : A → M (K * W) B) : drifts m → (∀ a, drifts (k a)) → drifts (m ≫= k).
Proof.
  intros Hm Hk s b s'. unfold mbind, M_bind. destruct (m s) as [[a s1]|] eqn:E; [|done]. intros Hrun Hs.
  destruct (Hm s a s1 E Hs) as [Hs1 Hr1]. destruct (Hk a s1 b s' Hrun Hs1) as [Hs' Hr']. split; [done|by etransitivity].
Qed.
Lemma drifts_CHECK {K} b : drifts (CHECK b : M (K * W) unit).
Proof. destruct b; [apply drifts_ret|by intros s a s' [=]]. Qed.
Lemma drifts_fst {K} (f : K → K) : drifts (modify (fun s : K * W => (f s.1, s.2))).
Proof. intros s b s' [= <- <-] Hs. by split. Qed.
End drifts.

Section keys.
Context {W : Type} `{WmFrame W} `{KeyGrabs W} `{!KeyGrabLaws W}.
Lemma drifts_on_x {A} (f : W → A * W) : (∀ w, wm_ok w → wm_moves wm_ok wm_used w (f w).2) → drifts (KeyBindings.on_x f).
Proof.
  intros Hf s a s' Hrun Hs. specialize (Hf s.2 Hs). unfold KeyBindings.on_x, zoom, extern in Hrun.
  destruct (f s.2) as [b w]. injection Hrun as <- <-. exact Hf.
Qed.
Lemma drifts_grabs grab combo : (∀ k m w, wm_ok w → wm_moves wm_ok wm_used w (grab k m w).2) →
  drifts (KeyBindings.both_grabs grab combo).
Proof.
  intros Hg. unfold KeyBindings.both_grabs. apply drifts_bind; [apply drifts_on_x; intros w; apply kg_code|intros c].
  apply drifts_bind; [apply drifts_on_x; intros w; apply Hg|intros _]. apply drifts_on_x. intros w. apply Hg.
Qed.
Lemma drifts_AddBinding combo name : drifts (KeyBindings.AddBinding combo name).
Proof.
  unfold KeyBindings.AddBinding. apply drifts_bind; [apply drifts_gets|intros k].
  repeat case_match; try apply drifts_ret.
  apply drifts_bind; [apply drifts_CHECK|intros _]. apply drifts_bind; [apply drifts_fst|intros _].
  apply drifts_bind; [apply drifts_fst|intros _]. apply drifts_bind; [apply drifts_CHECK|intros _].
  apply drifts_bind; [apply drifts_fst|intros _]. apply drifts_bind; [|intros _; apply drifts_ret].
  apply drifts_grabs. intros c m w. apply kg_grab.
Qed.
Lemma drifts_RemoveBinding combo : drifts (KeyBindings.RemoveBinding combo).
Proof.
  unfold KeyBindings.RemoveBinding. apply drifts_bind; [apply drifts_gets|intros k].
  destruct (bindings_ k !! combo) as [n|]; [|apply drifts_ret].
  destruct (actions_ k !! n) as [a|]; [|by intros s b s' [=]].
  apply drifts_bind; [apply drifts_CHECK|intros _]. apply drifts_bind; [apply drifts_fst|intros _].
  destruct (action_names_by_keysym_ k !! key combo) as [names|]; [|by intros s b s' [=]].
  apply drifts_bind; [apply drifts_CHECK|intros _]. do 3 (apply drifts_bind; [apply drifts_fst|intros _]).
  apply drifts_bind; [|intros _; apply drifts_ret]. apply drifts_grabs. intros c m w. apply kg_ungrab.
Qed.

Lemma AddBinding_run c n k w :
  consistent k → bindings_ k !! c = None → is_Some (actions_ k !! n) → n ∉ names_at (key c) k →
  ∃ w', KeyBindings.AddBinding c n (k, w) = Val (true, (bind c n k, w')).
Proof.
  intros Hk Hc [a Ha] Hn. pose proof (AddBinding_consistent c n k w Hk) as Hco. unfold KeyBindings.AddBinding in *.
  rewrite gets_bind in *. cbn [fst] in *. rewrite Hc, Ha in *. rewrite CHECK_bind.
  2:{ apply bool_decide_eq_true. intros Hin.
      assert (bindings_ k !! c = Some n) by (apply (co_binding k Hk); eauto). congruence. }
  unfold KeyBindings.set_action, KeyBindings.upd. mrun. cbn [fst snd]. rewrite bool_decide_true by done. cbn [CHECK].
  destruct (both_grabs_run x_GrabKey c (bind c n k) w) as [w' Hw]. unfold CHECK. mrun. cbn [fst snd].
  match goal with |- context [KeyBindings.both_grabs ?g c (?k', w)] => change k' with (bind c n k) end.
  rewrite Hw. by exists w'.
Qed.
End keys.

(** ** What is the layout manager's *)

Definition plain_combo (km : Z * Z) : KeyCombo := mkKeyCombo km.1 km.2.
Definition pairs (bs : list (Z * Z * bytes)) : list (KeyCombo * bytes) := (fun b => (plain_combo b.1, b.2)) <$> bs.
(** What a mode binds. *)
Definition table (mode : Mode) : list (KeyCombo * bytes) := pairs (bound_for_mode mode).
Definition layout_combos : list KeyCombo := plain_combo <$> (unbound_for_mode MODE_ACTIVE ++ unbound_for_mode MODE_OVERVIEW).
Definition layout_names : list bytes := (bound_for_mode MODE_ACTIVE ++ bound_for_mode MODE_OVERVIEW).*2.
Definition territory (T : list (KeyCombo * bytes)) (k : KeyBindings.t) : Prop :=
  consistent k ∧ (∀ n, n ∈ layout_names → is_Some (actions_ k !! n)) ∧
  ∀ c n, c ∈ layout_combos ∨ n ∈ layout_names → bindings_ k !! c = Some n ↔ (c, n) ∈ T.
(** Its bindings are those of the mode. *)
Definition keys_of (mode : Mode) (k : KeyBindings.t) : Prop := territory (table mode) k.

(** A table that can be bound: no combination twice, no action twice with the same key. *)
Definition bindable (T : list (KeyCombo * bytes)) : Prop := NoDup T.*1 ∧ NoDup ((fun cn => (key cn.1, cn.2)) <$> T).
Definition ours (b : Z * Z * bytes) : Prop :=
  b.1.1 ∈ layout_keysyms ∧ Z.land b.1.2 (Z.lnot KeyBindings.LockMask) = b.1.2 ∧
  plain_combo b.1 ∈ layout_combos ∧ b.2 ∈ layout_names.
#[local] Instance ours_dec b : Decision (ours b).
Proof. unfold ours. apply _. Defined.
Lemma bound_ours mode : Forall ours (bound_for_mode mode).
Proof. destruct mode; apply (bool_decide_unpack _); vm_compute; exact I. Qed.
Lemma bound_bindable mode : bindable (table mode).
Proof. destruct mode; split; apply (bool_decide_unpack _); vm_compute; exact I. Qed.
Lemma unbound_is_bound mode : unbound_for_mode mode = (bound_for_mode mode).*1.
Proof. destruct mode; vm_compute; reflexivity. Qed.

Lemma territory_unbind T c n k : territory ((c, n) :: T) k → c ∉ T.*1 → c ∈ layout_combos →
  bindings_ k !! c = Some n ∧ territory T (unbind c n k).
Proof.
  intros (Hk & Ha & Hb) Hc Hours. assert (bindings_ k !! c = Some n) as Hcn by (apply Hb; [by left|by left]).
  split; [done|]. split; [by apply consistent_unbind|]. split.
  - intros n' Hn'. cbn. rewrite lookup_alter. case_decide; [|by apply Ha]. apply fmap_is_Some. subst. by apply Ha.
  - intros c' n' Hor. cbn. rewrite lookup_delete_Some. rewrite (Hb c' n' Hor), elem_of_cons. split.
    + intros [Hne [[= -> ->]|Hin]]; done.
    + intros Hin. split; [|by right]. intros ->. apply Hc, list_elem_of_fmap. by exists (c', n').
Qed.
Lemma territory_bind T c n k : territory T k → bindable (T ++ [(c, n)]) → c ∈ layout_combos → n ∈ layout_names →
  bindings_ k !! c = None ∧ n ∉ names_at (key c) k ∧ territory (T ++ [(c, n)]) (bind c n k).
Proof.
  intros (Hk & Ha & Hb) [Hnd1 Hnd2] Hc Hn. rewrite fmap_app in Hnd1. rewrite fmap_app in Hnd2.
  apply NoDup_app in Hnd1 as (_ & Hnd1 & _). apply NoDup_app in Hnd2 as (_ & Hnd2 & _). cbn in Hnd1, Hnd2.
  assert (∀ n', (c, n') ∉ T) as Hfree.
  { intros n' Hin. apply (Hnd1 c); [|by left]. apply list_elem_of_fmap. by exists (c, n'). }
  assert (bindings_ k !! c = None) as Hnone.
  { apply eq_None_not_Some. intros [n' Hn']. apply (Hfree n'), Hb; [by left|done]. }
  assert (n ∉ names_at (key c) k) as Hname.
  { intros (c' & Hkey & Hc')%(co_name k Hk). apply Hb in Hc'; [|by right].
    apply (Hnd2 (key c, n)); [|by left]. apply list_elem_of_fmap. exists (c', n). by rewrite <-Hkey. }
  split; [done|]. split; [done|]. split; [apply consistent_bind; [done..|by apply Ha|done]|]. split.
  - intros n' Hn'. cbn. rewrite lookup_alter. case_decide; [|by apply Ha]. apply fmap_is_Some. subst. by apply Ha.
  - intros c' n' Hor. cbn. rewrite elem_of_app, list_elem_of_singleton, <-(Hb c' n' Hor).
    destruct (decide (c' = c)) as [->|Hne].
    + rewrite lookup_insert_eq, Hnone. naive_solver.
    + rewrite lookup_insert_ne by done. naive_solver.
Qed.

(** ** Changing the mode's bindings *)

Section modes.
Context `{Build} `{LayoutFlags} {W : Type} `{WmHost W} `{KeyGrabs W} `{!KeyGrabLaws W} `{LayoutHost W}.
Context {S : Type} `{LayoutStore S W} `{!LayoutPlace S W}.

(** Only the bindings and the world have changed. *)
Definition rekeyed (s s' : S) : Prop :=
  lm s' = lm s ∧ (∀ x, GetWindow x s' = GetWindow x s) ∧ same_screen (lm_world s) (lm_world s').
#[global] Instance rekeyed_preorder : PreOrder rekeyed.
Proof.
  split; [intros s; by split|]. intros s1 s2 s3 (E1 & E2 & E3) (F1 & F2 & F3). split; [congruence|].
  split; [intros x; by rewrite F2, E2|by etransitivity].
Qed.
Lemma on_kb_wp {A} (m : M (KeyBindings.t * W) A) s k a :
  wm_ok (lm_world s) → drifts m → (∃ w', m (key_bindings s, lm_world s) = Val (a, (k, w'))) →
  wp (on_kb m) (fun b s' => b = a ∧ rekeyed s s' ∧ wm_ok (lm_world s') ∧ key_bindings s' = k) s.
Proof.
  intros Hs Hm [w' Hrun]. destruct (Hm _ _ _ Hrun Hs) as [Hok Hscr]. cbn in Hok, Hscr. unfold on_kb. apply wp_zoom.
  apply wp_run. exists a, (k, w'). split; [done|]. split; [done|]. unfold rekeyed. cbn. split; [|split]; place; try done.
  split; [done|]. split; [|done]. intros x. by place.
Qed.
Lemma combo_plain km : km.1 ∈ layout_keysyms → Z.land km.2 (Z.lnot KeyBindings.LockMask) = km.2 →
  combo (W := W) km = plain_combo km.
Proof. intros Hk Hm. unfold combo, KeyBindings.make_KeyCombo, plain_combo. by rewrite kg_lower, Hm. Qed.

(** The bindings after and before. *)
Definition rebound (T : list (KeyCombo * bytes)) (s s' : S) : Prop :=
  wm_ok (lm_world s') ∧ rekeyed s s' ∧ territory T (key_bindings s').
Lemma rebound_trans T s1 s2 s3 : rekeyed s1 s2 → rebound T s2 s3 → rebound T s1 s3.
Proof. intros ? (?&?&?). split; [done|]. split; [by etransitivity|done]. Qed.

Lemma remove_all_wp bs s : wm_ok (lm_world s) → Forall ours bs → NoDup (pairs bs).*1 → territory (pairs bs) (key_bindings s) →
  wp (for_each (fun km => on_kb (KeyBindings.RemoveBinding (combo km));; mret ()) bs.*1) (fun _ s' => rebound [] s s') s.
Proof.
  revert s. induction bs as [|b bs IH]; intros s Hs Hours Hnd Ht; cbn; [apply wp_ret; split; [done|]; by split|].
  apply Forall_cons in Hours as [(Hk & Hm & Hc & Hn) Hours]. cbn in Hnd. apply NoDup_cons in Hnd as [Hnin Hnd].
  destruct (territory_unbind (pairs bs) (plain_combo b.1) b.2 (key_bindings s)) as [Hb Ht']; [done..|].
  eapply (wp_cut _ _ (fun _ s1 => rekeyed s s1 ∧ wm_ok (lm_world s1) ∧ territory (pairs bs) (key_bindings s1))).
  - eapply wp_cut; [apply (on_kb_wp _ s (unbind (plain_combo b.1) b.2 (key_bindings s)) true); [done|apply drifts_RemoveBinding|]|].
    { rewrite combo_plain by done. apply RemoveBinding_run; [apply Ht|done]. }
    intros _ s1 (_ & Hr & Hok & Hkb). apply wp_ret. by rewrite Hkb.
  - intros _ s1 (Hr & Hok & Ht1). eapply wp_mono; [by apply IH|]. intros ? s2. by apply rebound_trans.
Qed.
Lemma add_all_wp bs T s : wm_ok (lm_world s) → Forall ours bs → bindable (T ++ pairs bs) → territory T (key_bindings s) →
  wp (for_each (fun b => on_kb (KeyBindings.AddBinding (combo b.1) b.2);; mret ()) bs) (fun _ s' => rebound (T ++ pairs bs) s s') s.
Proof.
  revert T s. induction bs as [|b bs IH]; intros T s Hs Hours Hnd Ht.
  { cbn. apply wp_ret. rewrite app_nil_r. split; [done|]. by split. }
  apply Forall_cons in Hours as [(Hk & Hm & Hc & Hn) Hours].
  change (pairs (b :: bs)) with ([(plain_combo b.1, b.2)] ++ pairs bs) in *. rewrite (assoc_L (++)) in Hnd |- *.
  assert (bindable (T ++ [(plain_combo b.1, b.2)])) as Hnd1.
  { destruct Hnd as [Hnd1 Hnd2]. rewrite fmap_app in Hnd1. rewrite fmap_app in Hnd2.
    apply NoDup_app in Hnd1 as (? & _ & _). by apply NoDup_app in Hnd2 as (? & _ & _). }
  destruct (territory_bind T (plain_combo b.1) b.2 (key_bindings s)) as (Hnone & Hname & Ht'); [done..|].
  cbn [for_each].
  eapply (wp_cut _ _ (fun _ s1 => rekeyed s s1 ∧ wm_ok (lm_world s1) ∧ territory (T ++ [(plain_combo b.1, b.2)]) (key_bindings s1))).
  - eapply wp_cut; [apply (on_kb_wp _ s (bind (plain_combo b.1) b.2 (key_bindings s)) true); [done|apply drifts_AddBinding|]|].
    { rewrite combo_plain by done. apply AddBinding_run; [apply Ht|done|by apply Ht|done]. }
    intros _ s1 (_ & Hr & Hok & Hkb). apply wp_ret. by rewrite Hkb.
  - intros _ s1 (Hr & Hok & Ht1). eapply wp_mono; [by apply IH|]. intros ? s2. by apply rebound_trans.
Qed.
Lemma RemoveBinding_none combo k w : bindings_ k !! combo = None → KeyBindings.RemoveBinding combo (k, w) = Val (false, (k, w)).
Proof. intros Hc. unfold KeyBindings.RemoveBinding. rewrite gets_bind. cbn [fst]. by rewrite Hc. Qed.
(** When there is nothing to remove. *)
Lemma remove_none_wp bs s : wm_ok (lm_world s) → Forall ours bs → territory [] (key_bindings s) →
  wp (for_each (fun km => on_kb (KeyBindings.RemoveBinding (combo km));; mret ()) bs.*1) (fun _ s' => rebound [] s s') s.
Proof.
  revert s. induction bs as [|b bs IH]; intros s Hs Hours Ht; cbn; [apply wp_ret; split; [done|]; by split|].
  apply Forall_cons in Hours as [(Hk & Hm & Hc & Hn) Hours].
  eapply (wp_cut _ _ (fun _ s1 => rekeyed s s1 ∧ wm_ok (lm_world s1) ∧ territory [] (key_bindings s1))).
  - eapply wp_cut; [apply (on_kb_wp _ s (key_bindings s) false); [done|apply drifts_RemoveBinding|]|].
    { rewrite combo_plain by done. exists (lm_world s). apply RemoveBinding_none, eq_None_not_Some. intros [n Hb].
      apply Ht in Hb; [|by left]. by apply elem_of_nil in Hb. }
    intros _ s1 (_ & Hr & Hok & Hkb). apply wp_ret. by rewrite Hkb.
  - intros _ s1 (Hr & Hok & Ht1). eapply wp_mono; [by apply IH|]. intros ? s2. by apply rebound_trans.
Qed.
(** [RemoveKeyBindingsForMode] and [AddKeyBindingsForMode]. *)
Lemma RemoveKeyBindingsForMode_wp mode T s : wm_ok (lm_world s) → territory T (key_bindings s) → T = table mode ∨ T = [] →
  wp (RemoveKeyBindingsForMode mode) (fun _ s' => rebound [] s s') s.
Proof.
  intros Hs Hk HT. unfold RemoveKeyBindingsForMode. rewrite unbound_is_bound. destruct HT as [->| ->].
  - apply remove_all_wp; [done|apply bound_ours|apply bound_bindable|done].
  - apply remove_none_wp; [done|apply bound_ours|done].
Qed.
Lemma AddKeyBindingsForMode_wp mode s : wm_ok (lm_world s) → territory [] (key_bindings s) →
  wp (AddKeyBindingsForMode mode) (fun _ s' => rebound (table mode) s s') s.
Proof. intros Hs Hk. apply (add_all_wp _ []); [done|apply bound_ours|apply bound_bindable|done]. Qed.
End modes.
