(* ===== verification/LayoutManagerSafe.v ===== *)
(** * The layout manager never fails (LayoutManager.v).

    [full] is the invariant: the state works ([calm_ok]), the books are right
    ([core]) and the bindings are the mode's ([keys_of]).  The constructor
    establishes it and every event that the X server, Chrome, the keys and the timers
    may send keeps it; a window that is unmapped is forgotten. *)

From stdpp Require Import sorting.
From S2P Require Import Prelude Hoare WmUtil KeyBindings XConnection WmIpc Double Window WmEvents Panel WmFrame.
From S2P Require Import Toplevel LayoutManager LayoutFrame ToplevelSafe LayoutSafe LayoutKeys.
Import LayoutManager LayoutRef Layout.

Section layout.
Context `{Build} `{LayoutFlags} {W : Type} `{WmHost W} `{KeyGrabs W} `{!KeyGrabLaws W} `{LayoutHost W} `{!LayoutHostLaws W}.
Context {S : Type} `{LayoutStore S W} `{!LayoutPlace S W}.
Variable sm : StackingManager.t.
Hypothesis Hsm : layers_ok sm.
Variable self : Z.
Variable wm_TakeFocus : M S unit.
Hypothesis wm_focus_calm : ∀ s0, core s0 → framed (still s0) rests wm_TakeFocus.
Variable new_toplevel_address : S → Z.
Hypothesis new_fresh : ∀ s, toplevel_heap_ (lm s) !! new_toplevel_address s = None.

Definition full (s : S) : Prop := calm_ok s ∧ core s ∧ keys_of (mode_ (lm s)) (key_bindings s).
Definition ends_full (s : S) {A} : A → S → Prop := fun _ s' => full s' ∧ turns s s'.
Abbreviation runs := (framed full turns).

Lemma full_rests s s' : full s → calm_ok s' → rests s s' → full s'.
Proof.
  intros (Hs & Hc & Hk) Hs' (Ht & Hm & Hkb). split; [done|]. split; [by apply (core_turns s)|]. by rewrite Hm, Hkb.
Qed.
Lemma rests_runs {A} (m : M S A) : (∀ s0, core s0 → framed (still s0) rests m) → runs m.
Proof.
  intros Hm s Hs. pose proof Hs as (Hok & Hc & _). eapply wp_mono; [apply (Hm s Hc); by apply still_refl|].
  intros a s' [[Hs' _] Hr]. split; [by apply (full_rests s)|apply Hr].
Qed.
(** What is known of a state is of use to the rest of the program. *)
Lemma calm_then {A B} (m : M S A) (k : A → M S B) s : full s → framed (still s) rests m →
  (∀ a s1, full s1 → rests s s1 → wp (k a) (ends_full s1) s1) → wp (m ≫= k) (ends_full s) s.
Proof.
  intros Hs Hm Hk. eapply wp_cut; [apply Hm; apply still_refl, Hs|]. intros a s1 [[Hs1 _] Hr1].
  eapply wp_mono; [apply (Hk a s1); [by apply (full_rests s)|done]|]. intros b s2 [? ?]. split; [done|].
  etransitivity; [apply Hr1|done].
Qed.
Lemma calm_ends {A} (m : M S A) s : full s → framed (still s) rests m → wp m (ends_full s) s.
Proof.
  intros Hs Hm. eapply wp_mono; [apply Hm; apply still_refl, Hs|]. intros a s1 [[Hs1 _] Hr1].
  split; [by apply (full_rests s)|apply Hr1].
Qed.
Lemma runs_then {A B} (m : M S A) (k : A → M S B) s : full s → runs m →
  (∀ a s1, full s1 → turns s s1 → wp (k a) (ends_full s1) s1) → wp (m ≫= k) (ends_full s) s.
Proof.
  intros Hs Hm Hk. eapply wp_cut; [by apply Hm|]. intros a s1 [Hs1 Hr1].
  eapply wp_mono; [by apply (Hk a s1)|]. intros b s2 [? ?]. split; [done|by etransitivity].
Qed.
Lemma full_ret {A} (a : A) s : full s → wp (mret a) (ends_full s) s.
Proof. intros Hs. by apply wp_ret. Qed.

(** ** Modes *)

(** Entering a mode, with the bindings of the old one, or with none. *)
Lemma rekeyed_step s s' T : calm_ok s → core s → rebound T s s' → calm_ok s' ∧ core s' ∧ turns s s'.
Proof.
  intros Hs Hc (Hok & (Hlm & Hx & Hscr) & _).
  assert (turns s s') as Ht by (split; [by rewrite Hlm|split; [intros x; unfold known; by rewrite Hx|done]]).
  split; [|split; [by apply (core_turns s)|done]]. destruct Hs as [E1 E2 E3]. split; [done| |by rewrite Hlm].
  intros x w. rewrite Hx. apply E2.
Qed.
Lemma set_mode_step s mode : calm_ok s → core s →
  let s' := set_lm ((lm s) <| mode_ := mode |>) s in calm_ok s' ∧ core s' ∧ turns s s'.
Proof.
  intros [E1 E2 E3] Hc s'. assert (turns s s') as Ht.
  { unfold s'. split; [|split; [intros x; unfold known; by place|by place]]. place.
    split; [done|]. split; [unfold fewer, dropped; auto|done]. }
  split; [|split; [by apply (core_turns s)|done]]. unfold s'. split; place; [done| |by destruct E3].
  intros x w. place. apply E2.
Qed.
Lemma SetMode_from T mode s : calm_ok s → core s → territory T (key_bindings s) → T = table (mode_ (lm s)) ∨ T = [] →
  wp (SetMode sm wm_TakeFocus mode) (ends_full s) s.
Proof.
  intros Hs Hc Ht HT. unfold SetMode, get at 1. apply wp_gets_bind. cbn [id].
  eapply wp_cut; [apply (RemoveKeyBindingsForMode_wp (mode_ (lm s)) T); [apply Hs|done|done]|].
  intros ? s1 Hre1. cbv beta in Hre1. destruct (rekeyed_step s s1 [] Hs Hc Hre1) as (Hs1 & Hc1 & Ht1). apply wp_modify_bind.
  destruct (set_mode_step s1 mode Hs1 Hc1) as (Hs2 & Hc2 & Ht2). set (s2 := set_lm _ s1) in *.
  assert (territory [] (key_bindings s2)) as Hk2 by (unfold s2; place; apply Hre1).
  assert (framed (still s2) rests (match mode with MODE_ACTIVE => enter_active_mode sm | MODE_OVERVIEW => enter_overview_mode sm wm_TakeFocus end)) as Henter.
  { destruct mode; [by apply calm_enter_active_mode|by apply calm_enter_overview_mode]. }
  eapply wp_cut; [by apply Henter, still_refl|]. intros _ s3 [[Hs3 _] (Ht3 & Hm3 & Hkb3)].
  assert (core s3) as Hc3 by by apply (core_turns s2).
  eapply wp_cut; [apply (AddKeyBindingsForMode_wp mode); [apply Hs3|by rewrite Hkb3]|]. intros ? s4 Hre4. cbv beta in Hre4.
  destruct (rekeyed_step s3 s4 _ Hs3 Hc3 Hre4) as (Hs4 & Hc4 & Ht4). pose proof Hre4 as (_ & (Hlm4 & _) & Hk4).
  assert (full s4) as Hf4.
  { split; [done|]. split; [done|]. rewrite Hlm4, Hm3. unfold s2. place. exact Hk4. }
  eapply wp_mono; [apply (calm_ends (ps ← get toplevels_; for_each (fun p => SendModeMessage (Some p)) ps) s4 Hf4)|].
  - apply calm_get_bind. intros m _ Hm. apply calm_for_each. intros p Hp. apply calm_SendModeMessage; [done|].
    intros q [= <-]. by apply (listed_now s4 m).
  - intros ? s5 [Hf5 Ht5]. split; [done|]. do 4 (etransitivity; [eassumption|]). done.
Qed.
Lemma runs_SetMode mode : runs (SetMode sm wm_TakeFocus mode).
Proof. intros s (Hs & Hc & Hk). apply (SetMode_from (table (mode_ (lm s)))); [done..|by left]. Qed.

Lemma runs_ret {A} (a : A) : runs (mret a).
Proof. apply framed_ret, _. Qed.
Lemma magnified_active s : calm_ok s → framed (still s) rests (upd (fun m => m <| active_toplevel_ := magnified_toplevel_ m |>)).
Proof.
  intros Hs. apply calm_lm_upd. intros m Hok Hm. split; [|split; [|done]].
  - pose proof Hok as []. by split.
  - split; [done|]. split; [unfold fewer, dropped; auto|done].
Qed.
Lemma runs_SwitchToActiveMode b : runs (SwitchToActiveMode sm wm_TakeFocus b).
Proof.
  intros s Hs. unfold SwitchToActiveMode, get. apply wp_gets_bind. cbn [id]. case_decide; [by apply full_ret|].
  apply calm_then; [done| |intros ? s1 Hs1 _; by apply runs_SetMode].
  destruct (b && _); [by apply magnified_active, Hs|apply framed_ret, _].
Qed.

(** With a result that is known. *)
Lemma gives_then {A B} (P : A → Prop) (m : M S A) (k : A → M S B) s : full s → gives s P m →
  (∀ a s1, P a → full s1 → rests s s1 → wp (k a) (ends_full s1) s1) → wp (m ≫= k) (ends_full s) s.
Proof.
  intros Hs Hm Hk. eapply wp_cut; [apply Hm; apply still_refl, Hs|]. intros a s1 (Ha & [Hs1 _] & Hr1).
  eapply wp_mono; [apply (Hk a s1); [done|by apply (full_rests s)|done]|]. intros b s2 [? ?]. split; [done|].
  etransitivity; [apply Hr1|done].
Qed.
Lemma gives_find x s : core s → gives s (all_listed s) (GetToplevelWindowByWindow x).
Proof.
  intros Hc s1 Hs1. unfold GetToplevelWindowByWindow, get. apply wp_gets_bind.
  eapply wp_mono; [apply find_toplevel_wp; intros p; apply (listed_heap s Hc), Hs1|]. intros o ? [-> Ho].
  split; [|by split]. intros p ->. apply (listed_now s (lm s1)); [apply Hs1|apply Ho].
Qed.

(** ** The floating tab *)

Lemma runs_MoveFloatingTab : runs (MoveFloatingTab sm wm_TakeFocus).
Proof.
  intros s Hs. pose proof Hs as (Hok & Hc & _). unfold MoveFloatingTab, get. apply wp_gets_bind. cbn [id].
  destruct (floating_tab_ (lm s)) as [tab|] eqn:Etab; [|by apply full_ret].
  assert (known tab s) as Ht by by apply (k_tab s Hc).
  pose proof Ht as [w Hw]. apply (window_wp _ _ _ _ w); [done|]. destruct (_ && _); [by apply full_ret|].
  apply calm_then; [done|destruct (negb _); [by apply calm_on_window; [|eauto with framed]|apply framed_ret, _]|].
  intros _ s1 Hs1 Hr1. destruct (match Window.type_params_ w with _ :: _ :: a :: b :: _ => (a, b) | _ => (0, 0) end) as [a b].
  assert (known tab s1) as Ht1 by by apply Hr1.
  apply calm_then; [done|by apply calm_on_window; [|eauto with framed]|]. intros _ s2 Hs2 Hr2.
  assert (known tab s2) as Ht2 by by apply Hr2.
  destruct (mode_ (lm s)).
  - destruct (in_overview_zone _ _); [by apply runs_SetMode|by apply full_ret].
  - apply calm_ends; [done|]. apply calm_move_tab_in_overview; [done|apply Hs2|done].
Qed.
Lemma tab_coalescer_step c s : full s → MotionEventCoalescer.synchronous_ c = MotionEventCoalescer.synchronous_ (tab_coalescer s) →
  full (set_tab_coalescer c s) ∧ turns s (set_tab_coalescer c s).
Proof.
  intros Hs Hc. destruct (lm_step s ((lm s) <| floating_tab_event_coalescer_ := c |>)) as [Hs' Hr']; [apply Hs| | |done|].
  - destruct (c_lm s (proj1 Hs)). split; try done. unfold asynchronous in *. cbn. by rewrite Hc.
  - split; [done|]. split; [unfold fewer, dropped; auto|done].
  - split; [by apply (full_rests s)|apply Hr'].
Qed.
Lemma runs_timeout_add ms : runs (timeout_add ms).
Proof. apply rests_runs. intros s0 _. apply calm_lm_timeout_add. Qed.
Lemma runs_source_remove i : runs (source_remove i).
Proof. apply rests_runs. intros s0 _. apply calm_lm_source_remove. Qed.
Lemma runs_StoreTabPosition px py : runs (StoreTabPosition sm wm_TakeFocus px py).
Proof. apply coalescer_StorePosition; [apply _|intros; by apply tab_coalescer_step|apply runs_MoveFloatingTab]. Qed.
Lemma runs_tab_Start : runs (MotionEventCoalescer.Start tab_coalescer set_tab_coalescer timeout_add).
Proof. apply coalescer_Start; [apply _|intros; by apply tab_coalescer_step|apply runs_timeout_add]. Qed.
Lemma runs_tab_Stop :
  runs (MotionEventCoalescer.Stop tab_coalescer set_tab_coalescer (MoveFloatingTab sm wm_TakeFocus) source_remove).
Proof.
  apply coalescer_Stop; [apply _|intros; by apply tab_coalescer_step|apply runs_MoveFloatingTab|apply runs_source_remove].
Qed.
Lemma runs_tab_HandleTimer :
  runs (MotionEventCoalescer.HandleTimer tab_coalescer set_tab_coalescer (MoveFloatingTab sm wm_TakeFocus)).
Proof. apply coalescer_HandleTimer; [apply _|intros; by apply tab_coalescer_step|apply runs_MoveFloatingTab]. Qed.

(** ** Clicks, messages and keys *)

Lemma runs_activate p s : full s → listed s p →
  wp (upd (fun m => m <| active_toplevel_ := Some p |>);; SetMode sm wm_TakeFocus MODE_ACTIVE) (ends_full s) s.
Proof.
  intros Hs Hp. apply calm_then; [done|by apply calm_set_active|]. intros _ s1 Hs1 _. by apply runs_SetMode.
Qed.
Lemma click_toplevel_wp p x s : full s → listed s p → wp (click_toplevel sm wm_TakeFocus p x) (ends_full s) s.
Proof.
  intros Hs Hp. unfold click_toplevel, get. apply wp_gets_bind. cbn [id]. case_decide; [by apply full_ret|].
  destruct (_ && _); [|by apply runs_activate]. apply calm_ends; [done|].
  apply framed_bind; [apply _|apply calm_SetMagnifiedToplevelWindow; [apply Hs|by intros q [= <-]]|intros _].
  apply calm_LayoutForOverviewMode; [done|apply Hs].
Qed.
Lemma input_listed x p s : full s → GetToplevelWindowByInputXid x (lm s) = Some p → listed s p.
Proof.
  intros (_ & Hc & _) Hp. apply (k_input s Hc) in Hp as (sh & Hsh & _). apply present_listed; [done|by exists sh].
Qed.
Lemma runs_HandleButtonPress x a b c d button t : runs (HandleButtonPress sm wm_TakeFocus x a b c d button t).
Proof.
  intros s Hs. pose proof Hs as (_ & Hc & _). unfold HandleButtonPress, get. apply wp_gets_bind. cbn [id].
  destruct (GetToplevelWindowByInputXid x (lm s)) as [p|] eqn:Ep.
  { destruct (_ =? _); [|by apply full_ret]. apply click_toplevel_wp; [done|by apply (input_listed x)]. }
  destruct (_ && _).
  - apply calm_ends; [done|]. apply framed_bind; [apply _| |intros _; apply calm_pan_Start].
    apply calm_lm_upd. intros m Hok Hm. split; [by pose proof Hok as []; split|]. split; [|done].
    split; [done|]. split; [unfold fewer, dropped; auto|done].
  - apply wp_gets_bind. destruct (GetWindow x s) as [w|] eqn:Ew; [|by apply full_ret].
    assert (known x s) as Hx by by exists w. apply calm_ends; [done|].
    apply calm_toplevel_for_bind; [done| |apply framed_ret, _]. intros p r Hp Hr _.
    apply calm_HandleButtonPress; [done|apply Hc|by apply listed_present|done].
Qed.

(** What the messages' handlers read. *)
Definition params_ok (msg : WmIpc.Message.t) : Prop := 3 ≤ WmIpc.Message.max_params msg.
Lemma param_run {A} i msg (k : Z → M S A) Q s : params_ok msg → 0 ≤ i < 3 → (∀ z, wp (k z) Q s) → wp (param i msg ≫= k) Q s.
Proof.
  unfold params_ok. intros Hm Hi Hk. unfold param, WmIpc.Message.param.
  destruct (Z.leb_spec 0 i); [|lia]. destruct (Z.ltb_spec i (WmIpc.Message.max_params msg)); [|lia]. apply Hk.
Qed.
Lemma runs_HandleChromeMessage msg s : params_ok msg → full s → wp (HandleChromeMessage sm wm_TakeFocus msg) (ends_full s) s.
Proof.
  intros Hm Hs. unfold HandleChromeMessage. case_match.
  - do 3 (apply param_run; [done|lia|intros ?]). unfold get. apply wp_gets_bind. cbn [id].
    destruct (floating_tab_ (lm s)) as [tab|] eqn:Et; [|by apply full_ret].
    destruct (k_tab s (proj1 (proj2 Hs)) tab Et) as [w Hw]. apply (window_wp _ _ _ _ w); [done|].
    case_match; [by apply runs_StoreTabPosition|by apply full_ret].
  - case_match; [|by apply full_ret]. apply runs_then; [done|apply runs_SetMode|]. intros _ s1 Hs1 _.
    apply param_run; [done|lia|intros z]. apply wp_gets_bind. destruct (GetWindow (u32 z) s1); [|by apply full_ret].
    pose proof Hs1 as (_ & Hc1 & _). apply calm_ends; [done|]. apply calm_find_bind; [done| |apply framed_ret, _].
    intros p r Hp Hr _. apply framed_bind; [apply _|apply calm_SetMagnifiedToplevelWindow; [done|by intros q [= <-]]|intros _].
    destruct (negb _); [|apply framed_ret, _]. apply calm_SendTabSummaryMessage; [done|by intros q [= <-]].
Qed.
Lemma runs_HandleClientMessage x type data : runs (HandleClientMessage sm wm_TakeFocus x type data).
Proof.
  intros s Hs. pose proof Hs as (Hok & Hc & _). unfold HandleClientMessage. apply wp_gets_bind.
  destruct (GetWindow x s) as [w|] eqn:Ew; [|by apply full_ret]. assert (known x s) as Hx by by exists w.
  case_match.
  - apply calm_ends; [done|]. apply framed_bind; [apply _|apply calm_on_window; [done|eauto with framed]|intros _; apply framed_ret, _].
  - case_match; [|by apply full_ret]. unfold get at 1. apply wp_gets_bind.
    assert (∀ o, (∀ p, o = Some p → listed s p) → ∀ s1, full s1 → rests s s1 →
      wp (match o with
          | None => mret ()
          | Some p =>
              m ← get id;
              match mode_ m with
              | MODE_ACTIVE =>
                  if decide (active_toplevel_ m = Some p) then Toplevel.TakeFocus sm p (u32 (default 0 (data !! 1%nat)))
                  else SetActiveToplevelWindow sm p ToplevelWindow.STATE_ACTIVE_MODE_IN_FADE ToplevelWindow.STATE_ACTIVE_MODE_OUT_FADE
              | MODE_OVERVIEW => upd (fun m => m <| active_toplevel_ := Some p |>);; SetMode sm wm_TakeFocus MODE_ACTIVE
              end
          end) (ends_full s1) s1) as Hrest.
    { intros [p|] Ho s1 Hs1 Hr1; [|by apply full_ret]. unfold get. apply wp_gets_bind. cbn [id].
      assert (listed s1 p) as Hp.
      { unfold listed. rewrite (toplevels_same (lm s)) by apply Hr1. by apply Ho. }
      destruct (mode_ (lm s1)); [|by apply runs_activate]. apply calm_ends; [done|]. pose proof Hs1 as (_ & Hc1 & _).
      case_decide; [apply calm_TakeFocus; [done|apply Hc1|by apply listed_present]|by apply calm_SetActiveToplevelWindow]. }
    apply (gives_then (all_listed s)); [done| |intros o s1 Ho Hs1 Hr1; by apply Hrest].
    destruct (GetToplevelWindowOwningTransientWindow x (lm s)) as [p|] eqn:Ep; [|by apply gives_find].
    assert (has0 s p x) as Hhas by by apply (owned_has s Hc (lm s)). pose proof (has_present s p x Hhas) as Hp.
    apply gives_calm_bind; [apply calm_SetPreferred; [apply Hc|done]|]. intros _. apply gives_ret.
    intros q [= <-]. by apply present_listed.
Qed.
Lemma runs_closure c : runs (run_closure sm wm_TakeFocus c).
Proof.
  destruct c; cbn [run_closure]; [apply runs_SetMode|apply runs_SwitchToActiveMode|..]; apply rests_runs; intros s0 Hc.
  - by apply calm_CycleActive.
  - by apply calm_CycleMagnified.
  - by apply calm_ActivateByIndex.
  - by apply calm_MagnifyByIndex.
  - by apply calm_SendDeleteRequest.
  - by apply calm_PanOverviewMode.
Qed.

(** ** Windows are unmapped *)

(** The layout manager has a pointer to the window. *)
Definition managed (x : Z) (s : S) : Prop :=
  (∃ p sh, tops (lm s) !! p = Some sh ∧ (sh_win sh = x ∨ x ∈ sh_transients sh)) ∨
  transient_to_toplevel_ (lm s) !! x ≠ None ∨
  floating_tab_ (lm s) = Some x ∨ tab_summary_ (lm s) = Some x ∨ create_browser_window_ (lm s) = Some x.
Definition off_the_record (x : Z) (s : S) : Prop :=
  floating_tab_ (lm s) ≠ Some x ∧ tab_summary_ (lm s) ≠ Some x ∧ create_browser_window_ (lm s) ≠ Some x.
Lemma off_turns x s s' : off_the_record x s → turns s s' → off_the_record x s'.
Proof.
  intros (H1' & H2' & H3') ((_ & (F1 & F2 & F3) & _) & _). unfold off_the_record. split_and!; intros Hx; auto.
Qed.
(** A field is cleared. *)
Lemma drop_step s m : full s → toplevels_ m = toplevels_ (lm s) → toplevel_heap_ m = toplevel_heap_ (lm s) →
  input_to_toplevel_ m = input_to_toplevel_ (lm s) → transient_to_toplevel_ m = transient_to_toplevel_ (lm s) →
  fewer (lm s) m → static_gradient_texture_ m = static_gradient_texture_ (lm s) → mode_ m = mode_ (lm s) → lm_ok m →
  full (set_lm m s) ∧ turns s (set_lm m s).
Proof.
  intros Hs E1 E2 E3 E4 E5 E6 E7 E8. destruct (lm_step s m) as [Hs' Hr']; [apply Hs|done| |done|].
  - split; [unfold bones, tops; by rewrite E1, E2, E3, E4|]. split; [done|by rewrite E6].
  - split; [by apply (full_rests s)|apply Hr'].
Qed.
Ltac drop := apply drop_step; try done; [unfold fewer, dropped; cbn; by split_and!|].

Lemma forget_window_wp x s : full s →
  wp (forget_window sm wm_TakeFocus x) (fun _ s' => full s' ∧ turns s s' ∧ off_the_record x s') s.
Proof.
  intros Hs. unfold forget_window, get at 1. apply wp_gets_bind. cbn [id].
  eapply (wp_cut _ _ (fun _ s1 => (full s1 ∧ turns s s1) ∧ floating_tab_ (lm s1) ≠ Some x)).
  { case_decide as Hx; [|by apply wp_ret]. eapply (wp_cut _ _ (ends_full s)).
    - destruct (MotionEventCoalescer.IsRunning _); [by apply runs_tab_Stop|by apply full_ret].
    - intros _ s1 [Hs1 Ht1]. apply wp_modify. set (m := _ <| floating_tab_ := None |>).
      destruct (drop_step s1 m) as [Hs2 Ht2]; try done; [unfold fewer, dropped; by split_and!|by destruct (c_lm s1 (proj1 Hs1))|].
      split; [split; [done|by etransitivity]|]. by place. }
  intros _ s1 [[Hs1 Ht1] Hf1].
  eapply (wp_cut _ _ (fun _ s2 => (full s2 ∧ turns s s2) ∧ floating_tab_ (lm s2) ≠ Some x ∧ tab_summary_ (lm s2) ≠ Some x)).
  { apply wp_modify. destruct (decide _) as [Hx|Hx].
    - set (m := _ <| tab_summary_ := None |>).
      destruct (drop_step s1 m) as [Hs2 Ht2]; try done; [unfold fewer, dropped; by split_and!|by destruct (c_lm s1 (proj1 Hs1))|].
      split; [split; [done|by etransitivity]|]. by place.
    - destruct (drop_step s1 (lm s1)) as [Hs2 Ht2]; try done; [unfold fewer, dropped; by split_and!|apply Hs1|].
      split; [split; [done|by etransitivity]|]. by place. }
  intros _ s2 [[Hs2 Ht2] [Hf2 Hu2]]. unfold get. apply wp_gets_bind. cbn [id].
  case_decide as Hx; [|apply wp_ret; by split_and!].
  apply wp_modify_bind. set (m := _ <| create_browser_window_ := None |>).
  destruct (drop_step s2 m) as [Hs3 Ht3]; try done; [unfold fewer, dropped; by split_and!|by destruct (c_lm s2 (proj1 Hs2))|].
  set (s3 := set_lm m s2) in *. assert (off_the_record x s3) as Hoff by (unfold off_the_record, s3; place; by split_and!).
  eapply (wp_mono _ (ends_full s3)).
  - case_decide; [|by apply full_ret]. apply calm_ends; [done|]. apply calm_LayoutForOverviewMode; [done|apply Hs3].
  - intros ? s4 [Hs4 Ht4]. split; [done|]. split; [by do 2 (etransitivity; [eassumption|])|by apply (off_turns x s3)].
Qed.

(** The parts of the books, as they may be after a change. *)
Lemma tops_bones m m' : same_lm m m' → toplevels_ m' = toplevels_ m ∧ tops m' = tops m ∧
  input_to_toplevel_ m' = input_to_toplevel_ m ∧ transient_to_toplevel_ m' = transient_to_toplevel_ m.
Proof. intros (Hb & _). unfold bones in Hb. injection Hb as -> -> -> ->. done. Qed.
Lemma tops_with p r m : tops (with_top p r m) = <[p := shape r]> (tops m).
Proof. unfold tops, with_top. cbn. apply fmap_insert. Qed.
(** One toplevel has other transients, and the map of transients says so. *)
Lemma core_retransient s s' p sh sh' : core s → tops (lm s) !! p = Some sh → body s' →
  toplevels_ (lm s') = toplevels_ (lm s) → tops (lm s') = <[p := sh']> (tops (lm s)) →
  input_to_toplevel_ (lm s') = input_to_toplevel_ (lm s) → sh_win sh' = sh_win sh → sh_input sh' = sh_input sh →
  (∀ y q, transient_to_toplevel_ (lm s') !! y = Some q ↔ ∃ sh, tops (lm s') !! q = Some sh ∧ y ∈ sh_transients sh) →
  fewer (lm s) (lm s') → (∀ y, known y s' ↔ known y s) → same_screen (lm_world s) (lm_world s') → core s'.
Proof.
  intros [E1 E2 E3 E4 E5 E6 E7 E8 E9 E10] Hp Hb Hps Htops Hin Hwin Hinput Htr (F1 & F2 & F3) Hkn (_ & _ & Hu).
  assert (∀ q sq, tops (lm s') !! q = Some sq → ∃ s0, tops (lm s) !! q = Some s0 ∧ sh_win sq = sh_win s0 ∧ sh_input sq = sh_input s0) as Hback.
  { intros q sq. rewrite Htops, lookup_insert. case_decide; [subst q; intros [= <-]; eauto|eauto]. }
  assert (∀ q sq, tops (lm s) !! q = Some sq → ∃ s1, tops (lm s') !! q = Some s1 ∧ sh_win s1 = sh_win sq ∧ sh_input s1 = sh_input sq) as Hforth.
  { intros q sq Hq. rewrite Htops, lookup_insert. case_decide; [subst q; rewrite Hp in Hq; injection Hq as <-; eauto|eauto]. }
  split; rewrite ?Hps, ?Hin; try done.
  - intros q. rewrite E2. split; intros [sq Hq]; [destruct (Hforth q sq Hq) as (s1 & ? & _)|destruct (Hback q sq Hq) as (s1 & ? & _)]; by exists s1.
  - intros q q' sq sq' Hq Hq' Heq. destruct (Hback q sq Hq) as (s1 & ? & W1 & _), (Hback q' sq' Hq') as (s2 & ? & W2 & _).
    apply (E4 q q' s1 s2); [done..|]. congruence.
  - intros q sq Hq. destruct (Hback q sq Hq) as (s1 & H1' & _ & ->). by apply Hu, (E5 q).
  - intros y q. rewrite E6. split; intros (sq & Hq & <-);
      [destruct (Hforth q sq Hq) as (s1 & ? & _ & ?)|destruct (Hback q sq Hq) as (s1 & ? & _ & ?)]; by exists s1.
  - intros y Hy. apply Hkn. auto.
  - intros y Hy. apply Hkn. auto.
  - intros y Hy. apply Hkn. auto.
Qed.
Lemma set_owners_ok s t : calm_ok s → calm_ok (set_lm ((lm s) <| transient_to_toplevel_ := t |>) s).
Proof. intros Hs. apply (calm_ok_alike s); [done| |intros; by place..]. place. by destruct (c_lm s Hs). Qed.
Lemma body_alike s s' : body s → tops (lm s') = tops (lm s) → (∀ y, known y s' ↔ known y s) → body s'.
Proof.
  intros Hb Ht Hk p sh. rewrite Ht. intros Hsh. destruct (Hb p sh Hsh) as (? & ? & ?). split; [by apply Hk|].
  split; [|done]. intros tr Htr. apply Hk. auto.
Qed.

(** A window is less than before: what it named is gone or as it was. *)
Definition shrinks (s s' : S) : Prop := ∀ q sh', tops (lm s') !! q = Some sh' →
  ∃ sh, tops (lm s) !! q = Some sh ∧ sh_win sh' = sh_win sh ∧ sh_transients sh' ⊆ sh_transients sh.
Lemma shrinks_turns s s1 s' : shrinks s s1 → turns s1 s' → shrinks s s'.
Proof. intros Hs ((Hb & _) & _) q sh'. rewrite (tops_same _ _ Hb). apply Hs. Qed.
Definition unowned (x : Z) (s : S) : Prop := transient_to_toplevel_ (lm s) !! x = None.
Lemma unowned_turns x s s' : unowned x s → turns s s' → unowned x s'.
Proof. unfold unowned. by intros Hx (Hlm & _); destruct (tops_bones _ _ Hlm) as (_ & _ & _ & ->). Qed.
Lemma removed_transient s s2 p x r : full s → toplevel_heap_ (lm s) !! p = Some r → calm_ok s2 → body s2 →
  off_the_record x s → same_lm (with_top p (r <| ToplevelWindow.transients_ := delete x (ToplevelWindow.transients_ r) |>) (lm s)
                       <| transient_to_toplevel_ := delete x (transient_to_toplevel_ (lm s)) |>) (lm s2) →
  transient_to_toplevel_ (lm s) !! x = Some p → mode_ (lm s2) = mode_ (lm s) → key_bindings s2 = key_bindings s →
  (∀ y, known y s2 ↔ known y s) → same_screen (lm_world s) (lm_world s2) →
  full s2 ∧ off_the_record x s2 ∧ unowned x s2 ∧ shrinks s s2.
Proof.
  intros (Hok & Hc & Hk) Hp Hok2 Hb2 Hoff Hlm Hx Hm Hkb Hkn Hscr. set (r' := r <| ToplevelWindow.transients_ := _ |>) in *.
  pose proof Hlm as (_ & Hf & _). destruct (tops_bones _ _ Hlm) as (B1 & B2 & B3 & B4). cbn in B1, B3, B4.
  assert (tops (lm s2) = <[p := shape r']> (tops (lm s))) as Htops by (rewrite B2; exact (tops_with p r' (lm s))). clear B2.
  pose proof (tops_lookup _ p r Hp) as Hsh. pose proof Hf as (F1 & F2 & F3). destruct Hoff as (O1 & O2 & O3).
  split; [|split; [|split]].
  - split; [done|]. split; [|by rewrite Hm, Hkb].
    apply (core_retransient s s2 p (shape r) (shape r')); try done. intros y q. rewrite B4, lookup_delete_Some, (k_transient s Hc).
    rewrite Htops. setoid_rewrite lookup_insert. destruct (decide (p = q)) as [<-|Hq].
    + split.
      * intros [Hne (sh & Hsh' & Hin)]. exists (shape r'). split; [done|]. rewrite Hsh in Hsh'. injection Hsh' as <-.
        cbn in Hin |- *. rewrite dom_delete_L. set_solver.
      * intros (sh & [= <-] & Hin). cbn in Hin. rewrite dom_delete_L in Hin. split; [set_solver|].
        exists (shape r). split; [done|]. cbn. set_solver.
    + split; [by intros [_ ?]|]. intros (sh & Hsh' & Hin). split; [|by exists sh]. intros <-. apply Hq.
      assert (transient_to_toplevel_ (lm s) !! x = Some q) as Hx' by (apply (k_transient s Hc); by exists sh). congruence.
  - split_and!; intros Hy; [by apply O1, F1|by apply O2, F2|by apply O3, F3].
  - unfold unowned. rewrite B4. apply lookup_delete_eq.
  - intros q sh'. rewrite Htops, lookup_insert. case_decide as Hq; [|by exists sh'].
    subst q. intros [= <-]. exists (shape r). split; [done|]. split; [done|]. cbn. rewrite dom_delete_L. set_solver.
Qed.
Lemma unmap_transient_wp x p s : full s → transient_to_toplevel_ (lm s) !! x = Some p → off_the_record x s →
  wp (unmap_transient sm self x p)
     (fun _ s' => full s' ∧ off_the_record x s' ∧ (∀ y, known y s' ↔ known y s) ∧ unowned x s' ∧ shrinks s s') s.
Proof.
  intros Hs Hx Hoff. pose proof Hs as (Hok & Hc & Hk). pose proof Hx as (sh & Hsh & Hin)%(k_transient s Hc).
  destruct (tops_lookup_inv _ p sh Hsh) as (r & Hp & <-). cbn in Hin.
  destruct (k_body s Hc p (shape r) Hsh) as (Hkw & Hkt & _). pose proof (Hkt x Hin) as [w Hw].
  unfold unmap_transient. apply (window_wp _ _ _ _ w); [done|].
  eapply wp_cut; [apply (RemoveTransientWindow_wp sm Hsm self p x s r); [done|apply Hc|done..]|]. intros _ s1 (Hok1 & Hb1 & Hg1).
  pose proof Hg1 as (Hlm1 & Hm1 & Hkn1 & Hscr1 & Hkb1). apply wp_modify_bind. set (s2 := set_lm _ s1).
  assert (∀ y, known y s2 ↔ known y s) as Hkn2 by (intros y; unfold s2, known; place; apply Hkn1).
  destruct (removed_transient s s2 p x r) as (Hs2 & Hoff2 & Hun2 & Hshr2); try done.
  - by apply set_owners_ok.
  - apply (body_alike s1); [done|unfold s2; by place|]. intros y. unfold s2, known. by place.
  - unfold s2. place. destruct Hlm1 as (Hb & Hf & Hst). split; [|by split]. unfold bones in *. injection Hb as B1 B2 B3 B4.
    unfold tops in *. cbn in *. by rewrite B1, B2, B3, B4.
  - unfold s2. place. cbn. exact Hm1.
  - unfold s2. by place.
  - unfold s2. by place.
  - eapply (wp_mono _ (ends_full s2)).
    + destruct (Window.focused_ w); [|by apply full_ret]. apply calm_ends; [done|].
      apply framed_bind; [apply _|apply calm_GetCurrentTimeFromServer|intros t].
      apply calm_TakeFocus; [done|apply Hs2|]. destruct (tops_bones _ _ Hlm1) as (_ & B2 & _).
      assert (tops (lm s2) = tops (lm s1)) as E by (unfold s2; by place).
      unfold present. rewrite E, B2, tops_with, lookup_insert_eq. by eexists.
    + intros ? s3 [Hs3 Ht3]. split; [done|]. split; [by apply (off_turns x s2)|].
      split; [intros y; rewrite <-Hkn2; apply Ht3|]. split; [by apply (unowned_turns x s2)|by apply (shrinks_turns s s2)].
Qed.

Lemma index_lookup p m : p ∈ toplevels_ m →
  ∃ i : nat, GetIndexForToplevelWindow p m = Z.of_nat i ∧ toplevels_ m !! i = Some p.
Proof.
  intros Hp. unfold GetIndexForToplevelWindow. destruct (list_find (eq p) (toplevels_ m)) as [[i q]|] eqn:E.
  - apply list_find_Some in E as (Hi & <- & _). by exists i.
  - apply list_find_None in E. rewrite Forall_forall in E. by destruct (E p Hp).
Qed.
Lemma elem_of_delete_nodup (l : list Z) i p q : NoDup l → l !! i = Some p → q ∈ delete i l ↔ q ∈ l ∧ q ≠ p.
Proof.
  intros Hnd Hi. rewrite <-(take_drop_middle l i p Hi) in Hnd at 1. rewrite <-(take_drop_middle l i p Hi) at 2.
  rewrite delete_take_drop. apply NoDup_app in Hnd as (Hnd1 & Hd & Hnd2). apply NoDup_cons in Hnd2 as [Hnd2 _].
  rewrite !elem_of_app, elem_of_cons. split.
  - intros [Hq|Hq]; (split; [tauto|intros ->]); [apply (Hd p Hq); by left|done].
  - intros [[?|[?|?]] ?]; [by left|done|by right].
Qed.
Lemma SetMagnified_none_wp s : full s →
  wp (SetMagnifiedToplevelWindow None) (fun _ s' => (full s' ∧ turns s s') ∧ magnified_toplevel_ (lm s') = None) s.
Proof.
  intros Hs. unfold SetMagnifiedToplevelWindow, get. apply wp_gets_bind. case_decide as Hn; [by apply wp_ret|].
  eapply (wp_cut _ _ (ends_full s)).
  - destruct (_ && _); [|by apply full_ret]. apply calm_ends; [done|]. apply calm_SendTabSummaryMessage; [apply Hs|].
    intros p. apply (ok_magnified (lm s)), Hs.
  - intros _ s1 [Hs1 Ht1]. apply wp_modify. set (m := _ <| magnified_toplevel_ := None |>).
    destruct (drop_step s1 m) as [Hs2 Ht2]; try done; [unfold fewer, dropped; by split_and!|by destruct (c_lm s1 (proj1 Hs1))|].
    split; [split; [done|by etransitivity]|]. by place.
Qed.
(** Nothing points to the toplevel any more. *)
Definition unpointed (p : Z) (m : LayoutManager.t) : Prop :=
  magnified_toplevel_ m ≠ Some p ∧ active_toplevel_ m ≠ Some p ∧ toplevel_under_floating_tab_ m ≠ Some p.
Lemma unpoint_wp {A} p (k : M S A) Q s : full s →
  (∀ s', full s' → turns s s' → unpointed p (lm s') → wp k Q s') →
  wp (m ← get id;
      (if decide (magnified_toplevel_ m = Some p) then SetMagnifiedToplevelWindow None else mret ());;
      upd (fun m => if decide (active_toplevel_ m = Some p) then m <| active_toplevel_ := None |> else m);;
      upd (fun m => if decide (toplevel_under_floating_tab_ m = Some p) then m <| toplevel_under_floating_tab_ := None |> else m);;
      k) Q s.
Proof.
  intros Hs Hk. unfold get. apply wp_gets_bind. cbn [id].
  eapply (wp_cut _ _ (fun _ s1 => (full s1 ∧ turns s s1) ∧ magnified_toplevel_ (lm s1) ≠ Some p)).
  { case_decide; [|by apply wp_ret]. eapply wp_mono; [by apply SetMagnified_none_wp|]. intros _ s1 [? ->]. done. }
  intros _ s1 [[Hs1 Ht1] Hm1]. apply wp_modify_bind. set (m2 := if decide (active_toplevel_ _ = _) then _ else _).
  pose proof (c_lm s1 (proj1 Hs1)) as Hok1.
  assert (lm_ok m2 ∧ active_toplevel_ m2 ≠ Some p ∧ magnified_toplevel_ m2 ≠ Some p ∧ bones m2 = bones (lm s1)) as (Hok2 & Ha2 & Hm2 & _).
  { unfold m2. case_decide; [|done]. split; [by destruct Hok1|done]. }
  destruct (drop_step s1 m2) as [Hs2 Ht2]; try done; try (by unfold m2; case_decide).
  { unfold m2, fewer, dropped. case_decide; by split_and!. }
  apply wp_modify_bind. set (s2 := set_lm m2 s1) in *. assert (lm s2 = m2) as E2 by (unfold s2; by place).
  set (m3 := if decide (toplevel_under_floating_tab_ _ = _) then _ else _). rewrite <-E2 in *.
  assert (lm_ok m3 ∧ unpointed p m3) as (Hok3 & Hun3).
  { unfold m3, unpointed. case_decide; [|done]. split; [by destruct Hok2|done]. }
  destruct (drop_step s2 m3) as [Hs3 Ht3]; try done; try (by unfold m3; case_decide).
  { unfold m3, fewer, dropped. case_decide; by split_and!. }
  apply Hk; [done|by do 2 (etransitivity; [eassumption|])|by place].
Qed.

(** A toplevel is gone, and so are its window and its input window. *)
Lemma core_without s s' p sh : core s → tops (lm s) !! p = Some sh → sh_transients sh = ∅ →
  toplevels_ (lm s') = filter (fun q => q ≠ p) (toplevels_ (lm s)) → tops (lm s') = delete p (tops (lm s)) →
  input_to_toplevel_ (lm s') = delete (sh_input sh) (input_to_toplevel_ (lm s)) →
  transient_to_toplevel_ (lm s') = transient_to_toplevel_ (lm s) →
  fewer (lm s) (lm s') → (∀ y, known y s' ↔ known y s) → same_screen (lm_world s) (lm_world s') → core s'.
Proof.
  intros [E1 E2 E3 E4 E5 E6 E7 E8 E9 E10] Hp Hnone Hps Htops Hin Htr (F1 & F2 & F3) Hkn (_ & _ & Hu).
  assert (∀ q sq, tops (lm s') !! q = Some sq ↔ q ≠ p ∧ tops (lm s) !! q = Some sq) as Hsame.
  { intros q sq. rewrite Htops, lookup_delete_Some. naive_solver. }
  split; rewrite ?Hps, ?Hin, ?Htr.
  - intros q sq Hq. apply Hsame in Hq as [_ Hq]. destruct (E1 q sq Hq) as (? & ? & ?). split; [by apply Hkn|]. split; [|done].
    intros t Ht. apply Hkn. auto.
  - intros q. rewrite list_elem_of_filter, E2. split.
    + intros [Hne [sq Hq]]. exists sq. by apply Hsame.
    + intros [sq Hq]. apply Hsame in Hq as [Hne Hq]. split; [done|by exists sq].
  - by apply NoDup_filter.
  - intros q q' sq sq' [_ Hq]%Hsame [_ Hq']%Hsame. by apply E4.
  - intros q sq [_ Hq]%Hsame. by apply Hu, (E5 q).
  - intros y q. rewrite lookup_delete_Some, E6. setoid_rewrite Hsame. split.
    + intros [Hne (sq & Hq & <-)]. exists sq. split; [|done]. split; [|done]. intros ->. rewrite Hp in Hq. by injection Hq as <-.
    + intros (sq & [Hne Hq] & <-). split; [|by exists sq]. intros Heq. apply Hne.
      assert (input_to_toplevel_ (lm s) !! sh_input sq = Some q) as H1' by (apply E6; by exists sq).
      assert (input_to_toplevel_ (lm s) !! sh_input sq = Some p) as H2' by (apply E6; by exists sh). congruence.
  - intros y q. rewrite E7. setoid_rewrite Hsame. split.
    + intros (sq & Hq & Hin'). exists sq. split; [|done]. split; [|done]. intros ->. rewrite Hp in Hq. injection Hq as <-.
      rewrite Hnone in Hin'. set_solver.
    + intros (sq & [_ Hq] & ?). by exists sq.
  - intros y Hy. apply Hkn. auto.
  - intros y Hy. apply Hkn. auto.
  - intros y Hy. apply Hkn. auto.
Qed.

Lemma filter_delete (l : list Z) i p : NoDup l → l !! i = Some p → delete i l = filter (fun q => q ≠ p) l.
Proof.
  revert i. induction l as [|q l IH]; intros i Hnd Hi; [by destruct i|]. apply NoDup_cons in Hnd as [Hq Hnd]. destruct i as [|i].
  - injection Hi as ->. rewrite filter_cons_False by naive_solver. cbn. clear IH. induction l as [|q l IH]; [done|].
    apply not_elem_of_cons in Hq as [? ?]. apply NoDup_cons in Hnd as [? ?]. rewrite filter_cons_True by congruence. f_equal. auto.
  - cbn in Hi. rewrite filter_cons_True; [cbn; f_equal; auto|]. intros ->. apply Hq. by eapply list_elem_of_lookup_2.
Qed.
Lemma choose_active_wp x index s : full s → known x s → wp (choose_active sm wm_TakeFocus x index) (ends_full s) s.
Proof.
  intros Hs Hx. pose proof Hs as (_ & Hc & _). unfold choose_active, get. apply wp_gets_bind. cbn [id].
  destruct (toplevels_ (lm s)) as [|q qs] eqn:El.
  - apply calm_ends; [done|]. apply calm_window_bind; [done|]. intros w _ _. destruct (Window.focused_ w); [|apply framed_ret, _].
    apply framed_bind; [apply _|apply calm_SetActiveWindowProperty|intros _; by apply wm_focus_calm].
  - rewrite <-El. apply calm_ends; [done|]. apply calm_toplevel_or_die.
    + apply Z.mod_pos_bound. rewrite El. unfold zlen. cbn. lia.
    + intros p Hp. by apply calm_SetActiveToplevelWindow.
Qed.
Lemma unmap_toplevel_wp x p r s : full s → toplevel_heap_ (lm s) !! p = Some r → ToplevelWindow.win_ r = x →
  dom (ToplevelWindow.transients_ r) = ∅ → off_the_record x s → unowned x s →
  wp (unmap_toplevel sm self wm_TakeFocus x p) (fun _ s' => full s' ∧ ¬ managed x s') s.
Proof.
  intros Hs Hp Hwin Hnone Hoff Hun. unfold unmap_toplevel. apply unpoint_wp; [done|]. intros s3 Hs3 Ht3 (Pm & Pa & Pu).
  pose proof Hs3 as (Hok3 & Hc3 & Hk3). pose proof Ht3 as (Hlm3 & Hkn3 & _). destruct (tops_bones _ _ Hlm3) as (B1 & B2 & B3 & B4).
  pose proof (tops_lookup _ p r Hp) as Hsh. rewrite <-B2 in Hsh. destruct (tops_lookup_inv _ p _ Hsh) as (r3 & Hp3 & Hr3).
  assert (p ∈ toplevels_ (lm s3)) as Hin by (apply (k_heap s3 Hc3); by eexists).
  destruct (index_lookup p (lm s3) Hin) as (i & Hi & Hlook).
  destruct (k_body s3 Hc3 p _ Hsh) as (Hkw & _ & _).
  unfold get. apply wp_gets_bind. cbn [id]. apply (top_wp _ _ _ _ r3); [done|].
  assert (ToplevelWindow.input_xid_ r3 = sh_input (shape r)) as Hinput by by rewrite <-Hr3.
  apply wp_CHECK_bind.
  { apply bool_decide_eq_true_2. exists p. apply (k_input s3 Hc3). exists (shape r). by rewrite Hinput. }
  apply wp_modify_bind. set (m4 := _ <| toplevels_ := _ |>). set (s4 := set_lm m4 s3).
  assert (calm_ok s4) as Hok4.
  { apply (calm_ok_alike s3); [done| |intros; unfold s4; by place..]. unfold s4. place. destruct (c_lm s3 Hok3) as [E1 E2 E3 E4 E5 E6 E7].
    subst m4. split; try done; cbn; rewrite ?Hi, ?Nat2Z.id; intros q Hq;
      apply (elem_of_delete_nodup _ _ p); try done; try apply Hc3; split; auto; congruence. }
  assert (toplevel_heap_ (lm s4) !! p = Some r3) as Hp4 by (unfold s4; by place).
  eapply wp_cut; [apply (toplevel_destroy_wp self p s4 r3 Hok4 Hp4)|].
  { unfold s4, known. place. apply (f_equal sh_win) in Hr3. cbn in Hr3. rewrite Hr3. exact Hkw. }
  { apply dom_empty_iff_L. apply (f_equal sh_transients) in Hr3. cbn in Hr3. by rewrite Hr3. }
  intros _ s5 (Hok5 & Hg5). pose proof Hg5 as (Hlm5 & Hm5 & Hkn5 & Hscr5 & Hkb5). destruct (tops_bones _ _ Hlm5) as (D1 & D2 & D3 & D4).
  assert (∀ y, known y s5 ↔ known y s3) as Hkn by (intros y; rewrite Hkn5; unfold s4, known; by place).
  assert (lm s4 = m4) as E4 by (unfold s4; by place). rewrite E4 in *. clear E4.
  assert (tops (lm s5) = delete p (tops (lm s3))) as Htops5 by (rewrite D2; unfold tops; cbn; by rewrite fmap_delete).
  assert (full s5) as Hs5.
  { split; [done|]. split.
    - apply (core_without s3 s5 p (shape r)); try done.
      + rewrite D1. unfold m4. cbn. rewrite Hi, Nat2Z.id. apply filter_delete; [apply Hc3|done].
      + rewrite D3. unfold m4. cbn. by rewrite Hinput.
      + destruct Hlm5 as (_ & F & _). exact F.
      + unfold s4 in Hscr5. by rewrite lp_world_lm in Hscr5.
    - rewrite Hm5, Hkb5. unfold s4. place. exact Hk3. }
  assert (¬ managed x s5) as Hgone.
  { intros [(q & sh & Hq & Hor)|[Hown|Hspecial]].
    - rewrite Htops5 in Hq. apply lookup_delete_Some in Hq as [Hne Hq]. destruct Hor as [Hw|Htr].
      + apply Hne. apply (k_apart s3 Hc3 p q (shape r) sh); [done..|]. rewrite Hw. exact Hwin.
      + assert (transient_to_toplevel_ (lm s3) !! x = Some q) as Hx by (apply (k_transient s3 Hc3); by exists sh).
        rewrite B4 in Hx. unfold unowned in Hun. congruence.
    - rewrite D4 in Hown. cbn in Hown. rewrite B4 in Hown. done.
    - destruct (off_turns x s s3 Hoff Ht3) as (O1 & O2 & O3). destruct Hlm5 as (_ & (F1 & F2 & F3) & _).
      destruct Hspecial as [Hx|[Hx|Hx]]; [apply O1|apply O2|apply O3]; [by apply F1 in Hx|by apply F2 in Hx|by apply F3 in Hx]. }
  eapply (wp_mono _ (ends_full s5)).
  - unfold get. apply wp_gets_bind. cbn [id]. destruct (mode_ (lm s5)).
    + destruct (active_toplevel_ (lm s5)); [by apply full_ret|]. apply choose_active_wp; [done|]. apply Hkn.
      unfold known in Hkw. cbn in Hkw. by rewrite Hwin in Hkw.
    + apply calm_ends; [done|]. apply calm_LayoutForOverviewMode; [done|apply Hs5].
  - intros ? s6 [Hs6 ((Hb6 & (F1 & F2 & F3) & _) & _)]. split; [done|]. intros Hman. apply Hgone. unfold managed in *.
    unfold bones in Hb6. injection Hb6 as _ G2 _ G4. rewrite G2, G4 in Hman.
    destruct Hman as [?|[?|[?|[?|?]]]]; [by left|by right; left|right; right; left; by apply F1|right; right; right; left; by apply F2|].
    right; right; right; right. by apply F3.
Qed.

(** [HandleWindowUnmap]: a toplevel that goes has no transients any more. *)
Definition alone (x : Z) (s : S) : Prop := ∀ p sh, tops (lm s) !! p = Some sh → sh_win sh = x → sh_transients sh = ∅.
Lemma lm_HandleWindowUnmap_wp x s : full s → known x s → alone x s →
  wp (HandleWindowUnmap sm self wm_TakeFocus x) (fun _ s' => full s' ∧ ¬ managed x s') s.
Proof.
  intros Hs [w Hw] Halone. unfold HandleWindowUnmap. apply (window_wp _ _ _ _ w); [done|].
  eapply wp_cut; [by apply forget_window_wp|]. intros _ s1 (Hs1 & Ht1 & Hoff1). apply wp_gets_bind.
  assert (shrinks s s1) as Hshr1.
  { intros q sh' Hq. destruct Ht1 as (Hlm & _). destruct (tops_bones _ _ Hlm) as (_ & E & _). rewrite E in Hq. by exists sh'. }
  eapply (wp_cut _ _ (fun _ s2 => full s2 ∧ off_the_record x s2 ∧ unowned x s2 ∧ shrinks s s2)).
  { destruct (GetToplevelWindowOwningTransientWindow x (lm s1)) as [p|] eqn:Ep; [|by apply wp_ret].
    eapply wp_mono; [by apply unmap_transient_wp|]. intros _ s2 (Hs2 & Hoff2 & _ & Hun2 & Hshr2). split_and!; try done.
    intros q sh' Hq. destruct (Hshr2 q sh' Hq) as (sh1 & Hq1 & Hw1 & Hsub1). destruct (Hshr1 q sh1 Hq1) as (sh & ? & ? & ?).
    exists sh. split; [done|]. split; [congruence|set_solver]. }
  intros _ s2 (Hs2 & Hoff2 & Hun2 & Hshr2). pose proof Hs2 as (_ & Hc2 & _). unfold GetToplevelWindowByWindow, get.
  apply wp_bind, wp_gets_bind. eapply wp_mono; [apply find_toplevel_wp|].
  { intros p Hp. apply (k_heap s2 Hc2) in Hp as [sh Hsh]. destruct (tops_lookup_inv _ p sh Hsh) as (r & Hr & _). by exists r. }
  intros o ? [-> Ho]. destruct o as [p|].
  - destruct Ho as (Hp & r & Hr & Hwin). apply (unmap_toplevel_wp x p r); try done.
    destruct (Hshr2 p (shape r) (tops_lookup _ p r Hr)) as (sh & Hsh & Hw' & Hsub). cbn in Hw', Hsub.
    rewrite (Halone p sh Hsh) in Hsub by congruence. set_solver.
  - apply wp_ret. split; [done|]. intros [(q & sh & Hq & [Hw'|Htr])|[Hown|Hspecial]].
    + destruct (tops_lookup_inv _ q sh Hq) as (r & Hr & <-). apply (Ho q r); [apply (k_heap s2 Hc2); by eexists|done|done].
    + assert (transient_to_toplevel_ (lm s2) !! x = Some q) as Hx by (apply (k_transient s2 Hc2); by exists sh).
      unfold unowned in Hun2. congruence.
    + done.
    + destruct Hoff2 as (O1 & O2 & O3). destruct Hspecial as [?|[?|?]]; auto.
Qed.

(** ** Windows are mapped *)

Abbreviation to_full := (fun _ s' => full s').
Lemma to_full_calm {A} (m : M S A) s : full s → framed (still s) rests m → wp m to_full s.
Proof. intros Hs Hm. eapply wp_mono; [by apply calm_ends|]. by intros ? s' [? _]. Qed.
Lemma calm_to {A B} (m : M S A) (k : A → M S B) s : full s → framed (still s) rests m →
  (∀ a s1, full s1 → rests s s1 → wp (k a) to_full s1) → wp (m ≫= k) to_full s.
Proof.
  intros Hs Hm Hk. eapply wp_cut; [apply Hm; apply still_refl, Hs|]. intros a s1 [[Hs1 _] Hr1].
  apply Hk; [by apply (full_rests s)|done].
Qed.
Lemma on_window_to {A B} x (m : M (Window.t * W) A) (k : A → M S B) s : full s → known x s → renaming m →
  (∀ a s1, full s1 → known x s1 → wp (k a) to_full s1) → wp (on_window x m ≫= k) to_full s.
Proof.
  intros Hs Hx Hm Hk. apply calm_to; [done|by apply calm_on_window|]. intros a s1 Hs1 Hr1. apply Hk; [done|by apply Hr1].
Qed.
(** A pointer to a window that is there. *)
Lemma full_special s m : full s → toplevels_ m = toplevels_ (lm s) → toplevel_heap_ m = toplevel_heap_ (lm s) →
  input_to_toplevel_ m = input_to_toplevel_ (lm s) → transient_to_toplevel_ m = transient_to_toplevel_ (lm s) →
  mode_ m = mode_ (lm s) → lm_ok m →
  (∀ x, floating_tab_ m = Some x ∨ tab_summary_ m = Some x ∨ create_browser_window_ m = Some x → known x s) →
  full (set_lm m s).
Proof.
  intros (Hok & Hc & Hk) E1 E2 E3 E4 E5 E6 E7. assert (∀ x, known x (set_lm m s) ↔ known x s) as Hkn by (intros x; unfold known; by place).
  assert (tops (lm (set_lm m s)) = tops (lm s)) as Htops by (place; unfold tops; by rewrite E2).
  split; [|split; [|place; by rewrite E5]].
  - apply (calm_ok_alike s); [done|by place|intros; by place..].
  - destruct Hc as [F1 F2 F3 F4 F5 F6 F7 F8 F9 F10]. split; rewrite ?Htops; place; rewrite ?E1, ?E3, ?E4; try done.
    + by apply (body_alike s).
    + intros x Hx. apply Hkn, E7. by left.
    + intros x Hx. apply Hkn, E7. right. by left.
    + intros x Hx. apply Hkn, E7. right. by right.
Qed.
Lemma special_known x s : full s → floating_tab_ (lm s) = Some x ∨ tab_summary_ (lm s) = Some x ∨ create_browser_window_ (lm s) = Some x → known x s.
Proof. intros (_ & Hc & _) [?|[?|?]]; [by apply (k_tab s Hc)|by apply (k_summary s Hc)|by apply (k_create s Hc)]. Qed.
Lemma set_summary_wp x s : full s → known x s → wp (upd (fun m => m <| tab_summary_ := Some x |>)) to_full s.
Proof.
  intros Hs Hx. apply wp_modify. apply full_special; try done; [by destruct (c_lm s (proj1 Hs))|]. cbn.
  intros y [Hy|[[= <-]|Hy]]; [apply (special_known y s Hs); auto|done|apply (special_known y s Hs); auto].
Qed.
Ltac on_win := apply on_window_to; [assumption..|eauto with framed|intros _ ? ? ?].
Lemma show_override_redirect_wp x s : full s → known x s → wp (show_override_redirect sm x) to_full s.
Proof.
  intros Hs Hx. unfold show_override_redirect. pose proof Hx as [w Hw]. apply (window_wp _ _ _ _ w); [done|]. case_match.
  - do 4 on_win. by apply set_summary_wp.
  - apply to_full_calm; [done|]. apply calm_on_window; [done|eauto with framed].
Qed.
Lemma map_tab_summary_wp x s : full s → known x s → wp (map_tab_summary x) to_full s.
Proof.
  intros Hs Hx. unfold map_tab_summary, get. apply wp_gets_bind. pose proof Hx as [w Hw]. apply (window_wp _ _ _ _ w); [done|].
  do 6 on_win. by apply set_summary_wp.
Qed.
Lemma hide_old_wp {A} o (k : M S A) s : full s → (∀ x, o = Some x → known x s) →
  (∀ s1, full s1 → (∀ x, known x s1 ↔ known x s) → rests s s1 → wp k to_full s1) →
  wp ((match o with Some old => on_window old Window.HideComposited | None => mret () end);; k) to_full s.
Proof.
  intros Hs Ho Hk. apply calm_to; [done| |intros _ s1 Hs1 Hr1; apply Hk; [done|apply Hr1|done]].
  destruct o as [old|]; [|apply framed_ret, _]. apply calm_on_window; [by apply Ho|eauto with framed].
Qed.
Lemma map_floating_tab_wp x s : full s → known x s → wp (map_floating_tab sm wm_TakeFocus x) to_full s.
Proof.
  intros Hs Hx. unfold map_floating_tab. do 3 on_win. 
  match goal with |- wp _ _ ?s' => set (s3 := s') in * end. unfold get. apply wp_gets_bind. cbn [id].
  apply hide_old_wp; [done|intros y Hy; apply (special_known y s3); auto|]. intros s4 Hs4 Hkn4 Hr4. apply wp_modify_bind.
  set (m5 := _ <| floating_tab_ := Some x |>).
  assert (full (set_lm m5 s4)) as Hs5.
  { apply full_special; try done; [by destruct (c_lm s4 (proj1 Hs4))|]. cbn.
    intros y [[= <-]|Hy]; [by apply Hkn4|apply (special_known y s4 Hs4); tauto]. }
  set (s5 := set_lm m5 s4) in *. assert (known x s5) as Hx5 by (unfold s5, known; place; by apply Hkn4).
  eapply (wp_cut _ _ (ends_full s5)).
  { destruct (MotionEventCoalescer.IsRunning _); [by apply full_ret|by apply runs_tab_Start]. }
  intros _ s6 [Hs6 Ht6]. destruct Ht6 as (_ & Hkn6 & _). destruct (proj2 (Hkn6 x) Hx5) as [w6 Hw6].
  apply (window_wp _ _ _ _ w6); [done|]. destruct (Window.type_params_ w6) as [|a [|b l]]; [by apply wp_ret..|].
  eapply wp_mono; [by apply runs_StoreTabPosition|]. by intros ? s7 [? _].
Qed.
Lemma map_create_browser_window_wp x s : full s → known x s → wp (map_create_browser_window sm x) to_full s.
Proof.
  intros Hs Hx. unfold map_create_browser_window, get. apply wp_gets_bind. cbn [id].
  apply hide_old_wp; [done|intros y Hy; apply (special_known y s); auto|]. intros s1 Hs1 Hkn1 Hr1. apply wp_modify_bind.
  set (m2 := _ <| create_browser_window_ := Some x |>).
  assert (full (set_lm m2 s1)) as Hs2.
  { apply full_special; try done; [by destruct (c_lm s1 (proj1 Hs1))|]. cbn.
    intros y [Hy|[Hy|[= <-]]]; [apply (special_known y s1 Hs1); tauto..|by apply Hkn1]. }
  set (s2 := set_lm m2 s1) in *. assert (known x s2) as Hx2 by (unfold s2, known; place; by apply Hkn1).
  on_win. destruct (mode_ (lm s)); [by apply wp_ret|]. on_win.
  match goal with |- wp _ _ ?s' => set (s4 := s') in * end. apply to_full_calm; [done|].
  apply calm_LayoutForOverviewMode; [done|]. match goal with H : full s4 |- _ => apply H end.
Qed.

Lemma added_transient s s2 p x r : full s → toplevel_heap_ (lm s) !! p = Some r → calm_ok s2 → body s2 →
  same_lm (with_top p (r <| ToplevelWindow.transients_ := <[x := TransientWindow.new]> (ToplevelWindow.transients_ r) |>) (lm s)
             <| transient_to_toplevel_ := <[x := p]> (transient_to_toplevel_ (lm s)) |>) (lm s2) →
  transient_to_toplevel_ (lm s) !! x = None → mode_ (lm s2) = mode_ (lm s) → key_bindings s2 = key_bindings s →
  (∀ y, known y s2 ↔ known y s) → same_screen (lm_world s) (lm_world s2) → full s2.
Proof.
  intros (Hok & Hc & Hk) Hp Hok2 Hb2 Hlm Hx Hm Hkb Hkn Hscr. set (r' := r <| ToplevelWindow.transients_ := _ |>) in *.
  pose proof Hlm as (_ & Hf & _). destruct (tops_bones _ _ Hlm) as (B1 & B2 & B3 & B4). cbn in B1, B3, B4.
  assert (tops (lm s2) = <[p := shape r']> (tops (lm s))) as Htops by (rewrite B2; exact (tops_with p r' (lm s))). clear B2.
  pose proof (tops_lookup _ p r Hp) as Hsh. split; [done|]. split; [|by rewrite Hm, Hkb].
  apply (core_retransient s s2 p (shape r) (shape r')); try done. intros y q. rewrite B4, Htops.
  rewrite lookup_insert_Some, (k_transient s Hc). setoid_rewrite lookup_insert. destruct (decide (p = q)) as [<-|Hq].
  - split.
    + intros [[<- _]|[Hne (sh & Hsh' & Hin)]]; exists (shape r'); (split; [done|]); cbn; rewrite dom_insert_L; [set_solver|].
      rewrite Hsh in Hsh'. injection Hsh' as <-. cbn in Hin. set_solver.
    + intros (sh & [= <-] & Hin). cbn in Hin. rewrite dom_insert_L in Hin.
      destruct (decide (x = y)) as [?|Hne]; [by left|right]. split; [done|]. exists (shape r). split; [done|]. cbn. set_solver.
  - split; [intros [[_ ?]|[_ ?]]; done|]. intros (sh & Hsh' & Hin). right. split; [|by exists sh]. intros ->.
    assert (transient_to_toplevel_ (lm s) !! y = Some q) as Hx' by (apply (k_transient s Hc); by exists sh). congruence.
Qed.
Lemma map_transient_wp x p s : full s → known x s → listed s p → transient_to_toplevel_ (lm s) !! x = None →
  wp (map_transient sm self x p) to_full s.
Proof.
  intros Hs Hkx Hp Hx. pose proof Hs as (Hok & Hc & Hk). pose proof (listed_present s Hc p Hp) as [sh Hsh].
  destruct (tops_lookup_inv _ p sh Hsh) as (r & Hr & <-). unfold map_transient. apply wp_modify_bind.
  set (m1 := _ <| transient_to_toplevel_ := _ |>). set (s1 := set_lm m1 s).
  assert (∀ y, known y s1 ↔ known y s) as Hkn1 by (intros y; unfold s1, known; by place).
  assert (calm_ok s1) as Hok1 by by apply set_owners_ok.
  assert (body s1) as Hb1 by (apply (body_alike s); [apply Hc|unfold s1; by place|done]).
  assert (x ∉ dom (ToplevelWindow.transients_ r)) as Hn.
  { intros Hin. assert (transient_to_toplevel_ (lm s) !! x = Some p) as Hx' by (apply (k_transient s Hc); by exists (shape r)). congruence. }
  unfold get. apply wp_gets_bind.
  eapply wp_cut; [apply (AddTransientWindow_wp sm Hsm self p x _ s1 r); [done|done|unfold s1; by place|done|by apply Hkn1]|].
  intros _ s2 (Hok2 & Hb2 & (Hlm2 & Hm2 & Hkn2 & Hscr2 & Hkb2)).
  assert (lm s1 = m1) as E1 by (unfold s1; by place). rewrite E1 in Hlm2, Hm2.
  assert (full s2) as Hs2.
  { apply (added_transient s s2 p x r); try done; [by rewrite Hkb2; unfold s1; place|intros y; by rewrite Hkn2, Hkn1|].
    unfold s1 in Hscr2. by rewrite lp_world_lm in Hscr2. }
  apply wp_gets_bind. cbn [id]. pose proof Hs2 as (Hok2' & Hc2 & _). apply to_full_calm; [done|].
  destruct (mode_ (lm s2)); [|apply framed_ret, _]. destruct (active_toplevel_ (lm s2)) as [q|] eqn:Eq; [|apply framed_ret, _].
  assert (present s2 q) as Hq by (apply listed_present; [done|]; by apply (ok_active (lm s2)); [apply Hs2|]).
  apply framed_bind; [apply _|apply calm_IsWindowOrTransientFocused; [apply Hc2|done]|intros []; [|apply framed_ret, _]].
  apply framed_bind; [apply _|apply calm_GetCurrentTimeFromServer|intros t]. apply calm_TakeFocus; [done|apply Hc2|done].
Qed.

(** A new toplevel. *)
Lemma core_new s s' p sh : core s → tops (lm s) !! p = None → body s' → sh_transients sh = ∅ →
  (∀ q sq, tops (lm s) !! q = Some sq → sh_win sq ≠ sh_win sh) → ¬ wm_used (sh_input sh) (lm_world s) →
  wm_used (sh_input sh) (lm_world s') → toplevels_ (lm s') ≡ₚ p :: toplevels_ (lm s) →
  tops (lm s') = <[p := sh]> (tops (lm s)) →
  input_to_toplevel_ (lm s') = <[sh_input sh := p]> (input_to_toplevel_ (lm s)) →
  transient_to_toplevel_ (lm s') = transient_to_toplevel_ (lm s) →
  fewer (lm s) (lm s') → (∀ y, known y s' ↔ known y s) → same_screen (lm_world s) (lm_world s') → core s'.
Proof.
  intros [E1 E2 E3 E4 E5 E6 E7 E8 E9 E10] Hp Hb Hnone Hwin Hnew Hused Hps Htops Hin Htr (F1 & F2 & F3) Hkn (_ & _ & Hu).
  assert (∀ q sq, tops (lm s') !! q = Some sq ↔ q = p ∧ sq = sh ∨ q ≠ p ∧ tops (lm s) !! q = Some sq) as Hsame.
  { intros q sq. rewrite Htops, lookup_insert_Some. naive_solver. }
  split; rewrite ?Hin, ?Htr; try done.
  - intros q. rewrite Hps, elem_of_cons, E2. split.
    + intros [->|[sq Hq]]; [exists sh; apply Hsame; by left|]. exists sq. apply Hsame. right. split; [|done]. intros ->. congruence.
    + intros [sq [[-> _]|[_ Hq]]%Hsame]; [by left|right; by exists sq].
  - rewrite Hps. apply NoDup_cons. split; [|done]. intros [sq Hq]%E2. congruence.
  - intros q q' sq sq' [[-> ->]|[Hq1 Hq]]%Hsame [[-> ->]|[Hq1' Hq']]%Hsame Heq; [done| | |by apply (E4 q q' sq sq')].
    + by destruct (Hwin q' sq').
    + by destruct (Hwin q sq).
  - intros q sq [[-> ->]|[_ Hq]]%Hsame; [done|]. by apply Hu, (E5 q).
  - intros y q. rewrite lookup_insert_Some, E6. setoid_rewrite Hsame. split.
    + intros [[<- <-]|[Hne (sq & Hq & <-)]]; [exists sh; split; [by left|done]|]. exists sq. split; [right|done]. split; [|done]. congruence.
    + intros (sq & [[-> ->]|[Hne Hq]] & <-); [by left|right]. split; [|by exists sq]. intros Heq. apply Hnew. rewrite Heq. by apply (E5 q).
  - intros y q. rewrite E7. setoid_rewrite Hsame. split.
    + intros (sq & Hq & ?). exists sq. split; [right|done]. split; [|done]. congruence.
    + intros (sq & [[-> ->]|[_ Hq]] & Hin'); [rewrite Hnone in Hin'; set_solver|by exists sq].
  - intros y Hy. apply Hkn. auto.
  - intros y Hy. apply Hkn. auto.
  - intros y Hy. apply Hkn. auto.
Qed.
Lemma insert_at_perm i p l : insert_at i p l ≡ₚ p :: l.
Proof. unfold insert_at. by rewrite <-Permutation_middle, take_drop. Qed.
(** The new toplevel in the list and in the map of input windows. *)
Lemma toplevel_added s s1 p x input ps : full s → toplevel_heap_ (lm s) !! p = None → known x s → calm_ok s1 →
  ¬ wm_used input (lm_world s) → wm_used input (lm_world s1) → goes (with_top p (new_top self x input) (lm s)) s s1 →
  (∀ q sq, tops (lm s) !! q = Some sq → sh_win sq ≠ x) → ps ≡ₚ p :: toplevels_ (lm s) →
  full (set_lm ((lm s1) <| input_to_toplevel_ := <[input := p]> (input_to_toplevel_ (lm s1)) |> <| toplevels_ := ps |>) s1).
Proof.
  intros (Hok & Hc & Hk) Hp Hx Hok1 Hnew Hused (Hlm & Hm & Hkn & Hscr & Hkb) Hwin Hps. set (m := _ <| toplevels_ := ps |>).
  destruct (tops_bones _ _ Hlm) as (B1 & B2 & B3 & B4). rewrite tops_with in B2. cbn in B1, B3, B4.
  assert (∀ y, known y (set_lm m s1) ↔ known y s) as Hkn' by (intros y; unfold known; place; apply Hkn).
  assert (tops (lm s) !! p = None) as Hpt by (unfold tops; by rewrite lookup_fmap, Hp).
  split; [|split; [|place; cbn; rewrite Hm, Hkb; exact Hk]].
  - apply (calm_ok_alike s1); [done| |intros; by place..]. place. destruct (c_lm s1 Hok1) as [E1 E2 E3 E4 E5 E6 E7].
    unfold m. split; try done; cbn; intros q Hq; rewrite Hps; right; rewrite <-B1; auto.
  - apply (core_new s _ p (shape (new_top self x input))); try done.
    + apply (body_alike s1); [|by place|intros y; unfold known; by place].
      apply (body_top s s1 p (new_top self x input)); [apply Hc|done|done| |].
      * intros tr. cbn. rewrite dom_empty_L. set_solver.
      * intros Hf. unfold new_top. rewrite Hf. by eexists.
    + by place.
    + by place.
    + place. exact B2.
    + place. cbn. by rewrite B3.
    + place. exact B4.
    + place. destruct Hlm as (_ & F & _). exact F.
    + by place.
Qed.
Lemma map_toplevel_wp x s : full s → known x s → (∀ q sq, tops (lm s) !! q = Some sq → sh_win sq ≠ x) →
  wp (map_toplevel sm self new_toplevel_address x) to_full s.
Proof.
  intros Hs Hx Hwin. unfold map_toplevel. apply wp_gets_bind. set (p := new_toplevel_address s).
  pose proof (new_fresh s : toplevel_heap_ (lm s) !! p = None) as Hp. pose proof Hs as (Hok & Hc & Hk).
  eapply wp_cut; [by apply (toplevel_construct_wp sm Hsm self p x s)|]. intros _ s1 (Hok1 & input & Hnew & Hused & Hg).
  pose proof Hg as (Hlm & Hm & Hkn & Hscr & Hkb). destruct (tops_bones _ _ Hlm) as (B1 & B2 & B3 & B4). rewrite tops_with in B2. cbn in B1.
  destruct (tops_lookup_inv (lm s1) p (shape (new_top self x input))) as (r & Hr & Hsh); [rewrite B2; apply lookup_insert_eq|].
  apply (top_wp _ _ _ _ r); [done|]. apply (f_equal sh_input) in Hsh. cbn in Hsh. rewrite Hsh. apply wp_modify_bind.
  set (m2 := _ <| input_to_toplevel_ := _ |>). set (s2 := set_lm m2 s1). unfold get. apply wp_gets_bind. cbn [id].
  assert (lm s2 = m2) as E2 by (unfold s2; by place). rewrite E2.
  assert (∀ ps, ps ≡ₚ p :: toplevels_ (lm s) → full (set_lm (m2 <| toplevels_ := ps |>) s2) ∧
            listed (set_lm (m2 <| toplevels_ := ps |>) s2) p) as Hadd.
  { intros ps Hps. split; [|unfold listed; place; cbn; rewrite Hps; by left].
    pose proof (toplevel_added s s1 p x input ps) as Hadd. assert (full (set_lm (m2 <| toplevels_ := ps |>) s1)) as Hf by by apply Hadd.
    destruct Hf as (G1 & G2 & G3). assert (rests (set_lm (m2 <| toplevels_ := ps |>) s1) (set_lm (m2 <| toplevels_ := ps |>) s2) ∧
      calm_ok (set_lm (m2 <| toplevels_ := ps |>) s2)) as [Hr' Hok'].
    { destruct (lm_step' (set_lm (m2 <| toplevels_ := ps |>) s1) (set_lm (m2 <| toplevels_ := ps |>) s2)) as [? ?];
        [done|place|place|by place|intros; unfold s2; by place..|done]; [|reflexivity].
      pose proof (c_lm _ G1) as G. by rewrite lp_lm_lm in G. }
    by apply (full_rests (set_lm (m2 <| toplevels_ := ps |>) s1)). }
  cbn [mode_ m2]. change (mode_ m2) with (mode_ (lm s1)). destruct (mode_ (lm s1)).
  - change (active_toplevel_ m2) with (active_toplevel_ (lm s1)).
    destruct (active_toplevel_ (lm s1)) as [old|] eqn:Eold.
    + assert (old ∈ toplevels_ m2) as Hold by (apply (ok_active (lm s1)); [apply Hok1|done]).
      destruct (index_lookup old m2 Hold) as (i & Hi & _). 
      eapply (wp_cut _ _ (fun _ s3 => full s3 ∧ listed s3 p)).
      * apply wp_CHECK_bind; [apply Z.leb_le; lia|]. apply wp_modify. rewrite E2. apply Hadd. change (toplevels_ m2) with (toplevels_ (lm s1)).
        rewrite insert_at_perm, B1. done.
      * intros _ s3 [Hs3 Hl3]. apply to_full_calm; [done|]. by apply calm_SetActiveToplevelWindow; [|apply Hs3|].
    + eapply (wp_cut _ _ (fun _ s3 => full s3 ∧ listed s3 p)).
      * apply wp_modify. rewrite E2. apply Hadd. change (toplevels_ m2) with (toplevels_ (lm s1)). rewrite B1. by rewrite Permutation_app_comm.
      * intros _ s3 [Hs3 Hl3]. apply to_full_calm; [done|]. by apply calm_SetActiveToplevelWindow; [|apply Hs3|].
  - apply wp_modify_bind. rewrite E2. match goal with |- wp _ _ ?s' => set (s3 := s') end.
    assert (full s3) as Hs3.
    { apply Hadd. change (toplevels_ m2) with (toplevels_ (lm s1)). rewrite B1. by rewrite Permutation_app_comm. }
    apply to_full_calm; [done|]. apply calm_LayoutForOverviewMode; [done|apply Hs3].
Qed.
Lemma map_regular_window_wp x s : full s → known x s → ¬ managed x s →
  wp (map_regular_window sm self new_toplevel_address x) to_full s.
Proof.
  intros Hs Hx Hman. pose proof Hs as (Hok & Hc & _). unfold map_regular_window. pose proof Hx as [w Hw].
  apply (window_wp _ _ _ _ w); [done|].
  eapply (wp_cut _ _ (fun o s' => s' = s ∧ ∀ p, o = Some p → listed s p)).
  { destruct (negb _); [|by apply wp_ret]. unfold GetToplevelWindowByXid. apply wp_gets_bind.
    case_match; [|by apply wp_ret]. unfold GetToplevelWindowByWindow, get. apply wp_gets_bind.
    eapply wp_mono; [apply find_toplevel_wp; intros p; by apply (listed_heap s Hc)|]. intros o ? [-> Ho].
    split; [done|]. intros p ->. apply Ho. }
  intros o ? [-> Ho]. destruct o as [p|].
  - apply map_transient_wp; [done..|by apply Ho|]. apply eq_None_not_Some. intros [q Hq]. apply Hman. right. left. by rewrite Hq.
  - apply map_toplevel_wp; [done..|]. intros q sq Hq Heq. apply Hman. left. exists q, sq. split; [done|by left].
Qed.
Lemma lm_HandleWindowMap_wp x s : full s → known x s → ¬ managed x s →
  wp (HandleWindowMap sm self wm_TakeFocus new_toplevel_address x) to_full s.
Proof.
  intros Hs Hx Hman. unfold HandleWindowMap. pose proof Hx as [w Hw]. apply (window_wp _ _ _ _ w); [done|].
  destruct (Window.override_redirect_ w); [by apply show_override_redirect_wp|].
  destruct (negb (IsHandledWindowType _)); [by apply wp_ret|]. unfold get. apply wp_gets_bind. cbn [id].
  apply calm_to; [done|destruct (negb _); [by apply calm_DoInitialSetup|apply framed_ret, _]|]. intros _ s1 Hs1 Hr1.
  assert (known x s1) as Hx1 by by apply Hr1. assert (¬ managed x s1) as Hman1.
  { destruct Hr1 as (((Hb & (F1 & F2 & F3) & _) & _) & _). intros Hm. apply Hman. unfold managed in *. unfold bones in Hb.
    injection Hb as _ G2 _ G4. rewrite G2, G4 in Hm. destruct Hm as [?|[?|[?|[?|?]]]]; [by left|by right; left|..].
    - right. right. left. by apply F1.
    - right. right. right. left. by apply F2.
    - right. right. right. right. by apply F3. }
  repeat case_match; [by apply map_tab_summary_wp|by apply map_floating_tab_wp|by apply map_create_browser_window_wp|by apply map_regular_window_wp].
Qed.
End layout.
