(* ===== verification/LayoutEvents.v ===== *)
(** * The layout manager from its constructor on (LayoutManager.v).

    [Event] is what the window manager passes on to the layout manager, [handle] what
    becomes of it.  [reaches] are the states after any events, with changes of the
    rest of the program in between ([outside]).  In all of them the invariant of
    LayoutManagerSafe.v holds. *)

From S2P Require Import Prelude Hoare WmUtil KeyBindings XConnection WmIpc Double Window WmEvents Panel WmFrame.
From S2P Require Import Toplevel LayoutManager LayoutFrame ToplevelSafe LayoutSafe LayoutKeys LayoutManagerSafe.
Import KeyBindings LayoutManager LayoutRef Layout.

(** ** The actions of the keys *)

Definition named_action (a : bytes * Closure) : Prop := a.1 ≠ [].
#[local] Instance named_action_dec a : Decision (named_action a).
Proof. unfold named_action. apply _. Defined.
Lemma actions_named : Forall named_action actions.
Proof. apply (bool_decide_unpack _). vm_compute. exact I. Qed.
Lemma layout_names_are_actions : Forall (fun n => n ∈ actions.*1) layout_names.
Proof. apply (bool_decide_unpack _). vm_compute. exact I. Qed.

Section actions.
Context `{Build} `{LayoutFlags} {W : Type} `{WmHost W} `{KeyGrabs W} `{!KeyGrabLaws W} `{LayoutHost W}.
Context {S : Type} `{LayoutStore S W} `{!LayoutPlace S W}.

Lemma drifts_AddAction n b r e : drifts (KeyBindings.AddAction (W := W) n b r e).
Proof.
  unfold KeyBindings.AddAction. apply drifts_bind; [apply drifts_CHECK|intros _]. apply drifts_bind; [apply drifts_gets|intros k].
  destruct (actions_ k !! n); [apply drifts_ret|]. apply drifts_bind; [apply drifts_fst|intros _; apply drifts_ret].
Qed.
(** The bindings with the actions besides. *)
Definition more_actions (l : list (bytes * Closure)) (k k' : KeyBindings.t) : Prop :=
  consistent k' ∧ bindings_ k' = bindings_ k ∧
  ∀ n, is_Some (actions_ k !! n) ∨ n ∈ l.*1 → is_Some (actions_ k' !! n).
Lemma add_action_wp a s : wm_ok (lm_world s) → consistent (key_bindings s) → named_action a →
  wp (add_action a) (fun _ s' => wm_ok (lm_world s') ∧ rekeyed s s' ∧ more_actions [a] (key_bindings s) (key_bindings s')) s.
Proof.
  intros Hs Hk Ha. unfold add_action. set (k := key_bindings s).
  assert (∃ b k', KeyBindings.AddAction a.1 (Some (closure_id a.2)) None None (k, lm_world s) = Val (b, (k', lm_world s)) ∧
    more_actions [a] k k') as (b & k' & Hrun & Hk').
  { unfold KeyBindings.AddAction. rewrite CHECK_bind by by apply bool_decide_eq_true_2. rewrite gets_bind. cbn [fst].
    destruct (actions_ k !! a.1) as [act|] eqn:E.
    - exists false, k. split; [done|]. split; [done|]. split; [done|]. intros n [Hn|Hn]; [done|].
      apply list_elem_of_singleton in Hn as ->. by rewrite E.
    - eexists true, _. split; [reflexivity|]. split; [by apply consistent_add_action|]. split; [done|].
      intros n Hn. cbn. rewrite lookup_insert. case_decide; [by eexists|]. destruct Hn as [?|Hn]; [done|].
      apply list_elem_of_singleton in Hn. congruence. }
  eapply wp_cut; [apply (on_kb_wp _ s k' b); [done|apply drifts_AddAction|by eexists]|].
  intros _ s1 (_ & Hr & Hok & Hkb). apply wp_ret. by rewrite Hkb.
Qed.
Lemma add_actions_wp l s : wm_ok (lm_world s) → consistent (key_bindings s) → Forall named_action l →
  wp (for_each add_action l) (fun _ s' => wm_ok (lm_world s') ∧ rekeyed s s' ∧ more_actions l (key_bindings s) (key_bindings s')) s.
Proof.
  revert s. induction l as [|a l IH]; intros s Hs Hk Hl; cbn.
  { apply wp_ret. split; [done|]. split; [reflexivity|]. split; [done|]. split; [done|]. intros n [?|Hn]; [done|].
    by apply elem_of_nil in Hn. }
  apply Forall_cons in Hl as [Ha Hl]. eapply wp_cut; [by apply add_action_wp|].
  intros _ s1 (Hs1 & Hr1 & (Hk1 & Hb1 & Ha1)). eapply wp_mono; [by apply IH|].
  intros _ s2 (Hs2 & Hr2 & (Hk2 & Hb2 & Ha2)). split; [done|]. split; [by etransitivity|]. split; [done|].
  split; [congruence|]. intros n Hn. apply Ha2. destruct Hn as [?|[->|?]%elem_of_cons]; [left; apply Ha1; by left| |by right].
  left. apply Ha1. right. by left.
Qed.
End actions.

(** ** The constructor *)

Section layout.
Context `{Build} `{LayoutFlags} {W : Type} `{WmHost W} `{KeyGrabs W} `{!KeyGrabLaws W} `{LayoutHost W} `{!LayoutHostLaws W}.
Context {S : Type} `{LayoutStore S W} `{!LayoutPlace S W}.
Variable sm : StackingManager.t.
Hypothesis Hsm : layers_ok sm.
Variable self : Z.
Variable wm_TakeFocus : M S unit.
Hypothesis wm_focus_calm : ∀ s0, core s0 → framed (still s0) rests wm_TakeFocus.
Variable new_toplevel_address : S → Z.
Hypothesis new_fresh : ∀ s, toplevel_heap_ (lm s) !! new_toplevel_address s = None.

(** A working program, in which nobody has bound the layout manager's keys. *)
Definition fresh_start (s : S) : Prop :=
  wm_ok (lm_world s) ∧ (∀ x w, GetWindow x s = Some w → Window.xid_ w = x ∧ x ≠ 0) ∧ consistent (key_bindings s) ∧
  ∀ c n, c ∈ layout_combos ∨ n ∈ layout_names → bindings_ (key_bindings s) !! c ≠ Some n.

Record empty_lm (m : LayoutManager.t) : Prop := {
  e_mode : mode_ m = MODE_ACTIVE;
  e_list : toplevels_ m = [];
  e_heap : toplevel_heap_ m = ∅;
  e_input : input_to_toplevel_ m = ∅;
  e_transient : transient_to_toplevel_ m = ∅;
  e_active : active_toplevel_ m = None;
  e_magnified : magnified_toplevel_ m = None;
  e_under : toplevel_under_floating_tab_ m = None;
  e_tab : floating_tab_ m = None;
  e_summary : tab_summary_ m = None;
  e_create : create_browser_window_ m = None;
  e_floating : asynchronous (floating_tab_event_coalescer_ m);
  e_panning : asynchronous (overview_background_event_coalescer_ m)
}.
Lemma empty_ok m : empty_lm m → sane_size (width_ m) (height_ m) → lm_ok m.
Proof.
  intros [E1 E2 E3 E4 E5 E6 E7 E8 E9 E10 E11 E12 E13] Hsize. split; try done; rewrite ?E6, ?E7, ?E8; try done.
  intros p r. by rewrite E3, lookup_empty.
Qed.
Lemma empty_core s : empty_lm (lm s) → core s.
Proof.
  intros [E1 E2 E3 E4 E5 E6 E7 E8 E9 E10 E11 E12 E13].
  assert (tops (lm s) = ∅) as Ht by (unfold tops; by rewrite E3, fmap_empty).
  split; rewrite ?Ht, ?E2, ?E4, ?E5, ?E9, ?E10, ?E11; try done; try (intros; by rewrite ?lookup_empty in * ).
  - intros p sh. by rewrite Ht, lookup_empty.
  - intros p. rewrite lookup_empty, elem_of_nil. split; [done|by intros [? ?]].
  - constructor.
  - intros x p. rewrite lookup_empty. split; [done|]. intros (sh & Hsh & _). by rewrite lookup_empty in Hsh.
  - intros x p. rewrite lookup_empty. split; [done|]. intros (sh & Hsh & _). by rewrite lookup_empty in Hsh.
Qed.
(** The state has the layout manager's fields, and nothing else has changed. *)
Definition blank (s s' : S) : Prop :=
  wm_ok (lm_world s') ∧ (∀ x, GetWindow x s' = GetWindow x s) ∧ key_bindings s' = key_bindings s ∧ empty_lm (lm s').
Lemma register_blank f s s' : blank s s' → wp (register f) (fun _ s'' => blank s s'') s'.
Proof.
  intros (Hw & Hx & Hk & He). unfold register. apply wp_modify. destruct (f _) as [r c].
  split; [|split; [|split]]; place; [by apply wm_set_consumers|intros x; by place|done|]. by destruct He.
Qed.
Lemma MoveAndResize_blank px py w h s s' : fresh_start s → sane_size w h → blank s s' →
  wp (MoveAndResize sm px py w h)
     (fun _ s'' => calm_ok s'' ∧ core s'' ∧ key_bindings s'' = key_bindings s) s'.
Proof.
  intros (_ & Hn & _) Hsize (Hw & Hx & Hk & He). unfold MoveAndResize, get. apply wp_gets_bind. cbn [id].
  assert (∀ x v, GetWindow x s' = Some v → Window.xid_ v = x ∧ x ≠ 0) as Hn' by (intros x v; rewrite Hx; apply Hn).
  destruct (_ && _) eqn:Esame.
  - apply andb_prop in Esame as [Esame E4]. apply andb_prop in Esame as [Esame E3]. apply Z.eqb_eq in E3, E4.
    apply wp_ret. split; [split; [done|done|apply empty_ok; [done|by rewrite <-E3, <-E4]]|]. split; [by apply empty_core|done].
  - apply wp_modify_bind. rewrite (e_list _ He), (e_mode _ He). cbn [for_each].
    match goal with |- wp _ _ ?s'' => set (s1 := s'') end.
    assert (empty_lm (lm s1)) as He1 by (unfold s1; place; by destruct He).
    assert (core s1) as Hc1 by by apply empty_core.
    assert (calm_ok s1) as Hs1.
    { split; [unfold s1; by place|intros x v; unfold s1; place; apply Hn'|]. apply empty_ok; [done|]. unfold s1. by place. }
    apply wp_bind, wp_ret.
    assert (framed (still s1) rests (LayoutToplevelWindowsForActiveMode sm false)) as Hcalm by by apply calm_LayoutForActiveMode.
    eapply wp_mono; [by apply Hcalm, still_refl|].
    intros _ s2 [[Hs2 _] (Ht & _ & Hk2)]. split; [done|]. split; [by apply (core_turns s1)|]. rewrite Hk2. unfold s1. by place.
Qed.
Lemma calm_register s0 f : framed (still s0) rests (register f).
Proof.
  apply calm_step. intros s Hs Hr. unfold register. apply wp_modify. destruct (f _) as [r c].
  destruct (lm_step s ((lm s) <| event_consumer_registrar_ := r |>)) as [Hs1 Hr1];
    [done|by destruct (c_lm s Hs)|split; [done|]; split; [unfold fewer, dropped; auto|done]|done|].
  destruct (wm_set_consumers c (lm_world s)) as (? & ?); [apply Hs|].
  match goal with |- calm_ok (set_lm_world ?u ?s1) ∧ _ => destruct (lm_world_step s1 u) as [? ?]; [done|done|by place|] end.
  split; [done|by etransitivity].
Qed.
(** The constructor. *)
Lemma lm_construct_wp px py wd ht s : fresh_start s → sane_size wd ht →
  wp (construct sm self wm_TakeFocus px py wd ht) (fun _ s' => full s') s.
Proof.
  intros Hs Hsize. pose proof Hs as (Hw & Hn & Hk & Hb). unfold construct.
  apply wp_bind, wp_ret, wp_bind, wp_ret, wp_modify_bind.
  match goal with |- wp _ _ ?s'' => set (s1 := s'') end.
  assert (blank s s1) as H1' by (unfold s1; split; [|split; [|split]]; place; [done|intros x; by place|done|by split]).
  eapply wp_cut; [by apply register_blank|]. intros ? s2 B2. cbv beta in B2.
  eapply wp_cut; [by apply register_blank|]. intros ? s3 B3. cbv beta in B3.
  eapply wp_cut; [by apply (MoveAndResize_blank px py wd ht s s3)|]. intros _ s4 (Hs4 & Hc4 & Hk4).
  eapply (wp_cut _ _ (fun _ s5 => still s4 s5)).
  { assert (framed (still s4) rests (if FLAGS_lm_new_overview_mode then
      x (AddButtonGrabOnWindow wm_background_xid 1
          (Z.lor (Z.lor Window.ButtonPressMask Panel.ButtonReleaseMask) Panel.PointerMotionMask) false);;
      register (EventConsumerRegistrar.RegisterForWindowEvents wm_background_xid) else mret ())) as Hcalm.
    { destruct FLAGS_lm_new_overview_mode; [|apply framed_ret, _].
      apply framed_bind; [apply _|apply calm_lm_world; eauto with framed|intros _; apply calm_register]. }
    eapply wp_mono; [by apply Hcalm, still_refl|]. by intros ? s5 [? _]. }
  intros ? s5 [Hs5 (Ht5 & Hm5 & Hk5)]. assert (core s5) as Hc5 by by apply (core_turns s4).
  eapply wp_cut; [apply add_actions_wp; [apply Hs5|by rewrite Hk5, Hk4|apply actions_named]|].
  intros _ s6 (Hw6 & Hr6 & Hk6 & Hb6 & Ha6).
  assert (territory [] (key_bindings s6)) as Hterr.
  { split; [done|]. split.
    - intros n Hn'. apply Ha6. right. pose proof layout_names_are_actions as Hall. rewrite Forall_forall in Hall. by apply Hall.
    - intros c n Hor. rewrite Hb6, Hk5, Hk4. split; [intros Hc; by destruct (Hb c n)|by intros ?%elem_of_nil]. }
  destruct (rekeyed_step s5 s6 [] Hs5 Hc5) as (Hs6 & Hc6 & _); [by split|].
  eapply wp_mono; [by apply (SetMode_from sm Hsm wm_TakeFocus wm_focus_calm []); [..|right]|]. by intros ? s7 [? _].
Qed.

(** ** Events *)

(** [EventConsumer]'s callbacks, the closures of the keys, the two timers, and what the
    window manager asks for itself. *)
Inductive Event :=
| MapRequest (xid : Z)
| Map (xid : Z)
| Unmap (xid : Z)
| ConfigureRequest (xid x y width height : Z)
| ButtonPress (xid x y x_root y_root button timestamp : Z)
| ButtonRelease (xid x y x_root y_root button timestamp : Z)
| PointerEnter (xid x y x_root y_root timestamp : Z)
| PointerMotion (xid x y x_root y_root timestamp : Z)
| FocusChange (xid : Z) (focus_in : bool)
| ChromeMessage (msg : WmIpc.Message.t)
| ClientMessage (xid message_type : Z) (data : list Z)
| KeyAction (c : Closure)
| FloatingTabTimer
| PanningTimer
| AreaChange (x y width height : Z)
| FocusWanted.
Definition handle (e : Event) : M S unit :=
  match e with
  | MapRequest x => HandleWindowMapRequest sm x;; mret ()
  | Map x => HandleWindowMap sm self wm_TakeFocus new_toplevel_address x
  | Unmap x => HandleWindowUnmap sm self wm_TakeFocus x
  | ConfigureRequest x px py w h => HandleWindowConfigureRequest x px py w h
  | ButtonPress x px py rx ry b t => HandleButtonPress sm wm_TakeFocus x px py rx ry b t
  | ButtonRelease x px py rx ry b t => HandleButtonRelease sm x px py rx ry b t
  | PointerEnter x px py rx ry t => HandlePointerEnter sm x px py rx ry t
  | PointerMotion x px py rx ry t => HandlePointerMotion sm x px py rx ry t
  | FocusChange x b => HandleFocusChange x b
  | ChromeMessage msg => HandleChromeMessage sm wm_TakeFocus msg
  | ClientMessage x type data => HandleClientMessage sm wm_TakeFocus x type data
  | KeyAction c => run_closure sm wm_TakeFocus c
  | FloatingTabTimer => MotionEventCoalescer.HandleTimer tab_coalescer set_tab_coalescer (MoveFloatingTab sm wm_TakeFocus);; mret ()
  | PanningTimer => MotionEventCoalescer.HandleTimer pan_coalescer set_pan_coalescer (UpdateOverviewPanningForMotion sm);; mret ()
  | AreaChange px py w h => MoveAndResize sm px py w h
  | FocusWanted => TakeFocus sm;; mret ()
  end.
(** What the window manager and the clients do.  A window is mapped once, and a toplevel
    goes after its transients; without that the code fails (layout_manager.cc:438). *)
Definition legal (e : Event) (s : S) : Prop :=
  match e with
  | MapRequest x | ConfigureRequest x _ _ _ _ => known x s
  | Map x => known x s ∧ ¬ managed x s
  | Unmap x => known x s ∧ alone x s
  | ChromeMessage msg => params_ok msg
  | AreaChange _ _ w h => sane_size w h
  | _ => True
  end.
Lemma runs_of {A} (m : M S A) : (∀ s0, core s0 → framed (still s0) rests m) → ∀ s, full s → wp m (fun _ s' => full s') s.
Proof. intros Hm s Hs. eapply wp_mono; [by apply (rests_runs m Hm)|]. by intros ? s' [? _]. Qed.
Lemma only_full {A} (m : M S A) s : wp m (ends_full s) s → wp m (fun _ s' => full s') s.
Proof. intros Hm. eapply wp_mono; [exact Hm|]. by intros ? s' [? _]. Qed.
Lemma to_full_at {A} (m : M S A) s : (core s → framed (still s) rests m) → full s → wp m (fun _ s' => full s') s.
Proof. intros Hm Hs. apply only_full, calm_ends; [done|]. apply Hm, Hs. Qed.
Lemma handle_full e s : full s → legal e s → wp (handle e) (fun _ s' => full s') s.
Proof.
  intros Hs Hl. destruct e; cbn [handle]; cbn [legal] in Hl.
  - apply to_full_at; [|done]. intros Hc. apply framed_bind; [apply _|by apply calm_HandleWindowMapRequest|intros _; apply framed_ret, _].
  - by apply lm_HandleWindowMap_wp; [..|apply Hl|apply Hl].
  - destruct Hl as [Hx Halone].
    eapply wp_mono; [by apply (lm_HandleWindowUnmap_wp sm Hsm self wm_TakeFocus wm_focus_calm new_toplevel_address new_fresh)|]. by intros ? s' [? _].
  - apply to_full_at; [|done]. intros Hc. by apply calm_HandleWindowConfigureRequest.
  - apply only_full. by apply runs_HandleButtonPress.
  - apply to_full_at; [|done]. intros Hc. by apply calm_HandleButtonRelease.
  - apply to_full_at; [|done]. intros Hc. by apply calm_HandlePointerEnter.
  - apply to_full_at; [|done]. intros Hc. by apply calm_HandlePointerMotion.
  - apply to_full_at; [|done]. intros Hc. by apply calm_HandleFocusChange_lm.
  - apply only_full. by apply runs_HandleChromeMessage.
  - apply only_full. by apply runs_HandleClientMessage.
  - apply only_full. by apply runs_closure.
  - apply only_full. apply runs_then; [done|by apply runs_tab_HandleTimer|]. intros b s1 Hs1 _. by apply full_ret.
  - apply to_full_at; [|done]. intros Hc. apply framed_bind; [apply _|by apply calm_pan_HandleTimer|intros _; apply framed_ret, _].
  - apply to_full_at; [|done]. intros Hc. by apply calm_MoveAndResize.
  - apply to_full_at; [|done]. intros Hc. apply framed_bind; [apply _|by apply calm_TakeFocus_lm|intros _; apply framed_ret, _].
Qed.

(** The rest of the program leaves the layout manager and its keys alone, and does not
    take windows away that it manages. *)
Definition outside (s s' : S) : Prop :=
  lm s' = lm s ∧ (keys_of (mode_ (lm s)) (key_bindings s) → keys_of (mode_ (lm s)) (key_bindings s')) ∧ wm_ok (lm_world s') ∧
  (∀ x w, GetWindow x s' = Some w → Window.xid_ w = x ∧ x ≠ 0) ∧
  (∀ x, managed x s → known x s → known x s') ∧ (∀ x, wm_used x (lm_world s) → wm_used x (lm_world s')).
Lemma outside_full s s' : full s → outside s s' → full s'.
Proof.
  intros (Hok & Hc & Hk) (Hlm & Hk' & Hw & Hn & Hm & Hu).
  split; [split; [done|done|rewrite Hlm; apply Hok]|]. split; [|rewrite Hlm; by apply Hk'].
  pose proof Hc as [E1 E2 E3 E4 E5 E6 E7 E8 E9 E10]. split; rewrite ?Hlm; try done.
  - intros p sh. rewrite Hlm. intros Hp. destruct (E1 p sh Hp) as (K1 & K2 & K3). split; [|split; [|done]].
    + apply Hm; [|done]. left. exists p, sh. auto.
    + intros tr Htr. apply Hm; [|by apply K2]. left. exists p, sh. auto.
  - intros p sh Hp. by apply Hu, (E5 p).
  - intros x Hx. apply Hm; [|by apply E8]. right. right. by left.
  - intros x Hx. apply Hm; [|by apply E9]. right. right. right. by left.
  - intros x Hx. apply Hm; [|by apply E10]. right. right. right. by right.
Qed.
(** The states of a program from the constructor on. *)
Inductive reaches (px py width height : Z) (s0 : S) : S → Prop :=
| constructed s : construct sm self wm_TakeFocus px py width height s0 = Val ((), s) → reaches px py width height s0 s
| meanwhile s s' : reaches px py width height s0 s → outside s s' → reaches px py width height s0 s'
| handled e s s' : reaches px py width height s0 s → legal e s → handle e s = Val ((), s') → reaches px py width height s0 s'.
Lemma reaches_full px py wd ht s0 s : fresh_start s0 → sane_size wd ht → reaches px py wd ht s0 s → full s.
Proof.
  intros Hs0 Hsize Hr. induction Hr as [s Hrun|s s' _ IH Ho|e s s' _ IH Hl Hrun].
  - pose proof (lm_construct_wp px py wd ht s0 Hs0 Hsize) as Hwp. unfold wp in Hwp. by rewrite Hrun in Hwp.
  - by apply (outside_full s).
  - pose proof (handle_full e s IH Hl) as Hwp. unfold wp in Hwp. by rewrite Hrun in Hwp.
Qed.

(** ** The layout manager works *)

(** C14. In every such state, exactly the combinations of the current mode are bound, to its
    actions, of all the combinations and actions that are the layout manager's. *)
Theorem layout_keys_follow_mode px py wd ht s0 s c n :
  fresh_start s0 → sane_size wd ht → reaches px py wd ht s0 s → c ∈ layout_combos ∨ n ∈ layout_names →
  bindings_ (key_bindings s) !! c = Some n ↔ (c, n) ∈ table (mode_ (lm s)).
Proof.
  intros Hs0 Hsize Hr Hor. pose proof (reaches_full _ _ _ _ _ _ Hs0 Hsize Hr) as (_ & _ & (_ & _ & Hk)). by apply Hk.
Qed.
End layout.

(** ** What is legal can be computed *)

Definition decide_via (P : Prop) {Q : Prop} `{Decision P} (HPQ : P ↔ Q) : Decision Q :=
  match decide P with left p => left (proj1 HPQ p) | right n => right (fun q => n (proj2 HPQ q)) end.
Section legal.
Context `{LayoutFlags} {S W : Type} `{LayoutStore S W}.
#[export] Instance managed_dec x (s : S) : Decision (managed x s).
Proof.
  apply (decide_via (map_Exists (fun _ sh => sh_win sh = x ∨ x ∈ sh_transients sh) (tops (lm s)) ∨
    transient_to_toplevel_ (lm s) !! x ≠ None ∨
    floating_tab_ (lm s) = Some x ∨ tab_summary_ (lm s) = Some x ∨ create_browser_window_ (lm s) = Some x)).
  unfold managed, map_Exists. naive_solver.
Defined.
#[export] Instance alone_dec x (s : S) : Decision (alone x s).
Proof.
  apply (decide_via (map_Forall (fun _ sh => sh_win sh = x → sh_transients sh = ∅) (tops (lm s)))).
  unfold alone, map_Forall. naive_solver.
Defined.
#[export] Instance legal_dec e (s : S) : Decision (legal e s).
Proof. destruct e; cbn; unfold known, params_ok, sane_size; apply _. Defined.
End legal.

(** ** A layout manager in memory *)

Module MemLayout.
Import MemServer MemWm MemFrame.
#[global] Instance mem_layout_flags : LayoutFlags := {|
  FLAGS_lm_honor_window_size_hints := false; FLAGS_lm_new_overview_mode := true;
  FLAGS_lm_overview_gradient_image := str "gradient.png" |}.
#[global] Instance mem_layout_host : LayoutHost MemWm.world := {|
  wm_background_xid := 1000; clone_actor a w := (a + 1000, w) |}.
#[global] Instance mem_layout_host_laws : LayoutHostLaws MemWm.world.
Proof. by split. Qed.
#[global] Instance mem_keys : KeyGrabs MemWm.world := {|
  x_lower_keysym k := k;
  x_SetDetectableKeyboardAutoRepeat _ w := (true, w);
  x_GetKeyCodeFromKeySym k w := (k `mod` 256, w);
  x_GrabKey _ _ w := ((), w);
  x_UngrabKey _ _ w := ((), w) |}.
#[global] Instance mem_key_laws : KeyGrabLaws MemWm.world.
Proof. by split. Qed.

Record state := mk {
  layout : LayoutManager.t;
  windows : gmap Z Window.t;
  keys : KeyBindings.t;
  world : MemWm.world
}.
#[global] Instance eta_state : Eta state := fun s => mk (layout s) (windows s) (keys s) (world s).
#[global] Instance mem_store : LayoutStore state MemWm.world := {|
  lm := layout; set_lm m s := s <| layout := m |>;
  GetWindow x s := windows s !! x; set_window x w s := s <| windows := <[x := w]> (windows s) |>;
  key_bindings := keys; set_key_bindings k s := s <| keys := k |>;
  lm_world := world; set_lm_world w s := s <| world := w |> |}.
#[global] Instance mem_place : LayoutPlace state MemWm.world.
Proof.
  split; try done. intros x w y s. cbn. rewrite lookup_insert. by do 2 case_decide.
Qed.
(** [WindowManager::TakeFocus], without panels: the root window gets the focus that no toplevel takes. *)
Definition wm_TakeFocus : M state unit :=
  taken ← Layout.TakeFocus (S := state) (W := MemWm.world) stacking;
  if (taken : bool) then mret () else LayoutRef.x (FocusWindow 1 0);; mret ().
Lemma wm_TakeFocus_calm s0 : core s0 → framed (still s0) rests wm_TakeFocus.
Proof.
  intros Hc. unfold wm_TakeFocus. apply framed_bind; [apply _|by apply calm_TakeFocus_lm; [apply stacking_complete|]|].
  intros []; [apply framed_ret, _|]. apply framed_bind; [apply _|apply calm_lm_world; eauto with framed|intros _; apply framed_ret, _].
Qed.
Definition new_address (s : state) : Z := fresh ({[0]} ∪ dom (toplevel_heap_ (layout s)) : gset Z).
Lemma new_toplevel_fresh (s : state) : toplevel_heap_ (lm s) !! new_address s = None.
Proof.
  apply (not_elem_of_dom (D := gset Z)). pose proof (is_fresh ({[0]} ∪ dom (toplevel_heap_ (layout s)) : gset Z)) as Hf.
  by apply not_elem_of_union in Hf as [_ ?].
Qed.

(** Two browser windows and a dialog of the first. *)
Definition browser (x : Z) : Window.t := (win x) <| Window.type_ := WmIpc.WINDOW_TYPE_CHROME_TOPLEVEL |>.
Definition dialog (x owner : Z) : Window.t := (win x) <| Window.transient_for_xid_ := owner |>.
Definition nothing : LayoutManager.t :=
  LayoutManager.mk MODE_ACTIVE 0 0 0 0 0 [] ∅ ∅ ∅ None None None None None None 0
    (MotionEventCoalescer.mk 0 1 false 0 0 false) (MotionEventCoalescer.mk 0 1 false 0 0 false) 0 Metrics_Reset false None
    (EventConsumerRegistrar.new 0).
Definition start : state :=
  mk nothing {[50 := browser 50; 51 := browser 51; 52 := dialog 52 50]} (KeyBindings.mk ∅ ∅ ∅) (MemServer.connection, MemServer.w0).
Lemma fresh_layout_memory : fresh_start start.
Proof.
  split; [done|]. split; [|split; [apply consistent_empty|done]]. intros x w. cbn.
  rewrite !lookup_insert_Some, lookup_singleton_Some.
  intros [[<- <-]|[_ [[<- <-]|[_ [<- <-]]]]]; done.
Qed.
Lemma sane_screen : sane_size 1024 768.
Proof. done. Qed.

Definition step (e : Event) : M state unit := handle stacking 9 wm_TakeFocus new_address e.
Definition reach : state → state → Prop := reaches stacking 9 wm_TakeFocus new_address 0 0 1024 768.
Definition state_of {A} (r : result (unit * A)) : option A := match r with Val (_, s) => Some s | Fault _ => None end.
Lemma state_of_val {A} (r : result (unit * A)) s : state_of r = Some s → r = Val ((), s).
Proof. destruct r as [[[] s']|]; [by intros [= ->]|done]. Qed.
Fixpoint run_events (es : list Event) (s : state) : option state :=
  match es with
  | [] => Some s
  | e :: es => if decide (legal e s) then state_of (step e s) ≫= run_events es else None
  end.
Lemma val_state_of {A} (r : result (unit * A)) d : match r with Val _ => true | Fault _ => false end = true →
  r = Val ((), default d (state_of r)).
Proof. by destruct r as [[[] s]|]. Qed.
Definition started : option state := state_of (construct stacking 9 wm_TakeFocus 0 0 1024 768 start).
Lemma run_events_reach es s s' : reach start s → run_events es s = Some s' → reach start s'.
Proof.
  revert s. induction es as [|e es IH]; intros s Hs; cbn [run_events]; [by intros [= <-]|].
  destruct (decide (legal e s)) as [Hl|]; [|done]. intros (s1 & Hs1%state_of_val & Hrun)%bind_Some.
  apply (IH s1); [|exact Hrun]. by apply (handled _ _ _ _ _ _ _ _ _ e s).
Qed.
Lemma started_reached s : started = Some s → reach start s.
Proof. unfold started, reach. intros Hs%state_of_val. apply constructed. exact Hs. Qed.
Definition after (es : list Event) : state := default start (started ≫= run_events es).
Lemma after_reached es : is_Some (started ≫= run_events es) → reach start (after es).
Proof.
  intros [s Hs]. unfold after. rewrite Hs. apply bind_Some in Hs as (s1 & Hs1 & Hs).
  exact (run_events_reach es s1 s (started_reached s1 Hs1) Hs).
Qed.
(** The windows are mapped, and the user looks at all of them. *)
Definition opened : list Event := [Map 50; Map 51; Map 52; KeyAction SwitchToOverview].
Lemma opened_reached : reach start (after opened).
Proof. apply after_reached. apply (bool_decide_unpack _). vm_compute. exact I. Qed.

(** F12 leaves the overview. *)
Lemma layout_keys_follow_mode_witness :
  mode_ (lm (after opened)) = MODE_OVERVIEW ∧
  (bindings_ (key_bindings (after opened)) !! plain_combo (plain XK_F12) = Some (str "switch-to-active-mode") ↔
   (plain_combo (plain XK_F12), str "switch-to-active-mode") ∈ table (mode_ (lm (after opened)))).
Proof.
  split; [vm_compute; reflexivity|].
  refine (layout_keys_follow_mode stacking stacking_complete 9 wm_TakeFocus wm_TakeFocus_calm new_address new_toplevel_fresh
    0 0 1024 768 start (after opened) _ _ fresh_layout_memory sane_screen opened_reached (or_introl _)).
  apply (bool_decide_unpack _). vm_compute. exact I.
Defined.

End MemLayout.
