(* ===== verification/WmManager.v ===== *)
(** * The window manager: window_manager.{h,cc}.

    [WindowManager.t] has the fields of WindowManager that its own code uses alone; the
    size of the screen, the active window and the registry of event consumers are in the
    world, as the classes [Wm] and [HasConsumers] have them for the other parts, and the
    XIDs that [Init] sets once are constants.  An [EventConsumer*] is an address, and
    [EventConsumer.t] its virtual methods, programs on the whole state. *)

From stdpp Require Import sorting.
From S2P Require Import Prelude WmUtil KeyBindings XConnection WmIpc Double Window WmEvents Panel.

(** What else WindowManager uses of the X server, Clutter, the hotkey overlay and the C
    library. *)
Class WmRequests (W : Type) `{Wm W} := {
  x_GetChildWindows : Z → W → option (list Z) * W;
  x_GetWindowAttributes : Z → W → option (bool * Z) * W;      (* override_redirect, window_class *)
  x_SetSelectionOwner : Z → Z → Z → W → bool * W;
  x_WaitForWindowToBeDestroyed : Z → W → bool * W;
  x_GetStringProperty : Z → Z → W → option bytes * W;
  x_UnredirectWindowForCompositing : Z → W → bool * W;
  x_GetKeySymFromKeyCode : Z → W → Z * W;
  x_QueryKeyboardState : W → bytes * W;
  XRefreshKeyboardMapping : W → W;
  clutter_HandleWindowConfigured : Z → W → W;
  clutter_HandleWindowDamaged : Z → W → W;
  clutter_HandleWindowDestroyed : Z → W → W;
  hotkey_overlay_group : Z;
  hotkey_overlay_RefreshKeyMappings : W → W;
  hotkey_overlay_HandleKeyboardState : bytes → W → W;
  new_text : bytes → bytes → W → Z * W;                        (* font, text *)
  system : bytes → W → Z * W;
  wm_set_size : Z → Z → W → W;
  FLAGS_wm_xterm_command : bytes;
  FLAGS_wm_lock_screen_command : bytes;
  FLAGS_wm_configure_monitor_command : bytes;
  FLAGS_screenshot_binary : bytes;
  FLAGS_screenshot_output_dir : bytes
}.

(** ** Events of the X server *)

Inductive XEvent :=
| ButtonPress (window x y x_root y_root button time : Z)
| ButtonRelease (window x y x_root y_root button time : Z)
| ClientMessage (window message_type format : Z) (data : list Z)
| ConfigureNotify (window x y width height above : Z)
| ConfigureRequest (window value_mask x y width height : Z)
| CreateNotify (parent window : Z) (override_redirect : bool)
| DestroyNotify (window : Z)
| EnterNotify (window x y x_root y_root time : Z)
| FocusNotify (window : Z) (focus_in : bool) (mode detail : Z)
| KeyPress (keycode state : Z)
| KeyRelease (keycode state : Z)
| LeaveNotify (window x y x_root y_root time : Z)
| MapNotify (window : Z)
| MapRequest (window : Z)
| MappingNotify
| MotionNotify (window x y x_root y_root time : Z)
| PropertyNotify (window atom state : Z)
| ReparentNotify (window parent : Z)
| UnmapNotify (window : Z)
| DamageNotify (drawable : Z)
| ShapeNotify (window kind : Z)
| RRScreenChangeNotify (width height : Z)
| OtherEvent.

(** X.h, Xutil.h, shape.h, Xatom.h. *)
Definition StructureNotifyMask : Z := 131072.
Definition CWX : Z := 1.
Definition CWY : Z := 2.
Definition CWWidth : Z := 4.
Definition CWHeight : Z := 8.
Definition NotifyGrab : Z := 1.
Definition NotifyUngrab : Z := 2.
Definition NotifyPointer : Z := 5.
Definition PropertyDelete : Z := 1.
Definition ShapeBounding : Z := 0.
Definition WINDOW_CLASS_INPUT_ONLY : Z := 1.

(** event_consumer.h *)
Module EventConsumer.
Record t (S : Type) := mk {
  IsInputWindow : Z → S → bool;
  HandleWindowMapRequest : Z → M S bool;
  HandleWindowMap : Z → M S unit;
  HandleWindowUnmap : Z → M S unit;
  HandleWindowConfigureRequest : Z → Z → Z → Z → Z → M S unit;
  HandleButtonPress : Z → Z → Z → Z → Z → Z → Z → M S unit;
  HandleButtonRelease : Z → Z → Z → Z → Z → Z → Z → M S unit;
  HandlePointerEnter : Z → Z → Z → Z → Z → Z → M S unit;
  HandlePointerLeave : Z → Z → Z → Z → Z → Z → M S unit;
  HandlePointerMotion : Z → Z → Z → Z → Z → Z → M S unit;
  HandleChromeMessage : WmIpc.Message.t → M S unit;
  HandleClientMessage : Z → Z → list Z → M S unit;
  HandleFocusChange : Z → bool → M S unit;
  HandleWindowPropertyChange : Z → Z → M S unit
}.
Arguments IsInputWindow {S} _. Arguments HandleWindowMapRequest {S} _. Arguments HandleWindowMap {S} _.
Arguments HandleWindowUnmap {S} _. Arguments HandleWindowConfigureRequest {S} _. Arguments HandleButtonPress {S} _.
Arguments HandleButtonRelease {S} _. Arguments HandlePointerEnter {S} _. Arguments HandlePointerLeave {S} _.
Arguments HandlePointerMotion {S} _. Arguments HandleChromeMessage {S} _. Arguments HandleClientMessage {S} _.
Arguments HandleFocusChange {S} _. Arguments HandleWindowPropertyChange {S} _.
End EventConsumer.

Module WindowManager.
Import WmEvents.WindowManager.

Record t := mk {
  stage_ : Z;
  background_ : option Z;
  background_xid_ : Z;
  stacking_manager_ : StackingManager.t;
  client_windows_ : gmap Z Window.t;
  mapped_xids_ : Stacker.t Z;
  stacked_xids_ : Stacker.t Z;
  event_consumers_ : gset Z;
  xids_tracked_by_compositor_ : gset Z;
  client_window_debugging_actors_ : list Z;
  key_bindings_ : KeyBindings.t;
  query_keyboard_state_timer_ : Z;
  showing_hotkey_overlay_ : bool;
  wm_ipc_version_ : Z;
  layout_manager_x_ : Z; layout_manager_y_ : Z; layout_manager_width_ : Z; layout_manager_height_ : Z
}.
#[global] Instance eta_t : Eta t := fun r =>
  mk (stage_ r) (background_ r) (background_xid_ r) (stacking_manager_ r) (client_windows_ r) (mapped_xids_ r)
     (stacked_xids_ r) (event_consumers_ r) (xids_tracked_by_compositor_ r)
     (client_window_debugging_actors_ r) (key_bindings_ r)
     (query_keyboard_state_timer_ r) (showing_hotkey_overlay_ r) (wm_ipc_version_ r)
     (layout_manager_x_ r) (layout_manager_y_ r) (layout_manager_width_ r) (layout_manager_height_ r).
End WindowManager.

(** The window manager and the world in the whole program's state. *)
Class ManagerStore (S W : Type) := {
  wm : S → WindowManager.t;
  set_wm : WindowManager.t → S → S;
  wm_world : S → W;
  set_wm_world : W → S → S
}.

Module Manager.
Import WmEvents.WindowManager WindowManager.

(** *** The manager selections, and the properties of the root window *)

Section world.
Context {W : Type} `{Wm W} `{WmRequests W}.
Definition GetWmName : bytes := str "chromeos-wm".
Definition XA_CARDINAL : Z := 6.

Definition GetManagerSelection (atom manager_win timestamp : Z) : M W bool :=
  current_manager ← conn_GetSelectionOwner atom;
  (if negb (current_manager =? 0) then request (SelectInputOnWindow current_manager StructureNotifyMask false);; mret ()
   else mret ());;
  ok ← extern (x_SetSelectionOwner atom manager_win timestamp);
  CHECK ok;;
  owner ← conn_GetSelectionOwner atom;
  if negb (owner =? manager_win) then mret false
  else
    ok ← conn_SendClientMessageEvent x_root x_root (wm_atom ATOM_MANAGER)
           [i32 timestamp; i32 atom; i32 manager_win; 0; 0] StructureNotifyMask;
    CHECK ok;;
    (if negb (current_manager =? 0) then gone ← extern (x_WaitForWindowToBeDestroyed current_manager); CHECK gone
     else mret ());;
    mret true.
(** The second result is [wm_xid_]. *)
Definition RegisterExistence : M W (bool * Z) :=
  wm_xid ← extern (x_CreateWindow x_root (-1) (-1) 1 1 true false Window.PropertyChangeMask);
  CHECK (negb (wm_xid =? 0));;
  ok ← conn_SetStringProperty wm_xid (wm_atom ATOM_NET_WM_NAME) GetWmName;
  CHECK ok;;
  timestamp ← extern (x_WaitForPropertyChange wm_xid);
  let timestamp := default 0 timestamp in
  ok ← GetManagerSelection (wm_atom ATOM_WM_S0) wm_xid timestamp;
  if negb ok then mret (false, wm_xid)
  else
    ok ← GetManagerSelection (wm_atom ATOM_NET_WM_CM_S0) wm_xid timestamp;
    mret (ok, wm_xid).

Definition supported : list Z :=
  wm_atom <$> [ATOM_NET_ACTIVE_WINDOW; ATOM_NET_CLIENT_LIST; ATOM_NET_CLIENT_LIST_STACKING; ATOM_NET_CURRENT_DESKTOP;
               ATOM_NET_DESKTOP_GEOMETRY; ATOM_NET_DESKTOP_VIEWPORT; ATOM_NET_NUMBER_OF_DESKTOPS; ATOM_NET_WM_NAME;
               ATOM_NET_WM_STATE; ATOM_NET_WM_STATE_FULLSCREEN; ATOM_NET_WM_STATE_MODAL; ATOM_NET_WM_WINDOW_OPACITY;
               ATOM_NET_WORKAREA].
Definition SetEwmhGeneralProperties : M W bool :=
  s1 ← XConnection.SetIntProperty x_root (wm_atom ATOM_NET_NUMBER_OF_DESKTOPS) XA_CARDINAL 1;
  s2 ← XConnection.SetIntProperty x_root (wm_atom ATOM_NET_CURRENT_DESKTOP) XA_CARDINAL 0;
  let check_atom := wm_atom ATOM_NET_SUPPORTING_WM_CHECK in
  s3 ← XConnection.SetIntProperty x_root check_atom XA_WINDOW (i32 wm_xid);
  s4 ← XConnection.SetIntProperty wm_xid check_atom XA_WINDOW (i32 wm_xid);
  s5 ← conn_SetIntArrayProperty x_root (wm_atom ATOM_NET_SUPPORTED) XA_ATOM (i32 <$> supported);
  mret (s1 && s2 && s3 && s4 && s5).
Definition SetEwmhSizeProperties : M W bool :=
  w ← mget;
  s1 ← conn_SetIntArrayProperty x_root (wm_atom ATOM_NET_DESKTOP_GEOMETRY) XA_CARDINAL [wm_width w; wm_height w];
  s2 ← conn_SetIntArrayProperty x_root (wm_atom ATOM_NET_DESKTOP_VIEWPORT) XA_CARDINAL [0; 0];
  s3 ← conn_SetIntArrayProperty x_root (wm_atom ATOM_NET_WORKAREA) XA_CARDINAL [0; 0; wm_width w; wm_height w];
  mret (s1 && s2 && s3).
Definition SetWmStateProperty (xid state : Z) : M W bool :=
  let xatom := wm_atom ATOM_WM_STATE in conn_SetIntArrayProperty xid xatom xatom [state; 0].
End world.

Section manager.
Context `{Build} {W : Type} `{Wm W} `{HasConsumers W} `{KeyGrabs W} `{WmRequests W}.
Context {S : Type} `{ManagerStore S W}.
(** The objects that the [EventConsumer*]s point to; what the window manager asks of its
    layout manager and panel manager besides; the closures of key bindings; and the
    value that an uninitialised [bool] has. *)
Variable consumer : Z → EventConsumer.t S.
Variable layout_manager_TakeFocus : M S bool.
Variable panel_manager_TakeFocus : M S bool.
Variable layout_manager_MoveAndResize : Z → Z → Z → Z → M S unit.
Variable panel_manager_HandleScreenResize : M S unit.
Variable run_closure : Z → M S unit.
Variable indeterminate : bool.

Definition get {A} (f : t → A) : M S A := gets (fun s => f (wm s)).
Definition upd (f : t → t) : M S unit := modify (fun s => set_wm (f (wm s)) s).
Definition on_world {A} (m : M W A) : M S A := zoom wm_world set_wm_world m.
Definition x (r : XRequest) : M S bool := on_world (request r).
Definition actor (a : Z) (c : ActorCall) : M S unit := on_world (StackingManager.do_actor a c).
Definition on_stacked {A} (m : M (Stacker.t Z) A) : M S A :=
  zoom (fun s => stacked_xids_ (wm s)) (fun st s => set_wm ((wm s) <| stacked_xids_ := st |>) s) m.
Definition on_mapped {A} (m : M (Stacker.t Z) A) : M S A :=
  zoom (fun s => mapped_xids_ (wm s)) (fun st s => set_wm ((wm s) <| mapped_xids_ := st |>) s) m.

(** *** Windows *)

Definition GetWindow (xid : Z) (r : t) : option Window.t := client_windows_ r !! xid.
Definition GetWindowOrDie (xid : Z) : M S Window.t :=
  win ← get (GetWindow xid);
  match win with Some w => mret w | None => fail CheckFailed end.
(** [win->...]. *)
Definition window (xid : Z) : M S Window.t :=
  w ← get (GetWindow xid);
  match w with Some w => mret w | None => fail Undefined end.
Definition no_window : Window.t := Window.initial 0 false false 0 None.
Definition set_window (xid : Z) (w : Window.t) (s : S) : S :=
  set_wm ((wm s) <| client_windows_ := <[xid := w]> (client_windows_ (wm s)) |>) s.
Definition on_window {A} (xid : Z) (m : M (Window.t * W) A) : M S A :=
  window xid;;
  zoom (fun s => (default no_window (GetWindow xid (wm s)), wm_world s))
       (fun ww s => set_wm_world ww.2 (set_window xid ww.1 s)) m.

Definition TakeFocus : M S unit :=
  taken ← layout_manager_TakeFocus;
  if (taken : bool) then mret ()
  else taken ← panel_manager_TakeFocus; if (taken : bool) then mret () else x (FocusWindow x_root 0);; mret ().
Definition HandleLayoutManagerAreaChange (px py width height : Z) : M S unit :=
  upd (fun r => r <| layout_manager_x_ := px |> <| layout_manager_y_ := py |>
                  <| layout_manager_width_ := width |> <| layout_manager_height_ := height |>);;
  layout_manager_MoveAndResize px py width height.

Definition StartSendingEventsForWindowToCompositor (xid : Z) : M S unit :=
  r ← get id;
  upd (fun r => r <| xids_tracked_by_compositor_ := {[xid]} ∪ xids_tracked_by_compositor_ r |>);;
  DCHECK (bool_decide (xid ∉ xids_tracked_by_compositor_ r)).
Definition StopSendingEventsForWindowToCompositor (xid : Z) : M S unit :=
  r ← get id;
  upd (fun r => r <| xids_tracked_by_compositor_ := xids_tracked_by_compositor_ r ∖ {[xid]} |>);;
  DCHECK (bool_decide (xid ∈ xids_tracked_by_compositor_ r)).

(** The consumers in the order of the set, which no handler changes. *)
Definition all_consumers (r : t) : list Z := merge_sort Z.le (elements (event_consumers_ r)).

(** *** _NET_CLIENT_LIST and _NET_CLIENT_LIST_STACKING *)

Definition listed (r : t) (xid : Z) : bool :=
  match GetWindow xid r with Some w => Window.mapped_ w && negb (Window.override_redirect_ w) | None => false end.
Definition set_or_delete (atom : Atom) (values : list Z) : M S bool :=
  if bool_decide (values = []) then x (DeletePropertyIfExists x_root (wm_atom atom))
  else on_world (conn_SetIntArrayProperty x_root (wm_atom atom) XA_WINDOW (i32 <$> values)).
Definition client_list (r : t) : list Z := filter (listed r) (reverse (Stacker.items (mapped_xids_ r))).
Definition client_list_stacking (r : t) : list Z := filter (listed r) (reverse (Stacker.items (stacked_xids_ r))).
Definition UpdateClientListProperty : M S bool :=
  r ← get id; set_or_delete ATOM_NET_CLIENT_LIST (client_list r).
Definition UpdateClientListStackingProperty : M S bool :=
  r ← get id; set_or_delete ATOM_NET_CLIENT_LIST_STACKING (client_list_stacking r).

(** *** Tracking windows *)

Definition IsInternalWindow (xid : Z) : bool := (xid =? wm_stage_xid) || (xid =? wm_overlay_xid) || (xid =? wm_xid).
(** [new Window(this, xid, override_redirect)], in the map. *)
Definition new_window (xid : Z) (override_redirect : bool) : M S unit :=
  w ← gets wm_world;
  match Window.construct xid override_redirect indeterminate w with
  | Val (win, w) => modify (fun s => set_wm_world w (set_window xid win s))
  | Fault f => fail f
  end.
(** Is there a window then. *)
Definition TrackWindow (xid : Z) (override_redirect : bool) : M S bool :=
  r ← get id;
  s ← mget;
  if IsInternalWindow xid || StackingManager.IsInternalWindow (stacking_manager_ r) xid then mret false
  else if existsb (fun c => EventConsumer.IsInputWindow (consumer c) xid s) (all_consumers r) then mret false
  else
    attr ← on_world (extern (x_GetWindowAttributes xid));
    if bool_decide (snd <$> attr = Some WINDOW_CLASS_INPUT_ONLY) then mret false
    else
      (match GetWindow xid r with Some _ => mret () | None => new_window xid override_redirect end);;
      mret true.
Definition set_mapped (xid : Z) (mapped : bool) : M S unit :=
  on_window xid (Window.upd (fun r => r <| Window.mapped_ := mapped |>)).
Definition HandleMappedWindow (xid : Z) : M S unit :=
  win ← window xid;
  r ← get id;
  (if negb (Window.override_redirect_ win) && negb (Stacker.Contains (mapped_xids_ r) (Window.xid_ win)) then
     on_mapped (Stacker.AddOnTop (Window.xid_ win));;
     UpdateClientListProperty;;
     UpdateClientListStackingProperty;;
     mret ()
   else mret ());;
  (if FLAGS_wm_use_compositing && negb (Window.redirected_ win) then on_window xid Window.Redirect else mret ());;
  on_world (SetWmStateProperty (Window.xid_ win) 1);;
  for_each (fun c => EventConsumer.HandleWindowMap (consumer c) xid) (all_consumers r).
Definition manage_existing (xid : Z) : M S unit :=
  attr ← on_world (extern (x_GetWindowAttributes xid));
  match attr with
  | None => mret ()
  | Some (override_redirect, _) =>
      on_stacked (Stacker.AddOnTop xid);;
      tracked ← TrackWindow xid override_redirect;
      if (tracked : bool) then
        mapped ← on_window xid Window.FetchMapState;
        if (mapped : bool) then set_mapped xid true;; HandleMappedWindow xid else mret ()
      else mret ()
  end.
Definition ManageExistingWindows : M S bool :=
  windows ← on_world (extern (x_GetChildWindows x_root));
  match windows with
  | None => mret false
  | Some windows =>
      for_each manage_existing windows;;
      UpdateClientListStackingProperty;;
      mret true
  end.

(** *** Dispatch to registered consumers *)

(** FOR_EACH_EVENT_CONSUMER: the loop is over the set in the registry, which a handler may
    change.  After a call the iterator must still be in the set, and goes on to the next
    larger address of the set as it is then. *)
Definition in_address_order (cs : gset Z) : list Z := merge_sort Z.le (elements cs).
Definition next_consumer (c : Z) (cs : gset Z) : option Z := head (filter (fun c' => c < c') (in_address_order cs)).
Fixpoint dispatch_from (fuel : nat) (registered : EventConsumers.t → option (gset Z)) (call : EventConsumer.t S → M S unit)
    (c : Z) : M S unit :=
  match fuel with
  | O => fail OutOfFuel
  | Datatypes.S fuel =>
      call (consumer c);;
      cs ← gets (fun s => registered (get_consumers (wm_world s)));
      match cs with
      | None => fail Undefined
      | Some cs =>
          if decide (c ∈ cs) then
            match next_consumer c cs with
            | Some c' => dispatch_from fuel registered call c'
            | None => mret ()
            end
          else fail Undefined
      end
  end.
(** The registered consumers are among [event_consumers_], so that many steps are enough. *)
Definition for_each_event_consumer (registered : EventConsumers.t → option (gset Z)) (call : EventConsumer.t S → M S unit) : M S unit :=
  r ← get id;
  cs ← gets (fun s => registered (get_consumers (wm_world s)));
  match cs with
  | None => mret ()
  | Some cs =>
      match in_address_order cs with
      | [] => mret ()
      | c :: _ => dispatch_from (Datatypes.S (size (event_consumers_ r))) registered call c
      end
  end.
Definition for_window (xid : Z) : (EventConsumer.t S → M S unit) → M S unit :=
  for_each_event_consumer (fun r => EventConsumers.window_event_consumers_ r !! xid).
Definition for_property (xid xatom : Z) : (EventConsumer.t S → M S unit) → M S unit :=
  for_each_event_consumer (fun r => EventConsumers.property_change_event_consumers_ r !! (xid, xatom)).
Definition for_chrome (type : Z) : (EventConsumer.t S → M S unit) → M S unit :=
  for_each_event_consumer (fun r => EventConsumers.chrome_message_event_consumers_ r !! type).

(** *** Handlers *)

Definition HandleButtonPress (xid px py x_root y_root button time : Z) : M S unit :=
  for_window xid (fun c => EventConsumer.HandleButtonPress c xid px py x_root y_root button time).
Definition HandleButtonRelease (xid px py x_root y_root button time : Z) : M S unit :=
  for_window xid (fun c => EventConsumer.HandleButtonRelease c xid px py x_root y_root button time).
(** A message that we are told of by GetMessage alone starts as [Message()]. *)
Definition HandleClientMessage (xid message_type format : Z) (data : list Z) : M S unit :=
  gm ← on_world (WmIpc.GetMessage wm_atoms message_type format data (WmIpc.Message.mk WmIpc.Message.UNKNOWN [0; 0; 0; 0]));
  let '(got, msg) := (gm : bool * WmIpc.Message.t) in
  if got then
    if WmIpc.Message.type_ msg =? WmIpc.Message.WM_NOTIFY_IPC_VERSION then
      match WmIpc.Message.param 0 msg with
      | Val v => upd (fun r => r <| wm_ipc_version_ := i32 v |>)
      | Fault f => fail f
      end
    else for_chrome (WmIpc.Message.type_ msg) (fun c => EventConsumer.HandleChromeMessage c msg)
  else
    let d1 := u32 (default 0 (data !! 1%nat)) in
    if (message_type =? wm_atom ATOM_MANAGER) && (format =? XConnection.kLongFormat) &&
       ((d1 =? wm_atom ATOM_WM_S0) || (d1 =? wm_atom ATOM_NET_WM_CM_S0)) then mret ()
    else if format =? XConnection.kLongFormat then
      for_window xid (fun c => EventConsumer.HandleClientMessage c xid message_type data)
    else mret ().

(** The nearest window at or below [above_xid] that we have, to stack the actor above it. *)
Fixpoint stack_above_known (fuel : nat) (xid above_xid : Z) : M S unit :=
  match fuel with
  | O => fail OutOfFuel
  | Datatypes.S fuel =>
      if above_xid =? 0 then mret ()
      else
        above_win ← get (GetWindow above_xid);
        match above_win with
        | Some w => on_window xid (Window.StackCompositedAbove (Some (Window.actor_ w)) None false)
        | None =>
            above_ptr ← on_stacked (Stacker.GetUnder above_xid);
            stack_above_known fuel xid (default 0 above_ptr)
        end
  end.
(** The window's new place among its siblings; was it restacked. *)
Definition restack (xid above : Z) : M S bool :=
  prev_above ← on_stacked (Stacker.GetUnder xid);
  let stays := if above =? 0 then bool_decide (prev_above = None) else bool_decide (prev_above = Some above) in
  if stays then mret false
  else
    on_stacked (Stacker.Remove xid);;
    r ← get id;
    (if negb (above =? 0) && Stacker.Contains (stacked_xids_ r) above then on_stacked (Stacker.AddAbove xid above)
     else on_stacked (Stacker.AddOnBottom xid));;
    mret true.
Definition HandleConfigureNotify (xid px py width height above : Z) : M S unit :=
  r ← get id;
  if negb (Stacker.Contains (stacked_xids_ r) xid) then mret ()
  else
    restacked ← restack xid above;
    win ← get (GetWindow xid);
    match win with
    | None => mret ()
    | Some win =>
        (if Window.override_redirect_ win then
           on_window xid (Window.MoveComposited px py 0);;
           on_window xid (Window.SaveClientPosition px py);;
           on_window xid (Window.SaveClientAndCompositedSize width height);;
           r ← get id;
           stack_above_known (length (Stacker.items (stacked_xids_ r)) + 2) xid above
         else if (restacked : bool) then UpdateClientListStackingProperty;; mret ()
         else mret ());;
        r ← get id;
        if bool_decide (xid ∈ xids_tracked_by_compositor_ r)
        then on_world (extern (fun w => ((), clutter_HandleWindowConfigured xid w))) else mret ()
    end.
Definition HandleConfigureRequest (xid value_mask ex ey ewidth eheight : Z) : M S unit :=
  win ← get (GetWindow xid);
  match win with
  | None => mret ()
  | Some win =>
      let asked bit := negb (Z.land value_mask bit =? 0) in
      let req_x := if asked CWX then ex else Window.client_x_ win in
      let req_y := if asked CWY then ey else Window.client_y_ win in
      let req_width := if asked CWWidth then ewidth else Window.client_width_ win in
      let req_height := if asked CWHeight then eheight else Window.client_height_ win in
      if (req_width <=? 0) || (req_height <=? 0) then mret ()
      else if negb (Window.mapped_ win) then
        (if negb (req_x =? Window.client_x_ win) || negb (req_y =? Window.client_y_ win)
         then on_window xid (Window.MoveClient req_x req_y);; mret () else mret ());;
        (if negb (req_width =? Window.client_width_ win) || negb (req_height =? Window.client_height_ win)
         then on_window xid (Window.ResizeClient req_width req_height Window.GRAVITY_NORTHWEST);; mret () else mret ())
      else for_window xid (fun c => EventConsumer.HandleWindowConfigureRequest c xid req_x req_y req_width req_height)
  end.
Definition HandleCreateNotify (parent xid : Z) (override_redirect : bool) : M S unit :=
  win ← get (GetWindow xid);
  match win with
  | Some _ => mret ()
  | None =>
      if negb (parent =? x_root) then mret ()
      else
        r ← get id;
        DCHECK (negb (Stacker.Contains (stacked_xids_ r) xid));;
        on_stacked (Stacker.AddOnTop xid);;
        attr ← on_world (extern (x_GetWindowAttributes xid));
        match attr with
        | None => mret ()
        | Some _ => TrackWindow xid override_redirect;; mret ()
        end
  end.
Definition HandleDamageNotify (drawable : Z) : M S unit :=
  r ← get id;
  if bool_decide (drawable ∈ xids_tracked_by_compositor_ r)
  then on_world (extern (fun w => ((), clutter_HandleWindowDamaged drawable w))) else mret ().
(** The window object goes, and with it its actor. *)
Definition erase_window (xid : Z) : M S unit := upd (fun r => r <| client_windows_ := delete xid (client_windows_ r) |>).
Definition HandleDestroyNotify (xid : Z) : M S unit :=
  w ← gets wm_world;
  DCHECK (bool_decide (EventConsumers.window_event_consumers_ (get_consumers w) !! xid = None));;
  r ← get id;
  (if Stacker.Contains (stacked_xids_ r) xid then on_stacked (Stacker.Remove xid) else mret ());;
  match GetWindow xid r with
  | None => mret ()
  | Some win =>
      (if negb (Window.override_redirect_ win) then UpdateClientListStackingProperty;; mret () else mret ());;
      erase_window xid;;
      r ← get id;
      if bool_decide (xid ∈ xids_tracked_by_compositor_ r)
      then on_world (extern (fun w => ((), clutter_HandleWindowDestroyed xid w))) else mret ()
  end.
Definition HandleEnterNotify (xid px py x_root y_root time : Z) : M S unit :=
  for_window xid (fun c => EventConsumer.HandlePointerEnter c xid px py x_root y_root time).
Definition HandleFocusChange (xid : Z) (focus_in : bool) (mode detail : Z) : M S unit :=
  if (mode =? NotifyGrab) || (mode =? NotifyUngrab) || (detail =? NotifyPointer) then mret ()
  else
    win ← get (GetWindow xid);
    (match win with
     | Some _ => on_window xid (Window.upd (fun r => r <| Window.focused_ := focus_in |>))
     | None => mret ()
     end);;
    for_window xid (fun c => EventConsumer.HandleFocusChange c xid focus_in).
Definition HandleLeaveNotify (xid px py x_root y_root time : Z) : M S unit :=
  for_window xid (fun c => EventConsumer.HandlePointerLeave c xid px py x_root y_root time).
Definition HandleMapNotify (xid : Z) : M S unit :=
  win ← get (GetWindow xid);
  match win with
  | None => mret ()
  | Some win => if Window.mapped_ win then mret () else set_mapped xid true;; HandleMappedWindow xid
  end.
(** Until a consumer has mapped the window. *)
Fixpoint ask_to_map (xid : Z) (cs : list Z) : M S unit :=
  match cs with
  | [] => mret ()
  | c :: cs =>
      handled ← EventConsumer.HandleWindowMapRequest (consumer c) xid;
      if (handled : bool) then mret () else ask_to_map xid cs
  end.
Definition HandleMapRequest (xid : Z) : M S unit :=
  win ← get (GetWindow xid);
  match win with
  | None => x (MapWindow xid);; mret ()
  | Some _ =>
      (if FLAGS_wm_use_compositing then on_window xid Window.Redirect else mret ());;
      r ← get id;
      ask_to_map xid (all_consumers r)
  end.
Definition HandleMappingNotify : M S unit :=
  on_world (extern (fun w => ((), XRefreshKeyboardMapping w)));;
  on_world (extern (fun w => ((), hotkey_overlay_RefreshKeyMappings w))).
Definition HandleMotionNotify (xid px py x_root y_root time : Z) : M S unit :=
  for_window xid (fun c => EventConsumer.HandlePointerMotion c xid px py x_root y_root time).

Definition apply_property (xid xatom : Z) (deleted : bool) : M S unit :=
  if xatom =? wm_atom ATOM_NET_WM_NAME then
    win ← window xid;
    title ← (if deleted then mret None else on_world (extern (x_GetStringProperty (Window.xid_ win) xatom)));
    on_window xid (Window.SetTitle (default [] title))
  else if xatom =? wm_atom ATOM_WM_HINTS then on_window xid Window.FetchAndApplyWmHints
  else if xatom =? wm_atom ATOM_WM_NORMAL_HINTS then on_window xid Window.FetchAndApplySizeHints;; mret ()
  else if xatom =? wm_atom ATOM_WM_TRANSIENT_FOR then on_window xid Window.FetchAndApplyTransientHint;; mret ()
  else if xatom =? wm_atom ATOM_CHROME_WINDOW_TYPE then on_window xid (Window.FetchAndApplyWindowType true);; mret ()
  else if xatom =? wm_atom ATOM_NET_WM_WINDOW_OPACITY then on_window xid Window.FetchAndApplyWindowOpacity
  else if xatom =? wm_atom ATOM_NET_WM_STATE then on_window xid Window.FetchAndApplyWmState
  else mret ().
Definition HandlePropertyNotify (xid xatom state : Z) : M S unit :=
  win ← get (GetWindow xid);
  (match win with Some _ => apply_property xid xatom (state =? PropertyDelete) | None => mret () end);;
  for_property xid xatom (fun c => EventConsumer.HandleWindowPropertyChange c xid xatom).

Definition unmap_for_all (xid : Z) : M S unit :=
  r ← get id;
  for_each (fun c => EventConsumer.HandleWindowUnmap (consumer c) xid) (all_consumers r).
Definition HandleReparentNotify (xid parent : Z) : M S unit :=
  r ← get id;
  if parent =? x_root then
    DCHECK (negb (Stacker.Contains (stacked_xids_ r) xid));;
    on_stacked (Stacker.AddOnTop xid)
  else if negb (Stacker.Contains (stacked_xids_ r) xid) then mret ()
  else
    on_stacked (Stacker.Remove xid);;
    (if Stacker.Contains (mapped_xids_ r) xid then
       on_mapped (Stacker.Remove xid);; UpdateClientListProperty;; mret ()
     else mret ());;
    match GetWindow xid r with
    | None => mret ()
    | Some win =>
        (if negb (Window.override_redirect_ win) then UpdateClientListStackingProperty;; mret () else mret ());;
        (if Window.mapped_ win then unmap_for_all xid else mret ());;
        erase_window xid;;
        if FLAGS_wm_use_compositing && Window.mapped_ win
        then on_world (extern (x_UnredirectWindowForCompositing xid));; mret () else mret ()
    end.
Definition HandleRRScreenChangeNotify (width height : Z) : M S unit :=
  w ← gets wm_world;
  if (width =? wm_width w) && (height =? wm_height w) then mret ()
  else
    on_world (modify (wm_set_size width height));;
    r ← get id;
    actor (stage_ r) (SetSize width height);;
    (match background_ r with Some a => actor a (SetSize width height) | None => mret () end);;
    panel_manager_HandleScreenResize;;
    r ← get id;
    layout_manager_MoveAndResize (layout_manager_x_ r) (layout_manager_y_ r) (layout_manager_width_ r) (layout_manager_height_ r);;
    w ← gets wm_world;
    actor hotkey_overlay_group (Move (Z.quot (wm_width w) 2) (Z.quot (wm_height w) 2) 0);;
    x (ResizeWindow (background_xid_ r) (wm_width w) (wm_height w));;
    on_world SetEwmhSizeProperties;;
    mret ().
Definition HandleShapeNotify (xid kind : Z) : M S unit :=
  win ← get (GetWindow xid);
  match win with
  | None => mret ()
  | Some _ => if kind =? ShapeBounding then on_window xid (Window.FetchAndApplyShape true) else mret ()
  end.
Definition HandleUnmapNotify (xid : Z) : M S unit :=
  win ← get (GetWindow xid);
  match win with
  | None => mret ()
  | Some win =>
      on_world (SetWmStateProperty xid 0);;
      set_mapped xid false;;
      on_window xid Window.HideComposited;;
      unmap_for_all xid;;
      r ← get id;
      (if Stacker.Contains (mapped_xids_ r) (Window.xid_ win) then
         on_mapped (Stacker.Remove (Window.xid_ win));;
         UpdateClientListProperty;; UpdateClientListStackingProperty;; mret ()
       else mret ());;
      w ← gets wm_world;
      if wm_active_window_xid w =? xid then on_world (SetActiveWindowProperty 0);; mret () else mret ()
  end.

(** *** What the keys do *)

Definition run_command (command : bytes) : M S Z := on_world (extern (system command)).
Definition LaunchTerminal : M S unit := run_command (FLAGS_wm_xterm_command ++ str " &");; mret ().
Definition LockScreen : M S unit := run_command FLAGS_wm_lock_screen_command;; mret ().
Definition ConfigureExternalMonitor : M S unit := run_command FLAGS_wm_configure_monitor_command;; mret ().
Definition TakeScreenshot (use_active_window : bool) : M S unit :=
  w ← gets wm_world;
  let xid := if use_active_window then wm_active_window_xid w else x_root in
  if xid =? 0 then mret ()
  else
    let filename := FLAGS_screenshot_output_dir ++ str "/screenshot.png" in
    run_command (FLAGS_screenshot_binary ++ str " " ++ filename ++ str " " ++ XidStr xid);;
    mret ().
Definition kHotkeyOverlayAnimMs : Z := 100.
Definition kHotkeyOverlayPollMs : Z := 100.
Definition QueryKeyboardState : M S unit :=
  keycodes ← on_world (extern x_QueryKeyboardState);
  on_world (extern (fun w => ((), hotkey_overlay_HandleKeyboardState keycodes w))).
Definition ToggleHotkeyOverlay : M S unit :=
  upd (fun r => r <| showing_hotkey_overlay_ := negb (showing_hotkey_overlay_ r) |>);;
  r ← get id;
  if showing_hotkey_overlay_ r then
    QueryKeyboardState;;
    actor hotkey_overlay_group (SetOpacity (Double.of_Z 0) 0);;
    actor hotkey_overlay_group (SetVisibility true);;
    actor hotkey_overlay_group (SetOpacity (Double.of_Z 1) kHotkeyOverlayAnimMs);;
    r ← get id;
    DCHECK (query_keyboard_state_timer_ r =? 0);;
    timer ← on_world (extern (g_timeout_add kHotkeyOverlayPollMs));
    upd (fun r => r <| query_keyboard_state_timer_ := timer |>)
  else
    actor hotkey_overlay_group (SetOpacity (Double.of_Z 0) kHotkeyOverlayAnimMs);;
    r ← get id;
    DCHECK (negb (query_keyboard_state_timer_ r =? 0));;
    on_world (extern (fun w => ((), g_source_remove (query_keyboard_state_timer_ r) w)));;
    upd (fun r => r <| query_keyboard_state_timer_ := 0 |>).
(** The boxes go when their actors' last pointers do. *)
Definition delete_actors (l : list Z) : M S unit := for_each (fun a => actor a DeleteActor) l.
Definition kDebugFadeMs : Z := 100.
Definition half : Double.double := Double.div (Double.of_Z 1) (Double.of_Z 2).
Definition debug_window (xid : Z) : M S unit :=
  geometry ← on_world (extern (x_GetWindowGeometry xid));
  match geometry with
  | None => mret ()
  | Some (gx, gy, gw, gh, _) =>
      group ← on_world (extern new_group);
      actor group AddToStage;;
      r ← get id;
      on_world (StackingManager.StackActorAtTopOfLayer (stacking_manager_ r) group StackingManager.LAYER_DEBUGGING);;
      actor group (SetName (str "debug group"));;
      actor group (Move gx gy 0);;
      actor group (SetSize gw gh);;
      actor group (SetVisibility true);;
      actor group (SetClip 0 0 gw gh);;
      rect ← on_world (extern new_rectangle);
      actor group (AddActor rect);;
      actor rect (SetName (str "debug box"));;
      actor rect (Move 0 0 0);;
      actor rect (SetSize gw gh);;
      actor rect (SetOpacity (Double.of_Z 0) 0);;
      actor rect (SetOpacity half kDebugFadeMs);;
      actor rect (SetVisibility true);;
      text ← on_world (extern (new_text (str "Sans 10pt") (XidStr xid)));
      actor group (AddActor text);;
      actor text (SetName (str "debug label"));;
      actor text (Move 3 3 0);;
      actor text (SetOpacity (Double.of_Z 0) 0);;
      actor text (SetOpacity (Double.of_Z 1) kDebugFadeMs);;
      actor text (SetVisibility true);;
      actor text (Raise rect);;
      upd (fun r => r <| client_window_debugging_actors_ := client_window_debugging_actors_ r ++ [group; rect; text] |>)
  end.
Definition ToggleClientWindowDebugging : M S unit :=
  r ← get id;
  if negb (bool_decide (client_window_debugging_actors_ r = [])) then
    upd (fun r => r <| client_window_debugging_actors_ := [] |>);;
    delete_actors (client_window_debugging_actors_ r)
  else
    xids ← on_world (extern (x_GetChildWindows x_root));
    match xids with
    | None => mret ()
    | Some xids => for_each debug_window xids
    end.
(** The closures that [Init] makes. *)
Definition own_closure (c : Z) : option (M S unit) :=
  if c =? -1 then Some LaunchTerminal
  else if c =? -2 then Some ToggleClientWindowDebugging
  else if c =? -3 then Some LockScreen
  else if c =? -4 then Some ConfigureExternalMonitor
  else if c =? -5 then Some ToggleHotkeyOverlay
  else if c =? -6 then Some (TakeScreenshot false)
  else if c =? -7 then Some (TakeScreenshot true)
  else None.
Definition run_bound (c : Z) : M S unit := default (run_closure c) (own_closure c).

(** *** Keys *)

(** The bindings and the whole state, for the closures. *)
#[local] Instance grabs_in_state : KeyGrabs S := {|
  x_lower_keysym := x_lower_keysym (W := W);
  x_SetDetectableKeyboardAutoRepeat b s :=
    let '(a, w) := x_SetDetectableKeyboardAutoRepeat b (wm_world s) in (a, set_wm_world w s);
  x_GetKeyCodeFromKeySym k s := let '(a, w) := x_GetKeyCodeFromKeySym k (wm_world s) in (a, set_wm_world w s);
  x_GrabKey k m s := let '(a, w) := x_GrabKey k m (wm_world s) in (a, set_wm_world w s);
  x_UngrabKey k m s := let '(a, w) := x_UngrabKey k m (wm_world s) in (a, set_wm_world w s) |}.
Definition set_keys (k : KeyBindings.t) (s : S) : S := set_wm ((wm s) <| key_bindings_ := k |>) s.
Definition with_keys {A} (m : M (KeyBindings.t * S) A) : M S A :=
  zoom (fun s => (key_bindings_ (wm s), s)) (fun ks _ => set_keys ks.1 ks.2) m.
Definition run_in_keys (c : Z) : M (KeyBindings.t * S) unit :=
  zoom (fun ks => set_keys ks.1 ks.2) (fun s _ => (key_bindings_ (wm s), s)) (run_bound c).
Definition HandleKeyPress (keycode state : Z) : M S unit :=
  keysym ← on_world (extern (x_GetKeySymFromKeyCode keycode));
  with_keys (KeyBindings.HandleKeyPress run_in_keys keysym state);;
  mret ().
(** Running a closure may change the set of actions to end; [fuel] bounds the names it looks at. *)
Definition HandleKeyRelease (fuel : nat) (keycode state : Z) : M S unit :=
  keysym ← on_world (extern (x_GetKeySymFromKeyCode keycode));
  with_keys (KeyBindings.HandleKeyRelease run_in_keys fuel keysym state);;
  mret ().

(** The bindings that [Init] sets up. *)
Definition ControlAlt : Z := Z.lor KeyBindings.kControlMask KeyBindings.kAltMask.
Definition XK_Print : Z := 65377.
Definition XK_F8 : Z := 65477.
Definition XK_F9 : Z := 65478.
Definition XK_l : Z := 108.
Definition XK_m : Z := 109.
Definition XK_t : Z := 116.
Definition add_key (name : bytes) (closure key modifiers : Z) : M (KeyBindings.t * S) unit :=
  KeyBindings.AddAction name (Some closure) None None;;
  KeyBindings.AddBinding (KeyBindings.make_KeyCombo (W := S) key modifiers) name;;
  mret ().
Definition given (flag : bytes) (m : M (KeyBindings.t * S) unit) : M (KeyBindings.t * S) unit :=
  if bool_decide (flag = []) then mret () else m.
Definition SetUpKeys : M S unit := with_keys (
  given FLAGS_wm_xterm_command (add_key (str "launch-terminal") (-1) XK_t ControlAlt);;
  add_key (str "toggle-client-window-debugging") (-2) XK_F9 0;;
  given FLAGS_wm_lock_screen_command (add_key (str "lock-screen") (-3) XK_l ControlAlt);;
  given FLAGS_wm_configure_monitor_command (add_key (str "configure-monitor") (-4) XK_m ControlAlt);;
  add_key (str "toggle-hotkey-overlay") (-5) XK_F8 0;;
  given FLAGS_screenshot_binary
    (KeyBindings.AddAction (str "take-root-screenshot") (Some (-6)) None None;;
     KeyBindings.AddAction (str "take-window-screenshot") (Some (-7)) None None;;
     KeyBindings.AddBinding (KeyBindings.make_KeyCombo (W := S) XK_Print 0) (str "take-root-screenshot");;
     KeyBindings.AddBinding (KeyBindings.make_KeyCombo (W := S) XK_Print KeyBindings.kShiftMask) (str "take-window-screenshot");;
     mret ())).

(** *** HandleEvent *)

Definition HandleEvent (fuel : nat) (e : XEvent) : M S unit :=
  match e with
  | ButtonPress xid px py rx ry b t => HandleButtonPress xid px py rx ry b t
  | ButtonRelease xid px py rx ry b t => HandleButtonRelease xid px py rx ry b t
  | ClientMessage xid type format data => HandleClientMessage xid type format data
  | ConfigureNotify xid px py w h above => HandleConfigureNotify xid px py w h above
  | ConfigureRequest xid mask px py w h => HandleConfigureRequest xid mask px py w h
  | CreateNotify parent xid o => HandleCreateNotify parent xid o
  | DestroyNotify xid => HandleDestroyNotify xid
  | EnterNotify xid px py rx ry t => HandleEnterNotify xid px py rx ry t
  | FocusNotify xid focus_in mode detail => HandleFocusChange xid focus_in mode detail
  | KeyPress code state => HandleKeyPress code state
  | KeyRelease code state => HandleKeyRelease fuel code state
  | LeaveNotify xid px py rx ry t => HandleLeaveNotify xid px py rx ry t
  | MapNotify xid => HandleMapNotify xid
  | MapRequest xid => HandleMapRequest xid
  | MappingNotify => HandleMappingNotify
  | MotionNotify xid px py rx ry t => HandleMotionNotify xid px py rx ry t
  | PropertyNotify xid xatom state => HandlePropertyNotify xid xatom state
  | ReparentNotify xid parent => HandleReparentNotify xid parent
  | UnmapNotify xid => HandleUnmapNotify xid
  | DamageNotify d => HandleDamageNotify d
  | ShapeNotify xid kind => HandleShapeNotify xid kind
  | RRScreenChangeNotify w h => HandleRRScreenChangeNotify w h
  | OtherEvent => mret ()
  end.
End manager.
End Manager.
