(* ===== verification/WmManagerSafe.v ===== *)
(** * The window manager follows the X server (WmManager.v).

    [Server] is what the server knows: the children of the root window from top to
    bottom, and the windows that are mapped; [follows] its steps with the events that it
    sends.  [mirrors] relates it to the window manager's [stacked_xids_], [mapped_xids_]
    and [client_windows_].  Handling the events keeps the relation, whatever the
    event consumers do to the rest of the program. *)

From stdpp Require Import sorting.
From S2P Require Import Prelude Hoare WmUtil KeyBindings XConnection WmIpc Double Window WmEvents Panel WmFrame LayoutFrame WmManager.
Import WindowManager Manager.

(** Clutter's handling of a window and the X requests here leave the connection working. *)
Class WmRequestLaws (W : Type) `{WmFrame W} `{!WmRequests W} := {
  wr_configured xid w : wm_ok w → wm_moves wm_ok wm_used w (clutter_HandleWindowConfigured xid w);
  wr_damaged xid w : wm_ok w → wm_moves wm_ok wm_used w (clutter_HandleWindowDamaged xid w);
  wr_destroyed xid w : wm_ok w → wm_moves wm_ok wm_used w (clutter_HandleWindowDestroyed xid w);
  wr_unredirect xid w : wm_ok w → wm_moves wm_ok wm_used w (x_UnredirectWindowForCompositing xid w).2
}.

(** ** What is true if a program returns *)

Section partial.
Context {S : Type}.
Definition pwp {A} (m : M S A) (Q : A → S → Prop) (s : S) : Prop := ∀ a s', m s = Val (a, s') → Q a s'.
Lemma pwp_ret {A} (a : A) (Q : A → S → Prop) s : Q a s → pwp (mret a) Q s.
Proof. by intros HQ ?? [= <- <-]. Qed.
Lemma pwp_bind {A B} (m : M S A) (k : A → M S B) Q s : pwp m (fun a => pwp (k a) Q) s → pwp (m ≫= k) Q s.
Proof. intros Hm b s'. unfold mbind, M_bind. destruct (m s) as [[a s1]|] eqn:E; [|done]. by apply (Hm a s1). Qed.
Lemma pwp_mono {A} (m : M S A) (Q Q' : A → S → Prop) s : pwp m Q s → (∀ a s', Q a s' → Q' a s') → pwp m Q' s.
Proof. intros Hm HQ a s' Hrun. by apply HQ, Hm. Qed.
Lemma pwp_run {A} (m : M S A) (Q : A → S → Prop) s a s' : m s = Val (a, s') → Q a s' → pwp m Q s.
Proof. by intros Hrun HQ b s2 [= <- <-]%(eq_trans (eq_sym Hrun)). Qed.
Lemma pwp_gets_bind {A B} (f : S → A) (k : A → M S B) Q s : pwp (k (f s)) Q s → pwp (gets f ≫= k) Q s.
Proof. intros Hk. apply pwp_bind. by apply (pwp_run _ _ _ (f s) s). Qed.
Lemma pwp_mget_bind {B} (k : S → M S B) Q s : pwp (k s) Q s → pwp (mget ≫= k) Q s.
Proof. intros Hk. apply pwp_bind. by apply (pwp_run _ _ _ s s). Qed.
Lemma pwp_modify f (Q : unit → S → Prop) s : Q () (f s) → pwp (modify f) Q s.
Proof. intros HQ. by apply (pwp_run _ _ _ () (f s)). Qed.
Lemma pwp_fail {A} f (Q : A → S → Prop) s : pwp (fail f) Q s.
Proof. by intros ??. Qed.

(** Programs that keep a relation to the state before. *)
Context (R : S → S → Prop) `{!PreOrder R}.
Definition keeps {A} (m : M S A) : Prop := ∀ s, pwp m (fun _ s' => R s s') s.
Lemma keeps_ret {A} (a : A) : keeps (mret a).
Proof. intros s. by apply pwp_ret. Qed.
Lemma keeps_gets {A} (f : S → A) : keeps (gets f).
Proof. intros s. by apply (pwp_run _ _ _ (f s) s). Qed.
Lemma keeps_mget : keeps mget.
Proof. intros s. by apply (pwp_run _ _ _ s s). Qed.
Lemma keeps_fail {A} f : keeps (fail f : M S A).
Proof. intros s. apply pwp_fail. Qed.
Lemma keeps_modify f : (∀ s, R s (f s)) → keeps (modify f).
Proof. intros Hf s. by apply pwp_modify. Qed.
Lemma keeps_bind {A B} (m : M S A) (k : A → M S B) : keeps m → (∀ a, keeps (k a)) → keeps (m ≫= k).
Proof.
  intros Hm Hk s. apply pwp_bind. eapply pwp_mono; [apply Hm|]. intros a s1 Hr1.
  eapply pwp_mono; [apply Hk|]. intros b s2 Hr2. by transitivity s1.
Qed.
Lemma keeps_CHECK b : keeps (CHECK b).
Proof. destruct b; [apply keeps_ret|apply keeps_fail]. Qed.
Lemma keeps_DCHECK `{Build} b : keeps (DCHECK b).
Proof. unfold DCHECK. destruct dchecks; [apply keeps_CHECK|apply keeps_ret]. Qed.
Lemma keeps_for_each {A} (f : A → M S unit) l : (∀ a, keeps (f a)) → keeps (for_each f l).
Proof. intros Hf. induction l as [|a l IH]; [apply keeps_ret|]. by apply keeps_bind. Qed.
Lemma pwp_keeps {A B} (m : M S A) (k : A → M S B) Q s : keeps m →
  (∀ a s1, R s s1 → pwp (k a) Q s1) → pwp (m ≫= k) Q s.
Proof. intros Hm Hk. apply pwp_bind. eapply pwp_mono; [apply Hm|]. intros a s1. apply Hk. Qed.
End partial.
Create HintDb keeps.
#[export] Hint Resolve keeps_ret keeps_gets keeps_mget keeps_fail keeps_CHECK keeps_DCHECK : keeps.
#[export] Hint Extern 0 (PreOrder _) => apply _ : keeps.
(** Follow a program's structure; the leaves are hints. *)
Ltac keep :=
  repeat first
    [ solve [eauto with keeps]
    | progress intros
    | apply keeps_bind; [apply _| |]
    | apply keeps_for_each; [apply _|]
    | match goal with
      | |- keeps _ (if ?b then _ else _) => destruct b
      | |- keeps _ (match ?b with _ => _ end) => destruct b
      end ].

(** ** Windows keep what they are *)

Section windows.
Context `{Build} {W : Type} `{Wm W}.
(** XID, mapped, override-redirect. *)
Definition flags (w : Window.t) : Z * bool * bool := (Window.xid_ w, Window.mapped_ w, Window.override_redirect_ w).
Definition same_flags (s s' : Window.t * W) : Prop := flags s'.1 = flags s.1.
#[global] Instance same_flags_preorder : PreOrder same_flags.
Proof. split; [by intros s|]. intros s1 s2 s3. unfold same_flags. congruence. Qed.
Abbreviation plain := (keeps same_flags).

Lemma plain_on_w {A} (m : M W A) : plain (Window.on_w m).
Proof. intros s a s'. unfold Window.on_w, zoom. destruct (m s.2) as [[b w]|]; [|done]. by intros [= <- <-]. Qed.
Lemma plain_upd f : (∀ r, flags (f r) = flags r) → plain (Window.upd f).
Proof. intros Hf. apply keeps_modify. intros s. apply Hf. Qed.
Lemma plain_get {A} (f : Window.t → A) : plain (Window.get f).
Proof. apply keeps_gets, _. Qed.
#[local] Hint Resolve plain_on_w plain_get : keeps.
#[local] Hint Extern 1 (keeps _ (Window.upd _)) => by apply plain_upd; intros [] : keeps.
Lemma plain_x r : plain (Window.x r).
Proof. apply plain_on_w. Qed.
Lemma plain_actor c : plain (Window.actor c).
Proof. unfold Window.actor. keep. Qed.
Lemma plain_shadow c : plain (Window.shadow c).
Proof. unfold Window.shadow. keep. Qed.
#[local] Hint Resolve plain_x plain_actor plain_shadow : keeps.
Lemma plain_SetTitle title : plain (Window.SetTitle title).
Proof. unfold Window.SetTitle. keep. Qed.
Lemma plain_Redirect : plain Window.Redirect.
Proof. unfold Window.Redirect. keep. Qed.
Lemma plain_SaveClientPosition px py : plain (Window.SaveClientPosition px py).
Proof. unfold Window.SaveClientPosition. keep. Qed.
Lemma plain_resize_shadow ms : plain (Window.resize_shadow ms).
Proof. unfold Window.resize_shadow. keep. Qed.
#[local] Hint Resolve plain_SetTitle plain_SaveClientPosition plain_resize_shadow : keeps.
Lemma plain_SaveClientAndCompositedSize wd ht : plain (Window.SaveClientAndCompositedSize wd ht).
Proof. unfold Window.SaveClientAndCompositedSize. keep. Qed.
Lemma plain_MoveClient px py : plain (Window.MoveClient px py).
Proof. unfold Window.MoveClient. keep. Qed.
Lemma plain_MoveComposited px py ms : plain (Window.MoveComposited px py ms).
Proof. unfold Window.MoveComposited. keep. Qed.
#[local] Hint Resolve plain_SaveClientAndCompositedSize plain_MoveComposited : keeps.
Lemma plain_ResizeClient wd ht g : plain (Window.ResizeClient wd ht g).
Proof. unfold Window.ResizeClient. keep. Qed.
Lemma plain_HideComposited : plain Window.HideComposited.
Proof. unfold Window.HideComposited. keep. Qed.
Lemma plain_stack_shadow sa b : plain (Window.stack_shadow sa b).
Proof. unfold Window.stack_shadow. keep. Qed.
#[local] Hint Resolve plain_stack_shadow plain_ResizeClient : keeps.
Lemma plain_StackCompositedAbove o sa b : plain (Window.StackCompositedAbove o sa b).
Proof. unfold Window.StackCompositedAbove. keep. Qed.
Lemma plain_SetCompositedOpacity o ms : plain (Window.SetCompositedOpacity o ms).
Proof. unfold Window.SetCompositedOpacity. keep. Qed.
Lemma plain_UpdateShadowIfNecessary : plain Window.UpdateShadowIfNecessary.
Proof. unfold Window.UpdateShadowIfNecessary. keep. Qed.
#[local] Hint Resolve plain_SetCompositedOpacity plain_UpdateShadowIfNecessary : keeps.
Lemma plain_int_array a : plain (Window.int_array a).
Proof. unfold Window.int_array. keep. Qed.
#[local] Hint Resolve plain_int_array : keeps.
Lemma plain_FetchAndApplySizeHints : plain Window.FetchAndApplySizeHints.
Proof. unfold Window.FetchAndApplySizeHints. keep. Qed.
Lemma plain_FetchAndApplyTransientHint : plain Window.FetchAndApplyTransientHint.
Proof. unfold Window.FetchAndApplyTransientHint. keep. Qed.
Lemma plain_FetchAndApplyWindowType b : plain (Window.FetchAndApplyWindowType b).
Proof. unfold Window.FetchAndApplyWindowType. keep. Qed.
Lemma plain_FetchAndApplyWindowOpacity : plain Window.FetchAndApplyWindowOpacity.
Proof. unfold Window.FetchAndApplyWindowOpacity. keep. Qed.
Lemma plain_FetchAndApplyWmHints : plain Window.FetchAndApplyWmHints.
Proof. unfold Window.FetchAndApplyWmHints. keep. Qed.
Lemma plain_FetchAndApplyWmProtocols : plain Window.FetchAndApplyWmProtocols.
Proof. unfold Window.FetchAndApplyWmProtocols. keep. Qed.
Lemma plain_FetchAndApplyWmState : plain Window.FetchAndApplyWmState.
Proof.
  unfold Window.FetchAndApplyWmState. keep. apply plain_upd. intros []. unfold Window.apply_state_atom.
  repeat case_match; done.
Qed.
Lemma plain_FetchAndApplyChromeState : plain Window.FetchAndApplyChromeState.
Proof. unfold Window.FetchAndApplyChromeState. keep. Qed.
Lemma plain_FetchAndApplyShape b : plain (Window.FetchAndApplyShape b).
Proof. unfold Window.FetchAndApplyShape. keep. Qed.
Lemma plain_FetchMapState : plain Window.FetchMapState.
Proof. unfold Window.FetchMapState. keep. Qed.
End windows.
Abbreviation plain := (keeps same_flags).
#[export] Hint Resolve plain_SetTitle plain_Redirect plain_SaveClientPosition plain_SaveClientAndCompositedSize plain_MoveClient
  plain_MoveComposited plain_ResizeClient plain_HideComposited plain_StackCompositedAbove plain_FetchAndApplySizeHints
  plain_FetchAndApplyTransientHint plain_FetchAndApplyWindowType plain_FetchAndApplyWindowOpacity plain_FetchAndApplyWmHints
  plain_FetchAndApplyWmProtocols plain_FetchAndApplyWmState plain_FetchAndApplyChromeState plain_FetchAndApplyShape
  plain_FetchMapState plain_x plain_actor plain_shadow plain_resize_shadow plain_get plain_on_w : keeps.
#[export] Hint Extern 1 (keeps _ (Window.upd _)) => by apply plain_upd; intros [] : keeps.
Lemma plain_set_up `{Wm W} : plain (Window.set_up (W := W)).
Proof. unfold Window.set_up. keep. Qed.

(** ** What only the window manager itself changes *)

Class ManagerPlace (S W : Type) `{ManagerStore S W} := {
  mp_wm m s : wm (set_wm m s) = m;
  mp_world m s : wm_world (set_wm m s) = wm_world s;
  mp_wm_world w s : wm (set_wm_world w s) = wm s;
  mp_world_world w s : wm_world (set_wm_world w s) = w
}.
Definition books (r : WindowManager.t) : Stacker.t Z * Stacker.t Z * gmap Z (Z * bool * bool) :=
  (stacked_xids_ r, mapped_xids_ r, flags <$> client_windows_ r).

Section alike.
Context {S W : Type} `{ManagerStore S W}.
Definition alike (s s' : S) : Prop := books (wm s') = books (wm s).
#[global] Instance alike_preorder : PreOrder alike.
Proof. split; [by intros s|]. intros s1 s2 s3. unfold alike. congruence. Qed.
Abbreviation still := (keeps alike).
(** A consumer keeps its hands off the window manager's books. *)
Record consumer_keeps (c : EventConsumer.t S) : Prop := {
  ck_map_request x : still (EventConsumer.HandleWindowMapRequest c x);
  ck_map x : still (EventConsumer.HandleWindowMap c x);
  ck_unmap x : still (EventConsumer.HandleWindowUnmap c x);
  ck_configure x px py w h : still (EventConsumer.HandleWindowConfigureRequest c x px py w h);
  ck_press x px py rx ry b t : still (EventConsumer.HandleButtonPress c x px py rx ry b t);
  ck_release x px py rx ry b t : still (EventConsumer.HandleButtonRelease c x px py rx ry b t);
  ck_enter x px py rx ry t : still (EventConsumer.HandlePointerEnter c x px py rx ry t);
  ck_leave x px py rx ry t : still (EventConsumer.HandlePointerLeave c x px py rx ry t);
  ck_motion x px py rx ry t : still (EventConsumer.HandlePointerMotion c x px py rx ry t);
  ck_chrome msg : still (EventConsumer.HandleChromeMessage c msg);
  ck_client x type data : still (EventConsumer.HandleClientMessage c x type data);
  ck_focus x b : still (EventConsumer.HandleFocusChange c x b);
  ck_property x a : still (EventConsumer.HandleWindowPropertyChange c x a)
}.
End alike.
#[export] Hint Resolve ck_map_request ck_map ck_unmap ck_configure ck_press ck_release ck_enter ck_leave ck_motion ck_chrome
  ck_client ck_focus ck_property : keeps.

Section manager.
Context `{Build} {W : Type} `{Wm W} `{HasConsumers W} `{KeyGrabs W} `{!WmRequests W}.
Context {S : Type} `{ManagerStore S W} `{!ManagerPlace S W}.
Variable consumer : Z → EventConsumer.t S.
Variable panel_manager_HandleScreenResize : M S unit.
Variable layout_manager_MoveAndResize : Z → Z → Z → Z → M S unit.
Variable run_closure : Z → M S unit.
Variable indeterminate : bool.
Hypothesis consumers_keep : ∀ c, consumer_keeps (consumer c).
Hypothesis resize_keeps : keeps alike panel_manager_HandleScreenResize.
Hypothesis move_keeps : ∀ px py w h, keeps alike (layout_manager_MoveAndResize px py w h).
Hypothesis closures_keep : ∀ c, keeps alike (run_closure c).
Abbreviation still := (keeps (alike (S := S))).

Lemma still_on_world {A} (m : M W A) : still (on_world m).
Proof.
  intros s a s'. unfold on_world, zoom. destruct (m (wm_world s)) as [[b w]|]; [|done]. intros [= <- <-].
  unfold alike. by rewrite mp_wm_world.
Qed.
Lemma still_get {A} (f : t → A) : still (get f).
Proof. apply keeps_gets, _. Qed.
Lemma still_upd f : (∀ r, books (f r) = books r) → still (upd f).
Proof. intros Hf. apply keeps_modify. intros s. unfold alike. by rewrite mp_wm. Qed.
#[local] Hint Resolve still_on_world still_get : keeps.
Lemma still_window x : still (window x).
Proof. unfold window. keep. Qed.
Lemma on_window_run {A} x (m : M (Window.t * W) A) s a s' : on_window x m s = Val (a, s') →
  ∃ w w' u, GetWindow x (wm s) = Some w ∧ m (w, wm_world s) = Val (a, (w', u)) ∧ s' = set_wm_world u (set_window x w' s).
Proof.
  unfold on_window, window, get, gets, zoom, mbind, M_bind. destruct (GetWindow x (wm s)) as [w|] eqn:E; cbn [id]; [|by intros [=]].
  cbn. rewrite ?E. cbn. destruct (m (w, wm_world s)) as [[b [w' u]]|] eqn:Em; [|done]. intros [= <- <-]. by exists w, w', u.
Qed.
Lemma still_on_window {A} x (m : M (Window.t * W) A) : plain m → still (on_window x m).
Proof.
  intros Hm s a s' (w & w' & u & Hw & Hrun & ->)%on_window_run. pose proof (Hm _ _ _ Hrun) as Hf. unfold same_flags in Hf. cbn in Hf.
  unfold alike, set_window. rewrite mp_wm_world, mp_wm. unfold books. cbn. f_equal. rewrite fmap_insert, Hf.
  apply insert_id. rewrite lookup_fmap. unfold GetWindow in Hw. by rewrite Hw.
Qed.
#[local] Hint Resolve still_window still_on_window : keeps.
#[local] Hint Extern 1 (keeps _ (upd _)) => by apply still_upd : keeps.
Lemma still_x r : still (x r).
Proof. apply still_on_world. Qed.
Lemma still_actor a c : still (actor a c).
Proof. apply still_on_world. Qed.
#[local] Hint Resolve still_x still_actor : keeps.
Lemma still_set_or_delete a l : still (set_or_delete a l).
Proof. unfold set_or_delete. keep. Qed.
#[local] Hint Resolve still_set_or_delete : keeps.
Lemma still_UpdateClientListProperty : still UpdateClientListProperty.
Proof. unfold UpdateClientListProperty. keep. Qed.
Lemma still_UpdateClientListStackingProperty : still UpdateClientListStackingProperty.
Proof. unfold UpdateClientListStackingProperty. keep. Qed.
#[local] Hint Resolve still_UpdateClientListProperty still_UpdateClientListStackingProperty : keeps.

(** *** Dispatch *)

Lemma still_dispatch_from fuel reg call c : (∀ c, still (call (consumer c))) → still (dispatch_from consumer fuel reg call c).
Proof.
  intros Hcall. revert c. induction fuel as [|fuel IH]; intros c; cbn [dispatch_from]; [keep|].
  apply keeps_bind; [apply _|apply Hcall|intros _]. keep.
Qed.
Lemma still_for_each_event_consumer reg call : (∀ c, still (call (consumer c))) → still (for_each_event_consumer consumer reg call).
Proof.
  intros Hcall. unfold for_each_event_consumer. keep. by apply still_dispatch_from.
Qed.
#[local] Hint Extern 1 (keeps _ (for_each_event_consumer _ _ _)) => apply still_for_each_event_consumer; intros : keeps.
#[local] Hint Extern 1 (consumer_keeps _) => apply consumers_keep : keeps.

(** *** The handlers that leave the books alone *)

Lemma still_HandleClientMessage xid type format data : still (HandleClientMessage consumer xid type format data).
Proof. unfold HandleClientMessage, for_window, for_chrome. keep. Qed.
Lemma still_HandleConfigureRequest xid mask px py w h : still (HandleConfigureRequest consumer xid mask px py w h).
Proof. unfold HandleConfigureRequest, for_window. keep. Qed.
Lemma still_HandleDamageNotify d : still (HandleDamageNotify d).
Proof. unfold HandleDamageNotify. keep. Qed.
Lemma still_HandleFocusChange xid b mode detail : still (HandleFocusChange consumer xid b mode detail).
Proof. unfold HandleFocusChange, for_window. keep. Qed.
Lemma still_ask_to_map xid cs : still (ask_to_map consumer xid cs).
Proof. induction cs as [|c cs IH]; cbn [ask_to_map]; keep. Qed.
#[local] Hint Resolve still_ask_to_map : keeps.
Lemma still_HandleMapRequest xid : still (HandleMapRequest consumer xid).
Proof. unfold HandleMapRequest. keep. Qed.
Lemma still_HandleMappingNotify : still HandleMappingNotify.
Proof. unfold HandleMappingNotify. keep. Qed.
Lemma still_apply_property xid a b : still (apply_property xid a b).
Proof. unfold apply_property. keep. Qed.
#[local] Hint Resolve still_apply_property : keeps.
Lemma still_HandlePropertyNotify xid a st : still (HandlePropertyNotify consumer xid a st).
Proof. unfold HandlePropertyNotify, for_property. keep. Qed.
Lemma still_HandleRRScreenChangeNotify w h :
  still (HandleRRScreenChangeNotify layout_manager_MoveAndResize panel_manager_HandleScreenResize w h).
Proof. unfold HandleRRScreenChangeNotify. keep. Qed.
Lemma still_HandleShapeNotify xid k : still (HandleShapeNotify xid k).
Proof. unfold HandleShapeNotify. keep. Qed.
Lemma still_unmap_for_all xid : still (unmap_for_all consumer xid).
Proof. unfold unmap_for_all. keep. Qed.


(** *** Keys *)

Definition alike_keys (s s' : KeyBindings.t * S) : Prop := alike s.2 s'.2.
#[local] Instance alike_keys_preorder : PreOrder alike_keys.
Proof. split; [by intros s; unfold alike_keys|]. intros s1 s2 s3. unfold alike_keys. intros. by etransitivity. Qed.
Lemma still_run_bound c : still (run_bound run_closure c).
Proof.
  unfold run_bound, own_closure. repeat case_match; cbn [default]; try apply closures_keep;
    unfold LaunchTerminal, ToggleClientWindowDebugging, LockScreen, ConfigureExternalMonitor, ToggleHotkeyOverlay, TakeScreenshot,
      run_command, QueryKeyboardState, debug_window, delete_actors; keep.
Qed.
Lemma still_run_in_keys c : keeps alike_keys (run_in_keys run_closure c).
Proof.
  intros [k s] a [k' s']. unfold run_in_keys, zoom. cbn. destruct (run_bound run_closure c (set_keys k s)) as [[b s1]|] eqn:E; [|done].
  intros [= <- <- <-]. apply (still_run_bound c) in E. unfold alike_keys, alike in *. cbn. rewrite E. unfold set_keys.
  by rewrite mp_wm.
Qed.
Lemma still_with_keys {A} (m : M (KeyBindings.t * S) A) : keeps alike_keys m → still (with_keys m).
Proof.
  intros Hm s a s'. unfold with_keys, zoom. destruct (m (key_bindings_ (wm s), s)) as [[b [k s1]]|] eqn:E; [|done].
  intros [= <- <-]. apply Hm in E. unfold alike_keys, alike in *. cbn in *. unfold set_keys. by rewrite mp_wm.
Qed.
Lemma still_keys_upd f : keeps alike_keys (KeyBindings.upd f).
Proof. by apply keeps_modify. Qed.
#[local] Hint Resolve still_run_in_keys still_with_keys still_keys_upd : keeps.
Lemma still_release_loop fuel keysym name ran :
  keeps alike_keys (KeyBindings.release_loop (W := S) (run_in_keys run_closure) fuel keysym name ran).
Proof.
  revert name ran. induction fuel as [|fuel IH]; intros name ran; cbn [KeyBindings.release_loop];
    unfold KeyBindings.release_action, KeyBindings.set_action; keep.
Qed.
#[local] Hint Resolve still_release_loop : keeps.
Lemma still_HandleKeyPress code state : still (HandleKeyPress run_closure code state).
Proof.
  unfold HandleKeyPress. apply keeps_bind; [apply _|keep|intros k]. apply keeps_bind; [apply _| |keep].
  apply still_with_keys. unfold KeyBindings.HandleKeyPress, KeyBindings.set_action. keep.
Qed.
Lemma still_HandleKeyRelease fuel code state : still (HandleKeyRelease run_closure fuel code state).
Proof.
  unfold HandleKeyRelease. apply keeps_bind; [apply _|keep|intros k]. apply keeps_bind; [apply _| |keep].
  apply still_with_keys. unfold KeyBindings.HandleKeyRelease. keep.
Qed.

(** *** The server *)

Record Server := root_with { children : list Z; viewable : gset Z }.
(** Events that say nothing about the children of the root or what is mapped. *)
Definition unrelated (e : XEvent) : Prop :=
  match e with
  | ConfigureNotify _ _ _ _ _ _ | CreateNotify _ _ _ | DestroyNotify _ | MapNotify _ | UnmapNotify _ | ReparentNotify _ _ => False
  | _ => True
  end.
(** The window [x] among the others in another place: [above] is what is directly under it. *)
Inductive follows : Server → XEvent → Server → Prop :=
| f_create x o l v : x ≠ 0 → x ∉ l → follows (root_with l v) (CreateNotify x_root x o) (root_with (x :: l) v)
| f_create_inside p x o sv : p ≠ x_root → follows sv (CreateNotify p x o) sv
| f_destroy x l v : x ∉ v → follows (root_with l v) (DestroyNotify x) (root_with (filter (.≠ x) l) v)
| f_configure x px py w h l l' v : x ∈ l → x ∈ l' → NoDup l' → filter (.≠ x) l' = filter (.≠ x) l →
    follows (root_with l v) (ConfigureNotify x px py w h (default 0 (under x l'))) (root_with l' v)
| f_configure_inside x px py w h above l v : x ∉ l → follows (root_with l v) (ConfigureNotify x px py w h above) (root_with l v)
| f_map x l v : follows (root_with l v) (MapNotify x) (root_with l ({[x]} ∪ v))
| f_unmap x l v : follows (root_with l v) (UnmapNotify x) (root_with l (v ∖ {[x]}))
| f_reparent_to_root x l v : x ≠ 0 → x ∉ l → follows (root_with l v) (ReparentNotify x x_root) (root_with (x :: l) v)
| f_reparent_away x p l v : p ≠ x_root → follows (root_with l v) (ReparentNotify x p) (root_with (filter (.≠ x) l) v)
| f_other e sv : unrelated e → follows sv e sv.

(** [stacked_xids_] has the children in their order, every window is one of them, and
    [mapped_xids_] has the mapped windows that are not override-redirect. *)
Definition managed_in (fl : gmap Z (Z * bool * bool)) (x : Z) : bool :=
  match fl !! x with Some (_, m, o) => m && negb o | None => false end.
Record mirrored (st mp : Stacker.t Z) (fl : gmap Z (Z * bool * bool)) (sv : Server) : Prop := {
  mi_stacked : well_formed st;
  mi_mapped : well_formed mp;
  mi_order : Stacker.items st = children sv;
  mi_named y z m o : fl !! y = Some (z, m, o) → z = y ∧ y ∈ children sv ∧ (m = true → y ∈ viewable sv);
  mi_list y : y ∈ Stacker.items mp ↔ managed_in fl y = true;
  mi_root : 0 ∉ children sv
}.
Definition mirrors (s : S) (sv : Server) : Prop :=
  mirrored (stacked_xids_ (wm s)) (mapped_xids_ (wm s)) (flags <$> client_windows_ (wm s)) sv.
Lemma mirrors_alike s s' sv : alike s s' → mirrors s sv → mirrors s' sv.
Proof. unfold alike, books, mirrors. intros [= -> -> ->]. done. Qed.
Lemma mirrors_keeps {A} (m : M S A) s sv : still m → mirrors s sv → pwp m (fun _ s' => mirrors s' sv) s.
Proof. intros Hm Hs. eapply pwp_mono; [apply Hm|]. intros a s' Hr. by apply (mirrors_alike s). Qed.
Lemma mirrors_then {A B} (m : M S A) (k : A → M S B) s sv Q : still m → mirrors s sv →
  (∀ a s1, alike s s1 → mirrors s1 sv → pwp (k a) Q s1) → pwp (m ≫= k) Q s.
Proof. intros Hm Hs Hk. apply pwp_keeps with alike; [done|]. intros a s1 Hr. apply Hk; [done|by apply (mirrors_alike s)]. Qed.

(** *** The stacking order *)

Lemma items_op o s a s' : well_formed (stacked_xids_ (wm s)) → on_stacked (run_op o) s = Val (a, s') →
  ∃ st', books (wm s') = (st', mapped_xids_ (wm s), flags <$> client_windows_ (wm s)) ∧ well_formed st' ∧
    Stacker.items st' = list_op (Stacker.items (stacked_xids_ (wm s))) o.
Proof.
  intros Hwf. destruct (stacker_op_refines o _ Hwf) as (st' & Hrun & Hwf' & Hit). unfold on_stacked, zoom. rewrite Hrun.
  intros [= <- <-]. exists st'. rewrite mp_wm. by split.
Qed.
Lemma mapped_op o s a s' : well_formed (mapped_xids_ (wm s)) → on_mapped (run_op o) s = Val (a, s') →
  ∃ mp', books (wm s') = (stacked_xids_ (wm s), mp', flags <$> client_windows_ (wm s)) ∧ well_formed mp' ∧
    Stacker.items mp' = list_op (Stacker.items (mapped_xids_ (wm s))) o.
Proof.
  intros Hwf. destruct (stacker_op_refines o _ Hwf) as (st' & Hrun & Hwf' & Hit). unfold on_mapped, zoom. rewrite Hrun.
  intros [= <- <-]. exists st'. rewrite mp_wm. by split.
Qed.
Lemma GetUnder_still x s : well_formed (stacked_xids_ (wm s)) →
  ∃ s', on_stacked (Stacker.GetUnder x) s = Val (under x (Stacker.items (stacked_xids_ (wm s))), s') ∧ books (wm s') = books (wm s).
Proof.
  intros Hwf. unfold on_stacked, zoom. rewrite GetUnder_run by done. eexists. split; [reflexivity|]. rewrite mp_wm. done.
Qed.

Lemma split_at (x : Z) l : x ∈ l → NoDup l → ∃ l1 l2, l = l1 ++ x :: l2 ∧ x ∉ l1 ∧ x ∉ l2 ∧ filter (.≠ x) l = l1 ++ l2 ∧ under x l = head l2.
Proof.
  intros (l1 & l2 & ->)%list_elem_of_split Hnd. exists l1, l2. apply NoDup_app in Hnd as (_ & Hd & (Hx & _)%NoDup_cons).
  assert (x ∉ l1) as Hx1 by (intros Hin; apply (Hd x Hin); by left). split; [done|]. split; [done|]. split; [done|].
  split; [|by apply under_split]. rewrite filter_app, filter_cons_False by naive_solver. by rewrite !filter_other.
Qed.
Lemma pivot_unique (y : Z) l1 l2 m1 m2 : y ∉ l1 → y ∉ m1 → l1 ++ y :: l2 = m1 ++ y :: m2 → l1 = m1 ∧ l2 = m2.
Proof.
  revert m1. induction l1 as [|z l1 IH]; intros [|z' m1] Hl Hm; cbn; [by intros [= ->]|..].
  - intros [= <- _]. by destruct Hm; left.
  - intros [= -> _]. by destruct Hl; left.
  - intros [= <- Heq]. apply not_elem_of_cons in Hl as [_ Hl], Hm as [_ Hm]. destruct (IH m1 Hl Hm Heq). by subst.
Qed.
(** What is under a window and the order of the others is all there is to know. *)
Lemma same_under (x : Z) l l' : x ∈ l → NoDup l → x ∈ l' → NoDup l' → filter (.≠ x) l' = filter (.≠ x) l → under x l = under x l' → l = l'.
Proof.
  intros Hx Hnd Hx' Hnd' Hf Hu. destruct (split_at x l Hx Hnd) as (l1 & l2 & -> & ? & ? & F & U).
  destruct (split_at x l' Hx' Hnd') as (m1 & m2 & -> & ? & ? & F' & U'). rewrite F, F' in Hf. rewrite U, U' in Hu.
  assert (NoDup (l1 ++ l2)) as Hn by (rewrite <-F; by apply NoDup_filter).
  destruct l2 as [|y l2], m2 as [|z m2]; try done.
  - rewrite !app_nil_r in Hf. by subst.
  - injection Hu as <-. rewrite Hf in F'. assert (y ∉ l1 ∧ y ∉ m1) as [Hy1 Hy2].
    { split; intros Hin; [|rewrite <-Hf in Hn]; apply NoDup_app in Hn as (_ & Hd & _); apply (Hd y Hin); by left. }
    by destruct (pivot_unique y m1 m2 l1 l2) as [-> ->].
Qed.
(** The list that putting [x] above what is under it in [l'] gives. *)
Lemma put_above (x : Z) l' : x ∈ l' → NoDup l' →
  match under x l' with
  | Some o => o ∈ filter (fun y => y ≠ x) l' ∧ list_op (filter (fun y => y ≠ x) l') (OAbove x o) = l'
  | None => list_op (filter (fun y => y ≠ x) l') (OBottom x) = l'
  end.
Proof.
  intros Hx Hnd. destruct (split_at x l' Hx Hnd) as (l1 & l2 & Hl & Hx1 & Hx2 & Hf & Hu). rewrite Hu, Hf.
  assert (x ∉ l1 ++ l2) as Hx12 by (rewrite not_elem_of_app; by split).
  destruct l2 as [|o l2]; cbn [head list_op]; rewrite decide_False by done.
  - by rewrite app_nil_r.
  - split; [rewrite elem_of_app; right; by left|]. rewrite Hl in Hnd |- *. apply place_above_split. intros Hin.
    apply NoDup_app in Hnd as (_ & Hd & _). apply (Hd o Hin). right. by left.
Qed.
Lemma restack_spec x s l' : well_formed (stacked_xids_ (wm s)) →
  x ∈ Stacker.items (stacked_xids_ (wm s)) → x ∈ l' → NoDup l' → 0 ∉ l' →
  filter (fun y => y ≠ x) l' = filter (fun y => y ≠ x) (Stacker.items (stacked_xids_ (wm s))) →
  pwp (restack x (default 0 (under x l'))) (fun _ s' => ∃ st',
    books (wm s') = (st', mapped_xids_ (wm s), flags <$> client_windows_ (wm s)) ∧ well_formed st' ∧ Stacker.items st' = l') s.
Proof.
  intros Hwf Hx Hx' Hnd H0l Hf. set (l := Stacker.items (stacked_xids_ (wm s))) in *.
  assert (∀ o, under x l' = Some o → o ≠ 0) as Hnz.
  { intros o Ho ->. pose proof (put_above x l' Hx' Hnd) as Hp. rewrite Ho in Hp. destruct Hp as [Hin _].
    apply list_elem_of_filter in Hin as [_ Hin]. done. }
  unfold restack. destruct (GetUnder_still x s Hwf) as (s1 & Hrun & Hb1). apply pwp_bind, (pwp_run _ _ _ _ _ Hrun). fold l.
  assert ((if default 0 (under x l') =? 0 then bool_decide (under x l = None)
           else bool_decide (under x l = Some (default 0 (under x l')))) = bool_decide (under x l = under x l')) as ->.
  { destruct (under x l') as [o|] eqn:Eo; [change (default 0 (Some o)) with o|by apply bool_decide_ext].
    specialize (Hnz o eq_refl). apply Z.eqb_neq in Hnz as ->. by apply bool_decide_ext. }
  case_bool_decide as Hsame.
  - apply pwp_ret. exists (stacked_xids_ (wm s)). split; [exact Hb1|]. split; [done|]. apply (same_under x); try done. apply Hwf.
  - injection Hb1 as Hs1 Hm1 Hfl1. apply pwp_bind. intros ? s2 Hr2. change (Stacker.Remove x) with (run_op (ORemove x)) in Hr2.
    apply items_op in Hr2 as (st2 & Hb2 & Hwf2 & Hit2); [|by rewrite Hs1]. rewrite Hs1, Hm1, Hfl1 in *. injection Hb2 as Hs2 Hm2 Hfl2.
    cbn [list_op] in Hit2. fold l in Hit2. rewrite <-Hf in Hit2. apply pwp_gets_bind. cbn [id]. rewrite Hs2, Contains_spec, Hit2 by done.
    pose proof (put_above x l' Hx' Hnd) as Hp. apply pwp_bind. destruct (under x l') as [o|] eqn:Eo; [change (default 0 (Some o)) with o|].
    + destruct Hp as [Hin Hp]. specialize (Hnz o eq_refl). apply Z.eqb_neq in Hnz as ->. cbn [negb andb].
      rewrite bool_decide_eq_true_2 by done. intros ? s3 Hr3. change (Stacker.AddAbove x o) with (run_op (OAbove x o)) in Hr3.
      apply items_op in Hr3 as (st3 & Hb3 & Hwf3 & Hit3); [|by rewrite Hs2]. rewrite Hs2, Hm2, Hfl2 in *. apply pwp_ret. exists st3.
      split; [done|]. split; [done|]. by rewrite Hit3, Hit2.
    + cbn. intros ? s3 Hr3. change (Stacker.AddOnBottom x) with (run_op (OBottom x)) in Hr3.
      apply items_op in Hr3 as (st3 & Hb3 & Hwf3 & Hit3); [|by rewrite Hs2]. rewrite Hs2, Hm2, Hfl2 in *. apply pwp_ret. exists st3.
      split; [done|]. split; [done|]. by rewrite Hit3, Hit2.
Qed.
Lemma still_stack_above_known fuel xid above : still (stack_above_known fuel xid above).
Proof.
  revert above. induction fuel as [|fuel IH]; intros above; cbn [stack_above_known]; [keep|].
  destruct (_ =? 0); [keep|]. apply keeps_bind; [apply _|keep|intros o]. destruct o; [keep|].
  apply keeps_bind; [apply _| |keep]. intros s a s'. unfold on_stacked, zoom. 
  destruct (Stacker.GetUnder above (stacked_xids_ (wm s))) as [[b st]|] eqn:E; [|done]. intros [= <- <-].
  assert (st = stacked_xids_ (wm s)) as ->.
  { unfold Stacker.GetUnder, mget, mbind, M_bind, mret, M_ret, fail in E. repeat (case_match; [|congruence || idtac]); congruence. }
  unfold alike. rewrite mp_wm. done.
Qed.
#[local] Hint Resolve still_stack_above_known : keeps.

(** *** The handlers that change the books *)

Lemma books_mirror s st mp fl sv : books (wm s) = (st, mp, fl) → mirrored st mp fl sv → mirrors s sv.
Proof. unfold books, mirrors. by intros [= -> -> ->]. Qed.
Lemma mirrors_books s s' sv : books (wm s') = books (wm s) → mirrors s sv → mirrors s' sv.
Proof. apply mirrors_alike. Qed.
Lemma same_elements (x : Z) (l l' : list Z) y : x ∈ l' → filter (fun y => y ≠ x) l' = filter (fun y => y ≠ x) l → y ∈ l → y ∈ l'.
Proof.
  intros Hx Hf Hy. destruct (decide (y = x)) as [->|Hne]; [done|].
  assert (y ∈ filter (fun y => y ≠ x) l') as Hin by (rewrite Hf; by apply list_elem_of_filter). by apply list_elem_of_filter in Hin as [_ ?].
Qed.
Lemma HandleConfigureNotify_mirrors x px py w h s l l' v : mirrors s (root_with l v) →
  x ∈ l → x ∈ l' → NoDup l' → filter (fun y => y ≠ x) l' = filter (fun y => y ≠ x) l →
  pwp (HandleConfigureNotify x px py w h (default 0 (under x l'))) (fun _ s' => mirrors s' (root_with l' v)) s.
Proof.
  intros [M1 M2 M3 M4 M5 M6] Hx Hx' Hnd Hf. cbn in M3, M4, M6. unfold HandleConfigureNotify. apply pwp_gets_bind. cbn [id].
  rewrite Contains_spec, M3, bool_decide_eq_true_2 by done. cbn [negb].
  assert (0 ∉ l') as H0l'.
  { intros Hin. apply M6. apply (same_elements x l' l); [done|done|done]. }
  apply pwp_bind. eapply pwp_mono; [apply (restack_spec x s l'); rewrite ?M3; done|].
  intros b s1 (st & Hb & Hwf & Hit).
  assert (mirrors s1 (root_with l' v)) as Hs1.
  { apply (books_mirror s1 _ _ _ _ Hb). split; try done. cbn. intros y z m o Hy. destruct (M4 y z m o Hy) as (? & ? & ?).
    split; [done|]. split; [|done]. by apply (same_elements x l). }
  apply mirrors_keeps; [keep|done].
Qed.

(** A new child on top. *)
Lemma mirrored_add st mp fl x l v st' : mirrored st mp fl (root_with l v) → x ≠ 0 → well_formed st' →
  Stacker.items st' = x :: l → mirrored st' mp fl (root_with (x :: l) v).
Proof.
  intros [M1 M2 M3 M4 M5 M6] Hx Hwf Hit. split; try done; cbn in *.
  - intros y z m o Hy. destruct (M4 y z m o Hy) as (? & ? & ?). split; [done|]. split; [by right|done].
  - intros [?|?]%elem_of_cons; [by subst|done].
Qed.
Lemma add_on_top_mirrors x s l v : mirrors s (root_with l v) → x ≠ 0 → x ∉ l →
  pwp (on_stacked (Stacker.AddOnTop x)) (fun _ s' => mirrors s' (root_with (x :: l) v)) s.
Proof.
  intros Hs Hx Hn ? s' Hrun. change (Stacker.AddOnTop x) with (run_op (OTop x)) in Hrun.
  apply items_op in Hrun as (st' & Hb & Hwf & Hit); [|apply Hs]. apply (books_mirror _ _ _ _ _ Hb).
  pose proof (mi_order _ _ _ _ Hs) as Ho. cbn [children] in Ho. rewrite Ho in Hit. cbn in Hit. rewrite decide_False in Hit by done.
  by apply (mirrored_add _ _ _ _ _ _ _ Hs).
Qed.
Lemma construct_flags xid o b w win w' : Window.construct (W := W) xid o b w = Val (win, w') → flags win = (xid, false, o).
Proof.
  unfold Window.construct. destruct (new_texture_pixmap w) as [a w1].
  destruct (if FLAGS_window_drop_shadows then _ else _) as [sh w2].
  destruct (Window.set_up _) as [[? s']|] eqn:E; [|done]. intros [= ->]. by apply plain_set_up in E.
Qed.
Lemma TrackWindow_mirrors x o s sv : mirrors s sv → x ∈ children sv →
  pwp (TrackWindow consumer indeterminate x o) (fun b s' => mirrors s' sv ∧
    (GetWindow x (wm s) = None → b = true → (flags <$> client_windows_ (wm s')) !! x = Some (x, false, o))) s.
Proof.
  intros Hs Hx. unfold TrackWindow. apply pwp_gets_bind. cbn [id]. apply pwp_mget_bind.
  destruct (IsInternalWindow x || _); [by apply pwp_ret|]. destruct (existsb _ _); [by apply pwp_ret|].
  apply (mirrors_then _ _ _ sv); [apply still_on_world|done|]. intros attr s1 Ha1 Hs1. case_bool_decide; [by apply pwp_ret|].
  apply pwp_bind. destruct (GetWindow x (wm s)) as [w|] eqn:Ew.
  - apply pwp_ret. by apply pwp_ret.
  - assert ((flags <$> client_windows_ (wm s1)) !! x = None) as Hnone.
    { unfold alike, books in Ha1. injection Ha1 as _ _ Hfl. rewrite Hfl, lookup_fmap. unfold GetWindow in Ew. by rewrite Ew. }
    unfold new_window. apply pwp_gets_bind. destruct (Window.construct x o indeterminate (wm_world s1)) as [[win w']|] eqn:Ec; [|apply pwp_fail].
    apply pwp_modify. apply pwp_ret. apply construct_flags in Ec. split.
    2:{ intros _ _. unfold set_window. rewrite mp_wm_world, mp_wm. cbn. by rewrite fmap_insert, Ec, lookup_insert_eq. }
    unfold mirrors, set_window. rewrite mp_wm_world, mp_wm. cbn. rewrite fmap_insert, Ec.
    destruct Hs1 as [M1 M2 M3 M4 M5 M6]. split; try done.
    + intros y z m oo. rewrite lookup_insert_Some. intros [[<- [= <- <- <-]]|[_ Hy]]; [done|by apply (M4 y z m oo)].
    + intros y. rewrite M5. unfold managed_in. rewrite lookup_insert. case_decide as Hy; [subst y; by rewrite Hnone|done].
Qed.
Lemma HandleCreateNotify_mirrors x o s l v : mirrors s (root_with l v) → x ≠ 0 → x ∉ l →
  pwp (HandleCreateNotify consumer indeterminate x_root x o) (fun _ s' => mirrors s' (root_with (x :: l) v)) s.
Proof.
  intros Hs Hx Hn. unfold HandleCreateNotify. apply pwp_gets_bind. destruct (GetWindow x (wm s)) as [w|] eqn:Ew.
  { exfalso. apply Hn. assert ((flags <$> client_windows_ (wm s)) !! x = Some (flags w)) as Hw.
    { rewrite lookup_fmap. unfold GetWindow in Ew. by rewrite Ew. }
    unfold flags in Hw. by destruct (mi_named _ _ _ _ Hs _ _ _ _ Hw) as (_ & ? & _). }
  rewrite Z.eqb_refl. cbn [negb]. apply pwp_gets_bind. cbn [id].
  eapply mirrors_then; [apply keeps_DCHECK, _|exact Hs|]. intros _ s1 _ Hs1. apply pwp_bind.
  eapply pwp_mono; [by apply (add_on_top_mirrors x s1 l v)|]. intros ? s2 Hs2. cbv beta in Hs2.
  eapply mirrors_then; [apply still_on_world|exact Hs2|]. intros attr s3 _ Hs3. destruct attr; [|by apply pwp_ret].
  apply pwp_bind. eapply pwp_mono; [apply (TrackWindow_mirrors x o s3 _ Hs3); by left|]. intros b s4 [Hs4 _]. by apply pwp_ret.
Qed.
(** A window that goes. *)
Lemma mirrored_remove st mp fl l v x st' mp' : mirrored st mp fl (root_with l v) →
  well_formed st' → Stacker.items st' = filter (fun y => y ≠ x) l →
  well_formed mp' → Stacker.items mp' = filter (fun y => y ≠ x) (Stacker.items mp) →
  mirrored st' mp' (delete x fl) (root_with (filter (fun y => y ≠ x) l) v).
Proof.
  intros [M1 M2 M3 M4 M5 M6] Hwf Hit Hwf' Hit'. split; try done; cbn [children viewable] in *.
  - intros y z m o [Hne Hy]%lookup_delete_Some. destruct (M4 y z m o Hy) as (? & ? & ?). split; [done|].
    split; [apply list_elem_of_filter; by split|done].
  - intros y. rewrite Hit', list_elem_of_filter, M5. unfold managed_in. rewrite lookup_delete. case_decide; naive_solver.
  - by intros [_ ?]%list_elem_of_filter.
Qed.
Lemma remove_if_there (x : Z) s : well_formed (stacked_xids_ (wm s)) →
  pwp (if Stacker.Contains (stacked_xids_ (wm s)) x then on_stacked (Stacker.Remove x) else mret ())
    (fun _ s' => ∃ st', books (wm s') = (st', mapped_xids_ (wm s), flags <$> client_windows_ (wm s)) ∧ well_formed st' ∧
       Stacker.items st' = filter (fun y => y ≠ x) (Stacker.items (stacked_xids_ (wm s)))) s.
Proof.
  intros Hwf. rewrite Contains_spec by done. case_bool_decide as Hx.
  - intros ? s' Hrun. change (Stacker.Remove x) with (run_op (ORemove x)) in Hrun. by apply items_op in Hrun.
  - apply pwp_ret. exists (stacked_xids_ (wm s)). split; [done|]. split; [done|]. by rewrite filter_other.
Qed.
Lemma remove_mapped (x : Z) s : well_formed (mapped_xids_ (wm s)) →
  ∀ a s', on_mapped (Stacker.Remove x) s = Val (a, s') →
    ∃ mp', books (wm s') = (stacked_xids_ (wm s), mp', flags <$> client_windows_ (wm s)) ∧ well_formed mp' ∧
       Stacker.items mp' = filter (fun y => y ≠ x) (Stacker.items (mapped_xids_ (wm s))).
Proof. intros Hwf a s' Hrun. change (Stacker.Remove x) with (run_op (ORemove x)) in Hrun. by apply mapped_op in Hrun. Qed.
Lemma flags_of x s : (flags <$> client_windows_ (wm s)) !! x = flags <$> GetWindow x (wm s).
Proof. by rewrite lookup_fmap. Qed.
Lemma erase_books x s st mp fl : books (wm s) = (st, mp, fl) →
  pwp (erase_window x) (fun _ s' => books (wm s') = (st, mp, delete x fl)) s.
Proof.
  intros [= <- <- <-]. unfold erase_window, upd. apply pwp_modify. rewrite mp_wm. unfold books. cbn. by rewrite fmap_delete.
Qed.
Lemma pwp_still {A B} (m : M S A) (k : A → M S B) Q s b : books (wm s) = b → still m →
  (∀ a s1, books (wm s1) = b → pwp (k a) Q s1) → pwp (m ≫= k) Q s.
Proof. intros <- Hm Hk. apply pwp_keeps with alike; [done|]. intros a s1 Hr. by apply Hk. Qed.
Lemma pwp_still_end {A} (m : M S A) s sv st mp fl : books (wm s) = (st, mp, fl) → still m → mirrored st mp fl sv →
  pwp m (fun _ s' => mirrors s' sv) s.
Proof. intros Hb Hm Hs. apply mirrors_keeps; [done|]. by apply (books_mirror s _ _ _ _ Hb). Qed.

Lemma HandleDestroyNotify_mirrors x s l v : mirrors s (root_with l v) → x ∉ v →
  pwp (HandleDestroyNotify x) (fun _ s' => mirrors s' (root_with (filter (fun y => y ≠ x) l) v)) s.
Proof.
  intros Hs Hx. unfold HandleDestroyNotify. apply pwp_gets_bind.
  eapply mirrors_then; [apply keeps_DCHECK, _|exact Hs|]. intros _ s1 _ Hs1. apply pwp_gets_bind. cbn [id].
  pose proof Hs1 as [M1 M2 M3 M4 M5 M6]. cbn in M3. apply pwp_bind. eapply pwp_mono; [by apply remove_if_there|].
  intros ? s2 (st & Hb2 & Hwf & Hit). rewrite M3 in Hit.
  assert (x ∉ Stacker.items (mapped_xids_ (wm s1))) as Hxm.
  { rewrite M5. unfold managed_in. destruct (_ !! x) as [[[z []] o]|] eqn:E; [|done..]. exfalso. by apply Hx, (M4 x z true o E). }
  assert (mirrored st (mapped_xids_ (wm s1)) (delete x (flags <$> client_windows_ (wm s1))) (root_with (filter (fun y => y ≠ x) l) v)) as Hgoal.
  { apply (mirrored_remove _ _ _ _ _ _ _ _ Hs1); try done. by rewrite filter_other. }
  pose proof (flags_of x s1) as Hfl. destruct (GetWindow x (wm s1)) as [win|].
  - eapply pwp_still; [exact Hb2|keep|]. intros _ s3 Hb3. apply pwp_bind. eapply pwp_mono; [by apply (erase_books x s3 _ _ _ Hb3)|].
    intros ? s4 Hb4. cbv beta in Hb4. apply (pwp_still_end _ _ _ _ _ _ Hb4); [|done]. keep.
  - apply pwp_ret. apply (books_mirror _ _ _ _ _ Hb2). by rewrite delete_id in Hgoal.
Qed.

Lemma set_mapped_books x b s a s' : set_mapped x b s = Val (a, s') →
  ∃ z m o, (flags <$> client_windows_ (wm s)) !! x = Some (z, m, o) ∧
    books (wm s') = (stacked_xids_ (wm s), mapped_xids_ (wm s), <[x := (z, b, o)]> (flags <$> client_windows_ (wm s))).
Proof.
  intros (w & w' & u & Hw & Hrun & ->)%on_window_run. injection Hrun as _ <- <-.
  exists (Window.xid_ w), (Window.mapped_ w), (Window.override_redirect_ w). split; [by rewrite flags_of, Hw|].
  unfold set_window. rewrite mp_wm_world, mp_wm. unfold books. cbn. by rewrite fmap_insert.
Qed.
Lemma mirrored_viewable st mp fl l v v' : mirrored st mp fl (root_with l v) →
  (∀ y z o, fl !! y = Some (z, true, o) → y ∈ v → y ∈ v') → mirrored st mp fl (root_with l v').
Proof.
  intros [M1 M2 M3 M4 M5 M6] Hv. split; try done; cbn in *. intros y z m o Hy. destruct (M4 y z m o Hy) as (? & ? & Hm).
  split; [done|]. split; [done|]. intros ->. apply (Hv y z o); [done|by apply Hm].
Qed.
(** The list of mapped windows gets the window, if it is to be there. *)
Lemma mirrored_map st mp fl l v (x z : Z) (o : bool) : mirrored st mp fl (root_with l v) → fl !! x = Some (z, false, o) →
  ∀ mp', well_formed mp' → Stacker.items mp' = (if o then Stacker.items mp else x :: Stacker.items mp) →
  mirrored st mp' (<[x := (z, true, o)]> fl) (root_with l ({[x]} ∪ v)).
Proof.
  intros [M1 M2 M3 M4 M5 M6] Hfl mp' Hwf Hit. destruct (M4 x z false o Hfl) as (-> & Hx & _). split; try done; cbn in *.
  - intros y z m oo. rewrite lookup_insert_Some. intros [[<- [= <- <- <-]]|[Hne Hy]]; [set_solver|].
    destruct (M4 y z m oo Hy) as (? & ? & ?). set_solver.
  - intros y. unfold managed_in. rewrite lookup_insert. specialize (M5 y). unfold managed_in in M5. rewrite Hit.
    case_decide as Hy; [subst y; rewrite Hfl in M5|]; destruct o; cbn; rewrite ?elem_of_cons; naive_solver.
Qed.
Lemma HandleMappedWindow_mirrors (x : Z) (s : S) st mp fl l v (z : Z) (o : bool) : mirrored st mp fl (root_with l v) → fl !! x = Some (z, false, o) →
  books (wm s) = (st, mp, <[x := (z, true, o)]> fl) →
  pwp (HandleMappedWindow consumer x) (fun _ s' => mirrors s' (root_with l ({[x]} ∪ v))) s.
Proof.
  intros Hm Hfl Hb. unfold HandleMappedWindow. pose proof Hb as [= Hst Hmp Hfl']. pose proof (mirrored_map _ _ _ _ _ _ _ _ Hm Hfl) as Hgoal.
  assert (x ∉ Stacker.items mp) as Hx by (rewrite (mi_list _ _ _ _ Hm); unfold managed_in; by rewrite Hfl).
  destruct (mi_named _ _ _ _ Hm _ _ _ _ Hfl) as (-> & _).
  unfold window. apply pwp_bind, pwp_gets_bind. pose proof (flags_of x s) as Hw. rewrite Hfl', lookup_insert_eq in Hw.
  destruct (GetWindow x (wm s)) as [win|]; [|done]. cbn in Hw. unfold flags in Hw. injection Hw as Hw1 Hw2 Hw3.
  apply pwp_ret, pwp_gets_bind. cbn [id]. rewrite <-Hw3, <-Hw1, Hmp, Contains_spec, bool_decide_eq_false_2 by first [apply Hm|done].
  apply pwp_bind. destruct o; cbn [negb andb].
  - apply pwp_ret. apply (pwp_still_end _ _ _ _ _ _ Hb); [keep|]. apply Hgoal; [apply Hm|done].
  - apply pwp_bind. intros ? s1 Hr. change (Stacker.AddOnTop x) with (run_op (OTop x)) in Hr. apply mapped_op in Hr as (mp' & Hb1 & Hwf & Hit);
      [|rewrite Hmp; apply Hm]. rewrite Hmp in Hit. cbn in Hit. rewrite decide_False in Hit by done. rewrite Hst, Hfl' in Hb1.
    eapply pwp_still; [exact Hb1|keep|]. intros _ s2 Hb2. eapply pwp_still; [exact Hb2|keep|]. intros _ s3 Hb3. apply pwp_ret.
    apply (pwp_still_end _ _ _ _ _ _ Hb3); [keep|]. by apply Hgoal.
Qed.
Lemma HandleMapNotify_mirrors x s l v : mirrors s (root_with l v) →
  pwp (HandleMapNotify consumer x) (fun _ s' => mirrors s' (root_with l ({[x]} ∪ v))) s.
Proof.
  intros Hs. assert (mirrors s (root_with l ({[x]} ∪ v))) as Hs' by (apply (mirrored_viewable _ _ _ _ v); [done|set_solver]).
  unfold HandleMapNotify. apply pwp_gets_bind. pose proof (flags_of x s) as Hfl.
  destruct (GetWindow x (wm s)) as [win|]; [|by apply pwp_ret]. destruct (Window.mapped_ win) eqn:Em; [by apply pwp_ret|].
  assert (flags win = (Window.xid_ win, false, Window.override_redirect_ win)) as Hf by (unfold flags; by rewrite Em).
  cbn [fmap option_fmap option_map] in Hfl. rewrite Hf in Hfl. apply pwp_bind. intros ? s1 Hrun%set_mapped_books.
  destruct Hrun as (z & m & o & Hx & Hb). rewrite Hfl in Hx. injection Hx as <- <- <-.
  by apply (HandleMappedWindow_mirrors x s1 _ _ _ l v _ _ Hs Hfl).
Qed.
(** A window that is not mapped any more leaves the list. *)
Lemma mirrored_unmap st mp fl l v x z m o mp' : mirrored st mp fl (root_with l v) → fl !! x = Some (z, m, o) →
  well_formed mp' → Stacker.items mp' = filter (fun y => y ≠ x) (Stacker.items mp) →
  mirrored st mp' (<[x := (z, false, o)]> fl) (root_with l (v ∖ {[x]})).
Proof.
  intros [M1 M2 M3 M4 M5 M6] Hfl Hwf Hit. destruct (M4 x z m o Hfl) as (-> & Hx & _). split; try done; cbn in *.
  - intros y z m' oo. rewrite lookup_insert_Some. intros [[<- [= <- <- <-]]|[Hne Hy]]; [done|].
    destruct (M4 y z m' oo Hy) as (? & ? & ?). set_solver.
  - intros y. rewrite Hit, list_elem_of_filter, M5. unfold managed_in. rewrite lookup_insert. case_decide as Hy; [|naive_solver].
    cbn. naive_solver.
Qed.
Lemma HandleUnmapNotify_mirrors x s l v : mirrors s (root_with l v) →
  pwp (HandleUnmapNotify consumer x) (fun _ s' => mirrors s' (root_with l (v ∖ {[x]}))) s.
Proof.
  intros Hs. unfold HandleUnmapNotify. apply pwp_gets_bind. pose proof (flags_of x s) as Hfl.
  destruct (GetWindow x (wm s)) as [win|].
  2:{ apply pwp_ret. apply (mirrored_viewable _ _ _ _ v); [done|]. intros y z o Hy. set_unfold. intros ?. split; [done|congruence]. }
  change (flags <$> Some win) with (Some (flags win)) in Hfl. destruct (mi_named _ _ _ _ Hs x _ _ _ Hfl) as (Hxid & _).
  eapply pwp_still; [reflexivity|apply still_on_world|]. intros _ s1 Hb1. pose proof Hb1 as [= E1 E2 E3].
  apply pwp_bind. intros ? s2 (z & m & o & Hx & Hb2)%set_mapped_books. rewrite E1, E2, E3 in *. rewrite Hfl in Hx. injection Hx as <- <- <-.
  eapply pwp_still; [exact Hb2|keep|]. intros _ s3 Hb3.
  eapply pwp_still; [exact Hb3|apply still_unmap_for_all|]. intros _ s4 Hb4. apply pwp_gets_bind. cbn [id].
  pose proof Hb4 as [= F1 F2 F3]. set (fl := <[x := _]> _) in *.
  assert (∀ mp', well_formed mp' → Stacker.items mp' = filter (fun y => y ≠ x) (Stacker.items (mapped_xids_ (wm s))) →
    mirrored (stacked_xids_ (wm s)) mp' fl (root_with l (v ∖ {[x]}))) as Hgoal.
  { intros mp'. by apply (mirrored_unmap _ _ _ _ _ _ _ _ _ _ Hs Hfl). }
  rewrite F2, Hxid. apply pwp_bind. rewrite Contains_spec by apply Hs. case_bool_decide as Hx.
  - apply pwp_bind. intros ? s5 Hr. apply remove_mapped in Hr as (mp' & Hb5 & Hwf & Hit); [|rewrite F2; apply Hs].
    rewrite F1, F3 in Hb5. rewrite F2 in Hit. eapply pwp_still; [exact Hb5|keep|]. intros _ s6 Hb6.
    eapply pwp_still; [exact Hb6|keep|]. intros _ s7 Hb7. apply pwp_ret.
    apply (pwp_still_end _ _ _ _ _ _ Hb7); [keep|by apply Hgoal].
  - apply pwp_ret. apply (pwp_still_end _ _ _ _ _ _ Hb4); [keep|]. apply Hgoal; [apply Hs|by rewrite filter_other].
Qed.
Lemma HandleReparentNotify_away x p s l v : mirrors s (root_with l v) → p ≠ x_root →
  pwp (HandleReparentNotify consumer x p) (fun _ s' => mirrors s' (root_with (filter (fun y => y ≠ x) l) v)) s.
Proof.
  intros Hs Hp. unfold HandleReparentNotify. apply pwp_gets_bind. cbn [id]. apply Z.eqb_neq in Hp as ->.
  pose proof Hs as [M1 M2 M3 M4 M5 M6]. cbn in M3. rewrite Contains_spec, M3 by done. case_bool_decide as Hx; cbn [negb].
  2:{ apply pwp_ret. by rewrite filter_other. }
  apply pwp_bind. intros ? s1 Hr. change (Stacker.Remove x) with (run_op (ORemove x)) in Hr.
  apply items_op in Hr as (st & Hb1 & Hwf & Hit); [|done]. rewrite M3 in Hit. cbn [list_op] in Hit. pose proof Hb1 as [= E1 E2 E3].
  apply pwp_bind. eapply (pwp_mono _ (fun _ s2 => ∃ mp', books (wm s2) = (st, mp', flags <$> client_windows_ (wm s)) ∧ well_formed mp' ∧
    Stacker.items mp' = filter (fun y => y ≠ x) (Stacker.items (mapped_xids_ (wm s))))).
  { rewrite Contains_spec by done. case_bool_decide as Hxm.
    - apply pwp_bind. intros ? s2 Hr. apply remove_mapped in Hr as (mp' & Hb2 & Hwf' & Hit'); [|by rewrite E2].
      rewrite E1, E3 in Hb2. rewrite E2 in Hit'. eapply pwp_still; [exact Hb2|keep|]. intros _ s3 Hb3. apply pwp_ret. by exists mp'.
    - apply pwp_ret. exists (mapped_xids_ (wm s)). split; [done|]. split; [done|]. by rewrite filter_other. }
  intros ? s2 (mp' & Hb2 & Hwf' & Hit').
  assert (mirrored st mp' (delete x (flags <$> client_windows_ (wm s))) (root_with (filter (fun y => y ≠ x) l) v)) as Hgoal.
  { by apply (mirrored_remove _ _ _ _ _ _ _ _ Hs). }
  pose proof (flags_of x s) as Hfl. destruct (GetWindow x (wm s)) as [win|].
  - eapply pwp_still; [exact Hb2|keep|]. intros _ s3 Hb3. eapply pwp_still; [exact Hb3| |].
    { destruct (Window.mapped_ win); [apply still_unmap_for_all|keep]. }
    intros _ s4 Hb4. apply pwp_bind. eapply pwp_mono; [by apply (erase_books x s4 _ _ _ Hb4)|].
    intros ? s5 Hb5. cbv beta in Hb5. apply (pwp_still_end _ _ _ _ _ _ Hb5); [keep|done].
  - apply pwp_ret. apply (books_mirror _ _ _ _ _ Hb2). by rewrite delete_id in Hgoal.
Qed.

Abbreviation HandleEvent := (HandleEvent consumer layout_manager_MoveAndResize panel_manager_HandleScreenResize run_closure indeterminate).
Lemma unrelated_still fuel e : unrelated e → still (HandleEvent fuel e).
Proof.
  intros He. destruct e; try done; cbn [Manager.HandleEvent].
  - unfold HandleButtonPress, for_window. keep.
  - unfold HandleButtonRelease, for_window. keep.
  - apply still_HandleClientMessage.
  - apply still_HandleConfigureRequest.
  - unfold HandleEnterNotify, for_window. keep.
  - apply still_HandleFocusChange.
  - apply still_HandleKeyPress.
  - apply still_HandleKeyRelease.
  - unfold HandleLeaveNotify, for_window. keep.
  - apply still_HandleMapRequest.
  - apply still_HandleMappingNotify.
  - unfold HandleMotionNotify, for_window. keep.
  - apply still_HandlePropertyNotify.
  - apply still_HandleDamageNotify.
  - apply still_HandleShapeNotify.
  - apply still_HandleRRScreenChangeNotify.
  - keep.
Qed.
Lemma HandleEvent_mirrors fuel e s sv sv' : mirrors s sv → follows sv e sv' →
  pwp (HandleEvent fuel e) (fun _ s' => mirrors s' sv') s.
Proof.
  intros Hs Hf. destruct Hf; cbn [Manager.HandleEvent].
  - by apply HandleCreateNotify_mirrors.
  - unfold HandleCreateNotify. apply pwp_gets_bind. case_match; [by apply pwp_ret|].
    match goal with Hp : _ ≠ x_root |- _ => apply Z.eqb_neq in Hp as -> end. by apply pwp_ret.
  - by apply HandleDestroyNotify_mirrors.
  - by eapply HandleConfigureNotify_mirrors.
  - unfold HandleConfigureNotify. apply pwp_gets_bind. cbn [id]. pose proof Hs as [M1 M2 M3 M4 M5 M6]. cbn in M3.
    rewrite Contains_spec, M3, bool_decide_eq_false_2 by done. by apply pwp_ret.
  - by apply HandleMapNotify_mirrors.
  - by apply HandleUnmapNotify_mirrors.
  - unfold HandleReparentNotify. apply pwp_gets_bind. cbn [id]. rewrite Z.eqb_refl.
    eapply mirrors_then; [apply keeps_DCHECK, _|exact Hs|]. intros _ s1 _ Hs1. by apply add_on_top_mirrors.
  - by apply HandleReparentNotify_away.
  - apply mirrors_keeps; [by apply unrelated_still|done].
Qed.

(** A course of events. *)
Inductive history : Server → list XEvent → Server → Prop :=
| h_nil sv : history sv [] sv
| h_cons sv e sv1 es sv' : follows sv e sv1 → history sv1 es sv' → history sv (e :: es) sv'.
Lemma mirrored_list st mp fl sv x : mirrored st mp fl sv → x ∈ Stacker.items mp → x ∈ children sv ∧ x ∈ viewable sv.
Proof.
  intros [M1 M2 M3 M4 M5 M6] Hx%M5. unfold managed_in in Hx. destruct (fl !! x) as [[[z m] o]|] eqn:E; [|done].
  destruct (M4 x z m o E) as (_ & ? & Hm). split; [done|]. apply Hm. by destruct m.
Qed.
Lemma history_mirrors fuel es s sv sv' : mirrors s sv → history sv es sv' →
  pwp (for_each (HandleEvent fuel) es) (fun _ s' => mirrors s' sv') s.
Proof.
  intros Hs Hh. revert s Hs. induction Hh as [sv|sv e sv1 es sv' He _ IH]; intros s Hs; cbn [for_each]; [by apply pwp_ret|].
  apply pwp_bind. eapply pwp_mono; [by apply (HandleEvent_mirrors fuel e s sv sv1)|]. intros ? s1. apply IH.
Qed.

(** *** The windows that are there when the window manager starts *)

Definition blank (s : S) : Prop :=
  stacked_xids_ (wm s) = Stacker.new ∧ mapped_xids_ (wm s) = Stacker.new ∧ client_windows_ (wm s) = ∅.
Lemma blank_mirrors s v : blank s → mirrors s (root_with [] v).
Proof.
  intros (E1 & E2 & E3). unfold mirrors. rewrite E1, E2, E3, fmap_empty.
  split; try done; try apply well_formed_new; [|apply not_elem_of_nil].
  intros y. unfold managed_in. rewrite lookup_empty. split; [by intros ?%not_elem_of_nil|done].
Qed.
(** While it takes them over, the server says of each of its children that it is there,
    and only of viewable ones that they are mapped. *)
Record answers (windows : list Z) (v : gset Z) : Prop := {
  an_there x w : x ∈ windows → is_Some (x_GetWindowAttributes x w).1;
  an_mapped x w n : x ∈ windows → (x_map_state x w).1 = Some n → n ≠ Window.MAP_STATE_UNMAPPED → x ∈ v
}.
Lemma FetchMapState_flag s (x : Z) o (v : gset Z) : (flags <$> client_windows_ (wm s)) !! x = Some (x, false, o) →
  (∀ w n, (x_map_state x w).1 = Some n → n ≠ Window.MAP_STATE_UNMAPPED → x ∈ v) →
  pwp (on_window x Window.FetchMapState) (fun b _ => b = true → x ∈ v) s.
Proof.
  rewrite flags_of. intros Hfl Hv b s' (w & w' & u & Hw & Hrun & ->)%on_window_run. rewrite Hw in Hfl. cbn in Hfl.
  assert (Window.xid_ w = x) as Hxid by (unfold flags in Hfl; congruence). revert Hrun.
  unfold Window.FetchMapState, Window.get, gets, Window.on_w, extern, zoom, mbind, M_bind, mret, M_ret. cbn. rewrite Hxid.
  destruct (x_map_state x (wm_world s)) as [n w2] eqn:En. cbn. intros [= <- <- <-]. pose proof (Hv (wm_world s)) as Hvs.
  rewrite En in Hvs. destruct n as [n|]; [|done]. intros Hb. apply (Hvs n); [done|]. by apply negb_true_iff, Z.eqb_neq in Hb.
Qed.
Lemma unknown_window x s l v : mirrors s (root_with l v) → x ∉ l → (flags <$> client_windows_ (wm s)) !! x = None.
Proof.
  intros Hs Hn. destruct (_ !! x) as [[[z m] o]|] eqn:E; [|done]. by destruct (mi_named _ _ _ _ Hs _ _ _ _ E) as (_ & ? & _).
Qed.
Lemma manage_existing_mirrors x s l v : mirrors s (root_with l v) → x ≠ 0 → x ∉ l →
  (∀ w, is_Some (x_GetWindowAttributes x w).1) → (∀ w n, (x_map_state x w).1 = Some n → n ≠ Window.MAP_STATE_UNMAPPED → x ∈ v) →
  pwp (manage_existing consumer indeterminate x) (fun _ s' => mirrors s' (root_with (x :: l) v)) s.
Proof.
  intros Hs Hx Hn Hthere Hv. unfold manage_existing. apply pwp_bind. intros attr s1 Hr1.
  assert (is_Some attr) as [[o cls] ->].
  { revert Hr1. unfold on_world, extern, zoom. pose proof (Hthere (wm_world s)) as Ht.
    destruct (x_GetWindowAttributes x (wm_world s)) as [a w]. intros [= <- _]. exact Ht. }
  assert (mirrors s1 (root_with l v)) as Hs1 by by eapply mirrors_alike; [apply (still_on_world _ _ _ _ Hr1)|].
  apply pwp_bind. intros [] s2 Hr2. pose proof (add_on_top_mirrors x s1 l v Hs1 Hx Hn () s2 Hr2) as Hs2. cbv beta in Hs2.
  assert (GetWindow x (wm s2) = None) as Hnone.
  { change (Stacker.AddOnTop x) with (run_op (OTop x)) in Hr2. apply items_op in Hr2 as (st & [= _ _ E3] & _); [|apply Hs1].
    pose proof (flags_of x s2) as Hf. rewrite E3, (unknown_window x s1 l v Hs1 Hn) in Hf. by destruct (GetWindow x (wm s2)). }
  apply pwp_bind. eapply pwp_mono; [apply (TrackWindow_mirrors x o s2 _ Hs2); by left|]. intros b s3 [Hs3 Hf3].
  destruct b; [|by apply pwp_ret]. specialize (Hf3 Hnone eq_refl). apply pwp_bind. intros m s4 Hr4.
  pose proof (FetchMapState_flag s3 x o v Hf3 Hv m s4 Hr4) as Hm. cbv beta in Hm.
  assert (alike s3 s4) as Ha by (by apply (still_on_window x Window.FetchMapState plain_FetchMapState _ _ _ Hr4)).
  pose proof (mirrors_alike _ _ _ Ha Hs3) as Hs4. destruct m; [|by apply pwp_ret].
  unfold alike, books in Ha. injection Ha as E1 E2 E3. rewrite <-E3 in Hf3. apply pwp_bind. intros ? s5 Hrun%set_mapped_books.
  destruct Hrun as (z & mm & oo & Hfx & Hb). rewrite Hf3 in Hfx. injection Hfx as <- <- <-.
  eapply pwp_mono; [by apply (HandleMappedWindow_mirrors x s5 _ _ _ (x :: l) v _ _ Hs4 Hf3)|]. intros ? s6 Hs6. cbv beta in Hs6.
  replace v with ({[x]} ∪ v) by (specialize (Hm eq_refl); set_solver). done.
Qed.
Lemma manage_all_mirrors windows l s v : mirrors s (root_with l v) → 0 ∉ windows → NoDup (windows ++ l) → answers windows v →
  pwp (for_each (manage_existing consumer indeterminate) windows) (fun _ s' => mirrors s' (root_with (reverse windows ++ l) v)) s.
Proof.
  revert l s. induction windows as [|x ws IH]; intros l s Hs Hzero Hnd [A1 A2]; cbn [for_each]; [by apply pwp_ret|].
  apply not_elem_of_cons in Hzero as [Hx Hzero]. cbn [app] in Hnd. apply NoDup_cons in Hnd as [Hnx Hnd].
  apply not_elem_of_app in Hnx as [Hnw Hnl].
  apply pwp_bind. eapply pwp_mono; [apply (manage_existing_mirrors x s l v); try done|].
  - intros w. apply A1. by left.
  - intros w n. apply A2. by left.
  - intros ? s1 Hs1. cbv beta in Hs1. rewrite reverse_cons, <-app_assoc. cbn [app]. apply IH; [done|done| |].
    + rewrite <-Permutation_middle. apply NoDup_cons. split; [|done]. by intros [?|?]%elem_of_app.
    + split; [intros y w Hy; apply A1; by right|intros y w n Hy; apply A2; by right].
Qed.
Lemma ManageExistingWindows_mirrors windows s v : blank s → (x_GetChildWindows x_root (wm_world s)).1 = Some windows →
  0 ∉ windows → NoDup windows → answers windows v →
  pwp (ManageExistingWindows consumer indeterminate) (fun b s' => b = true ∧ mirrors s' (root_with (reverse windows) v)) s.
Proof.
  intros Hs Hq Hzero Hnd Ha. unfold ManageExistingWindows. apply pwp_bind. intros ws s1 Hr1.
  assert (ws = Some windows) as ->.
  { revert Hr1 Hq. unfold on_world, extern, zoom. destruct (x_GetChildWindows x_root (wm_world s)) as [a w]. by intros [= -> _]. }
  assert (mirrors s1 (root_with [] v)) as Hs1.
  { eapply mirrors_alike; [apply (still_on_world _ _ _ _ Hr1)|by apply blank_mirrors]. }
  apply pwp_bind. eapply pwp_mono; [apply (manage_all_mirrors windows [] s1 v); try done; by rewrite app_nil_r|].
  intros ? s2 Hs2. cbv beta in Hs2. rewrite app_nil_r in Hs2. eapply mirrors_then; [apply still_UpdateClientListStackingProperty|exact Hs2|].
  intros ? s3 _ Hs3. by apply pwp_ret.
Qed.

(** *** What no consumer hears of is handled to its end *)

Context `{!WmFrame W} `{!WmRequestLaws W}.
(** The window is there to be told. *)
Definition ready (xid : Z) (s : S) : Prop :=
  wm_ok (wm_world s) ∧ is_Some (GetWindow xid (wm s)) ∧
  well_formed (stacked_xids_ (wm s)) ∧ well_formed (mapped_xids_ (wm s)).
Lemma ready_alike xid s s' : ready xid s → alike s s' → wm_ok (wm_world s') → ready xid s'.
Proof.
  intros (_ & Hx & Hwf & Hwf') Ha Hw. unfold alike, books in Ha. injection Ha as E1 E2 E3. split; [done|].
  split; [|by rewrite E1, E2].
  pose proof (flags_of xid s') as Hf. rewrite E3, flags_of in Hf. destruct Hx as [w Hx]. rewrite Hx in Hf.
  destruct (GetWindow xid (wm s')); [by eexists|done].
Qed.
Abbreviation calm xid := (framed (ready xid) alike).
Lemma ready_on_world {A} xid (m : M W A) : quiet m → calm xid (on_world m).
Proof.
  intros Hm s Hs. apply wp_zoom. eapply wp_mono; [apply Hm, Hs|]. intros a w [Hw _].
  assert (alike s (set_wm_world w s)) as Ha by (unfold alike; by rewrite mp_wm_world).
  split; [|done]. apply (ready_alike xid s); [done|done|]. by rewrite mp_world_world.
Qed.
Lemma ready_on_window {A} xid (m : M (Window.t * W) A) : renaming m → plain m → calm xid (on_window xid m).
Proof.
  intros Hm Hp s Hs. pose proof Hs as (Hw & [w Hx] & Hwf).
  assert (wp (on_window xid m) (fun _ s' => wm_ok (wm_world s')) s) as Hwp.
  { unfold on_window, window, get. apply wp_bind, wp_gets_bind. rewrite Hx. apply wp_ret, wp_zoom. rewrite Hx.
    eapply wp_mono; [by apply (Hm (w, wm_world s))|]. intros a [w' u] [Hok _]. by rewrite mp_world_world. }
  apply wp_run in Hwp as (a & s' & Hrun & Hok). apply wp_run. exists a, s'. split; [done|].
  assert (alike s s') as Ha by by apply (still_on_window xid m Hp s a s' Hrun). split; [|done]. by apply (ready_alike xid s).
Qed.
Lemma calm_set_or_delete xid a l : calm xid (set_or_delete a l).
Proof.
  unfold set_or_delete. case_bool_decide; [apply ready_on_world, quiet_x_do|apply ready_on_world, quiet_set_property].
Qed.
Lemma calm_UpdateClientListStacking xid : calm xid UpdateClientListStackingProperty.
Proof. unfold UpdateClientListStackingProperty. apply framed_bind; [apply _|apply framed_gets, _|intros r; apply calm_set_or_delete]. Qed.
Lemma GetUnder_wp {A} xid above (k : option Z → M S A) Q s : ready xid s →
  (∀ s1, ready xid s1 → alike s s1 → wp (k (under above (Stacker.items (stacked_xids_ (wm s))))) Q s1) →
  wp (on_stacked (Stacker.GetUnder above) ≫= k) Q s.
Proof.
  intros Hs Hk. pose proof Hs as (Hw & Hx & Hwf & _). destruct (GetUnder_still above s Hwf) as (s1 & Hrun & Hb).
  apply wp_bind, wp_run. exists (under above (Stacker.items (stacked_xids_ (wm s)))), s1. split; [done|].
  assert (wm_ok (wm_world s1)) as Hw1.
  { revert Hrun. unfold on_stacked, zoom. rewrite GetUnder_run by done. intros [= <-]. by rewrite mp_world. }
  apply Hk; [|done]. by apply (ready_alike xid s).
Qed.
(** The walk down the stack ends: so many steps from [above] are enough. *)
Definition enough (fuel : nat) (above : Z) (l : list Z) : Prop :=
  above = 0 ∧ (1 ≤ fuel)%nat ∨ above ∉ l ∧ (2 ≤ fuel)%nat ∨
  ∃ l1 l2, l = l1 ++ above :: l2 ∧ (length l2 + 2 ≤ fuel)%nat.
Lemma enough_next fuel above l : NoDup l → enough (Datatypes.S fuel) above l → above ≠ 0 → enough fuel (default 0 (under above l)) l.
Proof.
  intros Hnd [[? _]|[[Hn Hf]|(l1 & l2 & Hl & Hf)]] Hz; [done| |].
  - rewrite under_missing by done. left. split; [done|lia].
  - assert (above ∉ l1) as Hx1.
    { rewrite Hl in Hnd. apply NoDup_app in Hnd as (_ & Hd & _). intros Hin. apply (Hd above Hin). by left. }
    rewrite Hl, under_split, <-Hl by done. destruct l2 as [|y l2]; [left; split; [done|cbn in Hf; lia]|].
    right. right. exists (l1 ++ [above]), l2. cbn in *. split; [by rewrite <-app_assoc|lia].
Qed.
Lemma stack_above_known_wp xid fuel above s : ready xid s → enough fuel above (Stacker.items (stacked_xids_ (wm s))) →
  wp (stack_above_known fuel xid above) (fun _ s' => ready xid s' ∧ alike s s') s.
Proof.
  revert above s. induction fuel as [|fuel IH]; intros above s Hs He.
  { exfalso. destruct He as [[_ ?]|[[_ ?]|(? & ? & _ & ?)]]; lia. }
  cbn [stack_above_known]. destruct (Z.eqb_spec above 0) as [|Hz]; [apply wp_ret; split; [done|reflexivity]|]. apply wp_gets_bind.
  destruct (GetWindow above (wm s)) as [w|].
  { apply ready_on_window; [|keep|done]. apply steady_renaming, steady_StackCompositedAbove. }
  apply (GetUnder_wp xid); [done|]. intros s1 Hs1 Ha1. pose proof Ha1 as Hb1. unfold alike, books in Hb1. injection Hb1 as E1 _ _.
  eapply wp_mono; [apply (IH _ s1 Hs1)|intros ? s2 [? ?]; split; [done|by etransitivity]].
  rewrite E1. apply enough_next; [apply wf_items, Hs|done|done].
Qed.
Lemma enough_all above l : enough (length l + 2) above l.
Proof.
  destruct (decide (above ∈ l)) as [Hin|Hin]; [|right; left; split; [done|lia]]. right. right.
  apply list_elem_of_split in Hin as (l1 & l2 & ->). exists l1, l2. split; [done|]. rewrite length_app. cbn. lia.
Qed.
Definition fine (s : S) : Prop := wm_ok (wm_world s).
Lemma fine_on_world {A} (m : M W A) : quiet m → framed fine alike (on_world m).
Proof.
  intros Hm s Hs. apply wp_zoom. eapply wp_mono; [by apply Hm|]. intros a w [Hw _].
  split; [unfold fine; by rewrite mp_world_world|unfold alike; by rewrite mp_wm_world].
Qed.
Lemma fine_set_or_delete a l : framed fine alike (set_or_delete a l).
Proof.
  unfold set_or_delete. case_bool_decide; [apply fine_on_world, quiet_x_do|apply fine_on_world, quiet_set_property].
Qed.
Lemma fine_UpdateClientList : framed fine alike UpdateClientListProperty.
Proof. unfold UpdateClientListProperty. apply framed_bind; [apply _|apply framed_gets, _|intros r; apply fine_set_or_delete]. Qed.
Lemma fine_UpdateClientListStacking : framed fine alike UpdateClientListStackingProperty.
Proof. unfold UpdateClientListStackingProperty. apply framed_bind; [apply _|apply framed_gets, _|intros r; apply fine_set_or_delete]. Qed.
Lemma fine_DCHECK b : b = true → framed fine alike (DCHECK b).
Proof. intros ->. unfold DCHECK. destruct dchecks; apply framed_ret, _. Qed.
Lemma fine_clutter (b : bool) f : (∀ w, wm_ok w → wm_moves wm_ok wm_used w (f w)) →
  framed fine alike (if b then on_world (extern (fun w => ((), f w))) else mret ()).
Proof. intros Hf. destruct b; [|apply framed_ret, _]. apply fine_on_world, quiet_extern. exact Hf. Qed.
(** Only the list has changed. *)
Definition relisted (s s' : S) : Prop :=
  fine s' ∧ well_formed (stacked_xids_ (wm s')) ∧ mapped_xids_ (wm s') = mapped_xids_ (wm s) ∧
  flags <$> client_windows_ (wm s') = flags <$> client_windows_ (wm s).
Lemma items_op_wp o s : fine s → well_formed (stacked_xids_ (wm s)) → wp (on_stacked (run_op o)) (fun _ s' => relisted s s') s.
Proof.
  intros Hs Hwf. destruct (stacker_op_refines o _ Hwf) as (st' & Hrun & Hwf' & _). unfold on_stacked. apply wp_zoom.
  apply wp_run. exists (), st'. split; [done|]. unfold relisted, fine. rewrite mp_wm, mp_world. by split_and!.
Qed.
Lemma relisted_trans s1 s2 s3 : relisted s1 s2 → relisted s2 s3 → relisted s1 s3.
Proof. intros (? & ? & ? & ?) (? & ? & ? & ?). split_and!; try done; congruence. Qed.
Lemma restack_wp x above s : fine s → well_formed (stacked_xids_ (wm s)) → wp (restack x above) (fun _ s' => relisted s s') s.
Proof.
  intros Hs Hwf. unfold restack. destruct (GetUnder_still above s Hwf) as (_ & _).
  eapply (wp_cut _ _ (fun _ s1 => relisted s s1)).
  { unfold on_stacked. apply wp_zoom, wp_run. eexists _, _. split; [by apply GetUnder_run|].
    unfold relisted, fine. rewrite mp_wm, mp_world. by split_and!. }
  intros prev s1 Hs1. destruct (if above =? 0 then _ else _); [by apply wp_ret|]. pose proof Hs1 as (Hf1 & Hwf1 & _).
  eapply wp_cut; [by apply (items_op_wp (ORemove x))|]. intros ? s2 Hs2. cbv beta in Hs2. pose proof Hs2 as (Hf2 & Hwf2 & _).
  apply wp_gets_bind. cbn [id]. eapply (wp_cut _ _ (fun _ s3 => relisted s2 s3)).
  { destruct (_ && _); [by apply (items_op_wp (OAbove x above))|by apply (items_op_wp (OBottom x))]. }
  intros ? s3 Hs3. apply wp_ret. eapply relisted_trans; [exact Hs1|]. by eapply relisted_trans.
Qed.
Lemma renaming_SaveSize wd ht : renaming (Window.SaveClientAndCompositedSize (W := W) wd ht).
Proof.
  unfold Window.SaveClientAndCompositedSize. apply framed_bind; [apply _| |intros _; apply steady_renaming; frame].
  apply framed_modify. intros [r u] Hu. split; [done|]. split; [by destruct r|reflexivity].
Qed.
Lemma HandleConfigureNotify_wp x px py w h above s sv : fine s → mirrors s sv →
  wp (HandleConfigureNotify x px py w h above) (fun _ s' => fine s') s.
Proof.
  intros Hs Hm. unfold HandleConfigureNotify. apply wp_gets_bind. cbn [id]. destruct (negb _); [by apply wp_ret|].
  eapply wp_cut; [apply restack_wp; [done|apply Hm]|]. intros b s1 (Hf1 & Hwf1 & Hmp1 & _). apply wp_gets_bind.
  destruct (GetWindow x (wm s1)) as [win|] eqn:Ew; [|by apply wp_ret].
  assert (ready x s1) as Hr.
  { split; [done|]. split; [by rewrite Ew; eexists|]. split; [done|]. rewrite Hmp1. apply Hm. }
  eapply (wp_cut _ _ (fun _ s2 => ready x s2)).
  - destruct (Window.override_redirect_ win).
    + eapply wp_cut; [apply ready_on_window; [apply renaming_MoveComposited|keep|done]|]. intros _ s2 [Hs2 _].
      eapply wp_cut; [apply ready_on_window; [apply steady_renaming, steady_SaveClientPosition|keep|done]|]. intros _ s3 [Hs3 _].
      eapply wp_cut; [apply ready_on_window; [apply renaming_SaveSize|keep|done]|]. intros _ s4 [Hs4 _].
      apply wp_gets_bind. cbn [id]. eapply wp_mono; [apply stack_above_known_wp; [done|apply enough_all]|]. by intros ? s5 [? _].
    + assert (calm x (if (b : bool) then UpdateClientListStackingProperty;; mret () else mret ())) as Hc.
      { destruct b; [|apply framed_ret, _]. apply framed_bind; [apply _|apply calm_UpdateClientListStacking|intros _; apply framed_ret, _]. }
      eapply wp_mono; [by apply Hc|]. by intros ? s2 [? _].
  - intros _ s2 Hs2. apply wp_gets_bind. cbn [id]. eapply wp_mono; [apply (fine_clutter _ (clutter_HandleWindowConfigured x)); [intros u; apply wr_configured|apply Hs2]|].
    by intros ? s3 [? _].
Qed.

(** *** The other events about windows are handled to their end *)

(** What the consumers do for a window that is mapped or unmapped ends, and leaves the connection working. *)
Hypothesis map_ends : ∀ c xid, framed fine alike (EventConsumer.HandleWindowMap (consumer c) xid).
Hypothesis unmap_ends : ∀ c xid, framed fine alike (EventConsumer.HandleWindowUnmap (consumer c) xid).
Definition any (_ _ : S) : Prop := True.
#[local] Instance any_preorder : PreOrder any.
Proof. by split. Qed.
Abbreviation along xid := (framed (ready xid) any).
Lemma along_calm {A} xid (m : M S A) : calm xid m → along xid m.
Proof. intros Hm. by eapply framed_weaken. Qed.
Lemma along_fine {A} xid (m : M S A) : framed fine alike m → along xid m.
Proof.
  intros Hm s Hs. eapply wp_mono; [apply Hm, Hs|]. intros a s' [Hf Ha]. split; [|done]. by apply (ready_alike xid s).
Qed.
Lemma along_on_window {A} xid (m : M (Window.t * W) A) : renaming m → along xid (on_window xid m).
Proof.
  intros Hm s (Hw & [w Hx] & Hwf & Hwf'). unfold on_window, window, get. apply wp_bind, wp_gets_bind. rewrite Hx.
  apply wp_ret, wp_zoom. rewrite Hx. eapply wp_mono; [by apply (Hm (w, wm_world s))|]. intros a [w' u] [Hok _].
  split; [|done]. unfold ready, set_window. rewrite mp_world_world, mp_wm_world, mp_wm. split; [done|]. split; [|done].
  unfold GetWindow. cbn. rewrite lookup_insert_eq. by eexists.
Qed.
Lemma along_window xid : along xid (window xid).
Proof.
  intros s Hs. pose proof Hs as (_ & [w Hx] & _). unfold window, get. apply wp_gets_bind. rewrite Hx. by apply wp_ret.
Qed.
Lemma along_set_mapped xid b : along xid (set_mapped xid b).
Proof.
  apply along_on_window. apply framed_modify. intros [r u] Hu. split; [done|]. split; [by destruct r|reflexivity].
Qed.
Lemma along_stacked xid o : along xid (on_stacked (run_op o)).
Proof.
  intros s (Hw & Hx & Hwf & Hwf'). destruct (stacker_op_refines o _ Hwf) as (st & Hrun & Hst & _). apply wp_zoom, wp_run.
  exists (), st. split; [done|]. split; [|done]. unfold ready. by rewrite mp_world, mp_wm.
Qed.
Lemma along_mapped xid o : along xid (on_mapped (run_op o)).
Proof.
  intros s (Hw & Hx & Hwf & Hwf'). destruct (stacker_op_refines o _ Hwf') as (st & Hrun & Hst & _). apply wp_zoom, wp_run.
  exists (), st. split; [done|]. split; [|done]. unfold ready. by rewrite mp_world, mp_wm.
Qed.
Lemma along_on_world {A} xid (m : M W A) : quiet m → along xid (on_world m).
Proof. intros Hm. by apply along_calm, ready_on_world. Qed.
Lemma along_UpdateClientList xid : along xid UpdateClientListProperty.
Proof. apply along_fine, fine_UpdateClientList. Qed.
Lemma along_UpdateClientListStacking xid : along xid UpdateClientListStackingProperty.
Proof. apply along_fine, fine_UpdateClientListStacking. Qed.
Lemma along_unmap_for_all xid y : along xid (unmap_for_all consumer y).
Proof.
  unfold unmap_for_all. apply framed_bind; [apply _|apply framed_gets, _|intros r].
  apply framed_for_each; [apply _|]. intros c. apply along_fine, unmap_ends.
Qed.
Lemma along_Redirect xid : along xid (on_window xid Window.Redirect).
Proof.
  apply along_on_window, steady_renaming. unfold Window.Redirect. apply framed_bind; [apply _|apply framed_gets, _|intros y].
  apply framed_bind; [apply _|frame|intros _]. apply steady_upd. by intros [].
Qed.
Lemma along_SetWmState xid y st : along xid (on_world (SetWmStateProperty y st)).
Proof. apply along_on_world, quiet_set_property. Qed.
Ltac walk :=
  repeat first
    [ solve [eauto 2 using along_window, along_set_mapped, along_UpdateClientList, along_UpdateClientListStacking,
        along_unmap_for_all, along_Redirect, along_SetWmState, along_fine, framed_ret with typeclass_instances]
    | match goal with |- ∀ _, framed _ _ _ => intro end
    | solve [apply along_on_window, steady_renaming; eauto with framed]
    | apply framed_bind; [apply _| |]
    | apply framed_gets, _
    | apply framed_for_each; [apply _|]
    | apply framed_ret, _
    | match goal with |- framed _ _ (if ?b then _ else _) => destruct b end ].
Lemma along_HandleMappedWindow xid : along xid (HandleMappedWindow consumer xid).
Proof.
  unfold HandleMappedWindow. walk. apply (along_mapped _ (OTop _)).
Qed.
Lemma ready_mirrors xid s sv w : fine s → mirrors s sv → GetWindow xid (wm s) = Some w → ready xid s.
Proof. intros Hs Hm Hx. split; [done|]. split; [by rewrite Hx; eexists|]. split; apply Hm. Qed.
Lemma along_ends {A} xid (m : M S A) s : along xid m → ready xid s → wp m (fun _ s' => fine s') s.
Proof. intros Hm Hs. eapply wp_mono; [apply Hm, Hs|]. by intros a s' [[? _] _]. Qed.
Lemma HandleMapNotify_wp x s sv : fine s → mirrors s sv → wp (HandleMapNotify consumer x) (fun _ s' => fine s') s.
Proof.
  intros Hs Hm. unfold HandleMapNotify. apply wp_gets_bind. destruct (GetWindow x (wm s)) as [w|] eqn:Ex; [|by apply wp_ret].
  pose proof (ready_mirrors x s sv w Hs Hm Ex) as Hr. destruct (Window.mapped_ w); [by apply wp_ret|].
  apply (along_ends x); [|done]. apply framed_bind; [apply _|apply along_set_mapped|intros _; apply along_HandleMappedWindow].
Qed.
Lemma HandleUnmapNotify_wp x s sv : fine s → mirrors s sv → wp (HandleUnmapNotify consumer x) (fun _ s' => fine s') s.
Proof.
  intros Hs Hm. unfold HandleUnmapNotify. apply wp_gets_bind. destruct (GetWindow x (wm s)) as [w|] eqn:Ex; [|by apply wp_ret].
  apply (along_ends x); [|by apply (ready_mirrors x s sv w)]. walk.
  - apply (along_mapped _ (ORemove _)).
  - apply along_on_world, quiet_SetActiveWindowProperty.
Qed.
Lemma erase_fine xid s : fine s → fine (set_wm ((wm s) <| client_windows_ := delete xid (client_windows_ (wm s)) |>) s).
Proof. unfold fine. by rewrite mp_world. Qed.
(** In the debug build a destroyed window may have no registered consumers left. *)
Definition left_alone (x : Z) (s : S) : Prop :=
  dchecks = true → EventConsumers.window_event_consumers_ (get_consumers (wm_world s)) !! x = None.
Lemma HandleDestroyNotify_wp x s sv : fine s → mirrors s sv → left_alone x s →
  wp (HandleDestroyNotify x) (fun _ s' => fine s') s.
Proof.
  intros Hs Hm Hl. unfold HandleDestroyNotify. apply wp_gets_bind.
  eapply (wp_cut _ _ (fun _ s1 => s1 = s)).
  { unfold DCHECK, left_alone in *. destruct dchecks; [apply wp_CHECK; [|done]; by apply bool_decide_eq_true_2, Hl|by apply wp_ret]. }
  intros _ ? ->. apply wp_gets_bind. cbn [id].
  assert (∀ k (Q : unit → S → Prop), (∀ s1, relisted s s1 → wp k Q s1) →
    wp ((if Stacker.Contains (stacked_xids_ (wm s)) x then on_stacked (Stacker.Remove x) else mret ());; k) Q s) as Hcut.
  { intros k Q Hk. eapply (wp_cut _ _ (fun _ s1 => relisted s s1)); [|by intros _].
    destruct (Stacker.Contains _ _); [apply (items_op_wp (ORemove x)); [done|apply Hm]|apply wp_ret; split_and!; try done; apply Hm]. }
  apply Hcut. intros s1 (Hf1 & _). destruct (GetWindow x (wm s)) as [w|]; [|by apply wp_ret].
  eapply (wp_cut _ _ (fun _ s2 => fine s2)).
  { destruct (negb _); [|by apply wp_ret]. eapply wp_cut; [by apply fine_UpdateClientListStacking|]. intros _ s2 [Hf2 _]. by apply wp_ret. }
  intros _ s2 Hf2. eapply (wp_cut _ _ (fun _ s3 => fine s3)); [by apply wp_modify, erase_fine|].
  intros _ s3 Hf3. apply wp_gets_bind. cbn [id]. eapply wp_mono; [apply (fine_clutter _ (clutter_HandleWindowDestroyed x)); [intros u; apply wr_destroyed|exact Hf3]|].
  by intros ? s4 [? _].
Qed.
Lemma HandleReparentNotify_wp x p s sv : fine s → mirrors s sv → (p = x_root → x ∉ children sv) →
  wp (HandleReparentNotify consumer x p) (fun _ s' => fine s') s.
Proof.
  intros Hs Hm Hp. unfold HandleReparentNotify. apply wp_gets_bind. cbn [id]. pose proof Hm as [M1 M2 M3 _ _ _].
  destruct (Z.eqb_spec p x_root) as [E|_].
  { eapply wp_cut; [apply fine_DCHECK; [|exact Hs]|].
    - rewrite Contains_spec, M3 by done. by rewrite bool_decide_eq_false_2 by auto.
    - intros _ s1 [Hs1 Ha1]. unfold alike, books in Ha1. injection Ha1 as E1 _ _.
      eapply wp_mono; [apply (items_op_wp (OTop x)); [done|by rewrite E1]|]. by intros ? s2 (? & _). }
  destruct (negb _); [by apply wp_ret|]. destruct (GetWindow x (wm s)) as [w|] eqn:Ex.
  - pose proof (ready_mirrors x s sv w Hs Hm Ex) as Hr.
    eapply (wp_cut _ _ (fun _ s1 => ready x s1)); [eapply wp_mono; [by apply (along_stacked x (ORemove x))|by intros ? ? [? _]]|].
    intros _ s1 Hr1. eapply (wp_cut _ _ (fun _ s2 => ready x s2)).
    { assert (∀ b : bool, along x (if b then on_mapped (Stacker.Remove x);; UpdateClientListProperty;; mret () else mret ())) as Hmp.
      { intros b. walk. apply (along_mapped _ (ORemove _)). }
      eapply wp_mono; [by apply Hmp|]. by intros ? s2 [? _]. }
    intros _ s2 Hr2.
    assert (along x (if negb (Window.override_redirect_ w) then UpdateClientListStackingProperty;; mret () else mret ())) as Hu by walk.
    eapply wp_cut; [by apply Hu|]. intros _ s3 [Hr3 _].
    assert (along x (if Window.mapped_ w then unmap_for_all consumer x else mret ())) as Hu' by walk.
    eapply wp_cut; [by apply Hu'|]. intros _ s4 [Hr4 _].
    eapply (wp_cut _ _ (fun _ s5 => fine s5)); [apply wp_modify, erase_fine, Hr4|]. intros _ s5 Hf5.
    destruct (_ && _); [|by apply wp_ret]. eapply wp_cut; [apply (fine_on_world (extern (x_UnredirectWindowForCompositing x))); [|exact Hf5]|].
    + apply quiet_extern. intros u. apply wr_unredirect.
    + intros _ s6 [Hf6 _]. by apply wp_ret.
  - eapply wp_cut; [by apply (items_op_wp (ORemove x))|]. intros _ s1 (Hf1 & _ & Em & _).
    eapply (wp_cut _ _ (fun _ s2 => fine s2)); [|by intros _ s2 ?; apply wp_ret].
    destruct (Stacker.Contains _ _); [|by apply wp_ret]. eapply (wp_cut _ _ (fun _ s2 => fine s2)).
    { rewrite <-Em in M2. destruct (stacker_op_refines (ORemove x) _ M2) as (st & Hrun & _). apply wp_zoom, wp_run.
      exists (), st. split; [done|]. unfold fine. by rewrite mp_world. }
    intros _ s2 Hf2. eapply wp_cut; [by apply fine_UpdateClientList|]. intros _ s3 [Hf3 _]. by apply wp_ret.
Qed.

(** *** Dispatch *)

Abbreviation registered_in registered s := (registered (get_consumers (wm_world s)) : option (gset Z)).
Lemma in_address_order_sorted cs : StronglySorted Z.lt (in_address_order cs).
Proof.
  assert (StronglySorted Z.le (in_address_order cs)) as Hs by apply (StronglySorted_merge_sort Z.le).
  assert (NoDup (in_address_order cs)) as Hnd by (unfold in_address_order; rewrite merge_sort_Permutation; apply NoDup_elements).
  induction Hs as [|c l Hs IH Hall]; constructor; [by apply IH; apply NoDup_cons in Hnd as []|].
  apply NoDup_cons in Hnd as [Hc _]. apply Forall_forall. intros y Hy. rewrite Forall_forall in Hall.
  pose proof (Hall y Hy). assert (c ≠ y) by congruence. lia.
Qed.
Lemma in_address_order_elem c cs : c ∈ in_address_order cs ↔ c ∈ cs.
Proof. unfold in_address_order. rewrite merge_sort_Permutation. apply elem_of_elements. Qed.
Lemma next_in_order l1 c l2 : StronglySorted Z.lt (l1 ++ c :: l2) → filter (fun c' => c < c') (l1 ++ c :: l2) = l2.
Proof.
  intros Hs. rewrite filter_app, filter_cons_False by lia.
  assert (Forall (fun y => y < c) l1) as Hbefore.
  { induction l1 as [|y l1 IH]; [constructor|]. apply StronglySorted_inv in Hs as [Hs Hall]. constructor; [|by apply IH].
    rewrite Forall_forall in Hall. apply Hall, elem_of_app. right. by left. }
  assert (Forall (fun y => c < y) l2) as Hafter.
  { clear Hbefore. induction l1 as [|y l1 IH]; apply StronglySorted_inv in Hs as [Hs Hall]; [done|by apply IH]. }
  assert (filter (fun y => c < y) l1 = []) as ->.
  { clear -Hbefore. induction Hbefore as [|y l1 Hy _ IH]; [done|]. by rewrite filter_cons_False by lia. }
  cbn [app]. clear -Hafter. induction Hafter as [|y l2 Hy _ IH]; [done|]. by rewrite filter_cons_True, IH by done.
Qed.
Lemma dispatch_from_runs registered call fuel cs l1 c l2 s : in_address_order cs = l1 ++ c :: l2 →
  (length l2 < fuel)%nat → registered_in registered s = Some cs →
  (∀ c s s', c ∈ cs → registered_in registered s = Some cs → call (consumer c) s = Val ((), s') → registered_in registered s' = Some cs) →
  dispatch_from consumer fuel registered call c s = for_each (fun c => call (consumer c)) (c :: l2) s.
Proof.
  intros Hl Hf Hs Hkeep. revert fuel s l1 c Hl Hf Hs. induction l2 as [|c' l2 IH]; intros [|fuel] s l1 c Hl Hf Hs; cbn in Hf; [lia| |lia|];
    (assert (c ∈ cs) as Hc by (apply in_address_order_elem; rewrite Hl; apply elem_of_app; right; by left));
    pose proof (in_address_order_sorted cs) as Hsort; rewrite Hl in Hsort; apply next_in_order in Hsort; rewrite <-Hl in Hsort.
  - cbn [dispatch_from for_each]. unfold mbind, M_bind, gets. destruct (call (consumer c) s) as [[[] s1]|] eqn:E; [|done].
    rewrite (Hkeep c s s1 Hc Hs E), decide_True by done. unfold next_consumer. by rewrite Hsort.
  - cbn [dispatch_from]. change (for_each ?f (c :: ?l)) with (f c;; for_each f l). unfold mbind, M_bind, gets at 1.
    destruct (call (consumer c) s) as [[[] s1]|] eqn:E; [|done].
    rewrite (Hkeep c s s1 Hc Hs E), decide_True by done. unfold next_consumer. rewrite Hsort. cbn [head].
    apply (IH fuel s1 (l1 ++ [c])); [by rewrite <-app_assoc|lia|by apply (Hkeep c s)].
Qed.

(** A child of the root that is in the stack but not tracked (an InputOnly window that
    ManageExistingWindows found) must not be told of again, although Init says that the handler
    bails out: only tracked windows are recognised, and the debug build stops. *)
Lemma untracked_window_created_twice_dies x o s : dchecks = true → well_formed (stacked_xids_ (wm s)) →
  x ∈ Stacker.items (stacked_xids_ (wm s)) → GetWindow x (wm s) = None →
  HandleCreateNotify consumer indeterminate x_root x o s = Fault CheckFailed.
Proof.
  intros Hd Hwf Hx Hw. cbv [HandleCreateNotify get gets mbind M_bind]. rewrite Hw, Z.eqb_refl. cbv [negb id DCHECK].
  by rewrite Hd, Contains_spec, bool_decide_eq_true_2.
Qed.

(** ** The properties *)

Definition about_windows (e : XEvent) : Prop :=
  match e with
  | ConfigureNotify _ _ _ _ _ _ | MapNotify _ | UnmapNotify _ | DestroyNotify _ | ReparentNotify _ _ => True
  | CreateNotify parent _ _ => parent ≠ x_root
  | _ => False
  end.
(** An event goes to every consumer that is registered for it, each once, in the order of their
    addresses (what FOR_EACH_EVENT_CONSUMER is for), as long as what they do leaves the
    registration as it is. *)
Theorem every_registered_consumer_told registered call cs s : registered_in registered s = Some cs →
  cs ⊆ event_consumers_ (wm s) →
  (∀ c s s', c ∈ cs → registered_in registered s = Some cs → call (consumer c) s = Val ((), s') → registered_in registered s' = Some cs) →
  for_each_event_consumer consumer registered call s = for_each (fun c => call (consumer c)) (in_address_order cs) s ∧
  (∀ c, c ∈ in_address_order cs ↔ c ∈ cs) ∧ StronglySorted Z.lt (in_address_order cs).
Proof.
  intros Hs Hsub Hkeep. split; [|split; [intros c; apply in_address_order_elem|apply in_address_order_sorted]].
  unfold for_each_event_consumer, get, gets at 1. unfold mbind at 1, M_bind at 1. cbn [id].
  unfold mbind at 1, M_bind at 1, gets at 1. rewrite Hs. destruct (in_address_order cs) as [|c l] eqn:El; [done|].
  apply (dispatch_from_runs _ _ _ cs []); [done| |done|done].
  apply subseteq_size in Hsub. assert (length (in_address_order cs) = size cs) as Hlen.
  { unfold in_address_order. by rewrite merge_sort_Permutation. }
  rewrite El in Hlen. cbn in Hlen. lia.
Qed.
(** A consumer that drops its own registration while it handles the event leaves the loop with an
    iterator into the set that points nowhere: FOR_EACH_EVENT_CONSUMER is then undefined. *)
Lemma unregistering_in_handler_undefined registered call cs c l s s' :
  registered_in registered s = Some cs → in_address_order cs = c :: l →
  call (consumer c) s = Val ((), s') → (∀ cs', registered_in registered s' = Some cs' → c ∉ cs') →
  for_each_event_consumer consumer registered call s = Fault Undefined.
Proof.
  intros Hs Hl Hc Hgone. unfold for_each_event_consumer, get, gets at 1. unfold mbind at 1, M_bind at 1. cbn [id].
  unfold mbind at 1, M_bind at 1, gets at 1. rewrite Hs, Hl. cbn [dispatch_from]. unfold mbind, M_bind. rewrite Hc. unfold gets.
  destruct (registered_in registered s') as [cs'|]; [|done]. by rewrite decide_False by by apply Hgone.
Qed.
End manager.

(** ** A window manager in memory *)

Module MemManager.
Import MemServer MemWm MemFrame.
#[global] Instance mem_requests : WmRequests MemWm.world := {|
  x_GetChildWindows _ w := (Some [50; 51], w);
  x_GetWindowAttributes _ w := (Some (false, 0), w);
  x_SetSelectionOwner _ _ _ w := (true, w);
  x_WaitForWindowToBeDestroyed _ w := (true, w);
  x_GetStringProperty _ _ w := (None, w);
  x_UnredirectWindowForCompositing _ w := (true, w);
  x_GetKeySymFromKeyCode k w := (k, w);
  x_QueryKeyboardState w := ([], w);
  XRefreshKeyboardMapping w := w;
  clutter_HandleWindowConfigured _ w := w;
  clutter_HandleWindowDamaged _ w := w;
  clutter_HandleWindowDestroyed _ w := w;
  hotkey_overlay_group := 70;
  hotkey_overlay_RefreshKeyMappings w := w;
  hotkey_overlay_HandleKeyboardState _ w := w;
  new_text _ _ w := (6, w);
  system _ w := (0, w);
  wm_set_size _ _ w := w;
  FLAGS_wm_xterm_command := []; FLAGS_wm_lock_screen_command := []; FLAGS_wm_configure_monitor_command := [];
  FLAGS_screenshot_binary := []; FLAGS_screenshot_output_dir := [] |}.
#[global] Instance mem_request_laws : WmRequestLaws MemWm.world.
Proof. by split. Qed.
#[global] Instance mem_manager_keys : KeyGrabs MemWm.world := {|
  x_lower_keysym k := k;
  x_SetDetectableKeyboardAutoRepeat _ w := (true, w);
  x_GetKeyCodeFromKeySym k w := (k `mod` 256, w);
  x_GrabKey _ _ w := ((), w);
  x_UngrabKey _ _ w := ((), w) |}.
Record state := mk { manager : WindowManager.t; world : MemWm.world }.
#[global] Instance mem_store : ManagerStore state MemWm.world := {|
  wm := manager; set_wm m s := mk m (world s); wm_world := world; set_wm_world w s := mk (manager s) w |}.
#[global] Instance mem_place : ManagerPlace state MemWm.world.
Proof. by split. Qed.

(** A consumer that focuses the windows that are mapped, and maps those that want to be. *)
Definition focuser : EventConsumer.t state := {|
  EventConsumer.IsInputWindow _ _ := false;
  EventConsumer.HandleWindowMapRequest xid := Manager.x (MapWindow xid);
  EventConsumer.HandleWindowMap xid := Manager.x (FocusWindow xid 0);; mret ();
  EventConsumer.HandleWindowUnmap _ := mret ();
  EventConsumer.HandleWindowConfigureRequest _ _ _ _ _ := mret ();
  EventConsumer.HandleButtonPress _ _ _ _ _ _ _ := mret ();
  EventConsumer.HandleButtonRelease _ _ _ _ _ _ _ := mret ();
  EventConsumer.HandlePointerEnter _ _ _ _ _ _ := mret ();
  EventConsumer.HandlePointerLeave _ _ _ _ _ _ := mret ();
  EventConsumer.HandlePointerMotion _ _ _ _ _ _ := mret ();
  EventConsumer.HandleChromeMessage _ := mret ();
  EventConsumer.HandleClientMessage _ _ _ := mret ();
  EventConsumer.HandleFocusChange _ _ := mret ();
  EventConsumer.HandleWindowPropertyChange _ _ := mret () |}.
Definition consumer (_ : Z) : EventConsumer.t state := focuser.
Lemma focuser_keeps c : consumer_keeps (consumer c).
Proof.
  split; intros; cbn; try (apply keeps_ret; apply _); [apply still_x|].
  apply keeps_bind; [apply _|apply still_x|intros; apply keeps_ret, _].
Qed.
Lemma focuser_maps c xid : framed fine alike (EventConsumer.HandleWindowMap (consumer c) xid).
Proof.
  cbn. apply framed_bind; [apply _|apply fine_on_world, quiet_x_do|intros; apply framed_ret, _].
Qed.
Lemma focuser_unmaps c xid : framed fine alike (EventConsumer.HandleWindowUnmap (consumer c) xid).
Proof. apply framed_ret, _. Qed.
Definition start : state :=
  mk (WindowManager.mk 3 None 0 stacking ∅ Stacker.new Stacker.new {[7; 9]} ∅ [] (KeyBindings.mk ∅ ∅ ∅) 0 false 0 0 0 1024 768)
     (MemServer.connection, mkServer {[50; 51]} ∅ 3 (fun _ => [])).
Abbreviation handle := (HandleEvent consumer (fun _ _ _ _ => mret ()) (mret ()) (fun _ => mret ()) false 9).
Abbreviation manage := (ManageExistingWindows consumer false).
Definition events : list XEvent :=
  [CreateNotify x_root 52 false; MapNotify 50; MapNotify 52; ConfigureNotify 52 10 10 100 50 50; FocusNotify 52 true 0 0; MapNotify 51;
   ReparentNotify 51 60; UnmapNotify 50; DestroyNotify 50].
Abbreviation run_all := (manage;; for_each handle events).
Definition state_of {A} (r : result (unit * A)) : option A := match r with Val (_, s) => Some s | Fault _ => None end.
Definition finish : state := default start (state_of (run_all start)).
Lemma ended_run {A} (r : result (unit * A)) d : match r with Val _ => true | Fault _ => false end = true →
  r = Val ((), default d (state_of r)).
Proof. by destruct r as [[[] s]|]. Qed.
Lemma finish_reached : run_all start = Val ((), finish).
Proof. apply ended_run. vm_compute. reflexivity. Qed.
Lemma existing_answers : answers [50; 51] ∅.
Proof. split; [by eexists|done]. Qed.
Lemma start_blank : blank start.
Proof. done. Qed.
Lemma existing_children : (x_GetChildWindows x_root (wm_world start)).1 = Some [50; 51].
Proof. done. Qed.
Lemma existing_nonzero : 0 ∉ [50; 51].
Proof. by apply (bool_decide_unpack _). Qed.
Lemma existing_distinct : NoDup [50; 51].
Proof. by apply (bool_decide_unpack _). Qed.
Definition seen : Server := root_with [52] ({[51]} ∪ ({[52]} ∪ ({[50]} ∪ ∅)) ∖ {[50]}).
Lemma course : history (root_with (reverse [50; 51]) ∅) events seen.
Proof.
  unfold events. change (reverse [50; 51]) with [51; 50].
  econstructor; [by apply f_create; apply (bool_decide_unpack _)|].
  econstructor; [by apply f_map|]. econstructor; [by apply f_map|].
  econstructor; [by apply (f_configure 52 10 10 100 50 [52; 51; 50] [51; 52; 50]); apply (bool_decide_unpack _)|].
  econstructor; [by apply f_other|]. econstructor; [by apply f_map|]. econstructor; [by apply f_reparent_away|].
  econstructor; [by apply f_unmap|]. econstructor; [by apply f_destroy; set_solver|].
  apply h_nil.
Qed.
End MemManager.
Import MemManager.

Definition some_events : list XEvent := [CreateNotify x_root 52 false; MapNotify 50; MapNotify 52].
Definition some_time : state := default start (state_of ((manage;; for_each handle some_events) start)).
Lemma some_time_reached : (manage;; for_each handle some_events) start = Val ((), some_time).
Proof. apply ended_run. vm_compute. reflexivity. Qed.
Lemma some_time_mirrors : mirrors some_time (root_with [52; 51; 50] ({[52]} ∪ ({[50]} ∪ ∅))).
Proof.
  assert (pwp (manage;; for_each handle some_events)
    (fun _ s' => mirrors s' (root_with [52; 51; 50] ({[52]} ∪ ({[50]} ∪ ∅)))) start) as Hall.
  { apply pwp_bind. eapply pwp_mono.
    - apply (ManageExistingWindows_mirrors consumer (mret ()) (fun _ _ _ _ => mret ()) (fun _ => mret ()) false
        focuser_keeps (keeps_ret alike ()) (fun _ _ _ _ => keeps_ret alike ()) (fun _ => keeps_ret alike ())
        [50; 51] start ∅ start_blank existing_children existing_nonzero existing_distinct existing_answers).
    - intros b s1 [_ Hs1]. eapply history_mirrors; try exact Hs1; try (intros; apply keeps_ret, _); [exact focuser_keeps|].
      econstructor; [by apply f_create; apply (bool_decide_unpack _)|].
      econstructor; [by apply f_map|]. econstructor; [by apply f_map|]. apply h_nil. }
  apply (Hall () some_time some_time_reached).
Qed.
Lemma every_registered_consumer_told_witness :
  for_each_event_consumer consumer (fun _ => Some {[7; 9]}) (fun c => EventConsumer.HandlePointerEnter c 50 0 0 0 0 0) start =
  for_each (fun c => EventConsumer.HandlePointerEnter (consumer c) 50 0 0 0 0 0) (in_address_order {[7; 9]}) start ∧
  in_address_order {[7; 9]} = [7; 9].
Proof.
  split; [|vm_compute; reflexivity].
  refine (proj1 (every_registered_consumer_told consumer (fun _ => Some {[7; 9]})
    (fun c => EventConsumer.HandlePointerEnter c 50 0 0 0 0 0) {[7; 9]} start eq_refl _ _)); [done|done].
Defined.
