(* ===== verification/Rsa.v ===== *)
(** * RSA signatures of the verified boot: vboot_reference/crypto/rsa.c.

    Numbers of [key->len] words of 32 bits, little-endian, with Montgomery multiplication;
    [val] is the number.  Arrays are lists of words; the loops go over all [key->len] words of
    the arrays that they name, so a loop over an index is a recursion on the arrays. *)

From Stdlib Require Import Ascii.
From S2P Require Import Prelude.

(** rsa.h *)
Record RSAPublicKey := mkKey {
  len : Z;            (* length of n[] in number of uint32_t *)
  n0inv : Z;          (* -1 / n[0] mod 2^32 *)
  n : list Z;         (* modulus as little endian array *)
  rr : list Z         (* R^2 as little endian array *)
}.

(** ** The arithmetic *)

(** [A] is an [int64_t]; the difference is a [uint64_t]. *)
Fixpoint subM_loop (A : Z) (a n : list Z) : list Z :=
  match a, n with
  | ai :: a, ni :: n =>
      let A := i64 (A + u64 (ai - ni)) in
      u32 A :: subM_loop (Z.shiftr A 32) a n
  | _, _ => []
  end.
Definition subM (key : RSAPublicKey) (a : list Z) : list Z := subM_loop 0 a (n key).

(** From the most significant word down. *)
Fixpoint geM_loop (a n : list Z) : bool :=
  match a, n with
  | ai :: a, ni :: n => if ai <? ni then false else if ni <? ai then true else geM_loop a n
  | _, _ => true
  end.
Definition geM (key : RSAPublicKey) (a : list Z) : bool := geM_loop (reverse a) (reverse (n key)).

(** [(uint32_t) z] and [(uint64_t) z], by masks. *)
Definition lo32 (z : Z) : Z := Z.land z 4294967295.
Definition lo64 (z : Z) : Z := Z.land z 18446744073709551615.
(** The words from 1 on: what is stored from c[0] on, and the last [A] and [B]. *)
Fixpoint montMulAdd_loop (a d0 A B : Z) (b c n : list Z) : list Z * Z * Z :=
  match b, c, n with
  | bi :: b, ci :: c, ni :: n =>
      let A := lo64 (Z.shiftr A 32 + a * bi + ci) in
      let B := lo64 (Z.shiftr B 32 + d0 * ni + lo32 A) in
      let '(out, A', B') := montMulAdd_loop a d0 A B b c n in
      (lo32 B :: out, A', B')
  | _, _, _ => ([], A, B)
  end.
Definition montMulAdd (key : RSAPublicKey) (c : list Z) (a : Z) (b : list Z) : list Z :=
  match b, c, n key with
  | b0 :: b, c0 :: c, n0 :: ns =>
      let A := lo64 (a * b0 + c0) in
      let d0 := lo32 (lo32 A * n0inv key) in
      let B := lo64 (d0 * n0 + lo32 A) in
      let '(out, A, B) := montMulAdd_loop a d0 A B b c ns in
      let A := lo64 (Z.shiftr A 32 + Z.shiftr B 32) in
      let c := out ++ [lo32 A] in
      if Z.shiftr A 32 =? 0 then c else subM key c
  | _, _, _ => c
  end.
Definition montMul (key : RSAPublicKey) (a b : list Z) : list Z :=
  foldl (fun c ai => montMulAdd key c ai b) (replicate (Z.to_nat (len key)) 0) a.

(** Big-endian bytes and words. *)
Fixpoint words_of_bytes (b : list Z) : list Z :=
  match b with
  | b3 :: b2 :: b1 :: b0 :: b =>
      Z.lor (Z.lor (Z.lor (Z.shiftl b3 24) (Z.shiftl b2 16)) (Z.shiftl b1 8)) b0 :: words_of_bytes b
  | _ => []
  end.
Definition bytes_of_word (w : Z) : list Z := [Z.shiftr w 24 `mod` 256; Z.shiftr w 16 `mod` 256; Z.shiftr w 8 `mod` 256; w `mod` 256].
Definition bytes_of_words (w : list Z) : list Z := w ≫= bytes_of_word.

(** a^65537, with sixteen squarings. *)
Definition square_twice (key : RSAPublicKey) (aR : list Z) : list Z :=
  let aaR := montMul key aR aR in montMul key aaR aaR.
(** "Make sure aaa < mod; aaa is at most 1x mod too large." *)
Definition reduced (key : RSAPublicKey) (aaa : list Z) : list Z := if geM key aaa then subM key aaa else aaa.
Definition power (key : RSAPublicKey) (a : list Z) : list Z :=
  let aR := montMul key a (rr key) in
  let aR := Nat.iter 8 (square_twice key) aR in
  let aaa := montMul key aR a in
  reduced key aaa.
Definition modpowF4 (key : RSAPublicKey) (inout : list Z) : list Z :=
  let a := reverse (words_of_bytes inout) in
  bytes_of_words (reverse (power key a)).

(** ** The signature check *)

(** Padding and the tables of the twelve algorithms (padding.c, which genpadding.sh writes). *)
Definition kNumAlgorithms : Z := 12.
Definition of_algorithm {A} (d : A) (table : list A) (algorithm : Z) : A := nth (Z.to_nat algorithm) table d.
Definition SHA1_DIGEST_SIZE : Z := 20.
Definition SHA256_DIGEST_SIZE : Z := 32.
Definition SHA512_DIGEST_SIZE : Z := 64.
Definition siglen_map : Z → Z := of_algorithm 0 [32; 32; 32; 64; 64; 64; 128; 128; 128; 256; 256; 256].
Definition hash_size_map : Z → Z :=
  of_algorithm 0 (concat (replicate 4 [SHA1_DIGEST_SIZE; SHA256_DIGEST_SIZE; SHA512_DIGEST_SIZE])).
Definition SHA1_digestinfo : list Z := [48; 33; 48; 9; 6; 5; 43; 14; 3; 2; 26; 5; 0; 4; 20].
Definition SHA256_digestinfo : list Z := [48; 49; 48; 13; 6; 9; 96; 134; 72; 1; 101; 3; 4; 2; 1; 5; 0; 4; 32].
Definition SHA512_digestinfo : list Z := [48; 81; 48; 13; 6; 9; 96; 134; 72; 1; 101; 3; 4; 2; 3; 5; 0; 4; 64].
Definition hash_digestinfo_map : Z → list Z :=
  of_algorithm [] (concat (replicate 4 [SHA1_digestinfo; SHA256_digestinfo; SHA512_digestinfo])).
Definition digestinfo_size_map (algorithm : Z) : Z := zlen (hash_digestinfo_map algorithm).
(** The length of the key less that of DigestInfo and digest and the three other bytes. *)
Definition padding_map (algorithm : Z) : list Z :=
  let T := digestinfo_size_map algorithm + hash_size_map algorithm in
  [0; 1] ++ replicate (Z.to_nat (4 * siglen_map algorithm - T - 3)) 255 ++ [0] ++ hash_digestinfo_map algorithm.
Definition padding_size_map (algorithm : Z) : Z := 4 * siglen_map algorithm - hash_size_map algorithm.

(** Every byte is compared. *)
Fixpoint all_equal (a b : list Z) : bool :=
  match a, b with
  | x :: a, y :: b => let rest := all_equal a b in if x =? y then rest else false
  | _, _ => true
  end.
Definition check_padding (buf : list Z) (sig_type : Z) (hash : list Z) : bool :=
  all_equal (take (Z.to_nat (padding_size_map sig_type)) buf) (padding_map sig_type) &&
  all_equal (drop (Z.to_nat (padding_size_map sig_type)) buf) hash.
(** [sig] and [hash] are what is readable from the two pointers on; an array that is
    shorter than the code takes it to be is read out of its bounds. *)
Definition RSA_verify (key : RSAPublicKey) (sig : list Z) (sig_len sig_type : Z) (hash : list Z) : result Z :=
  if negb (u32 sig_len =? u32 (len key * 4)) then Val 0
  else if kNumAlgorithms <=? sig_type then Val 0
  else if negb (len key =? siglen_map sig_type) then Val 0
  else if negb (bool_decide (zlen (n key) = len key ∧ zlen (rr key) = len key ∧ sig_len ≤ zlen sig ∧ hash_size_map sig_type ≤ zlen hash))
  then Fault Undefined
  else
    let buf := modpowF4 key (take (Z.to_nat sig_len) sig) in
    Val (if check_padding buf sig_type hash then 1 else 0).

(** ** rsa_utility.c *)

Definition RSAProcessedKeySize (algorithm : Z) : Z :=
  let key_len := siglen_map algorithm * 4 in
  2 * key_len + 4 + 4.

(** utility_stub.c: what is readable from [remaining_buf] on, and [remaining_len]. *)
Record MemcpyState := mkMemcpy { remaining_buf : list Z; remaining_len : Z }.
(** The bytes copied, or [None] for NULL. *)
Definition StatefulMemcpy (count : Z) : M MemcpyState (option (list Z)) := fun st =>
  if remaining_len st <? count then Val (None, mkMemcpy (remaining_buf st) (-1))
  else if (count <? 0) || (zlen (remaining_buf st) <? count) then Fault Undefined
  else Val (Some (take (Z.to_nat count) (remaining_buf st)),
            mkMemcpy (drop (Z.to_nat count) (remaining_buf st)) (remaining_len st - count)).
(** abort() if there is no memory: never for less than 2 GB, always for more. *)
Definition Malloc {S} (size : Z) : M S unit := CHECK (u32 size <? 2 ^ 31).
(** What a little-endian machine makes of bytes. *)
Definition le (b : list Z) : Z := foldr (fun x acc => x + 256 * acc) 0 b.
Fixpoint words_le (b : list Z) : list Z :=
  match b with
  | b0 :: b1 :: b2 :: b3 :: b => le [b0; b1; b2; b3] :: words_le b
  | _ => []
  end.
(** NULL after an underrun or overrun; to look at [key->len] if it could not be read is undefined. *)
Definition RSAPublicKeyFromBuf (buf : list Z) (buf_len : Z) : result (option RSAPublicKey) :=
  let parse : M MemcpyState (option RSAPublicKey) :=
    len_bytes ← StatefulMemcpy 4;
    match len_bytes with
    | None => fail Undefined
    | Some len_bytes =>
        let key_words := i32 (le len_bytes) in
        let key_len := i32 (key_words * 4) in
        Malloc key_len;;
        Malloc key_len;;
        n0inv_bytes ← StatefulMemcpy 4;
        n_bytes ← StatefulMemcpy key_len;
        rr_bytes ← StatefulMemcpy key_len;
        st ← mget;
        if negb (remaining_len st =? 0) then mret None
        else mret (Some (mkKey key_words (le (default [] n0inv_bytes)) (words_le (default [] n_bytes)) (words_le (default [] rr_bytes))))
    end in
  match parse (mkMemcpy buf buf_len) with Val (key, _) => Val key | Fault f => Fault f end.

(** ** Numbers *)

Fixpoint val (a : list Z) : Z := match a with [] => 0 | ai :: a => ai + 2 ^ 32 * val a end.
Definition words (a : list Z) : Prop := Forall is_u32 a.
Definition R (a : list Z) : Z := 2 ^ (32 * zlen a).

Lemma R_cons x a : R (x :: a) = 2 ^ 32 * R a.
Proof. unfold R. rewrite zlen_cons, <-Z.pow_add_r by (pose proof (zlen_nonneg a); lia). f_equal. lia. Qed.
Lemma R_pos a : 0 < R a.
Proof. apply Z.pow_pos_nonneg; [lia|]. pose proof (zlen_nonneg a). lia. Qed.
Lemma R_length a b : length a = length b → R a = R b.
Proof. unfold R, zlen. by intros ->. Qed.
Lemma val_range a : words a → 0 ≤ val a < R a.
Proof.
  induction 1 as [|x a Hx _ IH]; [done|]. rewrite R_cons. cbn [val]. unfold is_u32 in Hx. lia.
Qed.
Lemma val_app a b : val (a ++ b) = val a + R a * val b.
Proof.
  induction a as [|x a IH]; [cbn [app val]; change (R []) with 1; lia|]. cbn [app val]. rewrite R_cons, IH. lia.
Qed.
Lemma val_zeros k : val (replicate k 0) = 0.
Proof. induction k as [|k IH]; [done|]. cbn [replicate val]. by rewrite IH. Qed.
Lemma words_zeros k : words (replicate k 0).
Proof. induction k; constructor; [done|assumption]. Qed.
Lemma shiftr_32 z : Z.shiftr z 32 = z `div` 2 ^ 32.
Proof. by rewrite Z.shiftr_div_pow2. Qed.
Lemma lo32_u32 z : lo32 z = u32 z.
Proof. apply (Z.land_ones z 32). lia. Qed.
Lemma lo64_u64 z : lo64 z = u64 z.
Proof. apply (Z.land_ones z 64). lia. Qed.
Lemma split_32 z : z = u32 z + 2 ^ 32 * Z.shiftr z 32.
Proof. rewrite shiftr_32. unfold u32. pose proof (Z.div_mod z (2 ^ 32)). lia. Qed.

(** *** Subtraction and comparison *)

Lemma subM_loop_words A a n : words (subM_loop A a n).
Proof. revert A n. induction a as [|ai a IH]; intros A [|ni n]; constructor; [apply u32_range|apply IH]. Qed.
Lemma subM_loop_length A a n : length a = length n → length (subM_loop A a n) = length a.
Proof. revert A n. induction a as [|ai a IH]; intros A [|ni n] [=]; [done|]. cbn. f_equal. by apply IH. Qed.
Lemma subM_loop_val A a n : length a = length n → words a → words n → -1 ≤ A ≤ 0 →
  ∃ borrow, -1 ≤ borrow ≤ 0 ∧ A + val a - val n = val (subM_loop A a n) + R a * borrow.
Proof.
  revert A n. induction a as [|ai a IH]; intros A [|ni n] Hl Ha Hn HA; try done.
  { exists A. cbn [val subM_loop]. change (R []) with 1. lia. }
  apply Forall_cons in Ha as [Hai Ha]. apply Forall_cons in Hn as [Hni Hn]. injection Hl as Hl. unfold is_u32 in *.
  cbn [subM_loop val]. set (A1 := i64 _).
  assert (A1 = A + (ai - ni)) as HA1.
  { unfold A1. rewrite <-(i64_small (A + (ai - ni))) at 1 by (unfold is_i64; lia). unfold i64, u64. f_equal.
    rewrite <-Z.add_assoc, (Z.add_comm (_ `mod` _)), Z.add_assoc, Zplus_mod_idemp_r. f_equal. lia. }
  pose proof (split_32 A1) as Hs. pose proof (u32_range A1) as Hu. unfold is_u32 in Hu.
  destruct (IH (Z.shiftr A1 32) n Hl Ha Hn) as (bo & Hbo & Heq); [lia|]. exists bo. split; [done|]. rewrite R_cons. lia.
Qed.
Lemma subM_val key a : length a = length (n key) → words a → words (n key) →
  val (subM key a) = (val a - val (n key)) `mod` R a.
Proof.
  intros Hl Ha Hn. destruct (subM_loop_val 0 a (n key) Hl Ha Hn) as (bo & _ & Heq); [lia|].
  pose proof (val_range _ (subM_loop_words 0 a (n key))) as Hr. rewrite (R_length _ a) in Hr by by apply subM_loop_length.
  unfold subM. replace (val a - val (n key)) with (val (subM_loop 0 a (n key)) + bo * R a) by lia.
  by rewrite Z_mod_plus_full, Z.mod_small.
Qed.
Lemma geM_loop_spec a n : length a = length n → words a → words n →
  geM_loop a n = (val (reverse n) <=? val (reverse a)).
Proof.
  revert n. induction a as [|ai a IH]; intros [|ni n] Hl Ha Hn; try done.
  apply Forall_cons in Ha as [Hai Ha]. apply Forall_cons in Hn as [Hni Hn]. injection Hl as Hl. unfold is_u32 in *.
  cbn [geM_loop]. rewrite IH by done. rewrite !reverse_cons, !val_app. cbn [val].
  rewrite (R_length (reverse n) (reverse a)) by by rewrite !length_reverse.
  assert (0 ≤ val (reverse a) < R (reverse a)) by by apply val_range, Forall_reverse.
  assert (0 ≤ val (reverse n) < R (reverse a)).
  { rewrite (R_length (reverse a) (reverse n)) by by rewrite !length_reverse. by apply val_range, Forall_reverse. }
  destruct (Z.ltb_spec ai ni); [symmetry; apply Z.leb_gt; nia|].
  destruct (Z.ltb_spec ni ai); [symmetry; apply Z.leb_le; nia|]. assert (ni = ai) as -> by lia.
  destruct (Z.leb_spec (val (reverse n)) (val (reverse a))); symmetry; [apply Z.leb_le|apply Z.leb_gt]; lia.
Qed.
Lemma geM_spec key a : length a = length (n key) → words a → words (n key) → geM key a = (val (n key) <=? val a).
Proof.
  intros Hl Ha Hn. unfold geM. rewrite geM_loop_spec, !reverse_involutive; [done|by rewrite !length_reverse|by apply Forall_reverse..].
Qed.

(** *** Montgomery multiplication *)

Lemma mul_bound a b c : is_u32 a → is_u32 b → 0 ≤ c < 2 ^ 33 - 1 → 0 ≤ c + a * b < 2 ^ 64.
Proof. unfold is_u32. intros Ha Hb Hc. assert (0 ≤ a * b ≤ (2 ^ 32 - 1) * (2 ^ 32 - 1)) by nia. lia. Qed.
Lemma montMulAdd_loop_val a d0 b : is_u32 a → is_u32 d0 → words b → ∀ A B c n out A' B',
  length b = length c → length b = length n → words c → words n → is_u64 A → is_u64 B →
  montMulAdd_loop a d0 A B b c n = (out, A', B') →
  words out ∧ length out = length b ∧ is_u64 A' ∧ is_u64 B' ∧
  Z.shiftr A 32 + Z.shiftr B 32 + a * val b + val c + d0 * val n = val out + R b * (Z.shiftr A' 32 + Z.shiftr B' 32).
Proof.
  intros Ha Hd Hb. induction Hb as [|bi b Hbi Hb IH]; intros A B [|ci c] [|ni n] out A' B' Hc Hn Hcw Hnw HA HB; try done.
  { intros [= <- <- <-]. repeat split; try done; try apply HA; try apply HB. cbn [val]. change (R []) with 1. lia. }
  injection Hc as Hc. injection Hn as Hn. apply Forall_cons in Hcw as [Hci Hcw]. apply Forall_cons in Hnw as [Hni Hnw].
  cbn [montMulAdd_loop]. rewrite ?lo64_u64, ?lo32_u32. set (A1 := u64 (Z.shiftr A 32 + a * bi + ci)). set (B1 := u64 (Z.shiftr B 32 + d0 * ni + u32 A1)).
  destruct (montMulAdd_loop a d0 A1 B1 b c n) as [[out1 A2] B2] eqn:E. intros [= <- <- <-].
  assert (0 ≤ Z.shiftr A 32 < 2 ^ 32) as HA' by (rewrite shiftr_32; unfold is_u64 in HA; split; [apply Z.div_pos; lia|apply Z.div_lt_upper_bound; lia]).
  assert (0 ≤ Z.shiftr B 32 < 2 ^ 32) as HB' by (rewrite shiftr_32; unfold is_u64 in HB; split; [apply Z.div_pos; lia|apply Z.div_lt_upper_bound; lia]).
  pose proof (u32_range A1) as HuA. unfold is_u32 in Hci, HuA.
  assert (A1 = Z.shiftr A 32 + a * bi + ci) as HA1.
  { unfold A1. apply u64_small. pose proof (mul_bound a bi (Z.shiftr A 32 + ci) Ha Hbi). unfold is_u64. lia. }
  assert (B1 = Z.shiftr B 32 + d0 * ni + u32 A1) as HB1.
  { unfold B1. apply u64_small. pose proof (mul_bound d0 ni (Z.shiftr B 32 + u32 A1) Hd Hni). unfold is_u64. lia. }
  destruct (IH A1 B1 c n out1 A2 B2) as (Hw & Hl & HA2 & HB2 & Heq); [done..|apply u64_range|apply u64_range|done|].
  split; [constructor; [apply u32_range|done]|]. split; [cbn; by rewrite Hl|]. split; [done|]. split; [done|].
  rewrite R_cons. cbn [val]. pose proof (split_32 A1). pose proof (split_32 B1). lia.
Qed.

(** A key that is fit for use: an odd modulus of full length, and the two constants right. *)
Record key_ok (key : RSAPublicKey) : Prop := {
  ko_len : len key = zlen (n key);
  ko_words : words (n key);
  ko_rr_len : length (rr key) = length (n key);
  ko_rr_words : words (rr key);
  ko_inv : ∃ n0 ns, n key = n0 :: ns ∧ (n0inv key * n0 + 1) `mod` 2 ^ 32 = 0;
  ko_top : R (n key) ≤ 2 * val (n key);
  ko_rr : val (rr key) `mod` val (n key) = (R (n key) * R (n key)) `mod` val (n key)
}.
Section key.
Context (key : RSAPublicKey) (Hkey : key_ok key).
Abbreviation N := (val (n key)).
Abbreviation RR := (R (n key)).
Definition fits (a : list Z) : Prop := words a ∧ length a = length (n key).
Lemma fits_range a : fits a → 0 ≤ val a < RR.
Proof. intros [Ha Hl]. rewrite <-(R_length a) by done. by apply val_range. Qed.
Lemma N_pos : 0 < N.
Proof. pose proof (ko_top _ Hkey). pose proof (R_pos (n key)). lia. Qed.
Lemma N_range : 0 < N < RR.
Proof. pose proof N_pos. pose proof (val_range _ (ko_words _ Hkey)). lia. Qed.
(** The word that makes the sum divisible by 2^32. *)
Lemma quotient_word z n0 : (n0inv key * n0 + 1) `mod` 2 ^ 32 = 0 → u32 (u32 (u32 z * n0inv key) * n0 + u32 z) = 0.
Proof.
  intros Hinv. unfold u32 at 1 2. rewrite <-Zplus_mod_idemp_l, Zmult_mod_idemp_l, Zplus_mod_idemp_l.
  replace (u32 z * n0inv key * n0 + u32 z) with (u32 z * (n0inv key * n0 + 1)) by lia.
  by rewrite <-Zmult_mod_idemp_r, Hinv, Z.mul_0_r.
Qed.
Lemma montMulAdd_spec c a b : fits c → is_u32 a → fits b →
  fits (montMulAdd key c a b) ∧ ∃ k, 2 ^ 32 * val (montMulAdd key c a b) = val c + a * val b + k * N.
Proof.
  intros [Hc Hcl] Ha [Hb Hbl]. destruct (ko_inv _ Hkey) as (n0 & ns & Hn & Hinv).
  pose proof (ko_words _ Hkey) as Hnw. pose proof N_range as HN. pose proof (fits_range c (conj Hc Hcl)) as Hcr.
  pose proof (fits_range b (conj Hb Hbl)) as Hbr. unfold montMulAdd, fits in *.
  destruct b as [|b0 b]; [by rewrite Hn in Hbl|]. destruct c as [|c0 c]; [by rewrite Hn in Hcl|]. rewrite Hn in *.
  apply Forall_cons in Hc as [Hc0 Hc]. apply Forall_cons in Hb as [Hb0 Hb]. apply Forall_cons in Hnw as [Hn0 Hnw].
  injection Hbl as Hbl. injection Hcl as Hcl.
  rewrite ?lo64_u64, ?lo32_u32. set (A := u64 (a * b0 + c0)). set (d0 := u32 (u32 A * n0inv key)). set (B := u64 (d0 * n0 + u32 A)).
  pose proof (u32_range A) as HuA. pose proof (u32_range (u32 A * n0inv key)) as Hd. fold d0 in Hd.
  assert (A = a * b0 + c0) as HA.
  { apply u64_small. pose proof (mul_bound a b0 c0 Ha Hb0). unfold is_u32 in Hc0. unfold is_u64. lia. }
  assert (B = d0 * n0 + u32 A) as HB.
  { apply u64_small. pose proof (mul_bound d0 n0 (u32 A) Hd Hn0). unfold is_u32 in HuA. unfold is_u64. lia. }
  assert (u32 B = 0) as HB0 by (rewrite HB; by apply quotient_word).
  destruct (montMulAdd_loop a d0 A B b c ns) as [[out A'] B'] eqn:E.
  destruct (montMulAdd_loop_val a d0 b Ha Hd Hb A B c ns out A' B') as (Hw & Hl & HA' & HB' & Heq);
    [congruence|congruence|done|done|apply u64_range|apply u64_range|done|].
  pose proof (split_32 A) as HsA. pose proof (split_32 B) as HsB. cbn [val] in *. unfold is_u32, is_u64 in *.
  assert (∀ z, 0 ≤ z < 2 ^ 64 → 0 ≤ Z.shiftr z 32 < 2 ^ 32) as Hhalf.
  { intros z Hz. rewrite shiftr_32. split; [apply Z.div_pos; lia|apply Z.div_lt_upper_bound; lia]. }
  pose proof (Hhalf A' HA') as HhA. pose proof (Hhalf B' HB') as HhB.
  rewrite ?lo64_u64, ?lo32_u32, (u64_small (Z.shiftr A' 32 + Z.shiftr B' 32)) by (unfold is_u64; lia). set (Q := Z.shiftr A' 32 + Z.shiftr B' 32) in *.
  pose proof (split_32 Q) as HsQ. pose proof (u32_range Q) as HuQ. unfold is_u32 in HuQ.
  set (tot := val out + R b * Q).
  assert (2 ^ 32 * tot = c0 + 2 ^ 32 * val c + a * (b0 + 2 ^ 32 * val b) + d0 * (n0 + 2 ^ 32 * val ns)) as Htot by (unfold tot; lia).
  assert (R (n0 :: ns) = 2 ^ 32 * R b) as HR by (rewrite R_cons, (R_length ns b) by congruence; done).
  assert (val (out ++ [u32 Q]) + R (n0 :: ns) * Z.shiftr Q 32 = tot) as Hout.
  { unfold tot. rewrite val_app. cbn [val]. rewrite (R_length out b), HR by done. lia. }
  assert (words (out ++ [u32 Q])) as Hwo.
  { apply Forall_app. split; [done|]. constructor; [apply u32_range|constructor]. }
  assert (length (out ++ [u32 Q]) = length (n0 :: ns)) as Hlo by (rewrite length_app; cbn; lia).
  assert (tot < R (n0 :: ns) + (n0 + 2 ^ 32 * val ns)) as Hbound.
  { assert (a * (b0 + 2 ^ 32 * val b) ≤ (2 ^ 32 - 1) * (R (n0 :: ns) - 1)) by nia.
    assert (d0 * (n0 + 2 ^ 32 * val ns) ≤ (2 ^ 32 - 1) * (n0 + 2 ^ 32 * val ns)) by nia. lia. }
  pose proof (val_range _ Hwo) as Hvo. rewrite (R_length _ (n0 :: ns)) in Hvo by done.
  destruct (Z.eqb_spec (Z.shiftr Q 32) 0) as [Hz|Hz].
  - split; [by split|]. exists d0. rewrite Hz in Hout. lia.
  - assert (Z.shiftr Q 32 = 1) as H1.
    { pose proof (Hhalf Q). assert (0 ≤ Q < 2 ^ 64) by lia. assert (Z.shiftr Q 32 < 2); [|lia]. nia. }
    assert (length (out ++ [u32 Q]) = length (n key)) as Hlk by by rewrite Hn.
    assert (words (n key)) as Hwk by apply (ko_words _ Hkey).
    split; [split; [apply subM_loop_words|rewrite <-Hlo; apply subM_loop_length; by rewrite Hn]|].
    rewrite subM_val by done. rewrite (R_length _ (n0 :: ns)) by done. rewrite Hn. cbn [val]. exists (d0 - 2 ^ 32).
    replace (val (out ++ [u32 Q]) - (n0 + 2 ^ 32 * val ns)) with (tot - (n0 + 2 ^ 32 * val ns) + -1 * R (n0 :: ns)) by lia.
    rewrite Z_mod_plus_full, Z.mod_small by lia. lia.
Qed.
Definition cong (x y : Z) : Prop := (N | x - y).
Lemma cong_mod x y : cong x y ↔ x `mod` N = y `mod` N.
Proof.
  pose proof N_pos as HN. unfold cong. rewrite <-Z.mod_divide by lia. split.
  - intros Hd. rewrite <-(Z.sub_add y x), <-Zplus_mod_idemp_l, Hd. done.
  - intros Hm. by rewrite Zminus_mod, Hm, Z.sub_diag.
Qed.
#[local] Instance cong_equiv : Equivalence cong.
Proof.
  split; [intros x; exists 0; lia|intros x y [k Hk]; exists (- k); lia|intros x y z [k Hk] [k' Hk']; exists (k + k'); lia].
Qed.
#[local] Instance cong_mul : Proper (cong ==> cong ==> cong) Z.mul.
Proof. intros x x' [k Hk] y y' [k' Hk']. exists (k * y + x' * k'). nia. Qed.
Lemma cong_cancel x y : cong (RR * x) (RR * y) → cong x y.
Proof.
  unfold cong. rewrite <-Z.mul_sub_distr_l. intros Hd. apply Z.gauss with RR; [done|].
  destruct (ko_inv _ Hkey) as (n0 & ns & Hn & Hinv). apply Z.mod_divide in Hinv as [q Hq]; [|lia].
  apply Z.coprime_pow_r; [pose proof (zlen_nonneg (n key)); lia|]. apply Z.bezout_1_gcd. rewrite Hn. cbn [val].
  exists (- n0inv key), (2 ^ 31 * q + n0inv key * 2 ^ 31 * val ns). lia.
Qed.
Lemma val_snoc p x : val (p ++ [x]) = val p + R p * x.
Proof. rewrite val_app. cbn [val]. lia. Qed.
Lemma R_snoc (p : list Z) x : R (p ++ [x]) = R p * 2 ^ 32.
Proof. rewrite (R_length _ (x :: p)) by (rewrite length_app; cbn; lia). rewrite R_cons. lia. Qed.
Lemma montMul_loop a b : fits b → ∀ p c, words a → fits c → cong (R p * val c) (val p * val b) →
  fits (foldl (fun c ai => montMulAdd key c ai b) c a) ∧
  cong (R (p ++ a) * val (foldl (fun c ai => montMulAdd key c ai b) c a)) (val (p ++ a) * val b).
Proof.
  intros Hb. induction a as [|ai a IH]; intros p c Ha Hc Hk; [by rewrite app_nil_r|].
  apply Forall_cons in Ha as [Hai Ha]. destruct (montMulAdd_spec c ai b Hc Hai Hb) as (Hc' & k' & Hk').
  cbn [foldl]. rewrite (cons_middle ai p a), (assoc_L (++)). apply IH; [done|done|]. rewrite R_snoc, val_snoc.
  destruct Hk as [k Hk]. exists (k + R p * k'). nia.
Qed.
Lemma montMul_spec a b : fits a → fits b → fits (montMul key a b) ∧ cong (RR * val (montMul key a b)) (val a * val b).
Proof.
  intros Ha Hb. pose proof Ha as [Haw Hal]. rewrite <-(R_length a) by done. apply (montMul_loop a b Hb []); [done| |].
  - split; [apply words_zeros|]. rewrite length_replicate, (ko_len _ Hkey). unfold zlen. lia.
  - rewrite val_zeros. cbn [val]. reflexivity.
Qed.

(** *** The power *)

Lemma squared a y : fits a → cong (val a) (y * RR) → fits (montMul key a a) ∧ cong (val (montMul key a a)) (y * y * RR).
Proof.
  intros Ha Hy. destruct (montMul_spec a a Ha Ha) as [Hf Hm]. split; [done|]. apply cong_cancel. rewrite Hm, Hy.
  replace (y * RR * (y * RR)) with (RR * (y * y * RR)) by lia. reflexivity.
Qed.
Lemma squared_twice a y : fits a → cong (val a) (y * RR) → fits (square_twice key a) ∧ cong (val (square_twice key a)) (y ^ 4 * RR).
Proof.
  intros Ha Hy. destruct (squared a y Ha Hy) as [Hf Hm]. destruct (squared _ _ Hf Hm) as [Hf' Hm']. split; [done|].
  unfold square_twice. rewrite Hm'. replace (y ^ 4) with (y * y * (y * y)) by lia. reflexivity.
Qed.
Lemma squarings k a y : fits a → cong (val a) (y * RR) → fits (Nat.iter k (square_twice key) a) ∧
  cong (val (Nat.iter k (square_twice key) a)) (y ^ (4 ^ Z.of_nat k) * RR).
Proof.
  intros Ha Hy. induction k as [|k [Hf Hm]]; [cbn [Nat.iter]; change (4 ^ Z.of_nat 0) with 1; by rewrite Z.pow_1_r|].
  cbn [Nat.iter nat_rect]. destruct (squared_twice _ _ Hf Hm) as [Hf' Hm']. split; [done|].
  rewrite Nat2Z.inj_succ, Z.pow_succ_r, (Z.mul_comm 4), Z.pow_mul_r by lia. exact Hm'.
Qed.
Lemma reduced_spec a : fits a → fits (reduced key a) ∧ val (reduced key a) = val a `mod` N.
Proof.
  intros Ha. pose proof Ha as [Haw Hal]. pose proof (ko_words _ Hkey) as Hn. pose proof (ko_top _ Hkey). pose proof N_range.
  pose proof (fits_range a Ha). unfold reduced. rewrite geM_spec by done. destruct (Z.leb_spec N (val a)).
  - split; [split; [apply subM_loop_words|unfold subM; by rewrite subM_loop_length]|]. rewrite subM_val by done.
    rewrite (R_length a (n key)), Z.mod_small by (done || lia). replace (val a) with ((val a - N) + 1 * N) at 2 by lia.
    rewrite Z_mod_plus_full, Z.mod_small by lia. done.
  - split; [done|]. rewrite Z.mod_small by lia. done.
Qed.
Lemma power_spec a : fits a → fits (power key a) ∧ val (power key a) = val a ^ 65537 `mod` N.
Proof.
  intros Ha. assert (fits (rr key)) as Hrr by (split; [apply (ko_rr_words _ Hkey)|apply (ko_rr_len _ Hkey)]).
  destruct (montMul_spec a (rr key) Ha Hrr) as [Hf Hm].
  assert (cong (val (montMul key a (rr key))) (val a * RR)) as H1.
  { apply cong_cancel. rewrite Hm. pose proof (proj2 (cong_mod _ _) (ko_rr _ Hkey)) as Hr. rewrite Hr.
    replace (val a * (RR * RR)) with (RR * (val a * RR)) by lia. reflexivity. }
  destruct (squarings 8 _ _ Hf H1) as [Hf' H2]. destruct (montMul_spec _ a Hf' Ha) as [Hf3 H3].
  destruct (reduced_spec _ Hf3) as [Hf4 H4]. unfold power. split; [exact Hf4|]. rewrite H4. apply cong_mod, cong_cancel. rewrite H3, H2.
  change (4 ^ Z.of_nat 8) with 65536. replace 65537 with (Z.succ 65536) by done. rewrite Z.pow_succ_r by lia.
  replace (val a ^ 65536 * RR * val a) with (RR * (val a * val a ^ 65536)) by lia. reflexivity.
Qed.
End key.

(** ** Bytes *)

Definition is_byte (z : Z) : Prop := 0 ≤ z < 256.
Abbreviation octets := (Forall is_byte).
(** The number that bytes in big-endian order are. *)
Definition be (b : list Z) : Z := foldl (fun acc x => 256 * acc + x) 0 b.
Lemma be_from acc b : foldl (fun acc x => 256 * acc + x) acc b = acc * 2 ^ (8 * zlen b) + be b.
Proof.
  unfold be. revert acc. induction b as [|x b IH]; intros acc; [cbn; change (zlen []) with 0; lia|].
  cbn [foldl]. rewrite IH, (IH (256 * 0 + x)), zlen_cons.
  replace (8 * (1 + zlen b)) with (8 + 8 * zlen b) by lia. rewrite Z.pow_add_r by (pose proof (zlen_nonneg b); lia). lia.
Qed.
Lemma be_cons x b : be (x :: b) = x * 2 ^ (8 * zlen b) + be b.
Proof. unfold be at 1. cbn [foldl]. rewrite be_from. lia. Qed.
Lemma be_app a b : be (a ++ b) = be a * 2 ^ (8 * zlen b) + be b.
Proof. unfold be at 1. rewrite foldl_app, be_from. done. Qed.
Lemma be_range b : octets b → 0 ≤ be b < 2 ^ (8 * zlen b).
Proof.
  induction 1 as [|x b Hx _ IH]; [done|]. rewrite be_cons, zlen_cons. unfold is_byte in Hx.
  replace (8 * (1 + zlen b)) with (8 + 8 * zlen b) by lia. rewrite Z.pow_add_r by (pose proof (zlen_nonneg b); lia).
  change (2 ^ 8) with 256. nia.
Qed.
Lemma be_inj a b : octets a → octets b → length a = length b → be a = be b → a = b.
Proof.
  intros Ha. revert b. induction Ha as [|x a Hx Ha IH]; intros [|y b] Hb Hl; try done.
  apply Forall_cons in Hb as [Hy Hb]. injection Hl as Hl. rewrite !be_cons. pose proof (be_range a Ha) as Hra. pose proof (be_range b Hb) as Hrb.
  unfold zlen in *. rewrite Hl in *. intros Heq. assert (x = y) as -> by nia. f_equal. apply IH; [done|done|lia].
Qed.
Lemma lor_shiftl x y k : 0 ≤ k → 0 ≤ y < 2 ^ k → Z.lor (Z.shiftl x k) y = x * 2 ^ k + y.
Proof.
  intros Hk Hy. rewrite <-Z.shiftl_mul_pow2 by done.
  pose proof (Z.add_lor_land (Z.shiftl x k) y) as Hsum. replace (Z.land (Z.shiftl x k) y) with 0 in Hsum; [lia|].
  symmetry. apply Z.bits_inj'. intros i Hi. rewrite Z.land_spec, Z.bits_0. destruct (Z.lt_ge_cases i k).
  - by rewrite Z.shiftl_spec_low.
  - rewrite <-(Z.mod_small y (2 ^ k)) by done. rewrite Z.mod_pow2_bits_high, andb_false_r by lia. done.
Qed.
Lemma word_of_bytes b3 b2 b1 b0 : is_byte b3 → is_byte b2 → is_byte b1 → is_byte b0 →
  Z.lor (Z.lor (Z.lor (Z.shiftl b3 24) (Z.shiftl b2 16)) (Z.shiftl b1 8)) b0 = be [b3; b2; b1; b0].
Proof.
  unfold is_byte. intros H3 H2 H1 H0.
  replace (Z.shiftl b3 24) with (Z.shiftl (Z.shiftl b3 8) 16) by by rewrite Z.shiftl_shiftl.
  rewrite <-Z.shiftl_lor, (lor_shiftl b3 b2 8) by lia. set (u := b3 * 2 ^ 8 + b2).
  replace (Z.shiftl u 16) with (Z.shiftl (Z.shiftl u 8) 8) by by rewrite Z.shiftl_shiftl.
  rewrite <-Z.shiftl_lor, (lor_shiftl u b1 8), lor_shiftl by lia. unfold be, u. cbn [foldl]. lia.
Qed.
Lemma words_of_bytes_spec k b : length b = (4 * k)%nat → octets b →
  words (words_of_bytes b) ∧ length (words_of_bytes b) = k ∧ val (reverse (words_of_bytes b)) = be b.
Proof.
  revert b. induction k as [|k IH]; intros b Hl Hb.
  { destruct b; [|done]. split; [constructor|by split]. }
  do 4 (destruct b as [|? b]; [cbn in Hl; lia|]). do 4 (apply Forall_cons in Hb as [? Hb]).
  destruct (IH b) as (Hw & Hlw & Hv); [cbn in Hl; lia|done|]. cbn [words_of_bytes]. rewrite word_of_bytes by done.
  split; [|split; [cbn; by rewrite Hlw|]].
  - constructor; [|done]. apply (be_range [_; _; _; _]). by repeat (apply Forall_cons_2; [done|]).
  - rewrite reverse_cons, val_app, Hv. cbn [val]. unfold R, zlen. rewrite length_reverse, Hlw.
    change (?w :: ?x :: ?y :: ?z :: b) with ([w; x; y; z] ++ b). rewrite be_app. unfold zlen.
    assert (length b = (4 * k)%nat) as -> by (cbn in Hl; lia). replace (8 * Z.of_nat (4 * k)) with (32 * Z.of_nat k) by lia. lia.
Qed.
Lemma bytes_of_word_spec w : is_u32 w → octets (bytes_of_word w) ∧ be (bytes_of_word w) = w.
Proof.
  intros Hw. unfold is_u32 in Hw. unfold bytes_of_word. split.
  - repeat constructor; unfold is_byte; apply Z.mod_pos_bound; lia.
  - unfold be. cbn [foldl]. rewrite !Z.shiftr_div_pow2 by done. rewrite (Z.mod_small (w / 2 ^ 24)) by (split; [apply Z.div_pos; lia|apply Z.div_lt_upper_bound; lia]).
    Z.div_mod_to_equations. lia.
Qed.
Lemma bytes_of_words_spec w : words w →
  octets (bytes_of_words w) ∧ length (bytes_of_words w) = (4 * length w)%nat ∧ be (bytes_of_words w) = val (reverse w).
Proof.
  induction 1 as [|x w Hx _ (IH1 & IH2 & IH3)]; [split; [constructor|done]|]. destruct (bytes_of_word_spec x Hx) as [Hb Hv].
  unfold bytes_of_words in *. cbn [mbind list_bind]. split; [by apply Forall_app|]. split; [cbn in *; lia|].
  rewrite reverse_cons, val_app, be_app, IH3, Hv. cbn [val]. unfold zlen, R. rewrite IH2. unfold zlen. rewrite length_reverse.
  replace (8 * Z.of_nat (4 * length w)) with (32 * Z.of_nat (length w)) by lia. lia.
Qed.
(** In the place of a number its 65537th power modulo the key's modulus. *)
Lemma modpowF4_spec key sig : key_ok key → length sig = (4 * length (n key))%nat → octets sig →
  octets (modpowF4 key sig) ∧ length (modpowF4 key sig) = length sig ∧ be (modpowF4 key sig) = be sig ^ 65537 `mod` val (n key).
Proof.
  intros Hk Hl Hs. destruct (words_of_bytes_spec _ _ Hl Hs) as (Hw & Hlw & Hv).
  assert (fits key (reverse (words_of_bytes sig))) as Ha by (split; [by apply Forall_reverse|by rewrite length_reverse]).
  destruct (power_spec key Hk _ Ha) as [[Hpw Hpl] Hpv]. unfold modpowF4.
  set (res := power key _) in *. destruct (bytes_of_words_spec (reverse res)) as (Hb & Hbl & Hbv); [by apply Forall_reverse|].
  split; [exact Hb|]. split; [rewrite Hbl, length_reverse, Hpl; clear Hpv Hbv; lia|].
  rewrite Hbv, reverse_involutive, Hpv, Hv. reflexivity.
Qed.

(** ** What is accepted *)

Lemma all_equal_take a b : (length a ≤ length b)%nat → all_equal a b = bool_decide (a = take (length a) b).
Proof.
  revert b. induction a as [|x a IH]; intros [|y b] Hl; cbn in Hl; try lia; [done|done|]. cbn [all_equal length take]. rewrite IH by lia.
  destruct (Z.eqb_spec x y) as [->|Hne]; [|symmetry; apply bool_decide_eq_false_2; congruence].
  apply bool_decide_ext. split; congruence.
Qed.
Lemma algorithm_cases (P : Z → Prop) : (∀ k, (k < 12)%nat → P (Z.of_nat k)) → ∀ i, 0 ≤ i < kNumAlgorithms → P i.
Proof. intros HP i Hi. unfold kNumAlgorithms in Hi. rewrite <-(Z2Nat.id i) by lia. apply HP. lia. Qed.
Lemma tables_agree i : 0 ≤ i < kNumAlgorithms →
  zlen (padding_map i) = padding_size_map i ∧ 0 ≤ padding_size_map i ∧ 0 ≤ hash_size_map i ∧ octets (padding_map i) ∧
  padding_size_map i + hash_size_map i = 4 * siglen_map i ∧ 0 < siglen_map i < 2 ^ 16.
Proof.
  revert i. apply (algorithm_cases (fun i => _)). intros k Hk. apply (bool_decide_unpack _).
  do 12 (destruct k as [|k]; [vm_compute; exact Logic.I|]). lia.
Qed.
(** The encoded message of PKCS #1 v1.5: padding, DigestInfo, digest. *)
Definition encoded (algorithm : Z) (digest : list Z) : list Z := padding_map algorithm ++ digest.

Lemma RSA_verify_spec key sig sig_type hash : key_ok key → 0 ≤ sig_type < kNumAlgorithms → len key = siglen_map sig_type →
  zlen sig = 4 * len key → octets sig → hash_size_map sig_type ≤ zlen hash → octets hash →
  RSA_verify key sig (zlen sig) sig_type hash =
    Val (if decide (be sig ^ 65537 `mod` val (n key) = be (encoded sig_type (take (Z.to_nat (hash_size_map sig_type)) hash)))
         then 1 else 0).
Proof.
  intros Hk Ht Hlen Hsl Hs Hhl Hh. destruct (tables_agree sig_type Ht) as (Hpl & Hp0 & Hh0 & Hpo & Hsum & Hsz).
  unfold RSA_verify. rewrite Hsl, (Z.mul_comm 4), Z.eqb_refl. cbn [negb].
  replace (kNumAlgorithms <=? sig_type) with false by (symmetry; apply Z.leb_gt; lia). rewrite Hlen, Z.eqb_refl. cbn [negb].
  pose proof (ko_len _ Hk) as Hn. pose proof (ko_rr_len _ Hk) as Hrr.
  rewrite bool_decide_eq_true_2 by (unfold zlen in *; rewrite ?Hrr; lia). cbn [negb].
  rewrite take_ge by (unfold zlen in Hsl; lia).
  destruct (modpowF4_spec key sig Hk) as (Hmo & Hml & Hmv); [unfold zlen in *; lia|done|]. set (buf := modpowF4 key sig) in *.
  do 2 f_equal. rewrite <-Hmv. clear Hmv. set (digest := take _ hash).
  assert (octets digest) as Hdo by by apply Forall_take.
  assert (length digest = Z.to_nat (hash_size_map sig_type)) as Hdl by (unfold digest; rewrite length_take; unfold zlen in *; lia).
  assert (length buf = (length (padding_map sig_type) + length digest)%nat) as Hbl by (unfold zlen in *; lia).
  assert (Z.to_nat (padding_size_map sig_type) = length (padding_map sig_type)) as Hpn by (unfold zlen in *; lia).
  unfold check_padding. rewrite Hpn.
  rewrite !all_equal_take by (rewrite ?length_take, ?length_drop; unfold zlen in *; lia).
  rewrite <-bool_decide_and, length_take, length_drop, (take_ge (padding_map sig_type)) by lia.
  replace (length buf - length (padding_map sig_type))%nat with (Z.to_nat (hash_size_map sig_type)) by lia. fold digest.
  unfold encoded. case_bool_decide as Hc; case_decide as Hd; try done.
  - destruct Hc as [Hc1 Hc2]. destruct Hd. by rewrite <-(take_drop (length (padding_map sig_type)) buf), Hc1, Hc2.
  - destruct Hc. apply be_inj in Hd as ->; [by rewrite take_app_length, drop_app_length|done|by apply Forall_app|by rewrite length_app].
Qed.

(** C5. For a key that is fit for use, a signature of the key's length and a buffer with the digest of
    a message: RSA_verify answers, and it accepts exactly the signatures whose 65537th power modulo
    the key's modulus is the padded digest. *)
Theorem RSA_verify_accepts key sig sig_type hash : key_ok key → 0 ≤ sig_type < kNumAlgorithms → len key = siglen_map sig_type →
  zlen sig = 4 * len key → octets sig → hash_size_map sig_type ≤ zlen hash → octets hash →
  RSA_verify key sig (zlen sig) sig_type hash =
    Val (if decide (be sig ^ 65537 `mod` val (n key) = be (encoded sig_type (take (Z.to_nat (hash_size_map sig_type)) hash)))
         then 1 else 0).
Proof. apply RSA_verify_spec. Qed.

(** ** Keys in bytes *)

Lemma words_le_length k b : length b = (4 * k)%nat → length (words_le b) = k.
Proof.
  revert b. induction k as [|k IH]; intros b Hl; [by destruct b|].
  do 4 (destruct b as [|? b]; [cbn in Hl; lia|]). cbn [words_le length]. rewrite IH by (cbn in Hl; lia). done.
Qed.
Lemma StatefulMemcpy_some c st r st' : StatefulMemcpy c st = Val (Some r, st') →
  0 ≤ c ∧ c ≤ remaining_len st ∧ zlen r = c ∧ remaining_len st' = remaining_len st - c.
Proof.
  unfold StatefulMemcpy. destruct (Z.ltb_spec (remaining_len st) c); [done|].
  destruct (Z.ltb_spec c 0); [done|]. cbn [orb]. destruct (Z.ltb_spec (zlen (remaining_buf st)) c); [done|].
  intros [= <- <-]. cbn. unfold zlen in *. rewrite length_take. lia.
Qed.
Lemma StatefulMemcpy_cases c st r st' : StatefulMemcpy c st = Val (r, st') →
  (r = None ∧ remaining_len st' = -1 ∧ remaining_len st < c) ∨
  (∃ bs, r = Some bs ∧ 0 ≤ c ∧ zlen bs = c ∧ remaining_len st' = remaining_len st - c ∧ c ≤ remaining_len st).
Proof.
  intros Hrun. destruct r as [bs|].
  - right. exists bs. destruct (StatefulMemcpy_some _ _ _ _ Hrun) as (?&?&?&?). by repeat split.
  - left. revert Hrun. unfold StatefulMemcpy. destruct (Z.ltb_spec (remaining_len st) c); [by intros [= <-]|]. by destruct (_ || _).
Qed.
(** A key read from a buffer of the size of the algorithm's keys has arrays of the algorithm's
    size, whatever it says of its length. *)
Lemma parsed_key_fits buf alg key : 0 ≤ alg < kNumAlgorithms → RSAPublicKeyFromBuf buf (RSAProcessedKeySize alg) = Val (Some key) →
  zlen (n key) = siglen_map alg ∧ zlen (rr key) = siglen_map alg.
Proof.
  intros Ha. destruct (tables_agree alg Ha) as (_ & _ & _ & _ & _ & Hsz). unfold RSAPublicKeyFromBuf, RSAProcessedKeySize. unfold mbind at 1, M_bind at 1.
  destruct (StatefulMemcpy 4 _) as [[[lb|] st1]|] eqn:E1; [|done|done].
  apply StatefulMemcpy_some in E1 as (_ & _ & _ & E1). cbn [remaining_len] in E1. cbv zeta in E1.
  unfold Malloc, CHECK. destruct (u32 _ <? 2 ^ 31); [|done]. unfold mbind, M_bind, mret, M_ret, mget.
  set (kl := i32 (i32 (le lb) * 4)).
  destruct (StatefulMemcpy 4 st1) as [[nb st2]|] eqn:E2; [|done]. apply StatefulMemcpy_cases in E2.
  destruct (StatefulMemcpy kl st2) as [[nn st3]|] eqn:E3; [|done]. apply StatefulMemcpy_cases in E3.
  destruct (StatefulMemcpy kl st3) as [[rb st4]|] eqn:E4; [|done]. apply StatefulMemcpy_cases in E4.
  destruct (Z.eqb_spec (remaining_len st4) 0) as [Hz|]; [|done]. cbn [negb]. intros [= <-]. cbn [n rr].
  destruct E4 as [(_ & ? & _)|(b4 & -> & ? & Hl4 & ? & ?)]; [lia|]. destruct E3 as [(_ & ? & _)|(b3 & -> & ? & Hl3 & ? & ?)]; [lia|].
  destruct E2 as [(_ & ? & _)|(b2 & -> & ? & Hl2 & ? & ?)]; [lia|]. cbn [default id].
  unfold zlen in *. cbn [id]. rewrite !(words_le_length (Z.to_nat (siglen_map alg))) by lia. lia.
Qed.
(** ... so the check of a signature with it stays inside its arrays. *)
Lemma RSA_verify_total buf alg key sig hash : 0 ≤ alg < kNumAlgorithms →
  RSAPublicKeyFromBuf buf (RSAProcessedKeySize alg) = Val (Some key) →
  4 * siglen_map alg ≤ zlen sig → hash_size_map alg ≤ zlen hash →
  ∃ b, RSA_verify key sig (4 * siglen_map alg) alg hash = Val b ∧ (b = 0 ∨ b = 1).
Proof.
  intros Ha Hk Hs Hh. destruct (parsed_key_fits _ _ _ Ha Hk) as [Hn Hr]. unfold RSA_verify.
  destruct (negb (u32 _ =? _)); [by exists 0; auto|]. replace (kNumAlgorithms <=? alg) with false by (symmetry; apply Z.leb_gt; lia).
  destruct (Z.eqb_spec (len key) (siglen_map alg)) as [Hl|]; cbn [negb]; [|by exists 0; auto].
  rewrite bool_decide_eq_true_2 by (by rewrite Hl). cbn [negb]. destruct (check_padding _ _ _); eauto.
Qed.

(** ** The key and the valid signature of tests/rsa_padding_test.c *)

Module TestKey.
Definition hex_digit (c : ascii) : Z :=
  let v := Z.of_N (N_of_ascii c) in if v <? 58 then v - 48 else v - 87.
Fixpoint hex (s : string) : list Z :=
  match s with
  | String a (String b s) => 16 * hex_digit a + hex_digit b :: hex s
  | _ => []
  end.
Definition keyb : list Z := hex (
  "20000000472d14c189932c426c88baa424a99c7c7e67aafe6d32be3947bbb56f2c7cac1c4ec2f1102bcacf4eeed99bd24465611044de085c"
   ++ "40b8b3ddd64f8d158d0843c404c8ce3ae5264ef206702b494a1bdc5d581f413c41deaf46bab0dc3975ab2f916d38c3282696c41976722392"
   ++ "4b28a5c49fd539f5b07a3c57de15f2519272ab75a26988d266e5659f08a08c93171abb6dd889f94fba6b484f85b27eed3d6eaa43094153ad"
   ++ "515c44f4e0d6fa1d499487cee8b95c249217afc30e3ee087c1084cb58189f6c5006d426bcce794aa26c1445c1508f14a6f9d977f5279f8dc"
   ++ "8b6a0aa3acdaba9048255cb8c897093a3cbf5d4c393eebb835027898af071feee7a8ff4afc116fb0")%string.
Definition sha1_hash : list Z := hex "9069ca78e7450a285173431b3e52c5c25299e473".
Definition signature_0 : list Z := hex (
  "affc7ab1c47c1af671dd5b7f2e7900e8e1d4a3a25e31925355fb5c754117f698117ee1c1093372e3c616bfb45a4c37a9c10b576660ce3b62"
   ++ "78641724a13ca1b5430041352b3c70dec950e9147b0207201ae7ebc07f32c448ad9512f09090a63b0b2c5d9dcfb86831425c384aa62420b6"
   ++ "56b6473a3cfc7927b5b54a6a249f811b")%string.
Definition no_key : RSAPublicKey := mkKey 0 0 [] [].
Definition key : RSAPublicKey :=
  match RSAPublicKeyFromBuf keyb (RSAProcessedKeySize 0) with Val (Some key) => key | _ => no_key end.
Lemma key_found : RSAPublicKeyFromBuf keyb (RSAProcessedKeySize 0) = Val (Some key).
Proof. vm_compute. reflexivity. Qed.
Lemma key_sound : key_ok key.
Proof.
  split; try (apply (bool_decide_unpack _); vm_compute; exact Logic.I).
  exists (nth 0 (n key) 0), (tail (n key)). split; vm_compute; reflexivity.
Qed.
End TestKey.
Import TestKey.
Lemma test_octets : octets signature_0 ∧ octets sha1_hash.
Proof. apply (bool_decide_unpack _). vm_compute. exact Logic.I. Qed.
Lemma key_length : len key = siglen_map 0 ∧ zlen signature_0 = 4 * len key ∧ hash_size_map 0 ≤ zlen sha1_hash.
Proof. apply (bool_decide_unpack _). vm_compute. exact Logic.I. Qed.
Lemma test_length : zlen signature_0 = 128.
Proof. by apply (bool_decide_unpack _). Qed.
Lemma first_algorithm : 0 ≤ 0 < kNumAlgorithms.
Proof. done. Qed.
Lemma signature_0_accepted : RSA_verify key signature_0 128 0 sha1_hash = Val 1.
Proof. vm_compute. reflexivity. Qed.
Lemma RSA_verify_accepts_witness :
  be signature_0 ^ 65537 `mod` val (n key) = be (encoded 0 (take (Z.to_nat (hash_size_map 0)) sha1_hash)).
Proof.
  destruct test_octets as (Hs & Hh). destruct key_length as (Hl & Hsl & Hhl).
  pose proof (RSA_verify_accepts key signature_0 0 sha1_hash key_sound first_algorithm Hl Hsl Hs Hhl Hh) as Hv.
  rewrite test_length, signature_0_accepted in Hv. revert Hv. case_decide as Hd; [intros _; exact Hd|discriminate].
Defined.
