(* ===== verification/Sha2.v ===== *)
(** * SHA-256 and SHA-512 of the verified boot: vboot_reference/crypto/sha2.c.

    The two hash functions have the same code over words of another width; [Variant] is
    what differs.  Bytes and words are integers; memory that the code does not initialise
    may hold anything.  [transform] is the rolled loop, [transform_block_unrolled] what
    UNROLL_LOOPS selects. *)

From Stdlib Require Import Ascii.
From S2P Require Import Prelude Rsa.

Record Variant := mkVariant {
  bits : Z;                                     (* of a word *)
  word_bytes : nat;
  BLOCK_SIZE : Z;
  last_data : Z;                                (* what of the last block is left beside the padding *)
  rounds : nat;
  h0 : list Z;
  k : list Z;
  F1 : Z * Z * Z; F2 : Z * Z * Z; F3 : Z * Z * Z; F4 : Z * Z * Z
}.
Record CTX := mkCTX { h : list Z; tot_len : Z; len : Z; block : list Z; buf : list Z }.
#[global] Instance eta_CTX : Eta CTX := fun r => mkCTX (h r) (tot_len r) (len r) (block r) (buf r).

(** memcpy(&dst[off], src, count) and memset. *)
Definition memcpy (dst : list Z) (off : Z) (src : list Z) (count : Z) : list Z :=
  take (Z.to_nat off) dst ++ take (Z.to_nat count) src ++ drop (Z.to_nat (off + count)) dst.
Definition memset (dst : list Z) (off value count : Z) : list Z :=
  memcpy dst off (replicate (Z.to_nat count) value) count.

(** Big-endian words: PACK32 and PACK64, UNPACK32 and UNPACK64. *)
Fixpoint PACK_from (shift : Z) (str : list Z) : Z :=
  match str with [] => 0 | b :: str => Z.lor (PACK_from (shift - 8) str) (Z.shiftl b shift) end.
Definition PACK (bytes : nat) (str : list Z) : Z := PACK_from (8 * (Z.of_nat bytes - 1)) (take bytes str).
Definition UNPACK (bytes : nat) (x : Z) : list Z :=
  (fun i => Z.land (Z.shiftr x (8 * (Z.of_nat bytes - 1 - Z.of_nat i))) 255) <$> seq 0 bytes.

Section variant.
Context (V : Variant).
Definition wrap (z : Z) : Z := Z.land z (Z.ones (bits V)).
Definition SHFR (x n : Z) : Z := Z.shiftr x n.
Definition ROTR (x n : Z) : Z := Z.lor (Z.shiftr x n) (wrap (Z.shiftl x (bits V - n))).
Definition CH (x y z : Z) : Z := Z.lxor (Z.land x y) (Z.land (Z.lnot x) z).
Definition MAJ (x y z : Z) : Z := Z.lxor (Z.lxor (Z.land x y) (Z.land x z)) (Z.land y z).
(** The F1 and F2 macros, and F3 and F4. *)
Definition rotations (r : Z * Z * Z) (x : Z) : Z :=
  let '(i, j, l) := r in Z.lxor (Z.lxor (ROTR x i) (ROTR x j)) (ROTR x l).
Definition rotations_shift (r : Z * Z * Z) (x : Z) : Z :=
  let '(i, j, l) := r in Z.lxor (Z.lxor (ROTR x i) (ROTR x j)) (SHFR x l).

(** w[j] = F4(w[j - 2]) + w[j - 7] + F3(w[j - 15]) + w[j - 16] *)
Definition SCR (w : list Z) (j : nat) : Z :=
  wrap (rotations_shift (F4 V) (w !!! (j - 2)%nat) + w !!! (j - 7)%nat +
        rotations_shift (F3 V) (w !!! (j - 15)%nat) + w !!! (j - 16)%nat).
Fixpoint load (count : nat) (sub_block : list Z) : list Z :=
  match count with
  | O => []
  | Datatypes.S count => PACK (word_bytes V) sub_block :: load count (drop (word_bytes V) sub_block)
  end.
Definition schedule (sub_block : list Z) : list Z :=
  Nat.iter (rounds V - 16) (fun w => w ++ [SCR w (length w)]) (load 16 sub_block).
Definition round (kw : Z * Z) (wv : list Z) : list Z :=
  match wv with
  | [a; b; c; d; e; f; g; hh] =>
      let t1 := wrap (hh + rotations (F2 V) e + CH e f g + kw.1 + kw.2) in
      let t2 := wrap (rotations (F1 V) a + MAJ a b c) in
      [wrap (t1 + t2); a; b; c; wrap (d + t1); e; f; g]
  | _ => wv
  end.
Definition add_words (hs wv : list Z) : list Z := zip_with (fun x y => wrap (x + y)) hs wv.
Definition transform_block (hs sub_block : list Z) : list Z :=
  add_words hs (foldl (fun wv kw => round kw wv) hs (zip (k V) (schedule sub_block))).
Fixpoint transform (hs message : list Z) (block_nb : nat) : list Z :=
  match block_nb with
  | O => hs
  | Datatypes.S block_nb =>
      transform (transform_block hs message) (drop (Z.to_nat (BLOCK_SIZE V)) message) block_nb
  end.

(** SHA256_EXP(a, b, c, d, e, f, g, h, j) *)
Definition EXP (ix : nat * nat * nat * nat * nat * nat * nat * nat) (kw : Z * Z) (wv : list Z) : list Z :=
  let '(a, b, c, d, e, f, g, hh) := ix in
  let t1 := wrap (wv !!! hh + rotations (F2 V) (wv !!! e) + CH (wv !!! e) (wv !!! f) (wv !!! g) + kw.1 + kw.2) in
  let t2 := wrap (rotations (F1 V) (wv !!! a) + MAJ (wv !!! a) (wv !!! b) (wv !!! c)) in
  let wv := <[d := wrap (wv !!! d + t1)]> wv in
  <[hh := wrap (t1 + t2)]> wv.
Definition turns : list (nat * nat * nat * nat * nat * nat * nat * nat) :=
  [(0, 1, 2, 3, 4, 5, 6, 7); (7, 0, 1, 2, 3, 4, 5, 6); (6, 7, 0, 1, 2, 3, 4, 5); (5, 6, 7, 0, 1, 2, 3, 4);
   (4, 5, 6, 7, 0, 1, 2, 3); (3, 4, 5, 6, 7, 0, 1, 2); (2, 3, 4, 5, 6, 7, 0, 1); (1, 2, 3, 4, 5, 6, 7, 0)]%nat.
Definition all_turns : list (nat * nat * nat * nat * nat * nat * nat * nat) :=
  concat (replicate (rounds V / 8) turns).
Definition transform_block_unrolled (hs sub_block : list Z) : list Z :=
  add_words hs (foldl (fun wv ikw => EXP ikw.1 ikw.2 wv) hs (zip all_turns (zip (k V) (schedule sub_block)))).

(** ** init, update, final *)

Definition init (ctx : CTX) : CTX := ctx <| h := h0 V |> <| len := 0 |> <| tot_len := 0 |>.
(** [data] is what [data] points to, [len] bytes. *)
Definition update (ctx : CTX) (data : list Z) : CTX :=
  let count := zlen data in
  let tmp_len := u32 (BLOCK_SIZE V - len ctx) in
  let rem_len := if count <? tmp_len then count else tmp_len in
  let ctx := ctx <| block := memcpy (block ctx) (len ctx) data rem_len |> in
  if u32 (len ctx + count) <? BLOCK_SIZE V then ctx <| len := u32 (len ctx + count) |>
  else
    let new_len := u32 (count - rem_len) in
    let block_nb := new_len `div` BLOCK_SIZE V in
    let shifted_data := drop (Z.to_nat rem_len) data in
    let ctx := ctx <| h := transform (h ctx) (block ctx) 1 |> in
    let ctx := ctx <| h := transform (h ctx) shifted_data (Z.to_nat block_nb) |> in
    let rem_len := new_len `mod` BLOCK_SIZE V in
    let ctx := ctx <| block := memcpy (block ctx) 0 (drop (Z.to_nat (block_nb * BLOCK_SIZE V)) shifted_data) rem_len |> in
    ctx <| len := rem_len |> <| tot_len := u32 (tot_len ctx + (block_nb + 1) * BLOCK_SIZE V) |>.
Definition final (ctx : CTX) : CTX :=
  let block_nb := 1 + (if last_data V <? len ctx `mod` BLOCK_SIZE V then 1 else 0) in
  let len_b := u32 (u32 (tot_len ctx + len ctx) * 8) in
  let pm_len := block_nb * BLOCK_SIZE V in
  let ctx := ctx <| block := memset (block ctx) (len ctx) 0 (pm_len - len ctx) |> in
  let ctx := ctx <| block := <[Z.to_nat (len ctx) := 128]> (block ctx) |> in
  let ctx := ctx <| block := memcpy (block ctx) (pm_len - 4) (UNPACK 4 len_b) 4 |> in
  let ctx := ctx <| h := transform (h ctx) (block ctx) (Z.to_nat block_nb) |> in
  ctx <| buf := h ctx ≫= UNPACK (word_bytes V) |>.
(** The digest, from a context with anything in it. *)
Definition digest (ctx : CTX) (data : list Z) : list Z := buf (final (update (init ctx) data)).
End variant.

(** ** The two functions *)

Definition hex_digit (c : ascii) : Z := let v := Z.of_N (N_of_ascii c) in if v <? 58 then v - 48 else v - 87.
Fixpoint hex (s : string) : list Z :=
  match s with
  | String a (String b s) => 16 * hex_digit a + hex_digit b :: hex s
  | _ => []
  end.
(** Tables, as the digits of their words. *)
Definition table (bytes : nat) (digits : string) : list Z :=
  let b := hex digits in (fun i => be (take bytes (drop (bytes * i) b))) <$> seq 0 (length b / bytes).
Definition sha256_h0 : list Z := Eval vm_compute in table 4 ("6a09e667bb67ae853c6ef372a54ff53a510e527f9b05688c1f83d9ab5be0cd19")%string.
Definition sha512_h0 : list Z := Eval vm_compute in table 8 ("6a09e667f3bcc908bb67ae8584caa73b3c6ef372fe94f82ba54ff53a5f1d36f1510e527fade682d19b05688c2b3e6c1f1f83d9abfb41bd6b5be0cd19137e2179")%string.
Definition sha256_k : list Z := Eval vm_compute in table 4
  ("428a2f9871374491b5c0fbcfe9b5dba53956c25b59f111f1923f82a4ab1c5ed5d807aa9812835b01243185be550c7dc3"
   ++ "72be5d7480deb1fe9bdc06a7c19bf174e49b69c1efbe47860fc19dc6240ca1cc2de92c6f4a7484aa5cb0a9dc76f988da"
   ++ "983e5152a831c66db00327c8bf597fc7c6e00bf3d5a7914706ca63511429296727b70a852e1b21384d2c6dfc53380d13"
   ++ "650a7354766a0abb81c2c92e92722c85a2bfe8a1a81a664bc24b8b70c76c51a3d192e819d6990624f40e3585106aa070"
   ++ "19a4c1161e376c082748774c34b0bcb5391c0cb34ed8aa4a5b9cca4f682e6ff3748f82ee78a5636f84c878148cc70208"
   ++ "90befffaa4506cebbef9a3f7c67178f2")%string.
Definition sha512_k : list Z := Eval vm_compute in table 8
  ("428a2f98d728ae227137449123ef65cdb5c0fbcfec4d3b2fe9b5dba58189dbbc3956c25bf348b53859f111f1b605d019"
   ++ "923f82a4af194f9bab1c5ed5da6d8118d807aa98a303024212835b0145706fbe243185be4ee4b28c550c7dc3d5ffb4e2"
   ++ "72be5d74f27b896f80deb1fe3b1696b19bdc06a725c71235c19bf174cf692694e49b69c19ef14ad2efbe4786384f25e3"
   ++ "0fc19dc68b8cd5b5240ca1cc77ac9c652de92c6f592b02754a7484aa6ea6e4835cb0a9dcbd41fbd476f988da831153b5"
   ++ "983e5152ee66dfaba831c66d2db43210b00327c898fb213fbf597fc7beef0ee4c6e00bf33da88fc2d5a79147930aa725"
   ++ "06ca6351e003826f142929670a0e6e7027b70a8546d22ffc2e1b21385c26c9264d2c6dfc5ac42aed53380d139d95b3df"
   ++ "650a73548baf63de766a0abb3c77b2a881c2c92e47edaee692722c851482353ba2bfe8a14cf10364a81a664bbc423001"
   ++ "c24b8b70d0f89791c76c51a30654be30d192e819d6ef5218d69906245565a910f40e35855771202a106aa07032bbd1b8"
   ++ "19a4c116b8d2d0c81e376c085141ab532748774cdf8eeb9934b0bcb5e19b48a8391c0cb3c5c95a634ed8aa4ae3418acb"
   ++ "5b9cca4f7763e373682e6ff3d6b2b8a3748f82ee5defb2fc78a5636f43172f6084c87814a1f0ab728cc702081a6439ec"
   ++ "90befffa23631e28a4506cebde82bde9bef9a3f7b2c67915c67178f2e372532bca273eceea26619cd186b8c721c0c207"
   ++ "eada7dd6cde0eb1ef57d4f7fee6ed17806f067aa72176fba0a637dc5a2c898a6113f9804bef90dae1b710b35131c471b"
   ++ "28db77f523047d8432caab7b40c724933c9ebe0a15c9bebc431d67c49c100d4c4cc5d4becb3e42b6597f299cfc657e2a"
   ++ "5fcb6fab3ad6faec6c44198c4a475817")%string.
Definition sha256 : Variant := {|
  bits := 32; word_bytes := 4; BLOCK_SIZE := 64; last_data := 64 - 9; rounds := 64; h0 := sha256_h0; k := sha256_k;
  F1 := (2, 13, 22); F2 := (6, 11, 25); F3 := (7, 18, 3); F4 := (17, 19, 10) |}.
Definition sha512 : Variant := {|
  bits := 64; word_bytes := 8; BLOCK_SIZE := 128; last_data := 128 - 17; rounds := 80; h0 := sha512_h0; k := sha512_k;
  F1 := (28, 34, 39); F2 := (14, 18, 41); F3 := (1, 8, 7); F4 := (19, 61, 6) |}.
Definition SHA256_init : CTX → CTX := init sha256.
Definition SHA256_transform : list Z → list Z → nat → list Z := transform sha256.
Definition SHA256_update : CTX → list Z → CTX := update sha256.
Definition SHA256_final : CTX → CTX := final sha256.
Definition SHA256 : CTX → list Z → list Z := digest sha256.
Definition SHA512_init : CTX → CTX := init sha512.
Definition SHA512_transform : list Z → list Z → nat → list Z := transform sha512.
Definition SHA512_update : CTX → list Z → CTX := update sha512.
Definition SHA512_final : CTX → CTX := final sha512.
Definition SHA512 : CTX → list Z → list Z := digest sha512.
