(* ===== verification/Sha2Spec.v ===== *)
(** * The hash functions of FIPS 180-2, and that sha2.c computes them (Sha2.v).

    [hash] is the standard's function over whole messages; [computes] relates a context to
    what has been hashed so far. *)

From S2P Require Import Prelude Rsa Sha2.

(** What the variants have in common. *)
Record variant_ok (V : Variant) : Prop := {
  vo_bits : bits V = 8 * Z.of_nat (word_bytes V);
  vo_word : (4 ≤ word_bytes V)%nat;
  vo_block : BLOCK_SIZE V = 16 * Z.of_nat (word_bytes V);
  vo_small : BLOCK_SIZE V < 2 ^ 16;
  vo_last : 0 ≤ last_data V ≤ BLOCK_SIZE V - 5;
  vo_rounds : (16 ≤ rounds V)%nat ∧ (rounds V `mod` 8 = 0)%nat;
  vo_k : length (k V) = rounds V;
  vo_h0 : length (h0 V) = 8%nat ∧ Forall (fun x => 0 ≤ x < 2 ^ bits V) (h0 V);
  vo_F1 : let '(i, j, l) := F1 V in 0 < i < bits V ∧ 0 < j < bits V ∧ 0 < l < bits V;
  vo_F2 : let '(i, j, l) := F2 V in 0 < i < bits V ∧ 0 < j < bits V ∧ 0 < l < bits V;
  vo_F3 : let '(i, j, l) := F3 V in 0 < i < bits V ∧ 0 < j < bits V ∧ 0 < l < bits V;
  vo_F4 : let '(i, j, l) := F4 V in 0 < i < bits V ∧ 0 < j < bits V ∧ 0 < l < bits V
}.
Lemma sha256_ok : variant_ok sha256.
Proof. split; apply (bool_decide_unpack _); vm_compute; exact Logic.I. Qed.
Lemma sha512_ok : variant_ok sha512.
Proof. split; apply (bool_decide_unpack _); vm_compute; exact Logic.I. Qed.

(** ** The standard *)

Definition be_bytes (count : nat) (x : Z) : list Z :=
  (fun i => x `div` 256 ^ (Z.of_nat count - 1 - Z.of_nat i) `mod` 256) <$> seq 0 count.
Fixpoint chunks (size count : nat) (l : list Z) : list (list Z) :=
  match count with O => [] | S count => take size l :: chunks size count (drop size l) end.

Section standard.
Context (V : Variant).
Abbreviation w := (bits V).
Abbreviation BS := (Z.to_nat (BLOCK_SIZE V)).
Definition sum (l : list Z) : Z := foldr Z.add 0 l `mod` 2 ^ w.
Definition rotr (n x : Z) : Z := x `div` 2 ^ n + x `mod` 2 ^ n * 2 ^ (w - n).
Definition shr (n x : Z) : Z := x `div` 2 ^ n.
Definition Sigma (r : Z * Z * Z) (x : Z) : Z := let '(i, j, l) := r in Z.lxor (Z.lxor (rotr i x) (rotr j x)) (rotr l x).
Definition sigma (r : Z * Z * Z) (x : Z) : Z := let '(i, j, l) := r in Z.lxor (Z.lxor (rotr i x) (rotr j x)) (shr l x).
Definition Ch (x y z : Z) : Z := Z.lxor (Z.land x y) (Z.land (Z.lnot x) z).
Definition Maj (x y z : Z) : Z := Z.lxor (Z.lxor (Z.land x y) (Z.land x z)) (Z.land y z).

Definition next_word (ws : list Z) : Z :=
  let back t := ws !!! (length ws - t)%nat in sum [sigma (F4 V) (back 2%nat); back 7%nat; sigma (F3 V) (back 15%nat); back 16%nat].
Definition message_schedule (block : list Z) : list Z :=
  Nat.iter (rounds V - 16) (fun ws => ws ++ [next_word ws]) (be <$> chunks (word_bytes V) 16 block).
Definition working (kw : Z * Z) (wv : list Z) : list Z :=
  match wv with
  | [a; b; c; d; e; f; g; hh] =>
      let T1 := sum [hh; Sigma (F2 V) e; Ch e f g; kw.1; kw.2] in
      let T2 := sum [Sigma (F1 V) a; Maj a b c] in
      [sum [T1; T2]; a; b; c; sum [d; T1]; e; f; g]
  | _ => wv
  end.
Definition compress (H block : list Z) : list Z :=
  zip_with (fun x y => sum [x; y]) H (foldl (fun wv kw => working kw wv) H (zip (k V) (message_schedule block))).

(** The message, a one bit, zeros, and the length in bits; a whole number of blocks. *)
Definition zeros (message : list Z) : nat := Z.to_nat ((last_data V - zlen message) `mod` BLOCK_SIZE V).
Definition pad (length_field : Z) (message : list Z) : list Z :=
  message ++ [128] ++ replicate (zeros message) 0 ++ be_bytes (Z.to_nat (BLOCK_SIZE V - last_data V - 1)) length_field.
Definition hash_padded (padded : list Z) : list Z :=
  foldl compress (h0 V) (chunks BS (length padded / BS) padded) ≫= be_bytes (word_bytes V).
Definition hash (message : list Z) : list Z := hash_padded (pad (8 * zlen message) message).
End standard.
(** The initial words and the constants: of square and cube roots of the first primes, the
    first bits of the fraction. *)
Definition first_primes : list Z :=
  filter (fun p => Forall (fun d => p `mod` d ≠ 0) (seqZ 2 (p - 2))) (seqZ 2 408).
Definition is_fraction_of_root (d : Z) (bits p x : Z) : Prop :=
  ∃ whole, whole ∈ seqZ 1 25 ∧ (whole * 2 ^ bits + x) ^ d ≤ p * 2 ^ (d * bits) < (whole * 2 ^ bits + x + 1) ^ d.
#[global] Instance is_fraction_of_root_dec d bits p x : Decision (is_fraction_of_root d bits p x).
Proof.
  refine (cast_if (decide (Exists (fun whole => (whole * 2 ^ bits + x) ^ d ≤ p * 2 ^ (d * bits) < (whole * 2 ^ bits + x + 1) ^ d) (seqZ 1 25))));
    unfold is_fraction_of_root; by rewrite <-Exists_exists.
Defined.
Definition constants_ok (V : Variant) : Prop :=
  Forall2 (is_fraction_of_root 2 (bits V)) (take 8 first_primes) (h0 V) ∧
  Forall2 (is_fraction_of_root 3 (bits V)) (take (rounds V) first_primes) (k V).
Lemma constants_right : constants_ok sha256 ∧ constants_ok sha512.
Proof. apply (bool_decide_unpack _). vm_compute. exact Logic.I. Qed.

(** ** Words *)

Lemma PACK_from_be str : octets str → PACK_from (8 * (zlen str - 1)) str = be str.
Proof.
  induction 1 as [|b str Hb Hstr IH]; [done|]. rewrite be_cons, zlen_cons. cbn [PACK_from].
  replace (1 + zlen str - 1) with (zlen str) by lia. replace (8 * zlen str - 8) with (8 * (zlen str - 1)) by lia.
  rewrite IH, Z.lor_comm. pose proof (zlen_nonneg str). apply lor_shiftl; [lia|]. by apply be_range.
Qed.
Lemma PACK_be bytes str : octets str → (bytes ≤ length str)%nat → PACK bytes str = be (take bytes str).
Proof.
  intros Hstr Hl. unfold PACK. rewrite <-PACK_from_be by by apply Forall_take.
  unfold zlen. rewrite length_take, Nat.min_l by done. done.
Qed.
Lemma UNPACK_be_bytes bytes x : UNPACK bytes x = be_bytes bytes x.
Proof.
  unfold UNPACK, be_bytes. apply list_fmap_ext. intros i j (-> & Hj)%lookup_seq.
  change 255 with (Z.ones 8). rewrite Z.land_ones, Z.shiftr_div_pow2, Z.pow_mul_r by lia. done.
Qed.

Section words.
Context (V : Variant) (HV : variant_ok V).
Definition word (x : Z) : Prop := 0 ≤ x < 2 ^ bits V.
Abbreviation words := (Forall word).

Lemma bits_pos : 32 ≤ bits V.
Proof. destruct HV. lia. Qed.
Lemma sum_word l : word (sum V l).
Proof. apply Z.mod_pos_bound. pose proof bits_pos. lia. Qed.
Lemma wrap_mod z : wrap V z = z `mod` 2 ^ bits V.
Proof. unfold wrap. rewrite Z.land_ones; [done|]. pose proof bits_pos. lia. Qed.
Lemma wrap_sum z l : z = foldr Z.add 0 l → wrap V z = sum V l.
Proof. intros ->. apply wrap_mod. Qed.
Lemma wrap_add2 a b : wrap V (a + b) = sum V [a; b].
Proof. apply wrap_sum. cbn [foldr]. lia. Qed.
Lemma wrap_add5 a b c d e : wrap V (a + b + c + d + e) = sum V [a; b; c; d; e].
Proof. apply wrap_sum. cbn [foldr]. lia. Qed.
Lemma sum_mod_r x l : sum V (x `mod` 2 ^ bits V :: l) = sum V (x :: l).
Proof. unfold sum. cbn [foldr]. apply Zplus_mod_idemp_l. Qed.
Lemma ROTR_rotr x n : 0 < n < bits V → word x → ROTR V x n = rotr V n x.
Proof.
  intros Hn Hx. unfold ROTR, rotr, word in *. rewrite wrap_mod, Z.shiftl_mul_pow2, Z.shiftr_div_pow2 by lia.
  assert (2 ^ bits V = 2 ^ n * 2 ^ (bits V - n)) as Hp by (rewrite <-Z.pow_add_r by lia; f_equal; lia).
  assert (0 < 2 ^ n ∧ 0 < 2 ^ (bits V - n)) as [? ?] by (split; apply Z.pow_pos_nonneg; lia).
  rewrite Hp, Zmult_mod_distr_r, Z.lor_comm, <-Z.shiftl_mul_pow2 by lia. rewrite lor_shiftl; [by rewrite Z.add_comm, Z.shiftl_mul_pow2 by lia|lia|].
  split; [apply Z.div_pos; lia|]. apply Z.div_lt_upper_bound; lia.
Qed.
Lemma rotations_Sigma r x : (let '(i, j, l) := r in 0 < i < bits V ∧ 0 < j < bits V ∧ 0 < l < bits V) → word x →
  rotations V r x = Sigma V r x.
Proof. destruct r as [[i j] l]. intros (Hi & Hj & Hl) Hx. cbn. by rewrite !ROTR_rotr. Qed.
Lemma rotations_shift_sigma r x : (let '(i, j, l) := r in 0 < i < bits V ∧ 0 < j < bits V ∧ 0 < l < bits V) → word x →
  rotations_shift V r x = sigma V r x.
Proof.
  destruct r as [[i j] l]. intros (Hi & Hj & Hl) Hx. cbn. rewrite !ROTR_rotr by done.
  unfold SHFR, shr. by rewrite Z.shiftr_div_pow2 by lia.
Qed.

(** ** One block *)

Lemma word_at ws i : words ws → (i < length ws)%nat → word (ws !!! i).
Proof. intros H Hi. destruct (lookup_lt_is_Some_2 ws i Hi) as (x & Hx). erewrite list_lookup_total_correct by done. by eapply Forall_lookup_1. Qed.
Lemma SCR_next_word ws : words ws → (16 ≤ length ws)%nat → SCR V ws (length ws) = next_word V ws.
Proof.
  intros H Hl. unfold SCR, next_word. apply wrap_sum. cbn [foldr].
  rewrite !rotations_shift_sigma by (apply HV || apply word_at; (done || lia)). lia.
Qed.
Lemma load_chunks count block : octets block → (count * word_bytes V ≤ length block)%nat →
  load V count block = be <$> chunks (word_bytes V) count block ∧ words (load V count block) ∧ length (load V count block) = count.
Proof.
  revert block. induction count as [|count IH]; intros block Ho Hl; [done|]. cbn [load chunks fmap list_fmap].
  destruct (IH (drop (word_bytes V) block)) as (IHe & IHw & IHl); [by apply Forall_drop|rewrite length_drop; lia|].
  rewrite PACK_be by (done || lia). split_and!; [by rewrite IHe| |cbn; by rewrite IHl]. constructor; [|done].
  assert (length (take (word_bytes V) block) = word_bytes V) as Ht by (rewrite length_take; lia).
  unfold word. rewrite (vo_bits V HV). pose proof (be_range (take (word_bytes V) block)) as Hr. unfold zlen in Hr.
  rewrite Ht in Hr. apply Hr. by apply Forall_take.
Qed.
Lemma schedule_spec block : octets block → zlen block = BLOCK_SIZE V →
  schedule V block = message_schedule V block ∧ words (schedule V block) ∧ length (schedule V block) = rounds V.
Proof.
  intros Ho Hl. destruct HV as [Hb Hw HB _ _ [Hr _] _ _ _ _ _ _]. unfold zlen in Hl.
  destruct (load_chunks 16 block) as (He & Hws & Hlen); [done|lia|]. unfold schedule, message_schedule. rewrite <-He.
  enough (∀ m, let ws := Nat.iter m (fun w => w ++ [SCR V w (length w)]) (load V 16 block) in
    ws = Nat.iter m (fun ws => ws ++ [next_word V ws]) (load V 16 block) ∧ words ws ∧ length ws = (16 + m)%nat) as Hm.
  { destruct (Hm (rounds V - 16)%nat) as (? & ? & ?). split_and!; [done..|]. lia. }
  cbv zeta. induction m as [|m (IHe & IHw & IHl)]; [by rewrite Nat.add_0_r|]. rewrite !Nat.iter_succ, <-IHe.
  rewrite SCR_next_word by (done || lia). split_and!; [done| |rewrite length_app, IHl; cbn; lia].
  apply Forall_app. split; [done|]. constructor; [apply sum_word|done].
Qed.
Lemma round_working kw wv : words wv → length wv = 8%nat →
  round V kw wv = working V kw wv ∧ words (round V kw wv) ∧ length (round V kw wv) = 8%nat.
Proof.
  intros Hw Hl. do 9 (destruct wv as [|? wv]; try done). cbn [round working].
  rewrite !Forall_cons in Hw. destruct Hw as (? & ? & ? & ? & ? & ? & ? & ? & _).
  rewrite !rotations_Sigma by (apply HV || done).
  change CH with Ch. change MAJ with Maj. rewrite !wrap_add5, !wrap_add2.
  split_and!; [done| |done]. repeat (apply Forall_cons; split; [apply sum_word || done|]). by apply Forall_nil.
Qed.
Lemma rounds_working kws wv : words wv → length wv = 8%nat →
  foldl (fun wv kw => round V kw wv) wv kws = foldl (fun wv kw => working V kw wv) wv kws ∧
  words (foldl (fun wv kw => round V kw wv) wv kws) ∧ length (foldl (fun wv kw => round V kw wv) wv kws) = 8%nat.
Proof.
  revert wv. induction kws as [|kw kws IH]; intros wv Hw Hl; [done|]. cbn [foldl].
  destruct (round_working kw wv) as (<- & ? & ?); [done..|]. by apply IH.
Qed.
Lemma zip_words hs wv : words (zip_with (fun x y => wrap V (x + y)) hs wv).
Proof.
  revert wv. induction hs as [|x hs IH]; intros [|y wv]; cbn [zip_with]; try by apply Forall_nil.
  apply Forall_cons. rewrite wrap_add2. split; [apply sum_word|apply IH].
Qed.
Lemma transform_block_compress hs block : words hs → length hs = 8%nat → octets block → zlen block = BLOCK_SIZE V →
  transform_block V hs block = compress V hs block ∧ words (transform_block V hs block) ∧ length (transform_block V hs block) = 8%nat.
Proof.
  intros Hw Hl Ho Hb. destruct (schedule_spec block) as (Hs & _ & _); [done..|].
  unfold transform_block, compress, add_words. rewrite <-Hs.
  destruct (rounds_working (zip (k V) (schedule V block)) hs) as (<- & _ & Hl'); [done..|]. split_and!.
  - apply zip_with_ext; [|done..]. intros x y. apply wrap_add2.
  - apply zip_words.
  - rewrite length_zip_with, Hl, Hl'. done.
Qed.

(** ** Many blocks *)

Abbreviation BS := (Z.to_nat (BLOCK_SIZE V)).
Lemma BS_pos : (64 ≤ BS)%nat ∧ BLOCK_SIZE V = Z.of_nat BS.
Proof. destruct HV. lia. Qed.
Lemma load_app count b m : (count * word_bytes V ≤ length b)%nat → load V count (b ++ m) = load V count b.
Proof.
  revert b. induction count as [|count IH]; intros b Hb; [done|]. cbn [load].
  rewrite (drop_app_le b) by lia. rewrite IH by (rewrite length_drop; lia). unfold PACK. by rewrite take_app_le by lia.
Qed.
Lemma transform_block_app hs b m : zlen b = BLOCK_SIZE V → transform_block V hs (b ++ m) = transform_block V hs b.
Proof. intros Hb. pose proof (vo_block V HV) as HB. unfold zlen in Hb. unfold transform_block, schedule. by rewrite load_app by lia. Qed.
Lemma transform_spec nb hs message : words hs → length hs = 8%nat → octets (take (BS * nb) message) → (BS * nb ≤ length message)%nat →
  transform V hs message nb = foldl (compress V) hs (chunks BS nb message) ∧
  words (transform V hs message nb) ∧ length (transform V hs message nb) = 8%nat.
Proof.
  pose proof BS_pos as [_ HB]. revert hs message. induction nb as [|nb IH]; intros hs message Hw Hl Ho Hb; [done|].
  cbn [transform chunks foldl]. rewrite <-(take_drop BS message). set (b := take BS message). set (m := drop BS message).
  assert (length b = BS) as Hlb by (unfold b; rewrite length_take; lia).
  assert (zlen b = BLOCK_SIZE V) as Hzb by (unfold zlen; lia).
  replace (BS * S nb)%nat with (BS + BS * nb)%nat in Ho by lia.
  rewrite <-take_take_drop in Ho. apply Forall_app in Ho as [Hob Hom].
  rewrite transform_block_app, take_app_length', drop_app_length' by done.
  destruct (transform_block_compress hs b) as (<- & ? & ?); [done..|].
  apply IH; [done..|]. unfold m. rewrite length_drop. lia.
Qed.
Lemma transform_app nb hs a m : length a = (BS * nb)%nat → transform V hs (a ++ m) nb = transform V hs a nb.
Proof.
  pose proof BS_pos as [_ HB]. revert hs a. induction nb as [|nb IH]; intros hs a Ha; [done|]. cbn [transform].
  rewrite drop_app_le, IH by (rewrite ?length_drop; lia). f_equal.
  rewrite <-(take_drop BS a), <-app_assoc, !transform_block_app; try done; unfold zlen; rewrite length_take; lia.
Qed.
Lemma memcpy_app a b c off src count : zlen a = off → zlen b = count →
  memcpy (a ++ b ++ c) off src count = a ++ take (Z.to_nat count) src ++ c.
Proof.
  intros <- <-. unfold memcpy, zlen. rewrite Nat2Z.id, take_app_length.
  rewrite <-Nat2Z.inj_add, !Nat2Z.id, (app_assoc a b c), <-length_app, drop_app_length. done.
Qed.
Lemma chunks_app n m a b : length a = (BS * n)%nat → chunks BS (n + m) (a ++ b) = chunks BS n a ++ chunks BS m b.
Proof.
  revert a. induction n as [|n IH]; intros a Ha; [destruct a; [done|cbn in Ha; lia]|]. cbn [chunks Nat.add app].
  rewrite take_app_le, drop_app_le, IH by (rewrite ?length_drop; lia). done.
Qed.
Lemma chunks_take n a b : length a = (BS * n)%nat → chunks BS n (a ++ b) = chunks BS n a.
Proof. intros Ha. rewrite <-(Nat.add_0_r n) at 1. rewrite chunks_app by done. apply app_nil_r. Qed.

(** ** Contexts *)

(** What a context holds when [D] has been hashed: the whole blocks are in [h], the rest in [block]. *)
Record computes_with (ctx : CTX) (n : nat) (full tail rest : list Z) : Prop := {
  cw_full : length full = (BS * n)%nat;
  cw_tail : (length tail < BS)%nat;
  cw_octets : octets (full ++ tail);
  cw_h : h ctx = foldl (compress V) (h0 V) (chunks BS n full);
  cw_words : words (h ctx) ∧ length (h ctx) = 8%nat;
  cw_tot_len : tot_len ctx = u32 (Z.of_nat n * BLOCK_SIZE V);
  cw_len : len ctx = zlen tail;
  cw_block : block ctx = tail ++ rest;
  cw_room : length (tail ++ rest) = (2 * BS)%nat
}.
Definition computes (ctx : CTX) (D : list Z) : Prop :=
  ∃ n full tail rest, D = full ++ tail ∧ computes_with ctx n full tail rest.

Lemma init_computes ctx : length (block ctx) = (2 * BS)%nat → computes (init V ctx) [].
Proof.
  intros Hb. pose proof BS_pos as [? _]. exists 0%nat, [], [], (block ctx). split; [done|].
  destruct (vo_h0 V HV) as [? ?]. split; cbn; done || lia.
Qed.
Lemma extend_tail ctx n full tail rest data : computes_with ctx n full tail rest → octets data → zlen tail + zlen data < BLOCK_SIZE V →
  computes_with (ctx <| block := memcpy (block ctx) (len ctx) data (zlen data) |> <| len := zlen tail + zlen data |>)
    n full (tail ++ data) (drop (length data) rest).
Proof.
  intros [Hf Ht Ho Hh Hw Htl Hl Hb Hr] Hd Hlt. pose proof BS_pos as [_ HB]. rewrite length_app in Hr. unfold zlen in Hlt.
  split; cbn; try done.
  - rewrite length_app. lia.
  - rewrite app_assoc. by apply Forall_app.
  - by rewrite zlen_app.
  - rewrite Hb, Hl, <-(take_drop (length data) rest) at 1. rewrite memcpy_app; [|done|unfold zlen; rewrite length_take; lia].
    unfold zlen. rewrite Nat2Z.id, take_ge by done. by rewrite <-app_assoc.
  - rewrite !length_app, length_drop. lia.
Qed.
Lemma absorb_blocks ctx n full tail rest data nb : let rem := (BS - length tail)%nat in
  computes_with ctx n full tail rest → octets data → (rem + BS * nb ≤ length data < rem + BS * S nb)%nat →
  let ctx' := ctx <| block := memcpy (block ctx) (len ctx) data (Z.of_nat rem) |> in
  let last := drop (BS * nb) (drop rem data) in
  computes_with (ctx' <| h := transform V (transform V (h ctx) (block ctx') 1) (drop rem data) nb |>
                      <| block := memcpy (block ctx') 0 last (zlen last) |>
                      <| len := zlen last |> <| tot_len := u32 (tot_len ctx + (Z.of_nat nb + 1) * BLOCK_SIZE V) |>)
    (n + S nb) (full ++ (tail ++ take rem data) ++ take (BS * nb) (drop rem data)) last
    (drop (length last) (tail ++ take rem data ++ drop rem rest)).
Proof.
  intros rem [Hf Ht Ho Hh [Hw Hw8] Htl Hl Hb Hr] Hd Hlen ctx' last. pose proof BS_pos as [Hpos HB]. rewrite length_app in Hr.
  assert (block ctx' = (tail ++ take rem data) ++ drop rem rest) as Hb'.
  { unfold ctx'. cbn. rewrite Hb, Hl. rewrite <-(take_drop rem rest) at 1. rewrite memcpy_app; [|done|unfold zlen; rewrite length_take; lia].
    rewrite Nat2Z.id. by rewrite <-app_assoc. }
  assert (length (tail ++ take rem data) = BS) as Hone by (rewrite length_app, length_take; lia).
  assert (length (take (BS * nb) (drop rem data)) = BS * nb)%nat as Hmany by (rewrite length_take, length_drop; lia).
  assert (length last < BS)%nat as Hlast by (unfold last; rewrite !length_drop; lia).
  apply Forall_app in Ho as [Hof Hot].
  assert (octets (tail ++ take rem data)) as Hoone by (apply Forall_app; split; [done|by apply Forall_take]).
  destruct (transform_spec 1 (h ctx) (block ctx')) as (Hh1 & Hw1 & Hl1); [done|done| | |].
  { rewrite Hb', take_app_length' by lia. done. }
  { rewrite Hb', length_app. lia. }
  destruct (transform_spec nb (transform V (h ctx) (block ctx') 1) (drop rem data)) as (Hh2 & Hw2 & Hl2); [done|done| | |].
  { by apply Forall_take, Forall_drop. }
  { rewrite length_drop. lia. }
  split; try done.
  - rewrite !length_app in *. lia.
  - unfold last. rewrite <-!app_assoc, !take_drop, !Forall_app. done.
  - lazymatch goal with |- _ = ?r => change (transform V (transform V (h ctx) (block ctx') 1) (drop rem data) nb = r) end.
    rewrite Hh2, Hh1, Hh, Hb', <-!foldl_app. f_equal. rewrite chunks_app by done. f_equal.
    change (S nb) with (1 + nb)%nat. rewrite chunks_app by lia. f_equal; [by rewrite chunks_take by lia|].
    rewrite <-(take_drop (BS * nb) (drop rem data)) at 1. by rewrite chunks_take.
  - cbn -[transform]. rewrite Htl. unfold u32. rewrite Zplus_mod_idemp_l. f_equal. lia.
  - change (memcpy (block ctx') 0 last (zlen last) = last ++ drop (length last) (tail ++ take rem data ++ drop rem rest)).
    rewrite Hb', app_assoc. set (X := _ ++ drop rem rest).
    change (memcpy X 0 last (zlen last)) with (take (Z.to_nat (zlen last)) last ++ drop (Z.to_nat (zlen last)) X).
    unfold zlen. by rewrite Nat2Z.id, take_ge by done.
  - rewrite !length_app, length_drop, !length_app, length_drop, length_take. lia.
Qed.
Lemma update_computes ctx D data : computes ctx D → octets data → zlen data + BLOCK_SIZE V ≤ 2 ^ 32 →
  computes (update V ctx data) (D ++ data).
Proof.
  intros (n & full & tail & rest & -> & Hc) Hd Hmax. pose proof BS_pos as [Hpos HB]. pose proof Hc as [_ Ht _ _ _ _ Hl _ _].
  assert (0 ≤ zlen tail < BLOCK_SIZE V ∧ 0 ≤ zlen data) as Hz by (unfold zlen; lia).
  pose proof (vo_small V HV). unfold update. cbv zeta. rewrite Hl. cbn [len tot_len h]. rewrite (u32_small (BLOCK_SIZE V - zlen tail)) by (unfold is_u32; lia).
  change (len (ctx <| block := ?b |>)) with (len ctx). rewrite ?Hl.
  rewrite (u32_small (zlen tail + zlen data)) by (unfold is_u32; lia). rewrite <-app_assoc.
  destruct (Z.ltb_spec (zlen tail + zlen data) (BLOCK_SIZE V)) as [Hlt|Hge].
  - exists n, full, (tail ++ data), (drop (length data) rest). split; [done|].
    pose proof (extend_tail ctx n full tail rest data Hc Hd Hlt) as He. rewrite Hl in He.
    destruct (Z.ltb_spec (zlen data) (BLOCK_SIZE V - zlen tail)); [exact He|lia].
  - destruct (Z.ltb_spec (zlen data) (BLOCK_SIZE V - zlen tail)); [lia|].
    set (rem := (BS - length tail)%nat). replace (BLOCK_SIZE V - zlen tail) with (Z.of_nat rem) by (unfold rem, zlen; lia).
    assert (rem + (length data - rem) = length data)%nat as Hrem by (unfold rem, zlen in *; lia).
    replace (u32 (zlen data - Z.of_nat rem)) with (Z.of_nat (length data - rem)) by (rewrite u32_small; unfold zlen, is_u32, rem in *; lia).
    set (new_len := (length data - rem)%nat) in *. set (nb := (new_len / BS)%nat). set (last := drop (BS * nb) (drop rem data)).
    pose proof (Nat.div_mod_eq new_len BS) as Hdm. pose proof (Nat.mod_upper_bound new_len BS ltac:(lia)) as Hmod. fold nb in Hdm.
    rewrite HB, <-Nat2Z.inj_div, <-Nat2Z.inj_mod. fold nb. rewrite <-Nat2Z.inj_mul, !Nat2Z.id, <-HB, (Nat.mul_comm nb). fold last.
    assert (zlen last = Z.of_nat (new_len mod BS)) as Hlast by (unfold last, zlen; rewrite !length_drop; lia). rewrite <-Hlast.
    do 4 eexists. split; [|pose proof (absorb_blocks ctx n full tail rest data nb) as Ha; cbv zeta in Ha; rewrite Hl in Ha; apply Ha; [done..|lia]].
    fold rem. by rewrite <-!app_assoc, !take_drop.
Qed.

(** ** The padding *)

Lemma be_bytes_wide m n x : 0 ≤ x < 256 ^ Z.of_nat n → be_bytes (m + n) x = replicate m 0 ++ be_bytes n x.
Proof.
  intros Hx. unfold be_bytes. rewrite seq_app, fmap_app. f_equal.
  - apply list_eq. intros i. rewrite list_lookup_fmap. destruct (decide (i < m)%nat) as [Hi|Hi].
    + rewrite lookup_seq_lt, lookup_replicate_2 by done. cbn. f_equal. rewrite Z.div_small; [done|].
      split; [lia|]. eapply Z.lt_le_trans; [apply Hx|]. apply Z.pow_le_mono_r; lia.
    + rewrite lookup_seq_ge by lia. symmetry. apply lookup_replicate_None. lia.
  - replace (seq (0 + m) n) with (Nat.add m <$> seq 0 n) by (rewrite fmap_add_seq; f_equal; lia). rewrite <-list_fmap_compose. apply list_fmap_ext. intros i y Hy. cbn. do 3 f_equal. lia.
Qed.
Lemma length_be_bytes n x : length (be_bytes n x) = n.
Proof. unfold be_bytes. by rewrite length_fmap, length_seq. Qed.
Lemma be_bytes_octets n x : octets (be_bytes n x).
Proof. apply Forall_fmap, Forall_true. intros i. cbn. apply Z.mod_pos_bound. lia. Qed.

Lemma tail_padding full n tail lf : let nb := if last_data V <? zlen tail then 2 else 1 in
  length full = (BS * n)%nat → (length tail < BS)%nat → 0 ≤ lf < 2 ^ 32 →
  pad V lf (full ++ tail) =
    full ++ tail ++ 128 :: replicate (Z.to_nat (nb * BLOCK_SIZE V - zlen tail - 5)) 0 ++ UNPACK 4 lf.
Proof.
  intros nb Hf Ht Hlf. pose proof BS_pos as [Hpos HB]. pose proof (vo_last V HV). unfold pad, zeros.
  rewrite <-app_assoc. do 3 f_equal. rewrite UNPACK_be_bytes.
  replace (Z.to_nat (BLOCK_SIZE V - last_data V - 1)) with (Z.to_nat (BLOCK_SIZE V - last_data V - 5) + 4)%nat by lia.
  rewrite be_bytes_wide by (change (256 ^ Z.of_nat 4) with (2 ^ 32); lia). rewrite app_assoc, <-replicate_add. do 2 f_equal.
  replace (last_data V - zlen (full ++ tail)) with (last_data V - zlen tail + (- Z.of_nat n) * BLOCK_SIZE V)
    by (rewrite zlen_app; unfold zlen; rewrite Hf; lia).
  rewrite Z_mod_plus_full. unfold nb, zlen in *.
  destruct (Z.ltb_spec (last_data V) (Z.of_nat (length tail))).
  - rewrite <-(Z_mod_plus_full _ 1), Z.mod_small by lia. lia.
  - rewrite Z.mod_small by lia. lia.
Qed.
Lemma final_hash ctx D : computes ctx D → buf (final V ctx) = hash_padded V (pad V (u32 (8 * zlen D)) D).
Proof.
  intros (n & full & tail & rest & -> & Hc). pose proof BS_pos as [Hpos HB]. pose proof (vo_last V HV) as Hlast.
  destruct Hc as [Hf Ht Ho Hh [Hw Hw8] Htl Hl Hb Hr]. rewrite length_app in Hr.
  assert (0 ≤ zlen tail < BLOCK_SIZE V) as Hz by (unfold zlen; lia).
  set (lf := u32 (8 * zlen (full ++ tail))). assert (is_u32 lf) as Hlf by apply u32_range.
  assert (u32 (u32 (tot_len ctx + len ctx) * 8) = lf) as Hlen_b.
  { rewrite Htl, Hl. unfold lf, u32. rewrite Zplus_mod_idemp_l, Zmult_mod_idemp_l. f_equal. rewrite zlen_app. unfold zlen. lia. }
  rewrite (tail_padding full n) by done. set (nb := if last_data V <? zlen tail then 2 else 1).
  unfold final. rewrite Hlen_b, Hl, Z.mod_small by lia.
  replace (1 + (if last_data V <? zlen tail then 1 else 0)) with nb by (unfold nb; by destruct (_ <? _)).
  assert (1 ≤ nb ≤ 2 ∧ 5 ≤ nb * BLOCK_SIZE V - zlen tail ∧ nb * BLOCK_SIZE V ≤ 2 * BLOCK_SIZE V) as (Hnb & Hroom & Hmost)
    by (unfold nb; destruct (Z.ltb_spec (last_data V) (zlen tail)); lia).
  set (z := Z.to_nat (nb * BLOCK_SIZE V - zlen tail - 5)). set (padding := tail ++ 128 :: replicate z 0 ++ UNPACK 4 lf).
  assert (length padding = BS * Z.to_nat nb)%nat as Hlp.
  { unfold padding. rewrite length_app, length_cons, length_app, length_replicate, UNPACK_be_bytes, length_be_bytes. unfold z, zlen in *. lia. }
  set (blk := memcpy _ _ (UNPACK 4 lf) 4). assert (∃ X, blk = padding ++ X) as (X & HX).
  { unfold blk, memset. cbn -[UNPACK]. rewrite Hl, Hb. set (m := Z.to_nat (nb * BLOCK_SIZE V - zlen tail)).
    exists (drop m rest). rewrite <-(take_drop m rest) at 1.
    rewrite memcpy_app by (done || (unfold m, zlen in *; rewrite length_take; lia)). rewrite take_replicate, Nat.min_id.
    assert (m = S (z + 4))%nat as Hm by (unfold m, z; lia). fold m. rewrite Hm. cbn [replicate].
    rewrite (insert_app_r_alt tail) by (unfold zlen; lia).
    replace (Z.to_nat (zlen tail) - length tail)%nat with 0%nat by (unfold zlen; lia). cbn -[UNPACK].
    rewrite replicate_add, <-app_assoc, !(app_comm_cons _ _ 128), (app_assoc tail).
    rewrite memcpy_app; [|rewrite zlen_app; unfold zlen in *; rewrite length_cons, length_replicate; lia|done].
    change (take (Z.to_nat 4) (UNPACK 4 lf)) with (UNPACK 4 lf). unfold padding. by rewrite <-!app_assoc, <-!app_comm_cons, <-!app_assoc. }
  cbn -[transform]. rewrite HX. destruct (transform_spec (Z.to_nat nb) (h ctx) (padding ++ X)) as (Htr & _ & _); [done|done| | |].
  { rewrite take_app_length' by lia. unfold padding. apply Forall_app in Ho as [_ ?]. apply Forall_app. split; [done|].
    apply Forall_cons. split; [unfold is_byte; lia|]. rewrite UNPACK_be_bytes. apply Forall_app. split; [|apply be_bytes_octets].
    apply Forall_replicate. unfold is_byte. lia. }
  { rewrite length_app. lia. }
  rewrite Htr. unfold hash_padded. rewrite length_app, Hf, Hlp.
  replace (BS * n + BS * Z.to_nat nb)%nat with ((n + Z.to_nat nb) * BS)%nat by lia. rewrite Nat.div_mul by lia.
  rewrite chunks_app, foldl_app, <-Hh, chunks_take by done. apply list_bind_ext; [|done]. intros x. apply UNPACK_be_bytes.
Qed.

(** ** The unrolled loop *)

Lemma length_round kw wv : length (round V kw wv) = length wv.
Proof. do 9 (destruct wv as [|? wv]; try done). Qed.
(** The unrolled loop leaves the words where they are and turns the indices. *)
Definition turned (i : nat) (wv : list Z) : list Z := (fun j => wv !!! ((j + i) mod 8)%nat) <$> seq 0 8.
Lemma turned_0 wv : length wv = 8%nat → turned 0 wv = wv ∧ turned 8 wv = wv.
Proof. intros Hl. do 9 (destruct wv as [|? wv]; try done). Qed.
Lemma EXP_turned i ix kw wv : turns !! i = Some ix → length wv = 8%nat → EXP V ix kw (turned i wv) = turned (S i) (round V kw wv).
Proof.
  intros Hi Hl. do 9 (destruct wv as [|? wv]; try done).
  do 8 (destruct i as [|i]; [injection Hi as <-; cbv -[wrap rotations CH MAJ Z.add F1 F2]; reflexivity|]). done.
Qed.
Lemma length_rounds kws wv : length (foldl (fun wv kw => round V kw wv) wv kws) = length wv.
Proof. revert wv. induction kws as [|kw kws IH]; intros wv; cbn; [done|]. by rewrite IH, length_round. Qed.
Lemma EXP_run i kws wv : length wv = 8%nat → (i + length kws ≤ 8)%nat →
  foldl (fun wv ikw => EXP V ikw.1 ikw.2 wv) (turned i wv) (zip (drop i turns) kws) =
  turned (i + length kws) (foldl (fun wv kw => round V kw wv) wv kws).
Proof.
  revert i wv. induction kws as [|kw kws IH]; intros i wv Hl Hi; cbn [length] in *.
  { rewrite Nat.add_0_r. by destruct (drop i turns). }
  destruct (lookup_lt_is_Some_2 turns i) as (ix & Hix); [change (length turns) with 8%nat; lia|].
  rewrite (drop_S _ ix) by done. cbn [zip zip_with foldl fst snd]. rewrite (EXP_turned i), IH by (rewrite ?length_round; done || lia).
  f_equal. lia.
Qed.
Lemma EXP_turns n kws wv : length wv = 8%nat → length kws = (n * 8)%nat →
  foldl (fun wv ikw => EXP V ikw.1 ikw.2 wv) wv (zip (concat (replicate n turns)) kws) = foldl (fun wv kw => round V kw wv) wv kws.
Proof.
  revert kws wv. induction n as [|n IH]; intros kws wv Hl Hk; [by destruct kws|]. rewrite <-(take_drop 8 kws). cbn [replicate concat].
  assert (length (take 8 kws) = 8%nat) as Ht by (rewrite length_take; lia).
  rewrite zip_with_app by (rewrite Ht; done). rewrite !foldl_app.
  pose proof (EXP_run 0 (take 8 kws) wv Hl ltac:(lia)) as Hrun. rewrite Ht, (proj1 (turned_0 wv Hl)) in Hrun.
  change (drop 0 turns) with turns in Hrun. rewrite Hrun.
  rewrite (proj2 (turned_0 (foldl _ _ _) ltac:(by rewrite length_rounds))).
  apply IH; [by rewrite length_rounds|]. rewrite length_drop. lia.
Qed.
Lemma length_load count block : length (load V count block) = count.
Proof. revert block. induction count as [|count IH]; intros block; cbn; [done|]. by rewrite IH. Qed.
Lemma length_schedule block : length (schedule V block) = rounds V.
Proof.
  unfold schedule. pose proof (vo_rounds V HV). assert (∀ m, length (Nat.iter m (fun w => w ++ [SCR V w (length w)]) (load V 16 block)) = 16 + m)%nat as ->; [|lia].
  induction m as [|m IH]; [exact (length_load 16 block)|]. rewrite Nat.iter_succ, length_app, IH. cbn. lia.
Qed.
Lemma unrolled_rolled hs block : length hs = 8%nat → transform_block_unrolled V hs block = transform_block V hs block.
Proof.
  intros Hl. unfold transform_block_unrolled, transform_block, all_turns. f_equal. apply EXP_turns; [done|].
  rewrite length_zip_with, length_schedule, (vo_k V HV), Nat.min_id. pose proof (vo_rounds V HV) as [_ Hr].
  pose proof (Nat.div_mod_eq (rounds V) 8). lia.
Qed.
Lemma pieces_computes ctx D pieces : computes ctx D → Forall (fun piece => octets piece ∧ zlen piece + BLOCK_SIZE V ≤ 2 ^ 32) pieces →
  computes (foldl (update V) ctx pieces) (D ++ concat pieces).
Proof.
  intros Hc Hp. revert ctx D Hc. induction Hp as [|piece pieces [Ho Hz] _ IH]; intros ctx D Hc; cbn; [by rewrite app_nil_r|].
  rewrite app_assoc. apply IH. by apply update_computes.
Qed.
Lemma hashed_pieces ctx pieces : length (block ctx) = (2 * BS)%nat →
  Forall (fun piece => octets piece ∧ zlen piece + BLOCK_SIZE V ≤ 2 ^ 32) pieces →
  let message := concat pieces in
  buf (final V (foldl (update V) (init V ctx) pieces)) = hash_padded V (pad V (u32 (8 * zlen message)) message).
Proof. intros Hb Hp. apply final_hash. by apply (pieces_computes _ []); [apply init_computes|]. Qed.
End words.

(** ** The functions *)

(** C6. The digest of a message that SHA256_update or SHA512_update got in pieces, of any
    sizes, is the standard's hash of the pieces together, whatever the context held before
    SHA*_init; the message's length in bits is an unsigned int in the code, so this is for
    messages of less than 512 megabytes. *)
Theorem sha2_hashes_the_pieces V ctx pieces : V = sha256 ∨ V = sha512 → zlen (block ctx) = 2 * BLOCK_SIZE V →
  Forall octets pieces → zlen (concat pieces) < 2 ^ 29 →
  buf (final V (foldl (update V) (init V ctx) pieces)) = hash V (concat pieces).
Proof.
  intros HV Hb Ho Hmax. assert (variant_ok V) as Hok by (destruct HV as [-> | ->]; [apply sha256_ok|apply sha512_ok]).
  pose proof (vo_small V Hok). pose proof (vo_block V Hok). rewrite hashed_pieces; [|done|unfold zlen in Hb; lia|].
  - unfold hash. rewrite u32_small; [done|]. unfold is_u32. pose proof (zlen_nonneg (concat pieces)). lia.
  - rewrite Forall_forall in Ho. apply Forall_forall. intros piece Hp. split; [by apply Ho|]. enough (zlen piece ≤ zlen (concat pieces)) by lia.
    apply list_elem_of_split in Hp as (a & b & ->). rewrite concat_app, zlen_app. cbn. rewrite zlen_app.
    pose proof (zlen_nonneg (concat a)). pose proof (zlen_nonneg (concat b)). lia.
Qed.
(** Longer messages are padded with the length modulo 2^32. *)
Lemma long_message_length_wraps V ctx message : variant_ok V → zlen (block ctx) = 2 * BLOCK_SIZE V → octets message →
  zlen message + BLOCK_SIZE V ≤ 2 ^ 32 → digest V ctx message = hash_padded V (pad V (u32 (8 * zlen message)) message).
Proof.
  intros Hok Hb Ho Hmax. pose proof (vo_block V Hok). pose proof (hashed_pieces V Hok ctx [message]) as Hh. cbn in Hh.
  rewrite app_nil_r in Hh. apply Hh; [unfold zlen in Hb; lia|]. by constructor.
Qed.
(** C9. What UNROLL_LOOPS selects computes what the loops compute: SHA*_transform with its
    words turned through the eight variables instead of moved, on every block. *)
Theorem unrolled_loops_agree V hs sub_block : V = sha256 ∨ V = sha512 → length hs = 8%nat →
  transform_block_unrolled V hs sub_block = transform_block V hs sub_block.
Proof. intros [-> | ->]; apply unrolled_rolled; [apply sha256_ok|apply sha512_ok]. Qed.

(** ** Witnesses *)

Definition fresh : CTX := {| h := replicate 8 7; tot_len := 99; len := 5; block := replicate 128 1; buf := [] |}.
Lemma sha2_hashes_the_pieces_witness :
  buf (final sha256 (foldl (update sha256) (init sha256 fresh) [[97]; [98; 99]])) = hash sha256 [97; 98; 99] ∧
  hash sha256 [97; 98; 99] = hex ("ba7816bf8f01cfea414140de5dae2223b00361a396177a9cb410ff61f20015ad")%string.
Proof.
  split; [|apply (bool_decide_unpack _); vm_compute; exact Logic.I].
  apply (sha2_hashes_the_pieces sha256 fresh [[97]; [98; 99]]); [by left|done| |done].
  apply (bool_decide_unpack _). vm_compute. exact Logic.I.
Defined.
Lemma unrolled_loops_agree_witness :
  transform_block_unrolled sha512 (h0 sha512) [1; 2; 3] = transform_block sha512 (h0 sha512) [1; 2; 3].
Proof. apply (unrolled_loops_agree sha512); [by right|done]. Defined.
