(* ===== verification/Sha1.v ===== *)
(** * SHA-1 of the verified boot: vboot_reference/crypto/sha1.c.

    The version for machines of any byte order, which is the one that the Makefile
    compiles (HAVE_ENDIAN_H is never defined); a digest of the bytes so far is the
    standard's (FIPS 180-2), whose padding SHA-1 shares with SHA-256. *)

From S2P Require Import Prelude Rsa Sha2 Sha2Spec.

Record SHA1_CTX := mkSHA1 { count : Z; state : list Z; buf : list Z }.
#[global] Instance eta_SHA1 : Eta SHA1_CTX := fun r => mkSHA1 (count r) (state r) (buf r).

Definition rol (bits value : Z) : Z := Z.lor (u32 (Z.shiftl value bits)) (Z.shiftr value (32 - bits)).
(** W[0] to W[79]. *)
Definition next_W (W : list Z) : Z :=
  let back t := W !!! (length W - t)%nat in
  rol 1 (Z.lxor (Z.lxor (Z.lxor (back 3%nat) (back 8%nat)) (back 14%nat)) (back 16%nat)).
Definition SHA1_W (block : list Z) : list Z := Nat.iter 64 (fun W => W ++ [next_W W]) (words_of_bytes (take 64 block)).
Definition SHA1_round (tw : nat * Z) (v : list Z) : list Z :=
  let '(t, w) := tw in
  match v with
  | [A; B; C; D; E] =>
      let tmp := u32 (rol 5 A + E + w) in
      let tmp :=
        if (t <? 20)%nat then u32 (tmp + (Z.lxor D (Z.land B (Z.lxor C D)) + 1518500249))
        else if (t <? 40)%nat then u32 (tmp + (Z.lxor (Z.lxor B C) D + 1859775393))
        else if (t <? 60)%nat then u32 (tmp + (Z.lor (Z.land B C) (Z.land D (Z.lor B C)) + 2400959708))
        else u32 (tmp + (Z.lxor (Z.lxor B C) D + 3395469782)) in
      [tmp; A; rol 30 B; C; D]
  | _ => v
  end.
Definition SHA1_compress (st block : list Z) : list Z :=
  zip_with (fun x y => u32 (x + y)) st (foldl (fun v tw => SHA1_round tw v) st (zip (seq 0 80) (SHA1_W block))).
Definition SHA1_transform (ctx : SHA1_CTX) : SHA1_CTX := ctx <| state := SHA1_compress (state ctx) (buf ctx) |>.

Definition SHA1_init (ctx : SHA1_CTX) : SHA1_CTX :=
  ctx <| state := [1732584193; 4023233417; 2562383102; 271733878; 3285377520] |> <| count := 0 |>.
(** One turn of the loop over the bytes, [i] and the context. *)
Definition put_byte (s : nat * SHA1_CTX) (b : Z) : nat * SHA1_CTX :=
  let '(i, ctx) := s in
  let ctx := ctx <| buf := <[i := b]> (buf ctx) |> in
  if (S i =? 64)%nat then (0%nat, SHA1_transform ctx) else (S i, ctx).
Definition SHA1_update (ctx : SHA1_CTX) (data : list Z) : SHA1_CTX :=
  let i := Z.to_nat (count ctx `mod` 64) in
  (foldl put_byte (i, ctx <| count := u64 (count ctx + zlen data) |>) data).2.
Definition SHA1_final : M SHA1_CTX (list Z) :=
  cnt ← gets (fun ctx => u64 (count ctx * 8));
  modify (fun ctx => SHA1_update ctx [128]);;
  loop 64 (fun _ => ctx ← mget;
    if count ctx `mod` 64 =? 56 then mret (inr ()) else modify (fun ctx => SHA1_update ctx [0]);; mret (inl ())) ();;
  for_each (fun i => modify (fun ctx => SHA1_update ctx [Z.land (Z.shiftr cnt ((7 - i) * 8)) 255])) (seqZ 0 8);;
  modify (fun ctx => ctx <| buf := bytes_of_words (state ctx) ++ drop 20 (buf ctx) |>);;
  gets buf.
(** The digest, from a context with anything in it. *)
Definition SHA1 (ctx : SHA1_CTX) (data : list Z) : result (list Z) :=
  match SHA1_final (SHA1_update (SHA1_init ctx) data) with Val (p, _) => Val (take 20 p) | Fault f => Fault f end.

(** ** The standard *)

Section standard.
Definition rotl (n x : Z) : Z := rotr sha256 (32 - n) x.
Definition f_t (t : nat) (x y z : Z) : Z :=
  if (t <? 20)%nat then Ch x y z else if (t <? 40)%nat then Z.lxor (Z.lxor x y) z
  else if (t <? 60)%nat then Maj x y z else Z.lxor (Z.lxor x y) z.
(** The fractions of square roots of 2, 3, 5 and 10, thirty bits. *)
Definition K_t (t : nat) : Z := Z.sqrt ((if (t <? 20)%nat then 2 else if (t <? 40)%nat then 3 else if (t <? 60)%nat then 5 else 10) * 2 ^ 60).
Definition sha1_schedule (block : list Z) : list Z :=
  Nat.iter 64 (fun W => let back t := W !!! (length W - t)%nat in
    W ++ [rotl 1 (Z.lxor (Z.lxor (Z.lxor (back 3%nat) (back 8%nat)) (back 14%nat)) (back 16%nat))]) (be <$> chunks 4 16 block).
Definition sha1_working (tw : nat * Z) (v : list Z) : list Z :=
  match v with
  | [a; b; c; d; e] => [sum sha256 [rotl 5 a; f_t tw.1 b c d; e; K_t tw.1; tw.2]; a; rotl 30 b; c; d]
  | _ => v
  end.
Definition sha1_compress (H block : list Z) : list Z :=
  zip_with (fun x y => sum sha256 [x; y]) H (foldl (fun v tw => sha1_working tw v) H (zip (seq 0 80) (sha1_schedule block))).
Definition sha1_H0 : list Z := be <$> [hex "67452301"; hex "efcdab89"; hex "98badcfe"; hex "10325476"; hex "c3d2e1f0"]%string.
Definition sha1_hash (message : list Z) : list Z :=
  let padded := pad sha256 (8 * zlen message) message in
  foldl sha1_compress sha1_H0 (chunks 64 (length padded / 64) padded) ≫= be_bytes 4.
End standard.

(** ** One block *)

Abbreviation word32 := (word sha256).
Abbreviation words32 := (Forall word32).
Lemma u32_wrap z : u32 z = wrap sha256 z.
Proof. symmetry. apply (wrap_mod sha256 sha256_ok). Qed.
Lemma rol_rotl n x : 0 < n < 32 → word32 x → rol n x = rotl n x.
Proof.
  intros Hn Hx. unfold rotl. rewrite <-(ROTR_rotr sha256 sha256_ok) by (done || (change (bits sha256) with 32; lia)).
  unfold rol, ROTR. rewrite Z.lor_comm, u32_wrap. do 3 f_equal. change (bits sha256) with 32. lia.
Qed.
Lemma bits_word x : word32 x ↔ 0 ≤ x ∧ ∀ i, 32 ≤ i → Z.testbit x i = false.
Proof.
  unfold word. change (bits sha256) with 32. split.
  - intros Hx. split; [lia|]. intros i Hi. rewrite <-(Z.mod_small x (2 ^ 32)) by done. apply Z.mod_pow2_bits_high. lia.
  - intros [Hx Hi]. replace x with (x `mod` 2 ^ 32); [apply Z.mod_pos_bound; lia|]. apply Z.bits_inj'. intros i Hi0.
    destruct (Z.lt_ge_cases i 32); [by apply Z.mod_pow2_bits_low|]. rewrite Z.mod_pow2_bits_high, Hi by lia. done.
Qed.
Lemma lxor_word x y : word32 x → word32 y → word32 (Z.lxor x y).
Proof.
  rewrite !bits_word. intros [Hx Hxi] [Hy Hyi]. split; [apply Z.lxor_nonneg; lia|]. intros i Hi. by rewrite Z.lxor_spec, Hxi, Hyi.
Qed.
Lemma rotl_word n x : 0 < n < 32 → word32 x → word32 (rotl n x).
Proof.
  intros Hn Hx. rewrite <-rol_rotl by done. apply bits_word in Hx as [Hx Hi]. pose proof (u32_range (Z.shiftl x n)) as Hu.
  assert (word32 (u32 (Z.shiftl x n))) as [Hu0 Hui]%bits_word by exact Hu. apply bits_word.
  split; [apply Z.lor_nonneg; split; [done|by apply Z.shiftr_nonneg]|]. intros i Hii. unfold rol.
  rewrite Z.lor_spec, Hui, Z.shiftr_spec, Hi by lia. done.
Qed.
Lemma Ch_by_xor x y z : Z.lxor z (Z.land x (Z.lxor y z)) = Ch x y z.
Proof.
  apply Z.bits_inj'. intros i Hi. unfold Ch. rewrite !Z.lxor_spec, !Z.land_spec, Z.lxor_spec, Z.lnot_spec by done.
  by destruct (Z.testbit x i), (Z.testbit y i), (Z.testbit z i).
Qed.
Lemma Maj_by_or x y z : Z.lor (Z.land x y) (Z.land z (Z.lor x y)) = Maj x y z.
Proof.
  apply Z.bits_inj'. intros i Hi. unfold Maj. rewrite !Z.lxor_spec, Z.lor_spec, !Z.land_spec, Z.lor_spec.
  by destruct (Z.testbit x i), (Z.testbit y i), (Z.testbit z i).
Qed.
Lemma words_of_bytes_chunks k b : length b = (4 * k)%nat → octets b →
  words_of_bytes b = be <$> chunks 4 k b ∧ words32 (words_of_bytes b) ∧ length (words_of_bytes b) = k.
Proof.
  revert b. induction k as [|k IH]; intros b Hl Ho; [by destruct b|].
  destruct b as [|b3 [|b2 [|b1 [|b0 b]]]]; [cbn in Hl; lia..|]. rewrite !Forall_cons in Ho. destruct Ho as (H3 & H2 & H1 & H00 & Ho).
  destruct (IH b) as (IHe & IHw & IHl); [cbn in Hl; lia|done|]. cbn [words_of_bytes]. rewrite word_of_bytes by done.
  split; [by rewrite IHe|]. split; [|cbn [length]; by rewrite IHl]. constructor; [|done].
  unfold word. change (bits sha256) with (8 * zlen [b3; b2; b1; b0]). apply be_range. repeat (apply Forall_cons; split; [done|]). by apply Forall_nil.
Qed.
Lemma SHA1_W_schedule block : octets block → length block = 64%nat →
  SHA1_W block = sha1_schedule block ∧ words32 (SHA1_W block) ∧ length (SHA1_W block) = 80%nat.
Proof.
  intros Ho Hl. destruct (words_of_bytes_chunks 16 block) as (He & Hw & Hlw); [done|done|].
  unfold SHA1_W, sha1_schedule. rewrite take_ge, <-He by lia.
  enough (∀ m, let W := Nat.iter m (fun W => W ++ [next_W W]) (words_of_bytes block) in
    W = Nat.iter m (fun W => let back t := W !!! (length W - t)%nat in
      W ++ [rotl 1 (Z.lxor (Z.lxor (Z.lxor (back 3%nat) (back 8%nat)) (back 14%nat)) (back 16%nat))]) (words_of_bytes block) ∧
    words32 W ∧ length W = (16 + m)%nat) as Hm by (destruct (Hm 64%nat) as (? & ? & ?); by split_and!).
  cbv zeta. induction m as [|m (IHe & IHw & IHl)]; [by rewrite Nat.add_0_r|]. rewrite !Nat.iter_succ, <-IHe.
  assert (∀ t, (1 ≤ t ≤ 16)%nat → word32 (Nat.iter m (fun W => W ++ [next_W W]) (words_of_bytes block) !!!
    (length (Nat.iter m (fun W => W ++ [next_W W]) (words_of_bytes block)) - t)%nat)) as Hback by (intros t Ht; apply word_at; [done|lia]).
  set (W := Nat.iter m _ _) in *. assert (word32 (Z.lxor (Z.lxor (Z.lxor (W !!! (length W - 3)%nat) (W !!! (length W - 8)%nat)) (W !!! (length W - 14)%nat))
    (W !!! (length W - 16)%nat))) as Hx by (repeat apply lxor_word; apply Hback; lia).
  unfold next_W. rewrite rol_rotl by done. split_and!; [done| |rewrite length_app, IHl; cbn; lia].
  apply Forall_app. split; [done|]. constructor; [by apply rotl_word|done].
Qed.
Lemma K_values : K_t 0 = 1518500249 ∧ K_t 20 = 1859775393 ∧ K_t 40 = 2400959708 ∧ K_t 60 = 3395469782.
Proof. by vm_compute. Qed.
Lemma tmp_sum a e w f k : u32 (u32 (a + e + w) + (f + k)) = sum sha256 [a; f; e; k; w].
Proof. unfold u32, sum. change (bits sha256) with 32. rewrite Zplus_mod_idemp_l. f_equal. cbn [foldr]. lia. Qed.
Lemma SHA1_round_working tw v : words32 v → length v = 5%nat →
  SHA1_round tw v = sha1_working tw v ∧ words32 (SHA1_round tw v) ∧ length (SHA1_round tw v) = 5%nat.
Proof.
  intros Hw Hl. destruct tw as [t w]. do 6 (destruct v as [|? v]; try done). rewrite !Forall_cons in Hw. destruct Hw as (? & ? & ? & ? & ? & _).
  cbn [SHA1_round sha1_working fst snd]. rewrite !rol_rotl by (done || lia). rewrite Ch_by_xor, Maj_by_or.
  destruct K_values as (K0 & K1 & K2 & K3). unfold f_t, K_t in *. cbn in K0, K1, K2, K3.
  set (tmp := if (t <? 20)%nat then _ else _). assert (tmp = sum sha256 [rotl 5 z; f_t t z0 z1 z2; z3; K_t t; w]) as ->.
  { unfold tmp, f_t, K_t. destruct (t <? 20)%nat; [rewrite K0; apply tmp_sum|]. destruct (t <? 40)%nat; [rewrite K1; apply tmp_sum|].
    destruct (t <? 60)%nat; [rewrite K2|rewrite K3]; apply tmp_sum. }
  split; [done|]. split; [|done]. repeat (apply Forall_cons; split; [apply (sum_word sha256 sha256_ok) || (apply rotl_word; done || lia) || done|]).
  by apply Forall_nil.
Qed.
Lemma SHA1_rounds_working tws v : words32 v → length v = 5%nat →
  foldl (fun v tw => SHA1_round tw v) v tws = foldl (fun v tw => sha1_working tw v) v tws ∧
  words32 (foldl (fun v tw => SHA1_round tw v) v tws) ∧ length (foldl (fun v tw => SHA1_round tw v) v tws) = 5%nat.
Proof.
  revert v. induction tws as [|tw tws IH]; intros v Hw Hl; [done|]. cbn [foldl].
  destruct (SHA1_round_working tw v) as (<- & ? & ?); [done..|]. by apply IH.
Qed.
Lemma SHA1_compress_spec st block : words32 st → length st = 5%nat → octets block → length block = 64%nat →
  SHA1_compress st block = sha1_compress st block ∧ words32 (SHA1_compress st block) ∧ length (SHA1_compress st block) = 5%nat.
Proof.
  intros Hw Hl Ho Hb. destruct (SHA1_W_schedule block) as (Hs & _ & _); [done..|]. unfold SHA1_compress, sha1_compress. rewrite <-Hs.
  destruct (SHA1_rounds_working (zip (seq 0 80) (SHA1_W block)) st) as (<- & _ & Hl'); [done..|]. split_and!.
  - apply zip_with_ext; [|done..]. intros x y. rewrite u32_wrap. apply (wrap_add2 sha256 sha256_ok).
  - erewrite zip_with_ext; [apply (zip_words sha256 sha256_ok)| |done|done]. intros x y. apply u32_wrap.
  - by rewrite length_zip_with, Hl, Hl'.
Qed.

(** ** Contexts *)

(** What [put_byte]'s index and context hold after the bytes [D]. *)
Record holds (i : nat) (ctx : SHA1_CTX) (D : list Z) (n : nat) (full tail rest : list Z) : Prop := {
  hd_data : D = full ++ tail;
  hd_full : length full = (64 * n)%nat;
  hd_tail : length tail = i ∧ (i < 64)%nat;
  hd_octets : octets (full ++ tail);
  hd_state : state ctx = foldl sha1_compress sha1_H0 (chunks 64 n full);
  hd_words : words32 (state ctx) ∧ length (state ctx) = 5%nat;
  hd_buf : buf ctx = tail ++ rest ∧ length (tail ++ rest) = 64%nat
}.
Lemma chunks_64 n m a b : length a = (64 * n)%nat → chunks 64 (n + m) (a ++ b) = chunks 64 n a ++ chunks 64 m b.
Proof. exact (chunks_app sha256 n m a b). Qed.
Lemma put_byte_holds i ctx D n full tail rest b : holds i ctx D n full tail rest → is_byte b →
  ∃ n full tail rest, holds (put_byte (i, ctx) b).1 (put_byte (i, ctx) b).2 (D ++ [b]) n full tail rest.
Proof.
  intros [-> Hf [Hi Hlt] Ho Hs [Hw Hw5] [Hb Hbl]] Hby. rewrite length_app in Hbl.
  destruct rest as [|r rest]; [cbn in Hbl; lia|]. cbn [length] in Hbl.
  assert (<[i:=b]> (buf ctx) = (tail ++ [b]) ++ rest) as Hbuf.
  { rewrite Hb, insert_app_r_alt, Hi, Nat.sub_diag by lia. by rewrite <-app_assoc. }
  assert (octets (tail ++ [b])) as Hot by (apply Forall_app in Ho as [_ ?]; apply Forall_app; split; [done|by constructor]).
  assert (length (tail ++ [b]) = S i) as Hlt' by (rewrite length_app; cbn; lia).
  unfold put_byte. destruct (Nat.eqb_spec (S i) 64) as [Hfull|Hne].
  - assert (rest = []) as -> by (destruct rest; [done|cbn in Hbl; lia]). rewrite app_nil_r in Hbuf.
    destruct (SHA1_compress_spec (state ctx) (tail ++ [b])) as (He & ? & ?); [done..|by rewrite Hlt'|].
    cbn [fst snd]. set (ctx' := SHA1_transform _). assert (state ctx' = SHA1_compress (state ctx) (<[i:=b]> (buf ctx))) as Hst by done.
    assert (buf ctx' = <[i:=b]> (buf ctx)) as Hbuf' by done. rewrite Hbuf in Hst, Hbuf'. clearbody ctx'.
    exists (S n), (full ++ tail ++ [b]), [], (tail ++ [b]). split.
    + by rewrite app_nil_r, <-app_assoc.
    + rewrite length_app, Hlt'. lia.
    + cbn [length]. lia.
    + apply Forall_app in Ho as [? _]. rewrite app_nil_r. by apply Forall_app.
    + rewrite Hst, He, Hs, <-(Nat.add_1_r n), chunks_64 by done. rewrite foldl_app. cbn [chunks foldl].
      rewrite take_ge by lia. done.
    + by rewrite Hst.
    + split; [done|]. by rewrite app_nil_l, Hlt'.
  - cbn [fst snd]. exists n, full, (tail ++ [b]), rest. split; [by rewrite <-app_assoc|done|split; [done|lia]| |exact Hs|exact (conj Hw Hw5)|].
    + rewrite app_assoc. apply Forall_app. split; [done|by constructor].
    + split; [by rewrite Hbuf|]. rewrite length_app, Hlt'. lia.
Qed.
Definition sha1_computes (ctx : SHA1_CTX) (D : list Z) : Prop :=
  count ctx = u64 (zlen D) ∧ ∃ i n full tail rest, holds i ctx D n full tail rest.
Lemma u64_mod_64 z : u64 z `mod` 64 = z `mod` 64.
Proof. unfold u64. change (2 ^ 64) with (64 * 2 ^ 58). rewrite Z.rem_mul_r, Z.mul_comm, Z_mod_plus_full by lia. apply Zmod_mod. Qed.
Lemma holds_index i ctx D n full tail rest : holds i ctx D n full tail rest → zlen D `mod` 64 = Z.of_nat i.
Proof.
  intros [-> Hf [Hi Hlt] _ _ _ _]. rewrite zlen_app, Z.add_comm. unfold zlen. rewrite Hf, Nat2Z.inj_mul, Z.mul_comm, Z_mod_plus_full, Z.mod_small; lia.
Qed.
Lemma put_byte_count i ctx data : count (foldl put_byte (i, ctx) data).2 = count ctx.
Proof.
  revert i ctx. induction data as [|b data IH]; intros i ctx; [done|]. cbn [foldl put_byte].
  destruct (S i =? 64)%nat; by rewrite IH.
Qed.
Lemma put_bytes_holds i ctx D n full tail rest data : holds i ctx D n full tail rest → octets data →
  ∃ i' n full tail rest, holds i' (foldl put_byte (i, ctx) data).2 (D ++ data) n full tail rest.
Proof.
  intros Hh Ho. revert i ctx D n full tail rest Hh. induction Ho as [|b data Hb _ IH]; intros i ctx D n full tail rest Hh.
  { rewrite app_nil_r. by exists i, n, full, tail, rest. }
  destruct (put_byte_holds _ _ _ _ _ _ _ b Hh Hb) as (n' & f' & t' & r' & Hh'). rewrite (cons_middle b D), app_assoc. cbn [foldl].
  rewrite (surjective_pairing (put_byte (i, ctx) b)). by eapply IH.
Qed.
Lemma SHA1_update_computes ctx D data : sha1_computes ctx D → octets data → sha1_computes (SHA1_update ctx data) (D ++ data).
Proof.
  intros (Hc & i & n & full & tail & rest & Hh) Ho. pose proof (holds_index _ _ _ _ _ _ _ Hh) as Hi. unfold SHA1_update. split.
  - rewrite put_byte_count, zlen_app. change (u64 (count ctx + zlen data) = u64 (zlen D + zlen data)). rewrite Hc. unfold u64. by rewrite Zplus_mod_idemp_l.
  - rewrite Hc, u64_mod_64, Hi, Nat2Z.id. destruct Hh as [? ? ? ? ? ? ?]. eapply put_bytes_holds; [split|]; done.
Qed.
Lemma SHA1_init_computes ctx : length (buf ctx) = 64%nat → sha1_computes (SHA1_init ctx) [].
Proof.
  intros Hb. split; [done|]. exists 0%nat, 0%nat, [], [], (buf ctx). split; [done|done|split; [done|lia]|done|done| |done].
  apply (bool_decide_unpack _). by vm_compute.
Qed.

(** ** The padding and the digest *)

Lemma bytes_of_word_be_bytes w : bytes_of_word w = be_bytes 4 w.
Proof.
  unfold bytes_of_word, be_bytes. rewrite !Z.shiftr_div_pow2 by lia. cbn -[Z.pow Z.div Z.modulo].
  change (256 ^ (4 - 1 - 0)) with (2 ^ 24). change (256 ^ (4 - 1 - 1)) with (2 ^ 16). change (256 ^ (4 - 1 - 2)) with (2 ^ 8).
  change (256 ^ (4 - 1 - 3)) with 1. by rewrite Z.div_1_r.
Qed.
Lemma for_each_modify {S A} (f : A → S → S) l s : for_each (fun x => modify (f x)) l s = Val ((), foldl (fun s x => f x s) s l).
Proof. revert s. induction l as [|x l IH]; intros s; [done|]. cbn [for_each foldl]. rewrite <-IH. done. Qed.
Lemma updates_compute ctx D data : sha1_computes ctx D → octets data →
  sha1_computes (foldl (fun ctx b => SHA1_update ctx [b]) ctx data) (D ++ data).
Proof.
  intros Hc Ho. revert ctx D Hc. induction Ho as [|b data Hb _ IH]; intros ctx D Hc; [by rewrite app_nil_r|].
  cbn [foldl]. rewrite (cons_middle b D), app_assoc. apply IH. apply SHA1_update_computes; [done|by constructor].
Qed.
Definition pad_step (_ : unit) : M SHA1_CTX (unit + unit) :=
  ctx ← mget;
  if count ctx `mod` 64 =? 56 then mret (inr ()) else modify (fun ctx => SHA1_update ctx [0]);; mret (inl ()).
Lemma zeros_56 D z : (z ≤ zeros sha256 D)%nat →
  u64 (zlen (D ++ [128] ++ replicate z 0)) `mod` 64 = 56 ↔ z = zeros sha256 D.
Proof.
  intros Hz. rewrite u64_mod_64, !zlen_app. unfold zeros in *. change (last_data sha256) with 55 in *. change (BLOCK_SIZE sha256) with 64 in *.
  change (zlen [128]) with 1. unfold zlen at 2. rewrite length_replicate. set (l := zlen D) in *. clearbody l.
  pose proof (Z.mod_pos_bound (55 - l) 64 ltac:(lia)). pose proof (Z.div_mod (55 - l) 64 ltac:(lia)). split.
  - intros Hm. pose proof (Z.div_mod (l + (1 + Z.of_nat z)) 64 ltac:(lia)). lia.
  - intros ->. rewrite Z2Nat.id by lia. replace (l + (1 + (55 - l) `mod` 64)) with (56 + (- ((55 - l) `div` 64)) * 64) by lia.
    by rewrite Z_mod_plus_full.
Qed.
Lemma pads_with_zeros ctx D : sha1_computes ctx (D ++ [128]) →
  ∃ ctx', loop 64 pad_step () ctx = Val ((), ctx') ∧ sha1_computes ctx' (D ++ [128] ++ replicate (zeros sha256 D) 0).
Proof.
  intros Hc. assert (zeros sha256 D < 64)%nat as Hz64.
  { unfold zeros. change (BLOCK_SIZE sha256) with 64. pose proof (Z.mod_pos_bound (last_data sha256 - zlen D) 64). lia. }
  enough (∀ fuel z ctx, (z ≤ zeros sha256 D)%nat → (zeros sha256 D - z < fuel)%nat → sha1_computes ctx (D ++ [128] ++ replicate z 0) →
    ∃ ctx', loop fuel pad_step () ctx = Val ((), ctx') ∧ sha1_computes ctx' (D ++ [128] ++ replicate (zeros sha256 D) 0)) as Hloop.
  { by apply (Hloop 64%nat 0%nat); [lia|lia|]. }
  clear ctx Hc. induction fuel as [|fuel IH]; intros z ctx Hz Hf Hc; [lia|]. rewrite loop_S. unfold pad_step at 1. mrun.
  pose proof (zeros_56 D z Hz) as H56. rewrite <-(proj1 Hc) in H56. destruct (Z.eqb_spec (count ctx `mod` 64) 56) as [He|Hne].
  - exists ctx. split; [done|]. by rewrite <-(proj1 H56 He).
  - apply (IH (S z)); [|lia|].
    + destruct (decide (z = zeros sha256 D)) as [->|]; [|lia]. by destruct Hne; apply H56.
    + pose proof (SHA1_update_computes ctx _ [0] Hc ltac:(by constructor)) as Hu.
      by rewrite replicate_S_end, !app_assoc, <-app_assoc, <-!app_assoc in *.
Qed.
Lemma sha1_blocks ctx D : sha1_computes ctx D → (length D `mod` 64 = 0)%nat →
  state ctx = foldl sha1_compress sha1_H0 (chunks 64 (length D / 64) D) ∧ length (state ctx) = 5%nat ∧ length (buf ctx) = 64%nat.
Proof.
  intros (_ & i & n & full & tail & rest & Hh) Hm. destruct Hh as [-> Hf [Hi Hlt] _ Hs [_ Hw5] [Hb Hbl]].
  assert (i = 0)%nat as -> by (rewrite length_app, Hf, Hi, Nat.mul_comm, Nat.add_comm, Nat.Div0.mod_add, Nat.mod_small in Hm; done).
  destruct tail; [|done]. rewrite app_nil_r, Hf, Nat.mul_comm, Nat.div_mul by done. rewrite Hb. done.
Qed.
Lemma length_pad D lf : (length (pad sha256 lf D) `mod` 64 = 0)%nat.
Proof.
  unfold pad, zeros. rewrite !length_app, length_replicate, length_be_bytes. cbn [length]. change (last_data sha256) with 55.
  change (BLOCK_SIZE sha256) with 64. change (Z.to_nat (64 - 55 - 1)) with 8%nat. unfold zlen.
  pose proof (Z.mod_pos_bound (55 - Z.of_nat (length D)) 64 ltac:(lia)). pose proof (Z.div_mod (55 - Z.of_nat (length D)) 64 ltac:(lia)).
  apply Nat.Div0.mod_divides. exists (Z.to_nat (1 - (55 - Z.of_nat (length D)) `div` 64)). lia.
Qed.
Lemma pieces_compute ctx D pieces : sha1_computes ctx D → Forall octets pieces → sha1_computes (foldl SHA1_update ctx pieces) (D ++ concat pieces).
Proof.
  intros Hc Hp. revert ctx D Hc. induction Hp as [|piece pieces Ho _ IH]; intros ctx D Hc; cbn [concat foldl]; [by rewrite app_nil_r|].
  rewrite app_assoc. apply IH. by apply SHA1_update_computes.
Qed.
Lemma SHA1_final_hash ctx D : sha1_computes ctx D → zlen D < 2 ^ 61 →
  ∃ p ctx', SHA1_final ctx = Val (p, ctx') ∧ take 20 p = sha1_hash D.
Proof.
  intros Hc Hmax. pose proof (zlen_nonneg D) as Hpos. unfold SHA1_final. rewrite gets_bind.
  assert (u64 (count ctx * 8) = 8 * zlen D) as Hcnt.
  { rewrite (proj1 Hc). unfold u64. rewrite Zmult_mod_idemp_l, Z.mod_small; lia. }
  rewrite Hcnt. pose proof (SHA1_update_computes ctx D [128] Hc ltac:(by constructor)) as Hc1.
  destruct (pads_with_zeros _ D Hc1) as (ctx2 & Hloop & Hc2). 
  rewrite (bind_run (modify _) _ ctx () (SHA1_update ctx [128]) eq_refl). fold pad_step.
  rewrite (bind_run (loop 64 _ ()) _ _ () ctx2 Hloop), (bind_run _ _ _ _ _ (for_each_modify _ _ _)).
  set (ctx3 := foldl _ ctx2 _). assert (sha1_computes ctx3 (pad sha256 (8 * zlen D) D)) as Hc3.
  { pose proof (updates_compute ctx2 _ (be_bytes 8 (8 * zlen D)) Hc2 (be_bytes_octets _ _)) as Hu.
    assert (be_bytes 8 (8 * zlen D) = (fun i => Z.land (Z.shiftr (8 * zlen D) ((7 - i) * 8)) 255) <$> seqZ 0 8) as Hbytes
      by (rewrite <-UNPACK_be_bytes; generalize (8 * zlen D); reflexivity).
    rewrite Hbytes, foldl_fmap in Hu. fold ctx3 in Hu. rewrite <-Hbytes in Hu.
    unfold pad. by rewrite <-!app_assoc in Hu. }
  pose proof (length_pad D (8 * zlen D)) as Hlp. destruct (sha1_blocks ctx3 _ Hc3 Hlp) as (Hst & Hl5 & Hl64).
  eexists _, _. split; [reflexivity|]. change (take 20 (bytes_of_words (state ctx3) ++ drop 20 (buf ctx3)) = sha1_hash D).
  unfold bytes_of_words. rewrite (list_bind_ext bytes_of_word (be_bytes 4) (state ctx3) (state ctx3)) by (done || apply bytes_of_word_be_bytes).
  rewrite take_app_length'; [unfold sha1_hash; by rewrite Hst|].
  revert Hl5. clear. generalize (state ctx3). intros l Hl5. do 6 (destruct l as [|? l]; try done).
Qed.

(** C8. SHA1_final ends after the 0x80, at most 63 zeros and the length, and what it returns is
    the standard's SHA-1 of all the bytes that SHA1_update got in pieces, whatever the context
    held before SHA1_init. *)
Theorem SHA1_hashes_the_pieces ctx pieces : zlen (buf ctx) = 64 → Forall octets pieces → zlen (concat pieces) < 2 ^ 61 →
  ∃ p ctx', SHA1_final (foldl SHA1_update (SHA1_init ctx) pieces) = Val (p, ctx') ∧ take 20 p = sha1_hash (concat pieces).
Proof.
  intros Hb Ho Hmax. apply SHA1_final_hash; [|done]. apply (pieces_compute _ []); [|done]. apply SHA1_init_computes. unfold zlen in Hb. lia.
Qed.
Lemma SHA1_hashes_the_pieces_witness : ∃ p ctx',
  SHA1_final (foldl SHA1_update (SHA1_init (mkSHA1 3 [] (replicate 64 9))) [[97]; []; [98; 99]]) = Val (p, ctx') ∧
  take 20 p = hex ("a9993e364706816aba3e25717850c26c9cd0d89d")%string.
Proof.
  replace (hex _) with (sha1_hash (concat [[97]; []; [98; 99]])) by (vm_compute; reflexivity).
  apply SHA1_hashes_the_pieces; [done| |done]. apply (bool_decide_unpack _). vm_compute. exact Logic.I.
Defined.
