(* ===== verification/Firmware.v ===== *)
(** * Verified boot of a firmware image: crypto/sha_utility.c, RSAVerifyBinary_f of
    crypto/rsa_utility.c and utils/firmware_image.c of vboot_reference.

    A pointer is the list of the bytes that are readable from it on, and reading past
    them is [Undefined].  Files that are written get all that is written to them. *)

From S2P Require Import Prelude Rsa Sha2 Sha2Spec Sha1.

#[global] Instance result_ret : MRet result := @Val.
#[global] Instance result_bind : MBind result := fun A B k m => match m with Val a => k a | Fault f => Fault f end.

(** [n] bytes from the offset [off] on. *)
Definition read_at (p : list Z) (off n : Z) : result (list Z) :=
  if bool_decide (0 ≤ off ∧ 0 ≤ n ∧ off + n ≤ zlen p) then Val (take (Z.to_nat n) (drop (Z.to_nat off) p)) else Fault Undefined.
(** An array that is indexed by an algorithm. *)
Definition indexed {A} (table : Z → A) (algorithm : Z) : result A :=
  if bool_decide (0 ≤ algorithm < kNumAlgorithms) then Val (table algorithm) else Fault Undefined.
(** 0 if the bytes are the same. *)
Definition SafeMemcmp (s1 s2 : list Z) : Z := foldl (fun m xy => if xy.1 =? xy.2 then m else 1) 0 (zip s1 s2).

(** ** sha_utility.c *)

Definition SHA1_DIGEST_ALGORITHM : Z := 0.
Definition SHA256_DIGEST_ALGORITHM : Z := 1.
Definition SHA512_DIGEST_ALGORITHM : Z := 2.
Definition digest_type_map : Z → Z :=
  of_algorithm 0 (concat (replicate 4 [SHA1_DIGEST_ALGORITHM; SHA256_DIGEST_ALGORITHM; SHA512_DIGEST_ALGORITHM])).
Record DigestContext := mkDigest { sha1_ctx : option SHA1_CTX; sha256_ctx : option CTX; sha512_ctx : option CTX; algorithm : Z }.
#[global] Instance eta_DigestContext : Eta DigestContext :=
  fun r => mkDigest (sha1_ctx r) (sha256_ctx r) (sha512_ctx r) (algorithm r).
(** What the memory that the contexts get holds before. *)
Record Memory := mkMemory { sha1_mem : SHA1_CTX; sha256_mem : CTX; sha512_mem : CTX }.
Definition deref {A} (p : option A) : result A := match p with Some a => Val a | None => Fault Undefined end.
(** SHA1_final with the context that it leaves. *)
Definition finish (ctx : SHA1_CTX) : result (list Z) := match SHA1_final ctx with Val (p, _) => Val p | Fault f => Fault f end.

Section digests.
Context (mem : Memory).
Definition DigestInit (sig_algorithm : Z) : result DigestContext :=
  type ← indexed digest_type_map sig_algorithm;
  let ctx := mkDigest None None None type in
  if type =? SHA1_DIGEST_ALGORITHM then mret (ctx <| sha1_ctx := Some (SHA1_init (sha1_mem mem)) |>)
  else if type =? SHA256_DIGEST_ALGORITHM then mret (ctx <| sha256_ctx := Some (SHA256_init (sha256_mem mem)) |>)
  else if type =? SHA512_DIGEST_ALGORITHM then mret (ctx <| sha512_ctx := Some (SHA512_init (sha512_mem mem)) |>)
  else mret ctx.
Definition DigestUpdate (ctx : DigestContext) (data : list Z) (len : Z) : result DigestContext :=
  data ← read_at data 0 len;
  if algorithm ctx =? SHA1_DIGEST_ALGORITHM then
    c ← deref (sha1_ctx ctx); mret (ctx <| sha1_ctx := Some (SHA1_update c data) |>)
  else if algorithm ctx =? SHA256_DIGEST_ALGORITHM then
    c ← deref (sha256_ctx ctx); mret (ctx <| sha256_ctx := Some (SHA256_update c data) |>)
  else if algorithm ctx =? SHA512_DIGEST_ALGORITHM then
    c ← deref (sha512_ctx ctx); mret (ctx <| sha512_ctx := Some (SHA512_update c data) |>)
  else mret ctx.
(** The digest, [[]] for NULL. *)
Definition DigestFinal (ctx : DigestContext) : result (list Z) :=
  if algorithm ctx =? SHA1_DIGEST_ALGORITHM then
    c ← deref (sha1_ctx ctx); p ← finish c; read_at p 0 SHA1_DIGEST_SIZE
  else if algorithm ctx =? SHA256_DIGEST_ALGORITHM then
    c ← deref (sha256_ctx ctx); read_at (Sha2.buf (SHA256_final c)) 0 SHA256_DIGEST_SIZE
  else if algorithm ctx =? SHA512_DIGEST_ALGORITHM then
    c ← deref (sha512_ctx ctx); read_at (Sha2.buf (SHA512_final c)) 0 SHA512_DIGEST_SIZE
  else mret [].
(** What is written to the 64 bytes of the digest. *)
Definition DigestBuf (buf : list Z) (len sig_algorithm : Z) : result (list Z) :=
  let hash := of_algorithm (fun _ => Fault Undefined) (concat (replicate 4
    [(fun data => p ← finish (SHA1_update (SHA1_init (sha1_mem mem)) data); read_at p 0 SHA1_DIGEST_SIZE);
     (fun data => read_at (SHA256 (sha256_mem mem) data) 0 SHA256_DIGEST_SIZE);
     (fun data => read_at (SHA512 (sha512_mem mem) data) 0 SHA512_DIGEST_SIZE)])) in
  hash ← indexed hash sig_algorithm;
  data ← read_at buf 0 len;
  hash data.

(** ** RSAVerifyBinary_f *)

Definition RSA_verify_at (key : option RSAPublicKey) (sig : list Z) (sig_len sig_type : Z) (hash : list Z) : result Z :=
  key ← deref key; RSA_verify key sig sig_len sig_type hash.
Definition RSAVerifyBinary_f (key_blob : option (list Z)) (key : option RSAPublicKey) (buf : list Z) (len : Z)
    (sig : list Z) (algorithm : Z) : result Z :=
  if kNumAlgorithms <=? algorithm then mret 0
  else
    siglen ← indexed siglen_map algorithm;
    let key_size := RSAProcessedKeySize algorithm in
    let sig_size := siglen * 4 in
    let verify (verification_key : option RSAPublicKey) : result Z :=
      digest ← DigestBuf buf len algorithm;
      RSA_verify_at verification_key sig sig_size algorithm digest in
    match key_blob, key with
    | Some key_blob, None => verification_key ← RSAPublicKeyFromBuf key_blob key_size; verify verification_key
    | None, Some key => verify (Some key)
    | _, _ => mret 0
    end.

(** ** firmware_image.c: verification of an image in memory *)

Definition FIRMWARE_MAGIC : list Z := [67; 72; 82; 79; 77; 69; 79; 83].   (* CHROMEOS *)
Definition FIRMWARE_MAGIC_SIZE : Z := 8.
Definition FIRMWARE_PREAMBLE_SIZE : Z := 8.
Definition RSA8192NUMBYTES : Z := 1024.
Definition ROOT_SIGNATURE_ALGORITHM : Z := 11.
Definition VERIFY_FIRMWARE_INVALID_IMAGE : Z := 1.
Definition VERIFY_FIRMWARE_ROOT_SIGNATURE_FAILED : Z := 2.
Definition VERIFY_FIRMWARE_INVALID_ALGORITHM : Z := 3.
Definition VERIFY_FIRMWARE_PREAMBLE_SIGNATURE_FAILED : Z := 4.
Definition VERIFY_FIRMWARE_SIGNATURE_FAILED : Z := 5.
Definition VERIFY_FIRMWARE_WRONG_MAGIC : Z := 6.

(** [inl] an error code, or 0 with what is stored through the two pointers. *)
Definition VerifyFirmwareHeader (root_key_blob header_blob : list Z) (dev_mode : bool) : result (Z + Z * Z) :=
  let base_header_checksum_offset := 2 + 2 + 2 in
  hlen ← read_at header_blob 0 2;
  algo ← read_at header_blob 2 2;
  if kNumAlgorithms <=? le algo then mret (inl VERIFY_FIRMWARE_INVALID_ALGORITHM)
  else
    let algorithm := le algo in
    let sign_key_len := RSAProcessedKeySize algorithm in
    if negb (le hlen =? base_header_checksum_offset + sign_key_len + 64) then mret (inl VERIFY_FIRMWARE_INVALID_IMAGE)
    else
      let header_len := le hlen in
      header_checksum ← DigestBuf header_blob (header_len - 64) SHA512_DIGEST_ALGORITHM;
      stored ← read_at header_blob (base_header_checksum_offset + sign_key_len) 64;
      if negb (SafeMemcmp header_checksum stored =? 0) then mret (inl VERIFY_FIRMWARE_INVALID_IMAGE)
      else if dev_mode then mret (inr (algorithm, header_len))
      else
        ok ← RSAVerifyBinary_f (Some root_key_blob) None header_blob header_len (drop (Z.to_nat header_len) header_blob) ROOT_SIGNATURE_ALGORITHM;
        if ok =? 0 then mret (inl VERIFY_FIRMWARE_ROOT_SIGNATURE_FAILED) else mret (inr (algorithm, header_len)).
Definition preamble_size : Z := 2 + 4 + FIRMWARE_PREAMBLE_SIZE.
Definition VerifyFirmwarePreamble (sign_key : option RSAPublicKey) (preamble_blob : list Z) (algorithm : Z) : result (Z + Z) :=
  let preamble_len := preamble_size in
  ok ← RSAVerifyBinary_f None sign_key preamble_blob preamble_len (drop (Z.to_nat preamble_len) preamble_blob) algorithm;
  if ok =? 0 then mret (inl VERIFY_FIRMWARE_PREAMBLE_SIGNATURE_FAILED)
  else len ← read_at preamble_blob 2 4; mret (inr (i32 (le len))).
Definition VerifyFirmwareData (sign_key : option RSAPublicKey) (firmware_data_start : list Z) (firmware_len algorithm : Z) : result Z :=
  siglen ← indexed siglen_map algorithm;
  let signature_len := siglen * 4 in
  ok ← RSAVerifyBinary_f None sign_key (drop (Z.to_nat signature_len) firmware_data_start) firmware_len firmware_data_start algorithm;
  mret (if ok =? 0 then VERIFY_FIRMWARE_SIGNATURE_FAILED else 0).
Definition VerifyFirmware (root_key_blob firmware_blob : list Z) (dev_mode : bool) : result Z :=
  magic ← read_at firmware_blob 0 FIRMWARE_MAGIC_SIZE;
  if negb (SafeMemcmp magic FIRMWARE_MAGIC =? 0) then mret VERIFY_FIRMWARE_WRONG_MAGIC
  else
    let header_ptr := drop (Z.to_nat FIRMWARE_MAGIC_SIZE) firmware_blob in
    header ← VerifyFirmwareHeader root_key_blob header_ptr dev_mode;
    match header with
    | inl error_code => mret error_code
    | inr (algorithm, header_len) =>
        let sign_key_len := RSAProcessedKeySize algorithm in
        let sign_key_ptr := drop 4 header_ptr in
        sign_key ← RSAPublicKeyFromBuf sign_key_ptr sign_key_len;
        siglen ← indexed siglen_map algorithm;
        let signature_len := siglen * 4 in
        let preamble_ptr := drop (Z.to_nat (header_len + RSA8192NUMBYTES)) header_ptr in
        preamble ← VerifyFirmwarePreamble sign_key preamble_ptr algorithm;
        match preamble with
        | inl error_code => mret error_code
        | inr firmware_len =>
            let firmware_ptr := drop (Z.to_nat (preamble_size + signature_len)) preamble_ptr in
            VerifyFirmwareData sign_key firmware_ptr firmware_len algorithm
        end
    end.

(** ** firmware_image.c: images *)

(** Of a little-endian machine. *)
Definition bytes_le (size : nat) (x : Z) : list Z := (fun i => Z.shiftr x (8 * Z.of_nat i) `mod` 256) <$> seq 0 size.
Record FirmwareImage := mkImage {
  magic : list Z;
  header_len : Z; sign_algorithm : Z; sign_key : list Z; key_version : Z; header_checksum : list Z;
  key_signature : list Z;
  firmware_version : Z; firmware_len : Z; preamble : list Z;
  preamble_signature : list Z;
  firmware_signature : list Z; firmware_data : list Z
}.
#[global] Instance eta_FirmwareImage : Eta FirmwareImage := fun r =>
  mkImage (magic r) (header_len r) (sign_algorithm r) (sign_key r) (key_version r) (header_checksum r) (key_signature r)
    (firmware_version r) (firmware_len r) (preamble r) (preamble_signature r) (firmware_signature r) (firmware_data r).

(** StatefulMemcpy to a field; the buffer and the image. *)
Definition read_field (count : Z) (store : list Z → FirmwareImage → FirmwareImage) : M (MemcpyState * FirmwareImage) bool :=
  bytes ← zoom fst (fun st s => (st, s.2)) (StatefulMemcpy count);
  match bytes with
  | Some bytes => modify (fun s => (s.1, store bytes s.2));; mret true
  | None => mret false
  end.
Definition at_algorithm {S} (table : Z → Z) (algorithm : Z) : M S Z := fun s =>
  match indexed table algorithm with Val a => Val (a, s) | Fault f => Fault f end.
(** Whether the image is returned, not NULL.  [file]: the contents of the file if it can be read. *)
Definition parse_fields : M (MemcpyState * FirmwareImage) bool :=
  read_field 2 (fun b im => im <| header_len := le b |>);;
  read_field 2 (fun b im => im <| sign_algorithm := le b |>);;
  alg ← gets (fun s => sign_algorithm s.2);
  if kNumAlgorithms <? alg then mret false
  else
    siglen ← at_algorithm siglen_map alg;
    let sign_key_len := 2 * siglen * 4 + 4 + 4 in
    let signature_len := siglen * 4 in
    hlen ← gets (fun s => header_len s.2);
    if negb (2 + 2 + 2 + 64 =? hlen) then mret false
    else
      Malloc sign_key_len;;
      modify (fun s => (s.1, s.2 <| sign_key := [] |>));;
      read_field sign_key_len (fun b im => im <| sign_key := b |>);;
      read_field 2 (fun b im => im <| key_version := le b |>);;
      read_field 64 (fun b im => im <| header_checksum := b |>);;
      read_field RSA8192NUMBYTES (fun b im => im <| key_signature := b |>);;
      read_field 2 (fun b im => im <| firmware_version := le b |>);;
      read_field 4 (fun b im => im <| firmware_len := le b |>);;
      read_field FIRMWARE_PREAMBLE_SIZE (fun b im => im <| preamble := b |>);;
      Malloc signature_len;;
      modify (fun s => (s.1, s.2 <| preamble_signature := [] |>));;
      read_field signature_len (fun b im => im <| preamble_signature := b |>);;
      Malloc signature_len;;
      modify (fun s => (s.1, s.2 <| firmware_signature := [] |>));;
      read_field signature_len (fun b im => im <| firmware_signature := b |>);;
      flen ← gets (fun s => firmware_len s.2);
      Malloc flen;;
      modify (fun s => (s.1, s.2 <| firmware_data := [] |>));;
      read_field (i32 flen) (fun b im => im <| firmware_data := b |>);;
      gets (fun s => remaining_len s.1 =? 0).
Definition ReadFirmwareImage (file : option (list Z)) (image : option FirmwareImage) : result (bool * option FirmwareImage) :=
  match image, file with
  | None, _ => mret (false, None)
  | Some image, None => mret (false, Some image)
  | Some image, Some contents =>
      let parse : M (MemcpyState * FirmwareImage) bool :=
        Malloc (zlen contents);;
        found ← read_field FIRMWARE_MAGIC_SIZE (fun b im => im <| magic := b |>);
        if negb found then mret false
        else
          m ← gets (fun s => magic s.2);
          if negb (SafeMemcmp m FIRMWARE_MAGIC =? 0) then mret false else parse_fields in
      match parse (mkMemcpy contents (i32 (zlen contents)), image) with
      | Val (ok, (_, image)) => mret (ok, Some image)
      | Fault f => Fault f
      end
  end.

(** What is written. *)
Definition WriteFirmwareHeader (image : FirmwareImage) : result (list Z) :=
  let sign_key_len := i32 (header_len image - 2 - 2 - 2 - 64) in
  key ← (if sign_key_len <? 0 then mret [] else read_at (sign_key image) 0 sign_key_len);
  mret (bytes_le 2 (header_len image) ++ bytes_le 2 (sign_algorithm image) ++ key ++
        bytes_le 2 (key_version image) ++ header_checksum image).
Definition WriteFirmwarePreamble (image : FirmwareImage) : list Z :=
  bytes_le 2 (firmware_version image) ++ bytes_le 4 (firmware_len image) ++ preamble image.
Definition WriteFirmwareImage (image : FirmwareImage) : result (list Z) :=
  header ← WriteFirmwareHeader image;
  siglen ← indexed siglen_map (sign_algorithm image);
  let signature_len := siglen * 4 in
  psig ← read_at (preamble_signature image) 0 signature_len;
  fsig ← read_at (firmware_signature image) 0 signature_len;
  data ← read_at (firmware_data image) 0 (firmware_len image);
  mret (magic image ++ header ++ key_signature image ++ WriteFirmwarePreamble image ++ psig ++ fsig ++ data).

Definition VerifyFirmwareImage (root_key : option RSAPublicKey) (image : option FirmwareImage) (dev_mode : bool) : result Z :=
  match image with
  | None => mret VERIFY_FIRMWARE_INVALID_IMAGE
  | Some image =>
      let alg := sign_algorithm image in
      root_ok ←
        (if dev_mode then mret 1
         else
           ctx ← DigestInit ROOT_SIGNATURE_ALGORITHM;
           ctx ← DigestUpdate ctx (bytes_le 2 (header_len image)) 2;
           ctx ← DigestUpdate ctx (bytes_le 2 alg) 2;
           siglen ← indexed siglen_map alg;
           ctx ← DigestUpdate ctx (sign_key image) (RSAProcessedKeySize alg);
           ctx ← DigestUpdate ctx (bytes_le 2 (key_version image)) 2;
           ctx ← DigestUpdate ctx (header_checksum image) 64;
           header_digest ← DigestFinal ctx;
           RSA_verify_at root_key (key_signature image) RSA8192NUMBYTES ROOT_SIGNATURE_ALGORITHM header_digest);
      if root_ok =? 0 then mret VERIFY_FIRMWARE_ROOT_SIGNATURE_FAILED
      else
        siglen ← indexed siglen_map alg;
        let sign_key_size := RSAProcessedKeySize alg in
        key ← RSAPublicKeyFromBuf (sign_key image) sign_key_size;
        let signature_size := siglen * 4 in
        if kNumAlgorithms <=? alg then mret VERIFY_FIRMWARE_INVALID_ALGORITHM
        else
          ctx ← DigestInit alg;
          ctx ← DigestUpdate ctx (bytes_le 2 (firmware_version image)) 2;
          ctx ← DigestUpdate ctx (bytes_le 4 (firmware_len image)) 4;
          ctx ← DigestUpdate ctx (preamble image) FIRMWARE_PREAMBLE_SIZE;
          preamble_digest ← DigestFinal ctx;
          preamble_ok ← RSA_verify_at key (preamble_signature image) signature_size alg preamble_digest;
          if preamble_ok =? 0 then mret VERIFY_FIRMWARE_PREAMBLE_SIGNATURE_FAILED
          else
            firmware_digest ← DigestBuf (firmware_data image) (i32 (firmware_len image)) alg;
            firmware_ok ← RSA_verify_at key (firmware_signature image) signature_size alg firmware_digest;
            mret (if firmware_ok =? 0 then VERIFY_FIRMWARE_SIGNATURE_FAILED else 0)
  end.

(** *** Signing: sign_data.sh is another program, what it prints for a file, the file of the
    private key and the algorithm. *)
Class Signer := SignatureFile : list Z → string → Z → option (list Z).
Definition AddKeySignature `{Signer} (image : FirmwareImage) (root_key_file : string) : result (Z * FirmwareImage) :=
  header ← WriteFirmwareHeader image;
  match SignatureFile header root_key_file ROOT_SIGNATURE_ALGORITHM with
  | None => mret (0, image)
  | Some signature => signature ← read_at signature 0 RSA8192NUMBYTES; mret (1, image <| key_signature := signature |>)
  end.
Definition AddFirmwareSignature `{Signer} (image : FirmwareImage) (signing_key_file : string) (algorithm : Z) : result (Z * FirmwareImage) :=
  siglen ← indexed siglen_map algorithm;
  let signature_len := siglen * 4 in
  match SignatureFile (WriteFirmwarePreamble image) signing_key_file algorithm with
  | None => mret (0, image)
  | Some signature =>
      signature ← read_at signature 0 signature_len;
      let image := image <| preamble_signature := signature |> in
      data ← read_at (firmware_data image) 0 (firmware_len image);
      match SignatureFile data signing_key_file algorithm with
      | None => mret (0, image)
      | Some signature => signature ← read_at signature 0 signature_len; mret (1, image <| firmware_signature := signature |>)
      end
  end.
End digests.
