(* ===== verification/FirmwareSafe.v ===== *)
(** * What the verified boot accepts (Firmware.v).

    [hash_of] is the digest of a message by the standards, [valid_signature] a signature in
    numbers, [parts] the parts of an image; [chain] are the three checks that both verifiers
    come down to. *)

From S2P Require Import Prelude Rsa Sha2 Sha2Spec Sha1 Firmware.

(** ** Digests *)

Definition hash_of (algorithm : Z) (message : list Z) : list Z :=
  if digest_type_map algorithm =? SHA1_DIGEST_ALGORITHM then sha1_hash message
  else if digest_type_map algorithm =? SHA256_DIGEST_ALGORITHM then hash sha256 message
  else hash sha512 message.
Record mem_ok (mem : Memory) : Prop := {
  mo_sha1 : length (Sha1.buf (sha1_mem mem)) = 64%nat;
  mo_sha256 : length (block (sha256_mem mem)) = 128%nat;
  mo_sha512 : length (block (sha512_mem mem)) = 256%nat
}.
Lemma digest_types algorithm : 0 ≤ algorithm < kNumAlgorithms →
  digest_type_map algorithm = 0 ∧ hash_size_map algorithm = 20 ∨
  digest_type_map algorithm = 1 ∧ hash_size_map algorithm = 32 ∨ digest_type_map algorithm = 2 ∧ hash_size_map algorithm = 64.
Proof.
  revert algorithm. apply (algorithm_cases (fun i => _)). intros k Hk.
  do 12 (destruct k as [|k]; [vm_compute; auto|]). lia.
Qed.
Lemma indexed_val {A} (table : Z → A) algorithm : 0 ≤ algorithm < kNumAlgorithms → indexed table algorithm = Val (table algorithm).
Proof. intros H. unfold indexed. by rewrite bool_decide_eq_true_2. Qed.
Lemma read_at_all p len : zlen p = len → read_at p 0 len = Val p.
Proof.
  intros <-. unfold read_at. pose proof (zlen_nonneg p). rewrite bool_decide_eq_true_2 by lia. rewrite drop_0, take_ge; [done|].
  unfold zlen. lia.
Qed.
Lemma read_at_take p len : 0 ≤ len ≤ zlen p → read_at p 0 len = Val (take (Z.to_nat len) p).
Proof. intros H. unfold read_at. rewrite bool_decide_eq_true_2 by lia. by rewrite drop_0. Qed.
Lemma read_at_inv p off len b : read_at p off len = Val b → 0 ≤ off ∧ 0 ≤ len ∧ off + len ≤ zlen p ∧ b = take (Z.to_nat len) (drop (Z.to_nat off) p).
Proof. unfold read_at. case_bool_decide as H; [|done]. intros [= <-]. tauto. Qed.
Lemma length_working V kw wv : length (working V kw wv) = length wv.
Proof. do 9 (destruct wv as [|? wv]; try done). Qed.
Lemma length_compress V H block : length (compress V H block) = length H.
Proof.
  unfold compress. assert (∀ kws wv, length (foldl (fun wv kw => working V kw wv) wv kws) = length wv) as Hf.
  { intros kws. induction kws as [|kw kws IH]; intros wv; [done|]. cbn [foldl]. by rewrite IH, length_working. }
  rewrite length_zip_with, Hf. apply Nat.min_id.
Qed.
Lemma length_words_bytes size ws : length (ws ≫= be_bytes size) = (size * length ws)%nat.
Proof. induction ws as [|w ws IH]; cbn; [lia|]. rewrite length_app, IH, length_be_bytes. lia. Qed.
Lemma words_bytes_octets size ws : octets (ws ≫= be_bytes size).
Proof. apply Forall_bind, Forall_true. intros w. apply be_bytes_octets. Qed.
Lemma length_hash V message : length (hash V message) = (word_bytes V * length (h0 V))%nat.
Proof.
  unfold hash, hash_padded. rewrite length_words_bytes. f_equal. generalize (chunks (Z.to_nat (BLOCK_SIZE V)) (length (pad V (8 * zlen message) message) / Z.to_nat (BLOCK_SIZE V)) (pad V (8 * zlen message) message)).
  intros l. generalize (h0 V). induction l as [|b l IH]; intros H; [done|]. cbn [foldl]. by rewrite IH, length_compress.
Qed.
Lemma length_sha1_hash message : length (sha1_hash message) = 20%nat.
Proof.
  unfold sha1_hash. cbv zeta. rewrite length_words_bytes. set (p := pad _ _ _). generalize (chunks 64 (length p / 64) p).
  assert (∀ tws v, length (foldl (fun v tw => sha1_working tw v) v tws) = length v) as Hf.
  { intros tws. induction tws as [|tw tws IH]; intros v; [done|]. cbn [foldl]. rewrite IH. do 6 (destruct v as [|? v]; try done). }
  intros l. enough (∀ H, length (foldl sha1_compress H l) = length H) as -> by done.
  induction l as [|b l IH]; intros H; [done|]. cbn [foldl]. rewrite IH. unfold sha1_compress. rewrite length_zip_with, Hf. apply Nat.min_id.
Qed.
Lemma hash_of_size algorithm message : 0 ≤ algorithm < kNumAlgorithms →
  zlen (hash_of algorithm message) = hash_size_map algorithm ∧ octets (hash_of algorithm message).
Proof.
  intros Ha. unfold hash_of, zlen.
  destruct (digest_types algorithm Ha) as [[-> ->]|[[-> ->]|[-> ->]]]; cbn [Z.eqb Pos.eqb SHA1_DIGEST_ALGORITHM SHA256_DIGEST_ALGORITHM SHA512_DIGEST_ALGORITHM]; (split; [|apply words_bytes_octets]).
  - by rewrite length_sha1_hash.
  - by rewrite (length_hash sha256).
  - by rewrite (length_hash sha512).
Qed.

(** What a context of DigestInit has been given. *)
Definition digesting (alg : Z) (ctx : DigestContext) (D : list Z) : Prop :=
  algorithm ctx = digest_type_map alg ∧
  (digest_type_map alg = 0 → ∃ c, sha1_ctx ctx = Some c ∧ sha1_computes c D) ∧
  (digest_type_map alg = 1 → ∃ c, sha256_ctx ctx = Some c ∧ computes sha256 c D) ∧
  (digest_type_map alg = 2 → ∃ c, sha512_ctx ctx = Some c ∧ computes sha512 c D).
Lemma DigestInit_digesting mem alg : mem_ok mem → 0 ≤ alg < kNumAlgorithms → ∃ ctx, DigestInit mem alg = Val ctx ∧ digesting alg ctx [].
Proof.
  intros [H1 H2 H3] Ha. unfold DigestInit, digesting. rewrite indexed_val by done. cbn [mbind result_bind].
  destruct (digest_types alg Ha) as [[-> _]|[[-> _]|[-> _]]]; cbn [Z.eqb Pos.eqb SHA1_DIGEST_ALGORITHM SHA256_DIGEST_ALGORITHM SHA512_DIGEST_ALGORITHM]; eexists; (split; [reflexivity|]); (split; [done|]); split_and!; try done;
    intros _; eexists; (split; [reflexivity|]).
  - by apply SHA1_init_computes.
  - apply (init_computes sha256 sha256_ok). by rewrite H2.
  - apply (init_computes sha512 sha512_ok). by rewrite H3.
Qed.
Lemma DigestUpdate_digesting alg ctx D data : 0 ≤ alg < kNumAlgorithms → digesting alg ctx D → octets data → zlen data < 2 ^ 29 →
  ∃ ctx', DigestUpdate ctx data (zlen data) = Val ctx' ∧ digesting alg ctx' (D ++ data).
Proof.
  intros Ha (Hal & H1 & H2 & H3) Ho Hmax. unfold DigestUpdate, digesting. rewrite read_at_all, Hal by done. cbn [mbind result_bind].
  destruct (digest_types alg Ha) as [[Ht _]|[[Ht _]|[Ht _]]]; rewrite Ht in *; cbn [Z.eqb Pos.eqb SHA1_DIGEST_ALGORITHM SHA256_DIGEST_ALGORITHM SHA512_DIGEST_ALGORITHM].
  - destruct (H1 eq_refl) as (c & -> & Hc). eexists. split; [reflexivity|]. split; [done|]. split_and!; try done.
    intros _. eexists. split; [reflexivity|]. by apply SHA1_update_computes.
  - destruct (H2 eq_refl) as (c & -> & Hc). eexists. split; [reflexivity|]. split; [done|]. split_and!; try done.
    intros _. eexists. split; [reflexivity|]. apply (update_computes sha256 sha256_ok); [done..|]. change (BLOCK_SIZE sha256) with 64. lia.
  - destruct (H3 eq_refl) as (c & -> & Hc). eexists. split; [reflexivity|]. split; [done|]. split_and!; try done.
    intros _. eexists. split; [reflexivity|]. apply (update_computes sha512 sha512_ok); [done..|]. change (BLOCK_SIZE sha512) with 128. lia.
Qed.
Lemma sha2_final_hash V c D : variant_ok V → computes V c D → zlen D < 2 ^ 29 → Sha2.buf (final V c) = hash V D.
Proof.
  intros HV Hc Hmax. rewrite (final_hash V HV c D) by done. unfold hash. rewrite u32_small; [done|].
  unfold is_u32. pose proof (zlen_nonneg D). lia.
Qed.
Lemma finish_hash c D : sha1_computes c D → zlen D < 2 ^ 29 →
  ∃ p, finish c = Val p ∧ read_at p 0 SHA1_DIGEST_SIZE = Val (sha1_hash D).
Proof.
  intros Hc Hmax. destruct (SHA1_final_hash c D) as (p & ctx' & Hf & Hp); [done|lia|]. exists p. unfold finish. rewrite Hf. split; [done|].
  rewrite read_at_take; [by rewrite <-Hp|]. change SHA1_DIGEST_SIZE with 20. pose proof (length_sha1_hash D) as Hl.
  rewrite <-Hp, length_take in Hl. unfold zlen. lia.
Qed.
Lemma DigestFinal_hash alg ctx D : 0 ≤ alg < kNumAlgorithms → digesting alg ctx D → zlen D < 2 ^ 29 → DigestFinal ctx = Val (hash_of alg D).
Proof.
  intros Ha (Hal & H1 & H2 & H3) Hmax. unfold DigestFinal, hash_of. rewrite Hal.
  destruct (digest_types alg Ha) as [[Ht _]|[[Ht _]|[Ht _]]]; rewrite Ht in *; cbn [Z.eqb Pos.eqb SHA1_DIGEST_ALGORITHM SHA256_DIGEST_ALGORITHM SHA512_DIGEST_ALGORITHM].
  - destruct (H1 eq_refl) as (c & -> & Hc). destruct (finish_hash c D Hc Hmax) as (p & Hf & Hr). cbn [deref mbind result_bind]. rewrite Hf. exact Hr.
  - destruct (H2 eq_refl) as (c & -> & Hc). cbn [deref mbind result_bind]. unfold SHA256_final.
    rewrite (sha2_final_hash sha256 c D sha256_ok Hc Hmax). apply read_at_all. unfold zlen. by rewrite length_hash.
  - destruct (H3 eq_refl) as (c & -> & Hc). cbn [deref mbind result_bind]. unfold SHA512_final.
    rewrite (sha2_final_hash sha512 c D sha512_ok Hc Hmax). apply read_at_all. unfold zlen. by rewrite length_hash.
Qed.
Lemma DigestBuf_hash mem buf len alg : mem_ok mem → 0 ≤ alg < kNumAlgorithms → 0 ≤ len ≤ zlen buf → octets buf → len < 2 ^ 29 →
  DigestBuf mem buf len alg = Val (hash_of alg (take (Z.to_nat len) buf)).
Proof.
  intros [H1 H2 H3] Ha Hl Ho Hmax. set (D := take (Z.to_nat len) buf).
  assert (octets D) as HoD by by apply Forall_take. assert (zlen D < 2 ^ 29) as HD by (unfold zlen, D in *; rewrite length_take; lia).
  unfold DigestBuf, hash_of. rewrite indexed_val, read_at_take by done. cbn [mbind result_bind]. fold D.
  destruct (finish_hash (SHA1_update (SHA1_init (sha1_mem mem)) D) D) as (p & Hf & Hr).
  { apply (SHA1_update_computes _ [] D); [apply SHA1_init_computes; exact H1|exact HoD]. } { done. }
  assert (read_at (SHA256 (sha256_mem mem) D) 0 SHA256_DIGEST_SIZE = Val (hash sha256 D)) as H256.
  { unfold SHA256, digest. rewrite (sha2_final_hash sha256 _ D sha256_ok); [|apply (update_computes sha256 sha256_ok _ [])|done].
    - apply read_at_all. unfold zlen. by rewrite length_hash.
    - apply (init_computes sha256 sha256_ok). by rewrite H2.
    - done.
    - change (BLOCK_SIZE sha256) with 64. lia. }
  assert (read_at (SHA512 (sha512_mem mem) D) 0 SHA512_DIGEST_SIZE = Val (hash sha512 D)) as H512.
  { unfold SHA512, digest. rewrite (sha2_final_hash sha512 _ D sha512_ok); [|apply (update_computes sha512 sha512_ok _ [])|done].
    - apply read_at_all. unfold zlen. by rewrite length_hash.
    - apply (init_computes sha512 sha512_ok). by rewrite H3.
    - done.
    - change (BLOCK_SIZE sha512) with 128. lia. }
  revert alg Ha. apply (algorithm_cases (fun i => _)). intros k Hk.
  do 12 (destruct k as [|k]; [first [exact H256|exact H512|cbv beta iota zeta delta [mbind result_bind]; change (match finish (SHA1_update (SHA1_init (sha1_mem mem)) D) with Val a => read_at a 0 SHA1_DIGEST_SIZE | Fault f => Fault f end = Val (sha1_hash D)); rewrite Hf; exact Hr]|]). lia.
Qed.
Lemma DigestBuf_inv mem buf len alg d : DigestBuf mem buf len alg = Val d → 0 ≤ alg < kNumAlgorithms ∧ 0 ≤ len ≤ zlen buf.
Proof.
  unfold DigestBuf. cbv zeta. unfold indexed. case_bool_decide as Ha; [|done]. cbn [mbind result_bind].
  destruct (read_at buf 0 len) eqn:E; [|done]. apply read_at_inv in E. intros _. split; [done|lia].
Qed.
Lemma SafeMemcmp_same a b : length a = length b → SafeMemcmp a b = 0 ↔ a = b.
Proof.
  intros Hl. unfold SafeMemcmp. assert (∀ l m, foldl (fun m (xy : Z * Z) => if xy.1 =? xy.2 then m else 1) m l = 0 → m = 0) as Hz.
  { induction l as [|[x y] l IH]; intros m; cbn [foldl fst snd]; [done|]. destruct (x =? y); [apply IH|]. intros H%IH. done. }
  revert b Hl. induction a as [|x a IH]; intros [|y b] Hl; cbn in Hl; try lia; [done|]. apply Nat.succ_inj in Hl. cbn [zip zip_with foldl fst snd].
  destruct (Z.eqb_spec x y) as [->|Hne].
  - rewrite (IH b Hl). split; [by intros ->|by intros [= ->]].
  - split; [intros H%Hz; done|intros [= ? ?]; done].
Qed.

(** ** Signatures *)

Lemma RSA_verify_take key sig sig_len alg h : 0 ≤ sig_len ≤ zlen sig → RSA_verify key sig sig_len alg h = RSA_verify key (take (Z.to_nat sig_len) sig) sig_len alg h.
Proof.
  intros Hl. unfold RSA_verify. assert (zlen (take (Z.to_nat sig_len) sig) = sig_len) as Ht by (unfold zlen in *; rewrite length_take; lia).
  rewrite Ht, take_take, Nat.min_id. destruct (negb (u32 _ =? _)); [done|]. destruct (kNumAlgorithms <=? alg); [done|].
  destruct (negb (Rsa.len key =? _)); [done|]. 
  rewrite (bool_decide_ext (zlen (n key) = Rsa.len key ∧ zlen (rr key) = Rsa.len key ∧ sig_len ≤ zlen sig ∧ hash_size_map alg ≤ zlen h)
    (zlen (n key) = Rsa.len key ∧ zlen (rr key) = Rsa.len key ∧ sig_len ≤ sig_len ∧ hash_size_map alg ≤ zlen h)); [done|].
  split; intros (? & ? & ? & ?); split_and!; done || lia.
Qed.
(** The check of a signature over a message. *)
Definition check (key : RSAPublicKey) (alg : Z) (message sig : list Z) : result Z :=
  RSA_verify key sig (4 * siglen_map alg) alg (hash_of alg message).
(** ... in numbers. *)
Definition valid_signature (key : RSAPublicKey) (alg : Z) (message sig : list Z) : Prop :=
  be sig ^ 65537 `mod` val (n key) = be (encoded alg (hash_of alg message)).
#[global] Instance valid_signature_dec key alg message sig : Decision (valid_signature key alg message sig) := Z.eq_dec _ _.
Lemma check_valid key buf alg message sig : key_ok key → RSAPublicKeyFromBuf buf (RSAProcessedKeySize alg) = Val (Some key) →
  0 ≤ alg < kNumAlgorithms → zlen sig = 4 * siglen_map alg → octets sig →
  check key alg message sig = Val (if decide (valid_signature key alg message sig) then 1 else 0).
Proof.
  intros Hk Hp Ha Hs Ho. destruct (parsed_key_fits buf alg key Ha Hp) as [Hn _]. pose proof (ko_len _ Hk) as Hlen.
  destruct (hash_of_size alg message Ha) as [Hh Hho].
  assert (Rsa.len key = siglen_map alg) as Hl by lia. assert (zlen sig = 4 * Rsa.len key) as Hs' by lia.
  assert (hash_size_map alg ≤ zlen (hash_of alg message)) as Hh' by lia.
  assert (take (Z.to_nat (hash_size_map alg)) (hash_of alg message) = hash_of alg message) as Ht by (apply take_ge; unfold zlen in Hh; lia).
  pose proof (RSA_verify_spec key sig alg (hash_of alg message) Hk Ha Hl Hs' Ho Hh' Hho) as Hv. rewrite Ht in Hv.
  unfold check. rewrite <-Hs, Hv. clear.
  lazymatch goal with |- Val (if ?d1 then _ else _) = Val (if ?d2 then _ else _) => destruct d1 as [Hd1|Hd1], d2 as [Hd2|Hd2] end;
    [reflexivity|destruct (Hd2 Hd1)|destruct (Hd1 Hd2)|reflexivity].
Qed.
Lemma RSAVerifyBinary_f_check mem key_blob key buf len sig alg k : mem_ok mem → 0 ≤ alg < kNumAlgorithms →
  (key_blob = None ∧ key = Some k ∨ ∃ b, key_blob = Some b ∧ key = None ∧ RSAPublicKeyFromBuf b (RSAProcessedKeySize alg) = Val (Some k)) →
  0 ≤ len ≤ zlen buf → octets buf → len < 2 ^ 29 → 4 * siglen_map alg ≤ zlen sig →
  RSAVerifyBinary_f mem key_blob key buf len sig alg =
    check k alg (take (Z.to_nat len) buf) (take (Z.to_nat (4 * siglen_map alg)) sig).
Proof.
  intros Hm Ha Hk Hl Ho Hmax Hs. unfold RSAVerifyBinary_f. replace (kNumAlgorithms <=? alg) with false by (symmetry; apply Z.leb_gt; lia).
  rewrite indexed_val by done. cbn [mbind result_bind]. destruct (tables_agree alg Ha) as (_ & _ & _ & _ & _ & Hsz).
  destruct Hk as [[-> ->]|(b & -> & -> & ->)]; cbn [mbind result_bind]; rewrite DigestBuf_hash by done; cbn [mbind result_bind RSA_verify_at deref];
    unfold check; rewrite (Z.mul_comm 4); apply RSA_verify_take; lia.
Qed.
(** What holds when it accepts. *)
Lemma RSAVerifyBinary_f_inv mem key_blob key buf len sig alg r : 0 ≤ alg → RSAVerifyBinary_f mem key_blob key buf len sig alg = Val r → r ≠ 0 →
  0 ≤ alg < kNumAlgorithms ∧ 0 ≤ len ≤ zlen buf ∧ 4 * siglen_map alg ≤ zlen sig ∧
  (∃ k, key_blob = None ∧ key = Some k ∨ ∃ b, key_blob = Some b ∧ key = None ∧ RSAPublicKeyFromBuf b (RSAProcessedKeySize alg) = Val (Some k)).
Proof.
  intros Ha. unfold RSAVerifyBinary_f. destruct (Z.leb_spec kNumAlgorithms alg); [by intros [= <-]|].
  rewrite indexed_val by done. cbn [mbind result_bind].
  enough (∀ k, (digest ← DigestBuf mem buf len alg; RSA_verify_at k sig (siglen_map alg * 4) alg digest) = Val r → r ≠ 0 →
    0 ≤ len ≤ zlen buf ∧ 4 * siglen_map alg ≤ zlen sig ∧ is_Some k) as Hv.
  { destruct key_blob as [b|], key as [k|]; try by intros [= <-].
    - destruct (RSAPublicKeyFromBuf b _) as [k|] eqn:E; [|done]. cbn [mbind result_bind]. intros Hr Hne.
      destruct (Hv k Hr Hne) as (? & ? & [k' ->]). split_and!; try lia. exists k'. right. by exists b.
    - intros Hr Hne. destruct (Hv (Some k) Hr Hne) as (? & ? & _). split_and!; try lia. exists k. by left. }
  intros k Hr Hne. destruct (DigestBuf mem buf len alg) as [d|] eqn:Ed; [|done]. apply DigestBuf_inv in Ed as [_ Hl].
  cbn [mbind result_bind] in Hr. destruct k as [k|]; [|done]. cbn [RSA_verify_at deref mbind result_bind] in Hr. split; [done|]. split; [|done].
  unfold RSA_verify in Hr. destruct (negb (u32 _ =? _)); [congruence|]. destruct (kNumAlgorithms <=? alg); [congruence|].
  destruct (negb (Rsa.len k =? _)); [congruence|]. case_bool_decide as Hb; [lia|done].
Qed.

(** ** Keys inside a larger buffer *)

Definition same_prefix (tail : list Z) (st1 st2 : MemcpyState) : Prop :=
  remaining_buf st1 = remaining_buf st2 ++ tail ∧ remaining_len st1 = remaining_len st2 ∧ remaining_len st2 ≤ zlen (remaining_buf st2).
Lemma StatefulMemcpy_prefix tail c st1 st2 : same_prefix tail st1 st2 →
  match StatefulMemcpy c st1, StatefulMemcpy c st2 with
  | Val (r1, st1), Val (r2, st2) => r1 = r2 ∧ same_prefix tail st1 st2
  | Fault f1, Fault f2 => f1 = f2
  | _, _ => False
  end.
Proof.
  destruct st1 as [b1 l1], st2 as [b2 l2]. unfold same_prefix, StatefulMemcpy. cbn. intros (-> & -> & Hl).
  destruct (Z.ltb_spec l2 c); cbn.
  { split; [done|]. split; [done|]. split; [done|]. pose proof (zlen_nonneg b2). lia. }
  destruct (Z.ltb_spec c 0); [done|]. cbn [orb]. rewrite zlen_app. pose proof (zlen_nonneg tail).
  destruct (Z.ltb_spec (zlen b2 + zlen tail) c); [lia|]. destruct (Z.ltb_spec (zlen b2) c); [lia|].
  unfold zlen in *. split; [by rewrite take_app_le by lia|]. cbn. rewrite drop_app_le by lia. split; [done|]. rewrite length_drop. lia.
Qed.
Lemma RSAPublicKeyFromBuf_prefix b tail : RSAPublicKeyFromBuf (b ++ tail) (zlen b) = RSAPublicKeyFromBuf b (zlen b).
Proof.
  unfold RSAPublicKeyFromBuf. cbv zeta. unfold mbind, M_bind.
  assert (same_prefix tail (mkMemcpy (b ++ tail) (zlen b)) (mkMemcpy b (zlen b))) as H by (split_and!; cbn; done || lia).
  pose proof (StatefulMemcpy_prefix tail 4 _ _ H) as H1. clear H.
  destruct (StatefulMemcpy 4 (mkMemcpy (b ++ tail) _)) as [[r1 s1]|], (StatefulMemcpy 4 (mkMemcpy b _)) as [[r1' s1']|]; try done; [|by subst].
  destruct H1 as [<- H]. destruct r1 as [lb|]; [|done]. unfold Malloc, CHECK. destruct (u32 _ <? 2 ^ 31); [|done]. unfold mret, M_ret, mget.
  pose proof (StatefulMemcpy_prefix tail 4 _ _ H) as H1. clear H.
  destruct (StatefulMemcpy 4 s1) as [[r2 s2]|], (StatefulMemcpy 4 s1') as [[r2' s2']|]; try done; [|by subst]. destruct H1 as [<- H].
  set (kl := i32 (i32 (le lb) * 4)). pose proof (StatefulMemcpy_prefix tail kl _ _ H) as H1. clear H.
  destruct (StatefulMemcpy kl s2) as [[r3 s3]|], (StatefulMemcpy kl s2') as [[r3' s3']|]; try done; [|by subst]. destruct H1 as [<- H].
  pose proof (StatefulMemcpy_prefix tail kl _ _ H) as H1. clear H.
  destruct (StatefulMemcpy kl s3) as [[r4 s4]|], (StatefulMemcpy kl s3') as [[r4' s4']|]; try done; [|by subst]. destruct H1 as [<- H].
  destruct H as (_ & -> & _). by destruct (negb _).
Qed.

(** ** The parts of an image *)

Record parts := mkParts {
  p_alg : Z; p_key : list Z; p_version : list Z; p_checksum : list Z; p_keysig : list Z;
  p_preamble : list Z; p_presig : list Z; p_fwsig : list Z; p_data : list Z
}.
(** What the checksum covers, and what the root key signs. *)
Definition covered (p : parts) : list Z :=
  bytes_le 2 (6 + zlen (p_key p) + 64) ++ bytes_le 2 (p_alg p) ++ p_key p ++ p_version p.
Definition header (p : parts) : list Z := covered p ++ p_checksum p.
Definition image_bytes (p : parts) : list Z :=
  FIRMWARE_MAGIC ++ header p ++ p_keysig p ++ p_preamble p ++ p_presig p ++ p_fwsig p ++ p_data p.
Record well_formed (p : parts) : Prop := {
  wf_alg : 0 ≤ p_alg p < kNumAlgorithms;
  wf_key : zlen (p_key p) = RSAProcessedKeySize (p_alg p);
  wf_version : zlen (p_version p) = 2;
  wf_checksum : p_checksum p = hash_of SHA512_DIGEST_ALGORITHM (covered p);
  wf_keysig : zlen (p_keysig p) = RSA8192NUMBYTES;
  wf_preamble : zlen (p_preamble p) = preamble_size;
  wf_presig : zlen (p_presig p) = 4 * siglen_map (p_alg p);
  wf_fwsig : zlen (p_fwsig p) = 4 * siglen_map (p_alg p);
  wf_data : zlen (p_data p) = le (take 4 (drop 2 (p_preamble p)));
  wf_octets : octets (image_bytes p);
  wf_size : zlen (image_bytes p) < 2 ^ 29
}.
(** The three checks, in their order. *)
Definition chain (root key : RSAPublicKey) (p : parts) (dev_mode : bool) : result Z :=
  ok ← (if dev_mode then mret 1 else check root ROOT_SIGNATURE_ALGORITHM (header p) (p_keysig p));
  if ok =? 0 then mret VERIFY_FIRMWARE_ROOT_SIGNATURE_FAILED
  else
    ok ← check key (p_alg p) (p_preamble p) (p_presig p);
    if ok =? 0 then mret VERIFY_FIRMWARE_PREAMBLE_SIGNATURE_FAILED
    else
      ok ← check key (p_alg p) (p_data p) (p_fwsig p);
      mret (if ok =? 0 then VERIFY_FIRMWARE_SIGNATURE_FAILED else 0).

Lemma read_at_mid a b c off n : zlen a = off → zlen b = n → read_at (a ++ b ++ c) off n = Val b.
Proof.
  intros <- <-. unfold read_at. rewrite !zlen_app. pose proof (zlen_nonneg a). pose proof (zlen_nonneg b). pose proof (zlen_nonneg c).
  rewrite bool_decide_eq_true_2 by lia. unfold zlen. by rewrite !Nat2Z.id, drop_app_length, take_app_length.
Qed.
Lemma drop_zlen (a b : list Z) off : zlen a = off → drop (Z.to_nat off) (a ++ b) = b.
Proof. intros <-. unfold zlen. by rewrite Nat2Z.id, drop_app_length. Qed.
Lemma take_zlen (a b : list Z) off : zlen a = off → take (Z.to_nat off) (a ++ b) = a.
Proof. intros <-. unfold zlen. by rewrite Nat2Z.id, take_app_length. Qed.
Lemma zlen_bytes_le size x : zlen (bytes_le size x) = Z.of_nat size.
Proof. unfold bytes_le, zlen. by rewrite length_fmap, length_seq. Qed.
Lemma bytes_le_octets size x : octets (bytes_le size x).
Proof. unfold bytes_le. apply Forall_fmap, Forall_true. intros i. cbn. apply Z.mod_pos_bound. lia. Qed.
Lemma le_bytes_le size x : 0 ≤ x < 256 ^ Z.of_nat size → le (bytes_le size x) = x.
Proof.
  revert x. induction size as [|size IH]; intros x Hx; [cbn in *; lia|].
  assert (bytes_le (Datatypes.S size) x = x `mod` 256 :: bytes_le size (x `div` 256)) as ->.
  { unfold bytes_le. rewrite <-cons_seq, <-fmap_S_seq. cbn [fmap list_fmap]. rewrite Z.shiftr_0_r. f_equal.
    rewrite <-list_fmap_compose. apply list_fmap_ext. intros i y _. cbn [compose]. f_equal. change 256 with (2 ^ 8).
    rewrite <-Z.shiftr_div_pow2, Z.shiftr_shiftr by lia. f_equal. lia. }
  unfold le. cbn [foldr]. fold (le (bytes_le size (x `div` 256))). rewrite IH; [pose proof (Z.div_mod x 256); lia|].
  rewrite Nat2Z.inj_succ, Z.pow_succ_r in Hx by lia. split; [apply Z.div_pos; lia|apply Z.div_lt_upper_bound; lia].
Qed.
Lemma le_range b : octets b → 0 ≤ le b < 256 ^ zlen b.
Proof.
  induction 1 as [|x b Hx _ IH]; [done|]. rewrite zlen_cons, Z.pow_add_r by (pose proof (zlen_nonneg b); lia).
  unfold le. cbn [foldr]. fold (le b). unfold is_byte in Hx. lia.
Qed.
Lemma key_sizes alg : 0 ≤ alg < kNumAlgorithms → RSAProcessedKeySize alg = 8 * siglen_map alg + 8 ∧ 32 ≤ siglen_map alg ≤ 256.
Proof.
  revert alg. apply (algorithm_cases (fun i => _)). intros k Hk. apply (bool_decide_unpack _).
  do 12 (destruct k as [|k]; [vm_compute; exact Logic.I|]). lia.
Qed.
Lemma root_algorithm : 0 ≤ ROOT_SIGNATURE_ALGORITHM < kNumAlgorithms ∧ 4 * siglen_map ROOT_SIGNATURE_ALGORITHM = RSA8192NUMBYTES.
Proof. done. Qed.
Lemma sha512_algorithm : 0 ≤ SHA512_DIGEST_ALGORITHM < kNumAlgorithms ∧ hash_size_map SHA512_DIGEST_ALGORITHM = 64.
Proof. done. Qed.
Lemma zlen_covered p : well_formed p → zlen (covered p) = 6 + zlen (p_key p).
Proof. intros [_ _ Hv _ _ _ _ _ _ _ _]. unfold covered. rewrite !zlen_app, !zlen_bytes_le, Hv. lia. Qed.
Lemma zlen_header p : well_formed p → zlen (header p) = 6 + zlen (p_key p) + 64.
Proof.
  intros Hwf. unfold header. rewrite zlen_app, zlen_covered, (wf_checksum _ Hwf) by done.
  destruct sha512_algorithm as [Ha Hh]. rewrite (proj1 (hash_of_size SHA512_DIGEST_ALGORITHM (covered p) Ha)), Hh. lia.
Qed.
Section verify.
Context (mem : Memory) (Hmem : mem_ok mem).

Lemma VerifyFirmwareHeader_run root_blob root p rest dev : well_formed p → octets rest →
  RSAPublicKeyFromBuf root_blob (RSAProcessedKeySize ROOT_SIGNATURE_ALGORITHM) = Val (Some root) →
  VerifyFirmwareHeader mem root_blob (header p ++ p_keysig p ++ rest) dev =
    (ok ← (if dev then mret 1 else check root ROOT_SIGNATURE_ALGORITHM (header p) (p_keysig p));
     if ok =? 0 then mret (inl VERIFY_FIRMWARE_ROOT_SIGNATURE_FAILED) else mret (inr (p_alg p, zlen (header p)))).
Proof.
  intros Hwf Hrest Hroot. pose proof (zlen_covered p Hwf) as Hzc. pose proof (zlen_header p Hwf) as Hzh. pose proof (wf_alg _ Hwf) as Ha.
  destruct (key_sizes _ Ha) as [Hk Hsz]. pose proof (wf_key _ Hwf) as Hkey. pose proof (wf_octets _ Hwf) as Ho. pose proof (wf_size _ Hwf) as Hsize.
  unfold image_bytes in Ho, Hsize. rewrite !Forall_app in Ho. destruct Ho as (_ & Hoh & Hoks & _).
  set (H := header p ++ p_keysig p ++ rest). assert (octets H) as HoH by (unfold H; rewrite !Forall_app; done).
  pose proof (zlen_nonneg (p_keysig p)). pose proof (zlen_nonneg rest).
  assert (zlen H = zlen (header p) + (zlen (p_keysig p) + zlen rest)) as HzH by (unfold H; by rewrite !zlen_app).
  unfold VerifyFirmwareHeader. cbv zeta. rewrite (read_at_take H) by lia.
  replace (take (Z.to_nat 2) H) with (bytes_le 2 (6 + zlen (p_key p) + 64)) by done. cbn [mbind result_bind].
  replace (read_at H 2 2) with (Val (bytes_le 2 (p_alg p))).
  2:{ symmetry. unfold H, header, covered. rewrite <-!app_assoc. by apply read_at_mid. }
  cbn [mbind result_bind]. rewrite !le_bytes_le by (unfold kNumAlgorithms in Ha; change (256 ^ Z.of_nat 2) with 65536; lia).
  replace (kNumAlgorithms <=? p_alg p) with false by (symmetry; apply Z.leb_gt; lia).
  rewrite <-Hkey. replace (2 + 2 + 2 + zlen (p_key p) + 64) with (6 + zlen (p_key p) + 64) by lia. rewrite Z.eqb_refl. cbn [negb].
  rewrite <-Hzh. replace (zlen (header p) - 64) with (zlen (covered p)) by lia.
  destruct sha512_algorithm as [Ha2 Hh2]. rewrite DigestBuf_hash by (done || (pose proof (zlen_nonneg (covered p)); lia)). cbn [mbind result_bind].
  replace (take (Z.to_nat (zlen (covered p))) H) with (covered p) by (unfold H, header; rewrite <-app_assoc; by rewrite take_zlen).
  replace (read_at H (2 + 2 + 2 + zlen (p_key p)) 64) with (Val (p_checksum p)).
  2:{ symmetry. unfold H, header. rewrite <-app_assoc. apply read_at_mid; [lia|]. unfold header in Hzh. rewrite zlen_app in Hzh. lia. }
  cbn [mbind result_bind]. rewrite (wf_checksum _ Hwf). rewrite (proj2 (SafeMemcmp_same _ _ eq_refl)) by done. cbn [Z.eqb negb].
  destruct dev; [done|]. destruct root_algorithm as [Har Hsr].
  rewrite (RSAVerifyBinary_f_check mem _ _ H _ _ _ root); [|done|done|right; by exists root_blob|lia|done|lia|].
  2:{ unfold H. rewrite drop_zlen by done. rewrite zlen_app, (wf_keysig _ Hwf), Hsr. lia. }
  unfold H. rewrite take_zlen, drop_zlen, take_zlen by (done || by rewrite (wf_keysig _ Hwf)). done.
Qed.
Lemma VerifyFirmware_run root_blob root key p rest dev : well_formed p → octets rest →
  RSAPublicKeyFromBuf root_blob (RSAProcessedKeySize ROOT_SIGNATURE_ALGORITHM) = Val (Some root) →
  RSAPublicKeyFromBuf (p_key p) (RSAProcessedKeySize (p_alg p)) = Val (Some key) →
  VerifyFirmware mem root_blob (image_bytes p ++ rest) dev = chain root key p dev.
Proof.
  intros Hwf Hrest Hroot Hkey. pose proof (zlen_header p Hwf) as Hzh. pose proof (wf_alg _ Hwf) as Ha. destruct (key_sizes _ Ha) as [Hk Hsz].
  pose proof (wf_octets _ Hwf) as Ho. unfold image_bytes in Ho. rewrite !Forall_app in Ho. destruct Ho as (_ & Hoh & Hoks & Hop & Hops & Hofs & Hod).
  pose proof (wf_size _ Hwf) as Hsize. unfold image_bytes in Hsize. rewrite !zlen_app in Hsize.
  pose proof (zlen_nonneg FIRMWARE_MAGIC). pose proof (zlen_nonneg (header p)). pose proof (zlen_nonneg (p_keysig p)). pose proof (zlen_nonneg (p_data p)). pose proof (zlen_nonneg (p_presig p)).
  pose proof (zlen_nonneg (p_fwsig p)). pose proof (zlen_nonneg (p_preamble p)). pose proof (zlen_nonneg rest).
  pose proof (wf_preamble _ Hwf) as Hzp. pose proof (wf_presig _ Hwf) as Hzps. pose proof (wf_fwsig _ Hwf) as Hzfs. pose proof (wf_keysig _ Hwf) as Hzks.
  assert (image_bytes p ++ rest = FIRMWARE_MAGIC ++ header p ++ p_keysig p ++ p_preamble p ++ p_presig p ++ p_fwsig p ++ p_data p ++ rest) as ->
    by (unfold image_bytes; by rewrite <-!app_assoc).
  unfold VerifyFirmware. set (X := header p ++ _).
  replace (read_at (FIRMWARE_MAGIC ++ X) 0 FIRMWARE_MAGIC_SIZE) with (Val FIRMWARE_MAGIC)
    by (symmetry; exact (read_at_mid [] FIRMWARE_MAGIC X 0 8 eq_refl eq_refl)).
  cbn [mbind result_bind].
  rewrite (proj2 (SafeMemcmp_same FIRMWARE_MAGIC _ eq_refl)) by done. cbn [Z.eqb negb]. rewrite (drop_zlen FIRMWARE_MAGIC) by done. unfold X. clear X.
  rewrite (VerifyFirmwareHeader_run _ root) by (done || (rewrite !Forall_app; done)). unfold chain.
  destruct (if dev then _ else _) as [ok|]; [|done]. cbn [mbind result_bind]. destruct (ok =? 0); [done|]. cbn [mret result_ret mbind result_bind]. cbv zeta.
  replace (drop 4 _) with (p_key p ++ p_version p ++ p_checksum p ++ p_keysig p ++ p_preamble p ++ p_presig p ++ p_fwsig p ++ p_data p ++ rest)
    by (unfold header, covered; by rewrite <-!app_assoc).
  rewrite <-(wf_key _ Hwf), RSAPublicKeyFromBuf_prefix, (wf_key _ Hwf), Hkey. cbn [mbind result_bind]. rewrite indexed_val by done. cbn [mbind result_bind].
  rewrite (app_assoc (header p)), (drop_zlen (header p ++ p_keysig p)) by (rewrite zlen_app; lia).
  unfold VerifyFirmwarePreamble. cbv zeta. rewrite (RSAVerifyBinary_f_check mem _ _ _ _ _ _ key); [|done|done|by left| | | |].
  2:{ rewrite zlen_app. change preamble_size with 14 in *. pose proof (zlen_nonneg (p_presig p ++ p_fwsig p ++ p_data p ++ rest)). lia. }
  2:{ by rewrite !Forall_app. } 2:{ change preamble_size with 14. lia. }
  2:{ rewrite drop_zlen, zlen_app by done. pose proof (zlen_nonneg (p_fwsig p ++ p_data p ++ rest)). lia. }
  rewrite (take_zlen (p_preamble p)), (drop_zlen (p_preamble p) _ preamble_size), (take_zlen (p_presig p)) by done. destruct (check key (p_alg p) (p_preamble p) (p_presig p)) as [ok2|]; [|done].
  cbn [mbind result_bind]. destruct (ok2 =? 0); [done|].
  assert (read_at (p_preamble p ++ p_presig p ++ p_fwsig p ++ p_data p ++ rest) 2 4 = Val (take 4 (drop 2 (p_preamble p)))) as ->.
  { unfold read_at. rewrite zlen_app, Hzp. change preamble_size with 14 in *. pose proof (zlen_nonneg (p_presig p ++ p_fwsig p ++ p_data p ++ rest)).
    rewrite bool_decide_eq_true_2 by lia. unfold zlen in Hzp. rewrite drop_app_le, take_app_le by (rewrite ?length_drop; lia). done. }
  cbn [mbind result_bind mret result_ret]. rewrite <-(wf_data _ Hwf). rewrite i32_small by (unfold is_i32; lia).
  rewrite (app_assoc (p_preamble p)), (drop_zlen (p_preamble p ++ p_presig p)) by (rewrite zlen_app; lia).
  unfold VerifyFirmwareData. rewrite indexed_val by done. cbn [mbind result_bind].
  replace (drop (Z.to_nat (siglen_map (p_alg p) * 4)) (p_fwsig p ++ p_data p ++ rest)) with (p_data p ++ rest) by (symmetry; apply drop_zlen; lia).
  rewrite (RSAVerifyBinary_f_check mem _ _ _ _ _ _ key); [|done|done|by left| | |lia|].
  2:{ rewrite zlen_app. lia. } 2:{ by rewrite Forall_app. } 2:{ rewrite zlen_app. pose proof (zlen_nonneg (p_data p ++ rest)). lia. }
  by rewrite !take_zlen.
Qed.
End verify.

(** ** What is accepted is an image *)

Lemma bytes_le_le b : octets b → bytes_le (length b) (le b) = b.
Proof.
  induction 1 as [|x b Hx _ IH]; [done|]. unfold is_byte in Hx. cbn [length]. unfold bytes_le. rewrite <-cons_seq, <-fmap_S_seq. cbn [fmap list_fmap].
  assert (le (x :: b) = x + 256 * le b) as -> by done. rewrite Z.shiftr_0_r. f_equal.
  - rewrite Z.mul_comm, Z_mod_plus_full. by apply Z.mod_small.
  - rewrite <-IH at 2. unfold bytes_le. rewrite <-list_fmap_compose. apply list_fmap_ext. intros i y _. cbn [compose]. f_equal.
    replace (8 * Z.of_nat (Datatypes.S y)) with (8 + 8 * Z.of_nat y) by lia. rewrite <-Z.shiftr_shiftr, (Z.shiftr_div_pow2 _ 8) by lia.
    change (2 ^ 8) with 256. f_equal. rewrite Z.add_comm, Z.mul_comm, Z.div_add_l by lia. rewrite Z.div_small; lia.
Qed.
Lemma cut_at (l : list Z) k : 0 ≤ k ≤ zlen l → ∃ a b, l = a ++ b ∧ zlen a = k ∧ a = take (Z.to_nat k) l ∧ b = drop (Z.to_nat k) l.
Proof.
  intros Hk. exists (take (Z.to_nat k) l), (drop (Z.to_nat k) l). split; [by rewrite take_drop|]. split; [|done].
  unfold zlen in *. rewrite length_take. lia.
Qed.
Section accepted.
Context (mem : Memory) (Hmem : mem_ok mem).

Lemma VerifyFirmwareHeader_inv root_blob H dev alg hl : octets H → zlen H < 2 ^ 29 →
  VerifyFirmwareHeader mem root_blob H dev = Val (inr (alg, hl)) →
  ∃ key version rest, let covered := bytes_le 2 (6 + zlen key + 64) ++ bytes_le 2 alg ++ key ++ version in
    H = (covered ++ hash_of SHA512_DIGEST_ALGORITHM covered) ++ rest ∧ 0 ≤ alg < kNumAlgorithms ∧
    zlen key = RSAProcessedKeySize alg ∧ zlen version = 2 ∧ hl = 6 + zlen key + 64 ∧
    (dev = false → ∃ root, RSAPublicKeyFromBuf root_blob (RSAProcessedKeySize ROOT_SIGNATURE_ALGORITHM) = Val (Some root)).
Proof.
  intros Ho Hmax. unfold VerifyFirmwareHeader. cbv zeta.
  destruct (read_at H 0 2) as [hlen|] eqn:E1; [|done]. cbn [mbind result_bind]. destruct (read_at H 2 2) as [algo|] eqn:E2; [|done]. cbn [mbind result_bind].
  destruct (Z.leb_spec kNumAlgorithms (le algo)) as [|Ha]; [done|]. apply read_at_inv in E1 as (_ & _ & _ & E1). apply read_at_inv in E2 as (_ & _ & Hl4 & E2).
  change (drop (Z.to_nat 0) H) with H in E1. change (Z.to_nat 2) with 2%nat in E1, E2.
  assert (octets hlen ∧ length hlen = 2%nat) as [Hoh Hlh] by (subst; split; [by apply Forall_take|rewrite length_take; unfold zlen in Hl4; lia]).
  assert (octets algo ∧ length algo = 2%nat) as [Hoa Hla]
    by (subst; split; [by apply Forall_take, Forall_drop|rewrite length_take, length_drop; unfold zlen in Hl4; lia]).
  pose proof (le_range algo Hoa) as [Ha0 _]. destruct (key_sizes (le algo) (conj Ha0 Ha)) as [Hk Hsz].
  destruct (Z.eqb_spec (le hlen) (2 + 2 + 2 + RSAProcessedKeySize (le algo) + 64)) as [Hhl|]; [|done]. cbn [negb].
  destruct (DigestBuf mem H (le hlen - 64) SHA512_DIGEST_ALGORITHM) as [d|] eqn:Ed; [|done]. cbn [mbind result_bind].
  destruct (read_at H (2 + 2 + 2 + _) 64) as [stored|] eqn:Es; [|done]. cbn [mbind result_bind]. apply read_at_inv in Es as (_ & _ & Hls & Es).
  destruct (Z.eqb_spec (SafeMemcmp d stored) 0) as [Hcmp|]; [|done]. cbn [negb]. intros Hrun.
  assert (hl = le hlen ∧ alg = le algo ∧ (dev = false → ∃ root, RSAPublicKeyFromBuf root_blob (RSAProcessedKeySize ROOT_SIGNATURE_ALGORITHM) = Val (Some root)))
    as (-> & -> & Hroot).
  { destruct dev; [by injection Hrun as <- <-|]. destruct (RSAVerifyBinary_f _ _ _ _ _ _ _) as [ok|] eqn:Ev; [|done]. cbn [mbind result_bind] in Hrun.
    destruct (Z.eqb_spec ok 0); [done|]. injection Hrun as <- <-. split_and!; [done..|]. intros _.
    apply RSAVerifyBinary_f_inv in Ev as (_ & _ & _ & k & [[? _]|(b & [= <-] & _ & Hp)]); [done|by exists k|done|done]. }
  destruct (cut_at H 4) as (h4 & H1 & HH & Hz4 & Hh4 & _); [lia|]. rewrite HH, zlen_app in Hls. pose proof (zlen_nonneg H1).
  destruct (cut_at H1 (RSAProcessedKeySize (le algo))) as (key & H2 & -> & Hzk & _); [lia|]. rewrite zlen_app in Hls.
  destruct (cut_at H2 2) as (version & H3 & -> & Hzv & _); [lia|]. rewrite zlen_app in Hls.
  destruct (cut_at H3 64) as (checksum & rest & -> & Hzc & _); [lia|].
  exists key, version, rest. cbv zeta. set (cov := bytes_le 2 (6 + zlen key + 64) ++ bytes_le 2 (le algo) ++ key ++ version).
  assert (h4 = bytes_le 2 (6 + zlen key + 64) ++ bytes_le 2 (le algo)) as Hh4'.
  { replace (6 + zlen key + 64) with (le hlen) by lia. rewrite <-Hlh at 1. rewrite bytes_le_le by done. rewrite <-Hla at 1. rewrite bytes_le_le by done.
    rewrite Hh4, E1, E2. change (Z.to_nat 4) with (2 + 2)%nat. symmetry. apply take_take_drop. }
  assert (H = cov ++ checksum ++ rest) as HHc by (rewrite HH, Hh4'; unfold cov; by rewrite <-!app_assoc).
  assert (zlen cov = 6 + RSAProcessedKeySize (le algo)) as Hzcov by (unfold cov; rewrite !zlen_app, !zlen_bytes_le; lia).
  assert (d = hash_of SHA512_DIGEST_ALGORITHM cov) as Hd.
  { destruct sha512_algorithm as [H2a _]. replace (le hlen - 64) with (zlen cov) in Ed by lia.
    pose proof (zlen_nonneg cov). pose proof (zlen_nonneg (checksum ++ rest)). assert (zlen H = zlen cov + zlen (checksum ++ rest)) by (by rewrite HHc, zlen_app).
    rewrite DigestBuf_hash in Ed by (done || lia). injection Ed as <-. by rewrite HHc, take_zlen. }
  assert (stored = checksum) as Hst.
  { rewrite Es, HHc. rewrite (drop_zlen cov) by lia. by rewrite take_zlen. }
  split_and!; try done; try lia.
  rewrite <-Hd. apply SafeMemcmp_same in Hcmp.
  - rewrite Hcmp, Hst, <-app_assoc. exact HHc.
  - destruct sha512_algorithm as [H2a Hs2]. pose proof (proj1 (hash_of_size SHA512_DIGEST_ALGORITHM cov H2a)) as Hsz2. rewrite Hs2, <-Hd in Hsz2.
    rewrite Hst. unfold zlen in *. lia.
Qed.
Lemma VerifyFirmwareHeader_code root_blob H dev : VerifyFirmwareHeader mem root_blob H dev ≠ Val (inl 0).
Proof.
  unfold VerifyFirmwareHeader. cbv zeta. destruct (read_at H 0 2) as [hlen|]; [|done]. cbn [mbind result_bind].
  destruct (read_at H 2 2) as [algo|]; [|done]. cbn [mbind result_bind]. destruct (kNumAlgorithms <=? le algo); [done|].
  destruct (negb _); [done|]. destruct (DigestBuf _ _ _ _) as [d|]; [|done]. cbn [mbind result_bind].
  destruct (read_at H _ 64) as [stored|]; [|done]. cbn [mbind result_bind]. destruct (negb _); [done|]. destruct dev; [done|].
  destruct (RSAVerifyBinary_f _ _ _ _ _ _ _) as [ok|]; [|done]. cbn [mbind result_bind]. by destruct (ok =? 0).
Qed.
Lemma VerifyFirmware_inv root_blob blob dev : octets blob → zlen blob < 2 ^ 29 → VerifyFirmware mem root_blob blob dev = Val 0 →
  ∃ p rest key, blob = image_bytes p ++ rest ∧ well_formed p ∧ RSAPublicKeyFromBuf (p_key p) (RSAProcessedKeySize (p_alg p)) = Val (Some key) ∧
    (dev = false → ∃ root, RSAPublicKeyFromBuf root_blob (RSAProcessedKeySize ROOT_SIGNATURE_ALGORITHM) = Val (Some root)).
Proof.
  intros Ho Hmax. unfold VerifyFirmware.
  destruct (read_at blob 0 FIRMWARE_MAGIC_SIZE) as [magic|] eqn:Em; [|done]. cbn [mbind result_bind].
  destruct (Z.eqb_spec (SafeMemcmp magic FIRMWARE_MAGIC) 0) as [Hcmp|]; [|done]. cbn [negb].
  apply read_at_inv in Em as (_ & _ & Hlm & Em). change FIRMWARE_MAGIC_SIZE with 8 in *.
  destruct (cut_at blob 8) as (mg & H & Hblob & Hzm & Hmg & HH); [lia|]. change (drop (Z.to_nat 0) blob) with blob in Em. rewrite <-Hmg in Em. subst magic.
  apply SafeMemcmp_same in Hcmp; [|unfold zlen in Hzm; cbn; lia]. subst mg. rewrite <-HH. clear HH Hmg Hlm. subst blob.
  rewrite zlen_app in Hmax. rewrite Forall_app in Ho. destruct Ho as [_ Ho]. pose proof (zlen_nonneg FIRMWARE_MAGIC).
  destruct (VerifyFirmwareHeader mem root_blob H dev) as [[e|[alg hl]]|] eqn:Eh; [| |done].
  { (* an error code of the header is not 0 *) cbn [mbind result_bind mret result_ret]. intros [= ->]. exfalso. revert Eh. apply VerifyFirmwareHeader_code. }
  apply VerifyFirmwareHeader_inv in Eh as (key & version & H' & HH & Ha & Hzk & Hzv & -> & Hroot); [|done|lia].
  cbn [mbind result_bind]. destruct (key_sizes alg Ha) as [Hk Hsz]. set (cov := bytes_le 2 _ ++ _) in *. set (cs := hash_of _ cov) in *.
  assert (drop 4 H = key ++ version ++ cs ++ H') as -> by (rewrite HH; unfold cov; by rewrite <-!app_assoc). rewrite <-Hzk, RSAPublicKeyFromBuf_prefix.
  destruct (RSAPublicKeyFromBuf key (zlen key)) as [sign_key|] eqn:Ek; [|done]. cbn [mbind result_bind]. rewrite indexed_val by done. cbn [mbind result_bind].
  assert (zlen (cov ++ cs) = 6 + zlen key + 64) as Hzh.
  { destruct sha512_algorithm as [H2a Hs2]. unfold cs. rewrite zlen_app, (proj1 (hash_of_size _ cov H2a)), Hs2. unfold cov. rewrite !zlen_app, !zlen_bytes_le. lia. }
  set (P := drop (Z.to_nat (6 + zlen key + 64 + RSA8192NUMBYTES)) H). unfold VerifyFirmwarePreamble. cbv zeta.
  destruct (RSAVerifyBinary_f mem None sign_key P preamble_size _ alg) as [ok|] eqn:Ev; [|done]. cbn [mbind result_bind].
  destruct (Z.eqb_spec ok 0) as [|Hok]; [done|]. apply RSAVerifyBinary_f_inv in Ev as (_ & HlP & HlP' & k & Hsk); [|lia|done].
  assert (sign_key = Some k) as -> by (by destruct Hsk as [[_ ->]|(? & ? & _)]). clear Hsk. change preamble_size with 14 in *. change RSA8192NUMBYTES with 1024 in *.
  assert (0 ≤ 1024 ≤ zlen H') as HlH'.
  { assert (zlen H = zlen (cov ++ cs) + zlen H') by (by rewrite HH, zlen_app). unfold P, zlen in *. rewrite length_drop in *. lia. }
  destruct (cut_at H' 1024 HlH') as (keysig & P' & HH' & Hzks & _). assert (P = P') as HP.
  { unfold P. rewrite HH, HH', app_assoc. apply drop_zlen. rewrite zlen_app. lia. }
  clearbody P. subst P'. destruct (read_at P 2 4) as [lenb|] eqn:El; [|done]. cbn [mbind result_bind mret result_ret]. apply read_at_inv in El as (_ & _ & _ & El).
  destruct (cut_at P 14) as (preamble & Q & HPp & Hzp & _ & HQ); [lia|]. rewrite <-HQ in HlP'. clear HQ.
  destruct (cut_at Q (4 * siglen_map alg)) as (presig & F & HQf & Hzps & _); [lia|].
  assert (drop (Z.to_nat (14 + siglen_map alg * 4)) P = F) as -> by (rewrite HPp, HQf, app_assoc; apply drop_zlen; rewrite zlen_app; lia).
  unfold VerifyFirmwareData. rewrite indexed_val by done. cbn [mbind result_bind].
  destruct (RSAVerifyBinary_f mem None (Some k) _ (i32 (le lenb)) F alg) as [ok3|] eqn:Ev3; [|done]. cbn [mbind result_bind mret result_ret].
  destruct (Z.eqb_spec ok3 0) as [|Hok3]; [done|]. intros _. apply RSAVerifyBinary_f_inv in Ev3 as (_ & HlF & HlF' & _); [|lia|done].
  destruct (cut_at F (4 * siglen_map alg)) as (fwsig & G & HF & Hzfs & _ & HG); [lia|]. rewrite (Z.mul_comm (siglen_map alg)), <-HG in HlF. clear HG.
  destruct (cut_at G (i32 (le lenb)) HlF) as (data & rest & HGd & Hzd & _).
  assert (lenb = take 4 (drop 2 preamble)) as Hlen.
  { rewrite El, HPp. unfold zlen in Hzp. rewrite drop_app_le, take_app_le by (rewrite ?length_drop; lia). done. }
  assert (octets lenb ∧ zlen lenb = 4) as [Hol Hzl].
  { split.
    - rewrite Hlen. apply Forall_take, Forall_drop. rewrite HH, HH', HPp, !Forall_app in Ho. tauto.
    - rewrite Hlen. unfold zlen in *. rewrite length_take, length_drop. lia. }
  assert (i32 (le lenb) = le lenb) as Hi.
  { pose proof (le_range lenb Hol) as Hr. rewrite Hzl in Hr. revert Hzd. pose proof (zlen_nonneg data). unfold i32.
    destruct (Z.lt_ge_cases (le lenb) (2 ^ 31)).
    - intros _. apply i32_small. unfold is_i32. lia.
    - intros Hd. exfalso. assert (i32 (le lenb) = le lenb - 2 ^ 32) as Heq; [|unfold i32 in Heq; lia].
      rewrite <-(i32_small (le lenb - 2 ^ 32)) by (unfold is_i32; lia). unfold i32.
      replace (le lenb + 2 ^ 31) with (le lenb - 2 ^ 32 + 2 ^ 31 + 1 * 2 ^ 32) by lia. by rewrite Z_mod_plus_full. }
  exists (mkParts alg key version cs keysig preamble presig fwsig data), rest, k.
  assert (FIRMWARE_MAGIC ++ H = image_bytes (mkParts alg key version cs keysig preamble presig fwsig data) ++ rest) as Himg.
  { rewrite HH, HH', HPp, HQf, HF, HGd. unfold image_bytes, header, covered. cbn [p_alg p_key p_version p_checksum p_keysig p_preamble p_presig p_fwsig p_data].
    fold cov. by rewrite <-!app_assoc. }
  split; [exact Himg|]. split; [|split; [by rewrite Hzk in Ek|exact Hroot]].
  assert (octets (FIRMWARE_MAGIC ++ H)) as Hoi by (apply Forall_app; split; [apply (bool_decide_unpack _); vm_compute; exact Logic.I|exact Ho]).
  assert (zlen (FIRMWARE_MAGIC ++ H) < 2 ^ 29) as Hzi by (rewrite zlen_app; lia). rewrite Himg in Hoi, Hzi. rewrite Forall_app in Hoi. rewrite zlen_app in Hzi.
  pose proof (zlen_nonneg rest). split; cbn [p_alg p_key p_version p_checksum p_keysig p_preamble p_presig p_fwsig p_data]; try done; try lia.
  - by rewrite <-Hlen, Hzd.
  - tauto.
Qed.
End accepted.

(** ** The chain of trust *)

(** What an accepted image is: signed by the root key (unless in developer mode) is the header with
    the signing key, signed by the signing key are the preamble with the length and the data. *)
Definition trusted (root : RSAPublicKey) (dev_mode : bool) (key : RSAPublicKey) (p : parts) : Prop :=
  well_formed p ∧
  RSAPublicKeyFromBuf (p_key p) (RSAProcessedKeySize (p_alg p)) = Val (Some key) ∧
  (dev_mode = false → valid_signature root ROOT_SIGNATURE_ALGORITHM (header p) (p_keysig p)) ∧
  valid_signature key (p_alg p) (p_preamble p) (p_presig p) ∧
  valid_signature key (p_alg p) (p_data p) (p_fwsig p).
Lemma chain_valid root_blob root key p dev : well_formed p → key_ok root → key_ok key →
  RSAPublicKeyFromBuf root_blob (RSAProcessedKeySize ROOT_SIGNATURE_ALGORITHM) = Val (Some root) →
  RSAPublicKeyFromBuf (p_key p) (RSAProcessedKeySize (p_alg p)) = Val (Some key) →
  chain root key p dev =
    Val (if decide (dev = false → valid_signature root ROOT_SIGNATURE_ALGORITHM (header p) (p_keysig p)) then
           if decide (valid_signature key (p_alg p) (p_preamble p) (p_presig p)) then
             if decide (valid_signature key (p_alg p) (p_data p) (p_fwsig p)) then 0 else VERIFY_FIRMWARE_SIGNATURE_FAILED
           else VERIFY_FIRMWARE_PREAMBLE_SIGNATURE_FAILED
         else VERIFY_FIRMWARE_ROOT_SIGNATURE_FAILED).
Proof.
  intros Hwf Hroot Hkey Hpr Hpk. pose proof (wf_octets _ Hwf) as Ho. unfold image_bytes in Ho. rewrite !Forall_app in Ho.
  destruct Ho as (_ & _ & Hoks & _ & Hops & Hofs & _). destruct root_algorithm as [Har Hsr].
  unfold chain. rewrite (check_valid root root_blob _ (header p) (p_keysig p)) by (done || by rewrite (wf_keysig _ Hwf)).
  rewrite !(check_valid key (p_key p)) by (done || apply Hwf).
  destruct dev; cbn [mbind result_bind mret result_ret].
  - rewrite (decide_True (P := true = false → _)) by done. cbn [Z.eqb].
    destruct (decide (valid_signature key (p_alg p) (p_preamble p) (p_presig p))); cbn [Z.eqb mbind result_bind]; [|done].
    by destruct (decide (valid_signature key (p_alg p) (p_data p) (p_fwsig p))).
  - destruct (decide (valid_signature root _ _ _)) as [Hv|Hv]; cbn [Z.eqb].
    + rewrite (decide_True (P := false = false → _)) by done.
      destruct (decide (valid_signature key (p_alg p) (p_preamble p) (p_presig p))); cbn [Z.eqb mbind result_bind]; [|done].
      by destruct (decide (valid_signature key (p_alg p) (p_data p) (p_fwsig p))).
    + rewrite (decide_False (P := false = false → _)) by auto. done.
Qed.
Lemma key_place p rest : take 2 (drop 10 (image_bytes p ++ rest)) = bytes_le 2 (p_alg p) ∧
  drop 12 (image_bytes p ++ rest) = p_key p ++ p_version p ++ p_checksum p ++ p_keysig p ++ p_preamble p ++ p_presig p ++ p_fwsig p ++ p_data p ++ rest.
Proof. unfold image_bytes, header, covered. rewrite <-!app_assoc. done. Qed.


(** ** Images in a struct *)

Definition parts_of (image : FirmwareImage) : parts :=
  mkParts (sign_algorithm image) (sign_key image) (bytes_le 2 (key_version image)) (header_checksum image) (key_signature image)
    (WriteFirmwarePreamble image) (preamble_signature image) (firmware_signature image) (firmware_data image).
(** What the test generates: the length of the header is right and the arrays have the sizes of their types. *)
Record image_ok (image : FirmwareImage) : Prop := {
  io_magic : magic image = FIRMWARE_MAGIC;
  io_header_len : header_len image = 6 + zlen (sign_key image) + 64;
  io_firmware_len : 0 ≤ firmware_len image < 2 ^ 32;
  io_preamble : zlen (preamble image) = FIRMWARE_PREAMBLE_SIZE;
  io_parts : well_formed (parts_of image)
}.
Lemma image_firmware_len image : image_ok image → zlen (firmware_data image) = firmware_len image.
Proof.
  intros [_ _ Hf _ Hwf]. pose proof (wf_data _ Hwf) as Hd. cbn [parts_of p_data p_preamble] in Hd. rewrite Hd. unfold WriteFirmwarePreamble.
  change (take 4 (drop 2 (bytes_le 2 (firmware_version image) ++ bytes_le 4 (firmware_len image) ++ preamble image))) with (bytes_le 4 (firmware_len image)).
  by apply le_bytes_le.
Qed.
Lemma WriteFirmwareImage_bytes image : image_ok image → WriteFirmwareImage image = Val (image_bytes (parts_of image)).
Proof.
  intros Hok. pose proof (image_firmware_len image Hok) as Hfl. destruct Hok as [Hm Hh Hf Hp Hwf]. pose proof (wf_alg _ Hwf) as Ha. pose proof (wf_key _ Hwf) as Hk.
  destruct (key_sizes _ Ha) as [Hks Hsz]. cbn [parts_of p_alg p_key] in *. unfold WriteFirmwareImage, WriteFirmwareHeader. cbv zeta. rewrite Hh.
  replace (6 + zlen (sign_key image) + 64 - 2 - 2 - 2 - 64) with (zlen (sign_key image)) by lia. rewrite i32_small by (unfold is_i32; lia).
  replace (zlen (sign_key image) <? 0) with false by (symmetry; apply Z.ltb_ge, zlen_nonneg). rewrite read_at_all by done. cbn [mbind result_bind mret result_ret].
  rewrite indexed_val by done. cbn [mbind result_bind]. rewrite !read_at_all; cbn [mbind result_bind]; [|done|..].
  - rewrite Hm. unfold image_bytes, header, covered, parts_of. cbn. by rewrite <-!app_assoc.
  - rewrite Z.mul_comm. apply (wf_presig _ Hwf).
  - rewrite Z.mul_comm. apply (wf_fwsig _ Hwf).
Qed.
Lemma digest_step {B} alg ctx D data len (k : DigestContext → result B) r : 0 ≤ alg < kNumAlgorithms → digesting alg ctx D → zlen data = len →
  octets data → zlen data < 2 ^ 29 → (∀ ctx', digesting alg ctx' (D ++ data) → k ctx' = r) → (ctx' ← DigestUpdate ctx data len; k ctx') = r.
Proof.
  intros Ha Hd <- Ho Hm Hk. destruct (DigestUpdate_digesting alg ctx D data Ha Hd Ho Hm) as (ctx' & -> & Hd'). by apply Hk.
Qed.
Lemma VerifyFirmwareImage_run mem root key image dev : mem_ok mem → image_ok image →
  RSAPublicKeyFromBuf (sign_key image) (RSAProcessedKeySize (sign_algorithm image)) = Val (Some key) →
  VerifyFirmwareImage mem (Some root) (Some image) dev = chain root key (parts_of image) dev.
Proof.
  intros Hmem Hok Hpk. pose proof (image_firmware_len image Hok) as Hfl. destruct Hok as [Hm Hh Hf Hp Hwf]. pose proof (wf_alg _ Hwf) as Ha.
  pose proof (wf_octets _ Hwf) as Ho. pose proof (wf_size _ Hwf) as Hsize. pose proof (wf_key _ Hwf) as Hk.
  pose proof (zlen_header _ Hwf) as Hzh. pose proof (zlen_covered _ Hwf) as Hzc. pose proof (wf_keysig _ Hwf) as Hks.
  unfold image_bytes in Ho, Hsize. rewrite !zlen_app in Hsize. rewrite !Forall_app in Ho. destruct Ho as (_ & Hoh & _ & Hop & _ & _ & Hod).
  unfold header, covered in Hoh. unfold WriteFirmwarePreamble in Hop. cbn [parts_of p_alg p_key p_preamble p_version p_checksum p_keysig p_presig p_fwsig p_data] in *.
  unfold WriteFirmwarePreamble in Hop. rewrite !Forall_app in Hop. repeat rewrite Forall_app in Hoh. destruct Hoh as [(Ho1 & Ho2 & Ho3 & Ho4) Ho5]. destruct Hop as (Ho6 & Ho7 & Ho8).
  assert (zlen (header_checksum image) = 64) as Hcs by (unfold header in Hzh; cbn [parts_of p_checksum] in Hzh; rewrite zlen_app in Hzh; lia).
  pose proof (zlen_nonneg FIRMWARE_MAGIC). pose proof (zlen_nonneg (header (parts_of image))). pose proof (zlen_nonneg (key_signature image)).
  pose proof (zlen_nonneg (preamble_signature image)). pose proof (zlen_nonneg (firmware_signature image)).
  pose proof (zlen_nonneg (firmware_data image)). pose proof (zlen_nonneg (WriteFirmwarePreamble image)).
  unfold VerifyFirmwareImage, chain. cbv zeta.
  match goal with |- (?a ≫= ?f) = _ => enough (a = if dev then mret 1 else check root ROOT_SIGNATURE_ALGORITHM (header (parts_of image)) (key_signature image)) as -> end.
  - destruct (if dev then _ else _) as [ok|]; [|done]. cbn [mbind result_bind]. destruct (ok =? 0); [done|]. rewrite indexed_val, Hpk by done. cbn [mbind result_bind].
    replace (kNumAlgorithms <=? sign_algorithm image) with false by (symmetry; apply Z.leb_gt; lia).
    destruct (DigestInit_digesting mem _ Hmem Ha) as (ctx & -> & Hd). cbn [mbind result_bind].
    eapply digest_step; [done|done|by rewrite zlen_bytes_le|done|rewrite zlen_bytes_le; lia|]. intros ctx1 Hd1.
    eapply digest_step; [done|done|by rewrite zlen_bytes_le|done|rewrite zlen_bytes_le; lia|]. intros ctx2 Hd2.
    eapply digest_step; [done|done|done|done|rewrite Hp; done|]. intros ctx3 Hd3.
    replace ((([] ++ bytes_le 2 (firmware_version image)) ++ bytes_le 4 (firmware_len image)) ++ preamble image) with (WriteFirmwarePreamble image) in Hd3
      by (unfold WriteFirmwarePreamble; by rewrite <-!app_assoc).
    rewrite (DigestFinal_hash _ _ _ Ha Hd3) by lia. cbn [mbind result_bind RSA_verify_at deref]. unfold check. rewrite (Z.mul_comm _ 4). cbn [parts_of p_alg p_preamble p_presig p_data p_fwsig].
    destruct (RSA_verify key (preamble_signature image) _ _ _) as [ok2|]; [|done]. cbn [mbind result_bind]. destruct (ok2 =? 0); [done|].
    rewrite i32_small by (unfold is_i32; lia). rewrite DigestBuf_hash by (done || lia). cbn [mbind result_bind].
    rewrite take_ge by (unfold zlen in Hfl; lia). done.
  - destruct dev; [done|]. destruct root_algorithm as [Har Hsr]. destruct (key_sizes _ Ha) as [Hk8 Hsz].
    destruct (DigestInit_digesting mem _ Hmem Har) as (ctx & -> & Hd). cbn [mbind result_bind].
    eapply digest_step; [done|done|by rewrite zlen_bytes_le|apply bytes_le_octets|rewrite zlen_bytes_le; lia|]. intros ctx1 Hd1.
    eapply digest_step; [done|done|by rewrite zlen_bytes_le|done|rewrite zlen_bytes_le; lia|]. intros ctx2 Hd2. rewrite indexed_val by done. cbn [mbind result_bind].
    eapply digest_step; [done|done|done|done|lia|]. intros ctx3 Hd3.
    eapply digest_step; [done|done|by rewrite zlen_bytes_le|done|rewrite zlen_bytes_le; lia|]. intros ctx4 Hd4.
    eapply digest_step; [done|done|done|done|lia|]. intros ctx5 Hd5.
    rewrite (DigestFinal_hash _ _ _ Har Hd5); [|rewrite !zlen_app, !zlen_bytes_le; change (zlen []) with 0; lia]. cbn [mbind result_bind RSA_verify_at deref].
    unfold check, header, covered. cbn [parts_of p_alg p_key p_version p_checksum]. rewrite Hsr, Hh, <-!app_assoc. done.
Qed.


(** ** ReadFirmwareImage *)

Lemma read_field_mid count store a b len image : zlen a = count → count ≤ len →
  read_field count store (mkMemcpy (a ++ b) len, image) = Val (true, (mkMemcpy b (len - count), store a image)).
Proof.
  intros Hz Hl. unfold read_field, zoom, StatefulMemcpy. unfold mbind, M_bind. cbn [fst snd remaining_len remaining_buf].
  replace (len <? count) with false by (symmetry; apply Z.ltb_ge; lia).
  replace (count <? 0) with false by (symmetry; apply Z.ltb_ge; rewrite <-Hz; apply zlen_nonneg).
  replace (zlen (a ++ b) <? count) with false by (symmetry; apply Z.ltb_ge; rewrite zlen_app; pose proof (zlen_nonneg b); lia).
  cbn [orb]. rewrite take_zlen, drop_zlen by done. done.
Qed.

(** C40. ReadFirmwareImage refuses every image that VerifyFirmware accepts: it expects a header
    without a key. *)
Theorem accepted_images_cannot_be_read mem root_blob file dev_mode image : mem_ok mem → octets file → zlen file < 2 ^ 29 →
  VerifyFirmware mem root_blob file dev_mode = Val 0 →
  ∃ image', ReadFirmwareImage (Some file) (Some image) = Val (false, Some image').
Proof.
  intros Hmem Ho Hmax Hv. destruct (VerifyFirmware_inv mem Hmem root_blob file dev_mode Ho Hmax Hv) as (p & rest & key & -> & Hwf & _).
  pose proof (wf_alg _ Hwf) as Ha. pose proof (wf_key _ Hwf) as Hk. destruct (key_sizes _ Ha) as [Hk8 Hsz].
  assert (∃ tail, image_bytes p ++ rest = FIRMWARE_MAGIC ++ bytes_le 2 (6 + zlen (p_key p) + 64) ++ bytes_le 2 (p_alg p) ++ tail) as (tail & Hb).
  { eexists. unfold image_bytes, header, covered. by rewrite <-!app_assoc. }
  assert (zlen (image_bytes p ++ rest) = 12 + zlen tail) as Hz by (rewrite Hb, !zlen_app, !zlen_bytes_le; change (zlen FIRMWARE_MAGIC) with 8; lia).
  pose proof (zlen_nonneg tail). rewrite Hz in Hmax. unfold ReadFirmwareImage. rewrite i32_small by (unfold is_i32; lia). rewrite Hz, Hb.
  unfold mbind at 1, M_bind at 1, Malloc at 1, CHECK at 1. rewrite u32_small by (unfold is_u32; lia).
  replace (12 + zlen tail <? 2 ^ 31) with true by (symmetry; apply Z.ltb_lt; lia). cbn [mret M_ret].
  rewrite (bind_run _ _ _ _ _ (read_field_mid 8 _ FIRMWARE_MAGIC _ (12 + zlen tail) _ eq_refl ltac:(lia))). cbn [negb]. rewrite gets_bind. cbn [snd].
  lazymatch goal with |- context [SafeMemcmp ?m _] => change m with FIRMWARE_MAGIC end. rewrite (proj2 (SafeMemcmp_same FIRMWARE_MAGIC _ eq_refl)) by done. cbn [Z.eqb negb]. unfold parse_fields.
  rewrite (bind_run _ _ _ _ _ (read_field_mid 2 _ _ _ (12 + zlen tail - 8) _ (zlen_bytes_le 2 _) ltac:(lia))).
  rewrite (bind_run _ _ _ _ _ (read_field_mid 2 _ _ _ (12 + zlen tail - 8 - 2) _ (zlen_bytes_le 2 _) ltac:(lia))). rewrite gets_bind. cbn [snd].
  lazymatch goal with |- context [sign_algorithm ?i] => set (im := i) end. assert (sign_algorithm im = p_alg p ∧ header_len im = 6 + zlen (p_key p) + 64) as [-> Hhl].
  { unfold im. cbn -[bytes_le le]. rewrite !le_bytes_le; [done|..]; unfold kNumAlgorithms in Ha; change (256 ^ Z.of_nat 2) with 65536; lia. }
  replace (kNumAlgorithms <? p_alg p) with false by (symmetry; apply Z.ltb_ge; lia). unfold at_algorithm. rewrite indexed_val by done.
  unfold mbind at 1, M_bind at 1. cbv zeta. rewrite gets_bind. cbn [snd]. rewrite Hhl.
  replace (2 + 2 + 2 + 64 =? 6 + zlen (p_key p) + 64) with false by (symmetry; apply Z.eqb_neq; lia). cbn [negb]. eexists. reflexivity.
Qed.

(** ** An image that is accepted

    Keys with a message whose encoding is its own signature: the modulus is the encoding [E]
    times a divisor [d] of [E - 1], so that every power of [E] is [E] again. *)

Module Example.
Lemma words_le_spec k b : length b = (4 * k)%nat → octets b →
  words (words_le b) ∧ length (words_le b) = k ∧ val (words_le b) = le b.
Proof.
  revert b. induction k as [|k IH]; intros b Hl Ho.
  { destruct b; [|done]. split; [by apply Forall_nil|done]. }
  destruct b as [|b0 [|b1 [|b2 [|b3 b]]]]; try (cbn in Hl; lia). rewrite !Forall_cons in Ho. destruct Ho as (H0 & H1 & H2 & H3 & Ho).
  destruct (IH b) as (IHw & IHl & IHv); [cbn in Hl; lia|done|]. unfold is_byte in *. cbn [words_le length val]. rewrite IHl, IHv.
  unfold le. cbn [foldr]. fold (le b). split_and!; [|done|lia]. apply Forall_cons. split; [unfold is_u32; lia|done].
Qed.
Section key.
Context (alg d inv : Z) (digest : list Z).
Definition E : Z := be (encoded alg digest).
Definition size : nat := Z.to_nat (4 * siglen_map alg).
Definition modulus : Z := E * d.
Definition A : Z := 2 ^ (8 * Z.of_nat size - 15).
Definition c : Z := A - E.
Definition R_squared : Z := 2 ^ 30 * (c * c) + E * ((2 ^ 30 * (A + c)) `mod` d).
Definition key_bytes : list Z :=
  bytes_le 4 (siglen_map alg) ++ bytes_le 4 inv ++ bytes_le size modulus ++ bytes_le size R_squared.
Definition key : RSAPublicKey := mkKey (siglen_map alg) inv (words_le (bytes_le size modulus)) (words_le (bytes_le size R_squared)).
(** [digest] is the digest of what is signed, the signature is its encoding. *)
Definition signature : list Z := encoded alg digest.
Record fits_key : Prop := {
  ek_alg : 0 ≤ alg < kNumAlgorithms;
  ek_octets : octets digest;
  ek_digest : zlen digest = hash_size_map alg;
  ek_E : 1 < E;
  ek_d : 1 < d;
  ek_divides : (E - 1) `mod` d = 0;
  ek_top : 2 ^ (8 * Z.of_nat size) ≤ 2 * modulus;
  ek_range : modulus < 2 ^ (8 * Z.of_nat size);
  ek_rr : 0 ≤ R_squared < 2 ^ (8 * Z.of_nat size);
  ek_inv : 0 ≤ inv < 2 ^ 32 ∧ (inv * (modulus `mod` 2 ^ 32) + 1) `mod` 2 ^ 32 = 0
}.
Context (Hfit : fits_key).
Lemma modulus_pos : 0 ≤ modulus.
Proof. destruct Hfit. unfold modulus. nia. Qed.
Lemma pow_256 z : 256 ^ Z.of_nat size = 2 ^ (8 * Z.of_nat size) ∧ (z < 2 ^ (8 * Z.of_nat size) → z < 256 ^ Z.of_nat size).
Proof. assert (256 ^ Z.of_nat size = 2 ^ (8 * Z.of_nat size)) as -> by (change 256 with (2 ^ 8); rewrite <-Z.pow_mul_r by lia; done). done. Qed.
Lemma size_words : size = (4 * Z.to_nat (siglen_map alg))%nat ∧ 32 ≤ siglen_map alg ≤ 256.
Proof. destruct (key_sizes alg (ek_alg Hfit)) as [_ H]. unfold size. lia. Qed.
Lemma number_words z : 0 ≤ z < 2 ^ (8 * Z.of_nat size) →
  words (words_le (bytes_le size z)) ∧ length (words_le (bytes_le size z)) = Z.to_nat (siglen_map alg) ∧ val (words_le (bytes_le size z)) = z.
Proof.
  intros Hz. destruct size_words as [Hs _]. destruct (words_le_spec (Z.to_nat (siglen_map alg)) (bytes_le size z)) as (Hw & Hl & Hv).
  - pose proof (zlen_bytes_le size z) as Hzl. unfold zlen in Hzl. lia.
  - apply bytes_le_octets.
  - split_and!; [done..|]. rewrite Hv. apply le_bytes_le. rewrite (proj1 (pow_256 z)). done.
Qed.
Lemma key_fit : key_ok key.
Proof.
  pose proof modulus_pos as Hmp. destruct size_words as [Hsz Hsl]. pose proof (ek_range Hfit) as Hr. pose proof (ek_top Hfit) as Ht. pose proof (ek_d Hfit) as Hd.
  destruct (number_words modulus (conj Hmp Hr)) as (Hw & Hl & Hv). destruct (number_words R_squared (ek_rr Hfit)) as (Hwr & Hlr & Hvr).
  assert (R (words_le (bytes_le size modulus)) = 2 ^ (8 * Z.of_nat size)) as HR by (unfold R, zlen; rewrite Hl; f_equal; lia).
  split; cbn [key Rsa.len n rr n0inv].
  - unfold zlen. rewrite Hl. lia.
  - exact Hw.
  - by rewrite Hl, Hlr.
  - exact Hwr.
  - destruct (words_le (bytes_le size modulus)) as [|n0 ns] eqn:E0; [cbn [length] in Hl; lia|]. exists n0, ns. split; [done|].
    apply Forall_cons in Hw as [Hn0 _]. cbn [val] in Hv. replace n0 with (modulus `mod` 2 ^ 32); [apply (ek_inv Hfit)|].
    rewrite <-Hv, Z.mul_comm, Z_mod_plus_full. by apply Z.mod_small.
  - rewrite HR, Hv. exact Ht.
  - rewrite HR, Hv, Hvr. pose proof (Z.div_mod (2 ^ 30 * (A + c)) d ltac:(lia)) as Hdm.
    assert (2 ^ (8 * Z.of_nat size) = 2 ^ 15 * A) as -> by (unfold A; rewrite <-Z.pow_add_r by lia; f_equal; lia).
    assert (A = c + E) as HA by (unfold c; lia). unfold R_squared, modulus. set (q := (2 ^ 30 * (A + c)) `div` d) in *.
    set (m := (2 ^ 30 * (A + c)) `mod` d) in *. clearbody m q. clear - Hdm HA.
    replace (2 ^ 30 * (c * c) + E * m) with (2 ^ 15 * A * (2 ^ 15 * A) + - q * (E * d)); [apply Z_mod_plus_full|].
    replace m with (2 ^ 30 * (A + c) - d * q) by lia. rewrite HA. ring.
Qed.
Lemma zlen_key_bytes : zlen key_bytes = RSAProcessedKeySize alg.
Proof.
  destruct (key_sizes alg (ek_alg Hfit)) as [Hk _]. destruct size_words as [Hsz Hsl]. unfold key_bytes. rewrite !zlen_app, !zlen_bytes_le. lia.
Qed.
Lemma memcpy_mid a b count l : zlen a = count → count ≤ l → StatefulMemcpy count (mkMemcpy (a ++ b) l) = Val (Some a, mkMemcpy b (l - count)).
Proof.
  intros Hz Hl. unfold StatefulMemcpy. cbn [remaining_len remaining_buf].
  replace (l <? count) with false by (symmetry; apply Z.ltb_ge; lia).
  replace (count <? 0) with false by (symmetry; apply Z.ltb_ge; rewrite <-Hz; apply zlen_nonneg).
  replace (zlen (a ++ b) <? count) with false by (symmetry; apply Z.ltb_ge; rewrite zlen_app; pose proof (zlen_nonneg b); lia).
  cbn [orb]. by rewrite take_zlen, drop_zlen.
Qed.
Lemma key_parsed : RSAPublicKeyFromBuf key_bytes (RSAProcessedKeySize alg) = Val (Some key).
Proof.
  destruct (key_sizes alg (ek_alg Hfit)) as [Hk _]. destruct size_words as [Hsz Hsl]. destruct (ek_inv Hfit) as [Hi _]. unfold RSAPublicKeyFromBuf, key_bytes. cbv zeta.
  assert (i32 (siglen_map alg) = siglen_map alg ∧ i32 (siglen_map alg * 4) = siglen_map alg * 4) as [Hi1 Hi2] by (split; apply i32_small; unfold is_i32; lia).
  assert (le (bytes_le 4 (siglen_map alg)) = siglen_map alg) as Hle by (apply le_bytes_le; change (256 ^ Z.of_nat 4) with (2 ^ 32); lia).
  rewrite (bind_run _ _ _ _ _ (memcpy_mid (bytes_le 4 (siglen_map alg)) _ 4 (RSAProcessedKeySize alg) (zlen_bytes_le 4 _) ltac:(lia))). cbv zeta. rewrite Hle, Hi1, Hi2.
  assert (CHECK (S := MemcpyState) (u32 (siglen_map alg * 4) <? 2 ^ 31) = mret ()) as HC.
  { rewrite u32_small by (unfold is_u32; lia). by replace (siglen_map alg * 4 <? 2 ^ 31) with true by (symmetry; apply Z.ltb_lt; lia). }
  unfold Malloc. rewrite HC. rewrite !(bind_run (mret ()) _ _ _ _ eq_refl).
  rewrite (bind_run _ _ _ _ _ (memcpy_mid (bytes_le 4 inv) _ 4 (RSAProcessedKeySize alg - 4) (zlen_bytes_le 4 _) ltac:(lia))).
  assert (∀ z, zlen (bytes_le size z) = siglen_map alg * 4) as Hzs by (intros z; rewrite zlen_bytes_le; lia).
  rewrite (bind_run _ _ _ _ _ (memcpy_mid (bytes_le size modulus) _ _ (RSAProcessedKeySize alg - 4 - 4) (Hzs _) ltac:(lia))).
  rewrite <-(app_nil_r (bytes_le size R_squared)).
  rewrite (bind_run _ _ _ _ _ (memcpy_mid (bytes_le size R_squared) [] _ (RSAProcessedKeySize alg - 4 - 4 - siglen_map alg * 4) (Hzs _) ltac:(lia))).
  unfold mbind, M_bind, mget, mret, M_ret. cbn [remaining_len].
  replace (RSAProcessedKeySize alg - 4 - 4 - siglen_map alg * 4 - siglen_map alg * 4 =? 0) with true by (symmetry; apply Z.eqb_eq; lia).
  cbn [negb default id]. do 2 f_equal. unfold key. f_equal. apply le_bytes_le. change (256 ^ Z.of_nat 4) with (2 ^ 32). lia.
Qed.
Lemma power_is_E k : E ^ Z.of_nat (Datatypes.S k) `mod` modulus = E.
Proof.
  pose proof (ek_E Hfit) as HE. pose proof (ek_d Hfit) as Hd. pose proof (ek_divides Hfit) as Hdiv. apply Z.mod_divide in Hdiv as [q Hq]; [|lia].
  assert (0 < E < modulus) as Hrange by (unfold modulus; nia). induction k as [|k IH]; [rewrite Z.pow_1_r; apply Z.mod_small; lia|].
  rewrite Nat2Z.inj_succ, Z.pow_succ_r by lia. rewrite <-Zmult_mod_idemp_r, IH.
  replace (E * E) with (E + q * modulus) by (unfold modulus; nia). rewrite Z_mod_plus_full. apply Z.mod_small. lia.
Qed.
Lemma signature_valid message : hash_of alg message = digest → valid_signature key alg message signature.
Proof.
  intros Hh. unfold valid_signature. rewrite Hh. cbn [key n]. rewrite (proj2 (proj2 (number_words modulus (conj modulus_pos (ek_range Hfit))))).
  unfold signature. fold E. replace 65537 with (Z.of_nat (Datatypes.S (Z.to_nat 65536))) by (rewrite Nat2Z.inj_succ, Z2Nat.id; done). apply power_is_E.
Qed.
End key.

Definition memory : Memory :=
  mkMemory (mkSHA1 5 [] (replicate 64 1)) (mkCTX [] 3 4 (replicate 128 2) []) (mkCTX [] 6 7 (replicate 256 3) []).
Lemma memory_ok : mem_ok memory.
Proof. split; reflexivity. Qed.
Lemma computed_hash alg message digest : 0 ≤ alg < kNumAlgorithms → octets message → zlen message < 2 ^ 29 →
  DigestBuf memory message (zlen message) alg = Val digest → hash_of alg message = digest.
Proof.
  intros Ha Ho Hm. pose proof (zlen_nonneg message). rewrite DigestBuf_hash by (apply memory_ok || done || lia).
  rewrite take_ge by (unfold zlen; lia). by intros [= ->].
Qed.
(** Signed by the root key, with a key of RSA1024 and SHA-1; the fourteen bytes of data are those of the preamble. *)
Definition digest_1 : list Z := hex ("62e085653f311ccea7f4d065115c42fc9f311a8d")%string.
Definition digest_2 : list Z := hex
  ("7b470373e6c39f1fbc54e92cdf6f44652adfc53f8aa24e2ea74bc33a02fb2cc4"
   ++ "23077df14a15a2a1ab87ba5583299befb26cf384ff4c8e95eca7009a8eeda5c5")%string.
Definition sign_key_bytes : list Z := key_bytes 0 19639 734634269 digest_1.
Definition root_key_blob : list Z := key_bytes 11 16595 2615428449 digest_2.
Definition image : FirmwareImage := {|
  magic := FIRMWARE_MAGIC; header_len := 334; sign_algorithm := 0; sign_key := sign_key_bytes; key_version := 15;
  header_checksum := hex
    ("40dccf3f26a6929ee7d24aebba9de487cfcdf9bd28170c66bb5bcb350c188e40"
     ++ "771b0bff1aa4af30f0a86ccf8391ef9fa6b7f00fb2ac696e78e58374eb6de578")%string;
  key_signature := signature 11 digest_2;
  firmware_version := 28; firmware_len := 14; preamble := replicate 8 80;
  preamble_signature := signature 0 digest_1; firmware_signature := signature 0 digest_1;
  firmware_data := bytes_le 2 28 ++ bytes_le 4 14 ++ replicate 8 80 |}.
Definition root_key : RSAPublicKey := key 11 16595 2615428449 digest_2.
Definition signing_key : RSAPublicKey := key 0 19639 734634269 digest_1.
Ltac by_computing := vm_compute; repeat split; (reflexivity || discriminate).
Ltac fit := split; [by apply (bool_decide_unpack _)|apply (bool_decide_unpack _); vm_compute; exact Logic.I|by_computing..].
Lemma signing_fit : fits_key 0 19639 734634269 digest_1.
Proof. fit. Qed.
Lemma root_fit : fits_key 11 16595 2615428449 digest_2.
Proof. fit. Qed.
Lemma parts_octets : octets (image_bytes (parts_of image)) ∧ octets (header (parts_of image)) ∧ octets (covered (parts_of image)) ∧ octets (firmware_data image).
Proof. apply (bool_decide_unpack _). vm_compute. exact Logic.I. Qed.
Lemma hashes : hash_of 11 (header (parts_of image)) = digest_2 ∧ hash_of 0 (firmware_data image) = digest_1 ∧
  hash_of SHA512_DIGEST_ALGORITHM (covered (parts_of image)) = header_checksum image.
Proof.
  destruct parts_octets as (_ & Hh & Hc & Hd). split; [|split].
  - exact (computed_hash 11 _ _ ltac:(done) Hh ltac:(vm_compute; reflexivity) ltac:(vm_compute; reflexivity)).
  - exact (computed_hash 0 _ _ ltac:(done) Hd ltac:(vm_compute; reflexivity) ltac:(vm_compute; reflexivity)).
  - exact (computed_hash 2 _ _ ltac:(done) Hc ltac:(vm_compute; reflexivity) ltac:(vm_compute; reflexivity)).
Qed.
Lemma parts_well_formed : well_formed (parts_of image).
Proof.
  destruct hashes as (_ & _ & Hc). destruct parts_octets as (Ho & _). split;
    lazymatch goal with |- _ = hash_of _ _ => exact (eq_sym Hc) | |- octets _ => exact Ho | |- _ => by_computing end.
Qed.
Lemma the_image_ok : image_ok image.
Proof. split; [by_computing..|apply parts_well_formed]. Qed.
Lemma the_image_trusted : trusted root_key false signing_key (parts_of image).
Proof.
  destruct hashes as (Hh & Hd & _). split; [apply parts_well_formed|]. split; [exact (key_parsed _ _ _ _ signing_fit)|].
  split; [intros _; exact (signature_valid _ _ _ _ root_fit _ Hh)|]. split; exact (signature_valid _ _ _ _ signing_fit _ Hd).
Qed.
Definition blob : list Z := image_bytes (parts_of image) ++ [1; 2; 3].
Lemma blob_octets : octets blob ∧ zlen blob < 2 ^ 29.
Proof.
  split; [apply Forall_app; split; [apply parts_octets|]; apply (bool_decide_unpack _); vm_compute; exact Logic.I|].
  unfold blob. rewrite zlen_app. change (zlen [1; 2; 3]) with 3. assert (zlen (image_bytes (parts_of image)) = 1650) as -> by (vm_compute; reflexivity). done.
Qed.
Lemma blob_key k : RSAPublicKeyFromBuf (drop 12 blob) (RSAProcessedKeySize (le (take 2 (drop 10 blob)))) = Val (Some k) → key_ok k.
Proof.
  unfold blob. destruct (key_place (parts_of image) [1; 2; 3]) as [-> ->]. cbn [parts_of p_alg p_key]. change (le (bytes_le 2 (sign_algorithm image))) with 0.
  pose proof (zlen_key_bytes 0 19639 734634269 digest_1 signing_fit) as Hz. rewrite <-Hz.
  change (Example.sign_key_bytes) with (key_bytes 0 19639 734634269 digest_1). unfold image at 1. cbn [sign_key]. unfold sign_key_bytes at 1.
  rewrite RSAPublicKeyFromBuf_prefix, Hz. rewrite (key_parsed _ _ _ _ signing_fit). intros [= <-]. exact (key_fit _ _ _ _ signing_fit).
Qed.
Lemma blob_accepted dev : VerifyFirmware memory root_key_blob blob dev = Val 0.
Proof.
  destruct the_image_trusted as (Hwf & Hp & H1 & H2 & H3).
  unfold blob. rewrite (VerifyFirmware_run memory memory_ok root_key_blob root_key signing_key);
    [|done|apply (bool_decide_unpack _); vm_compute; exact Logic.I|exact (key_parsed _ _ _ _ root_fit)|exact Hp].
  rewrite (chain_valid root_key_blob); [|done|exact (key_fit _ _ _ _ root_fit)|exact (key_fit _ _ _ _ signing_fit)|exact (key_parsed _ _ _ _ root_fit)|exact Hp].
  rewrite (decide_True (P := dev = false → _)) by (intros ?; exact (H1 eq_refl)).
  rewrite (decide_True _ _ H2), (decide_True _ _ H3). reflexivity.
Qed.
End Example.
Import Example.
Lemma accepted_images_cannot_be_read_witness : ∃ image', ReadFirmwareImage (Some blob) (Some image) = Val (false, Some image').
Proof.
  exact (accepted_images_cannot_be_read memory root_key_blob blob true image memory_ok (proj1 blob_octets) (proj2 blob_octets) (blob_accepted true)).
Defined.
